(* ===== verification/_CoqProject ===== *)
-Q . S2P
Prelude.v
StdMap.v
Bus.v
Time.v
EcaTables.v
EcaIntervals.v
EcaCorrect.v
EcaHw.v
Loop.v
Owned.v
Eca.v
EcaCompile.v
EcaOps.v
EcaConditions.v
EcaLimits.v
EcaOpsCorrect.v
LoopCorrect.v
Serdes.v
Wire.v
Container.v
ContainerCorrect.v
SinkDestroy.v
Server.v
ServerCorrect.v
Client.v
ClientCorrect.v
Allocator.v
AllocatorCorrect.v
FunctionGen.v
FunctionGenCorrect.v
FunctionGenRuns.v
FunctionGenSystem.v
MasterFg.v
MasterCorrect.v
Io.v
IoCorrect.v
ClockGen.v
IoControl.v
InOut.v
InOutCorrect.v
Saftd.v
SaftdCorrect.v
SmallDevices.v
SmallDevicesCorrect.v
BurstGen.v
Receiver.v
ReceiverCorrect.v
Wbm.v
Helpers.v
EbForward.v
EbForwardCorrect.v
SoftEca.v
SoftEcaCorrect.v
SoftDevices.v
EbSlave.v
EbSlaveCorrect.v
EbSlaveTyped.v
BurstControl.v
BurstControlCorrect.v
Texts.v
Attach.v
Generator.v
GeneratorParser.v
GeneratorOutput.v
GeneratorBases.v
GeneratorRoundtrip.v
GeneratorCorrect.v
Streams.v
Tools.v
DataMaster.v
WbmTool.v
FgTool.v
FgToolCorrect.v
PpsGen.v
Unilac.v
IoTool.v
IoToolCorrect.v
BurstTool.v
Firmware.v
