(* ===== verification/Prelude.v ===== *)
(** * Saftlib: a verification development

    Saftlib is the daemon that gives programs access to the timing receivers of an
    accelerator, and the library that they use to talk to it.  Its sources are in
    three directories: [src/saftbus/] (daemon, event loop, remote procedure calls),
    [src/saftbus-gen/] (the generator of proxies and services) and [src/src/]
    (drivers and the services they offer).

    ** The program's parts, and where they are modelled

    - Time ([src/src/Time.cpp], [Time.hpp]): file [Time].  The leap second table,
      conversions between TAI and UTC, the arithmetic of class [Time].
    - The timing receiver's event-condition-action unit (ECA), the core of the
      drivers ([ECA.cpp], [ActionSink.cpp], [Condition.cpp] and the classes
      derived from them in [src/src/]).  A client creates conditions at action
      sinks; [ECA::compile] turns the active ones into a search table and a walker
      table of the hardware.
      [EcaTables]: records, their order, and the pure part of [compile].
      [EcaHw]: the register map and what the hardware does with the tables.
      [Eca]: the objects (channels, sinks, conditions), [compile] with its register
      accesses, setters, creation, toggling, removal.
      [EcaOps]: probing, interrupts, counters, the clock, software action sinks.
      [SinkDestroy]: the destructor of a sink against the container.
      [Bus]: a cycle of bus operations, the interface to the etherbone library.
    - Ownership of driver objects ([Owned.cpp]): file [Owned].
    - The event loop ([saftbus/loop.cpp]): file [Loop].  Sources, timeouts, I/O
      sources, nested iterations.
    - Messages ([saftbus/saftbus.hpp], [saftbus.cpp]): [Serdes] (serializer and
      deserializer, one instance of class [Serde] per overload) and [Wire] (the
      framing on a socket, partial reads and writes).
    - Services and their container ([saftbus/service.cpp]): [Container].
    - The server ([saftbus/server.cpp], [Container_Service] of service.cpp):
      [Server].
    - The client library ([saftbus/client.cpp]): [Client].
    - The allocator behind [operator new]
      ([saftbus/configurable_chunck_allocator_rt.cpp]): [Allocator].
    - Function generators ([FunctionGeneratorImpl.cpp], [FunctionGenerator.cpp],
      [Mailbox.cpp]): [FunctionGen].  A queue of waveform parameters, of which the
      first are in a ring buffer in the memory of a microcontroller; channels,
      interrupts, aborts.
      The master of all generators and the firmware's scan
      ([MasterFunctionGenerator.cpp], [FunctionGeneratorFirmware.cpp]): [MasterFg].
    - Inputs and outputs: [Io] (the lines and their registers, [Io.cpp]),
      [IoControl] (the table of the lines in the hardware, [IoControl.cpp]),
      [ClockGen] (clocks on outputs, with the binary64 arithmetic of
      [SerdesClockGen.cpp]), [InOut] (the objects [Input] and [Output] and the
      trigger unit, [Input.cpp], [Output.cpp], [ECA_TLU.cpp]).
    - Interrupts and the table of devices ([SAFTd.cpp], [OpenDevice.cpp],
      [MsiDevice.cpp], [SdbDevice.cpp]): [Saftd].
    - Small devices of the timing receiver ([WhiteRabbit.cpp], [Watchdog.cpp],
      [Reset.cpp], [TempSensor.cpp], [LM32Cluster.cpp], [BuildIdRom.cpp]):
      [SmallDevices].
    - The timing receiver that inherits from all these drivers
      ([TimingReceiver.cpp] and the destructors of [ECA] and [ECA_TLU]): [Receiver],
      over [Eca], [InOut], [SmallDevices] and [Container].
    - The burst generator ([BurstGenerator.cpp]): [BurstGen]; wishbone macros
      ([WbmActionSink.cpp]): [Wbm]; masks and texts ([CommonFunctions.cpp]):
      [Helpers].
    - The forwarding of etherbone through a pseudo-terminal ([eb-forward.cpp]) and
      the event source of the etherbone socket ([eb-source.cpp]): [EbForward].
    - The software timing receiver, a program in place of the hardware
      ([saft-software-tr.cpp]): [SoftEca] (its ECA, which guesses conditions from
      the search table that the driver writes), [SoftDevices] (the other devices,
      the SDB records that place them, their extraction from hardware), [EbSlave]
      (the slave that executes requests of etherbone, and the main loop).
    - The burst control tool ([saft-burst-ctl.cpp]), a client: [BurstControl] (its
      operations, over an interface of proxies), [BurstTool] (options, the variables they
      set, the option file, [main]).  The I/O tool ([saft-io-ctl.cpp]), which has the
      same operations on lines and conditions: [IoTool].
    - Tools for users, clients of the daemon as well, each over the interfaces of the
      proxies it calls: [DataMaster] (schedules of events, [saft-dm.cpp]), [PpsGen] (a
      pulse per second, [saft-pps-gen.cpp]), [FgTool] (waveforms for function
      generators, [saft-fg-ctl.cpp]), [WbmTool] (macros of wishbone accesses,
      [saft-wbm-ctl.cpp]), [Unilac] (displays of the cycles of an accelerator,
      [saft-uni.cpp]).  [Streams] has the reading of numbers and lines, [Tools] the
      interface [Device] of a timing receiver, with its laws [DeviceOk], and what the
      tools share.
    - From the daemon's arguments to devices ([saftbusd-noda.cpp], [plugins.cpp], the
      constructor in [server.cpp], [create_service.cpp]): [Attach].  The objects of the
      function generator firmware in the container, and the plugins that install firmware
      ([FunctionGeneratorFirmware.cpp], [fg_firmware_create_service.cpp],
      [bg_firmware_create_service.cpp]): [Firmware].
    - The code generator ([saftbus-gen.cpp]): [Generator] (comments, scopes,
      signatures, classes), [GeneratorParser] (the loop over the lines, included
      files, base classes), [GeneratorOutput] (the texts of proxies and services, the
      options).  [Texts] has what these files use of strings and string streams.

    The client sends a request over its socket ([Client], [Wire]); the socket is
    an I/O source of the daemon's loop ([Loop]), whose slot reads the request,
    finds the service in the container and runs it ([Server], [Container]); a
    service of a driver works on the objects of the driver ([Eca], [EcaOps]),
    which checks the owner ([Owned]), changes the hardware over the bus ([Bus],
    [EcaHw]) and uses timeouts of the same loop.

    ** How the model follows the code

    A C++ object is a record with the members of its class; a method is a function
    of the same name on the state it works on.  Code that changes state or may
    fail is written in the monad [M] of this file: state in, outcome and state out.
    [Ret] is a return, [Throw] an exception (what was changed before stays
    changed), [Crash] an assertion that fails or behaviour that the language does
    not define.  A [std::map] is the list of its entries in key order ([StdMap]),
    a pointer to an object is its place ([SinkLoc], an address, an object id),
    integers are [Z] with the wrap-around of their type where the code computes.
    A callback or slot is data of a type that the section takes as a parameter,
    and a function that runs it on the whole state, so that it may change
    everything the real one may change.  System calls ([poll], [read], [write],
    [malloc], the clock), the etherbone bus, plugins and the generated proxies and
    services are parameters: type classes of operations ([Posix], [ClientSys],
    [Bus], [Heap]), with their documented behaviour in a second class ([PosixOk],
    [Reliable], [HeapOk], ...) where a theorem needs it.  Each such class has an
    instance at the theorems' witnesses.

    ** What the theorems show

    - [EcaCompile.compile_correct]: after [compile] the hardware answers every
      event with exactly the actions of the active conditions that match it, or
      [compile] throws and tables and driver are as before, for a well-formed state
      ([eca_wf]) whose active conditions fit into the walker table; [EcaLimits] has
      states that do not fit.  The proof goes over
      an invariant of the walk ([EcaCorrect]: the stack in [next] holds the
      conditions that contain the cursor) and over nested or disjoint intervals
      ([EcaIntervals]); it holds for every sorting function, since [std::sort]
      does not fix the order of equal records.
      [EcaConditions]: under the same conditions each operation on conditions takes
      effect in driver and hardware or changes neither.  [EcaLimits]: what the constructor's checks are
      worth, and what the setters and the capacity check let through.
      [EcaOpsCorrect]: the 64-bit clock read through two registers, the dispatch
      of actions from the queue of the hardware, new sinks.  [SinkDestroy]: a destructor that throws.
    - [Wire.message_roundtrip], [ServerCorrect.saftbus_info_roundtrip],
      [Serdes.SerdeOk]: what was put and written is read and got, for all
      overloads, however the socket splits the bytes.
    - [ContainerCorrect]: the two maps of the container stay consistent; creation,
      removal, and the end of a client that owns objects.
    - [ServerCorrect], [ClientCorrect]: a method of the container's proxy, in a process
      whose socket ends at a daemon, does what the local call does (a refinement of the
      whole path through serializer, request decoding, function and reply); signals
      reach every proxy of their object, and [wait_for_signal] delivers all that are
      pending, in order; what is left behind by failed constructions and hang-ups.
    - [LoopCorrect]: identifiers are fresh, timeouts keep their raster, the vector
      of sources is not moved under a running iteration.
    - [FunctionGenCorrect]: the records in the ring buffer can be decoded
      ([record_roundtrip]); [refill] and [acquireChannel] keep the invariant that
      queue, ring buffer and channel allocation agree.  [FunctionGenRuns]: so do all
      other operations.  [FunctionGenSystem]: in any sequence of calls, interrupts,
      timeouts and accesses of the microcontroller no assertion fails
      ([no_assertion_fails]), the ring buffer holds the front of the queue
      ([refill_refines_queue]), an abort ends.  [MasterCorrect]: the same with a
      master in front, and a scan makes the system that these theorems start from
      ([scan_makes_fresh_system]).
    - [IoCorrect]: the methods of the lines implement a table of properties
      ([lines_refine_table]) up to index 31, and what they do above
      ([high_lines_off_by_one]).  [IoControl]: the table of lines is decoded as
      it was encoded.  [ClockGen]: the bit patterns of integral clocks, over a proved
      link from binary64 to the integers.  [InOutCorrect]: objects and trigger unit
      agree as long as the bus does; what a failing bus leaves behind.
    - [SaftdCorrect]: an interrupt reaches the driver that requested it and no other,
      for every sequence of requests and releases; polling keeps the order, and loses at
      most one interrupt when the bus fails.
      [SmallDevicesCorrect]: firmware and build information arrive as they are.
      [ReceiverCorrect]: what a timing receiver publishes and that its destruction
      takes out the same.
    - [BurstGen]: commands and arguments stay together, and at every point between two
      writes the firmware finds the arguments of the command it sees; when the question for
      the firmware ends.  [Wbm.RecordMacro_records]: a macro is stored as it is or not
      at all.  [Helpers]: masks and texts.
    - [AllocatorCorrect]: reserved blocks are disjoint, in pools and on the heap;
      no assertion fails when every freed block was reserved.
    - [EbForwardCorrect.request_forwarded]: requests and answers pass unchanged.
    - [SoftEcaCorrect]: when the simulated ECA agrees with [EcaHw.hw_actions] on the
      tables of [EcaTables.build_tables] ([simulated_eca_agrees]), and what it does
      otherwise ([first_condition_gets_all], [inject_without_conditions_diverges]).
      [EbSlaveCorrect.packet_answered]: the rounds of the slave refine the
      execution of requests one after the other; [EbSlaveTyped]: whatever is read,
      its state stays well formed and no queue is read when it is empty.  Both are
      proved against the interface [EbSlave.Wishbone], of which the board of
      [SoftDevices] is an instance.
    - [BurstControlCorrect.burst_configured]: on a daemon that accepts what it is asked
      for, the tool makes exactly the conditions of the pulses of a burst.
      [BurstTool.burst_file_runs]: the numbers in the lines of an option file are the
      arguments of the operations, for every [getopt] with the laws [GetoptOk].
    - [IoToolCorrect.settings_reach_line]: the settings of the I/O tool reach the
      registers of [Io], or are refused as a whole, or the bus fails and the first of
      them are made; [edges_named]: the edges of an input
      are shown with its name.
    - [DataMaster.schedule_injected], [PpsGen.one_pulse_per_second]: what the tools
      inject and when, against the laws of a clock that never goes back, whatever time
      passes between two calls.  [FgToolCorrect.waveform_loaded] and
      [WbmTool.macro_file_recorded] run the tool against the drivers of
      [FunctionGen] and [Wbm] themselves: what is in the file is what the hardware gets.
      [Unilac]: the counters of the display refine tables that are computed from
      the list of events.
    - [Firmware.scan_publishes]: the scan of [MasterFg], the container and the ownership of
      objects together; its demo shows what happens when two clients scan, and when the
      owner of the master quits.  [burst_arguments_installed]: the plugin of the burst
      generator installs what its arguments say.
    - [Attach]: plugins with their arguments ([plugins_grouped]); arguments of
      the documented form attach the devices they name ([arguments_attached]).
    - [GeneratorCorrect.stubs_agree]: the texts that the generator writes for the two
      ends of a call, read as the statements and the [switch] that they are, send
      and receive the same values in the same order.  [GeneratorRoundtrip]: the
      declarations it writes are read back.  [GeneratorBases]: the recursion over
      base classes ends.
    - [Owned.ownership_exclusive], [Time.TAI_UTC_roundtrip], [Time.time_add_sub].

    Theorems whose doc comment begins with C and a number are the properties of
    the manifest; some of them state behaviour that the code did not intend (the
    findings of the manifest name them).

    ** Fuel

    Loops without a structural measure take fuel.
    [wait_id] has the 20 rounds of the code, [poll_rounds] the five interrupts in one
    go, [configure_slots] two (the mailbox does not give slot 0 twice while it is
    taken), [try_irqs] as many as random numbers are supplied, [digits] 64 digits
    (enough in every base, [read_digits_acc]); [await_answer] may run for ever
    ([BurstGen.firmwareRunning_tenth_reading]).
    [wait_scan] has the 201 rounds of the code; [pop_completed] recurses over the
    queue.  The fuel of [read_time] is that of [ReadRawCurrentTime].
    [max_request] (the bytes of the longest request) is enough for
    [accept_connection] ([EbForwardCorrect.accept_connection_ends]); [detect_version_loop],
    [scope_chars] and [words] have a round per character; [block_loop] has a round per
    nanosecond of the shortest block ([BurstControlCorrect.blocks_spec]);
    [await_response] follows as many signals as the caller wants, [BurstTool.parse_options]
    as many options ([BurstTool.BurstToolDemo.instruct_loops]: on some lines no number is
    enough), [snoop_loop] as many rounds; [PpsGen.pulses] and
    [FgTool.main_loop] as many rounds as the caller wants, since they run until the user
    ends them; [read_rows] has a round per character; [fill_loop] needs a round more than
    the threshold of the driver ([FgToolCorrect.waveform_loaded]), unless the queue has no
    capacity; the recursion over base
    classes has the number of classes ([GeneratorBases.bases_end]); [cpp_parser]
    takes the depth of the included files from its caller, since without guards
    there is no bound; a walk of the
    simulated ECA takes at most a round per walker
    ([SoftEcaCorrect.simulated_eca_agrees]), unless it has none; [EbSlave.iterate]
    takes a round per word ([EbSlaveCorrect.packet_answered]); [scan_block] has a
    round per record; [read_sdb] has the depth of the bridges.
    Proved to be enough: [fill_ram], a round per word of the memory; [walk_records], the number of records, each round takes
    one; [write_all], [read_all], a round per byte on a reliable stream; [advance]
    (timeouts), the intervals that elapsed; [next_free], more identifiers than
    objects; [ReadRawCurrentTime], two rounds; [drain_signals], the pending
    signals; [client_hung_up], the objects of the client, unless another client
    owns an object below one of them, when no fuel is enough
    ([ContainerCorrect.client_hung_up_diverges]).
    Not proved: [clear_objects] runs for at most the number of objects, each of its
    rounds removing one; [createConditionNumber] has the random numbers that are
    supplied; [run_loop] runs as long as the caller of the model wants.

    ** Not modelled

    A bus cycle that fails is taken to leave the device as it was ([Bus]); the sockets,
    of type SOCK_SEQPACKET, are seen as streams ([Wire]), which agrees for a reader that
    asks for the pieces the writer wrote.
    Threads and locks of the client (calls are run one after the other), the
    set-up of sockets and processes, dlopen, [getopt], printing, tests and examples.
    The remaining command line tools ([saft-ctl.cpp], [saft-mfg-ctl.cpp], [saft-lcd.cpp],
    [saft-clk-gen.cpp], [saft-scu-ctl.cpp], [saft-ecpu-ctl.cpp], [saft-gmt-check.cpp],
    [saftbus-ctl.cpp]) call proxies and print what they return.  Of the generated code
    the model has the puts and gets and the [switch] on numbers; elsewhere generated
    proxies and services are parameters.  The shared memory of [MasterFunctionGenerator]
    (boost) is an argument.  An exception in the interrupt that ends a run of a function
    generator is not a step of [FunctionGenSystem.fg_step]: it leaves queue and ring
    buffer out of step (see the findings). *)
From stdpp Require Export base tactics list list_numbers option numbers strings sorting.
From Stdlib Require Export ZArith Lia.

Declare Scope saft_scope.
Delimit Scope saft_scope with saft.

(** ** Machine integers

    A C++ integer of width [w] is a [Z]; the wrap-around of its type is
    written where the source computes with that type. *)
Definition unsigned_wrap (w x : Z) : Z := x mod 2 ^ w.
Definition signed_wrap (w x : Z) : Z :=
  (x + 2 ^ (w - 1)) mod 2 ^ w - 2 ^ (w - 1).

Abbreviation u8 := (unsigned_wrap 8).
Abbreviation u16 := (unsigned_wrap 16).
Abbreviation u32 := (unsigned_wrap 32).
Abbreviation u64 := (unsigned_wrap 64).
Abbreviation s8 := (signed_wrap 8).
Abbreviation s16 := (signed_wrap 16).
Abbreviation s32 := (signed_wrap 32).
Abbreviation s64 := (signed_wrap 64).

(** ** Exceptions

    [saftbus::Error::Type] of saftbus/error.hpp and the exceptions that the
    modelled code throws or lets through. *)
Inductive error_type :=
  | NO_ERROR | INVALID_ARGS | UNKNOWN_METHOD | IO_ERROR | ACCESS_DENIED | FAILED.

Inductive exn :=
  | Error (type : error_type) (what : string)
  | RuntimeError (what : string)
  | EtherboneError
  | OtherException.

(** What a call does: return, throw (the state keeps every change made before
    the throw), or end the process ([assert]) or have no defined behaviour. *)
Inductive outcome (A : Type) :=
  | Ret (a : A)
  | Throw (e : exn)
  | Crash (why : string).
Arguments Ret {_} _.
Arguments Throw {_} _.
Arguments Crash {_} _.

(** Outcomes in sequence. *)
#[global] Instance outcome_ret : MRet outcome := fun _ a => Ret a.
#[global] Instance outcome_bind : MBind outcome := fun _ _ k m =>
  match m with Ret a => k a | Throw e => Throw e | Crash w => Crash w end.

(** ** State and exceptions: the monad of the stateful code *)
Definition M (S A : Type) : Type := S -> outcome A * S.

#[global] Instance M_ret {S} : MRet (M S) := fun _ a s => (Ret a, s).
#[global] Instance M_bind {S} : MBind (M S) := fun _ _ k m s =>
  match m s with
  | (Ret a, s') => k a s'
  | (Throw e, s') => (Throw e, s')
  | (Crash w, s') => (Crash w, s')
  end.

Definition get {S} : M S S := fun s => (Ret s, s).
Definition put {S} (s : S) : M S unit := fun _ => (Ret tt, s).
Definition gets {S A} (f : S -> A) : M S A := fun s => (Ret (f s), s).
Definition modify {S} (f : S -> S) : M S unit := fun s => (Ret tt, f s).
Definition of_outcome {S A} (o : outcome A) : M S A := fun s => (o, s).
Definition throw {S A} (e : exn) : M S A := fun s => (Throw e, s).
Definition crash {S A} (why : string) : M S A := fun s => (Crash why, s).

(** [try { m } catch (...) { h }]: an assertion failure is not caught. *)
Definition try_catch {S A} (m : M S A) (h : exn -> M S A) : M S A := fun s =>
  match m s with
  | (Throw e, s') => h e s'
  | r => r
  end.

(** [assert(b)] *)
Definition massert {S} (b : bool) (why : string) : M S unit :=
  if b then mret tt else crash why.

(** [if (b) throw e;] *)
Definition throw_if {S} (b : bool) (e : exn) : M S unit :=
  if b then throw e else mret tt.

(** [for (x : l) f(x);] *)
Fixpoint for_each {S A} (f : A -> M S unit) (l : list A) : M S unit :=
  match l with
  | [] => mret tt
  | x :: l' => f x ;; for_each f l'
  end.

(** Run [m] on a part of the state. *)
Definition zoom {S T A} (proj : S -> T) (inj : T -> S -> S) (m : M T A) : M S A :=
  fun s => let '(r, t) := m (proj s) in (r, inj t s).

(** ** Lemmas on machine integers *)
Section Words.
Local Open Scope Z_scope.

Lemma unsigned_wrap_range w x : 0 <= w -> 0 <= unsigned_wrap w x < 2 ^ w.
Proof. intros Hw. apply Z.mod_pos_bound. lia. Qed.

Lemma unsigned_wrap_small w x : 0 <= x < 2 ^ w -> unsigned_wrap w x = x.
Proof. apply Z.mod_small. Qed.

Lemma unsigned_wrap_idemp w x :
  unsigned_wrap w (unsigned_wrap w x) = unsigned_wrap w x.
Proof. unfold unsigned_wrap. apply Zmod_mod. Qed.

Lemma unsigned_wrap_add_l w x y :
  unsigned_wrap w (unsigned_wrap w x + y) = unsigned_wrap w (x + y).
Proof. apply Zplus_mod_idemp_l. Qed.

Lemma unsigned_wrap_add_r w x y :
  unsigned_wrap w (x + unsigned_wrap w y) = unsigned_wrap w (x + y).
Proof. apply Zplus_mod_idemp_r. Qed.

Lemma unsigned_wrap_sub_l w x y :
  unsigned_wrap w (unsigned_wrap w x - y) = unsigned_wrap w (x - y).
Proof. apply Zminus_mod_idemp_l. Qed.

Lemma unsigned_wrap_sub_r w x y :
  unsigned_wrap w (x - unsigned_wrap w y) = unsigned_wrap w (x - y).
Proof. apply Zminus_mod_idemp_r. Qed.

Lemma signed_wrap_small w x :
  0 < w -> - 2 ^ (w - 1) <= x < 2 ^ (w - 1) -> signed_wrap w x = x.
Proof.
  intros Hw Hx. unfold signed_wrap.
  assert (2 ^ w = 2 * 2 ^ (w - 1)) as E.
  { rewrite <- Z.pow_succ_r by lia. f_equal. lia. }
  rewrite Z.mod_small; lia.
Qed.

Lemma signed_wrap_range w x :
  0 < w -> - 2 ^ (w - 1) <= signed_wrap w x < 2 ^ (w - 1).
Proof.
  intros Hw. unfold signed_wrap.
  assert (2 ^ w = 2 * 2 ^ (w - 1)) as E.
  { rewrite <- Z.pow_succ_r by lia. f_equal. lia. }
  pose proof (Z.mod_pos_bound (x + 2 ^ (w - 1)) (2 ^ w)). lia.
Qed.
(** A number in two parts. *)
Lemma lor_shiftl_low hi lo k : 0 <= k -> 0 <= lo < 2 ^ k -> Z.lor (Z.shiftl hi k) lo = hi * 2 ^ k + lo.
Proof.
  intros Hk Hlo. rewrite Z.shiftl_mul_pow2 by done.
  assert (Z.land (hi * 2 ^ k) lo = 0) as Hd.
  { rewrite <- (Z.mod_small lo (2 ^ k)) by done. rewrite <- Z.land_ones, <- Z.shiftl_mul_pow2 by done.
    apply Z.bits_inj'. intros i Hi. rewrite Z.bits_0, !Z.land_spec. destruct (Z.lt_ge_cases i k).
    - by rewrite Z.shiftl_spec_low.
    - by rewrite Z.ones_spec_high, !andb_false_r by lia. }
  rewrite <- Z.lxor_lor, <- Z.add_nocarry_lxor by done. done.
Qed.
End Words.

Create HintDb saft discriminated.
Create Rewrite HintDb saft.
#[export] Hint Rewrite unsigned_wrap_idemp unsigned_wrap_add_l unsigned_wrap_add_r
  unsigned_wrap_sub_l unsigned_wrap_sub_r : saft.

(** [wrap_lia]: arithmetic modulo 8, 16, 32 or 64 bits whose operands are in
    range. *)
Ltac wrap_lia :=
  unfold unsigned_wrap, signed_wrap in *;
  change (2 ^ (64 - 1))%Z with 9223372036854775808%Z in *;
  change (2 ^ (32 - 1))%Z with 2147483648%Z in *;
  change (2 ^ (16 - 1))%Z with 32768%Z in *;
  change (2 ^ (8 - 1))%Z with 128%Z in *;
  change (2 ^ 64)%Z with 18446744073709551616%Z in *;
  change (2 ^ 32)%Z with 4294967296%Z in *;
  change (2 ^ 16)%Z with 65536%Z in *;
  change (2 ^ 8)%Z with 256%Z in *;
  Z.div_mod_to_equations; lia.

(** ** The monad's equations *)
Section MonadLemmas.
Context {S : Type}.

Lemma run_ret {A} (a : A) (s : S) : (mret a : M S A) s = (Ret a, s).
Proof. reflexivity. Qed.

Lemma run_bind_ret {A B} (m : M S A) (k : A -> M S B) s a s' :
  m s = (Ret a, s') -> (m ≫= k) s = k a s'.
Proof. intros E. unfold mbind, M_bind. by rewrite E. Qed.

Lemma run_bind_throw {A B} (m : M S A) (k : A -> M S B) s e s' :
  m s = (Throw e, s') -> (m ≫= k) s = (Throw e, s').
Proof. intros E. unfold mbind, M_bind. by rewrite E. Qed.

Lemma run_bind_inv {A B} (m : M S A) (k : A -> M S B) s b s'' :
  (m ≫= k) s = (Ret b, s'') ->
  exists a s', m s = (Ret a, s') /\ k a s' = (Ret b, s'').
Proof.
  unfold mbind, M_bind. destruct (m s) as [[a|e|w] s'] eqn:E; [eauto|done|done].
Qed.
End MonadLemmas.

Lemma for_each_app {T A} (f : A -> M T unit) l1 l2 s : for_each f (l1 ++ l2) s = (for_each f l1;; for_each f l2) s.
Proof.
  revert s. induction l1 as [|x l1 IH]; intros s; [done|]. cbn [app for_each]. unfold mbind, M_bind.
  destruct (f x s) as [[[]|e|y] s1]; [|done..]. by rewrite IH.
Qed.

(** ** What a call keeps, however it ends *)
Definition keeps {S A} (Q : S -> Prop) (m : M S A) : Prop := forall s, Q s -> Q (m s).2.

Section Keeps.
Context {S : Type} (Q : S -> Prop).

Lemma keeps_bind {A B} (m : M S A) (k : A -> M S B) :
  keeps Q m -> (forall a, keeps Q (k a)) -> keeps Q (m ≫= k).
Proof.
  intros Hm Hk s Hs. unfold mbind, M_bind. specialize (Hm s Hs).
  destruct (m s) as [[a|e|why] s']; [by apply Hk|done|done].
Qed.
Lemma keeps_ret {A} (a : A) : keeps Q (mret a : M S A).
Proof. by intros s. Qed.
Lemma keeps_throw {A} e : keeps Q (throw e : M S A).
Proof. by intros s. Qed.
Lemma keeps_gets {A} (f : S -> A) : keeps Q (gets f).
Proof. by intros s. Qed.
Lemma keeps_crash {A} why : keeps Q (crash why : M S A).
Proof. by intros s. Qed.
Lemma keeps_modify (f : S -> S) : (forall s, Q s -> Q (f s)) -> keeps Q (modify f).
Proof. intros Hf s Hs. by apply Hf. Qed.
Lemma keeps_try_catch {A} (m : M S A) (h : exn -> M S A) :
  keeps Q m -> (forall e, keeps Q (h e)) -> keeps Q (try_catch m h).
Proof.
  intros Hm Hh s Hs. unfold try_catch. specialize (Hm s Hs).
  destruct (m s) as [[a|e|why] s']; [done|by apply Hh|done].
Qed.
Lemma keeps_for_each {A} (f : A -> M S unit) l : (forall x, keeps Q (f x)) -> keeps Q (for_each f l).
Proof. intros Hf. induction l as [|x l IH]; [apply keeps_ret|]. cbn. by apply keeps_bind. Qed.
Lemma keeps_if {A} (b : bool) (m1 m2 : M S A) : keeps Q m1 -> keeps Q m2 -> keeps Q (if b then m1 else m2).
Proof. by destruct b. Qed.
End Keeps.

Create HintDb keeps discriminated.
#[export] Hint Resolve keeps_bind keeps_ret keeps_throw keeps_gets keeps_crash keeps_if
  keeps_try_catch : keeps.

(** ** Triples: from [P] the program does not crash; it returns in [Q] or throws
    in [E]. *)
Definition triple {S A} (P : S -> Prop) (m : M S A) (Q : A -> S -> Prop) (E : S -> Prop) : Prop :=
  forall s, P s -> match m s with
                   | (Ret a, s') => Q a s'
                   | (Throw _, s') => E s'
                   | (Crash _, _) => False
                   end.

Section Triples.
Context {S : Type} (E : S -> Prop).

Lemma triple_bind {A B} (P : S -> Prop) R Q (m : M S A) (k : A -> M S B) :
  triple P m R E -> (forall a, triple (R a) (k a) Q E) -> triple P (m ≫= k) Q E.
Proof.
  intros Hm Hk s Hs. specialize (Hm s Hs). unfold mbind, M_bind.
  destruct (m s) as [[a|e|w] s']; [by apply Hk|done|done].
Qed.
Lemma triple_ret {A} (P : S -> Prop) (Q : A -> S -> Prop) a :
  (forall s, P s -> Q a s) -> triple P (mret a) Q E.
Proof. intros Hq s Hs. by apply Hq. Qed.
Lemma triple_throw {A} (P : S -> Prop) (Q : A -> S -> Prop) e :
  (forall s, P s -> E s) -> triple P (throw e) Q E.
Proof. intros He s Hs. by apply He. Qed.
Lemma triple_pre {A} (P P' : S -> Prop) (Q : A -> S -> Prop) m :
  (forall s, P s -> P' s) -> triple P' m Q E -> triple P m Q E.
Proof. intros Hp Hm s Hs. by apply Hm, Hp. Qed.
Lemma triple_post {A} (P : S -> Prop) (Q Q' : A -> S -> Prop) m :
  triple P m Q' E -> (forall a s, Q' a s -> Q a s) -> triple P m Q E.
Proof.
  intros Hm Hq s Hs. specialize (Hm s Hs). destruct (m s) as [[a|e|w] s']; auto.
Qed.
Lemma triple_throw_if (P : S -> Prop) b e :
  (b = true -> forall s, P s -> E s) -> triple P (throw_if b e) (fun _ s => P s /\ b = false) E.
Proof. intros He s Hs. destruct b; cbn; auto. Qed.
Lemma triple_assert (P : S -> Prop) b why :
  (forall s, P s -> b = true) -> triple P (massert b why) (fun _ => P) E.
Proof. intros Hb s Hs. by rewrite (Hb s Hs). Qed.
Lemma triple_gets {A} (P : S -> Prop) (f : S -> A) : triple P (gets f) (fun a s => P s /\ a = f s) E.
Proof. by intros s Hs. Qed.
Lemma triple_modify (P Q : S -> Prop) f :
  (forall s, P s -> Q (f s)) -> triple P (modify f) (fun _ => Q) E.
Proof. intros Hq s Hs. by apply Hq. Qed.
Lemma triple_try_catch {A} (P E' : S -> Prop) (Q : A -> S -> Prop) m h :
  triple P m Q E' -> (forall e, triple E' (h e) Q E) -> triple P (try_catch m h) Q E.
Proof.
  intros Hm Hh s Hs. specialize (Hm s Hs). unfold try_catch.
  destruct (m s) as [[a|e|w] s']; [done|by apply Hh|done].
Qed.
Lemma triple_get_pre {A} (P : S -> Prop) (Q : A -> S -> Prop) m :
  (forall s, P s -> triple (fun s' => s' = s) m Q E) -> triple P m Q E.
Proof. intros Hm s Hs. by apply (Hm s Hs). Qed.
Lemma triple_keeps {A} (P R : S -> Prop) (Q : A -> S -> Prop) m :
  triple P m Q E -> keeps R m ->
  triple (fun s => P s /\ R s) m (fun a s => Q a s /\ R s) (fun s => E s /\ R s).
Proof.
  intros Hm Hr s [Hs HR]. specialize (Hm s Hs). specialize (Hr s HR).
  by destruct (m s) as [[a|e|w] s'].
Qed.
Lemma triple_exn {A} (P E' : S -> Prop) (Q : A -> S -> Prop) m :
  triple P m Q E' -> (forall s, E' s -> E s) -> triple P m Q E.
Proof. intros Hm He s Hs. specialize (Hm s Hs). destruct (m s) as [[a|e|w] s']; auto. Qed.
Lemma triple_ex {A X} (P : X -> S -> Prop) (Q : A -> S -> Prop) m :
  (forall x, triple (P x) m Q E) -> triple (fun s => exists x, P x s) m Q E.
Proof. intros Hm s [x Hx]. by apply (Hm x). Qed.
Lemma triple_pure {A} (P : S -> Prop) (X : Prop) (Q : A -> S -> Prop) m :
  (X -> triple P m Q E) -> triple (fun s => P s /\ X) m Q E.
Proof. intros Hm s [Hs Hx]. by apply Hm. Qed.
End Triples.

(** [mrun] computes one step of a monadic program. *)
Ltac mrun :=
  repeat first
    [ progress (unfold get, put, gets, modify, throw, crash, massert, throw_if)
    | progress (unfold mbind, M_bind, mret, M_ret; cbn beta iota) ].

(** ** Sorted lists and filters *)
Section Lists.
Context {A : Type}.
Implicit Types (l : list A).

Lemma StronglySorted_filter (R : relation A) (P : A -> Prop) `{!forall x, Decision (P x)} l :
  StronglySorted R l -> StronglySorted R (filter P l).
Proof.
  induction 1 as [|x l Hs IH Hall]; [constructor|]. rewrite filter_cons.
  case_decide; [|done]. constructor; [done|]. rewrite Forall_forall in *.
  intros y [_ Hy]%list_elem_of_filter. auto.
Qed.

Lemma StronglySorted_impl_in (R R' : relation A) l :
  (forall a b, a ∈ l -> b ∈ l -> R a b -> R' a b) ->
  StronglySorted R l -> StronglySorted R' l.
Proof.
  intros Himpl Hs. revert Himpl. induction Hs as [|x l Hs IH Hall]; intros Himpl; constructor.
  - apply IH. intros a b Ha Hb. apply Himpl; by right.
  - rewrite Forall_forall in *. intros y Hy. apply Himpl; [by left|by right|auto].
Qed.

Lemma list_filter_iff_in (P Q : A -> Prop) `{!forall x, Decision (P x)} `{!forall x, Decision (Q x)} l :
  (forall x, x ∈ l -> P x <-> Q x) -> filter P l = filter Q l.
Proof.
  induction l as [|x l IH]; intros Hpq; [done|]. rewrite !filter_cons.
  rewrite IH by (intros y Hy; apply Hpq; by right).
  assert (P x <-> Q x) by (apply Hpq; by left).
  do 2 case_decide; naive_solver.
Qed.

Lemma filter_all (P : A -> Prop) `{!forall x, Decision (P x)} l :
  (forall x, x ∈ l -> P x) -> filter P l = l.
Proof.
  induction l as [|x l IH]; intros Hp; [done|]. rewrite filter_cons_True by (apply Hp; by left).
  f_equal. apply IH. intros y Hy. apply Hp. by right.
Qed.

Lemma filter_none (P : A -> Prop) `{!forall x, Decision (P x)} l :
  (forall x, x ∈ l -> ~ P x) -> filter P l = [].
Proof.
  induction l as [|x l IH]; intros Hp; [done|]. rewrite filter_cons_False by (apply Hp; by left).
  apply IH. intros y Hy. apply Hp. by right.
Qed.

(** In a sorted list a downward closed property holds of a prefix. *)
Lemma sorted_prefix (R : relation A) (P : A -> Prop) `{!forall x, Decision (P x)} l :
  StronglySorted R l ->
  (forall a b, a ∈ l -> b ∈ l -> R a b -> P b -> P a) ->
  l = filter P l ++ filter (fun x => ~ P x) l.
Proof.
  induction 1 as [|x l Hs IH Hall]; intros Hdown; [done|].
  destruct (decide (P x)) as [Hx|Hx].
  - rewrite filter_cons_True, filter_cons_False by naive_solver. cbn. f_equal.
    apply IH. intros a b Ha Hb. apply Hdown; by right.
  - rewrite filter_cons_False, filter_cons_True by done.
    rewrite (filter_none P l), (filter_all (fun x => ~ P x) l); [done| |].
    + intros y Hy HP. apply Hx. rewrite Forall_forall in Hall.
      apply (Hdown x y); [by left|by right|auto|done].
    + intros y Hy HP. apply Hx. rewrite Forall_forall in Hall.
      apply (Hdown x y); [by left|by right|auto|done].
Qed.

Lemma head_Some_elem_of l x : head l = Some x -> x ∈ l.
Proof. destruct l; cbn; [done|]. intros [= ->]. by left. Qed.

Lemma filter_Permutation_length (P : A -> Prop) `{!forall x, Decision (P x)} l l' :
  l ≡ₚ l' -> length (filter P l) = length (filter P l').
Proof. intros Hp. by rewrite Hp. Qed.
End Lists.
