(* ===== verification/StdMap.v ===== *)
(** * [std::map]: an ordered association list

    The program iterates its [std::map]s in key order, forwards (printing,
    compiling, removal checks) and backwards (destruction order), so a map is
    the list of its entries in key order.  [map_set] is [m[k] = v] and the
    insertion of a new key, [map_find] is [find], [map_erase] is [erase]. *)
From S2P Require Import Prelude.
From Stdlib Require Import String.
From stdpp Require Import sorting.

(** The strict order of the keys ([std::less]). *)
Class StdLess (K : Type) := key_lt : K -> K -> bool.

Class StdLessOk (K : Type) `{EqDecision K, StdLess K} := {
  key_lt_irrefl : forall k, key_lt k k = false;
  key_lt_trans : forall a b c, key_lt a b = true -> key_lt b c = true -> key_lt a c = true;
  key_lt_total : forall a b, key_lt a b = true \/ a = b \/ key_lt b a = true
}.

#[export] Instance Z_less : StdLess Z := Z.ltb.
#[export] Instance Z_less_ok : StdLessOk Z.
Proof.
  split; unfold key_lt, Z_less; intros.
  - apply Z.ltb_irrefl.
  - rewrite Z.ltb_lt in *. lia.
  - rewrite !Z.ltb_lt. lia.
Qed.

(** [std::less<std::string>]: lexicographic, as [String.ltb]. *)
#[export] Instance string_less : StdLess string := String.ltb.

Lemma ascii_compare_trans a b c :
  Ascii.compare a b = Lt -> Ascii.compare b c = Lt -> Ascii.compare a c = Lt.
Proof. unfold Ascii.compare. rewrite !N.compare_lt_iff. lia. Qed.

Lemma ascii_compare_eq a b : Ascii.compare a b = Eq -> a = b.
Proof.
  unfold Ascii.compare. intros E%N.compare_eq_iff.
  by rewrite <- (Ascii.ascii_N_embedding a), <- (Ascii.ascii_N_embedding b), E.
Qed.

Lemma string_compare_trans a b c :
  String.compare a b = Lt -> String.compare b c = Lt -> String.compare a c = Lt.
Proof.
  revert b c. induction a as [|x a IH]; intros [|y b] [|z c]; cbn; try done.
  destruct (Ascii.compare x y) eqn:Exy, (Ascii.compare y z) eqn:Eyz; try done; intros H1 H2;
    repeat match goal with H : Ascii.compare _ _ = Eq |- _ => apply ascii_compare_eq in H; subst end.
  - assert (Ascii.compare z z = Eq) as -> by (unfold Ascii.compare; by apply N.compare_eq_iff).
    by eapply IH.
  - by rewrite Eyz.
  - by rewrite Exy.
  - by rewrite (ascii_compare_trans _ _ _ Exy Eyz).
Qed.

#[export] Instance string_less_ok : StdLessOk string.
Proof.
  split; unfold key_lt, string_less, String.ltb; intros.
  - pose proof (String.compare_antisym k k). by destruct (String.compare k k).
  - destruct (String.compare a b) eqn:Eab; try done. destruct (String.compare b c) eqn:Ebc; try done.
    by rewrite (string_compare_trans _ _ _ Eab Ebc).
  - rewrite (String.compare_antisym a b). destruct (String.compare b a) eqn:E; cbn.
    + right; left. symmetry. by apply String.compare_eq_iff.
    + by right; right.
    + by left.
Qed.

Section Maps.
Context {K V : Type} `{EqDecision K} `{StdLess K}.
Implicit Types (m : list (K * V)) (k : K) (v : V).

Fixpoint map_find k m : option V :=
  match m with
  | [] => None
  | (k', v) :: m' => if decide (k = k') then Some v else map_find k m'
  end.

Fixpoint map_set k v m : list (K * V) :=
  match m with
  | [] => [(k, v)]
  | (k', v') :: m' =>
      if decide (k = k') then (k, v) :: m'
      else if key_lt k k' then (k, v) :: (k', v') :: m'
      else (k', v') :: map_set k v m'
  end.

Definition map_erase k m : list (K * V) := filter (fun p => p.1 ≠ k) m.

(** Change the entry of [k], if there is one. *)
Definition map_update (f : V -> V) k m : list (K * V) :=
  (fun p => if decide (p.1 = k) then (p.1, f p.2) else p) <$> m.

Definition map_mem k m : bool := if map_find k m is Some _ then true else false.

(** The invariant of a [std::map]: strictly increasing keys. *)
Fixpoint map_wf m : Prop :=
  match m with
  | [] => True
  | (k, _) :: m' => Forall (fun p => key_lt k p.1 = true) m' ∧ map_wf m'
  end.

#[export] Instance map_wf_dec m : Decision (map_wf m).
Proof. induction m as [|[k v] m IH]; cbn; apply _. Defined.

Lemma map_erase_cons k k' v' m :
  map_erase k ((k', v') :: m)
  = if decide (k' = k) then map_erase k m else (k', v') :: map_erase k m.
Proof.
  unfold map_erase. rewrite filter_cons. cbn.
  destruct (decide (k' = k)); [rewrite decide_False by naive_solver|rewrite decide_True]; done.
Qed.

Lemma map_find_erase_eq k m : map_find k (map_erase k m) = None.
Proof.
  induction m as [|[k' v'] m IH]; [done|]. rewrite map_erase_cons.
  case_decide; [done|]. cbn. by rewrite decide_False by congruence.
Qed.

Lemma map_find_erase_ne k k' m :
  k ≠ k' -> map_find k (map_erase k' m) = map_find k m.
Proof.
  intros Hne. induction m as [|[k0 v0] m IH]; [done|]. rewrite map_erase_cons.
  case_decide; cbn; [|by case_decide]. by rewrite decide_False by congruence.
Qed.

Lemma map_find_set_eq k v m : map_find k (map_set k v m) = Some v.
Proof.
  induction m as [|[k' v'] m IH]; cbn; [by rewrite decide_True|].
  case_decide; cbn; [by rewrite decide_True|].
  destruct (key_lt k k'); cbn; [by rewrite decide_True|]. by rewrite decide_False.
Qed.

(** A new key. *)
Lemma map_set_fresh k v m : k ∉ m.*1 -> map_set k v m ≡ₚ (k, v) :: m.
Proof.
  induction m as [|[k' v'] m IH]; cbn; [done|]. intros [Hne Hm]%not_elem_of_cons. rewrite decide_False by done.
  destruct (key_lt k k'); [done|]. rewrite IH by done. by constructor.
Qed.

Lemma map_find_set_ne k k' v m : k ≠ k' -> map_find k (map_set k' v m) = map_find k m.
Proof.
  intros Hne. induction m as [|[k0 v0] m IH]; cbn; [by rewrite decide_False|].
  destruct (decide (k' = k0)) as [->|]; cbn.
  - by rewrite !decide_False.
  - destruct (key_lt k' k0); cbn; [by rewrite (decide_False (P := k = k'))|].
    by case_decide.
Qed.

Lemma map_update_cons f k k' v' m :
  map_update f k ((k', v') :: m)
  = (if decide (k' = k) then (k', f v') else (k', v')) :: map_update f k m.
Proof. done. Qed.

Lemma map_find_update_eq f k m : map_find k (map_update f k m) = f <$> map_find k m.
Proof.
  induction m as [|[k' v'] m IH]; [done|]. rewrite map_update_cons. cbn [map_find].
  destruct (decide (k' = k)) as [->|]; cbn [map_find].
  - by rewrite !decide_True.
  - by rewrite !decide_False by congruence.
Qed.

Lemma map_find_update_ne f k k' m :
  k ≠ k' -> map_find k (map_update f k' m) = map_find k m.
Proof.
  intros Hne. induction m as [|[k0 v0] m IH]; [done|]. rewrite map_update_cons.
  destruct (decide (k0 = k')) as [->|]; cbn [map_find]; [by rewrite !decide_False by congruence|].
  by rewrite IH.
Qed.

Lemma map_find_In k v m : map_find k m = Some v -> (k, v) ∈ m.
Proof.
  induction m as [|[k' v'] m IH]; cbn; [done|].
  case_decide; intros E; simplify_eq; [by left|]. right. by apply IH.
Qed.

Lemma map_find_None k m : map_find k m = None <-> forall v, (k, v) ∉ m.
Proof.
  induction m as [|[k' v'] m IH]; cbn.
  - split; [intros _ v; apply not_elem_of_nil|done].
  - case_decide; subst; split.
    + done.
    + intros Hn. exfalso. apply (Hn v'). by left.
    + rewrite IH. intros Hn v [?|?]%elem_of_cons; naive_solver.
    + intros Hn. apply IH. intros v Hv. apply (Hn v). by right.
Qed.

Lemma map_erase_elem k m p : p ∈ map_erase k m <-> p.1 ≠ k ∧ p ∈ m.
Proof. unfold map_erase. by rewrite list_elem_of_filter. Qed.

Lemma map_update_keys f k m : (map_update f k m).*1 = m.*1.
Proof.
  unfold map_update. induction m as [|[k' v'] m IH]; cbn; [done|].
  case_decide; cbn; by f_equal.
Qed.

Section Ordered.
Context `{!StdLessOk K}.

Lemma map_wf_set k v m : map_wf m -> map_wf (map_set k v m).
Proof.
  induction m as [|[k' v'] m IH]; cbn; [done|]. intros [Hall Hwf].
  destruct (decide (k = k')) as [->|Hne]; cbn; [done|].
  destruct (key_lt k k') eqn:Hlt; cbn.
  - split; [|done]. constructor; [done|].
    eapply Forall_impl; [exact Hall|]. intros p Hp. by eapply key_lt_trans.
  - split; [|by apply IH].
    assert (key_lt k' k = true) as Hlt'.
    { destruct (key_lt_total k k') as [?|[?|?]]; congruence. }
    clear IH Hwf Hne. induction m as [|[k0 v0] m IHm]; cbn.
    + by constructor.
    + inversion Hall; subst. destruct (decide (k = k0)); [by constructor|].
      destruct (key_lt k k0); constructor; auto.
Qed.

Lemma map_wf_erase k m : map_wf m -> map_wf (map_erase k m).
Proof.
  induction m as [|[k' v'] m IH]; [done|]. intros [Hall Hwf].
  rewrite map_erase_cons. case_decide; [auto|]. split; [|auto]. rewrite Forall_forall in *. intros p [_ Hp]%list_elem_of_filter. auto.
Qed.

Lemma map_wf_update f k m : map_wf m -> map_wf (map_update f k m).
Proof.
  induction m as [|[k' v'] m IH]; [done|]. intros [Hall Hwf]. rewrite map_update_cons.
  assert (Forall (fun p => key_lt k' p.1 = true) (map_update f k m)) as Hall'.
  { rewrite Forall_forall in *. intros p Hp.
    unfold map_update in Hp. apply list_elem_of_fmap in Hp as ([k0 v0] & -> & Hin).
    specialize (Hall _ Hin). cbn in *. by destruct (decide (k0 = k)). }
  destruct (decide (k' = k)); cbn; auto.
Qed.

Lemma map_wf_find k v m : map_wf m -> (k, v) ∈ m -> map_find k m = Some v.
Proof.
  induction m as [|[k' v'] m IH]; cbn; intros Hwf Hin; [by apply not_elem_of_nil in Hin|].
  destruct Hwf as [Hall Hwf]. apply elem_of_cons in Hin as [Heq|Hin].
  - simplify_eq. by rewrite decide_True.
  - rewrite decide_False; [auto|]. intros ->.
    rewrite Forall_forall in Hall. specialize (Hall _ Hin). cbn in Hall.
    by rewrite key_lt_irrefl in Hall.
Qed.

Lemma map_wf_NoDup m : map_wf m -> NoDup m.*1.
Proof.
  induction m as [|[k v] m IH]; cbn; [constructor|]. intros [Hall Hwf].
  constructor; [|auto]. intros Hin. apply list_elem_of_fmap in Hin as ([k' v'] & Heq & Hin).
  rewrite Forall_forall in Hall. specialize (Hall _ Hin). cbn in *. subst.
  by rewrite key_lt_irrefl in Hall.
Qed.
End Ordered.
End Maps.

#[global] Arguments map_erase : simpl never.
#[global] Arguments map_update : simpl never.
