(* ===== verification/Bus.v ===== *)
(** * The etherbone bus

    The device library is not part of the repository: a device is a type with
    one operation, the execution of a cycle (the reads and writes queued between
    [cycle.open] and [cycle.close], in order), which returns the values read or
    raises [etherbone::exception_t].  A failed cycle leaves the device as it was:
    what a real cycle may have executed before it failed is not modelled.  [device.read] and [device.write] are cycles
    of one operation. *)
From S2P Require Import Prelude.
From stdpp Require Import gmap.
Local Open Scope Z_scope.

Inductive bus_op :=
  | BusW (address value : Z)
  | BusR (address : Z).

Fixpoint count_reads (ops : list bus_op) : nat :=
  match ops with
  | [] => 0
  | BusW _ _ :: ops' => count_reads ops'
  | BusR _ :: ops' => S (count_reads ops')
  end.

Class Bus (D : Type) := bus_cycle : list bus_op -> D -> option (list Z * D).

(** What the code relies on: a completed cycle delivers one value per read,
    and values read with [EB_DATA32] are 32 bits wide. *)
Class BusOk (D : Type) `{Bus D} := {
  bus_cycle_length : forall ops d rs d',
    bus_cycle ops d = Some (rs, d') -> length rs = count_reads ops;
  bus_cycle_width : forall ops d rs d',
    bus_cycle ops d = Some (rs, d') -> Forall (fun v => 0 <= v < 2 ^ 32) rs
}.

Section Calls.
Context {D : Type} `{Bus D}.

(** [cycle.open(device); ...; cycle.close();] *)
Definition cycle (ops : list bus_op) : M D (list Z) := fun d =>
  match bus_cycle ops d with
  | Some (rs, d') => (Ret rs, d')
  | None => (Throw EtherboneError, d)
  end.

Definition dev_write (address value : Z) : M D unit :=
  _ ← cycle [BusW address value]; mret tt.

Definition dev_read (address : Z) : M D Z :=
  rs ← cycle [BusR address];
  match rs with
  | [v] => mret v
  | _ => crash "device.read"
  end.
End Calls.

(** ** A concrete device: 32-bit registers that read back what was written,
    with the log of all operations.  It is the instance the examples run on. *)
Record ram := mkRam { ram_log : list bus_op; ram_mem : gmap Z Z }.

Definition ram_step (op : bus_op) (s : list Z * ram) : list Z * ram :=
  let '(rs, d) := s in
  match op with
  | BusW a v => (rs, mkRam (ram_log d ++ [op]) (<[a := u32 v]> (ram_mem d)))
  | BusR a => (rs ++ [u32 (default 0 (ram_mem d !! a))], mkRam (ram_log d ++ [op]) (ram_mem d))
  end.

#[export] Instance ram_bus : Bus ram := fun ops d =>
  Some (foldl (fun s op => ram_step op s) ([], d) ops).

Definition ram0 : ram := mkRam [] ∅.

Lemma ram_foldl_length ops rs d :
  length (foldl (fun s op => ram_step op s) (rs, d) ops).1
  = (length rs + count_reads ops)%nat.
Proof.
  revert rs d. induction ops as [|[a v|a] ops IH]; intros rs d; cbn; [lia|..].
  - by rewrite IH.
  - rewrite IH, length_app. cbn. lia.
Qed.

Lemma ram_foldl_width ops rs d :
  Forall (fun v => 0 <= v < 2 ^ 32) rs ->
  Forall (fun v => 0 <= v < 2 ^ 32) (foldl (fun s op => ram_step op s) (rs, d) ops).1.
Proof.
  revert rs d. induction ops as [|[a v|a] ops IH]; intros rs d Hrs; cbn; [done|..].
  - by apply IH.
  - apply IH. apply Forall_app_2; [done|]. constructor; [|done].
    apply unsigned_wrap_range. lia.
Qed.

#[export] Instance ram_bus_ok : BusOk ram.
Proof.
  split; intros ops d rs d'; unfold bus_cycle, ram_bus; intros [= E].
  - pose proof (ram_foldl_length ops [] d) as Hl. by rewrite E in Hl.
  - pose proof (ram_foldl_width ops [] d (Forall_nil_2 _)) as Hw. by rewrite E in Hw.
Qed.

Section CallLemmas.
Context {D : Type} `{BusOk D}.

Lemma dev_read_no_crash a d w d' : dev_read a d <> (Crash w, d').
Proof.
  unfold dev_read, cycle. mrun.
  destruct (bus_cycle [BusR a] d) as [[rs d1]|] eqn:E; [|congruence].
  apply bus_cycle_length in E. destruct rs as [|v [|]]; cbn in *; congruence.
Qed.
End CallLemmas.
