(* ===== verification/Time.v ===== *)
(** * Time: TAI/UTC conversion and the [Time] class (src/Time.cpp, src/Time.hpp)

    The leap second table, the conversion functions of Time.cpp with their
    64-bit arithmetic, and the operations of class [Time].  An index outside of
    the table is a [std::vector] access without a defined result: [None]. *)
From S2P Require Import Prelude.
Local Open Scope Z_scope.

Record LeapSecond := mkLeapSecond {
  timestamp : Z;           (* int64_t *)
  cumulative_seconds : Z   (* int8_t *)
}.

Definition EPOCH_OFFSET_1900_TO_1970 : Z := 2208988800.
Definition NS : Z := 1000000000.

Definition LEAP_SECONDS_TABLE : list LeapSecond :=
  [ mkLeapSecond 3692217600 37; mkLeapSecond 3644697600 36;
    mkLeapSecond 3550089600 35; mkLeapSecond 3439756800 34;
    mkLeapSecond 3345062400 33; mkLeapSecond 3124137600 32;
    mkLeapSecond 3076704000 31; mkLeapSecond 3029443200 30;
    mkLeapSecond 2982009600 29; mkLeapSecond 2950473600 28;
    mkLeapSecond 2918937600 27; mkLeapSecond 2871676800 26;
    mkLeapSecond 2840140800 25; mkLeapSecond 2776982400 24;
    mkLeapSecond 2698012800 23; mkLeapSecond 2634854400 22;
    mkLeapSecond 2603318400 21; mkLeapSecond 2571782400 20;
    mkLeapSecond 2524521600 19; mkLeapSecond 2492985600 18;
    mkLeapSecond 2461449600 17; mkLeapSecond 2429913600 16;
    mkLeapSecond 2398291200 15; mkLeapSecond 2366755200 14;
    mkLeapSecond 2335219200 13; mkLeapSecond 2303683200 12;
    mkLeapSecond 2287785600 11; mkLeapSecond 2272060800 10;
    mkLeapSecond (-1) 11 ].

(** Both operands of [-] are converted to [uint64_t]; the result is converted
    back to [int64_t]. *)
Definition leap_second_epoch (n : nat) : option Z :=
  e ← LEAP_SECONDS_TABLE !! n;
  if cumulative_seconds e =? -1 then Some (-1) else
  e' ← LEAP_SECONDS_TABLE !! S n;
  if cumulative_seconds e' <? cumulative_seconds e then
    Some (s64 (cumulative_seconds e - EPOCH_OFFSET_1900_TO_1970
               + cumulative_seconds e - 1))
  else
    Some (s64 (cumulative_seconds e - EPOCH_OFFSET_1900_TO_1970
               + cumulative_seconds e)).

Definition leap_second_offset (n : nat) : option Z :=
  e ← LEAP_SECONDS_TABLE !! n; Some (cumulative_seconds e).

(** The [for (int i = 0; ; ++i)] loops have no bound: they leave the table, and
    with it every defined behaviour, after at most [length] rounds, which is
    the fuel they get here. *)
Definition table_fuel : nat := length LEAP_SECONDS_TABLE.

Fixpoint UTC_offset_TAI_from (fuel i : nat) (TAIsec : Z) : option Z :=
  match fuel with
  | O => None
  | S fuel' =>
      ep ← leap_second_epoch i;
      stop ← (if ep <=? s64 TAIsec then Some true
              else ep' ← leap_second_epoch (S i); Some (ep' =? -1));
      if (stop : bool) then
        o ← leap_second_offset i; Some (s64 (u64 (o * NS)))
      else UTC_offset_TAI_from fuel' (S i) TAIsec
  end.

Definition UTC_offset_TAI (TAI : Z) : option Z :=
  UTC_offset_TAI_from table_fuel 0 (TAI / NS).

Definition TAI_to_UTC (TAI : Z) : option Z :=
  o ← UTC_offset_TAI TAI; Some (u64 (TAI - o)).

Fixpoint TAI_is_UTCleap_from (fuel i : nat) (TAIsec : Z) : option Z :=
  match fuel with
  | O => None
  | S fuel' =>
      ep ← leap_second_epoch i;
      if ep <=? s64 TAIsec then
        if s64 TAIsec =? ep then
          o ← leap_second_offset i; o' ← leap_second_offset (S i); Some (o - o')
        else Some 0
      else TAI_is_UTCleap_from fuel' (S i) TAIsec
  end.

Definition TAI_is_UTCleap (TAI : Z) : option Z :=
  TAI_is_UTCleap_from table_fuel 0 (TAI / NS).

(** The pair is the returned [int] and the value stored in [*offset]. *)
Fixpoint UTC_offset_UTC_from (fuel i : nat) (UTC leap : Z) : option (Z * Z) :=
  match fuel with
  | O => None
  | S fuel' =>
      o ← leap_second_offset i;
      let TAIsec := u64 (UTC / NS + o) in
      ep ← leap_second_epoch i;
      stop ← (if ep <=? s64 TAIsec then Some true
              else ep' ← leap_second_epoch (S i); Some (ep' =? -1));
      if (stop : bool) then
        amb ← (if s64 TAIsec =? ep
               then o' ← leap_second_offset (S i); Some (o' <? o)
               else Some false);
        if (amb : bool) then
          if negb (leap =? 0) then Some (1, s64 (u64 (o * NS)))
          else o' ← leap_second_offset (S i); Some (1, s64 (u64 (o' * NS)))
        else
          let offset := s64 (u64 (o * NS)) in
          back ← TAI_to_UTC (u64 (UTC + offset));
          Some (if back =? UTC then 1 else 0, offset)
      else UTC_offset_UTC_from fuel' (S i) UTC leap
  end.

Definition UTC_offset_UTC (UTC leap : Z) : option (Z * Z) :=
  UTC_offset_UTC_from table_fuel 0 UTC leap.

(** [Some None] is the return value 0, with [*TAI] untouched. *)
Definition UTC_to_TAI (UTC leap : Z) : option (option Z) :=
  '(ok, offset) ← UTC_offset_UTC UTC leap;
  Some (if ok =? 0 then None else Some (u64 (UTC + offset))).

Definition UTC_difference (UTC1 leap1 UTC2 leap2 : Z) : option (option Z) :=
  r1 ← UTC_to_TAI UTC1 leap1;
  match r1 with
  | None => Some None
  | Some TAI1 =>
      r2 ← UTC_to_TAI UTC2 leap2;
      match r2 with
      | None => Some None
      | Some TAI2 => Some (Some (s64 (s64 TAI1 - s64 TAI2)))
      end
  end.

(** ** Class [Time] *)
Record Time := mkTime { TAI : Z }.

Definition getUTC (t : Time) : option Z := TAI_to_UTC (TAI t).
Definition getTAI (t : Time) : Z := TAI t.
Definition add_assign (t : Time) (duration : Z) : Time := mkTime (u64 (TAI t + duration)).
Definition sub_assign (t : Time) (duration : Z) : Time := mkTime (u64 (TAI t - duration)).
Definition time_diff (t rhs : Time) : Z := s64 (u64 (TAI t - TAI rhs)).
Definition getUTCOffset (t : Time) : option Z := UTC_offset_TAI (TAI t).
Definition time_lt (t rhs : Time) : bool := TAI t <? TAI rhs.
Definition time_le (t rhs : Time) : bool := TAI t <=? TAI rhs.
Definition time_eq (t rhs : Time) : bool := TAI t =? TAI rhs.
Definition isLeapUTC (t : Time) : option Z := TAI_is_UTCleap (TAI t).

Definition time_plus (lhs : Time) (rhs : Z) : Time := add_assign lhs rhs.
Definition time_minus (lhs : Time) (rhs : Z) : Time := sub_assign lhs rhs.
Definition int_plus_time (lhs : Z) (rhs : Time) : Time := time_plus rhs lhs.
Definition int_minus_time (lhs : Z) (rhs : Time) : Time := time_minus rhs lhs.

Definition makeTimeTAI (v : Z) : Time := mkTime v.

(** [throw Time(0)] is the [inr] of the result. *)
Definition makeTimeUTC (UTC : Z) (isLeap : bool) : option (Time + Time) :=
  r ← UTC_to_TAI UTC (if isLeap then 1 else 0);
  Some (match r with Some v => inl (mkTime v) | None => inr (mkTime 0) end).

Definition time_wf (t : Time) : Prop := 0 <= TAI t < 2 ^ 64.
Definition is_u64 (x : Z) : Prop := 0 <= x < 2 ^ 64.

(** ** Lemmas *)
Lemma epoch_0 : leap_second_epoch 0 = Some (-2208988727).
Proof. reflexivity. Qed.

Lemma seconds_s64 t : is_u64 t -> s64 (t / NS) = t / NS /\ 0 <= t / NS.
Proof.
  unfold is_u64, NS. intros Ht.
  split; [apply signed_wrap_small|]; try lia.
  - change (2 ^ (64 - 1)) with 9223372036854775808.
    change (2 ^ 64) with 18446744073709551616 in Ht. Z.div_mod_to_equations; lia.
  - Z.div_mod_to_equations; lia.
Qed.

Lemma UTC_offset_TAI_eq t : is_u64 t -> UTC_offset_TAI t = Some (37 * NS).
Proof.
  intros Ht. destruct (seconds_s64 t Ht) as [E Hpos].
  unfold UTC_offset_TAI, table_fuel. cbn [length LEAP_SECONDS_TABLE UTC_offset_TAI_from].
  rewrite epoch_0. cbn [mbind option_bind]. rewrite E.
  rewrite (proj2 (Z.leb_le _ _)) by lia. reflexivity.
Qed.

Lemma TAI_to_UTC_eq t : is_u64 t -> TAI_to_UTC t = Some (u64 (t - 37 * NS)).
Proof. intros Ht. unfold TAI_to_UTC. by rewrite UTC_offset_TAI_eq. Qed.

Lemma u64_is_u64 x : is_u64 (u64 x).
Proof. apply unsigned_wrap_range. lia. Qed.

Lemma u64_back x y : is_u64 y -> u64 (u64 (y + x) - x) = y.
Proof.
  intros Hy. rewrite unsigned_wrap_sub_l. replace (y + x - x) with y by lia.
  by apply unsigned_wrap_small.
Qed.

Lemma UTC_offset_UTC_eq u leap : is_u64 u -> UTC_offset_UTC u leap = Some (1, 37 * NS).
Proof.
  intros Hu. destruct (seconds_s64 u Hu) as [_ Hpos].
  assert (Hb : u / NS + 37 < 2 ^ 63).
  { unfold is_u64, NS in *. change (2 ^ 64) with 18446744073709551616 in Hu.
    change (2 ^ 63) with 9223372036854775808. Z.div_mod_to_equations; lia. }
  unfold UTC_offset_UTC, table_fuel. cbn [length LEAP_SECONDS_TABLE UTC_offset_UTC_from].
  change (leap_second_offset 0) with (Some 37). cbn [mbind option_bind].
  rewrite epoch_0. cbn [mbind option_bind].
  rewrite (unsigned_wrap_small 64 (u / NS + 37)) by (change (2 ^ 64) with (2 * 2 ^ 63); lia).
  rewrite (signed_wrap_small 64 (u / NS + 37)) by (change (2 ^ (64 - 1)) with (2 ^ 63); lia).
  rewrite (proj2 (Z.leb_le (-2208988727) (u / NS + 37))) by lia.
  rewrite (proj2 (Z.eqb_neq (u / NS + 37) (-2208988727))) by lia. cbn [mbind option_bind].
  change (s64 (u64 (37 * NS))) with (37 * NS).
  rewrite TAI_to_UTC_eq by apply u64_is_u64. cbn [mbind option_bind].
  by rewrite u64_back, Z.eqb_refl.
Qed.

Lemma UTC_to_TAI_eq u leap : is_u64 u -> UTC_to_TAI u leap = Some (Some (u64 (u + 37 * NS))).
Proof. intros Hu. unfold UTC_to_TAI. by rewrite UTC_offset_UTC_eq. Qed.

(** ** Properties *)

(** On every 64-bit TAI value the conversion to UTC is defined, and
    converting the result back gives the value again, whatever the leap flag:
    [UTC_to_TAI] is a left inverse of [TAI_to_UTC]. *)
Theorem TAI_UTC_roundtrip (t leap : Z) (Ht : is_u64 t) :
  exists u, TAI_to_UTC t = Some u /\ is_u64 u /\ UTC_to_TAI u leap = Some (Some t).
Proof.
  exists (u64 (t - 37 * NS)). split; [by apply TAI_to_UTC_eq|].
  split; [apply u64_is_u64|].
  rewrite UTC_to_TAI_eq by apply u64_is_u64. do 2 f_equal.
  rewrite unsigned_wrap_add_l. replace (t - 37 * NS + 37 * NS) with t by lia.
  by apply unsigned_wrap_small.
Qed.

Lemma TAI_UTC_roundtrip_witness :
  is_u64 1000 /\
  exists u, TAI_to_UTC 1000 = Some u /\ is_u64 u /\ UTC_to_TAI u 1 = Some (Some 1000).
Proof.
  assert (H : is_u64 1000) by (split; [lia|reflexivity]).
  split; [exact H|]. exact (TAI_UTC_roundtrip 1000 1 H).
Defined.

(** The leap second table has no effect on a conversion: every 64-bit TAI
    value gets the offset of 37 s of the table's first entry and no value is
    reported as a leap second, although the table's own entry for July 2015 says
    36 s; [leap_second_epoch] computes with [cumulative_seconds] where the
    table's [timestamp] is the epoch. *)
Theorem leap_table_ignored :
  (forall t, is_u64 t ->
     UTC_offset_TAI t = Some (37 * NS) /\ TAI_is_UTCleap t = Some 0) /\
  (exists t e, is_u64 t /\ LEAP_SECONDS_TABLE !! 1%nat = Some e /\
     t / NS = timestamp e - EPOCH_OFFSET_1900_TO_1970 + cumulative_seconds e /\
     UTC_offset_TAI t <> Some (cumulative_seconds e * NS)).
Proof.
  split.
  - intros t Ht. split; [by apply UTC_offset_TAI_eq|].
    destruct (seconds_s64 t Ht) as [E Hpos].
    unfold TAI_is_UTCleap, table_fuel.
    cbn [length LEAP_SECONDS_TABLE TAI_is_UTCleap_from].
    rewrite epoch_0. cbn [mbind option_bind]. rewrite E.
    by rewrite (proj2 (Z.leb_le _ _)), (proj2 (Z.eqb_neq _ _)) by lia.
  - exists ((3644697600 - EPOCH_OFFSET_1900_TO_1970 + 36) * NS), (mkLeapSecond 3644697600 36).
    split; [split; [vm_compute; discriminate | reflexivity]|].
    repeat split. vm_compute. discriminate.
Qed.

(** [Time] is a torsor under durations modulo 2^64: adding a signed 64-bit
    duration and subtracting the original time gives the duration back, and
    subtracting it again gives the original time. *)
Theorem time_add_sub (t : Time) (d : Z) (Ht : time_wf t) (Hd : - 2 ^ 63 <= d < 2 ^ 63) :
  time_wf (time_plus t d) /\
  time_diff (time_plus t d) t = d /\
  time_minus (time_plus t d) d = t /\
  int_plus_time d t = time_plus t d.
Proof.
  destruct t as [t]. unfold time_wf in *. cbn in *.
  unfold time_diff, time_plus, time_minus, sub_assign, add_assign. cbn [TAI].
  split; [apply unsigned_wrap_range; lia|]. split; [|split; [|reflexivity]].
  - rewrite unsigned_wrap_sub_l. replace (t + d - t) with d by lia.
    change (2 ^ 63) with 9223372036854775808 in Hd. wrap_lia.
  - f_equal. by apply u64_back.
Qed.

Lemma time_add_sub_witness :
  time_wf (time_plus (mkTime 5) (-7)) /\
  time_diff (time_plus (mkTime 5) (-7)) (mkTime 5) = -7 /\
  time_minus (time_plus (mkTime 5) (-7)) (-7) = mkTime 5 /\
  int_plus_time (-7) (mkTime 5) = time_plus (mkTime 5) (-7).
Proof.
  apply (time_add_sub (mkTime 5) (-7)); [split; vm_compute; [discriminate|reflexivity]|].
  split; vm_compute; [discriminate|reflexivity].
Defined.
