(* ===== verification/EcaTables.v ===== *)
(** * ECA match tables: the compiler of [ECA::compile] (src/ECA.cpp)

    Active conditions become interval records; the sorted records become the
    search table and the walker table of the timing receiver.  This file holds
    the data, the pure part of [ECA::compile] (everything between collecting the
    conditions and writing the registers) and what the two tables mean to the
    hardware, as documented in src/eca_regs.h: the last search entry whose event
    is not greater than the incoming one names the first walker entry, and the
    walker follows [next] to the end of the list. *)
From S2P Require Import Prelude.
From stdpp Require Import sorting.
Local Open Scope Z_scope.

(** ** Data *)
Definition UINT64_MAX : Z := 2 ^ 64 - 1.

(** The members of [Condition] (src/Condition.hpp) that the table compiler
    reads. *)
Record Condition := mkCondition {
  number : Z;
  id : Z;           (* uint64_t *)
  mask : Z;         (* uint64_t *)
  offset : Z;       (* int64_t *)
  tag : Z;          (* uint32_t *)
  acceptLate : bool;
  acceptEarly : bool;
  acceptConflict : bool;
  acceptDelayed : bool;
  active : bool
}.

Record ECA_OpenClose := mkOpenClose {
  oc_key : Z;      (* open?first:last *)
  oc_open : bool;
  oc_subkey : Z;   (* open?last:first *)
  oc_offset : Z;
  oc_tag : Z;
  oc_flags : Z;
  oc_channel : Z;
  oc_num : Z
}.

Record SearchEntry := mkSearch { se_event : Z; se_index : Z }.

Record WalkEntry := mkWalk {
  we_next : Z;
  we_offset : Z;
  we_tag : Z;
  we_flags : Z;
  we_channel : Z;
  we_num : Z
}.

(** [WalkEntry(int16_t n, const ECA_OpenClose& oc)] *)
Definition WalkEntry_of (n : Z) (oc : ECA_OpenClose) : WalkEntry :=
  mkWalk n (oc_offset oc) (oc_tag oc) (oc_flags oc) (oc_channel oc) (oc_num oc).

(** [operator <] on the records *)
Definition oc_less (a b : ECA_OpenClose) : bool :=
  if oc_key a <? oc_key b then true
  else if oc_key b <? oc_key a then false
  else if negb (oc_open a) && oc_open b then true
  else if oc_open a && negb (oc_open b) then false
  else if oc_subkey b <? oc_subkey a then true
  else if oc_subkey a <? oc_subkey b then false
  else false.

(** ** The records of a condition *)
Definition ECA_LATE : Z := 0.
Definition ECA_EARLY : Z := 1.
Definition ECA_CONFLICT : Z := 2.
Definition ECA_DELAYED : Z := 3.
Definition ECA_VALID : Z := 4.
Definition ECA_OVERFLOW : Z := 5.
Definition ECA_MAX_FULL : Z := 6.

Definition accept_flags (c : Condition) : Z :=
  Z.lor (Z.lor (Z.lor (if acceptLate c then Z.shiftl 1 ECA_LATE else 0)
                      (if acceptEarly c then Z.shiftl 1 ECA_EARLY else 0))
               (if acceptConflict c then Z.shiftl 1 ECA_CONFLICT else 0))
        (if acceptDelayed c then Z.shiftl 1 ECA_DELAYED else 0).

Definition open_record (channel num : Z) (c : Condition) : ECA_OpenClose :=
  mkOpenClose (Z.land (id c) (mask c)) true
              (Z.lor (id c) (u64 (Z.lnot (mask c))))
              (offset c) (tag c) (accept_flags c) channel num.

(** [oc.open = false; std::swap(oc.key, oc.subkey); ++oc.key;] *)
Definition close_record (oc : ECA_OpenClose) : ECA_OpenClose :=
  mkOpenClose (u64 (oc_subkey oc + 1)) false (oc_key oc)
              (oc_offset oc) (oc_tag oc) (oc_flags oc) (oc_channel oc) (oc_num oc).

Definition push_records (oc : ECA_OpenClose) : list ECA_OpenClose :=
  if oc_subkey oc =? UINT64_MAX then [oc] else [oc; close_record oc].

Definition id_space_of (opens : list ECA_OpenClose) : list ECA_OpenClose :=
  opens ≫= push_records.

(** [std::sort(id_space.begin(), id_space.end())]: records that are equal under
    [<] come out in any order, so the results below hold for every sorted
    permutation; [oc_sort] is one of them. *)
Definition oc_le (a b : ECA_OpenClose) : Prop := oc_less b a = false.
#[export] Instance oc_le_dec a b : Decision (oc_le a b).
Proof. unfold oc_le. apply _. Defined.

Definition std_sorted (xs ys : list ECA_OpenClose) : Prop :=
  xs ≡ₚ ys /\ StronglySorted oc_le ys.

Definition oc_sort (xs : list ECA_OpenClose) : list ECA_OpenClose := merge_sort oc_le xs.

(** ** The walk over the sorted records *)
Fixpoint pop_closes (cursor : Z) (walk : list WalkEntry) (next : Z)
    (l : list ECA_OpenClose) : outcome (Z * list ECA_OpenClose) :=
  match l with
  | oc :: l' =>
      if (cursor =? oc_key oc) && negb (oc_open oc) then
        if next =? -1 then
          Throw (Error INVALID_ARGS "TimingReceiver: Impossible mismatched open/close")
        else if next <? 0 then Crash "walk[next]"
        else match walk !! Z.to_nat next with
             | Some we => pop_closes cursor walk (we_next we) l'
             | None => Crash "walk[next]"
             end
      else Ret (next, l)
  | [] => Ret (next, [])
  end.

Fixpoint push_opens (cursor : Z) (walk : list WalkEntry) (next : Z)
    (l : list ECA_OpenClose) : list WalkEntry * Z * list ECA_OpenClose :=
  match l with
  | oc :: l' =>
      if (cursor =? oc_key oc) && oc_open oc then
        push_opens cursor (walk ++ [WalkEntry_of next oc]) (s16 (Z.of_nat (length walk))) l'
      else (walk, next, l)
  | [] => (walk, next, [])
  end.

(** [while (i < id_space.size())]; every round takes at least one record, so
    the number of records is fuel enough. *)
Fixpoint walk_records (fuel : nat) (search : list SearchEntry) (walk : list WalkEntry)
    (next : Z) (l : list ECA_OpenClose) : outcome (list SearchEntry * list WalkEntry) :=
  match l with
  | [] => Ret (search, walk)
  | oc :: _ =>
      match fuel with
      | O => Crash "fuel"
      | S fuel' =>
          let cursor := oc_key oc in
          match pop_closes cursor walk next l with
          | Throw e => Throw e
          | Crash w => Crash w
          | Ret (next1, l1) =>
              let '(walk', next', l2) := push_opens cursor walk next1 l1 in
              walk_records fuel' (search ++ [mkSearch cursor next']) walk' next' l2
          end
      end
  end.

Definition leading_record (l : list ECA_OpenClose) : list SearchEntry :=
  match l with
  | oc :: _ => if oc_key oc =? 0 then [] else [mkSearch 0 (-1)]
  | [] => [mkSearch 0 (-1)]
  end.

Definition build_tables (id_space : list ECA_OpenClose)
    : outcome (list SearchEntry * list WalkEntry) :=
  walk_records (length id_space) (leading_record id_space) [] (-1) id_space.

(** ** What the tables mean *)

(** The payload of a walker entry: the action it makes of an event. *)
Record Action := mkAction {
  act_offset : Z; act_tag : Z; act_flags : Z; act_channel : Z; act_num : Z
}.

Definition we_action (we : WalkEntry) : Action :=
  mkAction (we_offset we) (we_tag we) (we_flags we) (we_channel we) (we_num we).
Definition oc_action (oc : ECA_OpenClose) : Action :=
  mkAction (oc_offset oc) (oc_tag oc) (oc_flags oc) (oc_channel oc) (oc_num oc).
Definition cond_action (channel num : Z) (c : Condition) : Action :=
  mkAction (offset c) (tag c) (accept_flags c) channel num.

(** The index of the last entry with [se_event <= e]. *)
Fixpoint search_first (acc : Z) (search : list SearchEntry) (e : Z) : Z :=
  match search with
  | [] => acc
  | s :: search' => search_first (if se_event s <=? e then se_index s else acc) search' e
  end.

Fixpoint walk_chain (fuel : nat) (walk : list WalkEntry) (i : Z) : list WalkEntry :=
  match fuel with
  | O => []
  | S fuel' =>
      if i <? 0 then []
      else match walk !! Z.to_nat i with
           | Some we => we :: walk_chain fuel' walk (we_next we)
           | None => []
           end
  end.

Definition table_actions (search : list SearchEntry) (walk : list WalkEntry) (e : Z)
    : list Action :=
  we_action <$> walk_chain (length walk) walk (search_first (-1) search e).

(** The documented meaning of a condition: "an incoming event matches if its ID
    and this ID agree on all the bits set in this condition's Mask". *)
Definition event_matches (e : Z) (c : Condition) : bool :=
  Z.land e (mask c) =? Z.land (id c) (mask c).

(** [(~mask & (~mask+1)) != 0] is what the constructor of [Condition] rejects. *)
Definition prefix_maskb (m : Z) : bool :=
  Z.land (u64 (Z.lnot m)) (u64 (u64 (Z.lnot m) + 1)) =? 0.

Definition condition_wf (c : Condition) : Prop :=
  0 <= id c < 2 ^ 64 /\ 0 <= mask c < 2 ^ 64 /\ prefix_maskb (mask c) = true.

(** Where an active condition acts: channel and number of its sink. *)
Record Placed := mkPlaced { pl_channel : Z; pl_num : Z; pl_cond : Condition }.

Definition placed_open (pc : Placed) : ECA_OpenClose :=
  open_record (pl_channel pc) (pl_num pc) (pl_cond pc).
Definition placed_action (pc : Placed) : Action :=
  cond_action (pl_channel pc) (pl_num pc) (pl_cond pc).

