(* ===== verification/EcaIntervals.v ===== *)
(** * Prefix masks and intervals

    A condition's mask is a prefix mask [2^64 - 2^k]; the identifiers it matches
    are the [k]-block of its own identifier.  Two such blocks are nested or
    disjoint, which is what makes the table compiler's stack work. *)
From S2P Require Import Prelude EcaTables.
Local Open Scope Z_scope.

(** ** Prefix masks *)
Lemma land_succ_zero_pow2 n :
  0 <= n -> Z.land n (n + 1) = 0 -> exists k, 0 <= k /\ n = 2 ^ k - 1.
Proof.
  intros Hn. pattern n. revert n Hn. apply Zlt_0_ind. intros n IH Hn Hl.
  assert (Z.land (n / 2) ((n + 1) / 2) = 0) as Hl2.
  { rewrite <- !Z.div2_div, !Z.div2_spec, <- Z.shiftr_land, Hl. done. }
  destruct (Z.Even_or_Odd n) as [[m ->]|[m ->]].
  - exists 0. split; [lia|].
    replace ((2 * m + 1) / 2) with m in Hl2 by (Z.div_mod_to_equations; lia).
    replace (2 * m / 2) with m in Hl2 by (Z.div_mod_to_equations; lia).
    rewrite Z.land_diag in Hl2. lia.
  - replace ((2 * m + 1) / 2) with m in Hl2 by (Z.div_mod_to_equations; lia).
    replace ((2 * m + 1 + 1) / 2) with (m + 1) in Hl2 by (Z.div_mod_to_equations; lia).
    destruct (IH m) as (k & Hk & ->); [lia|done|].
    exists (k + 1). split; [lia|]. rewrite Z.pow_add_r by lia. lia.
Qed.

Lemma u64_lnot m : 0 <= m < 2 ^ 64 -> u64 (Z.lnot m) = 2 ^ 64 - 1 - m.
Proof.
  intros Hm. unfold Z.lnot, unsigned_wrap. rewrite <- (Z.mod_add _ 1) by lia.
  rewrite Z.mod_small; lia.
Qed.

Lemma prefix_mask_spec m :
  0 <= m < 2 ^ 64 -> prefix_maskb m = true -> exists k, 0 <= k <= 64 /\ m = 2 ^ 64 - 2 ^ k.
Proof.
  intros Hm. unfold prefix_maskb. rewrite u64_lnot, Z.eqb_eq by done. intros Hl.
  destruct (decide (m = 0)) as [->|Hne]; [exists 64; lia|].
  rewrite (unsigned_wrap_small 64 (2 ^ 64 - 1 - m + 1)) in Hl by lia.
  apply land_succ_zero_pow2 in Hl as (k & Hk & E); [|lia].
  exists k. split; [|lia]. split; [done|].
  destruct (decide (k <= 64)); [done|].
  assert (2 ^ 64 < 2 ^ k) by (apply Z.pow_lt_mono_r; lia). lia.
Qed.

(** ** Blocks *)
Section Block.
Context (k : Z) (Hk : 0 <= k <= 64).

Lemma pow_k_pos : 0 < 2 ^ k.
Proof. apply Z.pow_pos_nonneg; lia. Qed.

Lemma pow_k_le : 2 ^ k <= 2 ^ 64.
Proof. apply Z.pow_le_mono_r; lia. Qed.

Lemma land_prefix x :
  0 <= x < 2 ^ 64 -> Z.land x (2 ^ 64 - 2 ^ k) = x - x mod 2 ^ k.
Proof.
  intros Hx. pose proof pow_k_pos. pose proof pow_k_le.
  replace (2 ^ 64 - 2 ^ k) with (Z.land (Z.lnot (Z.ones k)) (Z.ones 64)).
  - rewrite (Z.land_comm (Z.lnot _)), Z.land_assoc, Z.land_ones, Z.mod_small by lia.
    rewrite <- Z.sub_land_same_l, Z.land_ones by lia. done.
  - rewrite Z.land_ones, Z.ones_equiv by lia. unfold Z.lnot.
    replace (Z.pred (- Z.pred (2 ^ k))) with (- 2 ^ k) by lia.
    rewrite <- (Z.mod_add _ 1) by lia. rewrite Z.mod_small; lia.
Qed.

Lemma lor_prefix x :
  0 <= x < 2 ^ 64 ->
  Z.lor x (u64 (Z.lnot (2 ^ 64 - 2 ^ k))) = x - x mod 2 ^ k + 2 ^ k - 1.
Proof.
  intros Hx. pose proof pow_k_pos. pose proof pow_k_le. rewrite u64_lnot by lia.
  replace (2 ^ 64 - 1 - (2 ^ 64 - 2 ^ k)) with (Z.ones k) by (rewrite Z.ones_equiv; lia).
  pose proof (Z.add_lor_land x (Z.ones k)) as E.
  rewrite Z.land_ones, Z.ones_equiv in E by lia. rewrite Z.ones_equiv. lia.
Qed.

Lemma block_iff x y :
  x - x mod 2 ^ k = y - y mod 2 ^ k <->
  y - y mod 2 ^ k <= x <= y - y mod 2 ^ k + 2 ^ k - 1.
Proof.
  pose proof pow_k_pos as Hp. split.
  - intros E. pose proof (Z.mod_pos_bound x _ Hp). lia.
  - intros Hr.
    assert (x / 2 ^ k = y / 2 ^ k) as E.
    { symmetry. apply (Z.div_unique_pos _ _ _ (x - (y - y mod 2 ^ k))); [lia|].
      pose proof (Z.div_mod y (2 ^ k)). lia. }
    pose proof (Z.div_mod x (2 ^ k)). pose proof (Z.div_mod y (2 ^ k)).
    rewrite E in *. lia.
Qed.
End Block.

(** ** The interval of a condition *)
Definition first_id (oc : ECA_OpenClose) : Z := oc_key oc.
Definition last_id (oc : ECA_OpenClose) : Z := oc_subkey oc.

(** [oc] opens at or before [e] and has not closed yet. *)
Definition covers (e : Z) (oc : ECA_OpenClose) : Prop := oc_key oc <= e <= oc_subkey oc.
#[export] Instance covers_dec e oc : Decision (covers e oc).
Proof. unfold covers. apply _. Defined.

Definition interval_wf (oc : ECA_OpenClose) : Prop :=
  oc_open oc = true /\ 0 <= oc_key oc <= oc_subkey oc /\ oc_subkey oc <= UINT64_MAX.

(** Nested or disjoint. *)
Definition laminar2 (a b : ECA_OpenClose) : Prop :=
  oc_subkey a < oc_key b \/ oc_subkey b < oc_key a \/
  (oc_key a <= oc_key b /\ oc_subkey b <= oc_subkey a) \/
  (oc_key b <= oc_key a /\ oc_subkey a <= oc_subkey b).

Definition laminar (l : list ECA_OpenClose) : Prop :=
  forall a b, a ∈ l -> b ∈ l -> laminar2 a b.

Section Conditions.
Context (ch nm : Z).

Lemma open_record_block c :
  condition_wf c ->
  exists k, 0 <= k <= 64 /\ mask c = 2 ^ 64 - 2 ^ k /\
    oc_key (open_record ch nm c) = id c - id c mod 2 ^ k /\
    oc_subkey (open_record ch nm c) = id c - id c mod 2 ^ k + 2 ^ k - 1.
Proof.
  intros (Hid & Hm & Hp). destruct (prefix_mask_spec _ Hm Hp) as (k & Hk & E).
  exists k. cbn. rewrite E. rewrite land_prefix, lor_prefix by done. done.
Qed.

Lemma open_record_matches c e :
  condition_wf c -> 0 <= e < 2 ^ 64 ->
  event_matches e c = true <-> covers e (open_record ch nm c).
Proof.
  intros Hwf He. destruct (open_record_block c Hwf) as (k & Hk & Em & E1 & E2).
  destruct Hwf as (Hid & _ & _). unfold covers. rewrite E1, E2.
  unfold event_matches. rewrite Em, Z.eqb_eq, !land_prefix by done.
  by apply block_iff.
Qed.

Lemma open_record_wf c : condition_wf c -> interval_wf (open_record ch nm c).
Proof.
  intros Hwf. destruct (open_record_block c Hwf) as (k & Hk & _ & E1 & E2).
  destruct Hwf as (Hid & _ & _). pose proof (pow_k_pos k Hk) as Hp.
  pose proof (Z.mod_pos_bound (id c) _ Hp). pose proof (Z.mod_le (id c) (2 ^ k)).
  split; [done|]. rewrite E1, E2. split; [lia|]. unfold UINT64_MAX.
  (* the block ends below 2^64 since 2^k divides 2^64 *)
  assert (2 ^ 64 = 2 ^ (64 - k) * 2 ^ k) as E.
  { rewrite <- Z.pow_add_r by lia. f_equal. lia. }
  assert (id c / 2 ^ k < 2 ^ (64 - k)) by (apply Z.div_lt_upper_bound; lia).
  pose proof (Z.div_mod (id c) (2 ^ k)). nia.
Qed.
End Conditions.

(** Two blocks of sizes [2^j] and [2^k], [j <= k], that share a point: the
    smaller lies inside the larger. *)
Lemma blocks_nested j k x y z :
  0 <= j <= k -> k <= 64 ->
  x - x mod 2 ^ j <= z <= x - x mod 2 ^ j + 2 ^ j - 1 ->
  y - y mod 2 ^ k <= z <= y - y mod 2 ^ k + 2 ^ k - 1 ->
  y - y mod 2 ^ k <= x - x mod 2 ^ j /\
  x - x mod 2 ^ j + 2 ^ j - 1 <= y - y mod 2 ^ k + 2 ^ k - 1.
Proof.
  intros Hj Hk Hx Hy.
  pose proof (pow_k_pos j ltac:(lia)) as Pj. pose proof (pow_k_pos k ltac:(lia)) as Pk.
  apply block_iff in Hx; [|lia]. apply block_iff in Hy; [|lia].
  rewrite <- Hx, <- Hy.
  assert (2 ^ k = 2 ^ (k - j) * 2 ^ j) as E by (rewrite <- Z.pow_add_r by lia; f_equal; lia).
  assert (0 < 2 ^ (k - j)) by (apply Z.pow_pos_nonneg; lia).
  assert (z mod 2 ^ k = 2 ^ j * ((z / 2 ^ j) mod 2 ^ (k - j)) + z mod 2 ^ j) as Em.
  { rewrite E, (Z.mul_comm (2 ^ (k - j))), Z.rem_mul_r by lia. lia. }
  pose proof (Z.mod_pos_bound (z / 2 ^ j) (2 ^ (k - j)) ltac:(lia)) as Hb.
  rewrite Em. nia.
Qed.

Lemma open_records_laminar ch nm ch' nm' c c' :
  condition_wf c -> condition_wf c' ->
  laminar2 (open_record ch nm c) (open_record ch' nm' c').
Proof.
  intros Hc Hc'.
  destruct (open_record_block ch nm c Hc) as (k & Hk & _ & E1 & E2).
  destruct (open_record_block ch' nm' c' Hc') as (k' & Hk' & _ & E1' & E2').
  unfold laminar2. rewrite E1, E2, E1', E2'.
  set (a := id c - id c mod 2 ^ k) in *. set (b := id c' - id c' mod 2 ^ k') in *.
  pose proof (pow_k_pos k Hk). pose proof (pow_k_pos k' Hk').
  destruct (decide (a + 2 ^ k - 1 < b)) as [|Hab]; [lia|].
  destruct (decide (b + 2 ^ k' - 1 < a)) as [|Hba]; [lia|]. right; right.
  destruct (decide (k <= k')).
  - right. apply (blocks_nested k k' (id c) (id c') (Z.max a b)); fold a b; lia.
  - left. apply (blocks_nested k' k (id c') (id c) (Z.max a b)); fold a b; lia.
Qed.
