(* ===== verification/EcaCorrect.v ===== *)
(** * The match tables are correct

    The stack that [ECA::compile] keeps in [next] always holds the conditions
    whose interval contains the cursor, the last opened on top; the tables
    therefore give every event exactly the actions of the conditions that match
    it. *)
From S2P Require Import Prelude EcaTables EcaIntervals.
Local Open Scope Z_scope.

(** ** The order on records *)
Lemma oc_le_spec a b :
  oc_le a b <->
  oc_key a < oc_key b \/
  (oc_key a = oc_key b /\
   ((oc_open a = false /\ oc_open b = true) \/
    (oc_open a = oc_open b /\ oc_subkey b <= oc_subkey a))).
Proof.
  unfold oc_le, oc_less.
  destruct (Z.ltb_spec (oc_key b) (oc_key a)), (Z.ltb_spec (oc_key a) (oc_key b));
    try (split; [|intros]; [intros; try done|]; lia).
  destruct (oc_open a), (oc_open b); cbn;
    destruct (Z.ltb_spec (oc_subkey b) (oc_subkey a)), (Z.ltb_spec (oc_subkey a) (oc_subkey b));
    split; intros; try done; intuition (try congruence; lia).
Qed.

#[export] Instance oc_le_trans : Transitive oc_le.
Proof.
  intros a b c. rewrite !oc_le_spec.
  destruct (oc_open a), (oc_open b), (oc_open c); intuition (try congruence; lia).
Qed.

#[export] Instance oc_le_total : Total oc_le.
Proof.
  intros a b. rewrite !oc_le_spec. destruct (oc_open a), (oc_open b);
    destruct (Z.lt_trichotomy (oc_key a) (oc_key b)) as [?|[?|?]];
    destruct (Z.le_ge_cases (oc_subkey a) (oc_subkey b)); intuition lia.
Qed.

Lemma oc_sort_sorted xs : std_sorted xs (oc_sort xs).
Proof.
  split; [symmetry; apply merge_sort_Permutation|].
  apply StronglySorted_merge_sort; apply _.
Qed.

(** ** The linked list behind an index of the walker table *)
Fixpoint chain (walk : list WalkEntry) (i : Z) (st : list ECA_OpenClose) : Prop :=
  match st with
  | [] => i = -1
  | o :: st' =>
      0 <= i /\ exists n, walk !! Z.to_nat i = Some (WalkEntry_of n o) /\ chain walk n st'
  end.

Lemma chain_app walk w i st : chain walk i st -> chain (walk ++ w) i st.
Proof.
  revert i. induction st as [|o st IH]; intros i; [done|].
  intros (Hi & n & Hn & Hc). split; [done|]. exists n. split; [|by apply IH].
  by apply lookup_app_l_Some.
Qed.

Lemma chain_walk walk i st fuel :
  chain walk i st -> (length st <= fuel)%nat ->
  we_action <$> walk_chain fuel walk i = oc_action <$> st.
Proof.
  revert i fuel. induction st as [|o st IH]; intros i fuel; cbn.
  - intros ->. intros _. by destruct fuel.
  - intros (Hi & n & Hn & Hc) Hf. destruct fuel as [|fuel]; [lia|]. cbn.
    rewrite (proj2 (Z.ltb_ge _ _)), Hn by lia. cbn. f_equal. apply IH; [done|lia].
Qed.

(** ** One round of the loop *)
Lemma pop_closes_run c walk cs rest next st1 st2 :
  Forall (fun r => oc_key r = c /\ oc_open r = false) cs ->
  (forall r, head rest = Some r -> ~ (oc_key r = c /\ oc_open r = false)) ->
  chain walk next (st1 ++ st2) -> length st1 = length cs ->
  exists next', pop_closes c walk next (cs ++ rest) = Ret (next', rest) /\ chain walk next' st2.
Proof.
  intros Hcs Hrest. revert next st1. induction Hcs as [|r cs [Hk Ho] Hcs IH]; intros next st1 Hc Hlen.
  - destruct st1; [|done]. exists next. split; [|done]. cbn. destruct rest as [|r rest]; [done|].
    cbn. destruct (Z.eqb_spec c (oc_key r)), (oc_open r) eqn:E; try done.
    exfalso. by apply (Hrest r).
  - destruct st1 as [|o st1]; [done|]. destruct Hc as (Hn & n & Hw & Hc). cbn.
    rewrite Hk, Ho, Z.eqb_refl. cbn.
    rewrite (proj2 (Z.eqb_neq _ _)), (proj2 (Z.ltb_ge _ _)), Hw by lia. cbn.
    apply (IH n st1); [done|]. cbn in Hlen. lia.
Qed.

Lemma push_opens_run c walk os rest next st :
  Forall (fun r => oc_key r = c /\ oc_open r = true) os ->
  (forall r, head rest = Some r -> ~ (oc_key r = c /\ oc_open r = true)) ->
  chain walk next st -> Z.of_nat (length walk + length os) <= 2 ^ 15 ->
  exists ws next',
    push_opens c walk next (os ++ rest) = (walk ++ ws, next', rest) /\
    length ws = length os /\ chain (walk ++ ws) next' (reverse os ++ st).
Proof.
  intros Hos Hrest. revert walk next st.
  induction Hos as [|r os [Hk Ho] Hos IH]; intros walk next st Hc Hlen.
  - exists [], next. rewrite app_nil_r. split; [|done]. cbn. destruct rest as [|r rest]; [done|].
    cbn. destruct (Z.eqb_spec c (oc_key r)), (oc_open r) eqn:E; try done.
    exfalso. by apply (Hrest r).
  - cbn [push_opens app]. rewrite Hk, Ho, Z.eqb_refl. cbn [andb length] in *.
    rewrite signed_wrap_small by (change (2 ^ (16 - 1)) with (2 ^ 15); lia).
    edestruct (IH (walk ++ [WalkEntry_of next r]) (Z.of_nat (length walk)) (r :: st))
      as (ws & next' & E & Hl & Hc').
    + split; [lia|]. exists next. rewrite Nat2Z.id. split; [|by apply chain_app].
      by apply list_lookup_middle.
    + rewrite length_app. cbn. lia.
    + exists (WalkEntry_of next r :: ws), next'. rewrite E, <- app_assoc.
      rewrite <- app_assoc in Hc'. cbn [app length] in *.
      split; [done|]. split; [lia|]. by rewrite reverse_cons, <- app_assoc.
Qed.

(** ** Searching a table built front to back *)
Lemma search_first_app search acc s e :
  search_first acc (search ++ [s]) e
  = if se_event s <=? e then se_index s else search_first acc search e.
Proof. revert acc. induction search as [|s' search IH]; intros acc; cbn; [done|]. apply IH. Qed.

(** ** The records of a list of intervals *)
Lemma id_space_cons o A : id_space_of (o :: A) = push_records o ++ id_space_of A.
Proof. done. Qed.

Lemma close_record_key o :
  interval_wf o -> oc_subkey o <> UINT64_MAX -> oc_key (close_record o) = oc_subkey o + 1.
Proof.
  intros (_ & H1 & H2) Hne. cbn. unfold UINT64_MAX in *. apply unsigned_wrap_small. lia.
Qed.

Lemma filter_open_id_space A :
  Forall interval_wf A -> filter (fun r => oc_open r = true) (id_space_of A) = A.
Proof.
  induction 1 as [|o A [Ho _] HA IH]; [done|].
  rewrite id_space_cons, filter_app, IH. unfold push_records.
  destruct (_ =? _); rewrite filter_cons_True by done; [done|].
  by rewrite filter_cons_False.
Qed.

Lemma closes_id_space A c :
  Forall interval_wf A -> c < 2 ^ 64 ->
  length (filter (fun r => oc_key r = c /\ oc_open r = false) (id_space_of A))
  = length (filter (fun o => oc_subkey o + 1 = c) A).
Proof.
  intros HA Hc. induction HA as [|o A Ho HA IH]; [done|].
  rewrite id_space_cons, filter_app, length_app, IH, (filter_cons _ o A). unfold push_records.
  pose proof Ho as (Eo & _ & Hmax).
  destruct (Z.eqb_spec (oc_subkey o) UINT64_MAX) as [E|E].
  - rewrite filter_cons_False by (intros [_ ?]; congruence).
    rewrite decide_False; [done|]. unfold UINT64_MAX in *. lia.
  - rewrite filter_cons_False by (intros [_ ?]; congruence).
    rewrite filter_cons, (close_record_key o Ho E). cbn [oc_open close_record].
    destruct (decide (oc_subkey o + 1 = c)).
    + by rewrite decide_True.
    + by rewrite decide_False by naive_solver.
Qed.

(** ** The compiler's loop *)
Section Loop.
Context (A l : list ECA_OpenClose).
Hypothesis HA : Forall interval_wf A.
Hypothesis Hlam : laminar A.
Hypothesis Hl : std_sorted (id_space_of A) l.
Hypothesis Hsize : Z.of_nat (length A) <= 2 ^ 15.

(** The open records in sorted order. *)
Let O : list ECA_OpenClose := filter (fun r => oc_open r = true) l.

Lemma A_wf o : o ∈ A -> interval_wf o.
Proof. intros Ho. rewrite Forall_forall in HA. auto. Qed.

Lemma elem_id_space r :
  r ∈ l <-> r ∈ A \/ exists o, o ∈ A /\ oc_subkey o <> UINT64_MAX /\ r = close_record o.
Proof.
  destruct Hl as [Hp _]. rewrite <- Hp. unfold id_space_of. rewrite list_elem_of_bind.
  unfold push_records. split.
  - intros (o & Hr & Ho). destruct (Z.eqb_spec (oc_subkey o) UINT64_MAX).
    + apply list_elem_of_singleton in Hr as ->. by left.
    + apply elem_of_cons in Hr as [->|Hr]; [by left|].
      apply list_elem_of_singleton in Hr as ->. right. eauto.
  - intros [Hr|(o & Ho & Hne & ->)].
    + exists r. split; [|done]. destruct (oc_subkey r =? UINT64_MAX); by left.
    + exists o. split; [|done]. rewrite (proj2 (Z.eqb_neq _ _)) by done. right. by left.
Qed.

Lemma close_key o : o ∈ A -> oc_subkey o <> UINT64_MAX -> oc_key (close_record o) = oc_subkey o + 1.
Proof.
  intros Ho. by apply close_record_key, A_wf.
Qed.

Lemma elem_open r : r ∈ l -> oc_open r = true -> r ∈ A.
Proof. intros [Hr|(o & _ & _ & ->)]%elem_id_space Ho; done. Qed.

Lemma elem_O r : r ∈ O <-> r ∈ A.
Proof.
  unfold O. rewrite list_elem_of_filter. split.
  - intros [Ho Hr]. by apply elem_open.
  - intros Hr. split; [by apply A_wf|]. apply elem_id_space. by left.
Qed.

Lemma key_range r : r ∈ l -> 0 <= oc_key r < 2 ^ 64.
Proof.
  intros [Hr|(o & Ho & Hne & ->)]%elem_id_space.
  - destruct (A_wf r Hr) as (_ & ? & ?). unfold UINT64_MAX in *. lia.
  - rewrite close_key by done. destruct (A_wf o Ho) as (_ & ? & ?). unfold UINT64_MAX in *. lia.
Qed.

Lemma O_perm : O ≡ₚ A.
Proof.
  transitivity (filter (fun r => oc_open r = true) (id_space_of A)).
  - unfold O. destruct Hl as [Hp _]. by rewrite Hp.
  - by rewrite filter_open_id_space.
Qed.

(** As many close records at [c] as intervals that end just before [c]. *)
Lemma closes_at c : c < 2 ^ 64 ->
  length (filter (fun r => oc_key r = c /\ oc_open r = false) l)
  = length (filter (fun o => oc_subkey o + 1 = c) O).
Proof.
  intros Hc. rewrite (filter_Permutation_length _ O A) by apply O_perm.
  rewrite <- (closes_id_space A c HA Hc). symmetry.
  apply filter_Permutation_length, Hl.
Qed.

(** ** The stack at a cursor *)
Definition stack_at (c : Z) : list ECA_OpenClose := reverse (filter (covers c) O).

Lemma stack_at_perm e : stack_at e ≡ₚ filter (covers e) A.
Proof. unfold stack_at. rewrite reverse_Permutation. by rewrite O_perm. Qed.

Lemma stack_at_length e : (length (stack_at e) <= length O)%nat.
Proof. unfold stack_at. rewrite length_reverse. apply length_filter. Qed.

(** No record has its key in [(p, c)]. *)
Definition gap (p c : Z) : Prop := forall r, r ∈ l -> p < oc_key r -> c <= oc_key r.

Lemma gap_close p c o : gap p c -> c < 2 ^ 64 -> o ∈ O -> p <= oc_subkey o -> c <= oc_subkey o + 1.
Proof.
  intros Hg Hc Ho Hp. apply elem_O in Ho. destruct (decide (oc_subkey o = UINT64_MAX)) as [E|E].
  - unfold UINT64_MAX in *. lia.
  - pose proof (close_key o Ho E) as Ek. rewrite <- Ek. apply Hg; [|lia].
    apply elem_id_space. right. eauto.
Qed.

Lemma gap_open p c o : gap p c -> o ∈ O -> oc_key o < c -> oc_key o <= p.
Proof.
  intros Hg Ho Hk. destruct (decide (oc_key o <= p)); [done|]. exfalso.
  assert (c <= oc_key o); [|lia]. apply Hg; [|lia].
  unfold O in Ho. by apply list_elem_of_filter in Ho as [_ Ho].
Qed.

(** Nothing opens or closes inside of a gap. *)
Lemma stack_at_gap p e c : gap p c -> p <= e < c -> e < 2 ^ 64 -> stack_at e = stack_at p.
Proof.
  intros Hg He Hb. unfold stack_at. f_equal. apply list_filter_iff_in. intros o Ho.
  unfold covers. split; intros [H1 H2].
  - pose proof (gap_open p c o Hg Ho ltac:(lia)). lia.
  - split; [lia|]. destruct (decide (oc_subkey o = UINT64_MAX)) as [E|E].
    + unfold UINT64_MAX in *. lia.
    + apply elem_O in Ho. pose proof (close_key o Ho E) as Ek.
      assert (c <= oc_key (close_record o)); [|lia].
      apply Hg; [|lia]. apply elem_id_space. right. eauto.
Qed.

Lemma O_sorted p :
  StronglySorted (fun a b => oc_subkey b <= oc_subkey a) (filter (covers p) O).
Proof.
  apply (StronglySorted_impl_in oc_le).
  - intros a b [Ha HaO]%list_elem_of_filter [Hb HbO]%list_elem_of_filter Hle.
    unfold covers in *. apply oc_le_spec in Hle.
    pose proof (Hlam a b) as Hab. rewrite <- !elem_O in Hab. specialize (Hab HaO HbO).
    unfold O in *. apply list_elem_of_filter in HaO as [Eo _], HbO as [Eo' _].
    rewrite Eo, Eo' in Hle. unfold laminar2 in Hab. naive_solver lia.
  - apply StronglySorted_filter, StronglySorted_filter, Hl.
Qed.

Definition opens_at (c : Z) : list ECA_OpenClose := filter (fun r => oc_key r = c) O.

(** The stack before and after the records at the cursor [c]. *)
Lemma stack_step p c : gap p c -> p < c < 2 ^ 64 ->
  exists mid,
    stack_at p = reverse (filter (fun o => oc_subkey o + 1 = c) O) ++ mid /\
    stack_at c = reverse (opens_at c) ++ mid.
Proof.
  intros Hg Hc. exists (reverse (filter (fun o => c <= oc_subkey o) (filter (covers p) O))).
  unfold stack_at, opens_at. split.
  - rewrite <- reverse_app. f_equal.
    rewrite (sorted_prefix _ (fun o => c <= oc_subkey o) _ (O_sorted p)) at 1 by (intros; lia).
    f_equal. rewrite list_filter_filter. apply list_filter_iff_in. intros o Ho.
    unfold covers. split.
    + intros (H1 & H2 & H3). pose proof (gap_close p c o Hg ltac:(lia) Ho H3). lia.
    + intros H1. pose proof Ho as Ho'. apply elem_O in Ho'.
      destruct (A_wf o Ho') as (_ & ? & _). split; [lia|]. split; [|lia].
      apply (gap_open p c); [done..|lia].
  - rewrite <- reverse_app. f_equal.
    assert (StronglySorted oc_le (filter (covers c) O)) as Hs
      by (apply StronglySorted_filter, StronglySorted_filter, Hl).
    rewrite (sorted_prefix _ (fun o => oc_key o <= p) _ Hs) at 1.
    + f_equal; rewrite ?list_filter_filter; apply list_filter_iff_in; intros o Ho; unfold covers.
      * split; [|lia]. intros (H1 & H2 & H3). lia.
      * pose proof Ho as Ho'. apply elem_O in Ho'. destruct (A_wf o Ho') as (_ & ? & _).
        split; [|lia]. intros (H1 & H2 & H3). destruct (decide (oc_key o < c)); [|lia].
        pose proof (gap_open p c o Hg Ho ltac:(lia)). lia.
    + intros a b _ _ Hle. apply oc_le_spec in Hle. lia.
Qed.

(** ** The loop invariant *)
Definition after (p : Z) : list ECA_OpenClose := filter (fun r => p < oc_key r) l.

(** The records of one round: the closes of the cursor, then its opens. *)
Definition group (c : Z) (o : bool) : list ECA_OpenClose :=
  filter (fun r => oc_key r = c /\ oc_open r = o) l.

Lemma elem_after x p : x ∈ after p <-> p < oc_key x /\ x ∈ l.
Proof. unfold after. by rewrite list_elem_of_filter. Qed.

Lemma elem_group x c o : x ∈ group c o <-> (oc_key x = c /\ oc_open x = o) /\ x ∈ l.
Proof. unfold group. by rewrite list_elem_of_filter. Qed.

Lemma group_Forall c o : Forall (fun r => oc_key r = c /\ oc_open r = o) (group c o).
Proof. apply Forall_forall. intros x Hx. by apply elem_group in Hx as [Hx _]. Qed.

Lemma opens_at_group c : opens_at c = group c true.
Proof. unfold opens_at, O, group. by rewrite list_filter_filter. Qed.

Lemma after_split p c : gap p c -> p < c ->
  after p = group c false ++ group c true ++ after c.
Proof.
  intros Hg Hc. unfold after, group.
  assert (StronglySorted oc_le (filter (fun r => p < oc_key r) l)) as Hs
    by (apply StronglySorted_filter, Hl).
  assert (StronglySorted oc_le (filter (fun r => oc_key r = c) l)) as Hs'
    by (apply StronglySorted_filter, Hl).
  rewrite (sorted_prefix _ (fun r => oc_key r <= c) _ Hs).
  2: { intros a b _ _ Hle. apply oc_le_spec in Hle. lia. }
  rewrite app_assoc. f_equal.
  - rewrite list_filter_filter.
    rewrite (list_filter_iff_in _ (fun r => oc_key r = c)).
    2: { intros r Hr. split; [|lia]. intros [H1 H2]. specialize (Hg r Hr). lia. }
    rewrite (sorted_prefix _ (fun r => oc_open r = false) _ Hs').
    + rewrite !list_filter_filter. f_equal; apply list_filter_iff; intros r;
        destruct (oc_open r); naive_solver.
    + intros a b [Ha _]%list_elem_of_filter [Hb _]%list_elem_of_filter Hle Ho.
      apply oc_le_spec in Hle. destruct (oc_open a); intuition (try congruence; lia).
  - rewrite list_filter_filter. apply list_filter_iff_in. intros r Hr. lia.
Qed.

Lemma after_gap p r l2 : after p = r :: l2 -> p < oc_key r /\ gap p (oc_key r).
Proof.
  intros E. assert (r ∈ after p) as Hr by (rewrite E; by left).
  unfold after in *. apply list_elem_of_filter in Hr as [Hp Hr]. split; [done|].
  assert (StronglySorted oc_le (filter (fun r => p < oc_key r) l)) as Hs
    by (apply StronglySorted_filter, Hl).
  rewrite E in Hs. apply StronglySorted_inv in Hs as [_ Hall].
  intros r' Hr' Hk. assert (r' ∈ r :: l2) as Hin by (rewrite <- E; by apply list_elem_of_filter).
  apply elem_of_cons in Hin as [->|Hin]; [done|].
  rewrite Forall_forall in Hall. specialize (Hall _ Hin). apply oc_le_spec in Hall. lia.
Qed.

Record loop_inv (p : Z) (search : list SearchEntry) (walk : list WalkEntry) (next : Z) : Prop := {
  inv_p : -1 <= p < 2 ^ 64;
  inv_stack : chain walk next (stack_at p);
  inv_last : forall e, p < e -> search_first (-1) search e = next;
  inv_search : forall e, 0 <= e <= p -> chain walk (search_first (-1) search e) (stack_at e);
  inv_events : Forall (fun s => 0 <= se_event s <= p) search;
  inv_size : (length walk + length (filter (fun r => oc_open r = true) (after p)) = length O)%nat;
  inv_nonempty : search = [] -> p = -1
}.

Lemma group_opens_filter (c : Z) :
  filter (fun r => oc_open r = true) (group c false ++ group c true ++ after c)
  = group c true ++ filter (fun r => oc_open r = true) (after c).
Proof.
  rewrite !filter_app, (filter_none _ (group c false)), (filter_all _ (group c true)); [done|..].
  - by intros x [[_ ?] _]%elem_group.
  - intros x [[_ Ho] _]%elem_group. by rewrite Ho.
Qed.

(** The closes of the cursor pop exactly the intervals that end before it. *)
Lemma pop_group c walk next mid :
  c < 2 ^ 64 ->
  chain walk next (reverse (filter (fun o => oc_subkey o + 1 = c) O) ++ mid) ->
  exists next1,
    pop_closes c walk next (group c false ++ group c true ++ after c)
      = Ret (next1, group c true ++ after c) /\ chain walk next1 mid.
Proof.
  intros Hc Hch. eapply pop_closes_run; [apply group_Forall| |exact Hch|].
  - intros x Hx [Hk Ho]. apply head_Some_elem_of, elem_of_app in Hx as [Hx|Hx].
    + apply elem_group in Hx as [[_ ?] _]. congruence.
    + apply elem_after in Hx. lia.
  - rewrite length_reverse. symmetry. by apply closes_at.
Qed.

(** The opens of the cursor are pushed on top. *)
Lemma push_group c walk next mid :
  Z.of_nat (length walk + length (group c true)) <= 2 ^ 15 -> chain walk next mid ->
  exists ws next',
    push_opens c walk next (group c true ++ after c) = (walk ++ ws, next', after c) /\
    length ws = length (group c true) /\
    chain (walk ++ ws) next' (reverse (group c true) ++ mid).
Proof.
  intros Hb Hch. apply push_opens_run; [apply group_Forall| |done|done].
  intros x Hx%head_Some_elem_of [Hk Ho]. apply elem_after in Hx. lia.
Qed.

(** One round keeps the invariant; the new search entry is right from its
    event up to the next one. *)
Lemma loop_inv_step p c search walk next ws next' :
  loop_inv p search walk next -> gap p c -> p < c < 2 ^ 64 ->
  length ws = length (group c true) -> chain (walk ++ ws) next' (stack_at c) ->
  loop_inv c (search ++ [mkSearch c next']) (walk ++ ws) next'.
Proof.
  intros [Hp Hstack Hlast Hsearch Hev Hsz Hne] Hg Hc Hws Hch.
  rewrite (after_split p c) in Hsz by (done || lia).
  rewrite group_opens_filter, length_app in Hsz.
  constructor; try done.
  - lia.
  - intros e He. rewrite search_first_app. cbn. by rewrite (proj2 (Z.leb_le _ _)) by lia.
  - intros e He. rewrite search_first_app. cbn.
    destruct (Z.leb_spec c e); [replace e with c by lia; done|].
    destruct (decide (e <= p)).
    + apply chain_app, Hsearch. lia.
    + rewrite Hlast, (stack_at_gap p e c) by (done || lia). by apply chain_app.
  - apply Forall_app_2; [eapply Forall_impl; [exact Hev|]; cbn; lia|].
    constructor; [cbn; lia|done].
  - rewrite length_app. lia.
  - by destruct search.
Qed.

Lemma loop_step p search walk next r l2 :
  loop_inv p search walk next -> after p = r :: l2 ->
  let c := oc_key r in
  exists next1 ws next' ,
    pop_closes c walk next (r :: l2) = Ret (next1, group c true ++ after c) /\
    push_opens c walk next1 (group c true ++ after c) = (walk ++ ws, next', after c) /\
    loop_inv c (search ++ [mkSearch c next']) (walk ++ ws) next'.
Proof.
  intros Hinv E c. destruct (after_gap _ _ _ E) as [Hpc Hg].
  assert (Hr : r ∈ after p) by (rewrite E; by left). apply elem_after in Hr as [_ Hr].
  pose proof (key_range r Hr) as Hrange. fold c in Hpc, Hg, Hrange.
  destruct (stack_step p c Hg ltac:(lia)) as (mid & Ep & Ec).
  pose proof (inv_stack _ _ _ _ Hinv) as Hstack. rewrite Ep in Hstack.
  destruct (pop_group c walk next mid ltac:(lia) Hstack) as (next1 & E1 & Hc1).
  pose proof (inv_size _ _ _ _ Hinv) as Hsz.
  rewrite (after_split p c Hg Hpc), group_opens_filter, length_app, O_perm in Hsz.
  destruct (push_group c walk next1 mid ltac:(lia) Hc1) as (ws & next' & E2 & Hws & Hc2).
  exists next1, ws, next'. rewrite <- E, (after_split p c Hg Hpc). split; [done|].
  split; [done|]. apply (loop_inv_step p c search walk next); try done; [lia|].
  by rewrite Ec, opens_at_group.
Qed.

(** A round consumes at least the record it starts with. *)
Lemma after_shorter p r l2 : after p = r :: l2 -> (length (after (oc_key r)) <= length l2)%nat.
Proof.
  intros E. destruct (after_gap _ _ _ E) as [Hpc Hg].
  pose proof (after_split p _ Hg Hpc) as Es. rewrite E in Es.
  assert (Hr : r ∈ after p) by (rewrite E; by left). apply elem_after in Hr as [_ Hr].
  assert (Hin : r ∈ group (oc_key r) (oc_open r)) by (by apply elem_group).
  apply (f_equal length) in Es. rewrite !length_app in Es. cbn in Es.
  apply list_elem_of_lookup in Hin as [i Hi%lookup_lt_Some].
  destruct (oc_open r); lia.
Qed.

Lemma walk_records_ok fuel p search walk next :
  loop_inv p search walk next -> (length (after p) <= fuel)%nat ->
  (p = -1 -> after p <> []) ->
  exists search' walk',
    walk_records fuel search walk next (after p) = Ret (search', walk') /\
    (forall e, 0 <= e < 2 ^ 64 -> chain walk' (search_first (-1) search' e) (stack_at e)) /\
    length walk' = length O /\ search' <> [] /\
    Forall (fun s => 0 <= se_event s < 2 ^ 64) search' /\
    (length search' <= length search + length (after p))%nat.
Proof.
  revert p search walk next.
  induction fuel as [|fuel IH]; intros p search walk next Hinv Hf Hne;
    (destruct (after p) as [|r l2] eqn:E; [|try (cbn in Hf; lia)]).
  1,2: exists search, walk; destruct Hinv as [Hp Hstack Hlast Hsearch Hev Hsz Hnil];
    rewrite E in Hsz; cbn in Hsz; repeat split; [|lia|naive_solver|by eapply Forall_impl; [exact Hev|]; cbn; lia|lia];
    intros e He; destruct (decide (e <= p)); [apply Hsearch; lia|];
    rewrite Hlast, (stack_at_gap p e (2 ^ 64)); [done| |lia..];
    intros x Hx Hk; exfalso; assert (Hin : x ∈ after p) by (by apply elem_after);
    rewrite E in Hin; by apply not_elem_of_nil in Hin.
  destruct (loop_step p search walk next r l2 Hinv E) as (n1 & ws & n' & E1 & E2 & Hinv').
  cbn [walk_records]. rewrite E1, E2. pose proof (after_shorter _ _ _ E) as Hlen. cbn in Hf.
  destruct (IH _ _ _ _ Hinv') as (search' & walk' & E' & H1 & H2 & H3 & H5 & H4); [lia|..].
  - intros Hm. assert (Hr : r ∈ after p) by (rewrite E; by left).
    apply elem_after in Hr as [_ Hr]. pose proof (key_range r Hr). lia.
  - exists search', walk'. rewrite length_app in H4. cbn in *. repeat split; try done; lia.
Qed.
End Loop.

(** ** The tables of a set of conditions *)

Lemma placed_open_action pc : oc_action (placed_open pc) = placed_action pc.
Proof. done. Qed.

Section Initial.
Context (A l : list ECA_OpenClose).
Hypothesis HA : Forall interval_wf A.
Hypothesis Hl : std_sorted (id_space_of A) l.

Lemma after_start : after l (-1) = l.
Proof.
  unfold after. apply filter_all. intros x Hx. pose proof (key_range A l HA Hl x Hx). lia.
Qed.

Lemma stack_before : stack_at l (-1) = [].
Proof.
  unfold stack_at. rewrite filter_none; [done|]. intros x Hx.
  apply (elem_O A l HA Hl) in Hx. destruct (A_wf A HA x Hx) as (_ & ? & _).
  unfold covers. lia.
Qed.

Lemma initial_empty : loop_inv l (-1) [] [] (-1).
Proof.
  constructor; try done; [by rewrite stack_before|lia|]. by rewrite after_start.
Qed.

Lemma head_key_least r x : head l = Some r -> x ∈ l -> oc_key r <= oc_key x.
Proof.
  destruct Hl as [_ Hs]. destruct l as [|r' l']; [done|]. intros [= ->].
  apply StronglySorted_inv in Hs as [_ Hall]. rewrite Forall_forall in Hall.
  intros [->|Hx]%elem_of_cons; [done|]. specialize (Hall _ Hx). apply oc_le_spec in Hall. lia.
Qed.

Lemma initial_zero :
  (forall x, x ∈ l -> 0 < oc_key x) -> loop_inv l 0 [mkSearch 0 (-1)] [] (-1).
Proof.
  intros Hpos.
  assert (stack_at l 0 = []) as E0.
  { unfold stack_at. rewrite filter_none; [done|]. intros x [_ Hx]%list_elem_of_filter.
    specialize (Hpos x Hx). unfold covers. lia. }
  constructor; try done.
  - by rewrite E0.
  - intros e He. cbn. by rewrite (proj2 (Z.leb_le _ _)) by lia.
  - intros e He. replace e with 0 by lia. by rewrite E0.
  - by constructor.
  - unfold after. by rewrite (filter_all _ l).
Qed.

Lemma leading_record_cases :
  (leading_record l = [] /\ l <> []) \/
  (leading_record l = [mkSearch 0 (-1)] /\ forall x, x ∈ l -> 0 < oc_key x).
Proof.
  pose proof head_key_least as Hleast. pose proof (key_range A l HA Hl) as Hrange.
  destruct l as [|r l'] eqn:El; [right; split; [done|]; by intros x Hx%not_elem_of_nil|].
  cbn. pose proof (Hrange r ltac:(by left)). destruct (Z.eqb_spec (oc_key r) 0); [by left|].
  right. split; [done|]. intros x Hx. pose proof (Hleast r x eq_refl Hx). lia.
Qed.
End Initial.

(** What [build_tables] makes of any sorted list of the records of well-formed
    laminar intervals. *)
Lemma build_tables_ok A l :
  Forall interval_wf A -> laminar A -> std_sorted (id_space_of A) l ->
  Z.of_nat (length A) <= 2 ^ 15 ->
  exists search walk,
    build_tables l = Ret (search, walk) /\
    (forall e, 0 <= e < 2 ^ 64 -> chain walk (search_first (-1) search e) (stack_at l e)) /\
    length walk = length A /\ search <> [] /\
    Forall (fun s => 0 <= se_event s < 2 ^ 64) search /\ (length search <= S (length l))%nat.
Proof.
  intros HA Hlam Hl Hsize. unfold build_tables.
  pose proof (Permutation_length (O_perm A l HA Hl)) as EO.
  destruct (leading_record_cases A l HA Hl) as [[Er Hne]|[Er Hpos]]; rewrite Er.
  - pose proof (initial_empty A l HA Hl) as Hinv. pose proof (after_start A l HA Hl) as Ea.
    destruct (walk_records_ok A l HA Hlam Hl Hsize (length l) _ _ _ _ Hinv)
      as (search & walk & E & Hs & Hw & ? & ? & Hlen); rewrite Ea in *; [done..|].
    exists search, walk. cbn in Hlen. rewrite EO in Hw. repeat split; try done. lia.
  - pose proof (initial_zero l Hpos) as Hinv.
    assert (after l 0 = l) as Ea by (by apply filter_all).
    destruct (walk_records_ok A l HA Hlam Hl Hsize (length l) _ _ _ _ Hinv)
      as (search & walk & E & Hs & Hw & ? & ? & Hlen); rewrite Ea in *; [done..|].
    exists search, walk. cbn in Hlen. rewrite EO in Hw. repeat split; done.
Qed.

Section Tables.
Context (pcs : list Placed).
Hypothesis Hwf : Forall (fun pc => condition_wf (pl_cond pc)) pcs.

Lemma placed_wf : Forall interval_wf (placed_open <$> pcs).
Proof.
  apply Forall_fmap. eapply Forall_impl; [exact Hwf|]. intros pc. apply open_record_wf.
Qed.

Lemma placed_laminar : laminar (placed_open <$> pcs).
Proof.
  rewrite Forall_forall in Hwf.
  intros a b (pa & -> & Ha)%list_elem_of_fmap (pb & -> & Hb)%list_elem_of_fmap.
  apply open_records_laminar; auto.
Qed.

Lemma covers_actions e :
  0 <= e < 2 ^ 64 ->
  oc_action <$> filter (covers e) (placed_open <$> pcs)
  = placed_action <$> filter (fun pc => event_matches e (pl_cond pc) = true) pcs.
Proof.
  intros He. induction Hwf as [|pc l Hc Hl IH]; [done|].
  rewrite fmap_cons, !filter_cons.
  pose proof (open_record_matches (pl_channel pc) (pl_num pc) _ e Hc He) as Hiff.
  destruct (decide (covers e (placed_open pc))), (decide (event_matches e (pl_cond pc) = true));
    unfold placed_open in *; try tauto; cbn; by rewrite IH.
Qed.
End Tables.

(** For active conditions that pass the constructor's mask check, and any
    order in which [std::sort] leaves equal records, [ECA::compile] builds
    tables - it never reports "Impossible mismatched open/close" - and these
    give every 64-bit event exactly the actions of the conditions that match
    it, each as often as it matches. *)
Theorem compile_tables_correct (pcs : list Placed) (l : list ECA_OpenClose)
    (Hwf : Forall (fun pc => condition_wf (pl_cond pc)) pcs)
    (Hsize : Z.of_nat (length pcs) <= 2 ^ 15)
    (Hsort : std_sorted (id_space_of (placed_open <$> pcs)) l) :
  exists search walk,
    build_tables l = Ret (search, walk) /\
    length walk = length pcs /\
    (0 < length search <= S (length l))%nat /\
    forall e, 0 <= e < 2 ^ 64 ->
      table_actions search walk e
      ≡ₚ placed_action <$> filter (fun pc => event_matches e (pl_cond pc) = true) pcs.
Proof.
  destruct (build_tables_ok (placed_open <$> pcs) l) as (search & walk & E & Hc & Hw & Hne & _ & Hs);
    [by apply placed_wf|by apply placed_laminar|done|by rewrite length_fmap|].
  exists search, walk. split; [done|]. rewrite Hw, length_fmap.
  split; [done|]. split; [by destruct search; [done|cbn in *; lia]|].
  intros e He. unfold table_actions. rewrite (chain_walk _ _ (stack_at l e)); [|by apply Hc|].
  - rewrite (stack_at_perm (placed_open <$> pcs) l (placed_wf pcs Hwf) Hsort).
    by rewrite covers_actions.
  - rewrite (stack_at_length l e), Hw.
    by rewrite (O_perm (placed_open <$> pcs) l (placed_wf pcs Hwf) Hsort).
Qed.
