(* ===== verification/EcaHw.v ===== *)
(** * The match tables in hardware (src/eca_regs.h)

    The registers of the ECA that hold the search and walker tables, as the
    register map documents them: scratch registers are stored to the selected
    record of the inactive table, a flip exchanges the tables, and an event is
    looked up in the active ones. *)
From S2P Require Import Prelude Bus EcaTables.
Local Open Scope Z_scope.

(** ** The register map *)
Definition ECA_CHANNELS_GET : Z := 0x00.
Definition ECA_SEARCH_CAPACITY_GET : Z := 0x04.
Definition ECA_WALKER_CAPACITY_GET : Z := 0x08.
Definition ECA_LATENCY_GET : Z := 0x0c.
Definition ECA_OFFSET_BITS_GET : Z := 0x10.
Definition ECA_FLIP_ACTIVE_OWR : Z := 0x14.
Definition ECA_TIME_HI_GET : Z := 0x18.
Definition ECA_TIME_LO_GET : Z := 0x1c.
Definition ECA_SEARCH_SELECT_RW : Z := 0x20.
Definition ECA_SEARCH_RW_FIRST_RW : Z := 0x24.
Definition ECA_SEARCH_RW_EVENT_HI_RW : Z := 0x28.
Definition ECA_SEARCH_RW_EVENT_LO_RW : Z := 0x2c.
Definition ECA_SEARCH_WRITE_OWR : Z := 0x30.
Definition ECA_WALKER_SELECT_RW : Z := 0x40.
Definition ECA_WALKER_RW_NEXT_RW : Z := 0x44.
Definition ECA_WALKER_RW_OFFSET_HI_RW : Z := 0x48.
Definition ECA_WALKER_RW_OFFSET_LO_RW : Z := 0x4c.
Definition ECA_WALKER_RW_TAG_RW : Z := 0x50.
Definition ECA_WALKER_RW_FLAGS_RW : Z := 0x54.
Definition ECA_WALKER_RW_CHANNEL_RW : Z := 0x58.
Definition ECA_WALKER_RW_NUM_RW : Z := 0x5c.
Definition ECA_WALKER_WRITE_OWR : Z := 0x60.
Definition ECA_CHANNEL_SELECT_RW : Z := 0x80.
Definition ECA_CHANNEL_NUM_SELECT_RW : Z := 0x84.
Definition ECA_CHANNEL_CODE_SELECT_RW : Z := 0x88.
Definition ECA_CHANNEL_TYPE_GET : Z := 0x90.
Definition ECA_CHANNEL_MAX_NUM_GET : Z := 0x94.
Definition ECA_CHANNEL_CAPACITY_GET : Z := 0x98.
Definition ECA_CHANNEL_MSI_SET_ENABLE_OWR : Z := 0x9c.
Definition ECA_CHANNEL_MSI_SET_TARGET_OWR : Z := 0xa4.
Definition ECA_CHANNEL_MOSTFULL_ACK_GET : Z := 0xac.
Definition ECA_CHANNEL_MOSTFULL_CLEAR_GET : Z := 0xb0.
Definition ECA_CHANNEL_VALID_COUNT_GET : Z := 0xb4.
Definition ECA_CHANNEL_OVERFLOW_COUNT_GET : Z := 0xb8.
Definition ECA_CHANNEL_FAILED_COUNT_GET : Z := 0xbc.
Definition ECA_CHANNEL_EVENT_ID_HI_GET : Z := 0xc0.
Definition ECA_CHANNEL_EVENT_ID_LO_GET : Z := 0xc4.
Definition ECA_CHANNEL_PARAM_HI_GET : Z := 0xc8.
Definition ECA_CHANNEL_PARAM_LO_GET : Z := 0xcc.
Definition ECA_CHANNEL_TAG_GET : Z := 0xd0.
Definition ECA_CHANNEL_TEF_GET : Z := 0xd4.
Definition ECA_CHANNEL_DEADLINE_HI_GET : Z := 0xd8.
Definition ECA_CHANNEL_DEADLINE_LO_GET : Z := 0xdc.
Definition ECA_CHANNEL_EXECUTED_HI_GET : Z := 0xe0.
Definition ECA_CHANNEL_EXECUTED_LO_GET : Z := 0xe4.

(** ** The tables *)
Record SearchRecord := mkSearchRec { sr_first : Z; sr_hi : Z; sr_lo : Z }.
Record WalkerRecord := mkWalkerRec {
  wr_next : Z; wr_offset_hi : Z; wr_offset_lo : Z; wr_tag : Z;
  wr_flags : Z; wr_channel : Z; wr_num : Z
}.

(** A pair of tables; records that were never written are arbitrary. *)
Record Tables := mkTables { t_search : Z -> SearchRecord; t_walker : Z -> WalkerRecord }.

Record EcaRegs := mkRegs {
  r_search_select : Z;
  r_search : SearchRecord;
  r_walker_select : Z;
  r_walker : WalkerRecord;
  r_inactive : Tables;
  r_active : Tables
}.

Definition update {A} (f : Z -> A) (i : Z) (a : A) : Z -> A :=
  fun j => if j =? i then a else f j.

(** A write to the register at offset [a]; fields have the documented widths. *)
Definition eca_write (a v : Z) (r : EcaRegs) : EcaRegs :=
  let s := r_search r in
  let w := r_walker r in
  let search s' := mkRegs (r_search_select r) s' (r_walker_select r) w (r_inactive r) (r_active r) in
  let walker w' := mkRegs (r_search_select r) s (r_walker_select r) w' (r_inactive r) (r_active r) in
  if a =? ECA_SEARCH_SELECT_RW then
    mkRegs (u16 v) s (r_walker_select r) w (r_inactive r) (r_active r)
  else if a =? ECA_SEARCH_RW_FIRST_RW then search (mkSearchRec (u16 v) (sr_hi s) (sr_lo s))
  else if a =? ECA_SEARCH_RW_EVENT_HI_RW then search (mkSearchRec (sr_first s) (u32 v) (sr_lo s))
  else if a =? ECA_SEARCH_RW_EVENT_LO_RW then search (mkSearchRec (sr_first s) (sr_hi s) (u32 v))
  else if a =? ECA_SEARCH_WRITE_OWR then
    mkRegs (r_search_select r) s (r_walker_select r) w
      (mkTables (update (t_search (r_inactive r)) (r_search_select r) s) (t_walker (r_inactive r)))
      (r_active r)
  else if a =? ECA_WALKER_SELECT_RW then
    mkRegs (r_search_select r) s (u16 v) w (r_inactive r) (r_active r)
  else if a =? ECA_WALKER_RW_NEXT_RW then
    walker (mkWalkerRec (u16 v) (wr_offset_hi w) (wr_offset_lo w) (wr_tag w) (wr_flags w) (wr_channel w) (wr_num w))
  else if a =? ECA_WALKER_RW_OFFSET_HI_RW then
    walker (mkWalkerRec (wr_next w) (u32 v) (wr_offset_lo w) (wr_tag w) (wr_flags w) (wr_channel w) (wr_num w))
  else if a =? ECA_WALKER_RW_OFFSET_LO_RW then
    walker (mkWalkerRec (wr_next w) (wr_offset_hi w) (u32 v) (wr_tag w) (wr_flags w) (wr_channel w) (wr_num w))
  else if a =? ECA_WALKER_RW_TAG_RW then
    walker (mkWalkerRec (wr_next w) (wr_offset_hi w) (wr_offset_lo w) (u32 v) (wr_flags w) (wr_channel w) (wr_num w))
  else if a =? ECA_WALKER_RW_FLAGS_RW then
    walker (mkWalkerRec (wr_next w) (wr_offset_hi w) (wr_offset_lo w) (wr_tag w) (unsigned_wrap 4 v) (wr_channel w) (wr_num w))
  else if a =? ECA_WALKER_RW_CHANNEL_RW then
    walker (mkWalkerRec (wr_next w) (wr_offset_hi w) (wr_offset_lo w) (wr_tag w) (wr_flags w) (u8 v) (wr_num w))
  else if a =? ECA_WALKER_RW_NUM_RW then
    walker (mkWalkerRec (wr_next w) (wr_offset_hi w) (wr_offset_lo w) (wr_tag w) (wr_flags w) (wr_channel w) (u8 v))
  else if a =? ECA_WALKER_WRITE_OWR then
    mkRegs (r_search_select r) s (r_walker_select r) w
      (mkTables (t_search (r_inactive r)) (update (t_walker (r_inactive r)) (r_walker_select r) w))
      (r_active r)
  else if a =? ECA_FLIP_ACTIVE_OWR then
    mkRegs (r_search_select r) s (r_walker_select r) w (r_active r) (r_inactive r)
  else r.

Definition eca_apply (base : Z) (r : EcaRegs) (op : bus_op) : EcaRegs :=
  match op with
  | BusW a v => eca_write (a - base) v r
  | BusR _ => r
  end.

(** ** Matching an event against the active tables *)
Definition sr_event (s : SearchRecord) : Z := sr_hi s * 2 ^ 32 + sr_lo s.

(** The first walker record of the last search record that the event reaches. *)
Definition hw_first (t : Tables) (search_size : nat) (e : Z) : Z :=
  foldl (fun acc i => let s := t_search t (Z.of_nat i) in
                      if sr_event s <=? e then sr_first s else acc) 65535 (seq 0 search_size).

Definition wr_action (w : WalkerRecord) : Action :=
  mkAction (s64 (wr_offset_hi w * 2 ^ 32 + wr_offset_lo w)) (wr_tag w) (wr_flags w)
    (wr_channel w) (wr_num w).

(** Follow [next] up to 0xffff; a list is no longer than the table. *)
Fixpoint hw_walk (fuel : nat) (t : Tables) (i : Z) : list Action :=
  match fuel with
  | O => []
  | S fuel' =>
      if i =? 65535 then []
      else wr_action (t_walker t i) :: hw_walk fuel' t (wr_next (t_walker t i))
  end.

Definition hw_actions (t : Tables) (search_size walker_size : nat) (e : Z) : list Action :=
  hw_walk walker_size t (hw_first t search_size e).

(** ** The device

    What the code relies on: the registers of the device at [base] behave as the
    map says, and no other access changes the tables. *)
Class EcaDevice (D : Type) `{Bus D} (base : Z) := {
  eca_regs : D -> EcaRegs;
  eca_cycle : forall ops d rs d',
    bus_cycle ops d = Some (rs, d') -> eca_regs d' = foldl (eca_apply base) (eca_regs d) ops
}.
Arguments eca_regs {_ _} _ {_} _.

(** A concrete one: the registers, and a memory for everything else. *)
Record eca_ram := mkEcaRam { er_regs : EcaRegs; er_ram : ram }.

Definition eca_ram_base : Z := 0x1000.

#[export] Instance eca_ram_bus : Bus eca_ram := fun ops d =>
  '(rs, m) ← bus_cycle ops (er_ram d);
  Some (rs, mkEcaRam (foldl (eca_apply eca_ram_base) (er_regs d) ops) m).

#[export] Instance eca_ram_bus_ok : BusOk eca_ram.
Proof.
  split; intros ops d rs d'; unfold bus_cycle, eca_ram_bus;
    destruct (bus_cycle ops (er_ram d)) as [[rs0 m]|] eqn:E; cbn; try done; intros [= <- <-].
  - by eapply bus_cycle_length.
  - by eapply bus_cycle_width.
Qed.

Lemma eca_ram_cycle ops (d : eca_ram) rs d' :
  bus_cycle ops d = Some (rs, d') ->
  er_regs d' = foldl (eca_apply eca_ram_base) (er_regs d) ops.
Proof.
  unfold bus_cycle, eca_ram_bus.
  destruct (bus_cycle ops (er_ram d)) as [[rs0 m]|]; cbn; [|done]. by intros [= <- <-].
Qed.

#[export] Instance eca_ram_device : EcaDevice eca_ram eca_ram_base :=
  { eca_regs := er_regs; eca_cycle := eca_ram_cycle }.

Definition blank_tables : Tables :=
  mkTables (fun _ => mkSearchRec 65535 0 0) (fun _ => mkWalkerRec 65535 0 0 0 0 0 0).
Definition blank_regs : EcaRegs :=
  mkRegs 0 (mkSearchRec 0 0 0) 0 (mkWalkerRec 0 0 0 0 0 0 0) blank_tables blank_tables.
Definition eca_ram0 : eca_ram := mkEcaRam blank_regs ram0.

(** ** The cycles that store a record *)
Section Cycles.
Context (base : Z).

(** The writes of one search record, as [ECA::compile] queues them. *)
Definition search_ops (i : Z) (se : SearchEntry) : list bus_op :=
  [BusW (base + ECA_SEARCH_SELECT_RW) i;
   BusW (base + ECA_SEARCH_RW_FIRST_RW) (u16 (se_index se));
   BusW (base + ECA_SEARCH_RW_EVENT_HI_RW) (Z.shiftr (se_event se) 32);
   BusW (base + ECA_SEARCH_RW_EVENT_LO_RW) (u32 (se_event se));
   BusW (base + ECA_SEARCH_WRITE_OWR) 1].

Definition walker_ops (i : Z) (we : WalkEntry) : list bus_op :=
  [BusW (base + ECA_WALKER_SELECT_RW) i;
   BusW (base + ECA_WALKER_RW_NEXT_RW) (u16 (we_next we));
   BusW (base + ECA_WALKER_RW_OFFSET_HI_RW) (Z.shiftr (u64 (we_offset we)) 32);
   BusW (base + ECA_WALKER_RW_OFFSET_LO_RW) (u32 (we_offset we));
   BusW (base + ECA_WALKER_RW_TAG_RW) (we_tag we);
   BusW (base + ECA_WALKER_RW_FLAGS_RW) (we_flags we);
   BusW (base + ECA_WALKER_RW_CHANNEL_RW) (we_channel we);
   BusW (base + ECA_WALKER_RW_NUM_RW) (we_num we);
   BusW (base + ECA_WALKER_WRITE_OWR) 1].

Definition search_record (se : SearchEntry) : SearchRecord :=
  mkSearchRec (u16 (se_index se)) (u32 (Z.shiftr (se_event se) 32)) (u32 (se_event se)).
Definition walker_record (we : WalkEntry) : WalkerRecord :=
  mkWalkerRec (u16 (we_next we)) (u32 (Z.shiftr (u64 (we_offset we)) 32)) (u32 (we_offset we))
    (u32 (we_tag we)) (unsigned_wrap 4 (we_flags we)) (u8 (we_channel we)) (u8 (we_num we)).

Lemma eca_apply_write a v r : eca_apply base r (BusW (base + a) v) = eca_write a v r.
Proof. cbn. by replace (base + a - base) with a by lia. Qed.

Lemma search_ops_apply i se r :
  let r' := foldl (eca_apply base) r (search_ops i se) in
  r_active r' = r_active r /\
  t_walker (r_inactive r') = t_walker (r_inactive r) /\
  t_search (r_inactive r') = update (t_search (r_inactive r)) (u16 i) (search_record se).
Proof.
  unfold search_ops. cbn [foldl]. rewrite !eca_apply_write.
  cbn -[unsigned_wrap update Z.shiftr]. unfold search_record.
  by rewrite ?unsigned_wrap_idemp.
Qed.

Lemma walker_ops_apply i we r :
  let r' := foldl (eca_apply base) r (walker_ops i we) in
  r_active r' = r_active r /\
  t_search (r_inactive r') = t_search (r_inactive r) /\
  t_walker (r_inactive r') = update (t_walker (r_inactive r)) (u16 i) (walker_record we).
Proof.
  unfold walker_ops. cbn [foldl]. rewrite !eca_apply_write.
  cbn -[unsigned_wrap update Z.shiftr]. unfold walker_record.
  by rewrite ?unsigned_wrap_idemp.
Qed.
End Cycles.
