(* ===== verification/Loop.v ===== *)
(** * The event loop: [saftbus::Loop] (saftbus/loop.cpp, loop.hpp)

    A loop keeps a vector of sources whose entries are nulled, never erased,
    while an iteration runs; sources connected meanwhile wait in a second vector.
    A slot is data of the client's type [CB]; [run_slot] runs it on the loop and
    the client's state [W], so that slots may connect, remove, and iterate the
    loop again.  The operating system's clock and [poll] are parameters. *)
From S2P Require Import Prelude.
Local Open Scope Z_scope.

(** ** Data *)
Record SourceHandle := mkHandle { source_id : Z; h_loop_id : Z }.

(** [SourceHandle() : source_id(0), loop_id(0)] *)
Definition null_handle : SourceHandle := mkHandle 0 0.
Definition connected (h : SourceHandle) : bool := negb (h_loop_id h =? 0).

(** Times of [steady_clock] are nanoseconds, intervals milliseconds. *)
Definition ms_ns : Z := 1000000.

Inductive SourceKind :=
  | TimeoutSource (interval dispatch_time : Z)
  | IoSource (fd events revents : Z).

Record Source (CB : Type) := mkSource {
  src_id : Z;
  src_kind : SourceKind;
  src_slot : CB
}.
Arguments mkSource {_} _ _ _.
Arguments src_id {_} _.
Arguments src_kind {_} _.
Arguments src_slot {_} _.

(** [Loop::Impl], and the static [Source::id_counter]. *)
Record Loop (CB : Type) := mkLoop {
  added_sources : list (option (Source CB));
  sources : list (option (Source CB));
  running : bool;
  running_depth : Z;
  loop_id : Z;
  id_counter : Z
}.
Arguments mkLoop {_} _ _ _ _ _ _.
Arguments added_sources {_} _.
Arguments sources {_} _.
Arguments running {_} _.
Arguments running_depth {_} _.
Arguments loop_id {_} _.
Arguments id_counter {_} _.

Definition POLLIN : Z := 1.
Definition POLLOUT : Z := 4.
Definition POLLERR : Z := 8.
Definition POLLHUP : Z := 16.

(** ** Identifiers *)

(** [Source::Source]: [rnd] is what [rand()] returned.  The result is the new
    counter and the identifier. *)
Definition new_source_id (counter rnd : Z) : Z * Z :=
  let c := if counter =? -1 then s64 (counter + 1) else counter in
  let c' := s64 (c + 1) in
  (c', Z.lor c' (s64 (Z.shiftl (Z.rem rnd 4294967295) 32))).

(** ** Timeouts *)

(** [TimeoutSource::TimeoutSource(slot, interval, offset)] at time [now]. *)
Definition new_timeout (now interval offset : Z) : SourceKind :=
  TimeoutSource (if interval <=? 0 then 1 else interval) (now + offset * ms_ns).

(** [duration_cast<milliseconds>(dispatch_time - now)] *)
Definition timeout_ms (dispatch_time now : Z) : Z := Z.quot (dispatch_time - now) ms_ns.

(** [do { dispatch_time += interval; } while (now >= dispatch_time);] *)
Fixpoint advance (fuel : nat) (interval now dispatch_time : Z) : option Z :=
  match fuel with
  | O => None
  | S fuel' =>
      let t := dispatch_time + interval * ms_ns in
      if t <=? now then advance fuel' interval now t else Some t
  end.

(** Rounds enough: one per interval that has passed, and one more. *)
Definition advance_fuel (interval now dispatch_time : Z) : nat :=
  S (Z.to_nat ((now - dispatch_time) / (interval * ms_ns) + 1)).

(** ** File descriptors of a source

    [Source::remove_poll]: [pfds.erase(pfds.begin(), std::remove(pfds.begin(),
    pfds.end(), pfd))].  [std::remove] moves the other pointers to the front and
    leaves the tail as it was. *)
Definition std_remove (x : Z) (l : list Z) : list Z * nat :=
  let kept := filter (fun y => y ≠ x) l in
  (kept ++ drop (length kept) l, length kept).

Definition add_poll (pfds : list Z) (p : Z) : list Z := pfds ++ [p].
Definition remove_poll (pfds : list Z) (p : Z) : list Z :=
  let '(l, n) := std_remove p pfds in drop n l.

Section Loop.
Context {W CB : Type}.

Record LoopWorld := mkLW { the_loop : Loop CB; the_world : W }.

(** The operating system: the clock, [poll] on (fd, events) pairs with a
    timeout (the revents if any descriptor is ready) and [sleep_for]. *)
Context (now : W -> Z).
Context (poll : list (Z * Z) -> Z -> W -> option (list Z) * W).
Context (sleep_for : Z -> W -> W).
(** The program's slots; [fd] and [revents] are 0 for a timeout. *)
Context (run_slot : CB -> Z -> Z -> M LoopWorld bool).

Definition on_loop (f : Loop CB -> Loop CB) : M LoopWorld unit :=
  modify (fun st => mkLW (f (the_loop st)) (the_world st)).
Definition on_world (f : W -> W) : M LoopWorld unit :=
  modify (fun st => mkLW (the_loop st) (f (the_world st))).

Definition set_sources (ss : list (option (Source CB))) (l : Loop CB) : Loop CB :=
  mkLoop (added_sources l) ss (running l) (running_depth l) (loop_id l) (id_counter l).
Definition set_added (ss : list (option (Source CB))) (l : Loop CB) : Loop CB :=
  mkLoop ss (sources l) (running l) (running_depth l) (loop_id l) (id_counter l).
Definition set_depth (f : Z -> Z) (l : Loop CB) : Loop CB :=
  mkLoop (added_sources l) (sources l) (running l) (f (running_depth l)) (loop_id l) (id_counter l).
Definition set_running (b : bool) (l : Loop CB) : Loop CB :=
  mkLoop (added_sources l) (sources l) b (running_depth l) (loop_id l) (id_counter l).

(** ** [Loop::connect], with the construction of the source *)
Definition connect (kind : SourceKind) (slot : CB) (rnd : Z) (l : Loop CB)
    : SourceHandle * Loop CB :=
  let '(c, sid) := new_source_id (id_counter l) rnd in
  let s := mkSource sid kind slot in
  (mkHandle sid (loop_id l),
   if running_depth l =? 0 then
     mkLoop (added_sources l) (sources l ++ [Some s]) (running l) (running_depth l) (loop_id l) c
   else
     mkLoop (added_sources l ++ [Some s]) (sources l) (running l) (running_depth l) (loop_id l) c).

(** [std::find] with the comparison of a handle, then [reset] *)
Fixpoint reset_first (sid : Z) (ss : list (option (Source CB))) : list (option (Source CB)) :=
  match ss with
  | [] => []
  | Some s :: ss' => if src_id s =? sid then None :: ss' else Some s :: reset_first sid ss'
  | None :: ss' => None :: reset_first sid ss'
  end.

(** ** [Loop::remove] *)
Definition remove (h : SourceHandle) (l : Loop CB) : Loop CB :=
  if h_loop_id h =? loop_id l then
    set_added (reset_first (source_id h) (added_sources l))
      (set_sources (reset_first (source_id h) (sources l)) l)
  else l.

Definition clear (l : Loop CB) : Loop CB := set_added [] (set_sources [] l).
Definition quit (l : Loop CB) : Loop CB := set_running false l.

(** ** The phases of an iteration *)

(** [TimeoutSource::prepare] and [IoSource::prepare]: the timeout asked for. *)
Definition prepare (t : Z) (k : SourceKind) : option Z :=
  match k with
  | TimeoutSource _ dt =>
      let ms := timeout_ms dt t in Some (if ms <=? 0 then 0 else ms)
  | IoSource _ _ _ => None
  end.

Definition min_timeout (acc x : option Z) : option Z :=
  match acc, x with
  | None, _ => x
  | Some a, None => Some a
  | Some a, Some b => Some (Z.min a b)
  end.

Definition earliest (t : Z) (ss : list (option (Source CB))) : option Z :=
  foldl (fun acc os => match os with
                       | None => acc
                       | Some s => min_timeout acc (prepare t (src_kind s))
                       end) None ss.

Definition pollfds (ss : list (option (Source CB))) : list (Z * Z) :=
  ss ≫= fun os => match os with
                  | Some (mkSource _ (IoSource fd ev _) _) => [(fd, ev)]
                  | _ => []
                  end.

(** [source_pfds[i]->revents = pfds[i].revents] *)
Fixpoint copy_back (rs : list Z) (ss : list (option (Source CB))) : list (option (Source CB)) :=
  match ss with
  | [] => []
  | Some (mkSource sid (IoSource fd ev _) slot) :: ss' =>
      match rs with
      | r :: rs' => Some (mkSource sid (IoSource fd ev r) slot) :: copy_back rs' ss'
      | [] => ss
      end
  | os :: ss' => os :: copy_back rs ss'
  end.

(** [TimeoutSource::check], [IoSource::check] *)
Definition check (t : Z) (k : SourceKind) : bool :=
  match k with
  | TimeoutSource _ dt => timeout_ms dt t <=? 0
  | IoSource _ ev rev => negb (Z.land rev ev =? 0)
  end.

Definition write_source (i : nat) (os : option (Source CB)) : M LoopWorld unit :=
  on_loop (fun l => set_sources (<[i := os]> (sources l)) l).

(** [TimeoutSource::dispatch]: the time is advanced before the slot runs. *)
Definition dispatch_timeout (i : nat) (s : Source CB) (interval dt : Z) : M LoopWorld bool :=
  t ← gets (fun st => now (the_world st));
  match advance (advance_fuel interval t dt) interval t dt with
  | None => crash "TimeoutSource::dispatch does not return"
  | Some dt' =>
      write_source i (Some (mkSource (src_id s) (TimeoutSource interval dt') (src_slot s)));;
      run_slot (src_slot s) 0 0
  end.

(** [IoSource::dispatch] reads and writes [pfd.revents] after the slot has
    returned: the source must still be there. *)
Definition dispatch_io (i : nat) (s : Source CB) (fd rev : Z) : M LoopWorld bool :=
  result ← run_slot (src_slot s) fd rev;
  ss ← gets (fun st => sources (the_loop st));
  match ss !! i with
  | Some (Some (mkSource sid (IoSource fd' ev' rev') slot')) =>
      write_source i (Some (mkSource sid (IoSource fd' ev' 0) slot'));;
      mret (if (rev' =? POLLHUP) || (rev' =? POLLERR) then false else result)
  | _ => crash "IoSource::dispatch: use after free"
  end.

Definition dispatch (i : nat) (s : Source CB) : M LoopWorld bool :=
  match src_kind s with
  | TimeoutSource interval dt => dispatch_timeout i s interval dt
  | IoSource fd _ rev => dispatch_io i s fd rev
  end.

(** One turn of the dispatching loop. *)
Definition dispatch_entry (i : nat) : M LoopWorld unit :=
  st ← get;
  match sources (the_loop st) !! i with
  | Some (Some s) =>
      if check (now (the_world st)) (src_kind s) then
        keep ← dispatch i s;
        if (keep : bool) then mret tt else write_source i None
      else mret tt
  | _ => mret tt
  end.

(** Erase the null sources, move the added ones over. *)
Definition cleanup (l : Loop CB) : Loop CB :=
  set_added []
    (set_sources (filter is_Some (sources l) ++ filter is_Some (added_sources l)) l).

(** ** [Loop::iteration] *)
Definition wait_phase (may_block : bool) : M LoopWorld unit :=
  st ← get;
  let ss := sources (the_loop st) in
  let timeout := if may_block then earliest (now (the_world st)) ss else Some 0 in
  let pfds := pollfds ss in
  match pfds with
  | _ :: _ =>
      let '(r, w) := poll pfds (default (-1) timeout) (the_world st) in
      on_world (fun _ => w);;
      match r with
      | Some revents => on_loop (fun l => set_sources (copy_back revents (sources l)) l)
      | None => mret tt
      end
  | [] =>
      match timeout with
      | Some t => if 0 <? t then on_world (sleep_for t) else mret tt
      | None => mret tt
      end
  end.

Definition iteration (may_block : bool) : M LoopWorld bool :=
  on_loop (set_depth (fun d => d + 1));;
  wait_phase may_block;;
  n ← gets (fun st => length (sources (the_loop st)));
  for_each dispatch_entry (seq 0 n);;
  on_loop (fun l => if running_depth l =? 1 then cleanup l else l);;
  on_loop (set_depth (fun d => d - 1));;
  gets (fun st => negb (bool_decide (sources (the_loop st) = []))).

(** ** [Loop::run]: [fuel] bounds the number of iterations *)
Fixpoint run_loop (fuel : nat) : M LoopWorld bool :=
  st ← get;
  if running (the_loop st) then
    match fuel with
    | O => mret false
    | S fuel' =>
        more ← iteration true;
        (if (more : bool) then mret tt else on_loop (set_running false));;
        run_loop fuel'
    end
  else mret true.

Definition run (fuel : nat) : M LoopWorld bool :=
  on_loop (set_running true);; run_loop fuel.
End Loop.
Arguments LoopWorld : clear implicits.
Arguments mkLW {_ _} _ _.
Arguments the_loop {_ _} _.
Arguments the_world {_ _} _.
