(* ===== verification/Owned.v ===== *)
(** * Ownership: src/Owned.cpp

    A driver object that clients may own points to its service; the owner is
    stored there.  [service] is that pointer seen from the driver: nothing while
    it is unset, otherwise the owner of the service (-1: nobody).  [Caller] is
    what the object sees of the container: whether there is one, and the client
    whose request is being served. *)
From S2P Require Import Prelude.
From stdpp Require Import pretty.
Local Open Scope Z_scope.

Record Caller := mkCaller { has_container : bool; client_id : Z }.

Definition not_set : exn := Error INVALID_ARGS "Owner service pointer not set".
Definition not_owner : exn := Error INVALID_ARGS "You are not my Owner".

Section Owned.
Context (c : Caller).
Implicit Types (service : option Z).

Definition foreign_owner (o : Z) : bool := negb (o =? -1) && negb (client_id c =? o).

(** The common shape: with a service something happens, without one the call
    fails if there is a container. *)
Definition with_service {A} (service : option Z) (f : Z -> outcome A) (otherwise : A)
    : outcome A :=
  match service with
  | Some o => if has_container c then f o else Ret otherwise
  | None => if has_container c then Throw not_set else Ret otherwise
  end.

Definition ownerOnly service : outcome unit :=
  with_service service (fun o => if foreign_owner o then Throw not_owner else Ret tt) tt.

(** The results are the new value of [service]. *)
Definition Disown service : outcome (option Z) :=
  with_service service (fun o => if foreign_owner o then Throw not_owner else Ret (Some (-1)))
    service.

Definition Own service : outcome (option Z) :=
  match ownerOnly service with
  | Throw e => Throw e
  | Crash w => Crash w
  | Ret _ => with_service service (fun _ => Ret (Some (client_id c))) service
  end.

Definition getOwner service : outcome string :=
  with_service service (fun o => Ret (if o =? -1 then EmptyString else pretty o)) EmptyString.

(** [callback]: the service has a destruction callback. *)
Definition getDestructible (callback : bool) service : outcome bool :=
  with_service service (fun _ => Ret callback) false.

(** What [Destroy] does: emit [Destroyed], and hand the service to
    [Container::destroy_service]. *)
Inductive destroy_effect := Emit_Destroyed | Destroy_service.

Definition Destroy service : outcome (list destroy_effect) :=
  match ownerOnly service with
  | Throw e => Throw e
  | Crash w => Crash w
  | Ret _ =>
      let emitted :=
        if (if service is Some _ then true else false) || negb (has_container c)
        then [Emit_Destroyed] else [] in
      with_service service (fun _ => Ret (emitted ++ [Destroy_service])) emitted
  end.
End Owned.

(** ** One owner at a time *)

(** The service of an object under the calls of several clients. *)
Inductive own_call := CallOwn | CallDisown | CallOwnerOnly.

Definition own_step (client : Z) (call : own_call) (service : option Z) : outcome (option Z) :=
  let c := mkCaller true client in
  match call with
  | CallOwn => Own c service
  | CallDisown => Disown c service
  | CallOwnerOnly => match ownerOnly c service with
                     | Ret _ => Ret service
                     | Throw e => Throw e
                     | Crash w => Crash w
                     end
  end.

(** A failing call leaves the service as it was. *)
Definition own_run (trace : list (Z * own_call)) (service : option Z) : option Z :=
  foldl (fun s cc => match own_step cc.1 cc.2 s with Ret s' => s' | _ => s end) service trace.

Lemma own_step_foreign client call o :
  o <> -1 -> client <> o -> own_step client call (Some o) = Throw not_owner.
Proof.
  intros H1%Z.eqb_neq H2%Z.eqb_neq. unfold own_step, Own, Disown, ownerOnly, with_service, foreign_owner.
  cbn. rewrite H1, H2. by destruct call.
Qed.

(** Ownership is exclusive: once a client owns an object, no sequence of calls
    by other clients changes that, every privileged call of theirs fails with
    "You are not my Owner", and the owner's calls succeed. *)
Theorem ownership_exclusive (owner : Z) (trace : list (Z * own_call))
    (Howner : owner <> -1) (Hothers : Forall (fun cc => cc.1 <> owner) trace) :
  own_step owner CallOwn (Some (-1)) = Ret (Some owner) /\
  own_run trace (Some owner) = Some owner /\
  (forall client call, client <> owner -> own_step client call (Some owner) = Throw not_owner) /\
  own_step owner CallOwnerOnly (Some owner) = Ret (Some owner) /\
  own_step owner CallDisown (Some owner) = Ret (Some (-1)).
Proof.
  split; [done|]. split.
  - unfold own_run. induction Hothers as [|cc trace Hcc Hothers IH]; [done|]. cbn.
    by rewrite own_step_foreign.
  - split; [intros; by apply own_step_foreign|].
    unfold own_step, Disown, ownerOnly, with_service, foreign_owner. cbn.
    by rewrite Z.eqb_refl, andb_false_r.
Qed.

Lemma ownership_exclusive_witness :
  let trace := [(8, CallOwn); (9, CallDisown); (8, CallOwnerOnly)] in
  own_step 7 CallOwn (Some (-1)) = Ret (Some 7) /\
  own_run trace (Some 7) = Some 7 /\
  (forall client call, client <> 7 -> own_step client call (Some 7) = Throw not_owner) /\
  own_step 7 CallOwnerOnly (Some 7) = Ret (Some 7) /\
  own_step 7 CallDisown (Some 7) = Ret (Some (-1)).
Proof.
  intros trace. apply (ownership_exclusive 7 trace); [lia|]. unfold trace. repeat constructor; cbn; lia.
Defined.
