(* ===== verification/Eca.v ===== *)
(** * The ECA driver: src/ECA.cpp, ActionSink.cpp, Condition.cpp and the sinks

    One [World] holds the device, the driver's state, the event loop with the
    sinks' timeouts, the time and the random numbers the code asks for, and the
    signals it emitted.  The functions follow the methods of the C++ classes; a
    method's [this] is the place of the object in [ECAchannels]. *)
From stdpp Require Import pretty.
From S2P Require Import Prelude StdMap Bus Loop Owned EcaTables EcaHw.
Local Open Scope Z_scope.

(** ** Data *)

(** A condition object: its members, its path, its service pointer. *)
Record CondObj := mkCondObj { co_cond : Condition; co_path : string; co_service : option Z }.

(** The counter of one kind of MSI, with the time of its last update and the
    pending timeout. *)
Record Counter := mkCounter { ct_count : Z; ct_update : Z; ct_pending : SourceHandle }.

(** The concrete classes of sinks. *)
Inductive SinkKind :=
  | SoftwareActionSink (queue : Z)
  | SCUbusActionSink (scubus : Z)
  | EmbeddedCPUActionSink
  | WbmActionSink (acwbm : Z)
  | OutputSink.

(** [counters] are the six counters, indexed by the code of the MSI (ECA_LATE,
    ECA_EARLY, ECA_CONFLICT, ECA_DELAYED, ECA_VALID, ECA_OVERFLOW). *)
Record ActionSink := mkSink {
  as_kind : SinkKind;
  as_path : string;
  as_name : string;
  as_channel : Z;
  as_num : Z;
  minOffset : Z;
  maxOffset : Z;
  signalRate : Z;
  counters : list Counter;
  latency : Z;
  earlyThreshold : Z;
  capacity : Z;
  conditions : list (Z * CondObj);
  as_service : option Z
}.

Record ECA := mkECA {
  eca_path : string;
  sas_count : Z;
  channels : Z;
  search_size : Z;
  walker_size : Z;
  max_conditions : Z;
  used_conditions : Z;
  queue_addresses : list Z;
  most_full : list Z;
  ECAchannels : list (list (option ActionSink));
  (** the index of the first Linux-facing channel (-1: none), its slots *)
  linux_channel_index : Z;
  linux_channel_subchannels : Z;
  scubus_action_sinks : list (string * string);
  ecpu_action_sinks : list (string * string);
  wbm_action_sinks : list (string * string)
}.

(** Where an object is: channel, slot, condition number. *)
Record SinkLoc := mkLoc { loc_channel : nat; loc_slot : nat }.

(** A timeout of a sink: refresh the counter of [code]. *)
Record Timer := mkTimer { tm_sink : SinkLoc; tm_code : Z }.

(** Signals to clients. *)
Inductive Signal :=
  | SigCount (loc : SinkLoc) (code : Z) (count : Z)
  | SigAction (loc : SinkLoc) (number : Z) (id param deadline executed : Z) (flags : Z)
  | SigDestroyed (path : string).

Record World (D : Type) := mkWorld {
  w_dev : D;
  w_eca : ECA;
  w_loop : Loop Timer;
  w_now : Z;
  w_rand : list Z;
  w_caller : Caller;
  w_signals : list Signal
}.
Arguments mkWorld {_} _ _ _ _ _ _ _.
Arguments w_dev {_} _.
Arguments w_eca {_} _.
Arguments w_loop {_} _.
Arguments w_now {_} _.
Arguments w_rand {_} _.
Arguments w_caller {_} _.
Arguments w_signals {_} _.

(** ** Updating records *)
Definition set_counters (f : list Counter -> list Counter) (s : ActionSink) : ActionSink :=
  mkSink (as_kind s) (as_path s) (as_name s) (as_channel s) (as_num s) (minOffset s) (maxOffset s)
    (signalRate s) (f (counters s)) (latency s) (earlyThreshold s) (capacity s) (conditions s) (as_service s).
Definition set_conditions (f : list (Z * CondObj) -> list (Z * CondObj)) (s : ActionSink) : ActionSink :=
  mkSink (as_kind s) (as_path s) (as_name s) (as_channel s) (as_num s) (minOffset s) (maxOffset s)
    (signalRate s) (counters s) (latency s) (earlyThreshold s) (capacity s) (f (conditions s)) (as_service s).
Definition set_limits (mn mx rate : Z) (s : ActionSink) : ActionSink :=
  mkSink (as_kind s) (as_path s) (as_name s) (as_channel s) (as_num s) mn mx
    rate (counters s) (latency s) (earlyThreshold s) (capacity s) (conditions s) (as_service s).
Definition set_as_service (o : option Z) (s : ActionSink) : ActionSink :=
  mkSink (as_kind s) (as_path s) (as_name s) (as_channel s) (as_num s) (minOffset s) (maxOffset s)
    (signalRate s) (counters s) (latency s) (earlyThreshold s) (capacity s) (conditions s) o.

Definition set_channels (f : list (list (option ActionSink)) -> list (list (option ActionSink)))
    (e : ECA) : ECA :=
  mkECA (eca_path e) (sas_count e) (channels e) (search_size e) (walker_size e) (max_conditions e)
    (used_conditions e) (queue_addresses e) (most_full e) (f (ECAchannels e)) (linux_channel_index e)
    (linux_channel_subchannels e) (scubus_action_sinks e) (ecpu_action_sinks e) (wbm_action_sinks e).
Definition set_used (n : Z) (e : ECA) : ECA :=
  mkECA (eca_path e) (sas_count e) (channels e) (search_size e) (walker_size e) (max_conditions e)
    n (queue_addresses e) (most_full e) (ECAchannels e) (linux_channel_index e)
    (linux_channel_subchannels e) (scubus_action_sinks e) (ecpu_action_sinks e) (wbm_action_sinks e).
Definition set_most_full (f : list Z -> list Z) (e : ECA) : ECA :=
  mkECA (eca_path e) (sas_count e) (channels e) (search_size e) (walker_size e) (max_conditions e)
    (used_conditions e) (queue_addresses e) (f (most_full e)) (ECAchannels e) (linux_channel_index e)
    (linux_channel_subchannels e) (scubus_action_sinks e) (ecpu_action_sinks e) (wbm_action_sinks e).
Definition set_queues (f : list Z -> list Z) (e : ECA) : ECA :=
  mkECA (eca_path e) (sas_count e) (channels e) (search_size e) (walker_size e) (max_conditions e)
    (used_conditions e) (f (queue_addresses e)) (most_full e) (ECAchannels e) (linux_channel_index e)
    (linux_channel_subchannels e) (scubus_action_sinks e) (ecpu_action_sinks e) (wbm_action_sinks e).
Definition set_sas_count (n : Z) (e : ECA) : ECA :=
  mkECA (eca_path e) n (channels e) (search_size e) (walker_size e) (max_conditions e)
    (used_conditions e) (queue_addresses e) (most_full e) (ECAchannels e) (linux_channel_index e)
    (linux_channel_subchannels e) (scubus_action_sinks e) (ecpu_action_sinks e) (wbm_action_sinks e).
Definition set_linux (idx sub : Z) (e : ECA) : ECA :=
  mkECA (eca_path e) (sas_count e) (channels e) (search_size e) (walker_size e) (max_conditions e)
    (used_conditions e) (queue_addresses e) (most_full e) (ECAchannels e) idx
    sub (scubus_action_sinks e) (ecpu_action_sinks e) (wbm_action_sinks e).
Definition set_sinks (scu ecpu wbm : list (string * string)) (e : ECA) : ECA :=
  mkECA (eca_path e) (sas_count e) (channels e) (search_size e) (walker_size e) (max_conditions e)
    (used_conditions e) (queue_addresses e) (most_full e) (ECAchannels e) (linux_channel_index e)
    (linux_channel_subchannels e) scu ecpu wbm.

(** Setters of a condition's members. *)
Definition cond_set_id (v : Z) (c : Condition) : Condition :=
  mkCondition (number c) v (mask c) (offset c) (tag c) (acceptLate c) (acceptEarly c)
    (acceptConflict c) (acceptDelayed c) (active c).
Definition cond_set_mask (v : Z) (c : Condition) : Condition :=
  mkCondition (number c) (id c) v (offset c) (tag c) (acceptLate c) (acceptEarly c)
    (acceptConflict c) (acceptDelayed c) (active c).
Definition cond_set_offset (v : Z) (c : Condition) : Condition :=
  mkCondition (number c) (id c) (mask c) v (tag c) (acceptLate c) (acceptEarly c)
    (acceptConflict c) (acceptDelayed c) (active c).
Definition cond_set_tag (v : Z) (c : Condition) : Condition :=
  mkCondition (number c) (id c) (mask c) (offset c) v (acceptLate c) (acceptEarly c)
    (acceptConflict c) (acceptDelayed c) (active c).
Definition cond_set_late (v : bool) (c : Condition) : Condition :=
  mkCondition (number c) (id c) (mask c) (offset c) (tag c) v (acceptEarly c)
    (acceptConflict c) (acceptDelayed c) (active c).
Definition cond_set_early (v : bool) (c : Condition) : Condition :=
  mkCondition (number c) (id c) (mask c) (offset c) (tag c) (acceptLate c) v
    (acceptConflict c) (acceptDelayed c) (active c).
Definition cond_set_conflict (v : bool) (c : Condition) : Condition :=
  mkCondition (number c) (id c) (mask c) (offset c) (tag c) (acceptLate c) (acceptEarly c)
    v (acceptDelayed c) (active c).
Definition cond_set_delayed (v : bool) (c : Condition) : Condition :=
  mkCondition (number c) (id c) (mask c) (offset c) (tag c) (acceptLate c) (acceptEarly c)
    (acceptConflict c) v (active c).
(** [Condition::setRawActive] *)
Definition setRawActive (v : bool) (c : Condition) : Condition :=
  mkCondition (number c) (id c) (mask c) (offset c) (tag c) (acceptLate c) (acceptEarly c)
    (acceptConflict c) (acceptDelayed c) v.
Definition on_cond (f : Condition -> Condition) (o : CondObj) : CondObj :=
  mkCondObj (f (co_cond o)) (co_path o) (co_service o).

(** ** All conditions, in the order of the nested loops *)
Definition sinks_of (e : ECA) : list ActionSink := omap (fun s => s) (concat (ECAchannels e)).

Definition placed_conditions (s : ActionSink) : list Placed :=
  (fun p : Z * CondObj => mkPlaced (as_channel s) (as_num s) (co_cond p.2)) <$> conditions s.

Definition active_conditions (e : ECA) : list Placed :=
  filter (fun pc => active (pl_cond pc) = true) (sinks_of e ≫= placed_conditions).

(** The nested range-fors, for a body that may throw: what was changed before
    the throw stays. *)
Fixpoint visit {A} (f : A -> A * outcome unit) (l : list A) : list A * outcome unit :=
  match l with
  | [] => ([], Ret tt)
  | x :: l' =>
      let '(x', r) := f x in
      match r with
      | Ret _ => let '(l'', r') := visit f l' in (x' :: l'', r')
      | _ => (x' :: l', r)
      end
  end.

Definition visit_sink (f : CondObj -> CondObj * outcome unit) (os : option ActionSink)
    : option ActionSink * outcome unit :=
  match os with
  | None => (None, Ret tt)
  | Some s =>
      let '(cs, r) := visit (fun p : Z * CondObj => let '(o, r) := f p.2 in ((p.1, o), r)) (conditions s) in
      (Some (set_conditions (fun _ => cs) s), r)
  end.

Definition visit_conditions (f : CondObj -> CondObj * outcome unit) (e : ECA) : ECA * outcome unit :=
  let '(chs, r) := visit (visit (visit_sink f)) (ECAchannels e) in
  (set_channels (fun _ => chs) e, r).

Section Driver.
Context {D : Type} `{Bus D}.
(** The address of the device, and [std::sort]. *)
Context (adr_first : Z) (sort : list ECA_OpenClose -> list ECA_OpenClose).
Let W := World D.

Definition on_eca (f : ECA -> ECA) : M W unit :=
  modify (fun w => mkWorld (w_dev w) (f (w_eca w)) (w_loop w) (w_now w) (w_rand w) (w_caller w) (w_signals w)).
Definition on_dev {A} (m : M D A) : M W A :=
  zoom w_dev (fun d w => mkWorld d (w_eca w) (w_loop w) (w_now w) (w_rand w) (w_caller w) (w_signals w)) m.
Definition on_timers {A} (f : Loop Timer -> A * Loop Timer) : M W A := fun w =>
  let '(a, l) := f (w_loop w) in
  (Ret a, mkWorld (w_dev w) (w_eca w) l (w_now w) (w_rand w) (w_caller w) (w_signals w)).
Definition signal (s : Signal) : M W unit :=
  modify (fun w => mkWorld (w_dev w) (w_eca w) (w_loop w) (w_now w) (w_rand w) (w_caller w) (w_signals w ++ [s])).
Definition outcome_of {A} (o : outcome A) : M W A := fun w => (o, w).

(** [rand()]: the next of the numbers that the run supplies. *)
Definition rand : M W Z := fun w =>
  match w_rand w with
  | r :: rs => (Ret r, mkWorld (w_dev w) (w_eca w) (w_loop w) (w_now w) rs (w_caller w) (w_signals w))
  | [] => (Crash "no random number", w)
  end.

(** The object behind a pointer. *)
Definition find_sink (loc : SinkLoc) (e : ECA) : option ActionSink :=
  ch ← ECAchannels e !! loc_channel loc;
  os ← ch !! loc_slot loc;
  os.
Definition write_sink (loc : SinkLoc) (os : option ActionSink) (e : ECA) : ECA :=
  set_channels (alter (fun ch : list (option ActionSink) => <[loc_slot loc := os]> ch) (loc_channel loc)) e.
Definition get_sink (loc : SinkLoc) : M W ActionSink := fun w =>
  match find_sink loc (w_eca w) with
  | Some s => (Ret s, w)
  | None => (Crash "null action sink", w)
  end.
Definition on_sink (loc : SinkLoc) (f : ActionSink -> ActionSink) : M W unit :=
  s ← get_sink loc; on_eca (write_sink loc (Some (f s))).
Definition get_cond (loc : SinkLoc) (n : Z) : M W CondObj :=
  s ← get_sink loc;
  match map_find n (conditions s) with
  | Some o => mret o
  | None => crash "dangling condition"
  end.
Definition write_cond (loc : SinkLoc) (n : Z) (f : Condition -> Condition) : M W unit :=
  on_sink loc (set_conditions (map_update (on_cond f) n)).

(** [ownerOnly()] of a sink or a condition *)
Definition owner_only (service : option Z) : M W unit :=
  w ← get; outcome_of (ownerOnly (w_caller w) service).

(** ** [ECA::compile] *)

(** Entry [i] of the search table: "Duplicate last entry to fill out the
    table". *)
Definition search_entry (search : list SearchEntry) (i : nat) : SearchEntry :=
  match search !! i with
  | Some se => se
  | None => default (mkSearch 0 (-1)) (last search)
  end.

Definition write_search_entry (search : list SearchEntry) (i : nat) : M D unit :=
  _ ← cycle (search_ops adr_first (Z.of_nat i) (search_entry search i)); mret tt.
Definition write_search (search : list SearchEntry) (size : nat) : M D unit :=
  for_each (write_search_entry search) (seq 0 size).

Fixpoint write_walker (i : Z) (walk : list WalkEntry) : M D unit :=
  match walk with
  | [] => mret tt
  | we :: walk' => _ ← cycle (walker_ops adr_first i we); write_walker (i + 1) walk'
  end.

Definition write_tables (search : list SearchEntry) (walk : list WalkEntry) (size : Z) : M D unit :=
  write_search search (Z.to_nat size);;
  write_walker 0 walk;;
  dev_write (adr_first + ECA_FLIP_ACTIVE_OWR) 1.

Definition too_many : exn := Error INVALID_ARGS "Too many active conditions for hardware".

Definition compile : M W unit :=
  e ← gets w_eca;
  let id_space := id_space_of (placed_open <$> active_conditions e) in
  let n := Z.of_nat (length id_space) in
  throw_if (max_conditions e <=? n / 2) too_many;;
  '(search, walk) ← outcome_of (build_tables (sort id_space));
  on_dev (write_tables search walk (search_size e));;
  on_eca (set_used (n / 2)).

(** [ECA::getFree]: an [unsigned] difference *)
Definition getFree (e : ECA) : Z := u32 (max_conditions e - used_conditions e).

(** ** [ECA::ToggleActive], [ECA::InactivateAll] *)
Definition caller_name (c : Caller) : string :=
  if has_container c then pretty (client_id c) else EmptyString.

#[export] Instance outcome_bool_eq_dec (a : outcome bool) (b : bool) : Decision (a = Ret b).
Proof.
  refine (match a with Ret x => cast_if (decide (x = b)) | _ => right _ end); congruence.
Defined.

(** [getOwner] throws for an object without service. *)
Definition mine (c : Caller) (o : CondObj) : outcome bool :=
  if bool_decide (caller_name c = EmptyString) then Ret true
  else match getOwner c (co_service o) with
       | Ret owner => Ret (bool_decide (owner = caller_name c))
       | Throw e => Throw e
       | Crash w => Crash w
       end.

(** [if (caller.empty() || condition->getOwner() == caller)] *)
Definition if_mine (c : Caller) (f : Condition -> Condition) (o : CondObj) : CondObj * outcome unit :=
  match mine c o with
  | Ret true => (on_cond f o, Ret tt)
  | Ret false => (o, Ret tt)
  | Throw e => (o, Throw e)
  | Crash w => (o, Crash w)
  end.
Definition toggle (c : Condition) : Condition := setRawActive (negb (active c)) c.

Definition on_conditions (f : CondObj -> CondObj * outcome unit) : M W unit := fun w =>
  let '(e, r) := visit_conditions f (w_eca w) in
  (r, mkWorld (w_dev w) e (w_loop w) (w_now w) (w_rand w) (w_caller w) (w_signals w)).

Definition ECA_ToggleActive : M W unit :=
  c ← gets w_caller;
  on_conditions (if_mine c toggle);;
  try_catch compile (fun _ => on_conditions (if_mine c toggle)).

(** The pointers in [deactivated], named by the paths of the objects. *)
Definition deactivated (c : Caller) (e : ECA) : list string :=
  co_path <$> filter (fun o => mine c o = Ret true /\ active (co_cond o) = true)
    (sinks_of e ≫= fun s => snd <$> conditions s).

Definition InactivateAll : M W unit :=
  c ← gets w_caller;
  undo ← gets (fun w => deactivated c (w_eca w));
  on_conditions (if_mine c (setRawActive false));;
  try_catch compile (fun _ =>
    on_conditions (fun o =>
      (if bool_decide (co_path o ∈ undo) then on_cond (setRawActive true) o else o, Ret tt))).

(** ** [ActionSink::ToggleActive] *)
Definition ActionSink_ToggleActive (loc : SinkLoc) : M W unit :=
  s ← get_sink loc;
  owner_only (as_service s);;
  let flip := set_conditions (fun cs => (fun p : Z * CondObj => (p.1, on_cond toggle p.2)) <$> cs) in
  on_sink loc flip;;
  try_catch compile (fun e => on_sink loc flip;; throw e).

(** ** The setters of [Condition]: nothing to do for an equal value; recompile
    if active; on failure restore the old value and rethrow. *)
Definition set_member {A} `{EqDecision A} (member : Condition -> A) (assign : A -> Condition -> Condition)
    (loc : SinkLoc) (n : Z) (val : A) : M W unit :=
  o ← get_cond loc n;
  let old := member (co_cond o) in
  if bool_decide (val = old) then mret tt
  else
    write_cond loc n (assign val);;
    try_catch (if active (co_cond o) then compile else mret tt)
      (fun e => write_cond loc n (assign old);; throw e).

Definition setID := set_member id cond_set_id.
Definition setMask := set_member mask cond_set_mask.
Definition setOffset := set_member offset cond_set_offset.
Definition setAcceptLate := set_member acceptLate cond_set_late.
Definition setAcceptEarly := set_member acceptEarly cond_set_early.
Definition setAcceptConflict := set_member acceptConflict cond_set_conflict.
Definition setAcceptDelayed := set_member acceptDelayed cond_set_delayed.

(** [SCUbusCondition::setTag], [EmbeddedCPUCondition::setTag]: owner only *)
Definition setTag (loc : SinkLoc) (n val : Z) : M W unit :=
  o ← get_cond loc n;
  owner_only (co_service o);;
  set_member tag cond_set_tag loc n val.

(** [OutputCondition::setOn], [getOn] *)
Definition setOn (loc : SinkLoc) (n : Z) (v : bool) : M W unit :=
  setTag loc n (if v then 2 else 1).
Definition getOn (c : Condition) : bool := tag c =? 2.

(** [Condition::setActive] recompiles whatever the new value is. *)
Definition setActive (loc : SinkLoc) (n : Z) (val : bool) : M W unit :=
  o ← get_cond loc n;
  if bool_decide (val = active (co_cond o)) then mret tt
  else
    write_cond loc n (setRawActive val);;
    try_catch compile (fun e => write_cond loc n (setRawActive (negb val));; throw e).

(** ** New conditions *)

(** The constructor of [Condition]: its checks, its defaults. *)
Definition new_condition (s : ActionSink) (n : Z) (act : bool) (id_ mask_ offset_ tag_ : Z)
    : outcome CondObj :=
  if (offset_ <? minOffset s) || (maxOffset s <? offset_) then
    Throw (Error INVALID_ARGS "offset is out of range; adjust {min,max}Offset?")
  else if negb (prefix_maskb mask_) then Throw (Error INVALID_ARGS "mask is not a prefix")
  else if negb (Z.land id_ mask_ =? id_) then
    Throw (Error INVALID_ARGS "id has bits set that are not in the mask")
  else Ret (mkCondObj (mkCondition n id_ mask_ offset_ tag_ false false false true act)
              (as_path s +:+ "/_" +:+ pretty n) None).

(** [createConditionNumber]: draw until the number is free. *)
Fixpoint createConditionNumber (fuel : nat) (cs : list (Z * CondObj)) : M W Z :=
  match fuel with
  | O => crash "createConditionNumber does not return"
  | S fuel' =>
      r ← rand;
      let n := u32 r in
      if map_mem n cs then createConditionNumber fuel' cs else mret n
  end.

(** [NewConditionHelper]; the service is created for the calling client.  [tag]
    gets the number for a [SoftwareCondition]. *)
Definition NewConditionHelper (loc : SinkLoc) (act : bool) (id_ mask_ offset_ : Z) (tag_ : Z -> Z)
    : M W string :=
  s ← get_sink loc;
  supply ← gets (fun w => length (w_rand w));
  n ← createConditionNumber supply (conditions s);
  o ← outcome_of (new_condition s n act id_ mask_ offset_ (tag_ n));
  c ← gets w_caller;
  let o' := mkCondObj (co_cond o) (co_path o)
              (if has_container c then Some (client_id c) else None) in
  on_sink loc (set_conditions (map_set n o'));;
  (if act then compile else mret tt);;
  mret (co_path o).

(** [SoftwareActionSink::NewCondition] is for the owner only, the others are
    not; [Output::NewCondition] turns [on] into a tag. *)
Definition SoftwareActionSink_NewCondition (loc : SinkLoc) (act : bool) (id_ mask_ offset_ : Z) : M W string :=
  s ← get_sink loc;
  owner_only (as_service s);;
  NewConditionHelper loc act id_ mask_ offset_ (fun n => n).
Definition tagged_NewCondition (loc : SinkLoc) (act : bool) (id_ mask_ offset_ tag_ : Z) : M W string :=
  NewConditionHelper loc act id_ mask_ offset_ (fun _ => tag_).

(** ** [ActionSink::removeCondition] *)
Definition removeCondition (loc : SinkLoc) (n : Z) : M W unit :=
  s ← get_sink loc;
  match map_find n (conditions s) with
  | None => mret tt
  | Some o =>
      signal (SigDestroyed (co_path o));;
      on_sink loc (set_conditions (map_erase n));;
      try_catch (if active (co_cond o) then compile else mret tt) (fun _ => mret tt)
  end.

(** ** Lists of conditions *)
Definition getAllConditions (s : ActionSink) : list string := (fun p => co_path p.2) <$> conditions s.
Definition getActiveConditions (s : ActionSink) : list string :=
  (fun p : Z * CondObj => co_path p.2) <$> filter (fun p => active (co_cond p.2) = true) (conditions s).
Definition getInactiveConditions (s : ActionSink) : list string :=
  (fun p : Z * CondObj => co_path p.2) <$> filter (fun p => active (co_cond p.2) = false) (conditions s).
Definition getCondition (path : string) (s : ActionSink) : option CondObj :=
  head (filter (fun o => co_path o = path) (snd <$> conditions s)).
End Driver.
