(* ===== verification/EcaCompile.v ===== *)
(** * [ECA::compile] and the hardware

    What [ECA::compile] leaves in the registers makes the hardware answer every
    event with the actions of the matching active conditions; when it throws,
    the active tables are the old ones. *)
From S2P Require Import Prelude StdMap Bus Loop Owned EcaTables EcaIntervals EcaCorrect EcaHw Eca.
Local Open Scope Z_scope.

(** ** The tables in the registers *)
Definition tables_hold (t : Tables) (search : list SearchEntry) (walk : list WalkEntry) (size : nat) : Prop :=
  (forall i, (i < size)%nat -> t_search t (Z.of_nat i) = search_record (search_entry search i)) /\
  (forall i we, walk !! i = Some we -> t_walker t (Z.of_nat i) = walker_record we).

Section Search.
Lemma u16_index n : - 1 <= n < 2 ^ 15 -> u16 n = if n =? -1 then 65535 else n.
Proof. intros Hn. destruct (Z.eqb_spec n (-1)) as [->|]; [done|]. apply unsigned_wrap_small. lia. Qed.

Lemma sr_event_record se : 0 <= se_event se < 2 ^ 64 -> sr_event (search_record se) = se_event se.
Proof.
  intros Hs. unfold sr_event, search_record. cbn [sr_hi sr_lo].
  rewrite Z.shiftr_div_pow2 by lia. unfold unsigned_wrap.
  rewrite (Z.mod_small (se_event se / 2 ^ 32)).
  - pose proof (Z.div_mod (se_event se) (2 ^ 32)). lia.
  - split; [apply Z.div_pos; lia|]. apply Z.div_lt_upper_bound; lia.
Qed.

Lemma hw_first_prefix t search e n acc :
  Forall (fun s => 0 <= se_event s < 2 ^ 64) search ->
  (forall i, (i < length search)%nat ->
     t_search t (Z.of_nat (n + i)) = search_record (nth i search (mkSearch 0 0))) ->
  foldl (fun acc i => let s := t_search t (Z.of_nat i) in
           if sr_event s <=? e then sr_first s else acc) (u16 acc) (seq n (length search))
  = u16 (search_first acc search e).
Proof.
  revert n acc. induction search as [|se search IH]; intros n acc Hev Ht; [done|].
  apply Forall_cons in Hev as [Hse Hev]. cbn [length seq foldl search_first]. cbv zeta.
  pose proof (Ht 0%nat ltac:(cbn; lia)) as H0. rewrite Nat.add_0_r in H0. cbn [nth] in H0.
  rewrite H0, sr_event_record by done. cbn [sr_first search_record].
  rewrite <- (IH (S n)); [|done|].
  - by destruct (se_event se <=? e).
  - intros i Hi. pose proof (Ht (S i) ltac:(cbn; lia)) as Hi'. cbn [nth] in Hi'.
    by replace (S n + i)%nat with (n + S i)%nat by lia.
Qed.

(** The duplicated last entry does not change the result. *)
Lemma hw_first_tail t se e n k v :
  0 <= se_event se < 2 ^ 64 ->
  (forall i, (n <= i < n + k)%nat -> t_search t (Z.of_nat i) = search_record se) ->
  (se_event se <= e -> v = u16 (se_index se)) ->
  foldl (fun acc i => let s := t_search t (Z.of_nat i) in
           if sr_event s <=? e then sr_first s else acc) v (seq n k) = v.
Proof.
  intros Hse. revert n v. induction k as [|k IH]; intros n v Ht Hv; [done|].
  cbn [seq foldl]. cbv zeta. rewrite (Ht n) by lia. rewrite sr_event_record by done.
  cbn [sr_first search_record]. rewrite IH.
  - destruct (Z.leb_spec (se_event se) e); [by rewrite Hv|done].
  - intros i Hi. apply Ht. lia.
  - intros He. by rewrite (proj2 (Z.leb_le _ _)).
Qed.

Lemma search_first_last search se acc e :
  last search = Some se -> se_event se <= e -> search_first acc search e = se_index se.
Proof.
  intros Hl He. apply last_Some in Hl as [l' ->]. rewrite search_first_app.
  by rewrite (proj2 (Z.leb_le _ _)).
Qed.

Lemma hw_first_ok t search walk size e :
  tables_hold t search walk size -> search <> [] -> (length search <= size)%nat ->
  Forall (fun s => 0 <= se_event s < 2 ^ 64) search ->
  hw_first t size e = u16 (search_first (-1) search e).
Proof.
  intros [Ht _] Hne Hlen Hev. unfold hw_first.
  replace size with (length search + (size - length search))%nat at 1 by lia.
  rewrite seq_app, foldl_app. change 65535 with (u16 (-1)).
  rewrite hw_first_prefix; [|done|].
  - destruct (last search) as [se|] eqn:El; [|by apply last_None in El].
    apply (hw_first_tail _ se).
    + apply last_Some_elem_of in El. rewrite Forall_forall in Hev. auto.
    + intros i Hi. rewrite Ht by lia. unfold search_entry. rewrite lookup_ge_None_2 by lia.
      by rewrite El.
    + intros He. by rewrite (search_first_last _ _ _ _ El He).
  - intros i Hi. rewrite Nat.add_0_l, Ht by lia. unfold search_entry.
    destruct (lookup_lt_is_Some_2 search i Hi) as [se Hse]. rewrite Hse.
    by rewrite (nth_lookup_Some _ _ _ _ Hse).
Qed.
End Search.

(** ** The walk *)

(** What a record can carry through the registers. *)
Definition payload_fits (o : ECA_OpenClose) : Prop :=
  - 2 ^ 63 <= oc_offset o < 2 ^ 63 /\ 0 <= oc_tag o < 2 ^ 32 /\ 0 <= oc_flags o < 16 /\
  0 <= oc_channel o < 256 /\ 0 <= oc_num o < 256.

Lemma offset_halves x :
  - 2 ^ 63 <= x < 2 ^ 63 -> s64 (u32 (Z.shiftr (u64 x) 32) * 2 ^ 32 + u32 x) = x.
Proof.
  intros Hx.
  assert (u32 (Z.shiftr (u64 x) 32) * 2 ^ 32 + u32 x = u64 x) as ->.
  { rewrite Z.shiftr_div_pow2 by lia. unfold unsigned_wrap.
    pose proof (Z.mod_pos_bound x (2 ^ 64) ltac:(lia)) as Hb.
    rewrite (Z.mod_small (x mod 2 ^ 64 / 2 ^ 32)).
    - assert (x mod 2 ^ 32 = (x mod 2 ^ 64) mod 2 ^ 32) as E.
      { change (2 ^ 64) with (2 ^ 32 * 2 ^ 32). rewrite Z.rem_mul_r by lia.
        rewrite Z.add_mod, (Z.mul_comm (2 ^ 32)), Z.mod_mul, Z.add_0_r by lia.
        by rewrite !Z.mod_mod by lia. }
      rewrite E. pose proof (Z.div_mod (x mod 2 ^ 64) (2 ^ 32)). lia.
    - split; [apply Z.div_pos; lia|]. apply Z.div_lt_upper_bound; lia. }
  unfold signed_wrap, unsigned_wrap. rewrite Zplus_mod_idemp_l.
  rewrite Z.mod_small; change (2 ^ (64 - 1)) with (2 ^ 63); lia.
Qed.

Lemma wr_action_record n o :
  payload_fits o -> wr_action (walker_record (WalkEntry_of n o)) = oc_action o.
Proof.
  intros (Ho & Ht & Hf & Hc & Hn). unfold wr_action, walker_record, oc_action. cbn -[unsigned_wrap signed_wrap Z.shiftr].
  rewrite offset_halves by done. rewrite !unsigned_wrap_small by lia. done.
Qed.

Lemma hw_walk_ok t search walk size st i fuel :
  tables_hold t search walk size -> chain walk i st -> Forall payload_fits st ->
  Z.of_nat (length walk) <= 2 ^ 15 -> (length st <= fuel)%nat ->
  hw_walk fuel t (u16 i) = oc_action <$> st.
Proof.
  intros [_ Hw] Hc Hst Hlen. revert i fuel Hc. induction Hst as [|o st Ho Hst IH]; intros i fuel Hc Hf.
  - cbn in Hc. subst i. by destruct fuel.
  - destruct Hc as (Hi & n & Hn & Hc). destruct fuel as [|fuel]; [cbn in Hf; lia|].
    pose proof (lookup_lt_Some _ _ _ Hn) as Hlt. rewrite u16_index by lia.
    rewrite (proj2 (Z.eqb_neq i (-1))) by lia. cbn [hw_walk].
    rewrite (proj2 (Z.eqb_neq i 65535)) by lia.
    pose proof (Hw _ _ Hn) as Hr. rewrite Z2Nat.id in Hr by lia. rewrite Hr.
    rewrite wr_action_record by done. rewrite fmap_cons. f_equal.
    change (wr_next (walker_record (WalkEntry_of n o))) with (u16 n).
    apply IH; [done|cbn in Hf; lia].
Qed.

(** ** Writing the tables *)
Section Writing.
Context {D : Type} (adr_first : Z) `{!Bus D} `{Hdev : !EcaDevice D adr_first}.

Let regs := eca_regs (D := D) adr_first.

Lemma cycle_spec ops (d : D) :
  (exists rs d', cycle ops d = (Ret rs, d') /\ regs d' = foldl (eca_apply adr_first) (regs d) ops) \/
  cycle ops d = (Throw EtherboneError, d).
Proof.
  unfold cycle. destruct (bus_cycle ops d) as [[rs d']|] eqn:E; [|by right].
  left. exists rs, d'. split; [done|]. by apply eca_cycle in E.
Qed.

Lemma write_search_entry_spec search i (d : D) :
  (exists d', write_search_entry adr_first search i d = (Ret tt, d') /\
     regs d' = foldl (eca_apply adr_first) (regs d) (search_ops adr_first (Z.of_nat i) (search_entry search i))) \/
  write_search_entry adr_first search i d = (Throw EtherboneError, d).
Proof.
  unfold write_search_entry. mrun.
  destruct (cycle_spec (search_ops adr_first (Z.of_nat i) (search_entry search i)) d)
    as [(rs & d' & E & Hr)|E]; rewrite E; [left|by right]. by exists d'.
Qed.

(** The inactive tables change, the active ones do not. *)
Lemma write_search_spec search n k d :
  Z.of_nat (n + k) <= 2 ^ 16 ->
  (exists d', for_each (write_search_entry adr_first search) (seq n k) d = (Ret tt, d') /\
     r_active (regs d') = r_active (regs d) /\
     t_walker (r_inactive (regs d')) = t_walker (r_inactive (regs d)) /\
     forall j, t_search (r_inactive (regs d')) (Z.of_nat j)
       = if decide (n <= j < n + k)%nat then search_record (search_entry search j)
         else t_search (r_inactive (regs d)) (Z.of_nat j)) \/
  (exists d', for_each (write_search_entry adr_first search) (seq n k) d = (Throw EtherboneError, d') /\ r_active (regs d') = r_active (regs d)).
Proof.
  revert n d. induction k as [|k IH]; intros n d Hn; cbn [seq for_each].
  - left. exists d. split; [done|]. split; [done|]. split; [done|]. intros j. by rewrite decide_False by lia.
  - destruct (write_search_entry_spec search n d) as [(d1 & E & Hr)|E];
      [rewrite (run_bind_ret _ _ _ _ _ E)|rewrite (run_bind_throw _ _ _ _ _ E); right; by exists d].
    destruct (search_ops_apply adr_first (Z.of_nat n) (search_entry search n) (regs d)) as (Ha & Hw & Hs).
    rewrite <- Hr in Ha, Hw, Hs. rewrite unsigned_wrap_small in Hs by lia.
    destruct (IH (S n) d1 ltac:(lia)) as [(d2 & E2 & Ha2 & Hw2 & Hs2)|(d2 & E2 & Ha2)]; rewrite E2.
    + left. exists d2. split; [done|]. split; [congruence|]. split; [congruence|].
      intros j. rewrite Hs2, Hs. unfold update. destruct (decide (S n <= j < S n + k)%nat).
      * by rewrite decide_True by lia.
      * destruct (Z.eqb_spec (Z.of_nat j) (Z.of_nat n)) as [E'|E'].
        -- assert (j = n) as -> by lia. by rewrite decide_True by lia.
        -- by rewrite decide_False by lia.
    + right. exists d2. split; [done|]. congruence.
Qed.

Lemma write_walker_spec walk i d :
  0 <= i -> i + Z.of_nat (length walk) <= 2 ^ 16 ->
  (exists d', write_walker adr_first i walk d = (Ret tt, d') /\
     r_active (regs d') = r_active (regs d) /\
     t_search (r_inactive (regs d')) = t_search (r_inactive (regs d)) /\
     (forall j, j < i -> t_walker (r_inactive (regs d')) j = t_walker (r_inactive (regs d)) j) /\
     forall k we, walk !! k = Some we ->
       t_walker (r_inactive (regs d')) (i + Z.of_nat k) = walker_record we) \/
  (exists d', write_walker adr_first i walk d = (Throw EtherboneError, d') /\
     r_active (regs d') = r_active (regs d)).
Proof.
  revert i d. induction walk as [|we walk IH]; intros i d Hi Hn; cbn [write_walker].
  - left. exists d. split; [done|]. split; [done|]. split; [done|]. split; [done|]. by intros k we.
  - mrun. cbn [length] in Hn.
    destruct (cycle_spec (walker_ops adr_first i we) d) as [(rs & d1 & E & Hr)|E]; rewrite E;
      [|by right; exists d].
    destruct (walker_ops_apply adr_first i we (regs d)) as (Ha & Hs & Hw).
    rewrite <- Hr in Ha, Hw, Hs. rewrite unsigned_wrap_small in Hw by lia.
    destruct (IH (i + 1) d1 ltac:(lia) ltac:(lia)) as [(d2 & E2 & Ha2 & Hs2 & Hl2 & Hw2)|(d2 & E2 & Ha2)];
      rewrite E2.
    + left. exists d2. split; [done|]. split; [congruence|]. split; [congruence|]. split.
      * intros j Hj. rewrite Hl2, Hw by lia. unfold update. by rewrite (proj2 (Z.eqb_neq _ _)) by lia.
      * intros [|k] we' Hk; cbn in Hk.
        -- injection Hk as ->. rewrite Hl2, Hw by lia. unfold update.
           by rewrite (proj2 (Z.eqb_eq _ _)) by lia.
        -- replace (i + Z.of_nat (S k)) with (i + 1 + Z.of_nat k) by lia. by apply Hw2.
    + right. exists d2. split; [done|]. congruence.
Qed.

(** The tables are exchanged as a whole, at the very end. *)
Lemma write_tables_spec search walk size d :
  0 <= size <= 2 ^ 16 -> Z.of_nat (length walk) <= 2 ^ 15 ->
  (exists d', write_tables adr_first search walk size d = (Ret tt, d') /\
     tables_hold (r_active (regs d')) search walk (Z.to_nat size)) \/
  (exists d', write_tables adr_first search walk size d = (Throw EtherboneError, d') /\
     r_active (regs d') = r_active (regs d)).
Proof.
  intros Hsize Hwalk. unfold write_tables, write_search, dev_write. mrun.
  destruct (write_search_spec search 0 (Z.to_nat size) d ltac:(lia))
    as [(d1 & E1 & Ha1 & Hw1 & Hs1)|(d1 & E1 & Ha1)]; rewrite E1; [|by right; exists d1].
  destruct (write_walker_spec walk 0 d1 ltac:(lia) ltac:(lia))
    as [(d2 & E2 & Ha2 & Hs2 & _ & Hw2)|(d2 & E2 & Ha2)]; rewrite E2;
    [|right; exists d2; split; [done|congruence]].
  destruct (cycle_spec [BusW (adr_first + ECA_FLIP_ACTIVE_OWR) 1] d2) as [(rs & d3 & E3 & Hr)|E3];
    rewrite E3; [|right; exists d2; split; [done|congruence]].
  left. exists d3. split; [done|]. cbn [foldl] in Hr. rewrite eca_apply_write in Hr.
  rewrite Hr. cbn. split.
  - intros i Hi. rewrite Hs2, Hs1. by rewrite decide_True by lia.
  - intros i we Hi. by apply (Hw2 i we).
Qed.
End Writing.

(** ** [ECA::compile] *)

(** What the probed configuration and the conditions satisfy: sizes of 16-bit
    registers, the limit of [probeConfiguration], valid masks, and channels,
    subchannels, tags and offsets of the widths the hardware has. *)
Record eca_wf (e : ECA) : Prop := {
  wf_search_size : 0 <= search_size e <= 2 ^ 16;
  wf_walker_size : 0 <= walker_size e <= 2 ^ 15;
  wf_max : max_conditions e = Z.min (search_size e / 2) (walker_size e);
  wf_conds : Forall (fun pc => condition_wf (pl_cond pc)) (active_conditions e);
  wf_payload : Forall (fun pc =>
    0 <= pl_channel pc < 256 /\ 0 <= pl_num pc < 256 /\
    - 2 ^ 63 <= offset (pl_cond pc) < 2 ^ 63 /\ 0 <= tag (pl_cond pc) < 2 ^ 32) (active_conditions e)
}.

(** The number of open and close records. *)
Definition record_count (e : ECA) : Z :=
  Z.of_nat (length (id_space_of (placed_open <$> active_conditions e))).

Lemma accept_flags_range c : 0 <= accept_flags c < 16.
Proof.
  unfold accept_flags. destruct (acceptLate c), (acceptEarly c), (acceptConflict c), (acceptDelayed c);
    vm_compute; split; congruence.
Qed.

Lemma id_space_length (A : list ECA_OpenClose) :
  (length A <= length (id_space_of A) <= 2 * length A)%nat.
Proof.
  induction A as [|o A IH]; [done|]. rewrite id_space_cons, length_app. unfold push_records.
  destruct (_ =? _); cbn [length]; lia.
Qed.

Section Compile.
Context {D : Type} (adr_first : Z) `{!Bus D} `{Hdev : !EcaDevice D adr_first}.
Context (sort : list ECA_OpenClose -> list ECA_OpenClose).
(** [std::sort] *)
Hypothesis sort_ok : forall xs, std_sorted xs (sort xs).
Implicit Types (w : World D) (e : ECA).

Let active_tables w : Tables := r_active (eca_regs (D := D) adr_first (w_dev w)).

Definition set_dev (d : D) w : World D :=
  mkWorld d (w_eca w) (w_loop w) (w_now w) (w_rand w) (w_caller w) (w_signals w).
Definition set_eca e w : World D :=
  mkWorld (w_dev w) e (w_loop w) (w_now w) (w_rand w) (w_caller w) (w_signals w).

(** The hardware acts on the conditions of [e]. *)
Definition in_effect e w : Prop :=
  forall ev, 0 <= ev < 2 ^ 64 ->
    hw_actions (active_tables w) (Z.to_nat (search_size e)) (Z.to_nat (walker_size e)) ev
    ≡ₚ placed_action <$> filter (fun pc => event_matches ev (pl_cond pc) = true) (active_conditions e).

Lemma payload_placed e : eca_wf e -> Forall payload_fits (placed_open <$> active_conditions e).
Proof.
  intros Hwf. apply Forall_fmap. eapply Forall_impl; [apply (wf_payload _ Hwf)|].
  intros pc (? & ? & ? & ?). unfold payload_fits. cbn. pose proof (accept_flags_range (pl_cond pc)).
  done.
Qed.

(** The registers hold what [build_tables] made: the hardware and the
    conditions agree. *)
Lemma tables_in_effect e search walk (t : Tables) :
  eca_wf e -> Z.of_nat (length (active_conditions e)) <= walker_size e ->
  record_count e / 2 < max_conditions e ->
  build_tables (sort (id_space_of (placed_open <$> active_conditions e))) = Ret (search, walk) ->
  tables_hold t search walk (Z.to_nat (search_size e)) ->
  forall ev, 0 <= ev < 2 ^ 64 ->
    hw_actions t (Z.to_nat (search_size e)) (Z.to_nat (walker_size e)) ev
    ≡ₚ placed_action <$> filter (fun pc => event_matches ev (pl_cond pc) = true) (active_conditions e).
Proof.
  intros Hwf Hlen Hmax Hb Ht ev Hev. set (pcs := active_conditions e) in *.
  set (A := placed_open <$> pcs) in *.
  pose proof (wf_walker_size _ Hwf) as Hws. pose proof (wf_search_size _ Hwf) as Hss.
  pose proof (placed_wf pcs (wf_conds _ Hwf)) as HA.
  pose proof (sort_ok (id_space_of A)) as Hs.
  destruct (build_tables_ok A (sort (id_space_of A))) as (search' & walk' & E & Hc & Hw & Hne & Hse & Hsl);
    [done|by apply placed_laminar; apply (wf_conds _ Hwf)|done|unfold A; rewrite length_fmap; lia|].
  rewrite Hb in E. injection E as <- <-.
  assert (length (sort (id_space_of A)) = length (id_space_of A)) as Esl
    by (symmetry; apply Permutation_length, Hs).
  assert (length A = length pcs) as EA by (unfold A; apply length_fmap).
  unfold hw_actions. rewrite (hw_first_ok t search walk).
  - rewrite (hw_walk_ok t search walk (Z.to_nat (search_size e)) (stack_at (sort (id_space_of A)) ev)).
    + rewrite (stack_at_perm A _ HA Hs). unfold A. rewrite covers_actions; [done|apply (wf_conds _ Hwf)|done].
    + done.
    + by apply Hc.
    + apply Forall_forall. intros o Ho. assert (o ∈ filter (covers ev) A) as Ho'
        by (rewrite <- (stack_at_perm A _ HA Hs ev); done).
      apply list_elem_of_filter in Ho' as [_ Ho']. pose proof (payload_placed e Hwf) as Hp.
      rewrite Forall_forall in Hp. by apply Hp.
    + lia.
    + rewrite (Permutation_length (stack_at_perm A _ HA Hs ev)), length_filter. lia.
  - done.
  - done.
  - unfold record_count in Hmax. fold pcs A in Hmax. rewrite (wf_max _ Hwf) in Hmax.
    apply Z.min_glb_lt_iff in Hmax as [Hmax _].
    assert (Z.of_nat (length (id_space_of A)) < search_size e); [|lia].
    pose proof (Z.div_mod (Z.of_nat (length (id_space_of A))) 2).
    pose proof (Z.mod_pos_bound (Z.of_nat (length (id_space_of A))) 2).
    pose proof (Z.div_mod (search_size e) 2). pose proof (Z.mod_pos_bound (search_size e) 2). lia.
  - done.
Qed.

(** The outcomes of a compilation. *)
Inductive compiled w : outcome unit * World D -> Prop :=
  | compiled_ok d' :
      in_effect (w_eca w) (set_dev d' w) ->
      record_count (w_eca w) / 2 < max_conditions (w_eca w) ->
      compiled w (Ret tt, set_dev d' (set_eca (set_used (record_count (w_eca w) / 2) (w_eca w)) w))
  | compiled_too_many :
      max_conditions (w_eca w) <= record_count (w_eca w) / 2 ->
      compiled w (Throw too_many, w)
  | compiled_bus_error d' :
      active_tables (set_dev d' w) = active_tables w ->
      record_count (w_eca w) / 2 < max_conditions (w_eca w) ->
      compiled w (Throw EtherboneError, set_dev d' w).

Lemma compile_outcome w :
  eca_wf (w_eca w) -> Z.of_nat (length (active_conditions (w_eca w))) <= walker_size (w_eca w) ->
  compiled w (compile adr_first sort w).
Proof.
  intros Hwf Hlen. unfold compile. mrun. fold (record_count (w_eca w)).
  destruct (Z.leb_spec (max_conditions (w_eca w)) (record_count (w_eca w) / 2)) as [Hmax|Hmax];
    [by constructor|].
  pose proof (wf_walker_size _ Hwf) as Hws. pose proof (wf_search_size _ Hwf) as Hss.
  set (A := placed_open <$> active_conditions (w_eca w)) in *.
  destruct (build_tables_ok A (sort (id_space_of A))) as (search & walk & E & _ & Hw & _);
    [apply placed_wf, Hwf|by apply placed_laminar; apply Hwf|done|unfold A; rewrite length_fmap; lia|].
  assert (Z.of_nat (length walk) <= 2 ^ 15) as Hwl.
  { rewrite Hw. unfold A. rewrite length_fmap. lia. }
  unfold outcome_of. rewrite E. unfold on_dev, zoom.
  destruct (write_tables_spec adr_first search walk (search_size (w_eca w)) (w_dev w) ltac:(lia) Hwl)
    as [(d' & E' & Ht)|(d' & E' & Ha)]; rewrite E'.
  - apply (compiled_ok w d'); [|done]. intros ev Hev.
    by apply (tables_in_effect (w_eca w) search walk).
  - by apply compiled_bus_error.
Qed.

(** C1: [ECA::compile], with any implementation of [std::sort], on a well-formed
    configuration ([eca_wf]) whose active conditions fit into the walker's table,
    either puts exactly the active conditions into effect - every 64-bit event is
    answered by the hardware with the actions (deadline offset, tag, flags, channel
    and subchannel) of the active conditions that match it - or throws and leaves
    the active tables and the driver's state as they were.  It throws "Too
    many active conditions" exactly when the records exceed the limit.  (Without
    the two conditions it need not: see [LimitsDemo.walker_table_overrun] and
    [LimitsDemo.setMask_unchecked].) *)
Theorem compile_correct w
    (Hwf : eca_wf (w_eca w))
    (Hroom : Z.of_nat (length (active_conditions (w_eca w))) <= walker_size (w_eca w)) :
  let '(r, w') := compile adr_first sort w in
  (r = Ret tt -> in_effect (w_eca w) w' /\
     w_eca w' = set_used (record_count (w_eca w) / 2) (w_eca w)) /\
  (r <> Ret tt -> active_tables w' = active_tables w /\ w_eca w' = w_eca w /\
     (r = Throw too_many \/ r = Throw EtherboneError)) /\
  (r = Throw too_many <-> max_conditions (w_eca w) <= record_count (w_eca w) / 2) /\
  w_loop w' = w_loop w /\ w_signals w' = w_signals w.
Proof.
  destruct (compile_outcome w Hwf Hroom) as [d' Heff Hmax|Hmax|d' Ha Hmax].
  - split; [done|]. split; [done|]. split; [|done]. split; [done|lia].
  - split; [done|]. split; [auto|]. done.
  - split; [done|]. split; [auto|]. split; [|done]. split; [done|lia].
Qed.
End Compile.

(** ** An ECA with two channels *)
Module Demo.
Definition cond (n id_ mask_ off : Z) (act : bool) : CondObj :=
  mkCondObj (mkCondition n id_ mask_ off n false false false true act) ("/sink/_" +:+ pretty.pretty n)
    (Some 7).
Definition sink (ch num : Z) (cs : list (Z * CondObj)) : ActionSink :=
  mkSink (SoftwareActionSink 0x2000) "/sink" "sink" ch num (-1000000000) 1000000000 100000000
    (replicate 6 (mkCounter 0 0 null_handle)) 0 0 16 cs (Some 7).
(** A block of 256 events inside of a block of 65536, a single event, and an
    inactive wildcard. *)
Definition demo_conditions : list (Z * CondObj) :=
  [(3, cond 3 0x120000 0xffffffffffff0000 500 true);
   (5, cond 5 0x123400 0xffffffffffffff00 (-20) true);
   (8, cond 8 0x123456 0xffffffffffffffff 0 true);
   (9, cond 9 0 0 0 false)].
Definition demo_eca (cs : list (Z * CondObj)) (ssize wsize : Z) : ECA :=
  mkECA "/tr0" 0 2 ssize wsize (Z.min (ssize / 2) wsize) 0 [0; 0x2000] [0; 0]
    [[]; [Some (sink 1 0 cs); None]] 1 2 [] [] [].
Definition demo_world (cs : list (Z * CondObj)) (ssize wsize : Z) : World eca_ram :=
  mkWorld eca_ram0 (demo_eca cs ssize wsize) (mkLoop [] [] true 0 1 0) 0 [11; 12; 13]
    (mkCaller true 7) [].

Definition w0 : World eca_ram := demo_world demo_conditions 32 16.

Lemma demo_wf : eca_wf (w_eca w0).
Proof.
  split; [cbn; lia|cbn; lia|reflexivity|..];
    repeat constructor; try (cbn; lia); vm_compute; congruence.
Qed.

Lemma compile_correct_witness :
  let '(r, w') := compile eca_ram_base oc_sort w0 in
  (r = Ret tt -> in_effect eca_ram_base (w_eca w0) w' /\
     w_eca w' = set_used (record_count (w_eca w0) / 2) (w_eca w0)) /\
  (r <> Ret tt -> r_active (eca_regs eca_ram_base (w_dev w')) = r_active (eca_regs eca_ram_base (w_dev w0)) /\
     w_eca w' = w_eca w0 /\ (r = Throw too_many \/ r = Throw EtherboneError)) /\
  (r = Throw too_many <-> max_conditions (w_eca w0) <= record_count (w_eca w0) / 2) /\
  w_loop w' = w_loop w0 /\ w_signals w' = w_signals w0.
Proof.
  apply (compile_correct eca_ram_base oc_sort oc_sort_sorted w0); [apply demo_wf|].
  vm_compute. discriminate.
Defined.

(** The hardware answers event 0x123456 with three actions. *)
Example demo_actions :
  act_tag <$> hw_actions (r_active (er_regs (w_dev (compile eca_ram_base oc_sort w0).2))) 32 16 0x123456
  = [8; 5; 3].
Proof. vm_compute. reflexivity. Qed.
End Demo.
