(* ===== verification/EcaOps.v ===== *)
(** * The rest of the ECA driver: src/ECA.cpp, ActionSink.cpp,
    SoftwareActionSink.cpp, SCUbusActionSink.cpp, WbmActionSink.cpp, ECA_TLU.cpp,
    ECA_Event.cpp

    Probing, interrupts, counters, time, action sinks and their creation. *)
From stdpp Require Import pretty.
From Stdlib Require Import Strings.Ascii.
From S2P Require Import Prelude StdMap Bus Time Loop Owned EcaTables EcaHw Eca.
Local Open Scope Z_scope.

(** ** The queues (src/eca_queue_regs.h) *)
Definition ECA_QUEUE_QUEUE_ID_GET : Z := 0x00.
Definition ECA_QUEUE_POP_OWR : Z := 0x04.
Definition ECA_QUEUE_FLAGS_GET : Z := 0x08.
Definition ECA_QUEUE_NUM_GET : Z := 0x0c.
Definition ECA_QUEUE_EVENT_ID_HI_GET : Z := 0x10.
Definition ECA_QUEUE_EVENT_ID_LO_GET : Z := 0x14.
Definition ECA_QUEUE_PARAM_HI_GET : Z := 0x18.
Definition ECA_QUEUE_PARAM_LO_GET : Z := 0x1c.
Definition ECA_QUEUE_TAG_GET : Z := 0x20.
Definition ECA_QUEUE_TEF_GET : Z := 0x24.
Definition ECA_QUEUE_DEADLINE_HI_GET : Z := 0x28.
Definition ECA_QUEUE_DEADLINE_LO_GET : Z := 0x2c.
Definition ECA_QUEUE_EXECUTED_HI_GET : Z := 0x30.
Definition ECA_QUEUE_EXECUTED_LO_GET : Z := 0x34.

(** Channel types (src/eca_flags.h) *)
Definition ECA_LINUX : Z := 0.
Definition ECA_WBM : Z := 1.
Definition ECA_EMBEDDED_CPU : Z := 2.
Definition ECA_SCUBUS : Z := 3.

(** [uint64_t(hi) << 32 | lo] *)
Definition join64 (hi lo : Z) : Z := Z.lor (u64 (Z.shiftl hi 32)) lo.

Section Ops.
Context {D : Type} `{Bus D}.
Context (adr_first : Z) (sort : list ECA_OpenClose -> list ECA_OpenClose).
(** [sdb_find_by_identity]: the addresses of the devices of that identity. *)
Context (sdb_find : Z -> Z -> D -> list Z).
Let W := World D.

Definition dev_cycle (ops : list bus_op) : M W (list Z) := on_dev (cycle ops).

(** The [k]-th value that a cycle read. *)
Definition nth_read (rs : list Z) (k : nat) : Z := default 0 (rs !! k).

(** [vector[i]]: out of range is undefined. *)
Definition at_index {A} (l : list A) (i : Z) (why : string) : M W A := fun w =>
  if i <? 0 then (Crash why, w)
  else match l !! Z.to_nat i with
       | Some a => (Ret a, w)
       | None => (Crash why, w)
       end.

(** ** Fill state of a channel *)
Definition updateMostFull (channel : Z) : M W Z :=
  e ← gets w_eca;
  if Z.of_nat (length (most_full e)) <=? channel then mret 0
  else
    rs ← dev_cycle [BusW (adr_first + ECA_CHANNEL_SELECT_RW) channel;
                    BusR (adr_first + ECA_CHANNEL_MOSTFULL_ACK_GET)];
    let raw := nth_read rs 0 in
    let mostFull := Z.land raw 0xFFFF in
    let used := u16 (Z.shiftr raw 16) in
    on_eca (set_most_full (fun l => <[Z.to_nat channel := mostFull]> l));;
    mret used.

Definition resetMostFull (channel : Z) : M W unit :=
  e ← gets w_eca;
  if Z.of_nat (length (most_full e)) <=? channel then mret tt
  else
    _ ← dev_cycle [BusW (adr_first + ECA_CHANNEL_SELECT_RW) channel;
                   BusR (adr_first + ECA_CHANNEL_MOSTFULL_CLEAR_GET)];
    mret tt.

(** The accesses go to the device directly; the cycle around them is empty. *)
Definition popMissingQueue (channel num : Z) : M W unit :=
  on_dev (dev_write (adr_first + ECA_CHANNEL_SELECT_RW) channel);;
  on_dev (dev_write (adr_first + ECA_CHANNEL_NUM_SELECT_RW) num);;
  _ ← on_dev (dev_read (adr_first + ECA_CHANNEL_VALID_COUNT_GET));
  _ ← dev_cycle [];
  e ← gets w_eca;
  queue ← at_index (queue_addresses e) channel "queue_addresses[channel]";
  on_dev (dev_write (queue + ECA_QUEUE_POP_OWR) 1).

(** ** [ECA::probeConfiguration] *)
Definition resize {A} (n : Z) (a : A) (l : list A) : list A := list.resize (Z.to_nat n) a l.

Definition probeConfiguration : M W unit :=
  rs ← dev_cycle [BusR (adr_first + ECA_CHANNELS_GET);
                  BusR (adr_first + ECA_SEARCH_CAPACITY_GET);
                  BusR (adr_first + ECA_WALKER_CAPACITY_GET)];
  let ch := nth_read rs 0 in
  let ss := nth_read rs 1 in
  let ws := nth_read rs 2 in
  on_eca (fun e => mkECA (eca_path e) (sas_count e) ch ss ws (Z.min (ss / 2) ws)
    (used_conditions e) (resize ch 0 (queue_addresses e)) (resize ch 0 (most_full e))
    (ECAchannels e) (linux_channel_index e) (linux_channel_subchannels e)
    (scubus_action_sinks e) (ecpu_action_sinks e) (wbm_action_sinks e)).

(** ** [ActionSink::ActionSink] *)
Definition sink_ops (channel num : Z) : list bus_op :=
  [BusW (adr_first + ECA_CHANNEL_SELECT_RW) channel;
   BusW (adr_first + ECA_CHANNEL_NUM_SELECT_RW) num;
   BusR (adr_first + ECA_LATENCY_GET);
   BusR (adr_first + ECA_OFFSET_BITS_GET);
   BusR (adr_first + ECA_CHANNEL_CAPACITY_GET);
   BusR (adr_first + ECA_CHANNEL_OVERFLOW_COUNT_GET);
   BusR (adr_first + ECA_CHANNEL_VALID_COUNT_GET);
   BusW (adr_first + ECA_CHANNEL_CODE_SELECT_RW) ECA_LATE;
   BusR (adr_first + ECA_CHANNEL_FAILED_COUNT_GET);
   BusW (adr_first + ECA_CHANNEL_CODE_SELECT_RW) ECA_EARLY;
   BusR (adr_first + ECA_CHANNEL_FAILED_COUNT_GET);
   BusW (adr_first + ECA_CHANNEL_CODE_SELECT_RW) ECA_CONFLICT;
   BusR (adr_first + ECA_CHANNEL_FAILED_COUNT_GET);
   BusW (adr_first + ECA_CHANNEL_CODE_SELECT_RW) ECA_DELAYED;
   BusR (adr_first + ECA_CHANNEL_FAILED_COUNT_GET)].

(** [earlyThreshold <<= raw_offset_bits] on 64 bits: shifting by 64 or more is
    undefined. *)
Definition new_sink (kind : SinkKind) (path name : string) (channel num : Z) : M W ActionSink :=
  now ← gets w_now;
  rs ← dev_cycle (sink_ops channel num);
  let bits := nth_read rs 1 in
  if 64 <=? bits then crash "earlyThreshold <<= raw_offset_bits"
  else mret (mkSink kind path name channel num (-1000000000) 1000000000 100000000
         (replicate 6 (mkCounter 0 now null_handle))
         (nth_read rs 0) (u64 (Z.shiftl 1 bits)) (u16 (nth_read rs 2)) [] None).

(** With a container, the object gets a service that nobody owns. *)
Definition served (o : option Z) (s : ActionSink) : M W ActionSink :=
  c ← gets w_caller; mret (if has_container c then set_as_service o s else s).

Definition push_sink (channel : Z) (s : ActionSink) : M W unit :=
  on_eca (set_channels (alter (fun ch => ch ++ [Some s]) (Z.to_nat channel))).

(** ** [ECA::prepareChannels] *)
Definition ECA_QUEUE_SDB_VENDOR_ID : Z := 0x00000651.
Definition ECA_QUEUE_SDB_DEVICE_ID : Z := 0xd5a3faea.
Definition ECA_SDB_VENDOR_ID : Z := 0x00000651.

Definition locate_queue (address : Z) : M W unit :=
  raw ← on_dev (dev_read (address + ECA_QUEUE_QUEUE_ID_GET));
  let qid := raw + 1 in
  e ← gets w_eca;
  if channels e <=? qid then mret tt
  else on_eca (set_queues (fun l => <[Z.to_nat qid := address]> l)).

Definition prepare_linux (channel raw_max_num raw_capacity : Z) : M W unit :=
  e ← gets w_eca;
  queue ← at_index (queue_addresses e) channel "queue_addresses[channel]";
  for_each (fun _ => on_dev (dev_write (queue + ECA_QUEUE_POP_OWR) 1)) (seq 0 (Z.to_nat raw_capacity));;
  for_each (fun i => popMissingQueue channel (Z.of_nat i)) (seq 0 (Z.to_nat raw_max_num));;
  if linux_channel_index e =? -1 then
    on_eca (set_linux channel raw_max_num);;
    on_eca (set_channels (alter (fun ch => resize raw_max_num None ch) (Z.to_nat channel)))
  else mret tt.

(** A sink of which there is one per hardware unit. *)
Definition prepare_single (device_id : Z) (mk : Z -> SinkKind) (leaf : string) (channel : Z)
    (register : string -> ECA -> ECA) : M W unit :=
  d ← gets w_dev;
  match sdb_find ECA_SDB_VENDOR_ID device_id d with
  | [address] =>
      e ← gets w_eca;
      let path := eca_path e +:+ "/" +:+ leaf in
      s ← new_sink (mk address) path leaf channel 0;
      s ← served (Some (-1)) s;
      push_sink channel s;;
      on_eca (register path)
  | _ => mret tt
  end.

Definition prepare_ecpu (channel : Z) : M W unit :=
  e ← gets w_eca;
  for_each (fun i =>
    queue ← at_index (queue_addresses e) (Z.of_nat i) "queue_addresses[queue_id]";
    rs ← dev_cycle [BusR (queue + ECA_QUEUE_QUEUE_ID_GET)];
    if nth_read rs 0 =? ECA_EMBEDDED_CPU then
      let path := eca_path e +:+ "/embedded_cpu" in
      s ← new_sink EmbeddedCPUActionSink path "embedded_cpu" channel 0;
      s ← served (Some (-1)) s;
      push_sink channel s;;
      on_eca (fun e => set_sinks (scubus_action_sinks e)
                         (map_set "embedded_cpu"%string path (ecpu_action_sinks e)) (wbm_action_sinks e) e)
    else mret tt) (seq 1 (Z.to_nat (channels e - 1))).

Definition prepare_channel (channel : Z) : M W unit :=
  rs ← dev_cycle [BusW (adr_first + ECA_CHANNEL_SELECT_RW) channel;
                  BusR (adr_first + ECA_CHANNEL_TYPE_GET);
                  BusR (adr_first + ECA_CHANNEL_MAX_NUM_GET);
                  BusR (adr_first + ECA_CHANNEL_CAPACITY_GET)];
  let raw_type := nth_read rs 0 in
  if raw_type =? ECA_LINUX then prepare_linux channel (nth_read rs 1) (nth_read rs 2)
  else if raw_type =? ECA_WBM then
    prepare_single 0x18415778 WbmActionSink "acwbm" channel
      (fun path e => set_sinks (scubus_action_sinks e) (ecpu_action_sinks e)
                       (map_set "acwbm"%string path (wbm_action_sinks e)) e)
  else if raw_type =? ECA_SCUBUS then
    prepare_single 0x9602eb6f SCUbusActionSink "scubus" channel
      (fun path e => set_sinks (map_set "scubus"%string path (scubus_action_sinks e))
                       (ecpu_action_sinks e) (wbm_action_sinks e) e)
  else if raw_type =? ECA_EMBEDDED_CPU then prepare_ecpu channel
  else mret tt.

Definition prepareChannels : M W unit :=
  d ← gets w_dev;
  for_each locate_queue (sdb_find ECA_QUEUE_SDB_VENDOR_ID ECA_QUEUE_SDB_DEVICE_ID d);;
  e ← gets w_eca;
  on_eca (set_channels (resize (channels e) []));;
  on_eca (set_linux (-1) (linux_channel_subchannels e));;
  for_each (fun i => prepare_channel (Z.of_nat i)) (seq 1 (Z.to_nat (channels e - 1))).

(** ** [ECA::setHandler] and the constructor [ECA::ECA]: [request_irq] gives the
    addresses of the channels' interrupts. *)
Definition setHandler (channel : Z) (enable : bool) (address : Z) : M W unit :=
  _ ← dev_cycle [BusW (adr_first + ECA_CHANNEL_SELECT_RW) channel;
                 BusW (adr_first + ECA_CHANNEL_MSI_SET_ENABLE_OWR) 0;
                 BusW (adr_first + ECA_CHANNEL_MSI_SET_TARGET_OWR) address;
                 BusW (adr_first + ECA_CHANNEL_MSI_SET_ENABLE_OWR) (if enable then 1 else 0)];
  mret tt.

Definition ECA_new (request_irq : Z -> M W Z) : M W unit :=
  probeConfiguration;;
  compile adr_first sort;;
  prepareChannels;;
  e ← gets w_eca;
  for_each (fun i => address ← request_irq (Z.of_nat i); setHandler (Z.of_nat i) true address)
    (seq 0 (Z.to_nat (channels e))).

(** ** Counters of a sink *)
Definition set_counter (code : Z) (f : Counter -> Counter) (s : ActionSink) : ActionSink :=
  set_counters (alter f (Z.to_nat code)) s.

(** [updateOverflow], [updateAction]: read and clear, and rearm the MSI. *)
Definition update_count (loc : SinkLoc) (code reg : Z) : M W bool :=
  s ← get_sink loc;
  rs ← dev_cycle [BusW (adr_first + ECA_CHANNEL_SELECT_RW) (as_channel s);
                  BusW (adr_first + ECA_CHANNEL_NUM_SELECT_RW) (as_num s);
                  BusR (adr_first + reg)];
  now ← gets w_now;
  let count := u64 (default 0 (ct_count <$> counters s !! Z.to_nat code) + nth_read rs 0) in
  on_sink loc (set_counter code (fun c => mkCounter count now (ct_pending c)));;
  signal (SigCount loc code count);;
  mret false.

Definition updateOverflow (loc : SinkLoc) : M W bool :=
  update_count loc ECA_OVERFLOW ECA_CHANNEL_OVERFLOW_COUNT_GET.
Definition updateAction (loc : SinkLoc) : M W bool :=
  update_count loc ECA_VALID ECA_CHANNEL_VALID_COUNT_GET.

Record ErrorRecord := mkErrorRecord {
  er_event : Z; er_param : Z; er_deadline : Z; er_executed : Z; er_count : Z
}.

Definition fetchError (loc : SinkLoc) (code : Z) : M W ErrorRecord :=
  s ← get_sink loc;
  rs ← dev_cycle [BusW (adr_first + ECA_CHANNEL_SELECT_RW) (as_channel s);
                  BusW (adr_first + ECA_CHANNEL_NUM_SELECT_RW) (as_num s);
                  BusW (adr_first + ECA_CHANNEL_CODE_SELECT_RW) code;
                  BusR (adr_first + ECA_CHANNEL_EVENT_ID_HI_GET);
                  BusR (adr_first + ECA_CHANNEL_EVENT_ID_LO_GET);
                  BusR (adr_first + ECA_CHANNEL_PARAM_HI_GET);
                  BusR (adr_first + ECA_CHANNEL_PARAM_LO_GET);
                  BusR (adr_first + ECA_CHANNEL_TAG_GET);
                  BusR (adr_first + ECA_CHANNEL_TEF_GET);
                  BusR (adr_first + ECA_CHANNEL_DEADLINE_HI_GET);
                  BusR (adr_first + ECA_CHANNEL_DEADLINE_LO_GET);
                  BusR (adr_first + ECA_CHANNEL_EXECUTED_HI_GET);
                  BusR (adr_first + ECA_CHANNEL_EXECUTED_LO_GET);
                  BusR (adr_first + ECA_CHANNEL_FAILED_COUNT_GET)];
  let r := nth_read rs in
  mret (mkErrorRecord (join64 (r 0%nat) (r 1%nat)) (join64 (r 2%nat) (r 3%nat))
          (join64 (r 6%nat) (r 7%nat)) (join64 (r 8%nat) (r 9%nat)) (r 10%nat)).

(** [updateLate], [updateEarly], [updateConflict], [updateDelayed] *)
Definition update_failed (loc : SinkLoc) (code : Z) : M W bool :=
  r ← fetchError loc code;
  s ← get_sink loc;
  now ← gets w_now;
  let count := u64 (default 0 (ct_count <$> counters s !! Z.to_nat code) + er_count r) in
  on_sink loc (set_counter code (fun c => mkCounter count now (ct_pending c)));;
  signal (SigCount loc code count);;
  mret false.

(** The slot of a pending timeout. *)
Definition update_code (loc : SinkLoc) (code : Z) : M W bool :=
  if code =? ECA_OVERFLOW then updateOverflow loc
  else if code =? ECA_VALID then updateAction loc
  else update_failed loc code.

(** The getters of the counters refresh them. *)
Definition getCount (loc : SinkLoc) (code : Z) : M W Z :=
  _ ← update_code loc code;
  s ← get_sink loc;
  mret (default 0 (ct_count <$> counters s !! Z.to_nat code)).

(** The setters: "can only set ... to 0". *)
Definition setCount (what : string) (loc : SinkLoc) (code val : Z) : M W unit :=
  s ← get_sink loc;
  owner_only (as_service s);;
  throw_if (negb (val =? 0)) (Error INVALID_ARGS ("can only set " +:+ what +:+ " to 0"));;
  on_sink loc (set_counter code (fun c => mkCounter 0 (ct_update c) (ct_pending c))).

Definition setMinOffset (loc : SinkLoc) (val : Z) : M W unit :=
  s ← get_sink loc; owner_only (as_service s);;
  on_sink loc (set_limits val (maxOffset s) (signalRate s)).
Definition setMaxOffset (loc : SinkLoc) (val : Z) : M W unit :=
  s ← get_sink loc; owner_only (as_service s);;
  on_sink loc (set_limits (minOffset s) val (signalRate s)).
Definition setSignalRate (loc : SinkLoc) (val : Z) : M W unit :=
  s ← get_sink loc; owner_only (as_service s);;
  on_sink loc (set_limits (minOffset s) (maxOffset s) (s64 val)).
Definition setMostFull (loc : SinkLoc) (val : Z) : M W unit :=
  s ← get_sink loc; owner_only (as_service s);;
  throw_if (negb (val =? 0)) (Error INVALID_ARGS "can only set MostFull to 0");;
  resetMostFull (as_channel s).

(** ** [ActionSink::receiveMSI]: (re)start the timeout that will refresh the
    counter, as soon as the signal rate allows. *)
Definition throttle (rate now last : Z) : Z :=
  let exec := last + rate in
  if now <? exec then Z.quot (exec - now) ms_ns else 0.

Definition ActionSink_receiveMSI (rnd : Z) (loc : SinkLoc) (code : Z) : M W unit :=
  if (0 <=? code) && (code <=? ECA_OVERFLOW) then
    s ← get_sink loc;
    now ← gets w_now;
    match counters s !! Z.to_nat code with
    | None => crash "counters"
    | Some c =>
        on_timers (fun l => (tt, remove (ct_pending c) l));;
        let interval := throttle (signalRate s) now (ct_update c) in
        h ← on_timers (connect (new_timeout now interval interval) (mkTimer loc code) rnd);
        on_sink loc (set_counter code (fun c => mkCounter (ct_count c) (ct_update c) h))
    end
  else mret tt.

(** ** [SoftwareActionSink::receiveMSI] *)
Definition queue_ops (queue : Z) : list bus_op :=
  [BusR (queue + ECA_QUEUE_FLAGS_GET); BusR (queue + ECA_QUEUE_NUM_GET);
   BusR (queue + ECA_QUEUE_EVENT_ID_HI_GET); BusR (queue + ECA_QUEUE_EVENT_ID_LO_GET);
   BusR (queue + ECA_QUEUE_PARAM_HI_GET); BusR (queue + ECA_QUEUE_PARAM_LO_GET);
   BusR (queue + ECA_QUEUE_TAG_GET); BusR (queue + ECA_QUEUE_TEF_GET);
   BusR (queue + ECA_QUEUE_DEADLINE_HI_GET); BusR (queue + ECA_QUEUE_DEADLINE_LO_GET);
   BusR (queue + ECA_QUEUE_EXECUTED_HI_GET); BusR (queue + ECA_QUEUE_EXECUTED_LO_GET);
   BusW (queue + ECA_QUEUE_POP_OWR) 1].

Definition software_action (queue : Z) (loc : SinkLoc) : M W unit :=
  _ ← updateAction loc;
  rs ← dev_cycle (queue_ops queue);
  let r := nth_read rs in
  s ← get_sink loc;
  if Z.land (r 0%nat) (Z.shiftl 1 ECA_VALID) =? 0 then mret tt
  else if negb (r 1%nat =? as_num s) then mret tt
  else match map_find (r 6%nat) (conditions s) with
       | None => mret tt
       | Some _ =>
           signal (SigAction loc (r 6%nat) (join64 (r 2%nat) (r 3%nat)) (join64 (r 4%nat) (r 5%nat))
             (join64 (r 8%nat) (r 9%nat)) (join64 (r 10%nat) (r 11%nat)) (Z.land (r 0%nat) 0xF))
       end.

Definition receiveMSI (rnd : Z) (loc : SinkLoc) (code : Z) : M W unit :=
  s ← get_sink loc;
  match as_kind s with
  | SoftwareActionSink queue =>
      if code =? ECA_VALID then software_action queue loc else ActionSink_receiveMSI rnd loc code
  | _ => ActionSink_receiveMSI rnd loc code
  end.

(** ** [ECA::msiHandler] *)
Definition msiHandler (rnd msi channel : Z) : M W unit :=
  let code := u32 (Z.shiftr msi 16) in
  let num := Z.land msi 0xFFFF in
  if code =? ECA_MAX_FULL then _ ← updateMostFull channel; mret tt
  else
    e ← gets w_eca;
    chan ← at_index (ECAchannels e) channel "ECAchannels[channel]";
    if Z.of_nat (length chan) <=? num then mret tt
    else match chan !! Z.to_nat num with
         | Some (Some _) => receiveMSI rnd (mkLoc (Z.to_nat channel) (Z.to_nat num)) (u8 code)
         | _ => if code =? ECA_VALID then popMissingQueue channel num else mret tt
         end.

(** ** [ECA::ReadRawCurrentTime]: read until the high word is stable. *)
Fixpoint ReadRawCurrentTime (fuel : nat) : M D (option Z) :=
  match fuel with
  | O => mret None
  | S fuel' =>
      rs ← cycle [BusR (adr_first + ECA_TIME_HI_GET); BusR (adr_first + ECA_TIME_LO_GET);
                  BusR (adr_first + ECA_TIME_HI_GET)];
      if nth_read rs 0 =? nth_read rs 2
      then mret (Some (join64 (nth_read rs 0) (nth_read rs 1)))
      else ReadRawCurrentTime fuel'
  end.

(** ** Software action sinks *)
Definition software_sinks (e : ECA) : list ActionSink :=
  if linux_channel_index e =? -1 then []
  else omap (fun s => s) (default [] (ECAchannels e !! Z.to_nat (linux_channel_index e))).

(** [ECA::getSoftwareActionSinks]: names to paths *)
Definition getSoftwareActionSinks (e : ECA) : list (string * string) :=
  foldl (fun m s => map_set (as_name s) (as_path s) m) [] (software_sinks e).

Definition getSoftwareActionSink (path : string) : M W ActionSink :=
  e ← gets w_eca;
  if linux_channel_index e =? -1 then crash "*ECA_LINUX_channel"
  else match head (filter (fun s => as_path s = path) (software_sinks e)) with
       | Some s => mret s
       | None => throw (Error INVALID_ARGS "no such SoftwareActionSink")
       end.

Definition is_alnum_ (c : ascii) : bool :=
  let n := nat_of_ascii c in
  ((48 <=? n) && (n <=? 57) || (65 <=? n) && (n <=? 90) || (97 <=? n) && (n <=? 122) || (n =? 95))%nat.

(** The index of the first free slot. *)
Fixpoint first_free (slots : list (option ActionSink)) : nat :=
  match slots with
  | Some _ :: slots' => S (first_free slots')
  | _ => 0%nat
  end.

(** The name of the new sink. *)
Definition sink_name (name_ : string) : M W string :=
  e ← gets w_eca;
  if bool_decide (name_ = EmptyString) then
    let n := u64 (sas_count e + 1) in
    on_eca (set_sas_count n);; mret ("_" +:+ pretty n)
  else
    throw_if (bool_decide (String.get 0 name_ = Some "_"%char))
      (Error INVALID_ARGS "Invalid name; leading _ is reserved");;
    throw_if (negb (forallb is_alnum_ (String.list_ascii_of_string name_)))
      (Error INVALID_ARGS "Invalid name; [a-zA-Z0-9_] only");;
    throw_if (map_mem name_ (getSoftwareActionSinks e)) (Error INVALID_ARGS "Name already in use");;
    mret name_.

Definition NewSoftwareActionSink (name_ : string) : M W string :=
  e ← gets w_eca;
  throw_if (linux_channel_index e =? -1)
    (Error INVALID_ARGS "ECA has no available linux-facing queues");;
  let ch := Z.to_nat (linux_channel_index e) in
  let num := first_free (default [] (ECAchannels e !! ch)) in
  throw_if (linux_channel_subchannels e <=? Z.of_nat num)
    (Error INVALID_ARGS "All available Linux facing ECA subchannels are already in use");;
  name ← sink_name name_;
  address ← at_index (queue_addresses e) (linux_channel_index e) "queue_addresses[channel]";
  let path := eca_path e +:+ "/software/" +:+ name in
  s ← new_sink (SoftwareActionSink address) path name (linux_channel_index e) (Z.of_nat num);
  c ← gets w_caller;
  s ← served (Some (client_id c)) s;
  on_eca (write_sink (mkLoc ch num) (Some s));;
  mret path.

(** [ActionSink::~ActionSink]: unhook the pending updates, then the conditions.
    In a container they are removed by [container->remove_object], until none
    is left; that erases services, not conditions, so that its second call
    throws out of the destructor (SinkDestroy.v). *)
Definition unhook (s : ActionSink) : M W unit :=
  on_timers (fun l => (tt, foldl (fun l c => remove (ct_pending c) l) l (counters s))).

Definition destroy_sink (s : ActionSink) : M W unit :=
  unhook s;;
  c ← gets w_caller;
  if has_container c && negb (bool_decide (length (conditions s) = 0%nat))
  then crash "std::terminate: exception in ~ActionSink" else mret tt.

(** [ECA::removeSowftwareActionSink] *)
Definition removeSowftwareActionSink (loc : SinkLoc) : M W unit :=
  s ← get_sink loc;
  signal (SigDestroyed (as_path s));;
  destroy_sink s;;
  on_eca (write_sink loc None);;
  compile adr_first sort.

(** [ECA::addActionSink], [ECA::getMostFull] *)
Definition addActionSink (channel : Z) (s : ActionSink) : M W bool :=
  e ← gets w_eca;
  massert ((0 <=? channel) && (channel <? Z.of_nat (length (ECAchannels e)))) "addActionSink";;
  push_sink channel s;;
  mret true.
Definition getMostFull (channel : Z) : M W Z :=
  e ← gets w_eca; at_index (most_full e) channel "most_full[channel]".

(** ** [SCUbusActionSink::InjectTag] *)
Definition InjectTag (loc : SinkLoc) (t : Z) : M W unit :=
  s ← get_sink loc;
  owner_only (as_service s);;
  match as_kind s with
  | SCUbusActionSink scubus =>
      _ ← dev_cycle [BusW (scubus + 0x20) (Z.land t 0xFFFF);
                     BusW (scubus + 0x24) (Z.land (Z.shiftr t 16) 0xFFFF)];
      mret tt
  | _ => crash "not an SCUbusActionSink"
  end.
End Ops.
