(* ===== verification/EcaConditions.v ===== *)
(** * Operations on conditions

    A setter of a condition takes effect in hardware or leaves everything as it
    was; toggling all conditions is all or nothing; a new condition that does not
    fit stays behind. *)
From S2P Require Import Prelude StdMap Bus Loop Owned EcaTables EcaIntervals EcaCorrect EcaHw Eca EcaCompile.
Local Open Scope Z_scope.

(** ** Places *)
Section Places.
Implicit Types (e : ECA) (s : ActionSink) (loc : SinkLoc).

Lemma find_sink_Some loc e s :
  find_sink loc e = Some s <->
  exists ch, ECAchannels e !! loc_channel loc = Some ch /\ ch !! loc_slot loc = Some (Some s).
Proof.
  unfold find_sink. destruct (ECAchannels e !! loc_channel loc) as [ch|]; cbn.
  - destruct (ch !! loc_slot loc) as [os|] eqn:E; cbn.
    + split; [intros ->; eauto|]. intros (ch' & [= <-] & Hs). congruence.
    + split; [done|]. intros (ch' & [= <-] & Hs). congruence.
  - split; [done|]. by intros (ch & ? & _).
Qed.

Lemma find_write_sink loc e s os :
  find_sink loc e = Some s -> find_sink loc (write_sink loc os e) = os.
Proof.
  intros (ch & Hch & Hs)%find_sink_Some. unfold find_sink, write_sink, set_channels. cbn.
  rewrite list_lookup_alter_eq, Hch. cbn. rewrite list_lookup_insert_eq; [done|].
  by eapply lookup_lt_Some.
Qed.

Lemma write_sink_same loc e s : find_sink loc e = Some s -> write_sink loc (Some s) e = e.
Proof.
  intros (ch & Hch & Hs)%find_sink_Some. unfold write_sink, set_channels. destruct e; cbn in *. f_equal.
  apply list_eq. intros j. destruct (decide (j = loc_channel loc)) as [->|Hne].
  - rewrite list_lookup_alter_eq, Hch. cbn. by rewrite (list_insert_id ch).
  - by rewrite list_lookup_alter_ne.
Qed.

Lemma write_write_sink loc e os os' : write_sink loc os (write_sink loc os' e) = write_sink loc os e.
Proof.
  unfold write_sink, set_channels. cbn. f_equal.
  apply list_eq. intros j. destruct (decide (j = loc_channel loc)) as [->|Hne].
  - rewrite !list_lookup_alter_eq. destruct (ECAchannels e !! loc_channel loc); cbn; [|done].
    by rewrite list_insert_insert_eq.
  - by rewrite !list_lookup_alter_ne.
Qed.

Lemma map_update_conditions_twice (cs : list (Z * CondObj)) n o f g :
  NoDup (cs.*1) -> map_find n cs = Some o -> on_cond g (on_cond f o) = o ->
  map_update (on_cond g) n (map_update (on_cond f) n cs) = cs.
Proof.
  intros Hnd Ho Hgf. unfold map_update. rewrite <- list_fmap_compose.
  rewrite <- (list_fmap_id cs) at 2. apply list_fmap_ext. intros i [k o'] Hi. cbn.
  destruct (decide (k = n)) as [->|Hne]; cbn; [|by rewrite decide_False].
  rewrite decide_True by done. f_equal.
  assert (o' = o) as ->; [|done].
  apply map_find_In, list_elem_of_lookup in Ho as [j Hj].
  assert (i = j) as ->.
  { eapply (NoDup_lookup cs.*1); [done|..]; rewrite list_lookup_fmap; [by rewrite Hi|by rewrite Hj]. }
  congruence.
Qed.
End Places.

(** ** Members of a condition *)
Class Member {A} (member : Condition -> A) (assign : A -> Condition -> Condition) := {
  assign_assign : forall u v c, assign u (assign v c) = assign u c;
  assign_same : forall c, assign (member c) c = c;
  member_assign : forall v c, member (assign v c) = v
}.

#[export] Instance member_id : Member id cond_set_id.
Proof. split; [done|by intros []|done]. Qed.
#[export] Instance member_mask : Member mask cond_set_mask.
Proof. split; [done|by intros []|done]. Qed.
#[export] Instance member_offset : Member offset cond_set_offset.
Proof. split; [done|by intros []|done]. Qed.
#[export] Instance member_tag : Member tag cond_set_tag.
Proof. split; [done|by intros []|done]. Qed.
#[export] Instance member_late : Member acceptLate cond_set_late.
Proof. split; [done|by intros []|done]. Qed.
#[export] Instance member_early : Member acceptEarly cond_set_early.
Proof. split; [done|by intros []|done]. Qed.
#[export] Instance member_conflict : Member acceptConflict cond_set_conflict.
Proof. split; [done|by intros []|done]. Qed.
#[export] Instance member_delayed : Member acceptDelayed cond_set_delayed.
Proof. split; [done|by intros []|done]. Qed.
#[export] Instance member_active : Member active setRawActive.
Proof. split; [done|by intros []|done]. Qed.

(** The driver's state after an assignment. *)
Definition assigned (loc : SinkLoc) (n : Z) (f : Condition -> Condition) (e : ECA) : ECA :=
  match find_sink loc e with
  | Some s => write_sink loc (Some (set_conditions (map_update (on_cond f) n) s)) e
  | None => e
  end.

Section Setters.
Context {D : Type} (adr_first : Z) `{!Bus D} `{Hdev : !EcaDevice D adr_first}.
Context (sort : list ECA_OpenClose -> list ECA_OpenClose).
Hypothesis sort_ok : forall xs, std_sorted xs (sort xs).
Implicit Types (w : World D) (e : ECA).

Lemma run_get_cond loc n w s o :
  find_sink loc (w_eca w) = Some s -> map_find n (conditions s) = Some o ->
  get_cond loc n w = (Ret o, w).
Proof. intros Hs Ho. unfold get_cond, get_sink. mrun. rewrite Hs. cbn. by rewrite Ho. Qed.

Lemma run_write_cond loc n f w s :
  find_sink loc (w_eca w) = Some s ->
  write_cond loc n f w = (Ret tt, set_eca (assigned loc n f (w_eca w)) w).
Proof.
  intros Hs. unfold write_cond, on_sink, get_sink, on_eca, assigned. mrun. by rewrite Hs.
Qed.

Lemma assigned_find loc n f e s :
  find_sink loc e = Some s ->
  find_sink loc (assigned loc n f e) = Some (set_conditions (map_update (on_cond f) n) s).
Proof. intros Hs. unfold assigned. rewrite Hs. by apply (find_write_sink _ _ s). Qed.

Lemma assigned_undo loc n f g e s o :
  find_sink loc e = Some s -> map_find n (conditions s) = Some o -> NoDup (conditions s).*1 ->
  g (f (co_cond o)) = co_cond o -> assigned loc n g (assigned loc n f e) = e.
Proof.
  intros Hs Ho Hnd Hgf. unfold assigned at 1. rewrite (assigned_find _ _ _ _ _ Hs).
  unfold assigned. rewrite Hs, write_write_sink. cbn.
  rewrite <- (write_sink_same loc e s Hs) at 2. f_equal. f_equal.
  unfold set_conditions. cbn. rewrite (map_update_conditions_twice _ n o) by
    (try done; unfold on_cond; cbn; rewrite Hgf; by destruct o). by destruct s.
Qed.

(** What the assignment of a member does to the world. *)
Definition takes_effect loc n f w (r : outcome unit * World D) : Prop :=
  let e' := assigned loc n f (w_eca w) in
  (r.1 = Ret tt /\ w_eca r.2 = set_used (record_count e' / 2) e' /\
     in_effect adr_first e' r.2) \/
  (exists ex : exn, r.1 = Throw ex /\ w_eca r.2 = w_eca w /\
     r_active (eca_regs adr_first (w_dev r.2)) = r_active (eca_regs adr_first (w_dev w))).

Lemma assign_and_compile loc n f g w s o :
  find_sink loc (w_eca w) = Some s -> map_find n (conditions s) = Some o ->
  NoDup (conditions s).*1 -> g (f (co_cond o)) = co_cond o ->
  eca_wf (assigned loc n f (w_eca w)) ->
  Z.of_nat (length (active_conditions (assigned loc n f (w_eca w)))) <= walker_size (w_eca w) ->
  takes_effect loc n f w
    ((write_cond loc n f;;
      try_catch (compile adr_first sort) (fun ex => write_cond loc n g;; throw ex)) w).
Proof.
  intros Hs Ho Hnd Hgf Hwf Hroom.
  rewrite (run_bind_ret _ _ _ _ _ (run_write_cond loc n f w s Hs)).
  set (e' := assigned loc n f (w_eca w)) in *. unfold try_catch.
  assert (walker_size e' = walker_size (w_eca w)) as Ews.
  { unfold e', assigned. by rewrite Hs. }
  assert (find_sink loc e' = Some (set_conditions (map_update (on_cond f) n) s)) as Hs'
    by (by apply assigned_find).
  destruct (compile_outcome adr_first sort sort_ok (set_eca e' w) Hwf ltac:(cbn; lia))
    as [d' Heff Hmax|Hmax|d' Ha Hmax].
  - left. cbn. split; [done|]. split; [done|]. exact Heff.
  - rewrite (run_bind_ret _ _ _ _ _ (run_write_cond loc n g (set_eca e' w) _ Hs')).
    right. exists too_many. unfold throw. cbn. split; [done|]. split; [|done].
    by apply (assigned_undo loc n f g (w_eca w) s o).
  - rewrite (run_bind_ret _ _ _ _ _ (run_write_cond loc n g (set_dev d' (set_eca e' w)) _ Hs')).
    right. exists EtherboneError. unfold throw. cbn. split; [done|]. split; [|exact Ha].
    by apply (assigned_undo loc n f g (w_eca w) s o).
Qed.

(** C26: Changing a member of an active condition ([setID], [setMask],
    [setOffset], [setTag], [setAccept...]) is all or nothing, as long as the
    configuration with the new value is well-formed ([eca_wf]) and its active
    conditions fit into the walker's table: either the call returns and the hardware
    acts on the conditions with the new value, or it throws, and both the condition
    and the active tables are the old ones.  Setting the current value does nothing. *)
Theorem setter_all_or_nothing {A} `{EqDecision A} (member : Condition -> A)
    (assign : A -> Condition -> Condition) `{!Member member assign} loc n val w s o
    (Hs : find_sink loc (w_eca w) = Some s) (Ho : map_find n (conditions s) = Some o)
    (Hnd : NoDup (conditions s).*1) (Hactive : active (co_cond o) = true)
    (Hwf : eca_wf (assigned loc n (assign val) (w_eca w)))
    (Hroom : Z.of_nat (length (active_conditions (assigned loc n (assign val) (w_eca w))))
             <= walker_size (w_eca w)) :
  let r := set_member adr_first sort member assign loc n val w in
  (val = member (co_cond o) -> r = (Ret tt, w)) /\
  (val <> member (co_cond o) -> takes_effect loc n (assign val) w r).
Proof.
  intros r. unfold r, set_member. rewrite (run_bind_ret _ _ _ _ _ (run_get_cond loc n w s o Hs Ho)).
  cbv zeta. split; intros Hv.
  - by rewrite bool_decide_true.
  - rewrite bool_decide_false, Hactive by done. apply (assign_and_compile loc n _ _ w s o); try done.
    by rewrite assign_assign, assign_same.
Qed.

(** [setActive] likewise: the condition is activated (deactivated) in the
    driver and in hardware, or the call throws and neither has changed. *)
Theorem setActive_all_or_nothing loc n val w s o
    (Hs : find_sink loc (w_eca w) = Some s) (Ho : map_find n (conditions s) = Some o)
    (Hnd : NoDup (conditions s).*1)
    (Hwf : eca_wf (assigned loc n (setRawActive val) (w_eca w)))
    (Hroom : Z.of_nat (length (active_conditions (assigned loc n (setRawActive val) (w_eca w))))
             <= walker_size (w_eca w)) :
  let r := setActive adr_first sort loc n val w in
  (val = active (co_cond o) -> r = (Ret tt, w)) /\
  (val <> active (co_cond o) -> takes_effect loc n (setRawActive val) w r).
Proof.
  intros r. unfold r, setActive. rewrite (run_bind_ret _ _ _ _ _ (run_get_cond loc n w s o Hs Ho)).
  split; intros Hv.
  - by rewrite bool_decide_true.
  - rewrite bool_decide_false by done. apply (assign_and_compile loc n _ _ w s o); try done.
    destruct o as [[? ? ? ? ? ? ? ? ? act] ? ?]. cbn in *. unfold setRawActive. cbn.
    f_equal. by destruct act, val.
Qed.
End Setters.

(** ** Flipping all conditions *)
Definition undoable {A} (f : A -> A * outcome unit) (x : A) : Prop :=
  exists y, f x = (y, Ret tt) /\ f y = (x, Ret tt).

Lemma visit_undoable {A} (f : A -> A * outcome unit) (l : list A) :
  Forall (undoable f) l -> undoable (visit f) l.
Proof.
  induction 1 as [|x l (y & H1 & H2) Hl (l' & H3 & H4)]; [by exists []|].
  exists (y :: l'). cbn. by rewrite H1, H3, H2, H4.
Qed.

Lemma visit_sink_undoable f (os : option ActionSink) :
  (forall s, os = Some s -> Forall (fun p => undoable f p.2) (conditions s)) ->
  undoable (visit_sink f) os.
Proof.
  destruct os as [s|]; [|by exists None]. intros Hs. specialize (Hs s eq_refl).
  assert (Forall (undoable (fun p : Z * CondObj => let '(o, r) := f p.2 in (p.1, o, r))) (conditions s))
    as Hp.
  { eapply Forall_impl; [exact Hs|]. intros [n o] (o' & H1 & H2). exists (n, o'). cbn in *.
    by rewrite H1, H2. }
  destruct (visit_undoable _ _ Hp) as (cs & H1 & H2).
  exists (Some (set_conditions (fun _ => cs) s)). cbn. rewrite H1. cbn. split; [done|].
  rewrite H2. by destruct s.
Qed.

(** Every condition has its service, as the container's clients see it. *)
Definition services_set (c : Caller) (e : ECA) : Prop :=
  Forall (Forall (fun os => forall s, os = Some s ->
    Forall (fun p : Z * CondObj => exists b, mine c p.2 = Ret b) (conditions s))) (ECAchannels e).

Lemma if_mine_undoable c o : (exists b, mine c o = Ret b) -> undoable (if_mine c toggle) o.
Proof.
  intros [b Hb]. unfold undoable, if_mine. rewrite Hb. destruct b; [|exists o; by rewrite Hb].
  exists (on_cond toggle o). split; [done|].
  assert (mine c (on_cond toggle o) = Ret true) as -> by exact Hb.
  destruct o as [[? ? ? ? ? ? ? ? ? act] ? ?]. unfold on_cond, toggle, setRawActive. cbn.
  by rewrite negb_involutive.
Qed.

Definition toggled (c : Caller) (e : ECA) : ECA := (visit_conditions (if_mine c toggle) e).1.

Lemma toggled_undoable c e :
  services_set c e ->
  visit_conditions (if_mine c toggle) e = (toggled c e, Ret tt) /\
  visit_conditions (if_mine c toggle) (toggled c e) = (e, Ret tt).
Proof.
  intros Hs. assert (undoable (visit (visit (visit_sink (if_mine c toggle)))) (ECAchannels e))
    as (chs & H1 & H2).
  { apply visit_undoable. eapply Forall_impl; [exact Hs|]. intros ch Hch.
    apply visit_undoable. eapply Forall_impl; [exact Hch|]. intros os Hos.
    apply visit_sink_undoable. intros s E. eapply Forall_impl; [exact (Hos s E)|].
    intros p Hp. by apply if_mine_undoable. }
  unfold toggled, visit_conditions. rewrite H1. cbn. rewrite H2. split; [done|]. by destruct e.
Qed.

Section Toggle.
Context {D : Type} (adr_first : Z) `{!Bus D} `{Hdev : !EcaDevice D adr_first}.
Context (sort : list ECA_OpenClose -> list ECA_OpenClose).
Hypothesis sort_ok : forall xs, std_sorted xs (sort xs).
Implicit Types (w : World D) (e : ECA).

Lemma run_on_conditions (f : CondObj -> CondObj * outcome unit) w e r :
  visit_conditions f (w_eca w) = (e, r) -> on_conditions f w = (r, set_eca e w).
Proof. intros E. unfold on_conditions. by rewrite E. Qed.

(** [ECA::ToggleActive] flips all conditions of the caller at once: the
    hardware gets them in one exchange of the tables; if that fails every flip
    is undone and the tables are the old ones.  It returns normally either
    way: the failure is swallowed. *)
Theorem toggle_all_or_nothing w
    (Hserv : services_set (w_caller w) (w_eca w))
    (Hwf : eca_wf (toggled (w_caller w) (w_eca w)))
    (Hroom : Z.of_nat (length (active_conditions (toggled (w_caller w) (w_eca w))))
             <= walker_size (w_eca w)) :
  let '(r, w') := ECA_ToggleActive adr_first sort w in
  let e' := toggled (w_caller w) (w_eca w) in
  r = Ret tt /\
  ((w_eca w' = set_used (record_count e' / 2) e' /\ in_effect adr_first e' w') \/
   (w_eca w' = w_eca w /\
    r_active (eca_regs adr_first (w_dev w')) = r_active (eca_regs adr_first (w_dev w)))).
Proof.
  destruct (toggled_undoable _ _ Hserv) as [H1 H2]. unfold ECA_ToggleActive.
  rewrite (run_bind_ret _ _ w (w_caller w) w) by done. cbv beta.
  rewrite (run_bind_ret _ _ _ _ _ (run_on_conditions _ _ _ _ H1)).
  set (e' := toggled (w_caller w) (w_eca w)) in *.
  assert (walker_size e' = walker_size (w_eca w)) as Ews.
  { unfold e', toggled, visit_conditions. by destruct (visit _ _). }
  unfold try_catch.
  destruct (compile_outcome adr_first sort sort_ok (set_eca e' w) Hwf ltac:(cbn; lia))
    as [d' Heff Hmax|Hmax|d' Ha Hmax].
  - split; [done|]. by left.
  - rewrite (run_on_conditions _ _ (w_eca w) (Ret tt)) by exact H2. split; [done|]. by right.
  - rewrite (run_on_conditions _ _ (w_eca w) (Ret tt)) by exact H2. split; [done|]. by right.
Qed.
End Toggle.

(** ** New conditions *)
Lemma pop_closes_throw cursor walk next l e :
  pop_closes cursor walk next l = Throw e ->
  e = Error INVALID_ARGS "TimingReceiver: Impossible mismatched open/close".
Proof.
  revert next. induction l as [|oc l IH]; intros next; cbn; [done|].
  destruct (_ && _); [|done]. destruct (_ =? -1); [by intros [= <-]|].
  destruct (_ <? 0); [done|]. destruct (_ !! _); [apply IH|done].
Qed.

Lemma walk_records_throw fuel search walk next l e :
  walk_records fuel search walk next l = Throw e ->
  e = Error INVALID_ARGS "TimingReceiver: Impossible mismatched open/close".
Proof.
  revert search walk next l. induction fuel as [|fuel IH]; intros search walk next [|oc l]; try done.
  cbn [walk_records]. cbv zeta. destruct (pop_closes _ _ _ _) as [[n1 l1]|e'|why] eqn:E; [|intros [= ->]|done].
  - destruct (push_opens _ _ _ _) as [[w' n'] l2]. apply IH.
  - by eapply pop_closes_throw.
Qed.

Section NewCondition.
Context {D : Type} (adr_first : Z) `{!Bus D}.
Context (sort : list ECA_OpenClose -> list ECA_OpenClose).
Implicit Types (w : World D).

Lemma write_tables_throw (search : list SearchEntry) walk size (d : D) (e : exn) d' :
  write_tables adr_first search walk size d = (Throw e, d') -> e = EtherboneError.
Proof.
  assert (forall ops (d : D) (e : exn) d', cycle ops d = (Throw e, d') -> e = EtherboneError) as Hc.
  { intros ops d0 e0 d0'. unfold cycle. destruct (bus_cycle ops d0) as [[]|]; congruence. }
  assert (forall l (d : D) (e : exn) d', for_each (write_search_entry adr_first search) l d = (Throw e, d') ->
    e = EtherboneError) as Hs.
  { induction l as [|i l IH]; intros d0 e0 d0'; cbn [for_each]; mrun; [done|].
    unfold write_search_entry at 1. mrun.
    destruct (cycle _ d0) as [[rs|e1|why] d1] eqn:E; [apply IH|intros [= <- _]; by eapply Hc|done]. }
  assert (forall walk i (d : D) (e : exn) d', write_walker adr_first i walk d = (Throw e, d') ->
    e = EtherboneError) as Hw.
  { clear walk. induction walk as [|we walk IH]; intros i d0 e0 d0'; cbn [write_walker]; mrun; [done|].
    destruct (cycle _ d0) as [[rs|e1|why] d1] eqn:E; [apply IH|intros [= <- _]; by eapply Hc|done]. }
  unfold write_tables, write_search, dev_write. mrun.
  destruct (for_each _ _ d) as [[[]|e1|why] d1] eqn:E1; [|intros [= <- _]; by eapply Hs|done].
  destruct (write_walker _ _ _ d1) as [[[]|e2|why] d2] eqn:E2; [|intros [= <- _]; by eapply Hw|done].
  destruct (cycle _ d2) as [[rs|e3|why] d3] eqn:E3; [done|intros [= <- _]; by eapply Hc|done].
Qed.

(** "Too many" is thrown by the check at the start only. *)
Lemma compile_too_many w w' :
  compile adr_first sort w = (Throw too_many, w') ->
  w' = w /\ max_conditions (w_eca w) <= record_count (w_eca w) / 2.
Proof.
  unfold compile. mrun. fold (record_count (w_eca w)).
  destruct (Z.leb_spec (max_conditions (w_eca w)) (record_count (w_eca w) / 2)) as [Hmax|Hmax];
    [by intros [= <-]|]. unfold outcome_of.
  destruct (build_tables _) as [[search walk]|e|why] eqn:E; [|intros [= -> _]|done].
  - unfold on_dev, zoom. destruct (write_tables _ _ _ _ _) as [[[]|e|why] d'] eqn:E'; try done.
    intros [= -> _]. by apply write_tables_throw in E'.
  - by apply walk_records_throw in E.
Qed.

Lemma compile_too_many_iff w :
  max_conditions (w_eca w) <= record_count (w_eca w) / 2 ->
  compile adr_first sort w = (Throw too_many, w).
Proof.
  intros Hmax. unfold compile. mrun. fold (record_count (w_eca w)).
  by rewrite (proj2 (Z.leb_le _ _) Hmax).
Qed.

Lemma createConditionNumber_spec fuel cs w n w' :
  createConditionNumber fuel cs w = (Ret n, w') ->
  map_find n cs = None /\ w_eca w' = w_eca w /\ w_caller w' = w_caller w /\ w_dev w' = w_dev w.
Proof.
  revert w. induction fuel as [|fuel IH]; intros w; cbn [createConditionNumber]; [done|].
  unfold rand. mrun. destruct (w_rand w) as [|r rs]; [done|]. unfold map_mem.
  destruct (map_find (u32 r) cs) eqn:E; [|by intros [= <- <-]].
  intros Hr. by apply IH in Hr.
Qed.

Lemma createConditionNumber_no_throw fuel cs w e w' :
  createConditionNumber fuel cs w <> (Throw e, w').
Proof.
  revert w. induction fuel as [|fuel IH]; intros w; cbn [createConditionNumber]; [done|].
  unfold rand. mrun. destruct (w_rand w) as [|r rs]; [done|].
  destruct (map_mem _ _); [apply IH|done].
Qed.

Lemma new_condition_ret s n act id_ mask_ offset_ tag_ o :
  new_condition s n act id_ mask_ offset_ tag_ = Ret o ->
  minOffset s <= offset_ <= maxOffset s /\ prefix_maskb mask_ = true /\ Z.land id_ mask_ = id_ /\
  o = mkCondObj (mkCondition n id_ mask_ offset_ tag_ false false false true act)
        (as_path s +:+ "/_" +:+ pretty.pretty n) None.
Proof.
  unfold new_condition.
  destruct (Z.ltb_spec offset_ (minOffset s)), (Z.ltb_spec (maxOffset s) offset_); try done. cbn.
  destruct (prefix_maskb mask_); [|done]. destruct (Z.eqb_spec (Z.land id_ mask_) id_); [|done].
  by intros [= <-].
Qed.

Lemma new_condition_throw s n act id_ mask_ offset_ tag_ :
  new_condition s n act id_ mask_ offset_ tag_ <> Throw too_many.
Proof.
  unfold new_condition. destruct (_ || _); [done|]. destruct (negb (prefix_maskb _)); [done|].
  by destruct (negb _).
Qed.

(** A new condition that the hardware has no room for is not taken back:
    although [NewCondition] throws, the condition stays in the sink, active,
    and from then on every compilation throws, so that the hardware keeps the
    old tables until something is removed. *)
Theorem failed_condition_stays loc id_ mask_ offset_ tag_ w s w'
    (Hs : find_sink loc (w_eca w) = Some s)
    (Hrun : NewConditionHelper adr_first sort loc true id_ mask_ offset_ tag_ w = (Throw too_many, w')) :
  exists n o s',
    map_find n (conditions s) = None /\
    find_sink loc (w_eca w') = Some s' /\ map_find n (conditions s') = Some o /\
    active (co_cond o) = true /\ id (co_cond o) = id_ /\ mask (co_cond o) = mask_ /\
    w_dev w' = w_dev w /\
    compile adr_first sort w' = (Throw too_many, w').
Proof.
  unfold NewConditionHelper in Hrun. revert Hrun. unfold get_sink at 1. mrun. rewrite Hs.
  destruct (createConditionNumber _ _ w) as [[n|e|why] w1] eqn:En; try done.
  2: { intros [= -> _]. exfalso. by eapply createConditionNumber_no_throw. }
  apply createConditionNumber_spec in En as (Hn & Ee & Ec & Ed).
  unfold outcome_of. destruct (new_condition s n true id_ mask_ offset_ (tag_ n)) as [o|e|why] eqn:Eo; [|..|done].
  2: { intros [= -> _]. by apply new_condition_throw in Eo. }
  unfold on_sink, get_sink, on_eca. mrun. rewrite Ee, Hs. cbn.
  set (o' := mkCondObj _ _ _). set (e1 := write_sink _ _ _).
  match goal with |- context [compile adr_first sort ?x] => set (w2 := x) end.
  destruct (compile adr_first sort w2) as [[[]|e|why] w3] eqn:E; try done.
  intros [= -> <-]. destruct (compile_too_many _ _ E) as [-> Hmax].
  exists n, o', (set_conditions (map_set n o') s). cbn.
  split; [done|]. split; [apply (find_write_sink _ _ s); by rewrite Ee|].
  split; [apply map_find_set_eq|].
  apply new_condition_ret in Eo as (_ & _ & _ & ->). cbn.
  repeat (split; [reflexivity|]). split; [exact Ed|]. by apply compile_too_many_iff.
Qed.

(** A successful [NewCondition] has been checked: the mask is a prefix, the
    identifier has no bits outside of it, the offset is in the sink's range; so
    the condition is one that the tables represent faithfully. *)
Theorem new_condition_checked s n act id_ mask_ offset_ tag_ o
    (Hid : 0 <= id_ < 2 ^ 64) (Hmask : 0 <= mask_ < 2 ^ 64)
    (Hnew : new_condition s n act id_ mask_ offset_ tag_ = Ret o) :
  condition_wf (co_cond o) /\ minOffset s <= offset_ <= maxOffset s /\
  Z.land id_ mask_ = id_ /\
  (forall e, 0 <= e < 2 ^ 64 ->
     event_matches e (co_cond o) = true <-> covers e (open_record (as_channel s) (as_num s) (co_cond o))) /\
  co_path o = as_path s +:+ "/_" +:+ pretty.pretty n.
Proof.
  apply new_condition_ret in Hnew as (? & ? & ? & ->). cbn.
  assert (condition_wf (mkCondition n id_ mask_ offset_ tag_ false false false true act)) as Hwf by done.
  split; [done|]. split; [done|]. split; [done|]. split; [|done].
  intros e He. by apply open_record_matches.
Qed.
End NewCondition.

(** ** The ECA with two channels *)
Module CondDemo.
Import EcaCompile.Demo.

Definition loc : SinkLoc := mkLoc 1 0.
Definition the_sink : ActionSink := sink 1 0 demo_conditions.

(** The tag of condition 5 becomes 77. *)
Lemma setter_all_or_nothing_witness :
  let r := set_member eca_ram_base oc_sort tag cond_set_tag loc 5 77 w0 in
  (77 = tag (co_cond (cond 5 0x123400 0xffffffffffffff00 (-20) true)) -> r = (Ret tt, w0)) /\
  (77 <> tag (co_cond (cond 5 0x123400 0xffffffffffffff00 (-20) true)) ->
     takes_effect eca_ram_base loc 5 (cond_set_tag 77) w0 r).
Proof.
  apply (setter_all_or_nothing eca_ram_base oc_sort oc_sort_sorted tag cond_set_tag loc 5 77 w0 the_sink
    (cond 5 0x123400 0xffffffffffffff00 (-20) true)).
  - reflexivity.
  - reflexivity.
  - apply (bool_decide_unpack _). vm_compute. exact I.
  - reflexivity.
  - split; [cbn; lia|cbn; lia|reflexivity|..];
      repeat constructor; try (cbn; lia); vm_compute; congruence.
  - vm_compute. discriminate.
Defined.

Example setter_demo :
  act_tag <$> hw_actions (r_active (er_regs (w_dev
    (set_member eca_ram_base oc_sort tag cond_set_tag loc 5 77 w0).2))) 32 16 0x123456 = [8; 77; 3].
Proof. vm_compute. reflexivity. Qed.

(** The wildcard is activated. *)
Lemma setActive_all_or_nothing_witness :
  let r := setActive eca_ram_base oc_sort loc 9 true w0 in
  (true = active (co_cond (cond 9 0 0 0 false)) -> r = (Ret tt, w0)) /\
  (true <> active (co_cond (cond 9 0 0 0 false)) ->
     takes_effect eca_ram_base loc 9 (setRawActive true) w0 r).
Proof.
  apply (setActive_all_or_nothing eca_ram_base oc_sort oc_sort_sorted loc 9 true w0 the_sink
    (cond 9 0 0 0 false)).
  - reflexivity.
  - reflexivity.
  - apply (bool_decide_unpack _). vm_compute. exact I.
  - split; [cbn; lia|cbn; lia|reflexivity|..];
      repeat constructor; try (cbn; lia); vm_compute; congruence.
  - vm_compute. discriminate.
Defined.

Lemma toggle_all_or_nothing_witness :
  let '(r, w') := ECA_ToggleActive eca_ram_base oc_sort w0 in
  let e' := toggled (w_caller w0) (w_eca w0) in
  r = Ret tt /\
  ((w_eca w' = set_used (record_count e' / 2) e' /\ in_effect eca_ram_base e' w') \/
   (w_eca w' = w_eca w0 /\
    r_active (eca_regs eca_ram_base (w_dev w')) = r_active (eca_regs eca_ram_base (w_dev w0)))).
Proof.
  apply (toggle_all_or_nothing eca_ram_base oc_sort oc_sort_sorted w0).
  - repeat constructor; [|done]. intros s [= <-]. repeat constructor; by eexists.
  - assert (toggled (w_caller w0) (w_eca w0) = demo_eca
      [(3, cond 3 0x120000 0xffffffffffff0000 500 false);
       (5, cond 5 0x123400 0xffffffffffffff00 (-20) false);
       (8, cond 8 0x123456 0xffffffffffffffff 0 false); (9, cond 9 0 0 0 true)] 32 16) as ->
      by (vm_compute; reflexivity).
    split; [cbn; lia|cbn; lia|reflexivity|..];
      repeat constructor; try (cbn; lia); vm_compute; congruence.
  - vm_compute. discriminate.
Defined.

(** A search table of six records holds two conditions and a part of the
    third. *)
Definition w_small : World eca_ram :=
  demo_world [(3, cond 3 0x120000 0xffffffffffff0000 500 true);
              (8, cond 8 0x340000 0xffffffffffff0000 0 true)] 6 4.

Lemma failed_condition_stays_witness :
  let w' := (NewConditionHelper eca_ram_base oc_sort loc true 0x560000 0xffffffffffff0000 0 (fun n => n)
               w_small).2 in
  exists n o s',
    map_find n (conditions (sink 1 0 [(3, cond 3 0x120000 0xffffffffffff0000 500 true);
              (8, cond 8 0x340000 0xffffffffffff0000 0 true)])) = None /\
    find_sink loc (w_eca w') = Some s' /\ map_find n (conditions s') = Some o /\
    active (co_cond o) = true /\ id (co_cond o) = 0x560000 /\ mask (co_cond o) = 0xffffffffffff0000 /\
    w_dev w' = w_dev w_small /\
    compile eca_ram_base oc_sort w' = (Throw too_many, w').
Proof.
  apply (failed_condition_stays eca_ram_base oc_sort loc 0x560000 0xffffffffffff0000 0 (fun n => n) w_small).
  - reflexivity.
  - vm_compute. reflexivity.
Defined.

Lemma new_condition_checked_witness :
  let o := mkCondObj (mkCondition 11 0x5600 0xffffffffffffff00 7 11 false false false true true)
             "/sink/_11" None in
  condition_wf (co_cond o) /\ minOffset the_sink <= 7 <= maxOffset the_sink /\
  Z.land 0x5600 0xffffffffffffff00 = 0x5600 /\
  (forall e, 0 <= e < 2 ^ 64 ->
     event_matches e (co_cond o) = true <->
     covers e (open_record (as_channel the_sink) (as_num the_sink) (co_cond o))) /\
  co_path o = as_path the_sink +:+ "/_" +:+ pretty.pretty 11.
Proof.
  apply (new_condition_checked the_sink 11 true 0x5600 0xffffffffffffff00 7 11);
    [split; vm_compute; congruence..|vm_compute; reflexivity].
Defined.
End CondDemo.
