(* ===== verification/EcaLimits.v ===== *)
(** * What the checks of the ECA driver guarantee, and what they let through

    The constructor of [Condition] asks for a prefix as mask and for an id inside
    of it; [setMask] and [setID] do not.  The bound of [ECA::compile] counts
    open and close records, two for most conditions, one for those that end at
    the last event id. *)
From S2P Require Import Prelude StdMap Bus Loop Owned EcaTables EcaIntervals EcaCorrect EcaHw Eca EcaCompile EcaConditions.
Local Open Scope Z_scope.

(** ** Prefix masks *)
Section Prefix.
Lemma add_pow2_flips a i : 0 <= i -> Z.testbit (a + 2 ^ i) i = negb (Z.testbit a i).
Proof.
  intros Hi. rewrite !Z.testbit_odd, !Z.shiftr_div_pow2 by done.
  rewrite <- (Z.mul_1_l (2 ^ i)) at 1. rewrite Z.div_add by (apply Z.pow_nonzero; lia).
  by rewrite Z.odd_add, xorb_true_r.
Qed.

Lemma disjoint_lor_add a b : Z.land a b = 0 -> Z.lor a b = a + b.
Proof. intros Hd. symmetry. rewrite Z.add_nocarry_lxor, Z.lxor_lor; done. Qed.

(** A bit of a mask that is no prefix, below a bit that is not in it. *)
Lemma non_prefix_bit m :
  0 <= m < 2 ^ 64 -> prefix_maskb m = false ->
  exists i, 0 <= i < 64 /\ Z.testbit m i = true /\ 2 ^ i <= u64 (Z.lnot m).
Proof.
  intros Hm Hp. set (n := u64 (Z.lnot m)).
  assert (0 <= n < 2 ^ 64) as Hn by (apply unsigned_wrap_range; lia).
  assert (forall i, 0 <= i < 64 -> Z.testbit n i = negb (Z.testbit m i)) as Hbit.
  { intros i Hi. unfold n, unsigned_wrap. rewrite Z.mod_pow2_bits_low, Z.lnot_spec by lia. done. }
  destruct (decide (n = 0)) as [Hz|Hz].
  { exfalso. unfold prefix_maskb in Hp. fold n in Hp. by rewrite Hz in Hp. }
  set (j := Z.log2 n). pose proof (Z.log2_spec n ltac:(lia)) as Hj. fold j in Hj.
  pose proof (Z.log2_nonneg n) as Hj0. fold j in Hj0.
  assert (j < 64) as Hj64 by (apply Z.log2_lt_pow2; lia).
  destruct (decide (Forall (fun i => Z.testbit n i = true) (seqZ 0 j))) as [Hall|Hex].
  - exfalso. rewrite Forall_forall in Hall. assert (n = Z.ones (Z.succ j)) as E.
    { apply Z.bits_inj'. intros i Hi. destruct (Z.lt_trichotomy i j) as [Hlt|[->|Hgt]].
      - rewrite Z.ones_spec_low by lia. apply Hall, elem_of_seqZ. lia.
      - rewrite Z.ones_spec_low by lia. apply Z.bit_log2. lia.
      - rewrite Z.ones_spec_high by lia. apply Z.bits_above_log2; [lia|]. fold j. lia. }
    unfold prefix_maskb in Hp. fold n in Hp. apply Z.eqb_neq in Hp. apply Hp.
    rewrite E, Z.ones_equiv. replace (Z.pred (2 ^ Z.succ j) + 1) with (2 ^ Z.succ j) by lia.
    rewrite <- Z.ones_equiv. unfold unsigned_wrap.
    rewrite Z.land_comm, Z.land_ones by lia.
    destruct (decide (Z.succ j = 64)) as [->|Hne]; [by rewrite Z.mod_same|].
    rewrite (Z.mod_small (2 ^ Z.succ j)).
    + by rewrite Z.mod_same by (apply Z.pow_nonzero; lia).
    + split; [lia|]. apply Z.pow_lt_mono_r; lia.
  - apply not_Forall_Exists, Exists_exists in Hex as (i & Hi%elem_of_seqZ & Hb); [|apply _].
    exists i. split; [lia|]. unfold compose in Hb. rewrite Hbit in Hb by lia. split; [by destruct (Z.testbit m i)|].
    transitivity (2 ^ j); [apply Z.pow_le_mono_r; lia|lia].
Qed.
End Prefix.

(** The check of the mask in the constructor of [Condition] is exact: with an
    id inside of the mask, the range that the hardware compares ([id & mask] to
    [id | ~mask]) holds the events that match the condition if and only if the
    mask is a prefix. *)
Theorem prefix_check_exact ch nm c
    (Hid : 0 <= id c < 2 ^ 64) (Hm : 0 <= mask c < 2 ^ 64) (Hin : Z.land (id c) (mask c) = id c) :
  (forall e, 0 <= e < 2 ^ 64 -> event_matches e c = true <-> covers e (open_record ch nm c))
  <-> prefix_maskb (mask c) = true.
Proof.
  split; [|intros Hp e; by apply open_record_matches].
  intros Hall. destruct (prefix_maskb (mask c)) eqn:Hp; [done|]. exfalso.
  destruct (non_prefix_bit _ Hm Hp) as (i & Hi & Hbit & Hle).
  set (n := u64 (Z.lnot (mask c))) in *.
  assert (Z.land (id c) n = 0) as Hd.
  { apply Z.bits_inj'. intros k Hk. rewrite Z.bits_0, Z.land_spec, <- Hin, Z.land_spec.
    unfold n, unsigned_wrap. destruct (Z.lt_ge_cases k 64).
    - rewrite Z.mod_pow2_bits_low, Z.lnot_spec by lia. by destruct (Z.testbit _ k), (Z.testbit _ k).
    - rewrite Z.mod_pow2_bits_high by lia. by rewrite andb_false_r. }
  assert (0 <= n < 2 ^ 64) as Hn by (apply unsigned_wrap_range; lia).
  assert (id c + n < 2 ^ 64) as Hlt.
  { rewrite <- disjoint_lor_add by done. destruct (decide (Z.lor (id c) n = 0)) as [->|Hnz]; [lia|].
    assert (0 <= Z.lor (id c) n) by (apply Z.lor_nonneg; lia).
    apply Z.log2_lt_pow2; [lia|]. rewrite Z.log2_lor by lia.
    assert (forall x, 0 <= x < 2 ^ 64 -> Z.log2 x < 64) as Hlog.
    { intros x Hx. destruct (decide (x = 0)) as [->|]; [done|]. apply Z.log2_lt_pow2; lia. }
    apply Z.max_lub_lt; by apply Hlog. }
  assert (0 <= id c + 2 ^ i < 2 ^ 64) as He by (pose proof (Z.pow_nonneg 2 i); lia).
  assert (covers (id c + 2 ^ i) (open_record ch nm c)) as Hc.
  { unfold covers. cbn. fold n. rewrite Hin, disjoint_lor_add by done. pose proof (Z.pow_nonneg 2 i). lia. }
  apply (Hall _ He) in Hc. unfold event_matches in Hc. apply Z.eqb_eq in Hc.
  assert (Z.testbit (id c + 2 ^ i) i = Z.testbit (id c) i) as Heq.
  { pose proof (f_equal (fun x => Z.testbit x i) Hc) as Hb. cbn in Hb.
    rewrite !Z.land_spec, Hbit, !andb_true_r in Hb. done. }
  rewrite add_pow2_flips in Heq by lia. by destruct (Z.testbit (id c) i).
Qed.

(** ** [getFree] *)
Section Free.
Context {D : Type} (adr_first : Z) `{!Bus D} `{Hdev : !EcaDevice D adr_first}.
Context (sort : list ECA_OpenClose -> list ECA_OpenClose).
Hypothesis sort_ok : forall xs, std_sorted xs (sort xs).
Implicit Types (w : World D).

(** [getFree] counts one condition too many: after every successful
    compilation it reports at least one free condition, and when it reports
    one, a configuration with one more pair of records is refused. *)
Theorem getFree_counts_one_too_many w w'
    (Hwf : eca_wf (w_eca w))
    (Hroom : Z.of_nat (length (active_conditions (w_eca w))) <= walker_size (w_eca w))
    (Hrun : compile adr_first sort w = (Ret tt, w')) :
  getFree (w_eca w') = max_conditions (w_eca w) - record_count (w_eca w) / 2 /\
  1 <= getFree (w_eca w') /\
  (getFree (w_eca w') = 1 ->
   forall w2 : World D, max_conditions (w_eca w2) = max_conditions (w_eca w) ->
     record_count (w_eca w2) = record_count (w_eca w) + 2 ->
     compile adr_first sort w2 = (Throw too_many, w2)).
Proof.
  destruct (compile_outcome adr_first sort sort_ok w Hwf Hroom) as [d' _ Hmax|Hmax|d' _ Hmax];
    [|done|done].
  injection Hrun as <-. cbn [w_eca set_dev set_eca].
  pose proof (wf_max _ Hwf) as Em. pose proof (wf_search_size _ Hwf) as Hss.
  pose proof (wf_walker_size _ Hwf) as Hws.
  assert (0 <= record_count (w_eca w) / 2) by (apply Z.div_pos; unfold record_count; lia).
  assert (getFree (set_used (record_count (w_eca w) / 2) (w_eca w))
          = max_conditions (w_eca w) - record_count (w_eca w) / 2) as E.
  { unfold getFree. cbn. apply unsigned_wrap_small. lia. }
  rewrite E. split; [done|]. split; [lia|]. intros H1 w2 Em2 Er.
  apply compile_too_many_iff. rewrite Em2, Er.
  replace (record_count (w_eca w) + 2) with (record_count (w_eca w) + 1 * 2) by lia.
  rewrite Z.div_add by lia. lia.
Qed.
End Free.

Module LimitsDemo.
Import EcaCompile.Demo CondDemo.

Lemma prefix_check_exact_witness :
  (forall e, 0 <= e < 2 ^ 64 ->
     event_matches e (co_cond (cond 1 0 1 0 true))
     = true <-> covers e (open_record 1 0 (co_cond (cond 1 0 1 0 true))))
  <-> prefix_maskb 1 = true.
Proof.
  apply (prefix_check_exact 1 0 (co_cond (cond 1 0 1 0 true)));
    [split; vm_compute; congruence..|reflexivity].
Defined.

(** Six records hold at most two pairs and one more record. *)
Definition w_two : World eca_ram :=
  demo_world [(3, cond 3 0x120000 0xffffffffffff0000 500 true);
              (8, cond 8 0x340000 0xffffffffffff0000 0 true)] 6 4.
Definition w_three : World eca_ram :=
  demo_world [(3, cond 3 0x120000 0xffffffffffff0000 500 true);
              (8, cond 8 0x340000 0xffffffffffff0000 0 true);
              (9, cond 9 0x560000 0xffffffffffff0000 0 true)] 6 4.

Lemma getFree_counts_one_too_many_witness :
  let w' := (compile eca_ram_base oc_sort w_two).2 in
  getFree (w_eca w') = 1 /\ compile eca_ram_base oc_sort w_three = (Throw too_many, w_three).
Proof.
  destruct (getFree_counts_one_too_many eca_ram_base oc_sort oc_sort_sorted w_two
    (compile eca_ram_base oc_sort w_two).2) as (_ & _ & H).
  - split; [cbn; lia|cbn; lia|reflexivity|..];
      repeat constructor; try (cbn; lia); vm_compute; congruence.
  - vm_compute. discriminate.
  - vm_compute. reflexivity.
  - split; [vm_compute; reflexivity|]. apply H; vm_compute; reflexivity.
Defined.

(** ** What [setMask] lets through *)

(** [Condition::setMask] does not repeat the constructor's check.  With a
    mask that is not a prefix the call returns, the condition keeps being
    active, and the hardware acts on an event that does not match it. *)
Theorem setMask_unchecked :
  let w := demo_world [(9, cond 9 0 0xffffffffffffffff 0 true)] 32 16 in
  let '(r, w') := setMask eca_ram_base oc_sort loc 9 1 w in
  r = Ret tt /\
  match get_cond loc 9 w' with
  | (Ret o, _) =>
      mask (co_cond o) = 1 /\ active (co_cond o) = true /\
      event_matches 3 (co_cond o) = false /\
      hw_actions (r_active (er_regs (w_dev w'))) 32 16 3 = [cond_action 1 0 (co_cond o)]
  | _ => False
  end.
Proof. vm_compute. repeat split. Qed.

(** ** What the bound of [compile] lets through *)
Definition wildcards (n : nat) : list (Z * CondObj) :=
  (fun k => (Z.of_nat k, cond (Z.of_nat k) 0 0 0 true)) <$> seq 1 n.

(** The bound of [ECA::compile] is meant to keep the active conditions within
    the walker table, of which every condition takes one entry.  But a
    condition that ends at the last event id has no close record and counts
    half: with room for four walker entries, seven wildcards are accepted. *)
Theorem walker_table_overrun :
  let w := demo_world (wildcards 7) 16 4 in
  let '(r, w') := compile eca_ram_base oc_sort w in
  r = Ret tt /\ max_conditions (w_eca w) = 4 /\ walker_size (w_eca w) = 4 /\
  length (active_conditions (w_eca w)) = 7%nat /\
  used_conditions (w_eca w') = 3 /\ getFree (w_eca w') = 1 /\
  r_walker_select (er_regs (w_dev w')) = 6.
Proof. vm_compute. repeat split. Qed.
End LimitsDemo.
