(* ===== verification/EcaOpsCorrect.v ===== *)
(** * Clock, software actions and software sinks of the ECA driver

    The time that the driver reads is one that the clock had; an action reaches
    the condition that it carries as its tag; new sinks take the first free slot
    and a name of their own. *)
From stdpp Require Import pretty.
From Stdlib Require Import Ascii.
From S2P Require Import Prelude StdMap Bus Loop Owned EcaTables EcaHw Eca EcaCompile EcaOps EcaConditions.
Local Open Scope Z_scope.

(** ** The clock *)

(** The documented behaviour of the two time registers: a 64-bit counter of
    nanoseconds that does not run backwards, of which every read delivers the
    upper or lower word at that moment. *)
Class EcaClock (D : Type) `{Bus D} (base : Z) := {
  clock : D -> Z;
  clock_cycle : forall d rs d',
    bus_cycle [BusR (base + ECA_TIME_HI_GET); BusR (base + ECA_TIME_LO_GET);
               BusR (base + ECA_TIME_HI_GET)] d = Some (rs, d') ->
    exists t1 t2 t3, rs = [t1 / 2 ^ 32; t2 mod 2 ^ 32; t3 / 2 ^ 32] /\
      clock d <= t1 <= t2 /\ t2 <= t3 <= clock d';
  clock_range : forall (d : D), 0 <= clock d < 2 ^ 64
}.
Arguments clock {_ _} _ {_} _.

Lemma join64_split t1 t2 t3 :
  0 <= t1 <= t2 -> t2 <= t3 < 2 ^ 64 -> t1 / 2 ^ 32 = t3 / 2 ^ 32 ->
  join64 (t1 / 2 ^ 32) (t2 mod 2 ^ 32) = t2.
Proof.
  intros H1 H2 E. unfold join64, unsigned_wrap. change (2 ^ 32) with 4294967296 in *.
  change (2 ^ 64) with 18446744073709551616 in *.
  assert (t1 / 4294967296 = t2 / 4294967296) as ->.
  { pose proof (Z.div_le_mono t1 t2 4294967296). pose proof (Z.div_le_mono t2 t3 4294967296). lia. }
  assert (0 <= t2 / 4294967296 < 4294967296) as Hq.
  { split; [apply Z.div_pos; lia|apply Z.div_lt_upper_bound; lia]. }
  rewrite (Z.mod_small (Z.shiftl _ 32)) by (rewrite Z.shiftl_mul_pow2 by lia; change (2 ^ 32) with 4294967296; lia).
  change 4294967296 with (2 ^ 32) in *. rewrite lor_shiftl_low by (try apply Z.mod_pos_bound; lia).
  pose proof (Z.div_mod t2 (2 ^ 32)). lia.
Qed.

Section Clock.
Context {D : Type} (base : Z) `{!Bus D} `{!EcaClock D base}.

Lemma read_round (d : D) :
  (exists t d', cycle [BusR (base + ECA_TIME_HI_GET); BusR (base + ECA_TIME_LO_GET);
                       BusR (base + ECA_TIME_HI_GET)] d
                = (Ret [t / 2 ^ 32; t mod 2 ^ 32; t / 2 ^ 32], d') /\
     join64 (t / 2 ^ 32) (t mod 2 ^ 32) = t /\ clock base d <= t <= clock base d') \/
  (exists t1 m t3 d', cycle [BusR (base + ECA_TIME_HI_GET); BusR (base + ECA_TIME_LO_GET);
                       BusR (base + ECA_TIME_HI_GET)] d = (Ret [t1 / 2 ^ 32; m; t3 / 2 ^ 32], d') /\
     clock base d <= t1 <= t3 /\ t3 <= clock base d' /\ t1 / 2 ^ 32 < t3 / 2 ^ 32) \/
  cycle [BusR (base + ECA_TIME_HI_GET); BusR (base + ECA_TIME_LO_GET);
         BusR (base + ECA_TIME_HI_GET)] d = (Throw EtherboneError, d).
Proof.
  unfold cycle at 1 2 3. destruct (bus_cycle _ d) as [[rs d']|] eqn:E; [|auto].
  destruct (clock_cycle d rs d' E) as (t1 & t2 & t3 & -> & H1 & H2).
  pose proof (clock_range d) as Hr. pose proof (clock_range d') as Hr'.
  destruct (Z.eqb_spec (t1 / 2 ^ 32) (t3 / 2 ^ 32)) as [Eq|Ne].
  - left. exists t2, d'. assert (t1 / 2 ^ 32 = t2 / 2 ^ 32 /\ t3 / 2 ^ 32 = t2 / 2 ^ 32) as [-> ->].
    { pose proof (Z.div_le_mono t1 t2 (2 ^ 32)). pose proof (Z.div_le_mono t2 t3 (2 ^ 32)). lia. }
    split; [done|]. split; [|lia]. apply (join64_split t2 t2 t2); lia.
  - right. left. exists t1, (t2 mod 2 ^ 32), t3, d'. split; [done|].
    pose proof (Z.div_le_mono t1 t3 (2 ^ 32)). lia.
Qed.

(** [ECA::ReadRawCurrentTime] returns a time that the clock had during the
    call, never one put together from two moments, and it returns: if two
    attempts take less than 2^32 ns (4.3 s), the second one succeeds at the
    latest, since the upper word changes once in that time. *)
Theorem ReadRawCurrentTime_snapshot fuel (d : D)
    (Hfuel : (2 <= fuel)%nat)
    (Hfast : clock base (ReadRawCurrentTime base 2 d).2 - clock base d < 2 ^ 32) :
  let '(r, d') := ReadRawCurrentTime base fuel d in
  r = Throw EtherboneError \/
  exists t, r = Ret (Some t) /\ clock base d <= t <= clock base d'.
Proof.
  destruct fuel as [|[|fuel]]; [lia..|]. revert Hfast.
  change (2 ^ 32) with 4294967296. intros Hfast.
  cbn [ReadRawCurrentTime] in *.
  destruct (read_round d) as [(t & d1 & E & Ej & H)|[(t1 & m & t3 & d1 & E & H1 & H2 & Hlt)|E]].
  - rewrite (run_bind_ret _ _ _ _ _ E). unfold nth_read. cbn -[join64].
    rewrite Z.eqb_refl, Ej. right. by exists t.
  - rewrite (run_bind_ret _ _ _ _ _ E). rewrite (run_bind_ret _ _ _ _ _ E) in Hfast.
    unfold nth_read in *. cbn [lookup list_lookup default from_option] in *. unfold Datatypes.id in *.
    rewrite (proj2 (Z.eqb_neq (t1 / 2 ^ 32) (t3 / 2 ^ 32))) by lia.
    rewrite (proj2 (Z.eqb_neq (t1 / 2 ^ 32) (t3 / 2 ^ 32))) in Hfast by lia.
    destruct (read_round d1) as [(t & d2 & E' & Ej & H)|[(t1' & m' & t3' & d2 & E' & H1' & H2' & Hlt')|E']].
    + rewrite (run_bind_ret _ _ _ _ _ E'). cbn -[join64]. rewrite Z.eqb_refl, Ej.
      right. exists t. split; [done|]. lia.
    + exfalso. rewrite (run_bind_ret _ _ _ _ _ E') in Hfast.
      cbn [lookup list_lookup default from_option] in Hfast. unfold Datatypes.id in Hfast.
      rewrite (proj2 (Z.eqb_neq (t1' / 2 ^ 32) (t3' / 2 ^ 32))) in Hfast by lia. cbn [snd] in Hfast.
      assert (clock base d2 - clock base d < 2 ^ 32) by exact Hfast. clear Hfast.
      change (2 ^ 32) with 4294967296 in *. Z.div_mod_to_equations. lia.
    + rewrite (run_bind_throw _ _ _ _ _ E'). by left.
  - rewrite (run_bind_throw _ _ _ _ _ E). by left.
Qed.
End Clock.

(** ** The queue of a software channel *)

(** An action that waits in the hardware for the host. *)
Record Action := mkAction {
  a_flags : Z; a_num : Z; a_event : Z; a_param : Z; a_tag : Z; a_tef : Z; a_deadline : Z; a_executed : Z
}.

(** The registers as src/eca_queue_regs.h describes them: they show the action at
    the front of the queue, 64-bit values as upper and lower word. *)
Definition queue_register (a : Action) (offset : Z) : option Z :=
  match offset with
  | 0x08 => Some (a_flags a)
  | 0x0c => Some (a_num a)
  | 0x10 => Some (a_event a / 2 ^ 32)
  | 0x14 => Some (a_event a mod 2 ^ 32)
  | 0x18 => Some (a_param a / 2 ^ 32)
  | 0x1c => Some (a_param a mod 2 ^ 32)
  | 0x20 => Some (a_tag a)
  | 0x24 => Some (a_tef a)
  | 0x28 => Some (a_deadline a / 2 ^ 32)
  | 0x2c => Some (a_deadline a mod 2 ^ 32)
  | 0x30 => Some (a_executed a / 2 ^ 32)
  | 0x34 => Some (a_executed a mod 2 ^ 32)
  | _ => None
  end.

(** A sequence of operations on the bus, seen by the queue at the address [queue]:
    the values of its registers ([None] for other addresses), and the queue
    afterwards: a write to the register at 0x04 takes the front action off.  An
    empty queue shows [idle]. *)
Fixpoint queue_run (queue : Z) (idle : Action) (ops : list bus_op) (q : list Action) : list (option Z) * list Action :=
  match ops with
  | [] => ([], q)
  | BusR a :: ops' =>
      let '(vs, q') := queue_run queue idle ops' q in
      (queue_register (default idle (head q)) (a - queue) :: vs, q')
  | BusW a _ :: ops' => queue_run queue idle ops' (if a - queue =? 0x04 then tail q else q)
  end.

Definition is_u64 (x : Z) : Prop := 0 <= x < 2 ^ 64.
Definition action_ok (a : Action) : Prop :=
  is_u64 (a_event a) /\ is_u64 (a_param a) /\ is_u64 (a_deadline a) /\ is_u64 (a_executed a).

(** A device with a queue: before a cycle more actions may arrive; the cycle then
    acts on the queue in the order of its operations.  Without an action the valid
    flag is not set. *)
Class ActionQueue (D : Type) `{Bus D} (queue : Z) := {
  waiting : D -> list Action;
  idle : Action;
  idle_invalid : Z.testbit (a_flags idle) 4 = false;
  idle_ok : action_ok idle;
  queue_cycle : forall ops d rs d', bus_cycle ops d = Some (rs, d') -> exists arrived, Forall action_ok arrived /\
    let '(vs, q) := queue_run queue idle ops (waiting d ++ arrived) in
    waiting d' = q /\ Forall2 (fun v r => match v with Some x => r = x | None => True end) vs rs
}.
Arguments waiting {_} {_} _ {_} _.
Arguments idle {_ _} _ {_}.

(** ** Software actions *)
Section Dispatch.
Context {D : Type} (adr_first : Z) `{!Bus D}.
Implicit Types (w : World D).

(** [update_count] in one step: the device delivers the count, or fails. *)
Lemma run_update_count loc code reg w s :
  find_sink loc (w_eca w) = Some s ->
  update_count adr_first loc code reg w = (Throw EtherboneError, w) \/
  exists d count rs,
    bus_cycle [BusW (adr_first + ECA_CHANNEL_SELECT_RW) (as_channel s);
               BusW (adr_first + ECA_CHANNEL_NUM_SELECT_RW) (as_num s);
               BusR (adr_first + reg)] (w_dev w) = Some (rs, d) /\
    update_count adr_first loc code reg w
    = (Ret false,
       mkWorld d (write_sink loc (Some (set_counter code (fun c => mkCounter count (w_now w) (ct_pending c)) s))
                   (w_eca w))
         (w_loop w) (w_now w) (w_rand w) (w_caller w) (w_signals w ++ [SigCount loc code count])) /\
    0 <= count < 2 ^ 64.
Proof.
  intros Hs. unfold update_count, on_sink, get_sink, on_eca, signal, dev_cycle, on_dev, zoom, cycle. mrun. rewrite Hs.
  cbv beta iota zeta. destruct (bus_cycle _ (w_dev w)) as [[rs d]|] eqn:E; [right|left; by destruct w].
  cbv beta iota zeta. cbn [w_eca w_now]. rewrite Hs.
  exists d, (u64 (default 0 (ct_count <$> counters s !! Z.to_nat code) + nth_read rs 0)), rs.
  split; [done|]. split; [reflexivity|]. apply unsigned_wrap_range. lia.
Qed.

(** What the clients are to hear of an action: nothing, or the action for the
    condition with its tag. *)
Definition action_of (loc : SinkLoc) (s : ActionSink) (a : Action) : list Signal :=
  if Z.testbit (a_flags a) 4 && (a_num a =? as_num s) && map_mem (a_tag a) (conditions s)
  then [SigAction loc (a_tag a) (a_event a) (a_param a) (a_deadline a) (a_executed a) (Z.land (a_flags a) 0xF)]
  else [].

Lemma join64_halves x : is_u64 x -> join64 (x / 2 ^ 32) (x mod 2 ^ 32) = x.
Proof. intros Hx. apply (join64_split x x x); unfold is_u64 in Hx; lia. Qed.

Lemma valid_flag f : (Z.land f (Z.shiftl 1 ECA_VALID) =? 0) = negb (Z.testbit f 4).
Proof.
  change (Z.shiftl 1 ECA_VALID) with (2 ^ 4). destruct (Z.testbit f 4) eqn:E; cbn [negb].
  - apply Z.eqb_neq. intros E0. apply (f_equal (fun x => Z.testbit x 4)) in E0.
    rewrite Z.land_spec, E, Z.pow2_bits_true in E0 by lia. done.
  - apply Z.eqb_eq. apply Z.bits_inj'. intros n Hn. rewrite Z.land_spec, Z.pow2_bits_eqb, Z.bits_0 by lia.
    destruct (Z.eqb_spec 4 n) as [<-|]; [by rewrite E|apply andb_false_r].
Qed.

(** The cycle of [receiveMSI] on the queue: it reads the front action and takes it
    off. *)
Lemma queue_ops_run queue idle q :
  let a := default idle (head q) in
  queue_run queue idle (queue_ops queue) q =
  ([Some (a_flags a); Some (a_num a); Some (a_event a / 2 ^ 32); Some (a_event a mod 2 ^ 32);
    Some (a_param a / 2 ^ 32); Some (a_param a mod 2 ^ 32); Some (a_tag a); Some (a_tef a);
    Some (a_deadline a / 2 ^ 32); Some (a_deadline a mod 2 ^ 32);
    Some (a_executed a / 2 ^ 32); Some (a_executed a mod 2 ^ 32)], tail q).
Proof.
  assert (forall off, queue + off - queue = off) as Hoff by lia.
  unfold queue_ops. cbn [queue_run]. by rewrite !Hoff.
Qed.

Lemma all_read (xs : list Z) rs :
  Forall2 (fun v r => match v with Some x => r = x | None => True end) (Some <$> xs) rs -> rs = xs.
Proof.
  revert rs. induction xs as [|x xs IH]; intros rs Hf; cbn in Hf.
  - by apply Forall2_nil_inv_l in Hf.
  - apply Forall2_cons_inv_l in Hf as (r & rs' & -> & Hf & ->). by rewrite (IH rs').
Qed.

(** C30: An MSI about a valid action makes a software sink take exactly one action off
    its queue, the one at the front.  It tells the clients the new count, and it
    signals this action, with its own event, parameter, deadline, execution time
    and error flags, to the condition whose number is the action's tag, if the
    action is valid, belongs to this subchannel and the condition still exists;
    otherwise the action is dropped.  When a bus cycle fails no action is taken off
    and none is signalled.  The conditions do not change.  (The registers of the
    queue and of the ECA are apart.) *)
Theorem software_action_dispatched rnd loc w s queue `{!ActionQueue D queue}
    (Hs : find_sink loc (w_eca w) = Some s) (Hk : as_kind s = SoftwareActionSink queue)
    (Hq : Forall action_ok (waiting queue (w_dev w)))
    (Hapart : queue + 0x38 <= adr_first \/ adr_first + 0x100 <= queue) :
  let '(r, w') := receiveMSI adr_first rnd loc ECA_VALID w in
  (exists arrived count, 0 <= count < 2 ^ 64 /\
     let q := waiting queue (w_dev w) ++ arrived in
     match r with
     | Ret _ =>
         waiting queue (w_dev w') = tail q /\
         w_signals w' = w_signals w ++ SigCount loc ECA_VALID count ::
           match head q with Some a => action_of loc s a | None => [] end
     | Throw e =>
         e = EtherboneError /\ waiting queue (w_dev w') = q /\
         (w_signals w' = w_signals w \/ w_signals w' = w_signals w ++ [SigCount loc ECA_VALID count])
     | Crash _ => False
     end) /\
  exists s', find_sink loc (w_eca w') = Some s' /\ conditions s' = conditions s /\
    as_num s' = as_num s.
Proof.
  unfold receiveMSI. rewrite (run_bind_ret _ _ w s w) by (unfold get_sink; by rewrite Hs).
  rewrite Hk. change (ECA_VALID =? ECA_VALID) with true. unfold software_action, updateAction.
  destruct (run_update_count loc ECA_VALID ECA_CHANNEL_VALID_COUNT_GET w s Hs)
    as [E|(d & count & rs0 & E0 & E & Hc)].
  { rewrite (run_bind_throw _ _ _ _ _ E). split; [|by exists s]. exists [], 0.
    rewrite app_nil_r. split; [lia|]. split_and!; auto. }
  assert (exists new, waiting queue d = waiting queue (w_dev w) ++ new /\ Forall action_ok new) as (new & Hd & Hnew).
  { destruct (queue_cycle _ _ _ _ E0) as (new & Hnew & Hq0). exists new. cbn [queue_run] in Hq0.
    rewrite !(proj2 (Z.eqb_neq _ 4)) in Hq0
      by (unfold ECA_CHANNEL_SELECT_RW, ECA_CHANNEL_NUM_SELECT_RW; lia). split; [by destruct Hq0|done]. }
  rewrite (run_bind_ret _ _ _ _ _ E). set (w1 := mkWorld _ _ _ _ _ _ _).
  set (s1 := set_counter _ _ s) in *.
  assert (find_sink loc (w_eca w1) = Some s1) as Hs1 by (by apply (find_write_sink _ _ s)).
  unfold dev_cycle, on_dev, zoom, cycle. mrun. cbn [w_dev w1].
  destruct (bus_cycle (queue_ops queue) d) as [[rs d2]|] eqn:Eb.
  2: { split; [|by exists s1]. exists new, count. split; [done|]. cbn [w_dev w_signals]. split_and!; auto. }
  destruct (queue_cycle _ _ _ _ Eb) as (new2 & Hnew2 & Hq2). rewrite queue_ops_run in Hq2. destruct Hq2 as [Hd2 Hrs].
  set (a := default (idle queue) (head (waiting queue d ++ new2))) in *.
  apply (all_read [a_flags a; a_num a; a_event a / 2 ^ 32; a_event a mod 2 ^ 32; a_param a / 2 ^ 32; a_param a mod 2 ^ 32;
    a_tag a; a_tef a; a_deadline a / 2 ^ 32; a_deadline a mod 2 ^ 32; a_executed a / 2 ^ 32; a_executed a mod 2 ^ 32]) in Hrs.
  subst rs.
  assert (action_ok a) as (R1 & R2 & R3 & R4).
  { unfold a. destruct (head (waiting queue d ++ new2)) as [x|] eqn:Ex; [|apply idle_ok]. cbn.
    assert (Forall action_ok (waiting queue d ++ new2)) as Hall by (rewrite Hd, !Forall_app; done).
    destruct (waiting queue d ++ new2) as [|y l]; [done|]. injection Ex as ->. by apply Forall_cons in Hall as [? _]. }
  cbv beta iota zeta. unfold get_sink at 1. cbn [w_eca]. fold (w_eca w1). cbn [w1 w_eca] in Hs1 |- *.
  rewrite Hs1. unfold nth_read. cbn [lookup list_lookup default from_option]. unfold Datatypes.id.
  rewrite valid_flag, !join64_halves by done.
  change (conditions s1) with (conditions s). change (as_num s1) with (as_num s).
  assert (forall sig, (exists s', find_sink loc (w_eca (mkWorld d2 (w_eca w1) (w_loop w) (w_now w)
    (w_rand w) (w_caller w) sig)) = Some s' /\ conditions s' = conditions s /\ as_num s' = as_num s)) as Hkeep.
  { intros sig. by exists s1. }
  assert (forall acts, action_of loc s a = acts -> exists arrived count', 0 <= count' < 2 ^ 64 /\
    waiting queue d2 = tail (waiting queue (w_dev w) ++ arrived) /\
    w_signals w ++ SigCount loc ECA_VALID count :: acts =
    w_signals w ++ SigCount loc ECA_VALID count' ::
      match head (waiting queue (w_dev w) ++ arrived) with Some a => action_of loc s a | None => [] end) as Hsig.
  { intros acts <-. exists (new ++ new2), count. rewrite app_assoc, <- Hd. split; [done|]. split; [done|]. do 2 f_equal.
    unfold a. destruct (head (waiting queue d ++ new2)) as [x|]; [done|]. unfold action_of.
    change (default (idle queue) None) with (idle queue). by rewrite idle_invalid. }
  unfold action_of, map_mem in Hsig.
  destruct (Z.testbit (a_flags a) 4); cbn [negb andb] in *.
  2: { split; [|apply Hkeep]. by apply (Hsig []). }
  destruct (a_num a =? as_num s); cbn [negb andb] in *.
  2: { split; [|apply Hkeep]. by apply (Hsig []). }
  destruct (map_find (a_tag a) (conditions s)).
  - unfold signal. mrun. split; [|apply Hkeep]. cbn [w_signals w_dev w1]. rewrite <- app_assoc. by apply (Hsig [_]).
  - split; [|apply Hkeep]. by apply (Hsig []).
Qed.
End Dispatch.

(** ** Software sinks *)
Section SoftwareSinks.
Context {D : Type} (adr_first : Z) `{!Bus D}.
Implicit Types (w : World D).

Lemma first_free_spec (slots : list (option ActionSink)) :
  (forall j, (j < first_free slots)%nat -> exists s, slots !! j = Some (Some s)) /\
  (first_free slots <= length slots)%nat /\
  ((first_free slots < length slots)%nat -> slots !! first_free slots = Some None).
Proof.
  induction slots as [|[s|] slots (IH1 & IH2 & IH3)]; cbn.
  - split; [lia|]. split; [lia|]. lia.
  - split; [|split; [lia|]].
    + intros [|j] Hj; [by exists s|]. apply IH1. lia.
    + intros Hlt. apply IH3. lia.
  - split; [lia|]. split; [lia|]. done.
Qed.

Lemma map_mem_foldl_set (l : list ActionSink) (m : list (string * string)) k :
  map_mem k (foldl (fun m s => map_set (as_name s) (as_path s) m) m l) = true
  <-> map_mem k m = true \/ k ∈ (as_name <$> l).
Proof.
  revert m. induction l as [|s l IH]; intros m; cbn.
  - rewrite elem_of_nil. tauto.
  - rewrite IH, elem_of_cons. unfold map_mem.
    destruct (decide (k = as_name s)) as [->|Hne].
    + rewrite map_find_set_eq. tauto.
    + rewrite map_find_set_ne by done. tauto.
Qed.

Definition software_names (e : ECA) : list string := as_name <$> software_sinks e.

Lemma getSoftwareActionSinks_mem k e :
  map_mem k (getSoftwareActionSinks e) = true <-> k ∈ software_names e.
Proof.
  unfold getSoftwareActionSinks, software_names. rewrite map_mem_foldl_set. cbn.
  split; [by intros [|]|by right].
Qed.

(** The names that [NewSoftwareActionSink] accepts or makes up. *)
Definition name_for (name_ : string) (e : ECA) (n : string) : Prop :=
  (name_ = EmptyString /\ n = "_" +:+ pretty (u64 (sas_count e + 1))) \/
  (name_ <> EmptyString /\ n = name_ /\ String.get 0 n <> Some "_"%char /\
   Forall (fun c => is_alnum_ c = true) (String.list_ascii_of_string n) /\
   n ∉ software_names e).

Lemma sink_name_spec name_ w :
  (exists n k, sink_name name_ w = (Ret n,
     mkWorld (w_dev w) (set_sas_count k (w_eca w)) (w_loop w) (w_now w) (w_rand w) (w_caller w) (w_signals w)) /\
     name_for name_ (w_eca w) n /\
     k = (if decide (name_ = EmptyString) then u64 (sas_count (w_eca w) + 1) else sas_count (w_eca w))) \/
  (exists what, sink_name name_ w = (Throw (Error INVALID_ARGS what), w)).
Proof.
  unfold sink_name. mrun. destruct (decide (name_ = EmptyString)) as [->|Hne].
  - left. unfold on_eca. mrun. eexists _, _. split; [done|]. split; [by left|done].
  - rewrite bool_decide_false by done.
    destruct (bool_decide (String.get 0 name_ = Some "_"%char)) eqn:E1; [right; eauto|].
    destruct (forallb is_alnum_ (String.list_ascii_of_string name_)) eqn:E2; cbn [negb]; [|right; eauto].
    destruct (map_mem name_ (getSoftwareActionSinks (w_eca w))) eqn:E3; [right; eauto|].
    left. exists name_, (sas_count (w_eca w)).
    split; [by destruct w as [? []]|]. split; [|done]. right.
    apply bool_decide_eq_false in E1. rewrite forallb_forall in E2.
    split; [done|]. split; [done|]. split; [done|]. split.
    + apply Forall_forall. intros c Hc. apply E2. by apply list_elem_of_In.
    + intros Hin. apply getSoftwareActionSinks_mem in Hin. congruence.
Qed.

(** Names are unique, and those with a leading underscore were made up. *)
Record names_ok (e : ECA) : Prop := {
  names_unique : NoDup (software_names e);
  names_count : 0 <= sas_count e < 2 ^ 64 - 1;
  names_made_up : forall n, n ∈ software_names e -> String.get 0 n = Some "_"%char ->
    exists k, n = "_" +:+ pretty k /\ 1 <= k <= sas_count e
}.

Lemma omap_fill_slot (slots : list (option ActionSink)) i s :
  slots !! i = Some None ->
  omap (fun x => x) (<[i := Some s]> slots) ≡ₚ s :: omap (fun x => x) slots.
Proof.
  revert i. induction slots as [|[t|] slots IH]; intros [|i]; cbn; try done.
  - intros Hi. rewrite IH by done. apply perm_swap.
  - intros Hi. by apply IH.
Qed.

Lemma name_for_fresh name_ e n :
  names_ok e -> name_for name_ e n -> n ∉ software_names e.
Proof.
  intros [_ Hc Hm] [[-> ->]|(_ & -> & _ & _ & H)]; [|done]. intros Hin.
  destruct (Hm _ Hin eq_refl) as (k & Ek & Hk). unfold unsigned_wrap in Ek.
  rewrite Z.mod_small in Ek by lia. injection Ek as Ek.
  change (pretty (sas_count e + 1) = pretty k) in Ek. apply (inj (pretty (A:=Z))) in Ek. lia.
Qed.

Lemma run_new_sink kind path name channel num w :
  (exists d s, new_sink adr_first kind path name channel num w
      = (Ret s, mkWorld d (w_eca w) (w_loop w) (w_now w) (w_rand w) (w_caller w) (w_signals w)) /\
     as_kind s = kind /\ as_path s = path /\ as_name s = name /\ as_channel s = channel /\
     as_num s = num /\ conditions s = [] /\ as_service s = None) \/
  (exists r w', new_sink adr_first kind path name channel num w = (r, w') /\
     (forall s, r <> Ret s) /\ w_eca w' = w_eca w).
Proof.
  unfold new_sink, dev_cycle, on_dev, zoom, cycle. mrun.
  destruct (bus_cycle _ (w_dev w)) as [[rs d]|]; cbn [w_now].
  - destruct (64 <=? nth_read rs 1); [right; eexists _, _; by split_and!|].
    left. eexists _, _. split; [reflexivity|]. by split_and!.
  - right. eexists _, _. split; [reflexivity|]. by split_and!.
Qed.

(** The state with the sink [s] in slot [num] of the channel [ch]. *)
Definition sink_added (ch num : nat) (s : ActionSink) (e e' : ECA) : Prop :=
  ECAchannels e' = alter (fun slots => <[num := Some s]> slots) ch (ECAchannels e) /\
  linux_channel_index e' = linux_channel_index e.

Lemma names_ok_added name_ ch num s e e' slots :
  names_ok e -> linux_channel_index e = Z.of_nat ch -> ECAchannels e !! ch = Some slots ->
  slots !! num = Some None -> name_for name_ e (as_name s) -> sink_added ch num s e e' ->
  sas_count e' = (if decide (name_ = EmptyString) then u64 (sas_count e + 1) else sas_count e) ->
  sas_count e + 1 < 2 ^ 64 - 1 -> names_ok e'.
Proof.
  intros Hok Hidx Hch Hnum Hfor [Ech Eidx] Ecount Hsmall.
  assert (software_names e' ≡ₚ as_name s :: software_names e) as Ep.
  { unfold software_names, software_sinks. rewrite Eidx, Hidx.
    rewrite (proj2 (Z.eqb_neq _ _)) by lia. rewrite Nat2Z.id, Ech, list_lookup_alter_eq, Hch.
    cbn. by rewrite (omap_fill_slot slots num s). }
  pose proof (name_for_fresh _ _ _ Hok Hfor) as Hfresh. destruct Hok as [Hu Hc Hm].
  assert (sas_count e <= sas_count e' < 2 ^ 64 - 1) as Hle.
  { rewrite Ecount. case_decide; [|lia]. unfold unsigned_wrap. rewrite Z.mod_small by lia. lia. }
  split; [by rewrite Ep; apply NoDup_cons|lia|].
  intros n Hn Hg. rewrite Ep in Hn. apply elem_of_cons in Hn as [->|Hn].
  - destruct Hfor as [[-> En]|(_ & _ & Hnot & _)]; [|done].
    rewrite decide_True in Ecount by done. eexists. split; [exact En|].
    unfold unsigned_wrap in *. rewrite Z.mod_small in * by lia. lia.
  - destruct (Hm n Hn Hg) as (k & Ek & Hk). exists k. split; [done|lia].
Qed.

(** [ECA::NewSoftwareActionSink] puts the new sink into the first free slot of
    the Linux-facing channel, which exists and was free, changes no other slot,
    and gives it a name that no other sink has: the given one, checked, or a
    fresh one with an underscore.  The sink starts without conditions and
    belongs to the caller.  When the call does not return a path, all slots are
    as before.  Names stay unique either way. *)
Theorem NewSoftwareActionSink_correct name_ w ch slots
    (Hidx : linux_channel_index (w_eca w) = Z.of_nat ch)
    (Hch : ECAchannels (w_eca w) !! ch = Some slots)
    (Hlen : Z.of_nat (length slots) = linux_channel_subchannels (w_eca w))
    (Hok : names_ok (w_eca w)) (Hsmall : sas_count (w_eca w) + 1 < 2 ^ 64 - 1) :
  let '(r, w') := NewSoftwareActionSink adr_first name_ w in
  names_ok (w_eca w') /\
  match r with
  | Ret path =>
      let num := first_free slots in
      slots !! num = Some None /\
      exists s, sink_added ch num s (w_eca w) (w_eca w') /\
        name_for name_ (w_eca w) (as_name s) /\
        path = eca_path (w_eca w) +:+ "/software/" +:+ as_name s /\ as_path s = path /\
        as_channel s = Z.of_nat ch /\ as_num s = Z.of_nat num /\ conditions s = [] /\
        as_service s = (if has_container (w_caller w) then Some (client_id (w_caller w)) else None)
  | _ => ECAchannels (w_eca w') = ECAchannels (w_eca w)
  end.
Proof.
  unfold NewSoftwareActionSink. rewrite (run_bind_ret _ _ w (w_eca w) w) by done.
  rewrite Hidx, (proj2 (Z.eqb_neq _ _)) by lia. unfold throw_if at 1. rewrite Nat2Z.id, Hch.
  rewrite (run_bind_ret _ _ w tt w) by done. cbv zeta. cbn [from_option]. unfold Datatypes.id.
  destruct (Z.leb_spec (linux_channel_subchannels (w_eca w)) (Z.of_nat (first_free slots))) as [Hfull|Hfree].
  { by rewrite (run_bind_throw _ _ w (Error INVALID_ARGS
      "All available Linux facing ECA subchannels are already in use") w). }
  unfold throw_if. rewrite (run_bind_ret _ _ w tt w) by done.
  destruct (first_free_spec slots) as (_ & _ & Hnum). specialize (Hnum ltac:(lia)).
  destruct (sink_name_spec name_ w) as [(n & k & E & Hn & Hk)|(what & E)].
  2: { by rewrite (run_bind_throw _ _ _ _ _ E). }
  rewrite (run_bind_ret _ _ _ _ _ E). set (w1 := mkWorld _ _ _ _ _ _ _).
  assert (names_ok (w_eca w1)) as Hok1.
  { destruct Hok as [Hu Hc Hm]. cbn [w1 w_eca]. rewrite Hk. case_decide; split; try done; cbn.
    - unfold unsigned_wrap. rewrite Z.mod_small by lia. lia.
    - intros n' Hn' Hg. destruct (Hm n' Hn' Hg) as (k' & Ek & Hk'). exists k'. split; [done|].
      unfold unsigned_wrap. rewrite Z.mod_small by lia. lia. }
  unfold at_index. destruct (Z.ltb_spec (Z.of_nat ch) 0) as [|_]; [lia|]. rewrite Nat2Z.id.
  destruct (queue_addresses (w_eca w) !! ch) as [address|]; [|unfold mbind, M_bind; done].
  rewrite (run_bind_ret _ _ w1 address w1) by done.
  destruct (run_new_sink (SoftwareActionSink address) (eca_path (w_eca w) +:+ "/software/" +:+ n) n
    (Z.of_nat ch) (Z.of_nat (first_free slots)) w1)
    as [(d & s & Es & Hkind & Hpath & Hname & Hchan & Hnums & Hcond & Hserv)|(r & w2 & Es & Hr & He)].
  2: { unfold mbind at 1, M_bind at 1. rewrite Es. destruct r as [s|e|why]; [by destruct (Hr s)|..];
         rewrite He; done. }
  rewrite (run_bind_ret _ _ _ _ _ Es). set (w2 := mkWorld d _ _ _ _ _ _).
  rewrite (run_bind_ret _ _ w2 (w_caller w) w2) by done.
  set (s' := if has_container (w_caller w) then set_as_service (Some (client_id (w_caller w))) s else s).
  rewrite (run_bind_ret _ _ w2 s' w2) by (unfold served; by mrun).
  unfold on_eca. mrun. cbn [w_eca].
  assert (sink_added ch (first_free slots) s' (w_eca w)
    (write_sink (mkLoc ch (first_free slots)) (Some s') (w_eca w2))) as Hadd by by split.
  assert (as_name s' = n) as Hname' by (unfold s'; by destruct (has_container _)).
  split.
  - eapply (names_ok_added name_); [exact Hok|exact Hidx|exact Hch|exact Hnum|by rewrite Hname'|exact Hadd| |done].
    cbn. exact Hk.
  - split; [done|]. exists s'. split; [done|]. rewrite Hname'. split; [done|]. split; [done|].
    unfold s'. destruct (has_container _); cbn; by split_and!.
Qed.
End SoftwareSinks.

(** ** Examples *)
Module OpsDemo.
Import EcaCompile.Demo CondDemo.

(** A clock that advances by [ck_step] with every access. *)
Record clk := mkClk { ck_now : Z; ck_step : Z }.
Definition ck_clock (d : clk) : Z := Z.max 0 (Z.min (2 ^ 64 - 1) (ck_now d)).
Definition ck_tick (d : clk) : clk := mkClk (ck_now d + Z.abs (ck_step d)) (ck_step d).
Definition ck_read (d : clk) (op : bus_op) : list Z * clk :=
  match op with
  | BusW _ _ => ([], ck_tick d)
  | BusR a => ([if a =? ECA_TIME_HI_GET then ck_clock d / 2 ^ 32 else ck_clock d mod 2 ^ 32], ck_tick d)
  end.
#[export] Instance clk_bus : Bus clk := fun ops d =>
  Some (foldl (fun s op => let '(rs, d') := ck_read s.2 op in (s.1 ++ rs, d')) ([], d) ops).

#[export] Instance clk_clock : EcaClock clk 0.
Proof.
  refine {| clock := ck_clock |}.
  - intros d rs d' [= <- <-].
    exists (ck_clock d), (ck_clock (ck_tick d)), (ck_clock (ck_tick (ck_tick d))).
    split; [done|]. unfold ck_clock, ck_tick. cbn. lia.
  - intros d. unfold ck_clock. change (2 ^ 64) with 18446744073709551616. lia.
Defined.

(** The upper word changes between the first and the third access. *)
Lemma ReadRawCurrentTime_snapshot_witness :
  let d := mkClk (2 ^ 32 - 1) 1 in
  let '(r, d') := ReadRawCurrentTime 0 5 d in
  r = Throw EtherboneError \/
  exists t, r = Ret (Some t) /\ clock 0 d <= t <= clock 0 d'.
Proof.
  apply (ReadRawCurrentTime_snapshot 0 5 (mkClk (2 ^ 32 - 1) 1)); [lia|].
  vm_compute. reflexivity.
Defined.
Example read_time_demo :
  (ReadRawCurrentTime 0 5 (mkClk (2 ^ 32 - 1) 1)).1 = Ret (Some (2 ^ 32 + 3)).
Proof. vm_compute. reflexivity. Qed.

(** A device with a queue at 0x2000 and memory elsewhere. *)
Record qdev := mkQdev { qd_queue : list Action; qd_mem : Z -> Z }.
Definition no_action : Action := mkAction 0 0 0 0 0 0 0 0.
Definition qdev_step (op : bus_op) (d : qdev) : list Z * qdev :=
  match op with
  | BusR a => ([default (qd_mem d a) (queue_register (default no_action (head (qd_queue d))) (a - 0x2000))], d)
  | BusW a v =>
      ([], mkQdev (if a - 0x2000 =? 0x04 then tail (qd_queue d) else qd_queue d)
             (fun x => if x =? a then v else qd_mem d x))
  end.
Fixpoint qdev_run (ops : list bus_op) (d : qdev) : list Z * qdev :=
  match ops with
  | [] => ([], d)
  | op :: ops' => let '(vs, d1) := qdev_step op d in let '(rs, d2) := qdev_run ops' d1 in (vs ++ rs, d2)
  end.
#[export] Instance qdev_bus : Bus qdev := fun ops d => Some (qdev_run ops d).

#[export, refine] Instance qdev_queue : ActionQueue qdev 0x2000 := {| waiting := qd_queue; idle := no_action |}.
Proof.
  - reflexivity.
  - repeat split; cbn; lia.
  - intros ops d rs d' [= E]. exists []. split; [constructor|]. rewrite app_nil_r. revert d rs E.
    induction ops as [|[a v|a] ops IH]; intros d rs E; cbn [queue_run qdev_run qdev_step] in *.
    + injection E as <- <-. by split.
    + destruct (qdev_run ops _) as [rs' d2] eqn:E2. injection E as <- <-. apply IH in E2. exact E2.
    + destruct (qdev_run ops d) as [rs' d2] eqn:E2. injection E as <- <-. apply IH in E2.
      destruct (queue_run _ _ ops (qd_queue d)) as [vs q]. destruct E2 as [-> H2]. split; [done|].
      constructor; [|exact H2]. by destruct (queue_register _ _).
Defined.

(** Two actions wait: one for condition 5, one for a condition that is gone. *)
Definition first_action : Action := mkAction 0x11 0 77 0x100000003 5 1 1000 1008.
Definition second_action : Action := mkAction 0x10 0 78 0 6 2 1001 1009.
Definition w_queue : World qdev :=
  mkWorld (mkQdev [first_action; second_action] (fun _ => 1)) (w_eca w0) (w_loop w0) (w_now w0) (w_rand w0) (w_caller w0) [].

Lemma actions_ok : Forall action_ok [first_action; second_action].
Proof. repeat constructor; vm_compute; congruence. Qed.

Lemma software_action_dispatched_witness :
  exists count,
    let w' := (receiveMSI 0x100000 1 loc ECA_VALID w_queue).2 in
    qd_queue (w_dev w') = [second_action] /\
    w_signals w' = [SigCount loc ECA_VALID count; SigAction loc 5 77 0x100000003 1000 1008 1].
Proof.
  pose proof (software_action_dispatched 0x100000 1 loc w_queue the_sink 0x2000 eq_refl eq_refl
    actions_ok ltac:(lia)) as H.
  assert ((receiveMSI 0x100000 1 loc ECA_VALID w_queue).1 = Ret tt /\
    qd_queue (w_dev (receiveMSI 0x100000 1 loc ECA_VALID w_queue).2) = [second_action]) as [E Eq]
    by (split; vm_compute; reflexivity).
  revert H E Eq. generalize (receiveMSI 0x100000 1 loc ECA_VALID w_queue). intros [r w'] H E Eq.
  cbn [fst snd] in E, Eq |- *. rewrite E in H. destruct H as [(arrived & count & _ & Hw & Hsig) _].
  exists count. split; [exact Eq|]. rewrite Hsig. reflexivity.
Defined.
Example second_action_dropped :
  let w' := (receiveMSI 0x100000 1 loc ECA_VALID (receiveMSI 0x100000 1 loc ECA_VALID w_queue).2).2 in
  qd_queue (w_dev w') = [] /\ length (w_signals w') = 3%nat.
Proof. vm_compute. done. Qed.

Lemma w0_names : names_ok (w_eca w0).
Proof.
  split.
  - apply (bool_decide_unpack _). vm_compute. exact I.
  - split; vm_compute; congruence.
  - intros n Hn. change (software_names (w_eca w0)) with ["sink"%string] in Hn.
    apply list_elem_of_singleton in Hn as ->. discriminate.
Qed.

Lemma NewSoftwareActionSink_correct_witness :
  let '(r, w') := NewSoftwareActionSink eca_ram_base "" w0 in
  names_ok (w_eca w') /\
  match r with
  | Ret path =>
      let num := first_free [Some (sink 1 0 demo_conditions); None] in
      [Some (sink 1 0 demo_conditions); None] !! num = Some None /\
      exists s, sink_added 1 num s (w_eca w0) (w_eca w') /\
        name_for "" (w_eca w0) (as_name s) /\
        path = eca_path (w_eca w0) +:+ "/software/" +:+ as_name s /\ as_path s = path /\
        as_channel s = 1 /\ as_num s = Z.of_nat num /\ conditions s = [] /\
        as_service s = (if has_container (w_caller w0) then Some (client_id (w_caller w0)) else None)
  | _ => ECAchannels (w_eca w') = ECAchannels (w_eca w0)
  end.
Proof.
  apply (NewSoftwareActionSink_correct eca_ram_base "" w0 1 [Some (sink 1 0 demo_conditions); None]);
    [reflexivity|reflexivity|reflexivity|apply w0_names|vm_compute; reflexivity].
Defined.
Example new_sink_demo :
  (NewSoftwareActionSink eca_ram_base "" w0).1 = Ret "/tr0/software/_1"%string.
Proof. vm_compute. reflexivity. Qed.
End OpsDemo.
