(* ===== verification/LoopCorrect.v ===== *)
(** * The event loop is correct

    Timeouts fire and are rescheduled once per elapsed interval; an iteration,
    nested ones included, never moves a source while the vector is traversed,
    and the outermost one leaves the loop without null or waiting sources. *)
From S2P Require Import Prelude Loop.
Local Open Scope Z_scope.

(** ** Rescheduling a timeout *)
Lemma advance_ok fuel interval t dt :
  0 < interval -> (t - dt) / (interval * ms_ns) + 1 < Z.of_nat fuel -> (0 < fuel)%nat ->
  exists k, advance fuel interval t dt = Some (dt + k * (interval * ms_ns)) /\
    1 <= k /\ t < dt + k * (interval * ms_ns) /\
    (k = 1 \/ dt + (k - 1) * (interval * ms_ns) <= t).
Proof.
  intros Hi. assert (0 < interval * ms_ns) as Hp by (unfold ms_ns; lia).
  revert dt. induction fuel as [|fuel IH]; intros dt Hf H0; [lia|]. cbn [advance]. cbv zeta.
  set (p := interval * ms_ns) in *.
  destruct (Z.leb_spec (dt + p) t) as [Hle|Hgt].
  - assert ((t - (dt + p)) / p = (t - dt) / p - 1) as E.
    { replace (t - (dt + p)) with ((t - dt) + (-1) * p) by lia. rewrite Z.div_add; lia. }
    assert (1 <= (t - dt) / p) by (apply Z.div_le_lower_bound; lia).
    destruct (IH (dt + p)) as (k & Ek & Hk & Ht & Hlast); [lia..|].
    exists (k + 1). rewrite Ek. split; [f_equal; lia|]. split; [lia|]. split; [lia|].
    right. destruct Hlast; [subst k|]; lia.
  - exists 1. split; [f_equal; lia|]. split; [lia|]. split; [lia|]. by left.
Qed.

(** The rescheduling loop of [TimeoutSource::dispatch] ends, whatever the
    delay, and the new dispatch time is the first one in the future on the
    original grid of intervals (at least one interval later). *)
Theorem timeout_rescheduled (i offset start t dt interval : Z)
    (Hnew : new_timeout start i offset = TimeoutSource interval dt) :
  exists k dt',
    advance (advance_fuel interval t dt) interval t dt = Some dt' /\
    dt' = dt + k * (interval * ms_ns) /\ 1 <= k /\ t < dt' /\
    (dt <= t -> dt' <= t + interval * ms_ns).
Proof.
  unfold new_timeout in Hnew. injection Hnew as Hint _.
  assert (0 < interval) as Hpos by (destruct (Z.leb_spec i 0); lia).
  assert (0 < interval * ms_ns) as Hp by (unfold ms_ns; lia).
  destruct (advance_ok (advance_fuel interval t dt) interval t dt) as (k & E & Hk & Ht & Hlast).
  - done.
  - unfold advance_fuel. lia.
  - unfold advance_fuel. lia.
  - exists k, (dt + k * (interval * ms_ns)). split; [done|]. repeat split; try done.
    intros Hdt. destruct Hlast as [->|Hl]; lia.
Qed.

Lemma timeout_rescheduled_witness :
  exists k dt', advance (advance_fuel 10 25000000 0) 10 25000000 0 = Some dt' /\
    dt' = 0 + k * (10 * ms_ns) /\ 1 <= k /\ 25000000 < dt' /\ (0 <= 25000000 -> dt' <= 25000000 + 10 * ms_ns).
Proof. apply (timeout_rescheduled 10 0 0 25000000 0 10). reflexivity. Defined.

(** ** Source identifiers *)

Lemma land_pow2_lor_low c x :
  0 <= c < 2 ^ 32 -> Z.lor c (Z.shiftl x 32) mod 2 ^ 32 = c.
Proof.
  intros Hc. rewrite <- Z.land_ones by lia. rewrite Z.land_lor_distr_l.
  rewrite (Z.land_ones (Z.shiftl _ _)), Z.shiftl_mul_pow2, Z.mod_mul, Z.lor_0_r by lia.
  rewrite Z.land_ones by lia. by apply Z.mod_small.
Qed.

Lemma new_source_id_counter c rnd :
  0 <= c < 2 ^ 32 - 1 -> 0 <= rnd < 2 ^ 31 ->
  (new_source_id c rnd).1 = c + 1 /\ (new_source_id c rnd).2 mod 2 ^ 32 = c + 1.
Proof.
  intros Hc Hr. unfold new_source_id. rewrite (proj2 (Z.eqb_neq c (-1))) by lia. cbn [fst snd].
  rewrite (signed_wrap_small 64 (c + 1)) by (change (2 ^ (64 - 1)) with (2 ^ 63); lia).
  split; [done|].
  rewrite Z.rem_small by lia. rewrite signed_wrap_small; [apply land_pow2_lor_low; lia|lia|].
  rewrite Z.shiftl_mul_pow2 by lia. change (2 ^ (64 - 1)) with (2 ^ 31 * 2 ^ 32). lia.
Qed.

(** ** What slots may do to a loop that is iterating

    Sources are connected and removed, other iterations run; the vector of
    sources keeps its length, and an entry is updated in place or nulled. *)
Section Discipline.
Context {CB : Type}.
Implicit Types (l : Loop CB).

Record loop_evolves l l' : Prop := {
  ev_depth : running_depth l' = running_depth l;
  ev_id : loop_id l' = loop_id l;
  ev_length : length (sources l') = length (sources l);
  ev_same : forall i s', sources l' !! i = Some (Some s') ->
    exists s, sources l !! i = Some (Some s) /\ src_id s = src_id s'
}.

#[export] Instance loop_evolves_preorder : PreOrder loop_evolves.
Proof.
  split.
  - intros l. split; eauto.
  - intros l1 l2 l3 [D1 I1 L1 S1] [D2 I2 L2 S2]. split; [congruence..|].
    intros i s3 H3. destruct (S2 _ _ H3) as (s2 & H2 & E2). destruct (S1 _ _ H2) as (s1 & H1 & E1).
    exists s1. split; [done|congruence].
Qed.

Lemma connect_evolves kind slot rnd l :
  running_depth l <> 0 -> loop_evolves l (connect kind slot rnd l).2.
Proof.
  intros Hd. unfold connect. destruct (new_source_id _ _). rewrite (proj2 (Z.eqb_neq _ _) Hd).
  split; cbn; eauto.
Qed.

Lemma reset_first_length sid (ss : list (option (Source CB))) :
  length (reset_first sid ss) = length ss.
Proof.
  induction ss as [|[s|] ss IH]; cbn; [done| |by rewrite IH].
  destruct (_ =? _); cbn; by rewrite ?IH.
Qed.

Lemma reset_first_lookup sid (ss : list (option (Source CB))) i s :
  reset_first sid ss !! i = Some (Some s) -> ss !! i = Some (Some s).
Proof.
  revert i. induction ss as [|[s0|] ss IH]; intros [|i]; cbn; try done.
  - by destruct (_ =? _).
  - destruct (_ =? _); cbn; [done|apply IH].
  - apply IH.
Qed.

Lemma remove_evolves h l : loop_evolves l (remove h l).
Proof.
  unfold remove. destruct (_ =? _); [|reflexivity].
  split; cbn; [done|done|apply reset_first_length|]. intros i s' Hs. exists s'.
  split; [|done]. by eapply reset_first_lookup.
Qed.

Lemma insert_evolves i os l :
  (forall s', os = Some s' -> exists s, sources l !! i = Some (Some s) /\ src_id s = src_id s') ->
  loop_evolves l (set_sources (<[i := os]> (sources l)) l).
Proof.
  intros Hos. split; cbn; [done|done|apply length_insert|]. intros j s' Hj.
  apply list_lookup_insert_Some in Hj as [(<- & -> & _)|[_ Hj]]; eauto.
Qed.

Lemma copy_back_evolves rs l : loop_evolves l (set_sources (copy_back rs (sources l)) l).
Proof.
  assert (forall rs ss, length (copy_back rs ss) = length (ss : list (option (Source CB)))
    /\ forall i s', copy_back rs ss !! i = Some (Some s') ->
         exists s, ss !! i = Some (Some s) /\ src_id s = src_id s') as H.
  { clear. intros rs ss. revert rs.
    induction ss as [|[[sid [iv dt|fd ev r0] slot]|] ss IH]; intros rs; cbn;
      [split; [done|eauto]|..].
    - destruct (IH rs) as [Hl Hs]. split; [by rewrite Hl|]. intros [|i] s'; cbn; eauto.
    - destruct rs as [|r rs]; [split; [done|eauto]|]. destruct (IH rs) as [Hl Hs]. cbn.
      split; [by rewrite Hl|]. intros [|i] s'; cbn; [|eauto]. intros [= <-]. eauto.
    - destruct (IH rs) as [Hl Hs]. split; [by rewrite Hl|]. intros [|i] s'; cbn; eauto. }
  destruct (H rs (sources l)). by split.
Qed.

(** ** A removed source is gone *)
Definition has_source (sid : Z) (ss : list (option (Source CB))) : Prop :=
  exists s, Some s ∈ ss /\ src_id s = sid.

Definition ids (l : Loop CB) : list Z :=
  (fun s => src_id s) <$> omap id (sources l ++ added_sources l).

Lemma reset_first_gone sid (ss : list (option (Source CB))) :
  NoDup ((fun s => src_id s) <$> omap id ss) -> ~ has_source sid (reset_first sid ss).
Proof.
  intros Hnd (s & Hs & E). induction ss as [|[s0|] ss IH]; cbn in *.
  - by apply not_elem_of_nil in Hs.
  - apply NoDup_cons in Hnd as [Hni Hnd]. destruct (Z.eqb_spec (src_id s0) sid).
    + apply elem_of_cons in Hs as [?|Hs]; [done|]. apply Hni.
      apply list_elem_of_fmap. exists s. split; [congruence|]. apply list_elem_of_omap. by exists (Some s).
    + apply elem_of_cons in Hs as [[= ->]|Hs]; [done|]. auto.
  - apply elem_of_cons in Hs as [?|Hs]; [done|]. auto.
Qed.

Lemma reset_first_sublist sid (ss : list (option (Source CB))) :
  sublist (omap id (reset_first sid ss)) (omap id ss).
Proof.
  induction ss as [|[s0|] ss IH]; cbn; [done| |done].
  destruct (_ =? _); cbn; by constructor.
Qed.

(** The entry of the removed source becomes null, other entries stay. *)
Lemma reset_first_entry (ss : list (option (Source CB))) i s :
  NoDup ((fun s => src_id s) <$> omap id ss) ->
  ss !! i = Some (Some s) -> reset_first (src_id s) ss !! i = Some None.
Proof.
  revert i. induction ss as [|[s0|] ss IH]; intros [|i]; cbn; try done.
  - intros _ [= ->]. by rewrite Z.eqb_refl.
  - intros [Hni Hnd]%NoDup_cons Hi. destruct (Z.eqb_spec (src_id s0) (src_id s)) as [E|].
    + exfalso. apply Hni. rewrite E. apply list_elem_of_fmap. exists s. split; [done|].
      apply list_elem_of_omap. exists (Some s). split; [|done]. by eapply list_elem_of_lookup_2.
    + by apply IH.
  - intros Hnd Hi. by apply IH.
Qed.

Lemma reset_first_other_entry sid (ss : list (option (Source CB))) i s :
  src_id s <> sid -> ss !! i = Some (Some s) -> reset_first sid ss !! i = Some (Some s).
Proof.
  intros Hne. revert i. induction ss as [|[s0|] ss IH]; intros [|i]; cbn; try done.
  - intros [= ->]. by rewrite (proj2 (Z.eqb_neq _ _)).
  - destruct (src_id s0 =? sid); [done|]. apply IH.
  - apply IH.
Qed.

Lemma remove_entry i s l :
  NoDup (ids l) -> sources l !! i = Some (Some s) ->
  sources (remove (mkHandle (src_id s) (loop_id l)) l) !! i = Some None.
Proof.
  unfold ids, remove. cbn. rewrite Z.eqb_refl, omap_app, fmap_app. cbn.
  intros (H1 & _ & _)%NoDup_app. by apply reset_first_entry.
Qed.

Lemma remove_other_entry i s h l :
  src_id s <> source_id h -> sources l !! i = Some (Some s) ->
  sources (remove h l) !! i = Some (Some s).
Proof. unfold remove. destruct (_ =? _); [|done]. apply reset_first_other_entry. Qed.

Lemma remove_ids_NoDup h l : NoDup (ids l) -> NoDup (ids (remove h l)).
Proof.
  unfold ids, remove. destruct (_ =? _); [|done]. cbn. intros Hnd. eapply sublist_NoDup; [exact Hnd|].
  apply fmap_sublist. rewrite !omap_app. apply sublist_app; apply reset_first_sublist.
Qed.

Lemma reset_first_other sid sid' (ss : list (option (Source CB))) :
  sid' <> sid -> has_source sid' ss <-> has_source sid' (reset_first sid ss).
Proof.
  intros Hne. unfold has_source. induction ss as [|[s0|] ss IH]; cbn; [done|..].
  - destruct (Z.eqb_spec (src_id s0) sid); split; intros (s & Hs & E).
    + apply elem_of_cons in Hs as [[= ->]|Hs]; [congruence|]. exists s. split; [by right|done].
    + apply elem_of_cons in Hs as [?|Hs]; [done|]. exists s. split; [by right|done].
    + apply elem_of_cons in Hs as [[= ->]|Hs]; [exists s0; split; [by left|done]|].
      destruct (proj1 IH) as (s' & Hs' & E'); [eauto|]. exists s'. split; [by right|done].
    + apply elem_of_cons in Hs as [[= ->]|Hs]; [exists s0; split; [by left|done]|].
      destruct (proj2 IH) as (s' & Hs' & E'); [eauto|]. exists s'. split; [by right|done].
  - split; intros (s & Hs & E); apply elem_of_cons in Hs as [?|Hs]; try done.
    + destruct (proj1 IH) as (s' & Hs' & E'); [eauto|]. exists s'. split; [by right|done].
    + destruct (proj2 IH) as (s' & Hs' & E'); [eauto|]. exists s'. split; [by right|done].
Qed.
End Discipline.

(** ** Iterations *)
Section Iteration.
Context {W CB : Type}.
Context (now : W -> Z) (poll : list (Z * Z) -> Z -> W -> option (list Z) * W).
Context (sleep_for : Z -> W -> W).
Context (run_slot : CB -> Z -> Z -> M (LoopWorld W CB) bool).
Implicit Types (st : LoopWorld W CB).

(** [m], run on [st], changes the loop only as slots may. *)
Definition evolves_from {A} st (m : M (LoopWorld W CB) A) : Prop :=
  forall r st', m st = (r, st') -> loop_evolves (the_loop st) (the_loop st').

(** The interface to the program: every slot keeps to it while an iteration
    is running, whether it returns or throws. *)
Hypothesis slots_ok : forall cb fd rev st,
  running_depth (the_loop st) <> 0 -> evolves_from st (run_slot cb fd rev).

Lemma evolves_ret {A} (a : A) st : evolves_from st (mret a).
Proof. intros r st' [= _ <-]. reflexivity. Qed.

Lemma evolves_bind {A B} (m : M _ A) (k : A -> M _ B) st :
  evolves_from st m ->
  (forall a st1, m st = (Ret a, st1) -> evolves_from st1 (k a)) ->
  evolves_from st (m ≫= k).
Proof.
  intros Hm Hk r st'. unfold mbind, M_bind. destruct (m st) as [[a|e|w] st1] eqn:E.
  - intros Hr. etrans; [by eapply Hm|]. by eapply (Hk a st1).
  - intros [= _ <-]. by eapply Hm.
  - intros [= _ <-]. by eapply Hm.
Qed.

Lemma evolves_on_world f st : evolves_from st (on_world f).
Proof. intros r st' [= _ <-]. reflexivity. Qed.

Lemma evolves_write i os st :
  (forall s', os = Some s' ->
    exists s, sources (the_loop st) !! i = Some (Some s) /\ src_id s = src_id s') ->
  evolves_from st (write_source i os).
Proof. intros Hos r st' [= _ <-]. by apply insert_evolves. Qed.

Lemma evolves_gets {A} (f : LoopWorld W CB -> A) st : evolves_from st (gets f).
Proof. intros r st' [= _ <-]. reflexivity. Qed.

Lemma evolves_dispatch i s st :
  running_depth (the_loop st) <> 0 -> sources (the_loop st) !! i = Some (Some s) ->
  evolves_from st (dispatch now run_slot i s).
Proof.
  intros Hd Hs. unfold dispatch. destruct (src_kind s) as [iv dt|fd ev rev].
  - apply evolves_bind; [apply evolves_gets|]. intros t st1 [= <- <-].
    destruct (advance _ _ _ _) as [dt'|]; [|intros r st' [= _ <-]; reflexivity].
    apply evolves_bind.
    + apply evolves_write. intros s' [= <-]. eauto.
    + intros [] st1 [= <-]. apply slots_ok. done.
  - apply evolves_bind; [by apply slots_ok|]. intros result st1 _.
    apply evolves_bind; [apply evolves_gets|]. intros ss st2 [= <- <-].
    destruct (sources (the_loop st1) !! i) as [[[sid [|fd' ev' rev'] slot']|]|] eqn:E;
      try (intros r st' [= _ <-]; reflexivity).
    apply evolves_bind; [apply evolves_write; intros s' [= <-]; eauto|].
    intros [] st2 _. apply evolves_ret.
Qed.

Lemma evolves_entry i st :
  running_depth (the_loop st) <> 0 -> evolves_from st (dispatch_entry now run_slot i).
Proof.
  intros Hd. apply evolves_bind; [intros r st' [= _ <-]; reflexivity|].
  intros st0 st1 [= <- <-].
  destruct (sources (the_loop st) !! i) as [[s|]|] eqn:E; try apply evolves_ret.
  destruct (check _ _); [|apply evolves_ret].
  apply evolves_bind; [by apply evolves_dispatch|].
  intros [] st1 _; [apply evolves_ret|]. by apply evolves_write.
Qed.

Lemma evolves_for_each l st :
  running_depth (the_loop st) <> 0 ->
  evolves_from st (for_each (dispatch_entry now run_slot) l).
Proof.
  revert st. induction l as [|i l IH]; intros st Hd; cbn [for_each]; [apply evolves_ret|].
  apply evolves_bind; [by apply evolves_entry|]. intros [] st1 E. apply IH.
  by rewrite (ev_depth _ _ (evolves_entry i st Hd _ _ E)).
Qed.

Lemma evolves_wait b st : evolves_from st (wait_phase now poll sleep_for b).
Proof.
  apply evolves_bind; [intros r st' [= _ <-]; reflexivity|]. intros st0 st1 [= <- <-].
  cbv zeta. generalize (if b then earliest (now (the_world st)) (sources (the_loop st)) else Some 0).
  intros timeout. destruct (pollfds (sources (the_loop st))) as [|pfd pfds].
  - destruct timeout as [t|]; [|apply evolves_ret].
    destruct (0 <? t); [apply evolves_on_world|apply evolves_ret].
  - destruct (poll (pfd :: pfds) (default (-1) timeout) (the_world st)) as [[rs|] w]; (apply evolves_bind; [apply evolves_on_world|]).
    + intros [] st1 [= <-]. intros r st' [= _ <-]. apply copy_back_evolves.
    + intros [] st1 _. apply evolves_ret.
Qed.

(** The part of an iteration between the two updates of [running_depth]. *)
Definition iteration_body (b : bool) : M (LoopWorld W CB) unit :=
  wait_phase now poll sleep_for b;;
  n ← gets (fun st => length (sources (the_loop st)));
  for_each (dispatch_entry now run_slot) (seq 0 n).

Lemma evolves_body b st :
  running_depth (the_loop st) <> 0 -> evolves_from st (iteration_body b).
Proof.
  intros Hd. apply evolves_bind; [apply evolves_wait|]. intros [] st1 E.
  pose proof (ev_depth _ _ (evolves_wait b st _ _ E)) as Hd1.
  apply evolves_bind; [apply evolves_gets|]. intros n st2 [= <- <-].
  apply evolves_for_each. congruence.
Qed.

Lemma iteration_eq b st :
  let st0 := mkLW (set_depth (fun d => d + 1) (the_loop st)) (the_world st) in
  iteration now poll sleep_for run_slot b st =
  match iteration_body b st0 with
  | (Ret _, st1) =>
      let l := the_loop st1 in
      let l1 := if running_depth l =? 1 then cleanup l else l in
      let l2 := set_depth (fun d => d - 1) l1 in
      (Ret (negb (bool_decide (sources l2 = []))), mkLW l2 (the_world st1))
  | (Throw e, st1) => (Throw e, st1)
  | (Crash w, st1) => (Crash w, st1)
  end.
Proof.
  intros st0. unfold iteration, iteration_body, mbind, M_bind, on_loop, modify, gets.
  fold st0. destruct (wait_phase now poll sleep_for b st0) as [[[]|e|w] st1]; done.
Qed.

(** A nested iteration, started from a slot, leaves the traversed vector in
    place: same length, every remaining source at its index, [running_depth]
    restored; sources connected meanwhile stay in the waiting vector. *)
Theorem nested_iteration_in_place b st r st'
    (Hd : 0 < running_depth (the_loop st))
    (Hrun : iteration now poll sleep_for run_slot b st = (Ret r, st')) :
  loop_evolves (the_loop st) (the_loop st').
Proof.
  rewrite iteration_eq in Hrun. cbv zeta in Hrun.
  destruct (iteration_body b _) as [[[]|e|w] st1] eqn:E; [|done|done].
  apply evolves_body in E; [|cbn; lia]. cbn in E. destruct E as [Ed Ei El Es]. cbn in *.
  rewrite (proj2 (Z.eqb_neq _ _)) in Hrun by lia. injection Hrun as _ <-. cbn.
  split; cbn; [lia|done..].
Qed.

(** After an outermost iteration no null source and no waiting source is
    left, the depth is 0 again, and the result tells whether any source is
    left; every source in it was there before or was connected meanwhile. *)
Theorem outer_iteration_clean b st r st'
    (Hd : running_depth (the_loop st) = 0)
    (Hrun : iteration now poll sleep_for run_slot b st = (Ret r, st')) :
  running_depth (the_loop st') = 0 /\ added_sources (the_loop st') = [] /\
  Forall is_Some (sources (the_loop st')) /\
  r = negb (bool_decide (sources (the_loop st') = [])).
Proof.
  rewrite iteration_eq in Hrun. cbv zeta in Hrun.
  destruct (iteration_body b _) as [[[]|e|w] st1] eqn:E; [|done|done].
  apply evolves_body in E; [|cbn; lia]. cbn in E. destruct E as [Ed Ei El Es]. cbn in *.
  rewrite (proj2 (Z.eqb_eq _ _)) in Hrun by lia. injection Hrun as <- <-. cbn.
  split; [lia|]. split; [done|]. split; [|done].
  apply Forall_app. split; apply Forall_forall; intros x [Hx _]%list_elem_of_filter; done.
Qed.

(** An exception that leaves a slot leaves [running_depth] incremented:
    the loop believes from then on that an iteration is running, ... *)
Theorem exception_leaks_depth b st e st'
    (Hd : 0 <= running_depth (the_loop st))
    (Hrun : iteration now poll sleep_for run_slot b st = (Throw e, st')) :
  running_depth (the_loop st') = running_depth (the_loop st) + 1.
Proof.
  rewrite iteration_eq in Hrun. cbv zeta in Hrun.
  destruct (iteration_body b _) as [[[]|e'|w] st1] eqn:E; [done| |done].
  apply evolves_body in E; [|cbn; lia]. injection Hrun as -> ->. by rewrite (ev_depth _ _ E).
Qed.
End Iteration.

(** ** Removal *)

(** A removed source is neither in the vector of the loop nor among the
      waiting ones (so no later iteration dispatches it), and no other source is
      touched; handles of other loops, the null handle included, do nothing. *)
Theorem remove_gone {CB} (l : Loop CB) (h : SourceHandle)
    (Hids : NoDup (ids l)) (Hloop : h_loop_id h = loop_id l) :
  ~ has_source (source_id h) (sources (remove h l)) /\
  ~ has_source (source_id h) (added_sources (remove h l)) /\
  forall sid, sid <> source_id h ->
    (has_source sid (sources l) <-> has_source sid (sources (remove h l))) /\
    (has_source sid (added_sources l) <-> has_source sid (added_sources (remove h l))).
Proof.
  unfold remove. rewrite Hloop, Z.eqb_refl. cbn. unfold ids in Hids.
  rewrite omap_app, fmap_app in Hids. apply NoDup_app in Hids as (H1 & _ & H2).
  split; [by apply reset_first_gone|]. split; [by apply reset_first_gone|].
  intros sid Hne. split; by apply reset_first_other.
Qed.

(** ** Identifiers stay unique *)
Section Ids.
Context {CB : Type}.
Implicit Types (l : Loop CB).

Definition low (x : Z) : Z := x mod 2 ^ 32.

Definition ids_wf l : Prop :=
  NoDup (low <$> ids l) /\ Forall (fun x => 1 <= low x <= id_counter l) (ids l) /\
  0 <= id_counter l.

Lemma connect_ids kind slot rnd l :
  ids (connect kind slot rnd l).2 ≡ₚ (new_source_id (id_counter l) rnd).2 :: ids l /\
  id_counter (connect kind slot rnd l).2 = (new_source_id (id_counter l) rnd).1 /\
  source_id (connect kind slot rnd l).1 = (new_source_id (id_counter l) rnd).2.
Proof.
  unfold connect. destruct (new_source_id _ _) as [c sid]. cbn.
  unfold ids. destruct (running_depth l =? 0); cbn; (split; [|done]); rewrite ?omap_app, ?fmap_app; cbn.
  - rewrite <- app_assoc. cbn. by rewrite <- Permutation_middle.
  - rewrite app_assoc. by rewrite <- Permutation_cons_append.
Qed.

Lemma connect_wf kind slot rnd l
    (Hwf : ids_wf l) (Hc : (id_counter l < 2 ^ 32 - 1)%Z) (Hr : 0 <= rnd < 2 ^ 31) :
  ~ (source_id (connect kind slot rnd l).1 ∈ ids l) /\
  ids_wf (connect kind slot rnd l).2.
Proof.
  destruct Hwf as (Hnd & Hall & H0).
  destruct (new_source_id_counter (id_counter l) rnd ltac:(lia) Hr) as [E1 E2].
  destruct (connect_ids kind slot rnd l) as (Hp & Ec & Es). rewrite Es.
  assert (low (new_source_id (id_counter l) rnd).2 ∉ low <$> ids l) as Hfresh.
  { intros (x & E & Hx)%list_elem_of_fmap. rewrite Forall_forall in Hall.
    specialize (Hall _ Hx). rewrite <- E in Hall. unfold low in Hall. lia. }
  split; [intros Hin; apply Hfresh; apply list_elem_of_fmap; eauto|].
  unfold ids_wf. rewrite Hp, Ec, E1, fmap_cons, NoDup_cons, Forall_cons. split; [done|]. split; [|lia].
  split; [unfold low in *; lia|]. eapply Forall_impl; [exact Hall|]. intros x Hx; cbn beta in *; lia.
Qed.

(** As long as fewer than 2^32 - 1 sources were created, [connect] hands out
    an identifier that no connected or waiting source has, so the sources of a
    loop have pairwise different identifiers. *)
Theorem connect_fresh kind slot rnd l
    (Hwf : ids_wf l) (Hc : (id_counter l < 2 ^ 32 - 1)%Z) (Hr : 0 <= rnd < 2 ^ 31) :
  ~ (source_id (connect kind slot rnd l).1 ∈ ids l) /\
  ids_wf (connect kind slot rnd l).2.
Proof. by apply connect_wf. Qed.
End Ids.

(** ** What goes wrong *)

(** [remove_poll] erases the pointers to keep instead of the one to remove:
      removing the pointer that was added last leaves just that pointer. *)
Theorem remove_poll_keeps_the_removed (pfds : list Z) (p : Z) (Hp : p ∉ pfds) :
  remove_poll (add_poll pfds p) p = [p].
Proof.
  unfold remove_poll, add_poll, std_remove.
  rewrite filter_app, (filter_all _ pfds) by (intros x Hx E; by subst).
  rewrite filter_cons_False by (intros H; by apply H).
  cbn. by rewrite app_nil_r, !drop_app_length.
Qed.

Lemma remove_poll_keeps_the_removed_witness : remove_poll (add_poll [3; 4] 5) 5 = [5].
Proof. apply (remove_poll_keeps_the_removed [3; 4] 5). apply (bool_decide_unpack (5 ∉ [3; 4])). vm_compute. exact I. Defined.

(** An I/O slot that removes its own source (as [handle_client_request] does
    through [client_hung_up] and [~Client]) makes [IoSource::dispatch] use the
    freed source. *)
Theorem io_slot_removes_itself {W CB}
    (run_slot : CB -> Z -> Z -> M (LoopWorld W CB) bool) i s fd rev st r st'
    (Hslot : run_slot (src_slot s) fd rev st = (Ret r, st'))
    (Hgone : sources (the_loop st') !! i = Some None) :
  (dispatch_io run_slot i s fd rev st).1 = Crash "IoSource::dispatch: use after free".
Proof.
  unfold dispatch_io, mbind, M_bind. rewrite Hslot. unfold gets. cbn. by rewrite Hgone.
Qed.

(** ** A small program on the loop *)
Module Demo.
Inductive slot := Keep | Stop | Grow | Raise | RemoveSelf.

Definition demo_now (w : Z) : Z := w.
Definition demo_poll (pfds : list (Z * Z)) (t w : Z) : option (list Z) * Z :=
  (Some ((fun _ => POLLIN) <$> pfds), w + Z.max 0 t * ms_ns).
Definition demo_sleep (t w : Z) : Z := w + t * ms_ns.

Definition first_handle (l : Loop slot) : SourceHandle :=
  match sources l with
  | Some s :: _ => mkHandle (src_id s) (loop_id l)
  | _ => null_handle
  end.

Definition run_slot (s : slot) (fd rev : Z) : M (LoopWorld Z slot) bool :=
  match s with
  | Keep => mret true
  | Stop => mret false
  | Grow => on_loop (fun l => (connect (new_timeout 0 5 5) Keep 0 l).2);; mret true
  | Raise => throw OtherException
  | RemoveSelf => on_loop (fun l => remove (first_handle l) l);; mret true
  end.

Lemma run_slot_ok s fd rev st :
  running_depth (the_loop st) <> 0 -> evolves_from st (run_slot s fd rev).
Proof.
  intros Hd r st'. destruct s; cbn; intros [= _ <-]; cbn; try reflexivity.
  - by apply connect_evolves.
  - apply remove_evolves.
Qed.

Definition loop0 : Loop slot := mkLoop [] [] false 0 1 0.

(** Two sources, one of them grows the loop. *)
Definition demo_state (a b : slot) : LoopWorld Z slot :=
  mkLW (connect (new_timeout 0 10 0) a 0 (connect (IoSource 7 POLLIN 0) b 0 loop0).2).2 0.

Definition demo_iteration := iteration demo_now demo_poll demo_sleep run_slot true.

Lemma nested_iteration_in_place_witness :
  let st := mkLW (set_depth (fun d => d + 1) (the_loop (demo_state Stop Grow))) 0 in
  loop_evolves (the_loop st) (the_loop (demo_iteration st).2).
Proof.
  intros st.
  apply (nested_iteration_in_place demo_now demo_poll demo_sleep run_slot run_slot_ok true
           st true); [reflexivity|]. vm_compute. reflexivity.
Defined.

Lemma outer_iteration_clean_witness :
  let st := demo_state Stop Grow in let st' := (demo_iteration st).2 in
  running_depth (the_loop st') = 0 /\ added_sources (the_loop st') = [] /\
  Forall is_Some (sources (the_loop st')) /\
  true = negb (bool_decide (sources (the_loop st') = [])).
Proof.
  intros st st'.
  apply (outer_iteration_clean demo_now demo_poll demo_sleep run_slot run_slot_ok true st);
    [reflexivity|]. vm_compute. reflexivity.
Defined.

Lemma exception_leaks_depth_witness :
  running_depth (the_loop (demo_iteration (demo_state Raise Keep)).2) = 0 + 1.
Proof.
  apply (exception_leaks_depth demo_now demo_poll demo_sleep run_slot run_slot_ok true
           (demo_state Raise Keep) OtherException); [done|]. vm_compute. reflexivity.
Defined.

Lemma remove_gone_witness :
  let l := the_loop (demo_state Stop Grow) in
  let h := mkHandle 2 1 in
  ~ has_source 2 (sources (remove h l)) /\ ~ has_source 2 (added_sources (remove h l)) /\
  forall sid, sid <> 2 ->
    (has_source sid (sources l) <-> has_source sid (sources (remove h l))) /\
    (has_source sid (added_sources l) <-> has_source sid (added_sources (remove h l))).
Proof.
  intros l h. apply (remove_gone l h); [|reflexivity].
  apply (bool_decide_unpack (NoDup (ids l))). vm_compute. exact I.
Defined.

Lemma connect_fresh_witness :
  ~ (source_id (connect (IoSource 7 POLLIN 0) Keep 77 loop0).1 ∈ ids loop0) /\
  ids_wf (connect (IoSource 7 POLLIN 0) Keep 77 loop0).2.
Proof.
  apply (connect_fresh (IoSource 7 POLLIN 0) Keep 77 loop0); [|cbn; lia|lia].
  repeat split; try constructor. cbn. lia.
Defined.

Lemma io_slot_removes_itself_witness :
  let st := mkLW (connect (IoSource 7 POLLIN 1) RemoveSelf 0 loop0).2 0 in
  (dispatch_io run_slot 0 (mkSource 1 (IoSource 7 POLLIN 1) RemoveSelf) 7 1 st).1
  = Crash "IoSource::dispatch: use after free".
Proof.
  intros st. apply (io_slot_removes_itself run_slot 0
    (mkSource 1 (IoSource 7 POLLIN 1) RemoveSelf) 7 1 st true (run_slot RemoveSelf 7 1 st).2);
    vm_compute; reflexivity.
Defined.
End Demo.
