(* ===== verification/Serdes.v ===== *)
(** * Serialization: saftbus/saftbus.hpp and saftbus/saftbus.cpp

    [Serializer::put] appends the bytes of a value, padded so that the value is
    aligned relative to the start of the buffer; [Deserializer::get] skips the
    same padding.  No type information is stored: the interface [Serde] states
    for one C++ type what the templates promise, and the instances follow the
    overloads.  Integers are little endian, as on the platform. *)
From S2P Require Import Prelude StdMap.
From Stdlib Require Import Strings.Byte.
Local Open Scope Z_scope.

(** ** Bytes *)
Definition byte_of_Z (z : Z) : byte :=
  default x00 (Byte.of_N (Z.to_N (z mod 256))).
Definition Z_of_byte (b : byte) : Z := Z.of_N (Byte.to_N b).

Fixpoint le_encode (n : nat) (z : Z) : list byte :=
  match n with
  | O => []
  | S n' => byte_of_Z z :: le_encode n' (z / 256)
  end.

Fixpoint le_decode (bs : list byte) : Z :=
  match bs with
  | [] => 0
  | b :: bs' => Z_of_byte b + 256 * le_decode bs'
  end.

(** ** Types

    Plain types are copied byte by byte. *)
Class Pod (T : Type) := {
  pod_size : nat;
  pod_put : T -> list byte;
  pod_get : list byte -> T;
  pod_valid : T -> Prop
}.
Arguments pod_size T {_}.

(** An integer type of [n] bytes. *)
Inductive cint (n : nat) (signed : bool) := Int (z : Z).
Arguments Int {_ _} z.
Definition int_val {n s} (x : cint n s) : Z := let '(Int z) := x in z.

#[export] Instance pod_cint n s : Pod (cint n s) := {
  pod_size := n;
  pod_put := fun x => le_encode n (int_val x);
  pod_get := fun bs =>
    Int (if s then signed_wrap (8 * Z.of_nat n) (le_decode bs) else le_decode bs);
  pod_valid := fun x =>
    if s then - 2 ^ (8 * Z.of_nat n - 1) <= int_val x < 2 ^ (8 * Z.of_nat n - 1)
    else 0 <= int_val x < 2 ^ (8 * Z.of_nat n)
}.

Abbreviation size_t := (cint 8 false).
Abbreviation uint32_t := (cint 4 false).
Abbreviation uint64_t := (cint 8 false).
Abbreviation int32_t := (cint 4 true).

#[export] Instance pod_bool : Pod bool := {
  pod_size := 1;
  pod_put := fun b => [byte_of_Z (if b then 1 else 0)];
  pod_get := fun bs => negb (le_decode bs =? 0);
  pod_valid := fun _ => True
}.

(** [while(_data.size()%sizeof(T) != 0) _data.push_back('x');] *)
Definition padding (n len : nat) : nat := (n - len mod n) mod n.
Definition pad (n : nat) (d : list byte) : list byte :=
  d ++ replicate (padding n (length d)) x78.

(** Reading: [n] bytes at the iterator, if the buffer has them (the code would
    read past its end otherwise). *)
Definition take_bytes (n : nat) (d : list byte) (it : nat) : option (list byte * nat) :=
  if (it + n <=? length d)%nat then Some (take n (drop it d), (it + n)%nat) else None.

Class Serde (T : Type) := {
  put : T -> list byte -> list byte;
  get : list byte -> nat -> option (T * nat);
  valid : T -> Prop
}.

Definition put_pod {T} `{Pod T} (v : T) (d : list byte) : list byte :=
  pad (pod_size T) d ++ pod_put v.

Definition get_pod {T} `{Pod T} (d : list byte) (it : nat) : option (T * nat) :=
  let it' := (it + padding (pod_size T) it)%nat in
  '(bs, it'') ← take_bytes (pod_size T) d it'; Some (pod_get bs, it'').

#[export] Instance serde_pod {T} `{Pod T} : Serde T := {
  put := put_pod; get := get_pod; valid := pod_valid
}.

Definition put_size (n : nat) (d : list byte) : list byte :=
  put_pod (Int (Z.of_nat n) : size_t) d.
Definition get_size (d : list byte) (it : nat) : option (nat * nat) :=
  '(x, it') ← get_pod (T := size_t) d it; Some (Z.to_nat (int_val x), it').
Definition size_valid (n : nat) : Prop := Z.of_nat n < 2 ^ 64.

(** [std::vector<T>] of plain elements: the size, padding, the elements. *)
Definition put_vector {T} `{Pod T} (v : list T) (d : list byte) : list byte :=
  pad (pod_size T) (put_size (length v) d) ++ (v ≫= pod_put).

Fixpoint split_pods {T} `{Pod T} (n : nat) (bs : list byte) : list T :=
  match n with
  | O => []
  | S n' => pod_get (take (pod_size T) bs) :: split_pods n' (drop (pod_size T) bs)
  end.

Definition get_vector {T} `{Pod T} (d : list byte) (it : nat) : option (list T * nat) :=
  '(n, it1) ← get_size d it;
  let it2 := (it1 + padding (pod_size T) it1)%nat in
  '(bs, it3) ← take_bytes (n * pod_size T) d it2;
  Some (split_pods n bs, it3).

#[export] Instance serde_vector {T} `{Pod T} : Serde (list T) := {
  put := put_vector; get := get_vector;
  valid := fun v => size_valid (length v) /\ Forall pod_valid v
}.

(** [std::string]: the size and the characters, no padding in between. *)
Definition bytes_of_string (s : string) : list byte := String.list_byte_of_string s.
Definition put_string (s : string) (d : list byte) : list byte :=
  put_size (String.length s) d ++ bytes_of_string s.
Definition get_string (d : list byte) (it : nat) : option (string * nat) :=
  '(n, it1) ← get_size d it;
  '(bs, it2) ← take_bytes n d it1;
  Some (String.string_of_list_byte bs, it2).

#[export] Instance serde_string : Serde string := {
  put := put_string; get := get_string; valid := fun s => size_valid (String.length s)
}.

(** The loops of the nested containers. *)
Section Sequences.
Context {T : Type} `{Serde T}.

Definition put_all (vs : list T) (d : list byte) : list byte :=
  foldl (fun d v => put v d) d vs.

Fixpoint get_all (n : nat) (d : list byte) (it : nat) : option (list T * nat) :=
  match n with
  | O => Some ([], it)
  | S n' =>
      '(v, it1) ← get d it;
      '(vs, it2) ← get_all n' d it1;
      Some (v :: vs, it2)
  end.

Definition put_seq (vs : list T) (d : list byte) : list byte :=
  put_all vs (put_size (length vs) d).
Definition get_seq (d : list byte) (it : nat) : option (list T * nat) :=
  '(n, it1) ← get_size d it; get_all n d it1.
End Sequences.

Arguments put_seq : simpl never.
Arguments get_seq : simpl never.

(** [std::vector<std::string>] and [std::vector<std::vector<T>>] *)
#[export] Instance serde_vector_string : Serde (list string) := {
  put := put_seq; get := get_seq;
  valid := fun vs => size_valid (length vs) /\ Forall valid vs
}.
#[export] Instance serde_vector_vector {T} `{Pod T} : Serde (list (list T)) := {
  put := put_seq; get := get_seq;
  valid := fun vs => size_valid (length vs) /\ Forall valid vs
}.

(** Two values in sequence: a map entry, the members of a [SerDesAble]. *)
#[export] Instance serde_pair {A B} `{Serde A, Serde B} : Serde (A * B) := {
  put := fun p d => put p.2 (put p.1 d);
  get := fun d it =>
    '(a, it1) ← get d it; '(b, it2) ← get d it1; Some ((a, b), it2);
  valid := fun p => valid p.1 /\ valid p.2
}.

(** [std::map<K,V>]: the entries in key order; [insert] keeps the first entry
    of a key. *)
Record std_map (K V : Type) := mkMap { entries : list (K * V) }.
Arguments mkMap {_ _} _.
Arguments entries {_ _} _.

Definition map_insert {K V} `{EqDecision K, StdLess K} (m : list (K * V)) (p : K * V) :=
  if map_mem p.1 m then m else map_set p.1 p.2 m.

#[export] Instance serde_map {K V} `{EqDecision K, StdLess K, Serde K, Serde V}
    : Serde (std_map K V) := {
  put := fun m d => put_seq (entries m) d;
  get := fun d it =>
    '(l, it') ← get_seq d it; Some (mkMap (foldl map_insert [] l), it');
  valid := fun m =>
    size_valid (length (entries m)) /\ Forall valid (entries m) /\ map_wf (entries m)
}.

(** ** The contract of a type: [put] only appends, and [get] at the place where
    [put] started returns the value and stops where [put] stopped, whatever
    follows in the buffer. *)
Class SerdeOk (T : Type) `{Serde T} := {
  put_appends : forall (v : T) d, exists bs, put v d = d ++ bs;
  get_put : forall (v : T) d rest,
    valid v -> get (put v d ++ rest) (length d) = Some (v, length (put v d))
}.

Class PodOk (T : Type) `{Pod T} := {
  pod_put_length : forall v : T, pod_valid v -> length (pod_put v) = pod_size T;
  pod_get_put : forall v : T, pod_valid v -> pod_get (pod_put v) = v
}.

Lemma Z_of_byte_of_Z z : Z_of_byte (byte_of_Z z) = z mod 256.
Proof.
  unfold Z_of_byte, byte_of_Z. pose proof (Z.mod_pos_bound z 256 ltac:(lia)) as Hb.
  destruct (Byte.of_N (Z.to_N (z mod 256))) as [b|] eqn:E; cbn.
  - apply Byte.to_of_N in E. rewrite E. lia.
  - apply Byte.of_N_None_iff in E. lia.
Qed.

Lemma le_encode_length n z : length (le_encode n z) = n.
Proof. revert z. induction n; intros z; cbn; auto. Qed.

Lemma le_decode_encode n z : le_decode (le_encode n z) = z mod 2 ^ (8 * Z.of_nat n).
Proof.
  revert z. induction n as [|n IH]; intros z; cbn [le_encode le_decode].
  - by rewrite Z.mod_1_r.
  - rewrite IH, Z_of_byte_of_Z.
    replace (8 * Z.of_nat (S n)) with (8 + 8 * Z.of_nat n) by lia.
    rewrite Z.pow_add_r by lia. change (2 ^ 8) with 256.
    rewrite Z.rem_mul_r by (try apply Z.pow_nonzero; lia). done.
Qed.

#[export] Instance pod_cint_ok n s : (0 < n)%nat -> PodOk (cint n s).
Proof.
  intros Hn. split; intros [z]; cbn; [intros _; apply le_encode_length|].
  rewrite le_decode_encode. destruct s; intros Hz; f_equal.
  - unfold signed_wrap. rewrite Zplus_mod_idemp_l.
    assert (2 ^ (8 * Z.of_nat n) = 2 * 2 ^ (8 * Z.of_nat n - 1)) as E.
    { rewrite <- Z.pow_succ_r by lia. f_equal. lia. }
    rewrite Z.mod_small; lia.
  - by rewrite Z.mod_small.
Qed.
#[export] Hint Extern 0 (0 < _)%nat => lia : typeclass_instances.

#[export] Instance pod_bool_ok : PodOk bool.
Proof. split; by intros []. Qed.

Lemma pad_app n d : exists bs, pad n d = d ++ bs.
Proof. unfold pad. eauto. Qed.

Lemma pad_length n d : length (pad n d) = (length d + padding n (length d))%nat.
Proof. unfold pad. by rewrite length_app, length_replicate. Qed.

(** The padding aligns. *)
Lemma padding_aligned n len : (0 < n)%nat -> ((len + padding n len) mod n = 0)%nat.
Proof.
  intros Hn. unfold padding. pose proof (Nat.mod_upper_bound len n ltac:(lia)).
  rewrite Nat.Div0.add_mod_idemp_r.
  replace (len + (n - len mod n))%nat with ((len / n + 1) * n)%nat.
  - apply Nat.Div0.mod_mul.
  - pose proof (Nat.div_mod len n ltac:(lia)). nia.
Qed.

Lemma take_bytes_app n d bs rest :
  length bs = n -> take_bytes n (d ++ bs ++ rest) (length d) = Some (bs, (length d + n)%nat).
Proof.
  intros <-. unfold take_bytes. rewrite drop_app_length, take_app_length.
  rewrite (proj2 (Nat.leb_le _ _)); [done|]. rewrite !length_app. lia.
Qed.

Section PodLaws.
Context {T : Type} `{PodOk T}.

#[export] Instance serde_pod_ok : SerdeOk T.
Proof.
  split; cbn.
  - intros v d. unfold put_pod, pad. rewrite <- app_assoc. eauto.
  - intros v d rest Hv. unfold put_pod, get_pod.
    rewrite <- pad_length, <- app_assoc, take_bytes_app by (by apply pod_put_length).
    cbn. rewrite pod_get_put by done. by rewrite length_app, pod_put_length.
Qed.

Lemma bind_put_length (v : list T) :
  Forall pod_valid v -> length (v ≫= pod_put) = (length v * pod_size T)%nat.
Proof.
  induction 1 as [|x v Hx Hv IH]; cbn; [done|].
  by rewrite length_app, IH, pod_put_length.
Qed.

Lemma split_pods_put (v : list T) :
  Forall pod_valid v -> split_pods (length v) (v ≫= pod_put) = v.
Proof.
  induction 1 as [|x v Hx Hv IH]; cbn; [done|].
  rewrite <- (pod_put_length x Hx), take_app_length, drop_app_length, IH.
  by rewrite pod_get_put.
Qed.
End PodLaws.

Lemma get_size_put n d rest :
  size_valid n -> get_size (put_size n d ++ rest) (length d) = Some (n, length (put_size n d)).
Proof.
  intros Hn. unfold get_size, put_size.
  pose proof (get_put (T := size_t) (Int (Z.of_nat n)) d rest) as E. cbn [get put serde_pod] in E.
  rewrite E by (unfold size_valid in Hn; cbn; lia). cbn. by rewrite Nat2Z.id.
Qed.

Lemma put_size_app n d : exists bs, put_size n d = d ++ bs.
Proof. exact (put_appends (Int (Z.of_nat n) : size_t) d). Qed.

#[export] Instance serde_vector_ok {T} `{PodOk T} : SerdeOk (list T).
Proof.
  split; cbn.
  - intros v d. unfold put_vector, pad. destruct (put_size_app (length v) d) as [bs ->].
    rewrite <- !app_assoc. eauto.
  - intros v d rest [Hn Hv]. unfold put_vector, get_vector.
    assert (exists r, pad (pod_size T) (put_size (length v) d) ++ (v ≫= pod_put)
      = put_size (length v) d ++ r) as [r Er].
    { destruct (pad_app (pod_size T) (put_size (length v) d)) as [bs ->].
      rewrite <- app_assoc. eauto. }
    rewrite Er, <- app_assoc, get_size_put by done. cbn.
    rewrite app_assoc, <- Er, <- pad_length, <- app_assoc, take_bytes_app
      by (by apply bind_put_length).
    cbn. rewrite split_pods_put by done. by rewrite length_app, bind_put_length.
Qed.

Lemma string_of_bytes s : String.string_of_list_byte (bytes_of_string s) = s.
Proof. apply String.string_of_list_byte_of_string. Qed.

Lemma bytes_of_string_length s : length (bytes_of_string s) = String.length s.
Proof. induction s; cbn; auto. Qed.

#[export] Instance serde_string_ok : SerdeOk string.
Proof.
  split; cbn.
  - intros v d. unfold put_string. destruct (put_size_app (String.length v) d) as [bs ->].
    rewrite <- app_assoc. eauto.
  - intros v d rest Hv. unfold put_string, get_string. rewrite <- app_assoc.
    rewrite get_size_put by done. cbn.
    rewrite take_bytes_app by apply bytes_of_string_length. cbn.
    by rewrite string_of_bytes, length_app, bytes_of_string_length.
Qed.

Section SequenceLaws.
Context {T : Type} `{SerdeOk T}.

Lemma put_all_app (vs : list T) d : exists bs, put_all vs d = d ++ bs.
Proof.
  revert d. induction vs as [|v vs IH]; intros d; cbn; [exists []; by rewrite app_nil_r|].
  destruct (put_appends v d) as [b1 ->]. destruct (IH (d ++ b1)) as [b2 E].
  unfold put_all in E. rewrite E, <- app_assoc. eauto.
Qed.

Lemma get_all_put (vs : list T) d rest :
  Forall valid vs ->
  get_all (length vs) (put_all vs d ++ rest) (length d) = Some (vs, length (put_all vs d)).
Proof.
  revert d. induction vs as [|v vs IH]; intros d Hv; cbn [length get_all]; [done|].
  apply Forall_cons in Hv as [Hv Hvs]. cbn [put_all foldl].
  fold (put_all vs (put v d)). destruct (put_all_app vs (put v d)) as [b E].
  rewrite E, <- app_assoc, get_put by done. cbn. rewrite app_assoc, <- E, IH by done. done.
Qed.

Lemma put_seq_app (vs : list T) d : exists bs, put_seq vs d = d ++ bs.
Proof.
  unfold put_seq. destruct (put_size_app (length vs) d) as [b1 ->].
  destruct (put_all_app vs (d ++ b1)) as [b2 ->]. rewrite <- app_assoc. eauto.
Qed.

Lemma get_seq_put (vs : list T) d rest :
  size_valid (length vs) -> Forall valid vs ->
  get_seq (put_seq vs d ++ rest) (length d) = Some (vs, length (put_seq vs d)).
Proof.
  intros Hn Hv. unfold get_seq, put_seq.
  destruct (put_all_app vs (put_size (length vs) d)) as [b E].
  rewrite E, <- app_assoc, get_size_put by done. cbn.
  by rewrite app_assoc, <- E, get_all_put.
Qed.
End SequenceLaws.

#[export] Instance serde_vector_string_ok : SerdeOk (list string).
Proof. split; [apply put_seq_app|]. intros v d rest [? ?]. by apply get_seq_put. Qed.

#[export] Instance serde_vector_vector_ok {T} `{PodOk T} : SerdeOk (list (list T)).
Proof. split; [apply put_seq_app|]. intros v d rest [? ?]. by apply get_seq_put. Qed.

#[export] Instance serde_pair_ok {A B} `{SerdeOk A, SerdeOk B} : SerdeOk (A * B).
Proof.
  split; cbn.
  - intros [a b] d. cbn. destruct (put_appends a d) as [b1 ->].
    destruct (put_appends b (d ++ b1)) as [b2 ->]. rewrite <- app_assoc. eauto.
  - intros [a b] d rest [Ha Hb]. cbn in *. destruct (put_appends b (put a d)) as [b2 E].
    rewrite E, <- app_assoc, get_put by done. cbn. by rewrite app_assoc, <- E, get_put.
Qed.

(** ** Maps *)
Section Maps.
Context {K V : Type} `{StdLessOk K}.

Lemma map_set_last (m : list (K * V)) k v :
  Forall (fun p => key_lt p.1 k = true) m -> map_set k v m = m ++ [(k, v)].
Proof.
  induction 1 as [|[k' v'] m Hk Hm IH]; cbn; [done|]. cbn in Hk.
  rewrite decide_False; [|intros ->; by rewrite key_lt_irrefl in Hk].
  destruct (key_lt k k') eqn:E; [|by rewrite IH].
  pose proof (key_lt_trans _ _ _ E Hk) as Ht. by rewrite key_lt_irrefl in Ht.
Qed.

Lemma foldl_insert (l m : list (K * V)) :
  map_wf (m ++ l) -> foldl map_insert m l = m ++ l.
Proof.
  revert m. induction l as [|[k v] l IH]; intros m Hwf; cbn; [by rewrite app_nil_r|].
  assert (Forall (fun p => key_lt p.1 k = true) m) as Hm.
  { clear IH. induction m as [|[k' v'] m IHm]; [done|]. destruct Hwf as [Hall Hwf].
    constructor; [|by apply IHm]. rewrite Forall_app, Forall_cons in Hall.
    by destruct Hall as (_ & ? & _). }
  assert (map_find k m = None) as Hn.
  { apply map_find_None. intros v' Hin. rewrite Forall_forall in Hm.
    specialize (Hm _ Hin). cbn in Hm. by rewrite key_lt_irrefl in Hm. }
  unfold map_insert at 2, map_mem. cbn. rewrite Hn, map_set_last by done.
  rewrite IH; by rewrite <- app_assoc.
Qed.
End Maps.

#[export] Instance serde_map_ok {K V} `{StdLessOk K, !Serde K, !Serde V, !SerdeOk K, !SerdeOk V} :
  SerdeOk (std_map K V).
Proof.
  split; cbn.
  - intros m d. apply put_seq_app.
  - intros [l] d rest (Hn & Hv & Hwf). cbn in Hn, Hv, Hwf.
    pose proof (get_seq_put l d rest Hn Hv) as E. cbn in E |- *. rewrite E. cbn.
    by rewrite (foldl_insert l []).
Qed.
