(* ===== verification/Wire.v ===== *)
(** * Messages on a socket: [write_all], [read_all], [Serializer::write_to] and
    [Deserializer::read_from] (saftbus/saftbus.cpp)

    [::write] and [::read] are parameters: each call may accept or deliver fewer
    bytes than asked for, or fail with a result that is not positive. *)
From S2P Require Import Prelude StdMap Serdes.
From Stdlib Require Import Strings.Byte.
Local Open Scope Z_scope.

(** ** The system calls *)
Class Posix (W : Type) := {
  sys_write : Z -> list byte -> W -> Z * W;
  sys_read : Z -> Z -> W -> Z * list byte * W;
  (** the bytes that were written and not yet read *)
  in_flight : W -> list byte
}.

(** Stream semantics of the two ends of one socket.  The sockets of the program are
    of type [SOCK_SEQPACKET], where a read never crosses the end of a record and drops
    the rest of one that is longer than its buffer; for the reads of this file the two
    agree, since the size is a record of its own and every other record is at most as
    long as what the reader still waits for. *)
Class PosixOk (W : Type) `{Posix W} := {
  sys_write_spec : forall fd buf w r w',
    sys_write fd buf w = (r, w') ->
    (0 < r -> r <= Z.of_nat (length buf) /\
              in_flight w' = in_flight w ++ take (Z.to_nat r) buf) /\
    (r <= 0 -> in_flight w' = in_flight w);
  sys_read_spec : forall fd n w r bs w',
    sys_read fd n w = (r, bs, w') ->
    (0 < r -> r <= n /\ length bs = Z.to_nat r /\ in_flight w = bs ++ in_flight w') /\
    (r <= 0 -> in_flight w' = in_flight w)
}.

(** No call fails: every [write] of at least a byte and every [read] while
    bytes are in flight makes progress. *)
Class Reliable (W : Type) `{Posix W} := {
  write_progress : forall fd buf w, buf <> [] -> 0 < (sys_write fd buf w).1;
  read_progress : forall fd n w, 0 < n -> in_flight w <> [] -> 0 < (sys_read fd n w).1.1
}.

Section Transfer.
Context {W : Type} `{Posix W}.

(** The inner loop: one chunk.  The result is the rest of the buffer, or the
    result of the call that failed. *)
Fixpoint write_chunk (fuel : nat) (fd : Z) (ptr : list byte) (size_chunk written : Z)
    : M W (Z + list byte) := fun w =>
  match fuel with
  | O => (Crash "fuel", w)
  | S fuel' =>
      let '(result, w') := sys_write fd (take (Z.to_nat (size_chunk - written)) ptr) w in
      if 0 <? result then
        let ptr' := drop (Z.to_nat result) ptr in
        if written + result <? size_chunk
        then write_chunk fuel' fd ptr' size_chunk (written + result) w'
        else (Ret (inr ptr'), w')
      else (Ret (inl result), w')
  end.

Definition chunk_limit : Z := 100000.

(** [write_all]; [fuel] bounds the rounds of both loops. *)
Fixpoint write_all_loop (fuel : nat) (fd : Z) (ptr : list byte) (size written_total : Z)
    : M W Z :=
  match fuel with
  | O => crash "fuel"
  | S fuel' =>
      let size_chunk := Z.min size chunk_limit in
      r ← write_chunk (S (Z.to_nat size_chunk)) fd ptr size_chunk 0;
      match r with
      | inl result => mret result
      | inr ptr' =>
          if 0 <? size - size_chunk
          then write_all_loop fuel' fd ptr' (size - size_chunk) (written_total + size_chunk)
          else mret (written_total + size_chunk)
      end
  end.
Definition write_all (fd : Z) (buffer : list byte) : M W Z :=
  write_all_loop (S (length buffer)) fd buffer (Z.of_nat (length buffer)) 0.

(** [read_all]: the bytes read and the result. *)
Fixpoint read_all_loop (fuel : nat) (fd : Z) (size : Z) (buf : list byte)
    : M W (Z * list byte) := fun w =>
  match fuel with
  | O => (Crash "fuel", w)
  | S fuel' =>
      let '(result, bs, w') := sys_read fd (size - Z.of_nat (length buf)) w in
      if 0 <? result then
        let buf' := buf ++ bs in
        if Z.of_nat (length buf') <? size
        then read_all_loop fuel' fd size buf' w'
        else (Ret (Z.of_nat (length buf'), buf'), w')
      else (Ret (result, buf), w')
  end.
Definition read_all (fd : Z) (size : Z) : M W (Z * list byte) :=
  read_all_loop (S (Z.to_nat size)) fd size [].

(** The size as an [int], then the bytes. *)
Definition write_to_no_init (fd : Z) (data : list byte) : M W bool :=
  let size := s32 (Z.of_nat (length data)) in
  result ← write_all fd (le_encode 4 size);
  if result <? 4 then mret false
  else
    result ← write_all fd data;
    mret (negb (result <? size)).

(** [Serializer::write_to] also clears the buffer ([put_init]). *)
Definition write_to (fd : Z) (data : list byte) : M W (bool * list byte) :=
  result ← write_to_no_init fd data; mret (result, []).

(** [Deserializer::read_from]: on success the new buffer, read from its start;
    [_data.resize] of a negative size throws. *)
Definition read_from (fd : Z) : M W (option (list byte)) :=
  '(result, bs) ← read_all fd 4;
  if result <? 4 then mret None
  else
    let size := s32 (le_decode bs) in
    if size <? 0 then throw OtherException
    else
      '(result, data) ← read_all fd size;
      if result <? size then mret None else mret (Some data).
End Transfer.

(** ** The transfer loops end and move every byte, in order *)
Section TransferCorrect.
Context {W : Type} `{PosixOk W} `{!Reliable W}.

Lemma write_chunk_ok fuel fd ptr size_chunk written w :
  0 <= written < size_chunk -> size_chunk - written <= Z.of_nat (length ptr) ->
  size_chunk - written < Z.of_nat fuel ->
  exists w',
    write_chunk fuel fd ptr size_chunk written w
      = (Ret (inr (drop (Z.to_nat (size_chunk - written)) ptr)), w') /\
    in_flight w' = in_flight w ++ take (Z.to_nat (size_chunk - written)) ptr.
Proof.
  revert ptr written w. induction fuel as [|fuel IH]; intros ptr written w Hw Hp Hf; [lia|].
  cbn [write_chunk].
  set (n := Z.to_nat (size_chunk - written)).
  destruct (sys_write fd (take n ptr) w) as [result w1] eqn:E.
  assert (0 < result) as Hr.
  { pose proof (write_progress fd (take n ptr) w) as Hpr. rewrite E in Hpr. apply Hpr.
    intros En%(f_equal length). rewrite length_take in En. cbn in En. lia. }
  destruct (sys_write_spec _ _ _ _ _ E) as [Hs _]. destruct (Hs Hr) as [Hle Hfl].
  rewrite length_take in Hle. rewrite take_take in Hfl.
  replace (Z.to_nat result `min` n)%nat with (Z.to_nat result) in Hfl by lia.
  rewrite (proj2 (Z.ltb_lt _ _)) by done.
  destruct (Z.ltb_spec (written + result) size_chunk) as [Hlt|Hge].
  - destruct (IH (drop (Z.to_nat result) ptr) (written + result) w1) as (w' & E' & Hfl');
      [lia|rewrite length_drop; lia|lia|].
    exists w'. rewrite E', Hfl', Hfl, drop_drop. split; [do 4 f_equal; lia|].
    rewrite <- app_assoc. f_equal. rewrite take_drop_commute.
    replace (Z.to_nat result + Z.to_nat (size_chunk - (written + result)))%nat with n by lia.
    rewrite <- (take_drop (Z.to_nat result) (take n ptr)) at 2.
    rewrite take_take. f_equal. f_equal. lia.
  - assert (Z.to_nat result = n) as En by lia. rewrite En in *.
    exists w1. by rewrite Hfl.
Qed.

Lemma write_all_loop_ok fuel fd ptr total w :
  ptr <> [] -> (length ptr < fuel)%nat ->
  exists w',
    write_all_loop fuel fd ptr (Z.of_nat (length ptr)) total w
      = (Ret (total + Z.of_nat (length ptr)), w') /\
    in_flight w' = in_flight w ++ ptr.
Proof.
  revert ptr total w. induction fuel as [|fuel IH]; intros ptr total w Hne Hf; [lia|].
  cbn [write_all_loop]. cbv zeta.
  set (c := Z.min (Z.of_nat (length ptr)) chunk_limit).
  assert (0 < length ptr)%nat by (destruct ptr; cbn; [done|lia]).
  assert (0 < c <= Z.of_nat (length ptr)) as Hc by (unfold c, chunk_limit; lia).
  destruct (write_chunk_ok (S (Z.to_nat c)) fd ptr c 0 w) as (w1 & E & Hfl); [lia..|].
  rewrite Z.sub_0_r in E, Hfl. mrun. rewrite E.
  destruct (Z.ltb_spec 0 (Z.of_nat (length ptr) - c)) as [Hlt|Hge].
  - assert (Z.of_nat (length (drop (Z.to_nat c) ptr)) = Z.of_nat (length ptr) - c) as El
      by (rewrite length_drop; lia).
    rewrite <- El. destruct (IH (drop (Z.to_nat c) ptr) (total + c) w1) as (w' & E' & Hfl').
    + intros Hd%(f_equal length). cbn in Hd. lia.
    + lia.
    + exists w'. rewrite E', Hfl', Hfl, <- app_assoc, take_drop.
      split; [|done]. do 2 f_equal. lia.
  - exists w1. rewrite Hfl, firstn_all2 by lia. split; [do 2 f_equal; lia|done].
Qed.

(** [write_all] of a non-empty buffer. *)
Lemma write_all_ok fd buf w :
  buf <> [] ->
  exists w', write_all fd buf w = (Ret (Z.of_nat (length buf)), w') /\
    in_flight w' = in_flight w ++ buf.
Proof.
  intros Hne. destruct (write_all_loop_ok (S (length buf)) fd buf 0 w Hne) as (w' & E & Hfl).
  - lia.
  - exists w'. split; [|done]. unfold write_all. by rewrite E.
Qed.

Lemma write_all_empty fd w :
  exists r w', write_all fd [] w = (Ret r, w') /\ r <= 0 /\ in_flight w' = in_flight w.
Proof.
  unfold write_all. cbn. mrun. rewrite take_nil.
  destruct (sys_write fd [] w) as [r w'] eqn:E.
  destruct (sys_write_spec _ _ _ _ _ E) as [H1 H2].
  assert (r <= 0) as Hr.
  { destruct (decide (r <= 0)) as [|Hn]; [done|]. destruct (H1 ltac:(lia)) as [Hb _]. cbn in Hb. lia. }
  rewrite (proj2 (Z.ltb_ge _ _)) by done. exists r, w'. split; [done|]. auto.
Qed.

Lemma read_all_loop_ok fuel fd size buf rest rest2 w :
  in_flight w = rest ++ rest2 -> rest <> [] ->
  size = Z.of_nat (length buf + length rest) -> (length rest < fuel)%nat ->
  exists w', read_all_loop fuel fd size buf w = (Ret (size, buf ++ rest), w') /\
    in_flight w' = rest2.
Proof.
  revert buf rest w. induction fuel as [|fuel IH]; intros buf rest w Hw Hne Hs Hf; [lia|].
  assert (0 < length rest)%nat by (destruct rest; cbn; [done|lia]).
  cbn [read_all_loop].
  destruct (sys_read fd (size - Z.of_nat (length buf)) w) as [[r bs] w1] eqn:E.
  assert (0 < r) as Hr.
  { pose proof (read_progress fd (size - Z.of_nat (length buf)) w ltac:(lia)) as Hp.
    rewrite E in Hp. apply Hp. rewrite Hw. by destruct rest. }
  destruct (sys_read_spec _ _ _ _ _ _ E) as [Hsp _]. destruct (Hsp Hr) as (Hle & Hlen & Hfl).
  rewrite (proj2 (Z.ltb_lt _ _)) by done.
  assert (exists t, rest = bs ++ t /\ in_flight w1 = t ++ rest2) as (t & -> & Hw1).
  { rewrite Hw in Hfl. exists (drop (length bs) rest).
    assert (bs = take (length bs) rest) as Eb.
    { apply (f_equal (take (length bs))) in Hfl. rewrite take_app_length, take_app_le in Hfl by lia.
      done. }
    split; [rewrite Eb at 1; by rewrite take_drop|].
    apply (f_equal (drop (length bs))) in Hfl.
    rewrite drop_app_length, drop_app_le in Hfl by lia. done. }
  rewrite length_app in *. destruct (Z.ltb_spec (Z.of_nat (length buf + length bs)) size) as [Hlt|Hge].
  - destruct (IH (buf ++ bs) t w1) as (w' & E' & Hfl'); [done|..].
    + intros ->. cbn in *. lia.
    + rewrite length_app. lia.
    + lia.
    + exists w'. rewrite E', <- app_assoc. done.
  - assert (t = []) as -> by (destruct t; [done|cbn in *; lia]). exists w1.
    rewrite app_nil_r. rewrite Hw1. cbn. split; [|done]. do 3 f_equal. cbn in *. lia.
Qed.

Lemma read_all_ok fd bs rest2 w :
  in_flight w = bs ++ rest2 -> bs <> [] ->
  exists w', read_all fd (Z.of_nat (length bs)) w = (Ret (Z.of_nat (length bs), bs), w') /\
    in_flight w' = rest2.
Proof.
  intros Hw Hne. unfold read_all.
  destruct (read_all_loop_ok (S (Z.to_nat (Z.of_nat (length bs)))) fd
              (Z.of_nat (length bs)) [] bs rest2 w) as (w' & E & Hfl);
    [done|done|done|lia|]. rewrite E. eauto.
Qed.

Lemma write_to_no_init_ok fd data w :
  data <> [] -> Z.of_nat (length data) < 2 ^ 31 ->
  exists w', write_to_no_init fd data w = (Ret true, w') /\
    in_flight w' = in_flight w ++ le_encode 4 (Z.of_nat (length data)) ++ data.
Proof.
  intros Hne Hlen. unfold write_to_no_init. cbv zeta.
  rewrite signed_wrap_small by (change (2 ^ (32 - 1)) with (2 ^ 31); lia).
  destruct (write_all_ok fd (le_encode 4 (Z.of_nat (length data))) w) as (w1 & E1 & H1); [done|].
  destruct (write_all_ok fd data w1 Hne) as (w2 & E2 & H2).
  exists w2. mrun. rewrite E1, le_encode_length. cbn [Z.ltb]. change (Z.of_nat 4 <? 4) with false.
  cbn iota. mrun. rewrite E2, Z.ltb_irrefl. split; [done|].
  by rewrite H2, H1, <- app_assoc.
Qed.

Lemma read_from_ok fd data rest w :
  data <> [] -> Z.of_nat (length data) < 2 ^ 31 ->
  in_flight w = le_encode 4 (Z.of_nat (length data)) ++ data ++ rest ->
  exists w', read_from fd w = (Ret (Some data), w') /\ in_flight w' = rest.
Proof.
  intros Hne Hlen Hw. unfold read_from.
  destruct (read_all_ok fd _ _ w Hw) as (w1 & E1 & H1); [done|].
  destruct (read_all_ok fd data rest w1 H1 Hne) as (w2 & E2 & H2).
  rewrite le_encode_length in E1. exists w2. mrun. change (Z.of_nat 4) with 4 in E1. rewrite E1.
  cbn [Z.ltb Z.compare]. change (4 <? 4) with false. cbn iota.
  rewrite le_decode_encode. change (8 * Z.of_nat 4) with 32.
  rewrite (Z.mod_small _ (2 ^ 32)) by lia.
  rewrite signed_wrap_small by (change (2 ^ (32 - 1)) with (2 ^ 31); lia).
  rewrite (proj2 (Z.ltb_ge _ _)) by lia. mrun. rewrite E2, Z.ltb_irrefl. done.
Qed.
End TransferCorrect.

(** ** Messages: any sequence of typed values *)
Record any_value := mkAny {
  any_type : Type;
  any_serde : Serde any_type;
  any_ok : SerdeOk any_type;
  any_val : any_type
}.
Arguments mkAny {_ _ _} _.
#[export] Existing Instance any_serde.
#[export] Existing Instance any_ok.

(** [serializer.put(v1); serializer.put(v2); ...] *)
Definition put_message (vs : list any_value) (d : list byte) : list byte :=
  foldl (fun d a => put (any_val a) d) d vs.

(** [deserializer.get(v1); deserializer.get(v2); ...] yields exactly [vs] and
    moves the iterator from [it] to [it']. *)
Fixpoint gets_message (vs : list any_value) (d : list byte) (it it' : nat) : Prop :=
  match vs with
  | [] => it = it'
  | a :: vs' =>
      exists it1, get d it = Some (any_val a, it1) /\ gets_message vs' d it1 it'
  end.

Lemma put_message_app vs d : exists bs, put_message vs d = d ++ bs.
Proof.
  revert d. induction vs as [|a vs IH]; intros d; cbn; [exists []; by rewrite app_nil_r|].
  destruct (put_appends (any_val a) d) as [b1 E1]. destruct (IH (put (any_val a) d)) as [b2 E2].
  unfold put_message in E2. rewrite E2, E1, <- app_assoc. eauto.
Qed.

Lemma gets_put_message vs d rest :
  Forall (fun a => valid (any_val a)) vs ->
  gets_message vs (put_message vs d ++ rest) (length d) (length (put_message vs d)).
Proof.
  revert d. induction vs as [|a vs IH]; intros d Hv; [done|]. apply Forall_cons in Hv as [Ha Hv].
  exists (length (put (any_val a) d)). cbn [put_message foldl]. fold (put_message vs (put (any_val a) d)).
  split; [|by apply IH]. destruct (put_message_app vs (put (any_val a) d)) as [b E].
  rewrite E, <- app_assoc. by apply get_put.
Qed.

(** C2: A message sent with [Serializer::write_to] over a reliable stream, however
    the system splits the transfers, is received by [Deserializer::read_from] as
    the same bytes; [get] in the order of the [put]s returns every value, of any
    mix of types and paddings, and ends at the end of the buffer.  The sender's
    buffer is empty again and the stream holds what followed. *)
Theorem message_roundtrip {W} `{PosixOk W} `{!Reliable W} (fd fd' : Z) (vs : list any_value) (w : W)
    (Hv : Forall (fun a => valid (any_val a)) vs)
    (Hne : put_message vs [] <> [])
    (Hlen : Z.of_nat (length (put_message vs [])) < 2 ^ 31)
    (Hw : in_flight w = []) :
  exists w1 data w2,
    write_to fd (put_message vs []) w = (Ret (true, []), w1) /\
    read_from fd' w1 = (Ret (Some data), w2) /\ in_flight w2 = [] /\
    gets_message vs data 0 (length data).
Proof.
  destruct (write_to_no_init_ok fd _ w Hne Hlen) as (w1 & E1 & H1). rewrite Hw in H1. cbn in H1.
  destruct (read_from_ok fd' (put_message vs []) [] w1 Hne Hlen) as (w2 & E2 & H2).
  { by rewrite app_nil_r. }
  exists w1, (put_message vs []), w2. split; [unfold write_to; mrun; by rewrite E1|].
  split; [done|]. split; [done|].
  pose proof (gets_put_message vs [] [] Hv) as Hg. by rewrite app_nil_r in Hg.
Qed.

(** The padding that [put] inserts aligns every plain value of [n] bytes to an
    offset that [n] divides (so that the receiver's cast reads aligned memory),
    and it is less than [n] bytes. *)
Theorem put_aligned {T} `{PodOk T} (v : T) (d : list byte) (Hv : pod_valid v)
    (Hn : (0 < pod_size T)%nat) :
  exists at_ : nat, (at_ mod pod_size T = 0)%nat /\
    (length d <= at_ < length d + pod_size T)%nat /\
    drop at_ (put_pod v d) = pod_put v.
Proof.
  exists (length (pad (pod_size T) d)). rewrite pad_length at 1 2 3.
  split; [by apply padding_aligned|]. split.
  - pose proof (Nat.mod_upper_bound (pod_size T - length d mod pod_size T) (pod_size T)).
    unfold padding. lia.
  - unfold put_pod. apply drop_app_length.
Qed.

Lemma put_aligned_witness :
  exists at_ : nat, (at_ mod pod_size uint32_t = 0)%nat /\
    (length [x78] <= at_ < length [x78] + pod_size uint32_t)%nat /\
    drop at_ (put_pod (Int 7 : uint32_t) [x78]) = pod_put (Int 7 : uint32_t).
Proof. apply (put_aligned (Int 7 : uint32_t) [x78]); [cbn; lia|cbn; lia]. Defined.

(** ** A stream that splits transfers as a schedule says *)
Record sched_stream := mkSched { ss_bytes : list byte; ss_sched : list nat }.

Definition next_len (n : nat) (w : sched_stream) : nat :=
  Nat.min n (S (default 0%nat (head (ss_sched w)))).

#[export] Instance sched_posix : Posix sched_stream := {
  sys_write := fun _ buf w =>
    let n := next_len (length buf) w in
    (Z.of_nat n, mkSched (ss_bytes w ++ take n buf) (tail (ss_sched w)));
  sys_read := fun _ n w =>
    let k := next_len (Nat.min (Z.to_nat n) (length (ss_bytes w))) w in
    (Z.of_nat k, take k (ss_bytes w), mkSched (drop k (ss_bytes w)) (tail (ss_sched w)));
  in_flight := ss_bytes
}.

#[export] Instance sched_posix_ok : PosixOk sched_stream.
Proof.
  split.
  - intros fd buf w r w' [= <- <-]. cbn. rewrite Nat2Z.id. unfold next_len. split; intros Hr.
    + split; [lia|done].
    + replace (length buf `min` _)%nat with 0%nat by lia. by rewrite take_0, app_nil_r.
  - intros fd n w r bs w' [= <- <- <-]. cbn. rewrite Nat2Z.id. unfold next_len. split; intros Hr.
    + rewrite length_take. split; [lia|]. split; [lia|]. by rewrite take_drop.
    + replace (_ `min` S _)%nat with 0%nat by lia. by rewrite drop_0.
Qed.

#[export] Instance sched_reliable : Reliable sched_stream.
Proof.
  split.
  - intros fd buf w Hne. cbn. unfold next_len. destruct buf; [done|]. cbn. lia.
  - intros fd n w Hn Hne. cbn in *. unfold next_len. destruct (ss_bytes w); [done|]. cbn. lia.
Qed.

(** A request as a proxy sends it: object, interface and function number, a
    string, a vector and a flag. *)
Definition demo_message : list any_value :=
  [mkAny (Int 42 : uint32_t); mkAny (Int 0 : int32_t); mkAny (Int 3 : int32_t);
   mkAny "ab"%string; mkAny [(Int 1 : uint64_t); Int 2]; mkAny true].

Lemma message_roundtrip_witness :
  exists w1 data w2,
    write_to 5 (put_message demo_message []) (mkSched [] [0; 2; 1]%nat) = (Ret (true, []), w1) /\
    read_from 6 w1 = (Ret (Some data), w2) /\ in_flight w2 = [] /\
    gets_message demo_message data 0 (length data).
Proof.
  apply (message_roundtrip 5 6 demo_message (mkSched [] [0; 2; 1]%nat)).
  - repeat constructor; cbn; unfold size_valid; cbn; lia.
  - discriminate.
  - vm_compute. reflexivity.
  - reflexivity.
Defined.
