(* ===== verification/Container.v ===== *)
(** * Services and their container: saftbus/service.cpp, service.hpp

    Services live in a map from object ids; a second map finds the id of an
    object path.  A service may carry a destruction callback: data of the
    client's type [CB], run by [run_cb] on the whole state, because callbacks of
    drivers destroy driver objects and remove further services. *)
From S2P Require Import Prelude StdMap.
From Stdlib Require Import Strings.Ascii.
From stdpp Require Import pretty.
Local Open Scope Z_scope.

(** ** Data *)
Record Service (CB : Type) := mkService {
  owner : Z;
  (** signal fd -> (use count, dropped signals) *)
  signal_fds : list (Z * (Z * Z));
  interface_names : list string;
  object_path : string;
  object_id : Z;
  destruction_callback : option CB;
  destroy_if_owner_quits : bool
}.
Arguments mkService {_} _ _ _ _ _ _ _.
Arguments owner {_} _.
Arguments signal_fds {_} _.
Arguments interface_names {_} _.
Arguments object_path {_} _.
Arguments object_id {_} _.
Arguments destruction_callback {_} _.
Arguments destroy_if_owner_quits {_} _.

(** [Container::Impl].  A null entry of [objects] is a service that was reset;
    [removed_services] are the pointers, named by object id.  [generator] is the
    static counter of [generate_saftbus_object_id]. *)
Record Container (CB : Type) := mkContainer {
  objects : list (Z * option (Service CB));
  object_path_lookup_table : list (string * Z);
  removed_services : list Z;
  plugins : list string;
  generator : Z
}.
Arguments mkContainer {_} _ _ _ _ _.
Arguments objects {_} _.
Arguments object_path_lookup_table {_} _.
Arguments removed_services {_} _.
Arguments plugins {_} _.
Arguments generator {_} _.

(** [server.cpp]'s [Client] and the part of [ServerConnection::Impl] that the
    container uses. *)
Record Client := mkClient {
  socket_fd : Z;
  process_id : Z;
  io_source : Z;    (* the source id of its handle *)
  signal_fd_use_count : list (Z * Z)
}.

(** The state that the calls below work on: the container, the connection and
    the state [W] of everything else. *)
Record Daemon (CB W : Type) := mkDaemon {
  container : Container CB;
  clients : list Client;
  calling_client_id : Z;
  others : W
}.
Arguments mkDaemon {_ _} _ _ _ _.
Arguments container {_ _} _.
Arguments clients {_ _} _.
Arguments calling_client_id {_ _} _.
Arguments others {_ _} _.

(** ** [Service] *)
Section Service.
Context {CB : Type}.
Implicit Types (s : Service CB).

Definition Service_new (names : list string) (cb : option CB) (destroy : bool) : Service CB :=
  mkService (-1) [] names EmptyString 0 cb destroy.

Definition is_owned s : bool := negb (owner s =? -1).
Definition set_owner (o : Z) s : Service CB :=
  mkService o (signal_fds s) (interface_names s) (object_path s) (object_id s)
    (destruction_callback s) (destroy_if_owner_quits s).
Definition release_owner s : Service CB := set_owner (-1) s.
Definition has_destruction_callback s : bool :=
  if destruction_callback s is Some _ then true else false.
Definition set_signal_fds (m : list (Z * (Z * Z))) s : Service CB :=
  mkService (owner s) m (interface_names s) (object_path s) (object_id s)
    (destruction_callback s) (destroy_if_owner_quits s).
Definition set_place (id : Z) (path : string) s : Service CB :=
  mkService (owner s) (signal_fds s) (interface_names s) path id
    (destruction_callback s) (destroy_if_owner_quits s).

(** The index of the last occurrence: every match assigns the map entry. *)
Fixpoint last_index (i : Z) (name : string) (names : list string) (acc : option Z) : option Z :=
  match names with
  | [] => acc
  | n :: names' => last_index (i + 1) name names' (if decide (name = n) then Some i else acc)
  end.

(** The map is filled also when the result is [false]. *)
Definition get_interface_name2no_map (names : list string) s : bool * list (string * Z) :=
  foldl (fun acc name =>
           let '(all_, m) := (acc : bool * list (string * Z)) in
           match last_index 0 name (interface_names s) None with
           | Some i => (all_, map_set name i m)
           | None => (false, m)
           end) (true, []) names.

(** [Service::Impl::remove_signal_fd] *)
Definition service_remove_signal_fd (fd : Z) s : Service CB :=
  set_signal_fds (map_erase fd (signal_fds s)) s.

(** [Service::emit]: [ready fd] is whether [poll] finds the descriptor writable
    at once.  The result lists the descriptors that the signal is sent to. *)
Definition emit (ready : Z -> bool) s : list Z * Service CB :=
  (foldr (fun e acc =>
            let '(fd, (use_count, _)) := e in
            if (0 <? use_count) && ready fd then fd :: acc else acc) [] (signal_fds s),
   set_signal_fds
     ((fun e : Z * (Z * Z) =>
         let '(fd, (use_count, dropped)) := e in
         if (0 <? use_count) && negb (ready fd)
         then (fd, (use_count, s32 (dropped + 1))) else e) <$> signal_fds s) s).
End Service.

(** ** Object paths *)

(** [other.find(path) == 0 && other.size() > path.size() &&
    other[path.size()] == '/'] *)
Definition slash : ascii := "/"%char.

Definition is_child_path (path other : string) : bool :=
  String.prefix path other &&
  (String.length path <? String.length other)%nat &&
  (match String.get (String.length path) other with
   | Some c => bool_decide (c = slash)
   | None => false
   end).

Definition saftbus_path : string := "/saftbus".

(** ** Messages of the exceptions *)
Definition quoted (s : string) : string :=
  String (ascii_of_nat 34) EmptyString +:+ s +:+ String (ascii_of_nat 34) EmptyString.

Definition msg_get_object (path : string) : string :=
  "cannot get object because its object_path " +:+ quoted path +:+ " was not found".
Definition msg_not_found (path : string) : string :=
  "cannot remove object " +:+ quoted path +:+ " because its object_path was not found".
Definition msg_foreign (path : string) (owner : Z) : string :=
  "cannot remove object " +:+ quoted path +:+ " because it owned by other client " +:+ pretty owner.
Definition msg_foreign_child (path child : string) (owner : Z) : string :=
  "cannot remove object " +:+ quoted path +:+ " because child object " +:+ quoted child
    +:+ " is owned by other client " +:+ pretty owner.

Section Container.
Context {CB W : Type}.
Implicit Types (c : Container CB) (s : Service CB) (st : Daemon CB W).

Definition set_objects (f : list (Z * option (Service CB)) -> list (Z * option (Service CB))) c :=
  mkContainer (f (objects c)) (object_path_lookup_table c) (removed_services c) (plugins c)
    (generator c).
Definition set_lookup (f : list (string * Z) -> list (string * Z)) c : Container CB :=
  mkContainer (objects c) (f (object_path_lookup_table c)) (removed_services c) (plugins c)
    (generator c).
Definition set_removed (f : list Z -> list Z) c : Container CB :=
  mkContainer (objects c) (object_path_lookup_table c) (f (removed_services c)) (plugins c)
    (generator c).
Definition set_plugins (f : list string -> list string) c : Container CB :=
  mkContainer (objects c) (object_path_lookup_table c) (removed_services c) (f (plugins c))
    (generator c).
Definition set_generator (g : Z) c : Container CB :=
  mkContainer (objects c) (object_path_lookup_table c) (removed_services c) (plugins c) g.

Definition on_container (f : Container CB -> Container CB) : M (Daemon CB W) unit :=
  modify (fun st => mkDaemon (f (container st)) (clients st) (calling_client_id st) (others st)).
Definition set_clients (cl : list Client) st : Daemon CB W :=
  mkDaemon (container st) cl (calling_client_id st) (others st).
Definition set_caller (id : Z) st : Daemon CB W :=
  mkDaemon (container st) (clients st) id (others st).

Definition find_service (id : Z) c : option (Service CB) :=
  match map_find id (objects c) with
  | Some (Some s) => Some s
  | _ => None
  end.
Definition update_service (id : Z) (f : Service CB -> Service CB) c : Container CB :=
  set_objects (map_update (fun os => f <$> os) id) c.

(** [while (objects.find(generator) != objects.end() || generator == 0)
    ++generator;] - at most one round per object and one for 0. *)
Fixpoint next_free (fuel : nat) (g : Z) c : option Z :=
  match fuel with
  | O => None
  | S fuel' =>
      if map_mem g (objects c) || (g =? 0) then next_free fuel' (u32 (g + 1)) c else Some g
  end.

(** The new id and the counter after [generator++]. *)
Definition generate_saftbus_object_id c : option (Z * Container CB) :=
  g ← next_free (S (S (length (objects c)))) (generator c) c;
  Some (g, set_generator (u32 (g + 1)) c).

(** ** [Container::create_object] *)
Definition create_object (path : string) (s : Service CB) c : Z * Container CB :=
  if map_mem path (object_path_lookup_table c) then (0, c)
  else match generate_saftbus_object_id c with
       | None => (0, c)
       | Some (id, c1) =>
           (id, set_lookup (map_set path id) (set_objects (map_set id (Some (set_place id path s))) c1))
       end.

(** [Container::get_object] *)
Definition get_object (path : string) : M (Daemon CB W) (Service CB) :=
  c ← gets container;
  match map_find path (object_path_lookup_table c) with
  | None => throw (Error INVALID_ARGS (msg_get_object path))
  | Some id => match find_service id c with
               | Some s => mret s
               | None => crash "null service"
               end
  end.

Definition foreign (caller : Z) s : bool := negb (owner s =? -1) && negb (owner s =? caller).

(** The loop of [removal_helper] over the lookup table. *)
Fixpoint check_children (path : string) (entries : list (string * Z)) : M (Daemon CB W) unit :=
  match entries with
  | [] => mret tt
  | (other, id) :: entries' =>
      if bool_decide (other = saftbus_path) then check_children path entries'
      else if is_child_path path other then
        st ← get;
        match find_service id (container st) with
        | None => crash "null service"
        | Some s =>
            if foreign (calling_client_id st) s
            then throw (Error INVALID_ARGS (msg_foreign_child path other (owner s)))
            else check_children path entries'
        end
      else check_children path entries'
  end.

(** ** [Container::removal_helper] *)
Definition removal_helper (path : string) : M (Daemon CB W) Z :=
  if bool_decide (path = saftbus_path)
  then throw (Error INVALID_ARGS "cannot remove /saftbus")
  else
    st ← get;
    match map_find path (object_path_lookup_table (container st)) with
    | None => throw (Error INVALID_ARGS (msg_not_found path))
    | Some id =>
        match find_service id (container st) with
        | None => crash "null service"
        | Some s =>
            if foreign (calling_client_id st) s
            then throw (Error INVALID_ARGS (msg_foreign path (owner s)))
            else
              check_children path (object_path_lookup_table (container st));;
              mret id
        end
    end.

(** ** [Container::remove_object] *)
Definition remove_object (path : string) : M (Daemon CB W) bool :=
  id ← removal_helper path;
  on_container (set_lookup (map_erase path));;
  on_container (set_objects (map_erase id));;
  mret false.

(** [Container::destroy_service], for the service with object id [id]:
    from a client's request the removal is postponed to the end of the call;
    a failing removal is only reported. *)
Definition destroy_service (id : Z) : M (Daemon CB W) unit :=
  st ← get;
  if negb (calling_client_id st =? -1) then on_container (set_removed (fun l => l ++ [id]))
  else match find_service id (container st) with
       | None => crash "destroyed service"
       | Some s =>
           try_catch (_ ← remove_object (object_path s); mret tt) (fun _ => mret tt)
       end.

(** ** Signals of clients: [Client::use_signal_fd], [Client::release_signal_fd],
    [ServerConnection::(un)register_signal_id_for_client] *)
Definition use_signal_fd (fd : Z) (cl : Client) : Client :=
  mkClient (socket_fd cl) (process_id cl) (io_source cl)
    (map_set fd (default 0 (map_find fd (signal_fd_use_count cl)) + 1) (signal_fd_use_count cl)).
Definition release_signal_fd (fd : Z) (cl : Client) : outcome Client :=
  let count := default 0 (map_find fd (signal_fd_use_count cl)) - 1 in
  let cl' := mkClient (socket_fd cl) (process_id cl) (io_source cl)
               (map_set fd count (signal_fd_use_count cl)) in
  if count <? 0 then Crash "signal use count < 0 must not happen" else Ret cl'.

(** [std::find] on the clients, by socket *)
Fixpoint update_client (fd : Z) (f : Client -> outcome Client) (cls : list Client)
    : outcome (list Client) :=
  match cls with
  | [] => Crash "assert: no such client"
  | cl :: cls' =>
      if socket_fd cl =? fd then
        match f cl with
        | Ret cl' => Ret (cl' :: cls')
        | Throw e => Throw e
        | Crash w => Crash w
        end
      else match update_client fd f cls' with
           | Ret cls'' => Ret (cl :: cls'')
           | Throw e => Throw e
           | Crash w => Crash w
           end
  end.

Definition on_client (fd : Z) (f : Client -> outcome Client) : M (Daemon CB W) unit := fun st =>
  match update_client fd f (clients st) with
  | Ret cls => (Ret tt, set_clients cls st)
  | Throw e => (Throw e, st)
  | Crash w => (Crash w, st)
  end.
Definition register_signal_id_for_client (client_fd signal_fd : Z) : M (Daemon CB W) unit :=
  on_client client_fd (fun cl => Ret (use_signal_fd signal_fd cl)).
Definition unregister_signal_id_for_client (client_fd signal_fd : Z) : M (Daemon CB W) unit :=
  on_client client_fd (release_signal_fd signal_fd).

(** ** [Container::register_proxy] *)
Definition bump_use_count (k fd : Z) s : Service CB :=
  let '(use_count, dropped) := default (0, 0) (map_find fd (signal_fds s)) in
  set_signal_fds (map_set fd (use_count + k, dropped) (signal_fds s)) s.

Definition register_proxy (path : string) (names : list string) (client_fd signal_fd : Z)
    : M (Daemon CB W) (Z * list (string * Z)) :=
  c ← gets container;
  match map_find path (object_path_lookup_table c) with
  | None => mret (0, [])
  | Some id =>
      match map_find id (objects c) with
      | None => crash "assert: lookup table is not correct"
      | Some None => crash "null service"
      | Some (Some s) =>
          match get_interface_name2no_map names s with
          | (true, m) =>
              on_container (update_service id (bump_use_count 1 signal_fd));;
              register_signal_id_for_client client_fd signal_fd;;
              mret (id, m)
          | (false, m) => mret (-1, m)
          end
      end
  end.

(** ** [Container::unregister_proxy] *)
Definition unregister_proxy (id client_fd signal_fd : Z) : M (Daemon CB W) unit :=
  c ← gets container;
  match map_find id (objects c) with
  | None => mret tt
  | Some None => crash "null service"
  | Some (Some s) =>
      let use_count := (default (0, 0) (map_find signal_fd (signal_fds s))).1 - 1 in
      on_container (update_service id (bump_use_count (-1) signal_fd));;
      unregister_signal_id_for_client client_fd signal_fd;;
      if use_count =? 0
      then on_container (update_service id (service_remove_signal_fd signal_fd))
      else mret tt
  end.

(** [Container::remove_signal_fd] *)
Definition remove_signal_fd (fd : Z) (c : Container CB) : Container CB :=
  set_objects (fmap (fun p : Z * option (Service CB) =>
                       (p.1, service_remove_signal_fd fd <$> p.2))) c.

(** ** Callbacks *)
Context (run_cb : CB -> M (Daemon CB W) unit).

Definition run_destruction_callback s : M (Daemon CB W) unit :=
  match destruction_callback s with
  | Some cb => run_cb cb
  | None => mret tt
  end.

(** The end of [Container::call_service]: destroy the services that the call
    asked to destroy. *)
Fixpoint remove_removed (ids : list Z) : M (Daemon CB W) unit :=
  match ids with
  | [] => mret tt
  | id :: ids' =>
      c ← gets container;
      match find_service id c with
      | None => crash "destroyed service"
      | Some s =>
          run_destruction_callback s;;
          c' ← gets container;
          match find_service id c' with
          | None => crash "destroyed service"
          | Some s' =>
              try_catch (_ ← remove_object (object_path s'); mret tt)
                (fun e => match e with
                          | OtherException => throw e   (* only runtime_error is caught *)
                          | _ => mret tt
                          end)
          end;;
          remove_removed ids'
      end
  end.

(** [service->call(client_fd, received, send)] is virtual: [call] is the code of
    the service with the given object id. *)
Definition call_service {R} (call : Z -> Z -> M (Daemon CB W) R) (id client_fd : Z)
    : M (Daemon CB W) (option R) :=
  c ← gets container;
  match map_find id (objects c) with
  | None => mret None
  | Some None => crash "null service"
  | Some (Some _) =>
      r ← call id client_fd;
      removed ← gets (fun st => removed_services (container st));
      remove_removed removed;;
      on_container (set_removed (fun _ => []));;
      mret (Some r)
  end.

(** ** [Container::client_hung_up] *)

(** [std::find(objects.rbegin(), objects.rend(), fd)] *)
Definition last_owned (fd : Z) c : option (Z * Service CB) :=
  last (omap (fun p : Z * option (Service CB) =>
                match p.2 with
                | Some s => if owner s =? fd then Some (p.1, s) else None
                | None => None
                end) (objects c)).

(** A reverse iterator to the entry of [id] holds an iterator to the entry behind it
    (nothing at the end); what it points to is the entry before that one, at the time of
    its use.  [None]: that entry is gone, or there is none before it. *)
Definition entry_behind (id : Z) c : option Z := fst <$> List.find (fun p => id <? p.1) (objects c).
Definition entry_before (base : option Z) c : option (Z * option (Service CB)) :=
  match base with
  | None => last (objects c)
  | Some b => if map_mem b (objects c) then last (List.filter (fun p => p.1 <? b) (objects c)) else None
  end.

(** One round of the endless loop, for the service that was found: what the callback
    leaves of the container decides which object the iterator means then. *)
Definition hang_up_service (id : Z) (s : Service CB) : M (Daemon CB W) unit :=
  base ← gets (fun st => entry_behind id (container st));
  run_destruction_callback s;;
  c ← gets container;
  match entry_before base c with
  | None => crash "iterator of an erased service"
  | Some (_, None) => crash "null service"
  | Some (id', Some s') =>
      if has_destruction_callback s' && destroy_if_owner_quits s' then
        try_catch (_ ← remove_object (object_path s'); mret tt)
          (fun e => match e with OtherException => throw e | _ => mret tt end)
      else on_container (update_service id' release_owner)
  end.

(** [None]: [fuel] rounds were not enough. *)
Fixpoint client_hung_up (fuel : nat) (fd : Z) : M (Daemon CB W) (option unit) :=
  c ← gets container;
  match last_owned fd c with
  | None => mret (Some tt)
  | Some (id, s) =>
      match fuel with
      | O => mret None
      | S fuel' => hang_up_service id s;; client_hung_up fuel' fd
      end
  end.

(** ** Plugins *)

(** [load_plugin]: [open_plugin] is [LibraryLoader]'s constructor ([dlopen]),
    [create_services] the entry function of the plugin. *)
Definition load_plugin (open_plugin : string -> M (Daemon CB W) unit)
    (create_services : string -> list string -> M (Daemon CB W) unit)
    (so_filename : string) (args : list string) : M (Daemon CB W) bool :=
  c ← gets container;
  (if bool_decide (so_filename ∈ plugins c) then mret tt
   else open_plugin so_filename;; on_container (set_plugins (fun l => l ++ [so_filename])));;
  create_services so_filename args;;
  mret true.

Definition unload_plugin (so_filename : string) : M (Daemon CB W) bool :=
  c ← gets container;
  if bool_decide (last (plugins c) = Some so_filename)
  then on_container (set_plugins (fun l => take (length l - 1) l));; mret true
  else mret false.

(** ** [Container_Service::call], case [remove_object]: the removal is checked
    before the callback runs. *)
Definition service_remove_object (path : string) : M (Daemon CB W) bool :=
  id ← removal_helper path;
  c ← gets container;
  match find_service id c with
  | None => crash "null service"
  | Some s =>
      run_destruction_callback s;;
      c' ← gets container;
      (if map_mem path (object_path_lookup_table c')
       then _ ← remove_object path; mret tt
       else mret tt);;
      mret true
  end.

(** ** Clearing the container *)

(** [reset_children_first]: [fuel] bounds the depth of the recursion.  The
    range-for visits the objects that are there when it starts; only values
    change meanwhile (and a null entry 0 may be added for an unknown path). *)
Fixpoint reset_children_first (fuel : nat) (path : string) (c : Container CB)
    : option (Container CB) :=
  match fuel with
  | O => None
  | S fuel' =>
      if bool_decide (path = saftbus_path) then Some c
      else
        '(found, c') ← foldl (fun acc id =>
            '(found, c) ← (acc : option (bool * Container CB));
            match find_service id c with
            | Some s =>
                if is_child_path path (object_path s)
                then c'' ← reset_children_first fuel' (object_path s) c; Some (true, c'')
                else Some (found, c)
            | None => Some (found, c)
            end) (Some (false, c)) (objects c).*1;
        if (found : bool) then Some c'
        else
          let id := default 0 (map_find path (object_path_lookup_table c')) in
          Some (set_lookup (map_erase path) (set_objects (map_set id None) c'))
  end.

(** Erase every reset entry. *)
Definition erase_reset (c : Container CB) : Container CB :=
  set_objects (filter (fun p => is_Some p.2)) c.

(** [Container::Impl::clear]; the callback of the youngest object runs first. *)
Fixpoint clear_objects (fuel : nat) : M (Daemon CB W) unit :=
  c ← gets container;
  if (length (objects c) <=? 1)%nat then
    on_container (set_lookup (fun _ => []))
  else match fuel with
       | O => crash "Container::clear does not return"
       | S fuel' =>
           match last (objects c) with
           | Some (id, Some s) =>
               run_destruction_callback s;;
               c' ← gets container;
               match find_service id c' with
               | None => crash "iterator of an erased service"
               | Some s' =>
                   match reset_children_first (S (length (objects c'))) (object_path s') c' with
                   | None => crash "reset_children_first does not return"
                   | Some c'' => on_container (fun _ => erase_reset c'')
                   end
               end;;
               clear_objects fuel'
           | _ => crash "null service"
           end
       end.
End Container.
