(* ===== verification/ContainerCorrect.v ===== *)
(** * The container is correct

    The two maps of the container stay consistent; ids are fresh; removal
    succeeds exactly when it is allowed and otherwise changes nothing; the
    services of a client that hung up are destroyed, provided that no other
    client owns an object below them. *)
From S2P Require Import Prelude StdMap Container.
Local Open Scope Z_scope.

(** ** The invariant *)
Record cont_wf {CB} (c : Container CB) : Prop := {
  wf_objects : map_wf (objects c);
  wf_lookup : map_wf (object_path_lookup_table c);
  wf_null : forall id, map_find id (objects c) <> Some None;
  wf_place : forall id s, find_service id c = Some s ->
    id <> 0 /\ object_id s = id /\ map_find (object_path s) (object_path_lookup_table c) = Some id;
  wf_path : forall path id, map_find path (object_path_lookup_table c) = Some id ->
    exists s, find_service id c = Some s /\ object_path s = path
}.

Section Maps.
Context {CB : Type}.
Implicit Types (c : Container CB) (s : Service CB).

Lemma find_service_objects id s c :
  find_service id c = Some s <-> map_find id (objects c) = Some (Some s).
Proof. unfold find_service. destruct (map_find id (objects c)) as [[]|]; naive_solver. Qed.

Lemma find_service_set id id' os c :
  find_service id (set_objects (map_set id' os) c)
  = if decide (id = id') then os else find_service id c.
Proof.
  unfold find_service. cbn. destruct (decide (id = id')) as [->|].
  - rewrite map_find_set_eq. by destruct os.
  - by rewrite map_find_set_ne.
Qed.

Lemma find_service_erase id id' c :
  find_service id (set_objects (map_erase id') c)
  = if decide (id = id') then None else find_service id c.
Proof.
  unfold find_service. cbn. destruct (decide (id = id')) as [->|].
  - by rewrite map_find_erase_eq.
  - by rewrite map_find_erase_ne.
Qed.

Lemma find_service_update id id' f c :
  find_service id (update_service id' f c)
  = if decide (id = id') then f <$> find_service id c else find_service id c.
Proof.
  unfold find_service, update_service. cbn. destruct (decide (id = id')) as [->|].
  - rewrite map_find_update_eq. by destruct (map_find id' (objects c)) as [[]|].
  - by rewrite map_find_update_ne.
Qed.

(** ** Fresh identifiers *)
Lemma next_free_sound fuel g c g' :
  next_free fuel g c = Some g' -> map_find g' (objects c) = None /\ g' <> 0.
Proof.
  revert g. induction fuel as [|fuel IH]; intros g; cbn; [done|].
  unfold map_mem. destruct (map_find g (objects c)) eqn:E; cbn; [apply IH|].
  destruct (Z.eqb_spec g 0); [apply IH|]. intros [= <-]. done.
Qed.

Lemma next_free_none fuel g c i :
  next_free fuel g c = None -> (i < fuel)%nat -> 0 <= g < 2 ^ 32 ->
  u32 (g + Z.of_nat i) ∈ 0 :: (objects c).*1.
Proof.
  revert g i. induction fuel as [|fuel IH]; intros g i; cbn [next_free]; [lia|].
  destruct (map_mem g (objects c) || (g =? 0)) eqn:E; [|done]. intros Hn Hi Hg.
  destruct i as [|i].
  - rewrite Z.add_0_r, unsigned_wrap_small by done. apply orb_true_iff in E as [E|E].
    + right. unfold map_mem in E. destruct (map_find g (objects c)) as [os|] eqn:Ef; [|done].
      apply map_find_In in Ef. apply list_elem_of_fmap. by exists (g, os).
    + apply Z.eqb_eq in E as ->. by left.
  - specialize (IH (u32 (g + 1)) i Hn ltac:(lia) ltac:(by apply unsigned_wrap_range)).
    rewrite unsigned_wrap_add_l in IH. by replace (g + Z.of_nat (S i)) with (g + 1 + Z.of_nat i) by lia.
Qed.

Lemma wrapped_NoDup (n : nat) (g : Z) :
  Z.of_nat n <= 2 ^ 32 -> NoDup ((fun i => u32 (g + Z.of_nat i)) <$> seq 0 n).
Proof.
  intros Hn. apply NoDup_fmap_2_strong; [|apply NoDup_seq].
  intros i j [_ Hi]%elem_of_seq [_ Hj]%elem_of_seq E. unfold unsigned_wrap in E.
  apply Nat2Z.inj.
  assert ((Z.of_nat i - Z.of_nat j) mod 2 ^ 32 = 0) as E0.
  { replace (Z.of_nat i - Z.of_nat j) with ((g + Z.of_nat i) - (g + Z.of_nat j)) by lia.
    rewrite Zminus_mod, E, Z.sub_diag. done. }
  apply Z.mod_divide in E0 as [k Hk]; [|lia]. nia.
Qed.

Lemma next_free_complete g c :
  Z.of_nat (length (objects c)) + 2 <= 2 ^ 32 -> 0 <= g < 2 ^ 32 ->
  exists g', next_free (S (S (length (objects c)))) g c = Some g'.
Proof.
  intros Hn Hg. destruct (next_free _ g c) as [g'|] eqn:E; [eauto|]. exfalso.
  pose proof (wrapped_NoDup (S (S (length (objects c)))) g ltac:(lia)) as Hnd.
  apply NoDup_submseteq with (k := 0 :: (objects c).*1) in Hnd.
  - apply submseteq_length in Hnd. cbn [length] in Hnd.
    rewrite !length_fmap, length_seq in Hnd. lia.
  - intros x (i & -> & [_ Hi]%elem_of_seq)%list_elem_of_fmap.
    eapply next_free_none; [exact E|lia|done].
Qed.

(** [create_object] gives a service under a new path an identifier that is
    not 0 and that no object has, also after the counter has wrapped around,
    and enters it in both maps; for a path in use it returns 0 and changes
    nothing.  The maps stay consistent. *)
Theorem create_object_correct c path s id c'
    (Hwf : cont_wf c) (Hgen : 0 <= generator c < 2 ^ 32)
    (Hsize : Z.of_nat (length (objects c)) + 2 <= 2 ^ 32)
    (Hrun : create_object path s c = (id, c')) :
  cont_wf c' /\
  match map_find path (object_path_lookup_table c) with
  | Some _ => id = 0 /\ c' = c
  | None =>
      id <> 0 /\ find_service id c = None /\
      map_find path (object_path_lookup_table c') = Some id /\
      find_service id c' = Some (set_place id path s) /\
      forall id', id' <> id -> find_service id' c' = find_service id' c
  end.
Proof.
  unfold create_object, map_mem in Hrun.
  destruct (map_find path (object_path_lookup_table c)) as [i|] eqn:El;
    [by injection Hrun as <- <-|].
  unfold generate_saftbus_object_id in Hrun.
  destruct (next_free_complete (generator c) c Hsize Hgen) as [g Eg]. rewrite Eg in Hrun.
  cbn in Hrun. injection Hrun as <- <-.
  destruct (next_free_sound _ _ _ _ Eg) as [Hfresh Hg0].
  set (c1 := set_objects (map_set g (Some (set_place g path s))) (set_generator (u32 (g + 1)) c)).
  assert (forall id', find_service id' c1
    = if decide (id' = g) then Some (set_place g path s) else find_service id' c) as Hfind
    by (intros id'; unfold c1; rewrite find_service_set; done).
  assert (find_service g c = None) as Hnone by (unfold find_service; by rewrite Hfresh).
  destruct Hwf as [Ho Hl Hnull Hplace Hpath]. split.
  - split.
    + by apply map_wf_set.
    + by apply map_wf_set.
    + intros id. cbn. destruct (decide (id = g)) as [->|].
      * by rewrite map_find_set_eq.
      * by rewrite map_find_set_ne.
    + intros id s'. change (find_service id (set_lookup _ c1)) with (find_service id c1).
      rewrite Hfind. cbn. destruct (decide (id = g)) as [->|Hne].
      * intros [= <-]. cbn. by rewrite map_find_set_eq.
      * intros Hs. destruct (Hplace _ _ Hs) as (H0 & Hid & Hp). split; [done|]. split; [done|].
        rewrite map_find_set_ne; [done|]. intros E. rewrite E in Hp. congruence.
    + intros p id. cbn. change (find_service id (set_lookup _ c1)) with (find_service id c1).
      destruct (decide (p = path)) as [->|Hne].
      * rewrite map_find_set_eq. intros [= <-]. exists (set_place g path s). split; [|done].
        change (find_service g c1 = Some (set_place g path s)).
        rewrite Hfind. by rewrite decide_True.
      * rewrite map_find_set_ne by done. intros Hp. destruct (Hpath _ _ Hp) as (s' & Hs & E).
        exists s'. split; [|done]. change (find_service id c1 = Some s').
        rewrite Hfind, decide_False; [done|]. congruence.
  - split; [done|]. split; [done|]. split; [cbn; by rewrite map_find_set_eq|].
    split; [change (find_service g c1 = Some (set_place g path s)); by rewrite Hfind, decide_True|].
    intros id' Hne. change (find_service id' c1 = find_service id' c).
    by rewrite Hfind, decide_False.
Qed.
End Maps.

(** ** Removal *)
Section Removal.
Context {CB W : Type}.
Implicit Types (c : Container CB) (s : Service CB) (st : Daemon CB W).

(** What a client may remove: an object that is its own or nobody's, with no
    descendant that belongs to somebody else. *)
Definition no_foreign_child (caller : Z) (path : string) c : Prop :=
  forall id s, find_service id c = Some s -> object_path s <> saftbus_path ->
    is_child_path path (object_path s) = true -> foreign caller s = false.

Definition removable (caller : Z) (path : string) c : Prop :=
  path <> saftbus_path /\
  (exists id s, map_find path (object_path_lookup_table c) = Some id /\
     find_service id c = Some s /\ foreign caller s = false) /\
  no_foreign_child caller path c.

Definition erase_object (id : Z) (path : string) c : Container CB :=
  set_objects (map_erase id) (set_lookup (map_erase path) c).

Lemma erase_object_wf id path c :
  cont_wf c -> map_find path (object_path_lookup_table c) = Some id ->
  cont_wf (erase_object id path c).
Proof.
  intros [Ho Hl Hnull Hplace Hpath] Hid. destruct (Hpath _ _ Hid) as (s0 & Hs0 & Ep0).
  split.
  - by apply map_wf_erase.
  - by apply map_wf_erase.
  - intros id'. cbn. destruct (decide (id' = id)) as [->|].
    + by rewrite map_find_erase_eq.
    + by rewrite map_find_erase_ne.
  - intros id' s. unfold erase_object. rewrite find_service_erase. cbn.
    destruct (decide (id' = id)) as [|Hne]; [done|]. intros Hs.
    change (find_service id' c = Some s) in Hs. destruct (Hplace _ _ Hs) as (? & ? & Hp).
    split; [done|]. split; [done|]. rewrite map_find_erase_ne; [done|]. intros E. rewrite E in Hp. congruence.
  - intros p id'. cbn. destruct (decide (p = path)) as [->|Hne].
    + by rewrite map_find_erase_eq.
    + rewrite map_find_erase_ne by done. intros Hp. destruct (Hpath _ _ Hp) as (s & Hs & E).
      exists s. split; [|done]. unfold erase_object. rewrite find_service_erase, decide_False; [done|].
      intros ->. congruence.
Qed.

Lemma check_children_spec path entries st :
  (forall p id, (p, id) ∈ entries -> exists s, find_service id (container st) = Some s /\ object_path s = p) ->
  (check_children path entries st = (Ret tt, st) /\
     forall p id s, (p, id) ∈ entries -> find_service id (container st) = Some s ->
       p <> saftbus_path -> is_child_path path p = true -> foreign (calling_client_id st) s = false) \/
  (exists what, check_children path entries st = (Throw (Error INVALID_ARGS what), st) /\
     exists p id s, (p, id) ∈ entries /\ find_service id (container st) = Some s /\
       p <> saftbus_path /\ is_child_path path p = true /\ foreign (calling_client_id st) s = true).
Proof.
  induction entries as [|[p id] entries IH]; intros Hin; cbn [check_children].
  - left. split; [done|]. intros p id s Hx. by apply not_elem_of_nil in Hx.
  - destruct IH as [[E H]|(what & E & H)]; [intros; apply Hin; by right|..];
      destruct (Hin p id ltac:(by left)) as (s & Hs & Ep);
      (case_bool_decide; [|destruct (is_child_path path p) eqn:Ec]); mrun; rewrite ?Hs.
    + left. split; [done|]. intros p' id' s' [[= -> ->]|Hx]%elem_of_cons; [done|eauto].
    + destruct (foreign (calling_client_id st) s) eqn:Ef.
      * right. eexists. split; [done|]. exists p, id, s. split; [by left|done].
      * left. split; [done|]. intros p' id' s' [[= -> ->]|Hx]%elem_of_cons; [congruence|eauto].
    + left. split; [done|]. intros p' id' s' [[= -> ->]|Hx]%elem_of_cons; [congruence|eauto].
    + right. exists what. split; [done|]. destruct H as (p' & id' & s' & Hx & H).
      exists p', id', s'. split; [by right|done].
    + right. destruct (foreign (calling_client_id st) s) eqn:Ef.
      * eexists. split; [done|]. exists p, id, s. split; [by left|done].
      * exists what. split; [done|]. destruct H as (p' & id' & s' & Hx & H).
        exists p', id', s'. split; [by right|done].
    + right. exists what. split; [done|]. destruct H as (p' & id' & s' & Hx & H).
      exists p', id', s'. split; [by right|done].
Qed.

Lemma removal_helper_spec path st :
  cont_wf (container st) ->
  (exists id, removal_helper path st = (Ret id, st) /\
     removable (calling_client_id st) path (container st) /\
     map_find path (object_path_lookup_table (container st)) = Some id) \/
  (exists what, removal_helper path st = (Throw (Error INVALID_ARGS what), st) /\
     ~ removable (calling_client_id st) path (container st)).
Proof.
  intros Hwf. pose proof Hwf as [Ho Hl Hnull Hplace Hpath]. unfold removal_helper, removable.
  case_bool_decide as Hroot; [right; eexists; split; [done|]; tauto|]. mrun.
  destruct (map_find path _) as [id|] eqn:Eid.
  2: { right. eexists. split; [done|]. intros (_ & (id & s & H & _) & _). done. }
  destruct (Hpath _ _ Eid) as (s & Hs & Ep). rewrite Hs.
  destruct (foreign _ s) eqn:Ef.
  { right. eexists. split; [done|]. intros (_ & (id' & s' & H1 & H2 & H3) & _).
    assert (id' = id) as -> by congruence. congruence. }
  destruct (check_children_spec path (object_path_lookup_table (container st)) st)
    as [[E H]|(what & E & p & i & s' & Hx & H1 & H2 & H3 & H4)].
  - intros p i Hx. apply Hpath. by apply map_wf_find.
  - left. exists id. rewrite E. split; [done|]. split; [|done]. split; [done|]. split; [eauto|].
    intros i s' Hs' Hne Hc. destruct (Hplace _ _ Hs') as (_ & _ & Hp).
    eapply H; [by eapply map_find_In|done..].
  - right. exists what. rewrite E. split; [done|]. intros (_ & _ & Hnf).
    assert (map_find p (object_path_lookup_table (container st)) = Some i) as Hp by (by apply map_wf_find).
    destruct (Hpath _ _ Hp) as (s2 & Hs2 & Ep2). assert (s2 = s') as -> by congruence. subst p.
    rewrite (Hnf i s' H1 H2 H3) in H4. done.
Qed.

Lemma remove_object_spec path st :
  cont_wf (container st) ->
  (exists id, removable (calling_client_id st) path (container st) /\
     map_find path (object_path_lookup_table (container st)) = Some id /\
     remove_object path st = (Ret false,
       mkDaemon (erase_object id path (container st)) (clients st) (calling_client_id st) (others st))) \/
  (exists what, ~ removable (calling_client_id st) path (container st) /\
     remove_object path st = (Throw (Error INVALID_ARGS what), st)).
Proof.
  intros Hwf. unfold remove_object.
  destruct (removal_helper_spec path st Hwf) as [(id & E & Hr & Hid)|(what & E & Hr)];
    mrun; rewrite E; [left|right; eauto].
  exists id. split; [done|]. split; [done|]. reflexivity.
Qed.

(** C16: [remove_object] succeeds exactly when the object may be removed by the
    calling client, and then removes this object and nothing else; otherwise it
    throws and changes nothing.  It never dereferences a null service. *)
Theorem remove_object_correct path st (Hwf : cont_wf (container st)) :
  let '(r, st') := remove_object path st in
  (removable (calling_client_id st) path (container st) ->
    r = Ret false /\ cont_wf (container st') /\
    map_find path (object_path_lookup_table (container st')) = None /\
    forall id, find_service id (container st')
      = if decide (map_find path (object_path_lookup_table (container st)) = Some id)
        then None else find_service id (container st)) /\
  (~ removable (calling_client_id st) path (container st) ->
    (exists what, r = Throw (Error INVALID_ARGS what)) /\ st' = st).
Proof.
  destruct (remove_object_spec path st Hwf) as [(id & Hr & Hid & ->)|(what & Hr & ->)].
  - split; [|tauto]. intros _. split; [done|]. split; [by apply erase_object_wf|].
    split; [cbn; apply map_find_erase_eq|]. intros id'. cbn [container]. unfold erase_object.
    rewrite find_service_erase, Hid. do 2 case_decide; try congruence; done.
  - split; [tauto|]. eauto.
Qed.
End Removal.

(** ** What a reverse iterator points to *)
Lemma map_wf_cons_find {V} k v (l : list (Z * V)) k' v' : map_wf ((k, v) :: l) -> map_find k' l = Some v' ->
  k < k' /\ map_find k' ((k, v) :: l) = Some v'.
Proof.
  intros [Hk _] Hf. pose proof (map_find_In _ _ _ Hf) as Hin. rewrite Forall_forall in Hk. specialize (Hk _ Hin). apply Z.ltb_lt in Hk. cbn in Hk.
  split; [done|]. cbn. rewrite decide_False by lia. done.
Qed.
Lemma entry_behind_spec {CB} id (c : Container CB) : map_wf (objects c) ->
  match entry_behind id c with
  | Some b => id < b /\ forall k os, map_find k (objects c) = Some os -> k <= id \/ b <= k
  | None => forall k os, map_find k (objects c) = Some os -> k <= id
  end.
Proof.
  unfold entry_behind. generalize (objects c). intros l. induction l as [|[k v] l IH]; intros Hwf; [done|]. cbn [List.find fst].
  destruct (Z.ltb_spec id k) as [Hlt|Hge]; cbn [option_map].
  - split; [done|]. intros k' os. cbn [map_find]. destruct (decide (k' = k)) as [Ek|]; [intros _; right; cbn; lia|]. intros Hf.
    destruct (map_wf_cons_find _ _ _ _ _ Hwf Hf). right. cbn. lia.
  - destruct Hwf as [_ Hwf]. specialize (IH Hwf). destruct (fst <$> List.find _ l) as [b|].
    + destruct IH as [Hb IH]. split; [done|]. intros k' os. cbn [map_find]. destruct (decide (k' = k)) as [Ek|]; [intros _; left; lia|]. apply IH.
    + intros k' os. cbn [map_find]. destruct (decide (k' = k)) as [Ek|]; [intros _; lia|]. apply IH.
Qed.
Lemma last_below {V} (l : list (Z * V)) id v (P : Z -> bool) : map_wf l -> map_find id l = Some v -> P id = true ->
  (forall k os, map_find k l = Some os -> P k = true -> k <= id) -> last (List.filter (fun p => P p.1) l) = Some (id, v).
Proof.
  induction l as [|[k w] l IH]; intros Hwf Hid HP Hle; [done|]. cbn [List.filter fst]. pose proof Hwf as [Hk Hwf'].
  cbn [map_find] in Hid. destruct (decide (id = k)) as [->|Hne].
  - injection Hid as ->. rewrite HP. replace (List.filter (fun p => P p.1) l) with (@nil (Z * V)); [done|].
    symmetry. destruct (List.filter (fun p => P p.1) l) as [|[k' v'] l'] eqn:E; [done|]. exfalso.
    assert (In (k', v') (List.filter (fun p => P p.1) l)) as Hin by (rewrite E; by left). apply filter_In in Hin as [Hin HP'].
    apply list_elem_of_In in Hin. pose proof (map_wf_find _ _ _ Hwf' Hin) as Hf. destruct (map_wf_cons_find _ _ _ _ _ Hwf Hf) as [Hlt Hf'].
    specialize (Hle _ _ Hf' HP'). lia.
  - assert (last (List.filter (fun p => P p.1) l) = Some (id, v)) as E.
    { apply IH; [done..|]. intros k' os Hf. apply (Hle k' os). by apply (map_wf_cons_find _ _ _ _ _ Hwf). }
    destruct (P k); [|done]. by rewrite last_cons, E.
Qed.
Lemma filter_true {V} (l : list V) : List.filter (fun _ => true) l = l.
Proof. induction l as [|x l IH]; [done|]. cbn. by rewrite IH. Qed.
Lemma entry_behind_mem {CB} id (c : Container CB) b : entry_behind id c = Some b -> map_mem b (objects c) = true.
Proof.
  unfold entry_behind, map_mem. induction (objects c) as [|[k v] l IH]; cbn; [done|]. destruct (id <? k); cbn.
  - intros [= ->]. by rewrite decide_True.
  - intros Hb. destruct (decide (b = k)); [done|]. by apply IH.
Qed.
Lemma entry_before_same {CB W} (st st1 : Daemon CB W) id s : map_wf (objects (container st)) -> map_wf (objects (container st1)) ->
  (forall k os, map_find k (objects (container st1)) = Some os -> exists os', map_find k (objects (container st)) = Some os') ->
  find_service id (container st1) = Some s ->
  (forall b, entry_behind id (container st) = Some b -> map_mem b (objects (container st1)) = true) ->
  entry_before (entry_behind id (container st)) (container st1) = Some (id, Some s).
Proof.
  intros Hwf Hwf1 Hsub Hs%find_service_objects Hb. pose proof (entry_behind_spec id _ Hwf) as Hspec. unfold entry_before.
  destruct (entry_behind id (container st)) as [b|].
  - destruct Hspec as [Hlt Hk]. rewrite (Hb b eq_refl). apply (last_below _ _ _ (fun k => k <? b)); [done|done|lia|].
    intros k os Hos Hkb%Z.ltb_lt. destruct (Hsub _ _ Hos) as [os' Hos']. destruct (Hk _ _ Hos'); lia.
  - rewrite <- (filter_true (objects (container st1))). apply (last_below _ _ _ (fun _ => true)); [done..|].
    intros k os Hos _. destruct (Hsub _ _ Hos) as [os' Hos']. by eapply Hspec.
Qed.

(** ** The interface to destruction callbacks

    A callback destroys a driver object: it may remove further services, those in
    its scope (a timing receiver's takes the objects below its own away), but
    neither adds nor changes any, and the service it belongs to is left to the
    container. *)
Section Callbacks.
Context {CB W : Type}.
Implicit Types (c : Container CB) (s : Service CB) (st : Daemon CB W).

Record shrinks st st' : Prop := {
  sh_wf : cont_wf (container st) -> cont_wf (container st');
  sh_caller : calling_client_id st' = calling_client_id st;
  sh_find : forall id s, find_service id (container st') = Some s ->
    find_service id (container st) = Some s
}.

(** [scope cb path]: the callback may remove the object with this path. *)
Definition spares (scope : CB -> string -> Prop) (cb : CB) st st' : Prop :=
  forall id s, find_service id (container st) = Some s -> ~ scope cb (object_path s) ->
    find_service id (container st') = Some s.

Class CallbacksOk (run_cb : CB -> M (Daemon CB W) unit) (scope : CB -> string -> Prop) := {
  cb_shrinks : forall cb st, cont_wf (container st) ->
    exists st', run_cb cb st = (Ret tt, st') /\ shrinks st st' /\ spares scope cb st st';
  cb_keeps : forall cb st st' id s,
    run_cb cb st = (Ret tt, st') -> find_service id (container st) = Some s ->
    destruction_callback s = Some cb -> find_service id (container st') = Some s;
  (** nor does it remove the object that comes next in the order of the ids *)
  cb_behind : forall cb st st' id s b,
    run_cb cb st = (Ret tt, st') -> find_service id (container st) = Some s ->
    destruction_callback s = Some cb -> entry_behind id (container st) = Some b ->
    map_mem b (objects (container st')) = true
}.
End Callbacks.

(** ** Hang-up *)
Section HangUp.
Context {CB W : Type} (run_cb : CB -> M (Daemon CB W) unit) (scope : CB -> string -> Prop).
Implicit Types (c : Container CB) (s : Service CB) (st : Daemon CB W).

Definition owned_ids (fd : Z) c : list Z :=
  omap (fun p : Z * option (Service CB) =>
          match p.2 with
          | Some s => if owner s =? fd then Some p.1 else None
          | None => None
          end) (objects c).

#[local] Arguments owned_ids : simpl never.
#[local] Arguments update_service : simpl never.

Lemma elem_owned_ids fd c id :
  map_wf (objects c) ->
  id ∈ owned_ids fd c <-> exists s, find_service id c = Some s /\ owner s = fd.
Proof.
  intros Hwf. unfold owned_ids. rewrite list_elem_of_omap. split.
  - intros ([id' [s|]] & Hin & E); cbn in E; [|done].
    destruct (Z.eqb_spec (owner s) fd); [|done]. injection E as ->. exists s.
    split; [|done]. apply find_service_objects. by apply map_wf_find.
  - intros (s & Hs & Ho). apply find_service_objects, map_find_In in Hs.
    exists (id, Some s). split; [done|]. cbn. by rewrite Ho, Z.eqb_refl.
Qed.

Lemma owned_ids_NoDup fd c : map_wf (objects c) -> NoDup (owned_ids fd c).
Proof.
  intros Hwf%map_wf_NoDup. unfold owned_ids. induction (objects c) as [|[id os] l IH]; cbn; [constructor|].
  cbn in Hwf. apply NoDup_cons in Hwf as [Hni Hnd]. destruct os as [s|]; [|auto].
  destruct (owner s =? fd); [|auto]. constructor; [|auto].
  intros ([id' os'] & Hin & E)%list_elem_of_omap. apply Hni. cbn in E.
  destruct os' as [s'|]; [|done]. destruct (owner s' =? fd); [|done]. injection E as ->.
  apply list_elem_of_fmap. by exists (id, Some s').
Qed.

Lemma owned_ids_lt fd c c' id :
  map_wf (objects c) -> map_wf (objects c') ->
  id ∈ owned_ids fd c -> ~ id ∈ owned_ids fd c' ->
  (forall i, i ∈ owned_ids fd c' -> i ∈ owned_ids fd c) ->
  (length (owned_ids fd c') < length (owned_ids fd c))%nat.
Proof.
  intros Hwf Hwf' Hin Hnin Hsub.
  assert (NoDup (id :: owned_ids fd c')) as Hnd by (constructor; [done|by apply owned_ids_NoDup]).
  apply NoDup_submseteq with (k := owned_ids fd c) in Hnd.
  - apply submseteq_length in Hnd. cbn in Hnd. lia.
  - intros x [->|Hx]%elem_of_cons; auto.
Qed.

Lemma last_owned_spec fd c :
  map_wf (objects c) ->
  match last_owned fd c with
  | Some (id, s) => find_service id c = Some s /\ owner s = fd
  | None => owned_ids fd c = []
  end.
Proof.
  intros Hwf. unfold last_owned, owned_ids.
  set (f := fun p : Z * option (Service CB) => match p.2 with
    | Some s => if owner s =? fd then Some (p.1, s) else None | None => None end).
  destruct (last (omap f (objects c))) as [[id s]|] eqn:E.
  - apply last_Some_elem_of in E. apply list_elem_of_omap in E as ([id' [s'|]] & Hin & E);
      cbn in E; [|done]. destruct (Z.eqb_spec (owner s') fd); [|done]. injection E as -> ->.
    split; [|done]. apply find_service_objects. by apply map_wf_find.
  - apply last_None in E. revert E. unfold f. clear Hwf f.
    induction (objects c) as [|[id [s|]] l IH]; cbn; [done| |done].
    by destruct (owner s =? fd).
Qed.

(** No other client owns an object below an object of [fd]. *)
Definition family (fd : Z) c : Prop :=
  forall id s, find_service id c = Some s -> owner s = fd -> no_foreign_child fd (object_path s) c.

(** The callbacks of the client's objects leave the object alone. *)
Definition out_of_scope (fd : Z) c (s : Service CB) : Prop :=
  forall i o cb, find_service i c = Some o -> owner o = fd -> destruction_callback o = Some cb ->
    ~ scope cb (object_path s).

(** What a round of the hang-up may do: services vanish or lose their owner. *)
Record hangs_up (fd : Z) st st' : Prop := {
  hu_wf : cont_wf (container st');
  hu_caller : calling_client_id st' = calling_client_id st;
  hu_find : forall id s', find_service id (container st') = Some s' ->
    exists s, find_service id (container st) = Some s /\
      (s' = s \/ (owner s = fd /\ s' = release_owner s /\
                  has_destruction_callback s && destroy_if_owner_quits s = false));
  hu_keep : forall id s, find_service id (container st) = Some s -> out_of_scope fd (container st) s ->
    (owner s <> fd -> find_service id (container st') = Some s) /\
    (owner s = fd -> has_destruction_callback s && destroy_if_owner_quits s = false ->
     find_service id (container st') = Some s \/ find_service id (container st') = Some (release_owner s))
}.

Lemma hangs_up_trans fd st1 st2 st3 :
  fd <> -1 -> hangs_up fd st1 st2 -> hangs_up fd st2 st3 -> hangs_up fd st1 st3.
Proof.
  intros Hfd [W1 C1 F1 K1] [W2 C2 F2 K2]. split; [done|congruence| |].
  - intros id s3 H3. destruct (F2 _ _ H3) as (s2 & H2 & D2). destruct (F1 _ _ H2) as (s1 & H1 & D1).
    exists s1. split; [done|]. destruct D2 as [->|(Ho & -> & Hd)]; [done|].
    destruct D1 as [->|(Ho' & -> & _)]; [by right|]. cbn in Ho. congruence.
  - intros id s Hs Hout.
    assert (forall s', object_path s' = object_path s -> out_of_scope fd (container st2) s') as Hout2.
    { intros s' Ep i o cb Ho Hown Hcb. rewrite Ep. destruct (F1 _ _ Ho) as (o1 & Ho1 & [->|(_ & -> & _)]).
      - by eapply Hout.
      - cbn in Hown. congruence. }
    destruct (K1 id s Hs Hout) as [Ka Kb]. split.
    + intros Hne. apply (K2 id s (Ka Hne)); [by apply Hout2|done].
    + intros Ho Hd. destruct (Kb Ho Hd) as [H2|H2].
      * by apply (K2 id s H2); [apply Hout2|..].
      * right. apply (K2 id _ H2); [by apply Hout2|]. cbn. congruence.
Qed.

Lemma hangs_up_family fd st st' : hangs_up fd st st' -> family fd (container st) -> family fd (container st').
Proof.
  intros [_ _ F _] Hfam id s Hs Ho id' s' Hs' Hroot Hch.
  destruct (F _ _ Hs) as (s0 & Hs0 & D0). destruct (F _ _ Hs') as (s1 & Hs1 & D1).
  assert (owner s0 = fd /\ object_path s0 = object_path s) as [Ho0 Ep].
  { destruct D0 as [->|(? & -> & _)]; done. }
  destruct D1 as [->|(? & -> & _)]; [|done]. rewrite <- Ep in Hch.
  by eapply (Hfam id s0 Hs0 Ho0 id' s1).
Qed.

Lemma hang_up_service_ok `{!CallbacksOk run_cb scope} fd st id s :
  fd <> -1 -> cont_wf (container st) -> calling_client_id st = fd -> family fd (container st) ->
  find_service id (container st) = Some s -> owner s = fd -> object_path s <> saftbus_path ->
  exists st', hang_up_service run_cb id s st = (Ret tt, st') /\ hangs_up fd st st' /\
    ~ id ∈ owned_ids fd (container st').
Proof.
  intros Hfd Hwf Hcall Hfam Hs Ho Hroot. unfold hang_up_service.
  assert (exists st1, run_destruction_callback run_cb s st = (Ret tt, st1) /\ shrinks st st1 /\
    (forall i s', find_service i (container st) = Some s' -> out_of_scope fd (container st) s' ->
       find_service i (container st1) = Some s') /\
    find_service id (container st1) = Some s /\
    (forall b, entry_behind id (container st) = Some b -> map_mem b (objects (container st1)) = true)) as (st1 & E1 & Hsh & Hkeep & Hs1 & Hb1).
  { unfold run_destruction_callback. destruct (destruction_callback s) as [cb|] eqn:Ecb.
    - destruct (cb_shrinks cb st Hwf) as (st1 & E1 & Hsh & Hsp). exists st1.
      split; [done|]. split; [done|]. split.
      { intros i s' Hi Hout. apply Hsp; [done|]. by apply (Hout id s cb). }
      split; [by eapply cb_keeps|]. intros b. by eapply cb_behind.
    - exists st. split; [done|]. split; [by split|]. split; [done|]. split; [done|]. apply entry_behind_mem. }
  destruct Hsh as [Hw Hc Hf]. specialize (Hw Hwf).
  assert (entry_before (entry_behind id (container st)) (container st1) = Some (id, Some s)) as Eb.
  { apply entry_before_same; [apply Hwf|apply Hw| |done|done]. intros k os Hos. destruct os as [s'|]; [|by destruct (wf_null _ Hw k)].
    exists (Some s'). by apply find_service_objects, Hf, find_service_objects. }
  mrun. rewrite E1, Eb. destruct (has_destruction_callback s && destroy_if_owner_quits s) eqn:Ed.
  - destruct (remove_object_spec (object_path s) st1 Hw) as [(id' & Hr & Hid & E)|(what & Hr & E)].
    + unfold try_catch. rewrite E. eexists. split; [done|].
      destruct (wf_place _ Hw _ _ Hs1) as (_ & _ & Hp). assert (id' = id) as -> by congruence.
      split; [split|]; cbn.
      * by apply erase_object_wf.
      * done.
      * intros i s'. unfold erase_object. rewrite find_service_erase.
        destruct (decide (i = id)); [done|]. intros Hi. exists s'. split; [by apply Hf|by left].
      * intros i s' Hi Hout. unfold erase_object. rewrite find_service_erase.
        destruct (decide (i = id)) as [->|]; [split; congruence|].
        split; [by intros _; apply Hkeep|]. intros _ _. left. by apply Hkeep.
      * rewrite elem_owned_ids by (by apply (wf_objects _ (erase_object_wf _ _ _ Hw Hid))).
        intros (s' & Hs' & _). unfold erase_object in Hs'. rewrite find_service_erase in Hs'.
        by rewrite decide_True in Hs'.
    + exfalso. apply Hr. rewrite Hc, Hcall. destruct (wf_place _ Hw _ _ Hs1) as (_ & _ & Hp).
      split; [done|]. split.
      * exists id, s. split; [done|]. split; [done|]. unfold foreign. rewrite Ho, Z.eqb_refl.
        by rewrite andb_false_r.
      * intros i s' Hi Hne Hch. by eapply (Hfam id s Hs Ho i s' (Hf _ _ Hi)).
  - eexists. split; [done|]. cbn.
    assert (forall i, find_service i (update_service id release_owner (container st1))
      = if decide (i = id) then Some (release_owner s) else find_service i (container st1)) as Hfind.
    { intros i. rewrite find_service_update. destruct (decide (i = id)) as [->|]; [by rewrite Hs1|done]. }
    assert (cont_wf (update_service id release_owner (container st1))) as Hw'.
    { destruct Hw as [H1 H2 H3 H4 H5]. split.
      - unfold update_service. cbn. by apply map_wf_update.
      - done.
      - intros i. unfold update_service. cbn. destruct (decide (i = id)) as [->|].
        + rewrite map_find_update_eq. intros Hn. specialize (H3 id).
          destruct (map_find id (objects (container st1))) as [[]|]; done.
        + by rewrite map_find_update_ne.
      - intros i s'. rewrite Hfind. destruct (decide (i = id)) as [->|]; [|apply H4].
        intros [= <-]. by apply (H4 id s).
      - intros p i Hp. change (map_find p (object_path_lookup_table (container st1)) = Some i) in Hp.
        destruct (H5 _ _ Hp) as (s' & Hs' & E). rewrite Hfind.
        destruct (decide (i = id)) as [->|]; [|eauto]. exists (release_owner s).
        split; [done|]. cbn. congruence. }
    split; [split|]; cbn; [done|done| | |].
    + intros i s'. rewrite Hfind. destruct (decide (i = id)) as [->|].
      * intros [= <-]. exists s. split; [done|]. by right.
      * intros Hi. exists s'. split; [by apply Hf|by left].
    + intros i s' Hi Hout. rewrite Hfind. destruct (decide (i = id)) as [->|].
      * assert (s' = s) as -> by congruence. split; [done|]. intros _ _. by right.
      * split; [by intros _; apply Hkeep|]. intros _ _. left. by apply Hkeep.
    + rewrite elem_owned_ids by (apply Hw'). intros (s' & Hs' & Ho'). rewrite Hfind in Hs'.
      rewrite decide_True in Hs' by done. injection Hs' as <-. cbn in Ho'. congruence.
Qed.

Lemma client_hung_up_loop `{!CallbacksOk run_cb scope} fuel fd st :
  fd <> -1 -> cont_wf (container st) -> calling_client_id st = fd -> family fd (container st) ->
  (forall id s, find_service id (container st) = Some s -> owner s = fd ->
     object_path s <> saftbus_path) ->
  (length (owned_ids fd (container st)) <= fuel)%nat ->
  exists st', client_hung_up run_cb fuel fd st = (Ret (Some tt), st') /\ hangs_up fd st st' /\
    owned_ids fd (container st') = [].
Proof.
  intros Hfd. revert st. induction fuel as [|fuel IH]; intros st Hwf Hcall Hfam Hroot Hf;
    cbn [client_hung_up]; mrun;
    pose proof (last_owned_spec fd (container st) (wf_objects _ Hwf)) as Hlast;
    destruct (last_owned fd (container st)) as [[id s]|].
  1: { destruct Hlast as [Hs Ho].
       assert (id ∈ owned_ids fd (container st)) as Hin
         by (apply elem_owned_ids; [apply Hwf|eauto]).
       destruct (owned_ids fd (container st)); [by apply not_elem_of_nil in Hin|cbn in Hf; lia]. }
  1,3: exists st; split; [done|]; split; [|done]; split;
    [done|done|intros id s Hs; exists s; split; [done|by left]|intros id s Hs _; split; [done|by left]].
  destruct Hlast as [Hs Ho].
  destruct (hang_up_service_ok fd st id s) as (st1 & E1 & Hhu & Hgone); try done; [by eapply Hroot|].
  rewrite E1.
  assert (length (owned_ids fd (container st1)) < length (owned_ids fd (container st)))%nat as Hlt.
  { apply (owned_ids_lt fd (container st) (container st1) id); [apply Hwf|apply Hhu| |done|].
    - apply elem_owned_ids; [apply Hwf|eauto].
    - intros i. rewrite !elem_owned_ids by (apply Hwf || apply Hhu).
      intros (s' & Hs' & Ho'). destruct (hu_find _ _ _ Hhu _ _ Hs') as (s0 & Hs0 & D).
      exists s0. split; [done|]. destruct D as [->|(? & ->  & _)]; done. }
  destruct (IH st1) as (st' & E & Hhu' & Hnil).
  - apply Hhu.
  - by rewrite (hu_caller _ _ _ Hhu).
  - by eapply hangs_up_family.
  - intros i s' Hs' Ho'. destruct (hu_find _ _ _ Hhu _ _ Hs') as (s0 & Hs0 & D).
    destruct D as [->|(? & -> & _)]; [by eapply Hroot|]. by eapply (Hroot i s0).
  - lia.
  - exists st'. split; [done|]. split; [|done]. by eapply hangs_up_trans.
Qed.
End HangUp.

(** C7: When a client hangs up and no other client owns an object below one of
    its objects ([family]; see [client_hung_up_diverges]), [client_hung_up] ends
    after at most one round per owned object.  Then nothing is owned by the client
    any more, and its destructible objects that follow their owner are gone.  The
    objects of others stay, all of them, as they were, and its other objects stay
    released, unless one of the callbacks of the client's objects has them in its
    scope; no object appears.  The client does not own the container itself, and
    the callbacks keep to the interface [CallbacksOk]: they return, add and change
    nothing, and remove neither their own object nor the next one in the order of
    the ids. *)
Theorem client_hung_up_correct {CB W} (run_cb : CB -> M (Daemon CB W) unit)
    (scope : CB -> string -> Prop) `{!CallbacksOk run_cb scope} (fd : Z) (st : Daemon CB W) (fuel : nat)
    (Hfd : fd <> -1) (Hcall : calling_client_id st = fd)
    (Hwf : cont_wf (container st)) (Hfam : family fd (container st))
    (Hroot : forall id s, find_service id (container st) = Some s -> owner s = fd ->
       object_path s <> saftbus_path)
    (Hfuel : (length (objects (container st)) <= fuel)%nat) :
  exists st', client_hung_up run_cb fuel fd st = (Ret (Some tt), st') /\
    cont_wf (container st') /\
    (forall id s', find_service id (container st') = Some s' -> owner s' <> fd) /\
    (forall id s, find_service id (container st) = Some s -> owner s = fd ->
       has_destruction_callback s && destroy_if_owner_quits s = true ->
       find_service id (container st') = None) /\
    (forall id s, find_service id (container st) = Some s -> owner s <> fd ->
       out_of_scope scope fd (container st) s -> find_service id (container st') = Some s) /\
    (forall id s, find_service id (container st) = Some s -> owner s = fd ->
       has_destruction_callback s && destroy_if_owner_quits s = false ->
       out_of_scope scope fd (container st) s -> find_service id (container st') = Some (release_owner s)) /\
    (forall id s', find_service id (container st') = Some s' ->
       exists s, find_service id (container st) = Some s /\
         (s' = s \/ owner s = fd /\ s' = release_owner s)).
Proof.
  destruct (client_hung_up_loop run_cb scope fuel fd st) as (st' & E & [Hw Hc Hf Hk] & Hnil); try done.
  - etrans; [|exact Hfuel]. unfold owned_ids.
    generalize (objects (container st)). intros l. induction l as [|[id [s|]] l IH]; cbn; [done| |lia].
    destruct (owner s =? fd); cbn; lia.
  - assert (forall id s', find_service id (container st') = Some s' -> owner s' <> fd) as Hnone.
    { intros id s' Hs' Ho. assert (id ∈ owned_ids fd (container st')) as Hin
        by (apply elem_owned_ids; [apply Hw|eauto]).
      rewrite Hnil in Hin. by apply not_elem_of_nil in Hin. }
    exists st'. split; [done|]. split; [done|]. split; [done|]. split.
    + intros id s Hs Ho Hd. destruct (find_service id (container st')) as [s'|] eqn:Es'; [|done].
      exfalso. destruct (Hf _ _ Es') as (s0 & Hs0 & D). assert (s0 = s) as -> by congruence.
      destruct D as [->|(_ & _ & Hd')]; [by eapply Hnone|congruence].
    + split; [|split].
      * intros id s Hs Ho Hout. by apply (Hk id s Hs Hout).
      * intros id s Hs Ho Hd Hout. destruct (Hk id s Hs Hout) as [_ Hrel].
        destruct (Hrel Ho Hd) as [Hs'|]; [|done]. by destruct (Hnone _ _ Hs').
      * intros id s' Hs'. destruct (Hf _ _ Hs') as (s0 & Hs0 & D). exists s0. split; [done|].
        destruct D as [->|(Ho & -> & _)]; auto.
Qed.

(** If another client owns an object below the last object of the client that
    hung up, [client_hung_up] never returns: [remove_object] throws, the
    exception is swallowed, the owner stays, and the same service is found
    again, for any number of rounds. *)
Theorem client_hung_up_diverges {CB W} (run_cb : CB -> M (Daemon CB W) unit)
    (fd : Z) (st : Daemon CB W) (id : Z) (s : Service CB) (cb : CB)
    (child : string) (cid : Z) (cs : Service CB)
    (Hlast : last_owned fd (container st) = Some (id, s))
    (Hwf : cont_wf (container st))
    (Hcall : calling_client_id st = fd)
    (Hcb : destruction_callback s = Some cb) (Hquit : destroy_if_owner_quits s = true)
    (Hrun : run_cb cb st = (Ret tt, st))
    (Hchild : find_service cid (container st) = Some cs)
    (Hpath : is_child_path (object_path s) (object_path cs) = true)
    (Hroot : object_path cs <> saftbus_path)
    (Hforeign : owner cs <> -1 /\ owner cs <> fd) :
  forall fuel, client_hung_up run_cb fuel fd st = (Ret None, st).
Proof.
  pose proof (last_owned_spec fd (container st) (wf_objects _ Hwf)) as Hl. rewrite Hlast in Hl.
  destruct Hl as [Hs Ho].
  assert (hang_up_service run_cb id s st = (Ret tt, st)) as Hround.
  { unfold hang_up_service, run_destruction_callback. rewrite Hcb. mrun. rewrite Hrun.
    rewrite (entry_before_same st st id s); [|apply Hwf|apply Hwf|eauto|done|intros b; apply entry_behind_mem].
    unfold has_destruction_callback. rewrite Hcb, Hquit. cbn [andb]. unfold try_catch.
    destruct (remove_object_spec (object_path s) st Hwf) as [(id' & Hr & _)|(what & _ & E)];
      [|by rewrite E].
    destruct Hr as (_ & _ & Hnf). specialize (Hnf cid cs Hchild Hroot Hpath).
    unfold foreign in Hnf. rewrite Hcall in Hnf. destruct Hforeign as [H1 H2].
    apply Z.eqb_neq in H1, H2. rewrite H1, H2 in Hnf. done. }
  intros fuel. induction fuel as [|fuel IH]; cbn [client_hung_up]; mrun; rewrite Hlast; [done|].
  by rewrite Hround.
Qed.

(** ** Objects by their paths *)
Section AtPath.
Context {CB W : Type}.
Implicit Types (c : Container CB) (st : Daemon CB W).
Definition at_path c (path : string) : option (Service CB) :=
  id ← map_find path (object_path_lookup_table c); find_service id c.
Lemma at_path_service c id s : cont_wf c -> find_service id c = Some s -> at_path c (object_path s) = Some s.
Proof. intros Hwf Hs. destruct (wf_place _ Hwf _ _ Hs) as (_ & _ & Hp). unfold at_path. by rewrite Hp. Qed.
Lemma at_path_name c path s : cont_wf c -> at_path c path = Some s -> object_path s = path.
Proof.
  unfold at_path. intros Hwf Hs. destruct (map_find path _) as [id|] eqn:E; [|done]. destruct (wf_path _ Hwf _ _ E) as (s' & Hs' & Ep). cbn in Hs. congruence.
Qed.
Lemma at_path_erase c id path q : cont_wf c -> map_find path (object_path_lookup_table c) = Some id ->
  at_path (erase_object id path c) q = if decide (q = path) then None else at_path c q.
Proof.
  intros Hwf Hid. unfold at_path. change (object_path_lookup_table (erase_object id path c)) with (map_erase path (object_path_lookup_table c)).
  destruct (decide (q = path)) as [->|Hne]; [by rewrite map_find_erase_eq|]. rewrite map_find_erase_ne by done.
  destruct (map_find q (object_path_lookup_table c)) as [i|] eqn:E; [|done]. cbn. unfold erase_object. rewrite find_service_erase, decide_False; [done|].
  intros ->. destruct (wf_path _ Hwf _ _ Hid) as (s1 & Hs1 & E1), (wf_path _ Hwf _ _ E) as (s2 & Hs2 & E2). congruence.
Qed.

(** Ids for [n] more objects. *)
Definition room (n : nat) c : Prop := 0 <= generator c < 2 ^ 32 /\ Z.of_nat (length (objects c)) + Z.of_nat n + 2 <= 2 ^ 32.
Lemma length_map_set {V} k (v : V) (l : list (Z * V)) : (length (map_set k v l) <= S (length l))%nat.
Proof. induction l as [|[k' v'] l IH]; [done|]. cbn. destruct (decide (k = k')); [cbn; lia|]. destruct (key_lt k k'); cbn; lia. Qed.
Lemma create_object_at c n path s : cont_wf c -> room (S n) c -> map_find path (object_path_lookup_table c) = None ->
  let c' := (create_object path s c).2 in
  cont_wf c' /\ room n c' /\ (forall q, map_find q (object_path_lookup_table c') = None <-> q <> path /\ map_find q (object_path_lookup_table c) = None) /\
  exists id, forall q, at_path c' q = if decide (q = path) then Some (set_place id path s) else at_path c q.
Proof.
  intros Hwf [Hg Hsz] Hnone c'. destruct (create_object path s c) as [id c1] eqn:E. change c' with c1. clear c'.
  destruct (create_object_correct c path s id c1 Hwf Hg ltac:(lia) E) as [Hwf' Hc]. rewrite Hnone in Hc. destruct Hc as (Hid & Hfresh & Hl & Hs & Hrest).
  assert (exists g, object_path_lookup_table c1 = map_set path id (object_path_lookup_table c) /\ objects c1 = map_set id (Some (set_place id path s)) (objects c) /\ generator c1 = u32 g) as (g & El & Eo & Eg).
  { unfold create_object, map_mem in E. rewrite Hnone in E. unfold generate_saftbus_object_id in E.
    destruct (next_free _ _ c) as [g|]; cbn in E; injection E as <- <-; [by exists (g + 1)|done]. }
  split; [done|]. split.
  { split; [rewrite Eg; apply unsigned_wrap_range; lia|]. rewrite Eo. pose proof (length_map_set id (Some (set_place id path s)) (objects c)). lia. }
  assert (forall q, map_find q (object_path_lookup_table c1) = if decide (q = path) then Some id else map_find q (object_path_lookup_table c)) as Hq.
  { intros q. rewrite El. destruct (decide (q = path)) as [->|]; [apply map_find_set_eq|by apply map_find_set_ne]. }
  split.
  { intros q. rewrite Hq. destruct (decide (q = path)); [split; [done|intros []; done]|]. tauto. }
  exists id. intros q. unfold at_path. rewrite Hq. destruct (decide (q = path)) as [->|Hne]; [exact Hs|].
  destruct (map_find q (object_path_lookup_table c)) as [i|] eqn:Ei; [|done]. cbn. apply Hrest. intros ->.
  destruct (wf_path _ Hwf _ _ Ei) as (s' & Hs' & _). congruence.
Qed.

(** Objects at the paths [ps] that the client may remove in any order: nobody else owns
    one of them or an object below. *)
Record removables (client : Z) (ps : list string) c : Prop := {
  rm_distinct : NoDup ps;
  rm_there : forall p, p ∈ ps -> p <> saftbus_path /\ exists s, at_path c p = Some s /\ foreign client s = false;
  rm_children : forall p q s, p ∈ ps -> at_path c q = Some s -> is_child_path p q = true -> foreign client s = false
}.
Lemma removables_nil client c : removables client [] c.
Proof. split; [constructor|by intros p ?%not_elem_of_nil|by intros p q s ?%not_elem_of_nil]. Qed.
Lemma remove_all ps : forall st, cont_wf (container st) -> removables (calling_client_id st) ps (container st) ->
  exists c', for_each (fun p => _ ← remove_object p; mret tt) ps st = (Ret tt, mkDaemon c' (clients st) (calling_client_id st) (others st)) /\
    cont_wf c' /\ (forall n, room n (container st) -> room n c') /\
    forall q, at_path c' q = if decide (q ∈ ps) then None else at_path (container st) q.
Proof.
  induction ps as [|p ps IH]; intros st Hwf [Hnd Hth Hlv].
  - exists (container st). split; [by destruct st|]. split; [done|]. split; [done|]. intros q. by rewrite decide_False by apply not_elem_of_nil.
  - destruct (Hth p ltac:(by left)) as (Hroot & s & Hs & Hfor). apply NoDup_cons in Hnd as [Hni Hnd]. cbn [for_each].
    destruct (remove_object_spec p st Hwf) as [(id & _ & Hid & E)|(what & Hr & _)].
    + assert (forall q, at_path (erase_object id p (container st)) q = if decide (q = p) then None else at_path (container st) q) as Hat
        by (intros q; by apply at_path_erase).
      destruct (IH (mkDaemon (erase_object id p (container st)) (clients st) (calling_client_id st) (others st))) as (c' & E' & Hwf' & Hroom & Hq).
      * by apply erase_object_wf.
      * split; cbn [container calling_client_id]; [done| |].
        -- intros p' Hp'. destruct (Hth p' ltac:(by right)) as (? & s' & Hs' & ?). split; [done|]. exists s'. rewrite Hat, decide_False; [done|]. by intros ->.
        -- intros p' q s' Hp'. rewrite Hat. destruct (decide (q = p)); [done|]. apply Hlv. by right.
      * exists c'. split; [|split; [done|]; split].
        -- unfold mbind, M_bind. rewrite E. exact E'.
        -- intros n [Hg Hsz]. apply Hroom. split; [exact Hg|]. cbn. pose proof (length_filter (fun p0 => p0.1 ≠ id) (objects (container st))). unfold map_erase. lia.
        -- intros q. rewrite Hq. cbn [container]. rewrite Hat. destruct (decide (q ∈ ps)), (decide (q = p)), (decide (q ∈ p :: ps)) as [H|H];
             try done; try (exfalso; apply H; by constructor); rewrite elem_of_cons in H; tauto.
    + exfalso. apply Hr. unfold at_path in Hs. destruct (map_find p _) as [id|] eqn:Ep; [|done]. cbn in Hs.
      split; [done|]. split; [by exists id, s|]. intros id' s' Hs' Hne Hch.
      apply (Hlv p (object_path s') s'); [by left|by eapply at_path_service|done].
Qed.
Lemma at_path_free (c : Container CB) q : cont_wf c -> at_path c q = None -> map_find q (object_path_lookup_table c) = None.
Proof.
  unfold at_path. intros Hwf. destruct (map_find q _) as [id|] eqn:E; [|done]. destruct (wf_path _ Hwf _ _ E) as (s & Hs & _). cbn. by rewrite Hs.
Qed.
End AtPath.

(** Decide the invariant of a concrete container. *)
Definition cont_okb {CB} (c : Container CB) : bool :=
  forallb (fun p : Z * option (Service CB) =>
    match p.2 with
    | Some s => negb (p.1 =? 0) && (object_id s =? p.1) &&
                bool_decide (map_find (object_path s) (object_path_lookup_table c) = Some p.1)
    | None => false
    end) (objects c) &&
  forallb (fun p : string * Z =>
    match find_service p.2 c with
    | Some s => bool_decide (object_path s = p.1)
    | None => false
    end) (object_path_lookup_table c).

Lemma cont_okb_wf {CB} (c : Container CB) :
  map_wf (objects c) -> map_wf (object_path_lookup_table c) -> cont_okb c = true -> cont_wf c.
Proof.
  intros Ho Hl [H1 H2]%andb_true_iff. rewrite forallb_forall in H1, H2.
  assert (forall id os, map_find id (objects c) = Some os -> exists s, os = Some s /\
    id <> 0 /\ object_id s = id /\ map_find (object_path s) (object_path_lookup_table c) = Some id) as H.
  { intros id os Hf%map_find_In%list_elem_of_In. specialize (H1 _ Hf). cbn in H1.
    destruct os as [s|]; [|done]. apply andb_true_iff in H1 as [H1 Hp%bool_decide_eq_true].
    apply andb_true_iff in H1 as [Hz Hi]. exists s. split; [done|].
    apply Z.eqb_eq in Hi. split; [|done]. by destruct (Z.eqb_spec id 0). }
  split; [done|done|..].
  - intros id Hf. destruct (H _ _ Hf) as (s & E & _). done.
  - intros id s Hs%find_service_objects. destruct (H _ _ Hs) as (s' & [= ->] & E). done.
  - intros p id Hf%map_find_In%list_elem_of_In. specialize (H2 _ Hf). cbn in H2.
    destruct (find_service id c) as [s|]; [|done]. apply bool_decide_eq_true in H2. eauto.
Qed.

(** ** A container of two clients *)
Module Demo.
Definition demo_cb (cb : unit) : M (Daemon unit unit) unit := mret tt.

#[export] Instance demo_cb_ok : CallbacksOk demo_cb (fun _ _ => False).
Proof.
  split.
  - intros cb st Hwf. exists st. split; [done|]. split; [by split|]. by intros id s Hs _.
  - intros cb st st' id s [= <-]. done.
  - intros cb st st' id s b [= <-] _ _. apply entry_behind_mem.
Qed.

Definition container0 : Container unit :=
  (create_object "/saftbus" (Service_new ["Container"] None true)
     (mkContainer [] [] [] [] 1)).2.
(** An object of client 7 and one below it of client [fd]. *)
Definition family_of (fd : Z) : Container unit :=
  (create_object "/a/b" (set_owner fd (Service_new ["B"] (Some tt) true))
    (create_object "/a" (set_owner 7 (Service_new ["A"] (Some tt) true)) container0).2).2.
Definition daemon (fd : Z) : Daemon unit unit := mkDaemon (family_of fd) [] 7 tt.

Lemma family_wf fd : cont_wf (family_of fd).
Proof.
  apply cont_okb_wf; [apply (bool_decide_unpack _)|apply (bool_decide_unpack _)|];
    vm_compute; try exact I; reflexivity.
Qed.

Lemma create_object_correct_witness :
  let '(id, c') := create_object "/a/b/c" (Service_new [] None true) (family_of 7) in
  cont_wf c' /\
  match map_find "/a/b/c"%string (object_path_lookup_table (family_of 7)) with
  | Some _ => id = 0 /\ c' = family_of 7
  | None =>
      id <> 0 /\ find_service id (family_of 7) = None /\
      map_find "/a/b/c"%string (object_path_lookup_table c') = Some id /\
      find_service id c' = Some (set_place id "/a/b/c" (Service_new [] None true)) /\
      forall id', id' <> id -> find_service id' c' = find_service id' (family_of 7)
  end.
Proof.
  destruct (create_object "/a/b/c" (Service_new [] None true) (family_of 7)) as [id c'] eqn:E.
  apply (create_object_correct (family_of 7) "/a/b/c" (Service_new [] None true) id c');
    [apply family_wf|vm_compute; split; congruence|vm_compute; congruence|exact E].
Defined.

Lemma remove_object_correct_witness :
  let '(r, st') := remove_object "/a" (daemon 8) in
  (removable 7 "/a" (family_of 8) ->
    r = Ret false /\ cont_wf (container st') /\
    map_find "/a"%string (object_path_lookup_table (container st')) = None /\
    forall id, find_service id (container st')
      = if decide (map_find "/a"%string (object_path_lookup_table (family_of 8)) = Some id)
        then None else find_service id (family_of 8)) /\
  (~ removable 7 "/a" (family_of 8) ->
    (exists what, r = Throw (Error INVALID_ARGS what)) /\ st' = daemon 8).
Proof. apply (remove_object_correct "/a" (daemon 8)). apply family_wf. Defined.

(** The services of the demo. *)
Lemma family_services fd id s :
  find_service id (family_of fd) = Some s ->
  (id = 1 /\ object_path s = "/saftbus"%string /\ owner s = -1) \/
  (id = 2 /\ object_path s = "/a"%string /\ owner s = 7) \/
  (id = 3 /\ object_path s = "/a/b"%string /\ owner s = fd).
Proof.
  intros Hs%find_service_objects%map_find_In. cbn in Hs.
  apply elem_of_cons in Hs as [[= -> ->]|Hs]; [by left|].
  apply elem_of_cons in Hs as [[= -> ->]|Hs]; [right; by left|].
  apply elem_of_cons in Hs as [[= -> ->]|Hs]; [right; by right|].
  by apply not_elem_of_nil in Hs.
Qed.

(** ... and a third client's object; client 7 also has one that stays behind. *)
Definition crowd : Container unit :=
  (create_object "/d" (set_owner 7 (Service_new ["D"] (Some tt) false))
    (create_object "/c" (set_owner 9 (Service_new ["C"] (Some tt) true)) (family_of 7)).2).2.
Definition crowded : Daemon unit unit := mkDaemon crowd [] 7 tt.

Lemma crowd_services id s :
  find_service id crowd = Some s ->
  (object_path s = "/saftbus"%string /\ owner s = -1) \/ (object_path s = "/c"%string /\ owner s = 9) \/
  (owner s = 7 /\ object_path s <> saftbus_path).
Proof.
  intros Hs%find_service_objects%map_find_In. cbn in Hs.
  apply elem_of_cons in Hs as [[= -> ->]|Hs]; [by left|].
  apply elem_of_cons in Hs as [[= -> ->]|Hs]; [right; by right|].
  apply elem_of_cons in Hs as [[= -> ->]|Hs]; [right; by right|].
  apply elem_of_cons in Hs as [[= -> ->]|Hs]; [right; by left|].
  apply elem_of_cons in Hs as [[= -> ->]|Hs]; [right; by right|].
  by apply not_elem_of_nil in Hs.
Qed.

Lemma client_hung_up_correct_witness :
  exists st', client_hung_up demo_cb 5 7 crowded = (Ret (Some tt), st') /\
    cont_wf (container st') /\
    (forall id s', find_service id (container st') = Some s' -> owner s' <> 7) /\
    (forall id s, find_service id crowd = Some s -> owner s = 7 ->
       has_destruction_callback s && destroy_if_owner_quits s = true ->
       find_service id (container st') = None) /\
    (forall id s, find_service id crowd = Some s -> owner s <> 7 ->
       out_of_scope (fun _ _ => False) 7 crowd s -> find_service id (container st') = Some s) /\
    (forall id s, find_service id crowd = Some s -> owner s = 7 ->
       has_destruction_callback s && destroy_if_owner_quits s = false ->
       out_of_scope (fun _ _ => False) 7 crowd s -> find_service id (container st') = Some (release_owner s)) /\
    (forall id s', find_service id (container st') = Some s' ->
       exists s, find_service id crowd = Some s /\ (s' = s \/ owner s = 7 /\ s' = release_owner s)).
Proof.
  apply (client_hung_up_correct demo_cb (fun _ _ => False) 7 crowded 5); [lia|reflexivity| | | |vm_compute; lia].
  - apply cont_okb_wf; [apply (bool_decide_unpack _)|apply (bool_decide_unpack _)|];
      vm_compute; try exact I; reflexivity.
  - intros id s Hs _ id' s' Hs' Hroot Hch. unfold foreign.
    destruct (crowd_services _ _ Hs') as [(_ & ->)|[(E & _)|(-> & _)]]; [reflexivity| |reflexivity].
    exfalso. revert Hch. rewrite E. clear -Hs. apply find_service_objects, map_find_In in Hs. cbn in Hs.
    repeat (apply elem_of_cons in Hs as [[= -> ->]|Hs]; [by vm_compute|]). by apply not_elem_of_nil in Hs.
  - intros id s Hs Ho. destruct (crowd_services _ _ Hs) as [(_ & E)|[(_ & E)|(_ & Hne)]]; [lia|lia|done].
Defined.

Lemma client_hung_up_diverges_witness :
  client_hung_up demo_cb 1000 7 (daemon 8) = (Ret None, daemon 8).
Proof.
  apply (client_hung_up_diverges demo_cb 7 (daemon 8) 2
           (set_place 2 "/a" (set_owner 7 (Service_new ["A"] (Some tt) true))) tt "/a/b" 3
           (set_place 3 "/a/b" (set_owner 8 (Service_new ["B"] (Some tt) true))));
    try reflexivity; [apply family_wf|discriminate|split; cbn; lia].
Defined.
End Demo.
