(* ===== verification/SinkDestroy.v ===== *)
(** * The destructor of a sink: src/ActionSink.cpp against saftbus/service.cpp

    [ActionSink::~ActionSink] removes the services of its conditions until no
    condition is left.  [Container::remove_object] erases services; the map of
    conditions is changed by [ActionSink::removeCondition] only, the destruction
    callback, which [remove_object] does not run. *)
From S2P Require Import Prelude StdMap Container ContainerCorrect.
Local Open Scope Z_scope.

Section SinkDestroy.
Context {CB W : Type}.
Implicit Types (st : Daemon CB W).

(** [while (conditions.size()) container->remove_object(begin->path)]: the
    conditions' paths are the same in every round.  [None]: not finished after
    [fuel] rounds. *)
Fixpoint remove_conditions (fuel : nat) (paths : list string) : M (Daemon CB W) (option unit) :=
  match paths with
  | [] => mret (Some tt)
  | path :: _ =>
      match fuel with
      | O => mret None
      | S fuel' => _ ← remove_object path; remove_conditions fuel' paths
      end
  end.

Lemma remove_unknown path st :
  path <> saftbus_path -> map_find path (object_path_lookup_table (container st)) = None ->
  remove_object path st = (Throw (Error INVALID_ARGS (msg_not_found path)), st).
Proof.
  intros Hne Hnone. unfold remove_object, removal_helper. rewrite bool_decide_false by done.
  mrun. by rewrite Hnone.
Qed.

(** A sink that still has conditions cannot be destroyed in the daemon: its
    destructor removes the service of the first condition and asks for it again,
    which throws "object_path was not found" (or the first request is already
    refused, when the condition belongs to another client).  The exception
    leaves a destructor, which is [noexcept]: the daemon ends.  Without
    conditions the destructor does nothing to the container. *)
Theorem sink_destructor_throws fuel paths st (Hwf : cont_wf (container st)) (Hfuel : (2 <= fuel)%nat) :
  let '(r, st') := remove_conditions fuel paths st in
  (paths = [] -> r = Ret (Some tt) /\ st' = st) /\
  (forall path rest, paths = path :: rest ->
     exists what, r = Throw (Error INVALID_ARGS what) /\
       (removable (calling_client_id st) path (container st) ->
          what = msg_not_found path /\
          map_find path (object_path_lookup_table (container st')) = None) /\
       (~ removable (calling_client_id st) path (container st) -> st' = st)).
Proof.
  destruct paths as [|path rest].
  { destruct fuel; (split; [done|]); intros ? ?; discriminate. }
  destruct fuel as [|fuel]; [lia|]. cbn [remove_conditions].
  destruct (remove_object_spec path st Hwf) as [(id & Hr & Hid & E)|(what & Hr & E)].
  - rewrite (run_bind_ret _ _ _ _ _ E). destruct fuel as [|fuel]; [lia|]. cbn [remove_conditions].
    set (st1 := mkDaemon _ _ _ _).
    assert (map_find path (object_path_lookup_table (container st1)) = None) as Hnone
      by apply map_find_erase_eq.
    rewrite (run_bind_throw _ _ _ _ _ (remove_unknown path st1 ltac:(apply Hr) Hnone)).
    split; [done|]. intros ? ? [= <- <-]. exists (msg_not_found path). tauto.
  - rewrite (run_bind_throw _ _ _ _ _ E). split; [done|]. intros ? ? [= <- <-].
    exists what. split; [done|]. tauto.
Qed.
End SinkDestroy.

Module SinkDemo.
Import ContainerCorrect.Demo.

Lemma sink_destructor_throws_witness :
  let '(r, st') := remove_conditions 2 ["/a/b"%string; "/a/c"%string] (daemon 7) in
  (["/a/b"%string; "/a/c"%string] = [] -> r = Ret (Some tt) /\ st' = daemon 7) /\
  (forall path rest, ["/a/b"%string; "/a/c"%string] = path :: rest ->
     exists what, r = Throw (Error INVALID_ARGS what) /\
       (removable (calling_client_id (daemon 7)) path (container (daemon 7)) ->
          what = msg_not_found path /\
          map_find path (object_path_lookup_table (container st')) = None) /\
       (~ removable (calling_client_id (daemon 7)) path (container (daemon 7)) -> st' = daemon 7)).
Proof. apply (sink_destructor_throws 2 ["/a/b"%string; "/a/c"%string] (daemon 7)); [apply (family_wf 7)|lia]. Defined.

(** The condition's service is gone, the second removal fails. *)
Example sink_destructor_demo :
  (remove_conditions 2 ["/a/b"%string; "/a/c"%string] (daemon 7)).1
  = Throw (Error INVALID_ARGS (msg_not_found "/a/b")).
Proof. vm_compute. reflexivity. Qed.
End SinkDemo.
