(* ===== verification/Server.v ===== *)
(** * The server: saftbus/server.cpp, the hand-written [Container_Service::call]
    (service.cpp) and [SaftbusInfo] (client.hpp)

    The server's handlers are slots of the event loop: their state is the loop
    with the daemon's state, whose [others] hold the open sockets. *)
From S2P Require Import Prelude StdMap Loop Serdes Wire Container.
From Stdlib Require Import Strings.Byte.
Local Open Scope Z_scope.

(** ** [SaftbusInfo] *)

(** [std::pair<int, int>] has no overload of its own: it is copied as one plain
    value of eight bytes. *)
Record int_pair := mkIntPair { ip_first : Z; ip_second : Z }.

#[export] Instance pod_int_pair : Pod int_pair := {
  pod_size := 8;
  pod_put := fun p => le_encode 4 (ip_first p) ++ le_encode 4 (ip_second p);
  pod_get := fun bs => mkIntPair (signed_wrap 32 (le_decode (take 4 bs)))
                                 (signed_wrap 32 (le_decode (drop 4 bs)));
  pod_valid := fun p => - 2 ^ 31 <= ip_first p < 2 ^ 31 /\ - 2 ^ 31 <= ip_second p < 2 ^ 31
}.

(** Keys of maps: integers in their order. *)
#[export] Instance cint_eq_dec n s : EqDecision (cint n s).
Proof. solve_decision. Defined.
#[export] Instance cint_less n s : StdLess (cint n s) := fun a b => int_val a <? int_val b.
#[export] Instance cint_less_ok n s : StdLessOk (cint n s).
Proof.
  split; unfold key_lt, cint_less.
  - intros k. apply Z.ltb_irrefl.
  - intros a b c. rewrite !Z.ltb_lt. lia.
  - intros [a] [b]. cbn. rewrite !Z.ltb_lt. destruct (Z.lt_trichotomy a b) as [?|[->|?]]; auto.
Qed.

Definition ObjectInfo : Type :=
  uint32_t * (string * (list string * (std_map int32_t int_pair * (int32_t * (bool * bool))))).
Definition ClientInfo : Type := int32_t * (int32_t * std_map int32_t int32_t).

Record SaftbusInfo := mkInfo {
  object_infos : list ObjectInfo;
  client_infos : list ClientInfo;
  active_plugins : list string;
  additional_info : std_map string string
}.

(** [serialize] and [deserialize]; the members of the nested records are put one
    after the other. *)
#[export] Instance serde_object_info : Serde ObjectInfo := serde_pair.
#[export] Instance serde_client_info : Serde ClientInfo := serde_pair.
#[export] Instance serde_saftbus_info : Serde SaftbusInfo := {
  put := fun i d =>
    put (additional_info i)
      (put (active_plugins i) (put_seq (client_infos i) (put_seq (object_infos i) d)));
  get := fun d it =>
    '(os, it1) ← get_seq d it;
    '(cs, it2) ← get_seq d it1;
    '(ps, it3) ← get d it2;
    '(ai, it4) ← get d it3;
    Some (mkInfo os cs ps ai, it4);
  valid := fun i =>
    size_valid (length (object_infos i)) /\ Forall valid (object_infos i) /\
    size_valid (length (client_infos i)) /\ Forall valid (client_infos i) /\
    valid (active_plugins i) /\ valid (additional_info i)
}.

(** [enum class FunctionResult] *)
Definition RETURN : int32_t := Int 0.
Definition EXCEPTION : int32_t := Int 1.

(** [send.put(EXCEPTION); send.put(what);] *)
Definition exception_reply (what : string) (send : list byte) : list byte :=
  put what (put EXCEPTION send).

Section Server.
Context {CB W SL : Type} `{Posix W}.
Let D := Daemon CB W.
Context (run_cb : CB -> M D unit).
(** The system: [recvfd], and closing a descriptor. *)
Context (recvfd : Z -> W -> Z * W) (close_fd : Z -> W -> W).
(** The plugin loader and the entry functions of plugins, the callbacks that
    were added with [add_additional_info_callback]. *)
Context (open_plugin : string -> M D unit) (create_services : string -> list string -> M D unit).
Context (additional : M D (list (string * string))).

Definition on_others {A} (f : W -> A * W) : M D A := fun st =>
  let '(a, w) := f (others st) in
  (Ret a, mkDaemon (container st) (clients st) (calling_client_id st) w).
Definition in_others {A} (m : M W A) : M D A :=
  zoom others (fun w st => mkDaemon (container st) (clients st) (calling_client_id st) w) m.

(** ** [Container::get_status] *)
Definition object_info (p : Z * option (Service CB)) : option ObjectInfo :=
  s ← p.2;
  Some (Int p.1, (object_path s, (interface_names s,
    (mkMap ((fun e : Z * (Z * Z) => (Int e.1, mkIntPair e.2.1 e.2.2)) <$> signal_fds s),
     (Int (owner s), (has_destruction_callback s, destroy_if_owner_quits s)))))).
Definition client_info (cl : Client) : ClientInfo :=
  (Int (process_id cl), (Int (socket_fd cl),
    mkMap ((fun e : Z * Z => (Int e.1, Int e.2)) <$> signal_fd_use_count cl))).

Definition get_status : M D SaftbusInfo :=
  st ← Prelude.get;
  match mapM object_info (objects (container st)) with
  | None => crash "null service"
  | Some os =>
      ai ← additional;
      mret (mkInfo os (client_info <$> clients st) (plugins (container st))
              (mkMap (foldl (fun m p => map_set p.1 p.2 m) [] ai)))
  end.

(** [Container::quit], up to [Loop::quit]. *)
Definition clear_fuel (st : D) : nat := length (objects (container st)).
Definition container_quit : M D unit :=
  st ← Prelude.get; clear_objects run_cb (clear_fuel st).

(** ** [Container_Service::call]

    A [get] past the end of the request has no defined behaviour. *)
Definition received {T} `{Serde T} (d : list byte) (it : nat) : M D (T * nat) :=
  match get d it with
  | Some r => mret r
  | None => crash "get past the end of the message"
  end.

Definition call_register_proxy (client_fd : Z) (d : list byte) (it : nat) : M D (list byte) :=
  '(path, it1) ← received (T := string) d it;
  '(names, it2) ← received (T := list string) d it1;
  '(sfd, _) ← received (T := int32_t) d it2;
  signal_fd ← (if int_val sfd =? -1 then on_others (recvfd client_fd) else mret (int_val sfd));
  '(oid, m) ← register_proxy path names client_fd signal_fd;
  mret (put (mkMap ((fun e : string * Z => (e.1, Int e.2 : int32_t)) <$> m))
    (put (Int signal_fd : int32_t)
      (put (Int client_fd : int32_t) (put (Int (u32 oid) : uint32_t) [])))).

Definition call_unregister_proxy (d : list byte) (it : nat) : M D (list byte) :=
  '(oid, it1) ← received (T := uint32_t) d it;
  '(cfd, it2) ← received (T := int32_t) d it1;
  '(sfd, _) ← received (T := int32_t) d it2;
  unregister_proxy (int_val oid) (int_val cfd) (int_val sfd);;
  mret [].

Definition call_plugin (f : string -> list string -> M D bool) (d : list byte) (it : nat)
    : M D (list byte) :=
  '(name, it1) ← received (T := string) d it;
  '(args, _) ← received (T := list string) d it1;
  result ← f name args;
  mret (put (result : bool) (put RETURN [])).

Definition call_remove_object (d : list byte) (it : nat) : M D (list byte) :=
  '(path, _) ← received (T := string) d it;
  result ← service_remove_object run_cb path;
  mret (put (result : bool) (put RETURN [])).

(** The switches and the [catch] clauses: the reply, empty if nothing is put,
    and whether the loop was told to quit. *)
Definition container_service_call (client_fd : Z) (d : list byte) (it : nat)
    : M D (list byte * bool) :=
  '(interface_no, it1) ← received (T := int32_t) d it;
  '(function_no, it2) ← received (T := int32_t) d it1;
  let reply (m : M D (list byte)) : M D (list byte * bool) := (bytes ← m; mret (bytes, false)) in
  try_catch
    (if negb (int_val interface_no =? 0) then mret ([], false)
     else match int_val function_no with
          | 0 => reply (call_register_proxy client_fd d it2)
          | 1 => reply (call_unregister_proxy d it2)
          | 2 => reply (call_plugin (load_plugin open_plugin create_services) d it2)
          | 3 => reply (call_plugin (fun name _ => unload_plugin name) d it2)
          | 4 => reply (call_remove_object d it2)
          | 5 => container_quit;; mret (put RETURN [], true)
          | 6 => reply (status ← get_status; mret (put status (put RETURN [])))
          | _ => mret ([], false)
          end)
    (fun e => match e with
              | Error _ what | RuntimeError what => mret (exception_reply what [], false)
              | _ => mret (exception_reply "unknown exception" [], false)
              end).

(** The service with id 1 is the [Container_Service]; [generated] is the code
    that saftbus-gen makes for the other services. *)
Context (generated : Z -> Z -> list byte -> nat -> M D (list byte)).

Definition service_call (d : list byte) (it : nat) (id client_fd : Z) : M D (list byte * bool) :=
  if id =? 1 then container_service_call client_fd d it
  else bytes ← generated id client_fd d it; mret (bytes, false).

(** ** The connection *)
Definition on_daemon {A} (m : M D A) : M (LoopWorld D SL) A :=
  zoom the_world (fun w st => mkLW (the_loop st) w) m.

(** [Client::~Client]: disconnect the I/O source, close the descriptors. *)
Definition destroy_client (cl : Client) : M (LoopWorld D SL) unit :=
  on_loop (fun l => remove (mkHandle (io_source cl) (loop_id l)) l);;
  on_daemon (on_others (fun w => (tt, close_fd (socket_fd cl) w)));;
  for_each (fun e : Z * Z => on_daemon (on_others (fun w => (tt, close_fd e.1 w))))
    (signal_fd_use_count cl).

Definition find_client (fd : Z) (cls : list Client) : option Client :=
  head (filter (fun cl => socket_fd cl = fd) cls).

(** ** [ServerConnection::Impl::client_hung_up] *)
Definition server_client_hung_up (client_fd : Z) : M (LoopWorld D SL) unit :=
  st ← gets the_world;
  match find_client client_fd (clients st) with
  | None => on_daemon (modify (set_caller (-1)));; crash "assert: no such client"
  | Some cl =>
      on_daemon (for_each (fun e : Z * Z => on_container (remove_signal_fd e.1))
                   (signal_fd_use_count cl));;
      on_daemon (modify (fun st =>
        set_clients (filter (fun c => socket_fd c ≠ client_fd) (clients st)) st));;
      for_each destroy_client (filter (fun c => socket_fd c = client_fd) (clients st));;
      r ← on_daemon (n ← gets (fun st => length (objects (container st)));
                     client_hung_up run_cb n client_fd);
      match r with
      | Some _ => mret tt
      | None => crash "Container::client_hung_up does not return"
      end
  end.

(** The request that was read: find the object id and call the service; the
    reply, and whether the loop was told to quit. *)
Definition answer_request (fd : Z) (data : list byte) : M D (list byte * bool) :=
  '(oid, it) ← received (T := uint32_t) data 0;
  r ← call_service run_cb (service_call data it) (int_val oid) fd;
  mret (match r with
        | Some reply => reply
        | None =>
            (exception_reply "remote call failed because service object was not found" [], false)
        end).

Definition serve_request (fd : Z) (data : list byte) : M (LoopWorld D SL) unit :=
  '(send, stop) ← on_daemon (answer_request fd data);
  (if stop : bool then on_loop quit else mret tt);;
  match send with
  | [] => mret tt
  | _ => _ ← on_daemon (in_others (write_to fd send)); mret tt
  end.

Definition read_and_serve (fd condition : Z) : M (LoopWorld D SL) bool :=
  if negb (Z.land condition (Z.lor POLLIN POLLHUP) =? 0) then
    request ← on_daemon (in_others (read_from fd));
    match request with
    | None => server_client_hung_up fd;; mret false
    | Some data => serve_request fd data;; mret true
    end
  else mret true.

(** ** [ServerConnection::Impl::handle_client_request]: the destructor of [ccid]
    resets the calling client on every way out. *)
Definition handle_client_request (fd condition : Z) : M (LoopWorld D SL) bool := fun st =>
  let '(r, st') := read_and_serve fd condition
                     (mkLW (the_loop st) (set_caller fd (the_world st))) in
  match r with
  | Crash w => (Crash w, st')
  | _ => (r, mkLW (the_loop st') (set_caller (-1) (the_world st')))
  end.

(** ** [ServerConnection::Impl::accept_client]: [read_pid] reads the client's
    process id, [rnd] is the random number of the new source. *)
Definition accept_client (read_pid : Z -> W -> Z * W) (rnd : Z) (slot : SL) (fd condition : Z)
    : M (LoopWorld D SL) bool :=
  if negb (Z.land condition POLLIN =? 0) then
    client_socket_fd ← on_daemon (on_others (recvfd fd));
    if client_socket_fd =? -1 then crash "assert: cannot receive socket fd"
    else
      pid ← on_daemon (on_others (read_pid client_socket_fd));
      l ← gets the_loop;
      let '(h, l') := connect (IoSource client_socket_fd
                                 (Z.lor (Z.lor POLLIN POLLHUP) POLLERR) 0) slot rnd l in
      on_loop (fun _ => l');;
      on_daemon (modify (fun st =>
        set_clients (clients st ++ [mkClient client_socket_fd pid (source_id h) []]) st));;
      _ ← on_daemon (in_others (write_all client_socket_fd (le_encode 4 client_socket_fd)));
      mret true
  else mret true.
End Server.
