(* ===== verification/ServerCorrect.v ===== *)
(** * Properties of the server

    The reply to a status request is decoded as it was encoded; a request for an
    unknown object is answered with an exception; the calling client is reset
    after every request; and the end of a client's connection frees the event
    source whose slot is running. *)
From S2P Require Import Prelude StdMap Loop LoopCorrect Serdes Wire Container Server.
From Stdlib Require Import Strings.Byte.
Local Open Scope Z_scope.

(** ** The status *)
#[export] Instance pod_int_pair_ok : PodOk int_pair.
Proof.
  split; intros [a b]; cbn; [done|]. intros [Ha Hb].
  change (take 4 ?l) with (take (length (le_encode 4 a)) l).
  change (le_encode 4 a ++ le_encode 4 b) with (le_encode 4 a ++ le_encode 4 b).
  f_equal.
  - pose proof (pod_get_put (Int a : int32_t) Ha) as E. cbn in E. by injection E.
  - pose proof (pod_get_put (Int b : int32_t) Hb) as E. cbn in E. by injection E.
Qed.

#[export] Instance serde_object_info_ok : SerdeOk ObjectInfo.
Proof. apply _. Qed.
#[export] Instance serde_client_info_ok : SerdeOk ClientInfo.
Proof. apply _. Qed.

(** Reading a value inside of a longer buffer. *)
Lemma get_in {T} `{SerdeOk T} (v : T) d D tail rest :
  D = put v d ++ tail -> valid v ->
  get (D ++ rest) (length d) = Some (v, length (put v d)).
Proof. intros -> Hv. rewrite <- app_assoc. by apply get_put. Qed.

Lemma get_seq_in {T} `{SerdeOk T} (vs : list T) d D tail rest :
  D = put_seq vs d ++ tail -> size_valid (length vs) -> Forall valid vs ->
  get_seq (D ++ rest) (length d) = Some (vs, length (put_seq vs d)).
Proof. intros -> Hn Hv. rewrite <- app_assoc. by apply get_seq_put. Qed.

#[export] Instance serde_saftbus_info_ok : SerdeOk SaftbusInfo.
Proof.
  split; cbn [put get valid serde_saftbus_info].
  - intros [os cs ps ai] d. cbn [object_infos client_infos active_plugins additional_info].
    destruct (put_seq_app os d) as [b1 ->]. destruct (put_seq_app cs (d ++ b1)) as [b2 ->].
    destruct (put_appends ps ((d ++ b1) ++ b2)) as [b3 ->].
    destruct (put_appends ai (((d ++ b1) ++ b2) ++ b3)) as [b4 ->].
    rewrite <- !app_assoc. eauto.
  - intros [os cs ps ai] d rest (H1 & H2 & H3 & H4 & H5 & H6).
    cbn [object_infos client_infos active_plugins additional_info] in *.
    set (d1 := put_seq os d). set (d2 := put_seq cs d1). set (d3 := put ps d2).
    destruct (put_seq_app cs d1) as [b2 E2]. destruct (put_appends ps d2) as [b3 E3].
    destruct (put_appends ai d3) as [b4 E4].
    assert (put ai d3 = d2 ++ b3 ++ b4) as F2
      by (rewrite E4; unfold d3; rewrite E3, <- app_assoc; done).
    assert (put ai d3 = d1 ++ b2 ++ b3 ++ b4) as F1
      by (rewrite F2; unfold d2; rewrite E2, <- app_assoc; done).
    rewrite (get_seq_in os d _ (b2 ++ b3 ++ b4)) by done. cbn [mbind option_bind]. fold d1.
    rewrite (get_seq_in cs d1 _ (b3 ++ b4)) by done. cbn [mbind option_bind]. fold d2.
    rewrite (get_in ps d2 _ b4) by done. cbn [mbind option_bind]. fold d3.
    by rewrite get_put.
Qed.

(** [Container_Proxy::get_status] decodes the status exactly as
    [Container::get_status] described it: objects, clients, plugins and the
    additional information, from any position in the reply. *)
Theorem saftbus_info_roundtrip (i : SaftbusInfo) (d rest : list byte) (Hv : valid i) :
  get (put i d ++ rest) (length d) = Some (i, length (put i d)).
Proof. by apply get_put. Qed.

Definition demo_info : SaftbusInfo :=
  mkInfo [(Int 1, ("/saftbus"%string, (["Container"%string],
            (mkMap [(Int 9, mkIntPair 2 0)], (Int (-1), (false, true))))))]
    [(Int 4711, (Int 8, mkMap [(Int 9, Int 2)]))] ["libsaft.so"%string]
    (mkMap [("allocator"%string, "ok"%string)]).

Lemma saftbus_info_roundtrip_witness :
  get (put demo_info (put RETURN []) ++ []) (length (put RETURN []))
  = Some (demo_info, length (put demo_info (put RETURN []))).
Proof.
  apply (saftbus_info_roundtrip demo_info). cbn.
  repeat match goal with
         | |- _ /\ _ => split
         | |- Forall _ (_ :: _) => constructor
         | |- Forall _ [] => constructor
         | |- size_valid _ => unfold size_valid
         | |- True => exact I
         | |- _ => progress cbn
         end; try lia; reflexivity.
Defined.

Section Requests.
Context {CB W SL : Type} `{Posix W}.
Context (run_cb : CB -> M (Daemon CB W) unit).
Context (recvfd : Z -> W -> Z * W) (close_fd : Z -> W -> W).
Context (open_plugin : string -> M (Daemon CB W) unit).
Context (create_services : string -> list string -> M (Daemon CB W) unit).
Context (additional : M (Daemon CB W) (list (string * string))).
Context (generated : Z -> Z -> list byte -> nat -> M (Daemon CB W) (list byte)).
Implicit Types (st : LoopWorld (Daemon CB W) SL).

Let handle := handle_client_request (SL := SL) run_cb recvfd close_fd open_plugin create_services
                additional generated.

(** However a request ends - served, failed with an exception, or with the
    client's hang-up - the calling client is -1 afterwards, so that code that
    is not run for a client has no client's rights. *)
Theorem calling_client_reset fd condition st r st'
    (Hrun : handle fd condition st = (r, st')) (Hr : forall w, r <> Crash w) :
  calling_client_id (the_world st') = -1.
Proof.
  unfold handle, handle_client_request in Hrun.
  destruct (read_and_serve _ _ _ _ _ _ _ _ _ _) as [[a|e|w] st1];
    [by injection Hrun as _ <-|by injection Hrun as _ <-|]. injection Hrun as <- _. by destruct (Hr w).
Qed.

Lemma on_daemon_loop {A} (m : M (Daemon CB W) A) st :
  the_loop (on_daemon (SL := SL) m st).2 = the_loop st.
Proof. unfold on_daemon, zoom. destruct (m (the_world st)). done. Qed.

(** Entry [i] of the sources has been reset. *)
Definition dead (i : nat) st : Prop := sources (the_loop st) !! i = Some None.

Lemma dead_remove i h (l : Loop SL) :
  sources l !! i = Some None -> sources (remove h l) !! i = Some None.
Proof.
  unfold remove. destruct (_ =? _); [|done]. cbn. generalize (sources l). intros ss.
  revert i. induction ss as [|[s|] ss IH]; intros [|i]; cbn; try done.
  - destruct (src_id s =? source_id h); [done|]. apply IH.
  - apply IH.
Qed.

Lemma for_each_close_loop {A} (f : A -> M (Daemon CB W) unit) (l : list A) st r st' :
  for_each (fun x => on_daemon (f x)) l st = (r, st') -> the_loop st' = the_loop st.
Proof.
  revert st. induction l as [|x l IH]; intros st; cbn [for_each]; mrun; [by intros [= _ <-]|].
  pose proof (on_daemon_loop (f x) st) as El.
  destruct (on_daemon (f x) st) as [[[]|e|w] st1]; cbn in El; try (intros [= _ <-]; done).
  intros Hr. by rewrite (IH _ Hr).
Qed.

(** [~Client] frees its event source, and does not bring any source back. *)
Lemma destroy_client_loop cl st r st' :
  destroy_client close_fd cl st = (Ret r, st') ->
  the_loop st' = remove (mkHandle (io_source cl) (loop_id (the_loop st))) (the_loop st).
Proof.
  unfold destroy_client, on_loop. mrun.
  match goal with |- context [on_daemon ?m ?s] => pose proof (on_daemon_loop m s) as El;
    destruct (on_daemon m s) as [[[]|e|w] st1]; cbn in El end; try done.
  intros Hr. apply (for_each_close_loop (fun e : Z * Z => on_others (fun w => (tt, close_fd e.1 w)))) in Hr.
  congruence.
Qed.

Lemma destroy_clients_dead (cls : list Client) i st r st' :
  for_each (destroy_client close_fd) cls st = (Ret r, st') ->
  (dead i st \/ exists cl s, cl ∈ cls /\ sources (the_loop st) !! i = Some (Some s) /\
     src_id s = io_source cl /\ NoDup (ids (the_loop st))) ->
  dead i st'.
Proof.
  revert st. induction cls as [|cl cls IH]; intros st; cbn [for_each]; mrun.
  - intros [= _ <-] [?|(cl & s & Hin & _)]; [done|by apply not_elem_of_nil in Hin].
  - destruct (destroy_client close_fd cl st) as [[[]|e|w] st1] eqn:E; try done.
    apply destroy_client_loop in E. intros Hr Hor. apply (IH st1 Hr).
    unfold dead. rewrite E. destruct Hor as [Hd|(cl' & s & Hin & Hs & Eid & Hnd)].
    + left. by apply dead_remove.
    + destruct (decide (src_id s = io_source cl)) as [Heq|Hne].
      * left. rewrite <- Heq. by apply remove_entry.
      * right. exists cl', s. apply elem_of_cons in Hin as [->|Hin]; [done|].
        split; [done|]. split; [by apply remove_other_entry|]. split; [done|].
        by apply remove_ids_NoDup.
Qed.

Lemma hung_up_dead fd i s cl st r st' :
  sources (the_loop st) !! i = Some (Some s) ->
  cl ∈ clients (the_world st) -> socket_fd cl = fd -> src_id s = io_source cl ->
  NoDup (ids (the_loop st)) ->
  server_client_hung_up run_cb close_fd fd st = (Ret r, st') -> dead i st'.
Proof.
  intros Hs Hcl Hfd Hid Hnd. unfold server_client_hung_up. mrun.
  destruct (find_client fd (clients (the_world st))) as [cl0|]; [|done].
  match goal with |- context [on_daemon ?m st] => pose proof (on_daemon_loop m st) as E1;
    destruct (on_daemon m st) as [[[]|e|w] st1]; cbn in E1 end; try done.
  match goal with |- context [on_daemon ?m st1] => pose proof (on_daemon_loop m st1) as E2;
    destruct (on_daemon m st1) as [[[]|e|w] st2]; cbn in E2 end; try done.
  destruct (for_each _ _ st2) as [[[]|e|w] st3] eqn:E3; try done.
  apply (destroy_clients_dead _ i) in E3.
  - match goal with |- context [on_daemon ?m st3] => pose proof (on_daemon_loop m st3) as E4;
      destruct (on_daemon m st3) as [[[]|e|w] st4]; cbn in E4 end; try done.
    intros [= _ <-]. unfold dead in *. congruence.
  - right. exists cl, s. rewrite E2, E1. split; [|done].
    apply list_elem_of_filter. done.
Qed.

(** When the connection of a client ends, [handle_client_request] destroys the
    [Client], whose destructor removes the I/O source that is just being
    dispatched: back in [IoSource::dispatch], the freed source is used. *)
Theorem hangup_uses_freed_source fd condition i s cl st w1 r st'
    (Hs : sources (the_loop st) !! i = Some (Some s))
    (Hcl : cl ∈ clients (the_world st)) (Hfd : socket_fd cl = fd)
    (Hid : src_id s = io_source cl) (Hnd : NoDup (ids (the_loop st)))
    (Hcond : Z.land condition (Z.lor POLLIN POLLHUP) <> 0)
    (Heof : in_others (read_from fd) (set_caller fd (the_world st)) = (Ret None, w1))
    (Hclients : clients w1 = clients (the_world st))
    (Hrun : handle fd condition st = (Ret r, st')) :
  (dispatch_io (fun _ => handle) i s fd condition st).1
  = Crash "IoSource::dispatch: use after free".
Proof.
  assert (dead i st') as Hdead.
  { unfold handle, handle_client_request, read_and_serve in Hrun.
    apply Z.eqb_neq in Hcond. rewrite Hcond in Hrun. cbn [negb] in Hrun. revert Hrun. mrun.
    unfold on_daemon at 1, zoom. cbn [the_world the_loop]. rewrite Heof.
    destruct (server_client_hung_up _ _ _ _) as [[[]|e|w] st2] eqn:E; try done.
    eapply (hung_up_dead fd i s cl) in E; cbn in *; try done; [|by rewrite Hclients].
    intros [= _ <-]. done. }
  unfold dispatch_io, mbind, M_bind. rewrite Hrun. unfold gets. cbn. by rewrite Hdead.
Qed.

(** A request for an object that does not exist changes nothing and is answered
    with an exception, which the proxy decodes. *)
Theorem unknown_object_reply `{!PosixOk W, !Reliable W} fd data oid it st
    (Hid : get (T := uint32_t) data 0 = Some (oid, it))
    (Hno : map_find (int_val oid) (objects (container (the_world st))) = None)
    (Hempty : in_flight (others (the_world st)) = []) :
  exists st' reply w2,
    serve_request run_cb recvfd open_plugin create_services additional generated fd data st
      = (Ret tt, st') /\
    container (the_world st') = container (the_world st) /\ the_loop st' = the_loop st /\
    read_from fd (others (the_world st')) = (Ret (Some reply), w2) /\
    gets_message [mkAny EXCEPTION;
                  mkAny "remote call failed because service object was not found"%string]
      reply 0 (length reply).
Proof.
  set (vs := [mkAny EXCEPTION;
              mkAny "remote call failed because service object was not found"%string]).
  assert (put_message vs [] <> []) as Hne by (vm_compute; discriminate).
  assert (Z.of_nat (length (put_message vs [])) < 2 ^ 31) as Hlen by (vm_compute; reflexivity).
  assert (gets_message vs (put_message vs []) 0 (length (put_message vs []))) as Hg.
  { pose proof (gets_put_message vs [] []) as Hg. rewrite app_nil_r in Hg. apply Hg.
    repeat constructor. unfold valid. cbn. unfold size_valid. cbn. lia. }
  assert (exception_reply "remote call failed because service object was not found" []
          = put_message vs []) as Er by reflexivity.
  revert Er Hne Hlen Hg. generalize (put_message vs []). intros bytes Er Hne Hlen Hg.
  destruct (write_to_no_init_ok fd bytes (others (the_world st)) Hne Hlen) as (w1 & E1 & H1).
  rewrite Hempty in H1. cbn [app] in H1.
  destruct (read_from_ok fd bytes [] w1 Hne Hlen) as (w2 & E2 & H2); [by rewrite app_nil_r|].
  exists (mkLW (the_loop st) (mkDaemon (container (the_world st)) (clients (the_world st))
                                (calling_client_id (the_world st)) w1)).
  exists bytes, w2. repeat split; try done.
  unfold serve_request, answer_request, received, call_service, on_daemon, in_others, zoom, write_to.
  mrun. rewrite Hid. cbn [the_world]. rewrite Hno. cbn iota. cbn [the_world the_loop].
  rewrite Er. destruct bytes as [|b bs]; [done|]. cbn [others the_world]. by rewrite E1.
Qed.
End Requests.

(** ** A server with one client *)
Module Demo.
Definition demo_cb (cb : unit) : M (Daemon unit sched_stream) unit := mret tt.
Definition demo_container : Container unit :=
  (create_object "/saftbus" (Service_new ["Container"] None true) (mkContainer [] [] [] [] 1)).2.
Definition demo_daemon (stream : sched_stream) : Daemon unit sched_stream :=
  mkDaemon demo_container [mkClient 8 4711 1 [(9, 2)]] (-1) stream.
Definition demo_loop : Loop unit := (connect (IoSource 8 (POLLIN + POLLHUP + POLLERR) POLLHUP) tt 0
                                       (mkLoop [] [] true 0 1 0)).2.
Definition demo_state (stream : sched_stream) : LoopWorld (Daemon unit sched_stream) unit :=
  mkLW demo_loop (demo_daemon stream).

Definition demo_recvfd (fd : Z) (w : sched_stream) : Z * sched_stream := (9, w).
Definition demo_close (fd : Z) (w : sched_stream) : sched_stream := w.
Definition demo_open (name : string) : M (Daemon unit sched_stream) unit := mret tt.
Definition demo_create (name : string) (args : list string) : M (Daemon unit sched_stream) unit :=
  mret tt.
Definition demo_additional : M (Daemon unit sched_stream) (list (string * string)) := mret [].
Definition demo_generated (id fd : Z) (d : list byte) (it : nat)
    : M (Daemon unit sched_stream) (list byte) := mret [].

Definition demo_handle : Z -> Z -> M (LoopWorld (Daemon unit sched_stream) unit) bool :=
  handle_client_request demo_cb demo_recvfd demo_close demo_open demo_create demo_additional
    demo_generated.

Lemma calling_client_reset_witness :
  calling_client_id (the_world (demo_handle 8 POLLHUP (demo_state (mkSched [] []))).2) = -1.
Proof.
  apply (calling_client_reset demo_cb demo_recvfd demo_close demo_open demo_create demo_additional
           demo_generated 8 POLLHUP (demo_state (mkSched [] [])) (Ret false)).
  - vm_compute. reflexivity.
  - discriminate.
Defined.

Lemma hangup_uses_freed_source_witness :
  (dispatch_io (fun _ : unit => demo_handle) 0
     (mkSource 1 (IoSource 8 (POLLIN + POLLHUP + POLLERR) POLLHUP) tt) 8 POLLHUP
     (demo_state (mkSched [] []))).1
  = Crash "IoSource::dispatch: use after free".
Proof.
  apply (hangup_uses_freed_source demo_cb demo_recvfd demo_close demo_open demo_create
           demo_additional demo_generated 8 POLLHUP 0
           (mkSource 1 (IoSource 8 (POLLIN + POLLHUP + POLLERR) POLLHUP) tt)
           (mkClient 8 4711 1 [(9, 2)]) (demo_state (mkSched [] []))
           (set_caller 8 (demo_daemon (mkSched [] []))) false
           (demo_handle 8 POLLHUP (demo_state (mkSched [] []))).2).
  - reflexivity.
  - by left.
  - reflexivity.
  - reflexivity.
  - apply (bool_decide_unpack (NoDup (ids demo_loop))). vm_compute. exact I.
  - vm_compute. discriminate.
  - vm_compute. reflexivity.
  - reflexivity.
  - vm_compute. reflexivity.
Defined.

Lemma unknown_object_reply_witness :
  exists st' reply w2,
    serve_request (SL := unit) demo_cb demo_recvfd demo_open demo_create demo_additional
      demo_generated 8 (put (Int 77 : uint32_t) []) (demo_state (mkSched [] [2; 0]%nat))
      = (Ret tt, st') /\
    container (the_world st') = demo_container /\ the_loop st' = demo_loop /\
    read_from 8 (others (the_world st')) = (Ret (Some reply), w2) /\
    gets_message [mkAny EXCEPTION;
                  mkAny "remote call failed because service object was not found"%string]
      reply 0 (length reply).
Proof.
  apply (unknown_object_reply (SL := unit) demo_cb demo_recvfd demo_open demo_create
           demo_additional demo_generated 8 (put (Int 77 : uint32_t) []) (Int 77) 4
           (demo_state (mkSched [] [2; 0]%nat))); vm_compute; reflexivity.
Defined.
End Demo.
