(* ===== verification/Client.v ===== *)
(** * The client library: saftbus/client.cpp

    One process with its connection to the daemon, one signal group and the
    proxies that use it.  The locks of the code serialise the calls of threads;
    the model runs one call after the other. *)
From S2P Require Import Prelude StdMap Loop Serdes Wire Container Server.
From Stdlib Require Import Strings.Byte.
Local Open Scope Z_scope.

(** ** The system calls *)
Class ClientSys (W : Type) := {
  (** [poll] of one descriptor: fd, events, timeout; its result and [revents] *)
  sys_poll : Z -> Z -> Z -> W -> Z * Z * W;
  sys_sendfd : Z -> Z -> W -> Z * W;
  sys_close : Z -> W -> W
}.

(** A [Deserializer]: the buffer and the iterator; [None] after a message that
    ended early, when the iterator may be dangling. *)
Definition Deserializer : Type := option (list byte * nat).

(** The part of a [Proxy] that its signal group uses. *)
Record ProxyImpl := mkProxy {
  saftbus_object_id : Z;
  px_client_id : Z;
  px_signal_group_id : Z;
  interface_name2no_map : list (string * Z)
}.

(** [SignalGroup::Impl]: [fd_pair], [signal_group_id], [proxies] (pointers). *)
Record SignalGroup := mkGroup {
  fd_server : Z;
  fd_client : Z;
  signal_group_id : Z;
  sg_received : Deserializer;
  proxies : list Z
}.

(** The process: the descriptor of the connection, the group, the proxies that
    exist, by address. *)
Record Process (W : Type) := mkProcess {
  conn_fd : Z;
  group : SignalGroup;
  live : list (Z * ProxyImpl);
  outside : W
}.
Arguments mkProcess {_} _ _ _ _.
Arguments conn_fd {_} _.
Arguments group {_} _.
Arguments live {_} _.
Arguments outside {_} _.

(** [saftbus::Error(msg)] *)
Definition saftbus_error (what : string) : exn := Error INVALID_ARGS what.

(** ** Requests and replies *)

(** Object id, interface number and function number, then the arguments. *)
Definition request_head (oid interface_no function_no : Z) : list byte :=
  put (Int function_no : int32_t) (put (Int interface_no : int32_t) (put (Int oid : int32_t) [])).

(** [received.get(value)]; past the end it has no defined behaviour. *)
Definition next_value {T} `{Serde T} (r : Deserializer) : outcome (T * Deserializer) :=
  match r with
  | None => Crash "get from an invalid iterator"
  | Some (d, it) =>
      match get d it with
      | Some (v, it') => Ret (v, Some (d, it'))
      | None => Crash "get past the end of the message"
      end
  end.

(** The end of a call: the function result, then the exception or the value. *)
Definition read_result {T} `{Serde T} (r : Deserializer) : outcome (T * Deserializer) :=
  match next_value (T := int32_t) r with
  | Ret (function_result, r1) =>
      if int_val function_result =? int_val EXCEPTION then
        match next_value (T := string) r1 with
        | Ret (what, _) => Throw (saftbus_error what)
        | Throw e => Throw e
        | Crash why => Crash why
        end
      else if int_val function_result =? int_val RETURN then next_value r1
      else Crash "assert(function_result_ == RETURN)"
  | Throw e => Throw e
  | Crash why => Crash why
  end.

(** ... of a function without result *)
Definition read_void (r : Deserializer) : outcome (unit * Deserializer) :=
  match next_value (T := int32_t) r with
  | Ret (function_result, r1) =>
      if int_val function_result =? int_val EXCEPTION then
        match next_value (T := string) r1 with
        | Ret (what, _) => Throw (saftbus_error what)
        | Throw e => Throw e
        | Crash why => Crash why
        end
      else if int_val function_result =? int_val RETURN then Ret (tt, r1)
      else Crash "assert(function_result_ == RETURN)"
  | Throw e => Throw e
  | Crash why => Crash why
  end.

Section Client.
Context {W : Type} `{!Posix W} `{!ClientSys W}.
Let P := Process W.

Definition on_outside {A} (m : M W A) : M P A :=
  zoom outside (fun w p => mkProcess (conn_fd p) (group p) (live p) w) m.
Definition on_group (f : SignalGroup -> SignalGroup) : M P unit :=
  modify (fun p => mkProcess (conn_fd p) (f (group p)) (live p) (outside p)).
Definition set_live (f : list (Z * ProxyImpl) -> list (Z * ProxyImpl)) : M P unit :=
  modify (fun p => mkProcess (conn_fd p) (group p) (f (live p)) (outside p)).

Definition poll (fd events timeout_ms : Z) : M P (Z * Z) :=
  on_outside (fun w => let '(r, w') := sys_poll fd events timeout_ms w in (Ret r, w')).

(** [Deserializer::read_from] on a buffer: a message that does not even begin
    leaves the old one. *)
Definition deserialize_from (fd : Z) (old : Deserializer) : M W (bool * Deserializer) :=
  '(result, bs) ← read_all fd 4;
  if result <? 4 then mret (false, old)
  else
    let size := s32 (le_decode bs) in
    if size <? 0 then throw OtherException
    else
      '(result, data) ← read_all fd size;
      if result <? size then mret (false, None) else mret (true, Some (data, 0%nat)).

(** ** [ClientConnection] *)

(** [send]: the result and the serializer's buffer afterwards. *)
Definition conn_send (data : list byte) (timeout_ms : Z) : M P (Z * list byte) :=
  fd ← gets conn_fd;
  '(result, revents) ← poll fd (Z.lor POLLOUT POLLHUP) timeout_ms;
  if 0 <? result then
    data' ← (if negb (Z.land revents POLLOUT =? 0)
             then '(_, rest) ← on_outside (write_to fd data); mret rest else mret data);
    if negb (Z.land revents POLLHUP =? 0) then mret (-1, data') else mret (result, data')
  else mret (result, data).

Definition conn_receive (old : Deserializer) (timeout_ms : Z) : M P (Z * Deserializer) :=
  fd ← gets conn_fd;
  '(result, revents) ← poll fd (Z.lor POLLIN POLLHUP) timeout_ms;
  if 0 <? result then
    received ← (if negb (Z.land revents POLLIN =? 0)
                then '(_, r) ← on_outside (deserialize_from fd old); mret r else mret old);
    if negb (Z.land revents POLLHUP =? 0) then mret (-1, received) else mret (result, received)
  else mret (result, old).

Definition atomic_send_and_receive (data : list byte) (old : Deserializer) (timeout_ms : Z)
    : M P (Z * (list byte * Deserializer)) :=
  '(send_result, rest) ← conn_send data timeout_ms;
  '(receive_result, received) ← conn_receive old timeout_ms;
  let result := if (send_result <? 0) || (receive_result <? 0) then -1
                else if negb (send_result =? 0) && negb (receive_result =? 0) then 1 else 0 in
  mret (result, (rest, received)).

(** ** [SignalGroup] *)
Definition register_proxy (proxy : Z) : M P unit :=
  p ← Prelude.get;
  (if signal_group_id (group p) =? -1 then
     fdresult ← on_outside (fun w =>
       let '(r, w') := sys_sendfd (conn_fd p) (fd_server (group p)) w in (Ret r, w'));
     on_outside (modify (sys_close (fd_server (group p))));;
     throw_if (fdresult <=? 0)
       (saftbus_error "SignalGroup::register_proxy cannot send file descriptor to server")
   else mret tt);;
  on_group (fun g => mkGroup (fd_server g) (fd_client g) (signal_group_id g) (sg_received g)
                       (proxies g ++ [proxy])).

Definition unregister_proxy (proxy : Z) : M P unit :=
  on_group (fun g => mkGroup (fd_server g) (fd_client g) (signal_group_id g) (sg_received g)
                       (filter (fun x => x ≠ proxy) (proxies g))).

(** [Proxy::signal_dispatch] is virtual; the generated proxies decode the content
    and run the user's slots.  The result is the iterator it left behind. *)
Context (signal_dispatch : Z -> Z -> Z -> list byte -> nat -> M W nat).

(** The loop over the proxies of the group: save, dispatch, restore. *)
Fixpoint dispatch_signal (oid interface_no signal_no : Z) (d : list byte) (it : nat) (ps : list Z)
    : M P unit :=
  match ps with
  | [] => mret tt
  | proxy :: ps' =>
      l ← gets live;
      match map_find proxy l with
      | None => crash "use of a destroyed proxy"
      | Some px =>
          (if saftbus_object_id px =? oid
           then _ ← on_outside (signal_dispatch proxy interface_no signal_no d it); mret tt
           else mret tt);;
          dispatch_signal oid interface_no signal_no d it ps'
      end
  end.

Definition set_received (r : Deserializer) : M P unit :=
  on_group (fun g => mkGroup (fd_server g) (fd_client g) (signal_group_id g) r (proxies g)).

(** The head of a signal: object id, interface and signal number. *)
Definition signal_head (r : Deserializer) : outcome (Z * Z * Z * (list byte * nat)) :=
  match next_value (T := int32_t) r with
  | Ret (oid, r1) =>
      match next_value (T := int32_t) r1 with
      | Ret (ino, r2) =>
          match next_value (T := int32_t) r2 with
          | Ret (sno, Some c) => Ret (int_val oid, int_val ino, int_val sno, c)
          | Ret (_, None) => Crash "get from an invalid iterator"
          | Throw e => Throw e
          | Crash why => Crash why
          end
      | Throw e => Throw e
      | Crash why => Crash why
      end
  | Throw e => Throw e
  | Crash why => Crash why
  end.

Definition wait_for_one_signal (timeout_ms : Z) : M P Z :=
  g ← gets group;
  '(result, revents) ← poll (fd_client g) POLLIN timeout_ms;
  if 0 <? result then
    early ← (if negb (Z.land revents (Z.lor POLLIN POLLHUP) =? 0) then
      '(ok, r) ← on_outside (deserialize_from (fd_client g) (sg_received g));
      set_received r;;
      if ok : bool then
        '(oid, ino, sno, (d, it)) ← of_outcome (signal_head r);
        ps ← gets (fun p => proxies (group p));
        dispatch_signal oid ino sno d it ps;;
        set_received (Some (d, it));;
        mret false
      else if negb (Z.land revents POLLHUP =? 0) then throw (saftbus_error "Service hung up")
      else mret true
    else mret false);
    if early : bool then mret (-1)
    else
      massert (Z.land revents POLLHUP =? 0) "assert(false): POLLHUP";;
      mret result
  else mret result.

(** [while(wait_for_one_signal(0));]; [None]: not finished after [fuel] rounds. *)
Fixpoint drain_signals (fuel : nat) : M P (option unit) :=
  match fuel with
  | O => mret None
  | S fuel' =>
      r ← wait_for_one_signal 0;
      if r =? 0 then mret (Some tt) else drain_signals fuel'
  end.
Definition wait_for_signal (fuel : nat) (timeout_ms : Z) : M P (option Z) :=
  result ← wait_for_one_signal timeout_ms;
  if 0 <=? result then
    r ← drain_signals fuel;
    mret (match r with Some _ => Some result | None => None end)
  else mret (Some result).

(** ** [Proxy] *)

Definition msg_object (path : string) : string := "object path " +:+ quoted path +:+ " not found".
Definition msg_interfaces (path : string) (missing : list string) : string :=
  "object " +:+ quoted path +:+ " does not implement requested interfaces: " +:+
  String.concat EmptyString
    ((fun n => quoted n +:+ String (Ascii.ascii_of_nat 10) EmptyString) <$> missing).

(** The reply to a registration. *)
Definition registration (r : Deserializer) : outcome ProxyImpl :=
  match next_value (T := int32_t) r with
  | Ret (oid, r1) =>
      match next_value (T := int32_t) r1 with
      | Ret (cid, r2) =>
          match next_value (T := int32_t) r2 with
          | Ret (gid, r3) =>
              match next_value (T := std_map string int32_t) r3 with
              | Ret (m, _) => Ret (mkProxy (int_val oid) (int_val cid) (int_val gid)
                                 ((fun e : string * int32_t => (e.1, int_val e.2)) <$> entries m))
              | Throw e => Throw e
              | Crash why => Crash why
              end
          | Throw e => Throw e
          | Crash why => Crash why
          end
      | Throw e => Throw e
      | Crash why => Crash why
      end
  | Throw e => Throw e
  | Crash why => Crash why
  end.

(** The constructor, for an object at [address]: it is alive when the constructor
    has returned. *)
Definition Proxy_new (address : Z) (path : string) (names : list string) : M P unit :=
  gid ← gets (fun p => signal_group_id (group p));
  let send := put (Int gid : int32_t) (put names (put path (request_head 1 0 0))) in
  '(send_result, _) ← conn_send send (-1);
  throw_if (send_result <=? 0) (saftbus_error "Proxy cannot send data to server");;
  register_proxy address;;
  '(receive_result, received) ← conn_receive (Some ([], 0%nat)) (-1);
  throw_if (receive_result <=? 0) (saftbus_error "Proxy cannot receive data from server");;
  px ← of_outcome (registration received);
  throw_if (saftbus_object_id px =? 0) (saftbus_error (msg_object path));;
  throw_if (saftbus_object_id px =? -1)
    (saftbus_error (msg_interfaces path
      (filter (fun n => map_find n (interface_name2no_map px) = None) names)));;
  on_group (fun g => if signal_group_id g =? -1
                     then mkGroup (fd_server g) (fd_client g) (px_signal_group_id px) (sg_received g) (proxies g)
                     else g);;
  set_live (fun l => map_set address px l).

Definition Proxy_destroy (address : Z) : M P unit :=
  l ← gets live;
  match map_find address l with
  | None => crash "destroyed proxy"
  | Some px =>
      _ ← conn_send
        (put (Int (px_signal_group_id px) : int32_t) (put (Int (px_client_id px) : int32_t)
          (put (Int (saftbus_object_id px) : int32_t) (request_head 1 0 1)))) (-1);
      unregister_proxy address;;
      set_live (map_erase address)
  end.

Definition interface_no_from_name (px : ProxyImpl) (name : string) : outcome Z :=
  match map_find name (interface_name2no_map px) with
  | Some no => Ret no
  | None => Crash "assert(0)"
  end.

(** ** [Container_Proxy]: a call sends the request and decodes what was received,
    whatever the result of the exchange. *)
Definition container_call {T} (px : ProxyImpl) (interface_no : Z) (request : list byte)
    (old : Deserializer) (read : Deserializer -> outcome (T * Deserializer)) : M P T :=
  '(_, (_, received)) ← atomic_send_and_receive request old (-1);
  '(v, _) ← of_outcome (read received);
  mret v.

Definition plugin_request (oid ino fno : Z) (so_filename : string) (args : list string) : list byte :=
  put args (put so_filename (request_head oid ino fno)).
Definition remove_request (oid ino : Z) (path : string) : list byte :=
  put path (request_head oid ino 4).

Definition Proxy_load_plugin (px : ProxyImpl) (ino : Z) (so : string) (args : list string) (old : Deserializer)
    : M P bool :=
  container_call px ino (plugin_request (saftbus_object_id px) ino 2 so args) old read_result.
Definition Proxy_unload_plugin (px : ProxyImpl) (ino : Z) (so : string) (args : list string) (old : Deserializer)
    : M P bool :=
  container_call px ino (plugin_request (saftbus_object_id px) ino 3 so args) old read_result.
Definition Proxy_remove_object (px : ProxyImpl) (ino : Z) (path : string) (old : Deserializer) : M P bool :=
  container_call px ino (remove_request (saftbus_object_id px) ino path) old read_result.
Definition Proxy_quit (px : ProxyImpl) (ino : Z) (old : Deserializer) : M P unit :=
  container_call px ino (request_head (saftbus_object_id px) ino 5) old read_void.
Definition Proxy_get_status (px : ProxyImpl) (ino : Z) (old : Deserializer) : M P SaftbusInfo :=
  container_call px ino (request_head (saftbus_object_id px) ino 6) old read_result.
End Client.
