(* ===== verification/ClientCorrect.v ===== *)
(** * Properties of the client library

    A remote call of the daemon's container is the local call: the same effect,
    the same result, the same exception text.  A signal reaches every proxy of its
    object, with the whole content.  A proxy whose construction fails stays in its
    signal group. *)
From S2P Require Import Prelude StdMap Loop Serdes Wire Container Server ServerCorrect Client.
From Stdlib Require Import Strings.Byte.
Local Open Scope Z_scope.

(** ** Decoding replies *)
Lemma next_value_put {T} `{SerdeOk T} (v : T) d rest :
  valid v ->
  next_value (T := T) (Some (put v d ++ rest, length d)) = Ret (v, Some (put v d ++ rest, length (put v d))).
Proof. intros Hv. unfold next_value. by rewrite get_put. Qed.

Lemma next_value_in {T} `{SerdeOk T} (v : T) d D tail :
  D = put v d ++ tail -> valid v ->
  next_value (T := T) (Some (D, length d)) = Ret (v, Some (D, length (put v d))).
Proof. intros -> Hv. by apply next_value_put. Qed.

Lemma valid_function_result (x : int32_t) : 0 <= int_val x <= 1 -> valid x.
Proof. intros Hx. cbn. lia. Qed.

Lemma read_result_ret {T} `{SerdeOk T} (v : T) :
  valid v -> exists r, read_result (Some (put v (put RETURN []), 0%nat)) = Ret (v, r).
Proof.
  intros Hv. destruct (put_appends v (put RETURN [])) as [bs E]. unfold read_result.
  rewrite (next_value_in RETURN [] _ bs) by (try exact E; apply valid_function_result; cbn; lia).
  change (int_val RETURN =? int_val EXCEPTION) with false.
  change (int_val RETURN =? int_val RETURN) with true. cbn iota.
  rewrite (next_value_in v (put RETURN []) _ []) by (by rewrite ?app_nil_r). eauto.
Qed.

Lemma read_exception (what : string) :
  valid what ->
  (forall T `{Serde T}, read_result (T := T) (Some (exception_reply what [], 0%nat)) = Throw (saftbus_error what)) /\
  read_void (Some (exception_reply what [], 0%nat)) = Throw (saftbus_error what).
Proof.
  intros Hv. destruct (put_appends what (put EXCEPTION [])) as [bs E].
  unfold read_result, read_void, exception_reply.
  rewrite (next_value_in EXCEPTION [] _ bs) by (try exact E; apply valid_function_result; cbn; lia).
  change (int_val EXCEPTION =? int_val EXCEPTION) with true. cbn iota.
  rewrite (next_value_in what (put EXCEPTION []) _ []) by (by rewrite ?app_nil_r). done.
Qed.

Lemma read_void_ret : exists r, read_void (Some (put RETURN [], 0%nat)) = Ret (tt, r).
Proof.
  unfold read_void. rewrite (next_value_in RETURN [] _ []) by (try done; apply valid_function_result; cbn; lia).
  cbn. eauto.
Qed.

(** ** Remote calls *)

(** The text that the server sends for an exception. *)
Definition what_of (e : exn) : string :=
  match e with
  | Error _ what | RuntimeError what => what
  | _ => "unknown exception"
  end.

(** [remote] is the local call [local], seen through the reply that [enc]
    encodes. *)
Definition transparent {S T} (enc : T -> list byte) (stop : bool) (valid_result : T -> Prop)
    (read : Deserializer -> outcome (T * Deserializer))
    (local : outcome T * S) (remote : outcome (list byte * bool) * S) : Prop :=
  match local with
  | (Ret v, s) =>
      remote = (Ret (enc v, stop), s) /\
      (valid_result v -> exists r, read (Some (enc v, 0%nat)) = Ret (v, r))
  | (Throw e, s) =>
      remote = (Ret (exception_reply (what_of e) [], false), s) /\
      (valid (what_of e) ->
       read (Some (exception_reply (what_of e) [], 0%nat)) = Throw (saftbus_error (what_of e)))
  | (Crash why, s) => remote = (Crash why, s)
  end.

Lemma transparent_weaken {S T} enc stop (ok ok' : T -> Prop) read (local : outcome T * S) remote :
  (forall v, ok' v -> ok v) -> transparent enc stop ok read local remote -> transparent enc stop ok' read local remote.
Proof. intros Hok. unfold transparent. destruct local as [[v|e|why] s]; intuition. Qed.

(** The reply of a function that returns a truth value. *)
Definition returned {T} `{Serde T} (v : T) : list byte := put v (put RETURN []).

Lemma bool_reply (b : bool) : True -> returned b <> [] /\ Z.of_nat (length (returned b)) < 2 ^ 31.
Proof. intros _. by destruct b. Qed.

Section Remote.
Context {CB W SL : Type} `{!Posix W}.
Abbreviation D := (Daemon CB W).
Context (run_cb : CB -> M D unit) (recvfd : Z -> W -> Z * W) (open_plugin : string -> M D unit)
  (create_services : string -> list string -> M D unit) (additional : M D (list (string * string))).
Abbreviation call := (container_service_call run_cb recvfd open_plugin create_services additional).

(** The head of a request to the container. *)
Lemma request_numbers fno bs (st : D) :
  0 <= fno < 2 ^ 31 ->
  received (T := int32_t) (request_head 1 0 fno ++ bs) 4 st = (Ret (Int 0, 8%nat), st) /\
  received (T := int32_t) (request_head 1 0 fno ++ bs) 8 st = (Ret (Int fno, 12%nat), st).
Proof.
  intros Hf. unfold request_head.
  set (d1 := put (Int 1 : int32_t) []). set (d2 := put (Int 0 : int32_t) d1).
  set (d3 := put (Int fno : int32_t) d2).
  assert (length d1 = 4%nat) as E1 by reflexivity. assert (length d2 = 8%nat) as E2 by reflexivity.
  assert (length d3 = 12%nat) as E3 by reflexivity.
  destruct (put_appends (Int fno : int32_t) d2) as [b3 F3]. fold d3 in F3.
  unfold received. split.
  - pose proof (get_in (Int 0 : int32_t) d1 d3 b3 bs F3 ltac:(cbn; lia)) as G.
    fold d2 in G. rewrite E1, E2 in G. by rewrite G.
  - pose proof (get_in (Int fno : int32_t) d2 d3 [] bs ltac:(by rewrite app_nil_r) ltac:(cbn; lia)) as G.
    fold d3 in G. rewrite E2, E3 in G. by rewrite G.
Qed.

Lemma received_arg {T} `{SerdeOk T} (v : T) d D' tail (st : D) :
  D' = put v d ++ tail -> valid v ->
  received (T := T) D' (length d) st = (Ret (v, length (put v d)), st).
Proof. intros -> Hv. unfold received. by rewrite get_put. Qed.

Definition catch_reply (e : exn) : M D (list byte * bool) :=
  match e with
  | Error _ what | RuntimeError what => mret (exception_reply what [], false)
  | _ => mret (exception_reply "unknown exception" [], false)
  end.

Lemma reply_transparent {T} (enc : T -> list byte) (stop : bool) (vr : T -> Prop)
    (read : Deserializer -> outcome (T * Deserializer)) (local : M D T) (body : M D (list byte * bool)) st :
  (forall v, vr v -> exists r, read (Some (enc v, 0%nat)) = Ret (v, r)) ->
  (forall what, valid what -> read (Some (exception_reply what [], 0%nat)) = Throw (saftbus_error what)) ->
  body st = (v ← local; mret (enc v, stop)) st ->
  transparent enc stop vr read (local st) (try_catch body catch_reply st).
Proof.
  intros Hret Hex E. unfold try_catch. rewrite E. unfold mbind, M_bind.
  destruct (local st) as [[v|e|why] s]; cbn.
  - split; [done|]. apply Hret.
  - split; [|apply Hex]. by destruct e.
  - done.
Qed.

(** The server's switch, for a request to interface 0. *)
Lemma call_switch fno bs fd (st : D) :
  0 <= fno < 2 ^ 31 ->
  call fd (request_head 1 0 fno ++ bs) 4 st
  = try_catch
      (match fno with
       | 0 => bytes ← call_register_proxy recvfd fd (request_head 1 0 fno ++ bs) 12; mret (bytes, false)
       | 1 => bytes ← call_unregister_proxy (request_head 1 0 fno ++ bs) 12; mret (bytes, false)
       | 2 => bytes ← call_plugin (load_plugin open_plugin create_services) (request_head 1 0 fno ++ bs) 12;
              mret (bytes, false)
       | 3 => bytes ← call_plugin (fun name _ => unload_plugin name) (request_head 1 0 fno ++ bs) 12;
              mret (bytes, false)
       | 4 => bytes ← call_remove_object run_cb (request_head 1 0 fno ++ bs) 12; mret (bytes, false)
       | 5 => container_quit run_cb;; mret (put RETURN [], true)
       | 6 => bytes ← (status ← get_status additional; mret (put status (put RETURN []))); mret (bytes, false)
       | _ => mret ([], false)
       end) catch_reply st.
Proof.
  intros Hf. destruct (request_numbers fno bs st Hf) as [E1 E2].
  unfold container_service_call. rewrite (run_bind_ret _ _ _ _ _ E1). cbv beta iota zeta.
  rewrite (run_bind_ret _ _ _ _ _ E2). cbn [int_val Z.eqb negb]. reflexivity.
Qed.

Lemma request_length fno : length (request_head 1 0 fno) = 12%nat.
Proof. reflexivity. Qed.

Lemma one_argument {T} `{SerdeOk T} (v : T) fno (st : D) :
  valid v -> exists bs it, put v (request_head 1 0 fno) = request_head 1 0 fno ++ bs /\
    received (T := T) (request_head 1 0 fno ++ bs) 12 st = (Ret (v, it), st).
Proof.
  intros Hv. destruct (put_appends v (request_head 1 0 fno)) as [bs E].
  exists bs, (length (put v (request_head 1 0 fno))). split; [done|].
  apply (received_arg v (request_head 1 0 fno) _ [] st); [|done]. by rewrite app_nil_r, E.
Qed.

Lemma plugin_arguments (so : string) (args : list string) fno (st : D) :
  valid so -> valid args -> exists bs it1 it2,
    plugin_request 1 0 fno so args = request_head 1 0 fno ++ bs /\
    received (T := string) (request_head 1 0 fno ++ bs) 12 st = (Ret (so, it1), st) /\
    received (T := list string) (request_head 1 0 fno ++ bs) it1 st = (Ret (args, it2), st).
Proof.
  intros Hso Hargs. unfold plugin_request. set (d1 := put so (request_head 1 0 fno)).
  destruct (put_appends so (request_head 1 0 fno)) as [b1 E1]. fold d1 in E1.
  destruct (put_appends args d1) as [b2 E2].
  exists (b1 ++ b2), (length d1), (length (put args d1)). split; [by rewrite E2, E1, app_assoc|].
  rewrite app_assoc, <- E1. split.
  - by apply (received_arg so (request_head 1 0 fno) _ b2 st).
  - apply (received_arg args d1 _ [] st); [by rewrite app_nil_r, E2|done].
Qed.

(** The switch of the service, function by function. *)
Lemma calls_in_service fd (st : D) :
  (forall path, valid path ->
     transparent returned false (fun _ => True) read_result (service_remove_object run_cb path st)
       (call fd (remove_request 1 0 path) 4 st)) /\
  (forall so args, valid so -> valid args ->
     transparent returned false (fun _ => True) read_result (load_plugin open_plugin create_services so args st)
       (call fd (plugin_request 1 0 2 so args) 4 st)) /\
  (forall so args, valid so -> valid args ->
     transparent returned false (fun _ => True) read_result (unload_plugin so st)
       (call fd (plugin_request 1 0 3 so args) 4 st)) /\
  transparent (fun _ => put RETURN []) true (fun _ => True) read_void (container_quit run_cb st)
    (call fd (request_head 1 0 5) 4 st) /\
  transparent returned false valid read_result (get_status additional st) (call fd (request_head 1 0 6) 4 st).
Proof.
  assert (forall what, valid what -> forall T `{Serde T},
    read_result (T := T) (Some (exception_reply what [], 0%nat)) = Throw (saftbus_error what)) as Hex.
  { intros what Hw T HT. by apply read_exception. }
  split; [|split; [|split; [|split]]].
  - intros path Hp. destruct (one_argument path 4 st Hp) as (bs & it & E & Er).
    unfold remove_request. rewrite E, call_switch by lia.
    apply (reply_transparent returned false); [|by intros; apply Hex|].
    + intros b _. by apply read_result_ret.
    + unfold call_remove_object. mrun. rewrite Er. by destruct (service_remove_object _ _ _) as [[]].
  - intros so args Hso Hargs. destruct (plugin_arguments so args 2 st Hso Hargs) as (bs & i1 & i2 & E & E1 & E2).
    rewrite E, call_switch by lia.
    apply (reply_transparent returned false); [|by intros; apply Hex|].
    + intros b _. by apply read_result_ret.
    + unfold call_plugin. mrun. rewrite E1. rewrite E2. by destruct (load_plugin _ _ _ _ _) as [[]].
  - intros so args Hso Hargs. destruct (plugin_arguments so args 3 st Hso Hargs) as (bs & i1 & i2 & E & E1 & E2).
    rewrite E, call_switch by lia.
    apply (reply_transparent returned false); [|by intros; apply Hex|].
    + intros b _. by apply read_result_ret.
    + unfold call_plugin. mrun. rewrite E1. rewrite E2. by destruct (unload_plugin _ _) as [[]].
  - rewrite <- (app_nil_r (request_head 1 0 5)), call_switch by lia.
    apply (reply_transparent (fun _ : unit => put RETURN []) true);
      [|by intros; apply read_exception|done].
    intros [] _. apply read_void_ret.
  - rewrite <- (app_nil_r (request_head 1 0 6)), call_switch by lia.
    apply (reply_transparent returned false); [|by intros; apply Hex|].
    + intros i Hi. by apply read_result_ret.
    + mrun. by destruct (get_status _ _) as [[]].
Qed.
End Remote.

(** ** What writing and reading leave alone *)
Class WriteKeeps {W} `{!Posix W} (Q : W -> Prop) :=
  write_keeps_it : forall f buf w, Q w -> Q (sys_write f buf w).2.
Class ReadKeeps {W} `{!Posix W} (Q : W -> Prop) :=
  read_keeps_it : forall f n w, Q w -> Q (sys_read f n w).2.

Section Writing.
Context {W : Type} `{!Posix W} (Q : W -> Prop) `{!WriteKeeps Q}.

Lemma keeps_write_chunk fuel f ptr size written : keeps Q (write_chunk fuel f ptr size written).
Proof.
  revert ptr written. induction fuel as [|fuel IH]; intros ptr written w Hw; [done|]. cbn [write_chunk].
  pose proof (write_keeps_it f (take (Z.to_nat (size - written)) ptr) w Hw) as Hk.
  destruct (sys_write _ _ w) as [r w']. cbn in Hk. destruct (0 <? r); [|done].
  destruct (_ <? _); [|done]. by apply IH.
Qed.

Lemma keeps_write_all f buf : keeps Q (write_all f buf).
Proof.
  unfold write_all. generalize (Datatypes.S (length buf)) (Z.of_nat (length buf)) 0. intros fuel.
  revert buf. induction fuel as [|fuel IH]; intros buf size total; [intros w; done|].
  cbn [write_all_loop]. apply keeps_bind; [apply keeps_write_chunk|]. intros [r|ptr]; [apply keeps_ret|].
  apply keeps_if; [apply IH|apply keeps_ret].
Qed.

Lemma keeps_write_to f data : keeps Q (write_to f data).
Proof.
  unfold write_to, write_to_no_init. apply keeps_bind; [|intros; apply keeps_ret].
  apply keeps_bind; [apply keeps_write_all|]. intros r. apply keeps_if; [apply keeps_ret|].
  apply keeps_bind; [apply keeps_write_all|]. intros; apply keeps_ret.
Qed.
End Writing.

Section Reading.
Context {W : Type} `{!Posix W} (Q : W -> Prop) `{!ReadKeeps Q}.

Lemma keeps_read_all f n : keeps Q (read_all f n).
Proof.
  unfold read_all. generalize (Datatypes.S (Z.to_nat n)). intros fuel. generalize (@nil byte).
  induction fuel as [|fuel IH]; intros buf w Hw; [done|]. cbn [read_all_loop].
  pose proof (read_keeps_it f (n - Z.of_nat (length buf)) w Hw) as Hk.
  destruct (sys_read _ _ w) as [[r bs] w']. cbn in Hk. destruct (0 <? r); [|done].
  destruct (_ <? _); [|done]. by apply IH.
Qed.

Lemma keeps_deserialize f old : keeps Q (deserialize_from f old).
Proof.
  unfold deserialize_from. apply keeps_bind; [apply keeps_read_all|]. intros [r bs].
  apply keeps_if; [apply keeps_ret|]. cbv zeta. apply keeps_if; [apply keeps_throw|].
  apply keeps_bind; [apply keeps_read_all|]. intros [r' data]. apply keeps_if; apply keeps_ret.
Qed.
End Reading.

(** ** Signals *)

(** A signal as a service emits it: the head, then the content. *)
Definition signal_message (oid interface_no signal_no : Z) (content : list byte) : list byte :=
  request_head oid interface_no signal_no ++ content.

Definition is_int32 (x : Z) : Prop := - 2 ^ 31 <= x < 2 ^ 31.

Lemma signal_head_message oid ino sno content :
  is_int32 oid -> is_int32 ino -> is_int32 sno ->
  signal_head (Some (signal_message oid ino sno content, 0%nat))
  = Ret (oid, ino, sno, (signal_message oid ino sno content, 12%nat)).
Proof.
  unfold is_int32. intros H1 H2 H3. unfold signal_head, signal_message, request_head.
  set (d1 := put (Int oid : int32_t) []). set (d2 := put (Int ino : int32_t) d1).
  set (d3 := put (Int sno : int32_t) d2).
  destruct (put_appends (Int ino : int32_t) d1) as [b2 E2]. fold d2 in E2.
  destruct (put_appends (Int sno : int32_t) d2) as [b3 E3]. fold d3 in E3.
  rewrite (next_value_in (Int oid : int32_t) [] (d3 ++ content) (b2 ++ b3 ++ content))
    by (try (cbn; lia); fold d1; by rewrite E3, E2, <- !app_assoc).
  fold d1.
  rewrite (next_value_in (Int ino : int32_t) d1 (d3 ++ content) (b3 ++ content))
    by (try (cbn; lia); fold d2; by rewrite E3, <- !app_assoc).
  fold d2.
  rewrite (next_value_in (Int sno : int32_t) d2 (d3 ++ content) content) by (done || (cbn; lia)).
  done.
Qed.

Section Signals.
Context {W : Type} `{PosixOk W} `{!Reliable W} `{!ClientSys W}.
Context (signal_dispatch : Z -> Z -> Z -> list byte -> nat -> M W nat).
Implicit Types (p : Process W).

(** The proxies of the group that belong to the object. *)
Definition targets (oid : Z) p : list Z :=
  filter (fun a => saftbus_object_id <$> map_find a (live p) = Some oid) (proxies (group p)).

Definition all_alive p : Prop := Forall (fun a => is_Some (map_find a (live p))) (proxies (group p)).

Definition deliver ino sno d it (a : Z) : M (Process W) unit :=
  _ ← on_outside (signal_dispatch a ino sno d it); mret tt.

Lemma dispatch_signal_targets oid ino sno d it ps p l :
  live p = l -> Forall (fun a => is_Some (map_find a l)) ps ->
  dispatch_signal signal_dispatch oid ino sno d it ps p
  = for_each (deliver ino sno d it)
      (filter (fun a => saftbus_object_id <$> map_find a l = Some oid) ps) p.
Proof.
  revert p. induction ps as [|a ps IH]; intros p Hl Ha; [done|].
  apply Forall_cons in Ha as [[px Hpx] Ha]. cbn [dispatch_signal].
  rewrite (run_bind_ret _ _ p l p) by (cbn; by rewrite <- Hl).
  rewrite Hpx, filter_cons, Hpx. cbn [fmap option_fmap option_map].
  destruct (Z.eqb_spec (saftbus_object_id px) oid) as [->|Hne].
  - rewrite decide_True by done. cbn [for_each]. fold (deliver ino sno d it a).
    assert (live (deliver ino sno d it a p).2 = live p) as Hlive.
    { unfold deliver, on_outside, zoom. mrun. by destruct (signal_dispatch _ _ _ _ _ _) as [[]]. }
    destruct (deliver ino sno d it a p) as [[[]|e|why] p'] eqn:E; unfold mbind, M_bind; rewrite E; try done.
    apply IH; [|done]. cbn in Hlive. by rewrite Hlive.
  - rewrite decide_False by congruence. mrun. by apply IH.
Qed.

Lemma run_on_outside {A} (m : M W A) p r w :
  m (outside p) = (r, w) -> on_outside m p = (r, mkProcess (conn_fd p) (group p) (live p) w).
Proof. intros E. unfold on_outside, zoom. by rewrite E. Qed.

(** The process after the signal was received. *)
Definition with_signal (r : Deserializer) (w : W) p : Process W :=
  mkProcess (conn_fd p)
    (mkGroup (fd_server (group p)) (fd_client (group p)) (signal_group_id (group p)) r (proxies (group p)))
    (live p) w.

Lemma deserialize_from_ok fd data rest old w :
  data <> [] -> Z.of_nat (length data) < 2 ^ 31 ->
  in_flight w = le_encode 4 (Z.of_nat (length data)) ++ data ++ rest ->
  exists w', deserialize_from fd old w = (Ret (true, Some (data, 0%nat)), w') /\ in_flight w' = rest.
Proof.
  intros Hne Hlen Hw. destruct (read_from_ok fd data rest w Hne Hlen Hw) as (w' & E & Hr).
  exists w'. split; [|done]. revert E. unfold read_from, deserialize_from. mrun.
  destruct (read_all fd 4 w) as [[[result bs]|e|why] w1]; try done.
  destruct (result <? 4); [done|]. cbv zeta. destruct (_ <? 0); [done|].
  destruct (read_all fd _ w1) as [[[result' bs']|e|why] w2]; try done.
  destruct (_ <? _); [done|]. by intros [= -> ->].
Qed.

(** One round of [wait_for_one_signal], for a signal in the pipe. *)
Lemma one_signal p timeout_ms w1 oid ino sno content rest
    (Halive : all_alive p)
    (Hoid : is_int32 oid) (Hino : is_int32 ino) (Hsno : is_int32 sno)
    (Hlen : Z.of_nat (length (signal_message oid ino sno content)) < 2 ^ 31)
    (Hpoll : sys_poll (fd_client (group p)) POLLIN timeout_ms (outside p) = (1, POLLIN, w1))
    (Hbytes : in_flight w1 = le_encode 4 (Z.of_nat (length (signal_message oid ino sno content))) ++
                             signal_message oid ino sno content ++ rest) :
  exists w2, in_flight w2 = rest /\
    (forall Q : W -> Prop, ReadKeeps Q -> Q w1 -> Q w2) /\
    wait_for_one_signal signal_dispatch timeout_ms p
    = (for_each (deliver ino sno (signal_message oid ino sno content) 12) (targets oid p);;
       set_received (Some (signal_message oid ino sno content, 12%nat));;
       mret 1) (with_signal (Some (signal_message oid ino sno content, 0%nat)) w2 p).
Proof.
  set (msg := signal_message oid ino sno content) in *.
  assert (msg <> []) as Hne by (unfold msg, signal_message; by destruct content).
  destruct (deserialize_from_ok (fd_client (group p)) msg rest (sg_received (group p)) w1 Hne Hlen Hbytes)
    as (w2 & E & Hr).
  exists w2. split; [done|]. split.
  { intros Q HQ Hw1. pose proof (keeps_deserialize Q (fd_client (group p)) (sg_received (group p)) w1 Hw1) as Hk.
    by rewrite E in Hk. }
  unfold wait_for_one_signal.
  rewrite (run_bind_ret _ _ p (group p) p) by done.
  rewrite (run_bind_ret _ _ p (1, POLLIN) (mkProcess (conn_fd p) (group p) (live p) w1))
    by (apply run_on_outside; by rewrite Hpoll).
  change (0 <? 1) with true. change (negb (Z.land POLLIN (Z.lor POLLIN POLLHUP) =? 0)) with true.
  change (Z.land POLLIN POLLHUP =? 0) with true. cbv iota beta.
  set (inner := on_outside _ ≫= _).
  assert (inner (mkProcess (conn_fd p) (group p) (live p) w1)
    = (for_each (deliver ino sno msg 12) (targets oid p);;
       set_received (Some (msg, 12%nat));; mret false) (with_signal (Some (msg, 0%nat)) w2 p)) as Ei.
  { unfold inner. rewrite (run_bind_ret _ _ _ _ _ (run_on_outside _ (mkProcess (conn_fd p) (group p) (live p) w1) _ _ E)). cbv iota beta.
    rewrite (run_bind_ret _ _ _ tt (with_signal (Some (msg, 0%nat)) w2 p)) by done. cbv iota.
    rewrite (run_bind_ret _ _ _ _ (with_signal (Some (msg, 0%nat)) w2 p))
      by (unfold of_outcome, msg; by rewrite signal_head_message). fold msg. cbv iota beta.
    rewrite (run_bind_ret _ _ _ (proxies (group p)) (with_signal (Some (msg, 0%nat)) w2 p)) by done.
    unfold mbind at 1, M_bind at 1.
    by rewrite (dispatch_signal_targets oid ino sno msg 12 (proxies (group p)) _ (live p)). }
  unfold mbind at 1, M_bind at 1. rewrite Ei. unfold mbind, M_bind.
  by destruct (for_each _ _ _) as [[[]|e|why] p'].
Qed.

(** C22: When a signal of an object arrives, [wait_for_one_signal] hands it to every
    proxy of that object in the group, once and in the order of registration, and
    to no other proxy; each of them finds the whole content, whatever the others
    read of it.  The pipe then holds exactly what followed the signal. *)
Theorem signal_delivered p timeout_ms w1 oid ino sno content rest
    (Halive : all_alive p)
    (Hoid : is_int32 oid) (Hino : is_int32 ino) (Hsno : is_int32 sno)
    (Hlen : Z.of_nat (length (signal_message oid ino sno content)) < 2 ^ 31)
    (Hpoll : sys_poll (fd_client (group p)) POLLIN timeout_ms (outside p) = (1, POLLIN, w1))
    (Hbytes : in_flight w1 = le_encode 4 (Z.of_nat (length (signal_message oid ino sno content))) ++
                             signal_message oid ino sno content ++ rest) :
  exists w2, in_flight w2 = rest /\
    wait_for_one_signal signal_dispatch timeout_ms p
    = (for_each (deliver ino sno (signal_message oid ino sno content) 12) (targets oid p);;
       set_received (Some (signal_message oid ino sno content, 12%nat));;
       mret 1) (with_signal (Some (signal_message oid ino sno content, 0%nat)) w2 p).
Proof.
  destruct (one_signal p timeout_ms w1 oid ino sno content rest) as (w2 & Hr & _ & E); [done..|].
  by exists w2.
Qed.

(** What the slots of the user got so far: the proxy, the interface and signal
    number, the content that the iterator pointed to. *)
Definition delivery : Type := Z * Z * Z * list byte.
Context (seen : W -> list delivery).

(** The slots return and leave the pipe alone; [poll] tells whether there is
    something to read. *)
Context (slots_return : forall a ino sno d it w, exists n w',
  signal_dispatch a ino sno d it w = (Ret n, w') /\ in_flight w' = in_flight w /\
  seen w' = seen w ++ [(a, ino, sno, drop it d)]).
Context (poll_ready : forall fd t w, in_flight w <> [] ->
  exists w', sys_poll fd POLLIN t w = (1, POLLIN, w') /\ in_flight w' = in_flight w /\ seen w' = seen w).
Context (poll_empty : forall fd w, in_flight w = [] ->
  exists w', sys_poll fd POLLIN 0 w = (0, 0, w') /\ in_flight w' = in_flight w /\ seen w' = seen w).
Context (read_unseen : forall fd n w, seen (sys_read fd n w).2 = seen w).

#[local] Instance read_keeps_seen l : ReadKeeps (fun w => seen w = l).
Proof. intros f n w <-. apply read_unseen. Qed.

(** Object id, interface and signal number, content. *)
Definition signal : Type := Z * Z * Z * list byte.
Definition message_of (s : signal) : list byte :=
  let '(oid, ino, sno, content) := s in signal_message oid ino sno content.
Definition signal_ok (s : signal) : Prop :=
  let '(oid, ino, sno, content) := s in
  is_int32 oid /\ is_int32 ino /\ is_int32 sno /\ Z.of_nat (length (message_of s)) < 2 ^ 31.
Definition framed (s : signal) : list byte :=
  le_encode 4 (Z.of_nat (length (message_of s))) ++ message_of s.

Definition pending (sigs : list signal) : list byte := concat (framed <$> sigs).

(** Nothing of the process changed but the world and the last message. *)
Definition same_group p p' : Prop :=
  live p' = live p /\ proxies (group p') = proxies (group p) /\ fd_client (group p') = fd_client (group p).

(** What a signal makes the slots of the process see. *)
Definition seen_of (s : signal) p : list delivery :=
  let '(oid, ino, sno, content) := s in (fun a => (a, ino, sno, content)) <$> targets oid p.
Definition all_seen (sigs : list signal) p : list delivery := concat ((fun s => seen_of s p) <$> sigs).

Lemma all_seen_same sigs p p' : same_group p p' -> all_seen sigs p' = all_seen sigs p.
Proof.
  intros (Hl & Hp & _). unfold all_seen. f_equal. apply list_fmap_ext. intros _ [[[oid ino] sno] c] _.
  unfold seen_of, targets. by rewrite Hl, Hp.
Qed.

Lemma deliver_all ino sno d it l p :
  exists w, for_each (deliver ino sno d it) l p
    = (Ret tt, mkProcess (conn_fd p) (group p) (live p) w) /\ in_flight w = in_flight (outside p) /\
    seen w = seen (outside p) ++ ((fun a => (a, ino, sno, drop it d)) <$> l).
Proof.
  revert p. induction l as [|a l IH]; intros p; [exists (outside p); rewrite app_nil_r; by destruct p|].
  destruct (slots_return a ino sno d it (outside p)) as (n & w & E & Hw & Hs).
  destruct (IH (mkProcess (conn_fd p) (group p) (live p) w)) as (w' & E' & Hw' & Hs').
  exists w'. cbn in Hw', Hs'. split; [|split; [congruence|by rewrite Hs', Hs, <- app_assoc]]. cbn [for_each].
  rewrite (run_bind_ret _ _ p tt (mkProcess (conn_fd p) (group p) (live p) w)); [exact E'|].
  unfold deliver. by rewrite (run_bind_ret _ _ _ _ _ (run_on_outside _ p _ _ E)).
Qed.

Lemma one_pending p t s rest :
  all_alive p -> signal_ok s -> in_flight (outside p) = framed s ++ rest ->
  exists p', wait_for_one_signal signal_dispatch t p = (Ret 1, p') /\ same_group p p' /\
    in_flight (outside p') = rest /\ seen (outside p') = seen (outside p) ++ seen_of s p.
Proof.
  destruct s as [[[oid ino] sno] content]. intros Ha (H1 & H2 & H3 & H4) Hp.
  destruct (poll_ready (fd_client (group p)) t (outside p)) as (w1 & E1 & Hw1 & Hs1).
  { rewrite Hp. unfold framed. destruct (le_encode _ _) eqn:E; [|done].
    pose proof (le_encode_length 4 (Z.of_nat (length (message_of (oid, ino, sno, content))))) as Hl.
    by rewrite E in Hl. }
  destruct (one_signal p t w1 oid ino sno content rest Ha H1 H2 H3 H4 E1) as (w2 & Hr & HQ & E).
  { rewrite Hw1, Hp. unfold framed. by rewrite <- app_assoc. }
  pose proof (HQ (fun w => seen w = seen (outside p)) _ Hs1) as Hs2. cbv beta in Hs2.
  rewrite E. clear E. unfold mbind at 1, M_bind at 1.
  destruct (deliver_all ino sno (signal_message oid ino sno content) 12 (targets oid p)
    (with_signal (Some (signal_message oid ino sno content, 0%nat)) w2 p)) as (w3 & E3 & Hw3 & Hs3).
  rewrite E3. eexists. split; [reflexivity|]. split; [done|]. cbn in Hw3, Hs3 |- *. split; [congruence|].
  by rewrite Hs3, Hs2.
Qed.

Lemma drain_pending fuel sigs p :
  all_alive p -> Forall signal_ok sigs -> in_flight (outside p) = pending sigs ->
  (length sigs < fuel)%nat ->
  exists p', drain_signals signal_dispatch fuel p = (Ret (Some tt), p') /\ same_group p p' /\
    in_flight (outside p') = [] /\ seen (outside p') = seen (outside p) ++ all_seen sigs p.
Proof.
  revert sigs p. induction fuel as [|fuel IH]; intros sigs p Ha Hs Hp Hf; [lia|].
  destruct sigs as [|s sigs]; cbn [drain_signals].
  - destruct (poll_empty (fd_client (group p)) (outside p) Hp) as (w & E & Hw & Hseen).
    exists (mkProcess (conn_fd p) (group p) (live p) w).
    split; [|split; [done|split; [by rewrite Hp in Hw|cbn; by rewrite app_nil_r]]].
    unfold wait_for_one_signal, poll, on_outside, zoom. mrun. by rewrite E.
  - apply Forall_cons in Hs as [Hok Hs].
    destruct (one_pending p 0 s (pending sigs) Ha Hok Hp) as (p1 & E1 & Hsame & Hr & Hs1).
    pose proof Hsame as (L1 & P1 & F1).
    destruct (IH sigs p1) as (p2 & E2 & (L2 & P2 & F2) & Hr2 & Hs2).
    { unfold all_alive in *. by rewrite P1, L1. }
    { done. } { done. } { cbn in Hf. lia. }
    exists p2. split; [|split; [by unfold same_group; rewrite L2, P2, F2|split; [done|]]].
    + rewrite (run_bind_ret _ _ _ _ _ E1). exact E2.
    + rewrite Hs2, Hs1, (all_seen_same sigs p p1 Hsame), <- app_assoc. done.
Qed.

(** C24: [wait_for_signal] returns when the pipe is empty: with [n] signals pending
    it dispatches all of them, in the order in which they were sent: the slots get,
    signal by signal, one call for every proxy of the signal's object in the group,
    in the order of registration, with the whole content, and nothing else.  Its
    inner loop takes [n] rounds, the last of which finds nothing. *)
Theorem wait_for_signal_drains fuel timeout_ms s sigs p
    (Halive : all_alive p) (Hok : Forall signal_ok (s :: sigs))
    (Hbytes : in_flight (outside p) = pending (s :: sigs))
    (Hfuel : (length sigs < fuel)%nat) :
  exists p', wait_for_signal signal_dispatch fuel timeout_ms p = (Ret (Some 1), p') /\
    in_flight (outside p') = [] /\ same_group p p' /\
    seen (outside p') = seen (outside p) ++ all_seen (s :: sigs) p.
Proof.
  apply Forall_cons in Hok as [Hs Hok].
  destruct (one_pending p timeout_ms s (pending sigs) Halive Hs Hbytes) as (p1 & E1 & Hsame & Hr & Hs1).
  pose proof Hsame as (L1 & P1 & F1).
  destruct (drain_pending fuel sigs p1) as (p2 & E2 & (L2 & P2 & F2) & Hr2 & Hs2); [|done..|].
  { unfold all_alive in *. by rewrite P1, L1. }
  exists p2. split; [|split; [done|split; [by unfold same_group; rewrite L2, P2, F2|]]].
  - unfold wait_for_signal. rewrite (run_bind_ret _ _ _ _ _ E1). change (0 <=? 1) with true. cbv iota.
    by rewrite (run_bind_ret _ _ _ _ _ E2).
  - rewrite Hs2, Hs1, (all_seen_same sigs p p1 Hsame), <- app_assoc. done.
Qed.
End Signals.

(** ** The container's functions through a [Container_Proxy] *)

(** [m], with its exception as a value. *)
Definition attempt {S T} (m : M S T) : M S (T + exn) :=
  try_catch (v ← m; mret (inl v)) (fun e => mret (inr e)).

(** A message on the wire: its size, then its bytes. *)
Definition frame (data : list byte) : list byte := le_encode 4 (Z.of_nat (length data)) ++ data.
Definition short (data : list byte) : Prop := Z.of_nat (length data) < 2 ^ 31.

(** The other end of the connection is a daemon: while the client waits in [poll]
    for its answer, the daemon takes the request from the pipe, answers it and puts
    the answer there.  A socket that nobody has written to accepts data; writing
    and reading do not touch the daemon. *)
Class Served (W : Type) `{!Posix W} `{!ClientSys W} {D : Type} (daemon : W -> D)
    (answer : list byte -> M D (list byte * bool)) := {
  poll_writable : forall fd t w, in_flight w = [] ->
    exists w', sys_poll fd (Z.lor POLLOUT POLLHUP) t w = (1, POLLOUT, w') /\
      in_flight w' = [] /\ daemon w' = daemon w;
  poll_answered : forall fd t w request reply stop d,
    request <> [] -> short request -> reply <> [] ->
    in_flight w = frame request -> answer request (daemon w) = (Ret (reply, stop), d) ->
    exists w', sys_poll fd (Z.lor POLLIN POLLHUP) t w = (1, POLLIN, w') /\
      in_flight w' = frame reply /\ daemon w' = d;
  write_served : forall fd buf w, daemon (sys_write fd buf w).2 = daemon w;
  read_served : forall fd n w, daemon (sys_read fd n w).2 = daemon w
}.

Section ServedLemmas.
Context {W : Type} `{PosixOk W} `{!Reliable W} `{!ClientSys W} {D : Type} (daemon : W -> D)
  (answer : list byte -> M D (list byte * bool)) `{!Served W daemon answer}.

#[local] Instance write_keeps_daemon d : WriteKeeps (fun w => daemon w = d).
Proof. intros f buf w <-. apply write_served. Qed.
#[local] Instance read_keeps_daemon d : ReadKeeps (fun w => daemon w = d).
Proof. intros f n w <-. apply read_served. Qed.

Definition with_outside (w : W) (p : Process W) : Process W := mkProcess (conn_fd p) (group p) (live p) w.

(** The request goes out. *)
Lemma conn_send_served data t p :
  data <> [] -> short data -> in_flight (outside p) = [] ->
  exists w, conn_send data t p = (Ret (1, []), with_outside w p) /\
    in_flight w = frame data /\ daemon w = daemon (outside p).
Proof.
  intros Hne Hlen Hp. destruct (poll_writable (conn_fd p) t (outside p) Hp) as (w1 & E1 & H1 & D1).
  destruct (write_to_no_init_ok (conn_fd p) data w1 Hne Hlen) as (w2 & E2 & H2).
  assert (write_to (conn_fd p) data w1 = (Ret (true, []), w2)) as E3
    by (unfold write_to; by rewrite (run_bind_ret _ _ _ _ _ E2)).
  exists w2. split; [|split; [by rewrite H2, H1|]].
  - unfold conn_send. rewrite (run_bind_ret _ _ p (conn_fd p) p) by done.
    rewrite (run_bind_ret _ _ p (1, POLLOUT) (with_outside w1 p))
      by (apply run_on_outside; by rewrite E1).
    change (0 <? 1) with true. change (negb (Z.land POLLOUT POLLOUT =? 0)) with true.
    change (negb (Z.land POLLOUT POLLHUP =? 0)) with false. cbv iota beta.
    rewrite (run_bind_ret _ _ _ [] (with_outside w2 p)); [done|].
    by rewrite (run_bind_ret _ _ _ _ _ (run_on_outside _ (with_outside w1 p) _ _ E3)).
  - pose proof (keeps_write_to (fun w => daemon w = daemon w1) (conn_fd p) data w1 eq_refl) as Hk. rewrite E3 in Hk.
    cbn in Hk. congruence.
Qed.

(** The answer comes in. *)
Lemma conn_receive_served old t p request reply stop d :
  request <> [] -> short request -> reply <> [] -> short reply ->
  in_flight (outside p) = frame request -> answer request (daemon (outside p)) = (Ret (reply, stop), d) ->
  exists w, conn_receive old t p = (Ret (1, Some (reply, 0%nat)), with_outside w p) /\
    in_flight w = [] /\ daemon w = d.
Proof.
  intros Hq Hqs Hr Hrs Hp Ha.
  destruct (poll_answered (conn_fd p) t (outside p) request reply stop d Hq Hqs Hr Hp Ha) as (w1 & E1 & H1 & D1).
  destruct (deserialize_from_ok (conn_fd p) reply [] old w1 Hr Hrs) as (w2 & E2 & H2);
    [by rewrite app_nil_r|].
  exists w2. split; [|split; [done|]].
  - unfold conn_receive. rewrite (run_bind_ret _ _ p (conn_fd p) p) by done.
    rewrite (run_bind_ret _ _ p (1, POLLIN) (with_outside w1 p))
      by (apply run_on_outside; by rewrite E1).
    change (0 <? 1) with true. change (negb (Z.land POLLIN POLLIN =? 0)) with true.
    change (negb (Z.land POLLIN POLLHUP =? 0)) with false. cbv iota beta.
    rewrite (run_bind_ret _ _ _ (Some (reply, 0%nat)) (with_outside w2 p)); [done|].
    by rewrite (run_bind_ret _ _ _ _ _ (run_on_outside _ (with_outside w1 p) _ _ E2)).
  - pose proof (keeps_deserialize (fun w => daemon w = d) (conn_fd p) old w1 D1) as Hk. by rewrite E2 in Hk.
Qed.

Lemma container_call_served {T} px ino request old (read : Deserializer -> outcome (T * Deserializer)) p reply stop d :
  request <> [] -> short request -> reply <> [] -> short reply ->
  in_flight (outside p) = [] -> answer request (daemon (outside p)) = (Ret (reply, stop), d) ->
  exists w, in_flight w = [] /\ daemon w = d /\
    container_call px ino request old read p
    = ((r ← read (Some (reply, 0%nat)); Ret r.1), with_outside w p).
Proof.
  intros Hq Hqs Hr Hrs Hp Ha.
  destruct (conn_send_served request (-1) p Hq Hqs Hp) as (w1 & E1 & H1 & D1).
  destruct (conn_receive_served old (-1) (with_outside w1 p) request reply stop d Hq Hqs Hr Hrs H1) as (w2 & E2 & H2 & D2).
  { cbn. by rewrite D1. }
  exists w2. split; [done|]. split; [done|]. unfold container_call.
  rewrite (run_bind_ret _ _ p (1, ([], Some (reply, 0%nat))) (with_outside w2 p)).
  - cbv iota beta. unfold of_outcome, mbind, M_bind, outcome_bind.
    by destruct (read (Some (reply, 0%nat))) as [[v r]|e|why].
  - unfold atomic_send_and_receive. rewrite (run_bind_ret _ _ _ _ _ E1). cbv iota beta.
    by rewrite (run_bind_ret _ _ _ _ _ E2).
Qed.
End ServedLemmas.

Section Proxies.
Context {CB DW SL : Type} `{!Posix DW}.
Abbreviation D := (Daemon CB DW).
Context (run_cb : CB -> M D unit) (recvfd : Z -> DW -> Z * DW) (open_plugin : string -> M D unit)
  (create_services : string -> list string -> M D unit) (additional : M D (list (string * string)))
  (generated : Z -> Z -> list byte -> nat -> M D (list byte)).

(** The daemon, for the client with the descriptor [fd]. *)
Definition daemon_answer (fd : Z) (data : list byte) : M D (list byte * bool) :=
  answer_request run_cb recvfd open_plugin create_services additional generated fd data.

(** What [call_service] does after the call. *)
Definition after_call {R} (r : R) : M D (option R) :=
  removed ← gets (fun st => removed_services (container st));
  remove_removed run_cb removed;;
  on_container (set_removed (fun _ => []));;
  mret (Some r).

Lemma call_service_found {R} (f : Z -> Z -> M D R) id fd st r s :
  f id fd st = (Ret r, s) ->
  call_service run_cb f id fd st
  = match map_find id (objects (container st)) with
    | None => (Ret None, st)
    | Some None => (Crash "null service", st)
    | Some (Some _) => after_call r s
    end.
Proof.
  intros E. unfold call_service. rewrite (run_bind_ret _ _ st (container st) st) by done.
  destruct (map_find id _) as [[sv|]|]; [|done..]. by rewrite (run_bind_ret _ _ _ _ _ E).
Qed.

Lemma after_call_result {R1 R2} (r1 : R1) (r2 : R2) s :
  match after_call r2 s with
  | (Ret o, s') => o = Some r2 /\ after_call r1 s = (Ret (Some r1), s')
  | _ => True
  end.
Proof.
  unfold after_call. unfold gets, mbind, M_bind.
  by destruct (remove_removed run_cb _ s) as [[[]|e|why] s'].
Qed.

Context {W : Type} `{PosixOk W} `{!Reliable W} `{!ClientSys W} (daemon : W -> D) (fd : Z)
  `{!Served W daemon (daemon_answer fd)}.

(** [remote], run in the process [p], is the daemon's function [local]: the daemon
    ends in the state in which running [local] in the [Container_Service] leaves
    it, and the client gets the same value, or a [saftbus::Error] with the text of
    the exception, or of a missing service.  (If the daemon dies, there is nothing
    to say.)  The pipe is empty again and nothing else of the process changed. *)
Definition goes_through {T} (ok : T -> Prop) (local : M D T) (remote : M (Process W) T) (p : Process W) : Prop :=
  let ends r d := exists w, remote p = (r, with_outside w p) /\ daemon w = d /\ in_flight w = [] in
  match call_service run_cb (fun _ _ => attempt local) 1 fd (daemon (outside p)) with
  | (Ret (Some (inl v)), d) => ok v -> ends (Ret v) d
  | (Ret (Some (inr e)), d) =>
      valid (what_of e) -> short (exception_reply (what_of e) []) -> ends (Throw (saftbus_error (what_of e))) d
  | (Ret None, d) =>
      ends (Throw (saftbus_error "remote call failed because service object was not found")) d
  | _ => True
  end.

Lemma exception_not_empty what : exception_reply what [] <> [].
Proof.
  unfold exception_reply. destruct (put_appends what (put EXCEPTION [])) as [bs ->].
  by destruct bs.
Qed.

(** The object id of the request is that of the [Container_Service]. *)
Lemma answer_container fno bs d :
  daemon_answer fd (request_head 1 0 fno ++ bs) d
  = (r ← call_service run_cb (fun _ _ =>
           container_service_call run_cb recvfd open_plugin create_services additional fd
             (request_head 1 0 fno ++ bs) 4) 1 fd;
     mret (match r with
           | Some reply => reply
           | None => (exception_reply "remote call failed because service object was not found" [], false)
           end)) d.
Proof.
  unfold daemon_answer, answer_request. rewrite (run_bind_ret _ _ d (Int 1 : uint32_t, 4%nat) d); [done|].
  unfold received. unfold request_head. set (d1 := put (Int 1 : int32_t) []).
  destruct (put_appends (Int 0 : int32_t) d1) as [b2 ->].
  destruct (put_appends (Int fno : int32_t) (d1 ++ b2)) as [b3 ->]. rewrite <- !app_assoc.
  change d1 with (put (Int 1 : uint32_t) []).
  assert (valid (Int 1 : uint32_t)) as Hv by (vm_compute; split; congruence).
  pose proof (get_put (Int 1 : uint32_t) [] (b2 ++ b3 ++ bs) Hv) as E. cbn [length] in E. by rewrite E.
Qed.

Lemma request_not_empty fno bs : request_head 1 0 fno ++ bs <> [].
Proof. intros E%(f_equal length). rewrite length_app, request_length in E. cbn in E. lia. Qed.

Lemma call_goes_through {T} (enc : T -> list byte) (stop : bool) (ok : T -> Prop)
    (read : Deserializer -> outcome (T * Deserializer)) (local : M D T) px ino fno bs request old p :
  request = request_head 1 0 fno ++ bs -> short request -> in_flight (outside p) = [] ->
  (forall v, ok v -> enc v <> [] /\ short (enc v)) ->
  (forall what, valid what -> read (Some (exception_reply what [], 0%nat)) = Throw (saftbus_error what)) ->
  transparent enc stop ok read (local (daemon (outside p)))
    (container_service_call run_cb recvfd open_plugin create_services additional fd request 4 (daemon (outside p))) ->
  goes_through ok local (container_call px ino request old read) p.
Proof.
  intros -> Hs Hp Henc Hex Ht. unfold goes_through. set (d := daemon (outside p)) in *.
  pose proof (answer_container fno bs d) as Ha. unfold transparent in Ht.
  assert (forall reply stop' d', reply <> [] -> short reply ->
    daemon_answer fd (request_head 1 0 fno ++ bs) d = (Ret (reply, stop'), d') ->
    exists w, in_flight w = [] /\ daemon w = d' /\
      container_call px ino (request_head 1 0 fno ++ bs) old read p
      = ((r ← read (Some (reply, 0%nat)); Ret r.1), with_outside w p)) as Hcall.
  { intros reply stop' d' Hr Hrs E. eapply container_call_served; eauto using request_not_empty. }
  destruct (local d) as [[v|e|why] s] eqn:El.
  - destruct Ht as [Er Hread].
    rewrite (call_service_found (fun _ _ => attempt local) 1 fd d (inl v) s)
      by (unfold attempt, try_catch, mbind, M_bind; by rewrite El).
    unfold mbind, M_bind in Ha. rewrite (call_service_found _ 1 fd d _ s Er) in Ha.
    destruct (map_find 1 _) as [[sv|]|]; [|done|].
    + pose proof (after_call_result (enc v, stop) (inl v : T + exn) s) as Hafter.
      destruct (after_call (inl v) s) as [[o|e|why] d']; [|done..]. destruct Hafter as [-> Hafter].
      rewrite Hafter in Ha. intros Hok. destruct (Henc v Hok) as [Hne Hshort].
      destruct (Hcall _ _ _ Hne Hshort Ha) as (w & Hw1 & Hw2 & E). destruct (Hread Hok) as [r Hr].
      exists w. by rewrite E, Hr.
    + edestruct Hcall as (w & Hw1 & Hw2 & E); [| |exact Ha|].
      { apply exception_not_empty. } { done. }
      exists w. rewrite E, Hex by (vm_compute; reflexivity). done.
  - destruct Ht as [Er Hread].
    rewrite (call_service_found (fun _ _ => attempt local) 1 fd d (inr e) s)
      by (unfold attempt, try_catch, mbind, M_bind; by rewrite El).
    unfold mbind, M_bind in Ha. rewrite (call_service_found _ 1 fd d _ s Er) in Ha.
    destruct (map_find 1 _) as [[sv|]|]; [|done|].
    + pose proof (after_call_result (exception_reply (what_of e) [], false) (inr e : T + exn) s) as Hafter.
      destruct (after_call (inr e) s) as [[o|e'|why] d']; [|done..]. destruct Hafter as [-> Hafter].
      rewrite Hafter in Ha. intros Hv Hshort.
      destruct (Hcall _ _ _ (exception_not_empty _) Hshort Ha) as (w & Hw1 & Hw2 & E).
      exists w. by rewrite E, (Hread Hv).
    + edestruct Hcall as (w & Hw1 & Hw2 & E); [| |exact Ha|].
      { apply exception_not_empty. } { done. }
      exists w. rewrite E, Hex by (vm_compute; reflexivity). done.
  - unfold call_service, attempt, try_catch. unfold gets, mbind, M_bind. 
    destruct (map_find 1 _) as [[sv|]|] eqn:Em; [by rewrite El|done|].
    unfold mbind, M_bind in Ha. unfold call_service in Ha.
    unfold gets, mbind, M_bind in Ha. rewrite Em in Ha.
    edestruct Hcall as (w & Hw1 & Hw2 & E); [| |exact Ha|].
    { apply exception_not_empty. } { done. }
    exists w. rewrite E, Hex by (vm_compute; reflexivity). done.
Qed.

End Proxies.

(** ** What a call keeps *)

(** The descriptors of the process stay closed once they are: nothing that the
    client library does opens one. *)
Class ClosedLaws (W : Type) `{!Posix W} `{!ClientSys W} (closed : Z -> W -> Prop) := {
  close_closes : forall fd w, closed fd (sys_close fd w);
  sendfd_closed : forall s fd w, closed fd w -> (sys_sendfd s fd w).1 <= 0;
  poll_keeps : forall fd f e t w, closed fd w -> closed fd (sys_poll f e t w).2;
  sendfd_keeps : forall fd s f w, closed fd w -> closed fd (sys_sendfd s f w).2;
  close_keeps : forall fd f w, closed fd w -> closed fd (sys_close f w);
  write_keeps : forall fd f buf w, closed fd w -> closed fd (sys_write f buf w).2;
  read_keeps : forall fd f n w, closed fd w -> closed fd (sys_read f n w).2
}.

(** A property of the world that polling, writing and reading leave alone. *)
Class Untouched {W} `{!Posix W} `{!ClientSys W} (Q : W -> Prop) := {
  poll_untouched : forall f e t w, Q w -> Q (sys_poll f e t w).2;
  write_untouched : forall f buf w, Q w -> Q (sys_write f buf w).2;
  read_untouched : forall f n w, Q w -> Q (sys_read f n w).2
}.

#[export] Instance untouched_write {W} `{!Posix W} `{!ClientSys W} (Q : W -> Prop) `{!Untouched Q} : WriteKeeps Q.
Proof. intros f buf w. apply write_untouched. Qed.
#[export] Instance untouched_read {W} `{!Posix W} `{!ClientSys W} (Q : W -> Prop) `{!Untouched Q} : ReadKeeps Q.
Proof. intros f n w. apply read_untouched. Qed.

#[export] Instance untouched_closed {W} `{!Posix W} `{!ClientSys W} closed `{!ClosedLaws W closed} fd :
  Untouched (closed fd).
Proof. split; intros; [by apply poll_keeps|by apply write_keeps|by apply read_keeps]. Qed.
#[export] Instance untouched_true {W} `{!Posix W} `{!ClientSys W} : Untouched (fun _ : W => True).
Proof. by split. Qed.

Section Closed.
Context {W : Type} `{!Posix W} `{!ClientSys W} (Q : W -> Prop) `{!Untouched Q}.

(** The exchange with the server changes what is outside only. *)
Definition inside (cfd : Z) (g : SignalGroup) (l : list (Z * ProxyImpl)) (Qw : W -> Prop) (p : Process W) : Prop :=
  conn_fd p = cfd /\ group p = g /\ live p = l /\ Qw (outside p).

Lemma keeps_on_outside {A} cfd g l (Qw : W -> Prop) (m : M W A) :
  keeps Qw m -> keeps (inside cfd g l Qw) (on_outside m).
Proof.
  intros Hm p (H1 & H2 & H3 & H4). unfold on_outside, zoom. specialize (Hm _ H4).
  by destruct (m (outside p)).
Qed.

Lemma keeps_conn_send cfd g l data t : keeps (inside cfd g l Q) (conn_send data t).
Proof.
  unfold conn_send. apply keeps_bind; [apply keeps_gets|]. intros f.
  apply keeps_bind.
  { apply keeps_on_outside. intros w Hw. pose proof (poll_untouched f (Z.lor POLLOUT POLLHUP) t w Hw) as Hk.
    by destruct (sys_poll _ _ _ _). }
  intros [r rev]. apply keeps_if; [|apply keeps_ret]. apply keeps_bind.
  - apply keeps_if; [|apply keeps_ret]. apply keeps_bind; [apply keeps_on_outside, (keeps_write_to Q)|].
    intros [ok rest]. apply keeps_ret.
  - intros data'. apply keeps_if; apply keeps_ret.
Qed.

Lemma keeps_conn_receive cfd g l old t : keeps (inside cfd g l Q) (conn_receive old t).
Proof.
  unfold conn_receive. apply keeps_bind; [apply keeps_gets|]. intros f.
  apply keeps_bind.
  { apply keeps_on_outside. intros w Hw. pose proof (poll_untouched f (Z.lor POLLIN POLLHUP) t w Hw) as Hk.
    by destruct (sys_poll _ _ _ _). }
  intros [r rev]. apply keeps_if; [|apply keeps_ret]. apply keeps_bind.
  - apply keeps_if; [|apply keeps_ret]. apply keeps_bind; [apply keeps_on_outside, (keeps_deserialize Q)|].
    intros [ok rest]. apply keeps_ret.
  - intros data'. apply keeps_if; apply keeps_ret.
Qed.
End Closed.

(** ** Proxies whose construction fails *)
Section Failing.
Context {W : Type} `{!Posix W} `{!ClientSys W} (closed : Z -> W -> Prop) `{!ClosedLaws W closed}.
Implicit Types (p : Process W).

(** The group after a successful registration of [a]. *)
Definition with_proxy (a : Z) (g : SignalGroup) : SignalGroup :=
  mkGroup (fd_server g) (fd_client g) (signal_group_id g) (sg_received g) (proxies g ++ [a]).

Lemma register_proxy_cases a p :
  (exists p', register_proxy a p = (Ret tt, p') /\ conn_fd p' = conn_fd p /\
     group p' = with_proxy a (group p) /\ live p' = live p /\
     (signal_group_id (group p) = -1 -> closed (fd_server (group p)) (outside p'))) \/
  (exists e p', register_proxy a p = (Throw e, p') /\ group p' = group p).
Proof.
  unfold register_proxy. rewrite (run_bind_ret _ _ p p p) by done.
  destruct (Z.eqb_spec (signal_group_id (group p)) (-1)) as [Hid|Hid].
  - unfold on_outside, zoom, throw_if, on_group. mrun.
    destruct (sys_sendfd _ _ (outside p)) as [r w]. cbn [outside conn_fd group live].
    destruct (r <=? 0).
    + right. by eexists _, _.
    + left. eexists. split; [reflexivity|]. repeat (split; [done|]). intros _. apply close_closes.
  - left. unfold on_group. mrun. eexists. split; [reflexivity|]. by repeat (split; [done|]).
Qed.

Lemma Proxy_new_registered a path names p e p' :
  Proxy_new a path names p = (Throw e, p') -> a ∉ proxies (group p) -> a ∈ proxies (group p') ->
  live p' = live p /\ group p' = with_proxy a (group p) /\
  (signal_group_id (group p) = -1 -> closed (fd_server (group p)) (outside p')).
Proof.
  intros Hrun Hnew Hreg. unfold Proxy_new in Hrun. rewrite (run_bind_ret (gets _) _ p (signal_group_id (group p)) p) in Hrun by done.
  set (data := put (Int _) _) in Hrun. clearbody data.
  pose proof (keeps_conn_send (fun _ => True) (conn_fd p) (group p) (live p) data (-1) p) as H1.
  destruct H1 as (C1 & G1 & L1 & _); [by split_and!|].
  unfold mbind at 1, M_bind at 1 in Hrun.
  destruct (conn_send data (-1) p) as [[[r1 rest]|e1|why1] p1] eqn:E1; cbn [snd] in C1, G1, L1;
    [|injection Hrun as <- <-; by rewrite G1 in Hreg|done].
  destruct (r1 <=? 0); [injection Hrun as <- <-; by rewrite G1 in Hreg|].
  rewrite (run_bind_ret (throw_if false _) _ p1 tt p1) in Hrun by done.
  destruct (register_proxy_cases a p1) as [(p2 & E2 & C2 & G2 & L2 & Hcl)|(e2 & p2 & E2 & G2)].
  2: { rewrite (run_bind_throw _ _ _ _ _ E2) in Hrun. injection Hrun as <- <-.
       by rewrite G2, G1 in Hreg. }
  rewrite (run_bind_ret _ _ _ _ _ E2) in Hrun. rewrite G1 in *. rewrite L1 in *.
  set (Qw := fun w => signal_group_id (group p) = -1 -> closed (fd_server (group p)) w).
  assert (Untouched Qw) as HQ.
  { split; intros; intros Hid; [apply poll_keeps|apply write_keeps|apply read_keeps]; auto. }
  pose proof (keeps_conn_receive Qw (conn_fd p2) (group p2) (live p2) (Some ([], 0%nat)) (-1) p2) as H3.
  destruct H3 as (C3 & G3 & L3 & Q3); [by split_and!|].
  unfold mbind at 1, M_bind at 1 in Hrun.
  destruct (conn_receive _ (-1) p2) as [[[r3 received]|e3|why3] p3] eqn:E3; cbn [snd] in C3, G3, L3, Q3;
    [|injection Hrun as <- <-; rewrite G3, L3; by rewrite G2, L2|done].
  assert (p' = p3) as ->; [|by rewrite L3, G3, G2, L2].
  revert Hrun. unfold throw_if, of_outcome, on_group, set_live. mrun.
  destruct (r3 <=? 0); [by intros [= _ <-]|].
  destruct (registration received) as [px|e4|why4]; [|by intros [= _ <-]|done].
  destruct (_ =? 0); [by intros [= _ <-]|]. destruct (_ =? -1); [by intros [= _ <-]|done].
Qed.

(** If the first proxy of a signal group cannot be constructed after its group
    was registered (its object does not exist, say), the group is lost: it has
    given away and closed its descriptor, but it still has no identifier, so that
    it tries to send the closed descriptor again for every later proxy, and no
    proxy can be constructed.  This holds for the global group of a process too. *)
Theorem failed_first_proxy_ruins_group a path names p e p'
    (Hid : signal_group_id (group p) = -1) (Hnew : a ∉ proxies (group p))
    (Hrun : Proxy_new a path names p = (Throw e, p')) (Hreg : a ∈ proxies (group p')) :
  forall a2 path2 names2 p2, Proxy_new a2 path2 names2 p' <> (Ret tt, p2).
Proof.
  destruct (Proxy_new_registered a path names p e p' Hrun Hnew Hreg) as (_ & Hg & Hcl).
  specialize (Hcl Hid). intros a2 path2 names2 p2 Hrun2. unfold Proxy_new in Hrun2.
  rewrite (run_bind_ret (gets _) _ p' (signal_group_id (group p')) p') in Hrun2 by done.
  set (data := put (Int _) _) in Hrun2. clearbody data.
  pose proof (keeps_conn_send (closed (fd_server (group p))) (conn_fd p') (group p') (live p') data (-1) p') as H1.
  destruct H1 as (C1 & G1 & L1 & Q1); [by split_and!|].
  unfold mbind at 1, M_bind at 1 in Hrun2.
  destruct (conn_send data (-1) p') as [[[r1 rest]|e1|why1] p1]; cbn [snd] in C1, G1, L1, Q1; [|done|done].
  destruct (r1 <=? 0); [done|]. rewrite (run_bind_ret (throw_if false _) _ p1 tt p1) in Hrun2 by done.
  revert Hrun2. unfold register_proxy.
  unfold mbind at 1, M_bind at 1. mrun. rewrite G1, Hg. cbn [with_proxy signal_group_id fd_server].
  rewrite Hid. change (-1 =? -1) with true. cbv iota beta.
  pose proof (sendfd_closed (conn_fd p1) (fd_server (group p)) (outside p1) Q1) as Hle.
  unfold on_outside, zoom. destruct (sys_sendfd _ _ _) as [r w]. cbn [fst] in Hle.
  cbn [outside conn_fd group live]. by rewrite (proj2 (Z.leb_le _ _) Hle).
Qed.
End Failing.

Section Dangling.
Context {W : Type} `{PosixOk W} `{!Reliable W} `{!ClientSys W} (closed : Z -> W -> Prop) `{!ClosedLaws W closed}.
Context (signal_dispatch : Z -> Z -> Z -> list byte -> nat -> M W nat).
(** The slots of the user return. *)
Hypothesis slots_return : forall a ino sno d it w, exists n w', signal_dispatch a ino sno d it w = (Ret n, w').
Implicit Types (p : Process W).

Lemma dispatch_signal_dangling oid ino sno d it ps a p :
  Forall (fun x => is_Some (map_find x (live p))) ps -> map_find a (live p) = None ->
  (dispatch_signal signal_dispatch oid ino sno d it (ps ++ [a]) p).1 = Crash "use of a destroyed proxy".
Proof.
  revert p. induction ps as [|x ps IH]; intros p Ha Hn; cbn [dispatch_signal app].
  - mrun. by rewrite Hn.
  - apply Forall_cons in Ha as [[px Hpx] Ha].
    rewrite (run_bind_ret (gets live) _ p (live p) p) by done. rewrite Hpx.
    destruct (saftbus_object_id px =? oid).
    + destruct (slots_return x ino sno d it (outside p)) as (n & w & E).
      rewrite (run_bind_ret _ _ p tt (mkProcess (conn_fd p) (group p) (live p) w))
        by (unfold on_outside, zoom; mrun; by rewrite E).
      by apply IH.
    + rewrite (run_bind_ret _ _ p tt p) by done. by apply IH.
Qed.

(** A proxy whose constructor throws after it was registered stays in its
    signal group although it is gone.  The next signal that arrives for the group
    makes [wait_for_one_signal] use the destroyed proxy, whatever object the
    signal belongs to. *)
Theorem failed_proxy_dangles a path names p e p' timeout_ms w1 oid ino sno content rest
    (Halive : all_alive p) (Hdead : map_find a (live p) = None) (Hnew : a ∉ proxies (group p))
    (Hrun : Proxy_new a path names p = (Throw e, p')) (Hreg : a ∈ proxies (group p'))
    (Hoid : is_int32 oid) (Hino : is_int32 ino) (Hsno : is_int32 sno)
    (Hlen : Z.of_nat (length (signal_message oid ino sno content)) < 2 ^ 31)
    (Hpoll : sys_poll (fd_client (group p')) POLLIN timeout_ms (outside p') = (1, POLLIN, w1))
    (Hbytes : in_flight w1 = le_encode 4 (Z.of_nat (length (signal_message oid ino sno content))) ++
                             signal_message oid ino sno content ++ rest) :
  (wait_for_one_signal signal_dispatch timeout_ms p').1 = Crash "use of a destroyed proxy".
Proof.
  destruct (Proxy_new_registered closed a path names p e p' Hrun Hnew Hreg) as (Hl & Hg & _).
  set (msg := signal_message oid ino sno content) in *.
  assert (msg <> []) as Hne by (unfold msg, signal_message; by destruct content).
  destruct (deserialize_from_ok (fd_client (group p')) msg rest (sg_received (group p')) w1 Hne Hlen Hbytes)
    as (w2 & E & Hr).
  unfold wait_for_one_signal.
  rewrite (run_bind_ret (gets group) _ p' (group p') p') by done.
  rewrite (run_bind_ret _ _ p' (1, POLLIN) (mkProcess (conn_fd p') (group p') (live p') w1))
    by (apply run_on_outside; by rewrite Hpoll).
  change (0 <? 1) with true. change (negb (Z.land POLLIN (Z.lor POLLIN POLLHUP) =? 0)) with true.
  cbv iota beta. set (inner := on_outside _ ≫= _).
  assert ((inner (mkProcess (conn_fd p') (group p') (live p') w1)).1 = Crash "use of a destroyed proxy") as Ei.
  { unfold inner.
    rewrite (run_bind_ret _ _ _ _ _ (run_on_outside _ (mkProcess (conn_fd p') (group p') (live p') w1) _ _ E)).
    cbv iota beta.
    rewrite (run_bind_ret _ _ _ tt (with_signal (Some (msg, 0%nat)) w2 p')) by done. cbv iota.
    rewrite (run_bind_ret _ _ _ _ (with_signal (Some (msg, 0%nat)) w2 p'))
      by (unfold of_outcome, msg; by rewrite signal_head_message). fold msg. cbv iota beta.
    rewrite (run_bind_ret _ _ _ (proxies (group p) ++ [a]) (with_signal (Some (msg, 0%nat)) w2 p'))
      by (unfold gets; cbn [with_signal group proxies]; by rewrite Hg).
    assert ((dispatch_signal signal_dispatch oid ino sno msg 12 (proxies (group p) ++ [a])
      (with_signal (Some (msg, 0%nat)) w2 p')).1 = Crash "use of a destroyed proxy") as Hd
      by (apply dispatch_signal_dangling; cbn [with_signal live]; by rewrite Hl).
    unfold mbind at 1, M_bind at 1. destruct (dispatch_signal _ _ _ _ _ _ _ _) as [o q].
    cbn [fst] in Hd. by subst o. }
  unfold mbind at 1, M_bind at 1. destruct (inner _) as [o q]. cbn [fst] in Ei. by subst o.
Qed.
End Dangling.

(** ** Examples *)
Module ClientDemo.

(** One stream for everything that the process reads, the closed descriptors and
    what the slots got. *)
Record net := mkNet { n_stream : sched_stream; n_closed : list Z; n_seen : list delivery }.

#[export] Instance net_posix : Posix net := {
  sys_write := fun fd buf w =>
    let '(r, s) := sys_write fd buf (n_stream w) in (r, mkNet s (n_closed w) (n_seen w));
  sys_read := fun fd n w =>
    let '(r, bs, s) := sys_read fd n (n_stream w) in (r, bs, mkNet s (n_closed w) (n_seen w));
  in_flight := fun w => in_flight (n_stream w)
}.
#[export] Instance net_posix_ok : PosixOk net.
Proof.
  split.
  - intros fd buf w r w' [= <- <-]. exact (sys_write_spec fd buf (n_stream w) _ _ eq_refl).
  - intros fd n w r bs w' [= <- <- <-]. exact (sys_read_spec fd n (n_stream w) _ _ _ eq_refl).
Qed.
#[export] Instance net_reliable : Reliable net.
Proof.
  split.
  - intros fd buf w Hne. exact (write_progress fd buf (n_stream w) Hne).
  - intros fd n w Hn Hne. exact (read_progress fd n (n_stream w) Hn Hne).
Qed.
#[export] Instance net_sys : ClientSys net := {
  sys_poll := fun _ events _ w =>
    if negb (Z.land events POLLOUT =? 0) then (1, POLLOUT, w)
    else match in_flight w with [] => (0, 0, w) | _ => (1, POLLIN, w) end;
  sys_sendfd := fun _ fd w => (if bool_decide (fd ∈ n_closed w) then -1 else 1, w);
  sys_close := fun fd w => mkNet (n_stream w) (fd :: n_closed w) (n_seen w)
}.
#[export] Instance net_closed : ClosedLaws net (fun fd w => fd ∈ n_closed w).
Proof.
  split; cbn; intros.
  - by left.
  - by rewrite bool_decide_true.
  - destruct (negb _); [done|]. by destruct (ss_bytes _).
  - done.
  - by right.
  - done.
  - done.
Qed.

(** A user's slot that notes what it got and reads one byte. *)
Definition demo_slot (proxy ino sno : Z) (d : list byte) (it : nat) : M net nat :=
  modify (fun w => mkNet (n_stream w) (n_closed w) (n_seen w ++ [(proxy, ino, sno, drop it d)]));;
  mret (S it).

Definition reply (oid : Z) : list byte :=
  put (mkMap [] : std_map string int32_t)
    (put (Int 9 : int32_t) (put (Int 8 : int32_t) (put (Int oid : int32_t) []))).
Definition content : list byte := [x61; x62; x63].

(** A group with two proxies of object 5 and one of object 6, or a new one. *)
Definition px (oid : Z) : ProxyImpl := mkProxy oid 8 9 [].
Definition demo_process (gid : Z) (incoming : list byte) (closed : list Z) : Process net :=
  mkProcess 3 (mkGroup 4 5 gid None (if gid =? -1 then [] else [100; 101; 102]))
    (if gid =? -1 then [] else [(100, px 5); (101, px 6); (102, px 5)])
    (mkNet (mkSched incoming [1; 0; 2]%nat) closed []).

Definition two_signals : Process net :=
  demo_process 9 (pending [(5, 0, 1, content); (6, 0, 2, [])]) [4].

Lemma two_signals_alive : all_alive two_signals.
Proof. repeat constructor; by eexists. Qed.

Lemma signal_delivered_witness :
  exists w2, in_flight w2 = framed (6, 0, 2, []) /\
    wait_for_one_signal demo_slot 1000 two_signals
    = (for_each (deliver demo_slot 0 1 (signal_message 5 0 1 content) 12) (targets 5 two_signals);;
       set_received (Some (signal_message 5 0 1 content, 12%nat));;
       mret 1) (with_signal (Some (signal_message 5 0 1 content, 0%nat)) w2 two_signals).
Proof.
  apply (signal_delivered demo_slot two_signals 1000 (outside two_signals) 5 0 1 content
           (framed (6, 0, 2, [])) two_signals_alive); try (split; vm_compute; congruence);
    vm_compute; reflexivity.
Defined.
Example targets_demo : targets 5 two_signals = [100; 102].
Proof. vm_compute. reflexivity. Qed.

Lemma wait_for_signal_drains_witness :
  exists p', wait_for_signal demo_slot 10 (-1) two_signals = (Ret (Some 1), p') /\
    in_flight (outside p') = [] /\ same_group two_signals p' /\
    n_seen (outside p') = [(100, 0, 1, content); (102, 0, 1, content); (101, 0, 2, [])].
Proof.
  apply (wait_for_signal_drains demo_slot n_seen) with (s := (5, 0, 1, content)) (sigs := [(6, 0, 2, [])]).
  - intros a ino sno d it w. exists (S it), (mkNet (n_stream w) (n_closed w) (n_seen w ++ [(a, ino, sno, drop it d)])). by split.
  - intros fd t w Hw. exists w. split; [|done]. cbn in *. by destruct (ss_bytes _).
  - intros fd w Hw. exists w. split; [|done]. cbn in *. by rewrite Hw.
  - done.
  - apply two_signals_alive.
  - repeat constructor; vm_compute; congruence.
  - vm_compute. reflexivity.
  - vm_compute. lia.
Defined.

(** The object of the first proxy does not exist. *)
Definition fresh_group : Process net := demo_process (-1) (frame (reply 0)) [].

Example first_proxy_fails :
  (Proxy_new 200 "/no/such" [] fresh_group).1 = Throw (saftbus_error (msg_object "/no/such")).
Proof. vm_compute. reflexivity. Qed.

Lemma failed_first_proxy_ruins_group_witness :
  (Proxy_new 201 "/a" [] (Proxy_new 200 "/no/such" [] fresh_group).2).1 <> Ret tt.
Proof.
  intros Hrun. eapply (failed_first_proxy_ruins_group (fun fd w => fd ∈ n_closed w) 200 "/no/such" [] fresh_group
    (saftbus_error (msg_object "/no/such")) (Proxy_new 200 "/no/such" [] fresh_group).2).
  - reflexivity.
  - apply not_elem_of_nil.
  - vm_compute. reflexivity.
  - apply (bool_decide_unpack _). vm_compute. exact I.
  - rewrite <- Hrun. apply surjective_pairing.
Defined.

(** A proxy of a working group fails; then a signal arrives. *)
Definition before_failure : Process net :=
  demo_process 9 (frame (reply 0) ++ framed (6, 0, 2, [])) [4].

Lemma failed_proxy_dangles_witness :
  (wait_for_one_signal demo_slot (-1) (Proxy_new 200 "/no/such" [] before_failure).2).1
  = Crash "use of a destroyed proxy".
Proof.
  eapply (failed_proxy_dangles (fun fd w => fd ∈ n_closed w) demo_slot) with (p := before_failure) (a := 200)
    (e := saftbus_error (msg_object "/no/such")) (path := "/no/such"%string) (names := [])
    (oid := 6) (ino := 0) (sno := 2) (content := []).
  - intros a ino sno d it w. eexists (S it), _. reflexivity.
  - repeat constructor; by eexists.
  - reflexivity.
  - apply (bool_decide_unpack _). vm_compute. exact I.
  - vm_compute. reflexivity.
  - apply (bool_decide_unpack _). vm_compute. exact I.
  - split; vm_compute; congruence.
  - split; vm_compute; congruence.
  - split; vm_compute; congruence.
  - vm_compute. reflexivity.
  - vm_compute. reflexivity.
  - vm_compute. reflexivity.
Defined.

(** A client whose connection ends at the daemon of one container. *)
Record link := mkLink { l_stream : sched_stream; l_daemon : Daemon unit sched_stream }.

Definition link_answer : list byte -> M (Daemon unit sched_stream) (list byte * bool) :=
  daemon_answer ServerCorrect.Demo.demo_cb ServerCorrect.Demo.demo_recvfd ServerCorrect.Demo.demo_open
    ServerCorrect.Demo.demo_create ServerCorrect.Demo.demo_additional ServerCorrect.Demo.demo_generated 8.

#[export] Instance link_posix : Posix link := {
  sys_write := fun fd buf w =>
    let '(r, s) := sys_write fd buf (l_stream w) in (r, mkLink s (l_daemon w));
  sys_read := fun fd n w =>
    let '(r, bs, s) := sys_read fd n (l_stream w) in (r, bs, mkLink s (l_daemon w));
  in_flight := fun w => in_flight (l_stream w)
}.
#[export] Instance link_posix_ok : PosixOk link.
Proof.
  split.
  - intros fd buf w r w' [= <- <-]. exact (sys_write_spec fd buf (l_stream w) _ _ eq_refl).
  - intros fd n w r bs w' [= <- <- <-]. exact (sys_read_spec fd n (l_stream w) _ _ _ eq_refl).
Qed.
#[export] Instance link_reliable : Reliable link.
Proof.
  split.
  - intros fd buf w Hne. exact (write_progress fd buf (l_stream w) Hne).
  - intros fd n w Hn Hne. exact (read_progress fd n (l_stream w) Hn Hne).
Qed.

(** While the client waits for data, the daemon answers the request in the pipe. *)
#[export] Instance link_sys : ClientSys link := {
  sys_poll := fun _ events _ w =>
    if negb (Z.land events POLLOUT =? 0) then (1, POLLOUT, w)
    else match link_answer (drop 4 (ss_bytes (l_stream w))) (l_daemon w) with
         | (Ret (reply, _), d) => (1, POLLIN, mkLink (mkSched (frame reply) (ss_sched (l_stream w))) d)
         | (_, d) => (1, POLLHUP, mkLink (l_stream w) d)
         end;
  sys_sendfd := fun _ _ w => (1, w);
  sys_close := fun _ w => w
}.
#[export] Instance link_served : Served link l_daemon link_answer.
Proof.
  split.
  - intros fd t w Hw. by exists w.
  - intros fd t w request reply stop d _ _ _ Hw Ha.
    exists (mkLink (mkSched (frame reply) (ss_sched (l_stream w))) d). split; [|done]. cbn in Hw.
    assert (drop 4 (ss_bytes (l_stream w)) = request) as E
      by (rewrite Hw; done).
    unfold sys_poll, link_sys. change (negb (Z.land (Z.lor POLLIN POLLHUP) POLLOUT =? 0)) with false.
    cbv iota. by rewrite E, Ha.
  - done.
  - done.
Qed.

Definition linked : Process link :=
  mkProcess 3 (mkGroup 4 5 (-1) None []) []
    (mkLink (mkSched [] [1; 0; 2]%nat) (ServerCorrect.Demo.demo_daemon (mkSched [] []))).

Example remote_removal_fails :
  (Proxy_remove_object (mkProxy 1 8 9 []) 0 "/no/such" None linked).1
  = Throw (saftbus_error (msg_not_found "/no/such")).
Proof. vm_compute. reflexivity. Qed.
Example remote_quit :
  let '(r, p) := Proxy_quit (mkProxy 1 8 9 []) 0 None linked in
  r = Ret tt /\ object_path_lookup_table (container (l_daemon (outside p))) = [].
Proof. vm_compute. done. Qed.
End ClientDemo.
