(* ===== verification/Allocator.v ===== *)
(** * The chunk allocator: saftbus/configurable_chunck_allocator_rt.cpp

    Pools of chunks of one size behind [operator new], the heap when no pool has a
    chunk.  Addresses are numbers; [::malloc] and [::free] are parameters. *)
From Stdlib Require Import Strings.Ascii.
From S2P Require Import Prelude.
Local Open Scope Z_scope.

(** ** One pool

    [indices] lists the chunks, the first [allocated_chuncks] of them in use;
    [backindices] is the place of each chunk in that list. *)
Record ChunckAllocatorRT := mkPool {
  MAX_CHUNCKS : nat;
  CHUNCKSIZE : Z;
  chuncks : Z;
  backindices : list nat;
  indices : list nat;
  allocated_chuncks : nat
}.

Definition new_pool (max_chuncks : nat) (chuncksize address : Z) : ChunckAllocatorRT :=
  mkPool max_chuncks chuncksize address (seq 0 max_chuncks) (seq 0 max_chuncks) 0.

Definition set_pool (back ind : list nat) (n : nat) (a : ChunckAllocatorRT) : ChunckAllocatorRT :=
  mkPool (MAX_CHUNCKS a) (CHUNCKSIZE a) (chuncks a) back ind n.

Definition contains (ptr : Z) (a : ChunckAllocatorRT) : bool :=
  (chuncks a <=? ptr) && (ptr <? chuncks a + Z.of_nat (MAX_CHUNCKS a) * CHUNCKSIZE a).
Definition full (a : ChunckAllocatorRT) : bool := (allocated_chuncks a =? MAX_CHUNCKS a)%nat.
Definition fits (n : Z) (a : ChunckAllocatorRT) : bool := n <=? CHUNCKSIZE a.

Definition chunk_address (a : ChunckAllocatorRT) (i : nat) : Z := chuncks a + Z.of_nat i * CHUNCKSIZE a.

Definition pool_malloc (size : Z) (a : ChunckAllocatorRT) : outcome (Z * ChunckAllocatorRT) :=
  if negb (size <=? CHUNCKSIZE a) then Crash "assert(size <= CHUNCKSIZE)"
  else if negb (allocated_chuncks a <? MAX_CHUNCKS a)%nat then Crash "assert(allocated_chuncks < MAX_CHUNCKS)"
  else match indices a !! allocated_chuncks a with
       | None => Crash "indices[allocated_chuncks]"
       | Some i =>
           Ret (chunk_address a i, set_pool (backindices a) (indices a) (S (allocated_chuncks a)) a)
       end.

(** [std::swap(v[i], v[j])] on values that were read before *)
Definition swap_entries (i j : nat) (x y : nat) (v : list nat) : list nat := <[j := x]> (<[i := y]> v).

Definition pool_free (ptr : Z) (a : ChunckAllocatorRT) : outcome ChunckAllocatorRT :=
  if (allocated_chuncks a =? 0)%nat then Crash "assert(allocated_chuncks > 0)"
  else if negb (contains ptr a) then Crash "assert(contains(ptr))"
  else
    let index := Z.to_nat ((ptr - chuncks a) / CHUNCKSIZE a) in
    let last := (allocated_chuncks a - 1)%nat in
    match backindices a !! index with
    | None => Crash "backindices[index]"
    | Some place =>
        match indices a !! place, indices a !! last with
        | Some a_idx, Some b_idx =>
            match backindices a !! a_idx, backindices a !! b_idx with
            | Some a_backidx, Some b_backidx =>
                Ret (set_pool (swap_entries a_idx b_idx a_backidx b_backidx (backindices a))
                       (swap_entries place last a_idx b_idx (indices a)) last a)
            | _, _ => Crash "backindices[...]"
            end
        | _, _ => Crash "indices[...]"
        end
    end.

(** ** The allocator *)
Class Heap (H : Type) := {
  sys_malloc : Z -> H -> Z * H;
  sys_free : Z -> H -> H
}.

Record Allocator (H : Type) := mkAllocator {
  allocators : list ChunckAllocatorRT;
  heap_allocations : Z;
  heap : H
}.
Arguments mkAllocator {_} _ _ _.
Arguments allocators {_} _.
Arguments heap_allocations {_} _.
Arguments heap {_} _.

Section Allocator.
Context {H : Type} `{!Heap H}.

(** The first pool with a chunk that is large enough. *)
Fixpoint pools_malloc (n : Z) (ps : list ChunckAllocatorRT)
    : option (outcome (Z * list ChunckAllocatorRT)) :=
  match ps with
  | [] => None
  | a :: ps' =>
      if fits n a && negb (full a) then
        Some (match pool_malloc n a with
              | Ret (ptr, a') => Ret (ptr, a' :: ps')
              | Throw e => Throw e
              | Crash why => Crash why
              end)
      else match pools_malloc n ps' with
           | Some (Ret (ptr, ps'')) => Some (Ret (ptr, a :: ps''))
           | r => r
           end
  end.

Definition allocator_malloc (n : Z) (al : Allocator H) : outcome (Z * Allocator H) :=
  match pools_malloc n (allocators al) with
  | Some (Ret (ptr, ps)) => Ret (ptr, mkAllocator ps (heap_allocations al) (heap al))
  | Some (Throw e) => Throw e
  | Some (Crash why) => Crash why
  | None =>
      let '(ptr, h) := sys_malloc n (heap al) in
      Ret (ptr, mkAllocator (allocators al) (u64 (heap_allocations al + 1)) h)
  end.

(** The first pool that contains the pointer. *)
Fixpoint pools_free (ptr : Z) (ps : list ChunckAllocatorRT) : option (outcome (list ChunckAllocatorRT)) :=
  match ps with
  | [] => None
  | a :: ps' =>
      if contains ptr a then
        Some (match pool_free ptr a with
              | Ret a' => Ret (a' :: ps')
              | Throw e => Throw e
              | Crash why => Crash why
              end)
      else match pools_free ptr ps' with
           | Some (Ret ps'') => Some (Ret (a :: ps''))
           | r => r
           end
  end.

Definition allocator_free (ptr : Z) (al : Allocator H) : outcome (Allocator H) :=
  match pools_free ptr (allocators al) with
  | Some (Ret ps) => Ret (mkAllocator ps (heap_allocations al) (heap al))
  | Some (Throw e) => Throw e
  | Some (Crash why) => Crash why
  | None =>
      Ret (mkAllocator (allocators al) (u64 (heap_allocations al - 1)) (sys_free ptr (heap al)))
  end.

(** ** The configuration: pairs "chunks.size", separated by single spaces *)
Definition is_digit (c : ascii) : bool :=
  let n := nat_of_ascii c in ((48 <=? n) && (n <=? 57))%nat.
Definition digit_value (c : ascii) : Z := Z.of_nat (nat_of_ascii c) - 48.

Fixpoint scan_digits (acc : Z) (s : list ascii) : Z * list ascii :=
  match s with
  | c :: s' => if is_digit c then scan_digits (10 * acc + digit_value c) s' else (acc, s)
  | [] => (acc, [])
  end.

Definition is_blank (c : ascii) : bool :=
  let n := nat_of_ascii c in ((n =? 32) || (9 <=? n) && (n <=? 13))%nat.

(** [%d]: blanks, a sign, digits; [None]: no match. *)
Definition scan_number (s : list ascii) : option (Z * list ascii) :=
  match s with
  | c :: _ => if is_digit c then Some (scan_digits 0 s) else None
  | [] => None
  end.
Fixpoint scan_int (s : list ascii) : option (Z * list ascii) :=
  match s with
  | c :: s' =>
      if is_blank c then scan_int s'
      else if bool_decide (c = "-"%char)
        then match scan_number s' with Some (n, r) => Some (- n, r) | None => None end
      else if bool_decide (c = "+"%char) then scan_number s'
      else scan_number s
  | [] => None
  end.

(** [sscanf(ptr, "%d.%d", &max_chuncks, &chuncksize)]: what does not match
    stays 0. *)
Definition scan_pair (s : list ascii) : Z * Z :=
  match scan_int s with
  | None => (0, 0)
  | Some (m, c :: s') =>
      if bool_decide (c = "."%char)
      then match scan_int s' with Some (k, _) => (m, k) | None => (m, 0) end
      else (m, 0)
  | Some (m, []) => (m, 0)
  end.

(** Advance behind the next blank. *)
Fixpoint next_pair (s : list ascii) : list ascii :=
  match s with
  | c :: s' => if bool_decide (c = " "%char) then s' else next_pair s'
  | [] => []
  end.

Definition count_pairs (s : list ascii) : nat :=
  match s with
  | [] => 0
  | _ => S (length (filter (fun c => c = " "%char) s))
  end.

(** The object, its chunks and its two index arrays come from the heap. *)
Definition create_pool (max_chuncks chuncksize : Z) (h : H) : ChunckAllocatorRT * H :=
  let '(_, h0) := sys_malloc 48 h in
  let '(address, h1) := sys_malloc (max_chuncks * chuncksize) h0 in
  let '(_, h2) := sys_malloc (max_chuncks * 8) h1 in
  let '(_, h3) := sys_malloc (max_chuncks * 8) h2 in
  (new_pool (Z.to_nat max_chuncks) chuncksize address, h3).

(** A negative number becomes a size beyond the address space: no memory has it,
    and the constructor would write through the null pointer. *)
Fixpoint create_pools (k : nat) (prev : option ChunckAllocatorRT) (s : list ascii) (h : H)
    : outcome (list ChunckAllocatorRT * H) :=
  match k with
  | O => Ret ([], h)
  | S k' =>
      let '(max_chuncks, chuncksize) := scan_pair s in
      if (match prev with
          | Some a => negb (max_chuncks <? Z.of_nat (MAX_CHUNCKS a)) || negb (CHUNCKSIZE a <? chuncksize)
          | None => false
          end)
      then Crash "assert: later allocators must have fewer and larger chunks"
      else if (2 ^ 31 <=? Z.abs max_chuncks) || (2 ^ 31 <=? Z.abs chuncksize)
      then Crash "sscanf: overflow"
      else if (max_chuncks <? 0) || (chuncksize <? 0)
      then Crash "a pool of negative size"
      else
        let '(a, h') := create_pool max_chuncks chuncksize h in
        match create_pools k' (Some a) (next_pair s) h' with
        | Ret (ps, h'') => Ret (a :: ps, h'')
        | Throw e => Throw e
        | Crash why => Crash why
        end
  end.

Definition Allocator_new (config : option string) (h : H) : outcome (Allocator H) :=
  let s := String.list_ascii_of_string (default "16384.128 1024.1024 64.16384"%string config) in
  let '(_, h0) := sys_malloc (8 * Z.of_nat (count_pairs s)) h in
  match create_pools (count_pairs s) None s h0 with
  | Ret (ps, h') => Ret (mkAllocator ps 0 h')
  | Throw e => Throw e
  | Crash why => Crash why
  end.
End Allocator.

(** ** The variant with sizes fixed at compile time (chunck_allocator_rt.hpp):
    its last comparison is [<=]. *)
Definition template_contains (buffer0 : Z) (max_chuncks sizeof_chunck ptr : Z) : bool :=
  (buffer0 <=? ptr) && (ptr <=? buffer0 + max_chuncks * sizeof_chunck).
