(* ===== verification/AllocatorCorrect.v ===== *)
(** * The chunk allocator never hands out memory twice

    A pool keeps two permutations that are inverse to each other; the chunks in use
    are the first ones of the list.  Over all pools and the heap, the reserved
    blocks are disjoint: [malloc] adds one, [free] takes one away, and no
    assertion fails. *)
From S2P Require Import Prelude Allocator.
Local Open Scope Z_scope.

(** ** Lists *)
Lemma Permutation_insert {A} (l : list A) i x y :
  l !! i = Some x -> x :: <[i := y]> l ≡ₚ y :: l.
Proof.
  intros Hi. rewrite <- (take_drop_middle l i x Hi) at 2.
  rewrite insert_take_drop by (by eapply lookup_lt_Some).
  rewrite (Permutation_app_comm (take i l) (y :: _)), (Permutation_app_comm (take i l) (x :: _)). cbn.
  apply perm_swap.
Qed.

Lemma Permutation_move {A} (x : A) l r1 r2 k : l ++ r2 ++ x :: r1 ++ k ≡ₚ (x :: l) ++ (r2 ++ r1) ++ k.
Proof. rewrite <- app_assoc, app_assoc, <- Permutation_middle. cbn. by rewrite <- app_assoc. Qed.

Lemma ForallOrdPairs_two {A} (R : A -> A -> Prop) l x y :
  (forall a b, R a b -> R b a) -> ForallOrdPairs R l -> x ∈ l -> y ∈ l -> x = y \/ R x y.
Proof.
  intros Hsym. induction 1 as [|a l Ha Hl IH]; intros Hx Hy; [by apply not_elem_of_nil in Hx|].
  rewrite Forall_forall in Ha.
  apply elem_of_cons in Hx as [->|Hx]; apply elem_of_cons in Hy as [->|Hy]; auto.
Qed.

Lemma FOP_fmap {A B} (R : B -> B -> Prop) (f : A -> B) l :
  ForallOrdPairs R (f <$> l) -> ForallOrdPairs (fun x y => R (f x) (f y)) l.
Proof.
  induction l as [|a l IH]; cbn; intros Hp; [constructor|].
  inversion_clear Hp as [|? ? Ha Hl]. constructor; [exact (proj1 (Forall_fmap f _ _) Ha)|by apply IH].
Qed.

Lemma FOP_app_inv {A} (R : A -> A -> Prop) l k :
  ForallOrdPairs R (l ++ k) ->
  ForallOrdPairs R l /\ ForallOrdPairs R k /\ (forall x y, x ∈ l -> y ∈ k -> R x y).
Proof.
  induction l as [|a l IH]; cbn; intros Hp.
  - split; [constructor|]. split; [done|]. by intros x y ?%not_elem_of_nil.
  - inversion_clear Hp as [|? ? Ha Hp']. apply Forall_app in Ha as [Hal Hak].
    destruct (IH Hp') as (H1 & H2 & H3). split; [by constructor|]. split; [done|].
    intros x y [->|Hx]%elem_of_cons Hy; [|by apply H3].
    rewrite Forall_forall in Hak. by apply Hak.
Qed.

Lemma FOP_Permutation {A} (R : A -> A -> Prop) l k :
  (forall x y, R x y -> R y x) -> l ≡ₚ k -> ForallOrdPairs R l -> ForallOrdPairs R k.
Proof.
  intros Hsym. induction 1 as [|x l k Hp IH|x y l|l k m H1 IH1 H2 IH2]; intros Hl; [done|..].
  - inversion_clear Hl as [|? ? Hx Hl']. constructor; [by rewrite <- Hp|auto].
  - inversion_clear Hl as [|? ? Hy Hl']. inversion_clear Hl' as [|? ? Hx Hl''].
    apply Forall_cons in Hy as [Hyx Hy]. constructor; [by constructor; [apply Hsym|]|]. by constructor.
  - auto.
Qed.

(** ** Pools *)
Record pool_ok (a : ChunckAllocatorRT) : Prop := {
  ok_size : 0 < CHUNCKSIZE a;
  ok_indices : length (indices a) = MAX_CHUNCKS a;
  ok_back : length (backindices a) = MAX_CHUNCKS a;
  ok_allocated : (allocated_chuncks a <= MAX_CHUNCKS a)%nat;
  ok_inverse : forall i j, indices a !! j = Some i <-> backindices a !! i = Some j
}.

Definition in_use (a : ChunckAllocatorRT) : list nat := take (allocated_chuncks a) (indices a).

(** The size and the place of a pool do not change. *)
Definition same_place (a a' : ChunckAllocatorRT) : Prop :=
  MAX_CHUNCKS a' = MAX_CHUNCKS a /\ CHUNCKSIZE a' = CHUNCKSIZE a /\ chuncks a' = chuncks a.

Lemma new_pool_ok n size address : 0 < size -> pool_ok (new_pool n size address).
Proof.
  intros Hs. split; cbn; [done|by rewrite length_seq..|lia|].
  intros i j. rewrite !lookup_seq. lia.
Qed.

Lemma indices_lt a i j : pool_ok a -> indices a !! j = Some i -> (i < MAX_CHUNCKS a)%nat.
Proof.
  intros [_ _ Hb _ Hinv] Hj. apply Hinv in Hj. rewrite <- Hb. by eapply lookup_lt_Some.
Qed.

Lemma indices_inj a i j k : pool_ok a -> indices a !! j = Some i -> indices a !! k = Some i -> j = k.
Proof. intros [_ _ _ _ Hinv] Hj%Hinv Hk%Hinv. congruence. Qed.

Lemma elem_in_use a i :
  (i ∈ in_use a) <-> exists j, (j < allocated_chuncks a)%nat /\ indices a !! j = Some i.
Proof.
  unfold in_use. rewrite list_elem_of_lookup. split.
  - intros [j Hj]. apply lookup_take_Some in Hj as [? ?]. eauto.
  - intros (j & ? & ?). exists j. by apply lookup_take_Some.
Qed.

(** [malloc] takes a chunk that is not in use. *)
Lemma pool_malloc_spec n a :
  pool_ok a -> fits n a = true -> full a = false ->
  exists i a', pool_malloc n a = Ret (chunk_address a i, a') /\ pool_ok a' /\ same_place a a' /\
    (i < MAX_CHUNCKS a)%nat /\ (i ∉ in_use a) /\ in_use a' = in_use a ++ [i].
Proof.
  intros Hok Hfit Hfull. pose proof Hok as [Hs Hi Hb Ha Hinv].
  unfold full in Hfull. apply Nat.eqb_neq in Hfull.
  destruct (lookup_lt_is_Some_2 (indices a) (allocated_chuncks a)) as [i Ei]; [lia|].
  unfold pool_malloc, fits in *. rewrite Hfit. cbn [negb].
  rewrite (proj2 (Nat.ltb_lt _ _)) by lia. cbn [negb]. rewrite Ei.
  exists i. eexists. split; [done|]. split.
  { split; cbn; [done..|lia|done]. }
  split; [done|]. split; [by eapply indices_lt|]. split.
  - intros (j & Hj & Ej)%elem_in_use. pose proof (indices_inj _ _ _ _ Hok Ei Ej). lia.
  - unfold in_use. cbn. by apply take_S_r.
Qed.

(** Swapping two entries of both permutations keeps them inverse. *)
Lemma swap_inverse (ind back : list nat) p q x y :
  length ind = length back ->
  (forall i j, ind !! j = Some i <-> back !! i = Some j) ->
  ind !! p = Some x -> ind !! q = Some y ->
  forall i j, swap_entries p q x y ind !! j = Some i <-> swap_entries x y p q back !! i = Some j.
Proof.
  intros Hlen Hinv Hp Hq i j. unfold swap_entries.
  pose proof (proj1 (Hinv x p) Hp) as Hx. pose proof (proj1 (Hinv y q) Hq) as Hy.
  pose proof (lookup_lt_Some _ _ _ Hp). pose proof (lookup_lt_Some _ _ _ Hq).
  pose proof (lookup_lt_Some _ _ _ Hx). pose proof (lookup_lt_Some _ _ _ Hy).
  assert (p = q <-> x = y) as Hpq.
  { split; [intros ->; congruence|intros ->; congruence]. }
  rewrite !list_lookup_insert, !length_insert. specialize (Hinv i j).
  repeat case_decide; naive_solver.
Qed.

Lemma chunk_index a i : pool_ok a -> Z.to_nat ((chunk_address a i - chuncks a) / CHUNCKSIZE a) = i.
Proof.
  intros [Hs _ _ _ _]. unfold chunk_address.
  replace (chuncks a + Z.of_nat i * CHUNCKSIZE a - chuncks a) with (Z.of_nat i * CHUNCKSIZE a) by lia.
  rewrite Z.div_mul by lia. apply Nat2Z.id.
Qed.

Lemma contains_chunk a i : pool_ok a -> (i < MAX_CHUNCKS a)%nat -> contains (chunk_address a i) a = true.
Proof.
  intros [Hs _ _ _ _] Hi. unfold contains, chunk_address. apply andb_true_iff.
  rewrite Z.leb_le, Z.ltb_lt. nia.
Qed.

(** [free] gives back a chunk in use. *)
Lemma pool_free_spec a i :
  pool_ok a -> i ∈ in_use a ->
  exists a', pool_free (chunk_address a i) a = Ret a' /\ pool_ok a' /\ same_place a a' /\
    i :: in_use a' ≡ₚ in_use a.
Proof.
  intros Hok (p & Hp & Ep)%elem_in_use. pose proof Hok as [Hs Hi Hb Ha Hinv].
  unfold pool_free. rewrite (proj2 (Nat.eqb_neq _ _)) by lia.
  rewrite contains_chunk, chunk_index by (try done; by eapply indices_lt). cbn [negb]. cbv zeta.
  set (q := (allocated_chuncks a - 1)%nat).
  destruct (lookup_lt_is_Some_2 (indices a) q) as [y Ey]; [unfold q; lia|].
  rewrite (proj1 (Hinv i p) Ep), Ep, Ey, (proj1 (Hinv y q) Ey), (proj1 (Hinv i p) Ep).
  eexists. split; [done|]. split; [split; cbn|].
  - done.
  - unfold swap_entries. by rewrite !length_insert.
  - unfold swap_entries. by rewrite !length_insert.
  - unfold q. lia.
  - apply swap_inverse; [congruence|done..].
  - split; [done|]. unfold in_use. cbn.
    replace (allocated_chuncks a) with (S q) by (unfold q; lia).
    rewrite (take_S_r _ _ _ Ey). unfold swap_entries. rewrite take_insert_ge by lia.
    destruct (decide (p = q)) as [->|Hne].
    + rewrite take_insert_ge by lia. assert (y = i) as -> by congruence.
      apply Permutation_cons_append.
    + rewrite take_insert_lt by (unfold q in *; lia).
      rewrite (Permutation_insert _ p i y) by (rewrite lookup_take_lt by (unfold q in *; lia); done).
      apply Permutation_cons_append.
Qed.

(** ** Blocks: address and size *)
Definition disjoint_blocks (b c : Z * Z) : Prop :=
  b.1 + Z.max 1 b.2 <= c.1 \/ c.1 + Z.max 1 c.2 <= b.1.

Lemma disjoint_sym b c : disjoint_blocks b c -> disjoint_blocks c b.
Proof. unfold disjoint_blocks. tauto. Qed.

(** The memory of a pool, and its chunks in use. *)
Definition pool_area (a : ChunckAllocatorRT) : Z * Z :=
  (chuncks a, Z.of_nat (MAX_CHUNCKS a) * CHUNCKSIZE a).
Definition pool_blocks (a : ChunckAllocatorRT) : list (Z * Z) :=
  (fun i => (chunk_address a i, CHUNCKSIZE a)) <$> in_use a.
Definition chunks_in_use (ps : list ChunckAllocatorRT) : list (Z * Z) := concat (pool_blocks <$> ps).

Lemma elem_pool_blocks b a :
  pool_ok a -> b ∈ pool_blocks a ->
  exists i, b = (chunk_address a i, CHUNCKSIZE a) /\ i ∈ in_use a /\ (i < MAX_CHUNCKS a)%nat.
Proof.
  intros Hok (i & -> & Hi)%list_elem_of_fmap. exists i. split; [done|]. split; [done|].
  apply elem_in_use in Hi as (j & _ & Hj). by eapply indices_lt.
Qed.

Lemma elem_chunks_in_use b ps :
  b ∈ chunks_in_use ps -> exists a, a ∈ ps /\ b ∈ pool_blocks a.
Proof.
  unfold chunks_in_use. intros (l & Hl & Hb)%list_elem_of_In%in_concat.
  apply list_elem_of_In, list_elem_of_fmap in Hl as (a & -> & Ha). apply list_elem_of_In in Hb. eauto.
Qed.

Lemma chunk_in_area a i c :
  pool_ok a -> (i < MAX_CHUNCKS a)%nat -> disjoint_blocks (pool_area a) c ->
  disjoint_blocks (chunk_address a i, CHUNCKSIZE a) c.
Proof.
  intros [Hs _ _ _ _] Hi. unfold disjoint_blocks, pool_area, chunk_address. cbn. intros [H|H]; [left|right]; nia.
Qed.

Lemma chunks_apart a i j :
  pool_ok a -> i <> j -> disjoint_blocks (chunk_address a i, CHUNCKSIZE a) (chunk_address a j, CHUNCKSIZE a).
Proof.
  intros [Hs _ _ _ _] Hij. unfold disjoint_blocks, chunk_address. cbn.
  destruct (Nat.lt_gt_cases i j) as [[Hlt|Hgt] _]; [done|left; nia|right; nia].
Qed.

Lemma pool_blocks_moved a a' :
  same_place a a' -> pool_blocks a' = (fun i => (chunk_address a i, CHUNCKSIZE a)) <$> in_use a'.
Proof. intros (_ & H1 & H2). unfold pool_blocks, chunk_address. by rewrite H1, H2. Qed.

(** ** All pools *)
Lemma pools_malloc_spec n ps :
  Forall pool_ok ps ->
  match pools_malloc n ps with
  | None => True
  | Some r => exists a i ps', r = Ret (chunk_address a i, ps') /\ a ∈ ps /\ n <= CHUNCKSIZE a /\
      (i < MAX_CHUNCKS a)%nat /\ (i ∉ in_use a) /\ Forall pool_ok ps' /\
      pool_area <$> ps' = pool_area <$> ps /\
      chunks_in_use ps' ≡ₚ (chunk_address a i, CHUNCKSIZE a) :: chunks_in_use ps
  end.
Proof.
  induction 1 as [|a ps Hok Hps IH]; cbn [pools_malloc]; [done|].
  destruct (fits n a && negb (full a)) eqn:Euse.
  2: { destruct (pools_malloc n ps) as [r|]; [|done].
       destruct IH as (b & i & ps' & -> & Hb & H1 & H2 & H3 & H4 & H5 & H6).
       exists b, i, (a :: ps'). split; [done|]. split; [by right|]. split; [done|]. split; [done|].
       split; [done|]. split; [by constructor|]. split; [cbn; by rewrite H5|].
       unfold chunks_in_use in *. cbn. rewrite H6. symmetry. apply Permutation_middle. }
  apply andb_true_iff in Euse as [Ef Efull%negb_true_iff].
  destruct (pool_malloc_spec n a Hok Ef Efull) as (i & a' & E & Hok' & (P1 & P2 & P3) & Hi & Hn & Hu).
  rewrite E. exists a, i, (a' :: ps). split; [done|]. split; [by left|].
  split; [unfold fits in Ef; lia|]. split; [done|]. split; [done|]. split; [by constructor|].
  split; [cbn; unfold pool_area; by rewrite P1, P2, P3|].
  unfold chunks_in_use. cbn. rewrite (pool_blocks_moved a a') by done. rewrite Hu, fmap_app. cbn.
  fold (pool_blocks a). rewrite <- app_assoc. symmetry. apply Permutation_middle.
Qed.

Lemma area_not_contains a b :
  disjoint_blocks (pool_area a) b -> contains b.1 a = false.
Proof.
  unfold disjoint_blocks, pool_area, contains. cbn. intros Hd. apply andb_false_iff.
  rewrite Z.leb_gt, Z.ltb_ge. lia.
Qed.

Lemma pools_free_spec b ps :
  Forall pool_ok ps -> ForallOrdPairs disjoint_blocks (pool_area <$> ps) -> b ∈ chunks_in_use ps ->
  exists ps', pools_free b.1 ps = Some (Ret ps') /\ Forall pool_ok ps' /\
    pool_area <$> ps' = pool_area <$> ps /\ b :: chunks_in_use ps' ≡ₚ chunks_in_use ps.
Proof.
  induction 1 as [|a ps Hok Hps IH]; intros Hd Hb; [by apply not_elem_of_nil in Hb|].
  cbn in Hd. inversion_clear Hd as [|? ? Ha Hd']. cbn [pools_free].
  unfold chunks_in_use in Hb. cbn in Hb. apply elem_of_app in Hb as [Hb|Hb].
  - destruct (elem_pool_blocks b a Hok Hb) as (i & -> & Hi & Hlt). cbn [fst].
    rewrite contains_chunk by done.
    destruct (pool_free_spec a i Hok Hi) as (a' & E & Hok' & Hsame & Hu). rewrite E.
    exists (a' :: ps). split; [done|]. split; [by constructor|]. split.
    + destruct Hsame as (P1 & P2 & P3). cbn. unfold pool_area. by rewrite P1, P2, P3.
    + unfold chunks_in_use. cbn. rewrite (pool_blocks_moved a a') by done.
      unfold pool_blocks at 2. rewrite <- Hu. cbn. done.
  - destruct (elem_chunks_in_use b ps Hb) as (a2 & Ha2 & Hb2).
    assert (disjoint_blocks (pool_area a) b) as Hdis.
    { rewrite Forall_forall in Hps. destruct (elem_pool_blocks b a2 (Hps _ Ha2) Hb2) as (i & -> & _ & Hlt).
      apply disjoint_sym, chunk_in_area; [by apply Hps|done|]. apply disjoint_sym.
      rewrite Forall_forall in Ha. apply Ha. by apply list_elem_of_fmap_2. }
    rewrite (area_not_contains a b Hdis).
    destruct (IH Hd' Hb) as (ps' & -> & H1 & H2 & H3). exists (a :: ps').
    split; [done|]. split; [by constructor|]. split; [cbn; by rewrite H2|].
    unfold chunks_in_use in *. cbn. rewrite Permutation_middle, H3. done.
Qed.

Lemma pools_free_foreign b ps :
  Forall (fun a => disjoint_blocks (pool_area a) b) ps -> pools_free b.1 ps = None.
Proof.
  induction 1 as [|a ps Ha Hps IH]; [done|]. cbn. rewrite area_not_contains by done. by rewrite IH.
Qed.

(** ** The allocator over the heap *)

(** The documented behaviour of [malloc] (when memory is available) and
    [free]: a new block is disjoint from all that were not freed. *)
Class HeapOk (H : Type) `{Heap H} := {
  heap_wf : H -> Prop;
  heap_blocks : H -> list (Z * Z);
  sys_malloc_ok : forall n h, heap_wf h ->
    heap_wf (sys_malloc n h).2 /\
    heap_blocks (sys_malloc n h).2 ≡ₚ ((sys_malloc n h).1, n) :: heap_blocks h /\
    Forall (disjoint_blocks ((sys_malloc n h).1, n)) (heap_blocks h);
  sys_free_ok : forall b h, heap_wf h -> b ∈ heap_blocks h ->
    heap_wf (sys_free b.1 h) /\ b :: heap_blocks (sys_free b.1 h) ≡ₚ heap_blocks h
}.

Section AllocatorOk.
Context {H : Type} `{HeapOk H}.
Implicit Types (al : Allocator H) (hl : list (Z * Z)).

(** [hl]: the blocks that [operator new] took from the heap; [rest]: those of
    others. *)
Record alloc_ok al hl : Prop := {
  ao_pools : Forall pool_ok (allocators al);
  ao_wf : heap_wf (heap al);
  ao_blocks : exists rest, heap_blocks (heap al) ≡ₚ (pool_area <$> allocators al) ++ hl ++ rest;
  ao_disjoint : ForallOrdPairs disjoint_blocks ((pool_area <$> allocators al) ++ hl)
}.

(** All blocks that are reserved. *)
Definition reserved al hl : list (Z * Z) := chunks_in_use (allocators al) ++ hl.

(** A block of the heap is disjoint from every reserved block. *)
Lemma disjoint_from_reserved b al hl :
  Forall pool_ok (allocators al) ->
  Forall (disjoint_blocks b) ((pool_area <$> allocators al) ++ hl) ->
  Forall (disjoint_blocks b) (reserved al hl).
Proof.
  intros Hok [Ha Hh]%Forall_app. apply Forall_app. split; [|done].
  rewrite Forall_forall in Hok. rewrite Forall_forall in Ha. apply Forall_forall. intros c Hc. destruct (elem_chunks_in_use c _ Hc) as (a & Hin & Hb).
  destruct (elem_pool_blocks c a (Hok _ Hin) Hb) as (i & -> & _ & Hi).
  apply disjoint_sym, chunk_in_area; [by apply Hok|done|]. apply disjoint_sym, Ha. by apply list_elem_of_fmap_2.
Qed.

(** A chunk that is not in use is disjoint from every reserved block. *)
Lemma chunk_disjoint a i al hl :
  alloc_ok al hl -> a ∈ allocators al -> (i < MAX_CHUNCKS a)%nat -> i ∉ in_use a ->
  Forall (disjoint_blocks (chunk_address a i, CHUNCKSIZE a)) (reserved al hl).
Proof.
  intros [Hok _ _ Hd] Ha Hi Hn. pose proof (FOP_app_inv _ _ _ Hd) as (Hda & _ & Hdh).
  rewrite Forall_forall in Hok. apply Forall_app. split; rewrite Forall_forall; intros c Hc.
  - destruct (elem_chunks_in_use c _ Hc) as (a2 & Hin & Hb).
    destruct (elem_pool_blocks c a2 (Hok _ Hin) Hb) as (j & -> & Hj & Hlt).
    destruct (ForallOrdPairs_two (fun x y => disjoint_blocks (pool_area x) (pool_area y))
                (allocators al) a a2) as [->|E]; auto.
    + intros x y. apply disjoint_sym.
    + by apply FOP_fmap.
    + apply chunks_apart; [by apply Hok|]. by intros ->.
    + apply chunk_in_area; [by apply Hok|done|].
      apply disjoint_sym, chunk_in_area; [by apply Hok|done|]. by apply disjoint_sym.
  - apply chunk_in_area; [by apply Hok|done|]. apply Hdh; [by apply list_elem_of_fmap_2|done].
Qed.

(** [malloc] on the whole allocator: it returns, no assertion fails, the
    block is large enough and disjoint from every reserved block, and it is the
    only one that becomes reserved; whether it comes from a pool or, when no pool
    has a chunk, from the heap. *)
Theorem malloc_reserves n al hl :
  alloc_ok al hl ->
  exists ptr size al' hl', allocator_malloc n al = Ret (ptr, al') /\ alloc_ok al' hl' /\ n <= size /\
    reserved al' hl' ≡ₚ (ptr, size) :: reserved al hl /\
    Forall (disjoint_blocks (ptr, size)) (reserved al hl).
Proof.
  intros Hok. pose proof Hok as [Hp Hwf [rest Hb] Hd]. pose proof (pools_malloc_spec n _ Hp) as Hspec.
  unfold allocator_malloc. destruct (pools_malloc n (allocators al)) as [r|].
  - destruct Hspec as (a & i & ps' & -> & Ha & Hn & Hi & Hu & Hps & Harea & Hc).
    exists (chunk_address a i), (CHUNCKSIZE a). do 2 eexists. split; [done|]. split; [|split; [done|split]].
    + split; cbn; [done|done|exists rest|]; rewrite Harea; [exact Hb|exact Hd].
    + unfold reserved. cbn. by rewrite Hc.
    + by apply chunk_disjoint.
  - destruct (sys_malloc_ok n (heap al) Hwf) as (Hwf' & Hb' & Hf).
    destruct (sys_malloc n (heap al)) as [ptr h]. cbn in *.
    assert (Forall (disjoint_blocks (ptr, n)) ((pool_area <$> allocators al) ++ hl)) as Hnew.
    { rewrite Hb, app_assoc in Hf. by apply Forall_app in Hf as [Hf _]. }
    exists ptr, n. do 2 eexists. split; [done|]. split; [|split; [lia|split]].
    + apply (Build_alloc_ok _ ((ptr, n) :: hl)); cbn; [done|done|exists rest|].
      * by rewrite Hb', Hb, <- Permutation_middle.
      * eapply FOP_Permutation; [apply disjoint_sym|apply Permutation_middle|]. by constructor.
    + unfold reserved. cbn. symmetry. apply Permutation_middle.
    + by apply disjoint_from_reserved.
Qed.

(** [free] of a reserved block returns, no assertion fails, and exactly that
    block is given back: to the pool it is from, else to the heap. *)
Theorem free_releases b al hl :
  alloc_ok al hl -> b ∈ reserved al hl ->
  exists al' hl', allocator_free b.1 al = Ret al' /\ alloc_ok al' hl' /\
    b :: reserved al' hl' ≡ₚ reserved al hl.
Proof.
  intros [Hp Hwf [rest Hb] Hd] [Hin|Hin]%elem_of_app; unfold allocator_free;
    pose proof (FOP_app_inv _ _ _ Hd) as (Hda & Hdh & Hdc).
  - destruct (pools_free_spec b _ Hp Hda Hin) as (ps' & -> & Hps & Harea & Hc).
    do 2 eexists. split; [done|]. split.
    + apply (Build_alloc_ok _ hl); cbn; [done|done|exists rest|]; rewrite Harea; [exact Hb|exact Hd].
    + unfold reserved. cbn. by rewrite app_comm_cons, Hc.
  - rewrite pools_free_foreign.
    2: { apply Forall_forall. intros a Ha. apply Hdc; [by apply list_elem_of_fmap_2|done]. }
    destruct (sys_free_ok b (heap al) Hwf) as [Hwf' Hb'].
    { rewrite Hb. apply elem_of_app. right. apply elem_of_app. by left. }
    destruct (proj1 (elem_of_Permutation _ _) Hin) as [hl' Hhl].
    do 2 eexists. split; [done|]. split.
    + apply (Build_alloc_ok _ hl'); cbn; [done|done|exists rest|].
      * apply (Permutation_cons_inv (a := b)). rewrite Hb', Hb, Hhl. cbn.
        symmetry. apply Permutation_middle.
      * assert (ForallOrdPairs disjoint_blocks (b :: (pool_area <$> allocators al) ++ hl')) as Hd'.
        { eapply FOP_Permutation; [apply disjoint_sym| |exact Hd]. rewrite Hhl. symmetry. apply Permutation_middle. }
        by inversion_clear Hd'.
    + unfold reserved. cbn. rewrite Hhl. apply Permutation_middle.
Qed.
End AllocatorOk.

(** ** The start *)
Section AllocatorNew.
Context {Hp : Type} `{Hok : HeapOk Hp}.

Lemma create_pool_spec m k h :
  0 <= m -> heap_wf h ->
  let '(a, h') := create_pool m k h in
  pool_blocks a = [] /\ CHUNCKSIZE a = k /\ (0 < k -> pool_ok a) /\ heap_wf h' /\
  (exists rest, heap_blocks h' ≡ₚ pool_area a :: rest ++ heap_blocks h) /\
  Forall (disjoint_blocks (pool_area a)) (heap_blocks h).
Proof.
  intros Hm W0. unfold create_pool.
  destruct (sys_malloc_ok 48 h W0) as (W1 & B1 & _). destruct (sys_malloc 48 h) as [p0 h0]. cbn in *.
  destruct (sys_malloc_ok (m * k) h0 W1) as (W2 & B2 & D2). destruct (sys_malloc (m * k) h0) as [p1 h1]. cbn in *.
  destruct (sys_malloc_ok (m * 8) h1 W2) as (W3 & B3 & _). destruct (sys_malloc (m * 8) h1) as [p2 h2]. cbn in *.
  destruct (sys_malloc_ok (m * 8) h2 W3) as (W4 & B4 & _). destruct (sys_malloc (m * 8) h2) as [p3 h3]. cbn in *.
  assert (pool_area (new_pool (Z.to_nat m) k p1) = (p1, m * k)) as Ha.
  { unfold pool_area. cbn. by rewrite Z2Nat.id. }
  split; [done|]. split; [done|]. split; [by intros; apply new_pool_ok|]. split; [done|]. rewrite Ha. split.
  - exists [(p3, m * 8); (p2, m * 8); (p0, 48)]. rewrite B4, B3, B2, B1. cbn.
    symmetry. apply (Permutation_middle [(p3, m * 8); (p2, m * 8)]).
  - rewrite B1 in D2. by apply Forall_cons in D2 as [_ D2].
Qed.

(** The pools that are made lie apart from each other and from all that was on
    the heap before. *)
Lemma create_pools_spec k : forall prev s h ps h',
  heap_wf h -> create_pools k prev s h = Ret (ps, h') ->
  (forall a, head ps = Some a -> 0 < CHUNCKSIZE a) ->
  chunks_in_use ps = [] /\ Forall pool_ok ps /\ heap_wf h' /\
  (exists rest, heap_blocks h' ≡ₚ (pool_area <$> ps) ++ rest ++ heap_blocks h) /\
  ForallOrdPairs disjoint_blocks (pool_area <$> ps) /\
  Forall (fun a => Forall (disjoint_blocks (pool_area a)) (heap_blocks h)) ps.
Proof.
  induction k as [|k IH]; intros prev s h ps h' Hwf; cbn [create_pools].
  { intros [= <- <-] _. split; [done|]. split; [done|]. split; [done|]. split; [by exists []|]. split; constructor. }
  destruct (scan_pair s) as [m c].
  destruct (match prev with Some _ => _ | None => _ end); [done|].
  destruct ((2 ^ 31 <=? Z.abs m) || (2 ^ 31 <=? Z.abs c)); [done|].
  destruct ((m <? 0) || (c <? 0)) eqn:Hm; [done|].
  apply orb_false_iff in Hm as [Hm%Z.ltb_ge _].
  pose proof (create_pool_spec m c h Hm Hwf) as Ha. destruct (create_pool m c h) as [a h1].
  destruct Ha as (Hbl & Hc & Hpa & Hwf1 & (r1 & B1) & D1).
  destruct (create_pools k (Some a) (next_pair s) h1) as [[ps1 h2]| |] eqn:E; [|done..].
  intros [= <- <-] Hpos. specialize (Hpos a eq_refl). pose proof Hpos as Hpos'. rewrite Hc in Hpos'.
  destruct (IH _ _ _ _ _ Hwf1 E) as (Hu & Hps & Hwf2 & (r2 & B2) & D2 & F2).
  { intros b Hb. destruct k as [|k]; cbn [create_pools] in E; [by inversion E; subst|].
    destruct (scan_pair (next_pair s)) as [m2 c2].
    destruct (negb (m2 <? Z.of_nat (MAX_CHUNCKS a)) || negb (CHUNCKSIZE a <? c2)) eqn:Eg; [done|].
    apply orb_false_iff in Eg as [_ Eg%negb_false_iff].
    destruct ((2 ^ 31 <=? Z.abs m2) || _); [done|]. destruct ((m2 <? 0) || _); [done|].
    unfold create_pool in E. repeat destruct (sys_malloc _ _).
    destruct (create_pools k _ _ _) as [[? ?]| |]; [|done..]. inversion E; subst. cbn in Hb.
    inversion Hb; subst. cbn. lia. }
  split; [unfold chunks_in_use in *; cbn; by rewrite Hbl, Hu|]. split; [constructor; auto|].
  split; [done|]. split; [exists (r2 ++ r1)|split].
  - rewrite B2, B1. apply Permutation_move.
  - cbn. constructor; [|done]. apply Forall_fmap. rewrite Forall_forall in F2. apply Forall_forall.
    intros b Hb. apply disjoint_sym. specialize (F2 b Hb). rewrite B1 in F2.
    by apply Forall_cons in F2 as [F2 _].
  - constructor; [done|]. eapply Forall_impl; [exact F2|]. intros b Hb. cbv beta in Hb. rewrite B1 in Hb.
    apply Forall_cons in Hb as [_ Hb]. by apply Forall_app in Hb as [_ Hb].
Qed.

(** Whatever the configuration, an allocator that comes up (no assertion fails)
    and whose first pool has chunks of a positive size is well formed, with nothing
    reserved. *)
Theorem Allocator_new_ok config h al :
  heap_wf h -> Allocator_new config h = Ret al ->
  (forall a, head (allocators al) = Some a -> 0 < CHUNCKSIZE a) ->
  alloc_ok al [] /\ reserved al [] = [] /\ heap_allocations al = 0.
Proof.
  intros Hwf. unfold Allocator_new. set (s := String.list_ascii_of_string _).
  destruct (sys_malloc_ok (8 * Z.of_nat (count_pairs s)) h Hwf) as (Hwf0 & _ & _).
  destruct (sys_malloc _ h) as [p0 h0]. cbn in Hwf0.
  destruct (create_pools (count_pairs s) None s h0) as [[ps h']| |] eqn:E; [|done..].
  intros [= <-] Hpos. cbn in Hpos.
  destruct (create_pools_spec _ _ _ _ _ _ Hwf0 E Hpos) as (Hu & Hps & Hwf' & (r & B) & D & _).
  split; [|split; [unfold reserved; cbn [allocators]; by rewrite Hu|done]].
  split; cbn; [done|done|by eexists|by rewrite app_nil_r].
Qed.
End AllocatorNew.

(** The variant of chunck_allocator_rt.hpp also claims the address behind its last
    chunk, which may be that of a block of the heap. *)
Lemma template_contains_one_past buffer0 n size :
  0 <= n -> 0 < size -> template_contains buffer0 n size (buffer0 + n * size) = true.
Proof. intros Hn Hs. unfold template_contains. apply andb_true_iff. rewrite !Z.leb_le. nia. Qed.

(** ** A heap that satisfies the laws, and the allocator on it *)
Module AllocatorDemo.

(** The blocks that are reserved; a new one lies behind all of them. *)
Fixpoint bump (h : list (Z * Z)) : Z :=
  match h with [] => 4096 | (p, n) :: h' => Z.max (p + Z.max 1 n) (bump h') end.
Fixpoint drop_block (p : Z) (h : list (Z * Z)) : list (Z * Z) :=
  match h with
  | [] => []
  | b :: h' => if b.1 =? p then h' else b :: drop_block p h'
  end.

#[export] Instance bump_heap : Heap (list (Z * Z)) := {
  sys_malloc := fun n h => (bump h, (bump h, n) :: h);
  sys_free := drop_block
}.

Lemma bump_behind n h : Forall (disjoint_blocks (bump h, n)) h.
Proof.
  assert (forall b, b ∈ h -> b.1 + Z.max 1 b.2 <= bump h) as Hb.
  { induction h as [|[p m] h IH]; intros b; [by intros ?%not_elem_of_nil|].
    cbn [bump]. intros [->|Hin]%elem_of_cons; cbn; [lia|]. specialize (IH b Hin). lia. }
  apply Forall_forall. intros b Hin. right. cbn. by apply Hb.
Qed.

Lemma drop_block_ok b h :
  ForallOrdPairs disjoint_blocks h -> b ∈ h ->
  ForallOrdPairs disjoint_blocks (drop_block b.1 h) /\ b :: drop_block b.1 h ≡ₚ h.
Proof.
  induction 1 as [|c h Hc Hh IH]; [by intros ?%not_elem_of_nil|]. cbn.
  intros [<-|Hin]%elem_of_cons; [by rewrite Z.eqb_refl|].
  destruct (Z.eqb_spec c.1 b.1) as [E|E].
  - exfalso. rewrite Forall_forall in Hc. specialize (Hc b Hin). unfold disjoint_blocks in Hc. lia.
  - destruct (IH Hin) as [H1 H2]. split.
    + constructor; [|done]. rewrite <- H2 in Hc. by apply Forall_cons in Hc as [_ Hc].
    + rewrite <- H2 at 2. apply perm_swap.
Qed.

#[export] Instance bump_ok : HeapOk (list (Z * Z)).
Proof.
  refine {| heap_wf := ForallOrdPairs disjoint_blocks; heap_blocks := fun h => h |}.
  - intros n h Hwf. cbn. split; [constructor; [apply bump_behind|done]|]. split; [done|apply bump_behind].
  - intros b h Hwf Hin. by apply drop_block_ok.
Defined.

Definition first_pool_positive (al : Allocator (list (Z * Z))) : bool :=
  match allocators al with a :: _ => 0 <? CHUNCKSIZE a | [] => true end.

Lemma first_pool_positive_ok al :
  first_pool_positive al = true -> forall a, head (allocators al) = Some a -> 0 < CHUNCKSIZE a.
Proof.
  unfold first_pool_positive. intros Hp a. destruct (allocators al) as [|b l]; [done|].
  cbn. intros [= <-]. lia.
Qed.

(** The default configuration. *)
Lemma Allocator_new_ok_witness :
  exists al, Allocator_new None ([] : list (Z * Z)) = Ret al /\ alloc_ok al [] /\
    ((fun a => (Z.of_nat (MAX_CHUNCKS a), CHUNCKSIZE a)) <$> allocators al)
      = [(16384, 128); (1024, 1024); (64, 16384)].
Proof.
  assert (exists al, Allocator_new None ([] : list (Z * Z)) = Ret al) as [al E].
  { assert (match Allocator_new None ([] : list (Z * Z)) with Ret _ => true | _ => false end = true) as Hr
      by (vm_compute; reflexivity).
    destruct (Allocator_new None _) as [al| |]; [by exists al|done..]. }
  assert (first_pool_positive al = true /\
    ((fun a => (Z.of_nat (MAX_CHUNCKS a), CHUNCKSIZE a)) <$> allocators al)
      = [(16384, 128); (1024, 1024); (64, 16384)]) as [Hpos Hl].
  { assert (match Allocator_new None ([] : list (Z * Z)) with
            | Ret al => (first_pool_positive al,
                (fun a => (Z.of_nat (MAX_CHUNCKS a), CHUNCKSIZE a)) <$> allocators al)
            | _ => (false, []) end = (true, [(16384, 128); (1024, 1024); (64, 16384)])) as Hr
      by (vm_compute; reflexivity).
    rewrite E in Hr. by inversion Hr. }
  exists al. split; [exact E|]. split; [|exact Hl].
  apply (Allocator_new_ok None [] al); [constructor|exact E|by apply first_pool_positive_ok].
Defined.

(** Two pools; one chunk of the first, not the first one of it, is in use, and so
    is a block of the heap. *)
Definition used_pool : ChunckAllocatorRT := set_pool [1; 0]%nat [1; 0]%nat 1 (new_pool 2 16 4160).
Definition two_pools : Allocator (list (Z * Z)) :=
  mkAllocator [used_pool; new_pool 1 64 4272] 1 [(4352, 100); (4272, 64); (4160, 32)].

Lemma two_pools_ok : alloc_ok two_pools [(4352, 100)].
Proof.
  split.
  - constructor; [|constructor; [by apply new_pool_ok|constructor]].
    split; cbn; [done|done|done|lia|].
    intros i j. destruct i as [|[|i]], j as [|[|j]]; cbn; split; try congruence;
      solve [by destruct j | by destruct i].
  - repeat constructor; unfold disjoint_blocks; cbn; lia.
  - exists []. cbn. solve_Permutation.
  - repeat constructor; unfold disjoint_blocks; cbn; lia.
Qed.

(** 20 bytes come from the second pool, 65 from the heap. *)
Lemma malloc_reserves_witness :
  reserved two_pools [(4352, 100)] = [(4176, 16); (4352, 100)] /\
  (exists ptr size al' hl', allocator_malloc 20 two_pools = Ret (ptr, al') /\ alloc_ok al' hl' /\
    20 <= size /\ reserved al' hl' ≡ₚ (ptr, size) :: reserved two_pools [(4352, 100)]) /\
  (exists ptr size al' hl', allocator_malloc 65 two_pools = Ret (ptr, al') /\ alloc_ok al' hl' /\
    65 <= size /\ reserved al' hl' ≡ₚ (ptr, size) :: reserved two_pools [(4352, 100)]) /\
  (match allocator_malloc 20 two_pools, allocator_malloc 65 two_pools with
   | Ret (p, _), Ret (q, _) => p = 4272 /\ q = 4452 | _, _ => False end).
Proof.
  split; [reflexivity|]. split; [|split; [|split; reflexivity]].
  - destruct (malloc_reserves 20 _ _ two_pools_ok) as (ptr & size & al' & hl' & H1 & H2 & H3 & H4 & _).
    by exists ptr, size, al', hl'.
  - destruct (malloc_reserves 65 _ _ two_pools_ok) as (ptr & size & al' & hl' & H1 & H2 & H3 & H4 & _).
    by exists ptr, size, al', hl'.
Defined.

(** The chunk in use, and the block of the heap. *)
Lemma free_releases_witness :
  (exists al' hl', allocator_free 4176 two_pools = Ret al' /\ alloc_ok al' hl' /\
    (4176, 16) :: reserved al' hl' ≡ₚ [(4176, 16); (4352, 100)]) /\
  (exists al' hl', allocator_free 4352 two_pools = Ret al' /\ alloc_ok al' hl' /\
    (4352, 100) :: reserved al' hl' ≡ₚ [(4176, 16); (4352, 100)]).
Proof.
  split.
  - apply (free_releases (4176, 16) two_pools [(4352, 100)] two_pools_ok). vm_compute. left.
  - apply (free_releases (4352, 100) two_pools [(4352, 100)] two_pools_ok). vm_compute. right. left.
Defined.
End AllocatorDemo.
