(* ===== verification/FunctionGen.v ===== *)
(** * Function generators: src/FunctionGeneratorImpl.cpp, FunctionGenerator.cpp,
    Mailbox.cpp, and the signal handlers of MasterFunctionGenerator.cpp

    A function generator owns a queue of waveform parameters; while it is enabled
    it has a channel of the microcontroller (LM32), whose shared memory holds a
    ring buffer with the first parameters of the queue.  The microcontroller
    reports what happens by interrupts, in any order that it likes. *)
From stdpp Require Import pretty.
From S2P Require Import Prelude Bus Loop Owned EcaOps.
Local Open Scope Z_scope.

(** ** Data *)
Record ParameterTuple := mkTuple {
  coeff_a : Z; coeff_b : Z; coeff_c : Z;   (* int16_t, int16_t, int32_t *)
  step : Z; freq : Z; shift_a : Z; shift_b : Z   (* uint8_t *)
}.

(** "fixed in HDL" *)
Definition samples : list Z := [250; 500; 1000; 2000; 4000; 8000; 16000; 32000].
Definition sample_len : list Z := [62500; 31250; 15625; 8000; 4000; 2000; 1000; 500].

Definition duration (t : ParameterTuple) : outcome Z :=
  match samples !! Z.to_nat (step t), sample_len !! Z.to_nat (freq t) with
  | Some n, Some l => Ret (u64 (n * l))
  | _, _ => Crash "samples[step] * sample_len[freq]"
  end.

(** The three words of a record in the ring buffer. *)
Definition coeff_ab (t : ParameterTuple) : Z :=
  Z.lor (u32 (Z.shiftl (u32 (coeff_a t)) 16)) (Z.land (u32 (coeff_b t)) 0xFFFF).
Definition control (t : ParameterTuple) : Z :=
  Z.lor (Z.lor (Z.lor (Z.land (step t) 0x7) (Z.shiftl (Z.land (freq t) 0x7) 3))
               (Z.shiftl (Z.land (shift_b t) 0x3f) 6))
        (Z.shiftl (Z.land (shift_a t) 0x3f) 12).

(** [FunctionGeneratorImpl]; [fifo] is a circular buffer with a capacity. *)
Record FunctionGeneratorImpl := mkFG {
  mb_slot : Z;
  index : Z;
  macro : Z;                       (* the four bytes of its description *)
  host_slot : option Z;            (* [nullptr] if the mailbox was full *)
  channel : Z;                     (* -1 if no channel assigned *)
  enabled : bool;
  armed : bool;
  fg_running : bool;
  abort : bool;
  resetTimeout : SourceHandle;
  startTag : Z;
  executedParameterCount : Z;
  fillLevel : Z;
  filled : Z;                      (* # of fifo entries currently on LM32 *)
  fifo : list ParameterTuple;
  fifo_capacity : Z;
  fg_fifo_max_size : Z
}.

Definition scubusSlot (fg : FunctionGeneratorImpl) : Z := Z.land (Z.shiftr (macro fg) 24) 0xFF.
Definition deviceNumber (fg : FunctionGeneratorImpl) : Z := Z.land (Z.shiftr (macro fg) 16) 0xFF.
Definition version (fg : FunctionGeneratorImpl) : Z := Z.land (Z.shiftr (macro fg) 8) 0xFF.
Definition outputWindowSize (fg : FunctionGeneratorImpl) : Z := Z.land (macro fg) 0xFF.

Definition GetName (fg : FunctionGeneratorImpl) : string :=
  "fg-" +:+ pretty (scubusSlot fg) +:+ "-" +:+ pretty (deviceNumber fg).

(** Updates of groups of members *)
Definition set_flags (ar ru : bool) (fg : FunctionGeneratorImpl) : FunctionGeneratorImpl :=
  mkFG (mb_slot fg) (index fg) (macro fg) (host_slot fg) (channel fg) (enabled fg) ar ru (abort fg)
    (resetTimeout fg) (startTag fg) (executedParameterCount fg) (fillLevel fg) (filled fg) (fifo fg)
    (fifo_capacity fg) (fg_fifo_max_size fg).
Definition set_channel (c : Z) (en : bool) (fg : FunctionGeneratorImpl) : FunctionGeneratorImpl :=
  mkFG (mb_slot fg) (index fg) (macro fg) (host_slot fg) c en (armed fg) (fg_running fg) (abort fg)
    (resetTimeout fg) (startTag fg) (executedParameterCount fg) (fillLevel fg) (filled fg) (fifo fg)
    (fifo_capacity fg) (fg_fifo_max_size fg).
Definition set_abort (b : bool) (fg : FunctionGeneratorImpl) : FunctionGeneratorImpl :=
  mkFG (mb_slot fg) (index fg) (macro fg) (host_slot fg) (channel fg) (enabled fg) (armed fg) (fg_running fg) b
    (resetTimeout fg) (startTag fg) (executedParameterCount fg) (fillLevel fg) (filled fg) (fifo fg)
    (fifo_capacity fg) (fg_fifo_max_size fg).
Definition set_resetTimeout (h : SourceHandle) (fg : FunctionGeneratorImpl) : FunctionGeneratorImpl :=
  mkFG (mb_slot fg) (index fg) (macro fg) (host_slot fg) (channel fg) (enabled fg) (armed fg) (fg_running fg) (abort fg)
    h (startTag fg) (executedParameterCount fg) (fillLevel fg) (filled fg) (fifo fg)
    (fifo_capacity fg) (fg_fifo_max_size fg).
Definition set_startTag (v : Z) (fg : FunctionGeneratorImpl) : FunctionGeneratorImpl :=
  mkFG (mb_slot fg) (index fg) (macro fg) (host_slot fg) (channel fg) (enabled fg) (armed fg) (fg_running fg) (abort fg)
    (resetTimeout fg) v (executedParameterCount fg) (fillLevel fg) (filled fg) (fifo fg)
    (fifo_capacity fg) (fg_fifo_max_size fg).
Definition set_executed (v : Z) (fg : FunctionGeneratorImpl) : FunctionGeneratorImpl :=
  mkFG (mb_slot fg) (index fg) (macro fg) (host_slot fg) (channel fg) (enabled fg) (armed fg) (fg_running fg) (abort fg)
    (resetTimeout fg) (startTag fg) v (fillLevel fg) (filled fg) (fifo fg)
    (fifo_capacity fg) (fg_fifo_max_size fg).
(** "These 3 variables must be kept in sync" *)
Definition set_data (level n : Z) (q : list ParameterTuple) (fg : FunctionGeneratorImpl) : FunctionGeneratorImpl :=
  mkFG (mb_slot fg) (index fg) (macro fg) (host_slot fg) (channel fg) (enabled fg) (armed fg) (fg_running fg) (abort fg)
    (resetTimeout fg) (startTag fg) (executedParameterCount fg) level n q
    (fifo_capacity fg) (fg_fifo_max_size fg).
Definition set_capacity (cap mx : Z) (fg : FunctionGeneratorImpl) : FunctionGeneratorImpl :=
  mkFG (mb_slot fg) (index fg) (macro fg) (host_slot fg) (channel fg) (enabled fg) (armed fg) (fg_running fg) (abort fg)
    (resetTimeout fg) (startTag fg) (executedParameterCount fg) (fillLevel fg) (filled fg) (fifo fg) cap mx.

(** The signals of a [FunctionGeneratorImpl]. *)
Inductive FgSignal :=
  | signal_enabled (b : bool)
  | signal_armed (b : bool)
  | signal_running (b : bool)
  | signal_refill
  | signal_started (time : Z)
  | signal_stopped (time : Z) (aborted hardwareUnderflow microcontrollerUnderflow : bool).

(** [MasterFunctionGenerator]; the generators are named by their place.
    [startTag] is not initialised: any number. *)
Record MasterFunctionGenerator := mkMaster {
  allFunctionGenerators : list nat;
  activeFunctionGenerators : list nat;
  generateIndividualSignals : bool;
  m_startTag : Z;
  m_service : option Z
}.

(** Who listens: one [FunctionGenerator] for each, with its service, or the
    master for all of them. *)
Inductive Front :=
  | Singles (services : list (option Z))
  | Master (m : MasterFunctionGenerator).

(** What clients see. *)
Inductive Out :=
  | OutFg (i : nat) (s : FgSignal)
  | OutNamed (name : string) (s : FgSignal)
  | AllArmed
  | SigAllStopped (time : Z).

(** [allocation] is shared by the generators of one firmware: the index of the
    generator that has the channel, or -1.  The loop's slots are
    [FunctionGeneratorImpl::ResetFailed] of the generator at a place. *)
Record FgWorld (D : Type) := mkFgWorld {
  fw_dev : D;
  fgs : list FunctionGeneratorImpl;
  allocation : list Z;
  fw_loop : Loop nat;
  fw_now : Z;
  fw_caller : Caller;
  front : Front;
  fw_out : list Out
}.
Arguments mkFgWorld {_} _ _ _ _ _ _ _ _.
Arguments fw_dev {_} _.
Arguments fgs {_} _.
Arguments allocation {_} _.
Arguments fw_loop {_} _.
Arguments fw_now {_} _.
Arguments fw_caller {_} _.
Arguments front {_} _.
Arguments fw_out {_} _.

(** ** The shared memory and the messages (src/fg_regs.h) *)
Definition SHM_BASE : Z := 0x500.
Definition FG_REGS_BASE_ : Z := 0x438.
Definition FG_WPTR : Z := 0x0.
Definition FG_RPTR : Z := 0x4.
Definition FG_MBX_SLOT : Z := 0x8.
Definition FG_MACRO_NUM : Z := 0xc.
Definition FG_RAMP_COUNT : Z := 0x10.
Definition FG_TAG : Z := 0x14.
Definition FG_REGS_SIZE : Z := 0x1c.
Definition PARAM_COEFF_AB : Z := 0x0.
Definition PARAM_COEFF_C : Z := 0x4.
Definition PARAM_CONTROL : Z := 0x8.
Definition PARAM_SIZE : Z := 0xc.

Definition SWI_INIT_BUFFERS : Z := 0x00000000.
Definition SWI_ENABLE : Z := 0x00020000.
Definition SWI_DISABLE : Z := 0x00030000.

Definition IRQ_DAT_REFILL : Z := 0.
Definition IRQ_DAT_START : Z := 1.
Definition IRQ_DAT_STOP_EMPTY : Z := 2.
Definition IRQ_DAT_STOP_NOT_EMPTY : Z := 3.
Definition IRQ_DAT_ARMED : Z := 4.
Definition IRQ_DAT_DISARMED : Z := 5.

(** ** [wrapping_sub], [wrapping_add] *)
Definition wrapping_sub (a b buffer_size : Z) : Z :=
  if a <? b then u32 (a - b + buffer_size) else u32 (a - b).
Definition wrapping_add (a b buffer_size : Z) : Z :=
  let c := u32 (a + b) in
  if buffer_size <=? c then u32 (c - buffer_size) else c.

(** ** [Mailbox] *)
Section Mailbox.
Context {D : Type} `{Bus D} (mailbox : Z).

Definition slot_address (slot : Z) : Z := mailbox + slot * 4 * 2.

(** The first slot, of [k] from [i] on, that reads 0xffffffff. *)
Fixpoint find_free_slot (i : Z) (k : nat) : M D (option Z) :=
  match k with
  | O => mret None
  | S k' =>
      v ← dev_read (slot_address i);
      if v =? 0xffffffff then mret (Some i) else find_free_slot (i + 1) k'
  end.

Definition ConfigureSlot (target_address : Z) : M D (option Z) :=
  o ← find_free_slot 0 128;
  match o with
  | Some slot => dev_write (slot_address slot + 4) target_address;; mret (Some slot)
  | None => mret None
  end.
Definition UseSlot (slot value : Z) : M D unit := dev_write (slot_address slot) (u32 value).
Definition FreeSlot (slot : Z) : M D unit := dev_write (slot_address slot + 4) 0xffffffff.
End Mailbox.

Section FunctionGenerators.
Context {D : Type} `{Bus D}.
(** Addresses of the ECA, the mailbox and the microcontroller's memory, and the
    layout that its firmware reported. *)
Context (eca mailbox fgb num_channels buffer_size : Z).
(** A bound on the attempts to read the time. *)
Context (time_fuel : nat).
Let W := FgWorld D.

Definition shm : Z := fgb + SHM_BASE.
Definition FG_REGS_BASE (c : Z) : Z := FG_REGS_BASE_ + FG_REGS_SIZE * c.
Definition FG_BUFF_BASE (c i : Z) : Z :=
  u32 (FG_REGS_BASE num_channels + (i + c * buffer_size) * PARAM_SIZE).

(** ** Access to the parts of the world *)
Definition on_dev {A} (m : M D A) : M W A :=
  zoom fw_dev (fun d w => mkFgWorld d (fgs w) (allocation w) (fw_loop w) (fw_now w) (fw_caller w) (front w) (fw_out w)) m.
Definition on_fgs (f : list FunctionGeneratorImpl -> list FunctionGeneratorImpl) : M W unit :=
  modify (fun w => mkFgWorld (fw_dev w) (f (fgs w)) (allocation w) (fw_loop w) (fw_now w) (fw_caller w) (front w) (fw_out w)).
Definition on_allocation (f : list Z -> list Z) : M W unit :=
  modify (fun w => mkFgWorld (fw_dev w) (fgs w) (f (allocation w)) (fw_loop w) (fw_now w) (fw_caller w) (front w) (fw_out w)).
Definition on_fg_timers {A} (f : Loop nat -> A * Loop nat) : M W A := fun w =>
  let '(a, l) := f (fw_loop w) in
  (Ret a, mkFgWorld (fw_dev w) (fgs w) (allocation w) l (fw_now w) (fw_caller w) (front w) (fw_out w)).
Definition set_front (f : Front) : M W unit :=
  modify (fun w => mkFgWorld (fw_dev w) (fgs w) (allocation w) (fw_loop w) (fw_now w) (fw_caller w) f (fw_out w)).
Definition send_out (o : Out) : M W unit :=
  modify (fun w => mkFgWorld (fw_dev w) (fgs w) (allocation w) (fw_loop w) (fw_now w) (fw_caller w) (front w) (fw_out w ++ [o])).

Definition get_fg (i : nat) : M W FunctionGeneratorImpl := fun w =>
  match fgs w !! i with
  | Some fg => (Ret fg, w)
  | None => (Crash "no such function generator", w)
  end.
Definition on_fg (i : nat) (f : FunctionGeneratorImpl -> FunctionGeneratorImpl) : M W unit :=
  on_fgs (alter f i).

(** ** Signals: [FunctionGenerator::on_fg_...] forwards to the owner;
    [MasterFunctionGenerator::on_fg_...] aggregates. *)
Definition active (m : MasterFunctionGenerator) (i : nat) : bool :=
  bool_decide (i ∈ activeFunctionGenerators m).
Definition active_impls (m : MasterFunctionGenerator) (w : W) : list FunctionGeneratorImpl :=
  omap (fun i => fgs w !! i) (activeFunctionGenerators m).

Definition on_master (m : MasterFunctionGenerator) (i : nat) (s : FgSignal) : M W unit :=
  fg ← get_fg i;
  let individual := if generateIndividualSignals m then send_out (OutNamed (GetName fg) s) else mret tt in
  match s with
  | signal_running _ | signal_refill => if active m i then individual else mret tt
  | signal_enabled _ | signal_started _ => individual
  | signal_armed b =>
      individual;;
      fs ← gets (active_impls m);
      if b && forallb (fun fg => armed fg || (fillLevel fg =? 0)) fs then send_out AllArmed else mret tt
  | signal_stopped time _ _ _ =>
      individual;;
      fs ← gets (active_impls m);
      if forallb (fun fg => negb (fg_running fg)) fs then send_out (SigAllStopped time) else mret tt
  end.

Definition emit (i : nat) (s : FgSignal) : M W unit :=
  w ← get;
  match front w with
  | Singles services =>
      owner ← of_outcome (getOwner (fw_caller w) (default None (services !! i)));
      if bool_decide (owner = EmptyString) then mret tt else send_out (OutFg i s)
  | Master m => on_master m i s
  end.

(** ** The queue *)

(** [fifo.push_back] of a circular buffer overwrites the oldest element when it
    is full, and does nothing without capacity. *)
Definition circular_push (cap : Z) (q : list ParameterTuple) (t : ParameterTuple) : list ParameterTuple :=
  if cap =? 0 then q
  else if cap <=? Z.of_nat (length q) then tail q ++ [t] else q ++ [t].

Definition fifo_push_back (t : ParameterTuple) (fg : FunctionGeneratorImpl) : FunctionGeneratorImpl :=
  let cap := if Z.of_nat (length (fifo fg)) =? fifo_capacity fg then fifo_capacity fg * 2 else fifo_capacity fg in
  let q := circular_push cap (fifo fg) t in
  set_data (fillLevel fg) (filled fg) q
    (set_capacity cap (if fg_fifo_max_size fg <? Z.of_nat (length q) then u32 (Z.of_nat (length q))
                       else fg_fifo_max_size fg) fg).

Definition lowFill (fg : FunctionGeneratorImpl) : bool :=
  Z.of_nat (length (fifo fg)) <? u32 (buffer_size * 2).

(** [fillLevel += tuple.duration();] *)
Definition push_tuple (t : ParameterTuple) (fg : FunctionGeneratorImpl) : outcome FunctionGeneratorImpl :=
  let fg' := fifo_push_back t fg in
  match duration t with
  | Ret d => Ret (set_data (u64 (fillLevel fg' + d)) (filled fg') (fifo fg') fg')
  | Throw e => Throw e
  | Crash why => Crash why
  end.

(** The loop that drops what the microcontroller has taken. *)
Fixpoint pop_completed (n level m : Z) (q : list ParameterTuple) : outcome (Z * Z * list ParameterTuple) :=
  match q with
  | [] => Ret (level, m, [])
  | t :: q' =>
      if n <=? 0 then Ret (level, m, q)
      else match duration t with
           | Ret d => pop_completed (n - 1) (u64 (level - d)) (u32 (m - 1)) q'
           | Throw e => Throw e
           | Crash why => Crash why
           end
  end.

(** The writes of one record. *)
Definition record_ops (c offset : Z) (t : ParameterTuple) : list bus_op :=
  let buff := shm + FG_BUFF_BASE c offset in
  [BusW (buff + PARAM_COEFF_AB) (coeff_ab t); BusW (buff + PARAM_COEFF_C) (u32 (coeff_c t));
   BusW (buff + PARAM_CONTROL) (control t)].
Definition records_ops (c write_offset : Z) (ts : list ParameterTuple) : list bus_op :=
  concat (imap (fun k t => record_ops c (wrapping_add write_offset (Z.of_nat k) buffer_size) t) ts).

(** ** [FunctionGeneratorImpl::refill] *)
Definition read_offsets (regs : Z) (first : bool) : M W (Z * Z) :=
  if first then mret (0, 0)
  else rs ← on_dev (cycle [BusR (regs + FG_WPTR); BusR (regs + FG_RPTR)]); mret (nth_read rs 0, nth_read rs 1).

Definition refill (i : nat) (first : bool) : M W unit :=
  fg ← get_fg i;
  massert (negb (channel fg =? -1)) "assert(channel != -1)";;
  let c := channel fg in
  let regs := shm + FG_REGS_BASE c in
  '(write_offset_d, read_offset_d) ← read_offsets regs first;
  massert (negb (buffer_size =? 0)) "% buffer_size";;
  let write_offset := write_offset_d mod buffer_size in
  let read_offset := read_offset_d mod buffer_size in
  let remaining := wrapping_sub write_offset read_offset buffer_size in
  let completed := u32 (filled fg - remaining) in
  '(level, m, q) ← of_outcome (pop_completed completed (fillLevel fg) (filled fg) (fifo fg));
  let fg1 := set_data level m q fg in
  on_fg i (set_data level m q);;
  (if lowFill fg1 && negb (lowFill fg) then emit i signal_refill else mret tt);;
  massert (m =? remaining) "assert(filled == remaining)";;
  let todo := u32 (Z.of_nat (length q) - m) in
  let space := u32 (buffer_size - 1 - m) in
  let refill := Z.min todo space in
  let ts := take (Z.to_nat refill) (drop (Z.to_nat m) q) in
  massert (Z.of_nat (length ts) =? refill) "fifo[filled+i]";;
  _ ← on_dev (cycle (records_ops c write_offset ts ++
                     [BusW (regs + FG_WPTR) (wrapping_add write_offset refill buffer_size)]));
  on_fg i (set_data level (u32 (m + refill)) q).

(** ** Channels *)
Definition acquireChannel (i : nat) : M W unit :=
  fg ← get_fg i;
  massert (channel fg =? -1) "assert(channel == -1)";;
  al ← gets allocation;
  match list_find (fun x => x = -1) al with
  | None =>
      throw (Error FAILED ("All " +:+ pretty (length al) +:+ " microcontroller channels are in use"))
  | Some (c, _) =>
      let regs := shm + FG_REGS_BASE (Z.of_nat c) in
      match host_slot fg with
      | None => crash "host_slot->getIndex()"
      | Some slot =>
          _ ← on_dev (cycle [BusW (regs + FG_WPTR) 0; BusW (regs + FG_RPTR) 0;
                             BusW (regs + FG_MBX_SLOT) slot; BusW (regs + FG_MACRO_NUM) (index fg);
                             BusW (regs + FG_RAMP_COUNT) 0; BusW (regs + FG_TAG) (startTag fg)]);
          on_allocation (fun al => <[c := index fg]> al);;
          on_fg i (set_channel (Z.of_nat c) true);;
          emit i (signal_enabled true)
      end
  end.

Definition flush (i : nat) : M W unit :=
  fg ← get_fg i;
  throw_if (enabled fg) (Error INVALID_ARGS "Enabled, cannot Flush");;
  massert (channel fg =? -1) "assert(channel == -1)";;
  on_fg i (fun fg => set_data 0 (filled fg) [] fg).

Definition use_slot (fg : FunctionGeneratorImpl) (value : Z) : M W unit :=
  on_dev (UseSlot mailbox (mb_slot fg) value).

Definition releaseChannel (i : nat) : M W unit :=
  fg ← get_fg i;
  massert (negb (channel fg =? -1)) "assert(channel != -1)";;
  on_fg_timers (fun l => (tt, remove (resetTimeout fg) l));;
  (if abort fg then use_slot fg (Z.lor SWI_INIT_BUFFERS (channel fg)) else mret tt);;
  on_allocation (fun al => <[Z.to_nat (channel fg) := -1]> al);;
  on_fg i (fun fg => set_channel (-1) false (set_data (fillLevel fg) 0 (fifo fg) fg));;
  emit i (signal_enabled false);;
  if abort fg then flush i else mret tt.

Definition ReadExecutedParameterCount (i : nat) : M W Z :=
  fg ← get_fg i;
  if fg_running fg then on_dev (dev_read (shm + FG_REGS_BASE (channel fg) + FG_RAMP_COUNT))
  else mret (executedParameterCount fg).

(** ** [FunctionGeneratorImpl::irq_handler] *)
Definition read_time : M W Z :=
  o ← on_dev (ReadRawCurrentTime eca time_fuel);
  match o with
  | Some t => mret t
  | None => crash "ReadRawCurrentTime does not return"
  end.

Definition irq_armed (i : nat) : M W unit :=
  on_fg i (set_flags true false);; emit i (signal_armed true).

Definition irq_disarmed (i : nat) : M W unit :=
  on_fg i (set_flags false false);; emit i (signal_armed false);; releaseChannel i.

Definition irq_start (i : nat) (time : Z) : M W unit :=
  on_fg i (set_flags false true);;
  emit i (signal_armed false);;
  emit i (signal_running true);;
  emit i (signal_started time).

Definition irq_stop (i : nat) (msi time : Z) : M W unit :=
  fg ← get_fg i;
  let hardwareMacroUnderflow := negb (msi =? IRQ_DAT_STOP_EMPTY) && negb (abort fg) in
  let microControllerUnderflow :=
    negb (Z.of_nat (length (fifo fg)) =? filled fg) && negb hardwareMacroUnderflow && negb (abort fg) in
  (if negb (abort fg) && negb hardwareMacroUnderflow && negb microControllerUnderflow
   then on_fg i (fun fg => set_data 0 (filled fg) [] fg) else mret tt);;
  n ← ReadExecutedParameterCount i;
  on_fg i (fun fg => set_flags (armed fg) false (set_executed (u32 n) fg));;
  emit i (signal_running false);;
  emit i (signal_stopped time (abort fg) hardwareMacroUnderflow microControllerUnderflow);;
  releaseChannel i.

(** Messages out of sequence are reported and ignored. *)
Definition irq_handler (i : nat) (msi : Z) : M W unit :=
  fg ← get_fg i;
  if channel fg =? -1 then mret tt
  else
    massert (enabled fg) "assert(enabled)";;
    time ← read_time;
    if msi =? IRQ_DAT_REFILL then (if fg_running fg then refill i false else mret tt)
    else if msi =? IRQ_DAT_ARMED then (if fg_running fg || armed fg then mret tt else irq_armed i)
    else if msi =? IRQ_DAT_DISARMED then (if fg_running fg || negb (armed fg) then mret tt else irq_disarmed i)
    else if msi =? IRQ_DAT_START then (if fg_running fg || negb (armed fg) then mret tt else irq_start i time)
    else (if armed fg || negb (fg_running fg) then mret tt else irq_stop i msi time).

(** ** Appending *)
Fixpoint push_tuples (ts : list ParameterTuple) (fg : FunctionGeneratorImpl) : outcome FunctionGeneratorImpl :=
  match ts with
  | [] => Ret fg
  | t :: ts' =>
      match push_tuple t fg with
      | Ret fg' => push_tuples ts' fg'
      | Throw e => Throw e
      | Crash why => Crash why
      end
  end.

(** Not checked: the parameters come from shared memory. *)
Definition appendParameterTuples (i : nat) (ts : list ParameterTuple) : M W bool :=
  fg ← get_fg i;
  fg' ← of_outcome (push_tuples ts fg);
  on_fg i (fun _ => fg');;
  (if negb (channel fg' =? -1) then refill i false else mret tt);;
  fg ← get_fg i;
  mret (lowFill fg).

Definition length_mismatch (what : string) : exn := Error INVALID_ARGS (what +:+ " length mismatch").

Fixpoint validate (l : list (Z * Z * Z * Z)) : outcome unit :=
  match l with
  | [] => Ret tt
  | (st, fr, sa, sb) :: l' =>
      if 8 <=? st then Throw (Error INVALID_ARGS "step must be < 8")
      else if 8 <=? fr then Throw (Error INVALID_ARGS "freq must be < 8")
      else if 48 <? sa then Throw (Error INVALID_ARGS "shift_a must be <= 48")
      else if 48 <? sb then Throw (Error INVALID_ARGS "shift_b must be <= 48")
      else validate l'
  end.

(** The rows of seven columns of one length. *)
Fixpoint tuples (a b c st fr sa sb : list Z) : list ParameterTuple :=
  match a, b, c, st, fr, sa, sb with
  | a0 :: a', b0 :: b', c0 :: c', st0 :: st', fr0 :: fr', sa0 :: sa', sb0 :: sb' =>
      mkTuple a0 b0 c0 st0 fr0 sa0 sb0 :: tuples a' b' c' st' fr' sa' sb'
  | _, _, _, _, _, _, _ => []
  end.

Definition appendParameterSet (i : nat) (a b c st fr sa sb : list Z) : M W bool :=
  let len := length a in
  let other (l : list Z) := negb (bool_decide (length l = len)) in
  throw_if (other b) (length_mismatch "coeff_b");;
  throw_if (other c) (length_mismatch "coeff_c");;
  throw_if (other st) (length_mismatch "step");;
  throw_if (other fr) (length_mismatch "freq");;
  throw_if (other sa) (length_mismatch "shift_a");;
  throw_if (other sb) (length_mismatch "shift_b");;
  of_outcome (validate (zip (zip (zip st fr) sa) sb));;
  appendParameterTuples i (tuples a b c st fr sa sb).

(** ** [arm], [ResetFailed], [Reset], [setStartTag] *)
Definition arm (i : nat) : M W unit :=
  fg ← get_fg i;
  throw_if (enabled fg) (Error INVALID_ARGS "Enabled, cannot re-Arm");;
  throw_if (fillLevel fg =? 0) (Error INVALID_ARGS "FillLevel is zero, cannot Arm");;
  massert (negb (armed fg)) "assert(!armed)";;
  massert (negb (fg_running fg)) "assert(!running)";;
  on_fg i (set_abort false);;
  acquireChannel i;;
  try_catch
    (refill i true;; fg ← get_fg i; use_slot fg (Z.lor SWI_ENABLE (channel fg)))
    (fun e => fg ← get_fg i; use_slot fg (Z.lor SWI_DISABLE (channel fg));; throw e).

Definition ResetFailed (i : nat) : M W bool :=
  fg ← get_fg i;
  massert (enabled fg) "assert(enabled)";;
  (if fg_running fg then
     on_fg i (fun fg => set_flags (armed fg) false fg);;
     emit i (signal_running false);;
     time ← read_time;
     emit i (signal_stopped time true false false)
   else
     (if armed fg then mret tt
      else on_fg i (fun fg => set_flags true (fg_running fg) fg);; emit i (signal_armed true));;
     on_fg i (fun fg => set_flags false (fg_running fg) fg);;
     emit i (signal_armed false));;
  releaseChannel i;;
  mret false.

Definition Reset (i : nat) (rnd : Z) : M W unit :=
  fg ← get_fg i;
  if channel fg =? -1 then mret tt
  else if abort fg then mret tt
  else
    on_fg i (set_abort true);;
    use_slot fg (Z.lor SWI_DISABLE (channel fg));;
    if connected (resetTimeout fg) then mret tt
    else
      now ← gets fw_now;
      h ← on_fg_timers (connect (new_timeout now 1000 1000) i rnd);
      on_fg i (set_resetTimeout h).

Definition setStartTag (i : nat) (val : Z) : M W unit :=
  fg ← get_fg i;
  throw_if (enabled fg) (Error INVALID_ARGS "Enabled, cannot set StartTag");;
  on_fg i (set_startTag val).

(** ** Construction and destruction; [capacity]: SAFTLIB_FG_FIFO_MAX_SIZE *)
Definition new_fg (slot idx mac irq_address : Z) (capacity : option Z) : M W FunctionGeneratorImpl :=
  let cap := default 16384 capacity in
  throw_if (cap <? 0) OtherException;;
  host ← on_dev (ConfigureSlot mailbox irq_address);
  mret (mkFG slot idx mac host (-1) false false false false null_handle 0 0 0 0 [] cap 0).

Definition destroy_fg (fg : FunctionGeneratorImpl) : M W unit :=
  on_fg_timers (fun l => (tt, remove (resetTimeout fg) l));;
  match host_slot fg with
  | Some slot => on_dev (FreeSlot mailbox slot)
  | None => mret tt
  end.

(** ** [FunctionGenerator]: most functions are for the owner only *)
Definition owner_only (i : nat) : M W unit :=
  w ← get;
  match front w with
  | Singles services => of_outcome (ownerOnly (fw_caller w) (default None (services !! i)))
  | Master m => of_outcome (ownerOnly (fw_caller w) (m_service m))
  end.
Definition FunctionGenerator_AppendParameterSet (i : nat) (a b c st fr sa sb : list Z) : M W bool :=
  owner_only i;; appendParameterSet i a b c st fr sa sb.
Definition FunctionGenerator_Flush (i : nat) : M W unit := owner_only i;; flush i.
Definition FunctionGenerator_Arm (i : nat) : M W unit := owner_only i;; arm i.
Definition FunctionGenerator_Abort (i : nat) (rnd : Z) : M W unit := owner_only i;; Reset i rnd.
Definition FunctionGenerator_setStartTag (i : nat) (val : Z) : M W unit := owner_only i;; setStartTag i val.
End FunctionGenerators.
