(* ===== verification/FunctionGenCorrect.v ===== *)
(** * The function generators are correct

    The record of a parameter tuple can be decoded; the microcontroller's ring
    buffer and the driver's queue agree; whatever interrupts the microcontroller
    sends, in whatever order, no assertion of the driver fails, and no channel is
    used by two generators. *)
From S2P Require Import Prelude Bus Loop Owned EcaHw EcaOps FunctionGen.
Local Open Scope Z_scope.

(** ** Records *)
Record tuple_ok (t : ParameterTuple) : Prop := {
  ok_a : - 2 ^ 15 <= coeff_a t < 2 ^ 15;
  ok_b : - 2 ^ 15 <= coeff_b t < 2 ^ 15;
  ok_c : - 2 ^ 31 <= coeff_c t < 2 ^ 31;
  ok_step : 0 <= step t < 8;
  ok_freq : 0 <= freq t < 8;
  ok_shift_a : 0 <= shift_a t < 64;
  ok_shift_b : 0 <= shift_b t < 64
}.

(** What the documentation of the control word says: "2..0=step, 5..3=freq,
    11..6=shift_b, 17..12=shifta" (src/fg_regs.h). *)
Definition decode_record (ab c ctl : Z) : ParameterTuple :=
  mkTuple (s16 (Z.shiftr ab 16)) (s16 (Z.land ab 0xFFFF)) (s32 c)
    (Z.land ctl 0x7) (Z.land (Z.shiftr ctl 3) 0x7)
    (Z.land (Z.shiftr ctl 12) 0x3f) (Z.land (Z.shiftr ctl 6) 0x3f).

Lemma coeff_ab_sum t : coeff_ab t = (coeff_a t mod 2 ^ 16) * 2 ^ 16 + coeff_b t mod 2 ^ 16.
Proof.
  unfold coeff_ab. change 0xFFFF with (Z.ones 16). rewrite Z.land_ones by lia.
  assert (u32 (Z.shiftl (u32 (coeff_a t)) 16) = Z.shiftl (coeff_a t mod 2 ^ 16) 16) as ->.
  { rewrite !Z.shiftl_mul_pow2 by lia. wrap_lia. }
  assert (u32 (coeff_b t) mod 2 ^ 16 = coeff_b t mod 2 ^ 16) as -> by wrap_lia.
  apply lor_shiftl_low; [lia|]. apply Z.mod_pos_bound. lia.
Qed.

Lemma control_sum t :
  tuple_ok t -> control t = shift_a t * 2 ^ 12 + shift_b t * 2 ^ 6 + freq t * 2 ^ 3 + step t.
Proof.
  intros [_ _ _ Hs Hf Ha Hb]. unfold control.
  change 0x7 with (Z.ones 3). change 0x3f with (Z.ones 6).
  rewrite !Z.land_ones, !Z.mod_small by (try done; lia).
  rewrite (Z.lor_comm (step t)), lor_shiftl_low by (try done; lia).
  rewrite (Z.lor_comm _ (Z.shiftl (shift_b t) 6)), lor_shiftl_low by (change (2 ^ 3) with 8; change (2 ^ 6) with 64; lia).
  rewrite (Z.lor_comm _ (Z.shiftl (shift_a t) 12)), lor_shiftl_low
    by (change (2 ^ 3) with 8; change (2 ^ 6) with 64; change (2 ^ 12) with 4096; lia).
  lia.
Qed.

(** The three words that [refill] writes for a parameter tuple hold all of its
    members, in the fields that the firmware's header documents. *)
Theorem record_roundtrip t :
  tuple_ok t -> decode_record (coeff_ab t) (u32 (coeff_c t)) (control t) = t.
Proof.
  intros Ht. unfold decode_record. rewrite coeff_ab_sum, control_sum by done.
  destruct Ht as [Ha Hb Hc Hs Hf Hsa Hsb]. destruct t as [a b c st fr sa sb]; cbn in *.
  change 0xFFFF with (Z.ones 16). change 0x7 with (Z.ones 3). change 0x3f with (Z.ones 6).
  rewrite !Z.land_ones, !Z.shiftr_div_pow2 by lia.
  change (2 ^ 16) with 65536. change (2 ^ 3) with 8. change (2 ^ 6) with 64. change (2 ^ 12) with 4096.
  f_equal; wrap_lia.
Qed.

Lemma record_roundtrip_witness :
  let t := mkTuple (-3) 5 (-7) 7 6 48 1 in decode_record (coeff_ab t) (u32 (coeff_c t)) (control t) = t.
Proof. apply record_roundtrip. split; cbn; lia. Defined.

(** ** The microcontroller's memory *)

(** The value that the last of the writes leaves at [a]. *)
Fixpoint last_write (a : Z) (ops : list bus_op) : option Z :=
  match ops with
  | [] => None
  | BusR _ :: ops' => last_write a ops'
  | BusW b v :: ops' =>
      match last_write a ops' with
      | Some x => Some x
      | None => if a =? b then Some (u32 v) else None
      end
  end.
Definition is_read (op : bus_op) : Prop := if op is BusR _ then True else False.

Lemma last_write_app a l1 l2 :
  last_write a (l1 ++ l2) = match last_write a l2 with Some x => Some x | None => last_write a l1 end.
Proof.
  induction l1 as [|[b v|b] l1 IH]; cbn; [by destruct (last_write a l2)| |done].
  rewrite IH. by destruct (last_write a l2).
Qed.

Lemma last_write_reads a ops : Forall is_read ops -> last_write a ops = None.
Proof. by induction 1 as [|[b v|b] l Hb Hl IH]. Qed.

Section Memory.
Context (fgb num_channels buffer_size : Z).
Let base := shm fgb.

(** Addresses of the registers of a channel, and of word [o] of a record. *)
Definition reg (c r : Z) : Z := base + FG_REGS_BASE c + r.
Definition slot_word (c k o : Z) : Z := base + FG_BUFF_BASE num_channels buffer_size c k + o.

(** The layout fits into the 32-bit numbers that the driver computes with. *)
Record layout_ok : Prop := {
  lay_channels : 0 <= num_channels;
  lay_buffer : 1 < buffer_size;
  lay_fits : FG_REGS_BASE num_channels + num_channels * buffer_size * PARAM_SIZE < 2 ^ 32
}.

Definition shared (a : Z) : Prop :=
  base <= a < base + FG_REGS_BASE num_channels + num_channels * buffer_size * PARAM_SIZE.

(** The records between the read and the write pointer. *)
Definition used (m : Z -> Z) (c : Z) : Z := (m (reg c FG_WPTR) - m (reg c FG_RPTR)) mod buffer_size.

(** What the firmware does between two cycles: it takes records, and never
    touches the write pointer or a record. *)
Definition consumed (m m' : Z -> Z) : Prop :=
  forall c, 0 <= c < num_channels ->
    m' (reg c FG_WPTR) = m (reg c FG_WPTR) /\
    (forall k o, 0 <= k < buffer_size -> o ∈ [PARAM_COEFF_AB; PARAM_COEFF_C; PARAM_CONTROL] ->
       m' (slot_word c k o) = m (slot_word c k o)) /\
    exists j, 0 <= j <= used m c /\
      m' (reg c FG_RPTR) mod buffer_size = (m (reg c FG_RPTR) + j) mod buffer_size.

(** The ring buffer of channel [c] from position [r] on holds [ts]. *)
Definition slot_holds (m : Z -> Z) (c k : Z) (t : ParameterTuple) : Prop :=
  m (slot_word c k PARAM_COEFF_AB) = u32 (coeff_ab t) /\
  m (slot_word c k PARAM_COEFF_C) = u32 (u32 (coeff_c t)) /\
  m (slot_word c k PARAM_CONTROL) = u32 (control t).
Definition ring_holds (m : Z -> Z) (c r : Z) (ts : list ParameterTuple) : Prop :=
  forall k t, ts !! k = Some t -> slot_holds m c ((r + Z.of_nat k) mod buffer_size) t.

(** The first [filled] entries of the queue were written; the last [used] of
    them have not been taken yet. *)
Record ring (m : Z -> Z) (fg : FunctionGeneratorImpl) : Prop := {
  ring_used : used m (channel fg) <= filled fg;
  ring_filled : filled fg < buffer_size /\ filled fg <= Z.of_nat (length (fifo fg));
  ring_records : ring_holds m (channel fg) (m (reg (channel fg) FG_RPTR))
    (drop (Z.to_nat (filled fg - used m (channel fg))) (take (Z.to_nat (filled fg)) (fifo fg)))
}.

Context (Hlay : layout_ok).

Lemma used_range m c : 0 <= used m c < buffer_size.
Proof. destruct Hlay. apply Z.mod_pos_bound. lia. Qed.

(** Taking records keeps the ring. *)
Lemma used_consumed m m' c : 0 <= c < num_channels -> consumed m m' ->
  0 <= used m' c <= used m c /\
  m' (reg c FG_RPTR) mod buffer_size = (m (reg c FG_RPTR) + (used m c - used m' c)) mod buffer_size.
Proof.
  intros Hc Hm. destruct (Hm c Hc) as (Hw & _ & j & Hj & Hr). destruct Hlay as [_ Hb _].
  assert (used m' c = used m c - j) as E.
  { pose proof (used_range m c). unfold used in *. rewrite Hw, Zminus_mod, Hr, <- Zminus_mod.
    replace (m (reg c FG_WPTR) - (m (reg c FG_RPTR) + j))
      with (m (reg c FG_WPTR) - m (reg c FG_RPTR) - j) by lia.
    rewrite Zminus_mod, (Z.mod_small j) by lia. rewrite Z.mod_small; lia. }
  rewrite E. split; [lia|]. rewrite Hr. f_equal. lia.
Qed.

Lemma ring_consumed m m' fg :
  0 <= channel fg < num_channels -> consumed m m' -> ring m fg -> ring m' fg.
Proof.
  intros Hc Hm [Hu Hf Hrec]. destruct (used_consumed m m' _ Hc Hm) as [Hu' Hr].
  split; [lia|done|]. intros k t Hk.
  destruct (Hm _ Hc) as (_ & Hsame & _).
  set (d := used m (channel fg) - used m' (channel fg)) in *.
  assert (((m' (reg (channel fg) FG_RPTR) + Z.of_nat k) mod buffer_size)
    = ((m (reg (channel fg) FG_RPTR) + Z.of_nat (Z.to_nat d + k)) mod buffer_size)) as ->.
  { rewrite Zplus_mod, Hr, <- Zplus_mod. f_equal. lia. }
  assert (0 <= (m (reg (channel fg) FG_RPTR) + Z.of_nat (Z.to_nat d + k)) mod buffer_size < buffer_size)
    by (destruct Hlay; apply Z.mod_pos_bound; lia).
  destruct (Hrec (Z.to_nat d + k)%nat t) as (H1 & H2 & H3).
  { rewrite lookup_drop in *. rewrite <- Hk. f_equal. lia. }
  split; [|split]; rewrite Hsame; try done; rewrite !elem_of_cons; tauto.
Qed.

(** Between [m] and [m'] the microcontroller took some of the records of channel
    [c], and the driver put [n] behind them. *)
Definition advanced (m m' : Z -> Z) (c n : Z) : Prop :=
  exists j, 0 <= j <= used m c /\ used m' c = used m c - j + n /\
    m' (reg c FG_RPTR) mod buffer_size = (m (reg c FG_RPTR) + j) mod buffer_size.

Lemma advanced_consumed m m' c : 0 <= c < num_channels -> consumed m m' -> advanced m m' c 0.
Proof.
  intros Hc Hm. destruct (used_consumed m m' c Hc Hm) as [Hu Hr]. exists (used m c - used m' c). lia.
Qed.

Lemma advanced_trans m1 m2 m3 c n : advanced m1 m2 c 0 -> advanced m2 m3 c n -> advanced m1 m3 c n.
Proof.
  intros (j & Hj & Hu & Hr) (k & Hk & Hu' & Hr'). exists (j + k).
  split; [lia|]. split; [lia|]. rewrite Hr', Zplus_mod, Hr, <- Zplus_mod. f_equal. lia.
Qed.

(** ** Addresses *)
Lemma slot_bound c k : 0 <= c < num_channels -> 0 <= k < buffer_size ->
  0 <= k + c * buffer_size < num_channels * buffer_size.
Proof. intros Hc Hk. split; [nia|]. assert (c * buffer_size <= (num_channels - 1) * buffer_size) by nia. lia. Qed.

Lemma slot_word_eq c k o : 0 <= c < num_channels -> 0 <= k < buffer_size ->
  slot_word c k o = base + FG_REGS_BASE num_channels + (k + c * buffer_size) * PARAM_SIZE + o.
Proof.
  intros Hc Hk. pose proof (slot_bound c k Hc Hk). destruct Hlay as [Hn Hb Hf].
  unfold slot_word, FG_BUFF_BASE, PARAM_SIZE, FG_REGS_BASE, FG_REGS_BASE_, FG_REGS_SIZE in *.
  rewrite unsigned_wrap_small by lia. lia.
Qed.

Definition is_offset (o : Z) : Prop := o = PARAM_COEFF_AB \/ o = PARAM_COEFF_C \/ o = PARAM_CONTROL.

Lemma slot_word_inj c k o c' k' o' :
  0 <= c < num_channels -> 0 <= k < buffer_size -> is_offset o ->
  0 <= c' < num_channels -> 0 <= k' < buffer_size -> is_offset o' ->
  slot_word c k o = slot_word c' k' o' -> c = c' /\ k = k' /\ o = o'.
Proof.
  intros Hc Hk Ho Hc' Hk' Ho'. rewrite !slot_word_eq by done. intros E.
  unfold is_offset, PARAM_SIZE, PARAM_COEFF_AB, PARAM_COEFF_C, PARAM_CONTROL in *.
  assert (k + c * buffer_size = k' + c' * buffer_size /\ o = o') as [E1 ->] by lia.
  assert (c = c') as ->; [|split; [done|split; [lia|done]]].
  apply (f_equal (fun x => x / buffer_size)) in E1.
  rewrite !Z.div_add, !Z.div_small in E1 by lia. lia.
Qed.

Lemma reg_below c r : 0 <= c < num_channels -> 0 <= r < FG_REGS_SIZE ->
  base <= reg c r < base + FG_REGS_BASE num_channels.
Proof. intros Hc Hr. unfold reg, FG_REGS_BASE, FG_REGS_BASE_, FG_REGS_SIZE in *. lia. Qed.

Lemma slot_word_above c k o : 0 <= c < num_channels -> 0 <= k < buffer_size -> is_offset o ->
  base + FG_REGS_BASE num_channels <= slot_word c k o /\ shared (slot_word c k o).
Proof.
  intros Hc Hk Ho. pose proof (slot_bound c k Hc Hk). rewrite slot_word_eq by done. unfold shared.
  unfold is_offset, PARAM_SIZE, PARAM_COEFF_AB, PARAM_COEFF_C, PARAM_CONTROL, FG_REGS_BASE, FG_REGS_BASE_, FG_REGS_SIZE in *.
  destruct Hlay. lia.
Qed.

Lemma reg_shared c r : 0 <= c < num_channels -> 0 <= r < FG_REGS_SIZE -> shared (reg c r).
Proof.
  intros Hc Hr. pose proof (reg_below c r Hc Hr). unfold shared. destruct Hlay as [Hn Hb Hf].
  unfold PARAM_SIZE. assert (0 <= num_channels * buffer_size) by nia. lia.
Qed.

Lemma reg_inj c r c' r' : 0 <= r < FG_REGS_SIZE -> 0 <= r' < FG_REGS_SIZE -> reg c r = reg c' r' -> c = c' /\ r = r'.
Proof. unfold reg, FG_REGS_BASE, FG_REGS_SIZE. lia. Qed.

(** Only what lies in the shared memory matters. *)
Lemma consumed_ext m m1 m2 : (forall a, shared a -> m2 a = m1 a) -> consumed m m1 -> consumed m m2.
Proof.
  intros Hext Hm c Hc. destruct (Hm c Hc) as (Hw & Hs & j & Hj & Hr).
  rewrite !Hext by (apply reg_shared; [done|unfold FG_WPTR, FG_RPTR, FG_REGS_SIZE; lia]).
  split; [done|]. split; [|by exists j]. intros k o Hk Ho. rewrite Hext; [by apply Hs|].
  apply slot_word_above; [done|done|]. unfold is_offset. rewrite !elem_of_cons, elem_of_nil in Ho. tauto.
Qed.

(** ** The writes of [refill] *)
Definition recs (c : Z) (f : nat -> Z) (ts : list ParameterTuple) : list bus_op :=
  concat (imap (fun k t => record_ops fgb num_channels buffer_size c (f k) t) ts).

Definition record_word (o : Z) (t : ParameterTuple) : Z :=
  if o =? PARAM_COEFF_AB then coeff_ab t else if o =? PARAM_COEFF_C then u32 (coeff_c t) else control t.

Lemma record_hit c k o t : is_offset o ->
  last_write (slot_word c k o) (record_ops fgb num_channels buffer_size c k t) = Some (u32 (record_word o t)).
Proof.
  unfold slot_word, record_ops, base, PARAM_COEFF_AB, PARAM_COEFF_C, PARAM_CONTROL. cbn -[Z.add Z.eqb].
  intros [->|[->| ->]]; unfold PARAM_COEFF_AB, PARAM_COEFF_C, PARAM_CONTROL, record_word.
  all: rewrite ?Z.eqb_refl; repeat (rewrite (proj2 (Z.eqb_neq _ _)) by lia); done.
Qed.

Lemma record_miss a c k t :
  (forall o, is_offset o -> a <> slot_word c k o) ->
  last_write a (record_ops fgb num_channels buffer_size c k t) = None.
Proof.
  intros Ha. unfold record_ops. cbn -[Z.add Z.eqb].
  rewrite !(proj2 (Z.eqb_neq _ _)); [done|apply (Ha PARAM_COEFF_AB)|apply (Ha PARAM_COEFF_C)|apply (Ha PARAM_CONTROL)];
    unfold is_offset; tauto.
Qed.

Lemma recs_cons c f t ts :
  recs c f (t :: ts) = record_ops fgb num_channels buffer_size c (f 0%nat) t ++ recs c (fun k => f (S k)) ts.
Proof. reflexivity. Qed.

Lemma recs_miss a c ts : forall f,
  (forall i o, (i < length ts)%nat -> is_offset o -> a <> slot_word c (f i) o) ->
  last_write a (recs c f ts) = None.
Proof.
  induction ts as [|t ts IH]; intros f Ha; [done|]. rewrite recs_cons, last_write_app, IH.
  - apply record_miss. intros o Ho. apply Ha; [cbn; lia|done].
  - intros i o Hi Ho. apply (Ha (S i)); [cbn; lia|done].
Qed.

Lemma recs_hit c ts : forall f i t o,
  0 <= c < num_channels -> is_offset o ->
  (forall j, (j < length ts)%nat -> 0 <= f j < buffer_size) ->
  (forall j l, (j < length ts)%nat -> (l < length ts)%nat -> f j = f l -> j = l) ->
  ts !! i = Some t ->
  last_write (slot_word c (f i) o) (recs c f ts) = Some (u32 (record_word o t)).
Proof.
  induction ts as [|t0 ts IH]; intros f i t o Hc Ho Hrange Hinj Hi; [done|].
  rewrite recs_cons, last_write_app. destruct i as [|i].
  - inversion Hi; subst t0. rewrite recs_miss; [by apply record_hit|].
    intros i o' Hlt Ho' E. apply slot_word_inj in E as (_ & E & _); try done.
    + apply Hinj in E; cbn in *; lia.
    + apply Hrange. cbn. lia.
    + apply Hrange. cbn. lia.
  - rewrite (IH (fun k => f (S k)) i t o); try done.
    + intros j Hj. apply Hrange. cbn. lia.
    + intros j l Hj Hl E. apply Hinj in E; cbn; lia.
Qed.

(** ** Positions in the ring *)
Lemma wrapping_add_mod a b :
  0 <= a < buffer_size -> 0 <= b <= buffer_size -> 2 * buffer_size <= 2 ^ 32 ->
  wrapping_add a b buffer_size = (a + b) mod buffer_size.
Proof.
  intros Ha Hb Hs. unfold wrapping_add. rewrite unsigned_wrap_small by lia.
  destruct (Z.leb_spec buffer_size (a + b)).
  - rewrite unsigned_wrap_small by lia.
    rewrite <- (Z.mod_small (a + b - buffer_size) buffer_size) by lia.
    rewrite <- (Z_mod_plus_full (a + b) (-1)). f_equal; lia.
  - by rewrite Z.mod_small by lia.
Qed.

Lemma wrapping_sub_mod a b :
  0 <= a < buffer_size -> 0 <= b < buffer_size -> buffer_size <= 2 ^ 32 ->
  wrapping_sub a b buffer_size = (a - b) mod buffer_size.
Proof.
  intros Ha Hb Hs. unfold wrapping_sub. destruct (Z.ltb_spec a b); rewrite unsigned_wrap_small by lia.
  - rewrite <- (Z.mod_small (a - b + buffer_size) buffer_size) by lia.
    rewrite <- (Z_mod_plus_full (a - b) 1). f_equal; lia.
  - by rewrite Z.mod_small by lia.
Qed.

Lemma position_inj r x y :
  0 <= x < buffer_size -> 0 <= y < buffer_size ->
  (r + x) mod buffer_size = (r + y) mod buffer_size -> x = y.
Proof.
  intros Hx Hy E. assert ((x - y) mod buffer_size = 0) as E0.
  { replace (x - y) with ((r + x) - (r + y)) by lia. rewrite Zminus_mod, E, Z.sub_diag. apply Z.mod_0_l. lia. }
  apply Z.mod_divide in E0 as [q Hq]; [|lia]. assert (q = 0) by nia. lia.
Qed.

Lemma buffer_bound c : 0 <= c < num_channels -> 2 * buffer_size <= 2 ^ 32 /\ num_channels * buffer_size < 2 ^ 32.
Proof.
  intros Hc. destruct Hlay as [Hn Hb Hf].
  unfold PARAM_SIZE, FG_REGS_BASE, FG_REGS_BASE_, FG_REGS_SIZE in Hf.
  assert (buffer_size <= num_channels * buffer_size) by nia. lia.
Qed.

(** ** The second cycle of [refill] *)
Section Refilled.
Context (m1 m2 m3 : Z -> Z) (fg : FunctionGeneratorImpl) (ts : list ParameterTuple) (wo : Z).
Let c := channel fg.
Let n := Z.of_nat (length ts).
Let pos (k : nat) : Z := wrapping_add wo (Z.of_nat k) buffer_size.
Let ops := recs c pos ts ++ [BusW (reg c FG_WPTR) (wrapping_add wo n buffer_size)].

Context (Hc : 0 <= c < num_channels).
Context (Hcons : consumed m1 m2) (Hm3 : forall a, shared a -> m3 a = default (m2 a) (last_write a ops)).
Context (Hwo : wo = m1 (reg c FG_WPTR) mod buffer_size).
Context (Hspace : filled fg + n < buffer_size).

Lemma wo_range : 0 <= wo < buffer_size.
Proof. destruct Hlay. rewrite Hwo. apply Z.mod_pos_bound. lia. Qed.

Context (Hfill : 0 <= filled fg).

Lemma pos_mod k : (k < length ts)%nat -> pos k = (wo + Z.of_nat k) mod buffer_size.
Proof.
  intros Hk. pose proof wo_range. pose proof (buffer_bound c Hc).
  unfold pos. apply wrapping_add_mod; unfold n in *; lia.
Qed.
Lemma pos_range k : (k < length ts)%nat -> 0 <= pos k < buffer_size.
Proof. intros Hk. rewrite pos_mod by done. destruct Hlay. apply Z.mod_pos_bound. lia. Qed.
Lemma pos_inj k l : (k < length ts)%nat -> (l < length ts)%nat -> pos k = pos l -> k = l.
Proof.
  intros Hk Hl. rewrite !pos_mod by done. intros E. apply position_inj in E; unfold n in *; lia.
Qed.

Lemma written_reg c' r : 0 <= c' < num_channels -> 0 <= r < FG_REGS_SIZE -> reg c' r <> reg c FG_WPTR ->
  m3 (reg c' r) = m2 (reg c' r).
Proof.
  intros Hc' Hr Hne. rewrite Hm3 by (by apply reg_shared). unfold ops.
  rewrite last_write_app. cbn. rewrite (proj2 (Z.eqb_neq _ _)) by done.
  rewrite recs_miss; [done|]. intros i o Hi Ho E.
  pose proof (reg_below c' r Hc' Hr). pose proof (slot_word_above c (pos i) o Hc (pos_range i Hi) Ho). lia.
Qed.

Lemma written_wptr : m3 (reg c FG_WPTR) = (wo + n) mod buffer_size.
Proof.
  pose proof wo_range. pose proof (buffer_bound c Hc).
  rewrite Hm3 by (apply reg_shared; [done|unfold FG_WPTR, FG_REGS_SIZE; lia]). unfold ops.
  rewrite last_write_app. cbn [last_write]. rewrite Z.eqb_refl. cbn [default].
  rewrite wrapping_add_mod by (unfold n in *; lia). apply unsigned_wrap_small.
  destruct Hlay. pose proof (Z.mod_pos_bound (wo + n) buffer_size). lia.
Qed.

Lemma not_wptr c' k o : 0 <= c' < num_channels -> 0 <= k < buffer_size -> is_offset o ->
  slot_word c' k o <> reg c FG_WPTR.
Proof.
  intros Hc' Hk Ho E. pose proof (slot_word_above c' k o Hc' Hk Ho).
  pose proof (reg_below c FG_WPTR Hc). unfold FG_WPTR, FG_REGS_SIZE in *. lia.
Qed.

Lemma written_slot i t o : ts !! i = Some t -> is_offset o ->
  m3 (slot_word c ((wo + Z.of_nat i) mod buffer_size) o) = u32 (record_word o t).
Proof.
  intros Hi Ho. assert (i < length ts)%nat as Hlt by (by eapply lookup_lt_Some).
  rewrite <- pos_mod by done. rewrite Hm3 by (apply slot_word_above; [done|by apply pos_range|done]).
  unfold ops. rewrite last_write_app. cbn [last_write].
  rewrite (proj2 (Z.eqb_neq _ _)) by (apply not_wptr; [done|by apply pos_range|done]).
  rewrite (recs_hit c ts pos i t o); try done; [by apply pos_range|by apply pos_inj].
Qed.

Lemma other_slot c' k o : 0 <= c' < num_channels -> 0 <= k < buffer_size -> is_offset o ->
  (c' = c -> forall i, (i < length ts)%nat -> k <> pos i) ->
  m3 (slot_word c' k o) = m2 (slot_word c' k o).
Proof.
  intros Hc' Hk Ho Hne. rewrite Hm3 by (by apply slot_word_above). unfold ops.
  rewrite last_write_app. cbn [last_write]. rewrite (proj2 (Z.eqb_neq _ _)) by (by apply not_wptr).
  rewrite recs_miss; [done|]. intros i o' Hi Ho' E.
  apply slot_word_inj in E as (-> & E & _); try done; [|by apply pos_range]. by apply (Hne eq_refl i).
Qed.

(** The ring of another channel. *)
Lemma ring_other fg' :
  0 <= channel fg' < num_channels -> channel fg' <> c -> ring m1 fg' -> ring m3 fg'.
Proof.
  intros Hc' Hne Hr. apply (ring_consumed m1 m2) in Hr; [|done|done].
  assert (m3 (reg (channel fg') FG_RPTR) = m2 (reg (channel fg') FG_RPTR)) as ER.
  { apply written_reg; [done|unfold FG_RPTR, FG_REGS_SIZE; lia|]. intros E. apply reg_inj in E as [_ E]; done. }
  assert (m3 (reg (channel fg') FG_WPTR) = m2 (reg (channel fg') FG_WPTR)) as EW.
  { apply written_reg; [done|unfold FG_WPTR, FG_REGS_SIZE; lia|]. intros E. apply reg_inj in E as [E _]; done. }
  assert (used m3 (channel fg') = used m2 (channel fg')) as EU by (unfold used; by rewrite ER, EW).
  destruct Hr as [Hu Hf Hrec]. split; [by rewrite EU|done|]. rewrite EU, ER. intros k t Hk.
  destruct (Hrec k t Hk) as (H1 & H2 & H3). destruct Hlay.
  assert (0 <= (m2 (reg (channel fg') FG_RPTR) + Z.of_nat k) mod buffer_size < buffer_size)
    by (apply Z.mod_pos_bound; lia).
  split; [|split]; rewrite other_slot; try done; unfold is_offset; tauto.
Qed.

Context (Hsync : filled fg = used m1 c) (Hring : ring m1 fg).
Context (Hts : ts = take (length ts) (drop (Z.to_nat (filled fg)) (fifo fg))).

Lemma refilled_used : used m3 c = used m2 c + n.
Proof.
  destruct (used_consumed m1 m2 c Hc Hcons) as [Hu _]. destruct (Hcons c Hc) as (Hw & _).
  assert (m3 (reg c FG_RPTR) = m2 (reg c FG_RPTR)) as ER.
  { apply written_reg; [done|unfold FG_RPTR, FG_REGS_SIZE; lia|]. intros E. apply reg_inj in E as [_ E]; done. }
  assert (used m3 c = (m2 (reg c FG_WPTR) - m2 (reg c FG_RPTR) + n) mod buffer_size) as ->.
  { unfold used. rewrite written_wptr, ER, Hwo, Zplus_mod_idemp_l, Zminus_mod_idemp_l, Hw. f_equal. lia. }
  rewrite <- Zplus_mod_idemp_l. fold (used m2 c). apply Z.mod_small. unfold n in *. lia.
Qed.

Lemma refilled_advanced : advanced m1 m3 c n.
Proof.
  destruct (used_consumed m1 m2 c Hc Hcons) as [Hu Hr]. exists (used m1 c - used m2 c).
  split; [lia|]. rewrite refilled_used. split; [lia|].
  rewrite written_reg; [done|done|unfold FG_RPTR, FG_REGS_SIZE; lia|]. intros E. apply reg_inj in E as [_ E]; done.
Qed.

(** The ring of the channel itself: what was taken meanwhile is gone, the new
    records follow the old ones. *)
Lemma refilled_ring fg' :
  channel fg' = c -> fifo fg' = fifo fg -> filled fg' = filled fg + n ->
  filled fg + n <= Z.of_nat (length (fifo fg)) -> ring m3 fg'.
Proof.
  intros Ec Eq Ef Hlen. pose proof refilled_used as Hu3.
  destruct (used_consumed m1 m2 c Hc Hcons) as [Hu2 _].
  pose proof (ring_consumed m1 m2 fg Hc Hcons Hring) as [_ _ Hrec]. fold c in Hrec.
  assert (m3 (reg c FG_RPTR) = m2 (reg c FG_RPTR)) as ER.
  { apply written_reg; [done|unfold FG_RPTR, FG_REGS_SIZE; lia|]. intros E. apply reg_inj in E as [_ E]; done. }
  assert (wo = (m2 (reg c FG_RPTR) + used m2 c) mod buffer_size) as Ewo.
  { destruct (Hcons c Hc) as (Hw & _). rewrite Hwo, <- Hw. unfold used. rewrite Zplus_mod_idemp_r. f_equal. lia. }
  split; rewrite ?Ec, ?Eq, ?Ef, ?Hu3; [lia|lia|]. rewrite ER. intros k t Hk.
  replace (Z.to_nat (filled fg + n - (used m2 c + n))) with (Z.to_nat (filled fg - used m2 c)) in Hk by lia.
  rewrite lookup_drop in Hk. apply lookup_take_Some in Hk as [Hk Hlt].
  destruct (decide (Z.of_nat k < used m2 c)) as [Hold|Hnew].
  - destruct (Hrec k t) as (H1 & H2 & H3).
    { rewrite lookup_drop. apply lookup_take_Some. split; [done|lia]. }
    assert (0 <= (m2 (reg c FG_RPTR) + Z.of_nat k) mod buffer_size < buffer_size)
      by (destruct Hlay; apply Z.mod_pos_bound; lia).
    assert (forall i, (i < length ts)%nat -> (m2 (reg c FG_RPTR) + Z.of_nat k) mod buffer_size <> pos i) as Hne.
    { intros i Hi. rewrite pos_mod, Ewo, Zplus_mod_idemp_l, <- Z.add_assoc by done.
      intros E. apply position_inj in E; unfold n in *; lia. }
    split; [|split]; rewrite other_slot; try done; unfold is_offset; tauto.
  - set (i := (k - Z.to_nat (used m2 c))%nat).
    assert ((m2 (reg c FG_RPTR) + Z.of_nat k) mod buffer_size = (wo + Z.of_nat i) mod buffer_size) as ->.
    { rewrite Ewo, Zplus_mod_idemp_l. f_equal. unfold i. lia. }
    assert (ts !! i = Some t) as Hi.
    { rewrite Hts. apply lookup_take_Some. rewrite lookup_drop. unfold i, n in *. split; [|lia].
      rewrite <- Hk. f_equal. lia. }
    split; [|split]; rewrite (written_slot i t _ Hi); try done; unfold is_offset; tauto.
Qed.
End Refilled.
End Memory.

(** ** The device *)

(** The contents of the shared memory. *)
Class FgMemory (D : Type) := word : D -> Z -> Z.

(** The documented behaviour of the hardware and the firmware: a cycle is atomic;
    before it the firmware may have taken records; writes are stored, reads
    deliver what is stored.  The mailbox lies outside of the shared memory; the
    time can be read. *)
Class FgDevice (D : Type) `{Bus D, FgMemory D} (eca mailbox fgb num_channels buffer_size : Z)
    (time_fuel : nat) : Prop := {
  fg_busok : BusOk D;
  fg_cycle : forall ops (d : D) rs d', bus_cycle ops d = Some (rs, d') ->
    exists m, consumed fgb num_channels buffer_size (word d) m /\
      (forall a, shared fgb num_channels buffer_size a -> word d' a = default (m a) (last_write a ops)) /\
      (Forall is_read ops ->
       Forall2 (fun op r => forall a, op = BusR a -> shared fgb num_channels buffer_size a -> r = m a) ops rs);
  fg_mailbox : forall slot, 0 <= slot < 128 -> ~ shared fgb num_channels buffer_size (slot_address mailbox slot);
  fg_time : forall (d d' : D), ReadRawCurrentTime eca time_fuel d <> (Ret None, d')
}.

Definition total (q : list ParameterTuple) : Z :=
  foldr Z.add 0 ((fun t => match duration t with Ret d => d | _ => 0 end) <$> q).

Lemma duration_ok t : tuple_ok t -> exists d, duration t = Ret d /\ 0 < d < 2 ^ 32.
Proof.
  intros [_ _ _ Hs Hf _ _]. unfold duration.
  assert (Z.to_nat (step t) < 8)%nat as Hs' by lia. assert (Z.to_nat (freq t) < 8)%nat as Hf' by lia.
  destruct (Z.to_nat (step t)) as [|[|[|[|[|[|[|[|?]]]]]]]];
    destruct (Z.to_nat (freq t)) as [|[|[|[|[|[|[|[|?]]]]]]]]; cbn; try lia; by eexists.
Qed.

(** ** The invariant *)
Record fg_good (num_channels buffer_size fgb : Z) (al : list Z) (m : Z -> Z) (fg : FunctionGeneratorImpl) : Prop := {
  g_index : 0 <= index fg;
  g_slot : 0 <= mb_slot fg < 128;
  g_host : is_Some (host_slot fg);
  g_enabled : enabled fg = negb (channel fg =? -1);
  g_active : armed fg || fg_running fg = true -> enabled fg = true;
  g_flags : armed fg && fg_running fg = false;
  g_channel : channel fg = -1 \/ exists c, channel fg = Z.of_nat c /\ al !! c = Some (index fg);
  g_idle : channel fg = -1 -> filled fg = 0;
  g_filled : 0 <= filled fg;
  g_queue : Forall tuple_ok (fifo fg);
  g_level : fillLevel fg = u64 (total (fifo fg));
  g_length : Z.of_nat (length (fifo fg)) < 2 ^ 32;
  g_capacity : 0 < fifo_capacity fg /\ Z.of_nat (length (fifo fg)) <= fifo_capacity fg;
  g_ring : channel fg <> -1 -> ring fgb num_channels buffer_size m fg
}.

Section Driver.
Context {D : Type} `{!Bus D} `{!FgMemory D}.
Context (eca mailbox fgb num_channels buffer_size : Z) (time_fuel : nat).
Context `{!FgDevice D eca mailbox fgb num_channels buffer_size time_fuel}.
Context (Hlay : layout_ok num_channels buffer_size).
Local Abbreviation good := (fg_good num_channels buffer_size fgb).
Local Abbreviation the_ring := (ring fgb num_channels buffer_size).
Implicit Types (w : FgWorld D) (fg : FunctionGeneratorImpl) (m : Z -> Z).

Definition memory w : Z -> Z := word (fw_dev w).

Record fgs_ok w : Prop := {
  inv_fgs : forall i fg, fgs w !! i = Some fg -> good (allocation w) (memory w) fg;
  inv_index : forall i j fi fj, fgs w !! i = Some fi -> fgs w !! j = Some fj -> index fi = index fj -> i = j;
  inv_length : Z.of_nat (length (allocation w)) = num_channels;
  inv_allocated : forall c x, allocation w !! c = Some x ->
    x = -1 \/ exists i fg, fgs w !! i = Some fg /\ channel fg = Z.of_nat c
}.

(** The state in which generator [i] is [fg] and the memory is [m]. *)
Definition at_fg (i : nat) fg m w : Prop := fgs_ok w /\ fgs w !! i = Some fg /\ memory w = m.
Definition at_any (i : nat) fg w : Prop := fgs_ok w /\ fgs w !! i = Some fg.

Lemma at_fg_any i fg w : at_any i fg w <-> at_fg i fg (memory w) w.
Proof. unfold at_any, at_fg. tauto. Qed.
Lemma at_fg_ok i fg m w : at_fg i fg m w -> fgs_ok w.
Proof. by intros [? _]. Qed.

Lemma channel_range w i fg : fgs_ok w -> fgs w !! i = Some fg -> channel fg <> -1 -> 0 <= channel fg < num_channels.
Proof.
  intros Hok Hi Hc. destruct (g_channel _ _ _ _ _ _ (inv_fgs w Hok i fg Hi)) as [?|(c & -> & Hal)]; [done|].
  rewrite <- (inv_length w Hok). apply lookup_lt_Some in Hal. lia.
Qed.

(** ** What does not concern the generators *)
Definition same_core w w' : Prop :=
  fgs w' = fgs w /\ allocation w' = allocation w /\ fw_dev w' = fw_dev w.

Lemma same_core_refl w : same_core w w.
Proof. by split. Qed.

Lemma at_fg_core i fg m w w' : same_core w w' -> at_fg i fg m w -> at_fg i fg m w'.
Proof.
  intros (E1 & E2 & E3) ([H1 H2 H3 H4] & Hi & Hm). unfold at_fg, memory in *. rewrite E1, E3.
  split; [|done]. split; unfold memory; rewrite ?E1, ?E2, ?E3; done.
Qed.

Lemma triple_core {A} i fg m (p : M (FgWorld D) A) :
  (forall w, at_fg i fg m w ->
     match p w with (Crash _, _) => False | (_, w') => same_core w w' end) ->
  triple (at_fg i fg m) p (fun _ => at_fg i fg m) fgs_ok.
Proof.
  intros Hp w Hw. specialize (Hp w Hw). destruct (p w) as [[a|e|why] w']; [|by eapply at_fg_ok, at_fg_core|done].
  by eapply at_fg_core.
Qed.

Lemma send_out_core o w : match send_out o w with (Ret _, w') => same_core w w' | _ => False end.
Proof. by split. Qed.

Lemma on_master_core ms i s w : is_Some (fgs w !! i) ->
  match on_master ms i s w with (Ret _, w') => same_core w w' | _ => False end.
Proof.
  intros [fg Hi]. unfold on_master. rewrite (run_bind_ret (get_fg i) _ w fg w) by (unfold get_fg; by rewrite Hi).
  assert (forall o, match (if generateIndividualSignals ms then send_out o else mret tt) w with
                    | (Ret _, w') => same_core w w' | _ => False end) as Hind.
  { intros o. by destruct (generateIndividualSignals ms). }
  assert (forall o (p : FgWorld D -> M (FgWorld D) unit),
    (forall w1 w2, match p w1 w2 with (Ret _, w') => same_core w2 w' | _ => False end) ->
    match ((if generateIndividualSignals ms then send_out o else mret tt);; w1 ← get; p w1) w with
    | (Ret _, w') => same_core w w' | _ => False end) as Hseq.
  { intros o p Hp. pose proof (Hind o) as Ho.
    destruct ((if generateIndividualSignals ms then send_out o else mret tt) w) as [[[]|e|why] w1] eqn:E; [|done..].
    rewrite (run_bind_ret _ _ _ _ _ E). unfold get, mbind, M_bind. specialize (Hp w1 w1).
    destruct (p w1 w1) as [[[]|e|why] w2]; [|done..].
    destruct Ho as (? & ? & ?), Hp as (? & ? & ?). split; [congruence|split; congruence]. }
  destruct s as [b|b|b| |t|t ab hw mc]; try (by destruct (active ms i) || apply Hind); try apply Hind.
  - apply (Hseq _ (fun w1 => if b && forallb (fun fg => armed fg || (fillLevel fg =? 0)) (active_impls ms w1)
                             then send_out AllArmed else mret tt)).
    intros w1 w2. by destruct (b && _).
  - destruct (active ms i); [apply Hind|done].
  - destruct (active ms i); [apply Hind|done].
  - apply (Hseq _ (fun w1 => if forallb (fun fg => negb (fg_running fg)) (active_impls ms w1)
                             then send_out (SigAllStopped t) else mret tt)).
    intros w1 w2. by destruct (forallb _ _).
Qed.

Lemma emit_core i s w : is_Some (fgs w !! i) ->
  match emit i s w with (Crash _, _) => False | (_, w') => same_core w w' end.
Proof.
  intros Hi. unfold emit, get, mbind at 1, M_bind at 1. destruct (front w) as [services|ms].
  - unfold of_outcome, mbind, M_bind.
    unfold getOwner, with_service. destruct (default None (services !! i)) as [o|], (has_container (fw_caller w)).
    all: try (by split). all: by destruct (bool_decide _).
  - pose proof (on_master_core ms i s w Hi). by destruct (on_master ms i s w) as [[[]|e|why] w'].
Qed.

Lemma triple_emit i fg m s :
  triple (at_fg i fg m) (emit i s) (fun _ => at_fg i fg m) fgs_ok.
Proof. apply triple_core. intros w (_ & Hi & _). apply emit_core. by rewrite Hi. Qed.

Lemma triple_timers {A} i fg m (f : Loop nat -> A * Loop nat) :
  triple (at_fg i fg m) (on_fg_timers f) (fun _ => at_fg i fg m) fgs_ok.
Proof. apply triple_core. intros w _. unfold on_fg_timers. by destruct (f (fw_loop w)). Qed.

Lemma triple_get_fg i fg m : triple (at_fg i fg m) (get_fg i) (fun a w => at_fg i fg m w /\ a = fg) fgs_ok.
Proof. intros w Hw. unfold get_fg. pose proof Hw as (_ & -> & _). done. Qed.

(** ** Updating one generator, the allocation and the device *)
Lemma fgs_ok_step i fg fg' al d w :
  fgs_ok w -> fgs w !! i = Some fg -> index fg' = index fg -> good al (word d) fg' ->
  (forall j fj, j <> i -> fgs w !! j = Some fj -> good al (word d) fj) ->
  length al = length (allocation w) ->
  (forall c x, al !! c = Some x -> x = -1 \/ channel fg' = Z.of_nat c \/
     exists j fj, j <> i /\ fgs w !! j = Some fj /\ channel fj = Z.of_nat c) ->
  fgs_ok (mkFgWorld d (alter (fun _ => fg') i (fgs w)) al (fw_loop w) (fw_now w)
            (fw_caller w) (front w) (fw_out w)).
Proof.
  intros [H1 H2 H3 H4] Hi Hidx Hgood Hothers Hlen Halloc.
  assert (alter (fun _ => fg') i (fgs w) !! i = Some fg') as Hnew by (by rewrite list_lookup_alter_eq, Hi).
  assert (forall j fj, alter (fun _ => fg') i (fgs w) !! j = Some fj ->
            (j = i /\ fj = fg') \/ (j <> i /\ fgs w !! j = Some fj)) as Hback.
  { intros j fj Hj. destruct (decide (i = j)) as [<-|Hne]; [left|right].
    - rewrite Hnew in Hj. by injection Hj as <-.
    - rewrite list_lookup_alter_ne in Hj by done. done. }
  split; cbn.
  - intros j fj Hj. destruct (Hback j fj Hj) as [[-> ->]|[Hne Hj']]; [done|]. by apply (Hothers j).
  - intros j k fj fk Hj Hk E.
    destruct (Hback j fj Hj) as [[-> ->]|[Hne Hj']], (Hback k fk Hk) as [[-> ->]|[Hne' Hk']]; [done|..].
    + apply (H2 i k fg fk); congruence.
    + apply (H2 j i fj fg); congruence.
    + by apply (H2 j k fj fk).
  - congruence.
  - intros c x Hx. destruct (Halloc c x Hx) as [?|[?|(j & fj & Hne & Hj & Hc)]]; [by left|right|right].
    + by exists i, fg'.
    + exists j, fj. by rewrite list_lookup_alter_ne.
Qed.

Lemma fgs_ok_update i fg fg' w :
  fgs_ok w -> fgs w !! i = Some fg -> good (allocation w) (memory w) fg' ->
  index fg' = index fg -> channel fg' = channel fg ->
  fgs_ok (mkFgWorld (fw_dev w) (alter (fun _ => fg') i (fgs w)) (allocation w) (fw_loop w) (fw_now w)
            (fw_caller w) (front w) (fw_out w)).
Proof.
  intros Hok Hi Hgood Hidx Hch. apply (fgs_ok_step i fg); try done.
  - intros j fj _ Hj. by apply (inv_fgs w Hok j).
  - intros c x Hx. destruct (inv_allocated w Hok c x Hx) as [?|(j & fj & Hj & Hc)]; [by left|right].
    destruct (decide (j = i)) as [->|]; [left; congruence|right; eauto].
Qed.

(** Two generators never share a channel. *)
Lemma channels_apart w i j fi fj :
  fgs_ok w -> fgs w !! i = Some fi -> fgs w !! j = Some fj -> channel fi <> -1 -> channel fi = channel fj -> i = j.
Proof.
  intros Hok Hi Hj Hc E. apply (inv_index w Hok i j fi fj Hi Hj).
  destruct (g_channel _ _ _ _ _ _ (inv_fgs w Hok i fi Hi)) as [?|(c & Ec & Hal)]; [done|].
  destruct (g_channel _ _ _ _ _ _ (inv_fgs w Hok j fj Hj)) as [?|(c' & Ec' & Hal')]; [lia|].
  assert (c = c') as <- by lia. congruence.
Qed.

Lemma alter_at i (f : FunctionGeneratorImpl -> FunctionGeneratorImpl) (l : list FunctionGeneratorImpl) fg :
  l !! i = Some fg -> alter f i l = alter (fun _ => f fg) i l.
Proof.
  intros Hi. apply list_eq. intros j. destruct (decide (i = j)) as [<-|Hne].
  - by rewrite !list_lookup_alter_eq, Hi.
  - by rewrite !list_lookup_alter_ne.
Qed.

Lemma triple_on_fg i fg m f :
  (forall al, good al m fg -> good al m (f fg)) -> index (f fg) = index fg -> channel (f fg) = channel fg ->
  triple (at_fg i fg m) (on_fg i f) (fun _ => at_fg i (f fg) m) fgs_ok.
Proof.
  intros Hg Hx Hc w (Hok & Hi & Hm). unfold on_fg, on_fgs, modify. rewrite (alter_at i f _ fg Hi).
  split; [|split; [cbn; by rewrite list_lookup_alter_eq, Hi|done]].
  apply (fgs_ok_update i fg); try done. rewrite Hm. apply Hg. rewrite <- Hm. by apply (inv_fgs w Hok i).
Qed.

(** ** Device accesses that do not touch the shared memory *)
Definition quiet {A} (p : M D A) : Prop := forall d,
  match p d with
  | (Crash _, _) => False
  | (_, d') => consumed fgb num_channels buffer_size (word d) (word d')
  end.

Lemma consumed_refl m : consumed fgb num_channels buffer_size m m.
Proof.
  intros c Hc. split; [done|]. split; [done|]. exists 0.
  pose proof (used_range fgb num_channels buffer_size Hlay m c). rewrite Z.add_0_r. split; [lia|done].
Qed.

Lemma consumed_trans m1 m2 m3 :
  consumed fgb num_channels buffer_size m1 m2 -> consumed fgb num_channels buffer_size m2 m3 ->
  consumed fgb num_channels buffer_size m1 m3.
Proof.
  intros H12 H23 c Hc. destruct (used_consumed fgb num_channels buffer_size Hlay m1 m2 c Hc H12) as [Hu1 Hr1].
  destruct (used_consumed fgb num_channels buffer_size Hlay m2 m3 c Hc H23) as [Hu2 Hr2].
  destruct (H12 c Hc) as (Hw1 & Hs1 & _). destruct (H23 c Hc) as (Hw2 & Hs2 & _).
  split; [congruence|]. split; [intros; rewrite Hs2, Hs1; done|].
  exists (used fgb buffer_size m1 c - used fgb buffer_size m3 c). split; [lia|].
  rewrite Hr2, <- Zplus_mod_idemp_l, Hr1, Zplus_mod_idemp_l. f_equal. lia.
Qed.

Lemma quiet_ret {A} (a : A) : quiet (mret a).
Proof. intros d. apply consumed_refl. Qed.
Lemma quiet_bind {A B} (p : M D A) (k : A -> M D B) : quiet p -> (forall a, quiet (k a)) -> quiet (p ≫= k).
Proof.
  intros Hp Hk d. specialize (Hp d). unfold mbind, M_bind. destruct (p d) as [[a|e|why] d1]; [|done..].
  specialize (Hk a d1). destruct (k a d1) as [[b|e|why] d2]; [by eapply consumed_trans..|done].
Qed.
Lemma quiet_cycle ops :
  (forall a, shared fgb num_channels buffer_size a -> last_write a ops = None) -> quiet (cycle ops).
Proof.
  intros Hops d. unfold cycle. destruct (bus_cycle ops d) as [[rs d']|] eqn:E; [|apply consumed_refl].
  destruct (fg_cycle ops d rs d' E) as (m & Hm & Hd & _).
  apply (consumed_ext fgb num_channels buffer_size Hlay _ m); [|done].
  intros a Ha. by rewrite Hd, Hops.
Qed.
Lemma quiet_read a : quiet (dev_read a).
Proof.
  pose proof (fg_busok (D := D) (eca := eca) (mailbox := mailbox)) as Hbus.
  intros d. pose proof (quiet_cycle [BusR a] (fun _ _ => eq_refl) d) as Hq.
  pose proof (fun why d2 => dev_read_no_crash a d why d2) as Hn.
  unfold dev_read in *. unfold mbind, M_bind in *. destruct (cycle [BusR a] d) as [[rs|e|why] d1]; [|done..].
  destruct rs as [|v [|]]; try done; exfalso; by eapply Hn.
Qed.
Lemma quiet_write a v : ~ shared fgb num_channels buffer_size a -> quiet (dev_write a v).
Proof.
  intros Ha. apply quiet_bind; [|intros; apply quiet_ret]. apply quiet_cycle. intros b Hb. cbn.
  destruct (Z.eqb_spec b a) as [->|]; done.
Qed.
Lemma quiet_time fuel : quiet (ReadRawCurrentTime eca fuel).
Proof.
  induction fuel as [|fuel IH]; [apply quiet_ret|]. apply quiet_bind; [by apply quiet_cycle|].
  intros rs. destruct (_ =? _); [apply quiet_ret|done].
Qed.

Lemma fgs_ok_consumed w d :
  fgs_ok w -> consumed fgb num_channels buffer_size (memory w) (word d) ->
  fgs_ok (mkFgWorld d (fgs w) (allocation w) (fw_loop w) (fw_now w) (fw_caller w) (front w) (fw_out w)).
Proof.
  intros Hok Hd. pose proof Hok as [H1 H2 H3 H4]. split; cbn; try done. intros i fg Hi.
  pose proof (channel_range w i fg Hok Hi) as Hr. destruct (H1 i fg Hi). split; try done.
  intros Hc. unfold memory; cbn. eapply ring_consumed; [done|by apply Hr|done|auto].
Qed.

Lemma triple_quiet {A} i fg (p : M D A) :
  quiet p -> triple (at_any i fg) (on_dev p) (fun _ => at_any i fg) fgs_ok.
Proof.
  intros Hp w [Hok Hi]. unfold on_dev, zoom. specialize (Hp (fw_dev w)).
  destruct (p (fw_dev w)) as [[a|e|why] d]; [|by apply fgs_ok_consumed|done].
  split; [by apply fgs_ok_consumed|done].
Qed.

Lemma triple_read_time i fg : triple (at_any i fg) (read_time eca time_fuel) (fun _ => at_any i fg) fgs_ok.
Proof.
  intros w Hw. pose proof (triple_quiet i fg _ (quiet_time time_fuel) w Hw) as Hq. unfold read_time.
  unfold mbind, M_bind. pose proof (fg_time (mailbox := mailbox) (fw_dev w)) as Ht. unfold on_dev, zoom in *.
  destruct (ReadRawCurrentTime eca time_fuel (fw_dev w)) as [[[t|]|e|why] d]; try done. by destruct (Ht d).
Qed.

Lemma triple_use_slot i fg v : triple (at_any i fg) (use_slot mailbox fg v) (fun _ => at_any i fg) fgs_ok.
Proof.
  intros w Hw. refine (triple_quiet i fg _ _ w Hw). apply quiet_write, (fg_mailbox (eca := eca)).
  destruct Hw as [Hok Hi]. by destruct (inv_fgs w Hok i fg Hi).
Qed.

(** ** [refill] *)
Lemma pop_completed_spec q : forall n level k,
  Forall tuple_ok q -> 0 <= n -> level = u64 (total q) -> Z.min n (Z.of_nat (length q)) <= k < 2 ^ 32 ->
  let j := Z.to_nat (Z.min n (Z.of_nat (length q))) in
  pop_completed n level k q = Ret (u64 (total (drop j q)), k - Z.of_nat j, drop j q).
Proof.
  induction q as [|t q IH]; intros n level k Hq Hn Hl Hk; cbn zeta.
  - cbn. rewrite Z.min_r by lia. cbn. subst level. repeat f_equal. lia.
  - apply Forall_cons in Hq as [Ht Hq]. cbn [pop_completed]. destruct (Z.leb_spec n 0).
    + rewrite Z.min_l by (cbn; lia). replace n with 0 by lia. cbn. subst level. repeat f_equal. lia.
    + destruct (duration_ok t Ht) as (d & Ed & Hd). rewrite Ed. cbn [length] in *.
      assert (u64 (level - d) = u64 (total q)) as ->.
      { subst level. unfold total. cbn. rewrite Ed. cbn. rewrite unsigned_wrap_sub_l. f_equal. unfold total. lia. }
      rewrite (unsigned_wrap_small 32 (k - 1)) by lia.
      rewrite (IH (n - 1) _ (k - 1) Hq) by (try done; lia).
      replace (Z.to_nat (Z.min n (Z.of_nat (S (length q)))))
        with (S (Z.to_nat (Z.min (n - 1) (Z.of_nat (length q))))) by lia.
      cbn [drop]. rewrite Nat2Z.inj_succ. do 3 f_equal. lia.
Qed.

(** What [refill] makes of a generator: [k] records are done, [n] more are in
    the ring buffer, which holds as many as fit. *)
Definition refilled (n : Z) fg fg' : Prop :=
  exists k : nat, Z.of_nat k <= filled fg /\ filled fg' = filled fg - Z.of_nat k + n /\
    fg' = set_data (u64 (total (drop k (fifo fg))))
            (Z.min (Z.of_nat (length (drop k (fifo fg)))) (buffer_size - 1)) (drop k (fifo fg)) fg.

Lemma good_set_data al m fg k n :
  good al m fg -> channel fg <> -1 -> 0 <= n ->
  let fg' := set_data (u64 (total (drop k (fifo fg)))) n (drop k (fifo fg)) fg in
  the_ring m fg' -> good al m fg'.
Proof.
  intros [H1 H2 H3 H4 H5 H6 H7 H8 H9 H10 H11 H12 H13 H14] Hc Hn fg' Hr. unfold fg'. split; cbn; try done.
  - by apply Forall_drop.
  - rewrite length_drop. lia.
  - rewrite length_drop. lia.
Qed.

(** The first part: what was taken leaves the queue. *)
Lemma ring_popped m fg :
  channel fg <> -1 -> the_ring m fg ->
  let r := used fgb buffer_size m (channel fg) in
  let k := Z.to_nat (filled fg - r) in
  the_ring m (set_data (u64 (total (drop k (fifo fg)))) r (drop k (fifo fg)) fg).
Proof.
  intros Hc [Hu Hf Hrec] r k. pose proof (used_range fgb num_channels buffer_size Hlay m (channel fg)) as Hr.
  fold r in Hu, Hrec, Hr. split; cbn; fold r; [lia|rewrite length_drop; unfold k; lia|].
  replace (Z.to_nat (r - r)) with 0%nat by lia. rewrite drop_0, take_drop_commute.
  replace (k + Z.to_nat r)%nat with (Z.to_nat (filled fg)) by (unfold k; lia). done.
Qed.

Definition at_start (first : bool) fg m : Prop :=
  first = true -> m (reg fgb (channel fg) FG_WPTR) mod buffer_size = 0 /\
                  m (reg fgb (channel fg) FG_RPTR) mod buffer_size = 0.

Lemma triple_read_offsets i fg m0 first :
  channel fg <> -1 ->
  triple (fun w => at_fg i fg m0 w /\ at_start first fg m0)
    (read_offsets (shm fgb + FG_REGS_BASE (channel fg)) first)
    (fun p w => exists m, (at_fg i fg m w /\ advanced fgb buffer_size m0 m (channel fg) 0) /\
       p.1 mod buffer_size = m (reg fgb (channel fg) FG_WPTR) mod buffer_size /\
       p.2 mod buffer_size = m (reg fgb (channel fg) FG_RPTR) mod buffer_size) fgs_ok.
Proof.
  intros Hc w [Hw0 Hs]. pose proof Hw0 as (Hok0 & Hi0 & Hm0).
  assert (at_any i fg w) as Hw by done. pose proof (channel_range w i fg Hok0 Hi0 Hc) as Hr.
  unfold read_offsets. destruct first.
  - destruct (Hs eq_refl) as [H1 H2]. exists m0.
    split; [split; [done|apply (advanced_consumed _ num_channels); [done|done|apply consumed_refl]]|]. cbn. rewrite H1, H2. split; apply Z.mod_0_l; destruct Hlay; lia.
  - set (ops := [BusR _; BusR _]).
    pose proof (triple_quiet i fg (cycle ops) (quiet_cycle ops (fun _ _ => eq_refl)) w Hw) as Hq.
    pose proof (quiet_cycle ops (fun _ _ => eq_refl) (fw_dev w)) as Hcons.
    unfold mbind, M_bind, on_dev, zoom, cycle in *.
    destruct (bus_cycle ops (fw_dev w)) as [[rs d]|] eqn:E; [|done]. cbn. exists (word d).
    destruct (fg_cycle ops _ rs d E) as (m & _ & Hd & Hreads).
    assert (Forall is_read ops) as Hread by (repeat constructor).
    specialize (Hreads Hread).
    assert (forall a, shared fgb num_channels buffer_size a -> word d a = m a) as Hdm.
    { intros a Ha. by rewrite Hd, last_write_reads. }
    assert (shared fgb num_channels buffer_size (reg fgb (channel fg) FG_WPTR)) as SW
      by (apply reg_shared; [done|done|unfold FG_WPTR, FG_REGS_SIZE; lia]).
    assert (shared fgb num_channels buffer_size (reg fgb (channel fg) FG_RPTR)) as SR
      by (apply reg_shared; [done|done|unfold FG_RPTR, FG_REGS_SIZE; lia]).
    inversion Hreads as [|? v1 ? rs1 R1 Hreads1 Eo]; subst. inversion Hreads1 as [|? v2 ? rs2 R2 Hreads2]; subst.
    split; [split|].
    { destruct Hq. split; [done|split; done]. }
    { apply (advanced_consumed _ num_channels); [done|done|exact Hcons]. }
    cbn.
    by rewrite (R1 _ eq_refl SW), (R2 _ eq_refl SR), !Hdm.
Qed.

(** The second cycle, with the update of [filled]. *)
Lemma triple_write_records i fg m ts wo level :
  let r := filled fg in
  let n := Z.of_nat (length ts) in
  channel fg <> -1 -> r = used fgb buffer_size m (channel fg) ->
  wo = m (reg fgb (channel fg) FG_WPTR) mod buffer_size ->
  r + n < buffer_size -> r + n <= Z.of_nat (length (fifo fg)) ->
  ts = take (length ts) (drop (Z.to_nat r) (fifo fg)) -> level = fillLevel fg ->
  triple (at_fg i fg m)
    (_ ← on_dev (cycle (records_ops fgb num_channels buffer_size (channel fg) wo ts ++
       [BusW (shm fgb + FG_REGS_BASE (channel fg) + FG_WPTR) (wrapping_add wo n buffer_size)]));
     on_fg i (set_data level (u32 (r + n)) (fifo fg)))
    (fun _ w => at_any i (set_data level (r + n) (fifo fg) fg) w /\
       advanced fgb buffer_size m (memory w) (channel fg) n) fgs_ok.
Proof.
  intros r n Hc Hr Hwo Hsp Hlen Hts -> w (Hok & Hi & Hm).
  pose proof (channel_range w i fg Hok Hi Hc) as Hrange.
  pose proof (inv_fgs w Hok i fg Hi) as Hgood. rewrite Hm in Hgood.
  pose proof (g_ring _ _ _ _ _ _ Hgood Hc) as Hring. pose proof (g_filled _ _ _ _ _ _ Hgood) as Hfill.
  destruct (buffer_bound fgb num_channels buffer_size Hlay _ Hrange) as [Hbb _].
  unfold mbind, M_bind, on_dev, zoom, cycle.
  destruct (bus_cycle _ (fw_dev w)) as [[rs d]|] eqn:E; [|apply fgs_ok_consumed; [done|apply consumed_refl]].
  destruct (fg_cycle _ _ rs d E) as (m2 & Hcons & Hd & _). unfold memory in Hm. rewrite Hm in Hcons.
  rewrite (unsigned_wrap_small 32 (r + n)) by (unfold r in *; lia).
  unfold on_fg, on_fgs, modify. cbn. rewrite (alter_at i _ _ fg Hi).
  split; [split; [|cbn; by rewrite list_lookup_alter_eq, Hi]|].
  2: by apply (refilled_advanced fgb num_channels buffer_size Hlay m m2 (word d) fg ts wo).
  apply (fgs_ok_step i fg (set_data (fillLevel fg) (r + n) (fifo fg) fg)); try done.
  - destruct Hgood. split; cbn; try done; [unfold r, n in *; lia|]. intros _.
    by apply (refilled_ring fgb num_channels buffer_size Hlay m m2 (word d) fg ts wo).
  - intros j fj Hne Hj. pose proof (inv_fgs w Hok j fj Hj) as Hgj. unfold memory in Hgj. rewrite Hm in Hgj.
    pose proof (channel_range w j fj Hok Hj) as Hrj.
    destruct Hgj. split; try done. intros Hcj.
    apply (ring_other fgb num_channels buffer_size Hlay m m2 (word d) fg ts wo); auto.
    intros Ech. apply Hne. symmetry. by apply (channels_apart w i j fg fj).
  - intros c x Hx. destruct (inv_allocated w Hok c x Hx) as [?|(j & fj & Hj & Hcj)]; [by left|right].
    destruct (decide (j = i)) as [->|]; [left; cbn; congruence|right; eauto].
Qed.

Lemma triple_assert_pure (P : FgWorld D -> Prop) b why :
  b = true -> triple P (massert b why) (fun _ => P) fgs_ok.
Proof. intros ->. by intros w Hw. Qed.

Lemma triple_any {A} i fg (p : M (FgWorld D) A) Q :
  (forall m, triple (at_fg i fg m) p Q fgs_ok) -> triple (at_any i fg) p Q fgs_ok.
Proof. intros Hp w Hw. apply (Hp (memory w)). by apply at_fg_any. Qed.

(** The second part of [refill], with the numbers it computes. *)
Lemma triple_refill_rest i fg m wo :
  channel fg <> -1 -> filled fg = used fgb buffer_size m (channel fg) ->
  wo = m (reg fgb (channel fg) FG_WPTR) mod buffer_size ->
  let r := filled fg in
  let todo := u32 (Z.of_nat (length (fifo fg)) - r) in
  let space := u32 (buffer_size - 1 - r) in
  let refill := Z.min todo space in
  let ts := take (Z.to_nat refill) (drop (Z.to_nat r) (fifo fg)) in
  triple (at_fg i fg m)
    (massert (Z.of_nat (length ts) =? refill) "fifo[filled+i]";;
     _ ← on_dev (cycle (records_ops fgb num_channels buffer_size (channel fg) wo ts ++
       [BusW (shm fgb + FG_REGS_BASE (channel fg) + FG_WPTR) (wrapping_add wo refill buffer_size)]));
     on_fg i (set_data (fillLevel fg) (u32 (r + refill)) (fifo fg)))
    (fun _ w => at_any i (set_data (fillLevel fg) (Z.min (Z.of_nat (length (fifo fg))) (buffer_size - 1)) (fifo fg) fg) w /\
       exists n, Z.min (Z.of_nat (length (fifo fg))) (buffer_size - 1) = filled fg + n /\
         advanced fgb buffer_size m (memory w) (channel fg) n)
    fgs_ok.
Proof.
  intros Hc Hr Hwo r todo space refill ts w Hw. pose proof Hw as (Hok & Hi & Hm).
  pose proof (channel_range w i fg Hok Hi Hc) as Hrange.
  pose proof (inv_fgs w Hok i fg Hi) as Hgood. rewrite Hm in Hgood.
  destruct (g_ring _ _ _ _ _ _ Hgood Hc) as [_ [Hf Hf'] _]. pose proof (g_filled _ _ _ _ _ _ Hgood) as Hfill.
  pose proof (g_length _ _ _ _ _ _ Hgood) as Hlen.
  destruct (buffer_bound fgb num_channels buffer_size Hlay _ Hrange) as [Hbb _].
  assert (todo = Z.of_nat (length (fifo fg)) - r) as Etodo by (apply unsigned_wrap_small; unfold r; lia).
  assert (space = buffer_size - 1 - r) as Espace by (apply unsigned_wrap_small; unfold r; lia).
  assert (Z.of_nat (length ts) = refill) as Ets.
  { unfold ts. rewrite length_take, length_drop. unfold refill in *. lia. }
  assert (ts = take (length ts) (drop (Z.to_nat r) (fifo fg))) as Ets'.
  { unfold ts. rewrite length_take. f_equal. rewrite length_drop. unfold refill in *. lia. }
  assert (r + refill = Z.min (Z.of_nat (length (fifo fg))) (buffer_size - 1)) as Esum by (unfold refill; lia).
  rewrite <- Ets, Z.eqb_refl. cbn [massert]. rewrite (run_bind_ret (mret tt) _ w tt w) by done.
  rewrite <- Esum, <- Ets.
  eassert (triple (at_fg i fg m) _ _ _) as Ht by (apply (triple_write_records i fg m ts wo (fillLevel fg)); try done; unfold r in *; lia).
  eapply triple_post in Ht; [by apply Ht|]. intros [] w' [H1 H2]. split; [done|]. by exists (Z.of_nat (length ts)).
Qed.

Lemma triple_get_at {A} (P : FgWorld D -> Prop) i fg (k : FunctionGeneratorImpl -> M (FgWorld D) A) Q :
  (forall w, P w -> fgs w !! i = Some fg) -> triple P (k fg) Q fgs_ok -> triple P (get_fg i ≫= k) Q fgs_ok.
Proof.
  intros Hi Hk w Hw. rewrite (run_bind_ret (get_fg i) _ w fg w) by (unfold get_fg; by rewrite (Hi w Hw)).
  by apply Hk.
Qed.

Lemma triple_assert_step {A} (P : FgWorld D -> Prop) b why (k : M (FgWorld D) A) Q :
  (forall w, P w -> b = true) -> triple P k Q fgs_ok -> triple P (massert b why;; k) Q fgs_ok.
Proof. intros Hb Hk w Hw. rewrite (Hb w Hw). rewrite (run_bind_ret (massert true why) _ w tt w) by done. by apply Hk. Qed.

Lemma triple_facts {A} i fg m (p : M (FgWorld D) A) Q :
  (forall al, good al m fg -> (channel fg <> -1 -> 0 <= channel fg < num_channels) ->
     triple (at_fg i fg m) p Q fgs_ok) ->
  triple (at_fg i fg m) p Q fgs_ok.
Proof.
  intros Hp w Hw. pose proof Hw as (Hok & Hi & Hm). apply (Hp (allocation w)); [|by apply (channel_range w i)|done].
  rewrite <- Hm. by apply (inv_fgs w Hok i).
Qed.

(** The driver's queue and the microcontroller's ring buffer agree after a
    refill, and the assertion on the way holds. *)
Lemma triple_refill i fg m0 first :
  channel fg <> -1 ->
  triple (fun w => at_fg i fg m0 w /\ at_start first fg m0)
    (refill fgb num_channels buffer_size i first)
    (fun _ w => exists fg' n, at_any i fg' w /\ refilled n fg fg' /\
       advanced fgb buffer_size m0 (memory w) (channel fg) n) fgs_ok.
Proof.
  intros Hc. unfold refill. apply (triple_get_at _ i fg); [by intros w [(_ & Hi & _) _]|].
  apply triple_assert_step; [intros; by rewrite (proj2 (Z.eqb_neq _ _))|].
  eapply triple_bind; [by apply triple_read_offsets|]. intros [wd rd]. apply triple_ex. intros m.
  apply triple_pure. cbn [fst snd]. intros [Hwd Hrd]. apply triple_pure. intros Hadv.
  apply triple_assert_step; [intros; apply negb_true_iff, Z.eqb_neq; destruct Hlay; lia|]. cbv zeta.
  rewrite Hwd, Hrd. apply triple_facts. intros al Hgood Hrange. specialize (Hrange Hc).
  pose proof (g_ring _ _ _ _ _ _ Hgood Hc) as Hring. pose proof Hring as [Hu [Hf Hf'] _].
  pose proof (g_filled _ _ _ _ _ _ Hgood) as Hfill.
  destruct (buffer_bound fgb num_channels buffer_size Hlay _ Hrange) as [Hbb _].
  pose proof (used_range fgb num_channels buffer_size Hlay m (channel fg)) as Hur.
  assert (0 < buffer_size /\ buffer_size <= 2 ^ 32) as [Hb0 Hb1] by (destruct Hlay; lia).
  rewrite wrapping_sub_mod by (try done; by apply Z.mod_pos_bound).
  rewrite <- Zminus_mod. fold (used fgb buffer_size m (channel fg)).
  set (r := used fgb buffer_size m (channel fg)) in *.
  rewrite (unsigned_wrap_small 32 (filled fg - r)) by lia.
  pose proof (pop_completed_spec (fifo fg) (filled fg - r) (fillLevel fg) (filled fg)
    (g_queue _ _ _ _ _ _ Hgood) ltac:(lia) (g_level _ _ _ _ _ _ Hgood) ltac:(lia)) as Hpop. cbv zeta in Hpop.
  rewrite Hpop, Z.min_l by lia. set (k := Z.to_nat (filled fg - r)).
  replace (filled fg - Z.of_nat k) with r by (unfold k; lia).
  set (fg1 := set_data (u64 (total (drop k (fifo fg)))) r (drop k (fifo fg)) fg).
  assert (good al m fg1) as Hgood1.
  { apply good_set_data; [done|done|lia|]. by apply ring_popped. }
  eapply (triple_bind _ _ (fun x w => at_fg i fg m w /\ x = (u64 (total (drop k (fifo fg))), r, drop k (fifo fg)))); [by intros w Hw|].
  intros x. apply triple_pure. intros ->. cbv iota beta.
  eapply triple_bind; [apply (triple_on_fg i fg m (set_data _ _ _)); try done|].
  { intros al' Hg. apply good_set_data; [done|done|lia|]. by apply ring_popped. }
  intros []. eapply (triple_bind _ _ (fun _ => at_fg i fg1 m)).
  { destruct (lowFill buffer_size _ && _); [apply triple_emit|by apply triple_ret]. }
  intros []. apply triple_assert_step; [intros; by rewrite Z.eqb_refl|].
  eapply triple_post; [apply (triple_refill_rest i fg1 m (m (reg fgb (channel fg) FG_WPTR) mod buffer_size)); done|].
  intros [] w (Hw & n & Hn & Hadv'). eexists _, n. split; [exact Hw|].
  split; [|by apply (advanced_trans fgb buffer_size m0 m)]. exists k. split; [unfold k; lia|]. split; [|done].
  cbn in Hn |- *. rewrite Hn. unfold k. lia.
Qed.

(** ** Channels *)
Lemma ring_same m m' fg :
  0 <= channel fg < num_channels ->
  m' (reg fgb (channel fg) FG_WPTR) = m (reg fgb (channel fg) FG_WPTR) ->
  m' (reg fgb (channel fg) FG_RPTR) = m (reg fgb (channel fg) FG_RPTR) ->
  (forall k o, 0 <= k < buffer_size -> is_offset o ->
     m' (slot_word fgb num_channels buffer_size (channel fg) k o) =
     m (slot_word fgb num_channels buffer_size (channel fg) k o)) ->
  the_ring m fg -> the_ring m' fg.
Proof.
  intros Hc EW ER Hs [Hu Hf Hrec].
  assert (used fgb buffer_size m' (channel fg) = used fgb buffer_size m (channel fg)) as EU
    by (unfold used; by rewrite EW, ER).
  split; [by rewrite EU|done|]. rewrite EU, ER. intros k t Hk. destruct (Hrec k t Hk) as (H1 & H2 & H3).
  assert (0 <= (m (reg fgb (channel fg) FG_RPTR) + Z.of_nat k) mod buffer_size < buffer_size)
    by (destruct Hlay; apply Z.mod_pos_bound; lia).
  split; [|split]; rewrite Hs; try done; unfold is_offset; tauto.
Qed.

Definition acquire_ops (c slot idx tag : Z) : list bus_op :=
  let regs := shm fgb + FG_REGS_BASE c in
  [BusW (regs + FG_WPTR) 0; BusW (regs + FG_RPTR) 0; BusW (regs + FG_MBX_SLOT) slot;
   BusW (regs + FG_MACRO_NUM) idx; BusW (regs + FG_RAMP_COUNT) 0; BusW (regs + FG_TAG) tag].

Lemma acquire_miss c slot idx tag a :
  (forall r, 0 <= r < FG_REGS_SIZE -> a <> reg fgb c r) -> last_write a (acquire_ops c slot idx tag) = None.
Proof.
  intros Ha. unfold acquire_ops. cbn -[Z.add Z.eqb FG_REGS_BASE].
  rewrite !(proj2 (Z.eqb_neq _ _)); [done|..]; apply Ha; unfold FG_REGS_SIZE, FG_WPTR, FG_RPTR, FG_MBX_SLOT,
    FG_MACRO_NUM, FG_RAMP_COUNT, FG_TAG; lia.
Qed.

Lemma acquire_pointers c slot idx tag :
  last_write (reg fgb c FG_WPTR) (acquire_ops c slot idx tag) = Some 0 /\
  last_write (reg fgb c FG_RPTR) (acquire_ops c slot idx tag) = Some 0.
Proof.
  unfold acquire_ops, reg. cbn -[Z.add Z.eqb FG_REGS_BASE].
  unfold FG_WPTR, FG_RPTR, FG_MBX_SLOT, FG_MACRO_NUM, FG_RAMP_COUNT, FG_TAG.
  rewrite !Z.eqb_refl. by repeat rewrite (proj2 (Z.eqb_neq _ _)) by lia.
Qed.

(** The rings of the other channels after the writes of [acquireChannel]. *)
Lemma acquire_other m m' c slot idx tag fg :
  0 <= channel fg < num_channels -> 0 <= c < num_channels -> channel fg <> c ->
  (forall a, shared fgb num_channels buffer_size a ->
     m' a = default (m a) (last_write a (acquire_ops c slot idx tag))) ->
  the_ring m fg -> the_ring m' fg.
Proof.
  intros Hc Hc' Hne Hm'. apply ring_same; [done|..].
  - rewrite Hm' by (apply reg_shared; [done|done|unfold FG_WPTR, FG_REGS_SIZE; lia]).
    rewrite acquire_miss; [done|]. intros r Hr E. by apply reg_inj in E as [? _].
  - rewrite Hm' by (apply reg_shared; [done|done|unfold FG_RPTR, FG_REGS_SIZE; lia]).
    rewrite acquire_miss; [done|]. intros r Hr E. by apply reg_inj in E as [? _].
  - intros k o Hk Ho. destruct (slot_word_above fgb num_channels buffer_size Hlay _ k o Hc Hk Ho) as [Hab Hsh].
    rewrite Hm', acquire_miss; [done| |done]. intros r Hr E. pose proof (reg_below fgb num_channels c r Hc' Hr). lia.
Qed.

(** What is good stays good when the allocation of another channel changes. *)
Lemma good_frame al al' m m' fg :
  good al m fg -> (forall c, channel fg = Z.of_nat c -> al' !! c = al !! c) ->
  (channel fg <> -1 -> the_ring m fg -> the_ring m' fg) -> good al' m' fg.
Proof.
  intros [H1 H2 H3 H4 H5 H6 H7 H8 H9 H10 H11 H12 H13 H14] Hal Hr. split; auto.
  destruct H7 as [?|(c & Ec & Hc)]; [by left|right]. exists c. by rewrite Hal.
Qed.

Lemma acquired_good al m m' fg c :
  good al m fg -> channel fg = -1 -> al !! c = Some (-1) ->
  m' (reg fgb (Z.of_nat c) FG_WPTR) = 0 -> m' (reg fgb (Z.of_nat c) FG_RPTR) = 0 ->
  good (<[c:=index fg]> al) m' (set_channel (Z.of_nat c) true fg).
Proof.
  intros Hgood Hch Hx HW HR. pose proof (g_idle _ _ _ _ _ _ Hgood Hch) as Hidle.
  destruct Hgood as [G1 G2 G3 G4 G5 G6 G7 G8 G9 G10 G11 G12 G13 G14]. split; cbn; try done.
  - by rewrite (proj2 (Z.eqb_neq _ _)) by lia.
  - right. exists c. split; [done|]. apply list_lookup_insert_eq. by eapply lookup_lt_Some.
  - intros _. assert (used fgb buffer_size m' (Z.of_nat c) = 0) as EU.
    { unfold used. rewrite HW, HR. apply Z.mod_0_l. destruct Hlay. lia. }
    split; cbn; rewrite ?EU, ?Hidle; [lia|destruct Hlay; lia|]. intros k t Hk. by destruct k.
Qed.

(** A free channel is not the channel of any generator. *)
Lemma free_not_used w c j fj :
  fgs_ok w -> allocation w !! c = Some (-1) -> fgs w !! j = Some fj -> channel fj <> Z.of_nat c.
Proof.
  intros Hok Hx Hj Ec. pose proof (inv_fgs w Hok j fj Hj) as Hgj.
  destruct (g_channel _ _ _ _ _ _ Hgj) as [?|(c' & Ec' & Hal)]; [lia|].
  assert (c = c') as <- by lia. pose proof (g_index _ _ _ _ _ _ Hgj). rewrite Hx in Hal. inversion Hal. lia.
Qed.

Lemma acquired_others w d m2 c slot idx tag j fj :
  fgs_ok w -> allocation w !! c = Some (-1) -> 0 <= Z.of_nat c < num_channels ->
  consumed fgb num_channels buffer_size (memory w) m2 ->
  (forall a, shared fgb num_channels buffer_size a ->
     word d a = default (m2 a) (last_write a (acquire_ops (Z.of_nat c) slot idx tag))) ->
  fgs w !! j = Some fj -> good (<[c:=idx]> (allocation w)) (word d) fj.
Proof.
  intros Hok Hx Hc Hcons Hd Hj. pose proof (free_not_used w c j fj Hok Hx Hj) as Hne.
  apply (good_frame (allocation w) _ (memory w)); [by apply (inv_fgs w Hok j)|..].
  - intros c' Ec'. rewrite list_lookup_insert_ne; [done|]. intros <-. by apply Hne.
  - intros Hcj Hrj. pose proof (channel_range w j fj Hok Hj Hcj) as Hrange.
    apply (ring_consumed fgb num_channels buffer_size Hlay _ m2) in Hrj; [|done|done].
    by apply (acquire_other m2 _ (Z.of_nat c) slot idx tag).
Qed.

Lemma triple_acquire i fg :
  channel fg = -1 ->
  triple (at_any i fg) (acquireChannel fgb i)
    (fun _ w => exists c m, c <> -1 /\ at_fg i (set_channel c true fg) m w /\
                 at_start true (set_channel c true fg) m) fgs_ok.
Proof.
  intros Hch w [Hok Hi]. unfold acquireChannel.
  rewrite (run_bind_ret (get_fg i) _ w fg w) by (unfold get_fg; by rewrite Hi).
  rewrite Hch. rewrite (run_bind_ret (massert _ _) _ w tt w) by done.
  rewrite (run_bind_ret (gets _) _ w (allocation w) w) by done.
  pose proof (inv_fgs w Hok i fg Hi) as Hgood. destruct (g_host _ _ _ _ _ _ Hgood) as [slot Eslot].
  destruct (list_find _ (allocation w)) as [[c x]|] eqn:Efind; [|exact Hok].
  apply list_find_Some in Efind as (Hx & -> & _). rewrite Eslot.
  assert (0 <= Z.of_nat c < num_channels) as Hc.
  { rewrite <- (inv_length w Hok). apply lookup_lt_Some in Hx. lia. }
  fold (acquire_ops (Z.of_nat c) slot (index fg) (startTag fg)).
  unfold on_dev, zoom, cycle, mbind at 1, M_bind at 1.
  destruct (bus_cycle _ (fw_dev w)) as [[rs d]|] eqn:E; [|apply fgs_ok_consumed; [done|apply consumed_refl]].
  destruct (fg_cycle _ _ rs d E) as (m2 & Hcons & Hd & _).
  set (fg' := set_channel (Z.of_nat c) true fg).
  set (w' := mkFgWorld d (alter (fun _ => fg') i (fgs w)) (<[c:=index fg]> (allocation w)) (fw_loop w)
               (fw_now w) (fw_caller w) (front w) (fw_out w)).
  destruct (acquire_pointers (Z.of_nat c) slot (index fg) (startTag fg)) as [EW ER].
  assert (word d (reg fgb (Z.of_nat c) FG_WPTR) = 0) as HW.
  { rewrite Hd, EW; [done|]. apply reg_shared; [done|done|unfold FG_WPTR, FG_REGS_SIZE; lia]. }
  assert (word d (reg fgb (Z.of_nat c) FG_RPTR) = 0) as HR.
  { rewrite Hd, ER; [done|]. apply reg_shared; [done|done|unfold FG_RPTR, FG_REGS_SIZE; lia]. }
  assert (at_fg i fg' (word d) w') as Hat.
  { split; [|split; [cbn; by rewrite list_lookup_alter_eq, Hi|done]]. apply (fgs_ok_step i fg fg'); try done.
    - by apply (acquired_good (allocation w) (memory w)).
    - intros j fj _ Hj. by apply (acquired_others w d m2 c slot (index fg) (startTag fg) j).
    - apply length_insert.
    - intros c' x Hx'. destruct (decide (c = c')) as [<-|Hne]; [right; by left|].
      rewrite list_lookup_insert_ne in Hx' by done.
      destruct (inv_allocated w Hok c' x Hx') as [?|(j & fj & Hj & Hcj)]; [by left|right; right].
      exists j, fj. split; [|done]. intros ->. rewrite Hi in Hj. inversion Hj; subst fj. lia. }
  assert (forall k : M (FgWorld D) unit, (on_allocation (fun al => <[c:=index fg]> al);;
     on_fg i (set_channel (Z.of_nat c) true);; k)
     (mkFgWorld d (fgs w) (allocation w) (fw_loop w) (fw_now w) (fw_caller w) (front w) (fw_out w)) = k w') as ->.
  { intros k. unfold w', on_fg, on_fgs, on_allocation, modify, mbind, M_bind. cbn. by rewrite (alter_at i _ _ fg Hi). }
  pose proof (triple_emit i fg' (word d) (signal_enabled true) w' Hat) as Hem.
  destruct (emit i (signal_enabled true) w') as [[[]|e|why] w2]; [|done..].
  exists (Z.of_nat c), (word d). split; [lia|]. split; [done|]. intros _. cbn. rewrite HW, HR.
  split; apply Z.mod_0_l; destruct Hlay; lia.
Qed.
End Driver.
