(* ===== verification/FunctionGenRuns.v ===== *)
(** * Function generators: arbitrary sequences of calls and interrupts

    The operations of [FunctionGen], one after the other, in any order: calls of
    clients, interrupts with any message, timeouts, and the firmware that takes
    records.  The invariant of [FunctionGenCorrect] is kept, so no assertion
    fails; a timer only runs for an enabled generator. *)
From S2P Require Import Prelude Bus Loop LoopCorrect Owned EcaHw EcaOps FunctionGen FunctionGenCorrect.
Local Open Scope Z_scope.

(** ** What the operations keep *)
Section Frame.
Context {D : Type} `{!Bus D}.
Context (eca mailbox fgb num_channels buffer_size : Z) (time_fuel : nat).
Implicit Types (w : FgWorld D) (fg : FunctionGeneratorImpl).

(** Updates that leave the timer alone and do not disable. *)
Definition plain (f : FunctionGeneratorImpl -> FunctionGeneratorImpl) : Prop :=
  forall fg, resetTimeout (f fg) = resetTimeout fg /\ (enabled fg = true -> enabled (f fg) = true).

(** [Q] speaks of the generators, the loop and the front, and plain updates of generator [i]
    keep it. *)
Record stable (i : nat) (Q : FgWorld D -> Prop) : Prop := {
  st_core : forall w w', fgs w' = fgs w -> fw_loop w' = fw_loop w -> front w' = front w -> Q w -> Q w';
  st_fg : forall f w fg, fgs w !! i = Some fg -> resetTimeout (f fg) = resetTimeout fg ->
    (enabled fg = true -> enabled (f fg) = true) -> Q w -> Q (on_fg i f w).2
}.

Context (i : nat) (Q : FgWorld D -> Prop) (HQ : stable i Q).

Lemma keeps_same {A} (m : M (FgWorld D) A) :
  (forall w, fgs (m w).2 = fgs w /\ fw_loop (m w).2 = fw_loop w /\ front (m w).2 = front w) -> keeps Q m.
Proof. intros Hm w Hw. destruct (Hm w) as (? & ? & ?). by apply (st_core i Q HQ w). Qed.
Lemma keeps_on_dev {A} (p : M D A) : keeps Q (on_dev p).
Proof. apply keeps_same. intros w. unfold on_dev, zoom. by destruct (p (fw_dev w)). Qed.
Lemma keeps_get_fg : keeps Q (get_fg i).
Proof. apply keeps_same. intros w. unfold get_fg. by destruct (fgs w !! i). Qed.
Lemma keeps_send_out o : keeps Q (send_out o).
Proof. by apply keeps_same. Qed.
Lemma keeps_of_outcome {A} (o : outcome A) : keeps Q (of_outcome o).
Proof. by apply keeps_same. Qed.
Lemma keeps_on_allocation f : keeps Q (on_allocation f).
Proof. by apply keeps_same. Qed.
Lemma keeps_throw_if b e : keeps Q (throw_if b e).
Proof. apply keeps_if; [apply keeps_throw|apply keeps_ret]. Qed.
Lemma keeps_massert b why : keeps Q (massert b why).
Proof. apply keeps_if; [apply keeps_ret|apply keeps_crash]. Qed.
Lemma keeps_get : keeps Q get.
Proof. by apply keeps_same. Qed.
Lemma on_fg_nobody f w : fgs w !! i = None -> fgs (on_fg i f w).2 = fgs w.
Proof.
  intros Hi. cbn. apply list_eq. intros j. destruct (decide (i = j)) as [<-|Hne].
  - by rewrite list_lookup_alter_eq, Hi.
  - by rewrite list_lookup_alter_ne.
Qed.
Lemma keeps_on_fg f : plain f -> keeps Q (on_fg i f).
Proof.
  intros Hf w Hw. destruct (fgs w !! i) as [fg|] eqn:Hi.
  - by apply (st_fg i Q HQ f w fg); [|apply Hf..|].
  - apply (st_core i Q HQ w); [by apply on_fg_nobody|done|done|done].
Qed.

#[local] Hint Resolve keeps_on_dev keeps_get_fg keeps_send_out keeps_of_outcome keeps_on_allocation
  keeps_throw_if keeps_massert keeps_get keeps_on_fg keeps_ret keeps_throw keeps_gets keeps_crash : core.
Local Ltac frame :=
  cbv zeta; repeat first
    [ solve [auto]
    | apply keeps_bind; [|intros ?]
    | apply keeps_if
    | apply keeps_try_catch; [|intros ?]
    | match goal with |- keeps _ (match ?x with _ => _ end) => destruct x end
    | progress cbv zeta ].

Lemma keeps_on_master ms s : keeps Q (on_master ms i s).
Proof. unfold on_master. frame. Qed.
Lemma keeps_emit s : keeps Q (emit i s).
Proof. unfold emit. frame; apply keeps_on_master. Qed.
#[local] Hint Resolve keeps_emit : core.

Lemma plain_set_data l n q : plain (set_data l n q).
Proof. by intros fg. Qed.
#[local] Hint Resolve plain_set_data : core.

Lemma keeps_refill first : keeps Q (refill fgb num_channels buffer_size i first).
Proof. unfold refill, read_offsets. frame. Qed.
#[local] Hint Resolve keeps_refill : core.

Lemma keeps_acquire : keeps Q (acquireChannel fgb i).
Proof. unfold acquireChannel. frame. apply keeps_on_fg. by intros fg. Qed.

Lemma keeps_flush : keeps Q (flush i).
Proof. unfold flush. frame. apply keeps_on_fg. by intros fg. Qed.

Lemma keeps_use_slot fg v : keeps Q (use_slot mailbox fg v).
Proof. apply keeps_on_dev. Qed.
#[local] Hint Resolve keeps_acquire keeps_flush keeps_use_slot : core.

Lemma keeps_arm : keeps Q (arm mailbox fgb num_channels buffer_size i).
Proof. unfold arm. frame. apply keeps_on_fg. by intros fg. Qed.

Lemma keeps_setStartTag v : keeps Q (setStartTag i v).
Proof. unfold setStartTag. frame. apply keeps_on_fg. by intros fg. Qed.

Lemma keeps_read_time : keeps Q (read_time eca time_fuel).
Proof. unfold read_time. frame. Qed.
Lemma keeps_read_executed : keeps Q (ReadExecutedParameterCount fgb i).
Proof. unfold ReadExecutedParameterCount. frame. Qed.

(** Appending sets the members that it computed before. *)
Lemma push_tuples_plain ts : forall fg fg',
  push_tuples ts fg = Ret fg' -> resetTimeout fg' = resetTimeout fg /\ enabled fg' = enabled fg.
Proof.
  induction ts as [|t ts IH]; intros fg fg'; cbn; [by intros [= ->]|].
  unfold push_tuple. destruct (duration t); [|done..]. intros H. apply IH in H. by destruct H.
Qed.

Lemma keeps_append_tuples ts : keeps Q (appendParameterTuples fgb num_channels buffer_size i ts).
Proof.
  unfold appendParameterTuples. intros w Hw. destruct (fgs w !! i) as [fg|] eqn:Hi.
  2: { unfold mbind, M_bind, get_fg at 1. by rewrite Hi. }
  rewrite (run_bind_ret (get_fg i) _ w fg w) by (unfold get_fg; by rewrite Hi).
  destruct (push_tuples ts fg) as [fg'|e|why] eqn:Hp; [|exact Hw..].
  apply push_tuples_plain in Hp as [Ht He]. rewrite (run_bind_ret (of_outcome _) _ w fg' w) by done.
  pose proof (st_fg i Q HQ (fun _ => fg') w fg Hi Ht (eq_trans He) Hw) as Hw'.
  rewrite (run_bind_ret (on_fg i _) _ w tt _ eq_refl).
  match goal with |- Q (?m _).2 => assert (keeps Q m) as Hk end; [frame|by apply Hk].
Qed.

#[local] Hint Resolve keeps_append_tuples keeps_read_time keeps_read_executed : core.

Lemma keeps_append a b c st fr sa sb :
  keeps Q (appendParameterSet fgb num_channels buffer_size i a b c st fr sa sb).
Proof. unfold appendParameterSet. frame. Qed.

(** If [Q] does not look at generator [i] nor at the loop, all operations on [i]
    keep it. *)
Record blind : Prop := {
  bl_core : forall w w', fgs w' = fgs w -> front w' = front w -> Q w -> Q w';
  bl_fg : forall f w, Q w -> Q (on_fg i f w).2
}.
Section Blind.
Context (HB : blind).
Lemma keeps_blind_on_fg f : keeps Q (on_fg i f).
Proof. intros w Hw. by apply (bl_fg HB). Qed.
Lemma keeps_blind_timers {A} (f : Loop nat -> A * Loop nat) : keeps Q (on_fg_timers f).
Proof. intros w Hw. unfold on_fg_timers. destruct (f (fw_loop w)). by apply (bl_core HB w). Qed.
#[local] Hint Resolve keeps_blind_on_fg keeps_blind_timers : core.
Lemma keeps_blind_release : keeps Q (releaseChannel mailbox i).
Proof. unfold releaseChannel. frame. Qed.
Lemma keeps_blind_Reset rnd : keeps Q (Reset mailbox i rnd).
Proof. unfold Reset. frame. Qed.
End Blind.

(** [releaseChannel] and [Reset] touch the timer: the conditions on them are
    discharged for each [Q]. *)
Context (Hrelease : keeps Q (releaseChannel mailbox i)).
#[local] Hint Resolve Hrelease : core.

Lemma keeps_irq msi : keeps Q (irq_handler eca mailbox fgb num_channels buffer_size time_fuel i msi).
Proof.
  unfold irq_handler, irq_armed, irq_disarmed, irq_start, irq_stop.
  frame; apply keeps_on_fg; by intros ?.
Qed.

Lemma keeps_ResetFailed : keeps Q (ResetFailed eca mailbox time_fuel i).
Proof.
  unfold ResetFailed. frame; apply keeps_on_fg; by intros ?.
Qed.
End Frame.

(** ** Channels are given back *)
Section Runs.
Context {D : Type} `{!Bus D} `{!FgMemory D}.
Context (eca mailbox fgb num_channels buffer_size : Z) (time_fuel : nat).
Context `{!FgDevice D eca mailbox fgb num_channels buffer_size time_fuel}.
Context (Hlay : layout_ok num_channels buffer_size).
Local Abbreviation good := (fg_good num_channels buffer_size fgb).
Local Abbreviation ok := (fgs_ok fgb num_channels buffer_size).
Local Abbreviation at_any := (at_any fgb num_channels buffer_size).
Implicit Types (w : FgWorld D) (fg : FunctionGeneratorImpl) (m : Z -> Z).

(** What does not depend on the channel. *)
Record fg_core fg : Prop := {
  core_index : 0 <= index fg;
  core_slot : 0 <= mb_slot fg < 128;
  core_host : is_Some (host_slot fg);
  core_queue : Forall tuple_ok (fifo fg);
  core_level : fillLevel fg = u64 (total (fifo fg));
  core_length : Z.of_nat (length (fifo fg)) < 2 ^ 32;
  core_capacity : 0 < fifo_capacity fg /\ Z.of_nat (length (fifo fg)) <= fifo_capacity fg
}.

Lemma good_core al m fg : good al m fg -> fg_core fg.
Proof. intros []. by split. Qed.

(** The invariant without the ring buffer of generator [i], which has a channel. *)
Record almost (i : nat) fg w : Prop := {
  al_fg : fgs w !! i = Some fg;
  al_core : fg_core fg;
  al_others : forall j fj, j <> i -> fgs w !! j = Some fj -> good (allocation w) (memory w) fj;
  al_index : forall j k fj fk, fgs w !! j = Some fj -> fgs w !! k = Some fk -> index fj = index fk -> j = k;
  al_length : Z.of_nat (length (allocation w)) = num_channels;
  al_allocated : forall c x, allocation w !! c = Some x ->
    x = -1 \/ exists j fj, fgs w !! j = Some fj /\ channel fj = Z.of_nat c;
  al_channel : exists c, channel fg = Z.of_nat c /\ allocation w !! c = Some (index fg)
}.

Lemma at_any_almost i fg w : channel fg <> -1 -> at_any i fg w -> almost i fg w.
Proof.
  intros Hc [Hok Hi]. pose proof Hok as [H1 H2 H3 H4]. pose proof (H1 i fg Hi) as Hg. split; try done.
  - by eapply good_core.
  - intros j fj _ Hj. by apply (H1 j).
  - by destruct (g_channel _ _ _ _ _ _ Hg).
Qed.

Lemma almost_core i fg w w' : same_core w w' -> almost i fg w -> almost i fg w'.
Proof.
  intros (E1 & E2 & E3) [H1 H2 H3 H4 H5 H6 H7]. split; rewrite ?E1, ?E2; try done.
  unfold memory in *. by rewrite E3.
Qed.

Lemma almost_other_range i fg w j fj :
  almost i fg w -> j <> i -> fgs w !! j = Some fj -> channel fj <> -1 -> 0 <= channel fj < num_channels.
Proof.
  intros Hw Hne Hj Hc. destruct (g_channel _ _ _ _ _ _ (al_others i fg w Hw j fj Hne Hj)) as [?|(c & -> & Hal)]; [done|].
  rewrite <- (al_length i fg w Hw). apply lookup_lt_Some in Hal. lia.
Qed.

Lemma almost_consumed i fg w d :
  almost i fg w -> consumed fgb num_channels buffer_size (memory w) (word d) ->
  almost i fg (mkFgWorld d (fgs w) (allocation w) (fw_loop w) (fw_now w) (fw_caller w) (front w) (fw_out w)).
Proof.
  intros Hw Hd. pose proof Hw as [H1 H2 H3 H4 H5 H6 H7]. split; cbn; try done.
  intros j fj Hne Hj. pose proof (almost_other_range i fg w j fj Hw Hne Hj) as Hr.
  destruct (H3 j fj Hne Hj). split; try done.
  intros Hc. unfold memory; cbn. eapply ring_consumed; [done|by apply Hr|done|auto].
Qed.

(** Two predicates on the state before [releaseChannel]: both are kept by what
    does not concern the generators. *)
Record frame_ok (i : nat) fg (P : FgWorld D -> Prop) : Prop := {
  fr_almost : forall w, P w -> almost i fg w;
  fr_core : forall w w', same_core w w' -> P w -> P w';
  fr_consumed : forall w d, P w -> consumed fgb num_channels buffer_size (memory w) (word d) ->
    P (mkFgWorld d (fgs w) (allocation w) (fw_loop w) (fw_now w) (fw_caller w) (front w) (fw_out w))
}.

Lemma frame_at_any i fg : channel fg <> -1 -> frame_ok i fg (at_any i fg).
Proof.
  intros Hc. split.
  - intros w. by apply at_any_almost.
  - intros w w' Hs Hw. apply at_fg_any. destruct Hs as (E1 & E2 & E3) eqn:E. clear E.
    assert (memory w' = memory w) as -> by (unfold memory; by rewrite E3).
    eapply at_fg_core; [by split|]. by apply at_fg_any.
  - intros w d [Hok Hi] Hd. split; [by apply fgs_ok_consumed|done].
Qed.
Lemma frame_almost i fg : frame_ok i fg (almost i fg).
Proof. split; [done|apply almost_core|apply almost_consumed]. Qed.

Section Framed.
Context (i : nat) (fg : FunctionGeneratorImpl) (P E : FgWorld D -> Prop) (HP : frame_ok i fg P).
Context (HE : forall w, P w -> E w).

Lemma framed_core {A} (p : M (FgWorld D) A) :
  (forall w, P w -> match p w with (Crash _, _) => False | (_, w') => same_core w w' end) ->
  triple P p (fun _ => P) E.
Proof.
  intros Hp w Hw. specialize (Hp w Hw).
  destruct (p w) as [[a|e|why] w']; [by eapply (fr_core _ _ _ HP)|by eapply HE, (fr_core _ _ _ HP)|done].
Qed.
Lemma framed_emit s : triple P (emit i s) (fun _ => P) E.
Proof. apply framed_core. intros w Hw. apply emit_core. rewrite (al_fg _ _ _ (fr_almost _ _ _ HP w Hw)). done. Qed.
Lemma framed_timers {A} (f : Loop nat -> A * Loop nat) : triple P (on_fg_timers f) (fun _ => P) E.
Proof. apply framed_core. intros w _. unfold on_fg_timers. by destruct (f (fw_loop w)). Qed.
Lemma framed_get (k : FunctionGeneratorImpl -> M (FgWorld D) unit) Q :
  triple P (k fg) Q E -> triple P (get_fg i ≫= k) Q E.
Proof.
  intros Hk w Hw. rewrite (run_bind_ret (get_fg i) _ w fg w); [by apply Hk|].
  unfold get_fg. by rewrite (al_fg _ _ _ (fr_almost _ _ _ HP w Hw)).
Qed.
Lemma framed_quiet {A} (p : M D A) :
  quiet fgb num_channels buffer_size p -> triple P (on_dev p) (fun _ => P) E.
Proof.
  intros Hp w Hw. unfold on_dev, zoom. specialize (Hp (fw_dev w)).
  destruct (p (fw_dev w)) as [[a|e|why] d]; [|apply HE|done]; by apply (fr_consumed _ _ _ HP).
Qed.
Lemma framed_use_slot v : triple P (use_slot mailbox fg v) (fun _ => P) E.
Proof.
  intros w Hw. refine (framed_quiet _ _ w Hw). apply (@quiet_write D _ _ eca mailbox fgb num_channels buffer_size time_fuel _ Hlay), (fg_mailbox (eca := eca)).
  apply (core_slot fg), (al_core i fg w), (fr_almost _ _ _ HP w Hw).
Qed.
Lemma framed_read_time : triple P (read_time eca time_fuel) (fun _ => P) E.
Proof.
  intros w Hw. pose proof (framed_quiet _ (@quiet_time D _ _ eca mailbox fgb num_channels buffer_size time_fuel _ Hlay time_fuel) w Hw) as Hq.
  unfold read_time, mbind, M_bind. pose proof (fg_time (mailbox := mailbox) (fw_dev w)) as Ht. unfold on_dev, zoom in *.
  destruct (ReadRawCurrentTime eca time_fuel (fw_dev w)) as [[[t|]|e|why] d]; try done. by destruct (Ht d).
Qed.
End Framed.

(** ** The same operations in a state that satisfies the whole invariant *)
Lemma ok_core w w' : same_core w w' -> ok w -> ok w'.
Proof.
  intros (E1 & E2 & E3) [H1 H2 H3 H4]. split; unfold memory in *; rewrite ?E1, ?E2, ?E3; done.
Qed.
Lemma any_core i fg w w' : same_core w w' -> at_any i fg w -> at_any i fg w'.
Proof. intros Hs [Hok Hi]. split; [by eapply ok_core|]. destruct Hs as (-> & _). done. Qed.

Lemma any_triple_core {A} i fg (p : M (FgWorld D) A) :
  (forall w, at_any i fg w -> match p w with (Crash _, _) => False | (_, w') => same_core w w' end) ->
  triple (at_any i fg) p (fun _ => at_any i fg) ok.
Proof.
  intros Hp w Hw. specialize (Hp w Hw).
  destruct (p w) as [[a|e|why] w']; [by eapply any_core|eapply ok_core; [done|apply Hw]|done].
Qed.
Lemma any_emit i fg s : triple (at_any i fg) (emit i s) (fun _ => at_any i fg) ok.
Proof. apply any_triple_core. intros w [_ Hi]. apply emit_core. by rewrite Hi. Qed.
Lemma any_timers {A} i fg (f : Loop nat -> A * Loop nat) :
  triple (at_any i fg) (on_fg_timers f) (fun _ => at_any i fg) ok.
Proof. apply any_triple_core. intros w _. unfold on_fg_timers. by destruct (f (fw_loop w)). Qed.
Lemma any_get {A} i fg (k : FunctionGeneratorImpl -> M (FgWorld D) A) Q E :
  triple (at_any i fg) (k fg) Q E -> triple (at_any i fg) (get_fg i ≫= k) Q E.
Proof.
  intros Hk w Hw. rewrite (run_bind_ret (get_fg i) _ w fg w); [by apply Hk|].
  unfold get_fg. by rewrite (proj2 Hw).
Qed.
Lemma any_on_fg i fg f :
  (forall al m, good al m fg -> good al m (f fg)) -> index (f fg) = index fg -> channel (f fg) = channel fg ->
  triple (at_any i fg) (on_fg i f) (fun _ => at_any i (f fg)) ok.
Proof.
  intros Hg Hx Hc w Hw. pose proof (triple_on_fg fgb num_channels buffer_size i fg (memory w) f
    (fun al => Hg al _) Hx Hc w (proj1 (at_fg_any _ _ _ _ _ _) Hw)) as Ht. destruct Ht as (? & ? & _). by split.
Qed.
Lemma any_facts {A} i fg (p : M (FgWorld D) A) Q E :
  (forall al m, good al m fg -> triple (at_any i fg) p Q E) -> triple (at_any i fg) p Q E.
Proof. intros Hp w Hw. apply (Hp (allocation w) (memory w)); [|done].
  by apply (inv_fgs _ _ _ w (proj1 Hw) i), Hw. Qed.
Lemma any_assert {A} (P : FgWorld D -> Prop) b why (k : M (FgWorld D) A) Q E :
  b = true -> triple P k Q E -> triple P (massert b why;; k) Q E.
Proof. intros -> Hk w Hw. rewrite (run_bind_ret (massert true why) _ w tt w) by done. by apply Hk. Qed.

Lemma any_check {A} (P : FgWorld D -> Prop) b e (k : M (FgWorld D) A) Q E :
  (b = true -> forall w, P w -> E w) -> (b = false -> triple P k Q E) -> triple P (throw_if b e;; k) Q E.
Proof.
  intros He Hk w Hw. destruct b; [exact (He eq_refl w Hw)|].
  rewrite (run_bind_ret (throw_if false e) _ w tt w) by done. by apply Hk.
Qed.

(** ** [releaseChannel] *)
Definition released fg : FunctionGeneratorImpl :=
  let fg' := set_channel (-1) false (set_data (fillLevel fg) 0 (fifo fg) fg) in
  if abort fg then set_data 0 0 [] fg' else fg'.

Lemma core_idle al m fg :
  fg_core fg -> channel fg = -1 -> enabled fg = false -> armed fg = false -> fg_running fg = false ->
  filled fg = 0 -> good al m fg.
Proof.
  intros [H1 H2 H3 H4 H5 H6 H7] Hc He Ha Hr Hf. split; try done; [by rewrite Hc|by rewrite Ha, Hr|by rewrite Ha|by left|lia].
Qed.

Lemma free_channel i fg w :
  almost i fg w -> armed fg = false -> fg_running fg = false ->
  at_any i (set_channel (-1) false (set_data (fillLevel fg) 0 (fifo fg) fg))
    ((on_allocation (fun al => <[Z.to_nat (channel fg) := -1]> al);;
      on_fg i (fun fg => set_channel (-1) false (set_data (fillLevel fg) 0 (fifo fg) fg))) w).2.
Proof.
  intros Hw Ha Hr. set (fg' := set_channel _ _ _). pose proof Hw as [H1 H2 H3 H4 H5 H6 (c & Ec & Hal)].
  unfold on_allocation, on_fg, on_fgs, modify, mbind, M_bind. cbn. rewrite (alter_at i _ _ fg H1). fold fg'.
  rewrite Ec, Nat2Z.id.
  split; [|cbn; by rewrite list_lookup_alter_eq, H1].
  assert (forall j fj, alter (fun _ => fg') i (fgs w) !! j = Some fj ->
            (j = i /\ fj = fg') \/ (j <> i /\ fgs w !! j = Some fj)) as Hback.
  { intros j fj Hj. destruct (decide (i = j)) as [<-|Hne]; [left|right].
    - rewrite list_lookup_alter_eq, H1 in Hj. by injection Hj as <-.
    - rewrite list_lookup_alter_ne in Hj by done. done. }
  assert (forall c' x, <[c:=-1]> (allocation w) !! c' = Some x -> x = -1 \/ c' <> c /\ allocation w !! c' = Some x) as Hins.
  { intros c' x Hx. destruct (decide (c = c')) as [<-|Hne].
    - rewrite list_lookup_insert_eq in Hx by (by eapply lookup_lt_Some). left. congruence.
    - rewrite list_lookup_insert_ne in Hx by done. by right. }
  split; cbn; [|intros j k fj fk Hj Hk E| |].
  - intros j fj Hj. destruct (Hback j fj Hj) as [[-> ->]|[Hne Hj']].
    + apply core_idle; try done. by destruct H2.
    + apply (good_frame fgb num_channels buffer_size (allocation w) _ (memory w)); [by apply (H3 j)| |done].
      intros c' Ec'. apply list_lookup_insert_ne. intros <-.
      apply Hne, (H4 j i fj fg Hj' H1). destruct (g_channel _ _ _ _ _ _ (H3 j fj Hne Hj')) as [?|(c2 & E2 & Hal2)]; [lia|].
      assert (c2 = c) as -> by lia. congruence.
  - destruct (Hback j fj Hj) as [[-> ->]|[Hne Hj']], (Hback k fk Hk) as [[-> ->]|[Hne' Hk']]; [done|..].
    + by apply (H4 i k fg fk).
    + by apply (H4 j i fj fg).
    + by apply (H4 j k fj fk).
  - by rewrite length_insert.
  - intros c' x Hx. destruct (Hins c' x Hx) as [?|[Hne Hx']]; [by left|].
    destruct (H6 c' x Hx') as [?|(j & fj & Hj & Hcj)]; [by left|right]. exists j, fj. split; [|done].
    rewrite list_lookup_alter_ne; [done|]. intros <-. rewrite H1 in Hj. inversion Hj; subst fj. lia.
Qed.

Lemma triple_release i fg (P E : FgWorld D -> Prop) :
  frame_ok i fg P -> (forall w, P w -> E w) -> (forall w, ok w -> E w) ->
  armed fg = false -> fg_running fg = false ->
  triple P (releaseChannel mailbox i) (fun _ => at_any i (released fg)) E.
Proof.
  intros HP HE Hok Ha Hr. unfold releaseChannel. apply (framed_get i fg P E HP).
  apply (triple_pre _ _ (fun w => P w /\ channel fg <> -1)).
  { intros w Hw. split; [done|]. destruct (al_channel i fg w (fr_almost _ _ _ HP w Hw)) as (c & -> & _). lia. }
  apply triple_pure. intros Hc. apply any_assert; [by apply negb_true_iff, Z.eqb_neq|].
  eapply triple_bind; [by apply (framed_timers i fg P E)|]. intros [].
  eapply (triple_bind _ _ (fun _ => P)).
  { destruct (abort fg); [by apply (framed_use_slot i fg)|by apply triple_ret]. }
  intros []. set (fg1 := set_channel (-1) false (set_data (fillLevel fg) 0 (fifo fg) fg)).
  assert (triple (at_any i fg1) (emit i (signal_enabled false);; if abort fg then flush i else mret tt)
            (fun _ => at_any i (released fg)) E) as Hrest.
  { eapply triple_exn; [|exact Hok]. eapply triple_bind; [apply any_emit|]. intros [].
    unfold released. fold fg1. destruct (abort fg); [|by apply triple_ret].
    unfold flush. apply any_get. apply any_check; [done|]. intros _. apply any_assert; [done|].
    apply (any_on_fg i fg1 (fun fg => set_data 0 (filled fg) [] fg)); try done.
    intros al m Hg. destruct (good_core _ _ _ Hg). apply core_idle; try done. split; cbn in *; try done. lia. }
  intros w Hw. pose proof (free_channel i fg w (fr_almost _ _ _ HP w Hw) Ha Hr) as Hfree. fold fg1 in Hfree.
  rewrite (run_bind_ret (on_allocation _) _ w tt _ eq_refl), (run_bind_ret (on_fg i _) _ _ tt _ eq_refl).
  exact (Hrest _ Hfree).
Qed.

(** ** Interrupts *)
Lemma any_quiet {A} i fg (p : M D A) :
  quiet fgb num_channels buffer_size p -> triple (at_any i fg) (on_dev p) (fun _ => at_any i fg) ok.
Proof. intros Hp. by apply (triple_quiet fgb num_channels buffer_size Hlay). Qed.
Lemma quiet_word a : quiet fgb num_channels buffer_size (dev_read a : M D Z).
Proof. by apply (@quiet_read D _ _ eca mailbox fgb num_channels buffer_size time_fuel). Qed.
Lemma any_use_slot i fg v : triple (at_any i fg) (use_slot mailbox fg v) (fun _ => at_any i fg) ok.
Proof. by apply (@triple_use_slot D _ _ eca mailbox fgb num_channels buffer_size time_fuel). Qed.
Lemma any_read_time i fg : triple (at_any i fg) (read_time eca time_fuel) (fun _ => at_any i fg) ok.
Proof. by apply (@triple_read_time D _ _ eca mailbox fgb num_channels buffer_size time_fuel). Qed.
Lemma any_refill i fg :
  channel fg <> -1 ->
  triple (at_any i fg) (refill fgb num_channels buffer_size i false)
    (fun _ w => exists fg' n, at_any i fg' w /\ refilled buffer_size n fg fg') ok.
Proof.
  intros Hc w Hw. eapply triple_post with (s := w);
    [apply (@triple_refill D _ _ eca mailbox fgb num_channels buffer_size time_fuel _ Hlay i fg (memory w) false Hc)| |].
  - intros [] w' (fg' & n & H1 & H2 & _). by exists fg', n.
  - split; [|done]. by apply at_fg_any.
Qed.

(** An update of members that the invariant does not speak of. *)
Local Ltac good_same :=
  intros ? ? [? ? ? ? ? ? ? ? ? ? ? ? ? Hring]; split; try done;
  intros Hch; destruct (Hring Hch); by split.

(** Flags of a generator with a channel. *)
Lemma good_flags al m fg a r :
  good al m fg -> channel fg <> -1 -> a && r = false -> good al m (set_flags a r fg).
Proof.
  intros [H1 H2 H3 H4 H5 H6 H7 H8 H9 H10 H11 H12 H13 H14] Hc Har. split; cbn; try done.
  - by rewrite H4, (proj2 (Z.eqb_neq _ _)).
  - intros _. destruct (H14 Hc). by split.
Qed.
Lemma any_flags i fg a r f :
  channel fg <> -1 -> a && r = false -> f fg = set_flags a r fg ->
  triple (at_any i fg) (on_fg i f) (fun _ => at_any i (set_flags a r fg)) ok.
Proof.
  intros Hc Har Hf. rewrite <- Hf. apply any_on_fg; try (by rewrite Hf). intros al m Hg. rewrite Hf. by apply good_flags.
Qed.

Lemma any_release i fg :
  channel fg <> -1 -> armed fg = false -> fg_running fg = false ->
  triple (at_any i fg) (releaseChannel mailbox i) (fun _ => at_any i (released fg)) ok.
Proof. intros Hc Ha Hr. apply triple_release; try done; [by apply frame_at_any|by intros w []]. Qed.

Lemma triple_irq_disarmed i fg :
  channel fg <> -1 ->
  triple (at_any i fg) (irq_disarmed mailbox i) (fun _ => at_any i (released (set_flags false false fg))) ok.
Proof.
  intros Hc. unfold irq_disarmed. eapply triple_bind; [by apply (any_flags i fg false false)|]. intros [].
  eapply triple_bind; [apply any_emit|]. intros []. by apply any_release.
Qed.

Lemma triple_irq_start i fg t :
  channel fg <> -1 ->
  triple (at_any i fg) (irq_start i t) (fun _ => at_any i (set_flags false true fg)) ok.
Proof.
  intros Hc. unfold irq_start. eapply triple_bind; [by apply (any_flags i fg false true)|]. intros [].
  eapply triple_bind; [apply any_emit|]. intros []. eapply triple_bind; [apply any_emit|]. intros [].
  apply any_emit.
Qed.

Lemma almost_on_fg i fg f (E : FgWorld D -> Prop) :
  fg_core (f fg) -> index (f fg) = index fg -> channel (f fg) = channel fg ->
  triple (almost i fg) (on_fg i f) (fun _ => almost i (f fg)) E.
Proof.
  intros Hcore Hx Hc w [H1 H2 H3 H4 H5 H6 H7]. unfold on_fg, on_fgs, modify. rewrite (alter_at i f _ fg H1).
  assert (forall j fj, alter (fun _ => f fg) i (fgs w) !! j = Some fj ->
            (j = i /\ fj = f fg) \/ (j <> i /\ fgs w !! j = Some fj)) as Hback.
  { intros j fj Hj. destruct (decide (i = j)) as [<-|Hne]; [left|right].
    - rewrite list_lookup_alter_eq, H1 in Hj. by injection Hj as <-.
    - rewrite list_lookup_alter_ne in Hj by done. done. }
  split; cbn; try done.
  - by rewrite list_lookup_alter_eq, H1.
  - intros j fj Hne Hj. destruct (Hback j fj Hj) as [[-> _]|[_ Hj']]; [done|]. by apply (H3 j).
  - intros j k fj fk Hj Hk E'. destruct (Hback j fj Hj) as [[-> ->]|[Hne Hj']], (Hback k fk Hk) as [[-> ->]|[Hne' Hk']]; [done|..].
    + apply (H4 i k fg fk); congruence.
    + apply (H4 j i fj fg); congruence.
    + by apply (H4 j k fj fk).
  - intros c x Hx'. destruct (H6 c x Hx') as [?|(j & fj & Hj & Hcj)]; [by left|right].
    destruct (decide (i = j)) as [<-|Hne].
    + exists i, (f fg). rewrite list_lookup_alter_eq, H1. split; [done|]. congruence.
    + exists j, fj. by rewrite list_lookup_alter_ne.
  - rewrite Hx, Hc. done.
Qed.

Lemma almost_facts {A} i fg (p : M (FgWorld D) A) Q E :
  (fg_core fg -> triple (almost i fg) p Q E) -> triple (almost i fg) p Q E.
Proof. intros Hp w Hw. exact (Hp (al_core i fg w Hw) w Hw). Qed.

(** The queue is cleared before the channel is released: in between the number
    of records that were sent is larger than the queue. *)
Lemma triple_irq_stop i fg msi t :
  channel fg <> -1 -> armed fg = false -> fg_running fg = true ->
  triple (at_any i fg) (irq_stop mailbox fgb i msi t)
    (fun _ w => exists fg', at_any i fg' w /\ channel fg' = -1) (fun _ => True).
Proof.
  intros Hc Ha Hr. unfold irq_stop. apply any_get. cbv zeta.
  apply (triple_pre _ _ (almost i fg)); [intros w; by apply at_any_almost|].
  eapply (triple_bind _ _ (fun _ w => exists fg', almost i fg' w /\ armed fg' = false /\ fg_running fg' = true)).
  { destruct (negb (abort fg) && _ && _).
    - apply almost_facts. intros [C1 C2 C3 C4 C5 C6 C7].
      eapply triple_post; [apply (almost_on_fg i fg (fun fg => set_data 0 (filled fg) [] fg)); try done|].
      + split; cbn in *; try done. lia.
      + intros [] w Hw. by eexists.
    - apply triple_ret. eauto. }
  intros []. apply triple_ex. intros fg1. apply triple_pure. intros [Ha1 Hr1].
  pose proof (frame_almost i fg1) as HF.
  eapply (triple_bind _ _ (fun _ => almost i fg1)).
  { unfold ReadExecutedParameterCount. intros w Hw.
    rewrite (run_bind_ret (get_fg i) _ w fg1 w) by (unfold get_fg; by rewrite (al_fg _ _ _ Hw)). rewrite Hr1.
    by apply (framed_quiet i fg1 (almost i fg1) (fun _ => True) HF ltac:(done) _ (quiet_word _) w). }
  intros n. set (fg2 := set_flags (armed fg1) false (set_executed (u32 n) fg1)).
  eapply (triple_bind _ _ (fun _ => almost i fg2)).
  { apply almost_facts. intros [].
    by apply (almost_on_fg i fg1 (fun fg => set_flags (armed fg) false (set_executed (u32 n) fg))). }
  intros []. eapply triple_bind; [by apply (framed_emit i fg2 _ (fun _ => True) (frame_almost i fg2))|].
  intros []. eapply triple_bind; [by apply (framed_emit i fg2 _ (fun _ => True) (frame_almost i fg2))|].
  intros []. eapply triple_post; [by apply (triple_release i fg2 _ (fun _ => True) (frame_almost i fg2))|].
  intros [] w Hw. eexists. split; [exact Hw|]. unfold released. by destruct (abort fg2).
Qed.

(** The messages that end a run of the function generator: all others. *)
Definition stop_message (msi : Z) : bool :=
  negb (bool_decide (msi ∈ [IRQ_DAT_REFILL; IRQ_DAT_START; IRQ_DAT_ARMED; IRQ_DAT_DISARMED])).

Lemma triple_irq i fg msi :
  triple (at_any i fg) (irq_handler eca mailbox fgb num_channels buffer_size time_fuel i msi)
    (fun _ => ok) (fun w => stop_message msi = false -> ok w).
Proof.
  assert (forall A (p : M (FgWorld D) A) Q, triple (at_any i fg) p Q ok ->
    triple (at_any i fg) p Q (fun w => stop_message msi = false -> ok w)) as Hexn.
  { intros A p Q Hp. eapply triple_exn; [exact Hp|]. done. }
  unfold irq_handler. apply any_get.
  destruct (Z.eqb_spec (channel fg) (-1)) as [Hc|Hc]; [apply triple_ret; by intros w []|].
  apply any_facts. intros al m Hg. apply any_assert; [rewrite (g_enabled _ _ _ _ _ _ Hg); by apply negb_true_iff, Z.eqb_neq|].
  eapply triple_bind; [apply Hexn, any_read_time|]. intros t.
  assert (triple (at_any i fg) (mret tt : M (FgWorld D) unit) (fun _ => ok) ok) as Hnothing
    by (apply triple_ret; by intros w []).
  destruct (Z.eqb_spec msi IRQ_DAT_REFILL).
  { apply Hexn. destruct (fg_running fg); [|done].
    eapply triple_post; [by apply any_refill|]. by intros [] w (fg' & n & [] & _). }
  destruct (Z.eqb_spec msi IRQ_DAT_ARMED).
  { apply Hexn. destruct (fg_running fg || armed fg); [done|]. unfold irq_armed.
    eapply triple_bind; [by apply (any_flags i fg true false)|]. intros [].
    eapply triple_post; [apply any_emit|]. by intros [] w []. }
  destruct (Z.eqb_spec msi IRQ_DAT_DISARMED).
  { apply Hexn. destruct (_ || _); [done|]. eapply triple_post; [by apply triple_irq_disarmed|]. by intros [] w []. }
  destruct (Z.eqb_spec msi IRQ_DAT_START).
  { apply Hexn. destruct (_ || _); [done|]. eapply triple_post; [by apply triple_irq_start|]. by intros [] w []. }
  destruct (armed fg) eqn:Ea; [by apply Hexn|]. destruct (fg_running fg) eqn:Er; [|by apply Hexn].
  cbn. eapply triple_exn; [eapply triple_post; [by apply triple_irq_stop|]|].
  - by intros [] w (fg' & [] & _).
  - intros w _. unfold stop_message. rewrite bool_decide_eq_false_2; [done|].
    rewrite !elem_of_cons, elem_of_nil. tauto.
Qed.

(** ** Appending *)

(** The queue with [ts] at its end. *)
Definition extended ts fg fg' : Prop :=
  exists cap mx, 0 < cap /\ Z.of_nat (length (fifo fg ++ ts)) <= cap /\
    fg' = set_data (u64 (total (fifo fg ++ ts))) (filled fg) (fifo fg ++ ts) (set_capacity cap mx fg).

Lemma fifo_push_back_spec t fg :
  fg_core fg ->
  exists cap mx, 0 < cap /\ Z.of_nat (length (fifo fg ++ [t])) <= cap /\
    fifo_push_back t fg = set_data (fillLevel fg) (filled fg) (fifo fg ++ [t]) (set_capacity cap mx fg).
Proof.
  intros [C1 C2 C3 C4 C5 C6 [C7 C8]]. unfold fifo_push_back.
  set (cap := if _ =? _ then _ else _). exists cap.
  assert (Z.of_nat (length (fifo fg)) < cap /\ 0 < cap) as [Hlt H0].
  { unfold cap. destruct (Z.eqb_spec (Z.of_nat (length (fifo fg))) (fifo_capacity fg)); lia. }
  unfold circular_push. rewrite (proj2 (Z.eqb_neq cap 0)), (proj2 (Z.leb_gt _ _)) by lia.
  eexists. rewrite length_app. cbn [length]. split; [done|]. split; [lia|]. done.
Qed.

Lemma total_app q1 q2 : total (q1 ++ q2) = total q1 + total q2.
Proof. unfold total. rewrite fmap_app, foldr_app. induction q1 as [|t q1 IH]; cbn; [done|]. rewrite IH. lia. Qed.

Lemma push_tuples_spec ts : forall fg,
  Forall tuple_ok ts -> fg_core fg -> Z.of_nat (length (fifo fg) + length ts) < 2 ^ 32 ->
  exists fg', push_tuples ts fg = Ret fg' /\ extended ts fg fg'.
Proof.
  induction ts as [|t ts IH]; intros fg Hts Hcore Hlen.
  - exists fg. split; [done|]. destruct Hcore as [_ _ _ _ C5 _ C7]. exists (fifo_capacity fg), (fg_fifo_max_size fg).
    rewrite app_nil_r, <- C5. split; [apply C7|]. split; [apply C7|]. by destruct fg.
  - apply Forall_cons in Hts as [Ht Hts]. cbn [push_tuples]. unfold push_tuple.
    destruct (fifo_push_back_spec t fg Hcore) as (cap & mx & Hcap & Hle & ->).
    destruct (duration_ok t Ht) as (d & Ed & _). rewrite Ed. cbn [filled fillLevel fifo set_data set_capacity].
    set (fg1 := set_data _ _ _ _).
    assert (fg1 = set_data (u64 (total (fifo fg ++ [t]))) (filled fg) (fifo fg ++ [t]) (set_capacity cap mx fg)) as E1.
    { unfold fg1. rewrite (core_level fg Hcore), unsigned_wrap_add_l, total_app.
      replace (total [t]) with d by (unfold total; cbn; rewrite Ed; lia). by destruct fg. }
    cbn [length] in Hlen. assert (fg_core fg1) as Hcore1.
    { rewrite E1. destruct Hcore. split; cbn; try done; [by apply Forall_app_2; [|constructor]|rewrite length_app; cbn; lia]. }
    destruct (IH fg1 Hts Hcore1) as (fg' & E & cap' & mx' & Hcap' & Hle' & ->).
    { rewrite E1. cbn. rewrite length_app. cbn. lia. }
    eexists. split; [exact E|]. exists cap', mx'. rewrite E1 in Hle' |- *. cbn in *. rewrite <- app_assoc in *. cbn in *. done.
Qed.

Lemma extended_good al m ts fg fg' :
  Forall tuple_ok ts -> Z.of_nat (length (fifo fg) + length ts) < 2 ^ 32 ->
  extended ts fg fg' -> good al m fg -> good al m fg'.
Proof.
  intros Hts Hlen (cap & mx & Hcap & Hle & ->) [H1 H2 H3 H4 H5 H6 H7 H8 H9 H10 H11 H12 H13 H14].
  split; cbn; try done; [by apply Forall_app_2|rewrite length_app; lia|].
  intros Hc. destruct (H14 Hc) as [R1 [R2 R2'] R3]. split; cbn; try done; [rewrite length_app; lia|].
  by rewrite take_app_le by lia.
Qed.

(** What is appended comes after what is queued; records that the
    microcontroller has taken leave at the front. *)
Definition appended ts fg fg' : Prop :=
  exists k : nat, Z.of_nat k <= filled fg /\ fifo fg' = drop k (fifo fg ++ ts) /\ channel fg' = channel fg /\
    (channel fg = -1 -> filled fg' = filled fg) /\
    (channel fg <> -1 -> filled fg' = Z.min (Z.of_nat (length (fifo fg'))) (buffer_size - 1)).

Lemma triple_append_tuples i fg ts :
  Forall tuple_ok ts -> Z.of_nat (length (fifo fg) + length ts) < 2 ^ 32 ->
  triple (at_any i fg) (appendParameterTuples fgb num_channels buffer_size i ts)
    (fun low w => exists fg', at_any i fg' w /\ appended ts fg fg' /\ low = lowFill buffer_size fg') ok.
Proof.
  intros Hts Hlen. unfold appendParameterTuples. apply any_get. apply any_facts. intros al m Hg.
  destruct (push_tuples_spec ts fg Hts (good_core _ _ _ Hg) Hlen) as (fg' & Ep & Hext). rewrite Ep.
  eapply (triple_bind _ _ (fun x w => at_any i fg w /\ x = fg')); [by intros w Hw|]. intros x.
  apply triple_pure. intros ->.
  pose proof Hext as (cap & mx & _ & _ & Efg').
  eapply triple_bind.
  { apply (any_on_fg i fg (fun _ => fg')); [|by rewrite Efg'..]. intros al' m'. by apply (extended_good al' m' ts fg). }
  intros []. eapply (triple_bind _ _ (fun _ w => exists fg2, at_any i fg2 w /\ appended ts fg fg2)).
  - destruct (Z.eqb_spec (channel fg') (-1)) as [Hc|Hc]; cbn [negb].
    + apply triple_ret. intros w Hw. exists fg'. split; [done|]. exists 0%nat. rewrite drop_0.
      pose proof (g_filled _ _ _ _ _ _ Hg). rewrite Efg' in *. cbn in *. split; [done|]. by split; [|split; [|split]].
    + eapply triple_post; [by apply any_refill|]. intros [] w (fg2 & n & Hw & k & Hk & _ & ->).
      eexists. split; [exact Hw|].
      exists k. rewrite Efg' in *. cbn in *. split; [done|]. split; [done|]. by split; [|split].
  - intros []. apply triple_ex. intros fg2. apply triple_pure. intros Happ. apply any_get. apply triple_ret. eauto.
Qed.

(** The columns have the types of the arguments. *)
Record columns (a b c st fr sa sb : list Z) : Prop := {
  col_a : Forall (fun x => - 2 ^ 15 <= x < 2 ^ 15) a;
  col_b : Forall (fun x => - 2 ^ 15 <= x < 2 ^ 15) b;
  col_c : Forall (fun x => - 2 ^ 31 <= x < 2 ^ 31) c;
  col_step : Forall (fun x => 0 <= x) st;
  col_freq : Forall (fun x => 0 <= x) fr;
  col_shift_a : Forall (fun x => 0 <= x) sa;
  col_shift_b : Forall (fun x => 0 <= x) sb
}.

Lemma validated a : forall b c st fr sa sb,
  columns a b c st fr sa sb -> length b = length a -> length c = length a -> length st = length a ->
  length fr = length a -> length sa = length a -> length sb = length a ->
  validate (zip (zip (zip st fr) sa) sb) = Ret tt ->
  Forall tuple_ok (tuples a b c st fr sa sb) /\ length (tuples a b c st fr sa sb) = length a.
Proof.
  induction a as [|x a IH]; intros [|] [|] [|] [|] [|] [|] [K1 K2 K3 K4 K5 K6 K7] L1 L2 L3 L4 L5 L6 V; try done.
  cbn in V. repeat match type of V with
    | (if ?x <=? ?y then _ else _) = _ => destruct (Z.leb_spec x y); [done|]
    | (if ?x <? ?y then _ else _) = _ => destruct (Z.ltb_spec x y); [done|]
    end.
  apply Forall_cons in K1 as [], K2 as [], K3 as [], K4 as [], K5 as [], K6 as [], K7 as [].
  cbn in *. destruct (IH l l0 l1 l2 l3 l4) as [IH1 IH2]; try done; try lia. split; [|by rewrite IH2].
  constructor; [|done]. split; cbn; lia.
Qed.

Lemma validate_no_crash l : match validate l with Crash _ => False | _ => True end.
Proof.
  induction l as [|[[[st fr] sa] sb] l IH]; cbn; [done|].
  by repeat match goal with |- context [if ?b then _ else _] => destruct b end.
Qed.

Definition same_lengths (a b c st fr sa sb : list Z) : bool :=
  forallb (fun l => bool_decide (length l = length a)) [b; c; st; fr; sa; sb].
Definition rows (st fr sa sb : list Z) : list (Z * Z * Z * Z) := zip (zip (zip st fr) sa) sb.

Lemma triple_append i fg a b c st fr sa sb :
  columns a b c st fr sa sb -> Z.of_nat (length (fifo fg) + length a) < 2 ^ 32 ->
  triple (at_any i fg) (appendParameterSet fgb num_channels buffer_size i a b c st fr sa sb)
    (fun low w => exists fg', at_any i fg' w /\ appended (tuples a b c st fr sa sb) fg fg' /\
                    low = lowFill buffer_size fg') ok.
Proof.
  intros Hcol Hlen. unfold appendParameterSet.
  do 6 (apply any_check; [by intros _ w []|]; intros ?%negb_false_iff%bool_decide_eq_true).
  pose proof (validate_no_crash (rows st fr sa sb)) as Hv. fold (rows st fr sa sb).
  destruct (validate (rows st fr sa sb)) as [[]|e|why] eqn:Ev; [|by intros w []|done].
  eapply (triple_bind _ _ (fun _ => at_any i fg)); [by intros w Hw|]. intros [].
  destruct (validated a b c st fr sa sb) as [Hts Hl]; try done.
  apply triple_append_tuples; [done|]. by rewrite Hl.
Qed.

(** ** [arm] *)
Lemma triple_arm_start i fg m :
  channel fg <> -1 ->
  triple (fun w => at_fg fgb num_channels buffer_size i fg m w /\ at_start fgb buffer_size true fg m)
    (refill fgb num_channels buffer_size i true)
    (fun _ w => exists fg' n, at_any i fg' w /\ refilled buffer_size n fg fg') ok.
Proof.
  intros Hc. eapply triple_post;
    [apply (@triple_refill D _ _ eca mailbox fgb num_channels buffer_size time_fuel _ Hlay i fg m true Hc)|].
  intros [] w' (fg' & n & H1 & H2 & _). by exists fg', n.
Qed.

Lemma stable_length n i : stable i (fun w => length (fgs w) = n).
Proof.
  split.
  - by intros w w' -> _ _.
  - intros f w fg _ _ _ <-. cbn. apply length_alter.
Qed.

Lemma present n i w : length (fgs w) = n -> (i < n)%nat -> exists fg, fgs w !! i = Some fg.
Proof. intros <- Hi. by destruct (lookup_lt_is_Some_2 (fgs w) i Hi) as [fg ?]; eauto. Qed.

(** The handler of [arm]'s second part. *)
Lemma triple_disable i n e :
  (i < n)%nat ->
  triple (fun w => ok w /\ length (fgs w) = n)
    (fg ← get_fg i; use_slot mailbox fg (Z.lor SWI_DISABLE (channel fg));; throw e : M (FgWorld D) unit)
    (fun _ _ => False) ok.
Proof.
  intros Hi w [Hok Hl]. destruct (present n i w Hl Hi) as [fg Hfg].
  refine (any_get i fg _ (fun _ _ => False) ok _ w (conj Hok Hfg)).
  eapply triple_bind; [apply any_use_slot|]. intros []. apply triple_throw. by intros w' [].
Qed.

(** The generator that [acquireChannel] has given channel [c], of [n] generators. *)
Definition acquired (i n : nat) c fg m w : Prop :=
  (at_fg fgb num_channels buffer_size i (set_channel c true fg) m w /\
   at_start fgb buffer_size true (set_channel c true fg) m) /\ length (fgs w) = n.

Lemma triple_arm_acquire i n fg :
  channel fg = -1 ->
  triple (fun w => at_any i fg w /\ length (fgs w) = n) (acquireChannel fgb i)
    (fun _ w => exists c m, acquired i n c fg m w /\ c <> -1) ok.
Proof.
  intros Hc. eapply triple_post; [eapply triple_exn; [apply triple_keeps|by intros w []]|].
  - by apply (@triple_acquire D _ _ eca mailbox fgb num_channels buffer_size time_fuel _ Hlay).
  - apply keeps_acquire, stable_length.
  - intros [] w ((c & m & Hne & H1 & H2) & H3). by exists c, m.
Qed.

Lemma triple_arm_send i n c fg m :
  (i < n)%nat -> c <> -1 -> abort fg = false ->
  triple (acquired i n c fg m)
    (try_catch
      (refill fgb num_channels buffer_size i true;;
       fg ← get_fg i; use_slot mailbox fg (Z.lor SWI_ENABLE (channel fg)))
      (fun e => fg ← get_fg i; use_slot mailbox fg (Z.lor SWI_DISABLE (channel fg));; throw e))
    (fun _ w => exists fg', at_any i fg' w /\ channel fg' <> -1 /\ abort fg' = false) ok.
Proof.
  intros Hn Hc Hab. eapply triple_try_catch.
  2: { intros e. eapply triple_post; [by apply (triple_disable i n e)|]. done. }
  eapply (triple_bind _ _ (fun _ w => (exists fg' k, at_any i fg' w /\ refilled buffer_size k (set_channel c true fg) fg')
            /\ length (fgs w) = n)).
  - apply triple_keeps; [by apply triple_arm_start|apply (keeps_refill fgb num_channels buffer_size i), stable_length].
  - intros []. apply (triple_pre _ _ (fun w => exists fg' k, (at_any i fg' w /\ length (fgs w) = n) /\
      refilled buffer_size k (set_channel c true fg) fg')); [intros w ((fg' & k & H1 & H2) & H3); by exists fg', k|].
    apply triple_ex. intros fg'. apply triple_ex. intros j. apply triple_pure. intros (k & _ & _ & E).
    eapply (triple_post _ _ _ (fun _ w => at_any i fg' w /\ length (fgs w) = n)).
    + apply triple_keeps; [apply any_get, any_use_slot|].
      apply keeps_bind; [apply keeps_get_fg, stable_length|]. intros ?. apply (keeps_use_slot mailbox i), stable_length.
    + intros [] w [Hw _]. exists fg'. rewrite E. split; [by rewrite <- E|]. done.
Qed.

(** A generator without a channel is neither armed nor running. *)
Lemma good_disabled al m fg :
  good al m fg -> enabled fg = false -> channel fg = -1 /\ armed fg = false /\ fg_running fg = false.
Proof.
  intros Hg He. pose proof (g_active _ _ _ _ _ _ Hg) as Hact. pose proof (g_enabled _ _ _ _ _ _ Hg) as E.
  rewrite He in Hact, E. symmetry in E. apply negb_false_iff, Z.eqb_eq in E. split; [done|].
  destruct (armed fg), (fg_running fg); try done; by specialize (Hact eq_refl).
Qed.

Lemma triple_arm i fg :
  triple (at_any i fg) (arm mailbox fgb num_channels buffer_size i)
    (fun _ w => exists fg', at_any i fg' w /\ channel fg' <> -1 /\ abort fg' = false) ok.
Proof.
  unfold arm. apply any_get. apply any_check; [by intros _ w []|]. intros He.
  apply any_check; [by intros _ w []|]. intros Hf. apply any_facts. intros al m Hg.
  destruct (good_disabled _ _ _ Hg He) as (Hc & Ha & Hr).
  apply any_assert; [by rewrite Ha|]. apply any_assert; [by rewrite Hr|].
  eapply triple_bind; [apply (any_on_fg i fg (set_abort false)); try done|].
  { good_same. }
  intros []. set (fg1 := set_abort false fg).
  apply (triple_pre _ _ (fun w => exists n, (at_any i fg1 w /\ length (fgs w) = n) /\ (i < n)%nat)).
  { intros w Hw. exists (length (fgs w)). split; [done|]. destruct Hw as [_ Hi]. by eapply lookup_lt_Some. }
  apply triple_ex. intros n. apply triple_pure. intros Hn.
  eapply triple_bind; [by apply triple_arm_acquire|]. intros [].
  apply triple_ex. intros c. apply triple_ex. intros m'. apply triple_pure. intros Hc'.
  by apply triple_arm_send.
Qed.

(** ** Ending *)
Lemma triple_ResetFailed i fg :
  enabled fg = true ->
  triple (at_any i fg) (ResetFailed eca mailbox time_fuel i)
    (fun keep w => keep = false /\ at_any i (released (set_flags false false fg)) w) ok.
Proof.
  intros He. unfold ResetFailed. apply any_get. apply any_assert; [done|]. apply any_facts. intros al m Hg.
  assert (channel fg <> -1) as Hc.
  { pose proof (g_enabled _ _ _ _ _ _ Hg) as E. rewrite He in E. by apply Z.eqb_neq, negb_true_iff. }
  eapply (triple_bind _ _ (fun _ => at_any i (set_flags false false fg))).
  - destruct (fg_running fg) eqn:Er.
    + assert (armed fg = false) as Ea.
      { pose proof (g_flags _ _ _ _ _ _ Hg) as E. rewrite Er, andb_true_r in E. done. }
      eapply triple_bind; [apply (any_flags i fg false false); [done|done|by rewrite Ea]|]. intros [].
      eapply triple_bind; [apply any_emit|]. intros []. eapply triple_bind; [apply any_read_time|]. intros t.
      apply any_emit.
    + eapply (triple_bind _ _ (fun _ => at_any i (set_flags true false fg))).
      * destruct (armed fg) eqn:Ea.
        -- apply triple_ret. intros w Hw. replace (set_flags true false fg) with fg; [done|].
           by destruct fg; cbn in *; subst.
        -- eapply triple_bind; [apply (any_flags i fg true false); [done|done|by rewrite Er]|]. intros []. apply any_emit.
      * intros []. eapply triple_bind; [by apply (any_flags i (set_flags true false fg) false false)|]. intros [].
        apply any_emit.
  - intros []. eapply triple_bind; [by apply any_release|]. intros []. by apply triple_ret.
Qed.

Lemma triple_Reset i fg rnd :
  triple (at_any i fg) (Reset mailbox i rnd)
    (fun _ w => exists h, at_any i (set_resetTimeout h (if channel fg =? -1 then fg else set_abort true fg)) w) ok.
Proof.
  unfold Reset. apply any_get.
  assert (forall fg', set_resetTimeout (resetTimeout fg') fg' = fg') as Hid by (by intros []).
  destruct (channel fg =? -1); [apply triple_ret; intros w Hw; exists (resetTimeout fg); by rewrite Hid|].
  destruct (abort fg) eqn:Eab.
  { assert (set_abort true fg = fg) as -> by (destruct fg; cbn in *; by subst).
    apply triple_ret. intros w Hw. exists (resetTimeout fg). by rewrite Hid. }
  eapply triple_bind; [apply (any_on_fg i fg (set_abort true)); try done|].
  { good_same. }
  intros []. set (fg1 := set_abort true fg).
  eapply triple_bind; [refine (any_use_slot i fg1 _)|]. intros [].
  destruct (connected (resetTimeout fg)).
  - apply triple_ret. intros w Hw. exists (resetTimeout fg1). by rewrite Hid.
  - apply (triple_bind _ _ (fun _ => at_any i fg1)); [by intros w Hw|]. intros now.
    eapply triple_bind; [apply any_timers|]. intros h.
    eapply triple_post; [apply (any_on_fg i fg1 (set_resetTimeout h)); try done|].
    + good_same.
    + intros [] w Hw. by exists h.
Qed.

Lemma triple_setStartTag i fg v :
  triple (at_any i fg) (setStartTag i v)
    (fun _ w => at_any i (set_startTag v fg) w /\ enabled fg = false) ok.
Proof.
  unfold setStartTag. apply any_get. apply any_check; [by intros _ w []|]. intros He.
  eapply triple_post; [apply (any_on_fg i fg (set_startTag v)); try done|].
  - good_same.
  - done.
Qed.

Lemma triple_flush i fg :
  triple (at_any i fg) (flush i) (fun _ w => at_any i (set_data 0 0 [] fg) w /\ enabled fg = false) ok.
Proof.
  unfold flush. apply any_get. apply any_check; [by intros _ w []|]. intros He.
  apply any_facts. intros al m Hg. destruct (good_disabled _ _ _ Hg He) as (Hc & Ha & Hr).
  apply any_assert; [by rewrite Hc|]. pose proof (g_idle _ _ _ _ _ _ Hg Hc) as Hf.
  eapply triple_post; [apply (any_on_fg i fg (fun fg => set_data 0 (filled fg) [] fg)); try done|].
  - intros al' m' Hg'. destruct (good_core _ _ _ Hg'). apply core_idle; try done. split; cbn in *; try done. lia.
  - intros [] w Hw. by rewrite <- Hf at 2.
Qed.
End Runs.
