(* ===== verification/FunctionGenSystem.v ===== *)
(** * Function generators: the whole system

    Clients call, the microcontroller interrupts and takes records, timers fire:
    a step relation, its invariant, and the claims about it. *)
From stdpp Require Import gmap.
From S2P Require Import Prelude Bus Loop LoopCorrect Owned EcaHw EcaOps FunctionGen FunctionGenCorrect FunctionGenRuns.
Local Open Scope Z_scope.

(** ** Timers *)
Section Timers.
Context {D : Type} `{!Bus D}.
Context (mailbox : Z).
Implicit Types (w : FgWorld D) (fg : FunctionGeneratorImpl) (l : Loop nat).

(** The sources that may still fire. *)
Definition live l : list (Source nat) := omap id (sources l ++ added_sources l).

Lemma live_ids l : ids l = (fun s => src_id s) <$> live l.
Proof. reflexivity. Qed.

(** A timer belongs to an enabled generator, which has its handle. *)
Record timers_ok w : Prop := {
  tm_ids : ids_wf (fw_loop w);
  tm_loop : loop_id (fw_loop w) <> 0;
  tm_live : forall s, s ∈ live (fw_loop w) -> exists fg, fgs w !! src_slot s = Some fg /\ enabled fg = true /\
    resetTimeout fg = mkHandle (src_id s) (loop_id (fw_loop w))
}.

(** No timer of generator [i]. *)
Definition no_timer i w : Prop := forall s, s ∈ live (fw_loop w) -> src_slot s <> i.

Lemma timers_fg i f w fg :
  fgs w !! i = Some fg -> resetTimeout (f fg) = resetTimeout fg ->
  (enabled fg = true -> enabled (f fg) = true) \/ no_timer i w -> timers_ok w -> timers_ok (on_fg i f w).2.
Proof.
  intros Hi Ht He [H1 H2 H3]. split; [done|done|]. intros s Hs. destruct (H3 s Hs) as (fs & Hfs & Hen & Hh).
  cbn. destruct (decide (i = src_slot s)) as [E|Hne].
  - destruct He as [He|Hno]; [|by destruct (Hno s Hs)]. subst i. rewrite list_lookup_alter_eq, Hfs.
    rewrite Hi in Hfs. injection Hfs as ->. exists (f fs). split; [done|]. split; [by apply He|]. by rewrite Ht.
  - rewrite list_lookup_alter_ne by done. eauto.
Qed.

Lemma stable_timers i : stable i timers_ok.
Proof.
  split.
  - intros w w' E1 E2 _ [H1 H2 H3]. split; rewrite ?E1, ?E2; done.
  - intros f w fg Hi Ht He. apply (timers_fg i f w fg); auto.
Qed.

Lemma stable_no_timer i j : stable j (fun w => timers_ok w /\ no_timer i w).
Proof.
  split.
  - intros w w' E1 E2 E3 [H1 H2]. split; [by apply (st_core j _ (stable_timers j) w)|]. unfold no_timer. by rewrite E2.
  - intros f w fg Hj Ht He [H1 H2]. split; [by apply (st_fg j _ (stable_timers j) f w fg)|done].
Qed.

(** *** [remove] takes the timer away *)
Lemma reset_first_live sid (ss : list (option (Source nat))) s :
  s ∈ omap id (reset_first sid ss) -> s ∈ omap id ss.
Proof. intros Hs. eapply sublist_subseteq; [apply reset_first_sublist|done]. Qed.

Lemma remove_live h l s : s ∈ live (remove h l) -> s ∈ live l.
Proof.
  unfold live, remove. destruct (_ =? _); [|done]. cbn. rewrite !omap_app, !elem_of_app.
  intros [Hs|Hs]; [left|right]; by eapply reset_first_live.
Qed.

Lemma remove_not_live h l s :
  NoDup (ids l) -> h_loop_id h = loop_id l -> s ∈ live (remove h l) -> src_id s <> source_id h.
Proof.
  intros Hnd Hl Hs E. destruct (remove_gone l h Hnd Hl) as (H1 & H2 & _).
  unfold live in Hs. rewrite omap_app, elem_of_app, !list_elem_of_omap in Hs.
  destruct Hs as [(x & Hx & Ex)|(x & Hx & Ex)]; cbn in Ex; subst x; [apply H1|apply H2]; by exists s.
Qed.

Lemma ids_wf_NoDup l : ids_wf l -> NoDup (ids l).
Proof. intros [Hnd _]. by eapply NoDup_fmap_1. Qed.

Lemma sublist_app_ids h l : ids (remove h l) `sublist_of` ids l.
Proof.
  unfold remove. destruct (_ =? _); [|done]. unfold ids. cbn. apply fmap_sublist. rewrite !omap_app.
  apply sublist_app; apply reset_first_sublist.
Qed.

Lemma remove_wf h l : ids_wf l -> ids_wf (remove h l).
Proof.
  intros (H1 & H2 & H3). pose proof (sublist_app_ids h l) as Hsub.
  assert (id_counter (remove h l) = id_counter l) as Ec by (unfold remove; by destruct (_ =? _)).
  split; [eapply sublist_NoDup; [exact H1|by apply fmap_sublist]|]. rewrite Ec. split; [|done].
  rewrite Forall_forall in *. intros x Hx. apply H2. by eapply sublist_subseteq.
Qed.

Lemma remove_loop_id h l : loop_id (remove h l) = loop_id l.
Proof. unfold remove. by destruct (_ =? _). Qed.

Lemma timers_remove i fg w :
  fgs w !! i = Some fg -> timers_ok w ->
  let w' := (on_fg_timers (fun l => (tt, remove (resetTimeout fg) l)) w).2 in timers_ok w' /\ no_timer i w'.
Proof.
  intros Hi [H1 H2 H3]. cbn. split; [split; cbn|].
  - by apply remove_wf.
  - by rewrite remove_loop_id.
  - intros s Hs. rewrite remove_loop_id. apply H3. by eapply remove_live.
  - intros s Hs E. cbn in Hs. destruct (H3 s (remove_live _ _ _ Hs)) as (fs & Hfs & _ & Hh).
    rewrite E, Hi in Hfs. injection Hfs as <-.
    apply (remove_not_live _ _ s (ids_wf_NoDup _ H1)) in Hs; [|by rewrite Hh]. by rewrite Hh in Hs.
Qed.

Lemma keeps_timers_release i : keeps timers_ok (releaseChannel mailbox i).
Proof.
  intros w Hw. unfold releaseChannel. destruct (fgs w !! i) as [fg|] eqn:Hi.
  2: { unfold mbind, M_bind, get_fg. by rewrite Hi. }
  rewrite (run_bind_ret (get_fg i) _ w fg w) by (unfold get_fg; by rewrite Hi).
  destruct (negb (channel fg =? -1)); [|done]. rewrite (run_bind_ret (massert true _) _ w tt w) by done.
  set (rm := fun l => (tt, remove (resetTimeout fg) l)).
  rewrite (run_bind_ret (on_fg_timers rm) _ w tt (on_fg_timers rm w).2 eq_refl).
  apply (timers_remove i fg) in Hw; [|done]. fold rm in Hw. revert Hw.
  generalize (on_fg_timers rm w).2. intros w' Hw'.
  pose proof (stable_no_timer i i) as HQ. set (Q := fun w => timers_ok w /\ no_timer i w) in *.
  assert (forall f, (forall fg, resetTimeout (f fg) = resetTimeout fg) -> keeps Q (on_fg i f)) as Hon.
  { intros f Hf w1 [Hw1 Hno]. split; [|done]. destruct (fgs w1 !! i) as [fg1|] eqn:Hi1.
    - apply (timers_fg i f w1 fg1); auto.
    - apply (st_core i _ (stable_timers i) w1); [by apply on_fg_nobody|done|done|done]. }
  match goal with |- timers_ok (?m w').2 => assert (keeps Q m) as Hk; [|by apply Hk] end.
  apply keeps_bind; [apply keeps_if; [by apply (keeps_use_slot mailbox i)|apply keeps_ret]|]. intros [].
  apply keeps_bind; [by apply (keeps_on_allocation i)|]. intros [].
  apply keeps_bind; [by apply Hon|]. intros [].
  apply keeps_bind; [by apply keeps_emit|]. intros [].
  apply keeps_if; [by apply keeps_flush|apply keeps_ret].
Qed.

(** *** [Reset] sets the timer *)
Definition plain_loop (l0 : Loop nat) i h w : Prop :=
  timers_ok w /\ fw_loop w = l0 /\ exists fg, fgs w !! i = Some fg /\ enabled fg = true /\ resetTimeout fg = h.

Lemma stable_plain_loop l0 i h j : stable j (plain_loop l0 i h).
Proof.
  split.
  - intros w w' E1 E2 E3 (H1 & H2 & H3). split; [by apply (st_core j _ (stable_timers j) w)|]. by rewrite E1, E2.
  - intros f w fj Hj Ht He (H1 & H2 & fg & H3 & H4 & H5). split; [by apply (st_fg j _ (stable_timers j) f w fj)|].
    split; [done|]. cbn. destruct (decide (j = i)) as [->|].
    + rewrite list_lookup_alter_eq, Hj. rewrite Hj in H3. injection H3 as ->. exists (f fg). split; [done|].
      split; [by apply He|congruence].
    + rewrite list_lookup_alter_ne by done. eauto.
Qed.

Lemma connect_live kind i rnd l s :
  s ∈ live (connect kind i rnd l).2 ->
  s ∈ live l \/ (src_slot s = i /\ src_kind s = kind /\ mkHandle (src_id s) (loop_id l) = (connect kind i rnd l).1).
Proof.
  unfold connect, live. destruct (new_source_id _ _) as [c sid]. destruct (running_depth l =? 0); cbn.
  all: rewrite !omap_app, !elem_of_app; cbn; rewrite elem_of_cons, elem_of_nil.
  - intros [[?|[->|[]]]|?]; [left; by left|by right|left; by right].
  - intros [?|[?|[->|[]]]]; [left; by left|left; by right|by right].
Qed.

Lemma connect_is_live kind i rnd l :
  exists s, s ∈ live (connect kind i rnd l).2 /\ src_slot s = i /\ src_kind s = kind /\
    mkHandle (src_id s) (loop_id l) = (connect kind i rnd l).1.
Proof.
  unfold connect, live. destruct (new_source_id _ _) as [c sid]. exists (mkSource sid kind i). split; [|done].
  destruct (running_depth l =? 0); cbn; rewrite !omap_app, !elem_of_app; cbn; rewrite elem_of_cons; tauto.
Qed.

Lemma connect_loop_id kind i rnd l : loop_id (connect kind i rnd l).2 = loop_id l.
Proof. unfold connect. destruct (new_source_id _ _). by destruct (running_depth l =? 0). Qed.

Lemma timers_connect i kind rnd w fg :
  timers_ok w -> fgs w !! i = Some fg -> enabled fg = true -> connected (resetTimeout fg) = false ->
  0 <= rnd < 2 ^ 31 -> id_counter (fw_loop w) < 2 ^ 32 - 1 ->
  let h := (connect kind i rnd (fw_loop w)).1 in
  let w1 := (on_fg_timers (connect kind i rnd) w).2 in timers_ok (on_fg i (set_resetTimeout h) w1).2.
Proof.
  intros [H1 H2 H3] Hi He Hc Hr Hk h w1. unfold w1, h, on_fg_timers. clear h w1.
  destruct (connect_wf kind i rnd (fw_loop w) H1 Hk Hr) as [_ Hwf].
  pose proof (connect_loop_id kind i rnd (fw_loop w)) as El.
  pose proof (connect_live kind i rnd (fw_loop w)) as Hlive.
  destruct (connect kind i rnd (fw_loop w)) as [h l']. cbn in *. split; cbn; [exact Hwf|by rewrite El|].
  intros s Hs. rewrite El. destruct (Hlive s Hs) as [Hold|(Es & _ & Eh)].
  - destruct (H3 s Hold) as (fs & Hfs & Hen & Hh). rewrite list_lookup_alter_ne; [eauto|].
    intros ->. rewrite Hi in Hfs. injection Hfs as ->. rewrite Hh in Hc. cbn in Hc.
    by apply negb_false_iff, Z.eqb_eq in Hc.
  - rewrite Es, list_lookup_alter_eq, Hi. eexists. split; [reflexivity|]. by cbn.
Qed.

Lemma timers_Reset i rnd w fg :
  timers_ok w -> fgs w !! i = Some fg -> enabled fg = negb (channel fg =? -1) ->
  0 <= rnd < 2 ^ 31 -> id_counter (fw_loop w) < 2 ^ 32 - 1 -> timers_ok (Reset mailbox i rnd w).2.
Proof.
  intros Hw Hi He Hr Hk. unfold Reset.
  rewrite (run_bind_ret (get_fg i) _ w fg w) by (unfold get_fg; by rewrite Hi).
  destruct (channel fg =? -1); [done|]. destruct (abort fg); [done|].
  set (Q := plain_loop (fw_loop w) i (resetTimeout fg)).
  assert (Q w) as HQ by (split; [done|]; split; [done|]; by exists fg).
  pose proof (keeps_on_fg i Q (stable_plain_loop _ _ _ i) (set_abort true) ltac:(by intros ?) w HQ) as H1.
  rewrite (run_bind_ret (on_fg i (set_abort true)) _ w tt (on_fg i (set_abort true) w).2 eq_refl).
  revert H1. generalize (on_fg i (set_abort true) w).2. intros w1 H1.
  pose proof (keeps_use_slot mailbox i Q (stable_plain_loop _ _ _ i) fg (Z.lor SWI_DISABLE (channel fg)) w1 H1) as H2.
  unfold mbind at 1, M_bind at 1. destruct (use_slot mailbox fg _ w1) as [[[]|e|why] w2]; [|apply H2..].
  destruct H2 as (H2 & El & fg2 & Hi2 & He2 & Ht2). cbn [snd] in H2, El, Hi2.
  destruct (connected (resetTimeout fg)) eqn:Hc; [done|].
  rewrite (run_bind_ret (gets fw_now) _ w2 (fw_now w2) w2) by done.
  pose proof (timers_connect i (new_timeout (fw_now w2) 1000 1000) rnd w2 fg2 H2 Hi2 He2) as H3.
  rewrite Ht2, El in H3. specialize (H3 Hc Hr Hk). cbn zeta in H3.
  unfold on_fg_timers, mbind, M_bind in *. rewrite El in *.
  destruct (connect _ i rnd (fw_loop w)) as [h l']. exact H3.
Qed.
End Timers.

(** ** The system *)
Section System.
Context {D : Type} `{!Bus D} `{!FgMemory D}.
Context (eca mailbox fgb num_channels buffer_size : Z) (time_fuel : nat).
Context `{!FgDevice D eca mailbox fgb num_channels buffer_size time_fuel}.
Context (Hlay : layout_ok num_channels buffer_size).
Local Abbreviation ok := (fgs_ok fgb num_channels buffer_size).
Local Abbreviation at_any := (at_any fgb num_channels buffer_size).
Local Abbreviation irq := (irq_handler eca mailbox fgb num_channels buffer_size time_fuel).
Local Abbreviation reset_failed := (ResetFailed eca mailbox time_fuel).
Implicit Types (w : FgWorld D) (fg : FunctionGeneratorImpl).

(** What clients may call on a generator. *)
Inductive FgCall :=
  | CallAppendParameterSet (a b c st fr sa sb : list Z)
  | CallFlush
  | CallArm
  | CallAbort (rnd : Z)
  | CallSetStartTag (val : Z).

Definition run_call (i : nat) (c : FgCall) : M (FgWorld D) unit :=
  match c with
  | CallAppendParameterSet a b c st fr sa sb =>
      _ ← FunctionGenerator_AppendParameterSet fgb num_channels buffer_size i a b c st fr sa sb; mret tt
  | CallFlush => FunctionGenerator_Flush i
  | CallArm => FunctionGenerator_Arm mailbox fgb num_channels buffer_size i
  | CallAbort rnd => FunctionGenerator_Abort mailbox i rnd
  | CallSetStartTag val => FunctionGenerator_setStartTag i val
  end.

(** Arguments have their types; queues do not reach 2^32 entries, and fewer than
    2^32 sources are made. *)
Definition call_ok w (i : nat) (c : FgCall) : Prop :=
  match c with
  | CallAppendParameterSet a b c st fr sa sb =>
      columns a b c st fr sa sb /\
      forall fg, fgs w !! i = Some fg -> Z.of_nat (length (fifo fg) + length a) < 2 ^ 32
  | CallAbort rnd => 0 <= rnd < 2 ^ 31 /\ id_counter (fw_loop w) < 2 ^ 32 - 1
  | _ => True
  end.

Definition completed {A} (r : outcome A) : Prop := match r with Crash _ => False | _ => True end.

(** The client whose request is served, and the time. *)
Definition with_client (cl : Caller) (t : Z) w : FgWorld D :=
  mkFgWorld (fw_dev w) (fgs w) (allocation w) (fw_loop w) t cl (front w) (fw_out w).
Definition with_dev (d : D) w : FgWorld D :=
  mkFgWorld d (fgs w) (allocation w) (fw_loop w) (fw_now w) (fw_caller w) (front w) (fw_out w).

(** One thing that happens.  Calls, timeouts and interrupts may end with an
    exception; but not the interrupt that ends a run: an exception there leaves
    the number of sent records and the queue out of step. *)
Inductive fg_step w : FgWorld D -> Prop :=
  | step_call i c cl t r w' :
      (i < length (fgs w))%nat -> call_ok w i c ->
      run_call i c (with_client cl t w) = (r, w') -> completed r -> fg_step w w'
  | step_interrupt i msi r w' :
      (i < length (fgs w))%nat -> irq i msi w = (r, w') -> completed r ->
      r = Ret tt \/ stop_message msi = false -> fg_step w w'
  | step_timeout s r w' :
      s ∈ live (fw_loop w) -> reset_failed (src_slot s) w = (r, w') -> completed r -> fg_step w w'
  | step_firmware d :
      consumed fgb num_channels buffer_size (memory w) (word d) -> fg_step w (with_dev d w).

Record inv w : Prop := { inv_ok : ok w; inv_timers : timers_ok w }.

(** ** A fresh system: generators as [new_fg] makes them *)
Definition fresh_fg fg : Prop :=
  exists slot idx mac host cap, 0 <= slot < 128 /\ 0 <= idx /\ 0 < cap /\
    fg = mkFG slot idx mac (Some host) (-1) false false false false null_handle 0 0 0 0 [] cap 0.

Record fresh w : Prop := {
  fresh_fgs : Forall fresh_fg (fgs w);
  fresh_index : NoDup (index <$> fgs w);
  fresh_allocation : allocation w = replicate (Z.to_nat num_channels) (-1);
  fresh_loop : ids_wf (fw_loop w) /\ loop_id (fw_loop w) <> 0 /\ live (fw_loop w) = []
}.

Lemma fresh_inv w : fresh w -> inv w.
Proof.
  intros [H1 H2 H3 (H4 & H5 & H6)]. split; split; try done.
  - intros i fg Hi. rewrite Forall_lookup in H1.
    destruct (H1 i fg Hi) as (slot & idx & mac & host & cap & Hs & Hx & Hc & ->). apply core_idle; try done.
    split; cbn; try done. lia.
  - intros i j fi fj Hi Hj E. apply (NoDup_lookup _ i j (index fi) H2); rewrite list_lookup_fmap.
    + by rewrite Hi.
    + rewrite Hj. cbn. by rewrite E.
  - rewrite H3, length_replicate. destruct Hlay. lia.
  - intros c x Hx. rewrite H3 in Hx. apply lookup_replicate in Hx as [-> _]. by left.
  - intros s Hs. rewrite H6 in Hs. by apply not_elem_of_nil in Hs.
Qed.

(** ** Steps keep the invariant, and do not crash *)
Lemma inv_client cl t w : inv w -> inv (with_client cl t w).
Proof.
  intros [H1 [H2 H3 H4]]. split; [|by split]. by apply (ok_core fgb num_channels buffer_size w).
Qed.

(** From [w] the program ends without a crash in a state with the invariant. *)
Definition runs_ok {A} (m : M (FgWorld D) A) w : Prop :=
  match m w with (Crash _, _) => False | (_, w') => inv w' end.

Lemma runs_ok_intro {A} (m : M (FgWorld D) A) i fg w (Q : A -> FgWorld D -> Prop) :
  at_any i fg w -> triple (at_any i fg) m Q ok -> (forall a w', Q a w' -> ok w') -> timers_ok (m w).2 ->
  runs_ok m w.
Proof.
  intros Hw Hm Hq Ht. specialize (Hm w Hw). unfold runs_ok.
  destruct (m w) as [[a|e|why] w']; [split; eauto..|done].
Qed.

Lemma triple_owner_only i fg : triple (at_any i fg) (owner_only i) (fun _ => at_any i fg) ok.
Proof.
  apply any_triple_core. intros w _. unfold owner_only, get, mbind, M_bind, of_outcome.
  destruct (front w) as [services|ms]; unfold ownerOnly, with_service.
  - destruct (default None (services !! i)), (has_container (fw_caller w)); try by split.
    by destruct (foreign_owner _ _).
  - destruct (m_service ms), (has_container (fw_caller w)); try by split. by destruct (foreign_owner _ _).
Qed.
Lemma keeps_owner_only Q i : stable i Q -> keeps Q (owner_only i : M (FgWorld D) unit).
Proof.
  intros HQ. apply (keeps_same i); [done|]. intros w. unfold owner_only, get, mbind, M_bind, of_outcome.
  by destruct (front w) eqn:E; cbn; rewrite ?E.
Qed.

Lemma triple_call i c fg (w0 : FgWorld D) :
  fgs w0 !! i = Some fg -> call_ok w0 i c ->
  triple (at_any i fg) (run_call i c) (fun _ => ok) ok.
Proof.
  intros Hi Hc. destruct c as [a b c st fr sa sb| | |rnd|v]; cbn [run_call].
  - destruct Hc as [Hcol Hlen]. unfold FunctionGenerator_AppendParameterSet.
    eapply triple_bind; [eapply triple_bind; [apply triple_owner_only|]; intros []|].
    + apply (triple_append eca mailbox fgb num_channels buffer_size time_fuel); try done. by apply Hlen.
    + intros low. apply triple_ret. by intros w (fg' & [] & _).
  - eapply triple_bind; [apply triple_owner_only|]. intros [].
    eapply triple_post; [by apply triple_flush|]. by intros [] w [[] _].
  - eapply triple_bind; [apply triple_owner_only|]. intros [].
    eapply triple_post; [by apply (triple_arm eca mailbox fgb num_channels buffer_size time_fuel)|].
    by intros [] w (fg' & [] & _).
  - eapply triple_bind; [apply triple_owner_only|]. intros [].
    eapply triple_post; [by apply (triple_Reset eca mailbox fgb num_channels buffer_size time_fuel)|].
    by intros [] w (fg' & [] & _).
  - eapply triple_bind; [apply triple_owner_only|]. intros [].
    eapply triple_post; [by apply triple_setStartTag|]. by intros [] w [[] _].
Qed.

Lemma timers_call i c fg w :
  inv w -> fgs w !! i = Some fg -> call_ok w i c -> timers_ok (run_call i c w).2.
Proof.
  intros [Hok Ht] Hi Hc. pose proof (@stable_timers D i) as HQ.
  pose proof (fun i => keeps_timers_release (D := D) mailbox i) as Hrel.
  assert (forall m : M (FgWorld D) unit, keeps timers_ok m -> timers_ok ((owner_only i;; m) w).2) as Hdo.
  { intros m Hm. assert (keeps timers_ok (owner_only i;; m)) as Hk; [|by apply Hk].
    apply keeps_bind; [by apply keeps_owner_only|by intros []]. }
  destruct c as [a b c st fr sa sb| | |rnd|v]; cbn [run_call].
  - assert (keeps timers_ok (_ ← FunctionGenerator_AppendParameterSet fgb num_channels buffer_size i a b c st fr sa sb;
      mret tt)) as Hk; [|by apply Hk].
    apply keeps_bind; [|intros; apply keeps_ret].
    apply keeps_bind; [by apply keeps_owner_only|intros []; by apply keeps_append].
  - apply Hdo. by apply keeps_flush.
  - apply Hdo. by apply keeps_arm.
  - destruct Hc as [Hr Hk]. unfold FunctionGenerator_Abort.
    pose proof (triple_owner_only i fg w (conj Hok Hi)) as Hown.
    assert (fw_loop (owner_only i w).2 = fw_loop w /\ timers_ok (owner_only i w).2) as [El Ht'].
    { unfold owner_only, get, mbind, M_bind, of_outcome. by destruct (front w). }
    unfold mbind, M_bind in *. destruct (owner_only i w) as [[[]|e|why] w1]; [|done..].
    destruct Hown as [Hok1 Hi1]. cbn in El, Ht'. apply (timers_Reset mailbox i rnd w1 fg); try done; [|by rewrite El].
    apply (g_enabled _ _ _ _ _ _ (inv_fgs _ _ _ w1 Hok1 i fg Hi1)).
  - apply Hdo. by apply keeps_setStartTag.
Qed.

Lemma call_runs i c w : inv w -> (i < length (fgs w))%nat -> call_ok w i c -> runs_ok (run_call i c) w.
Proof.
  intros Hw Hi Hc. destruct (present _ i w eq_refl Hi) as [fg Hfg].
  apply (runs_ok_intro _ i fg w (fun _ => ok)); try done; [by split; [apply Hw|]|by apply (triple_call i c fg w)|].
  by apply (timers_call i c fg).
Qed.

Lemma irq_runs i msi w :
  inv w -> (i < length (fgs w))%nat ->
  match irq i msi w with
  | (Crash _, _) => False
  | (r, w') => r = Ret tt \/ stop_message msi = false -> inv w'
  end.
Proof.
  intros [Hok Ht] Hi. destruct (present _ i w eq_refl Hi) as [fg Hfg].
  pose proof (triple_irq eca mailbox fgb num_channels buffer_size time_fuel Hlay i fg msi w (conj Hok Hfg)) as Hm.
  pose proof (keeps_irq eca mailbox fgb num_channels buffer_size time_fuel i timers_ok (stable_timers i)
    (keeps_timers_release mailbox i) msi w Ht) as Hk.
  destruct (irq i msi w) as [[[]|e|why] w']; [by split|intros [|Hs]; [done|split; auto]|done].
Qed.

Lemma timeout_runs s w : inv w -> s ∈ live (fw_loop w) -> runs_ok (reset_failed (src_slot s)) w.
Proof.
  intros [Hok Ht] Hs. destruct (tm_live w Ht s Hs) as (fg & Hi & He & _).
  apply (runs_ok_intro _ (src_slot s) fg w (fun _ => ok)); [by split|..|done|].
  - eapply triple_post; [by apply (triple_ResetFailed eca mailbox fgb num_channels buffer_size time_fuel)|].
    by intros keep w' [_ []].
  - by apply (keeps_ResetFailed eca mailbox time_fuel (src_slot s) timers_ok (stable_timers _) (keeps_timers_release mailbox _)).
Qed.

Lemma step_inv w w' : inv w -> fg_step w w' -> inv w'.
Proof.
  intros Hw Hs. destruct Hs as [i c cl t r w' Hi Hc E Hr|i msi r w' Hi E Hr Hstop|s r w' Hs E Hr|d Hd].
  - pose proof (call_runs i c (with_client cl t w) (inv_client cl t w Hw) Hi Hc) as H. unfold runs_ok in H.
    rewrite E in H. by destruct r.
  - pose proof (irq_runs i msi w Hw Hi) as H. rewrite E in H. destruct r; auto; done.
  - pose proof (timeout_runs s w Hw Hs) as H. unfold runs_ok in H. rewrite E in H. by destruct r.
  - destruct Hw as [Hok [H1 H2 H3]]. split; [by apply fgs_ok_consumed|by split].
Qed.

Lemma steps_inv w w' : inv w -> rtc fg_step w w' -> inv w'.
Proof. intros Hw Hs. induction Hs as [|w1 w2 w3 H12 H23 IH]; [done|]. by apply IH, (step_inv w1). Qed.

Lemma completed_runs {A} (m : M (FgWorld D) A) w : runs_ok m w -> completed (m w).1.
Proof. unfold runs_ok. by destruct (m w) as [[a|e|why] w']. Qed.



(** The abstract queue of a generator: what the microcontroller has not taken. *)
Definition pending fg (m : Z -> Z) : list ParameterTuple :=
  drop (Z.to_nat (filled fg - used fgb buffer_size m (channel fg))) (fifo fg).

Lemma ring_pending m fg :
  ring fgb num_channels buffer_size m fg ->
  ring_holds fgb num_channels buffer_size m (channel fg) (m (reg fgb (channel fg) FG_RPTR))
    (take (Z.to_nat (used fgb buffer_size m (channel fg))) (pending fg m)).
Proof.
  intros [R1 R2 R3]. pose proof (used_range fgb num_channels buffer_size Hlay m (channel fg)).
  unfold pending. rewrite take_drop_commute.
  replace (_ + _)%nat with (Z.to_nat (filled fg)) by lia. done.
Qed.

(** C4: [refill] implements an abstract queue: during it the microcontroller takes
    some number [j] of records from the front (its read pointer advances by [j]);
    nothing else leaves the queue or moves in it.  Then the ring buffer holds the
    front of what is left, in order, from the read pointer on, and as much as fits
    has been sent. *)
Theorem refill_refines_queue i fg m (Hc : channel fg <> -1) :
  triple (at_fg fgb num_channels buffer_size i fg m) (refill fgb num_channels buffer_size i false)
    (fun _ w => exists fg' j, fgs w !! i = Some fg' /\ channel fg' = channel fg /\
       pending fg' (memory w) = drop j (pending fg m) /\
       Z.of_nat j <= used fgb buffer_size m (channel fg) /\
       memory w (reg fgb (channel fg) FG_RPTR) mod buffer_size
         = (m (reg fgb (channel fg) FG_RPTR) + Z.of_nat j) mod buffer_size /\
       ring_holds fgb num_channels buffer_size (memory w) (channel fg) (memory w (reg fgb (channel fg) FG_RPTR))
         (take (Z.to_nat (used fgb buffer_size (memory w) (channel fg))) (pending fg' (memory w))) /\
       filled fg' = Z.min (Z.of_nat (length (fifo fg'))) (buffer_size - 1)) ok.
Proof.
  apply triple_facts. intros al Hg _.
  eapply triple_pre; [|eapply triple_post; [apply (@triple_refill D _ _ eca mailbox fgb num_channels buffer_size time_fuel _ Hlay i fg m false Hc)|]].
  { intros w Hw. by split. }
  intros [] w (fg' & n & [Hok Hi] & (k & Hk & Hfill & ->) & j & Hj & Hu & Hr).
  set (fg' := set_data _ _ _ fg) in *. exists fg', (Z.to_nat j).
  pose proof (g_ring _ _ _ _ _ _ (inv_fgs _ _ _ w Hok i fg' Hi) Hc) as Hring.
  split; [done|]. split; [done|]. split; [|split; [lia|]].
  - unfold pending. rewrite Hfill. change (channel fg') with (channel fg). change (fifo fg') with (drop k (fifo fg)).
    rewrite Hu, !drop_drop. f_equal.
    pose proof (ring_used _ _ _ _ _ Hring) as Hle. change (channel fg') with (channel fg) in Hle.
    rewrite Hu, Hfill in Hle. pose proof (ring_used _ _ _ _ _ (g_ring _ _ _ _ _ _ Hg Hc)). lia.
  - rewrite Z2Nat.id by lia. split; [done|]. split; [by apply (ring_pending (memory w) fg')|done].
Qed.

(** [AppendParameterSet] with columns of different lengths, or with a row out of
    range, changes nothing, not even when the offending row is the last; otherwise
    all rows are appended, in order, behind what is queued. *)
Theorem append_all_or_nothing i fg a b c st fr sa sb
    (Hcol : columns a b c st fr sa sb) (Hlen : Z.of_nat (length (fifo fg) + length a) < 2 ^ 32) :
  (same_lengths a b c st fr sa sb = false \/ validate (rows st fr sa sb) <> Ret tt ->
   forall w, exists what, appendParameterSet fgb num_channels buffer_size i a b c st fr sa sb w
                          = (Throw (Error INVALID_ARGS what), w)) /\
  triple (at_any i fg) (appendParameterSet fgb num_channels buffer_size i a b c st fr sa sb)
    (fun low w => exists fg' k, fgs w !! i = Some fg' /\ Z.of_nat k <= filled fg /\
       fifo fg' = drop k (fifo fg ++ tuples a b c st fr sa sb) /\ low = lowFill buffer_size fg') ok.
Proof.
  split.
  - intros Hbad w. unfold appendParameterSet. unfold same_lengths in Hbad. cbn in Hbad.
    repeat match goal with
      | |- context [throw_if (negb ?b) ?e] => destruct b; [|by eexists]; cbn in Hbad
      end.
    destruct Hbad as [Hbad|Hbad]; [done|]. fold (rows st fr sa sb).
    enough (exists what, validate (rows st fr sa sb) = Throw (Error INVALID_ARGS what)) as [what ->] by (by exists what).
    clear -Hbad. induction (rows st fr sa sb) as [|[[[x y] z] u] l IH]; cbn in *; [done|].
    repeat match goal with |- context [if ?b then _ else _] => destruct b; [by eexists|] end. by apply IH.
  - eapply triple_post; [by apply (triple_append eca mailbox fgb num_channels buffer_size time_fuel)|].
    intros low w (fg' & [_ Hi] & (k & Hk & Hq & _) & ->). by exists fg', k.
Qed.

(** C38: An abort ends the run even when the microcontroller never answers: the first
    [Abort] of an enabled generator sets up a timeout of a second, and when that
    fires the generator is idle, without a channel and with an empty queue. *)
Theorem abort_ends i fg rnd (Hen : enabled fg = true) :
  (abort fg = false -> connected (resetTimeout fg) = false ->
   triple (at_any i fg) (Reset mailbox i rnd)
     (fun _ w => exists s, s ∈ live (fw_loop w) /\ src_slot s = i /\
        src_kind s = TimeoutSource 1000 (fw_now w + 1000 * ms_ns) /\
        option_map abort (fgs w !! i) = Some true /\ option_map enabled (fgs w !! i) = Some true) ok) /\
  (abort fg = true ->
   triple (at_any i fg) (reset_failed i)
     (fun keep w => keep = false /\ exists fg', fgs w !! i = Some fg' /\ enabled fg' = false /\ armed fg' = false /\
        fg_running fg' = false /\ channel fg' = -1 /\ fifo fg' = [] /\ fillLevel fg' = 0) ok).
Proof.
  split.
  - intros Hab Hconn. apply any_facts. intros al m Hg.
    assert ((channel fg =? -1) = false) as Hc by (pose proof (g_enabled _ _ _ _ _ _ Hg) as E; rewrite Hen in E; by apply negb_true_iff).
    unfold Reset. apply any_get. rewrite Hc, Hab.
    eapply triple_bind; [apply (any_on_fg fgb num_channels buffer_size i fg (set_abort true)); try done|].
    { intros ? ? [? ? ? ? ? ? ? ? ? ? ? ? ? Hring]. split; try done. intros Hch. destruct (Hring Hch). by split. }
    intros []. set (fg1 := set_abort true fg).
    eapply triple_bind; [refine (any_use_slot eca mailbox fgb num_channels buffer_size time_fuel Hlay i fg1 _)|].
    intros []. rewrite Hconn. intros w [Hok Hi].
    rewrite (run_bind_ret (gets fw_now) _ w (fw_now w) w) by done.
    destruct (connect_is_live (new_timeout (fw_now w) 1000 1000) i rnd (fw_loop w)) as (s & Hs & Es & Ek & _).
    unfold on_fg_timers, mbind, M_bind. destruct (connect _ i rnd (fw_loop w)) as [h l']. cbn in *.
    exists s. rewrite list_lookup_alter_eq, Hi. by cbn; rewrite Hen.
  - intros Hab. eapply triple_post; [by apply (triple_ResetFailed eca mailbox fgb num_channels buffer_size time_fuel)|].
    intros keep w [-> [_ Hi]]. split; [done|]. eexists. split; [exact Hi|]. unfold released. cbn. by rewrite Hab.
Qed.

(** ** The handle of a timeout that is gone still counts as connected *)
Definition had_timer i w : Prop := exists fg, fgs w !! i = Some fg /\ connected (resetTimeout fg) = true.

Lemma had_timer_fg i j f w :
  j <> i \/ (forall fg, resetTimeout (f fg) = resetTimeout fg) -> had_timer i w -> had_timer i (on_fg j f w).2.
Proof.
  intros Hf (fg & Hi & Hc). unfold had_timer. cbn. destruct (decide (j = i)) as [->|Hne].
  - destruct Hf as [?|Hf]; [done|]. exists (f fg). rewrite list_lookup_alter_eq, Hi. split; [done|]. by rewrite Hf.
  - exists fg. by rewrite list_lookup_alter_ne.
Qed.

Lemma stable_had_timer i j : stable j (had_timer i).
Proof.
  split.
  - intros w w' E _ _. unfold had_timer. by rewrite E.
  - intros f w fg Hj Ht _ (fi & Hi & Hc). unfold had_timer. cbn. destruct (decide (j = i)) as [->|Hne].
    + rewrite Hj in Hi. injection Hi as ->. exists (f fi). rewrite list_lookup_alter_eq, Hj. by rewrite Ht.
    + exists fi. by rewrite list_lookup_alter_ne.
Qed.

Lemma keeps_timer_release i j : keeps (had_timer i) (releaseChannel mailbox j : M (FgWorld D) unit).
Proof.
  pose proof (stable_had_timer i j) as HQ.
  assert (forall f, (forall fg, resetTimeout (f fg) = resetTimeout fg) -> keeps (had_timer i) (on_fg j f)) as Hon
    by (intros f Hf w Hw; apply had_timer_fg; auto).
  unfold releaseChannel. apply keeps_bind; [by apply keeps_get_fg|]. intros fg.
  apply keeps_bind; [by apply keeps_massert|]. intros [].
  apply keeps_bind; [by intros w Hw|]. intros [].
  apply keeps_bind; [apply keeps_if; [by apply (keeps_use_slot mailbox j)|apply keeps_ret]|]. intros [].
  apply keeps_bind; [by apply (keeps_on_allocation j)|]. intros [].
  apply keeps_bind; [by apply Hon|]. intros [].
  apply keeps_bind; [by apply keeps_emit|]. intros [].
  apply keeps_if; [by apply keeps_flush|apply keeps_ret].
Qed.

Lemma reset_again i rnd w : had_timer i w ->
  had_timer i (Reset mailbox i rnd w).2 /\ fw_loop (Reset mailbox i rnd w).2 = fw_loop w.
Proof.
  intros (fg & Hi & Hc). unfold Reset.
  rewrite (run_bind_ret (get_fg i) _ w fg w) by (unfold get_fg; by rewrite Hi).
  assert (had_timer i w) as Hw by (by exists fg).
  destruct (channel fg =? -1); [done|]. destruct (abort fg); [done|]. rewrite Hc.
  set (Q := fun w' => had_timer i w' /\ fw_loop w' = fw_loop w).
  match goal with |- had_timer i (?m w).2 /\ _ => assert (keeps Q m) as Hk; [|by apply Hk] end.
  assert (stable i Q) as HQ.
  { split.
    - intros w1 w2 E1 E2 E3 [H1 H2]. split; [by apply (st_core i _ (stable_had_timer i i) w1)|congruence].
    - intros f w1 fj Hj Ht He [H1 H2]. split; [by apply (st_fg i _ (stable_had_timer i i) f w1 fj)|done]. }
  apply keeps_bind; [apply keeps_on_fg; [done|by intros ?]|]. intros [].
  apply keeps_bind; [by apply (keeps_use_slot mailbox i)|intros []; apply keeps_ret].
Qed.

Lemma keeps_timer_Reset i j rnd : keeps (had_timer i) (Reset mailbox j rnd).
Proof.
  destruct (decide (j = i)) as [->|Hne]; [intros w Hw; by apply reset_again|].
  pose proof (stable_had_timer i j) as HQ. unfold Reset.
  apply keeps_bind; [by apply keeps_get_fg|]. intros fg.
  apply keeps_if; [apply keeps_ret|]. apply keeps_if; [apply keeps_ret|].
  apply keeps_bind; [intros w Hw; apply had_timer_fg; auto|]. intros [].
  apply keeps_bind; [by apply (keeps_use_slot mailbox j)|]. intros []. apply keeps_if; [apply keeps_ret|].
  apply keeps_bind; [apply keeps_gets|]. intros now.
  apply keeps_bind; [intros w Hw; unfold on_fg_timers; by destruct (connect _ _ _ _)|]. intros h w Hw.
  apply had_timer_fg; auto.
Qed.

Lemma had_timer_step i w w' : had_timer i w -> fg_step w w' -> had_timer i w'.
Proof.
  intros Hw Hs. pose proof (fun j => stable_had_timer i j) as HQ.
  pose proof (fun j => keeps_timer_release i j) as Hrel.
  assert (forall A (m : M (FgWorld D) A) w1 r w2, keeps (had_timer i) m -> m w1 = (r, w2) -> had_timer i w1 -> had_timer i w2) as Hrun.
  { intros A m w1 r w2 Hm E H1. specialize (Hm w1 H1). by rewrite E in Hm. }
  assert (forall j (m : M (FgWorld D) unit), keeps (had_timer i) m -> keeps (had_timer i) (owner_only j;; m)) as Hdo
    by (intros j m Hm; apply keeps_bind; [by apply keeps_owner_only|by intros []]).
  destruct Hs as [j c cl t r w' Hj Hc E Hr|j msi r w' Hj E Hr Hstop|s r w' Hs E Hr|d Hd].
  - refine (Hrun _ _ _ _ _ _ E _); [|done].
    destruct c as [a b c st fr sa sb| | |rnd|v]; cbn [run_call]; try apply Hdo.
    + apply keeps_bind; [|intros; apply keeps_ret].
      apply keeps_bind; [by apply keeps_owner_only|intros []; by apply keeps_append].
    + by apply keeps_flush.
    + by apply keeps_arm.
    + apply keeps_timer_Reset.
    + by apply keeps_setStartTag.
  - refine (Hrun _ _ _ _ _ _ E Hw). by apply keeps_irq.
  - refine (Hrun _ _ _ _ _ _ E Hw). by apply keeps_ResetFailed.
  - done.
Qed.

(** Only the first abort is guarded by a timeout: the handle of the timeout is
    never cleared, so once there was one, whatever happens after that, an [Abort]
    sets up none; if the microcontroller does not answer, the generator keeps its
    channel. *)
Theorem second_abort_has_no_timeout i w w' fg
    (Hi : fgs w !! i = Some fg) (Hc : connected (resetTimeout fg) = true) (Hsteps : rtc fg_step w w') rnd cl t :
  fw_loop (run_call i (CallAbort rnd) (with_client cl t w')).2 = fw_loop w'.
Proof.
  assert (had_timer i w') as Hw'.
  { assert (had_timer i w) as Hw by (by exists fg). clear Hi Hc.
    induction Hsteps as [|w1 w2 w3 H12 H23 IH]; [done|]. by apply IH, (had_timer_step i w1). }
  cbn [run_call]. unfold FunctionGenerator_Abort.
  assert (had_timer i (with_client cl t w')) as Hcl by done.
  change (fw_loop w') with (fw_loop (with_client cl t w')). revert Hcl. generalize (with_client cl t w'). intros w1 Hcl.
  pose proof (keeps_owner_only _ i (stable_had_timer i i) w1 Hcl) as H1.
  assert (fw_loop (owner_only i w1).2 = fw_loop w1) as El.
  { unfold owner_only, get, mbind, M_bind, of_outcome. by destruct (front w1). }
  unfold mbind, M_bind. destruct (owner_only i w1) as [[[]|e|why] w2]; [|done..]. cbn in *.
  rewrite <- El. by apply reset_again.
Qed.
End System.

(** ** A system with two generators on two channels *)
Module FgDemo.
Definition ecaadr : Z := 0x20000000.
Definition mbx : Z := 0x10000000.
Definition slots : Z := 4.

#[export] Instance ram_memory : FgMemory ram := fun d a => u32 (default 0 (ram_mem d !! a)).

Lemma ram_writes (ops : list bus_op) : forall rs d a,
  word (foldl (fun s op => ram_step op s) (rs, d) ops).2 a = default (word d a) (last_write a ops).
Proof.
  induction ops as [|[b v|b] ops IH]; intros rs d a; cbn [foldl last_write]; [done|..].
  - unfold ram_step at 2. rewrite IH. destruct (last_write a ops) as [x|]; [done|]. cbn.
    unfold word, ram_memory. cbn. destruct (Z.eqb_spec a b) as [->|Hne].
    + rewrite lookup_insert_eq. cbn. apply unsigned_wrap_idemp.
    + by rewrite lookup_insert_ne.
  - unfold ram_step at 2. by rewrite IH.
Qed.

Lemma ram_reads (ops : list bus_op) : forall rs d,
  Forall is_read ops ->
  (foldl (fun s op => ram_step op s) (rs, d) ops).1 = rs ++ ((fun op => match op with BusR a => word d a | BusW _ _ => 0 end) <$> ops).
Proof.
  induction ops as [|[b v|b] ops IH]; intros rs d Hall; cbn [foldl fmap list_fmap].
  - by rewrite app_nil_r.
  - by inversion Hall.
  - inversion Hall. unfold ram_step at 2. rewrite IH by done. by rewrite <- app_assoc.
Qed.

#[export] Instance ram_device : FgDevice ram ecaadr mbx 0 2 slots 2.
Proof.
  split.
  - apply _.
  - intros ops d rs d'. unfold bus_cycle, ram_bus. intros [= E]. exists (word d). split; [|split].
    + intros c Hc. split; [done|]. split; [done|]. exists 0. rewrite Z.add_0_r. split; [|done].
      pose proof (Z.mod_pos_bound (word d (reg 0 c FG_WPTR) - word d (reg 0 c FG_RPTR)) slots ltac:(done)).
      unfold used. lia.
    + intros a _. pose proof (ram_writes ops [] d a) as H. by rewrite E in H.
    + intros Hall. pose proof (ram_reads ops [] d Hall) as H. rewrite E in H. cbn in H. subst rs.
      clear. induction ops as [|op ops IH]; constructor; [|done]. intros a -> _. done.
  - intros slot Hs. unfold shared, slot_address, mbx, slots, shm, SHM_BASE, FG_REGS_BASE, FG_REGS_BASE_, FG_REGS_SIZE, PARAM_SIZE. lia.
  - intros d d'. unfold ReadRawCurrentTime, cycle, mbind, M_bind, bus_cycle, ram_bus. cbn. by rewrite Z.eqb_refl.
Qed.

Lemma layout : layout_ok 2 slots.
Proof. by split. Qed.

Definition gen (slot idx : Z) : FunctionGeneratorImpl :=
  mkFG slot idx 0x01020300 (Some slot) (-1) false false false false null_handle 0 0 0 0 [] 8 0.
Definition w0 : FgWorld ram :=
  mkFgWorld ram0 [gen 0 0; gen 1 1] [-1; -1] (mkLoop [] [] false 0 1 0) 0 (mkCaller true 7)
    (Singles [Some (-1); Some 7]) [].

Lemma w0_fresh : fresh 2 w0.
Proof.
  split; [|by apply (bool_decide_unpack _); vm_compute|done|].
  - apply Forall_cons. split; [by exists 0, 0, 0x01020300, 0, 8|].
    apply Forall_cons. split; [by exists 1, 1, 0x01020300, 1, 8|by apply Forall_nil].
  - split; [|done]. split; [constructor|]. split; [constructor|done].
Qed.

Local Abbreviation step := (fg_step ecaadr mbx 0 2 slots 2).
Local Abbreviation call := (run_call mbx 0 2 slots).
Local Abbreviation msg := (irq_handler ecaadr mbx 0 2 slots 2).

Definition three : FgCall := CallAppendParameterSet [1; -2; 3] [4; 5; -6] [7; 8; 9] [0; 1; 2] [3; 4; 5] [48; 0; 1] [2; 3; 4].

Lemma do_call i c w :
  (i < length (fgs w))%nat -> call_ok w i c -> completed (call i c w).1 ->
  step w (call i c w).2.
Proof.
  intros Hi Hc Hr. eapply (step_call _ _ _ _ _ _ w i c (fw_caller w) (fw_now w) (call i c w).1); try done.
  replace (with_client _ _ w) with w by (by destruct w). by destruct (call i c w).
Qed.
Lemma do_irq i m w :
  (i < length (fgs w))%nat -> (msg i m w).1 = Ret tt -> step w (msg i m w).2.
Proof.
  intros Hi Hr. eapply (step_interrupt _ _ _ _ _ _ w i m (msg i m w).1); try done; [by destruct (msg i m w)|by rewrite Hr|by left].
Qed.

(** Parameters for both, both armed; the first one starts and is aborted. *)
Definition w1 := (call 0 three w0).2.
Definition w2 := (call 1 three w1).2.
Definition w3 := (call 0 CallArm w2).2.
Definition w4 := (call 1 CallArm w3).2.
Definition w5 := (msg 0 IRQ_DAT_ARMED w4).2.
Definition w6 := (call 0 (CallAbort 5) w5).2.

Lemma three_ok (w : FgWorld ram) i : (forall fg, fgs w !! i = Some fg -> (length (fifo fg) <= 3)%nat) -> call_ok w i three.
Proof.
  intros Hlen. split; [split; repeat constructor; done|]. intros fg Hi. specialize (Hlen fg Hi). cbn. lia.
Qed.

Lemma short_queue (w : FgWorld ram) :
  forallb (fun fg => (length (fifo fg) <=? 3)%nat) (fgs w) = true ->
  forall i fg, fgs w !! i = Some fg -> (length (fifo fg) <= 3)%nat.
Proof.
  intros Hall i fg Hi. rewrite forallb_forall in Hall. apply Nat.leb_le, Hall.
  apply list_elem_of_In. by eapply list_elem_of_lookup_2.
Qed.

Local Ltac call_step i c w :=
  apply (do_call i c w); [vm_compute; lia| |vm_compute; exact I].

Lemma step1 : step w0 w1.
Proof. call_step 0%nat three w0. apply three_ok, short_queue. vm_compute. reflexivity. Qed.
Lemma step2 : step w1 w2.
Proof. call_step 1%nat three w1. apply three_ok, short_queue. vm_compute. reflexivity. Qed.
Lemma step3 : step w2 w3.
Proof. call_step 0%nat CallArm w2. exact I. Qed.
Lemma step4 : step w3 w4.
Proof. call_step 1%nat CallArm w3. exact I. Qed.
Lemma step5 : step w4 w5.
Proof. apply (do_irq 0 IRQ_DAT_ARMED w4); [vm_compute; lia|vm_compute; reflexivity]. Qed.
Lemma step6 : step w5 w6.
Proof. call_step 0%nat (CallAbort 5) w5. vm_compute. intuition congruence. Qed.

Lemma reached : rtc step w0 w6.
Proof.
  exact (rtc_l _ _ _ _ step1 (rtc_l _ _ _ _ step2 (rtc_l _ _ _ _ step3 (rtc_l _ _ _ _ step4
    (rtc_l _ _ _ _ step5 (rtc_once _ _ step6)))))).
Qed.

(** The abort is not answered in time; the generator is used again. *)
Definition w7 := (ResetFailed ecaadr mbx 2 0 w6).2.
Definition w8 := (call 0 three w7).2.
Definition w9 := (call 0 CallArm w8).2.
Lemma step7 : step w6 w7.
Proof.
  destruct (live (fw_loop w6)) as [|s l] eqn:E; [vm_compute in E; discriminate E|].
  assert (src_slot s = 0%nat) as Es by (vm_compute in E; by injection E as <- _).
  apply (step_timeout _ _ _ _ _ _ w6 s (ResetFailed ecaadr mbx 2 0 w6).1); [rewrite E; by left| |vm_compute; exact I].
  rewrite Es. unfold w7. by destruct (ResetFailed ecaadr mbx 2 0 w6).
Qed.
Lemma step8 : step w7 w8.
Proof. call_step 0%nat three w7. apply three_ok, short_queue. vm_compute. reflexivity. Qed.
Lemma step9 : step w8 w9.
Proof. call_step 0%nat CallArm w8. exact I. Qed.
Lemma reached_again : rtc step w6 w9.
Proof. exact (rtc_l _ _ _ _ step7 (rtc_l _ _ _ _ step8 (rtc_once _ _ step9))). Qed.

Definition gen_at (i : nat) (w : FgWorld ram) : FunctionGeneratorImpl := default (gen 0 0) (fgs w !! i).


Lemma gen_at_w6 : fgs w6 !! 0%nat = Some (gen_at 0 w6) /\ fgs w6 !! 1%nat = Some (gen_at 1 w6).
Proof. split; vm_compute; reflexivity. Qed.


Lemma inv_w6 : inv 0 2 slots w6.
Proof. exact (steps_inv ecaadr mbx 0 2 slots 2 layout w0 w6 (fresh_inv 0 2 slots layout w0 w0_fresh) reached). Qed.
Lemma at_w6 i : (i < 2)%nat -> at_any 0 2 slots i (gen_at i w6) w6.
Proof.
  intros Hi. split; [apply inv_w6|]. destruct i as [|[|i]]; [apply gen_at_w6..|lia].
Qed.

Lemma refill_refines_queue_witness :
  match refill 0 2 slots 1 false w6 with
  | (Ret _, w) => exists j, pending 0 slots (gen_at 1 w) (memory w) = drop j (pending 0 slots (gen_at 1 w6) (memory w6))
  | _ => False
  end.
Proof.
  assert (at_fg 0 2 slots 1 (gen_at 1 w6) (memory w6) w6) as Hw by (apply at_fg_any, at_w6; lia).
  pose proof (refill_refines_queue ecaadr mbx 0 2 slots 2 layout 1 (gen_at 1 w6) (memory w6)
    ltac:(vm_compute; congruence) w6 Hw) as H.
  destruct (refill 0 2 slots 1 false w6) as [[[]|e|why] w] eqn:E;
    [|vm_compute in E; discriminate E..].
  destruct H as (fg' & j & Hi & _ & Hp & _). exists j. unfold gen_at at 1. by rewrite Hi.
Defined.

Lemma append_all_or_nothing_witness :
  exists what, appendParameterSet 0 2 slots 0 [1; 2] [3; 4] [5; 6] [0; 8] [0; 0] [0; 0] [0; 0] w0
    = (Throw (Error INVALID_ARGS what), w0).
Proof.
  apply (append_all_or_nothing ecaadr mbx 0 2 slots 2 layout 0 (gen 0 0)).
  - split; repeat constructor; done.
  - vm_compute. reflexivity.
  - right. vm_compute. congruence.
Defined.

Lemma abort_ends_witness :
  match ResetFailed ecaadr mbx 2 0 w6 with
  | (Ret keep, w) => keep = false /\ enabled (gen_at 0 w) = false
  | _ => False
  end.
Proof.
  pose proof (proj2 (abort_ends ecaadr mbx 0 2 slots 2 layout 0 (gen_at 0 w6) 5
    ltac:(vm_compute; reflexivity)) ltac:(vm_compute; reflexivity) w6 (at_w6 0 ltac:(lia))) as H.
  destruct (ResetFailed ecaadr mbx 2 0 w6) as [[keep|e|why] w] eqn:E; [|vm_compute in E; discriminate E..].
  destruct H as [Hk (fg' & Hi & He & _)]. split; [done|]. unfold gen_at. by rewrite Hi.
Defined.

(** After the timeout the generator is armed again; the second abort sets up no
    timeout, although the generator is enabled. *)
Lemma second_abort_has_no_timeout_witness :
  enabled (gen_at 0 w9) = true /\ live (fw_loop (call 0 (CallAbort 6) w9).2) = [].
Proof.
  split; [vm_compute; reflexivity|].
  pose proof (second_abort_has_no_timeout ecaadr mbx 0 2 slots 2 0 w6 w9 (gen_at 0 w6) (proj1 gen_at_w6)
    ltac:(vm_compute; reflexivity) reached_again 6 (fw_caller w9) (fw_now w9)) as H.
  assert (with_client (fw_caller w9) (fw_now w9) w9 = w9) as E by (generalize w9; by intros []).
  rewrite E in H. rewrite H. vm_compute. reflexivity.
Defined.
End FgDemo.
