(* ===== verification/MasterFg.v ===== *)
(** * All function generators at once: src/MasterFunctionGenerator.cpp,
    FunctionGeneratorFirmware.cpp

    A master works on a list of active generators, some of all that the firmware
    reported; it has its own start tag, which the generators get when it changes.
    [FunctionGeneratorFirmware] probes the microcontroller, and makes the
    generators and their master from what the firmware's scan found. *)
From stdpp Require Import gmap.
From S2P Require Import Prelude Bus Loop Owned EcaOps FunctionGen.
Local Open Scope Z_scope.

(** ** Further words of the shared memory (src/fg_regs.h) *)
Definition FG_MAGIC_NUMBER : Z := 0x24.
Definition FG_VERSION : Z := 0x28.
Definition FG_MB_SLOT : Z := 0x2c.
Definition FG_NUM_CHANNELS : Z := 0x30.
Definition FG_BUFFER_SIZE : Z := 0x34.
Definition FG_MACROS : Z := 0x38.
Definition FG_BUSY : Z := 0x60b8.
Definition FG_SCAN_DONE : Z := 0x100c0.
Definition FG_MACROS_SIZE : nat := 256.
Definition SWI_SCAN : Z := 0x00040000.

Section MasterFunctionGenerator.
Context {D : Type} `{Bus D}.
Context (mailbox fgb num_channels buffer_size : Z).
Let W := FgWorld D.

(** ** The master's members *)
Definition get_master : M W MasterFunctionGenerator := fun w =>
  match front w with
  | Master m => (Ret m, w)
  | Singles _ => (Crash "no master", w)
  end.
Definition set_active (l : list nat) (m : MasterFunctionGenerator) : MasterFunctionGenerator :=
  mkMaster (allFunctionGenerators m) l (generateIndividualSignals m) (m_startTag m) (m_service m).
Definition set_individual (b : bool) (m : MasterFunctionGenerator) : MasterFunctionGenerator :=
  mkMaster (allFunctionGenerators m) (activeFunctionGenerators m) b (m_startTag m) (m_service m).
Definition set_m_startTag (v : Z) (m : MasterFunctionGenerator) : MasterFunctionGenerator :=
  mkMaster (allFunctionGenerators m) (activeFunctionGenerators m) (generateIndividualSignals m) v (m_service m).
Definition on_front (f : MasterFunctionGenerator -> MasterFunctionGenerator) : M W unit :=
  m ← get_master; set_front (Master (f m)).

(** [ownerOnly()] *)
Definition master_owner : M W unit :=
  m ← get_master;
  w ← get;
  of_outcome (ownerOnly (fw_caller w) (m_service m)).

(** The constructor; [tag]: [startTag] is not initialised. *)
Definition new_master (fs : list nat) (tag : Z) (service : option Z) : MasterFunctionGenerator :=
  mkMaster fs fs false tag service.

(** ** Appending *)

(** The data of one generator. *)
Record ParameterSet := mkSet {
  set_a : list Z; set_b : list Z; set_c : list Z;
  set_step : list Z; set_freq : list Z; set_shift_a : list Z; set_shift_b : list Z
}.
Fixpoint parameter_sets (a b c st fr sa sb : list (list Z)) : list ParameterSet :=
  match a, b, c, st, fr, sa, sb with
  | a0 :: a', b0 :: b', c0 :: c', st0 :: st', fr0 :: fr', sa0 :: sa', sb0 :: sb' =>
      mkSet a0 b0 c0 st0 fr0 sa0 sb0 :: parameter_sets a' b' c' st' fr' sa' sb'
  | _, _, _, _, _, _, _ => []
  end.

Definition append_set (i : nat) (s : ParameterSet) : M W bool :=
  appendParameterSet fgb num_channels buffer_size i (set_a s) (set_b s) (set_c s) (set_step s) (set_freq s)
    (set_shift_a s) (set_shift_b s).

(** [activeFunctionGenerators[i]->appendParameterSet(...)] for all [i] with data. *)
Fixpoint append_sets (active : list nat) (ss : list ParameterSet) (low : bool) : M W bool :=
  match active, ss with
  | i :: active', s :: ss' =>
      if bool_decide (set_a s = []) then append_sets active' ss' low
      else l ← append_set i s; append_sets active' ss' (low || l)
  | _, _ => mret low
  end.

Definition fgcount_mismatch (what : string) : exn := Error INVALID_ARGS (what +:+ " fgcount mismatch").

Definition AppendParameterSets (a b c st fr sa sb : list (list Z)) : M W bool :=
  master_owner;;
  let fgcount := length a in
  let other (l : list (list Z)) := negb (bool_decide (length l = fgcount)) in
  throw_if (other b) (fgcount_mismatch "coeff_b");;
  throw_if (other c) (fgcount_mismatch "coeff_c");;
  throw_if (other st) (fgcount_mismatch "step");;
  throw_if (other fr) (fgcount_mismatch "freq");;
  throw_if (other sa) (fgcount_mismatch "shift_a");;
  throw_if (other sb) (fgcount_mismatch "shift_b");;
  m ← get_master;
  throw_if (bool_decide (length (activeFunctionGenerators m) < fgcount)%nat)
    (Error INVALID_ARGS "More datasets than function generators");;
  append_sets (activeFunctionGenerators m) (parameter_sets a b c st fr sa sb) false.

(** The index map in the shared memory: from (place among the active generators,
    beam process) to parameters.  [None]: the name is not there. *)
Definition IndexMap : Type := option (gmap (Z * Z) (list ParameterTuple)).

Fixpoint append_beam_process (active : list nat) (place beam_process : Z)
    (index_map : gmap (Z * Z) (list ParameterTuple)) : M W unit :=
  match active with
  | [] => mret tt
  | i :: active' =>
      (match index_map !! (place, beam_process) with
       | Some ts => _ ← appendParameterTuples fgb num_channels buffer_size i ts; mret tt
       | None => mret tt
       end);;
      append_beam_process active' (place + 1) beam_process index_map
  end.

(** [shm]: what [InitializeSharedMemory] opened; [sane]: [check_sanity()]. *)
Definition AppendParameterTuplesForBeamProcess (beam_process : Z) (shm : option IndexMap) (sane : bool) : M W unit :=
  match shm with
  | None => throw (Error INVALID_ARGS "Shared memory not initialized")
  | Some index_map =>
      throw_if (negb sane) (Error INVALID_ARGS "Shared memory is insane");;
      m ← get_master;
      match index_map, activeFunctionGenerators m with
      | Some im, active => append_beam_process active 0 beam_process im
      | None, [] => mret tt
      | None, _ => crash "indexMap->find"
      end
  end.

(** ** One operation on all active generators: errors are collected *)

(** [try { f(i) } catch (saftbus::Error& ex) { error_msg += ... }] for all. *)
Fixpoint try_all (f : nat -> M W unit) (l : list nat) (msg : string) : M W string :=
  match l with
  | [] => mret msg
  | i :: l' =>
      msg' ← try_catch (f i;; mret msg)
               (fun e => match e with
                         | Error _ what => fg ← get_fg i; mret (msg +:+ GetName fg +:+ what)
                         | _ => throw e
                         end);
      try_all f l' msg'
  end.

Definition do_all (f : nat -> M W unit) : M W unit :=
  m ← get_master;
  msg ← try_all f (activeFunctionGenerators m) "";
  throw_if (negb (bool_decide (msg = EmptyString))) (Error INVALID_ARGS msg).

Definition MasterFlush : M W unit := master_owner;; do_all flush.

(** [if (fg->fillLevel>0) fg->arm();] *)
Definition arm_filled (i : nat) : M W unit :=
  fg ← get_fg i;
  if 0 <? fillLevel fg then arm mailbox fgb num_channels buffer_size i else mret tt.

Definition arm_all : M W unit := do_all arm_filled.
Definition MasterArm : M W unit := master_owner;; arm_all.

(** [rnd]: what [rand()] returns for each generator. *)
Definition reset_all (rnd : nat -> Z) : M W unit :=
  m ← get_master;
  for_each (fun i => Reset mailbox i (rnd i)) (activeFunctionGenerators m).
Definition MasterAbort (rnd : nat -> Z) : M W unit := master_owner;; reset_all rnd.

(** Nobody calls it. *)
Definition master_ownerQuit (rnd : nat -> Z) : M W unit :=
  reset_all rnd;;
  on_front (fun m => set_active (allFunctionGenerators m) m).

(** ** The start tag *)
Fixpoint none_enabled (l : list nat) : M W unit :=
  match l with
  | [] => mret tt
  | i :: l' =>
      fg ← get_fg i;
      throw_if (enabled fg) (Error INVALID_ARGS "FG Enabled, cannot set StartTag");;
      none_enabled l'
  end.

Definition MasterSetStartTag (val : Z) : M W unit :=
  master_owner;;
  m ← get_master;
  none_enabled (activeFunctionGenerators m);;
  if val =? m_startTag m then mret tt
  else
    on_front (set_m_startTag val);;
    for_each (fun i => on_fg i (set_startTag val)) (activeFunctionGenerators m).

Definition MasterGetStartTag : M W Z := m ← get_master; mret (m_startTag m).

(** ** The active generators *)
Definition setGenerateIndividualSignals (b : bool) : M W unit := on_front (set_individual b).
Definition getGenerateIndividualSignals : M W bool := m ← get_master; mret (generateIndividualSignals m).

Definition ResetActiveFunctionGenerators : M W unit :=
  master_owner;;
  on_front (fun m => set_individual false (set_active (allFunctionGenerators m) m)).

(** The first of all generators with a name. *)
Definition find_name (fs : list FunctionGeneratorImpl) (all : list nat) (name : string) : option nat :=
  head (filter (fun i => option_map GetName (fs !! i) = Some name) all).

Fixpoint find_names (fs : list FunctionGeneratorImpl) (all : list nat) (names : list string) : outcome (list nat) :=
  match names with
  | [] => Ret []
  | name :: names' =>
      match find_name fs all name with
      | None => Throw (Error INVALID_ARGS ("Function Generator Not Found " +:+ name))
      | Some i => match find_names fs all names' with
                  | Ret l => Ret (i :: l)
                  | Throw e => Throw e
                  | Crash why => Crash why
                  end
      end
  end.

Definition SetActiveFunctionGenerators (names : list string) : M W unit :=
  master_owner;;
  throw_if (bool_decide (names = [])) (Error INVALID_ARGS "No Function Generators Selected");;
  m ← get_master;
  fs ← gets fgs;
  l ← of_outcome (find_names fs (allFunctionGenerators m) names);
  on_front (set_active l).

(** ** Reading *)
Definition read_active {A} (f : FunctionGeneratorImpl -> A) : M W (list A) :=
  m ← get_master; w ← get; mret (f <$> active_impls m w).
Definition ReadExecutedParameterCounts : M W (list Z) := read_active executedParameterCount.
Definition ReadFillLevels : M W (list Z) := read_active fillLevel.
Definition ReadNames : M W (list string) := read_active GetName.
Definition ReadArmed : M W (list Z) := read_active (fun fg => if armed fg then 1 else 0).
Definition ReadEnabled : M W (list Z) := read_active (fun fg => if enabled fg then 1 else 0).
Definition ReadRunning : M W (list Z) := read_active (fun fg => if fg_running fg then 1 else 0).
Definition ReadAllNames : M W (list string) :=
  m ← get_master; w ← get; mret (GetName <$> omap (fun i => fgs w !! i) (allFunctionGenerators m)).

Definition all_armed : M W bool :=
  m ← get_master; w ← get;
  mret (forallb (fun fg => if 0 <? fillLevel fg then armed fg else true) (active_impls m w)).
Definition all_stopped : M W bool :=
  m ← get_master; w ← get;
  mret (forallb (fun fg => negb (fg_running fg)) (active_impls m w)).
End MasterFunctionGenerator.

(** ** [FunctionGeneratorFirmware] *)
Section FunctionGeneratorFirmware.
Context {D : Type} `{Bus D}.
Context (mailbox : Z).
(** [usleep] *)
Context (usleep : Z -> D -> D).
Let W := FgWorld D.

Definition word_at (fgb r : Z) : Z := fgb + SHM_BASE + r.

(** The constructor: the first microcontroller with the firmware, of those whose
    memories begin at the addresses [cpus]; its address and version. *)
Fixpoint probe (cpus : list Z) : M D (Z * Z) :=
  match cpus with
  | [] => throw (Error FAILED "no FunctionGeneratorFirmware found")
  | fgb :: cpus' =>
      rs ← cycle [BusR (word_at fgb FG_MAGIC_NUMBER); BusR (word_at fgb FG_VERSION)];
      let magic := nth_read rs 0 in
      let version := nth_read rs 1 in
      if (magic =? 0xdeadbeef) && ((version =? 3) || (version =? 4)) then mret (fgb, version)
      else probe cpus'
  end.

Context (fgb fw_version : Z).

Definition done_flag : option Z :=
  if fw_version =? 3 then Some (word_at fgb FG_SCAN_DONE)
  else if fw_version =? 4 then Some (word_at fgb FG_BUSY) else None.

(** The rounds from number [i] on: [k] are left before the last one. *)
Fixpoint wait_scan (a : Z) (k : nat) : M D unit :=
  v ← dev_read a;
  if v =? 0 then mret tt
  else match k with
       | O => throw (Error FAILED "timeout while waiting for fg-firmware scan")
       | S k' => modify (usleep 100000);; wait_scan a k'
       end.

Definition firmware_rescan (slot : Z) : M D unit :=
  match done_flag with
  | Some a => dev_write a 1;; UseSlot mailbox slot SWI_SCAN;; wait_scan a 200
  | None => UseSlot mailbox slot SWI_SCAN;; crash "done is not initialised"
  end.

Definition nothing_runs (w : W) : bool :=
  match front w with
  | Singles _ => forallb (fun fg => negb (fg_running fg)) (fgs w)
  | Master m => forallb (fun fg => negb (fg_running fg)) (active_impls m w)
  end.

(** Configuration and macros, after the scan. *)
Definition read_config : M D (Z * Z * list Z) :=
  rs ← cycle (BusR (word_at fgb FG_NUM_CHANNELS) :: BusR (word_at fgb FG_BUFFER_SIZE) ::
              ((fun j => BusR (word_at fgb (FG_MACROS + Z.of_nat j * 4))) <$> seq 0 FG_MACROS_SIZE));
  mret (nth_read rs 0, nth_read rs 1, drop 2 rs).

(** One generator for each macro that is not zero. *)
Fixpoint make_generators (slot : Z) (irq_address : nat -> Z) (capacity : option Z) (j : nat) (macros : list Z)
    : M W unit :=
  match macros with
  | [] => mret tt
  | mac :: macros' =>
      (if mac =? 0 then mret tt
       else fg ← new_fg mailbox slot (Z.of_nat j) mac (irq_address j) capacity; on_fgs (fun fs => fs ++ [fg]));;
      make_generators slot irq_address capacity (S j) macros'
  end.

(** What [clear] does to the generators. *)
Definition clear_fgs : M W unit :=
  fs ← gets fgs;
  for_each (destroy_fg mailbox) fs;;
  on_fgs (fun _ => []);;
  set_front (Singles []).

(** The firmware's scan: the mailbox slot of the microcontroller, the number of channels,
    the size of their buffers, and the macros; all channels are free and disabled. *)
Definition scan_channels : M W (Z * Z * Z * list Z) :=
  rs ← on_dev (cycle [BusR (word_at fgb FG_MB_SLOT)]);
  let slot := nth_read rs 0 in
  throw_if ((slot <? 0) && (127 <? slot)) (Error INVALID_ARGS "mailbox slot number not in range 0 to 127");;
  on_dev (firmware_rescan slot);;
  '(num_channels, buffer_size, macros) ← on_dev read_config;
  on_allocation (fun _ => replicate (Z.to_nat num_channels) (-1));;
  for_each (fun j => on_dev (UseSlot mailbox slot (Z.lor SWI_DISABLE (Z.of_nat j)))) (seq 0 (Z.to_nat num_channels));;
  mret (slot, num_channels, buffer_size, macros).

Definition not_running : M W unit :=
  ok ← gets nothing_runs;
  throw_if (negb ok)
    (Error ACCESS_DENIED "FunctionGeneratorFirmware::Scan is not allowed if any channel is active").

(** The common part of [ScanMasterFg] and [ScanFgChannels]; the result is the new
    layout. *)
Definition scan (irq_address : nat -> Z) (capacity : option Z) : M W (Z * Z) :=
  not_running;;
  clear_fgs;;
  '(slot, num_channels, buffer_size, macros) ← scan_channels;
  make_generators slot irq_address capacity 0 macros;;
  mret (num_channels, buffer_size).

(** [ScanMasterFg] for an owner whose service is [service]; [tag]: the start tag
    that the master happens to have. *)
Definition ScanMasterFg (service : option Z) (irq_address : nat -> Z) (capacity : option Z) (tag : Z) : M W (Z * Z) :=
  w ← get;
  of_outcome (ownerOnly (fw_caller w) service);;
  layout ← scan irq_address capacity;
  fs ← gets fgs;
  set_front (Master (new_master (seq 0 (length fs)) tag (Some (-1))));;
  mret layout.

Definition ScanFgChannels (service : option Z) (irq_address : nat -> Z) (capacity : option Z) : M W (Z * Z) :=
  w ← get;
  of_outcome (ownerOnly (fw_caller w) service);;
  layout ← scan irq_address capacity;
  fs ← gets fgs;
  set_front (Singles ((fun _ => Some (client_id (fw_caller w))) <$> fs));;
  mret layout.
End FunctionGeneratorFirmware.
