(* ===== verification/MasterCorrect.v ===== *)
(** * The master of the function generators is correct

    Calls of the master keep the invariant of the system and never crash; an
    operation on all generators reaches all of them; the firmware's scan sets up
    the fresh system that [FunctionGenSystem] starts from. *)
From stdpp Require Import gmap.
From S2P Require Import Prelude Bus Loop LoopCorrect Owned EcaHw EcaOps FunctionGen.
From S2P Require Import FunctionGenCorrect FunctionGenRuns FunctionGenSystem MasterFg.
Local Open Scope Z_scope.

(** [Reset] leaves the other generators and the front alone. *)
Section Frames.
Context {D : Type} `{!Bus D}.
Implicit Types (w : FgWorld D).

Definition framed (ms : MasterFunctionGenerator) (n : nat) w : Prop := front w = Master ms /\ length (fgs w) = n.

Lemma stable_framed ms n i : stable i (framed ms n).
Proof.
  split.
  - intros w w' E1 _ E3 [H1 H2]. split; congruence.
  - intros f w fg _ _ _ [H1 H2]. split; [done|]. cbn. by rewrite length_alter.
Qed.

Lemma blind_framed ms n i : blind i (framed ms n).
Proof.
  split.
  - intros w w' E1 E3 [H1 H2]. split; congruence.
  - intros f w [H1 H2]. split; [done|]. cbn. by rewrite length_alter.
Qed.

(** What the generators other than [i] look like. *)
Definition others (fs : list FunctionGeneratorImpl) (i : nat) w : Prop :=
  forall j, j <> i -> fgs w !! j = fs !! j.

Lemma stable_others fs i : stable i (others fs i).
Proof.
  split.
  - intros w w' E1 _ _ H. unfold others. by rewrite E1.
  - intros f w fg _ _ _ H j Hne. cbn. rewrite list_lookup_alter_ne by done. by apply H.
Qed.

(** The loop after [Reset]: at most one source more. *)
Lemma framed_Reset mailbox ms n i rnd c w :
  framed ms n w -> id_counter (fw_loop w) <= c -> 0 <= id_counter (fw_loop w) < 2 ^ 32 - 1 -> 0 <= rnd < 2 ^ 31 ->
  let w' := (Reset mailbox i rnd w).2 in framed ms n w' /\ id_counter (fw_loop w') <= c + 1.
Proof.
  intros Hw Hc Hk Hr. cbn zeta.
  set (F := fun w' : FgWorld D => framed ms n w' /\ id_counter (fw_loop w') <= c + 1).
  change (F (Reset mailbox i rnd w).2).
  set (Q := fun w' => framed ms n w' /\ fw_loop w' = fw_loop w).
  assert (stable i Q) as HQ.
  { split.
    - intros w1 w2 E1 E2 E3 [H1 H2]. split; [by apply (st_core i _ (stable_framed ms n i) w1)|congruence].
    - intros f w1 fg Hf Ht He [H1 H2]. split; [by apply (st_fg i _ (stable_framed ms n i) f w1 fg)|done]. }
  assert (Q w) as Hq by done.
  assert (forall w', Q w' -> F w') as Hend
    by (intros w' [H1 H2]; split; [done|rewrite H2; lia]).
  unfold Reset. pose proof (keeps_get_fg i Q HQ w Hq) as H1. unfold mbind at 1, M_bind at 1.
  destruct (get_fg i w) as [[fg|e|why] w1]; [|by apply Hend..]. cbn [snd] in H1.
  destruct (channel fg =? -1); [by apply Hend|]. destruct (abort fg); [by apply Hend|].
  pose proof (keeps_on_fg i Q HQ (set_abort true) ltac:(by intros ?) w1 H1) as H2.
  rewrite (run_bind_ret (on_fg i (set_abort true)) _ w1 tt (on_fg i (set_abort true) w1).2 eq_refl).
  revert H2. generalize (on_fg i (set_abort true) w1).2. intros w2 H2.
  pose proof (keeps_use_slot mailbox i Q HQ fg (Z.lor SWI_DISABLE (channel fg)) w2 H2) as H3.
  unfold mbind at 1, M_bind at 1. destruct (use_slot mailbox fg _ w2) as [[[]|e|why] w3]; [|by apply Hend..].
  cbn [snd] in H3. destruct (connected (resetTimeout fg)); [by apply Hend|].
  rewrite (run_bind_ret (gets fw_now) _ w3 (fw_now w3) w3) by done. destruct H3 as [[F1 F2] El].
  unfold on_fg_timers, mbind, M_bind. rewrite El.
  destruct (connect_ids (new_timeout (fw_now w3) 1000 1000) i rnd (fw_loop w)) as (_ & Ec & _).
  destruct (connect _ i rnd (fw_loop w)) as [h l']. cbn in Ec |- *. split; [split; [done|]|].
  - cbn. by rewrite length_alter.
  - change (id_counter l' <= c + 1).
    destruct (new_source_id_counter (id_counter (fw_loop w)) rnd Hk Hr) as [E _]. rewrite Ec. unfold new_source_id in E. cbn in E. lia.
Qed.
End Frames.

(** ** Calls of the master *)
Section MasterCalls.
Context {D : Type} `{!Bus D} `{!FgMemory D}.
Context (eca mailbox fgb num_channels buffer_size : Z) (time_fuel : nat).
Context `{!FgDevice D eca mailbox fgb num_channels buffer_size time_fuel}.
Context (Hlay : layout_ok num_channels buffer_size).
Local Abbreviation ok := (fgs_ok fgb num_channels buffer_size).
Local Abbreviation at_any := (at_any fgb num_channels buffer_size).
Local Abbreviation sys_inv := (inv fgb num_channels buffer_size).
Implicit Types (w : FgWorld D) (fg : FunctionGeneratorImpl) (ms : MasterFunctionGenerator).

(** The system with master [ms] and [n] generators. *)
Definition mworld ms n w : Prop := sys_inv w /\ framed ms n w.
Definition in_range (n : nat) (l : list nat) : Prop := Forall (fun i => (i < n)%nat) l.

Lemma mworld_op {A} ms n i (op : M (FgWorld D) A) :
  (i < n)%nat -> (forall fg, triple (at_any i fg) op (fun _ => ok) ok) ->
  (forall Q, stable i Q -> keeps Q op) -> triple (mworld ms n) op (fun _ => mworld ms n) (mworld ms n).
Proof.
  intros Hi Hop Hk w [[Hok Ht] Hf]. destruct (present n i w (proj2 Hf) Hi) as [fg Hfg].
  pose proof (Hop fg w (conj Hok Hfg)) as H1. pose proof (Hk _ (stable_timers i) w Ht) as H2.
  pose proof (Hk _ (stable_framed ms n i) w Hf) as H3.
  destruct (op w) as [[a|e|why] w']; [by split; [split|]..|done].
Qed.

Lemma mworld_get ms n {A} (k : MasterFunctionGenerator -> M (FgWorld D) A) Q E :
  triple (mworld ms n) (k ms) Q E -> triple (mworld ms n) (get_master ≫= k) Q E.
Proof.
  intros Hk w Hw. rewrite (run_bind_ret get_master _ w ms w); [by apply Hk|].
  unfold get_master. by rewrite (proj1 (proj2 Hw)).
Qed.

Lemma mworld_owner ms n : triple (mworld ms n) (master_owner : M (FgWorld D) unit) (fun _ => mworld ms n) (mworld ms n).
Proof.
  apply mworld_get. intros w Hw. unfold get, mbind, M_bind, of_outcome, ownerOnly, with_service.
  destruct (m_service ms), (has_container (fw_caller w)); try done. by destruct (foreign_owner _ _).
Qed.

Lemma mworld_front ms n f :
  triple (mworld ms n) (on_front f : M (FgWorld D) unit) (fun _ => mworld (f ms) n) (mworld ms n).
Proof.
  apply mworld_get. intros w [[[H1 H2 H3 H4] [H5 H6 H7]] [Hf Hl]]. by split; [split|].
Qed.

(** *** Operations on one generator *)
Lemma mworld_flush ms n i : (i < n)%nat -> triple (mworld ms n) (flush i) (fun _ => mworld ms n) (mworld ms n).
Proof.
  intros Hi. apply (mworld_op ms n i); [done| |by intros Q HQ; apply keeps_flush].
  intros fg. eapply triple_post; [by apply triple_flush|]. by intros [] w [[] _].
Qed.

Lemma mworld_arm ms n i : (i < n)%nat ->
  triple (mworld ms n) (arm_filled mailbox fgb num_channels buffer_size i) (fun _ => mworld ms n) (mworld ms n).
Proof.
  intros Hi. apply (mworld_op ms n i); [done|..].
  - intros fg. unfold arm_filled. apply any_get. destruct (0 <? fillLevel fg).
    + eapply triple_post; [by apply (triple_arm eca mailbox fgb num_channels buffer_size time_fuel)|].
      by intros [] w (fg' & [] & _).
    + apply triple_ret. by intros w [].
  - intros Q HQ. unfold arm_filled. apply keeps_bind; [by apply (keeps_get_fg i)|]. intros fg.
    apply keeps_if; [by apply (keeps_arm _ _ _ _ i)|apply keeps_ret].
Qed.

Lemma mworld_tag ms n i v : (i < n)%nat ->
  triple (mworld ms n) (on_fg i (set_startTag v)) (fun _ => mworld ms n) (mworld ms n).
Proof.
  intros Hi. apply (mworld_op ms n i); [done|..].
  - intros fg. eapply triple_post; [apply (any_on_fg fgb num_channels buffer_size i fg (set_startTag v)); try done|].
    + intros ? ? [? ? ? ? ? ? ? ? ? ? ? ? ? Hring]. split; try done. intros Hch. destruct (Hring Hch). by split.
    + by intros [] w [].
  - intros Q HQ. by apply (keeps_on_fg i Q HQ).
Qed.

(** *** Operations on all *)
Lemma mworld_try_all ms n f l : forall msg,
  in_range n l -> (forall i, (i < n)%nat -> triple (mworld ms n) (f i) (fun _ => mworld ms n) (mworld ms n)) ->
  triple (mworld ms n) (try_all f l msg) (fun _ => mworld ms n) (mworld ms n).
Proof.
  induction l as [|i l IH]; intros msg Hl Hf; cbn [try_all]; [by apply triple_ret|].
  apply Forall_cons in Hl as [Hi Hl]. eapply (triple_bind _ _ (fun _ => mworld ms n)); [|intros msg'; by apply IH].
  eapply triple_try_catch.
  - eapply triple_bind; [by apply Hf|]. intros []. by apply triple_ret.
  - intros [ty what|what| |]; try (by apply triple_throw).
    intros w Hw. destruct (present n i w (proj2 (proj2 Hw)) Hi) as [fg Hfg].
    rewrite (run_bind_ret (get_fg i) _ w fg w) by (unfold get_fg; by rewrite Hfg). exact Hw.
Qed.

Lemma mworld_do_all ms n f :
  in_range n (activeFunctionGenerators ms) ->
  (forall i, (i < n)%nat -> triple (mworld ms n) (f i) (fun _ => mworld ms n) (mworld ms n)) ->
  triple (mworld ms n) (do_all f) (fun _ => mworld ms n) (mworld ms n).
Proof.
  intros Hl Hf. unfold do_all. apply mworld_get.
  eapply triple_bind; [by apply mworld_try_all|]. intros msg.
  apply (triple_post _ _ _ (fun _ w => mworld ms n w /\ negb (bool_decide (msg = EmptyString)) = false)).
  - by apply triple_throw_if.
  - by intros [] w [].
Qed.

Lemma mworld_reset_all ms n l rnd : forall c,
  in_range n l -> (forall i, 0 <= rnd i < 2 ^ 31) -> c + Z.of_nat (length l) < 2 ^ 32 - 1 ->
  triple (fun w => mworld ms n w /\ id_counter (fw_loop w) <= c)
    (for_each (fun i => Reset mailbox i (rnd i)) l : M (FgWorld D) unit) (fun _ => mworld ms n) (mworld ms n).
Proof.
  induction l as [|i l IH]; intros c Hl Hr Hc; cbn [for_each]; [by intros w []|].
  apply Forall_cons in Hl as [Hi Hl]. cbn [length] in Hc.
  eapply (triple_bind _ _ (fun _ w => mworld ms n w /\ id_counter (fw_loop w) <= c + 1)); [|intros []; apply IH; try done; lia].
  intros w [[[Hok Ht] Hf] Hk]. destruct (present n i w (proj2 Hf) Hi) as [fg Hfg].
  pose proof (tm_ids w Ht) as (_ & _ & H0).
  pose proof (triple_Reset eca mailbox fgb num_channels buffer_size time_fuel Hlay i fg (rnd i) w (conj Hok Hfg)) as H1.
  pose proof (timers_Reset mailbox i (rnd i) w fg Ht Hfg (g_enabled _ _ _ _ _ _ (inv_fgs _ _ _ w Hok i fg Hfg)) (Hr i) ltac:(lia)) as H2.
  destruct (framed_Reset mailbox ms n i (rnd i) c w Hf Hk ltac:(lia) (Hr i)) as [H3 H4].
  destruct (Reset mailbox i (rnd i) w) as [[[]|e|why] w']; [|by split; [split|]|done].
  destruct H1 as (h & [] & _). by split; [split; [split|]|].
Qed.

Lemma mworld_for_each ms n {B} (f : B -> M (FgWorld D) unit) l :
  (forall x, x ∈ l -> triple (mworld ms n) (f x) (fun _ => mworld ms n) (mworld ms n)) ->
  triple (mworld ms n) (for_each f l) (fun _ => mworld ms n) (mworld ms n).
Proof.
  induction l as [|x l IH]; intros Hf; cbn [for_each]; [by apply triple_ret|].
  eapply triple_bind; [by apply Hf; left|]. intros []. apply IH. intros y Hy. apply Hf. by right.
Qed.

(** *** Appending: the queues stay below their limit *)
Definition rows_of (ss : list ParameterSet) : nat := sum_list ((fun s => length (set_a s)) <$> ss).
Definition set_typed (s : ParameterSet) : Prop :=
  columns (set_a s) (set_b s) (set_c s) (set_step s) (set_freq s) (set_shift_a s) (set_shift_b s).
Definition room (k : nat) w : Prop :=
  forall j fg, fgs w !! j = Some fg -> Z.of_nat (length (fifo fg) + k) < 2 ^ 32.

Lemma tuples_length a : forall b c st fr sa sb, (length (tuples a b c st fr sa sb) <= length a)%nat.
Proof. induction a as [|x a IH]; intros [] [] [] [] [] []; cbn; try lia. specialize (IH l l0 l1 l2 l3 l4). lia. Qed.

Lemma mworld_append_set ms n i s k :
  (i < n)%nat -> set_typed s ->
  triple (fun w => mworld ms n w /\ room (length (set_a s) + k) w) (append_set fgb num_channels buffer_size i s)
    (fun _ w => mworld ms n w /\ room k w) (mworld ms n).
Proof.
  intros Hi Hs w [[[Hok Ht] Hf] Hroom]. destruct (present n i w (proj2 Hf) Hi) as [fg Hfg].
  pose proof (triple_append eca mailbox fgb num_channels buffer_size time_fuel Hlay i fg _ _ _ _ _ _ _ Hs
    ltac:(pose proof (Hroom i fg Hfg); lia) w (conj Hok Hfg)) as H1.
  assert (forall Q, stable i Q -> keeps Q (append_set (D := D) fgb num_channels buffer_size i s)) as Hk
    by (intros Q HQ; by apply (keeps_append _ _ _ i Q HQ)).
  pose proof (Hk _ (stable_timers i) w Ht) as H2. pose proof (Hk _ (stable_framed ms n i) w Hf) as H3.
  pose proof (Hk _ (stable_others (fgs w) i) w ltac:(done)) as H4.
  change (appendParameterSet fgb num_channels buffer_size i (set_a s) (set_b s) (set_c s) (set_step s) (set_freq s)
    (set_shift_a s) (set_shift_b s) w) with (append_set fgb num_channels buffer_size i s w) in H1.
  destruct (append_set fgb num_channels buffer_size i s w) as [[low|e|why] w']; [|by split; [split|]|done].
  destruct H1 as (fg' & [Hok' Hfg'] & (k' & _ & Eq & _) & _). split; [by split; [split|]|].
  intros j fj Hj. destruct (decide (j = i)) as [->|Hne].
  - rewrite Hfg' in Hj. injection Hj as <-. rewrite Eq, length_drop, length_app.
    pose proof (tuples_length (set_a s) (set_b s) (set_c s) (set_step s) (set_freq s) (set_shift_a s) (set_shift_b s)).
    specialize (Hroom i fg Hfg). lia.
  - cbn in H4. rewrite (H4 j Hne) in Hj. specialize (Hroom j fj Hj). lia.
Qed.

Lemma mworld_append_sets ms n active : forall ss low,
  in_range n active -> Forall set_typed ss ->
  triple (fun w => mworld ms n w /\ room (rows_of ss) w) (append_sets fgb num_channels buffer_size active ss low)
    (fun _ => mworld ms n) (mworld ms n).
Proof.
  induction active as [|i active IH]; intros [|s ss] low Ha Hs; cbn [append_sets]; try (by apply triple_ret; intros w []).
  apply Forall_cons in Ha as [Hi Ha]. apply Forall_cons in Hs as [Hs Hss].
  case_bool_decide as E.
  - eapply triple_pre; [|by apply IH]. intros w [H1 H2]. split; [done|]. intros j fg Hj.
    specialize (H2 j fg Hj). unfold rows_of in *. cbn in H2. rewrite E in H2. done.
  - eapply (triple_bind _ _ (fun _ w => mworld ms n w /\ room (rows_of ss) w)); [|intros l; by apply IH].
    by apply (mworld_append_set ms n i s (rows_of ss)).
Qed.

(** The parameters from the shared memory are appended unchecked. *)
Lemma mworld_append_tuples ms n i ts k :
  (i < n)%nat -> Forall tuple_ok ts ->
  triple (fun w => mworld ms n w /\ room (length ts + k) w) (appendParameterTuples fgb num_channels buffer_size i ts)
    (fun _ w => mworld ms n w /\ room k w) (mworld ms n).
Proof.
  intros Hi Hts w [[[Hok Ht] Hf] Hroom]. destruct (present n i w (proj2 Hf) Hi) as [fg Hfg].
  pose proof (triple_append_tuples eca mailbox fgb num_channels buffer_size time_fuel Hlay i fg ts Hts
    ltac:(pose proof (Hroom i fg Hfg); lia) w (conj Hok Hfg)) as H1.
  assert (forall Q, stable i Q -> keeps Q (appendParameterTuples (D := D) fgb num_channels buffer_size i ts)) as Hk
    by (intros Q HQ; by apply (keeps_append_tuples _ _ _ i Q HQ)).
  pose proof (Hk _ (stable_timers i) w Ht) as H2. pose proof (Hk _ (stable_framed ms n i) w Hf) as H3.
  pose proof (Hk _ (stable_others (fgs w) i) w ltac:(done)) as H4.
  destruct (appendParameterTuples fgb num_channels buffer_size i ts w) as [[low|e|why] w']; [|by split; [split|]|done].
  destruct H1 as (fg' & [Hok' Hfg'] & (k' & _ & Eq & _) & _). split; [by split; [split|]|].
  intros j fj Hj. destruct (decide (j = i)) as [->|Hne].
  - rewrite Hfg' in Hj. injection Hj as <-. rewrite Eq, length_drop, length_app.
    specialize (Hroom i fg Hfg). lia.
  - cbn in H4. rewrite (H4 j Hne) in Hj. specialize (Hroom j fj Hj). lia.
Qed.

(** The parameters that the shared memory has for the generators from [place] on. *)
Definition shared_at (im : gmap (Z * Z) (list ParameterTuple)) (bp place : Z) : list ParameterTuple :=
  default [] (im !! (place, bp)).
Fixpoint shared_rows im (bp place : Z) (active : list nat) : nat :=
  match active with
  | [] => 0
  | _ :: active' => length (shared_at im bp place) + shared_rows im bp (place + 1) active'
  end.

Lemma mworld_append_beam_process ms n active bp im : forall place,
  in_range n active -> (forall p, Forall tuple_ok (shared_at im bp p)) ->
  triple (fun w => mworld ms n w /\ room (shared_rows im bp place active) w)
    (append_beam_process fgb num_channels buffer_size active place bp im)
    (fun _ => mworld ms n) (mworld ms n).
Proof.
  induction active as [|i active IH]; intros place Ha Hts; cbn [append_beam_process]; [by apply triple_ret; intros w []|].
  apply Forall_cons in Ha as [Hi Ha]. cbn [shared_rows].
  eapply (triple_bind _ _ (fun _ w => mworld ms n w /\ room (shared_rows im bp (place + 1) active) w)); [|intros _; by apply IH].
  specialize (Hts place). unfold shared_at in *. destruct (im !! (place, bp)) as [ts|]; cbn [default from_option] in *.
  - eapply triple_bind; [by apply mworld_append_tuples|]. intros low. by apply triple_ret.
  - by apply triple_ret.
Qed.

(** *** All calls *)
Inductive MasterCall :=
  | CallAppendParameterSets (a b c st fr sa sb : list (list Z))
  | CallAppendBeamProcess (beam_process : Z) (shm : option IndexMap) (sane : bool)
  | CallMasterFlush
  | CallMasterArm
  | CallMasterAbort (rnd : nat -> Z)
  | CallMasterSetStartTag (val : Z)
  | CallSetActiveFunctionGenerators (names : list string)
  | CallResetActiveFunctionGenerators.

Definition run_master (c : MasterCall) : M (FgWorld D) unit :=
  match c with
  | CallAppendParameterSets a b c st fr sa sb =>
      _ ← AppendParameterSets fgb num_channels buffer_size a b c st fr sa sb; mret tt
  | CallAppendBeamProcess bp shm sane =>
      AppendParameterTuplesForBeamProcess fgb num_channels buffer_size bp shm sane
  | CallMasterFlush => MasterFlush
  | CallMasterArm => MasterArm mailbox fgb num_channels buffer_size
  | CallMasterAbort rnd => MasterAbort mailbox rnd
  | CallMasterSetStartTag val => MasterSetStartTag val
  | CallSetActiveFunctionGenerators names => SetActiveFunctionGenerators names
  | CallResetActiveFunctionGenerators => ResetActiveFunctionGenerators
  end.

(** The arguments have their types and the queues keep below 2^32; in the shared
    memory, if it is open, there is an index whose parameters are valid: the code
    does not check them. *)
Definition master_call_ok ms w (c : MasterCall) : Prop :=
  match c with
  | CallAppendBeamProcess bp (Some (Some im)) _ =>
      (forall p, Forall tuple_ok (shared_at im bp p)) /\ room (shared_rows im bp 0 (activeFunctionGenerators ms)) w
  | CallAppendBeamProcess _ (Some None) _ => False
  | CallAppendParameterSets a b c st fr sa sb =>
      Forall set_typed (parameter_sets a b c st fr sa sb) /\ room (rows_of (parameter_sets a b c st fr sa sb)) w
  | CallMasterAbort rnd =>
      (forall i, 0 <= rnd i < 2 ^ 31) /\
      id_counter (fw_loop w) + Z.of_nat (length (activeFunctionGenerators ms)) < 2 ^ 32 - 1
  | _ => True
  end.

(** The master only knows generators that exist. *)
Definition master_ok n ms : Prop :=
  in_range n (allFunctionGenerators ms) /\ in_range n (activeFunctionGenerators ms).

Definition mworld_ok n w : Prop := exists ms, mworld ms n w /\ master_ok n ms.

(** From [w] the call ends without a crash in a system that is fine. *)
Definition safe_at {A} n (m : M (FgWorld D) A) w : Prop :=
  match m w with (Crash _, _) => False | (_, w') => mworld_ok n w' end.

Lemma safe_triple {A} ms ms' n (m : M (FgWorld D) A) P w :
  master_ok n ms -> master_ok n ms' -> triple P m (fun _ => mworld ms' n) (mworld ms n) -> P w -> safe_at n m w.
Proof.
  intros Hms Hms' Hm Hw. specialize (Hm w Hw). unfold safe_at.
  destruct (m w) as [[a|e|why] w']; [by exists ms'|by exists ms|done].
Qed.

Lemma safe_owner {A} ms n (m : M (FgWorld D) A) w :
  master_ok n ms -> mworld ms n w -> safe_at n m w -> safe_at n (master_owner;; m) w.
Proof.
  intros Hms Hw Hm. assert ((master_owner w : _ * FgWorld D).2 = w) as Es.
  { unfold master_owner, get_master, get, mbind, M_bind, of_outcome. by destruct (front w). }
  pose proof (mworld_owner ms n w Hw) as Ho. unfold safe_at, mbind, M_bind in *.
  destruct (master_owner w) as [[[]|e|why] w1]; cbn in Es; subst w1; [done|by exists ms|done].
Qed.

Lemma safe_get {A} ms n (k : MasterFunctionGenerator -> M (FgWorld D) A) w :
  mworld ms n w -> safe_at n (k ms) w -> safe_at n (get_master ≫= k) w.
Proof.
  intros Hw Hk. unfold safe_at. rewrite (run_bind_ret get_master _ w ms w); [done|].
  unfold get_master. by rewrite (proj1 (proj2 Hw)).
Qed.

Lemma safe_check {A} ms n b e (k : M (FgWorld D) A) w :
  master_ok n ms -> mworld ms n w -> safe_at n k w -> safe_at n (throw_if b e;; k) w.
Proof. intros Hms Hw Hk. destruct b; [by exists ms|]. done. Qed.

Lemma find_names_range n fs all names : in_range n all ->
  match find_names fs all names with Ret l => in_range n l | Throw _ => True | Crash _ => False end.
Proof.
  intros Hall. induction names as [|name names IH]; cbn [find_names]; [by constructor|].
  unfold find_name. destruct (head (filter _ all)) as [i|] eqn:E; [|done].
  apply head_Some_elem_of in E. apply list_elem_of_filter in E as [_ E].
  destruct (find_names fs all names); [|done..]. constructor; [|done].
  unfold in_range in Hall. rewrite Forall_forall in Hall. by apply Hall.
Qed.

Lemma none_enabled_ok ms n l : in_range n l ->
  triple (mworld ms n) (none_enabled l) (fun _ => mworld ms n) (mworld ms n).
Proof.
  induction l as [|i l IH]; intros Hl; cbn [none_enabled]; [by apply triple_ret|].
  apply Forall_cons in Hl as [Hi Hl]. intros w Hw. destruct (present n i w (proj2 (proj2 Hw)) Hi) as [fg Hfg].
  rewrite (run_bind_ret (get_fg i) _ w fg w) by (unfold get_fg; by rewrite Hfg).
  refine (any_check (mworld ms n) _ _ _ _ _ _ _ w Hw); [done|]. intros _. by apply IH.
Qed.

(** *** The calls one by one *)
Section Calls.
Context (n : nat) (ms : MasterFunctionGenerator) (w : FgWorld D).
Context (Hms : master_ok n ms) (Hw : mworld ms n w).

Lemma safe_AppendParameterSets a b c st fr sa sb :
  Forall set_typed (parameter_sets a b c st fr sa sb) -> room (rows_of (parameter_sets a b c st fr sa sb)) w ->
  safe_at n (AppendParameterSets fgb num_channels buffer_size a b c st fr sa sb) w.
Proof.
  intros Hty Hroom. apply (safe_owner ms); [done|done|]. do 6 (apply (safe_check ms); [done|done|]).
  apply (safe_get ms); [done|]. apply (safe_check ms); [done|done|].
  eapply (safe_triple ms ms n); [done|done|by apply mworld_append_sets; [apply Hms|]|by split].
Qed.

Lemma safe_AppendBeamProcess bp shm sane :
  master_call_ok ms w (CallAppendBeamProcess bp shm sane) ->
  safe_at n (AppendParameterTuplesForBeamProcess fgb num_channels buffer_size bp shm sane) w.
Proof.
  intros Hc. unfold AppendParameterTuplesForBeamProcess. destruct shm as [[im|]|]; [|done|by exists ms].
  destruct Hc as [Hts Hroom]. apply (safe_check ms); [done|done|]. apply (safe_get ms); [done|].
  eapply (safe_triple ms ms n); [done|done|by apply mworld_append_beam_process; [apply Hms|]|by split].
Qed.

Lemma safe_MasterAbort rnd :
  (forall i, 0 <= rnd i < 2 ^ 31) ->
  id_counter (fw_loop w) + Z.of_nat (length (activeFunctionGenerators ms)) < 2 ^ 32 - 1 ->
  safe_at n (MasterAbort mailbox rnd) w.
Proof.
  intros Hr Hk. apply (safe_owner ms); [done|done|]. apply (safe_get ms); [done|].
  eapply (safe_triple ms ms n); [done|done| |].
  - apply (mworld_reset_all ms n _ rnd (id_counter (fw_loop w))); [apply Hms|done|done].
  - by split.
Qed.

Lemma safe_MasterSetStartTag v : safe_at n (MasterSetStartTag v) w.
Proof.
  pose proof Hms as [_ Hact]. apply (safe_owner ms); [done|done|]. apply (safe_get ms); [done|].
  pose proof (none_enabled_ok ms n _ Hact w Hw) as Hnone. unfold safe_at, mbind at 1, M_bind at 1.
  destruct (none_enabled _ w) as [[[]|e|why] w1]; [|by exists ms|done].
  destruct (v =? m_startTag ms); [by exists ms|].
  pose proof (mworld_front ms n (set_m_startTag v) w1 Hnone) as Hf. unfold mbind at 1, M_bind at 1.
  destruct (on_front _ w1) as [[[]|e|why] w2]; [|by exists ms|done].
  assert (master_ok n (set_m_startTag v ms)) as Hms' by done.
  eapply (safe_triple (set_m_startTag v ms) (set_m_startTag v ms) n); [done|done| |exact Hf].
  apply mworld_for_each. intros i Hi. apply mworld_tag. unfold in_range in Hact. rewrite Forall_forall in Hact. by apply Hact.
Qed.

Lemma safe_front f : master_ok n (f ms) -> safe_at n (on_front f : M (FgWorld D) unit) w.
Proof. intros Hf. by apply (safe_triple ms (f ms) n _ (mworld ms n) w Hms Hf); [apply mworld_front|]. Qed.

Lemma safe_SetActive names : safe_at n (SetActiveFunctionGenerators names) w.
Proof.
  apply (safe_owner ms); [done|done|]. apply (safe_check ms); [done|done|]. apply (safe_get ms); [done|].
  pose proof (find_names_range n (fgs w) (allFunctionGenerators ms) names (proj1 Hms)) as Hl.
  pose proof (fun l Hl => safe_front (set_active l) (conj (proj1 Hms) Hl)) as Hf.
  unfold safe_at, of_outcome, mbind, M_bind in *. cbn.
  destruct (find_names _ _ _) as [l|e|why]; [by apply (Hf l)|by exists ms|done].
Qed.
End Calls.

Lemma master_call_runs n ms c w :
  master_ok n ms -> mworld ms n w -> master_call_ok ms w c -> safe_at n (run_master c) w.
Proof.
  intros Hms Hw Hc. pose proof Hms as [Hall Hact]. destruct c as [a b c st fr sa sb|bp shm sane| | |rnd|v|names|]; cbn [run_master].
  - destruct Hc as [Hty Hroom]. pose proof (safe_AppendParameterSets n ms w Hms Hw a b c st fr sa sb Hty Hroom) as H.
    unfold safe_at, mbind, M_bind in *. by destruct (AppendParameterSets _ _ _ _ _ _ _ _ _ _ w) as [[?|?|?] ?].
  - by apply (safe_AppendBeamProcess n ms).
  - apply (safe_owner ms); [done|done|]. apply (safe_triple ms ms n _ (mworld ms n) w Hms Hms); [|done].
    apply mworld_do_all; [done|]. intros i. by apply mworld_flush.
  - apply (safe_owner ms); [done|done|]. apply (safe_triple ms ms n _ (mworld ms n) w Hms Hms); [|done].
    apply mworld_do_all; [done|]. intros i. by apply mworld_arm.
  - destruct Hc as [Hr Hk]. by apply (safe_MasterAbort n ms).
  - by apply (safe_MasterSetStartTag n ms).
  - by apply (safe_SetActive n ms).
  - apply (safe_owner ms); [done|done|]. apply (safe_front n ms); done.
Qed.

(** ** The system with a master *)
Local Abbreviation irq := (irq_handler eca mailbox fgb num_channels buffer_size time_fuel).
Local Abbreviation reset_failed := (ResetFailed eca mailbox time_fuel).
Local Abbreviation step := (fg_step eca mailbox fgb num_channels buffer_size time_fuel).

Lemma framed_step ms n w w' : framed ms n w -> step w w' -> framed ms n w'.
Proof.
  intros Hw Hs. pose proof (fun i => stable_framed (D := D) ms n i) as HQ. pose proof (fun i => blind_framed (D := D) ms n i) as HB.
  pose proof (fun i => keeps_blind_release mailbox i _ (HQ i) (HB i)) as Hrel.
  assert (forall A (m : M (FgWorld D) A) w1 r w2, keeps (framed ms n) m -> m w1 = (r, w2) -> framed ms n w1 -> framed ms n w2) as Hrun.
  { intros A m w1 r w2 Hm E H1. specialize (Hm w1 H1). by rewrite E in Hm. }
  assert (forall j (m : M (FgWorld D) unit), keeps (framed ms n) m -> keeps (framed ms n) (owner_only j;; m)) as Hdo
    by (intros j m Hm; apply keeps_bind; [by apply keeps_owner_only|by intros []]).
  destruct Hs as [j c cl t r w' Hj Hc E Hr|j msi r w' Hj E Hr Hstop|s r w' Hs E Hr|d Hd].
  - refine (Hrun _ _ _ _ _ _ E _); [|done].
    destruct c as [a b c st fr sa sb| | |rnd|v]; cbn [run_call]; try apply Hdo.
    + apply keeps_bind; [|intros; apply keeps_ret].
      apply keeps_bind; [by apply keeps_owner_only|intros []; by apply keeps_append].
    + by apply keeps_flush.
    + by apply keeps_arm.
    + by apply keeps_blind_Reset.
    + by apply keeps_setStartTag.
  - refine (Hrun _ _ _ _ _ _ E Hw). by apply keeps_irq.
  - refine (Hrun _ _ _ _ _ _ E Hw). by apply keeps_ResetFailed.
  - done.
Qed.

Inductive master_step w : FgWorld D -> Prop :=
  | step_below w' : step w w' -> master_step w w'
  | step_master ms c cl t r w' :
      front w = Master ms -> master_call_ok ms w c ->
      run_master c (with_client cl t w) = (r, w') -> completed r -> master_step w w'.

Lemma mworld_client ms n cl t w : mworld ms n w -> mworld ms n (with_client cl t w).
Proof. intros [H1 H2]. split; [by apply inv_client|done]. Qed.

Lemma master_step_ok n w w' : mworld_ok n w -> master_step w w' -> mworld_ok n w'.
Proof.
  intros (ms & Hw & Hms) [w2 Hs|ms' c cl t r w2 Hf Hc E Hr].
  - exists ms. split; [|done]. destruct Hw as [Hi Hf].
    split; [by apply (step_inv eca mailbox fgb num_channels buffer_size time_fuel Hlay w)|by apply (framed_step ms n w)].
  - pose proof (proj2 Hw) as [Hf' _]. rewrite Hf in Hf'. injection Hf' as ->.
    pose proof (master_call_runs n ms c (with_client cl t w) Hms (mworld_client ms n cl t w Hw) Hc) as H.
    unfold safe_at in H. rewrite E in H. by destruct r.
Qed.

Lemma master_steps_ok n w w' : mworld_ok n w -> rtc master_step w w' -> mworld_ok n w'.
Proof. intros Hw Hs. induction Hs as [|w1 w2 w3 H12 H23 IH]; [done|]. by apply IH, (master_step_ok n w1). Qed.


(** ** [Flush] *)
Definition flushed (active : list nat) (i : nat) fg : FunctionGeneratorImpl :=
  if bool_decide (i ∈ active) && negb (enabled fg) then set_data 0 (filled fg) [] fg else fg.

Lemma flushed_enabled active i fg : enabled (flushed active i fg) = enabled fg.
Proof. unfold flushed. by destruct (_ && _). Qed.

Lemma flush_run i fg w : ok w -> fgs w !! i = Some fg ->
  flush i w = if enabled fg then (Throw (Error INVALID_ARGS "Enabled, cannot Flush"), w)
              else (Ret tt, (on_fg i (fun fg => set_data 0 (filled fg) [] fg) w).2).
Proof.
  intros Hok Hi. unfold flush. rewrite (run_bind_ret (get_fg i) _ w fg w) by (unfold get_fg; by rewrite Hi).
  destruct (enabled fg) eqn:E; [done|].
  destruct (good_disabled _ _ _ _ _ _ (inv_fgs _ _ _ w Hok i fg Hi) E) as (-> & _). done.
Qed.

Lemma append_empty (s1 s2 : string) : s1 +:+ s2 = EmptyString -> s1 = EmptyString /\ s2 = EmptyString.
Proof. by destruct s1. Qed.

Lemma try_flush ms n l : forall w msg,
  mworld ms n w -> in_range n l ->
  exists msg' w', try_all flush l msg w = (Ret msg', w') /\
    (msg' = EmptyString <-> msg = EmptyString /\ forall i fg, i ∈ l -> fgs w !! i = Some fg -> enabled fg = false) /\
    forall i fg, fgs w !! i = Some fg -> fgs w' !! i = Some (flushed l i fg).
Proof.
  induction l as [|i l IH]; intros w msg Hw Hl; cbn [try_all].
  { exists msg, w. split; [done|]. split; [|done]. split; [|tauto]. intros ->. split; [done|]. by intros i fg ?%not_elem_of_nil. }
  apply Forall_cons in Hl as [Hi Hl]. destruct (present n i w (proj2 (proj2 Hw)) Hi) as [fi Hfi].
  pose proof (flush_run i fi w (inv_ok _ _ _ w (proj1 Hw)) Hfi) as Hrun.
  pose proof (mworld_flush ms n i Hi w Hw) as Hnext. rewrite Hrun in Hnext.
  destruct (enabled fi) eqn:Een.
  - rewrite (run_bind_ret _ _ w (msg +:+ GetName fi +:+ "Enabled, cannot Flush") w).
    2: { unfold try_catch, mbind, M_bind. rewrite Hrun. cbn. unfold get_fg. by rewrite Hfi. }
    destruct (IH w (msg +:+ GetName fi +:+ "Enabled, cannot Flush") Hw Hl) as (msg' & w' & E & Hmsg & Hfgs).
    exists msg', w'. split; [done|]. split.
    + rewrite Hmsg. split.
      * intros [Hbad _]. by do 2 apply append_empty in Hbad as [_ Hbad].
      * intros [_ Hall]. specialize (Hall i fi ltac:(by left) Hfi). congruence.
    + intros j fg Hj. rewrite (Hfgs j fg Hj). unfold flushed. do 2 f_equal.
      destruct (decide (j = i)) as [->|Hne].
      * rewrite Hfi in Hj. injection Hj as <-. by rewrite Een, !andb_false_r.
      * by rewrite (bool_decide_ext (j ∈ i :: l) (j ∈ l)) by (rewrite elem_of_cons; tauto).
  - set (w1 := (on_fg i (fun fg => set_data 0 (filled fg) [] fg) w).2) in *.
    rewrite (run_bind_ret _ _ w msg w1).
    2: { unfold try_catch, mbind, M_bind. by rewrite Hrun. }
    destruct (IH w1 msg Hnext Hl) as (msg' & w' & E & Hmsg & Hfgs).
    assert (forall j fg, fgs w !! j = Some fg -> fgs w1 !! j = Some (flushed [i] j fg)) as H1.
    { intros j fg Hj. unfold w1. cbn. unfold flushed. destruct (decide (i = j)) as [<-|Hne].
      - rewrite Hfi in Hj. injection Hj as <-. rewrite list_lookup_alter_eq, Hfi, Een. cbn.
        by rewrite bool_decide_eq_true_2 by (by left).
      - rewrite list_lookup_alter_ne by done. rewrite bool_decide_eq_false_2; [done|].
        rewrite elem_of_cons, elem_of_nil. by intros [?|[]]. }
    exists msg', w'. split; [done|]. split.
    + rewrite Hmsg. split; intros [Hm Hall]; (split; [done|]).
      * intros j fg Hj Hfg. specialize (H1 j fg Hfg). apply elem_of_cons in Hj as [->|Hj]; [congruence|].
        rewrite <- (flushed_enabled [i] j). by apply (Hall j).
      * intros j fg Hj Hfg. destruct (present n j w (proj2 (proj2 Hw))) as [fj Hfj].
        { unfold in_range in Hl. rewrite Forall_forall in Hl. by apply Hl. }
        rewrite (H1 j fj Hfj) in Hfg. injection Hfg as <-. rewrite flushed_enabled. apply (Hall j); [by right|done].
    + intros j fg Hj. rewrite (Hfgs j _ (H1 j fg Hj)). f_equal. unfold flushed at 1. rewrite flushed_enabled.
      unfold flushed. destruct (enabled fg); [by rewrite !andb_false_r|]. rewrite !andb_true_r.
      destruct (decide (j = i)) as [->|Hne].
      * rewrite !(bool_decide_eq_true_2 (i ∈ i :: _)) by (by left).
        by destruct (bool_decide (i ∈ l)).
      * rewrite (bool_decide_eq_false_2 (j ∈ [i])) by (rewrite elem_of_cons, elem_of_nil; tauto).
        rewrite (bool_decide_ext (j ∈ i :: l) (j ∈ l)) by (rewrite elem_of_cons; tauto). done.
Qed.

(** [Flush] of the master empties the queue of every active generator that is
    not enabled, even if others are enabled; it reports an error exactly if one
    is. *)
Theorem MasterFlush_reaches_all n ms w (Hw : mworld ms n w) (Hms : master_ok n ms) :
  ((do_all flush w).1 = Ret tt
    <-> (forall i fg, i ∈ activeFunctionGenerators ms -> fgs w !! i = Some fg -> enabled fg = false)) /\
  (forall i fg, fgs w !! i = Some fg ->
     fgs (do_all flush w).2 !! i = Some (flushed (activeFunctionGenerators ms) i fg)).
Proof.
  unfold do_all. rewrite (run_bind_ret get_master _ w ms w) by (unfold get_master; by rewrite (proj1 (proj2 Hw))).
  destruct (try_flush ms n (activeFunctionGenerators ms) w EmptyString Hw (proj2 Hms)) as (msg & w' & E & Hmsg & Hfgs).
  rewrite (run_bind_ret _ _ w msg w' E). case_bool_decide as Hm; cbn.
  - split; [|done]. split; [intros _; by apply Hmsg|done].
  - split; [|done]. split; [done|]. intros Hall. destruct Hm. by apply Hmsg.
Qed.

(** A step that changes nothing, before the rest. *)
Lemma after_read {S A B} (m : M S A) (k : A -> M S B) (P : S -> Prop) s :
  (m s).2 = s -> P s -> (forall a, P (k a s).2) -> P ((m ≫= k) s).2.
Proof. intros E Hs Hk. unfold mbind, M_bind. destruct (m s) as [[a|e|why] s']; cbn in *; subst s'; auto. Qed.

(** The master passes its start tag on only when it changes: a generator that
    becomes active later does not get it when it is set again, although the call
    returns. *)
Theorem same_tag_is_not_passed_on v ms w (Hf : front w = Master ms) (Hv : m_startTag ms = v) :
  fgs ((ResetActiveFunctionGenerators;; MasterSetStartTag v) w).2 = fgs w.
Proof.
  assert (forall w1 : FgWorld D, (master_owner w1).2 = w1) as Hown.
  { intros w1. unfold master_owner, get_master, get, mbind, M_bind, of_outcome. by destruct (front w1). }
  assert (forall l w1, (none_enabled l w1 : _ * FgWorld D).2 = w1) as Hnone.
  { induction l as [|i l IH]; intros w1; [done|]. cbn [none_enabled]. unfold mbind, M_bind, get_fg.
    destruct (fgs w1 !! i) as [fg|]; [|done]. unfold throw_if. destruct (enabled fg); [done|]. apply IH. }
  assert (forall (w1 : FgWorld D) ms1, front w1 = Master ms1 -> m_startTag ms1 = v ->
    fgs (MasterSetStartTag v w1).2 = fgs w1) as Hset.
  { intros w1 ms1 Hf1 Hv1. unfold MasterSetStartTag. apply (after_read _ _ (fun w' => fgs w' = fgs w1)); [apply Hown|done|].
    intros []. rewrite (run_bind_ret get_master _ w1 ms1 w1) by (unfold get_master; by rewrite Hf1).
    apply (after_read _ _ (fun w' => fgs w' = fgs w1)); [apply Hnone|done|]. intros []. by rewrite Hv1, Z.eqb_refl. }
  set (ms1 := set_individual false (set_active (allFunctionGenerators ms) ms)).
  assert ((ResetActiveFunctionGenerators w).2 = w \/
    ResetActiveFunctionGenerators w = (Ret tt, (set_front (Master ms1) w).2)) as [E|E].
  { unfold ResetActiveFunctionGenerators, mbind at 1 2, M_bind at 1 2. pose proof (Hown w) as E0.
    destruct (master_owner w) as [[[]|e|why] w0]; cbn in E0; subst w0; [right|by left..].
    unfold on_front. by rewrite (run_bind_ret get_master _ w ms w) by (unfold get_master; by rewrite Hf). }
  - apply (after_read _ _ (fun w' => fgs w' = fgs w)); [done|done|]. intros []. by apply (Hset w ms).
  - rewrite (run_bind_ret _ _ w tt _ E). by rewrite (Hset _ ms1).
Qed.
End MasterCalls.

(** ** The scan *)
Section Scan.
Context {D : Type} `{!Bus D}.
Context (mailbox : Z) (usleep : Z -> D -> D) (fgb fw_version : Z).
Implicit Types (w : FgWorld D).

Lemma on_dev_same {A} (p : M D A) w a w' :
  on_dev p w = (Ret a, w') ->
  fgs w' = fgs w /\ allocation w' = allocation w /\ fw_loop w' = fw_loop w.
Proof. unfold on_dev, zoom. destruct (p (fw_dev w)) as [[x|e|why] d]; intros [= _ <-]; done. Qed.

Lemma for_each_dev_same {B} (p : B -> M D unit) l : forall w w',
  for_each (fun x => on_dev (p x)) l w = (Ret tt, w') ->
  fgs w' = fgs w /\ allocation w' = allocation w /\ fw_loop w' = fw_loop w.
Proof.
  induction l as [|x l IH]; intros w w' H; [by injection H as <-|]. cbn [for_each] in H.
  apply run_bind_inv in H as ([] & w1 & H1 & H2). apply on_dev_same in H1 as (E1 & E2 & E3).
  destruct (IH w1 w' H2) as (R1 & R2 & R3). split; [congruence|split; congruence].
Qed.

(** Destroying a generator removes its timer. *)
Lemma destroy_all fs : forall k w w',
  timers_ok w -> fs = drop k (fgs w) -> (forall s, s ∈ live (fw_loop w) -> (k <= src_slot s)%nat) ->
  for_each (destroy_fg mailbox) fs w = (Ret tt, w') ->
  timers_ok w' /\ fgs w' = fgs w /\ allocation w' = allocation w /\
  forall s, s ∈ live (fw_loop w') -> (length (fgs w) <= src_slot s)%nat.
Proof.
  induction fs as [|fg fs IH]; intros k w w' Ht Hfs Hlive Hrun.
  - injection Hrun as <-. split; [done|]. split; [done|]. split; [done|]. intros s Hs. specialize (Hlive s Hs).
    assert (length (drop k (fgs w)) = 0%nat) as E by (by rewrite <- Hfs). rewrite length_drop in E. lia.
  - cbn [for_each] in Hrun. apply run_bind_inv in Hrun as ([] & w2 & Hd & Hrest).
    assert (fgs w !! k = Some fg) as Hk.
    { rewrite <- (Nat.add_0_r k), <- lookup_drop, <- Hfs. done. }
    destruct (timers_remove k fg w Hk Ht) as [Ht1 Hno1]. unfold destroy_fg in Hd.
    set (rm := fun l => (tt, remove (resetTimeout fg) l)) in *.
    rewrite (run_bind_ret (on_fg_timers rm) _ w tt (on_fg_timers rm w).2 eq_refl) in Hd.
    assert (forall s, s ∈ live (fw_loop (on_fg_timers rm w).2) -> (k <= src_slot s)%nat) as Hl1.
    { intros s Hs. exact (Hlive s (remove_live (resetTimeout fg) _ s Hs)). }
    set (w1 := (on_fg_timers rm w).2) in *.
    assert (fgs w1 = fgs w /\ allocation w1 = allocation w) as [Ef Ea] by done. clearbody w1.
    assert (fgs w2 = fgs w1 /\ allocation w2 = allocation w1 /\ fw_loop w2 = fw_loop w1) as (Ef2 & Ea2 & El2).
    { destruct (host_slot fg); [by eapply on_dev_same|]. by injection Hd as <-. }
    assert (timers_ok w2) as Ht2 by (destruct Ht1; split; rewrite ?El2, ?Ef2; done).
    destruct (IH (S k) w2 w' Ht2) as (R1 & R2 & R3 & R4); [|..|done|].
    + rewrite Ef2, Ef, <- (Nat.add_1_r k), <- drop_drop, <- Hfs. done.
    + rewrite El2. intros s Hs. specialize (Hl1 s Hs). specialize (Hno1 s Hs). lia.
    + split; [done|]. rewrite R2, R3, Ef2, Ea2, Ef, Ea. split; [done|]. split; [done|].
      intros s Hs. specialize (R4 s Hs). by rewrite Ef2, Ef in R4.
Qed.

Lemma clear_spec w w' :
  timers_ok w -> clear_fgs mailbox w = (Ret tt, w') ->
  fgs w' = [] /\ timers_ok w' /\ live (fw_loop w') = [].
Proof.
  intros Ht Hrun. unfold clear_fgs in Hrun. rewrite (run_bind_ret (gets fgs) _ w (fgs w) w) in Hrun by done.
  apply run_bind_inv in Hrun as ([] & w1 & Hd & Hrun). injection Hrun as <-.
  destruct (destroy_all (fgs w) 0 w w1 Ht) as ([T1 T2 T3] & Ef & _ & Hl); [by rewrite drop_0|intros; lia|done|].
  assert (live (fw_loop w1) = []) as El.
  { destruct (live (fw_loop w1)) as [|s l] eqn:E; [done|]. destruct (T3 s) as (fg & Hfg & _); [by left|].
    specialize (Hl s ltac:(by left)).
    apply lookup_lt_Some in Hfg. rewrite Ef in Hfg. lia. }
  split; [done|]. split; [|done]. split; cbn; [done|done|]. rewrite El. by intros s ?%not_elem_of_nil.
Qed.

(** A generator as it is constructed. *)
Definition made fg : Prop :=
  exists slot idx mac host cap, 0 <= idx /\ 0 < cap /\
    fg = mkFG slot idx mac host (-1) false false false false null_handle 0 0 0 0 [] cap 0.

Lemma make_spec slot irq_address capacity (Hcap : capacity <> Some 0) macros : forall j w w',
  make_generators mailbox slot irq_address capacity j macros w = (Ret tt, w') ->
  exists new, fgs w' = fgs w ++ new /\ Forall made new /\ Forall (fun fg => mb_slot fg = slot) new /\
    Forall (fun fg => Z.of_nat j <= index fg) new /\ NoDup (index <$> new) /\
    allocation w' = allocation w /\ fw_loop w' = fw_loop w.
Proof.
  induction macros as [|mac macros IH]; intros j w w' Hrun; cbn [make_generators] in Hrun.
  - injection Hrun as <-. exists []. rewrite app_nil_r. by repeat (split; [constructor|]).
  - apply run_bind_inv in Hrun as ([] & w1 & H1 & H2).
    destruct (IH (S j) w1 w' H2) as (new & N1 & N2 & N3 & N4 & N5 & N6 & N7).
    assert (Forall (fun fg => Z.of_nat j <= index fg) new) as N4'.
    { eapply Forall_impl; [exact N4|]. cbn. intros fg ?. lia. }
    destruct (mac =? 0).
    + injection H1 as <-. by exists new.
    + apply run_bind_inv in H1 as (fg & w2 & Hnew & Hadd). injection Hadd as <-. cbn in N1, N6, N7.
      unfold new_fg in Hnew. set (cap := default 16384 capacity) in *. destruct (cap <? 0) eqn:Ecap; [done|].
      rewrite (run_bind_ret (throw_if false _) _ w tt w) in Hnew by done.
      apply run_bind_inv in Hnew as (host & w3 & Hdev & Hret). injection Hret as <- <-.
      apply on_dev_same in Hdev as (E1 & E2 & E3). set (fg := mkFG _ _ _ _ _ _ _ _ _ _ _ _ _ _ _ _ _) in *.
      exists (fg :: new). rewrite N1, N6, N7, E1, E2, E3, <- app_assoc. split; [done|].
      assert (index fg ∉ index <$> new) as Hnin.
      { intros (f & Ef & Hf)%list_elem_of_fmap. rewrite Forall_forall in N4. specialize (N4 f Hf).
        rewrite <- Ef in N4. cbn in N4. lia. }
      assert (0 < cap) as Hpos.
      { apply Z.ltb_ge in Ecap. unfold cap in *. destruct capacity as [c|]; cbn in *; [|done].
        assert (c <> 0) by congruence. lia. }
      split; [constructor; [|done]|].
      { exists slot, (Z.of_nat j), mac, host, cap. split; [lia|done]. }
      split; [by constructor|]. split; [by constructor|]. by split; [constructor|].
Qed.

Lemma not_running_inv w w' : not_running w = (Ret tt, w') -> nothing_runs w = true /\ w' = w.
Proof. unfold not_running. rewrite (run_bind_ret (gets nothing_runs) _ w (nothing_runs w) w) by done. destruct (nothing_runs w); [|done]. by intros [= <-]. Qed.
Lemma scan_channels_spec w slot nc bs macros w' : scan_channels mailbox usleep fgb fw_version w = (Ret (slot, nc, bs, macros), w') ->
  fgs w' = fgs w /\ allocation w' = replicate (Z.to_nat nc) (-1) /\ fw_loop w' = fw_loop w.
Proof.
  unfold scan_channels. intros Hrun. apply run_bind_inv in Hrun as (rs & w2 & H2 & Hrun). apply on_dev_same in H2 as (F2 & A2 & L2).
  apply run_bind_inv in Hrun as ([] & w3 & H3 & Hrun).
  assert (w3 = w2) as -> by (unfold throw_if in H3; destruct (_ && _); [done|by injection H3]). clear H3.
  apply run_bind_inv in Hrun as ([] & w4 & H4 & Hrun). apply on_dev_same in H4 as (F4 & A4 & L4).
  apply run_bind_inv in Hrun as ([[nc' bs'] macros'] & w5 & H5 & Hrun). apply on_dev_same in H5 as (F5 & A5 & L5).
  apply run_bind_inv in Hrun as ([] & w6 & H6 & Hrun). injection H6 as <-.
  apply run_bind_inv in Hrun as ([] & w7 & H7 & Hrun). injection Hrun as <- <- <- <- <-.
  apply for_each_dev_same in H7 as (E1 & E2 & E3). rewrite E1, E2, E3. cbn. split; [congruence|]. split; [done|congruence].
Qed.

(** A scan that returns replaces all generators: there is one for each macro, none
    of them has a channel, all channels are free, no timer of an old generator is
    left.  If the mailbox had a slot for each of them, and the firmware's slot is one of the
    mailbox, this is the fresh system of the theorems about calls and interrupts. *)
Theorem scan_makes_fresh_system irq_address capacity w nc bs w'
    (Htimers : timers_ok w) (Hcap : capacity <> Some 0)
    (Hrun : scan mailbox usleep fgb fw_version irq_address capacity w = (Ret (nc, bs), w')) :
  nothing_runs w = true /\ allocation w' = replicate (Z.to_nat nc) (-1) /\ live (fw_loop w') = [] /\
  Forall made (fgs w') /\
  (Forall (fun fg => is_Some (host_slot fg) /\ 0 <= mb_slot fg < 128) (fgs w') -> fresh nc w').
Proof.
  unfold scan in Hrun. apply run_bind_inv in Hrun as ([] & w0 & H0 & Hrun). destruct (not_running_inv _ _ H0) as [Hn ->]. split; [done|].
  apply run_bind_inv in Hrun as ([] & w1 & Hclear & Hrun). destruct (clear_spec w w1 Htimers Hclear) as (F1 & T1 & L1).
  apply run_bind_inv in Hrun as ([[[sl nc'] bs'] macros] & w7 & H7 & Hrun). apply scan_channels_spec in H7 as (F7 & A7 & L7).
  apply run_bind_inv in Hrun as ([] & w8 & H8 & Hrun). injection Hrun as <- <- <-.
  destruct (make_spec _ _ _ Hcap _ _ _ _ H8) as (new & N1 & N2 & N3 & N4 & N5 & N6 & N7).
  rewrite F7, F1 in N1. cbn in N1. rewrite L7 in N7. rewrite A7 in N6.
  rewrite N1, N6, N7. split; [done|]. split; [done|]. split; [done|]. intros Hgood. destruct T1 as [T1 T2 _].
  split; rewrite ?N1, ?N6, ?N7; try done. rewrite Forall_forall in *. intros fg Hfg.
  destruct (N2 fg Hfg) as (slot & idx & mac & host & cap & Hidx & Hc & ->).
  destruct (Hgood _ Hfg) as [[h Hh] Hs]. cbn in Hh, Hs. exists slot, idx, mac, h, cap. by rewrite Hh.
Qed.
End Scan.

(** ** A master over the two generators of [FgDemo] *)
Module MasterDemo.
Import FgDemo.

Definition ms0 : MasterFunctionGenerator := new_master [0; 1]%nat 77 (Some (-1)).
Definition v0 : FgWorld ram :=
  mkFgWorld ram0 [gen 0 0; gen 1 1] [-1; -1] (mkLoop [] [] false 0 1 0) 0 (mkCaller true 7) (Master ms0) [].

Lemma v0_fresh : fresh 2 v0.
Proof. destruct w0_fresh as [H1 H2 H3 H4]. by split. Qed.

Local Abbreviation mstep := (master_step ecaadr mbx 0 2 slots 2).
Local Abbreviation mcall := (run_master mbx 0 2 slots).

Definition two_sets : MasterCall :=
  CallAppendParameterSets [[1; 2]; [3]] [[4; 5]; [6]] [[7; 8]; [9]] [[0; 1]; [2]] [[3; 4]; [5]] [[6; 7]; [0]] [[1; 2]; [3]].

Definition v1 := (mcall two_sets v0).2.
Definition v2 := (mcall (CallMasterSetStartTag 5) v1).2.
Definition v3 := (mcall (CallSetActiveFunctionGenerators ["fg-1-2"]) v2).2.
Definition v4 := (mcall CallMasterArm v3).2.
Definition v5 := (mcall CallResetActiveFunctionGenerators v4).2.

Definition front_of (w : FgWorld ram) : MasterFunctionGenerator :=
  match front w with Master ms => ms | Singles _ => ms0 end.

Lemma do_mcall ms c w :
  front w = Master ms -> master_call_ok ms w c -> completed (mcall c w).1 -> mstep w (mcall c w).2.
Proof.
  intros Hf Hc Hr. apply (step_master _ _ _ _ _ _ w ms c (fw_caller w) (fw_now w) (mcall c w).1); try done.
  replace (with_client _ _ w) with w by (by destruct w). by destruct (mcall c w).
Qed.

Lemma v_room k : forall (w : FgWorld ram),
  forallb (fun fg => Z.of_nat (length (fifo fg) + k) <? 2 ^ 32) (fgs w) = true -> room k w.
Proof.
  intros w Hall j fg Hj. rewrite forallb_forall in Hall. apply Z.ltb_lt, Hall.
  apply list_elem_of_In. by eapply list_elem_of_lookup_2.
Qed.

Lemma sets_typed : master_call_ok ms0 v0 two_sets.
Proof.
  split; [|apply v_room; vm_compute; reflexivity].
  apply Forall_cons; split; [|apply Forall_cons; split; [|by apply Forall_nil]];
    (split; repeat (apply Forall_cons; split; [done|]); by apply Forall_nil).
Qed.

Lemma mstep1 : mstep v0 v1.
Proof. apply (do_mcall ms0 two_sets v0); [reflexivity|apply sets_typed|vm_compute; exact I]. Qed.
Lemma mstep2 : mstep v1 v2.
Proof. apply (do_mcall (front_of v1) (CallMasterSetStartTag 5) v1); [vm_compute; reflexivity|exact I|vm_compute; exact I]. Qed.
Lemma mstep3 : mstep v2 v3.
Proof. apply (do_mcall (front_of v2) (CallSetActiveFunctionGenerators ["fg-1-2"]) v2); [vm_compute; reflexivity|exact I|vm_compute; exact I]. Qed.
Lemma mstep4 : mstep v3 v4.
Proof. apply (do_mcall (front_of v3) CallMasterArm v3); [vm_compute; reflexivity|exact I|vm_compute; exact I]. Qed.
Lemma mstep5 : mstep v4 v5.
Proof. apply (do_mcall (front_of v4) CallResetActiveFunctionGenerators v4); [vm_compute; reflexivity|exact I|vm_compute; exact I]. Qed.

Lemma v_reached : rtc mstep v0 v5.
Proof.
  exact (rtc_l _ _ _ _ mstep1 (rtc_l _ _ _ _ mstep2 (rtc_l _ _ _ _ mstep3 (rtc_l _ _ _ _ mstep4 (rtc_once _ _ mstep5))))).
Qed.

Lemma ms0_ok : master_ok 2 ms0.
Proof. split; repeat constructor. Qed.


Lemma v5_world : mworld 0 2 slots (front_of v5) 2 v5.
Proof.
  assert (mworld_ok 0 2 slots 2 v0) as H0.
  { exists ms0. split; [split; [by apply fresh_inv, v0_fresh|done]|apply ms0_ok]. }
  destruct (master_steps_ok ecaadr mbx 0 2 slots 2 layout 2 v0 v5 H0 v_reached) as (ms & Hw & _).
  replace (front_of v5) with ms; [done|]. destruct Hw as [_ [Hf _]]. unfold front_of. by rewrite Hf.
Qed.

(** Generator 0 is armed, generator 1 is not: it is flushed, and the call reports
    an error. *)
Lemma MasterFlush_reaches_all_witness :
  (do_all flush v5).1 <> Ret tt /\ fifo (gen_at 1 v5) <> [] /\ fifo (gen_at 1 (do_all flush v5).2) = [].
Proof.
  assert (master_ok 2 (front_of v5)) as Hms by (vm_compute; split; repeat constructor).
  destruct (MasterFlush_reaches_all 0 2 slots 2 (front_of v5) v5 v5_world Hms) as [H1 H2].
  split; [|split].
  - intros E. apply H1 with (i := 0%nat) (fg := gen_at 0 v5) in E; [vm_compute in E; discriminate E|vm_compute; by left|vm_compute; reflexivity].
  - vm_compute. congruence.
  - unfold gen_at at 1. rewrite (H2 1%nat (gen_at 1 v5)); [vm_compute; reflexivity|vm_compute; reflexivity].
Defined.

(** Only generator 0 was active when the tag was set to 6; when all are active and it is
    set to 6 again, generator 1 keeps its tag. *)
Definition v6 := (mcall (CallMasterSetStartTag 6) v3).2.
Lemma same_tag_is_not_passed_on_witness :
  startTag (gen_at 0 v6) = 6 /\ startTag (gen_at 1 ((ResetActiveFunctionGenerators;; MasterSetStartTag 6) v6).2) = 5.
Proof.
  split; [vm_compute; reflexivity|]. unfold gen_at.
  rewrite (same_tag_is_not_passed_on 6 (front_of v6) v6); [vm_compute; reflexivity..].
Defined.

(** *** A scan: two macros, two channels *)
Definition memory_with (l : list (Z * Z)) : ram := mkRam [] (list_to_map l).
Definition clear_flag (t : Z) (d : ram) : ram := mkRam (ram_log d) (<[word_at 0 FG_BUSY := 0]> (ram_mem d)).
Definition scan_world : FgWorld ram :=
  mkFgWorld (memory_with [(word_at 0 FG_NUM_CHANNELS, 2); (word_at 0 FG_BUFFER_SIZE, 4); (word_at 0 FG_MACROS, 0x01020300);
      (word_at 0 (FG_MACROS + 8), 0x01030300); (slot_address mbx 0, 0xffffffff); (slot_address mbx 1, 0xffffffff)])
    [] [] (mkLoop [] [] false 0 1 0) 0 (mkCaller true 7) (Singles []) [].

Lemma scan_timers : timers_ok scan_world.
Proof.
  split; [split; [constructor|split; [constructor|done]]|done|]. by intros s ?%not_elem_of_nil.
Qed.

Lemma scan_makes_fresh_system_witness :
  match scan mbx clear_flag 0 4 (fun j => 0x1000) None scan_world with
  | (Ret (nc, _), w) => nc = 2 /\ Forall made (fgs w) /\ allocation w = [-1; -1]
  | _ => False
  end.
Proof.
  destruct (scan mbx clear_flag 0 4 (fun j => 0x1000) None scan_world) as [[[nc bs]|e|why] w] eqn:E;
    [|vm_compute in E; discriminate E..].
  destruct (scan_makes_fresh_system mbx clear_flag 0 4 (fun j => 0x1000) None scan_world nc bs w scan_timers
    ltac:(done) E) as (_ & Ha & _ & Hm & _).
  assert (nc = 2) as -> by (apply (f_equal fst) in E; vm_compute in E; congruence).
  split; [done|]. split; [done|]. by rewrite Ha.
Defined.
End MasterDemo.
