(* ===== verification/Io.v ===== *)
(** * Inputs and outputs: src/Io.cpp, src/io_control_regs.h

    An [Io] is one line of the I/O control device: a channel (GPIO or LVDS), an
    index, and registers that are addressed by both.  Each of eight properties
    of a line has a 64-bit register per channel; it is read at [Set_low] and
    [Set_high], writing a mask to the [Set] address sets bits, writing to the
    [Reset] address, 8 bytes higher, clears them. *)
From S2P Require Import Prelude Bus.
Local Open Scope Z_scope.

(** ** The register map *)
Definition IO_CFG_CHANNEL_GPIO : Z := 0.
Definition IO_CFG_CHANNEL_LVDS : Z := 1.

Definition IO_INFO_INOUT_COUNT_MASK : Z := 0x000000ff.
Definition IO_INFO_IN_COUNT_MASK : Z := 0x00ff0000.
Definition IO_INFO_TOTAL_COUNT_MASK : Z := 0xff000000.
Definition IO_INFO_INOUT_SHIFT : Z := 0.
Definition IO_INFO_IN_SHIFT : Z := 16.
Definition IO_INFO_TOTAL_SHIFT : Z := 24.

Definition IO_SPECIAL_TTL_TO_NIM : Z := 1.
Definition IO_LOGIC_LEVEL_TTL : Z := 0.
Definition IO_LOGIC_LEVEL_LVTTL : Z := 1.
Definition IO_LOGIC_LEVEL_LVDS : Z := 2.
Definition IO_LOGIC_LEVEL_NIM : Z := 3.
Definition IO_LOGIC_LEVEL_CMOS : Z := 4.

Definition eGPIO_Info : Z := 0x0104.
Definition eLVDS_Info : Z := 0x0108.
Definition eFIXED_Info : Z := 0x010c.
Definition eSet_GPIO_Out_Begin : Z := 0xa000.
Definition eSet_LVDS_Out_Begin : Z := 0xb000.
Definition eGet_GPIO_In_Begin : Z := 0xc000.
Definition eGet_LVDS_In_Begin : Z := 0xd000.
Definition eIO_Map_Table_Begin : Z := 0xe000.

Inductive io_property :=
  | Oe | Term | Spec_In | Spec_Out | Gate_In | Gate_Out | Mux | PPS_Mux.
Inductive io_channels := GPIO | LVDS.

#[export] Instance io_property_eq_dec : EqDecision io_property.
Proof. solve_decision. Defined.
#[export] Instance io_channels_eq_dec : EqDecision io_channels.
Proof. solve_decision. Defined.

(** [e<channel>_<property>_Set_low] *)
Definition Set_low (c : io_channels) (p : io_property) : Z :=
  match p, c with
  | Oe, GPIO => 0x0200       | Oe, LVDS => 0x0300
  | Term, GPIO => 0x0400     | Term, LVDS => 0x0500
  | Spec_In, GPIO => 0x0600  | Spec_In, LVDS => 0x0800
  | Spec_Out, GPIO => 0x0700 | Spec_Out, LVDS => 0x0900
  | Mux, GPIO => 0x0a00      | Mux, LVDS => 0x0b00
  | PPS_Mux, GPIO => 0x0e00  | PPS_Mux, LVDS => 0x0f00
  | Gate_In, GPIO => 0x1000  | Gate_In, LVDS => 0x2000
  | Gate_Out, GPIO => 0x3000 | Gate_Out, LVDS => 0x4000
  end.
Definition Set_high c p : Z := Set_low c p + 0x4.
Definition Reset_low c p : Z := Set_low c p + 0x8.
Definition Reset_high c p : Z := Set_low c p + 0xc.

(** ** The object *)
Record Io := mkIo {
  io_name : string; io_direction : Z; io_channel : Z; io_eca_in : Z; io_eca_out : Z;
  io_index : Z; io_special_purpose : Z; io_logic_level : Z;
  io_oe_available : bool; io_term_available : bool;
  io_spec_out_available : bool; io_spec_in_available : bool; io_control_addr : Z
}.

(** The two channels that the methods know. *)
Definition known_channel (io : Io) : option io_channels :=
  if io_channel io =? IO_CFG_CHANNEL_GPIO then Some GPIO
  else if io_channel io =? IO_CFG_CHANNEL_LVDS then Some LVDS
  else None.

Definition channel_unknown : exn := Error INVALID_ARGS "IO channel unknown!".

(** [1<<internal_id], an [int], as the 64-bit operand of etherbone. *)
Definition int_bit {S} (internal_id : Z) : M S Z :=
  if internal_id <? 32 then mret (u64 (s32 (Z.shiftl 1 internal_id)))
  else crash "1<<internal_id".

(** [internal_id] and [access_position] of the methods with two accesses. *)
Definition internal_id (io : Io) : Z :=
  if 31 <? io_index io then u32 (io_index io - 31) else io_index io.
Definition high_access (io : Io) : bool := 31 <? io_index io.

Section Io.
Context {D : Type} `{Bus D}.
(** The [std::function] members, empty unless somebody sets them. *)
Context (slot : io_property -> option (bool -> M D unit)).
Implicit Types (io : Io).

Definition read_one (address : Z) : M D Z :=
  rs ← cycle [BusR address]; mret (default 0 (head rs)).

Definition run_slot (p : io_property) (val : bool) : M D unit :=
  match slot p with Some f => f val | None => mret tt end.

(** The getters of the properties have one shape. *)
Definition get_property (p : io_property) io : M D bool :=
  match known_channel io with
  | None => throw channel_unknown
  | Some c =>
      v ← read_one (io_control_addr io + (if high_access io then Set_high c p else Set_low c p));
      b ← int_bit (internal_id io);
      mret (negb (Z.shiftr (Z.land v b) (internal_id io) =? 0))
  end.

(** So have the setters; for another channel the cycle is empty.  [notify] is
    the [std::function] that is called in the end. *)
Definition set_property (p : io_property) (notify : bool -> M D unit) io (val : bool) : M D unit :=
  match known_channel io with
  | None => cycle [];; mret tt
  | Some c =>
      b ← int_bit (internal_id io);
      cycle [BusW (io_control_addr io +
               (if val then (if high_access io then Set_high c p else Set_low c p)
                else (if high_access io then Reset_high c p else Reset_low c p))) b];;
      mret tt
  end;;
  notify val.

Definition getOutputEnable := get_property Oe.
Definition setOutputEnable io (val : bool) : M D unit :=
  let id_low := io_index io `mod` 32 in
  let id_high := io_index io / 32 in
  let id_mask := Z.shiftl 1 id_low in
  match known_channel io with
  | None => throw channel_unknown
  | Some c =>
      dev_write (io_control_addr io + (if val then Set_low c Oe else Reset_low c Oe)
                 + u32 (4 * id_high)) id_mask;;
      run_slot Oe val
  end.
Definition getInputTermination := get_property Term.
Definition setInputTermination := set_property Term (run_slot Term).
Definition getSpecialPurposeOut := get_property Spec_Out.
Definition setSpecialPurposeOut := set_property Spec_Out (run_slot Spec_Out).
Definition getGateOut := get_property Gate_Out.
(** The call of the slot is commented out. *)
Definition setGateOut := set_property Gate_Out (fun _ => mret tt).
Definition getSpecialPurposeIn := get_property Spec_In.
Definition setSpecialPurposeIn := set_property Spec_In (run_slot Spec_In).
Definition getGateIn := get_property Gate_In.
Definition setGateIn := set_property Gate_In (run_slot Gate_In).
Definition getBuTiSMultiplexer := get_property Mux.
Definition setBuTiSMultiplexer := set_property Mux (run_slot Mux).
Definition getPPSMultiplexer := get_property PPS_Mux.
Definition setPPSMultiplexer := set_property PPS_Mux (run_slot PPS_Mux).

(** ** Levels *)
Definition WriteOutput io (value : bool) : M D unit :=
  match known_channel io with
  | Some GPIO => cycle [BusW (io_control_addr io + eSet_GPIO_Out_Begin + u32 (io_index io * 4))
                          (if value then 0x01 else 0x00)];; mret tt
  | Some LVDS => cycle [BusW (io_control_addr io + eSet_LVDS_Out_Begin + u32 (io_index io * 4))
                          (if value then 0xff else 0x00)];; mret tt
  | None => throw channel_unknown
  end.

Definition ReadOutput io : M D bool :=
  match known_channel io with
  | Some c => v ← read_one (io_control_addr io
                  + (if c is GPIO then eSet_GPIO_Out_Begin else eSet_LVDS_Out_Begin)
                  + u32 (io_index io * 4));
              mret (negb (v =? 0))
  | None => throw channel_unknown
  end.

(** The registers of the combined outputs follow those of the inputs. *)
Definition total_inputs (info : Z) : Z :=
  u32 (Z.shiftr (Z.land info IO_INFO_IN_COUNT_MASK) IO_INFO_IN_SHIFT
       + Z.shiftr (Z.land info IO_INFO_INOUT_COUNT_MASK) IO_INFO_INOUT_SHIFT).

Definition ReadCombinedOutput io : M D bool :=
  match known_channel io with
  | Some c =>
      inputOffset ← read_one (io_control_addr io + (if c is GPIO then eGPIO_Info else eLVDS_Info));
      v ← read_one (io_control_addr io
            + (if c is GPIO then eGet_GPIO_In_Begin else eGet_LVDS_In_Begin)
            + u32 (total_inputs (u32 inputOffset) * 4) + u32 (io_index io * 4));
      mret (negb (v =? 0))
  | None => throw channel_unknown
  end.

Definition ReadInput io : M D bool :=
  match known_channel io with
  | Some c => v ← read_one (io_control_addr io
                  + (if c is GPIO then eGet_GPIO_In_Begin else eGet_LVDS_In_Begin)
                  + u32 (io_index io * 4));
              mret (negb (v =? 0))
  | None => throw channel_unknown
  end.

(** ** Descriptions *)
Definition getType io : M D string :=
  match known_channel io with
  | Some GPIO => mret "8ns (GPIO)"
  | Some LVDS => mret "1ns (LVDS)"
  | None => throw (Error INVALID_ARGS "IO channel type unknown!")
  end.

Definition getResolution io : M D Z :=
  match known_channel io with
  | Some GPIO => mret 8
  | Some LVDS => mret 1
  | None => throw (Error INVALID_ARGS "IO channel resolution unknown!")
  end.

(** The level conversion is on, in one direction or the other. *)
Definition converts_level io : M D bool :=
  out ← (if io_spec_out_available io then getSpecialPurposeOut io else mret false);
  if (out : bool) then mret true
  else if io_spec_in_available io then getSpecialPurposeIn io else mret false.

Definition convertible_level io (plain converted : string) : M D string :=
  if io_special_purpose io =? IO_SPECIAL_TTL_TO_NIM then
    b ← converts_level io; mret (if (b : bool) then converted else plain)
  else mret plain.

Definition getLogicLevel io : M D string :=
  let l := io_logic_level io in
  if l =? IO_LOGIC_LEVEL_TTL then convertible_level io "TTL" "NIM"
  else if l =? IO_LOGIC_LEVEL_LVTTL then mret "LVTTL"
  else if l =? IO_LOGIC_LEVEL_LVDS then mret "LVDS"
  else if l =? IO_LOGIC_LEVEL_NIM then convertible_level io "NIM" "TTL"
  else if l =? IO_LOGIC_LEVEL_CMOS then mret "CMOS"
  else mret "?".
End Io.
