(* ===== verification/IoCorrect.v ===== *)
(** * Inputs and outputs: what the registers promise and what the methods make
    of it *)
From S2P Require Import Prelude Bus Io.
From stdpp Require Import gmap.
Local Open Scope Z_scope.

(** ** The device *)

(** The 64-bit register of each property and channel. *)
Class IoHw (D : Type) := io_reg : D -> io_channels -> io_property -> Z.

(** What the register map promises, for a device at [ctl]; [w] is the offset of
    the low or of the high word. *)
Class IoHwOk (D : Type) `{Bus D, IoHw D} (ctl : Z) := {
  hw_set : forall c p w v d rs d', w = 0 \/ w = 4 ->
    bus_cycle [BusW (ctl + Set_low c p + w) v] d = Some (rs, d') ->
    forall c' p', io_reg d' c' p' =
      if decide ((c', p') = (c, p)) then Z.lor (io_reg d c p) (Z.shiftl (u32 v) (8 * w))
      else io_reg d c' p';
  hw_reset : forall c p w v d rs d', w = 0 \/ w = 4 ->
    bus_cycle [BusW (ctl + Reset_low c p + w) v] d = Some (rs, d') ->
    forall c' p', io_reg d' c' p' =
      if decide ((c', p') = (c, p)) then Z.ldiff (io_reg d c p) (Z.shiftl (u32 v) (8 * w))
      else io_reg d c' p';
  hw_read : forall c p w d rs d', w = 0 \/ w = 4 ->
    bus_cycle [BusR (ctl + Set_low c p + w)] d = Some (rs, d') ->
    rs = [u32 (Z.shiftr (io_reg d c p) (8 * w))] /\
    forall c' p', io_reg d' c' p' = io_reg d c' p'
}.

(** ** Masks of one bit *)
Lemma int_bit_low {S} i (s : S) : 0 <= i < 32 ->
  exists b, int_bit i s = (Ret b, s) /\ u32 b = Z.shiftl 1 i.
Proof.
  intros Hi. unfold int_bit. rewrite (proj2 (Z.ltb_lt i 32)) by lia. eexists. split; [done|].
  rewrite Z.shiftl_1_l. assert (0 < 2 ^ i < 2 ^ 32) as Hp.
  { split; [apply Z.pow_pos_nonneg; lia|apply Z.pow_lt_mono_r; lia]. }
  change (2 ^ 32) with 4294967296 in Hp. generalize dependent (2 ^ i). intros x Hx. wrap_lia.
Qed.

Lemma u32_testbit v i : Z.testbit (u32 v) i = (i <? 32) && Z.testbit v i.
Proof.
  unfold unsigned_wrap. destruct (Z.lt_ge_cases i 0); [rewrite !Z.testbit_neg_r by lia; by rewrite andb_false_r|].
  destruct (Z.ltb_spec i 32).
  - by rewrite Z.mod_pow2_bits_low by lia.
  - by rewrite Z.mod_pow2_bits_high by lia.
Qed.

Lemma one_bit i k : 0 <= i -> Z.testbit (Z.shiftl 1 i) k = (k =? i).
Proof.
  intros Hi. rewrite Z.shiftl_1_l. destruct (Z.eqb_spec k i) as [->|Hne].
  - by apply Z.pow2_bits_true.
  - by apply Z.pow2_bits_false.
Qed.

(** Isolating a bit with the mask and shifting it down. *)
Lemma isolate_bit v b i : 0 <= i < 32 -> u32 b = Z.shiftl 1 i ->
  negb (Z.shiftr (Z.land (u32 v) b) i =? 0) = Z.testbit v i.
Proof.
  intros Hi Hb.
  assert (Z.shiftr (Z.land (u32 v) b) i = Z.b2z (Z.testbit v i)) as ->; [|by destruct (Z.testbit v i)].
  apply Z.bits_inj'. intros k Hk. rewrite Z.shiftr_spec, Z.land_spec, u32_testbit by done.
  assert (Z.b2z (Z.testbit v i) = Z.shiftl (Z.b2z (Z.testbit v i)) 0) as -> by (by rewrite Z.shiftl_0_r).
  destruct (Z.ltb_spec (k + i) 32) as [Hlt|Hge]; cbn [andb].
  - assert (Z.testbit b (k + i) = (k =? 0)) as ->.
    { transitivity (Z.testbit (u32 b) (k + i)).
      - rewrite u32_testbit. by rewrite (proj2 (Z.ltb_lt _ _) Hlt).
      - rewrite Hb, one_bit by lia. destruct (Z.eqb_spec k 0), (Z.eqb_spec (k + i) i); lia || done. }
    rewrite Z.shiftl_0_r. destruct (Z.eqb_spec k 0) as [->|Hk0].
    + rewrite andb_true_r, Z.add_0_l. by destruct (Z.testbit v i).
    + rewrite andb_false_r. destruct (Z.testbit v i); [|by rewrite Z.bits_0].
      symmetry. apply (Z.pow2_bits_false 0 k). lia.
  - rewrite Z.shiftl_0_r. destruct (Z.testbit v i); [|by rewrite Z.bits_0].
    symmetry. apply (Z.pow2_bits_false 0 k). lia.
Qed.

(** ** The lines *)

(** The line of the hardware that a getter or a setter with two accesses works
    on. *)
Definition accessed_line (io : Io) : Z := if 31 <? io_index io then io_index io + 1 else io_index io.

Section Lines.
Context {D : Type} `{HB : Bus D, HI : IoHw D} {ctl : Z} `{!IoHwOk D ctl}.
Implicit Types (d : D) (io : Io).

Definition no_slot : io_property -> option (bool -> M D unit) := fun _ => None.

Definition line d (c : io_channels) (p : io_property) (i : Z) : bool := Z.testbit (io_reg d c p) i.

(** [d'] is [d] with one line changed. *)
Definition line_set d d' c p i v : Prop :=
  forall c' p' k, 0 <= k ->
    line d' c' p' k = if decide ((c', p', k) = (c, p, i)) then v else line d c' p' k.

Record usable io (c : io_channels) : Prop := {
  us_channel : known_channel io = Some c;
  us_addr : io_control_addr io = ctl;
  us_index : 0 <= io_index io <= 62
}.

Lemma word_and_bit io : 0 <= io_index io <= 62 ->
  exists w, (w = 0 \/ w = 4) /\ (if high_access io then 4 else 0) = w /\
    0 <= internal_id io < 32 /\ accessed_line io = internal_id io + 8 * w.
Proof.
  intros Hi. unfold high_access, internal_id, accessed_line. destruct (Z.ltb_spec 31 (io_index io)).
  - exists 4. rewrite unsigned_wrap_small by lia. repeat split; lia.
  - exists 0. repeat split; lia.
Qed.

Lemma write_line c p (v : bool) w i m d rs d' : (w = 0 \/ w = 4) -> 0 <= i < 32 ->
  u32 m = Z.shiftl 1 i ->
  bus_cycle [BusW (ctl + (if v then Set_low c p else Reset_low c p) + w) m] d = Some (rs, d') ->
  line_set d d' c p (i + 8 * w) v.
Proof.
  intros Hw Hi Hm E c' p' k Hk. unfold line.
  assert (forall j, Z.testbit (Z.shiftl (u32 m) (8 * w)) j = (j =? i + 8 * w)) as Hbit.
  { intros j. rewrite Hm, Z.shiftl_shiftl by lia. apply one_bit. lia. }
  destruct v; [apply (hw_set c p w m d rs d' Hw) with (c' := c') (p' := p') in E
              |apply (hw_reset c p w m d rs d' Hw) with (c' := c') (p' := p') in E]; rewrite E; clear E.
  all: destruct (decide ((c', p') = (c, p))) as [[= -> ->]|Hne].
  all: try (rewrite decide_False by congruence; done).
  - rewrite Z.lor_spec, Hbit. destruct (Z.eqb_spec k (i + 8 * w)) as [->|Hk'].
    + rewrite decide_True by done. apply orb_true_r.
    + rewrite decide_False by congruence. apply orb_false_r.
  - rewrite Z.ldiff_spec, Hbit. destruct (Z.eqb_spec k (i + 8 * w)) as [->|Hk'].
    + rewrite decide_True by done. apply andb_false_r.
    + rewrite decide_False by congruence. apply andb_true_r.
Qed.

(** A setter with two accesses. *)
Lemma set_property_line p notify io c val d :
  usable io c -> (forall b s, notify b s = (Ret tt, s)) ->
  match set_property p notify io val d with
  | (Ret _, d') => line_set d d' c p (accessed_line io) val
  | (Throw e, d') => e = EtherboneError /\ d' = d
  | (Crash _, _) => False
  end.
Proof.
  intros [Hc Ha Hi] Hn. unfold set_property. rewrite Hc.
  destruct (word_and_bit io Hi) as (w & Hw & Hhigh & Hid & ->).
  destruct (int_bit_low (internal_id io) d Hid) as (b & Hb & Hu). mrun. rewrite Hb. mrun.
  unfold cycle. rewrite Ha.
  replace (if val then if high_access io then Set_high c p else Set_low c p
           else if high_access io then Reset_high c p else Reset_low c p)
    with ((if val then Set_low c p else Reset_low c p) + w)
    by (rewrite <- Hhigh; unfold Set_high, Reset_high, Reset_low; destruct val, (high_access io); lia).
  rewrite Z.add_assoc. destruct (bus_cycle _ d) as [[rs d']|] eqn:E; [|done].
  rewrite Hn. by eapply write_line.
Qed.

(** [setOutputEnable] finds the line by division. *)
Lemma setOutputEnable_line io c val d :
  usable io c ->
  match setOutputEnable no_slot io val d with
  | (Ret _, d') => line_set d d' c Oe (io_index io) val
  | (Throw e, d') => e = EtherboneError /\ d' = d
  | (Crash _, _) => False
  end.
Proof.
  intros [Hc Ha Hi]. unfold setOutputEnable. rewrite Hc, Ha. unfold dev_write, cycle. mrun.
  set (w := u32 (4 * (io_index io / 32))).
  assert ((w = 0 \/ w = 4) /\ io_index io = io_index io `mod` 32 + 8 * w) as [Hw Hidx].
  { unfold w. rewrite unsigned_wrap_small by (change (2 ^ 32) with 4294967296; Z.div_mod_to_equations; lia).
    Z.div_mod_to_equations. lia. }
  pose proof (Z.mod_pos_bound (io_index io) 32 ltac:(lia)) as Hm.
  assert (u32 (Z.shiftl 1 (io_index io `mod` 32)) = Z.shiftl 1 (io_index io `mod` 32)) as Hu.
  { apply unsigned_wrap_small. rewrite Z.shiftl_1_l. split; [apply Z.pow_nonneg; lia|apply Z.pow_lt_mono_r; lia]. }
  destruct (bus_cycle _ d) as [[rs d']|] eqn:E; [|done].
  rewrite Hidx. by eapply write_line.
Qed.

Lemma get_property_line p io c d :
  usable io c ->
  match get_property p io d with
  | (Ret v, d') => v = line d c p (accessed_line io) /\
                   forall c' p', io_reg d' c' p' = io_reg d c' p'
  | (Throw e, d') => e = EtherboneError /\ d' = d
  | (Crash _, _) => False
  end.
Proof.
  intros [Hc Ha Hi]. unfold get_property. rewrite Hc.
  destruct (word_and_bit io Hi) as (w & Hw & Hhigh & Hid & ->). rewrite Ha.
  replace (if high_access io then Set_high c p else Set_low c p) with (Set_low c p + w)
    by (rewrite <- Hhigh; unfold Set_high; destruct (high_access io); lia).
  unfold read_one, cycle. mrun. rewrite Z.add_assoc.
  destruct (bus_cycle _ d) as [[rs d']|] eqn:E; [|done].
  apply hw_read in E as [-> Hreg]; [|done]. cbn.
  destruct (int_bit_low (internal_id io) d' Hid) as (b & Hb & Hu). rewrite Hb.
  split; [|done]. rewrite isolate_bit by done. unfold line. by rewrite Z.shiftr_spec by lia.
Qed.

(** ** Calls on all lines, against one truth value per line *)
Inductive line_call :=
  | SetLine (p : io_property) (io : Io) (val : bool)
  | GetLine (p : io_property) (io : Io).

Definition setter (p : io_property) : Io -> bool -> M D unit :=
  match p with
  | Oe => setOutputEnable no_slot
  | Term => setInputTermination no_slot
  | Spec_In => setSpecialPurposeIn no_slot
  | Spec_Out => setSpecialPurposeOut no_slot
  | Gate_In => setGateIn no_slot
  | Gate_Out => setGateOut
  | Mux => setBuTiSMultiplexer no_slot
  | PPS_Mux => setPPSMultiplexer no_slot
  end.
Definition getter (p : io_property) : Io -> M D bool :=
  match p with
  | Oe => getOutputEnable
  | Term => getInputTermination
  | Spec_In => getSpecialPurposeIn
  | Spec_Out => getSpecialPurposeOut
  | Gate_In => getGateIn
  | Gate_Out => getGateOut
  | Mux => getBuTiSMultiplexer
  | PPS_Mux => getPPSMultiplexer
  end.

Definition run_line_call (call : line_call) : M D bool :=
  match call with
  | SetLine p io val => setter p io val;; mret val
  | GetLine p io => getter p io
  end.

Fixpoint run_line_calls (calls : list line_call) : M D (list bool) :=
  match calls with
  | [] => mret []
  | call :: calls' => v ← run_line_call call; vs ← run_line_calls calls'; mret (v :: vs)
  end.

(** The specification: a table. *)
Definition table : Type := io_channels -> io_property -> Z -> bool.
Definition table_set (t : table) c p i (v : bool) : table :=
  fun c' p' i' => if decide ((c', p', i') = (c, p, i)) then v else t c' p' i'.

Definition call_io (call : line_call) : Io :=
  match call with SetLine _ io _ => io | GetLine _ io => io end.

Definition spec_call (call : line_call) (t : table) : bool * table :=
  let io := call_io call in
  match known_channel io with
  | None => (false, t)
  | Some c => match call with
              | SetLine p _ v => (v, table_set t c p (io_index io) v)
              | GetLine p _ => (t c p (io_index io), t)
              end
  end.

Fixpoint spec_calls (calls : list line_call) (t : table) : list bool * table :=
  match calls with
  | [] => ([], t)
  | call :: calls' => let '(v, t1) := spec_call call t in
                      let '(vs, t2) := spec_calls calls' t1 in (v :: vs, t2)
  end.

(** The hardware shows the table. *)
Definition shows (d : D) (t : table) : Prop := forall c p i, 0 <= i -> line d c p i = t c p i.

Definition in_low_word (call : line_call) : Prop :=
  (exists c, usable (call_io call) c) /\ io_index (call_io call) <= 31.

Lemma other_setter_line p io c val d :
  p <> Oe -> usable io c ->
  match setter p io val d with
  | (Ret _, d') => line_set d d' c p (accessed_line io) val
  | (Throw e, d') => e = EtherboneError /\ d' = d
  | (Crash _, _) => False
  end.
Proof. intros Hp Hu. by destruct p; [done|..]; apply set_property_line. Qed.

Lemma setter_line p io c val d :
  usable io c -> io_index io <= 31 ->
  match setter p io val d with
  | (Ret _, d') => line_set d d' c p (io_index io) val
  | (Throw e, d') => e = EtherboneError /\ d' = d
  | (Crash _, _) => False
  end.
Proof.
  intros Hu Hi. assert (accessed_line io = io_index io) as Ha.
  { unfold accessed_line. destruct (Z.ltb_spec 31 (io_index io)); lia. }
  destruct (decide (p = Oe)) as [->|Hp]; [by apply setOutputEnable_line|].
  pose proof (other_setter_line p io c val d Hp Hu) as Hs. by rewrite Ha in Hs.
Qed.

Lemma getter_property p : getter p = get_property p.
Proof. by destruct p. Qed.

Lemma run_line_call_refines call d t : in_low_word call -> shows d t ->
  match run_line_call call d with
  | (Ret v, d') => exists t', spec_call call t = (v, t') /\ shows d' t'
  | (Throw e, d') => e = EtherboneError /\ d' = d
  | (Crash _, _) => False
  end.
Proof.
  intros [[c Hu] Hi] Ht. destruct call as [p io val|p io]; cbn [call_io] in *; unfold run_line_call, spec_call;
    cbn [call_io]; rewrite (us_channel _ _ Hu).
  - pose proof (setter_line p io c val d Hu Hi) as Hs. mrun.
    destruct (setter p io val d) as [[[]|e|w] d']; [|done|done].
    eexists. split; [done|]. intros c' p' k Hk. rewrite (Hs c' p' k Hk). unfold table_set.
    destruct (decide _); [done|]. by apply Ht.
  - rewrite getter_property. pose proof (get_property_line p io c d Hu) as Hg.
    destruct (get_property p io d) as [[v|e|w] d']; [|done|done]. destruct Hg as [-> Hreg].
    assert (accessed_line io = io_index io) as ->.
    { unfold accessed_line. destruct (Z.ltb_spec 31 (io_index io)); lia. }
    eexists. rewrite Ht by (destruct Hu; lia). split; [done|].
    intros c' p' k Hk. unfold line. rewrite Hreg. by apply Ht.
Qed.

(** C12: For lines with an index of at most 31 the properties of all I/Os behave as a
    table with one truth value per channel, property and index: any sequence of
    setters and getters on any of the I/Os returns what the table returns and
    leaves the hardware showing the table.  A call fails only if the bus does. *)
Theorem lines_refine_table (calls : list line_call) (d : D) (t : table)
    (Hcalls : Forall in_low_word calls) (Ht : shows d t) :
  match run_line_calls calls d with
  | (Ret vs, d') => exists t', spec_calls calls t = (vs, t') /\ shows d' t'
  | (Throw e, _) => e = EtherboneError
  | (Crash _, _) => False
  end.
Proof.
  revert d t Ht. induction Hcalls as [|call calls Hcall Hcalls IH]; intros d t Ht; cbn; [by eexists|].
  pose proof (run_line_call_refines call d t Hcall Ht) as H1. mrun.
  destruct (run_line_call call d) as [[v|e|w] d1]; [|by destruct H1|done].
  destruct H1 as (t1 & E1 & Ht1). specialize (IH d1 t1 Ht1). rewrite E1.
  destruct (run_line_calls calls d1) as [[vs|e|w] d2]; [|done|done].
  destruct IH as (t2 & E2 & Ht2). rewrite E2. by eexists.
Qed.

Lemma last_line_undefined io c p v (d : D) :
  known_channel io = Some c -> io_index io = 63 -> p <> Oe ->
  (setter p io v d).1 = Crash "1<<internal_id".
Proof.
  intros Hc Hi Hp. destruct p; [done|..]; cbn;
    unfold setInputTermination, setSpecialPurposeIn, setSpecialPurposeOut, setGateIn, setGateOut,
      setBuTiSMultiplexer, setPPSMultiplexer, set_property, internal_id; by rewrite Hc, Hi.
Qed.

(** C40: Above 31 the methods with two accesses subtract 31 where 32 is meant, and
    setOutputEnable does not: with an index from 32 to 62 every getter, and
    every setter but that of the output enable, works on the line of the next
    index, so that the output enable that is set is not the one that is read; at
    index 63 they shift by 32, which is undefined. *)
Theorem high_lines_off_by_one (io : Io) (c : io_channels) (d : D)
    (Hu : usable io c) (Hi : 32 <= io_index io) :
  (forall p v d', p <> Oe -> setter p io v d = (Ret tt, d') ->
     line_set d d' c p (io_index io + 1) v) /\
  (forall p v d', getter p io d = (Ret v, d') -> v = line d c p (io_index io + 1)) /\
  (forall v d', setter Oe io v d = (Ret tt, d') -> line_set d d' c Oe (io_index io) v) /\
  (forall v v' d' d'', setter Oe io v d = (Ret tt, d') -> getter Oe io d' = (Ret v', d'') ->
     v' = line d c Oe (io_index io + 1)) /\
  (forall last p v, known_channel last = Some c -> io_index last = 63 -> p <> Oe ->
     (setter p last v d).1 = Crash "1<<internal_id").
Proof.
  assert (accessed_line io = io_index io + 1) as Ha.
  { unfold accessed_line. destruct (Z.ltb_spec 31 (io_index io)); lia. }
  assert (forall p v d0 d', getter p io d0 = (Ret v, d') -> v = line d0 c p (io_index io + 1)) as Hg.
  { intros p v d0 d' E. pose proof (get_property_line p io c d0 Hu) as Hg.
    rewrite getter_property in E. rewrite E, Ha in Hg. by destruct Hg. }
  assert (forall v d', setter Oe io v d = (Ret tt, d') -> line_set d d' c Oe (io_index io) v) as Hoe.
  { intros v d' E. pose proof (setOutputEnable_line io c v d Hu) as Hs. cbn in E. by rewrite E in Hs. }
  split_and!; [..|exact Hoe| |].
  - intros p v d' Hp E. pose proof (other_setter_line p io c v d Hp Hu) as Hs. by rewrite E, Ha in Hs.
  - intros p v d' E. by eapply Hg.
  - intros v v' d' d'' E1 E2. rewrite (Hg Oe v' d' d'' E2). pose proof (us_index _ _ Hu).
    rewrite (Hoe v d' E1 c Oe (io_index io + 1)) by lia. rewrite decide_False; [done|].
    intros [= E]. lia.
  - intros last p v Hc H63 Hp. by eapply last_line_undefined.
Qed.

(** With a channel that is neither GPIO nor LVDS, e.g. a fixed one, the getters
    and setOutputEnable report an error; the other setters send an empty cycle
    and return. *)
Lemma unknown_channel_setters p io val (d d0 : D) rs :
  known_channel io = None -> bus_cycle [] d = Some (rs, d0) -> p <> Oe ->
  setter p io val d = (Ret tt, d0) /\
  getter p io d = (Throw channel_unknown, d) /\
  setter Oe io val d = (Throw channel_unknown, d).
Proof.
  intros Hc E Hp. split_and!.
  - destruct p; [done|..]; cbn; unfold setInputTermination, setSpecialPurposeIn, setSpecialPurposeOut,
      setGateIn, setGateOut, setBuTiSMultiplexer, setPPSMultiplexer, set_property; rewrite Hc;
      unfold cycle; mrun; by rewrite E.
  - rewrite getter_property. unfold get_property. by rewrite Hc.
  - cbn. unfold setOutputEnable. by rewrite Hc.
Qed.
End Lines.

(** ** A device with these registers *)
Module IoDemo.
Record ioc := mkIoc { ioc_reg : io_channels -> io_property -> Z }.

Definition all_registers : list (io_channels * io_property) :=
  c ← [GPIO; LVDS]; p ← [Oe; Term; Spec_In; Spec_Out; Gate_In; Gate_Out; Mux; PPS_Mux]; [(c, p)].

(** Register, whether the address is that of a reset, offset of the word. *)
Definition decode (a : Z) : option (io_channels * io_property * bool * Z) :=
  head (cp ← all_registers; rst ← [false; true]; w ← [0; 4];
        if a =? Set_low cp.1 cp.2 + (if rst : bool then 8 else 0) + w then [(cp, rst, w)] else []).

Definition ioc_set (c : io_channels) (p : io_property) (v : Z) (d : ioc) : ioc :=
  mkIoc (fun c' p' => if decide ((c', p') = (c, p)) then v else ioc_reg d c' p').

Definition ioc_step (op : bus_op) (s : list Z * ioc) : list Z * ioc :=
  let '(rs, d) := s in
  match op with
  | BusW a v =>
      match decode a with
      | Some (c, p, rst, w) =>
          let m := Z.shiftl (u32 v) (8 * w) in
          (rs, ioc_set c p (if rst : bool then Z.ldiff (ioc_reg d c p) m else Z.lor (ioc_reg d c p) m) d)
      | None => (rs, d)
      end
  | BusR a =>
      match decode a with
      | Some (c, p, false, w) => (rs ++ [u32 (Z.shiftr (ioc_reg d c p) (8 * w))], d)
      | _ => (rs ++ [0], d)
      end
  end.

#[export] Instance ioc_bus : Bus ioc := fun ops d =>
  Some (foldl (fun s op => ioc_step op s) ([], d) ops).
#[export] Instance ioc_hw : IoHw ioc := ioc_reg.

Lemma decode_set c p w : w = 0 \/ w = 4 -> decode (0 + Set_low c p + w) = Some (c, p, false, w).
Proof. intros [-> | ->]; by destruct c, p. Qed.
Lemma decode_reset c p w : w = 0 \/ w = 4 -> decode (0 + Reset_low c p + w) = Some (c, p, true, w).
Proof. intros [-> | ->]; by destruct c, p. Qed.

#[export] Instance ioc_ok : IoHwOk ioc 0.
Proof.
  split; intros c p w; [intros v|intros v|]; intros d rs d' Hw E; unfold bus_cycle, ioc_bus in E;
    cbn [foldl ioc_step] in E.
  - rewrite decode_set in E by done. by injection E as <- <-.
  - rewrite decode_reset in E by done. by injection E as <- <-.
  - rewrite decode_set in E by done. by injection E as <- <-.
Qed.

Definition dark : ioc := mkIoc (fun _ _ => 0).
Definition an_io (channel index : Z) : Io :=
  mkIo "IO1" 2 channel 0 0 index 0 0 true true false false 0.

Lemma dark_shows : shows dark (fun _ _ _ => false).
Proof. intros c p i Hi. apply Z.bits_0. Qed.

Definition calls : list line_call :=
  [SetLine Oe (an_io 1 31) true; SetLine Gate_In (an_io 1 31) true; SetLine Gate_In (an_io 0 3) true;
   SetLine Gate_In (an_io 1 31) false; GetLine Oe (an_io 1 31); GetLine Gate_In (an_io 1 31);
   GetLine Gate_In (an_io 0 3); GetLine Gate_In (an_io 0 4)].

Lemma lines_refine_table_witness :
  exists vs d', run_line_calls calls dark = (Ret vs, d') /\
    vs = [true; true; true; false; true; false; true; false] /\
    exists t', spec_calls calls (fun _ _ _ => false) = (vs, t') /\ shows d' t'.
Proof.
  assert (Forall (in_low_word (ctl := 0)) calls) as Hc.
  { repeat constructor; cbn; try lia; eexists; split; cbn; lia || reflexivity. }
  pose proof (lines_refine_table calls dark (fun _ _ _ => false) Hc dark_shows) as H.
  destruct (run_line_calls calls dark) as [[vs|e|w] d'] eqn:E.
  - exists vs, d'. split; [reflexivity|]. split; [|exact H].
    assert ((run_line_calls calls dark).1 = Ret [true; true; true; false; true; false; true; false]) as E'
      by (vm_compute; reflexivity).
    rewrite E in E'. by injection E'.
  - exfalso. assert ((run_line_calls calls dark).1 = Throw e) as E' by (by rewrite E).
    vm_compute in E'. discriminate.
  - destruct H.
Defined.

(** Line 40 is switched on, and reads as off. *)
Lemma high_lines_off_by_one_witness :
  exists d', setter Oe (an_io 0 40) true dark = (Ret tt, d') /\
    line_set dark d' GPIO Oe 40 true /\
    exists v d'', getter Oe (an_io 0 40) d' = (Ret v, d'') /\ v = false.
Proof.
  assert (usable (ctl := 0) (an_io 0 40) GPIO) as Hu by (split; cbn; lia || reflexivity).
  destruct (high_lines_off_by_one (an_io 0 40) GPIO dark Hu ltac:(cbn; lia))
    as (_ & _ & Hset & Hget & _).
  eexists. split; [reflexivity|]. split; [apply Hset; reflexivity|].
  eexists _, _. split; [reflexivity|]. vm_compute. reflexivity.
Defined.
End IoDemo.
