(* ===== verification/ClockGen.v ===== *)
(** * The clock generator of the serializers: src/SerdesClockGen.cpp

    The phases of a clock are doubles.  A [double] is a [spec_float] of the
    Standard Library with the precision and the exponents of binary64; [floor],
    [ceil] and [round] are those of [<math.h>]; the conversion of a double to an
    integer type is undefined when the truncated value is out of its range. *)
From S2P Require Import Prelude Bus Io.
From Stdlib Require Import SpecFloat.
Local Open Scope Z_scope.

(** ** binary64 *)
Definition double : Type := spec_float.
Definition prec : Z := 53.
Definition emax : Z := 1024.

Definition d_add : double -> double -> double := SFadd prec emax.
Definition d_sub : double -> double -> double := SFsub prec emax.
Definition d_mul : double -> double -> double := SFmul prec emax.
Definition d_div : double -> double -> double := SFdiv prec emax.
Definition d_of_Z (m : Z) : double := binary_normalize prec emax m 0 false.
Definition d_eq : double -> double -> bool := SFeqb.
Definition d_zero : double := S754_zero false.

(** The number of a finite double, [m * 2 ^ e]. *)
Definition signed (s : bool) (m : positive) : Z := if s then Zneg m else Zpos m.

(** An integer as a double that has the sign of the argument if it is zero. *)
Definition d_integer (s : bool) (n : Z) : double := binary_normalize prec emax n 0 s.

(** [f] rounds the rational [n / 2 ^ k]. *)
Definition d_rounding (f : Z -> Z -> Z) (x : double) : double :=
  match x with
  | S754_finite s m e => if 0 <=? e then x else d_integer s (f (signed s m) (- e))
  | _ => x
  end.
Definition Z_floor (n k : Z) : Z := n / 2 ^ k.
Definition Z_ceil (n k : Z) : Z := - (- n / 2 ^ k).
(** Halves away from zero. *)
Definition Z_round (n k : Z) : Z := Z.sgn n * ((2 * Z.abs n + 2 ^ k) / 2 ^ (k + 1)).

Definition d_floor : double -> double := d_rounding Z_floor.
Definition d_ceil : double -> double := d_rounding Z_ceil.
Definition d_round : double -> double := d_rounding Z_round.

(** Truncation; not for infinities and NaN. *)
Definition d_trunc (x : double) : option Z :=
  match x with
  | S754_zero _ => Some 0
  | S754_finite s m e =>
      Some (if 0 <=? e then signed s m * 2 ^ e else Z.quot (signed s m) (2 ^ (- e)))
  | _ => None
  end.

Definition in_range (lo hi : Z) (x : option Z) : option Z :=
  match x with
  | Some n => if (lo <=? n) && (n <=? hi) then Some n else None
  | None => None
  end.
Definition d_to_int (x : double) : option Z := in_range (- 2 ^ 31) (2 ^ 31 - 1) (d_trunc x).
Definition d_to_uint32 (x : double) : option Z := in_range 0 (2 ^ 32 - 1) (d_trunc x).

(** ** The registers *)
Definition IO_SER_CLK_GEN_BITS : Z := 8.
Definition eSCK_selr : Z := 0x00.
Definition eSCK_perr : Z := 0x04.
Definition eSCK_perhir : Z := 0x08.
Definition eSCK_fracr : Z := 0x0c.
Definition eSCK_normmaskr : Z := 0x10.
Definition eSCK_skipmaskr : Z := 0x14.
Definition eSCK_phofslr : Z := 0x18.
Definition eSCK_phofshr : Z := 0x1c.

Record SerClkGenControl := mkSerClkGenControl {
  period_integer : Z; period_high : Z; period_fraction : Z;
  bit_pattern_normal : Z; bit_pattern_skip : Z; phase_offset : Z
}.

(** ** [CalcClockParameters] *)

(** [1 << n] of an [int], as far as it is defined. *)
Definition shl1 (n : Z) : option Z :=
  if (0 <=? n) && (n <? 31) then Some (Z.shiftl 1 n) else None.

(** One round of the loop over [i]. *)
Definition pattern_step (cut_period : double) (cut_wide_period pattern i : Z) : option Z :=
  offset ← d_to_int (d_ceil (d_mul (d_of_Z i) cut_period));
  pattern1 ← (if offset <=? IO_SER_CLK_GEN_BITS - 1 then
                b ← shl1 (IO_SER_CLK_GEN_BITS - 1 - offset); Some (u16 (Z.lor pattern b))
              else Some pattern);
  if cut_wide_period - offset <=? IO_SER_CLK_GEN_BITS then
    b ← shl1 (IO_SER_CLK_GEN_BITS - 1 - offset + cut_wide_period); Some (u16 (Z.lor pattern1 b))
  else Some pattern1.

(** [for (i = 0; i < fill_factor; ++i)] *)
Fixpoint pattern_loop (rounds : nat) (cut_period : double) (cut_wide_period i pattern : Z) : option Z :=
  match rounds with
  | O => Some pattern
  | S rounds' =>
      pattern' ← pattern_step cut_period cut_wide_period pattern i;
      pattern_loop rounds' cut_period cut_wide_period (i + 1) pattern'
  end.

(** [0x8000 >> (15-cut_wide_period)] *)
Definition skip_spot (cut_wide_period : Z) : option Z :=
  if 16 <=? cut_wide_period then Some 0
  else if (0 <=? 15 - cut_wide_period) && (15 - cut_wide_period <? 32)
       then Some (u16 (Z.shiftr 0x8000 (15 - cut_wide_period)))
       else None.

Definition CalcClockParameters (hi lo : double) (phase : Z) : option SerClkGenControl :=
  let period := d_add hi lo in
  fill_factor ← d_to_int (d_ceil (d_div (d_of_Z IO_SER_CLK_GEN_BITS) period));
  let wide_period := d_mul period (d_of_Z fill_factor) in
  cut_wide_period ← d_to_int (d_floor wide_period);
  let cut_period := d_div (d_of_Z cut_wide_period) (d_of_Z fill_factor) in
  p_integer ← d_to_uint32 (d_floor wide_period);
  p_high ← d_to_uint32 (d_floor hi);
  p_fraction ← d_to_uint32
    (d_round (d_mul (d_sub wide_period (d_of_Z p_integer)) (d_of_Z 4294967296)));
  normal ← pattern_loop (Z.to_nat fill_factor) cut_period cut_wide_period 0 0;
  spot ← skip_spot cut_wide_period;
  let low_mask := u16 (spot - 1) in
  let high_mask := u16 (Z.lnot low_mask) in
  Some (mkSerClkGenControl p_integer p_high p_fraction normal
          (u16 (Z.lor (Z.land normal high_mask) (Z.shiftr (Z.land normal low_mask) 1))) phase).

(** ** The methods *)
Section SerdesClockGen.
Context {D : Type} `{Bus D}.
Variable adr_first : Z.

Definition control_ops (io_index : Z) (c : SerClkGenControl) : list bus_op :=
  [BusW (adr_first + eSCK_selr) io_index;
   BusW (adr_first + eSCK_perr) (period_integer c);
   BusW (adr_first + eSCK_perhir) (period_high c);
   BusW (adr_first + eSCK_fracr) (period_fraction c);
   BusW (adr_first + eSCK_normmaskr) (bit_pattern_normal c);
   BusW (adr_first + eSCK_skipmaskr) (bit_pattern_skip c);
   BusW (adr_first + eSCK_phofslr) (u32 (phase_offset c));
   BusW (adr_first + eSCK_phofshr) (u32 (Z.shiftr (phase_offset c) 32))].

Definition only_LVDS : exn := Error INVALID_ARGS "Clock generator is only available for LVDS outputs!".

Definition clock_off (high_phase low_phase : double) (phase : Z) : bool :=
  d_eq low_phase d_zero && d_eq high_phase d_zero && (phase =? 0).

Definition ConfigureClock (channel index : Z) (high_phase low_phase : double) (phase : Z) : M D bool :=
  if channel =? IO_CFG_CHANNEL_LVDS then
    match CalcClockParameters high_phase low_phase phase with
    | None => crash "double out of range in CalcClockParameters"
    | Some c =>
        cycle (control_ops index c);;
        mret (negb (clock_off high_phase low_phase phase))
    end
  else throw only_LVDS.

Definition StartClock (channel index : Z) (high_phase low_phase : double) (phase : Z) : M D bool :=
  ConfigureClock channel index high_phase low_phase phase.
Definition StopClock (channel index : Z) : M D bool := ConfigureClock channel index d_zero d_zero 0.
End SerdesClockGen.

(** ** Integral phases *)

Lemma Calc_phase hi lo ph c :
  CalcClockParameters hi lo 0 = Some c ->
  CalcClockParameters hi lo ph =
    Some (mkSerClkGenControl (period_integer c) (period_high c) (period_fraction c)
            (bit_pattern_normal c) (bit_pattern_skip c) ph).
Proof.
  unfold CalcClockParameters. intros Hc.
  repeat match type of Hc with
  | mbind _ ?m = _ => destruct m; [cbn [mbind option_bind] in Hc |- *|discriminate]
  end.
  by injection Hc as <-.
Qed.

(** Bit [b] of a pattern is the output [7 - b] steps after the start of the word:
    the high byte is the word before. *)
Definition edge_at (p b : Z) : bool := (7 - b) `mod` p =? 0.

(** After a skip everything is one step later. *)
Definition skip_edge_at (p cut b : Z) : bool :=
  if b <? cut then (b + 1 <? Z.min cut 16) && edge_at p (b + 1) else edge_at p b.

(** The least multiple of the period that fills a word. *)
Definition wide (p : Z) : Z := p * ((8 + p - 1) / p).

Definition bits16 : list Z := seqZ 0 16.

Definition integral_case (hi lo : Z) : bool :=
  let p := hi + lo in
  match CalcClockParameters (d_of_Z hi) (d_of_Z lo) 0 with
  | None => p =? 0
  | Some c =>
      (period_integer c =? wide p) && (period_high c =? hi) && (period_fraction c =? 0) &&
      forallb (fun b => Bool.eqb (Z.testbit (bit_pattern_normal c) b) (edge_at p b)) bits16 &&
      forallb (fun b => Bool.eqb (Z.testbit (bit_pattern_skip c) b) (skip_edge_at p (wide p) b)) bits16
  end.

Definition up_to_32 : list Z := seqZ 0 33.

Lemma integral_cases : forallb (fun hi => forallb (integral_case hi) up_to_32) up_to_32 = true.
Proof. vm_compute. reflexivity. Qed.

Lemma integral_case_holds hi lo : 0 <= hi <= 32 -> 0 <= lo <= 32 -> integral_case hi lo = true.
Proof.
  intros Hhi Hlo. pose proof integral_cases as H. rewrite forallb_forall in H.
  assert (forall n, 0 <= n <= 32 -> In n up_to_32) as Hin.
  { intros n Hn. apply list_elem_of_In, elem_of_seqZ. lia. }
  specialize (H hi (Hin hi Hhi)). cbv beta in H. rewrite forallb_forall in H. apply (H lo), Hin, Hlo.
Qed.

Lemma bits16_forall (P : Z -> bool) b : forallb P bits16 = true -> 0 <= b < 16 -> P b = true.
Proof.
  intros H Hb. rewrite forallb_forall in H. apply H, list_elem_of_In, elem_of_seqZ. lia.
Qed.

(** StartClock of an LVDS output programs the clock that was asked for, for
    integral phases of up to 32 ns (of which not both are 0): the registers get
    index, phases and offset, and in the two bytes of the pattern exactly the
    bits at multiples of the period are set; in the pattern with the skip,
    exactly those one step later within the wide period. *)
Theorem StartClock_integral {D} `{Bus D} (adr_first index hi lo ph : Z) (d : D)
    (Hhi : 0 <= hi <= 32) (Hlo : 0 <= lo <= 32) (Hp : 1 <= hi + lo) :
  exists c,
    StartClock adr_first IO_CFG_CHANNEL_LVDS index (d_of_Z hi) (d_of_Z lo) ph d =
      match bus_cycle (control_ops adr_first index c) d with
      | Some (_, d') => (Ret (negb (clock_off (d_of_Z hi) (d_of_Z lo) ph)), d')
      | None => (Throw EtherboneError, d)
      end /\
    period_integer c = wide (hi + lo) /\ period_high c = hi /\ period_fraction c = 0 /\
    phase_offset c = ph /\
    (forall b, 0 <= b < 16 ->
       Z.testbit (bit_pattern_normal c) b = edge_at (hi + lo) b /\
       Z.testbit (bit_pattern_skip c) b = skip_edge_at (hi + lo) (wide (hi + lo)) b).
Proof.
  pose proof (integral_case_holds hi lo Hhi Hlo) as Hc. unfold integral_case in Hc.
  destruct (CalcClockParameters _ _ 0) as [c|] eqn:E; [|apply Z.eqb_eq in Hc; lia].
  pose proof (Calc_phase _ _ ph c E) as E'. rewrite !andb_true_iff, !Z.eqb_eq in Hc.
  destruct Hc as [[[[H1 H2] H3] H4] H5].
  eexists. split.
  - unfold StartClock, ConfigureClock. rewrite E'. unfold cycle. mrun. cbn [Z.eqb IO_CFG_CHANNEL_LVDS Pos.eqb].
    destruct (bus_cycle _ d) as [[rs d']|] eqn:Eb; cbn in *; rewrite Eb; done.
  - cbn. split_and!; [done..|]. intros b Hb.
    pose proof (bits16_forall _ b H4 Hb) as Hn. pose proof (bits16_forall _ b H5 Hb) as Hs.
    split; by apply Bool.eqb_prop.
Qed.

(** A clock of 125 MHz, 3 ns high. *)
Lemma StartClock_integral_witness :
  exists c, StartClock 0 IO_CFG_CHANNEL_LVDS 5 (d_of_Z 3) (d_of_Z 5) 0 ram0 =
      match bus_cycle (control_ops 0 5 c) ram0 with
      | Some (_, d') => (Ret true, d')
      | None => (Throw EtherboneError, ram0)
      end /\ Z.testbit (bit_pattern_normal c) 7 = true.
Proof.
  destruct (StartClock_integral 0 5 3 5 0 ram0 ltac:(lia) ltac:(lia) ltac:(lia))
    as (c & E & _ & _ & _ & _ & Hb).
  exists c. split; [exact E|]. destruct (Hb 7 ltac:(lia)) as [H7 _]. rewrite H7. reflexivity.
Defined.

(** StopClock has no defined behaviour: it asks for the period 0, and the
    quotient 8/0, an infinity, is converted to an int.  So does any pair of
    phases with the sum 0. *)
Theorem StopClock_undefined {D} `{Bus D} (adr_first index : Z) (d : D) :
  StopClock adr_first IO_CFG_CHANNEL_LVDS index d =
    (Crash "double out of range in CalcClockParameters", d) /\
  forall hi lo ph, d_add hi lo = d_zero -> CalcClockParameters hi lo ph = None.
Proof.
  split; [reflexivity|]. intros hi lo ph E. unfold CalcClockParameters. by rewrite E.
Qed.

Lemma StopClock_undefined_witness :
  d_add (d_of_Z 3) (d_of_Z (-3)) = d_zero /\ CalcClockParameters (d_of_Z 3) (d_of_Z (-3)) 1 = None.
Proof.
  split; [vm_compute; reflexivity|].
  destruct (StopClock_undefined 0 0 ram0) as [_ H]. apply H. vm_compute. reflexivity.
Defined.
