(* ===== verification/IoControl.v ===== *)
(** * The I/O control device: src/IoControl.cpp

    The constructor reads a table of 16-byte entries and makes an [Io] of each
    line that is not fixed. *)
From stdpp Require Import gmap.
From S2P Require Import Prelude Bus Io.
Local Open Scope Z_scope.

Definition IO_LVDS_MAX : Z := 64.
Definition IO_GPIO_MAX : Z := 64.
Definition IO_FIXED_MAX : Z := 64.

Definition IO_SPECIAL_PURPOSE_MASK : Z := 0xfc.
Definition IO_SPECIAL_OUT_MASK : Z := 0x02.
Definition IO_SPECIAL_IN_MASK : Z := 0x01.
Definition IO_SPECIAL_PURPOSE_SHIFT : Z := 2.
Definition IO_SPECIAL_OUT_SHIFT : Z := 1.
Definition IO_SPECIAL_IN_SHIFT : Z := 0.

Definition IO_CFG_FIELD_DIR_MASK : Z := 0xc0.
Definition IO_CFG_FIELD_INFO_CHAN_MASK : Z := 0x38.
Definition IO_CFG_FIELD_OE_MASK : Z := 0x04.
Definition IO_CFG_FIELD_TERM_MASK : Z := 0x02.
Definition IO_CFG_FIELD_DIR_SHIFT : Z := 6.
Definition IO_CFG_FIELD_INFO_CHAN_SHIFT : Z := 3.
Definition IO_CFG_FIELD_OE_SHIFT : Z := 2.
Definition IO_CFG_FIELD_TERM_SHIFT : Z := 1.

Definition IO_LOGIC_RES_FIELD_LL_MASK : Z := 0xf0.
Definition IO_LOGIC_RES_FIELD_LL_SHIFT : Z := 4.

Definition IO_CFG_FIELD_DIR_OUTPUT : Z := 0.
Definition IO_CFG_FIELD_DIR_INPUT : Z := 1.
Definition IO_CFG_FIELD_DIR_INOUT : Z := 2.

(** ** Entries *)
Record SetupField := mkSetupField {
  uName : list Z; uSpecial : Z; uIndex : Z; uIOCfgSpace : Z; uLogicLevelRes : Z
}.

(** The four bytes of a word, the first one in the high bits. *)
Definition word_bytes (w : Z) : list Z :=
  [Z.shiftr (Z.land w 0xff000000) 24; Z.shiftr (Z.land w 0x00ff0000) 16;
   Z.shiftr (Z.land w 0x0000ff00) 8; Z.land w 0x000000ff].

Definition field (mask shift v : Z) : Z := Z.shiftr (Z.land v mask) shift.

(** [std::string IOName = cIOName], from a [char uName[12]]: without a zero the
    read leaves the array. *)
Fixpoint c_string (bytes : list Z) : option string :=
  match bytes with
  | [] => None
  | b :: bytes' =>
      if b =? 0 then Some EmptyString
      else String (Ascii.ascii_of_N (Z.to_N b)) <$> c_string bytes'
  end.

Definition is_output (direction : Z) : bool :=
  (direction =? IO_CFG_FIELD_DIR_OUTPUT) || (direction =? IO_CFG_FIELD_DIR_INOUT).
Definition is_input (direction : Z) : bool :=
  (direction =? IO_CFG_FIELD_DIR_INPUT) || (direction =? IO_CFG_FIELD_DIR_INOUT).

Section IoControl.
Context {D : Type} `{Bus D}.
Variable adr_first : Z.

(** One entry of the first loop: three words of the name, one with the rest.
    The array on the stack has room for 192 entries. *)
Definition read_word (k : Z) : M D Z := read_one (adr_first + u32 (eIO_Map_Table_Begin + k * 4)).

Definition read_field (id : Z) : M D SetupField :=
  w0 ← read_word (4 * id);
  massert (id <? IO_GPIO_MAX + IO_LVDS_MAX + IO_FIXED_MAX) "s_aIOCONTROL_SetupField";;
  w1 ← read_word (4 * id + 1);
  w2 ← read_word (4 * id + 2);
  w3 ← read_word (4 * id + 3);
  mret (mkSetupField (word_bytes w0 ++ word_bytes w1 ++ word_bytes w2)
          (field 0xff000000 24 w3) (field 0x00ff0000 16 w3)
          (field 0x0000ff00 8 w3) (field 0x000000ff 0 w3)).

Fixpoint read_fields (entries : nat) (id : Z) : M D (list SetupField) :=
  match entries with
  | O => mret []
  | S entries' => f ← read_field id; fs ← read_fields entries' (id + 1); mret (f :: fs)
  end.

(** One round of the second loop. *)
Definition make_io (f : SetupField) (eca_in eca_out : Z) (name : string) : Io :=
  mkIo name (field IO_CFG_FIELD_DIR_MASK IO_CFG_FIELD_DIR_SHIFT (uIOCfgSpace f))
    (field IO_CFG_FIELD_INFO_CHAN_MASK IO_CFG_FIELD_INFO_CHAN_SHIFT (uIOCfgSpace f))
    eca_in eca_out (uIndex f)
    (field IO_SPECIAL_PURPOSE_MASK IO_SPECIAL_PURPOSE_SHIFT (uSpecial f))
    (field IO_LOGIC_RES_FIELD_LL_MASK IO_LOGIC_RES_FIELD_LL_SHIFT (uLogicLevelRes f))
    (negb (field IO_CFG_FIELD_OE_MASK IO_CFG_FIELD_OE_SHIFT (uIOCfgSpace f) =? 0))
    (negb (field IO_CFG_FIELD_TERM_MASK IO_CFG_FIELD_TERM_SHIFT (uIOCfgSpace f) =? 0))
    (negb (field IO_SPECIAL_OUT_MASK IO_SPECIAL_OUT_SHIFT (uSpecial f) =? 0))
    (negb (field IO_SPECIAL_IN_MASK IO_SPECIAL_IN_SHIFT (uSpecial f) =? 0))
    adr_first.

Fixpoint make_ios (fs : list SetupField) (eca_in eca_out : Z) : M D (list Io) :=
  match fs with
  | [] => mret []
  | f :: fs' =>
      match c_string (uName f) with
      | None => crash "uName is not terminated"
      | Some name =>
          let io := make_io f eca_in eca_out name in
          ios ← make_ios fs' (if is_input (io_direction io) then u32 (eca_in + 1) else eca_in)
                             (if is_output (io_direction io) then u32 (eca_out + 1) else eca_out);
          mret (io :: ios)
      end
  end.

(** [IoControl::IoControl]; the number of words is a multiple of four. *)
Definition IoControl_new : M D (list Io) :=
  rs ← cycle [BusR (adr_first + eGPIO_Info); BusR (adr_first + eLVDS_Info); BusR (adr_first + eFIXED_Info)];
  let count k := default 0 (rs !! k) in
  let gpio := field IO_INFO_TOTAL_COUNT_MASK IO_INFO_TOTAL_SHIFT (count 0%nat) in
  let lvds := field IO_INFO_TOTAL_COUNT_MASK IO_INFO_TOTAL_SHIFT (count 1%nat) in
  let fixed := u32 (count 2%nat) in
  let words := u32 (gpio * 4 + lvds * 4 + u32 (fixed * 4)) in
  fs ← read_fields (Z.to_nat (words / 4)) 0;
  massert (gpio + lvds <=? Z.of_nat (length fs)) "s_aIOCONTROL_SetupField is not filled";;
  make_ios (take (Z.to_nat (gpio + lvds)) fs) 0 0.
End IoControl.

(** ** The table of the I/O control device is decoded *)

(** ** Lines, and their entries in the table *)
Record line_desc := mkLine {
  ld_name : string; ld_direction : Z; ld_channel : Z; ld_index : Z; ld_purpose : Z; ld_level : Z;
  ld_oe : bool; ld_term : bool; ld_spec_out : bool; ld_spec_in : bool
}.

Definition code (c : Ascii.ascii) : Z := Z.of_N (Ascii.N_of_ascii c).

Record line_ok (l : line_desc) : Prop := {
  lo_length : (length (String.list_ascii_of_string (ld_name l)) <= 11)%nat;
  lo_chars : Forall (fun c => code c <> 0) (String.list_ascii_of_string (ld_name l));
  lo_direction : 0 <= ld_direction l < 4;
  lo_channel : 0 <= ld_channel l < 8;
  lo_index : 0 <= ld_index l < 256;
  lo_purpose : 0 <= ld_purpose l < 64;
  lo_level : 0 <= ld_level l < 16
}.

Definition word (a b c d : Z) : Z := a * 2 ^ 24 + b * 2 ^ 16 + c * 2 ^ 8 + d.

Definition name_bytes (l : line_desc) : list Z :=
  take 12 ((code <$> String.list_ascii_of_string (ld_name l)) ++ replicate 12 0).

Definition special_byte (l : line_desc) : Z :=
  ld_purpose l * 4 + Z.b2z (ld_spec_out l) * 2 + Z.b2z (ld_spec_in l).
Definition cfg_byte (l : line_desc) : Z :=
  ld_direction l * 64 + ld_channel l * 8 + Z.b2z (ld_oe l) * 4 + Z.b2z (ld_term l) * 2.

(** The four words of an entry. *)
Definition entry_word (l : line_desc) (j : nat) : Z :=
  let b k := default 0 (name_bytes l !! (4 * j + k)%nat) in
  if (j <? 3)%nat then word (b 0%nat) (b 1%nat) (b 2%nat) (b 3%nat)
  else word (special_byte l) (ld_index l) (cfg_byte l) (ld_level l * 16).

(** ** Bytes and bit fields *)
Lemma field_mod k s v : 0 <= k -> 0 <= s ->
  field (Z.shiftl (Z.ones k) s) s v = (v / 2 ^ s) `mod` 2 ^ k.
Proof.
  intros Hk Hs. unfold field. rewrite Z.shiftr_land, Z.shiftr_shiftl_l, Z.sub_diag, Z.shiftl_0_r by lia.
  by rewrite Z.land_ones, Z.shiftr_div_pow2 by lia.
Qed.

Definition is_byte (b : Z) : Prop := 0 <= b < 256.

Lemma word_byte a b c d : is_byte a -> is_byte b -> is_byte c -> is_byte d ->
  field 0xff000000 24 (word a b c d) = a /\ field 0x00ff0000 16 (word a b c d) = b /\
  field 0x0000ff00 8 (word a b c d) = c /\ field 0x000000ff 0 (word a b c d) = d.
Proof.
  unfold is_byte, word. intros Ha Hb Hc Hd.
  change 0xff000000 with (Z.shiftl (Z.ones 8) 24). change 0x00ff0000 with (Z.shiftl (Z.ones 8) 16).
  change 0x0000ff00 with (Z.shiftl (Z.ones 8) 8). change 0x000000ff with (Z.shiftl (Z.ones 8) 0).
  rewrite !field_mod by lia.
  change (2 ^ 24) with 16777216. change (2 ^ 16) with 65536. change (2 ^ 8) with 256. change (2 ^ 0) with 1.
  repeat split; Z.div_mod_to_equations; lia.
Qed.

Lemma word_bytes_word a b c d : is_byte a -> is_byte b -> is_byte c -> is_byte d ->
  word_bytes (word a b c d) = [a; b; c; d].
Proof.
  intros Ha Hb Hc Hd. destruct (word_byte a b c d Ha Hb Hc Hd) as (E1 & E2 & E3 & E4).
  unfold field in *. rewrite Z.shiftr_0_r in E4. unfold word_bytes. by rewrite E1, E2, E3, E4.
Qed.

Lemma code_byte c : is_byte (code c).
Proof.
  unfold is_byte, code. pose proof (Ascii.N_ascii_bounded c). lia.
Qed.

Lemma name_bytes_ok l : length (name_bytes l) = 12%nat /\ Forall is_byte (name_bytes l).
Proof.
  unfold name_bytes. split.
  - rewrite length_take, length_app, length_replicate. lia.
  - apply Forall_take, Forall_app. split.
    + apply Forall_fmap, Forall_forall. intros c _. apply code_byte.
    + apply Forall_replicate. unfold is_byte. lia.
Qed.

Lemma c_string_codes cs rest : Forall (fun c => code c <> 0) cs ->
  c_string ((code <$> cs) ++ 0 :: rest) = Some (String.string_of_list_ascii cs).
Proof.
  induction 1 as [|c cs Hc Hcs IH]; [done|]. cbn [fmap list_fmap app c_string].
  rewrite (proj2 (Z.eqb_neq _ _) Hc), IH. cbn. f_equal. f_equal.
  unfold code. by rewrite N2Z.id, Ascii.ascii_N_embedding.
Qed.

Lemma c_string_name l : line_ok l -> c_string (name_bytes l) = Some (ld_name l).
Proof.
  intros [Hlen Hchars _ _ _ _ _]. unfold name_bytes.
  set (cs := String.list_ascii_of_string (ld_name l)) in *.
  assert (exists rest, take 12 ((code <$> cs) ++ replicate 12 0) = (code <$> cs) ++ 0 :: rest) as [rest ->].
  { exists (take (11 - length cs) (replicate 11 0)).
    rewrite take_app, length_fmap, (take_ge (code <$> cs)) by (rewrite length_fmap; lia).
    f_equal. replace (12 - length cs)%nat with (S (11 - length cs)) by lia. done. }
  rewrite c_string_codes by done. f_equal. apply String.string_of_list_ascii_of_string.
Qed.

(** ** The constructor *)
Section Decode.
Context {D : Type} `{Bus D}.
Variable adr_first : Z.

(** A device whose registers are read without an effect. *)
Definition static (d : D) (mem : Z -> Z) : Prop :=
  forall addresses, bus_cycle (BusR <$> addresses) d = Some (mem <$> addresses, d).

Record holds_table (mem : Z -> Z) (gpio lvds : nat) (lines : list line_desc) : Prop := {
  ht_gpio : field IO_INFO_TOTAL_COUNT_MASK IO_INFO_TOTAL_SHIFT (mem (adr_first + eGPIO_Info)) = Z.of_nat gpio;
  ht_lvds : field IO_INFO_TOTAL_COUNT_MASK IO_INFO_TOTAL_SHIFT (mem (adr_first + eLVDS_Info)) = Z.of_nat lvds;
  ht_fixed : mem (adr_first + eFIXED_Info) = Z.of_nat (length lines) - Z.of_nat gpio - Z.of_nat lvds;
  ht_enough : (gpio + lvds <= length lines)%nat;
  ht_words : forall i l j, lines !! i = Some l -> (j < 4)%nat ->
    mem (adr_first + (eIO_Map_Table_Begin + (4 * Z.of_nat i + Z.of_nat j) * 4)) = entry_word l j
}.

(** What becomes of a line; [before] are the lines before it. *)
Definition inputs (ls : list line_desc) : Z := Z.of_nat (length (filter (fun l => is_input (ld_direction l) = true) ls)).
Definition outputs (ls : list line_desc) : Z := Z.of_nat (length (filter (fun l => is_output (ld_direction l) = true) ls)).

Definition io_of (l : line_desc) (eca_in eca_out : Z) : Io :=
  mkIo (ld_name l) (ld_direction l) (ld_channel l) eca_in eca_out (ld_index l) (ld_purpose l) (ld_level l)
    (ld_oe l) (ld_term l) (ld_spec_out l) (ld_spec_in l) adr_first.

Definition field_of (l : line_desc) : SetupField :=
  mkSetupField (name_bytes l) (special_byte l) (ld_index l) (cfg_byte l) (ld_level l * 16).

Lemma field_of_ok l : line_ok l ->
  is_byte (special_byte l) /\ is_byte (cfg_byte l) /\ is_byte (ld_index l) /\ is_byte (ld_level l * 16).
Proof.
  intros [_ _ Hd Hc Hi Hp Hl]. unfold is_byte, special_byte, cfg_byte.
  destruct (ld_spec_out l), (ld_spec_in l), (ld_oe l), (ld_term l); cbn [Z.b2z]; lia.
Qed.

Lemma make_io_field l i o : line_ok l -> make_io adr_first (field_of l) i o (ld_name l) = io_of l i o.
Proof.
  intros [_ _ Hd Hc Hi Hp Hl]. unfold make_io, io_of, field_of; cbn [uSpecial uIndex uIOCfgSpace uLogicLevelRes].
  unfold IO_CFG_FIELD_DIR_MASK, IO_CFG_FIELD_DIR_SHIFT, IO_CFG_FIELD_INFO_CHAN_MASK, IO_CFG_FIELD_INFO_CHAN_SHIFT,
    IO_SPECIAL_PURPOSE_MASK, IO_SPECIAL_PURPOSE_SHIFT, IO_LOGIC_RES_FIELD_LL_MASK, IO_LOGIC_RES_FIELD_LL_SHIFT,
    IO_CFG_FIELD_OE_MASK, IO_CFG_FIELD_OE_SHIFT, IO_CFG_FIELD_TERM_MASK, IO_CFG_FIELD_TERM_SHIFT,
    IO_SPECIAL_OUT_MASK, IO_SPECIAL_OUT_SHIFT, IO_SPECIAL_IN_MASK, IO_SPECIAL_IN_SHIFT.
  change 0xc0 with (Z.shiftl (Z.ones 2) 6). change 0x38 with (Z.shiftl (Z.ones 3) 3).
  change 0xfc with (Z.shiftl (Z.ones 6) 2). change 0xf0 with (Z.shiftl (Z.ones 4) 4).
  change 0x04 with (Z.shiftl (Z.ones 1) 2). change 0x02 with (Z.shiftl (Z.ones 1) 1).
  change 0x01 with (Z.shiftl (Z.ones 1) 0).
  rewrite (field_mod 2 6) by lia. rewrite (field_mod 3 3), (field_mod 6 2), (field_mod 4 4), (field_mod 1 2), !(field_mod 1 1), (field_mod 1 0) by lia. unfold special_byte, cfg_byte.
  change (2 ^ 6) with 64. change (2 ^ 4) with 16. change (2 ^ 3) with 8. change (2 ^ 2) with 4.
  change (2 ^ 1) with 2. change (2 ^ 0) with 1.
  f_equal; try (destruct (ld_spec_out l), (ld_spec_in l), (ld_oe l), (ld_term l); cbn [Z.b2z];
    first [ match goal with |- negb (?x =? 0) = true => destruct (Z.eqb_spec x 0); [exfalso|done] end
          | match goal with |- negb (?x =? 0) = false => destruct (Z.eqb_spec x 0); [done|exfalso] end
          | idtac ]; Z.div_mod_to_equations; lia).
Qed.

Lemma read_one_static d mem a : static d mem -> read_one a d = (Ret (mem a), d).
Proof. intros Hs. unfold read_one, cycle. mrun. specialize (Hs [a]). cbn in Hs. by rewrite Hs. Qed.

Lemma read_field_static d mem gpio lvds lines i l :
  static d mem -> holds_table mem gpio lvds lines -> lines !! i = Some l -> (i < 192)%nat -> line_ok l ->
  read_field adr_first (Z.of_nat i) d = (Ret (field_of l), d).
Proof.
  intros Hs Ht Hl Hi Hok. unfold read_field, read_word.
  assert (forall k j, k = 4 * Z.of_nat i + Z.of_nat j -> (j < 4)%nat ->
    mem (adr_first + u32 (eIO_Map_Table_Begin + k * 4)) = entry_word l j) as Hw.
  { intros k j -> Hj. rewrite unsigned_wrap_small by (unfold eIO_Map_Table_Begin; change (2 ^ 32) with 4294967296; lia).
    by apply (ht_words _ _ _ _ Ht). }
  unfold mbind at 1, M_bind at 1. rewrite (read_one_static d mem), (Hw _ 0%nat) by (done || lia).
  unfold massert. rewrite (proj2 (Z.ltb_lt _ _)) by (unfold IO_GPIO_MAX, IO_LVDS_MAX, IO_FIXED_MAX; lia).
  mrun. rewrite (read_one_static d mem), (Hw _ 1%nat) by (done || lia).
  rewrite (read_one_static d mem), (Hw _ 2%nat) by (done || lia).
  rewrite (read_one_static d mem), (Hw _ 3%nat) by (done || lia).
  destruct (name_bytes_ok l) as [Hlen Hb]. destruct (field_of_ok l Hok) as (B1 & B2 & B3 & B4).
  unfold entry_word, field_of. cbn [Nat.ltb Nat.leb Nat.mul Nat.add].
  destruct (name_bytes l) as [|b0 [|b1 [|b2 [|b3 [|b4 [|b5 [|b6 [|b7 [|b8 [|b9 [|b10 [|b11 [|]]]]]]]]]]]]]; try discriminate Hlen.
  cbn [lookup list_lookup default]. rewrite !Forall_cons in Hb. destruct_and! Hb.
  rewrite !word_bytes_word by done.
  destruct (word_byte _ _ _ _ B1 B3 B2 B4) as (-> & -> & -> & ->). done.
Qed.

Lemma read_fields_static d mem gpio lvds lines :
  static d mem -> holds_table mem gpio lvds lines -> Forall line_ok lines -> (length lines <= 192)%nat ->
  forall n i, (i + n = length lines)%nat ->
  read_fields adr_first n (Z.of_nat i) d = (Ret (field_of <$> drop i lines), d).
Proof.
  intros Hs Ht Hok Hlen n. induction n as [|n IH]; intros i Hi; cbn [read_fields].
  - rewrite drop_ge by lia. done.
  - destruct (lookup_lt_is_Some_2 lines i ltac:(lia)) as [l Hl].
    assert (line_ok l) as Hlok by (by eapply Forall_lookup_1).
    unfold mbind at 1, M_bind at 1. rewrite (read_field_static d mem gpio lvds lines i l) by (done || lia).
    unfold mbind, M_bind. replace (Z.of_nat i + 1) with (Z.of_nat (S i)) by lia. rewrite IH by lia.
    by rewrite (drop_S _ _ _ Hl).
Qed.

(** The I/Os of the lines, numbered from [i] and [o]. *)
Fixpoint ios_of (ls : list line_desc) (i o : Z) : list Io :=
  match ls with
  | [] => []
  | l :: ls' => io_of l i o :: ios_of ls' (if is_input (ld_direction l) then i + 1 else i)
                                         (if is_output (ld_direction l) then o + 1 else o)
  end.

Lemma make_ios_fields (d : D) ls i o :
  Forall line_ok ls -> 0 <= i -> 0 <= o ->
  i + Z.of_nat (length ls) < 2 ^ 32 -> o + Z.of_nat (length ls) < 2 ^ 32 ->
  make_ios adr_first (field_of <$> ls) i o d = (Ret (ios_of ls i o), d).
Proof.
  intros Hok. revert i o. induction Hok as [|l ls Hl Hok IH]; intros i o Hi Ho Hi' Ho'; [done|].
  cbn [length] in *. cbn [fmap list_fmap make_ios ios_of].
  change (uName (field_of l)) with (name_bytes l). rewrite c_string_name, make_io_field by done.
  cbn [io_of io_direction]. unfold mbind, M_bind.
  rewrite !unsigned_wrap_small by lia.
  rewrite IH; [done|..]; destruct (is_input (ld_direction l)), (is_output (ld_direction l)); lia.
Qed.

Lemma ios_of_lookup ls i o k :
  ios_of ls i o !! k = (fun l => io_of l (i + inputs (take k ls)) (o + outputs (take k ls))) <$> ls !! k.
Proof.
  revert i o k. induction ls as [|l ls IH]; intros i o [|k]; cbn [ios_of take]; [done|done| |].
  - cbn. unfold inputs, outputs. cbn. by rewrite !Z.add_0_r.
  - cbn [lookup list_lookup]. rewrite IH. destruct (ls !! k) as [l'|]; [|done]. cbn.
    unfold inputs, outputs. rewrite !filter_cons.
    destruct (is_input (ld_direction l)), (is_output (ld_direction l)); cbn [decide decide_rel];
      repeat case_decide; try done; cbn [length]; do 2 f_equal; lia.
Qed.

(** C31: The constructor of IoControl decodes the table of the hardware: for every line
    that is not fixed, in the order of the table, there is an I/O with the name,
    direction, channel, index and options of its entry; its number as an ECA
    input (output) is the number of lines before it that are inputs (outputs). *)
Theorem IoControl_decodes (d : D) (mem : Z -> Z) (gpio lvds : nat) (lines : list line_desc)
    (Hs : static d mem) (Ht : holds_table mem gpio lvds lines) (Hok : Forall line_ok lines)
    (Hlen : (length lines <= 192)%nat) :
  exists ios, IoControl_new adr_first d = (Ret ios, d) /\ length ios = (gpio + lvds)%nat /\
    forall k l, (k < gpio + lvds)%nat -> lines !! k = Some l ->
      ios !! k = Some (io_of l (inputs (take k lines)) (outputs (take k lines))).
Proof.
  pose proof (ht_gpio _ _ _ _ Ht) as Hg. pose proof (ht_lvds _ _ _ _ Ht) as Hl.
  pose proof (ht_fixed _ _ _ _ Ht) as Hf. pose proof (ht_enough _ _ _ _ Ht) as He.
  set (ls := take (gpio + lvds) lines).
  assert (IoControl_new adr_first d = (Ret (ios_of ls 0 0), d)) as E.
  { unfold IoControl_new, cycle. unfold mbind at 1, M_bind at 1.
    pose proof (Hs [adr_first + eGPIO_Info; adr_first + eLVDS_Info; adr_first + eFIXED_Info]) as E.
    cbn [fmap list_fmap] in E. rewrite E. clear E.
    cbv beta iota zeta delta [lookup list_lookup default from_option id]. rewrite Hg, Hl, Hf.
    assert (Z.to_nat (u32 (Z.of_nat gpio * 4 + Z.of_nat lvds * 4
      + u32 (u32 (Z.of_nat (length lines) - Z.of_nat gpio - Z.of_nat lvds) * 4)) `div` 4) = length lines) as ->.
    { rewrite (unsigned_wrap_small 32 (Z.of_nat _ - _ - _)) by (change (2 ^ 32) with 4294967296; lia).
      rewrite !unsigned_wrap_small by (rewrite ?unsigned_wrap_small; change (2 ^ 32) with 4294967296; lia).
      Z.div_mod_to_equations. lia. }
    unfold mbind at 1, M_bind at 1.
    pose proof (read_fields_static d mem gpio lvds lines Hs Ht Hok Hlen (length lines) 0%nat ltac:(lia)) as E.
    change (Z.of_nat 0) with 0 in E. rewrite E. clear E.
    rewrite drop_0, length_fmap. unfold massert. rewrite (proj2 (Z.leb_le _ _)) by lia. mrun.
    replace (Z.to_nat (Z.of_nat gpio + Z.of_nat lvds)) with (gpio + lvds)%nat by lia.
    rewrite <- fmap_take. fold ls.
    assert (length ls <= 192)%nat by (unfold ls; rewrite length_take; lia).
    apply make_ios_fields; [by apply Forall_take|..]; change (2 ^ 32) with 4294967296; lia. }
  exists (ios_of ls 0 0). split; [exact E|].
  assert (forall k, ios_of ls 0 0 !! k = (fun l => io_of l (inputs (take k ls)) (outputs (take k ls))) <$> ls !! k) as Hk
    by (intros k; apply ios_of_lookup).
  split.
  - assert (length (ios_of ls 0 0) = length ls) as ->.
    { generalize 0 at 1. generalize 0. clear. induction ls as [|l ls IH]; intros i o; [done|]. cbn. by rewrite IH. }
    unfold ls. rewrite length_take. lia.
  - intros k l Hlt Hkl. rewrite Hk. unfold ls. rewrite lookup_take_lt, Hkl by done. cbn.
    by rewrite take_take, Nat.min_l by lia.
Qed.
End Decode.

(** ** A device with three lines *)
Module IoControlDemo.
Definition lines : list line_desc :=
  [mkLine "IO1" 2 0 0 0 0 true true false false; mkLine "IO2" 1 0 1 1 0 false true false true;
   mkLine "LVDS_out_11" 0 1 0 0 2 true false false false; mkLine "FIXED" 0 2 0 0 4 false false false false].

Definition mem (a : Z) : Z :=
  if a =? eGPIO_Info then word 2 1 0 1
  else if a =? eLVDS_Info then word 1 0 1 0
  else if a =? eFIXED_Info then 1
  else let k := Z.to_nat ((a - eIO_Map_Table_Begin) / 4) in
       match lines !! (k / 4)%nat with Some l => entry_word l (k mod 4) | None => 0 end.

#[local] Instance mem_bus : Bus unit := fun ops d =>
  Some (omap (fun op => match op with BusR a => Some (mem a) | BusW _ _ => None end) ops, d).

Lemma mem_static : static tt mem.
Proof.
  intros addresses. unfold bus_cycle, mem_bus. f_equal. f_equal.
  induction addresses as [|a addresses IH]; [done|]. cbn. f_equal. exact IH.
Qed.

Lemma mem_holds : holds_table 0 mem 2 1 lines.
Proof.
  split; [reflexivity|reflexivity|reflexivity|cbn; lia|].
  intros i l j Hl Hj.
  do 4 (destruct i as [|i]; [injection Hl as <-; do 4 (destruct j as [|j]; [reflexivity|]); lia|]).
  done.
Qed.

Lemma lines_ok : Forall line_ok lines.
Proof. repeat constructor; cbn; try lia; vm_compute; discriminate. Qed.

Lemma IoControl_decodes_witness :
  exists ios, IoControl_new 0 tt = (Ret ios, tt) /\
    ios !! 2%nat = Some (mkIo "LVDS_out_11" 0 1 2 1 0 0 2 true false false false 0).
Proof.
  destruct (IoControl_decodes 0 tt mem 2 1 lines mem_static mem_holds lines_ok ltac:(cbn; lia))
    as (ios & E & _ & Hios).
  exists ios. split; [exact E|]. rewrite (Hios 2%nat _ ltac:(lia) eq_refl). reflexivity.
Defined.
End IoControlDemo.
