(* ===== verification/InOut.v ===== *)
(** * Inputs and outputs as objects: src/Input.cpp, src/ECA_TLU.cpp, src/Output.cpp

    An [Input] is an [Io] with a channel of the trigger unit (TLU) that makes
    timing events of its edges; an [Output] is an [Io] with an action sink of
    the ECA and a clock. *)
From S2P Require Import Prelude StdMap Bus Owned Io ClockGen EcaTables Eca EcaOps.
Local Open Scope Z_scope.

(** ** The trigger unit *)
Definition ECA_TLU_INPUT_SELECT_RW : Z := 0x04.
Definition ECA_TLU_ENABLE_RW : Z := 0x08.
Definition ECA_TLU_STABLE_RW : Z := 0x0c.
Definition ECA_TLU_EVENT_HI_RW : Z := 0x10.
Definition ECA_TLU_EVENT_LO_RW : Z := 0x14.
Definition ECA_TLU_WRITE_OWR : Z := 0x18.

Record Input := mkInput {
  in_path : string; in_io : Io; partnerPath : string; eca_tlu_channel : Z; in_service : option Z;
  enable : bool; event : Z; stable : Z
}.

(** The driver of the trigger unit: the device and the inputs it owns. *)
Record Tlu (D : Type) := mkTlu { t_dev : D; inputs : list Input }.
Arguments mkTlu {_} _ _.
Arguments t_dev {_} _.
Arguments inputs {_} _.

Section Inputs.
Context {D : Type} `{Bus D}.
Variable adr_first : Z.
(** The [std::function] members of the I/Os. *)
Context (slot : io_property -> option (bool -> M D unit)).
(** Who calls. *)
Variable c : Caller.
Let T := Tlu D.

Definition on_tlu {A} (m : M D A) : M T A := zoom t_dev (fun d t => mkTlu d (inputs t)) m.

Definition config_ops (channel : Z) (en : bool) (ev st : Z) : list bus_op :=
  [BusW (adr_first + ECA_TLU_INPUT_SELECT_RW) channel;
   BusW (adr_first + ECA_TLU_ENABLE_RW) (if en then 1 else 0);
   BusW (adr_first + ECA_TLU_STABLE_RW) (u32 (st / 8 - 1));
   BusW (adr_first + ECA_TLU_EVENT_HI_RW) (Z.shiftr ev 32);
   BusW (adr_first + ECA_TLU_EVENT_LO_RW) (u32 ev);
   BusW (adr_first + ECA_TLU_WRITE_OWR) 1].

Definition configInput (channel : Z) (en : bool) (ev st : Z) : M T unit :=
  on_tlu (cycle (config_ops channel en ev st));; mret tt.

(** The object behind a pointer to an input. *)
Definition get_input (k : nat) : M T Input := fun t =>
  match inputs t !! k with
  | Some i => (Ret i, t)
  | None => (Crash "dangling input", t)
  end.
Definition on_input (k : nat) (f : Input -> Input) : M T unit :=
  modify (fun t => mkTlu (t_dev t) (alter f k (inputs t))).
Definition input_owner (k : nat) : M T Input :=
  i ← get_input k; of_outcome (ownerOnly c (in_service i));; mret i.

Definition set_enable (v : bool) (i : Input) : Input :=
  mkInput (in_path i) (in_io i) (partnerPath i) (eca_tlu_channel i) (in_service i) v (event i) (stable i).
Definition set_event (v : Z) (i : Input) : Input :=
  mkInput (in_path i) (in_io i) (partnerPath i) (eca_tlu_channel i) (in_service i) (enable i) v (stable i).
Definition set_stable (v : Z) (i : Input) : Input :=
  mkInput (in_path i) (in_io i) (partnerPath i) (eca_tlu_channel i) (in_service i) (enable i) (event i) v.

(** [Input::Input] and [ECA_TLU::addInput]; the service, if there is a container,
    is owned by nobody. *)
Definition new_input (path partner : string) (channel : Z) (io : Io) : M T unit :=
  configInput channel false 0 80;;
  modify (fun t => mkTlu (t_dev t)
    (inputs t ++ [mkInput path io partner channel (if has_container c then Some (-1) else None) false 0 80])).

(** [eca_tlu.configInput(eca_tlu_channel, enable, event, stable)] *)
Definition config (k : nat) : M T unit :=
  i ← get_input k; configInput (eca_tlu_channel i) (enable i) (event i) (stable i).

Definition setEventEnable (k : nat) (val : bool) : M T unit :=
  i ← input_owner k;
  if Bool.eqb (enable i) val then mret tt
  else on_input k (set_enable val);; config k.

Definition odd_prefix : exn :=
  Error INVALID_ARGS "EventPrefix cannot have lowest bit set (EventBits=1)".
Definition setEventPrefix (k : nat) (val : Z) : M T unit :=
  i ← input_owner k;
  throw_if (negb (val `mod` 2 =? 0)) odd_prefix;;
  if event i =? val then mret tt
  else on_input k (set_event val);; config k.

Definition not_multiple : exn := Error INVALID_ARGS "StableTime must be a multiple of 8ns".
Definition too_short : exn := Error INVALID_ARGS "StableTime must be at least 16ns".
Definition setStableTime (k : nat) (val : Z) : M T unit :=
  i ← input_owner k;
  throw_if (negb (val `mod` 8 =? 0)) not_multiple;;
  throw_if (val <? 16) too_short;;
  if stable i =? val then mret tt
  else on_input k (set_stable val);; config k.

Definition getEventBits : Z := 1.

(** The properties of the line: setters for the owner, getters for everybody. *)
Definition owned_line (f : Io -> bool -> M D unit) (k : nat) (val : bool) : M T unit :=
  i ← input_owner k; on_tlu (f (in_io i) val).
Definition Input_setInputTermination := owned_line (setInputTermination slot).
Definition Input_setSpecialPurposeIn := owned_line (setSpecialPurposeIn slot).
Definition Input_setGateIn := owned_line (setGateIn slot).

Definition line_of {A} (f : Io -> M D A) (k : nat) : M T A :=
  i ← get_input k; on_tlu (f (in_io i)).
Definition Input_ReadInput := line_of ReadInput.
Definition Input_getInputTermination := line_of getInputTermination.
Definition Input_getSpecialPurposeIn := line_of getSpecialPurposeIn.
Definition Input_getGateIn := line_of getGateIn.
Definition Input_getLogicLevelIn := line_of getLogicLevel.
Definition Input_getTypeIn := line_of getType.
Definition Input_getResolution := line_of getResolution.

(** [ECA_TLU::getInputs]: names to paths *)
Definition getInputs (t : T) : list (string * string) :=
  foldl (fun m i => map_set (io_name (in_io i)) (in_path i) m) [] (inputs t).
End Inputs.

(** ** [ECA_Event::InjectEventRaw] *)
Definition InjectEventRaw {D} `{Bus D} (adr_first event param time : Z) : M D unit :=
  cycle [BusW adr_first (Z.shiftr event 32); BusW adr_first (u32 event);
         BusW adr_first (Z.shiftr param 32); BusW adr_first (u32 param);
         BusW adr_first 0; BusW adr_first 0;
         BusW adr_first (Z.shiftr time 32); BusW adr_first (u32 time)];;
  mret tt.

(** ** Outputs *)
Record Output (D : Type) := mkOutput {
  o_world : World D; clk_low_phase : double; clk_high_phase : double; clk_phase_offset : Z
}.
Arguments mkOutput {_} _ _ _ _.
Arguments o_world {_} _.
Arguments clk_low_phase {_} _.
Arguments clk_high_phase {_} _.
Arguments clk_phase_offset {_} _.

Section Outputs.
Context {D : Type} `{Bus D}.
Context (adr_first clkgen_first : Z) (sort : list ECA_OpenClose -> list ECA_OpenClose).
Context (slot : io_property -> option (bool -> M D unit)).
(** The sink and the line of this output. *)
Context (loc : SinkLoc) (io : Io).
Let O := Output D.

Definition on_world {A} (m : M (World D) A) : M O A :=
  zoom o_world (fun w o => mkOutput w (clk_low_phase o) (clk_high_phase o) (clk_phase_offset o)) m.
Definition out_owner : M O unit := on_world (s ← get_sink loc; owner_only (as_service s)).

(** [Output::NewCondition]: the tag is 2 if the output goes on, 1 if it goes off. *)
Definition Output_NewCondition (act : bool) (id_ mask_ offset_ : Z) (on : bool) : M O string :=
  on_world (tagged_NewCondition adr_first sort loc act id_ mask_ offset_ (if on then 2 else 1)).

Definition owned_output (m : M D unit) : M O unit := out_owner;; on_world (on_dev m).
Definition Output_WriteOutput (value : bool) := owned_output (WriteOutput io value).
Definition Output_setOutputEnable (val : bool) := owned_output (setOutputEnable slot io val).
Definition Output_setSpecialPurposeOut (val : bool) := owned_output (setSpecialPurposeOut slot io val).
Definition Output_setGateOut (val : bool) := owned_output (setGateOut io val).
Definition Output_setBuTiSMultiplexer (val : bool) := owned_output (setBuTiSMultiplexer slot io val).
Definition Output_setPPSMultiplexer (val : bool) := owned_output (setPPSMultiplexer slot io val).

Definition any_output {A} (m : M D A) : M O A := on_world (on_dev m).
Definition Output_ReadOutput := any_output (ReadOutput io).
Definition Output_ReadCombinedOutput := any_output (ReadCombinedOutput io).
Definition Output_getOutputEnable := any_output (getOutputEnable io).
Definition Output_getSpecialPurposeOut := any_output (getSpecialPurposeOut io).
Definition Output_getGateOut := any_output (getGateOut io).
Definition Output_getBuTiSMultiplexer := any_output (getBuTiSMultiplexer io).
Definition Output_getPPSMultiplexer := any_output (getPPSMultiplexer io).
Definition Output_getLogicLevelOut := any_output (getLogicLevel io).
Definition Output_getTypeOut := any_output (getType io).

Definition set_clock (low high : double) (offset : Z) : M O unit :=
  modify (fun o => mkOutput (o_world o) low high offset).

Definition Output_StartClock (high_phase low_phase : double) (offset : Z) : M O bool :=
  out_owner;;
  set_clock low_phase high_phase offset;;
  any_output (StartClock clkgen_first (io_channel io) (io_index io) high_phase low_phase offset).

Definition Output_StopClock : M O bool :=
  out_owner;;
  set_clock d_zero d_zero 0;;
  any_output (StopClock clkgen_first (io_channel io) (io_index io)).

(** The result, and the phases and the offset. *)
Definition ClockStatus (o : O) : bool * double * double * Z :=
  (negb (clock_off (clk_high_phase o) (clk_low_phase o) (clk_phase_offset o)),
   clk_high_phase o, clk_low_phase o, clk_phase_offset o).
End Outputs.
