(* ===== verification/InOutCorrect.v ===== *)
(** * Inputs and outputs: driver and hardware agree *)
From S2P Require Import Prelude StdMap Bus Owned Io ClockGen EcaTables Eca EcaOps InOut.
From stdpp Require Import relations.
Local Open Scope Z_scope.

(** ** The registers of the trigger unit (src/eca_tlu_regs.h)

    The registers are written one by one; a write to [ECA_TLU_WRITE_OWR] makes
    them the configuration of the selected input. *)
Record Config := mkConfig { cf_enable : bool; cf_stable : Z; cf_event : Z }.
Record TluRegs := mkTluRegs {
  tr_select : Z; tr_enable : Z; tr_stable : Z; tr_event_hi : Z; tr_event_lo : Z; tr_config : Z -> Config
}.

Definition tlu_write (a v : Z) (r : TluRegs) : TluRegs :=
  let '(mkTluRegs sel en st hi lo conf) := r in
  if a =? ECA_TLU_INPUT_SELECT_RW then mkTluRegs (u8 v) en st hi lo conf
  else if a =? ECA_TLU_ENABLE_RW then mkTluRegs sel (v `mod` 2) st hi lo conf
  else if a =? ECA_TLU_STABLE_RW then mkTluRegs sel en (u32 v) hi lo conf
  else if a =? ECA_TLU_EVENT_HI_RW then mkTluRegs sel en st (u32 v) lo conf
  else if a =? ECA_TLU_EVENT_LO_RW then mkTluRegs sel en st hi (u32 v) conf
  else if a =? ECA_TLU_WRITE_OWR then
    mkTluRegs sel en st hi lo
      (fun i => if i =? sel then mkConfig (en =? 1) st (hi * 2 ^ 32 + lo) else conf i)
  else r.

Definition tlu_apply (base : Z) (r : TluRegs) (op : bus_op) : TluRegs :=
  match op with BusW a v => tlu_write (a - base) v r | BusR _ => r end.

Class TluDevice (D : Type) `{Bus D} (base : Z) := {
  tlu_regs : D -> TluRegs;
  tlu_cycle : forall ops d rs d',
    bus_cycle ops d = Some (rs, d') -> tlu_regs d' = foldl (tlu_apply base) (tlu_regs d) ops
}.
Arguments tlu_regs {_ _} _ {_} _.

Section Tlu.
Context {D : Type} `{HB : Bus D} (base : Z) `{!TluDevice D base}.
Implicit Types (t : Tlu D) (i : Input).

(** What a configured input looks like in hardware. *)
Definition input_config i : Config := mkConfig (enable i) (stable i / 8 - 1) (event i).

Record input_ok i : Prop := {
  io_chan : 0 <= eca_tlu_channel i < 256;
  io_event : 0 <= event i < 2 ^ 64 /\ event i `mod` 2 = 0;
  io_stable : 16 <= stable i < 2 ^ 32 /\ stable i `mod` 8 = 0
}.

Definition configured (d : D) i : Prop := tr_config (tlu_regs base d) (eca_tlu_channel i) = input_config i.

Record tlu_inv t : Prop := {
  ti_channels : NoDup (eca_tlu_channel <$> inputs t);
  ti_inputs : Forall input_ok (inputs t);
  ti_hardware : Forall (configured (t_dev t)) (inputs t)
}.

Lemma config_cycle d d' rs channel en ev st :
  0 <= channel < 256 -> 0 <= ev < 2 ^ 64 -> 16 <= st < 2 ^ 32 ->
  bus_cycle (config_ops base channel en ev st) d = Some (rs, d') ->
  forall j, tr_config (tlu_regs base d') j =
    if j =? channel then mkConfig en (st / 8 - 1) ev else tr_config (tlu_regs base d) j.
Proof.
  intros Hc He Hs E j. apply tlu_cycle in E. rewrite E. clear E.
  destruct (tlu_regs base d) as [sel en0 st0 hi lo conf].
  unfold config_ops. cbn [foldl tlu_apply].
  assert (forall x, base + x - base = x) as Hb by (intros; lia). rewrite !Hb.
  unfold tlu_write. cbn [ECA_TLU_INPUT_SELECT_RW ECA_TLU_ENABLE_RW ECA_TLU_STABLE_RW ECA_TLU_EVENT_HI_RW
    ECA_TLU_EVENT_LO_RW ECA_TLU_WRITE_OWR Z.eqb Pos.eqb tr_config].
  rewrite (unsigned_wrap_small 8) by (change (2 ^ 8) with 256; lia).
  destruct (j =? channel); [|done]. f_equal.
  - by destruct en.
  - rewrite !unsigned_wrap_small; [done|..]; rewrite ?unsigned_wrap_small;
      change (2 ^ 32) with 4294967296 in *; Z.div_mod_to_equations; lia.
  - rewrite Z.shiftr_div_pow2 by lia. unfold unsigned_wrap. rewrite Zmod_mod.
    change (2 ^ 64) with 18446744073709551616 in He. change (2 ^ 32) with 4294967296.
    Z.div_mod_to_equations; lia.
Qed.

(** Configuring one of several inputs. *)
Lemma configure_one t k i i' d' rs :
  tlu_inv t -> inputs t !! k = Some i -> input_ok i' -> eca_tlu_channel i' = eca_tlu_channel i ->
  bus_cycle (config_ops base (eca_tlu_channel i') (enable i') (event i') (stable i')) (t_dev t) = Some (rs, d') ->
  tlu_inv (mkTlu d' (<[k := i']> (inputs t))).
Proof.
  intros [Hn Ho Hh] Hk Hi' Hc E. pose proof Hi' as [Hch [He _] [Hs _]].
  pose proof (config_cycle _ _ _ _ _ _ _ Hch He Hs E) as Hconf.
  split; cbn.
  - rewrite list_fmap_insert, Hc, list_insert_id; [done|]. by rewrite list_lookup_fmap, Hk.
  - by apply Forall_insert.
  - apply Forall_lookup. intros j x Hj. unfold configured. rewrite Hconf.
    destruct (decide (j = k)) as [->|Hne].
    + rewrite list_lookup_insert_eq in Hj by (by eapply lookup_lt_Some). injection Hj as <-.
      by rewrite Z.eqb_refl.
    + rewrite list_lookup_insert_ne in Hj by done.
      rewrite (proj2 (Z.eqb_neq _ _)); [by eapply (Forall_lookup_1 _ _ _ _ Hh)|].
      intros Heq. apply Hne. eapply (NoDup_lookup (eca_tlu_channel <$> inputs t)); [done|..].
      * by rewrite list_lookup_fmap, Hj.
      * rewrite list_lookup_fmap, Hk. cbn. by rewrite Heq, Hc.
Qed.

Lemma configure_new t i d' rs :
  tlu_inv t -> input_ok i -> eca_tlu_channel i ∉ (eca_tlu_channel <$> inputs t) ->
  bus_cycle (config_ops base (eca_tlu_channel i) (enable i) (event i) (stable i)) (t_dev t) = Some (rs, d') ->
  tlu_inv (mkTlu d' (inputs t ++ [i])).
Proof.
  intros [Hn Ho Hh] Hi Hc E. pose proof Hi as [Hch [He _] [Hs _]].
  pose proof (config_cycle _ _ _ _ _ _ _ Hch He Hs E) as Hconf.
  split; cbn.
  - rewrite fmap_app. apply NoDup_app. split_and!; [done| |apply NoDup_singleton].
    intros x Hx ->%list_elem_of_singleton. done.
  - apply Forall_app_2; [done|]. by constructor.
  - apply Forall_app_2.
    + apply Forall_lookup. intros j x Hj. unfold configured. rewrite Hconf, (proj2 (Z.eqb_neq _ _)).
      * by eapply (Forall_lookup_1 _ _ _ _ Hh).
      * intros Heq. apply Hc. rewrite <- Heq. apply list_elem_of_fmap. exists x. split; [done|].
        by eapply list_elem_of_lookup_2.
    + constructor; [|done]. unfold configured. by rewrite Hconf, Z.eqb_refl.
Qed.

(** ** Calls on the inputs *)
Inductive input_call :=
  | NewInput (path partner : string) (channel : Z) (io : Io)
  | SetEventEnable (k : nat) (val : bool)
  | SetEventPrefix (k : nat) (val : Z)
  | SetStableTime (k : nat) (val : Z).

Definition run_input_call (c : Caller) (call : input_call) : M (Tlu D) unit :=
  match call with
  | NewInput path partner channel io => new_input base c path partner channel io
  | SetEventEnable k v => setEventEnable base c k v
  | SetEventPrefix k v => setEventPrefix base c k v
  | SetStableTime k v => setStableTime base c k v
  end.

(** The arguments have their types, the objects exist, and a new input has a
    channel of its own. *)
Definition call_ok t (call : input_call) : Prop :=
  match call with
  | NewInput _ _ channel _ => 0 <= channel < 256 /\ channel ∉ (eca_tlu_channel <$> inputs t)
  | SetEventEnable k _ => (k < length (inputs t))%nat
  | SetEventPrefix k v => (k < length (inputs t))%nat /\ 0 <= v < 2 ^ 64
  | SetStableTime k v => (k < length (inputs t))%nat /\ 0 <= v < 2 ^ 32
  end.

(** The inputs after a call that takes effect: a new one, disabled and with the
    defaults, or one member of one input. *)
Definition wanted (c : Caller) (call : input_call) (l : list Input) : list Input :=
  match call with
  | NewInput path partner channel io =>
      l ++ [mkInput path io partner channel (if has_container c then Some (-1) else None) false 0 80]
  | SetEventEnable k v => alter (set_enable v) k l
  | SetEventPrefix k v => alter (set_event v) k l
  | SetStableTime k v => alter (set_stable v) k l
  end.

Lemma alter_insert (f : Input -> Input) k (l : list Input) i : l !! k = Some i -> alter f k l = <[k := f i]> l.
Proof.
  intros Hk. apply list_eq. intros j. destruct (decide (j = k)) as [->|].
  - rewrite list_lookup_alter_eq, Hk, list_lookup_insert_eq; [done|by eapply lookup_lt_Some].
  - by rewrite list_lookup_alter_ne, list_lookup_insert_ne.
Qed.
Lemma alter_same (f : Input -> Input) k (l : list Input) i : l !! k = Some i -> f i = i -> alter f k l = l.
Proof. intros Hk Hf. rewrite (alter_insert f k l i Hk), Hf. by apply list_insert_id. Qed.

Lemma run_input_owner c k t i : inputs t !! k = Some i ->
  input_owner c k t = match ownerOnly c (in_service i) with
                      | Ret _ => (Ret i, t)
                      | Throw e => (Throw e, t)
                      | Crash w => (Crash w, t)
                      end.
Proof.
  intros Hk. unfold input_owner, get_input, of_outcome. mrun. rewrite Hk.
  by destruct (ownerOnly c (in_service i)).
Qed.

Lemma ownerOnly_no_crash c s w : ownerOnly c s <> Crash w.
Proof. unfold ownerOnly, with_service. by destruct s as [o|], (has_container c); [destruct (foreign_owner c o)|..]. Qed.

Lemma ownerOnly_throws c s e : ownerOnly c s = Throw e -> e <> EtherboneError.
Proof.
  unfold ownerOnly, with_service.
  destruct s as [o|], (has_container c); [destruct (foreign_owner c o)|..]; intros E; try discriminate E;
    injection E as <-; discriminate.
Qed.

(** [on_input]; [config]: the tail of the setters. *)
Lemma run_assign_and_config f k t i :
  tlu_inv t -> inputs t !! k = Some i -> input_ok (f i) -> eca_tlu_channel (f i) = eca_tlu_channel i ->
  match (on_input k f;; config base k) t with
  | (Ret _, t') => tlu_inv t' /\ inputs t' = <[k := f i]> (inputs t)
  | (Throw e, t') => e = EtherboneError /\ t' = mkTlu (t_dev t) (<[k := f i]> (inputs t))
  | (Crash _, _) => False
  end.
Proof.
  intros Ht Hk Hf Hc. unfold on_input, config, get_input, configInput, on_tlu, zoom, cycle. mrun. cbn [inputs t_dev].
  rewrite (alter_insert f k (inputs t) i Hk).
  rewrite list_lookup_insert_eq by (by eapply lookup_lt_Some). cbn [t_dev inputs].
  destruct (bus_cycle _ _) as [[rs d']|] eqn:E; [|done].
  split; [|done]. by eapply configure_one.
Qed.

Lemma input_of t k : tlu_inv t -> (k < length (inputs t))%nat ->
  exists i, inputs t !! k = Some i /\ input_ok i.
Proof.
  intros Ht Hk. destruct (lookup_lt_is_Some_2 (inputs t) k Hk) as [i Hi]. exists i. split; [done|].
  by eapply (Forall_lookup_1 _ _ _ _ (ti_inputs _ Ht)).
Qed.

(** A setter: the owner is checked, then [m] is run on the input. *)
Lemma run_owned c k t i (P : Tlu D -> Prop) (m : Input -> M (Tlu D) unit) :
  inputs t !! k = Some i ->
  match m i t with
  | (Ret _, t') => P t'
  | (Throw e, t') => e = EtherboneError \/ t' = t
  | (Crash _, _) => False
  end ->
  match (input_owner c k ≫= m) t with
  | (Ret _, t') => P t'
  | (Throw e, t') => e = EtherboneError \/ t' = t
  | (Crash _, _) => False
  end.
Proof.
  intros Hk Hm. unfold mbind, M_bind. rewrite (run_input_owner c k t i Hk).
  pose proof (ownerOnly_no_crash c (in_service i)) as Hnc.
  destruct (ownerOnly c (in_service i)) as [[]|e|w]; [done|by right|by eapply Hnc].
Qed.

Definition takes_effect (l : list Input) t : Prop := tlu_inv t /\ inputs t = l.

Lemma run_assign_inv f k t i :
  tlu_inv t -> inputs t !! k = Some i -> input_ok (f i) -> eca_tlu_channel (f i) = eca_tlu_channel i ->
  match (on_input k f;; config base k) t with
  | (Ret _, t') => takes_effect (alter f k (inputs t)) t'
  | (Throw e, t') => e = EtherboneError \/ t' = t
  | (Crash _, _) => False
  end.
Proof.
  intros Ht Hk Hf Hc. pose proof (run_assign_and_config f k t i Ht Hk Hf Hc) as Hr. unfold takes_effect.
  rewrite (alter_insert f k (inputs t) i Hk).
  destruct ((on_input k f;; config base k) t) as [[[]|e|w] t']; [done|left; by destruct Hr|done].
Qed.

Lemma run_input_call_inv c call t :
  tlu_inv t -> call_ok t call ->
  match run_input_call c call t with
  | (Ret _, t') => takes_effect (wanted c call (inputs t)) t'
  | (Throw e, t') => e = EtherboneError \/ t' = t
  | (Crash _, _) => False
  end.
Proof.
  intros Ht Hok. destruct call as [path partner channel io|k v|k v|k v]; cbn [run_input_call call_ok wanted] in *.
  - destruct Hok as [Hch Hfresh]. unfold new_input, configInput, on_tlu, zoom, cycle. mrun. cbn [t_dev inputs].
    destruct (bus_cycle _ (t_dev t)) as [[rs d']|] eqn:E; [|by left].
    split; [|done]. cbn [t_dev inputs]. eapply configure_new; cbn; [done| |done|exact E].
    by split; vm_compute in Hch |- *.
  - destruct (input_of t k Ht Hok) as (i & Hk & Hi). apply (run_owned c k t i); [done|].
    destruct (Bool.eqb (enable i) v) eqn:Ev.
    { split; [done|]. symmetry. apply (alter_same _ _ _ i Hk). apply eqb_prop in Ev as <-. by destruct i. }
    apply (run_assign_inv (set_enable v) k t i); try done. by destruct Hi; split.
  - destruct Hok as [Hlt Hv]. destruct (input_of t k Ht Hlt) as (i & Hk & Hi).
    apply (run_owned c k t i); [done|]. mrun. destruct (Z.eqb_spec (v `mod` 2) 0) as [Hm|Hm]; cbn [negb]; [|by right].
    destruct (Z.eqb_spec (event i) v) as [Ev|Ev].
    { split; [done|]. symmetry. apply (alter_same _ _ _ i Hk). rewrite <- Ev. by destruct i. }
    apply (run_assign_inv (set_event v) k t i); try done. by destruct Hi; split.
  - destruct Hok as [Hlt Hv]. destruct (input_of t k Ht Hlt) as (i & Hk & Hi).
    apply (run_owned c k t i); [done|]. mrun. destruct (Z.eqb_spec (v `mod` 8) 0) as [Hm|Hm]; cbn [negb]; [|by right].
    destruct (Z.ltb_spec v 16); [by right|]. destruct (Z.eqb_spec (stable i) v) as [Ev|Ev].
    { split; [done|]. symmetry. apply (alter_same _ _ _ i Hk). rewrite <- Ev. by destruct i. }
    apply (run_assign_inv (set_stable v) k t i); try done.
    destruct Hi; split; cbn; [done|done|]. split; [lia|done].
Qed.

(** A call of some client in which the bus does not fail. *)
Inductive tlu_step : Tlu D -> Tlu D -> Prop :=
  | tlu_step_call c call t r t' :
      call_ok t call -> run_input_call c call t = (r, t') -> r <> Throw EtherboneError -> tlu_step t t'.

Lemma tlu_steps_inv t0 t : rtc tlu_step t0 t -> tlu_inv t0 -> tlu_inv t.
Proof.
  induction 1 as [t0|t0 t1 t Hstep _ IH]; [done|]. intros H0. apply IH. clear IH.
  destruct Hstep as [c call t0 r t1 Hok E Hr]. pose proof (run_input_call_inv c call t0 H0 Hok) as Hc.
  rewrite E in Hc. destruct r as [[]|e|w]; [by destruct Hc| |done]. destruct Hc as [->| ->]; [by destruct Hr|done].
Qed.

(** C29: Inputs and the trigger unit agree.  Start without inputs, create inputs and
    let any clients set enable, prefix and stable time, as long as the bus does
    not fail: then in hardware every input has exactly the configuration that
    its object reports, prefixes are even, stable times are multiples of 8 ns and
    at least 16 ns.  A call that returns took effect: there is the new input with
    the defaults, or the input has the value that was set, nothing else about the
    inputs changed, and the hardware agrees again; one that throws changed
    nothing, unless the bus failed. *)
Theorem inputs_configured (d0 : D) (t : Tlu D) (c : Caller) (call : input_call)
    (Hreach : rtc tlu_step (mkTlu d0 []) t) (Hok : call_ok t call) :
  (forall i, i ∈ inputs t ->
     tr_config (tlu_regs base (t_dev t)) (eca_tlu_channel i) = mkConfig (enable i) (stable i / 8 - 1) (event i) /\
     event i `mod` 2 = 0 /\ stable i `mod` 8 = 0 /\ 16 <= stable i) /\
  match run_input_call c call t with
  | (Ret _, t') =>
      inputs t' = wanted c call (inputs t) /\ forall i, i ∈ inputs t' -> configured (t_dev t') i
  | (Throw e, t') => e = EtherboneError \/ t' = t
  | (Crash _, _) => False
  end.
Proof.
  assert (tlu_inv t) as Ht.
  { apply (tlu_steps_inv (mkTlu d0 [])); [done|]. split; cbn; [apply NoDup_nil_2|by constructor..]. }
  split.
  - intros i Hi. pose proof (ti_hardware _ Ht) as Hh. pose proof (ti_inputs _ Ht) as Hin.
    rewrite Forall_forall in Hh, Hin. destruct (Hin i Hi) as [_ [_ He] [Hs Hs8]].
    split_and!; [by apply Hh|done|done|lia].
  - pose proof (run_input_call_inv c call t Ht Hok) as Hc.
    destruct (run_input_call c call t) as [[[]|e|w] t']; [|done|done].
    destruct Hc as [Hinv Heq]. split; [done|].
    pose proof (ti_hardware _ Hinv) as Hh. by rewrite Forall_forall in Hh.
Qed.

(** When the bus fails while an input is enabled (or disabled), the object says
    that it is although the hardware is as before, and a second attempt returns
    at once without an access: only the opposite value makes it try again. *)
Theorem failed_enable_not_retried (t : Tlu D) (k : nat) (i : Input) (c : Caller) (v : bool) (t' : Tlu D)
    (Ht : tlu_inv t) (Hk : inputs t !! k = Some i)
    (Hfail : setEventEnable base c k v t = (Throw EtherboneError, t')) :
  enable <$> inputs t' !! k = Some v /\
  cf_enable (tr_config (tlu_regs base (t_dev t')) (eca_tlu_channel i)) = negb v /\
  setEventEnable base c k v t' = (Ret tt, t').
Proof.
  assert (input_ok i) as Hi by (by eapply (Forall_lookup_1 _ _ _ _ (ti_inputs _ Ht))).
  assert (configured (t_dev t) i) as Hcf by (by eapply (Forall_lookup_1 _ _ _ _ (ti_hardware _ Ht))).
  unfold setEventEnable, mbind, M_bind in Hfail. rewrite (run_input_owner c k t i Hk) in Hfail.
  destruct (ownerOnly c (in_service i)) as [[]|e|w] eqn:Eo; [|injection Hfail as -> <-; by apply ownerOnly_throws in Eo|done].
  destruct (Bool.eqb (enable i) v) eqn:Ev; [discriminate|].
  pose proof (run_assign_and_config (set_enable v) k t i Ht Hk ltac:(by destruct Hi; split) eq_refl) as Hr.
  unfold mbind, M_bind in Hr. rewrite Hfail in Hr. destruct Hr as [_ ->]. cbn [inputs t_dev].
  assert (<[k := set_enable v i]> (inputs t) !! k = Some (set_enable v i)) as Hk'.
  { apply list_lookup_insert_eq. by eapply lookup_lt_Some. }
  split_and!.
  - by rewrite Hk'.
  - rewrite Hcf. cbn. by destruct (enable i), v.
  - unfold setEventEnable, mbind, M_bind.
    rewrite (run_input_owner c k _ (set_enable v i)) by done. cbn [in_service set_enable]. rewrite Eo. cbn.
    by rewrite Bool.eqb_reflx.
Qed.
End Tlu.

(** ** Outputs *)
Section Outputs.
Context {D : Type} `{HB : Bus D}.
Context (clkgen_first : Z) (slot : io_property -> option (bool -> M D unit)) (loc : SinkLoc) (io : Io).
Implicit Types (o : Output D).

(** The service of the sink of the output lets the caller in. *)
Definition lets_in (r : outcome unit) o : Prop :=
  exists s, find_sink loc (w_eca (o_world o)) = Some s /\
    ownerOnly (w_caller (o_world o)) (as_service s) = r.

Lemma run_out_owner r o : lets_in r o -> out_owner loc o = (r, o).
Proof.
  intros (s & Hs & Ho). unfold out_owner, on_world, zoom, owner_only, get_sink, outcome_of. mrun.
  rewrite Hs, Ho. destruct o. by destruct r.
Qed.

(** The privileged operations. *)
Definition privileged : list (Output D -> outcome bool * Output D) :=
  let call (m : M (Output D) unit) := m;; mret true in
  [call (Output_WriteOutput loc io true); call (Output_WriteOutput loc io false);
   Output_StopClock clkgen_first loc io]
  ++ (v ← [true; false];
      [call (Output_setOutputEnable slot loc io v); call (Output_setSpecialPurposeOut slot loc io v);
       call (Output_setGateOut loc io v); call (Output_setBuTiSMultiplexer slot loc io v);
       call (Output_setPPSMultiplexer slot loc io v)]).

(** Without the permission of the owner nothing happens. *)
Lemma privileged_refused o e : lets_in (Throw e) o ->
  (forall m, m ∈ privileged -> m o = (Throw e, o)) /\
  forall hi lo ph, Output_StartClock clkgen_first loc io hi lo ph o = (Throw e, o).
Proof.
  intros Ho. apply run_out_owner in Ho. split.
  - intros m Hm. unfold privileged in Hm. cbn in Hm.
    repeat (apply elem_of_cons in Hm as [->|Hm];
      [unfold Output_WriteOutput, Output_StopClock, Output_setOutputEnable, Output_setSpecialPurposeOut,
         Output_setGateOut, Output_setBuTiSMultiplexer, Output_setPPSMultiplexer, owned_output, mbind, M_bind;
       by rewrite Ho|]).
    by apply elem_of_nil in Hm.
  - intros hi lo ph. unfold Output_StartClock, mbind, M_bind. by rewrite Ho.
Qed.

(** StartClock stores the phases before the generator has accepted them: on an output
    that has no clock generator it throws, and afterwards ClockStatus reports a
    running clock with these phases. *)
Theorem failed_start_reports_clock (o o' : Output D) (r : outcome bool) (hi lo : double) (ph : Z)
    (Howner : lets_in (Ret tt) o) (Hgpio : io_channel io <> IO_CFG_CHANNEL_LVDS)
    (Hon : clock_off hi lo ph = false)
    (E : Output_StartClock clkgen_first loc io hi lo ph o = (r, o')) :
  r = Throw only_LVDS /\ o_world o' = o_world o /\ ClockStatus o' = (true, hi, lo, ph).
Proof.
  apply run_out_owner in Howner. unfold Output_StartClock, set_clock, any_output, on_world, on_dev, zoom,
    StartClock, ConfigureClock in E. apply Z.eqb_neq in Hgpio.
  unfold mbind, M_bind in E. rewrite Howner, Hgpio in E. cbn in E. injection E as <- <-.
  split; [done|]. cbn. split; [by destruct (o_world o)|]. unfold ClockStatus. cbn. by rewrite Hon.
Qed.
End Outputs.

(** ** A device with a trigger unit, on a bus that works or does not *)
Module InOutDemo.
Record tlu_dev := mkTluDev { td_regs : TluRegs; td_works : bool }.

#[export] Instance tlu_dev_bus : Bus tlu_dev := fun ops d =>
  if td_works d
  then Some (replicate (count_reads ops) 0, mkTluDev (foldl (tlu_apply 0x400) (td_regs d) ops) true)
  else None.

#[export, refine] Instance tlu_dev_device : TluDevice tlu_dev 0x400 := {| tlu_regs := td_regs |}.
Proof.
  intros ops [r ok] rs d'. unfold bus_cycle, tlu_dev_bus. cbn. destruct ok; [|done]. by intros [= <- <-].
Defined.

Definition regs0 : TluRegs := mkTluRegs 0 0 0 0 0 (fun _ => mkConfig false 0 0).
Definition dev0 : tlu_dev := mkTluDev regs0 true.
Definition owner : Caller := mkCaller true 7.
Definition io1 : Io := mkIo "IO1" 1 0 0 0 0 0 0 false false false false 0.

Definition run (c : Caller) (call : input_call) (t : Tlu tlu_dev) : Tlu tlu_dev :=
  (run_input_call 0x400 c call t).2.
Definition state1 : Tlu tlu_dev := run owner (NewInput "/in1" "/out1" 3 io1) (mkTlu dev0 []).
Definition state2 : Tlu tlu_dev := run owner (NewInput "/in2" "/out2" 4 io1) state1.
Definition state3 : Tlu tlu_dev := run owner (SetEventPrefix 0 0x100000004) state2.

Lemma tlu_step1 : tlu_step 0x400 (mkTlu dev0 []) state1.
Proof.
  eapply (tlu_step_call _ owner (NewInput "/in1" "/out1" 3 io1)).
  - cbn. split; [lia|apply not_elem_of_nil].
  - reflexivity.
  - discriminate.
Qed.
Lemma tlu_step2 : tlu_step 0x400 state1 state2.
Proof.
  eapply (tlu_step_call _ owner (NewInput "/in2" "/out2" 4 io1)).
  - split; [lia|]. change (eca_tlu_channel <$> inputs state1) with [3]. by intros [=]%list_elem_of_singleton.
  - reflexivity.
  - discriminate.
Qed.
Lemma tlu_step3 : tlu_step 0x400 state2 state3.
Proof.
  eapply (tlu_step_call _ owner (SetEventPrefix 0 0x100000004)).
  - split; [vm_compute; lia|lia].
  - reflexivity.
  - discriminate.
Qed.
Lemma reach3 : rtc (tlu_step 0x400) (mkTlu dev0 []) state3.
Proof. eapply rtc_l; [apply tlu_step1|]. eapply rtc_l; [apply tlu_step2|]. apply rtc_once, tlu_step3. Qed.

Lemma inputs_configured_witness :
  (exists i, inputs state3 !! 0%nat = Some i /\ enable i = false /\
     tr_config (td_regs (t_dev state3)) 3 = mkConfig false 9 0x100000004) /\
  inputs (run_input_call 0x400 owner (SetEventEnable 1 true) state3).2 =
    alter (set_enable true) 1%nat (inputs state3).
Proof.
  destruct (inputs_configured 0x400 dev0 state3 owner (SetEventEnable 1 true) reach3) as [Hall Hcall]; [vm_compute; lia|].
  split.
  - eexists. split; [reflexivity|]. split; [reflexivity|].
    destruct (Hall (mkInput "/in1" io1 "/out1" 3 (Some (-1)) false 0x100000004 80)) as [Hc _].
    + apply (list_elem_of_lookup_2 _ 0). reflexivity.
    + exact Hc.
  - assert ((run_input_call 0x400 owner (SetEventEnable 1 true) state3).1 = Ret tt) as E by (vm_compute; reflexivity).
    revert Hcall E. generalize (run_input_call 0x400 owner (SetEventEnable 1 true) state3). intros [r t'] Hcall E.
    cbn [fst snd] in E |- *. rewrite E in Hcall. apply Hcall.
Defined.

(** The same inputs, and the bus breaks. *)
Definition broken : Tlu tlu_dev := mkTlu (mkTluDev (td_regs (t_dev state3)) false) (inputs state3).

Lemma state3_inv : tlu_inv 0x400 state3.
Proof.
  apply (tlu_steps_inv 0x400 (mkTlu dev0 [])); [apply reach3|].
  split; cbn; [apply NoDup_nil_2|by constructor..].
Qed.
Lemma broken_inv : tlu_inv 0x400 broken.
Proof. destruct state3_inv as [H1 H2 H3]. by split. Qed.

Lemma failed_enable_not_retried_witness :
  exists t', setEventEnable 0x400 owner 0 true broken = (Throw EtherboneError, t') /\
    setEventEnable 0x400 owner 0 true t' = (Ret tt, t') /\
    cf_enable (tr_config (td_regs (t_dev t')) 3) = false.
Proof.
  eexists. split; [reflexivity|].
  destruct (failed_enable_not_retried 0x400 broken 0
    (mkInput "/in1" io1 "/out1" 3 (Some (-1)) false 0x100000004 80) owner true _ broken_inv eq_refl eq_refl)
    as (_ & Hc & Hr).
  split; [exact Hr|exact Hc].
Defined.

(** An output that client 7 owns. *)
Definition sink : ActionSink :=
  mkSink OutputSink "/out1" "IO1" 0 0 (-1000000000) 1000000000 100000000 [] 0 0 0 [] (Some 7).
Definition eca : ECA :=
  mkECA "/eca" 0 1 32 32 16 0 [0] [0] [[Some sink]] (-1) 0 [] [] [].
Definition world : World tlu_dev := mkWorld dev0 eca (Loop.mkLoop [] [] false 0 0 1) 0 [] owner [].
Definition output : Output tlu_dev := mkOutput world d_zero d_zero 0.

Lemma output_lets_in : lets_in (mkLoc 0 0) (Ret tt) output.
Proof. exists sink. split; reflexivity. Qed.

Lemma failed_start_reports_clock_witness :
  exists o', Output_StartClock 0 (mkLoc 0 0) io1 (d_of_Z 5) (d_of_Z 5) 0 output = (Throw only_LVDS, o') /\
    (ClockStatus o').1.1.1 = true.
Proof.
  eexists. split; [reflexivity|].
  destruct (failed_start_reports_clock 0 (mkLoc 0 0) io1 output _ _ (d_of_Z 5) (d_of_Z 5) 0 output_lets_in
    ltac:(vm_compute; discriminate) ltac:(vm_compute; reflexivity) eq_refl) as (_ & _ & Hs).
  rewrite Hs. reflexivity.
Defined.
End InOutDemo.
