(* ===== verification/Saftd.v ===== *)
(** * Interrupts and devices: src/SAFTd.cpp, src/OpenDevice.cpp, src/MsiDevice.cpp,
    src/SdbDevice.cpp

    A message signalled interrupt (MSI) is a write of the hardware to an address
    of the host; [SAFTd] maps addresses to slots.  Hardware that cannot write to
    the host is polled by its [OpenDevice].  [SAFTd] owns the timing receivers
    by name. *)
From S2P Require Import Prelude StdMap Loop Container.
Local Open Scope Z_scope.

(** ** Finding devices: [sdb_find_by_identity] and its variant for MSI *)
Definition hex_digit (n : Z) : string :=
  if n <? 10 then String (Ascii.ascii_of_N (Z.to_N (48 + n))) EmptyString
  else String (Ascii.ascii_of_N (Z.to_N (87 + n))) EmptyString.
(** [std::hex << std::setw(8) << std::setfill('0')], of 32 bits *)
Fixpoint hex (digits : nat) (n : Z) : string :=
  match digits with
  | O => EmptyString
  | S digits' => (hex digits' (n / 16) +:+ hex_digit (n `mod` 16))%string
  end.

Definition no_sdb_device (vendor device : Z) : exn :=
  Error FAILED ("no SDB device with VENDOR_ID=0x" +:+ hex 8 vendor +:+
                " and DEVICE_ID=0x" +:+ hex 8 device).
Definition no_msi_device (vendor device : Z) : exn :=
  Error FAILED ("no SDB-MSI device with VENDOR_ID=0x" +:+ hex 8 vendor +:+
                " and DEVICE_ID=0x" +:+ hex 8 device).

(** [SdbDevice::SdbDevice]: [adr_first], from the addresses that were found. *)
Definition SdbDevice_new (devs : list Z) (throw_if_not_found : bool) (vendor device : Z) : outcome Z :=
  match devs with
  | [] => if throw_if_not_found then Throw (no_sdb_device vendor device) else Ret 0
  | first :: _ => Ret first
  end.

(** [MsiDevice::MsiDevice]: [adr_first] and [msi_first] *)
Definition MsiDevice_new (devs msis : list Z) (vendor device : Z) : outcome (Z * Z) :=
  match SdbDevice_new devs true vendor device with
  | Ret adr => match msis with
               | [] => Throw (no_msi_device vendor device)
               | first :: _ => Ret (adr, first)
               end
  | Throw e => Throw e
  | Crash w => Crash w
  end.

(** ** The state *)

(** [IRQ]: the address for the device, and where its window begins. *)
Record IRQ := mkIRQ { addr : Z; msi_device_first : Z }.

(** A slot: the test of an [OpenDevice], or one of the other drivers. *)
Inductive Slot (H : Type) := CheckMsi | Driver (h : H).
Arguments CheckMsi {_}.
Arguments Driver {_} _.

(** The device that is polled. *)
Record OpenDevice := mkOpenDevice {
  od_first : Z; od_mask : Z; check_irq : option IRQ;
  poll_timeout_source : SourceHandle; poll_once : SourceHandle;
  check_msi_phase : bool; needs_polling : bool
}.

(** The interrupts of [SAFTd], the device, the loop whose timeouts are
    [poll_msi(only_once)], and everything else. *)
Record World (H Y : Type) := mkWorld {
  irqs : list (Z * Slot H);
  device : OpenDevice;
  polls : Loop bool;
  rest : Y
}.
Arguments mkWorld {_ _} _ _ _ _.
Arguments irqs {_ _} _.
Arguments device {_ _} _.
Arguments polls {_ _} _.
Arguments rest {_ _} _.

Definition MSI_TEST_VALUE : Z := 0x12345678.

Section Irqs.
Context {H Y : Type}.
(** The slots of the drivers may do anything. *)
Context (run_driver : H -> Z -> M (World H Y) unit).
Let W := World H Y.

Definition on_irqs (f : list (Z * Slot H) -> list (Z * Slot H)) : M W unit :=
  modify (fun w => mkWorld (f (irqs w)) (device w) (polls w) (rest w)).
Definition on_device (f : OpenDevice -> OpenDevice) : M W unit :=
  modify (fun w => mkWorld (irqs w) (f (device w)) (polls w) (rest w)).
Definition on_polls {A} (f : Loop bool -> A * Loop bool) : M W A := fun w =>
  let '(a, l) := f (polls w) in (Ret a, mkWorld (irqs w) (device w) l (rest w)).

(** ** [SAFTd]: requests *)
Definition attach_irq (irq : Z) (slot : Slot H) : M W bool :=
  m ← gets irqs;
  if map_mem irq m then mret false
  else on_irqs (map_set irq slot);; mret true.

Definition release_irq (irq : Z) : M W unit := on_irqs (map_erase irq).

(** [((rand() & mask) + first) & (~0x3)] *)
Definition irq_candidate (r first mask : Z) : Z :=
  Z.land (u64 (Z.land r mask + first)) (u64 (Z.lnot 0x3)).

(** [SAFTd::request_irq]: [first], [last] come from [enable_msi]; [rnd] are the
    numbers that [rand()] returns, of which 2000 are tried. *)
Fixpoint try_irqs (rnd : list Z) (first mask msi_first : Z) (slot : Slot H) : M W (option IRQ) :=
  match rnd with
  | [] => mret None
  | r :: rnd' =>
      let a := irq_candidate r first mask in
      ok ← attach_irq a slot;
      if (ok : bool) then mret (Some (mkIRQ (u64 (a + msi_first)) msi_first))
      else try_irqs rnd' first mask msi_first slot
  end.
Definition request_irq (rnd : list Z) (first last msi_first : Z) (slot : Slot H) : M W (option IRQ) :=
  try_irqs (take 2000 rnd) first (u64 (last - first)) msi_first slot.

(** [IRQ::~IRQ] *)
Definition irq_key (i : IRQ) : Z := u64 (addr i - msi_device_first i).
Definition destroy_irq (i : IRQ) : M W unit := release_irq (irq_key i).

(** ** Dispatch *)

(** [OpenDevice::check_msi_callback] *)
Definition check_msi_callback (value : Z) : M W unit :=
  massert (value =? MSI_TEST_VALUE) "value == MSI_TEST_VALUE";;
  d ← gets device;
  on_device (fun d => mkOpenDevice (od_first d) (od_mask d) None (poll_timeout_source d) (poll_once d)
                        false (needs_polling d));;
  match check_irq d with Some i => destroy_irq i | None => mret tt end.

Definition run_slot (s : Slot H) (data : Z) : M W unit :=
  match s with CheckMsi => check_msi_callback data | Driver h => run_driver h data end.

(** [SAFTd::write]: exceptions are reported, the result is always [EB_OK]. *)
Definition SAFTd_write (address data : Z) : M W unit :=
  m ← gets irqs;
  match map_find address m with
  | Some s => try_catch (run_slot s data) (fun _ => mret tt)
  | None => mret tt
  end.

(** ** Polling *)

(** The configuration registers 0x40, 0x44, 0x48: address, data and flags of the
    next MSI.  [msi_read] is a cycle on the state [X] of that hardware; [None]: it
    failed. *)
Context {X : Type} (msi_read : X -> option (Z * Z * Z) * X).
(** [now] and [rand()] of the timeouts. *)
Context (now rnd : Z).

Definition lift_w {A} (m : M W A) : M (W * X) A := zoom fst (fun w wx => (w, wx.2)) m.
Definition read_config : M (W * X) (Z * Z * Z) := fun wx =>
  match msi_read wx.2 with
  | (Some v, x') => (Ret v, (wx.1, x'))
  | (None, x') => (Throw EtherboneError, (wx.1, x'))
  end.

Definition MAX_MSIS_IN_ONE_GO : nat := 5.

Definition set_needs_polling (d : OpenDevice) : OpenDevice :=
  mkOpenDevice (od_first d) (od_mask d) (check_irq d) (poll_timeout_source d) (poll_once d)
    (check_msi_phase d) true.
Definition set_poll_once (h : SourceHandle) (d : OpenDevice) : OpenDevice :=
  mkOpenDevice (od_first d) (od_mask d) (check_irq d) (poll_timeout_source d) h
    (check_msi_phase d) (needs_polling d).

(** The loop of [poll_msi]; the result is [found_msi] and the last [msi_cnt]. *)
Fixpoint poll_rounds (rounds : nat) (found : bool) (cnt : Z) : M (W * X) (bool * Z) :=
  match rounds with
  | O => mret (found, cnt)
  | S rounds' =>
      '(adr, dat, cnt') ← read_config;
      (if Z.testbit cnt' 0 then
         d ← lift_w (gets device);
         lift_w (on_device set_needs_polling);;
         lift_w (SAFTd_write (u64 (od_first d + Z.land adr (od_mask d))) dat)
       else mret tt);;
      let found' := found || Z.testbit cnt' 0 in
      if Z.testbit cnt' 1 then poll_rounds rounds' found' cnt' else mret (found', cnt')
  end.

(** [OpenDevice::poll_msi]: whether the source stays. *)
Definition poll_msi (only_once : bool) : M (W * X) bool :=
  '(found, cnt) ← poll_rounds MAX_MSIS_IN_ONE_GO false 0;
  (if Z.testbit cnt 1 || found then
     h ← lift_w (on_polls (connect (new_timeout now 0 0) true rnd));
     lift_w (on_device (set_poll_once h))
   else mret tt);;
  d ← lift_w (gets device);
  if only_once then mret false
  else mret (check_msi_phase d || needs_polling d).

(** The part of [OpenDevice::OpenDevice] that tests the kind of MSI: [use_mailbox]
    makes the mailbox and sends [MSI_TEST_VALUE] to the given address; a
    [saftbus::Error] ends the test. *)
Definition OpenDevice_test (rnds : list Z) (first last msi_first polling_interval_ms : Z)
    (use_mailbox : Z -> M (W * X) unit) : M (W * X) unit :=
  lift_w (on_device (fun _ => mkOpenDevice first (u64 (last - first)) None null_handle null_handle true false));;
  try_catch
    (oi ← lift_w (request_irq rnds first last msi_first CheckMsi);
     match oi with
     | None => crash "check_irq->address()"
     | Some i =>
         lift_w (on_device (fun d => mkOpenDevice (od_first d) (od_mask d) (Some i) (poll_timeout_source d)
                                       (poll_once d) (check_msi_phase d) (needs_polling d)));;
         use_mailbox (addr i);;
         h ← lift_w (on_polls (connect (new_timeout now polling_interval_ms polling_interval_ms) false rnd));
         lift_w (on_device (fun d => mkOpenDevice (od_first d) (od_mask d) (check_irq d) h (poll_once d)
                                       (check_msi_phase d) (needs_polling d)))
     end)
    (fun e => match e with Error _ _ => mret tt | _ => throw e end).

(** [OpenDevice::~OpenDevice] *)
Definition OpenDevice_destroy : M W unit :=
  d ← gets device;
  match check_irq d with Some i => destroy_irq i | None => mret tt end;;
  on_polls (fun l => (tt, remove (poll_timeout_source d) l));;
  on_polls (fun l => (tt, remove (poll_once d) l)).
End Irqs.

(** ** The timing receivers *)
Record TimingReceiver := mkTimingReceiver { tr_path : string; tr_forward : string }.

(** A null pointer in the map is an entry that [operator[]] made. *)
Definition Devices : Type := list (string * option TimingReceiver).

Section Devices.
Context {CB Y : Type}.
(** The rest of the daemon's state, with the devices in it. *)
Context (get_devices : Y -> Devices) (put_devices : Devices -> Y -> Y).
(** Is there a container; [new TimingReceiver] and its destructor. *)
Context (has_container : bool).
Context (new_TimingReceiver : string -> string -> Z -> M (Daemon CB Y) TimingReceiver).
Context (destroy_TimingReceiver : TimingReceiver -> M (Daemon CB Y) unit).
Let S := Daemon CB Y.

Definition saftd_path : string := "/de/gsi/saftlib".
Definition no_such_device : exn := Error INVALID_ARGS "no such device".

Definition devices_of (st : S) : Devices := get_devices (others st).
Definition on_devices (f : Devices -> Devices) : M S unit :=
  modify (fun st => mkDaemon (container st) (clients st) (calling_client_id st)
                      (put_devices (f (get_devices (others st))) (others st))).

(** An exception of etherbone becomes an error of saftbus (whose text goes on
    with that of the exception). *)
Definition attach_failed : exn := Error IO_ERROR "AttachDevice: failed to open: ".

(** [container->create_object]; its result is not looked at. *)
Definition publish (path : string) (s : Service CB) : M S unit :=
  on_container (fun c => (create_object path s c).2).

Definition AttachDevice (new_service : string -> Service CB) (name etherbone_path : string)
    (polling_interval_ms : Z) : M S string :=
  ds ← gets devices_of;
  throw_if (map_mem name ds) (Error INVALID_ARGS "device already exists");;
  try_catch
    (tr ← new_TimingReceiver name etherbone_path polling_interval_ms;
     on_devices (map_set name (Some tr));;
     (if has_container then publish (tr_path tr) (new_service name) else mret tt);;
     mret (tr_path tr))
    (fun e => match e with EtherboneError => throw attach_failed | _ => throw e end).

Definition find_device (name : string) : M S (option TimingReceiver) := fun st =>
  match map_find name (devices_of st) with
  | None => (Ret None, st)
  | Some (Some tr) => (Ret (Some tr), st)
  | Some None => (Crash "null TimingReceiver", st)
  end.

Definition EbForward (saftlib_device : string) : M S string :=
  otr ← find_device saftlib_device;
  mret (match otr with Some tr => tr_forward tr | None => EmptyString end).

(** [RemoveObject]: the entry is erased, its object destroyed. *)
Definition RemoveObject (name : string) : M S unit :=
  ds ← gets devices_of;
  match map_find name ds with
  | None => crash "attached_devices.erase(end())"
  | Some otr =>
      on_devices (map_erase name);;
      match otr with Some tr => destroy_TimingReceiver tr | None => mret tt end
  end.

Definition RemoveDevice (name : string) : M S unit :=
  otr ← find_device name;
  match otr with
  | None => throw no_such_device
  | Some tr =>
      (if has_container then _ ← remove_object (tr_path tr); mret tt else mret tt);;
      RemoveObject name
  end.

(** [getDevices] *)
Fixpoint device_paths (ds : Devices) : outcome (list (string * string)) :=
  match ds with
  | [] => Ret []
  | (_, None) :: _ => Crash "null TimingReceiver"
  | (name, Some tr) :: ds' =>
      match device_paths ds' with
      | Ret l => Ret ((name, tr_path tr) :: l)
      | o => o
      end
  end.
Definition getDevices : M S (list (string * string)) := fun st => (device_paths (devices_of st), st).

(** [std::string::find(object_path) != npos] *)
Definition contains_path (s : string) : bool :=
  if String.index 0 saftd_path s is Some _ then true else false.

(** [getTimingReceiver]; [substr] behind the end throws [std::out_of_range], and
    [attached_devices[name]] makes an entry if there is none. *)
Definition getTimingReceiver (tr_obj_path : string) : M S (option TimingReceiver) :=
  if contains_path tr_obj_path then
    let from := (String.length saftd_path + 1)%nat in
    throw_if (bool_decide (String.length tr_obj_path < from)%nat) OtherException;;
    let name := String.substring from (String.length tr_obj_path - from) tr_obj_path in
    ds ← gets devices_of;
    match map_find name ds with
    | Some otr => mret otr
    | None => on_devices (map_set name None);; mret None
    end
  else
    ds ← gets devices_of;
    match map_find tr_obj_path ds with
    | Some otr => mret otr
    | None => throw no_such_device
    end.

(** *** Constructor and destructor

    The socket of etherbone with the daemon as its slave, and its source in the loop. *)
Context (open_socket attach_slave remove_source close_socket : M S unit) (connect_source : M S SourceHandle).
Definition SAFTd_new : M S SourceHandle := open_socket;; attach_slave;; connect_source.

(** The objects of the receivers, then its own; the first that cannot be removed ends it. *)
Definition remove_own_objects : M S unit :=
  if has_container then
    try_catch
      (ds ← gets devices_of;
       for_each (fun d => match snd d with
                          | Some tr => _ ← remove_object (tr_path tr); mret tt
                          | None => crash "null TimingReceiver"
                          end) ds;;
       _ ← remove_object saftd_path; mret tt)
      (fun _ => mret tt)
  else mret tt.
Definition SAFTd_destroy : M S unit :=
  remove_own_objects;;
  ds ← gets devices_of;
  for_each (fun d => match snd d with Some tr => destroy_TimingReceiver tr | None => mret tt end) ds;;
  on_devices (fun _ => []);;
  remove_source;;
  try_catch close_socket (fun e => match e with EtherboneError => mret tt | _ => throw e end).
End Devices.
