(* ===== verification/SaftdCorrect.v ===== *)
(** * Interrupts and devices: routing, polling, and what is left behind *)
From S2P Require Import Prelude StdMap Loop Container ContainerCorrect Saftd.
From stdpp Require Import relations.
Local Open Scope Z_scope.

Section Routing.
Context {H Y : Type} (run_driver : H -> Z -> M (World H Y) unit).
Let W := World H Y.
Implicit Types (w : W) (i : IRQ).

(** ** Requests and releases *)
Lemma run_attach_irq a s w :
  attach_irq a s w =
    if map_mem a (irqs w) then (Ret false, w)
    else (Ret true, mkWorld (map_set a s (irqs w)) (device w) (polls w) (rest w)).
Proof. unfold attach_irq. mrun. by destruct (map_mem a (irqs w)). Qed.

Lemma irq_candidate_spec r first mask :
  0 <= irq_candidate r first mask < 2 ^ 64 /\ irq_candidate r first mask `mod` 4 = 0.
Proof.
  unfold irq_candidate. set (x := u64 (Z.land r mask + first)).
  assert (0 <= x < 2 ^ 64) as Hx by (apply unsigned_wrap_range; lia).
  assert (Z.land x (u64 (Z.lnot 3)) = x - x `mod` 4) as ->; [|split; Z.div_mod_to_equations; lia].
  assert (u64 (Z.lnot 3) = Z.ldiff (Z.ones 64) 3) as -> by reflexivity.
  rewrite Z.ldiff_land, Z.land_assoc, Z.land_ones, Z.mod_small by (done || lia).
  rewrite <- Z.ldiff_land. change 3 with (Z.ones 2).
  rewrite Z.ldiff_ones_r, Z.shiftl_mul_pow2, Z.shiftr_div_pow2 by lia.
  change (2 ^ 2) with 4. Z.div_mod_to_equations; lia.
Qed.

Lemma irq_key_of a f : 0 <= a < 2 ^ 64 -> irq_key (mkIRQ (u64 (a + f)) f) = a.
Proof.
  intros Ha. unfold irq_key. cbn. rewrite unsigned_wrap_sub_l. replace (a + f - f) with a by lia.
  by apply unsigned_wrap_small.
Qed.

(** The first free candidate is taken. *)
Lemma run_try_irqs rnd first mask msi_first s w :
  (try_irqs rnd first mask msi_first s w = (Ret None, w) /\
   forall r, r ∈ rnd -> map_mem (irq_candidate r first mask) (irqs w) = true) \/
  exists a, 0 <= a < 2 ^ 64 /\ a `mod` 4 = 0 /\ map_mem a (irqs w) = false /\
    (exists r, r ∈ rnd /\ a = irq_candidate r first mask) /\
    try_irqs rnd first mask msi_first s w =
      (Ret (Some (mkIRQ (u64 (a + msi_first)) msi_first)),
       mkWorld (map_set a s (irqs w)) (device w) (polls w) (rest w)).
Proof.
  induction rnd as [|r rnd IH]; cbn [try_irqs].
  { left. split; [done|]. intros r Hr. by apply elem_of_nil in Hr. }
  unfold mbind, M_bind. rewrite run_attach_irq.
  destruct (map_mem (irq_candidate r first mask) (irqs w)) eqn:E; cbn.
  - destruct IH as [[E1 Hall]|(a & Ha & H4 & Hm & (r' & Hr' & ->) & E1)].
    + left. split; [done|]. intros r' [->|Hr']%elem_of_cons; [done|by apply Hall].
    + right. eexists. split_and!; [apply Ha|apply Ha|apply H4|done| |exact E1].
      exists r'. split; [by right|done].
  - right. exists (irq_candidate r first mask). destruct (irq_candidate_spec r first mask) as [Hr H4].
    split_and!; [lia|lia|done|done| |done].
    exists r. split; [by left|done].
Qed.

Lemma map_mem_find {V} a (m : list (Z * V)) : map_mem a m = false <-> map_find a m = None.
Proof. unfold map_mem. by destruct (map_find a m). Qed.

(** ** Live interrupts *)

(** The [IRQ] objects that exist, with their slots; whatever else happens
    leaves the map of the interrupts alone. *)
Definition Live : Type := list (IRQ * Slot H).
Definition keys (l : Live) : list Z := (fun p => irq_key p.1) <$> l.

Inductive irq_step : W * Live -> W * Live -> Prop :=
  | step_request rnd first last msi_first s w live i w' :
      request_irq rnd first last msi_first s w = (Ret (Some i), w') ->
      irq_step (w, live) (w', (i, s) :: live)
  | step_destroy w l1 i s l2 :
      irq_step (w, l1 ++ (i, s) :: l2) ((destroy_irq i w).2, l1 ++ l2)
  | step_other w live d p r :
      irq_step (w, live) (mkWorld (irqs w) d p r, live).

Record routed (wl : W * Live) : Prop := {
  ro_nodup : NoDup (keys wl.2);
  ro_aligned : Forall (fun a => a `mod` 4 = 0) (keys wl.2);
  ro_live : forall i s, (i, s) ∈ wl.2 -> map_find (irq_key i) (irqs wl.1) = Some s;
  ro_only : forall a, a ∉ keys wl.2 -> map_find a (irqs wl.1) = None
}.

Lemma irq_step_routed wl wl' : irq_step wl wl' -> routed wl -> routed wl'.
Proof.
  intros Hstep [Hn Ha Hl Ho]. destruct Hstep as [rnd first last msi_first s w live i w' E|w l1 i s l2|w live d p r].
  - unfold request_irq in E. cbn in *.
    destruct (run_try_irqs (take 2000 rnd) first (u64 (last - first)) msi_first s w)
      as [[E' _]|(a & Hr & H4 & Hm & _ & E')]; rewrite E' in E; [done|]. injection E as <- <-.
    assert (irq_key (mkIRQ (u64 (a + msi_first)) msi_first) = a) as Hk by (by apply irq_key_of).
    apply map_mem_find in Hm.
    assert (a ∉ keys live) as Hfresh.
    { intros Hin. apply list_elem_of_fmap in Hin as ([i' s'] & Hk' & Hin). apply Hl in Hin. cbn in Hk'. congruence. }
    split; unfold keys in *; cbn; rewrite ?Hk.
    + by constructor.
    + by constructor.
    + intros i' s' [[= -> ->]|Hin]%elem_of_cons.
      * rewrite Hk. apply map_find_set_eq.
      * rewrite map_find_set_ne; [by apply Hl|]. intros Heq. apply Hfresh, list_elem_of_fmap.
        exists (i', s'). split; [cbn; congruence|done].
    + intros a' [Hne Hnin]%not_elem_of_cons. rewrite map_find_set_ne by done. by apply Ho.
  - unfold keys in *. cbn in *. rewrite fmap_app in *. cbn in *.
    apply NoDup_app in Hn as (Hn1 & Hn12 & Hn2). apply NoDup_cons in Hn2 as [Hi2 Hn2].
    apply Forall_app in Ha as [Ha1 Ha2]. apply Forall_cons in Ha2 as [_ Ha2].
    assert (forall i' s', (i', s') ∈ l1 ++ l2 -> irq_key i' <> irq_key i) as Hne.
    { intros i' s' [Hin|Hin]%elem_of_app Heq.
      - apply (Hn12 (irq_key i)); [|by left]. apply list_elem_of_fmap. exists (i', s'). by rewrite <- Heq.
      - apply Hi2. apply list_elem_of_fmap. exists (i', s'). by rewrite <- Heq. }
    split; unfold keys; cbn; rewrite ?fmap_app.
    + apply NoDup_app. split_and!; [done| |done]. intros a Ha1' Ha2'. apply (Hn12 a Ha1'). by right.
    + by apply Forall_app.
    + intros i' s' Hin. rewrite map_find_erase_ne by (by eapply Hne). apply Hl.
      rewrite elem_of_app in *. rewrite elem_of_cons. tauto.
    + intros a Hna. destruct (decide (a = irq_key i)) as [->|Hai]; [apply map_find_erase_eq|].
      rewrite map_find_erase_ne by done. apply Ho. rewrite elem_of_app, elem_of_cons in *. tauto.
  - by split.
Qed.

(** C17: Interrupts are routed to their owner: whatever numbers rand() returns and in
    whatever order interrupts are requested and released, the addresses of the
    interrupts that exist are distinct multiples of four, an MSI to one of them
    runs exactly its slot (an exception of which goes no further), and an MSI to
    any other address does nothing. *)
Theorem irq_routing (w0 w : W) (live : Live) (Hnone : irqs w0 = [])
    (Hreach : rtc irq_step (w0, []) (w, live)) :
  NoDup (keys live) /\ Forall (fun a => a `mod` 4 = 0) (keys live) /\
  (forall i s data, (i, s) ∈ live ->
     SAFTd_write run_driver (irq_key i) data w = try_catch (run_slot run_driver s data) (fun _ => mret tt) w) /\
  (forall a data, a ∉ keys live -> SAFTd_write run_driver a data w = (Ret tt, w)).
Proof.
  assert (routed (w0, [])) as H0.
  { split; cbn; [apply NoDup_nil_2|constructor| |].
    - intros i s Hin. by apply elem_of_nil in Hin.
    - intros a _. by rewrite Hnone. }
  assert (routed (w, live)) as [Hn Ha Hl Ho].
  { remember (w0, []) as wl0. remember (w, live) as wl. clear Heqwl0 Heqwl Hnone. revert H0.
    induction Hreach as [|x y z Hs _ IH]; [done|]. intros Hx. by apply IH, (irq_step_routed x). }
  split_and!; [done|done| |].
  - intros i s data Hin. unfold SAFTd_write. mrun. pose proof (Hl i s Hin) as E. cbn in E. by rewrite E.
  - intros a data Hna. unfold SAFTd_write. mrun. pose proof (Ho a Hna) as E. cbn in E. by rewrite E.
Qed.

(** What a poll makes of the address in the device: with windows aligned to their
    size it is the address under which the slot is registered. *)
Lemma polled_address_is_key a first k msi_first :
  0 <= k <= 63 -> 0 <= first -> first + 2 ^ k <= 2 ^ 64 -> 0 <= msi_first -> a + msi_first < 2 ^ 64 ->
  first `mod` 2 ^ k = 0 -> msi_first `mod` 2 ^ k = 0 -> first <= a < first + 2 ^ k ->
  u64 (first + Z.land (u64 (a + msi_first)) (u64 (first + (2 ^ k - 1) - first))) = a.
Proof.
  intros Hk Hf Hf2 Hm Ham Hfa Hma Ha.
  assert (0 < 2 ^ k) by (apply Z.pow_pos_nonneg; lia).
  assert (2 ^ k <= 2 ^ 63) by (apply Z.pow_le_mono_r; lia).
  rewrite (unsigned_wrap_small 64 (a + _)) by lia.
  replace (first + (2 ^ k - 1) - first) with (Z.ones k) by (rewrite Z.ones_equiv; lia).
  rewrite (unsigned_wrap_small 64 (Z.ones k)).
  2: { rewrite Z.ones_equiv. change (2 ^ 64) with (2 * 2 ^ 63). lia. }
  rewrite Z.land_ones by lia.
  assert ((a + msi_first) `mod` 2 ^ k = a - first) as ->.
  { rewrite Zplus_mod, Hma, Z.add_0_r, Zmod_mod. symmetry. apply (Z.mod_unique_pos _ _ (first / 2 ^ k)); [lia|].
    pose proof (Z.div_mod first (2 ^ k) ltac:(lia)). lia. }
  rewrite unsigned_wrap_small; lia.
Qed.
End Routing.

(** ** Polling *)

(** The registers of the hardware: a queue, to which the hardware may add before
    every read.  [msi_read] takes the first MSI; bit 0 of the flags says whether
    there was one, bit 1 whether more are waiting.  A cycle that fails may have
    taken the first MSI, which is lost then. *)
Class MsiQueue (X : Type) (msi_read : X -> option (Z * Z * Z) * X) := {
  pending : X -> list (Z * Z);
  msi_read_spec : forall x, exists new,
    match msi_read x, pending x ++ new with
    | (Some (_, _, cnt), x'), [] => Z.testbit cnt 0 = false /\ Z.testbit cnt 1 = false /\ pending x' = []
    | (Some (a, d, cnt), x'), (a0, d0) :: queue =>
        a = a0 /\ d = d0 /\ Z.testbit cnt 0 = true /\
        Z.testbit cnt 1 = bool_decide (queue <> []) /\ pending x' = queue
    | (None, x'), queue => exists lost, queue = lost ++ pending x' /\ (length lost <= 1)%nat
    end
}.

Section Polling.
Context {H Y : Type} (run_driver : H -> Z -> M (World H Y) unit).
Context {X : Type} (msi_read : X -> option (Z * Z * Z) * X) `{!MsiQueue X msi_read}.
Context (now rnd : Z).
#[local] Abbreviation W := (World H Y).

(** The effect of one MSI, and of several. *)
Definition deliver_one (m : Z * Z) : M W unit :=
  d ← gets device;
  on_device set_needs_polling;;
  SAFTd_write run_driver (u64 (od_first d + Z.land m.1 (od_mask d))) m.2.
Definition deliver (ms : list (Z * Z)) : M W unit := for_each deliver_one ms.
#[local] Arguments deliver : simpl never.

Lemma lift_bind {A B} (m : M W A) (k : A -> M W B) (wx : W * X) :
  lift_w (m ≫= k) wx = (lift_w m ≫= (fun a => lift_w (k a))) wx.
Proof.
  unfold lift_w, zoom. destruct wx as [w x]. mrun. cbn.
  destruct (m w) as [[a|e|why] w']; [|done|done]. cbn. by destruct (k a w').
Qed.

Definition nonempty (ms : list (Z * Z)) : bool := match ms with [] => false | _ => true end.

Lemma deliver_one_no_throw m w e w' : deliver_one m w <> (Throw e, w').
Proof.
  unfold deliver_one, SAFTd_write, on_device. mrun. cbn.
  destruct (map_find _ _) as [s|]; [|done]. unfold try_catch.
  by destruct (run_slot run_driver s m.2 _) as [[[]|e'|why] w1].
Qed.

(** What a number of rounds makes of the queue: a prefix is delivered, the whole
    queue or as many as there are rounds. *)
Definition polled (rounds : nat) (found : bool) (cnt : Z) (w : W) (x : X) (r : outcome (bool * Z)) (wx : W * X) : Prop :=
  match r with
  | Ret (found', cnt') =>
      exists new delivered,
        pending x ++ new = delivered ++ pending wx.2 /\
        (length delivered <= rounds)%nat /\ (length delivered = rounds \/ pending wx.2 = []) /\
        found' = found || nonempty delivered /\
        (delivered <> [] -> Z.testbit cnt' 1 = true -> length delivered = rounds) /\
        (delivered = [] -> rounds <> O -> Z.testbit cnt' 1 = false) /\
        deliver delivered w = (Ret tt, wx.1)
  | Throw e =>
      e = EtherboneError /\
      exists new delivered lost,
        pending x ++ new = delivered ++ lost ++ pending wx.2 /\
        (length lost <= 1)%nat /\ (length delivered < rounds)%nat /\
        deliver delivered w = (Ret tt, wx.1)
  | Crash why => exists delivered, deliver delivered w = (Crash why, wx.1)
  end.

Lemma run_poll_rounds rounds found cnt w x :
  let '(r, wx) := poll_rounds run_driver msi_read rounds found cnt (w, x) in polled rounds found cnt w x r wx.
Proof.
  revert found cnt w x. induction rounds as [|rounds IH]; intros found cnt w x; cbn [poll_rounds].
  { cbn. exists [], []. cbn. rewrite !app_nil_r, orb_false_r. split_and!; try done; by left. }
  unfold mbind at 1, M_bind at 1. unfold read_config. cbn [fst snd].
  destruct (msi_read_spec x) as [new Hx].
  destruct (msi_read x) as [[[[a d] cnt']|] x1].
  2: { destruct Hx as (lost & Hq & Hl). cbn. split; [done|]. exists new, [], lost. cbn. split_and!; [done|done|lia|done]. }
  destruct (pending x ++ new) as [|[a0 d0] queue] eqn:Eq.
  - destruct Hx as (H0 & H1 & Hp). rewrite H0, H1. cbn. exists new, []. cbn. rewrite Eq, Hp, !orb_false_r.
    split_and!; [done|lia|by right|done|done|done|done].
  - destruct Hx as (-> & -> & H0 & H1 & Hp). rewrite H0. cbn [orb].
    assert (forall (k : unit -> M (W * X) (bool * Z)),
      ((d ← lift_w (gets device);
        lift_w (on_device set_needs_polling);;
        lift_w (SAFTd_write run_driver (u64 (od_first d + Z.land a0 (od_mask d))) d0)) ≫= k) (w, x1) =
      match deliver_one (a0, d0) w with
      | (Ret u, w') => k u (w', x1)
      | (Throw e, w') => (Throw e, (w', x1))
      | (Crash why, w') => (Crash why, (w', x1))
      end) as Hone.
    { intros k. unfold deliver_one, lift_w, zoom. mrun. cbn.
      by destruct (SAFTd_write run_driver _ d0 _) as [[[]|e|why] w1]. }
    rewrite Hone. clear Hone.
    destruct (deliver_one (a0, d0) w) as [[[]|e|why] w1] eqn:E1; [|by apply deliver_one_no_throw in E1|].
    2: { cbn. exists [(a0, d0)]. unfold deliver. cbn. unfold mbind, M_bind. by rewrite E1. }
    assert (forall ms, deliver ((a0, d0) :: ms) w = deliver ms w1) as Hd.
    { intros ms. unfold deliver. cbn. unfold mbind at 1, M_bind at 1. by rewrite E1. }
    rewrite orb_true_r. rewrite H1.
    destruct (bool_decide_reflect (queue <> [])) as [Hne|Hemp].
    + specialize (IH true cnt' w1 x1). destruct (poll_rounds _ _ rounds true cnt' (w1, x1)) as [r wx].
      unfold polled in *. destruct r as [[f c]|e|why]; cbn.
      * destruct IH as (new2 & ms & Happ & Hlen & Hend & Hf & Hc & Hc0 & Hrun).
        exists (new ++ new2), ((a0, d0) :: ms). rewrite app_assoc, Eq. cbn. rewrite <- Happ, Hp.
        split_and!; [done|lia| | | |done|by rewrite Hd].
        -- destruct Hend; [left; lia|by right].
        -- rewrite orb_true_r. by destruct f.
        -- intros _ Hct. f_equal. destruct (decide (ms = [])) as [->|Hms]; [|by apply Hc].
           destruct rounds as [|rounds]; [done|]. change (Z.testbit c 1 = true) in Hct. rewrite Hc0 in Hct by done. done.
      * destruct IH as (-> & new2 & ms & lost & Happ & Hlost & Hlen & Hrun). split; [done|].
        exists (new ++ new2), ((a0, d0) :: ms), lost. rewrite app_assoc, Eq. cbn. rewrite <- Happ, Hp.
        split_and!; [done|done|lia|by rewrite Hd].
      * destruct IH as [ms Hms]. exists ((a0, d0) :: ms). by rewrite Hd.
    + cbn. exists new, [(a0, d0)]. rewrite Eq, Hp. cbn.
      assert (queue = []) as -> by (destruct queue; [done|by destruct Hemp]).
      split_and!; [done|lia|by right|by rewrite orb_true_r| |done|by rewrite Hd].
      intros _ Hct. change (Z.testbit cnt' 1 = true) in Hct. by rewrite H1 in Hct.
Qed.

(** The timeout for the next poll. *)
Definition schedule (w : W) : W :=
  let '(h, l) := connect (new_timeout now 0 0) true rnd (polls w) in
  mkWorld (irqs w) (set_poll_once h (device w)) l (rest w).

#[local] Arguments schedule : simpl never.

Lemma run_poll_msi only_once w x :
  let '(r, wx') := poll_msi run_driver msi_read now rnd only_once (w, x) in
  match r with
  | Ret stay =>
      exists new delivered w1,
        pending x ++ new = delivered ++ pending wx'.2 /\ (length delivered <= 5)%nat /\
        (length delivered = 5%nat \/ pending wx'.2 = []) /\
        deliver delivered w = (Ret tt, w1) /\
        wx'.1 = (if nonempty delivered then schedule w1 else w1) /\
        stay = negb only_once && (check_msi_phase (device w1) || needs_polling (device w1))
  | Throw e =>
      e = EtherboneError /\
      exists new delivered lost,
        pending x ++ new = delivered ++ lost ++ pending wx'.2 /\
        (length lost <= 1)%nat /\ (length delivered < 5)%nat /\
        deliver delivered w = (Ret tt, wx'.1)
  | Crash why => exists delivered, deliver delivered w = (Crash why, wx'.1)
  end.
Proof.
  unfold poll_msi. pose proof (run_poll_rounds MAX_MSIS_IN_ONE_GO false 0 w x) as Hr.
  unfold mbind at 1, M_bind at 1.
  destruct (poll_rounds run_driver msi_read MAX_MSIS_IN_ONE_GO false 0 (w, x)) as [[[f c]|e|why] [w1 x1]];
    cbn in Hr; [|done|done].
  destruct Hr as (new & ms & Happ & Hlen & Hend & -> & Hc & Hc0 & Hrun). cbn [orb].
  assert (Z.testbit c 1 || nonempty ms = nonempty ms) as ->.
  { destruct ms as [|m ms]; [|by rewrite orb_true_r]. rewrite orb_false_r. by apply Hc0. }
  destruct (nonempty ms) eqn:Ene.
  - unfold lift_w, zoom, on_polls, on_device. mrun. cbn [fst snd].
    destruct (connect _ _ _ _) as [h l] eqn:Ec.
    destruct only_once; cbn; exists new, ms, w1; rewrite Ene; unfold schedule; rewrite Ec;
      split_and!; try done; by destruct Hend; [left|right].
  - unfold lift_w, zoom. mrun. cbn [fst snd].
    destruct only_once; cbn; exists new, ms, w1; rewrite Ene;
      split_and!; try done; by destruct Hend; [left|right].
Qed.

(** C23: Polling delivers the MSIs of the hardware in order and without a loss: a call
    takes the front of the queue, all of it or five, and runs the slots of these
    MSIs one after the other; if it found any it schedules another call at once,
    so that no MSI waits for the polling interval.  When reading the registers
    fails, the exception of etherbone leaves the call: what had been taken is
    delivered, at most the MSI of the failed cycle is lost, and no call is
    scheduled.  Nothing else is thrown, and the process ends only if a slot does. *)
Theorem poll_msi_fifo (only_once : bool) (w : W) (x : X) :
  let '(r, (w', x')) := poll_msi run_driver msi_read now rnd only_once (w, x) in
  match r with
  | Ret stay =>
      exists new delivered w1,
        pending x ++ new = delivered ++ pending x' /\ (length delivered <= 5)%nat /\
        (length delivered = 5%nat \/ pending x' = []) /\
        deliver delivered w = (Ret tt, w1) /\
        (delivered = [] -> w' = w1) /\
        (delivered <> [] -> w' = schedule w1 /\
           poll_once (device w') = (connect (new_timeout now 0 0) true rnd (polls w1)).1) /\
        (stay = true <-> only_once = false /\ (check_msi_phase (device w1) = true \/ needs_polling (device w1) = true))
  | Throw e =>
      e = EtherboneError /\
      exists new delivered lost,
        pending x ++ new = delivered ++ lost ++ pending x' /\
        (length lost <= 1)%nat /\ (length delivered < 5)%nat /\
        deliver delivered w = (Ret tt, w')
  | Crash why => exists delivered, deliver delivered w = (Crash why, w')
  end.
Proof.
  pose proof (run_poll_msi only_once w x) as Hr.
  destruct (poll_msi run_driver msi_read now rnd only_once (w, x)) as [[stay|e|why] [w' x']]; [|done|done].
  destruct Hr as (new & ms & w1 & Happ & Hlen & Hend & Hrun & Hw & ->). cbn [fst snd] in *.
  exists new, ms, w1. split_and!; [done|done|done|done|by intros ->| |].
  - intros Hne. destruct ms; [done|]. cbn in Hw. subst w'. split; [done|]. unfold schedule.
    by destruct (connect _ _ _ _).
  - rewrite andb_true_iff, orb_true_iff, negb_true_iff. done.
Qed.
End Polling.

(** ** A poll that is forgotten *)
Section Forgotten.
Context {H Y : Type} (run_driver : H -> Z -> M (World H Y) unit).
Context {X : Type} (msi_read : X -> option (Z * Z * Z) * X) `{!MsiQueue X msi_read}.
Implicit Types (l : Loop bool) (s : Source bool).

Definition in_loop s l : Prop := Some s ∈ sources l \/ Some s ∈ added_sources l.

Lemma reset_first_keeps s sid ss : src_id s <> sid -> Some s ∈ ss -> Some s ∈ reset_first sid ss.
Proof.
  intros Hne. induction ss as [|[s'|] ss IH]; [done|..]; intros [E|Hin]%elem_of_cons; cbn; try done.
  - injection E as <-. rewrite (proj2 (Z.eqb_neq _ _) Hne). by left.
  - destruct (src_id s' =? sid); right; [done|by apply IH].
  - right. by apply IH.
Qed.

Lemma remove_keeps s h l : src_id s <> source_id h -> in_loop s l -> in_loop s (Loop.remove h l).
Proof.
  intros Hne [Hs|Hs]; unfold Loop.remove; destruct (h_loop_id h =? loop_id l); try (by left); try (by right).
  - left. cbn. by apply reset_first_keeps.
  - right. cbn. by apply reset_first_keeps.
Qed.

Lemma connect_in_loop kind b rnd l :
  let '(h, l') := connect kind b rnd l in
  in_loop (mkSource (source_id h) kind b) l' /\ forall s, in_loop s l -> in_loop s l'.
Proof.
  unfold connect, in_loop. destruct (new_source_id (id_counter l) rnd) as [c sid].
  destruct (running_depth l =? 0); cbn; (split; [|intros s [Hs|Hs]]); rewrite ?elem_of_app; auto.
  - left. right. by left.
  - right. right. by left.
Qed.

(** The slots of the drivers leave the polling alone. *)
Definition leaves_polling : Prop :=
  forall h v w, polls (run_driver h v w).2 = polls w /\
    poll_timeout_source (device (run_driver h v w).2) = poll_timeout_source (device w) /\
    poll_once (device (run_driver h v w).2) = poll_once (device w).

Lemma deliver_keeps_polling ms (w : World H Y) : leaves_polling ->
  polls (deliver run_driver ms w).2 = polls w /\
  poll_timeout_source (device (deliver run_driver ms w).2) = poll_timeout_source (device w).
Proof.
  intros Hk. pose (Q := fun w' : World H Y => polls w' = polls w /\
    poll_timeout_source (device w') = poll_timeout_source (device w)).
  assert (keeps Q (deliver run_driver ms)) as HQ; [|by apply (HQ w)].
  apply keeps_for_each. intros m. unfold deliver_one.
  apply keeps_bind; [apply keeps_gets|]. intros d.
  apply keeps_bind; [by apply keeps_modify|]. intros _. unfold SAFTd_write.
  apply keeps_bind; [apply keeps_gets|]. intros m'. destruct (map_find _ m') as [s|]; [|apply keeps_ret].
  apply keeps_try_catch; [|intros e; apply keeps_ret]. destruct s as [|h]; cbn.
  - unfold check_msi_callback, massert. apply keeps_bind; [apply keeps_if; [apply keeps_ret|apply keeps_crash]|].
    intros _. apply keeps_bind; [apply keeps_gets|]. intros d'.
    apply keeps_bind; [by apply keeps_modify|]. intros _.
    destruct (check_irq d'); [by apply keeps_modify|apply keeps_ret].
  - intros w' [H1 H2]. destruct (Hk h m.2 w') as (E1 & E2 & _). unfold Q. by rewrite E1, E2.
Qed.

(** When more MSIs are waiting than one call takes, two calls of the periodic
    poll each schedule an additional call, but the device remembers the second
    one only: its destructor leaves the first in the event loop, whose slot then
    runs on a destroyed device. *)
Theorem forgotten_poll (now1 rnd1 now2 rnd2 : Z) (w : World H Y) (x : X) (s1 s2 : bool)
    (w1 w2 : World H Y) (x1 x2 : X)
    (Hk : leaves_polling) (Hmany : (5 < length (pending x))%nat)
    (E1 : poll_msi run_driver msi_read now1 rnd1 false (w, x) = (Ret s1, (w1, x1)))
    (E2 : poll_msi run_driver msi_read now2 rnd2 false (w1, x1) = (Ret s2, (w2, x2)))
    (Hids : source_id (poll_once (device w1)) <> source_id (poll_once (device w2)) /\
            source_id (poll_once (device w1)) <> source_id (poll_timeout_source (device w))) :
  exists s, src_id s = source_id (poll_once (device w1)) /\ src_slot s = true /\
    in_loop s (polls w2) /\ in_loop s (polls (OpenDevice_destroy w2).2).
Proof.
  pose proof (run_poll_msi run_driver msi_read now1 rnd1 false w x) as H1. rewrite E1 in H1.
  destruct H1 as (new1 & ms1 & v1 & Happ1 & Hlen1 & Hend1 & Hrun1 & Hw1 & _). cbn [fst snd] in *.
  pose proof (run_poll_msi run_driver msi_read now2 rnd2 false w1 x1) as H2. rewrite E2 in H2.
  destruct H2 as (new2 & ms2 & v2 & Happ2 & Hlen2 & Hend2 & Hrun2 & Hw2 & _). cbn [fst snd] in *.
  apply (f_equal length) in Happ1 as HL1. rewrite !length_app in HL1.
  apply (f_equal length) in Happ2 as HL2. rewrite !length_app in HL2.
  assert (nonempty ms1 = true) as Hne1.
  { destruct ms1; [|done]. cbn in *. destruct Hend1 as [?|Hp]; [done|]. rewrite Hp in HL1. cbn in HL1. lia. }
  assert (nonempty ms2 = true) as Hne2.
  { destruct ms2; [|done]. cbn in *. destruct Hend2 as [?|Hp]; [done|]. rewrite Hp in HL2. cbn in HL2. lia. }
  rewrite Hne1 in Hw1. rewrite Hne2 in Hw2.
  destruct (deliver_keeps_polling ms1 w Hk) as [P1 T1]. rewrite Hrun1 in P1, T1. cbn in P1, T1.
  destruct (deliver_keeps_polling ms2 w1 Hk) as [P2 T2]. rewrite Hrun2 in P2, T2. cbn in P2, T2.
  unfold schedule in Hw1, Hw2.
  pose proof (connect_in_loop (new_timeout now1 0 0) true rnd1 (polls v1)) as C1.
  destruct (connect _ true rnd1 (polls v1)) as [h1 l1]. destruct C1 as [C1 _].
  pose proof (connect_in_loop (new_timeout now2 0 0) true rnd2 (polls v2)) as C2.
  destruct (connect _ true rnd2 (polls v2)) as [h2 l2]. destruct C2 as [_ C2].
  subst w1 w2. cbn in *. rewrite P2 in C2. specialize (C2 _ C1).
  exists (mkSource (source_id h1) (new_timeout now1 0 0) true). split_and!; [done|done|done|].
  unfold OpenDevice_destroy, on_polls, destroy_irq, release_irq, on_irqs. mrun. cbn [polls device].
  destruct Hids as [Hid1 Hid2].
  assert (in_loop (mkSource (source_id h1) (new_timeout now1 0 0) true)
    (Loop.remove h2 (Loop.remove (poll_timeout_source (device v2)) l2))) as Hin.
  { apply remove_keeps; [done|]. apply remove_keeps; [|done]. cbn. by rewrite T2, T1. }
  cbn. by destruct (check_irq (device v2)); cbn.
Qed.
End Forgotten.

(** ** Devices by name *)
Section DeviceTable.
Context {CB Y : Type} (get_devices : Y -> Devices) (put_devices : Devices -> Y -> Y).
Context (get_put : forall ds y, get_devices (put_devices ds y) = ds).
Context (has_container : bool).
Context (new_TimingReceiver : string -> string -> Z -> M (Daemon CB Y) TimingReceiver).
Context (destroy_TimingReceiver : TimingReceiver -> M (Daemon CB Y) unit).
Implicit Types (st : Daemon CB Y) (ds : Devices).

Lemma device_paths_null ds name : (name, None) ∈ ds -> device_paths ds = Crash "null TimingReceiver".
Proof.
  induction ds as [|[n [tr|]] ds IH]; intros Hin; [by apply elem_of_nil in Hin| |done].
  apply elem_of_cons in Hin as [[=]|Hin]. cbn. by rewrite IH.
Qed.

Lemma device_paths_ok ds : (forall name, (name, None) ∉ ds) ->
  exists l, device_paths ds = Ret l /\ l.*1 = ds.*1.
Proof.
  induction ds as [|[n [tr|]] ds IH]; intros Hno; [by exists []| |].
  - destruct IH as (l & E & El); [intros name Hin; apply (Hno name); by right|].
    exists ((n, tr_path tr) :: l). cbn. by rewrite E, <- El.
  - exfalso. apply (Hno n). by left.
Qed.

(** When nobody else owns a receiver, the daemon or something below them, the destructor
    takes the daemon and all its receivers out of the container, and nothing else. *)
Lemma own_objects_removed st (trs : list (string * TimingReceiver)) :
  has_container = true -> devices_of get_devices st = (fun d => (d.1, Some d.2)) <$> trs -> cont_wf (container st) ->
  removables (calling_client_id st) ((tr_path ∘ snd <$> trs) ++ [saftd_path]) (container st) ->
  exists c', remove_own_objects get_devices has_container st = (Ret tt, mkDaemon c' (clients st) (calling_client_id st) (others st)) /\
    cont_wf c' /\
    forall q, at_path c' q = if decide (q ∈ (tr_path ∘ snd <$> trs) ++ [saftd_path]) then None else at_path (container st) q.
Proof.
  intros -> Hds Hwf Hrm. destruct (remove_all _ st Hwf Hrm) as (c' & E & Hwf' & _ & Hq). exists c'. split; [|done].
  rewrite for_each_app in E. apply run_bind_inv in E as ([] & s1 & E1 & E2). cbn [for_each] in E2.
  apply run_bind_inv in E2 as ([] & s2 & E2 & E3). injection E3 as ->.
  unfold remove_own_objects, try_catch. rewrite (run_bind_ret (gets _) _ st (devices_of get_devices st) st) by done. rewrite Hds.
  rewrite (run_bind_ret _ _ st tt s1); [by rewrite E2|]. rewrite <- E1. clear. revert st. induction trs as [|[n tr] trs IH]; intros st; [done|].
  cbn [fmap list_fmap for_each fst snd]. change ((tr_path ∘ snd) (n, tr)) with (tr_path tr). unfold mbind, M_bind. destruct (remove_object (tr_path tr) st) as [[b|e|y] st']; [|done..]. apply IH.
Qed.

Lemma substring_all s : String.substring 0 (String.length s) s = s.
Proof. induction s as [|c s IH]; [done|]. cbn. by rewrite IH. Qed.

Lemma contains_own_path name : contains_path (saftd_path +:+ "/" +:+ name) = true.
Proof. reflexivity. Qed.

Lemma name_of_path name :
  let p := saftd_path +:+ "/" +:+ name in
  let from := (String.length saftd_path + 1)%nat in
  (from <= String.length p)%nat /\ String.substring from (String.length p - from) p = name.
Proof.
  intros p from. assert (String.length p = 16 + String.length name)%nat as Hp by reflexivity.
  change from with 16%nat. split; [lia|]. rewrite Hp, Nat.add_comm, Nat.add_sub.
  change (String.substring 16 (String.length name) p) with (String.substring 0 (String.length name) name).
  apply substring_all.
Qed.

(** GetTimingReceiver is documented to throw when there is no such object path.
    For a path below that of the daemon it does not: it returns a null pointer
    and leaves an entry with a null pointer for that name, after which
    getDevices (any client's list of the devices) and EbForward and RemoveDevice
    of the name end the process, and a device can no longer be attached under
    this name. *)
Theorem unknown_path_leaves_null st (name : string)
    (Hnone : map_find name (devices_of get_devices st) = None) :
  exists st', getTimingReceiver get_devices put_devices (saftd_path +:+ "/" +:+ name) st = (Ret None, st') /\
    container st' = container st /\
    (getDevices get_devices st').1 = Crash "null TimingReceiver" /\
    (EbForward get_devices name st').1 = Crash "null TimingReceiver" /\
    (RemoveDevice get_devices put_devices has_container destroy_TimingReceiver name st').1
      = Crash "null TimingReceiver" /\
    forall mk path iv,
      AttachDevice get_devices put_devices has_container new_TimingReceiver mk name path iv st'
        = (Throw (Error INVALID_ARGS "device already exists"), st').
Proof.
  unfold getTimingReceiver. rewrite contains_own_path.
  destruct (name_of_path name) as [Hlen Hsub]. cbv zeta in Hlen, Hsub |- *.
  rewrite (bool_decide_false (String.length _ < _)%nat) by lia.
  unfold throw_if. rewrite Hsub. unfold on_devices. mrun. rewrite Hnone.
  eexists. split; [reflexivity|].
  set (st' := mkDaemon _ _ _ _).
  assert (map_find name (devices_of get_devices st') = Some None) as Hnull.
  { unfold devices_of, st'. cbn. rewrite get_put. apply map_find_set_eq. }
  split_and!.
  - done.
  - cbn. unfold getDevices. cbn. eapply device_paths_null. by apply map_find_In.
  - unfold EbForward, find_device. mrun. by rewrite Hnull.
  - unfold RemoveDevice, find_device. mrun. by rewrite Hnull.
  - intros mk path iv. unfold AttachDevice, throw_if, map_mem. mrun. by rewrite Hnull.
Qed.
End DeviceTable.

(** ** Examples *)
Module SaftdDemo.

(** A driver's slot that counts what it gets. *)
Definition count_driver (h : unit) (v : Z) : M (World unit (list Z)) unit :=
  modify (fun w => mkWorld (irqs w) (device w) (polls w) (rest w ++ [v])).

Definition no_device : OpenDevice := mkOpenDevice 0x1000 0xfff None null_handle null_handle false true.
Definition loop0 : Loop bool := mkLoop [] [] false 0 7 1.
Definition w0 : World unit (list Z) := mkWorld [] no_device loop0 [].

Definition w1 : World unit (list Z) := (request_irq [5; 5; 6] 0x1000 0x1fff 0 (Driver tt) w0).2.
Definition w2 : World unit (list Z) := (request_irq [5; 9] 0x1000 0x1fff 0 (Driver tt) w1).2.
Definition irq1 : IRQ := mkIRQ 0x1004 0.
Definition irq2 : IRQ := mkIRQ 0x1008 0.

Lemma reach2 : rtc irq_step (w0, []) (w2, [(irq2, Driver tt); (irq1, Driver tt)]).
Proof.
  eapply rtc_l; [apply (step_request [5; 5; 6] 0x1000 0x1fff 0 (Driver tt) w0 [] irq1 w1); reflexivity|].
  apply rtc_once.
  apply (step_request [5; 9] 0x1000 0x1fff 0 (Driver tt) w1 [(irq1, Driver tt)] irq2 w2); reflexivity.
Qed.

Lemma irq_routing_witness :
  (SAFTd_write count_driver 0x1008 42 w2).2.(rest) = [42] /\
  SAFTd_write count_driver 0x100c 42 w2 = (Ret tt, w2).
Proof.
  destruct (irq_routing count_driver w0 w2 _ eq_refl reach2) as (_ & _ & Hrun & Hno). split.
  - pose proof (Hrun irq2 (Driver tt) 42 ltac:(by left)) as E. change (irq_key irq2) with 0x1008 in E.
    rewrite E. reflexivity.
  - apply Hno. change (keys _) with [0x1008; 0x1004].
    intros [E|[E|E]%elem_of_cons]%elem_of_cons; [discriminate|discriminate|by apply elem_of_nil in E].
Defined.

(** A queue in the hardware to which nothing is added. *)
Definition q_read (q : list (Z * Z)) : option (Z * Z * Z) * list (Z * Z) :=
  match q with
  | [] => (Some (0, 0, 0), [])
  | (a, d) :: q' => (Some (a, d, if q' is [] then 1 else 3), q')
  end.
#[local, refine] Instance q_queue : MsiQueue (list (Z * Z)) q_read := {| pending := fun q => q |}.
Proof. intros q. exists []. rewrite app_nil_r. destruct q as [|[a d] [|m q]]; cbn; done. Defined.

Definition seven : list (Z * Z) := [(4, 1); (8, 2); (4, 3); (4, 4); (8, 5); (4, 6); (8, 7)].

Lemma count_leaves_polling : leaves_polling count_driver.
Proof. done. Qed.

Definition p1 := poll_msi count_driver q_read 0 0 false (w2, seven).
Definition p2 := poll_msi count_driver q_read 1 0 false p1.2.

(** ... on a bus that fails after a number of cycles. *)
Definition flaky_read (x : list (Z * Z) * nat) : option (Z * Z * Z) * (list (Z * Z) * nat) :=
  match x.2 with
  | O => (None, (tail x.1, O))
  | S n => let '(r, q) := q_read x.1 in (r, (q, n))
  end.
#[local, refine] Instance flaky_queue : MsiQueue (list (Z * Z) * nat) flaky_read := {| pending := fst |}.
Proof.
  intros [q [|n]]; exists []; rewrite app_nil_r.
  - destruct q as [|m q]; [exists []; split; [reflexivity|cbn; lia]|]. exists [m]. split; [reflexivity|cbn; lia].
  - destruct q as [|[a d] [|m q]]; cbn; done.
Defined.

(** Five of seven, and scheduled again; on the other bus the third cycle fails. *)
Lemma poll_msi_fifo_witness :
  (exists new delivered w1',
     let '(w', x') := (poll_msi count_driver q_read 0 0 false (w2, seven)).2 in
     seven ++ new = delivered ++ x' /\ (length delivered <= 5)%nat /\
     (length delivered = 5%nat \/ x' = []) /\ deliver count_driver delivered w2 = (Ret tt, w1') /\
     (delivered <> [] -> w' = schedule 0 0 w1')) /\
  exists new delivered lost,
    let '(w', x') := (poll_msi count_driver flaky_read 0 0 false (w2, (seven, 2%nat))).2 in
    seven ++ new = delivered ++ lost ++ x'.1 /\ (length lost <= 1)%nat /\
    deliver count_driver delivered w2 = (Ret tt, w').
Proof.
  split.
  - pose proof (poll_msi_fifo count_driver q_read 0 0 false w2 seven) as H.
    assert ((poll_msi count_driver q_read 0 0 false (w2, seven)).1 = Ret true) as E by (vm_compute; reflexivity).
    revert H E. generalize (poll_msi count_driver q_read 0 0 false (w2, seven)).
    intros [r [w' x']] H E. cbn [fst snd] in E |- *. rewrite E in H.
    destruct H as (new & ms & w1' & H1 & H2 & H3 & H4 & _ & H6 & _).
    exists new, ms, w1'. split_and!; [exact H1|exact H2|exact H3|exact H4|apply H6].
  - pose proof (poll_msi_fifo count_driver flaky_read 0 0 false w2 (seven, 2%nat)) as H.
    assert ((poll_msi count_driver flaky_read 0 0 false (w2, (seven, 2%nat))).1 = Throw EtherboneError) as E
      by (vm_compute; reflexivity).
    revert H E. generalize (poll_msi count_driver flaky_read 0 0 false (w2, (seven, 2%nat))).
    intros [r [w' x']] H E. cbn [fst snd] in E |- *. rewrite E in H.
    destruct H as (_ & new & ms & lost & H1 & H2 & _ & H4).
    exists new, ms, lost. split_and!; [exact H1|exact H2|exact H4].
Defined.

Lemma forgotten_poll_witness :
  rest p2.2.1 = [1; 2; 3; 4; 5; 6; 7] /\
  exists s, src_slot s = true /\ in_loop s (polls (OpenDevice_destroy p2.2.1).2).
Proof.
  split; [vm_compute; reflexivity|].
  destruct (forgotten_poll count_driver q_read 0 0 1 0 w2 seven true true p1.2.1 p2.2.1 p1.2.2 p2.2.2
    count_leaves_polling) as (s & _ & Hs & _ & Hin).
  - vm_compute. lia.
  - vm_compute. reflexivity.
  - vm_compute. reflexivity.
  - split; vm_compute; discriminate.
  - exists s. split; [exact Hs|exact Hin].
Defined.

Definition st0 : Daemon unit Devices := mkDaemon (mkContainer [] [] [] [] 1) [] (-1) [].

Lemma unknown_path_leaves_null_witness :
  exists st', getTimingReceiver (CB := unit) (fun y => y) (fun ds _ => ds) (saftd_path +:+ "/tr1") st0 = (Ret None, st') /\
    (getDevices (fun y => y) st').1 = Crash "null TimingReceiver".
Proof.
  destruct (unknown_path_leaves_null (CB := unit) (fun y => y) (fun ds _ => ds) (fun _ _ => eq_refl) true
    (fun _ _ _ => throw EtherboneError) (fun _ => mret tt) st0 "tr1" eq_refl) as (st' & E & _ & Hg & _).
  exists st'. split; [exact E|exact Hg].
Defined.
End SaftdDemo.
