(* ===== verification/SmallDevices.v ===== *)
(** * Small devices: src/WhiteRabbit.cpp, Watchdog.cpp, Reset.cpp, TempSensor.cpp,
    LM32Cluster.cpp, BuildIdRom.cpp, and what src/TimingReceiver.cpp does with them *)
From S2P Require Import Prelude StdMap Bus Time Io InOut.
From Stdlib Require Import Ascii.
Local Open Scope Z_scope.

Section Devices.
Context {D : Type} `{Bus D}.

(** ** [WhiteRabbit]: the state of the lock, and the signal [Locked] *)
Definition WR_PPS_GEN_ESCR_MASK : Z := 0xc.
Definition WR_PPS_GEN_ESCR : Z := 0x1c.

Record WhiteRabbit := mkWhiteRabbit { locked : bool; locked_signals : list bool }.

(** [getLocked] on the device at [adr]. *)
Definition getLocked (adr : Z) : M (D * WhiteRabbit) bool := fun s =>
  let '(d, wr) := s in
  match dev_read (adr + WR_PPS_GEN_ESCR) d with
  | (Ret data, d') =>
      let newLocked := Z.land data WR_PPS_GEN_ESCR_MASK =? WR_PPS_GEN_ESCR_MASK in
      (Ret newLocked,
       (d', if Bool.eqb newLocked (locked wr) then wr
            else mkWhiteRabbit newLocked (locked_signals wr ++ [newLocked])))
  | (Throw e, d') => (Throw e, (d', wr))
  | (Crash w, d') => (Crash w, (d', wr))
  end.

(** ** [Watchdog] *)

(** [Watchdog::aquire]: the value, if the watchdog could be had. *)
Definition aquire (adr : Z) : M D (option Z) :=
  v ← dev_read adr;
  if negb (Z.land v 0xFFFF =? 0) then mret None
  else
    dev_write adr v;;
    retry ← dev_read adr;
    if negb (Z.shiftr (Z.lxor retry v) 16 =? 0) then mret None else mret (Some v).

Definition Watchdog_new (adr : Z) : M D Z :=
  o ← aquire adr;
  match o with
  | Some v => mret v
  | None => throw (RuntimeError "cannot aquire Watchdog")
  end.
Definition Watchdog_update (adr value : Z) : M D unit := dev_write adr value.

(** ** [Reset] *)
Definition FPGA_RESET_USERLM32_GET : Z := 0x0004.
Definition FPGA_RESET_USERLM32_SET : Z := 0x0008.
Definition FPGA_RESET_USERLM32_CLEAR : Z := 0x000c.
Definition FPGA_RESET_WATCHDOG_TRG : Z := 0x0010.
Definition FPGA_RESET_WATCHDOG_TRG_VALUE : Z := 0xcafebabe.

Definition WdRetrigger (adr : Z) : M D unit :=
  dev_write (adr + FPGA_RESET_WATCHDOG_TRG) FPGA_RESET_WATCHDOG_TRG_VALUE.
Definition CpuHalt (adr idx : Z) : M D unit :=
  b ← int_bit idx; dev_write (adr + FPGA_RESET_USERLM32_SET) b.
Definition CpuReset (adr idx : Z) : M D unit :=
  b ← int_bit idx; dev_write (adr + FPGA_RESET_USERLM32_CLEAR) b.
Definition CpuHaltStatus (adr : Z) : M D Z := v ← dev_read (adr + FPGA_RESET_USERLM32_GET); mret (u32 v).

(** ** [TempSensor]: the last valid temperature; [adr] is 0 without a sensor *)
Definition ALTERA_TEMP_DEGREE : Z := 0x04.
Definition getTemperatureSensorAvail (adr : Z) : bool := negb (adr =? 0).

Definition CurrentTemperature (adr : Z) : M (D * Z) Z := fun s =>
  let '(d, temperature) := s in
  if adr =? 0 then (Ret temperature, s)
  else match dev_read (adr + ALTERA_TEMP_DEGREE) d with
       | (Ret data, d') =>
           let t := if data =? 0xDEADC0DE then temperature else s32 data in (Ret t, (d', t))
       | (Throw e, d') => (Throw e, (d', temperature))
       | (Crash w, d') => (Crash w, (d', temperature))
       end.

(** ** [LM32Cluster] *)

(** The memories of the processors: first and last address. *)
Record LM32Cluster := mkLM32Cluster { num_cores : Z; dpram : list (Z * Z) }.

Definition LM32Cluster_new (adr : Z) (rams : list (Z * Z)) : M D LM32Cluster :=
  cpus ← dev_read adr;
  let n := Z.of_nat (length rams) in
  if n <? 1 then mret (mkLM32Cluster 0 [])
  else
    throw_if (negb (u32 n =? cpus)) (Error FAILED
      "number of cpus in lm32 cluster rom differs from number of number of user rams");;
    mret (mkLM32Cluster (u32 n) rams).

Definition getCpuCount (c : LM32Cluster) : Z := u32 (Z.of_nat (length (dpram c))).

(** The core with this index; [throw std::runtime_error] without one.  (The text
    of the exception goes on with the index.) *)
Definition no_core : exn := RuntimeError "there is no user cpu core with index ".
Definition core (c : LM32Cluster) (cpu_idx : Z) : M D (Z * Z) :=
  throw_if (num_cores c <=? cpu_idx) no_core;;
  match dpram c !! Z.to_nat cpu_idx with
  | Some ram => mret ram
  | None => crash "dpram_lm32_adr_first[cpu_idx]"
  end.

(** Words for the addresses from [adr] as long as they are below [last]: what
    [for (i = 0; i < n && adr < last; ++i)] writes; [next] makes the word, or
    ends the file.  The result is the writes, the address behind and whether the
    file ended. *)
Fixpoint fill_cycle {F : Type} (next : F -> option (Z * F)) (n : nat) (adr last : Z) (f : F)
    : list bus_op * Z * F * bool :=
  match n with
  | O => ([], adr, f, false)
  | S n' =>
      if adr <? last then
        match next f with
        | None => ([], adr, f, true)
        | Some (w, f') =>
            let '(ops, adr', f'', eof) := fill_cycle next n' (adr + 4) last f' in
            (BusW adr w :: ops, adr', f'', eof)
        end
      else ([], adr, f, false)
  end.

(** [while (adr < last)], a cycle of 32 words each round; [None]: [fuel] rounds
    were not enough. *)
Fixpoint fill_ram {F : Type} (next : F -> option (Z * F)) (fuel : nat) (adr last : Z) (f : F)
    : M D (option unit) :=
  if adr <? last then
    match fuel with
    | O => mret None
    | S fuel' =>
        let '(ops, adr', f', eof) := fill_cycle next 32 adr last f in
        cycle ops;;
        if (eof : bool) then mret (Some tt) else fill_ram next fuel' adr' last f'
    end
  else mret (Some tt).

(** Rounds enough: each writes at least one word. *)
Definition ram_fuel (first last : Z) : nat := S (Z.to_nat ((last - first) / 4 + 1)).

(** [SafeHaltCpu]: trap instructions everywhere, then the halt. *)
Definition jump_instruction : Z := 0xe0000000.
Definition SafeHaltCpu (reset_adr : Z) (c : LM32Cluster) (cpu_idx : Z) : M D (option unit) :=
  '(first, last) ← core c cpu_idx;
  o ← fill_ram (fun _ : unit => Some (jump_instruction, tt)) (ram_fuel first last) first last tt;
  match o with
  | None => mret None
  | Some _ => CpuHalt reset_adr cpu_idx;; mret (Some tt)
  end.

(** The next instruction of a firmware file, its bytes swapped. *)
Definition swap_bytes (instr : Z) : Z :=
  Z.lor (Z.lor (Z.lor (Z.shiftr instr 24) (Z.shiftr (Z.land 0xff0000 instr) 8))
               (u32 (Z.shiftl (Z.land 0x00ff00 instr) 8)))
        (u32 (Z.shiftl instr 24)).
Definition read_instr (bytes : list Z) : option (Z * list Z) :=
  match bytes with
  | b0 :: b1 :: b2 :: b3 :: rest =>
      Some (swap_bytes (b0 + b1 * 2 ^ 8 + b2 * 2 ^ 16 + b3 * 2 ^ 24), rest)
  | _ => None
  end.

(** [WriteFirmware]; [file] is the content, if the file could be opened. *)
Definition cannot_open : exn := RuntimeError "cannot open firmware binary file ".
Definition WriteFirmware (c : LM32Cluster) (cpu_idx : Z) (file : option (list Z)) : M D (option unit) :=
  '(first, last) ← core c cpu_idx;
  match file with
  | None => throw cannot_open
  | Some bytes => fill_ram read_instr (ram_fuel first last) first last bytes
  end.
End Devices.

(** ** [BuildIdRom] *)
Section BuildIdRom.
Local Open Scope nat_scope.
Implicit Types (s : string) (l : list Ascii.ascii).

(** Lines, as [std::getline] gives them: a last empty line is none. *)
Fixpoint lines_from (l current : list Ascii.ascii) : list (list Ascii.ascii) :=
  match l with
  | [] => if decide (current = []) then [] else [reverse current]
  | c :: l' =>
      if decide (c = "010"%char) then reverse current :: lines_from l' []
      else lines_from l' (c :: current)
  end.
Definition getlines l : list (list Ascii.ascii) := lines_from l [].

(** [line.find(c)] *)
Fixpoint find_char (c : Ascii.ascii) l : option nat :=
  match l with
  | [] => None
  | x :: l' => if decide (x = c) then Some 0 else S <$> find_char c l'
  end.

(** [line.find_last_not_of(' ', pos)]: the last index that is not behind [pos]. *)
Fixpoint last_not_space (i : nat) l : option nat :=
  match l with
  | [] => None
  | x :: l' =>
      match last_not_space (S i) l' with
      | Some j => Some j
      | None => if decide (x = " "%char) then None else Some i
      end
  end.
Definition find_last_not_space (pos : nat) l : option nat := last_not_space 0 (take (S pos) l).

(** One line: the field in it, if it is one.  With the colon first, [offset-1]
    wraps around to the end of the line. *)
Definition parse_line (line : list Ascii.ascii) : option (list Ascii.ascii * list Ascii.ascii) :=
  match line with
  | [] => None
  | c :: _ =>
      if decide (c = " "%char) then None
      else
        offset ← find_char ":"%char line;
        if decide (length line <= offset + 2) then None
        else
          tail ← find_last_not_space (if decide (offset = 0) then length line else offset - 1) line;
          Some (take (S tail) line, drop (offset + 2) line)
  end.

Definition store_line (m : list (string * string)) (line : list Ascii.ascii) : list (string * string) :=
  match parse_line line with
  | Some (k, v) => map_set (String.string_of_list_ascii k) (String.string_of_list_ascii v) m
  | None => m
  end.

Definition parse_info (text : list Ascii.ascii) : list (string * string) :=
  foldl store_line [] (getlines text).

(** [setupGatewareInfo]: 256 words, four characters each. *)
Definition word_chars (w : Z) : list Ascii.ascii :=
  (fun b : Z => Ascii.ascii_of_N (Z.to_N (Z.land b 0xff))) <$>
    [Z.shiftr w 24; Z.shiftr w 16; Z.shiftr w 8; w].

Definition setupGatewareInfo {D} `{Bus D} (address : Z) : M D (list (string * string)) :=
  words ← cycle ((fun i => BusR (address + i * 4)%Z) <$> seqZ 0 256);
  mret (parse_info (words ≫= word_chars)).

(** [getGatewareVersion]: the second entry of the map; with fewer entries the
    iterator is dereferenced at the end. *)
Definition getGatewareVersion (m : list (string * string)) : outcome string :=
  match m with
  | _ :: (_, rawVersion) :: _ =>
      match String.index 0 "-v" rawVersion with
      | Some (S pos) =>
          if decide (String.length rawVersion <= S pos + 2) then Ret "N/A"%string
          else Ret (String.substring (S pos + 2) (String.length rawVersion - (S pos + 2)) rawVersion)
      | _ => Ret "N/A"%string
      end
  | _ => Crash "j->second"
  end.
End BuildIdRom.

(** ** [TimingReceiver] *)
Section TimingReceiver.
Context {D : Type} `{Bus D}.
(** Where its devices are, the watchdog's value, and the addresses of the ECA's
    event input. *)
Context (wr_adr watchdog_adr watchdog_value reset_adr event_adr : Z).

(** [poll]: the lock, then the two watchdogs. *)
Definition TimingReceiver_poll : M (D * WhiteRabbit) bool :=
  getLocked wr_adr;;
  zoom fst (fun d s => (d, s.2)) (Watchdog_update watchdog_adr watchdog_value;; WdRetrigger reset_adr);;
  mret true.

(** [CurrentTime]: [raw] is [ReadRawCurrentTime]. *)
Definition CurrentTime (raw : M (D * WhiteRabbit) Z) (devInject : bool) : M (D * WhiteRabbit) Time :=
  s ← get;
  throw_if (negb devInject && negb (locked s.2)) (Error IO_ERROR "TimingReceiver is not Locked");;
  t ← raw; mret (makeTimeTAI t).

Definition InjectEvent (ev param : Z) (time : Time) : M D unit :=
  InjectEventRaw event_adr ev param (getTAI time).
End TimingReceiver.
