(* ===== verification/SmallDevicesCorrect.v ===== *)
(** * Small devices: loading firmware, reading the build information *)
From S2P Require Import Prelude StdMap Bus Time Io InOut SmallDevices.
From Stdlib Require Import Ascii.
From stdpp Require Import gmap.
Local Open Scope Z_scope.

(** ** Memory that is written word by word *)

(** What the code relies on: a cycle of writes leaves the written words in the
    memory. *)
Definition mem_write (m : Z -> Z) (op : bus_op) : Z -> Z :=
  match op with
  | BusW a v => fun x => if x =? a then u32 v else m x
  | BusR _ => m
  end.

Class MemDevice (D : Type) `{Bus D} := {
  mem : D -> Z -> Z;
  mem_cycle : forall ops d rs d',
    bus_cycle ops d = Some (rs, d') -> forall x, mem d' x = foldl mem_write (mem d) ops x
}.

(** Consecutive words. *)
Fixpoint words_at (adr : Z) (ws : list Z) : list bus_op :=
  match ws with
  | [] => []
  | w :: ws' => BusW adr w :: words_at (adr + 4) ws'
  end.

Lemma words_at_app adr ws ws' :
  words_at adr (ws ++ ws') = words_at adr ws ++ words_at (adr + 4 * Z.of_nat (length ws)) ws'.
Proof.
  revert adr. induction ws as [|w ws IH]; intros adr; cbn [app words_at length].
  - f_equal. lia.
  - rewrite IH. cbn. do 3 f_equal. lia.
Qed.

Lemma foldl_mem_write_below ops m x :
  (forall a v, BusW a v ∈ ops -> a <> x) -> foldl mem_write m ops x = m x.
Proof.
  revert m. induction ops as [|[a v|a] ops IH]; intros m Hx; cbn; [done| |].
  - rewrite IH by (intros a' v' Hin; eapply Hx; by right). cbn.
    rewrite (proj2 (Z.eqb_neq x a)); [done|]. intros ->. by eapply (Hx a v); [left|].
  - apply IH. intros a' v' Hin. eapply Hx. by right.
Qed.

Lemma words_at_elem adr ws a v :
  BusW a v ∈ words_at adr ws -> exists k, (k < length ws)%nat /\ a = adr + 4 * Z.of_nat k.
Proof.
  revert adr. induction ws as [|w ws IH]; intros adr Hin; cbn in Hin; [by apply elem_of_nil in Hin|].
  apply elem_of_cons in Hin as [[= -> ->]|Hin]; [exists 0%nat; cbn; lia|].
  apply IH in Hin as (k & Hk & ->). exists (S k). cbn. lia.
Qed.

Lemma foldl_words_at adr ws m x :
  foldl mem_write m (words_at adr ws) x =
    if bool_decide (adr <= x /\ (x - adr) `mod` 4 = 0 /\ (x - adr) / 4 < Z.of_nat (length ws))
    then u32 (default 0 (ws !! Z.to_nat ((x - adr) / 4))) else m x.
Proof.
  revert adr m. induction ws as [|w ws IH]; intros adr m; cbn [words_at foldl length].
  - rewrite bool_decide_false by (intros (? & ? & ?); Z.div_mod_to_equations; lia). done.
  - rewrite IH. case_bool_decide as Hin.
    + destruct Hin as (H1 & H2 & H3).
      rewrite bool_decide_true by (Z.div_mod_to_equations; lia).
      assert (Z.to_nat ((x - adr) / 4) = S (Z.to_nat ((x - (adr + 4)) / 4))) as -> by (Z.div_mod_to_equations; lia).
      done.
    + cbn. destruct (Z.eqb_spec x adr) as [->|Hne].
      * rewrite bool_decide_true by (rewrite Z.sub_diag, Zmod_0_l, Zdiv_0_l; lia). by rewrite Z.sub_diag, Zdiv_0_l.
      * rewrite bool_decide_false; [done|]. intros (H1 & H2 & H3). apply Hin. Z.div_mod_to_equations; lia.
Qed.

(** ** Filling a memory *)
Section Fill.
Context {F : Type} (next : F -> option (Z * F)).

(** The words that [next] makes, at most [n]. *)
Fixpoint take_words (n : nat) (f : F) : list Z :=
  match n with
  | O => []
  | S n' => match next f with None => [] | Some (w, f') => w :: take_words n' f' end
  end.

(** The words for the addresses from [adr] to before [last]. *)
Definition room (adr last : Z) : nat := Z.to_nat ((last - adr + 3) / 4).

Lemma room_0 adr last : (adr <? last) = false -> room adr last = O.
Proof. intros Hl%Z.ltb_ge. unfold room. Z.div_mod_to_equations. lia. Qed.
Lemma room_S adr last : (adr <? last) = true -> room adr last = S (room (adr + 4) last).
Proof. intros Hl%Z.ltb_lt. unfold room. Z.div_mod_to_equations. lia. Qed.

(** A cycle writes the next words; unless the file ended the rest follows. *)
Lemma fill_cycle_words n adr last f :
  let '(ops, adr', f', eof) := fill_cycle next n adr last f in
  exists ws, ops = words_at adr ws /\ adr' = adr + 4 * Z.of_nat (length ws) /\
    (if eof : bool then ws = take_words (room adr last) f
     else length ws = Nat.min n (room adr last) /\
          room adr' last = (room adr last - length ws)%nat /\
          take_words (room adr last) f = ws ++ take_words (room adr' last) f').
Proof.
  revert adr f. induction n as [|n IH]; intros adr f; cbn [fill_cycle].
  - exists []. cbn. rewrite Z.add_0_r, Nat.sub_0_r. done.
  - destruct (adr <? last) eqn:El.
    2: { exists []. cbn. rewrite Z.add_0_r, (room_0 _ _ El). done. }
    destruct (next f) as [[w f1]|] eqn:En.
    2: { exists []. cbn. rewrite Z.add_0_r, (room_S _ _ El). cbn. by rewrite En. }
    specialize (IH (adr + 4) f1). destruct (fill_cycle next n (adr + 4) last f1) as [[[ops adr'] f'] eof].
    destruct IH as (ws & -> & -> & Hrest). exists (w :: ws). rewrite (room_S _ _ El). cbn [words_at length take_words].
    rewrite En. split; [done|]. split; [lia|]. destruct eof; [by rewrite Hrest|].
    destruct Hrest as (Hlen & Hroom & ->). split_and!.
    + lia.
    + replace (adr + 4 * Z.of_nat (S (length ws))) with (adr + 4 + 4 * Z.of_nat (length ws)) by lia. lia.
    + cbn. by replace (adr + 4 * Z.of_nat (S (length ws))) with (adr + 4 + 4 * Z.of_nat (length ws)) by lia.
Qed.

Context {D : Type} `{HB : Bus D, !MemDevice D}.

Lemma run_fill_ram fuel adr last f (d : D) : (room adr last <= fuel)%nat ->
  match fill_ram next fuel adr last f d with
  | (Ret o, d') => o = Some tt /\
      forall x, mem d' x = foldl mem_write (mem d) (words_at adr (take_words (room adr last) f)) x
  | (Throw e, _) => e = EtherboneError
  | (Crash _, _) => False
  end.
Proof.
  revert adr f d. induction fuel as [|fuel IH]; intros adr f d Hfuel; cbn [fill_ram].
  - destruct (adr <? last) eqn:El; [rewrite (room_S _ _ El) in Hfuel; lia|].
    split; [done|]. by rewrite (room_0 _ _ El).
  - destruct (adr <? last) eqn:El.
    2: { split; [done|]. by rewrite (room_0 _ _ El). }
    pose proof (fill_cycle_words 32 adr last f) as Hc.
    destruct (fill_cycle next 32 adr last f) as [[[ops adr'] f'] eof].
    destruct Hc as (ws & -> & -> & Hrest).
    unfold cycle. unfold mbind at 1, M_bind at 1.
    destruct (bus_cycle (words_at adr ws) d) as [[rs d1]|] eqn:E; [|done].
    pose proof (mem_cycle _ _ _ _ E) as Hmem.
    destruct eof.
    + split; [done|]. intros x. by rewrite Hmem, Hrest.
    + destruct Hrest as (Hlen & Hroom & Hws).
      assert (room adr last = S (room (adr + 4) last)) as Hr by (by apply room_S).
      specialize (IH (adr + 4 * Z.of_nat (length ws)) f' d1 ltac:(lia)).
      destruct (fill_ram next fuel (adr + 4 * Z.of_nat (length ws)) last f' d1) as [[o|e|w] d']; [|done|done].
      destruct IH as [-> IH]. split; [done|]. intros x. rewrite IH, Hws, words_at_app, foldl_app.
      clear -Hmem. revert x. generalize (words_at (adr + 4 * Z.of_nat (length ws))
        (take_words (room (adr + 4 * Z.of_nat (length ws)) last) f')) as ops.
      intros ops. revert Hmem. generalize (mem d1) as m1. generalize (foldl mem_write (mem d) (words_at adr ws)) as m2.
      induction ops as [|op ops IH]; intros m2 m1 Hm x; cbn; [apply Hm|]. apply IH.
      intros y. destruct op; cbn; [|apply Hm]. destruct (y =? address); [done|apply Hm].
Qed.
End Fill.

(** ** Loading firmware *)

(** The big-endian word of four bytes of a file. *)
Definition be_word (bytes : list Z) (k : nat) : Z :=
  let b i := default 0 (bytes !! (4 * k + i)%nat) in
  b 0%nat * 2 ^ 24 + b 1%nat * 2 ^ 16 + b 2%nat * 2 ^ 8 + b 3%nat.

Definition is_byte (b : Z) : Prop := 0 <= b < 256.

Lemma swap_bytes_be b0 b1 b2 b3 : is_byte b0 -> is_byte b1 -> is_byte b2 -> is_byte b3 ->
  swap_bytes (b0 + b1 * 2 ^ 8 + b2 * 2 ^ 16 + b3 * 2 ^ 24) = b0 * 2 ^ 24 + b1 * 2 ^ 16 + b2 * 2 ^ 8 + b3.
Proof.
  unfold is_byte. intros H0 H1 H2 H3. unfold swap_bytes.
  set (x := b0 + b1 * 2 ^ 8 + b2 * 2 ^ 16 + b3 * 2 ^ 24).
  assert (Z.shiftr x 24 = b3) as ->.
  { rewrite Z.shiftr_div_pow2 by lia. unfold x. Z.div_mod_to_equations. lia. }
  assert (Z.shiftr (Z.land 0xff0000 x) 8 = b2 * 2 ^ 8) as ->.
  { change 0xff0000 with (Z.shiftl (Z.ones 8) 16). rewrite Z.land_comm.
    replace (Z.land x (Z.shiftl (Z.ones 8) 16)) with (Z.shiftl (Z.land (Z.shiftr x 16) (Z.ones 8)) 16).
    - rewrite Z.land_ones, Z.shiftl_mul_pow2, !Z.shiftr_div_pow2 by lia. unfold x. Z.div_mod_to_equations. lia.
    - apply Z.bits_inj'. intros i Hi. rewrite Z.land_spec. destruct (Z.lt_ge_cases i 16).
      + rewrite !Z.shiftl_spec_low by lia. by rewrite andb_false_r.
      + rewrite !Z.shiftl_spec, Z.land_spec, Z.shiftr_spec by lia. by replace (i - 16 + 16) with i by lia. }
  assert (u32 (Z.shiftl (Z.land 0x00ff00 x) 8) = b1 * 2 ^ 16) as ->.
  { change 0x00ff00 with (Z.shiftl (Z.ones 8) 8). rewrite Z.land_comm.
    replace (Z.land x (Z.shiftl (Z.ones 8) 8)) with (Z.shiftl (Z.land (Z.shiftr x 8) (Z.ones 8)) 8).
    - rewrite Z.land_ones, !Z.shiftl_mul_pow2, !Z.shiftr_div_pow2 by lia. unfold x, unsigned_wrap.
      Z.div_mod_to_equations. lia.
    - apply Z.bits_inj'. intros i Hi. rewrite Z.land_spec. destruct (Z.lt_ge_cases i 8).
      + rewrite !Z.shiftl_spec_low by lia. by rewrite andb_false_r.
      + rewrite !Z.shiftl_spec, Z.land_spec, Z.shiftr_spec by lia. by replace (i - 8 + 8) with i by lia. }
  assert (u32 (Z.shiftl x 24) = b0 * 2 ^ 24) as ->.
  { rewrite Z.shiftl_mul_pow2 by lia. unfold x, unsigned_wrap. Z.div_mod_to_equations. lia. }
  rewrite (Z.lor_comm b3), <- !Z.shiftl_mul_pow2 by lia.
  rewrite (lor_shiftl_low b2 b3 8) by lia. rewrite (Z.lor_comm _ (Z.shiftl b1 16)).
  rewrite (lor_shiftl_low b1 _ 16) by (change (2 ^ 16) with 65536; lia).
  rewrite Z.lor_comm, (lor_shiftl_low b0 _ 24) by (change (2 ^ 24) with 16777216; lia).
  rewrite !Z.shiftl_mul_pow2 by lia. lia.
Qed.

Lemma be_word_shift b0 b1 b2 b3 rest k : be_word (b0 :: b1 :: b2 :: b3 :: rest) (S k) = be_word rest k.
Proof.
  unfold be_word. assert (forall i, (b0 :: b1 :: b2 :: b3 :: rest) !! (4 * S k + i)%nat = rest !! (4 * k + i)%nat) as E.
  { intros i. by replace (4 * S k + i)%nat with (S (S (S (S (4 * k + i))))) by lia. }
  cbv zeta. by rewrite !E.
Qed.

Lemma be_word_range bytes k : Forall is_byte bytes -> 0 <= be_word bytes k < 2 ^ 32.
Proof.
  intros Hb. assert (forall i, is_byte (default 0 (bytes !! i))) as Hd.
  { intros i. destruct (bytes !! i) as [b|] eqn:E; cbn; [by eapply Forall_lookup_1|]. unfold is_byte. lia. }
  unfold be_word. cbv zeta. unfold is_byte in Hd.
  pose proof (Hd (4 * k + 0)%nat). pose proof (Hd (4 * k + 1)%nat).
  pose proof (Hd (4 * k + 2)%nat). pose proof (Hd (4 * k + 3)%nat).
  change (2 ^ 32) with 4294967296. change (2 ^ 24) with 16777216. change (2 ^ 16) with 65536. change (2 ^ 8) with 256. lia.
Qed.

(** The words of a file: an incomplete one at the end is none. *)
Lemma take_words_file n bytes k : Forall is_byte bytes ->
  take_words read_instr n bytes !! k =
    if bool_decide (k < n /\ 4 * k + 3 < length bytes)%nat then Some (be_word bytes k) else None.
Proof.
  intros Hb. revert bytes k Hb. induction n as [|n IH]; intros bytes k Hb.
  - cbn. rewrite bool_decide_false by lia. done.
  - cbn [take_words].
    destruct bytes as [|b0 [|b1 [|b2 [|b3 rest]]]]; cbn [read_instr];
      try (rewrite bool_decide_false by (cbn; lia); done).
    rewrite !Forall_cons in Hb. destruct Hb as (H0 & H1 & H2 & H3 & Hb).
    rewrite swap_bytes_be by done. destruct k as [|k].
    + rewrite bool_decide_true by (cbn; lia). done.
    + cbn [lookup list_lookup]. rewrite IH by done. rewrite be_word_shift. cbn [length].
      repeat case_bool_decide; try done; exfalso; lia.
Qed.

Lemma take_words_file_length n bytes : Forall is_byte bytes ->
  forall k, (k < length (take_words read_instr n bytes))%nat <-> (k < n /\ 4 * k + 3 < length bytes)%nat.
Proof.
  intros Hb k. rewrite <- lookup_lt_is_Some, take_words_file by done.
  case_bool_decide; split; intros Hx; [done|by eexists|by destruct Hx|done].
Qed.

Lemma ram_fuel_enough first last : (room first last <= ram_fuel first last)%nat.
Proof. unfold room, ram_fuel. Z.div_mod_to_equations. lia. Qed.

Section Firmware.
Context {D : Type} `{HB : Bus D, !MemDevice D}.

Definition word_loaded (first last : Z) (bytes : list Z) (k : nat) : Prop :=
  (4 * k + 3 < length bytes)%nat /\ first + 4 * Z.of_nat k < last.

(** C25: WriteFirmware ends, and loads the file: afterwards the memory of the core has at
    its k-th word the k-th four bytes of the file, in the processor's byte order,
    as far as both file and memory go; every other word of the memory is as
    before.  Only the bus can make it fail. *)
Theorem firmware_loaded (c : LM32Cluster) (cpu_idx first last : Z) (bytes : list Z) (d : D)
    (Hcore : 0 <= cpu_idx < num_cores c) (Hram : dpram c !! Z.to_nat cpu_idx = Some (first, last))
    (Hbytes : Forall is_byte bytes) :
  match WriteFirmware c cpu_idx (Some bytes) d with
  | (Ret o, d') =>
      o = Some tt /\
      (forall k, word_loaded first last bytes k -> mem d' (first + 4 * Z.of_nat k) = be_word bytes k) /\
      (forall x, (forall k, word_loaded first last bytes k -> x <> first + 4 * Z.of_nat k) -> mem d' x = mem d x)
  | (Throw e, _) => e = EtherboneError
  | (Crash _, _) => False
  end.
Proof.
  unfold WriteFirmware, core, throw_if. rewrite (proj2 (Z.leb_gt _ _)) by lia. mrun. rewrite Hram.
  pose proof (run_fill_ram read_instr (ram_fuel first last) first last bytes d (ram_fuel_enough _ _)) as Hr.
  destruct (fill_ram read_instr (ram_fuel first last) first last bytes d) as [[o|e|w] d']; [|done|done].
  destruct Hr as [-> Hmem]. split; [done|].
  assert (forall k, word_loaded first last bytes k <->
    (k < length (take_words read_instr (room first last) bytes))%nat) as Hk.
  { intros k. rewrite take_words_file_length by done. unfold word_loaded, room. Z.div_mod_to_equations. lia. }
  split.
  - intros k Hw. rewrite Hmem, foldl_words_at.
    assert ((first + 4 * Z.of_nat k - first) = Z.of_nat k * 4) as -> by lia.
    rewrite Z.mod_mul, Z.div_mul by lia. pose proof (proj1 (Hk k) Hw) as Hlt.
    rewrite bool_decide_true by lia. rewrite Nat2Z.id.
    rewrite take_words_file by done.
    rewrite bool_decide_true by (by apply take_words_file_length). cbn.
    apply unsigned_wrap_small. by apply be_word_range.
  - intros x Hx. rewrite Hmem. apply foldl_mem_write_below.
    intros a v Hin. apply words_at_elem in Hin as (k & Hlt & ->). intros E. apply (Hx k); [by apply Hk|done].
Qed.

(** [SafeHaltCpu] overwrites the whole memory with traps before it halts the
    core. *)
Lemma SafeHaltCpu_traps (reset_adr : Z) (c : LM32Cluster) (cpu_idx first last : Z) (d : D) :
  0 <= cpu_idx < num_cores c -> cpu_idx < 32 -> dpram c !! Z.to_nat cpu_idx = Some (first, last) ->
  (forall k, reset_adr + FPGA_RESET_USERLM32_SET <> first + 4 * Z.of_nat k) ->
  match SafeHaltCpu reset_adr c cpu_idx d with
  | (Ret o, d') => o = Some tt /\
      forall k, first + 4 * Z.of_nat k < last -> mem d' (first + 4 * Z.of_nat k) = jump_instruction
  | (Throw e, _) => e = EtherboneError
  | (Crash _, _) => False
  end.
Proof.
  intros Hcore H32 Hram Hapart. unfold SafeHaltCpu, core, throw_if.
  rewrite (proj2 (Z.leb_gt _ _)) by lia. mrun. rewrite Hram.
  set (next := fun _ : unit => Some (jump_instruction, tt)).
  pose proof (run_fill_ram next (ram_fuel first last) first last tt d (ram_fuel_enough _ _)) as Hr.
  destruct (fill_ram next (ram_fuel first last) first last tt d) as [[o|e|w] d1]; [|done|done].
  destruct Hr as [-> Hmem]. unfold CpuHalt, int_bit, dev_write, cycle. rewrite (proj2 (Z.ltb_lt _ _) H32). mrun.
  destruct (bus_cycle _ d1) as [[rs d']|] eqn:E; [|done]. split; [done|]. intros k Hk.
  rewrite (mem_cycle _ _ _ _ E). cbn. rewrite (proj2 (Z.eqb_neq _ _)) by (intros Ex; by apply (Hapart k)).
  rewrite Hmem, foldl_words_at.
  assert (forall n f, take_words next n f = replicate n jump_instruction) as ->.
  { intros n. induction n as [|n IH]; intros f; [done|]. cbn. by rewrite IH. }
  assert ((first + 4 * Z.of_nat k - first) = Z.of_nat k * 4) as -> by lia.
  rewrite Z.mod_mul, Z.div_mul, length_replicate by lia.
  assert (k < room first last)%nat by (unfold room; Z.div_mod_to_equations; lia).
  rewrite bool_decide_true by lia. rewrite Nat2Z.id, lookup_replicate_2 by done. reflexivity.
Qed.
End Firmware.

(** ** The build information *)
Section Info.
Local Open Scope nat_scope.
Local Abbreviation text := (list ascii).
Local Abbreviation newline := ("010"%char).

(** A line of the ROM: a field, whose key is filled up with spaces, or a line
    that is to be skipped (empty, part of the history, or without a colon). *)
Inductive rom_line :=
  | Field (key : text) (pad : nat) (value : text)
  | Skipped (line : text).

Definition print_line (l : rom_line) : text :=
  match l with
  | Field key pad value => key ++ replicate pad " "%char ++ ":"%char :: " "%char :: value
  | Skipped line => line
  end.

Definition line_wf (l : rom_line) : Prop :=
  match l with
  | Field key pad value =>
      (exists c key', key = c :: key' /\ c <> " "%char) /\ (exists c key', key = key' ++ [c] /\ c <> " "%char) /\
      (":"%char ∉ key) /\ (newline ∉ key) /\ value <> [] /\ (newline ∉ value)
  | Skipped line =>
      (newline ∉ line) /\ (line = [] \/ (exists rest, line = " "%char :: rest) \/ (":"%char ∉ line))
  end.

Definition print_rom (ls : list rom_line) : text := ls ≫= (fun l => print_line l ++ [newline]).

Lemma find_char_app c l l' : c ∉ l -> find_char c (l ++ c :: l') = Some (length l).
Proof.
  induction l as [|x l IH]; intros Hc; cbn; [by rewrite decide_True|].
  apply not_elem_of_cons in Hc as [Hx Hc]. rewrite decide_False by congruence. by rewrite IH.
Qed.
Lemma find_char_none c l : c ∉ l -> find_char c l = None.
Proof.
  induction l as [|x l IH]; intros Hc; cbn; [done|].
  apply not_elem_of_cons in Hc as [Hx Hc]. rewrite decide_False by congruence. by rewrite IH.
Qed.

Lemma last_not_space_spaces i n : last_not_space i (replicate n " "%char) = None.
Proof. revert i. induction n as [|n IH]; intros i; cbn; [done|]. by rewrite IH. Qed.

Lemma last_not_space_app i l c n : c <> " "%char ->
  last_not_space i (l ++ c :: replicate n " "%char) = Some (i + length l).
Proof.
  intros Hc. revert i. induction l as [|x l IH]; intros i; cbn.
  - rewrite last_not_space_spaces, decide_False by done. f_equal. lia.
  - rewrite IH. f_equal. lia.
Qed.

Lemma parse_field key pad value : line_wf (Field key pad value) ->
  parse_line (print_line (Field key pad value)) = Some (key, value).
Proof.
  intros ((c & k1 & Hk & Hc) & (e & k2 & Hk2 & He) & Hcol & _ & Hv & _).
  unfold parse_line, print_line. rewrite Hk at 1. cbn [app]. rewrite decide_False by done.
  set (line := key ++ replicate pad " "%char ++ ":"%char :: " "%char :: value).
  assert (find_char ":"%char line = Some (length key + pad)) as ->.
  { unfold line. rewrite app_assoc, find_char_app; [by rewrite length_app, length_replicate|].
    rewrite elem_of_app. intros [Hin|Hin]; [done|]. apply elem_of_replicate in Hin as [[=] _]. }
  cbn [mbind option_bind].
  assert (length line = length key + pad + 2 + length value) as Hlen.
  { unfold line. rewrite !length_app, length_replicate. cbn. lia. }
  assert (0 < length value) by (destruct value; [done|cbn; lia]).
  assert (0 < length key) by (rewrite Hk; cbn; lia).
  rewrite decide_False by lia. rewrite decide_False by lia.
  assert (find_last_not_space (length key + pad - 1) line = Some (length key - 1)) as ->.
  { unfold find_last_not_space. replace (S (length key + pad - 1)) with (length (key ++ replicate pad " "%char)).
    2: { rewrite length_app, length_replicate. lia. }
    unfold line. rewrite app_assoc, take_app_length. rewrite Hk2, <- app_assoc. cbn [app].
    rewrite last_not_space_app by done. f_equal. rewrite length_app. cbn. lia. }
  cbn. replace (S (length key - 1)) with (length key) by lia. unfold line. rewrite take_app_length.
  f_equal. f_equal. rewrite app_assoc, drop_app_ge by (rewrite length_app, length_replicate; lia).
  rewrite length_app, length_replicate. replace (length key + pad + 2 - (length key + pad)) with 2 by lia. done.
Qed.

Lemma parse_skipped line : line_wf (Skipped line) -> parse_line line = None.
Proof.
  intros [_ [->|[[rest ->]|Hc]]]; [done|done|]. unfold parse_line. destruct line as [|c line]; [done|].
  destruct (decide _); [done|]. by rewrite find_char_none.
Qed.

Lemma lines_from_line l rest current : newline ∉ l ->
  lines_from (l ++ newline :: rest) current = (reverse current ++ l) :: lines_from rest [].
Proof.
  revert current. induction l as [|c l IH]; intros current Hn; cbn.
  - by rewrite app_nil_r.
  - apply not_elem_of_cons in Hn as [Hc Hn]. rewrite decide_False by congruence. rewrite IH by done.
    rewrite reverse_cons, <- app_assoc. done.
Qed.

Lemma getlines_rom ls : Forall line_wf ls -> getlines (print_rom ls) = print_line <$> ls.
Proof.
  unfold getlines. induction 1 as [|l ls Hl Hls IH]; [done|]. unfold print_rom in *. cbn [mbind list_bind].
  rewrite <- app_assoc. cbn [app]. rewrite lines_from_line; [cbn; by rewrite IH|].
  destruct l as [key pad value|line]; cbn in *; [|by destruct Hl].
  destruct Hl as (_ & _ & _ & Hk & _ & Hv). rewrite !elem_of_app, !elem_of_cons. intros [|[Hin|[|[|]]]]; try done.
  by apply elem_of_replicate in Hin as [].
Qed.

(** What the ROM says. *)
Definition fields (ls : list rom_line) : list (string * string) :=
  omap (fun l => match l with
                 | Field key _ value => Some (String.string_of_list_ascii key, String.string_of_list_ascii value)
                 | Skipped _ => None
                 end) ls.

Lemma parse_rom ls : Forall line_wf ls ->
  parse_info (print_rom ls) = foldl (fun m kv => map_set kv.1 kv.2 m) [] (fields ls).
Proof.
  intros Hls. unfold parse_info. rewrite getlines_rom by done. generalize (@nil (string * string)).
  induction Hls as [|l ls Hl Hls IH]; intros m; [done|]. cbn [fmap list_fmap foldl]. rewrite IH.
  unfold store_line. destruct l as [key pad value|line].
  - rewrite parse_field by done. done.
  - cbn [print_line]. by rewrite parse_skipped.
Qed.

Lemma foldl_set_find (kvs m : list (string * string)) k v :
  NoDup kvs.*1 -> (k, v) ∈ kvs -> map_find k (foldl (fun m kv => map_set kv.1 kv.2 m) m kvs) = Some v.
Proof.
  revert m. induction kvs as [|[k0 v0] kvs IH]; intros m Hn Hin; [by apply elem_of_nil in Hin|].
  cbn in Hn. apply NoDup_cons in Hn as [Hk0 Hn]. cbn [foldl].
  apply elem_of_cons in Hin as [[= <- <-]|Hin]; [|by apply IH].
  clear IH. assert (forall m', map_find k m' = Some v ->
    map_find k (foldl (fun m kv => map_set kv.1 kv.2 m) m' kvs) = Some v) as Hkeep.
  { clear m Hn. induction kvs as [|[k1 v1] kvs IH]; intros m' Hm; [done|]. cbn. cbn in Hk0.
    apply not_elem_of_cons in Hk0 as [Hne Hk0]. apply IH; [done|]. by rewrite map_find_set_ne. }
  apply Hkeep. apply map_find_set_eq.
Qed.

(** The build information is read as it was written: if the 256 words of the ROM hold
    lines of the form "key : value", the key filled up with spaces, among lines
    that are empty, begin with a space or have no colon, then the map has exactly
    these fields, and every key of theirs is found with its value. *)
Theorem gateware_info_roundtrip {D} `{Bus D} (address : Z) (d d' : D) (words : list Z) (ls : list rom_line)
    (E : bus_cycle ((fun i => BusR (address + i * 4)%Z) <$> seqZ 0 256) d = Some (words, d'))
    (Htext : words ≫= word_chars = print_rom ls) (Hls : Forall line_wf ls) (Hkeys : NoDup (fields ls).*1) :
  exists m, setupGatewareInfo address d = (Ret m, d') /\
    m = foldl (fun m kv => map_set kv.1 kv.2 m) [] (fields ls) /\
    forall k v, (k, v) ∈ fields ls -> map_find k m = Some v.
Proof.
  eexists. split; [|split; [reflexivity|]].
  - unfold setupGatewareInfo, cycle. unfold mbind at 1, M_bind at 1. rewrite E. cbn. by rewrite Htext, parse_rom.
  - intros k v Hin. by apply foldl_set_find.
Qed.
End Info.

(** ** Examples *)
Module SmallDevicesDemo.

#[export, refine] Instance ram_mem_device : MemDevice ram :=
  {| mem := fun d x => u32 (default 0 (ram_mem d !! x)) |}.
Proof.
  intros ops d rs d'. unfold bus_cycle, ram_bus. intros [= E]. revert E.
  assert (forall rs0 d0 m, (forall x, u32 (default 0 (ram_mem d0 !! x)) = m x) ->
    foldl (fun s op => ram_step op s) (rs0, d0) ops = (rs, d') ->
    forall x, u32 (default 0 (ram_mem d' !! x)) = foldl mem_write m ops x) as Hgen.
  { induction ops as [|[a v|a] ops IH]; intros rs0 d0 m Hm E x; cbn in *.
    - injection E as <- <-. apply Hm.
    - eapply IH; [|exact E]. intros y. cbn. destruct (Z.eqb_spec y a) as [->|Hne].
      + rewrite lookup_insert_eq. cbn. apply unsigned_wrap_idemp.
      + rewrite lookup_insert_ne by done. apply Hm.
    - eapply IH; [|exact E]. exact Hm. }
  intros E. by apply (Hgen [] d).
Defined.

Definition cluster : LM32Cluster := mkLM32Cluster 1 [(0x1000, 0x100b)].
Definition file : list Z := [1; 2; 3; 4; 5; 6; 7; 8; 9].

Lemma firmware_loaded_witness :
  exists d', WriteFirmware cluster 0 (Some file) ram0 = (Ret (Some tt), d') /\
    mem d' 0x1004 = 0x05060708 /\ mem d' 0x1008 = mem ram0 0x1008.
Proof.
  pose proof (firmware_loaded cluster 0 0x1000 0x100b file ram0) as H.
  destruct (WriteFirmware cluster 0 (Some file) ram0) as [[o|e|w] d'] eqn:E.
  - destruct H as (-> & Hw & Hother); [cbn; lia|reflexivity| |].
    { repeat constructor; unfold is_byte; lia. }
    exists d'. split; [reflexivity|]. split.
    + apply (Hw 1%nat). unfold word_loaded. cbn. lia.
    + apply Hother. intros k [Hk _]. cbn in Hk. lia.
  - vm_compute in E. discriminate.
  - vm_compute in E. discriminate.
Defined.

Definition chars : string -> list ascii := String.list_ascii_of_string.
Definition rom : list rom_line :=
  [Field (chars "Project") 5 (chars "pci_control"); Skipped [];
   Field (chars "Build type") 2 (chars "doomsday-v6.2.1");
   Skipped (chars "  a1b2c3 history: not a field"); Skipped (replicate 936 " "%char)].
Definition pack (l : list ascii) : Z :=
  foldl (fun acc c => acc * 256 + Z.of_N (N_of_ascii c)) 0 l.
Fixpoint pack_words (n : nat) (l : list ascii) : list Z :=
  match n with O => [] | S n' => pack (take 4 l) :: pack_words n' (drop 4 l) end.
Definition rom_words : list Z := pack_words 256 (print_rom rom).

#[local] Instance rom_bus : Bus unit := fun ops d => Some (take (length ops) rom_words, d).

Ltac not_in := match goal with |- ?c ∉ ?l => apply (bool_decide_unpack (c ∉ l)); vm_compute; exact I end.

Lemma field1_wf : line_wf (Field (chars "Project") 5 (chars "pci_control")).
Proof.
  split; [exists "P"%char; eexists; split; [reflexivity|discriminate]|].
  split; [exists "t"%char, (chars "Projec"); split; [reflexivity|discriminate]|].
  split; [not_in|]. split; [not_in|]. split; [discriminate|not_in].
Qed.
Lemma field2_wf : line_wf (Field (chars "Build type") 2 (chars "doomsday-v6.2.1")).
Proof.
  split; [exists "B"%char; eexists; split; [reflexivity|discriminate]|].
  split; [exists "e"%char, (chars "Build typ"); split; [reflexivity|discriminate]|].
  split; [not_in|]. split; [not_in|]. split; [discriminate|not_in].
Qed.
Lemma history_wf : line_wf (Skipped (chars "  a1b2c3 history: not a field")).
Proof. split; [not_in|]. right. left. eexists. reflexivity. Qed.
Lemma padding_wf : line_wf (Skipped (replicate 936 " "%char)).
Proof. split; [not_in|]. right. left. eexists. reflexivity. Qed.
Lemma empty_wf : line_wf (Skipped []).
Proof. split; [apply not_elem_of_nil|by left]. Qed.

Lemma rom_wf : Forall line_wf rom.
Proof.
  constructor; [apply field1_wf|]. constructor; [apply empty_wf|]. constructor; [apply field2_wf|].
  constructor; [apply history_wf|]. constructor; [apply padding_wf|]. constructor.
Qed.

Lemma gateware_info_roundtrip_witness :
  exists m, setupGatewareInfo 0 tt = (Ret m, tt) /\
    map_find "Build type"%string m = Some "doomsday-v6.2.1"%string /\ getGatewareVersion m = Ret "N/A"%string.
Proof.
  destruct (gateware_info_roundtrip 0 tt tt rom_words rom) as (m & E & Em & Hm).
  - reflexivity.
  - vm_compute. reflexivity.
  - apply rom_wf.
  - apply (bool_decide_unpack _). vm_compute. exact I.
  - exists m. split; [exact E|]. split.
    + apply Hm. cbn. right. left.
    + rewrite Em. reflexivity.
Defined.
End SmallDevicesDemo.
