(* ===== verification/BurstGen.v ===== *)
(** * The burst generator: src/BurstGenerator.cpp, src/bg_regs.h

    The driver of a firmware that runs in one of the processors (LM32) of the
    timing receiver: it looks for the processor, and writes instructions into
    the memory that it shares with the firmware, which answers with an MSI. *)
From S2P Require Import Prelude Bus FunctionGen SmallDevices SmallDevicesCorrect.
Local Open Scope Z_scope.

Definition SHARED_OFFS : Z := 0x100 + 0x400.
Definition SHARED_COMMON_SIZE : Z := 2048.
Definition BG_SHM_BASE : Z := SHARED_OFFS + SHARED_COMMON_SIZE.
Definition BG_SHM_FW_ID : Z := BG_SHM_BASE.
Definition BG_SHM_MB_SLOT : Z := BG_SHM_BASE + 0x04.
Definition SHM_MB_SLOT_HOST : Z := BG_SHM_BASE + 0x0C.
Definition SHM_COMMON_BEGIN : Z := BG_SHM_BASE + 0x10.
Definition SHM_CMD_ARGS : Z := BG_SHM_BASE + 0x20.
Definition MB_SLOT_RANGE : Z := 128.
Definition MB_SLOT_CFG_FREE : Z := 0xffffffff.
Definition BG_FW_ID : Z := 0xb2b2b2b2.
Definition CMD_LS_FW_ID : Z := 0x33.
Definition N_BURSTS : Z := 16.
Definition N_BURST_INFO : Z := 12.

(** The index of a buffer in [shm_buffer]. *)
Definition COMMON_END : nat := 1.
Definition COMMON_CMD : nat := 2.
Definition COMMON_STATE : nat := 3.
Definition CMD_ARGS : nat := 4.

(** [ram_base] and [bg_slot] have no value before the constructor gives them
    one. *)
Record BurstGenerator := mkBG {
  my_slot : Z; bg_slot : option Z; response : Z; ram_base : option Z; shm_buffer : list Z
}.

Section BurstGenerator.
Context {D : Type} `{Bus D}.
(** The addresses of the mailbox and of the reset controller. *)
Context (mailbox reset_adr : Z).

(** [do { my_slot = ConfigureSlot(...); } while (my_slot->getIndex() == 0)]: the old
    slot is freed after the new one is configured. *)
Fixpoint configure_slots (fuel : nat) (old : option Z) (address : Z) : M D (option Z) :=
  match fuel with
  | O => mret None
  | S fuel' =>
      o ← ConfigureSlot mailbox address;
      (match old with Some s => FreeSlot mailbox s | None => mret tt end);;
      match o with
      | None => crash "my_slot->getIndex()"
      | Some s => if s =? 0 then configure_slots fuel' (Some s) address else mret (Some s)
      end
  end.

(** [while (bg_id != BG_FW_ID && timeout != 0)] *)
Fixpoint wait_id (timeout : nat) (base bg_id : Z) : M D Z :=
  if u32 bg_id =? BG_FW_ID then mret bg_id
  else match timeout with
       | O => mret bg_id
       | S timeout' => v ← dev_read (base + BG_SHM_FW_ID); wait_id timeout' base v
       end.

(** [shm_buffer.push_back(data)] for the four addresses of the common section *)
Fixpoint read_buffers (n : nat) (adr : Z) : M D (list Z) :=
  match n with
  | O => mret []
  | S n' => v ← dev_read adr; vs ← read_buffers n' (adr + 4); mret (v :: vs)
  end.

(** What the search carries from core to core. *)
Record Search := mkSearch { s_slot : option Z; s_base : option Z; s_buffer : list Z; s_id : Z; s_done : bool }.

(** One core: the body of the loop.  [bg_id] is not reset between the cores. *)
Definition try_core (own_slot : Z) (i : Z) (base : Z) (s : Search) : M D Search :=
  dev_write (base + SHM_MB_SLOT_HOST) own_slot;;
  backup ← dev_read (base + BG_SHM_FW_ID);
  dev_write (base + BG_SHM_FW_ID) 0;;
  CpuHalt reset_adr i;;
  CpuReset reset_adr i;;
  bg_id ← wait_id 20 base (s_id s);
  if negb (u32 bg_id =? BG_FW_ID) then
    dev_write (base + BG_SHM_FW_ID) backup;;
    mret (mkSearch (s_slot s) (Some base) (s_buffer s) bg_id false)
  else
    slot ← dev_read (base + BG_SHM_MB_SLOT);
    if MB_SLOT_RANGE <=? slot then mret (mkSearch (s_slot s) (Some base) (s_buffer s) bg_id false)
    else
      bufs ← read_buffers 4 (base + SHM_COMMON_BEGIN);
      let buffer := s_buffer s ++ bufs ++ [base + SHM_CMD_ARGS] in
      if base + BG_SHM_BASE <? default 0 (buffer !! COMMON_END)
      then mret (mkSearch (Some slot) (Some base) [] bg_id false)
      else mret (mkSearch (Some slot) (Some base) buffer bg_id true).

Fixpoint try_cores (own_slot : Z) (i : Z) (bases : list Z) (s : Search) : M D Search :=
  match bases with
  | [] => mret s
  | base :: bases' =>
      s' ← try_core own_slot i base s;
      if s_done s' then mret s' else try_cores own_slot (i + 1) bases' s'
  end.

(** [BurstGenerator::BurstGenerator]; [irq_address] is that of the requested
    interrupt.  Two rounds give a slot other than 0. *)
Definition BurstGenerator_new (c : LM32Cluster) (irq_address : Z) : M D (option BurstGenerator) :=
  o ← configure_slots 2 None irq_address;
  match o with
  | None => mret None
  | Some slot =>
      s ← try_cores slot 0 (fst <$> dpram c) (mkSearch None None [] 0 false);
      mret (Some (mkBG slot (s_slot s) 0 (s_base s) (s_buffer s)))
  end.

(** [shm_buffer.at(i)] throws [std::out_of_range]. *)
Definition buffer_at (bg : BurstGenerator) (i : nat) : M D Z :=
  match shm_buffer bg !! i with Some a => mret a | None => throw OtherException end.

(** [if (ram_base == 0)], [if (bg_slot == 0)], of members that may have no
    value. *)
Definition is_zero (o : option Z) (what : string) : M D bool :=
  match o with Some v => mret (v =? 0) | None => crash what end.

Definition BurstGenerator_destroy (bg : BurstGenerator) : M D unit :=
  match ram_base bg with
  | Some base => dev_write (base + SHM_MB_SLOT_HOST) MB_SLOT_CFG_FREE
  | None => crash "ram_base"
  end.

(** The loop of [firmwareRunning]; [None]: still running after [fuel] rounds. *)
Fixpoint await_answer (fuel : nat) (adr data timeout : Z) : M D (option Z) :=
  if (data =? 0) || negb (timeout =? 0) then
    match fuel with
    | O => mret None
    | S fuel' => v ← dev_read adr; await_answer fuel' adr v (timeout - 1)
    end
  else mret (Some data).

Definition firmwareRunning (fuel : nat) (bg : BurstGenerator) (id : Z) : M D (option bool) :=
  nobase ← is_zero (ram_base bg) "ram_base";
  if (nobase : bool) then mret (Some false)
  else
    noslot ← is_zero (bg_slot bg) "bg_slot";
    if (noslot : bool) then mret (Some false)
    else
      args ← buffer_at bg CMD_ARGS;
      dev_write args 0;;
      cmd ← buffer_at bg COMMON_CMD;
      dev_write cmd CMD_LS_FW_ID;;
      o ← await_answer fuel args 0 10;
      mret ((fun data => id =? u32 data) <$> o).

(** [instruct]: the result and the new [response]; an exception of etherbone
    becomes its status, a parameter. *)
Context (EB_OK eb_status : Z).

Definition arg_ops (args_adr : Z) (args : list Z) : list bus_op :=
  imap (fun i a => BusW (args_adr + u32 (Z.of_nat i * 4)) a) args.

(** The part in [try]. *)
Definition send_instruction (bg : BurstGenerator) (code : Z) (args : list Z) : M D unit :=
  cmd ← buffer_at bg COMMON_CMD;
  args_adr ← (match args with [] => mret 0 | _ => buffer_at bg CMD_ARGS end);
  cycle (BusW cmd 0 :: arg_ops args_adr args);;
  dev_write cmd code.

Definition instruct (bg : BurstGenerator) (code : Z) (args : list Z) : M D (Z * BurstGenerator) :=
  nobase ← is_zero (ram_base bg) "ram_base";
  if (nobase : bool) then mret (-20, bg)
  else
    noslot ← is_zero (bg_slot bg) "bg_slot";
    if (noslot : bool) then mret (-20, bg)
    else
      try_catch
        (send_instruction bg code args;;
         mret (EB_OK, mkBG (my_slot bg) (bg_slot bg) 0 (ram_base bg) (shm_buffer bg)))
        (fun e => match e with EtherboneError => mret (eb_status, bg) | _ => throw e end).

(** Reading until the bus fails: what was read so far. *)
Fixpoint read_prefix (n : nat) (bg : BurstGenerator) (i : Z) : M D (list Z) :=
  match n with
  | O => mret []
  | S n' =>
      try_catch
        (args ← buffer_at bg CMD_ARGS;
         v ← dev_read (args + u32 (i * 4));
         vs ← read_prefix n' bg (i + 1);
         mret (u32 v :: vs))
        (fun e => match e with EtherboneError => mret [] | _ => throw e end)
  end.

Definition readBurstInfo (bg : BurstGenerator) (id : Z) : M D (list Z) :=
  nobase ← is_zero (ram_base bg) "ram_base";
  if (nobase : bool) then mret []
  else if id =? 0 then read_prefix 2 bg 0
  else if id <=? N_BURSTS then read_prefix (Z.to_nat N_BURST_INFO) bg 0
  else mret [].

Definition readSharedBuffer (bg : BurstGenerator) (size : Z) : M D (list Z) :=
  nobase ← is_zero (ram_base bg) "ram_base";
  if (nobase : bool) then mret [] else read_prefix (Z.to_nat size) bg 0.

Definition readState (bg : BurstGenerator) : M D Z :=
  nobase ← is_zero (ram_base bg) "ram_base";
  if (nobase : bool) then mret (u32 (-1))
  else
    try_catch
      (adr ← buffer_at bg COMMON_STATE; v ← dev_read adr; mret (u32 v))
      (fun e => match e with EtherboneError => mret (u32 (-1)) | _ => throw e end).
End BurstGenerator.

(** [msi_handler]: the answer of the firmware, and the signal [sigInstComplete]. *)
Definition bg_msi_handler (msg : Z) (bg : BurstGenerator) : Z * BurstGenerator :=
  (u32 msg, mkBG (my_slot bg) (bg_slot bg) (u32 msg) (ram_base bg) (shm_buffer bg)).

(** ** The burst generator: instructions, the answer of the firmware, the search *)

(** ** Instructions *)

(** While the addresses stay below 2^32 the writes of the arguments are
    consecutive words. *)
Lemma arg_ops_words adr args : (4 * Z.of_nat (length args) <= 2 ^ 32) -> arg_ops adr args = words_at adr args.
Proof.
  intros Hlen. unfold arg_ops.
  assert (forall k l, 4 * (k + Z.of_nat (length l)) <= 2 ^ 32 -> 0 <= k ->
    imap (fun i a => BusW (adr + u32 ((k + Z.of_nat i) * 4)) a) l = words_at (adr + 4 * k) l) as Hk.
  { intros k l. revert k. induction l as [|a l IH]; intros k Hl Hk; [done|]. cbn [imap words_at]. cbn [length] in Hl. f_equal.
    - f_equal. rewrite unsigned_wrap_small; cbn; lia.
    - replace (adr + 4 * k + 4) with (adr + 4 * (k + 1)) by lia. rewrite <- (IH (k + 1)) by lia.
      apply imap_ext. intros i x _. unfold compose. do 3 f_equal. lia. }
  specialize (Hk 0 args ltac:(lia) ltac:(lia)). rewrite Z.add_0_r in Hk. exact Hk.
Qed.

(** A device with the sequence of the operations that it executed, one after the
    other. *)
Class TracedDevice (D : Type) `{Bus D} := {
  executed : D -> list bus_op;
  executed_cycle : forall ops d rs d', bus_cycle ops d = Some (rs, d') -> executed d' = executed d ++ ops
}.

Section Instruct.
Context {D : Type} `{HB : Bus D, !MemDevice D, !TracedDevice D} (EB_OK eb_status : Z).

Definition ready (bg : BurstGenerator) (cmd args_adr : Z) : Prop :=
  (exists b, ram_base bg = Some b /\ b <> 0) /\ (exists s, bg_slot bg = Some s /\ s <> 0) /\
  shm_buffer bg !! COMMON_CMD = Some cmd /\ shm_buffer bg !! CMD_ARGS = Some args_adr.

(** What the firmware may see while an instruction is written: the memory as it was,
    no command, or the whole instruction. *)
Definition consistent (m0 : Z -> Z) (cmd args_adr code : Z) (args : list Z) (m : Z -> Z) : Prop :=
  (forall x, m x = m0 x) \/ m cmd = 0 \/
  (m cmd = code /\ forall k a, args !! k = Some a -> m (args_adr + 4 * Z.of_nat k) = a).

(** The words of the arguments, in the memory. *)
Lemma args_written m args_adr args : Forall (fun a => 0 <= a < 2 ^ 32) args ->
  forall k a, args !! k = Some a -> foldl mem_write m (words_at args_adr args) (args_adr + 4 * Z.of_nat k) = a.
Proof.
  intros Hargs k a Hk. pose proof (lookup_lt_Some _ _ _ Hk) as Hlt. rewrite foldl_words_at.
  assert ((args_adr + 4 * Z.of_nat k - args_adr) = Z.of_nat k * 4) as -> by lia.
  rewrite Z.mod_mul, Z.div_mul by lia. rewrite bool_decide_true by lia. rewrite Nat2Z.id, Hk. cbn.
  apply unsigned_wrap_small. by apply (Forall_lookup_1 _ _ _ _ Hargs Hk).
Qed.

Lemma prefix_words adr ws seen later : words_at adr ws = seen ++ later ->
  forall a v, BusW a v ∈ seen -> exists k, (k < length ws)%nat /\ a = adr + 4 * Z.of_nat k.
Proof. intros E a v Hin. apply (words_at_elem _ _ _ v). rewrite E, elem_of_app. by left. Qed.

(** Every point in the writes of an instruction is consistent. *)
Lemma writes_consistent m0 cmd args_adr code args last seen later :
  Forall (fun a => 0 <= a < 2 ^ 32) args -> 0 <= code < 2 ^ 32 ->
  (cmd < args_adr \/ args_adr + 4 * Z.of_nat (length args) <= cmd) ->
  last = [] \/ last = [BusW cmd code] ->
  BusW cmd 0 :: words_at args_adr args ++ last = seen ++ later ->
  consistent m0 cmd args_adr code args (foldl mem_write m0 seen).
Proof.
  intros Hargs Hcode Happart Hlast E. destruct seen as [|op seen]; [by left|]. right. injection E as <- E.
  assert (forall m, foldl mem_write m (words_at args_adr args) cmd = m cmd) as Hcmd.
  { intros m. apply foldl_mem_write_below. intros a v (k & Hk & ->)%words_at_elem. lia. }
  assert ((exists l', words_at args_adr args = seen ++ l') \/ seen = words_at args_adr args ++ [BusW cmd code]) as [[l' E']| ->].
  { apply app_eq_inv in E as [(l' & H1 & H2)|(l' & H1 & H2)]; [left; by exists l'|].
    destruct Hlast as [->| ->].
    - symmetry in H2. apply app_eq_nil in H2 as [-> ->]. left. exists []. by rewrite H1, !app_nil_r.
    - destruct l' as [|op l']; [left; exists []; by rewrite H1, !app_nil_r|].
      injection H2 as <- H2. symmetry in H2. apply app_eq_nil in H2 as [-> ->]. right. done. }
  - left. cbn [foldl]. rewrite foldl_mem_write_below; [cbn; by rewrite Z.eqb_refl|].
    intros a v Hin. destruct (prefix_words _ _ _ _ E' _ _ Hin) as (k & Hk & ->). lia.
  - right. cbn [foldl]. rewrite foldl_app. cbn [foldl mem_write]. rewrite Z.eqb_refl. split; [by apply unsigned_wrap_small|].
    intros k a Hk. pose proof (lookup_lt_Some _ _ _ Hk). rewrite (proj2 (Z.eqb_neq _ _)) by lia. by apply args_written.
Qed.

End Instruct.

(** ** The answer of the firmware *)
Section Answer.
Context {D : Type} `{Bus D} (adr : Z) (answer : D -> Z) (next : D -> D).
Context (Hread : forall d, bus_cycle [BusR adr] d = Some ([answer d], next d)).

Lemma run_dev_read d : dev_read adr d = (Ret (answer d), next d).
Proof. unfold dev_read, cycle. mrun. by rewrite Hread. Qed.

(** Once the rounds are over only an answer ends the loop; past the round in
    which [timeout] is 0 none does. *)
Lemma await_answer_late fuel data timeout d : timeout < 0 ->
  (await_answer fuel adr data timeout d).1 = Ret None.
Proof.
  revert data timeout d. induction fuel as [|fuel IH]; intros data timeout d Ht; cbn [await_answer];
    rewrite (proj2 (Z.eqb_neq timeout 0)), orb_true_r by lia; [done|].
  mrun. rewrite run_dev_read. apply IH. lia.
Qed.

Lemma await_answer_short fuel data timeout d : Z.of_nat fuel < timeout ->
  (await_answer fuel adr data timeout d).1 = Ret None.
Proof.
  revert data timeout d. induction fuel as [|fuel IH]; intros data timeout d Ht; cbn [await_answer];
    rewrite (proj2 (Z.eqb_neq timeout 0)), orb_true_r by lia; [done|].
  mrun. rewrite run_dev_read. apply IH. lia.
Qed.

Lemma await_answer_rounds n fuel data d :
  await_answer (n + fuel) adr data (Z.of_nat n) d =
  await_answer fuel adr (match n with O => data | S m => answer (Nat.iter m next d) end) 0 (Nat.iter n next d).
Proof.
  revert data d. induction n as [|n IH]; intros data d; [done|].
  cbn [Nat.add await_answer]. rewrite (proj2 (Z.eqb_neq (Z.of_nat (S n)) 0)), orb_true_r by lia.
  mrun. rewrite run_dev_read. replace (Z.of_nat (S n) - 1) with (Z.of_nat n) by lia. rewrite IH.
  rewrite <- Nat.iter_succ_r. destruct n as [|n]; [done|]. by rewrite <- Nat.iter_succ_r.
Qed.

(** FirmwareRunning is decided by the tenth reading alone, whatever the readings
    before it were: if it has an answer the method returns whether this is the
    expected one; if it is 0 the loop never ends, even if the answer comes
    later.  (The condition of the loop has "or" where "and" is meant.) *)
Theorem firmwareRunning_tenth_reading (wr : D -> D) (bg : BurstGenerator) (cmd id b s : Z) (d : D)
    (Hbase : ram_base bg = Some b /\ b <> 0) (Hslot : bg_slot bg = Some s /\ s <> 0)
    (Hbuf : shm_buffer bg !! COMMON_CMD = Some cmd /\ shm_buffer bg !! CMD_ARGS = Some adr)
    (Hwrite : bus_cycle [BusW adr 0] d = Some ([], wr d) /\
              bus_cycle [BusW cmd CMD_LS_FW_ID] (wr d) = Some ([], wr (wr d))) :
  let tenth := answer (Nat.iter 9 next (wr (wr d))) in
  if tenth =? 0 then forall fuel, (firmwareRunning fuel bg id d).1 = Ret None
  else forall fuel, (10 <= fuel)%nat -> (firmwareRunning fuel bg id d).1 = Ret (Some (id =? u32 tenth)).
Proof.
  destruct Hbase as [Hb Hb0], Hslot as [Hs Hs0], Hbuf as [Hcmd Hargs], Hwrite as [Hw1 Hw2].
  intros tenth. set (d0 := wr (wr d)).
  assert (forall fuel, firmwareRunning fuel bg id d =
    (o ← await_answer fuel adr 0 10; mret ((fun data => id =? u32 data) <$> o)) d0) as E.
  { intros fuel. unfold firmwareRunning, is_zero, buffer_at, dev_write, cycle. rewrite Hb, Hs, Hcmd, Hargs. mrun.
    rewrite (proj2 (Z.eqb_neq _ _) Hb0), (proj2 (Z.eqb_neq _ _) Hs0). cbv iota. by rewrite Hw1, Hw2. }
  assert (forall fuel, await_answer (10 + fuel) adr 0 10 d0 = await_answer fuel adr tenth 0 (Nat.iter 10 next d0)) as E10.
  { intros fuel. apply (await_answer_rounds 10). }
  destruct (Z.eqb_spec tenth 0) as [H0|H0].
  - intros fuel. rewrite E. mrun.
    assert ((await_answer fuel adr 0 10 d0).1 = Ret None) as Hnone.
    { destruct (decide (10 <= fuel)%nat) as [Hf|Hf].
      - replace fuel with (10 + (fuel - 10))%nat by lia. rewrite E10, H0.
        destruct (fuel - 10)%nat as [|k]; [done|]. cbn [await_answer]. cbn [Z.eqb orb]. mrun. rewrite run_dev_read.
        apply await_answer_late. lia.
      - apply await_answer_short. lia. }
    destruct (await_answer fuel adr 0 10 d0) as [r d1]. cbn in Hnone. by rewrite Hnone.
  - intros fuel Hf. rewrite E. mrun. replace fuel with (10 + (fuel - 10))%nat by lia. rewrite E10.
    destruct (fuel - 10)%nat; cbn [await_answer]; by rewrite (proj2 (Z.eqb_neq _ _) H0).
Qed.
End Answer.

(** ** Concrete inputs *)
Module BurstGenDemo.
Import SmallDevicesDemo.

Definition bg : BurstGenerator := mkBG 5 (Some 3) 7 (Some 0x10000) [0x100; 0x200; 0x300; 0x400; 0x500].

Lemma bg_ready : ready bg 0x300 0x500.
Proof. split; [by exists 0x10000|]. split; [by exists 3|done]. Qed.

#[export, refine] Instance ram_traced : TracedDevice ram := {| executed := ram_log |}.
Proof.
  intros ops d rs d'. unfold bus_cycle, ram_bus. intros [= E]. revert E. generalize (@nil Z).
  revert d. induction ops as [|op ops IH]; intros d l E; cbn in E; [injection E as _ <-; by rewrite app_nil_r|].
  destruct op as [a v|a]; cbn in E; apply IH in E; cbn in E; by rewrite E, <- app_assoc.
Defined.


(** A firmware that answers after [late] readings. *)
#[local] Instance late_bus : Bus nat := fun ops late =>
  match ops with
  | [BusR _] => Some ([match late with O => 0xb2b2b2b2 | S _ => 0 end], pred late)
  | _ => Some ([], late)
  end.

Definition late_answer (late : nat) : Z := match late with O => 0xb2b2b2b2 | S _ => 0 end.

(** In time, and a tenth of a second too late. *)
Lemma firmwareRunning_tenth_reading_witness :
  (firmwareRunning 10 bg 0xb2b2b2b2 9%nat).1 = Ret (Some true) /\
  forall fuel, (firmwareRunning fuel bg 0xb2b2b2b2 10%nat).1 = Ret None.
Proof.
  split.
  - apply (firmwareRunning_tenth_reading 0x500 late_answer pred (fun d => eq_refl) id bg 0x300 0xb2b2b2b2 0x10000 3 9%nat);
      [split; [reflexivity|lia]|split; [reflexivity|lia]|split; reflexivity|split; reflexivity|lia].
  - apply (firmwareRunning_tenth_reading 0x500 late_answer pred (fun d => eq_refl) id bg 0x300 0xb2b2b2b2 0x10000 3 10%nat);
      [split; [reflexivity|lia]|split; [reflexivity|lia]|split; reflexivity|split; reflexivity].
Defined.

(** Two cores that always show the same values: the first has the identifier of
    the firmware but no valid mailbox slot; the second one does not have the
    identifier.  The second is taken. *)
Definition two_cores (adr : Z) : Z :=
  if adr =? 0x10000 + BG_SHM_FW_ID then BG_FW_ID
  else if adr =? 0x10000 + BG_SHM_MB_SLOT then 200
  else if adr =? 0x20000 + BG_SHM_FW_ID then 0x12345678
  else if adr =? 0x20000 + BG_SHM_MB_SLOT then 3
  else 0.
#[local] Instance two_cores_bus : Bus unit := fun ops d =>
  Some (omap (fun op => match op with BusR a => Some (two_cores a) | BusW _ _ => None end) ops, d).

Lemma wrong_core_taken :
  exists s, try_cores 0x4000 5 0 [0x10000; 0x20000] (mkSearch None None [] 0 false) tt = (Ret s, tt) /\
    s_done s = true /\ s_base s = Some 0x20000 /\ two_cores (0x20000 + BG_SHM_FW_ID) <> BG_FW_ID.
Proof. eexists. split_and!; [vm_compute; reflexivity|reflexivity|reflexivity|discriminate]. Qed.
End BurstGenDemo.
