(* ===== verification/Receiver.v ===== *)
(** * The timing receiver as an object of the daemon: src/TimingReceiver.cpp

    The class [TimingReceiver] inherits from the drivers of all devices.  Its
    constructor publishes the inputs and outputs of the hardware, its destructor,
    with those of the drivers, takes everything out of the container again. *)
From S2P Require Import Prelude StdMap Bus Loop Container Owned Io IoControl ClockGen EcaTables Eca EcaOps InOut SmallDevices.
Local Open Scope Z_scope.

(** The parts of the drivers that the class works on; [r_polls] is the default
    loop with the timeout of [poll]. *)
Record Receiver (D A : Type) := mkReceiver {
  r_world : World D; r_inputs : list Input; r_white_rabbit : WhiteRabbit;
  addons : list (string * A); r_polls : Loop unit; poll_timeout_source : SourceHandle;
  r_path : string; r_name : string
}.
Arguments mkReceiver {_ _} _ _ _ _ _ _ _ _.
Arguments r_world {_ _} _.
Arguments r_inputs {_ _} _.
Arguments r_white_rabbit {_ _} _.
Arguments addons {_ _} _.
Arguments r_polls {_ _} _.
Arguments poll_timeout_source {_ _} _.
Arguments r_path {_ _} _.
Arguments r_name {_ _} _.

Section Receiver.
Context {D A CB : Type} `{Bus D}.
(** The places of the devices on the bus. *)
Context (eca_adr tlu_adr wr_adr watchdog_adr watchdog_value reset_adr : Z).
(** What an addon offers, by interface and name; its destructor. *)
Context (addon_objects : A -> list (string * list (string * string))).
Context (destroy_addon : A -> M (Daemon CB (Receiver D A)) unit).
(** [Input_Service], [Output_Service]: generated code. *)
Context (input_service output_service : Service CB).
(** The clock and the random number of the new timeout. *)
Context (now rnd : Z).
Let R := Receiver D A.
Let S := Daemon CB R.

Definition set_world (w : World D) (r : R) : R :=
  mkReceiver w (r_inputs r) (r_white_rabbit r) (addons r) (r_polls r) (poll_timeout_source r) (r_path r) (r_name r).
Definition set_inputs (l : list Input) (r : R) : R :=
  mkReceiver (r_world r) l (r_white_rabbit r) (addons r) (r_polls r) (poll_timeout_source r) (r_path r) (r_name r).
Definition set_white_rabbit (wr : WhiteRabbit) (r : R) : R :=
  mkReceiver (r_world r) (r_inputs r) wr (addons r) (r_polls r) (poll_timeout_source r) (r_path r) (r_name r).
Definition set_addons (l : list (string * A)) (r : R) : R :=
  mkReceiver (r_world r) (r_inputs r) (r_white_rabbit r) l (r_polls r) (poll_timeout_source r) (r_path r) (r_name r).
Definition set_polls (l : Loop unit) (h : SourceHandle) (r : R) : R :=
  mkReceiver (r_world r) (r_inputs r) (r_white_rabbit r) (addons r) l h (r_path r) (r_name r).
Definition set_device (d : D) (w : World D) : World D :=
  mkWorld d (w_eca w) (w_loop w) (w_now w) (w_rand w) (w_caller w) (w_signals w).

(** A call of a method of one of the base classes. *)
Definition receiver {X} (m : M R X) : M S X :=
  zoom others (fun r st => mkDaemon (container st) (clients st) (calling_client_id st) r) m.
Definition eca_part {X} (m : M (World D) X) : M R X := zoom r_world set_world m.
Definition tlu_part {X} (m : M (Tlu D) X) : M R X :=
  zoom (fun r => mkTlu (w_dev (r_world r)) (r_inputs r))
    (fun t r => set_inputs (inputs t) (set_world (set_device (t_dev t) (r_world r)) r)) m.
Definition poll_part {X} (m : M (D * WhiteRabbit) X) : M R X :=
  zoom (fun r => (w_dev (r_world r), r_white_rabbit r))
    (fun s r => set_white_rabbit s.2 (set_world (set_device s.1 (r_world r)) r)) m.

Definition caller_of : M R Caller := gets (fun r => w_caller (r_world r)).

(** ** The constructor *)

(** The paths are empty for a direction that the line does not have. *)
Definition input_path (path : string) (io : Io) : string :=
  if is_input (io_direction io) then path +:+ "/inputs/" +:+ io_name io else EmptyString.
Definition output_path (path : string) (io : Io) : string :=
  if is_output (io_direction io) then path +:+ "/outputs/" +:+ io_name io else EmptyString.

(** [if (container) { ...; container->create_object(path, std::move(service)); }] *)
Definition publish (path : string) (s : Service CB) : M S unit :=
  c ← receiver caller_of;
  if has_container c then on_container (fun c => (create_object path s c).2) else mret tt.

(** The new input goes into the vector after it is published; no other code runs
    in between. *)
Definition attach_input (path : string) (io : Io) : M S unit :=
  c ← receiver caller_of;
  receiver (tlu_part (new_input tlu_adr c (input_path path io) (output_path path io) (io_eca_in io) io));;
  publish (input_path path io) input_service.

Definition eca_channel_for_outputs : Z := 0.

(** [Output::Output] constructs the [ActionSink]. *)
Definition attach_output (path : string) (io : Io) : M S unit :=
  s ← receiver (eca_part (s ← new_sink eca_adr OutputSink (output_path path io) (io_name io)
                                eca_channel_for_outputs (io_eca_out io); served (Some (-1)) s));
  publish (output_path path io) output_service;;
  _ ← receiver (eca_part (addActionSink eca_channel_for_outputs s));
  mret tt.

Definition attach_io (path : string) (io : Io) : M S unit :=
  (if is_input (io_direction io) then attach_input path io else mret tt);;
  (if is_output (io_direction io) then attach_output path io else mret tt).

Definition invalid_name : exn := Error INVALID_ARGS "Invalid name; [a-zA-Z0-9_] only".

Definition poll : M R bool :=
  poll_part (TimingReceiver_poll wr_adr watchdog_adr watchdog_value reset_adr).

Definition start_polling : M R unit := fun r =>
  let '(h, l) := connect (new_timeout now 1000 1000) tt rnd (r_polls r) in
  (Ret tt, set_polls l h r).

(** The body of [TimingReceiver::TimingReceiver], after the constructors of the
    base classes; [ios] is what [IoControl] found. *)
Definition TimingReceiver_body (ios : list Io) : M S unit :=
  r ← gets others;
  throw_if (negb (forallb is_alnum_ (String.list_ascii_of_string (r_name r)))) invalid_name;;
  for_each (attach_io (r_path r)) ios;;
  _ ← receiver poll;
  receiver start_polling.

(** ** What it offers *)

(** [dynamic_cast<Output*>] *)
Definition is_output_sink (s : ActionSink) : bool :=
  match as_kind s with OutputSink => true | _ => false end.

Definition channel_sinks (e : ECA) (channel : nat) : list (option ActionSink) := default [] (ECAchannels e !! channel).

(** [ECA::getOutputs] *)
Definition getOutputs : M (World D) (list (string * string)) :=
  e ← gets w_eca;
  massert (0 <? Z.of_nat (length (ECAchannels e))) "ECAchannels.size() > 0";;
  mret (foldl (fun m os => match os with
                           | Some s => if is_output_sink s then map_set (as_name s) (as_path s) m else m
                           | None => m
                           end) [] (channel_sinks e 0)).

(** [ECA::getOutput]: [None] is the null pointer of a failed cast. *)
Fixpoint find_output (path : string) (l : list (option ActionSink)) : outcome (option ActionSink) :=
  match l with
  | [] => Throw (Error INVALID_ARGS "no such Output")
  | None :: _ => Crash "output->getObjectPath()"
  | Some s :: l' =>
      if bool_decide (as_path s = path) then Ret (if is_output_sink s then Some s else None)
      else find_output path l'
  end.
Definition getOutput (path : string) : M (World D) (option ActionSink) := fun w =>
  (find_output path (channel_sinks (w_eca w) 0), w).

(** [result[interface][name] = path] *)
Definition add_object (interface name path : string) (m : list (string * list (string * string))) :=
  map_set interface (map_set name path (default [] (map_find interface m))) m.

Definition add_interfaces (objects : list (string * list (string * string))) (m : list (string * list (string * string))) :=
  foldl (fun m io => foldl (fun m o => add_object io.1 o.1 o.2 m) m io.2) m objects.

Definition getInterfaces : M R (list (string * list (string * string))) :=
  outputs ← eca_part getOutputs;
  r ← get;
  let e := w_eca (r_world r) in
  let own := map_set "Input"%string (getInputs (mkTlu (w_dev (r_world r)) (r_inputs r)))
            (map_set "Output"%string outputs
            (map_set "EmbeddedCPUActionSink"%string (ecpu_action_sinks e)
            (map_set "WbmActionSink"%string (wbm_action_sinks e)
            (map_set "SCUbusActionSink"%string (scubus_action_sinks e)
            (map_set "SoftwareActionSink"%string (getSoftwareActionSinks e) []))))) in
  mret (foldl (fun m a => add_interfaces (addon_objects a.2) m) own (addons r)).

Definition addon_exists (addon_name : string) : exn :=
  Error INVALID_ARGS ("TimingReceiver::installAddon(): " +:+ addon_name +:+ " already exists as addon").
Definition installAddon (addon_name : string) (addon : A) : M S unit :=
  r ← gets others;
  throw_if (map_mem addon_name (addons r)) (addon_exists addon_name);;
  receiver (modify (fun r => set_addons (map_set addon_name addon (addons r)) r)).

(** Bound as the destruction callback of the addon's service, which the container
    removes itself. *)
Definition removeAddon (addon_name : string) : M S unit :=
  r ← gets others;
  match map_find addon_name (addons r) with
  | None => mret tt
  | Some a => receiver (modify (fun r => set_addons (map_erase addon_name (addons r)) r));; destroy_addon a
  end.

(** ** The destructors *)

(** [catch (saftbus::Error &e)] around [container->remove_object(path)] *)
Definition try_remove (path : string) : M S unit :=
  try_catch (_ ← remove_object path; mret tt)
    (fun e => match e with Error _ _ => mret tt | _ => throw e end).

Definition addon_paths (l : list (string * A)) : list string :=
  l ≫= fun a => addon_objects a.2 ≫= fun io => io.2.*2.

(** The body of [~TimingReceiver] *)
Definition TimingReceiver_destroy : M S unit :=
  receiver (modify (fun r => set_polls (remove (poll_timeout_source r) (r_polls r)) (poll_timeout_source r) r));;
  r ← gets others;
  if has_container (w_caller (r_world r)) then for_each try_remove (addon_paths (addons r)) else mret tt.

(** [Destroyed.emit(); release_service(); remove_object(path)] for an input *)
Definition unpublish_input (k : nat) : M S unit :=
  r ← gets others;
  match r_inputs r !! k with
  | None => mret tt
  | Some i =>
      receiver (eca_part (signal (SigDestroyed (in_path i))));;
      receiver (modify (fun r => set_inputs (alter (fun i =>
        mkInput (in_path i) (in_io i) (partnerPath i) (eca_tlu_channel i) None (enable i) (event i) (stable i)) k
        (r_inputs r)) r));;
      try_remove (in_path i)
  end.
Definition ECA_TLU_destroy : M S unit :=
  r ← gets others;
  if has_container (w_caller (r_world r)) then for_each unpublish_input (seq 0 (length (r_inputs r))) else mret tt.

(** The same for a sink. *)
Definition unpublish_sink (loc : SinkLoc) : M S unit :=
  r ← gets others;
  match find_sink loc (w_eca (r_world r)) with
  | None => mret tt
  | Some s =>
      receiver (eca_part (signal (SigDestroyed (as_path s))));;
      receiver (eca_part (on_eca (write_sink loc (Some (set_as_service None s)))));;
      try_remove (as_path s)
  end.

Definition sink_locs (e : ECA) : list SinkLoc :=
  concat (imap (fun ch slots => mkLoc ch <$> seq 0 (length slots)) (ECAchannels e)).

(** The body of [~ECA], then the sinks are destroyed with the vectors. *)
Definition ECA_destroy : M S unit :=
  r ← gets others;
  (if has_container (w_caller (r_world r)) then for_each unpublish_sink (sink_locs (w_eca (r_world r))) else mret tt);;
  r ← gets others;
  receiver (eca_part (for_each destroy_sink (sinks_of (w_eca (r_world r))))).

(** [delete timing_receiver]: the derived class, its addons, the base classes in
    reverse order. *)
Definition delete_receiver : M S unit :=
  TimingReceiver_destroy;;
  r ← gets others;
  for_each (fun a => destroy_addon a.2) (addons r);;
  ECA_TLU_destroy;;
  ECA_destroy.
End Receiver.
