(* ===== verification/ReceiverCorrect.v ===== *)
(** * The timing receiver publishes its objects and takes them out again *)
From S2P Require Import Prelude StdMap Bus Loop Container ContainerCorrect Owned Io IoControl ClockGen EcaTables Eca EcaOps InOut SmallDevices Receiver.
Local Open Scope Z_scope.

Abbreviation lookup_table := object_path_lookup_table.

(** ** Taking objects out of a container *)
Section Removes.
Context {CB : Type}.
Implicit Types (c : Container CB) (paths : list string).

(** The objects at [paths] that the caller may remove are gone; nothing else
    changed. *)
Record removes (cl : Z) paths c c' : Prop := {
  rm_wf : cont_wf c';
  rm_services : forall id s, find_service id c' = Some s -> find_service id c = Some s;
  rm_sub : forall p id, map_find p (lookup_table c') = Some id -> map_find p (lookup_table c) = Some id;
  rm_other : forall p, p ∉ paths -> map_find p (lookup_table c') = map_find p (lookup_table c);
  rm_gone : forall p, p ∈ paths -> removable cl p c -> map_find p (lookup_table c') = None
}.

Lemma removes_nil cl c : cont_wf c -> removes cl [] c c.
Proof. split; auto. by intros p Hp%elem_of_nil. Qed.

Lemma removes_ext cl paths paths' c c' :
  (forall p, p ∈ paths <-> p ∈ paths') -> removes cl paths c c' -> removes cl paths' c c'.
Proof.
  intros E [? ? ? Ho Hg]. split; auto.
  - intros p Hp. apply Ho. by rewrite E.
  - intros p Hp. apply Hg. by rewrite E.
Qed.

(** An object that may be removed may still be removed afterwards, if it is
    there. *)
Lemma removable_later cl paths c c' p id : removes cl paths c c' ->
  removable cl p c -> map_find p (lookup_table c') = Some id -> removable cl p c'.
Proof.
  intros [Hwf Hs Hsub _ _] (Hne & (i & s & Hi & His & Hf) & Hchild) Hid. split; [done|]. split.
  - destruct (wf_path _ Hwf _ _ Hid) as (s' & Hs' & Ep). exists id, s'. split; [done|]. split; [done|].
    pose proof (Hsub _ _ Hid) as Hid'. assert (i = id) as -> by congruence.
    pose proof (Hs _ _ Hs') as Hs''. assert (s' = s) as -> by congruence. done.
  - intros i' s' H1 H2 H3. eapply Hchild; [by apply Hs|done..].
Qed.

Lemma removes_app cl p1 p2 c c1 c2 :
  removes cl p1 c c1 -> removes cl p2 c1 c2 -> removes cl (p1 ++ p2) c c2.
Proof.
  intros R1 R2. pose proof R1 as [W1 S1 B1 O1 G1]. pose proof R2 as [W2 S2 B2 O2 G2]. split; auto.
  - intros p [H1 H2]%not_elem_of_app. by rewrite O2, O1.
  - intros p Hp Hr. apply elem_of_app in Hp as [Hp|Hp].
    + pose proof (G1 _ Hp Hr) as Hn. destruct (map_find p (lookup_table c2)) as [id|] eqn:E; [|done].
      apply B2 in E. congruence.
    + destruct (map_find p (lookup_table c1)) as [id|] eqn:E.
      * apply G2; [done|]. by eapply removable_later.
      * destruct (map_find p (lookup_table c2)) as [id|] eqn:E2; [|done]. apply B2 in E2. congruence.
Qed.
End Removes.

(** ** The destructors *)
Section Destructors.
Context {D A CB : Type} `{Bus D}.
Context (addon_objects : A -> list (string * list (string * string))).
Context (destroy_addon : A -> M (Daemon CB (Receiver D A)) unit).
#[local] Abbreviation R := (Receiver D A).
#[local] Abbreviation S := (Daemon CB (Receiver D A)).
Implicit Types (st : Daemon CB (Receiver D A)) (r : Receiver D A).

(** What the loops of the destructors go over: paths of the inputs; paths of
    the sinks, with the number of their conditions, in their slots. *)
Definition sink_view (s : ActionSink) : string * nat := (as_path s, length (conditions s)).
Definition view (e : ECA) : list (list (option (string * nat))) := 
  (fun ch : list (option ActionSink) => (fun os : option ActionSink => sink_view <$> os) <$> ch) <$> ECAchannels e.

Record same_objects r r' : Prop := {
  so_inputs : in_path <$> r_inputs r' = in_path <$> r_inputs r;
  so_view : view (w_eca (r_world r')) = view (w_eca (r_world r));
  so_caller : w_caller (r_world r') = w_caller (r_world r);
  so_addons : addons r' = addons r
}.

#[export] Instance same_objects_preorder : PreOrder same_objects.
Proof.
  split; [by split|]. intros r1 r2 r3 [] []. split; congruence.
Qed.

(** [m] returns, takes out [paths] and keeps the objects of the driver. *)
Definition takes_out (paths : list string) st (res : outcome unit * S) : Prop :=
  res.1 = Ret tt /\ calling_client_id res.2 = calling_client_id st /\
  removes (calling_client_id st) paths (container st) (container res.2) /\
  same_objects (others st) (others res.2).

Lemma takes_out_bind paths1 paths2 st (m : M S unit) (k : unit -> M S unit) :
  takes_out paths1 st (m st) ->
  (forall st', takes_out paths1 st (Ret tt, st') -> takes_out paths2 st' (k tt st')) ->
  takes_out (paths1 ++ paths2) st ((m ≫= k) st).
Proof.
  intros Hm Hk. unfold mbind, M_bind. destruct (m st) as [res st1]. destruct Hm as (E & Hc & Hr & Ho).
  cbn in E. subst res. destruct (Hk st1 ltac:(by split)) as (E2 & Hc2 & Hr2 & Ho2). cbn in *.
  split; [done|]. split; [congruence|]. split.
  - eapply removes_app; [exact Hr|]. by rewrite <- Hc.
  - by etrans.
Qed.

Lemma takes_out_nothing st (f : R -> R) : cont_wf (container st) -> same_objects (others st) (f (others st)) ->
  takes_out [] st (receiver (modify f) st).
Proof. intros Hwf Ho. split; [done|]. split; [done|]. split; [by apply removes_nil|done]. Qed.

Lemma try_remove_takes_out path st : cont_wf (container st) ->
  takes_out [path] st (try_remove path st).
Proof.
  intros Hwf. unfold try_remove, try_catch. mrun.
  destruct (remove_object_spec path st Hwf) as [(id & Hr & Hid & ->)|(what & Hr & ->)].
  - split; [done|]. split; [done|]. split; [|done]. cbn. split.
    + by apply erase_object_wf.
    + intros i s. unfold erase_object. rewrite find_service_erase. by case_decide.
    + intros p i. cbn. destruct (decide (p = path)) as [->|Hne]; [by rewrite map_find_erase_eq|].
      by rewrite map_find_erase_ne.
    + intros p Hp. cbn. rewrite map_find_erase_ne; [done|]. intros ->. apply Hp. by left.
    + intros p Hp%list_elem_of_singleton _. subst p. apply map_find_erase_eq.
  - split; [done|]. split; [done|]. split; [|done]. cbn. split; auto.
    intros p Hp%list_elem_of_singleton Hr'. by subst p.
Qed.

(** A loop whose rounds each take out what [paths] says. *)
Lemma for_each_takes_out {X} (f : X -> M S unit) (paths : X -> list string) (P : S -> Prop) l st :
  (forall x st', P st' -> takes_out (paths x) st' (f x st')) ->
  (forall ps st1 st2, P st1 -> takes_out ps st1 (Ret tt, st2) -> P st2) ->
  P st -> cont_wf (container st) -> takes_out (l ≫= paths) st (for_each f l st).
Proof.
  intros Hf Hkeep. revert st. induction l as [|x l IH]; intros st HP Hwf.
  - split; [done|]. split; [done|]. split; [by apply removes_nil|done].
  - cbn [for_each mbind list_bind]. apply takes_out_bind; [by apply Hf|]. intros st' Hst. apply IH.
    + by eapply Hkeep.
    + apply Hst.
Qed.

Lemma bind_singleton {X} (l : list X) : l = (l ≫= fun x => [x]).
Proof. induction l as [|x l IH]; [done|]. cbn. f_equal. exact IH. Qed.

Lemma try_removes paths st : cont_wf (container st) -> takes_out paths st (for_each try_remove paths st).
Proof.
  intros Hwf. rewrite (bind_singleton paths) at 1.
  apply (for_each_takes_out try_remove (fun p => [p]) (fun st => cont_wf (container st))); try done.
  - intros p st'. apply try_remove_takes_out.
  - intros ps st1 st2 _ (_ & _ & Hr & _). apply Hr.
Qed.

(** What the destructor of an addon may do: take out its own objects. *)
Definition own_paths (a : A) : list string := addon_objects a ≫= fun io => io.2.*2.

Class AddonOk := destroy_addon_ok : forall a st, cont_wf (container st) ->
  takes_out (own_paths a) st (destroy_addon a st).

Definition input_at (ps : list string) (k : nat) : list string := option_list (ps !! k).
Definition sink_at (v : list (list (option (string * nat)))) (loc : SinkLoc) : list string :=
  match (ch ← v !! loc_channel loc; os ← ch !! loc_slot loc; os) with Some s => [s.1] | None => [] end.

Lemma receiver_run {X} (m : M R X) st :
  receiver m st = ((m (others st)).1, mkDaemon (container st) (clients st) (calling_client_id st) (m (others st)).2).
Proof. unfold receiver, zoom. by destruct (m (others st)). Qed.

Lemma bind_gets {X Y} (f : S -> X) (k : X -> M S Y) st : (gets f ≫= k) st = k (f st) st.
Proof. done. Qed.

Lemma unpublish_input_takes_out k st : cont_wf (container st) ->
  takes_out (input_at (in_path <$> r_inputs (others st)) k) st (unpublish_input k st).
Proof.
  intros Hwf. unfold input_at, unpublish_input. rewrite list_lookup_fmap, bind_gets.
  destruct (r_inputs (others st) !! k) as [i|] eqn:Ei; cbn [fmap option_fmap option_map option_list].
  2: { split; [done|]. split; [done|]. split; [by apply removes_nil|done]. }
  apply (takes_out_bind [] [in_path i]); [|intros st1 H1; apply (takes_out_bind [] [in_path i]); [|intros st2 H2; apply try_remove_takes_out, H2]].
  - split; [done|]. split; [done|]. split; [by apply removes_nil|by split].
  - apply takes_out_nothing; [apply H1|]. split; try done. cbn.
    apply list_eq. intros j. rewrite !list_lookup_fmap. destruct (decide (j = k)) as [->|Hne].
    + rewrite list_lookup_alter_eq. by destruct (r_inputs (others st1) !! k).
    + by rewrite list_lookup_alter_ne.
Qed.

Lemma find_sink_view loc e : sink_view <$> find_sink loc e =
  (ch ← view e !! loc_channel loc; os ← ch !! loc_slot loc; os).
Proof.
  unfold find_sink, view. rewrite list_lookup_fmap. destruct (ECAchannels e !! loc_channel loc) as [ch|]; cbn; [|done].
  rewrite list_lookup_fmap. by destruct (ch !! loc_slot loc).
Qed.

Lemma view_write_sink loc s s' e : find_sink loc e = Some s -> sink_view s' = sink_view s ->
  view (write_sink loc (Some s') e) = view e.
Proof.
  unfold find_sink, view, write_sink. cbn. intros Hs Ev.
  destruct (ECAchannels e !! loc_channel loc) as [ch|] eqn:Ech; cbn in Hs; [|done].
  destruct (ch !! loc_slot loc) as [os|] eqn:Eos; cbn in Hs; [|done]. subst os.
  apply list_eq. intros j. rewrite !list_lookup_fmap. destruct (decide (j = loc_channel loc)) as [->|Hne].
  - rewrite list_lookup_alter_eq, Ech. cbn. f_equal. rewrite list_fmap_insert. cbn. rewrite Ev.
    apply list_insert_id. by rewrite list_lookup_fmap, Eos.
  - by rewrite list_lookup_alter_ne.
Qed.

Lemma unpublish_sink_takes_out loc st : cont_wf (container st) ->
  takes_out (sink_at (view (w_eca (r_world (others st)))) loc) st (unpublish_sink loc st).
Proof.
  intros Hwf. unfold sink_at, unpublish_sink. rewrite <- find_sink_view, bind_gets.
  destruct (find_sink loc (w_eca (r_world (others st)))) as [s|] eqn:Es; cbn [fmap option_fmap option_map].
  2: { split; [done|]. split; [done|]. split; [by apply removes_nil|done]. }
  apply (takes_out_bind [] [as_path s]); [|intros st1 H1; apply (takes_out_bind [] [as_path s]); [|intros st2 H2; apply try_remove_takes_out, H2]].
  - split; [done|]. split; [done|]. split; [by apply removes_nil|by split].
  - (* the sink is still there *)
    destruct H1 as (_ & _ & Hr & [_ Hv _ _]). split; [done|]. split; [done|]. split; [apply removes_nil, Hr|].
    split; try done. cbn. assert (sink_view <$> find_sink loc (w_eca (r_world (others st1))) = Some (sink_view s)) as Ef.
    { rewrite find_sink_view. cbn in Hv. rewrite Hv, <- find_sink_view, Es. done. }
    destruct (find_sink loc (w_eca (r_world (others st1)))) as [s1|] eqn:E1; [|done]. injection Ef as Ep En.
    eapply view_write_sink; [exact E1|]. unfold sink_view. cbn. congruence.
Qed.

Lemma elem_input_at ps p : p ∈ (seq 0 (length ps) ≫= input_at ps) <-> p ∈ ps.
Proof.
  rewrite list_elem_of_bind. unfold input_at. split.
  - intros (k & Hk & _). destruct (ps !! k) eqn:E; cbn in Hk; [|by apply elem_of_nil in Hk].
    apply list_elem_of_singleton in Hk as ->. by eapply list_elem_of_lookup_2.
  - intros [k Hk]%list_elem_of_lookup. exists k. rewrite Hk. split; [by left|].
    apply elem_of_seq. apply lookup_lt_Some in Hk. lia.
Qed.

Lemma elem_sink_locs e p : p ∈ (sink_locs e ≫= sink_at (view e)) <-> p ∈ as_path <$> sinks_of e.
Proof.
  rewrite list_elem_of_bind. rewrite list_elem_of_fmap. unfold sink_at, sinks_of. split.
  - intros (loc & Hp & _). rewrite <- find_sink_view in Hp.
    destruct (find_sink loc e) as [s|] eqn:Es; cbn in Hp; [|by apply elem_of_nil in Hp].
    apply list_elem_of_singleton in Hp as ->. exists s. split; [done|].
    apply list_elem_of_omap. exists (Some s). split; [|done]. apply list_elem_of_In, in_concat.
    unfold find_sink in Es. destruct (ECAchannels e !! loc_channel loc) as [ch|] eqn:Ech; cbn in Es; [|done].
    destruct (ch !! loc_slot loc) as [os|] eqn:Eos; cbn in Es; [|done]. subst os.
    exists ch. rewrite <- !list_elem_of_In. split; by eapply list_elem_of_lookup_2.
  - intros (s & -> & (os & Hin & Eos)%list_elem_of_omap). cbn in Eos. subst os.
    apply list_elem_of_In, in_concat in Hin as (ch & Hch & Hs). apply list_elem_of_In in Hch. apply list_elem_of_In in Hs.
    apply list_elem_of_lookup in Hch as [j Hj]. apply list_elem_of_lookup in Hs as [k Hk].
    exists (mkLoc j k). rewrite <- find_sink_view. unfold find_sink. cbn. rewrite Hj. cbn. rewrite Hk. cbn.
    split; [by left|]. unfold sink_locs. apply list_elem_of_In, in_concat. exists (mkLoc j <$> seq 0 (length ch)).
    rewrite <- !list_elem_of_In. split.
    + apply list_elem_of_lookup. exists j. rewrite list_lookup_imap, Hj. done.
    + apply list_elem_of_fmap. exists k. split; [done|]. apply elem_of_seq. apply lookup_lt_Some in Hk. lia.
Qed.

Lemma sinks_of_view e : sink_view <$> sinks_of e = omap (fun s => s) (concat (view e)).
Proof.
  unfold sinks_of, view. generalize (ECAchannels e) as chs. intros chs.
  induction chs as [|ch chs IH]; [done|]. cbn [concat fmap list_fmap]. rewrite !omap_app, fmap_app. f_equal; [|exact IH].
  clear IH. induction ch as [|[s|] ch IH]; cbn; [done|by f_equal|done].
Qed.

Lemma sinks_of_same e e' : view e' = view e -> sink_view <$> sinks_of e' = sink_view <$> sinks_of e.
Proof. intros E. by rewrite !sinks_of_view, E. Qed.

Definition no_conditions (l : list (string * nat)) : Prop := Forall (fun v => v.2 = 0%nat) l.

Lemma no_conditions_cons s l :
  no_conditions (sink_view <$> s :: l) <-> length (conditions s) = 0%nat /\ no_conditions (sink_view <$> l).
Proof. unfold no_conditions. by rewrite fmap_cons, Forall_cons. Qed.

(** Destroying the sinks ends the process iff one of them has conditions. *)
Lemma run_destroy_sinks l (w : World D) : has_container (w_caller w) = true ->
  match for_each destroy_sink l w with
  | (Ret _, _) => no_conditions (sink_view <$> l)
  | (Throw _, _) => False
  | (Crash _, _) => ~ no_conditions (sink_view <$> l)
  end.
Proof.
  revert w. induction l as [|s l IH]; intros w Hc; cbn [for_each]; [by constructor|].
  assert (exists w', w_caller w' = w_caller w /\
    (length (conditions s) = 0%nat /\ destroy_sink s w = (Ret tt, w') \/
     length (conditions s) <> 0%nat /\ exists why, destroy_sink s w = (Crash why, w'))) as (w' & Hw & Hs).
  { unfold destroy_sink, unhook, on_timers. mrun. cbn [w_caller w_loop]. rewrite Hc. cbn [andb].
    case_bool_decide as Hlen; cbn [negb]; (eexists; split; cycle 1; [first [left; by eauto|right; by eauto]|reflexivity]). }
  unfold mbind, M_bind. destruct Hs as [[Hlen ->]|[Hlen [why ->]]]; [|rewrite no_conditions_cons; tauto].
  rewrite <- Hw in Hc. specialize (IH w' Hc). destruct (for_each destroy_sink l w') as [[u|e|why] w'']; rewrite ?no_conditions_cons; tauto.
Qed.

Definition published (r : R) : list string :=
  addon_paths addon_objects (addons r) ++ (in_path <$> r_inputs r) ++ (as_path <$> sinks_of (w_eca (r_world r))).

Lemma same_published r r' : same_objects r r' -> published r' = published r.
Proof.
  intros [Hi Hv _ Ha]. unfold published. rewrite Hi, Ha. do 2 f_equal.
  assert (forall l : list ActionSink, as_path <$> l = fst <$> (sink_view <$> l)) as E by (intros l; by rewrite <- list_fmap_compose).
  by rewrite !E, (sinks_of_same _ _ Hv).
Qed.

Lemma inputs_taken_out st : cont_wf (container st) -> has_container (w_caller (r_world (others st))) = true ->
  takes_out (in_path <$> r_inputs (others st)) st (ECA_TLU_destroy st).
Proof.
  intros Hwf Hc. unfold ECA_TLU_destroy. rewrite bind_gets, Hc. set (ps := in_path <$> r_inputs (others st)).
  assert (takes_out (seq 0 (length ps) ≫= input_at ps) st (for_each unpublish_input (seq 0 (length (r_inputs (others st)))) st)) as Ht.
  { replace (length (r_inputs (others st))) with (length ps) by (unfold ps; apply length_fmap).
    apply (for_each_takes_out _ _ (fun st' => cont_wf (container st') /\ in_path <$> r_inputs (others st') = ps)); auto.
    - intros k st' [Hwf' <-]. by apply unpublish_input_takes_out.
    - intros l st1 st2 [H1 <-] (_ & _ & Hr & Ho). split; [apply Hr|apply Ho]. }
  destruct Ht as (E1 & E2 & Hr & Ho). split; [done|]. split; [done|]. split; [|done].
  eapply removes_ext; [|exact Hr]. intros p. apply elem_input_at.
Qed.

Lemma sinks_taken_out st : cont_wf (container st) ->
  takes_out (as_path <$> sinks_of (w_eca (r_world (others st)))) st
    (for_each unpublish_sink (sink_locs (w_eca (r_world (others st)))) st).
Proof.
  intros Hwf. set (e := w_eca (r_world (others st))).
  assert (takes_out (sink_locs e ≫= sink_at (view e)) st (for_each unpublish_sink (sink_locs e) st)) as Ht.
  { apply (for_each_takes_out _ _ (fun st' => cont_wf (container st') /\ view (w_eca (r_world (others st'))) = view e)); auto.
    - intros loc st' [Hwf' <-]. by apply unpublish_sink_takes_out.
    - intros l st1 st2 [H1 <-] (_ & _ & Hr & Ho). split; [apply Hr|apply Ho]. }
  destruct Ht as (E1 & E2 & Hr & Ho). split; [done|]. split; [done|]. split; [|done].
  eapply removes_ext; [|exact Hr]. intros p. apply elem_sink_locs.
Qed.

Lemma addons_taken_out `{!AddonOk} (l : list (string * A)) st : cont_wf (container st) ->
  takes_out (l ≫= fun a => own_paths a.2) st (for_each (fun a => destroy_addon a.2) l st).
Proof.
  intros Hwf. apply (for_each_takes_out _ (fun a => own_paths a.2) (fun st' => cont_wf (container st'))); auto.
  intros ps st1 st2 _ (_ & _ & Hr & _). apply Hr.
Qed.

(** The destruction of a timing receiver takes all objects that it published out
    of the container, those of its addons, its inputs and its sinks, as far as
    the calling client may remove them, and touches no other object; it never
    throws.  The only thing that stops it is a sink that still has conditions:
    then, and only then, the process ends (the destructor of the sink throws). *)
Lemma delete_receiver_spec `{!AddonOk} st (Hwf : cont_wf (container st))
    (Hcont : has_container (w_caller (r_world (others st))) = true) :
  let sinks := sinks_of (w_eca (r_world (others st))) in
  match delete_receiver addon_objects destroy_addon st with
  | (Ret _, st') =>
      removes (calling_client_id st) (published (others st)) (container st) (container st') /\
      Forall (fun s => conditions s = []) sinks
  | (Throw _, _) => False
  | (Crash _, _) => Exists (fun s => conditions s <> []) sinks
  end.
Proof.
  intros sinks. set (r := others st). fold r in Hcont.
  assert (forall l : list ActionSink, no_conditions (sink_view <$> l) <-> Forall (fun s => conditions s = []) l) as Hnc.
  { intros l. unfold no_conditions. rewrite Forall_fmap. apply Forall_iff. intros s. cbn. apply length_zero_iff_nil. }
  set (front := TimingReceiver_destroy addon_objects;; r ← gets others; for_each (fun a => destroy_addon a.2) (addons r);; ECA_TLU_destroy).
  assert (takes_out (addon_paths addon_objects (addons r) ++ addon_paths addon_objects (addons r) ++ (in_path <$> r_inputs r)) st (front st)) as Hfront.
  { apply takes_out_bind.
    - unfold TimingReceiver_destroy. apply (takes_out_bind []); [by apply takes_out_nothing|].
      intros st' H1. rewrite bind_gets. destruct H1 as (_ & _ & Hr & [_ _ Hc Ha]). cbn in Hc, Ha. fold r in Hc, Ha. rewrite Hc, Hcont, <- Ha. apply try_removes, Hr.
    - intros st1 H1. rewrite bind_gets. destruct H1 as (_ & _ & Hr1 & [Hi _ Hc Ha]). cbn in Hr1, Hi, Hc, Ha.
      fold r in Ha, Hi. rewrite <- Ha, <- Hi. apply takes_out_bind.
      + unfold addon_paths. apply addons_taken_out, Hr1.
      + intros st2 (_ & _ & Hr2 & [Hi2 _ Hc2 _]). cbn in Hr2, Hi2, Hc2. rewrite <- Hi2. apply inputs_taken_out; [apply Hr2|].
        by rewrite Hc2, Hc. }
  assert (delete_receiver addon_objects destroy_addon st = (front;; ECA_destroy) st) as ->.
  { unfold front, delete_receiver. mrun. destruct (TimingReceiver_destroy addon_objects st) as [[?|?|?] st1]; [|done|done].
    by destruct (for_each _ _ st1) as [[?|?|?] st2]. }
  unfold mbind at 1, M_bind at 1. destruct (front st) as [res st1]. destruct Hfront as (E & Hcl & Hr & Ho).
  cbn in E, Hcl, Hr, Ho. subst res. unfold ECA_destroy. rewrite bind_gets.
  pose proof Ho as [_ Hv Hc _]. fold r in Hc. rewrite Hc, Hcont.
  pose proof (sinks_taken_out st1 (rm_wf _ _ _ _ Hr)) as Hs.
  unfold mbind at 1, M_bind at 1. destruct (for_each unpublish_sink _ st1) as [res st2].
  destruct Hs as (E & Hcl2 & Hr2 & Ho2). cbn in E, Hcl2, Hr2, Ho2. subst res. rewrite bind_gets, receiver_run.
  unfold eca_part, zoom. pose proof Ho2 as [_ Hv2 Hc2 _].
  pose proof (run_destroy_sinks (sinks_of (w_eca (r_world (others st2)))) (r_world (others st2))) as Hd.
  rewrite Hc2, Hc in Hd. specialize (Hd Hcont).
  pose proof (sinks_of_same _ _ (eq_trans Hv2 Hv)) as Esv.
  destruct (for_each destroy_sink _ (r_world (others st2))) as [[u|e|why] w']; cbn.
  - rewrite Esv, Hnc in Hd. split; [|exact Hd]. rewrite Hcl in Hr2. pose proof (removes_app _ _ _ _ _ _ Hr Hr2) as Hall.
    eapply removes_ext; [|exact Hall]. intros p. unfold published. rewrite !elem_of_app.
    assert (as_path <$> sinks_of (w_eca (r_world (others st1))) = as_path <$> sinks_of (w_eca (r_world r))) as ->.
    { assert (forall l : list ActionSink, as_path <$> l = fst <$> (sink_view <$> l)) as Ep by (intros l; by rewrite <- list_fmap_compose).
      by rewrite !Ep, (sinks_of_same _ _ Hv). }
    tauto.
  - done.
  - rewrite Esv, Hnc in Hd. apply not_Forall_Exists in Hd; [exact Hd|].
    intros s. destruct (conditions s); [by left|by right].
Qed.
End Destructors.

(** ** Putting objects into a container *)
Section Adds.
Context {CB : Type} (good : string -> Service CB -> Prop).
Implicit Types (c : Container CB) (paths : list string).

(** There are objects at [paths], the new ones nobody's and each a service that is
    [good] for its path; nothing else changed. *)
Record adds paths c c' : Prop := {
  ad_wf : cont_wf c';
  ad_generator : 0 <= generator c' < 2 ^ 32;
  ad_length : (length (objects c') <= length (objects c) + length paths)%nat;
  ad_keep : forall p id, map_find p (lookup_table c) = Some id -> map_find p (lookup_table c') = Some id;
  ad_there : forall p, p ∈ paths -> map_find p (lookup_table c') <> None;
  ad_new : forall p id, map_find p (lookup_table c') = Some id -> map_find p (lookup_table c) = Some id \/ p ∈ paths;
  ad_services : forall id s, find_service id c' = Some s ->
    find_service id c = Some s \/
    (object_path s ∈ paths /\ owner s = -1 /\
     exists sv, good (object_path s) sv /\ s = set_place id (object_path s) sv);
  ad_stay : forall id s, find_service id c = Some s -> find_service id c' = Some s
}.

Definition roomy (n : nat) c : Prop :=
  cont_wf c /\ 0 <= generator c < 2 ^ 32 /\ Z.of_nat (length (objects c)) + Z.of_nat n + 1 <= 2 ^ 32.

Lemma adds_nil c n : roomy n c -> adds [] c c.
Proof. intros (? & ? & _). split; auto; [cbn; lia|]. by intros p Hp%elem_of_nil. Qed.

Lemma adds_roomy paths n c c' : adds paths c c' -> roomy (length paths + n) c -> roomy n c'.
Proof. intros [] (_ & _ & ?). split; [done|]. split; [done|]. lia. Qed.

Lemma adds_app p1 p2 c c1 c2 : adds p1 c c1 -> adds p2 c1 c2 -> adds (p1 ++ p2) c c2.
Proof.
  intros [W1 G1 L1 K1 T1 N1 S1 P1] [W2 G2 L2 K2 T2 N2 S2 P2]. split; auto.
  - rewrite length_app. lia.
  - intros p [Hp|Hp]%elem_of_app; [|by apply T2]. pose proof (T1 _ Hp) as Hn.
    destruct (map_find p (lookup_table c1)) as [id|] eqn:E; [|done]. by rewrite (K2 _ _ E).
  - intros p id Hp. rewrite elem_of_app. destruct (N2 _ _ Hp) as [H1|H1]; [|tauto]. destruct (N1 _ _ H1); tauto.
  - intros id s Hs. rewrite elem_of_app. destruct (S2 _ _ Hs) as [H1|[H1 ?]]; [|tauto]. destruct (S1 _ _ H1) as [|[]]; tauto.
Qed.

Lemma map_set_length {V} k (v : V) (m : list (Z * V)) : (length (map_set k v m) <= S (length m))%nat.
Proof.
  induction m as [|[k' v'] m IH]; cbn; [lia|]. repeat (case_match || case_decide); cbn; lia.
Qed.

Lemma create_object_adds path (s : Service CB) c : roomy 1 c -> owner s = -1 -> good path s ->
  adds [path] c (create_object path s c).2.
Proof.
  intros (Hwf & Hgen & Hlen) Hs Hgood. destruct (create_object path s c) as [id c'] eqn:E.
  pose proof (create_object_correct c path s id c' Hwf Hgen ltac:(lia) E) as [Hwf' Hc]. cbn.
  destruct (map_find path (lookup_table c)) as [i|] eqn:Ei.
  - destruct Hc as [-> ->]. split; auto; [cbn; lia|]. intros p ->%list_elem_of_singleton. congruence.
  - destruct Hc as (Hid & Hnone & Hpath & Hserv & Hother).
    unfold create_object, map_mem in E. rewrite Ei in E.
    destruct (generate_saftbus_object_id c) as [[g c1]|] eqn:Eg; [|by injection E as <- <-].
    unfold generate_saftbus_object_id in Eg. destruct (next_free _ _ c) as [g'|]; cbn in Eg; [|done].
    injection Eg as <- <-. injection E as <- <-. split; auto.
    + cbn. by apply unsigned_wrap_range.
    + cbn [length]. cbn. pose proof (map_set_length g' (Some (set_place g' path s)) (objects c)). lia.
    + intros p id Hp. cbn. rewrite map_find_set_ne; [done|]. congruence.
    + intros p ->%list_elem_of_singleton. by rewrite Hpath.
    + intros p id Hp. destruct (decide (p = path)) as [->|Hne]; [right; by left|]. left.
      cbn in Hp. by rewrite map_find_set_ne in Hp.
    + intros id s' Hs'. destruct (decide (id = g')) as [->|Hne].
      * rewrite Hserv in Hs'. injection Hs' as <-. right. split; [by left|]. split; [done|]. by exists s.
      * left. by rewrite <- Hother.
    + intros id s' Hs'. rewrite Hother; [done|]. intros ->. congruence.
Qed.
End Adds.

(** ** The constructor *)
Section Constructor.
Context {D A CB : Type} `{HB : BusOk D}.
Context (eca_adr tlu_adr wr_adr watchdog_adr watchdog_value reset_adr : Z).
Context (input_service output_service : Service CB) (now rnd : Z).
Context (Hin : owner input_service = -1) (Hout : owner output_service = -1).
Context (good : string -> Service CB -> Prop).
#[local] Abbreviation R := (Receiver D A).
#[local] Abbreviation S := (Daemon CB (Receiver D A)).
Implicit Types (st : Daemon CB (Receiver D A)) (r : Receiver D A).

(** What an I/O becomes: an input of the trigger unit, a sink of the ECA, or
    both, each with the path of the other. *)
Definition io_paths (path : string) (io : Io) : list string :=
  (if is_input (io_direction io) then [input_path path io] else []) ++
  (if is_output (io_direction io) then [output_path path io] else []).
Definition io_inputs (path : string) (io : Io) : list Input :=
  if is_input (io_direction io)
  then [mkInput (input_path path io) io (output_path path io) (io_eca_in io) (Some (-1)) false 0 80] else [].
Definition io_sinks (path : string) (io : Io) : list (option (string * nat)) :=
  if is_output (io_direction io) then [Some (output_path path io, 0%nat)] else [].

Record attached (paths : list string) (ins : list Input) (outs : list (option (string * nat))) st st' : Prop := {
  at_adds : adds good paths (container st) (container st');
  at_calling : calling_client_id st' = calling_client_id st;
  at_caller : w_caller (r_world (others st')) = w_caller (r_world (others st));
  at_inputs : r_inputs (others st') = r_inputs (others st) ++ ins;
  at_sinks : view (w_eca (r_world (others st'))) = alter (fun ch => ch ++ outs) 0%nat (view (w_eca (r_world (others st))));
  at_addons : addons (others st') = addons (others st)
}.

Definition too_wide : string := "earlyThreshold <<= raw_offset_bits".
Definition attaches (paths : list string) (ins : list Input) (outs : list (option (string * nat))) st (res : outcome unit * S) : Prop :=
  match res with
  | (Ret _, st') => attached paths ins outs st st'
  | (Throw e, _) => e = EtherboneError
  | (Crash why, _) => why = too_wide
  end.

(** What the steps need: a container with room, in a receiver with channels. *)
Definition can_attach (n : nat) st : Prop :=
  roomy n (container st) /\ has_container (w_caller (r_world (others st))) = true /\
  (0 < length (ECAchannels (w_eca (r_world (others st)))))%nat.

Lemma view_length e : length (view e) = length (ECAchannels e).
Proof. apply length_fmap. Qed.

Lemma attached_can paths ins outs st st' n :
  attached paths ins outs st st' -> can_attach (length paths + n) st -> can_attach n st'.
Proof.
  intros [Ha _ Hc _ Hs _] (Hr & Hcont & Hlen). split; [by eapply adds_roomy|]. split; [congruence|].
  apply (f_equal length) in Hs. rewrite length_alter, !view_length in Hs. lia.
Qed.

Lemma attaches_nothing st : can_attach 0 st -> attaches [] [] [] st (Ret tt, st).
Proof.
  intros (Hr & _). split; try done; [by eapply adds_nil|by rewrite app_nil_r|].
  symmetry. apply list_alter_id. intros ch. by rewrite app_nil_r.
Qed.

Lemma can_attach_le n m st : (n <= m)%nat -> can_attach m st -> can_attach n st.
Proof. intros Hn ((Hwf & Hg & Hl) & Hc & Hch). split; [|done]. split; [done|]. split; [done|]. lia. Qed.

Lemma alter_app_twice {X} (l : list (list X)) o1 o2 :
  alter (fun ch => ch ++ o2) 0%nat (alter (fun ch => ch ++ o1) 0%nat l) = alter (fun ch => ch ++ o1 ++ o2) 0%nat l.
Proof. destruct l as [|ch l]; [done|]. cbn. by rewrite app_assoc. Qed.

Lemma attaches_bind p1 p2 i1 i2 o1 o2 st (m : M S unit) (k : unit -> M S unit) :
  can_attach (length p1 + length p2) st ->
  attaches p1 i1 o1 st (m st) ->
  (forall st', can_attach (length p2) st' -> attaches p2 i2 o2 st' (k tt st')) ->
  attaches (p1 ++ p2) (i1 ++ i2) (o1 ++ o2) st ((m ≫= k) st).
Proof.
  intros Hcan Hm Hk. unfold mbind, M_bind. destruct (m st) as [[[]|e|why] st1]; [|done|done].
  cbn in Hm. specialize (Hk st1 (attached_can _ _ _ _ _ _ Hm Hcan)).
  destruct (k tt st1) as [[[]|e|why] st2]; [|done|done]. cbn in Hk |- *.
  destruct Hm as [A1 C1 W1 I1 V1 D1], Hk as [A2 C2 W2 I2 V2 D2]. split.
  - by eapply adds_app.
  - congruence.
  - congruence.
  - by rewrite I2, I1, app_assoc.
  - rewrite V2, V1. apply alter_app_twice.
  - congruence.
Qed.

(** Each step, from what it does to the receiver. *)
Lemma publish_adds path (s : Service CB) st : can_attach 1 st -> owner s = -1 -> good path s ->
  exists c', publish path s st = (Ret tt, mkDaemon c' (clients st) (calling_client_id st) (others st)) /\
    adds good [path] (container st) c'.
Proof.
  intros (Hr & Hc & _) Hs Hgood. unfold publish. rewrite (run_bind_ret _ _ _ (w_caller (r_world (others st))) st) by (by destruct st).
  rewrite Hc. eexists. split; [done|]. by apply create_object_adds.
Qed.

Lemma attach_input_attaches path io st : can_attach 1 st -> good (input_path path io) input_service ->
  attaches [input_path path io]
    [mkInput (input_path path io) io (output_path path io) (io_eca_in io) (Some (-1)) false 0 80] [] st
    (attach_input tlu_adr input_service path io st).
Proof.
  intros Hcan Hgood. pose proof Hcan as (_ & Hc & Hch). unfold attach_input.
  rewrite (run_bind_ret _ _ _ (w_caller (r_world (others st))) st) by (by destruct st).
  unfold mbind at 1, M_bind at 1. rewrite receiver_run. unfold tlu_part, new_input, configInput, on_tlu, cycle, zoom. mrun.
  cbn [t_dev]. destruct (bus_cycle _ _) as [[rs d']|]; [|done]. cbn [fst snd]. rewrite Hc.
  set (st1 := mkDaemon _ _ _ _).
  destruct (publish_adds (input_path path io) input_service st1) as (c' & -> & Ha); [|done|done|].
  { split; [exact (proj1 Hcan)|]. done. }
  split; try done. cbn. symmetry. apply list_alter_id. intros ch. by rewrite app_nil_r.
Qed.

(** The constructor of a sink reads the hardware and changes nothing else. *)
Lemma new_output_sink path name num (w : World D) : has_container (w_caller w) = true ->
  match (s ← new_sink eca_adr OutputSink path name eca_channel_for_outputs num; served (Some (-1)) s) w with
  | (Ret s, w') => sink_view s = (path, 0%nat) /\ w_eca w' = w_eca w /\ w_caller w' = w_caller w
  | (Throw e, _) => e = EtherboneError
  | (Crash why, _) => why = too_wide
  end.
Proof.
  intros Hc. unfold new_sink, dev_cycle, on_dev, zoom, cycle, served. mrun. cbn [w_dev].
  destruct (bus_cycle _ _) as [[rs d']|]; [|done]. cbn [w_caller].
  destruct (64 <=? _); [done|]. cbn [w_caller]. by rewrite Hc.
Qed.

Lemma view_push s e :
  view (set_channels (alter (fun ch => ch ++ [Some s]) 0%nat) e) = alter (fun ch => ch ++ [Some (sink_view s)]) 0%nat (view e).
Proof.
  unfold view. cbn [ECAchannels set_channels]. destruct (ECAchannels e) as [|ch chs]; [done|].
  change (?f <$> alter ?g 0%nat (ch :: chs)) with (f (g ch) :: (f <$> chs)). cbn beta. by rewrite fmap_app.
Qed.

Lemma eca_part_run {X} (m : M (World D) X) r :
  eca_part m r = ((m (r_world r)).1, set_world (m (r_world r)).2 r).
Proof. unfold eca_part, zoom. by destruct (m (r_world r)). Qed.

Lemma attach_output_attaches path io st : can_attach 1 st -> good (output_path path io) output_service ->
  attaches [output_path path io] [] [Some (output_path path io, 0%nat)] st
    (attach_output eca_adr output_service path io st).
Proof.
  intros Hcan Hgood. pose proof Hcan as (Hr & Hc & Hch). unfold attach_output.
  unfold mbind at 1, M_bind at 1. rewrite receiver_run, eca_part_run.
  pose proof (new_output_sink (output_path path io) (io_name io) (io_eca_out io) (r_world (others st)) Hc) as Hs.
  destruct ((s ← new_sink _ _ _ _ _ _; served _ s) (r_world (others st))) as [[s|e|why] w']; [|done|done].
  destruct Hs as (Hv & He & Hw). cbn [fst snd]. set (st1 := mkDaemon _ _ _ _).
  destruct (publish_adds (output_path path io) output_service st1) as (c' & Hp & Ha); [|done|done|].
  { split; [done|]. cbn. by rewrite Hw, He. }
  unfold mbind at 1, M_bind at 1. rewrite Hp. unfold mbind at 1, M_bind at 1. rewrite receiver_run, eca_part_run.
  unfold addActionSink, push_sink, on_eca, massert. mrun. cbn [r_world others set_world w_eca st1].
  rewrite He. unfold eca_channel_for_outputs.
  rewrite (proj2 (Z.ltb_lt 0 (Z.of_nat (length (ECAchannels (w_eca (r_world (others st))))))) ltac:(lia)). cbn.
  split; try done.
  - cbn. by rewrite app_nil_r.
  - etrans; [apply (view_push s (w_eca w'))|]. by rewrite Hv, He.
Qed.

(** The services that go to the paths of an I/O. *)
Definition suits (path : string) : Prop :=
  (forall io, is_input (io_direction io) = true -> good (input_path path io) input_service) /\
  (forall io, is_output (io_direction io) = true -> good (output_path path io) output_service).

Lemma attach_io_attaches path io st : suits path -> can_attach (length (io_paths path io)) st ->
  attaches (io_paths path io) (io_inputs path io) (io_sinks path io) st
    (attach_io eca_adr tlu_adr input_service output_service path io st).
Proof.
  intros [Hgi Hgo] Hcan. unfold attach_io, io_paths, io_inputs, io_sinks in *.
  rewrite <- (app_nil_r (if is_input _ then [mkInput _ _ _ _ _ _ _ _] else [])), <- (app_nil_l (if is_output _ then [Some _] else [])).
  rewrite length_app in Hcan. apply attaches_bind; [done| |].
  - destruct (is_input _) eqn:E.
    + apply attach_input_attaches; [|by apply Hgi]. eapply can_attach_le; [|exact Hcan]. cbn. lia.
    + apply attaches_nothing. eapply can_attach_le; [|exact Hcan]. lia.
  - intros st' Hcan'. destruct (is_output _) eqn:E; [apply attach_output_attaches; [done|by apply Hgo]|by apply attaches_nothing].
Qed.

Lemma attach_all path ios st : suits path -> can_attach (length (ios ≫= io_paths path)) st ->
  attaches (ios ≫= io_paths path) (ios ≫= io_inputs path) (ios ≫= io_sinks path) st
    (for_each (attach_io eca_adr tlu_adr input_service output_service path) ios st).
Proof.
  intros Hg. revert st. induction ios as [|io ios IH]; intros st Hcan; [by apply attaches_nothing|].
  cbn [mbind list_bind for_each] in *. rewrite length_app in Hcan. apply attaches_bind; [done| |].
  - apply attach_io_attaches; [done|]. eapply can_attach_le; [|exact Hcan]. lia.
  - intros st' Hcan'. by apply IH.
Qed.

Lemma poll_result r :
  match poll wr_adr watchdog_adr watchdog_value reset_adr r with
  | (Ret _, r') => r_inputs r' = r_inputs r /\ w_eca (r_world r') = w_eca (r_world r) /\
                   w_caller (r_world r') = w_caller (r_world r) /\ addons r' = addons r
  | (Throw e, _) => e = EtherboneError
  | (Crash _, _) => False
  end.
Proof.
  unfold poll, poll_part, TimingReceiver_poll, getLocked, zoom. mrun.
  pose proof (dev_read_no_crash (wr_adr + WR_PPS_GEN_ESCR) (w_dev (r_world r))) as Hcrash.
  assert (match dev_read (wr_adr + WR_PPS_GEN_ESCR) (w_dev (r_world r)) with (Throw e, _) => e = EtherboneError | _ => True end) as Hthrow.
  { unfold dev_read, cycle. mrun. destruct (bus_cycle _ _) as [[[|v [|v' vs]] d']|]; done. }
  destruct (dev_read _ _) as [[v|e|why] d1]; [|done|by eapply Hcrash].
  cbn [fst snd]. unfold Watchdog_update, WdRetrigger, dev_write, cycle. mrun.
  destruct (bus_cycle _ d1) as [[rs d2]|]; [|done]. by destruct (bus_cycle _ d2) as [[rs' d3]|].
Qed.

Lemma body_attaches ios st :
  forallb is_alnum_ (String.list_ascii_of_string (r_name (others st))) = true -> suits (r_path (others st)) ->
  can_attach (length (ios ≫= io_paths (r_path (others st)))) st ->
  attaches (ios ≫= io_paths (r_path (others st))) (ios ≫= io_inputs (r_path (others st)))
    (ios ≫= io_sinks (r_path (others st))) st
    (TimingReceiver_body eca_adr tlu_adr wr_adr watchdog_adr watchdog_value reset_adr input_service output_service now rnd ios st).
Proof.
  intros Hname Hg Hcan. unfold TimingReceiver_body. rewrite bind_gets. unfold throw_if. rewrite Hname. cbn [negb].
  rewrite (run_bind_ret (mret tt) _ st tt st) by done.
  pose proof (attach_all (r_path (others st)) ios st Hg Hcan) as Hall.
  revert Hall. generalize (ios ≫= io_paths (r_path (others st))), (ios ≫= io_inputs (r_path (others st))),
    (ios ≫= io_sinks (r_path (others st))). intros ps ins outs Hall.
  unfold mbind at 1, M_bind at 1. destruct (for_each _ ios st) as [[[]|e|why] st1]; [|done|done].
  unfold mbind at 1, M_bind at 1. rewrite receiver_run. pose proof (poll_result (others st1)) as Hp.
  destruct (poll _ _ _ _ (others st1)) as [[b|e|why] r']; [|done|done]. cbn [fst snd].
  destruct Hp as (Hi & He & Hw & Ha). rewrite receiver_run. unfold start_polling. cbn [others].
  destruct (connect _ _ _ _) as [h l]. cbn. destruct Hall as [H1 H2 H3 H4 H5 H6]. split; cbn; try done; congruence.
Qed.
End Constructor.

(** ** Construction and destruction *)
Section ComeAndGo.
Context {D A CB : Type} `{HB : BusOk D}.
Context (addon_objects : A -> list (string * list (string * string))).
Context (destroy_addon : A -> M (Daemon CB (Receiver D A)) unit) `{!AddonOk addon_objects destroy_addon}.
Implicit Types (st : Daemon CB (Receiver D A)).

Lemma fst_sink_view (l : list ActionSink) : as_path <$> l = fst <$> (sink_view <$> l).
Proof. by rewrite <- list_fmap_compose. Qed.

Lemma omap_some_id {X} (l : list X) : omap (fun s => s) (Some <$> l) = l.
Proof. induction l as [|x l IH]; [done|]. cbn. by f_equal. Qed.

(** The sinks after the outputs are attached to channel 0. *)
Lemma sinks_after outs e e' : sinks_of e = [] -> (0 < length (ECAchannels e))%nat ->
  view e' = alter (fun ch => ch ++ (Some <$> outs)) 0%nat (view e) -> sink_view <$> sinks_of e' = outs.
Proof.
  intros Hnil Hlen Hv. rewrite sinks_of_view, Hv. pose proof (sinks_of_view e) as E. rewrite Hnil in E. cbn in E.
  rewrite <- view_length in Hlen. destruct (view e) as [|ch chs]; [cbn in Hlen; lia|]. cbn in E |- *.
  rewrite omap_app in E. symmetry in E. apply app_eq_nil in E as [E1 E2].
  rewrite <- app_assoc, !omap_app, E1, E2, omap_some_id. by rewrite app_nil_r.
Qed.

(** An object that was added may be removed by anybody, unless something was
    below its path. *)
Lemma added_removable good cl paths (c c' : Container CB) p : cont_wf c -> adds good paths c c' -> p ∈ paths -> p <> saftbus_path ->
  map_find p (lookup_table c) = None ->
  (forall q id, map_find q (lookup_table c) = Some id -> is_child_path p q = false) -> removable cl p c'.
Proof.
  intros Hwf [Hwf' _ _ _ Hthere _ Hserv _] Hp Hne Hnone Hbelow.
  assert (forall s : Service CB, owner s = -1 -> foreign cl s = false) as Hfree by (intros s E; unfold foreign; by rewrite E).
  split; [done|]. split.
  - pose proof (Hthere _ Hp) as Hn. destruct (map_find p (lookup_table c')) as [id|] eqn:Eid; [|done].
    destruct (wf_path _ Hwf' _ _ Eid) as (s & Hs & Ep). exists id, s. split; [done|]. split; [done|]. apply Hfree.
    destruct (Hserv _ _ Hs) as [Hold|(_ & Ho & _)]; [|done].
    destruct (wf_place _ Hwf _ _ Hold) as (_ & _ & Hpl). congruence.
  - intros id s Hs _ Hchild. destruct (Hserv _ _ Hs) as [Hold|(_ & Ho & _)]; [|by apply Hfree].
    destruct (wf_place _ Hwf _ _ Hold) as (_ & _ & Hpl). rewrite (Hbelow _ _ Hpl) in Hchild. done.
Qed.

Definition is_in (io : Io) : bool := is_input (io_direction io).
Definition is_out (io : Io) : bool := is_output (io_direction io).

Lemma inputs_of_ios path ios :
  (fun i => (in_path i, partnerPath i)) <$> (ios ≫= io_inputs path) =
  (fun io => (input_path path io, output_path path io)) <$> filter (fun io => is_in io = true) ios.
Proof.
  induction ios as [|io ios IH]; [done|]. cbn [mbind list_bind]. rewrite fmap_app, IH, filter_cons. unfold io_inputs, is_in.
  destruct (is_input (io_direction io)); [rewrite decide_True by done|rewrite decide_False by done]; done.
Qed.

Lemma sinks_of_ios path ios :
  (ios ≫= io_sinks path) = Some <$> ((fun io => (output_path path io, 0%nat)) <$> filter (fun io => is_out io = true) ios).
Proof.
  induction ios as [|io ios IH]; [done|]. cbn [mbind list_bind]. change (list_bind _ _ _ ios) with (ios ≫= io_sinks path).
  rewrite IH, filter_cons. unfold io_sinks, is_out.
  destruct (is_output (io_direction io)); [rewrite decide_True by done|rewrite decide_False by done]; done.
Qed.

Lemma elem_io_paths path ios p :
  p ∈ (ios ≫= io_paths path) <->
  p ∈ input_path path <$> filter (fun io => is_in io = true) ios \/ p ∈ output_path path <$> filter (fun io => is_out io = true) ios.
Proof.
  rewrite list_elem_of_bind, !list_elem_of_fmap. unfold io_paths, is_in, is_out. setoid_rewrite elem_of_app.
  setoid_rewrite list_elem_of_filter. split.
  - intros (io & [Hp|Hp] & Hio); destruct (_ (io_direction io)) eqn:E; try by apply elem_of_nil in Hp.
    all: apply list_elem_of_singleton in Hp; eauto 6.
  - intros [(io & -> & E & Hio)|(io & -> & E & Hio)]; exists io; rewrite E; split; auto; [left|right]; by left.
Qed.

(** Destroying a receiver that has exactly the inputs and outputs of its
    constructor. *)
Lemma destroyed_again good client path ios (c : Container CB) st1 :
  cont_wf c -> adds good (ios ≫= io_paths path) c (container st1) ->
  has_container (w_caller (r_world (others st1))) = true -> addons (others st1) = [] ->
  r_inputs (others st1) = ios ≫= io_inputs path ->
  sink_view <$> sinks_of (w_eca (r_world (others st1))) =
    (fun io => (output_path path io, 0%nat)) <$> filter (fun io => is_out io = true) ios ->
  (forall p, p ∈ (ios ≫= io_paths path) ->
    p <> saftbus_path /\ map_find p (lookup_table c) = None /\
    forall q id, map_find q (lookup_table c) = Some id -> is_child_path p q = false) ->
  exists st2, delete_receiver addon_objects destroy_addon (set_caller client st1) = (Ret tt, st2) /\
    forall p, at_path (container st2) p = at_path c p.
Proof.
  intros Hwf Ha Hc Hd Hi Hs Hpaths.
  pose proof (delete_receiver_spec addon_objects destroy_addon (set_caller client st1) (ad_wf _ _ _ _ Ha) Hc) as Hdel.
  cbv zeta in Hdel. cbn [others set_caller] in Hdel.
  assert (forall s, s ∈ sinks_of (w_eca (r_world (others st1))) -> conditions s = []) as Hnone.
  { intros s Hin'. apply (list_elem_of_fmap_2 sink_view) in Hin'. rewrite Hs in Hin'.
    apply list_elem_of_fmap in Hin' as (io & E & _). injection E as _ E. by apply length_zero_iff_nil. }
  assert (forall p, p ∈ published addon_objects (others st1) <-> p ∈ (ios ≫= io_paths path)) as Hpub.
  { intros p. unfold published. rewrite Hd, Hi, fst_sink_view, Hs, elem_io_paths. cbn [addon_paths mbind list_bind app].
    rewrite elem_of_app, <- list_fmap_compose.
    assert (in_path <$> (ios ≫= io_inputs path) = input_path path <$> filter (fun io => is_in io = true) ios) as ->; [|tauto].
    transitivity (fst <$> ((fun i => (in_path i, partnerPath i)) <$> (ios ≫= io_inputs path)));
      [by rewrite <- list_fmap_compose|]. by rewrite inputs_of_ios, <- list_fmap_compose. }
  destruct (delete_receiver _ _ _) as [[[]|e|why] st2]; [|done|].
  2: { exfalso. revert Hdel. apply Forall_not_Exists. apply Forall_forall. intros s Hs' Hne. by apply Hne, Hnone. }
  exists st2. split; [done|]. destruct Hdel as [[Hwf2 Hserv2 Hsub Hother Hgone] _]. intros p.
  pose proof Ha as [_ _ _ Hkeep _ Hnew _ Hstay].
  enough (map_find p (lookup_table (container st2)) = map_find p (lookup_table c)) as E.
  { unfold at_path. rewrite E. destruct (map_find p (lookup_table c)) as [id|] eqn:Ep; [|done]. cbn.
    destruct (wf_path _ Hwf _ _ Ep) as (s1 & Hs1 & _). destruct (wf_path _ Hwf2 _ _ E) as (s2 & Hs2 & _).
    rewrite Hs1, Hs2. apply Hserv2 in Hs2. apply Hstay in Hs1. cbn in Hs2. congruence. }
  destruct (decide (p ∈ (ios ≫= io_paths path))) as [Hp|Hp].
  - destruct (Hpaths _ Hp) as (Hne & Hold & Hbelow). rewrite Hold. apply Hgone; [by apply Hpub|].
    eapply added_removable; [exact Hwf|exact Ha|done..].
  - rewrite Hother by (by rewrite Hpub). cbn.
    destruct (map_find p (lookup_table (container st1))) as [id|] eqn:E.
    + destruct (Hnew _ _ E) as [->|]; [done|contradiction].
    + destruct (map_find p (lookup_table c)) as [id|] eqn:E0; [|done]. rewrite (Hkeep _ _ E0) in E. done.
Qed.

Context (eca_adr tlu_adr wr_adr watchdog_adr watchdog_value reset_adr : Z).
Context (input_service output_service : Service CB) (now rnd : Z).

(** A receiver whose base classes found no other sinks, in a container that has
    room and has nothing at or below the paths of the inputs and outputs. *)
Record fresh_receiver (ios : list Io) st : Prop := {
  fr_name : forallb is_alnum_ (String.list_ascii_of_string (r_name (others st))) = true;
  fr_can : can_attach (length (ios ≫= io_paths (r_path (others st)))) st;
  fr_inputs : r_inputs (others st) = [];
  fr_addons : addons (others st) = [];
  fr_sinks : sinks_of (w_eca (r_world (others st))) = [];
  fr_paths : forall p, p ∈ (ios ≫= io_paths (r_path (others st))) ->
    p <> saftbus_path /\ map_find p (lookup_table (container st)) = None /\
    forall q id, map_find q (lookup_table (container st)) = Some id -> is_child_path p q = false
}.

(** The services of the inputs and outputs, by path. *)
Definition right_service (path : string) (p : string) (s : Service CB) : Prop :=
  (exists io, is_in io = true /\ p = input_path path io /\ s = input_service) \/
  (exists io, is_out io = true /\ p = output_path path io /\ s = output_service).

Lemma input_is_no_output path io io' : is_in io = true -> is_out io' = true ->
  input_path path io <> output_path path io'.
Proof.
  unfold is_in, is_out, input_path, output_path. intros -> ->.
  induction path as [|a path IH]; [discriminate|]. intros [= E]. by apply IH.
Qed.

(** What is at a path that was filled. *)
Lemma added_at_path good paths (c c' : Container CB) p : cont_wf c -> adds good paths c c' ->
  p ∈ paths -> map_find p (lookup_table c) = None ->
  exists id sv, at_path c' p = Some (set_place id p sv) /\ good p sv.
Proof.
  intros Hwf [Hwf' _ _ _ Hthere _ Hserv _] Hp Hnone. pose proof (Hthere _ Hp) as Hn.
  destruct (map_find p (lookup_table c')) as [id|] eqn:E; [|done].
  destruct (wf_path _ Hwf' _ _ E) as (s & Hs & Ep).
  destruct (Hserv _ _ Hs) as [Hold|(_ & _ & sv & Hg & Es)].
  - destruct (wf_place _ Hwf _ _ Hold) as (_ & _ & Hpl). congruence.
  - rewrite Ep in Hg, Es. exists id, sv. split; [|done]. unfold at_path. rewrite E. cbn. by rewrite Hs, Es.
Qed.

Lemma kept_at_path good paths (c c' : Container CB) p : cont_wf c -> adds good paths c c' ->
  p ∉ paths -> at_path c' p = at_path c p.
Proof.
  intros Hwf [_ _ _ Hkeep _ Hnew _ Hstay] Hp. unfold at_path.
  destruct (map_find p (lookup_table c)) as [id|] eqn:E.
  - rewrite (Hkeep _ _ E). cbn. destruct (wf_path _ Hwf _ _ E) as (s & Hs & _). by rewrite Hs, (Hstay _ _ Hs).
  - destruct (map_find p (lookup_table c')) as [id|] eqn:E'; [|done]. destruct (Hnew _ _ E') as [|]; [congruence|done].
Qed.

End ComeAndGo.

(** ** Concrete inputs *)
Module ReceiverDemo.

Definition io_b1 : Io := mkIo "B1" 2 0 0 0 0 0 0 true true false false 0.
Definition io_b2 : Io := mkIo "B2" 1 0 1 0 1 0 0 false true false false 0.
Definition demo_ios : list Io := [io_b1; io_b2].
Definition demo_eca : ECA :=
  mkECA "/de/gsi/saftlib/tr0" 0 1 256 256 128 0 [0] [0] [[]] (-1) 0 [] [] [].
Definition demo_receiver : Receiver ram unit :=
  mkReceiver (mkWorld ram0 demo_eca (mkLoop [] [] false 0 1 1) 0 [] (mkCaller true 4) []) []
    (mkWhiteRabbit false []) [] (mkLoop [] [] false 0 2 1) null_handle "/de/gsi/saftlib/tr0" "tr0".
Definition a_service : Service unit := Service_new ["Interface"%string] None true.
Definition in_service : Service unit := Service_new ["Input"%string] None true.
Definition out_service : Service unit := Service_new ["Output"%string] None true.
Definition demo_container : Container unit := (create_object "/saftbus" a_service (mkContainer [] [] [] [] 0)).2.
Definition demo_daemon : Daemon unit (Receiver ram unit) := mkDaemon demo_container [] 4 demo_receiver.
Definition no_objects (_ : unit) : list (string * list (string * string)) := [].
Definition no_destructor (_ : unit) : M (Daemon unit (Receiver ram unit)) unit := mret tt.

#[export] Instance no_destructor_ok : AddonOk no_objects no_destructor.
Proof. intros a st Hwf. split; [done|]. split; [done|]. split; [by apply removes_nil|done]. Qed.

Lemma roomy_demo : roomy 4 demo_container.
Proof.
  assert (roomy 6 (mkContainer [] [] [] [] 0 : Container unit)) as H0.
  { split; [|cbn; lia]. split; try done. }
  assert (roomy 1 (mkContainer [] [] [] [] 0 : Container unit)) as H1.
  { destruct H0 as (? & ? & ?). split; [done|]. split; [done|]. cbn. lia. }
  apply (adds_roomy (fun _ _ => True) ["/saftbus"%string] 4 (mkContainer [] [] [] [] 0)).
  - by apply create_object_adds.
  - destruct H0 as (? & ? & ?). split; [done|]. split; [done|]. cbn. lia.
Qed.

Lemma fresh_demo : fresh_receiver demo_ios demo_daemon.
Proof.
  split; try reflexivity.
  - split; [|split; [reflexivity|cbn; lia]]. destruct roomy_demo as (? & ? & ?). split; [done|]. split; [done|]. cbn. lia.
  - apply Forall_forall. repeat (apply Forall_cons; split; [split; [discriminate|split; [reflexivity|]]|]); [..|by apply Forall_nil].
    all: intros q id Hq%map_find_In; change (lookup_table _) with [("/saftbus"%string, 1)] in Hq;
      apply list_elem_of_singleton in Hq; injection Hq as -> _; reflexivity.
Qed.

#[local] Abbreviation demo_attached :=
  (TimingReceiver_body 0x100 0x200 0x300 0x400 7 0x500 in_service out_service 0 1 demo_ios demo_daemon).

End ReceiverDemo.
