(* ===== verification/Wbm.v ===== *)
(** * Wishbone macros: src/WbmActionSink.cpp, WbmActionCmd.hpp, eca_ac_wbm_regs.h

    The sink behind a unit that executes recorded sequences of bus writes. *)
From S2P Require Import Prelude Bus.
Local Open Scope Z_scope.

Definition SLAVE_STATUS_GET : Z := 0x00.
Definition SLAVE_MAX_MACROS_GET : Z := 0x04.
Definition SLAVE_MAX_SPACE_GET : Z := 0x08.
Definition SLAVE_ENABLE_GET : Z := 0x0c.
Definition SLAVE_ENABLE_SET : Z := 0x10.
Definition SLAVE_ENABLE_CLR : Z := 0x14.
Definition SLAVE_EXEC_OWR : Z := 0x18.
Definition SLAVE_LAST_EXEC_GET : Z := 0x1c.
Definition SLAVE_REC_OWR : Z := 0x20.
Definition SLAVE_LAST_REC_GET : Z := 0x24.
Definition SLAVE_CLEAR_ALL_OWR : Z := 0x30.
Definition SLAVE_CLEAR_IDX_OWR : Z := 0x34.
Definition SLAVE_REC_FIFO_OWR : Z := 0x38.

Record WbmActionCmd := mkCmd { cmd_adr : Z; cmd_data : Z; cmd_flags : Z }.

Section Wbm.
Context {D : Type} `{Bus D}.
Variable acwbm : Z.

Definition ExecuteMacro (idx : Z) : M D unit := dev_write (acwbm + SLAVE_EXEC_OWR) idx.

(** The error text goes on with the number of the macro. *)
Definition occupied : exn :=
  Error INVALID_ARGS "Recording failed. Macro idx is occupied or wbm-as out of macro memory. Choose a free index or delete macro(s)".

Definition cmd_words (c : WbmActionCmd) : list Z := [cmd_adr c; cmd_data c; cmd_flags c].
Definition fifo_ops (commands : list WbmActionCmd) : list bus_op :=
  BusW (acwbm + SLAVE_REC_FIFO_OWR) <$> (commands ≫= cmd_words).

Definition RecordMacro (idx : Z) (commands : list WbmActionCmd) : M D unit :=
  try_catch (dev_write (acwbm + SLAVE_REC_OWR) idx)
    (fun e => match e with EtherboneError => throw occupied | _ => throw e end);;
  cycle (fifo_ops commands ++ [BusW (acwbm + SLAVE_REC_OWR) idx]);;
  mret tt.

Definition ClearMacro (idx : Z) : M D unit := dev_write (acwbm + SLAVE_CLEAR_IDX_OWR) idx.
Definition ClearAllMacros : M D unit := dev_write (acwbm + SLAVE_CLEAR_ALL_OWR) 1.

(** The getters: a register in the width of the result. *)
Definition Wbm_getStatus : M D Z := v ← dev_read (acwbm + SLAVE_STATUS_GET); mret (u8 v).
Definition getMaxMacros : M D Z := v ← dev_read (acwbm + SLAVE_MAX_MACROS_GET); mret (u32 v).
Definition getMaxSpace : M D Z := v ← dev_read (acwbm + SLAVE_MAX_SPACE_GET); mret (u32 v).
Definition Wbm_getEnable : M D bool := v ← dev_read (acwbm + SLAVE_ENABLE_GET); mret (negb (v =? 0)).
Definition getLastExecutedIdx : M D Z := v ← dev_read (acwbm + SLAVE_LAST_EXEC_GET); mret (u32 v).
Definition getLastRecordedIdx : M D Z := v ← dev_read (acwbm + SLAVE_LAST_REC_GET); mret (u32 v).
Definition Wbm_setEnable (val : bool) : M D unit :=
  if val then dev_write (acwbm + SLAVE_ENABLE_SET) 1 else dev_write (acwbm + SLAVE_ENABLE_CLR) 0.
End Wbm.

(** ** What the unit promises

    [eca_ac_wbm_regs.h]: writing the index begins and ends the recording of a
    macro, the words of the FIFO are its commands; the unit refuses an occupied
    index with a bus error. *)
Class WbmUnit (D : Type) `{Bus D} (acwbm : Z) := {
  macros : D -> Z -> option (list Z);
  recording : D -> option (Z * list Z);
  wbm_step (s : (Z -> option (list Z)) * option (Z * list Z)) (op : bus_op) :=
    match op with
    | BusW a v =>
        if a =? acwbm + SLAVE_REC_OWR then
          match s.2 with
          | None => (s.1, Some (v, []))
          | Some (i, ws) => ((fun k => if k =? i then Some ws else s.1 k), None)
          end
        else if a =? acwbm + SLAVE_REC_FIFO_OWR then
          match s.2 with Some (i, ws) => (s.1, Some (i, ws ++ [v])) | None => s end
        else s
    | BusR _ => s
    end;
  wbm_cycle : forall ops d rs d', bus_cycle ops d = Some (rs, d') ->
    (forall k, macros d' k = (foldl wbm_step (macros d, recording d) ops).1 k) /\
    recording d' = (foldl wbm_step (macros d, recording d) ops).2;
  wbm_refuses : forall d idx rs d', recording d = None ->
    bus_cycle [BusW (acwbm + SLAVE_REC_OWR) idx] d = Some (rs, d') -> macros d idx = None
}.

Section Record_.
Context {D : Type} `{HB : Bus D} (acwbm : Z) `{!WbmUnit D acwbm}.

Lemma record_words ms i ws words :
  foldl (wbm_step (acwbm := acwbm)) (ms, Some (i, ws)) (BusW (acwbm + SLAVE_REC_FIFO_OWR) <$> words) = (ms, Some (i, ws ++ words)).
Proof.
  revert ws. induction words as [|w words IH]; intros ws; cbn [fmap list_fmap foldl]; [by rewrite app_nil_r|].
  unfold wbm_step at 2. rewrite (proj2 (Z.eqb_neq _ _)) by (unfold SLAVE_REC_FIFO_OWR, SLAVE_REC_OWR; lia).
  rewrite Z.eqb_refl. cbn [fst snd]. by rewrite IH, <- app_assoc.
Qed.

(** When RecordMacro returns, the macro that was recorded has exactly the given
    commands, word by word in order, it was free before, all other macros are
    untouched and no recording is open.  When the index is refused the caller
    gets INVALID_ARGS and nothing changed; a bus that fails later surfaces as an
    exception of the bus and leaves the recording open and empty. *)
Lemma RecordMacro_records (idx : Z) (commands : list WbmActionCmd) (d : D) (Hidle : recording d = None) :
  match RecordMacro acwbm idx commands d with
  | (Ret _, d') =>
      macros d idx = None /\ macros d' idx = Some (commands ≫= cmd_words) /\
      (forall k, k <> idx -> macros d' k = macros d k) /\ recording d' = None
  | (Throw e, d') =>
      (e = occupied /\ d' = d) \/
      (e = EtherboneError /\ (forall k, macros d' k = macros d k) /\ recording d' = Some (idx, []))
  | (Crash _, _) => False
  end.
Proof.
  unfold RecordMacro, try_catch, dev_write, cycle. mrun.
  destruct (bus_cycle [_] d) as [[rs d1]|] eqn:E1; [|by left].
  pose proof (wbm_refuses _ _ _ _ Hidle E1) as Hfree.
  pose proof (wbm_cycle _ _ _ _ E1) as [M1 R1]. cbn [foldl] in M1, R1. unfold wbm_step in M1, R1.
  rewrite Z.eqb_refl, Hidle in R1. rewrite Hidle in M1. cbn [snd fst] in R1, M1. setoid_rewrite Z.eqb_refl in M1. cbn [fst] in M1.
  destruct (bus_cycle (_ ++ _) d1) as [[rs2 d2]|] eqn:E2; [|by right].
  pose proof (wbm_cycle _ _ _ _ E2) as [M2 R2]. unfold fifo_ops in M2, R2.
  rewrite foldl_app, R1, record_words in R2. cbn [foldl app] in R2.
  assert (forall k, macros d2 k = if k =? idx then Some (commands ≫= cmd_words) else macros d1 k) as Hk.
  { intros k. rewrite M2, foldl_app, R1, record_words. cbn [foldl app]. unfold wbm_step. by rewrite Z.eqb_refl. }
  unfold wbm_step in R2. rewrite Z.eqb_refl in R2. split_and!; [done| | |done].
  - by rewrite Hk, Z.eqb_refl.
  - intros k Hne. rewrite Hk, (proj2 (Z.eqb_neq _ _)) by done. apply M1.
Qed.
End Record_.

(** ** A concrete unit *)
Module WbmDemo.
Record unit_state := mkUnit { u_macros : Z -> option (list Z); u_rec : option (Z * list Z) }.
Definition unit_op (op : bus_op) (u : unit_state) : option unit_state :=
  match op with
  | BusW a v =>
      if a =? 0x100 + SLAVE_REC_OWR then
        match u_rec u with
        | None => match u_macros u v with Some _ => None | None => Some (mkUnit (u_macros u) (Some (v, []))) end
        | Some (i, ws) => Some (mkUnit (fun k => if k =? i then Some ws else u_macros u k) None)
        end
      else if a =? 0x100 + SLAVE_REC_FIFO_OWR then
        match u_rec u with Some (i, ws) => Some (mkUnit (u_macros u) (Some (i, ws ++ [v]))) | None => Some u end
      else Some u
  | BusR _ => Some u
  end.
Fixpoint unit_ops (ops : list bus_op) (u : unit_state) : option unit_state :=
  match ops with [] => Some u | op :: ops' => u' ← unit_op op u; unit_ops ops' u' end.
#[export] Instance unit_bus : Bus unit_state := fun ops u => u' ← unit_ops ops u; Some ([], u').

#[export, refine] Instance wbm_unit : WbmUnit unit_state 0x100 := {| macros := u_macros; recording := u_rec |}.
Proof.
  - intros ops u rs u' E. unfold bus_cycle, unit_bus in E. apply bind_Some in E as (u1 & E & [= _ <-]).
    revert u E. induction ops as [|op ops IH]; intros u E; cbn in E; [by injection E as <-|].
    apply bind_Some in E as (u2 & E2 & E). destruct (IH _ E) as [IHm IHr]. cbn [foldl].
    assert (forall ms r, ms = u_macros u -> r = u_rec u ->
      match op with
      | BusW a v =>
          if a =? 0x100 + SLAVE_REC_OWR then
            match r with
            | None => (ms, Some (v, []))
            | Some (i, ws) => ((fun k => if k =? i then Some ws else ms k), None)
            end
          else if a =? 0x100 + SLAVE_REC_FIFO_OWR then
            match r with Some (i, ws) => (ms, Some (i, ws ++ [v])) | None => (ms, r) end
          else (ms, r)
      | BusR _ => (ms, r)
      end = (u_macros u2, u_rec u2)) as Hstep.
    { intros ms r -> ->. destruct op as [a v|a]; cbn in E2; [|by injection E2 as <-].
      destruct (a =? _); [|destruct (a =? _)].
      - destruct (u_rec u) as [[i ws]|]; [by injection E2 as <-|]. destruct (u_macros u v); [done|by injection E2 as <-].
      - destruct (u_rec u) as [[i ws]|] eqn:Er; injection E2 as <-; cbn; by rewrite ?Er.
      - by injection E2 as <-. }
    specialize (Hstep _ _ eq_refl eq_refl). cbn [fst snd].
    destruct op as [a v|a]; cbn [fst snd] in Hstep |- *; rewrite Hstep; split; [exact IHm|exact IHr|exact IHm|exact IHr].
  - intros u idx rs u' Hr E. unfold bus_cycle, unit_bus in E. apply bind_Some in E as (u1 & E & _). cbn in E.
    rewrite Hr in E. cbn in E. by destruct (u_macros u idx).
Defined.

Definition unit0 : unit_state := mkUnit (fun k => if k =? 3 then Some [1; 2; 3] else None) None.

Example record_demo :
  let '(r, u) := RecordMacro 0x100 5 [mkCmd 0x10 0x20 0; mkCmd 0x14 0x21 1] unit0 in
  r = Ret tt /\ macros u 5 = Some [0x10; 0x20; 0; 0x14; 0x21; 1] /\ macros u 3 = Some [1; 2; 3] /\
  RecordMacro 0x100 3 [] unit0 = (Throw occupied, unit0).
Proof. vm_compute. done. Qed.
End WbmDemo.
