(* ===== verification/Helpers.v ===== *)
(** * Helper functions: src/CommonFunctions.cpp

    Prefix masks, and the text of events, parameters and flags.  The date is
    made by [gmtime] and [strftime] of the C library: a parameter. *)
From S2P Require Import Prelude Time EcaTables EcaIntervals.
From Stdlib Require Import Ascii.
Local Open Scope Z_scope.

(** [i ? ((uint64_t)-1) << (64-i) : 0]; shifting by 64 or more, or by a negative
    number, is undefined. *)
Definition tr_mask (i : Z) : outcome Z :=
  if i =? 0 then Ret 0
  else if (0 <=? 64 - i) && (64 - i <? 64) then Ret (u64 (Z.shiftl (2 ^ 64 - 1) (64 - i)))
  else Crash "(uint64_t)-1 << (64-i)".

(** ** Numbers as a stream prints them *)
Abbreviation text := (list ascii).
Definition str : string -> text := String.list_ascii_of_string.

Definition digit (n : Z) : ascii :=
  ascii_of_nat (Z.to_nat (if n <? 10 then 48 + n else 87 + n)).

(** The digits of a number below 2^64, at most 64. *)
Fixpoint digits_acc (fuel : nat) (base n : Z) (acc : text) : text :=
  match fuel with
  | O => acc
  | S fuel' =>
      let acc' := digit (n `mod` base) :: acc in
      if n <? base then acc' else digits_acc fuel' base (n / base) acc'
  end.
Definition digits (base n : Z) : text := digits_acc 64 base n [].

(** [std::setw]: fill on the left. *)
Definition setw (fill : ascii) (w : nat) (t : text) : text := replicate (w - length t) fill ++ t.

Definition PMODE_DEC : Z := 0x1.
Definition PMODE_HEX : Z := 0x2.
Definition PMODE_VERBOSE : Z := 0x4.
Definition PMODE_UTC : Z := 0x8.
Definition has (pmode flag : Z) : bool := negb (Z.land pmode flag =? 0).

(** The state that the flags give the stream and the local variables. *)
Record Style := mkStyle { base : Z; fill : ascii; width : nat; fmt : string; mark : string; comma : string }.

Definition quote : string := String (ascii_of_nat 34) EmptyString.
Definition style (pmode : Z) (json : bool) : Style :=
  let dec := has pmode PMODE_DEC in
  let hex := has pmode PMODE_HEX in
  let w := if dec then 20%nat else if hex then 16%nat else 0%nat in
  mkStyle (if dec then 10 else if hex then 16 else 10) (if dec || hex then "0"%char else " "%char)
    (if json && (w =? 0)%nat then 20%nat else w)
    (if dec then "0d" else if hex then "0x" else EmptyString)
    (if json then quote else EmptyString) (if json then "," else EmptyString).

(** One piece of the text: a label with a number of a minimal width, or with a
    text. *)
Inductive piece :=
  | Number (label : string) (w : nat) (value : Z)
  | Text (label value : string).

Definition label_text (s : Style) (label : string) : text :=
  str " " ++ str (mark s) ++ str label ++ str (mark s) ++ str ": ".
Definition piece_text (s : Style) (p : piece) : text :=
  match p with
  | Number label w v => label_text s label ++ str (fmt s) ++ setw (fill s) w (digits (base s) v) ++ str (comma s)
  | Text label v => label_text s label ++ str (mark s) ++ str v ++ str (mark s) ++ str (comma s)
  end.

(** The pieces of an event identifier. *)
Definition bits (id shift mask : Z) : Z := Z.land (Z.shiftr id shift) mask.

Definition event_pieces (id : Z) : list piece :=
  let fid := bits id 60 0xf in
  [Number "FID" 1 fid; Number "GID" 4 (bits id 48 0xfff); Number "EVTNO" 4 (bits id 36 0xfff)] ++
  (if fid =? 0 then
     [Text "FLAGS" "N/A"; Number "SID" 4 (bits id 24 0xfff); Number "BPID" 5 (bits id 10 0x3fff);
      Number "RES" 4 (Z.land id 0x3ff)]
   else if fid =? 1 then
     [Number "FLAGS" 1 (bits id 32 0xf); Number "BPC" 1 (bits id 34 0x1); Number "SID" 4 (bits id 20 0xfff);
      Number "BPID" 5 (bits id 6 0x3fff); Number "RES" 4 (Z.land id 0x3f)]
   else [Number "Other" 9 (Z.land id 0xfffffffff)]).

Definition tr_formatActionEvent (id pmode : Z) (json : bool) : text :=
  let s := style pmode json in
  if has pmode PMODE_VERBOSE then event_pieces id ≫= piece_text s
  else
    label_text s "EvtID" ++ str (fmt s) ++ setw "0" (width s) (digits (base s) id) ++ str (comma s).

Definition tr_formatActionParam (param evtNo pmode : Z) (json : bool) : text :=
  let s := style pmode json in
  if (evtNo =? 0) || (evtNo =? 1) then []
  else piece_text s (Number "Param" (width s) param) ++ (if json then str " " else []).

(** [-delay] is computed with 64 bits. *)
Definition tr_formatActionFlags (flags delay pmode : Z) (json : bool) : text :=
  let set k := negb (Z.land flags k =? 0) in
  let dec n := digits 10 n in
  if json then
    let field name (b : bool) v := str quote ++ str name ++ str quote ++ str ": " ++ (if b then dec v else str "0") ++ str ", " in
    field "Late_ns"%string (set 1) delay ++ field "Early_ns"%string (set 2) (u64 (- delay)) ++
    field "ConflictDelay_ns"%string (set 4) delay ++ field "Delayed_ns"%string (set 8) delay
  else if flags =? 0 then []
  else
    str "!" ++ (if set 1 then str "late (by " ++ dec delay ++ str " ns)" else []) ++
    (if set 2 then str "early (by " ++ dec (u64 (- delay)) ++ str " ns)" else []) ++
    (if set 4 then str "conflict (delayed by " ++ dec delay ++ str " ns)" else []) ++
    (if set 8 then str "delayed (by " ++ dec delay ++ str " ns)" else []).

Section Date.
(** [gmtime] and [strftime] with the format of the verbose mode. *)
Context (date : Z -> text).

Definition tr_formatDate (time : Time) (pmode : Z) (json : bool) : option text :=
  t ← (if has pmode PMODE_UTC then getUTC time else Some (getTAI time));
  utc ← (if has pmode PMODE_UTC then
           leap ← isLeapUTC time; Some (if leap =? 0 then str " " else str "*")
         else Some []);
  let ns := t `mod` 1000000000 in
  let s := t / 1000000000 in
  Some (if has pmode PMODE_VERBOSE then date s ++ str "." ++ setw "0" 9 (digits 10 ns) ++ utc
        else if has pmode PMODE_DEC then str "0d" ++ digits 10 s ++ str "." ++ setw "0" 9 (digits 10 ns) ++ utc
        else str "0x" ++ setw "0" 16 (digits 16 t) ++ utc).
End Date.

Example format_demo :
  String.string_of_list_ascii (tr_formatActionEvent 0x1234567890abcdef (Z.lor PMODE_HEX PMODE_VERBOSE) false) =
  " FID: 0x1 GID: 0x0234 EVTNO: 0x0567 FLAGS: 0x8 BPC: 0x0 SID: 0x090a BPID: 0x02f37 RES: 0x002f"%string.
Proof. vm_compute. reflexivity. Qed.

(** ** Helper functions: the text of an event determines the event *)

(** ** Reading a number back *)
Definition digit_value (c : ascii) : option Z :=
  let n := Z.of_nat (nat_of_ascii c) in
  if (48 <=? n) && (n <=? 57) then Some (n - 48)
  else if (97 <=? n) && (n <=? 102) then Some (n - 87)
  else None.

Fixpoint read_digits (base acc : Z) (t : text) : Z * text :=
  match t with
  | [] => (acc, [])
  | c :: t' => match digit_value c with
               | Some v => read_digits base (acc * base + v) t'
               | None => (acc, t)
               end
  end.
Fixpoint skip_spaces (t : text) : text :=
  match t with
  | c :: t' => if bool_decide (c = " "%char) then skip_spaces t' else t
  | [] => []
  end.
Definition read_number (base : Z) (t : text) : Z * text := read_digits base 0 (skip_spaces t).

(** What may follow a number. *)
Definition ends_number (t : text) : Prop :=
  match t with [] => True | c :: _ => digit_value c = None end.

Lemma digit_value_digit n : 0 <= n < 16 -> digit_value (digit n) = Some n.
Proof.
  intros Hn. rewrite <- (Z2Nat.id n) by lia. assert (Z.to_nat n < 16)%nat as Hk by lia.
  revert Hk. generalize (Z.to_nat n) as k. intros k Hk.
  do 16 (destruct k as [|k]; [reflexivity|]). lia.
Qed.

Lemma digit_no_space n : 0 <= n < 16 -> digit n <> " "%char.
Proof. intros Hn E. pose proof (digit_value_digit n Hn) as Hd. rewrite E in Hd. discriminate. Qed.

Section Numbers.
Context (base : Z) (Hbase : 2 <= base <= 16).

Lemma read_digits_acc fuel n acc a rest : 0 <= n < 2 ^ Z.of_nat fuel -> (0 < fuel)%nat ->
  exists k, 0 <= k /\ read_digits base a (digits_acc fuel base n acc ++ rest) = read_digits base (a * base ^ k + n) (acc ++ rest) /\
    (exists d t, digits_acc fuel base n acc = digit d :: t /\ 0 <= d < 16).
Proof.
  revert n acc. induction fuel as [|fuel IH]; intros n acc Hn Hf; [lia|]. cbn [digits_acc].
  assert (0 <= n `mod` base < base) as Hm by (apply Z.mod_pos_bound; lia).
  destruct (Z.ltb_spec n base) as [Hlt|Hge].
  - exists 1. split; [lia|]. split; [|eexists _, _; split; [done|lia]]. cbn [app read_digits].
    rewrite digit_value_digit by lia. rewrite Z.mod_small by lia. by rewrite Z.pow_1_r.
  - destruct fuel as [|fuel]; [change (2 ^ Z.of_nat 1) with 2 in Hn; lia|].
    destruct (IH (n / base) (digit (n `mod` base) :: acc)) as (k & Hk & E & Hd); [|lia|].
    { split; [apply Z.div_pos; lia|]. apply Z.div_lt_upper_bound; [lia|].
      rewrite (Nat2Z.inj_succ (S fuel)), Z.pow_succ_r in Hn by lia.
      assert (0 < 2 ^ Z.of_nat (S fuel)) by (apply Z.pow_pos_nonneg; lia). nia. }
    exists (k + 1). split; [lia|]. split; [|done]. rewrite E. cbn [app read_digits].
    rewrite digit_value_digit by lia. f_equal. rewrite Z.pow_add_r, Z.pow_1_r by lia.
    pose proof (Z.div_mod n base ltac:(lia)). nia.
Qed.

Lemma skip_spaces_digit c t : c <> " "%char -> skip_spaces (c :: t) = c :: t.
Proof. intros Hc. cbn. by rewrite bool_decide_false. Qed.

Lemma read_zeros k a t : a = 0 -> read_digits base a (replicate k "0"%char ++ t) = read_digits base 0 t.
Proof. intros ->. induction k as [|k IH]; [done|]. cbn. exact IH. Qed.

Lemma skip_replicate k t : skip_spaces (replicate k " "%char ++ t) = skip_spaces t.
Proof. induction k as [|k IH]; [done|]. cbn. exact IH. Qed.

(** A number is read back, whatever it was filled up with. *)
Lemma read_number_setw c w n rest : c = " "%char \/ c = "0"%char -> 0 <= n < 2 ^ 64 -> ends_number rest ->
  read_number base (setw c w (digits base n) ++ rest) = (n, rest).
Proof.
  intros Hc Hn Hrest. unfold read_number, setw, digits. rewrite <- app_assoc.
  destruct (read_digits_acc 64 n [] 0 rest Hn ltac:(lia)) as (k & _ & E & d & t & Ed & Hd).
  assert (read_digits base 0 (digits_acc 64 base n [] ++ rest) = (n, rest)) as Er.
  { rewrite E. replace (0 * base ^ k + n) with n by lia. cbn [app]. destruct rest as [|c' rest]; [done|]. cbn. cbn in Hrest. by rewrite Hrest. }
  destruct Hc as [->| ->].
  - rewrite skip_replicate, Ed. cbn [app]. rewrite skip_spaces_digit by (by apply digit_no_space). by rewrite Ed in Er.
  - set (m := (w - _)%nat). assert (skip_spaces (replicate m "0"%char ++ digits_acc 64 base n [] ++ rest)
      = replicate m "0"%char ++ digits_acc 64 base n [] ++ rest) as ->.
    { destruct m as [|m]; [cbn [replicate app]; rewrite Ed; apply skip_spaces_digit; by apply digit_no_space|done]. }
    by rewrite read_zeros.
Qed.
End Numbers.

(** ** Pieces *)
Section Pieces.
Context (s : Style).
Context (Hbase : 2 <= base s <= 16) (Hfill : fill s = " "%char \/ fill s = "0"%char).
Context (Hcomma : comma s = EmptyString \/ comma s = ","%string).

(** The text of pieces: nothing, or it begins with a space. *)
Definition spaced (t : text) : Prop := t = [] \/ exists t', t = " "%char :: t'.

Lemma spaced_pieces ps : spaced (ps ≫= piece_text s).
Proof. destruct ps as [|[l w v|l v] ps]; [by left|right..]; cbn; eauto. Qed.

Lemma ends_comma t : spaced t -> ends_number (str (comma s) ++ t).
Proof. intros [->|[t' ->]]; destruct Hcomma as [->| ->]; done. Qed.

Lemma number_inj l w v v' t t' : 0 <= v < 2 ^ 64 -> 0 <= v' < 2 ^ 64 -> spaced t -> spaced t' ->
  piece_text s (Number l w v) ++ t = piece_text s (Number l w v') ++ t' -> v = v' /\ t = t'.
Proof.
  intros Hv Hv' Ht Ht' E. cbn [piece_text] in E. rewrite <- !app_assoc in E.
  apply app_inv_head, app_inv_head, (f_equal (read_number (base s))) in E.
  rewrite !read_number_setw in E by (done || by apply ends_comma). injection E as <- E. split; [done|].
  by apply app_inv_head in E.
Qed.

Definition same_shape (p p' : piece) : Prop :=
  match p, p' with
  | Number l w v, Number l' w' v' => l = l' /\ w = w' /\ 0 <= v < 2 ^ 64 /\ 0 <= v' < 2 ^ 64
  | Text l v, Text l' v' => l = l' /\ v = v'
  | _, _ => False
  end.

Lemma pieces_inj ps ps' : Forall2 same_shape ps ps' -> ps ≫= piece_text s = ps' ≫= piece_text s -> ps = ps'.
Proof.
  induction 1 as [|p p' ps ps' Hp _ IH]; [done|]. cbn [mbind list_bind]. intros E.
  destruct p as [l w v|l v], p' as [l' w' v'|l' v']; try done; cbn in Hp.
  - destruct Hp as (<- & <- & Hv & Hv').
    apply number_inj in E as [<- E]; [|done|done|apply spaced_pieces..]. by rewrite (IH E).
  - destruct Hp as (<- & <-). apply app_inv_head in E. by rewrite (IH E).
Qed.
End Pieces.

Lemma style_ok pmode json :
  2 <= base (style pmode json) <= 16 /\ (fill (style pmode json) = " "%char \/ fill (style pmode json) = "0"%char) /\
  (comma (style pmode json) = EmptyString \/ comma (style pmode json) = ","%string).
Proof.
  unfold style. cbn. destruct (has pmode PMODE_DEC), (has pmode PMODE_HEX), json; cbn; split_and!; auto; lia.
Qed.

(** ** The fields of an identifier *)
Lemma bits_div id k n : 0 <= k -> 0 <= n -> bits id k (Z.ones n) = (id / 2 ^ k) mod 2 ^ n.
Proof. intros Hk Hn. unfold bits. by rewrite Z.land_ones, Z.shiftr_div_pow2. Qed.

(** Numbers that agree in the lower [k] bits and in the [n] bits above them. *)
Lemma join_fields a b k n : 0 <= k -> 0 <= n -> a mod 2 ^ k = b mod 2 ^ k ->
  (a / 2 ^ k) mod 2 ^ n = (b / 2 ^ k) mod 2 ^ n -> a mod 2 ^ (k + n) = b mod 2 ^ (k + n).
Proof.
  intros Hk Hn H1 H2. rewrite Z.pow_add_r by done.
  rewrite !Z.rem_mul_r by (try apply Z.pow_nonzero; try apply Z.pow_pos_nonneg; lia). by rewrite H1, H2.
Qed.

Lemma bits_range id k m : 0 <= id < 2 ^ 64 -> 0 <= k -> 0 <= m -> 0 <= bits id k m < 2 ^ 64.
Proof.
  intros Hid Hk Hm. unfold bits. rewrite Z.shiftr_div_pow2 by done.
  assert (0 <= id / 2 ^ k < 2 ^ 64).
  { split; [apply Z.div_pos; [lia|apply Z.pow_pos_nonneg; lia]|]. apply Z.div_lt_upper_bound; [apply Z.pow_pos_nonneg; lia|].
    assert (0 < 2 ^ k) by (apply Z.pow_pos_nonneg; lia). nia. }
  replace (Z.land (id / 2 ^ k) m) with (Z.land (id / 2 ^ k) m mod 2 ^ 64); [apply Z.mod_pos_bound; lia|].
  rewrite <- Z.land_ones, <- Z.land_assoc, (Z.land_comm m), Z.land_assoc, Z.land_ones, Z.mod_small by lia. done.
Qed.

Lemma number_cons_inj l w v v' ps ps' : Number l w v :: ps = Number l w v' :: ps' -> v = v' /\ ps = ps'.
Proof. by intros [= -> ->]. Qed.

Lemma event_pieces_inj id id' : 0 <= id < 2 ^ 64 -> 0 <= id' < 2 ^ 64 -> event_pieces id = event_pieces id' -> id = id'.
Proof.
  intros Hid Hid' E.
  assert (id mod 2 ^ 36 = id' mod 2 ^ 36 /\ (id / 2 ^ 36) mod 2 ^ 12 = (id' / 2 ^ 36) mod 2 ^ 12 /\
    (id / 2 ^ 48) mod 2 ^ 12 = (id' / 2 ^ 48) mod 2 ^ 12 /\ (id / 2 ^ 60) mod 2 ^ 4 = (id' / 2 ^ 60) mod 2 ^ 4) as (H0 & H36 & H48 & H60).
  { unfold event_pieces in E. cbn [app] in E. apply number_cons_inj in E as [E60 E].
    apply number_cons_inj in E as [E48 E]. apply number_cons_inj in E as [E36 E].
    change 0xf with (Z.ones 4) in E60. change 0xfff with (Z.ones 12) in E48, E36.
    rewrite !bits_div in E60, E48, E36 by lia. split; [|done].
    rewrite <- (bits_div id 60 4), <- (bits_div id' 60 4) in E60 by lia. change (Z.ones 4) with 0xf in E60. rewrite E60 in E.
    destruct (bits id' 60 0xf =? 0); [|destruct (bits id' 60 0xf =? 1)].
    - apply (f_equal tail) in E. cbn [tail] in E. apply number_cons_inj in E as [E24 E]. apply number_cons_inj in E as [E10 E].
      apply number_cons_inj in E as [E0 _]. change 0xfff with (Z.ones 12) in E24. change 0x3fff with (Z.ones 14) in E10.
      change 0x3ff with (Z.ones 10) in E0. rewrite !bits_div in E24, E10 by lia. rewrite !Z.land_ones in E0 by lia.
      apply (join_fields id id' 24 12); [lia..| |done]. by apply (join_fields id id' 10 14).
    - apply number_cons_inj in E as [E32 E]. apply number_cons_inj in E as [_ E]. apply number_cons_inj in E as [E20 E].
      apply number_cons_inj in E as [E6 E]. apply number_cons_inj in E as [E0 _]. change 0xf with (Z.ones 4) in E32. change 0xfff with (Z.ones 12) in E20.
      change 0x3fff with (Z.ones 14) in E6. change 0x3f with (Z.ones 6) in E0.
      rewrite !bits_div in E32, E20, E6 by lia. rewrite !Z.land_ones in E0 by lia.
      apply (join_fields id id' 32 4); [lia..| |done]. apply (join_fields id id' 20 12); [lia..| |done].
      by apply (join_fields id id' 6 14).
    - apply number_cons_inj in E as [E0 _]. change 0xfffffffff with (Z.ones 36) in E0. by rewrite !Z.land_ones in E0 by lia. }
  pose proof (join_fields id id' 36 12 ltac:(lia) ltac:(lia) H0 H36) as J48.
  pose proof (join_fields id id' 48 12 ltac:(lia) ltac:(lia) J48 H48) as J60.
  pose proof (join_fields id id' 60 4 ltac:(lia) ltac:(lia) J60 H60) as J64.
  rewrite !Z.mod_small in J64 by done. done.
Qed.

(** The text of an event, in every mode (hexadecimal, decimal or plain, in words
    or as one number, for JSON or not), determines the event: no two identifiers
    are shown alike. *)
Theorem event_text_injective (id id' pmode : Z) (json : bool)
    (Hid : 0 <= id < 2 ^ 64) (Hid' : 0 <= id' < 2 ^ 64)
    (Hne : id <> id') :
  tr_formatActionEvent id pmode json <> tr_formatActionEvent id' pmode json.
Proof.
  intros Htext. apply Hne. unfold tr_formatActionEvent in Htext. destruct (style_ok pmode json) as (Hb & Hf & Hc).
  destruct (has pmode PMODE_VERBOSE).
  - apply event_pieces_inj; [done..|]. set (s := style pmode json) in *.
    assert (bits id 60 0xf = bits id' 60 0xf) as Hfid.
    { unfold event_pieces in Htext. cbn [app mbind list_bind] in Htext.
      apply number_inj in Htext as [Hfid _]; try done; try (apply bits_range; lia).
      all: right; eauto. }
    apply (pieces_inj s Hb Hf Hc); [|exact Htext]. unfold event_pieces. rewrite Hfid.
    assert (forall k m, 0 <= k -> 0 <= m -> forall l w,
      same_shape (Number l w (bits id k m)) (Number l w (bits id' k m))) as Hn by (intros; split_and!; try done; by apply bits_range).
    assert (forall m, 0 <= m -> forall l w, same_shape (Number l w (Z.land id m)) (Number l w (Z.land id' m))) as Hl.
    { intros m Hm l w. pose proof (Hn 0 m ltac:(lia) Hm l w) as H0. by unfold bits in H0; rewrite !Z.shiftr_0_r in H0. }
    cbn [app]. constructor; [split_and!; try done; apply bits_range; lia|]. do 2 (constructor; [by apply Hn|]).
    destruct (bits id' 60 0xf =? 0); [|destruct (bits id' 60 0xf =? 1)];
      repeat first [exact I | apply Forall2_nil | apply Forall2_cons; split; [first [by apply Hn|by apply Hl|done]|]].
  - apply app_inv_head, app_inv_head, (f_equal (read_number (base (style pmode json)))) in Htext.
    rewrite !read_number_setw in Htext; try done; try (by right); [by injection Htext|..].
    all: destruct Hc as [-> | ->]; done.
Qed.

(** ** Masks *)

(** For every number of bits from 0 to 64, and for no other, tr_mask has a value:
    a mask that the constructor of a condition accepts, whose condition matches
    exactly the events that have the same upper [i] bits. *)
Theorem tr_mask_prefix (i : Z) :
  if (0 <=? i) && (i <=? 64)
  then exists m, tr_mask i = Ret m /\ 0 <= m < 2 ^ 64 /\ prefix_maskb m = true /\
         forall e id, 0 <= e < 2 ^ 64 -> 0 <= id < 2 ^ 64 ->
           (Z.land e m = Z.land id m <-> e / 2 ^ (64 - i) = id / 2 ^ (64 - i))
  else exists why, tr_mask i = Crash why.
Proof.
  destruct (Z.leb_spec 0 i) as [H0|H0]; [destruct (Z.leb_spec i 64) as [H64|H64]|]; cbn [andb].
  2-3: unfold tr_mask; rewrite (proj2 (Z.eqb_neq i 0)) by lia.
  2: rewrite (proj2 (Z.leb_gt 0 (64 - i))) by lia; by eexists.
  2: rewrite (proj2 (Z.ltb_ge (64 - i) 64)), andb_false_r by lia; by eexists.
  assert (tr_mask i = Ret (2 ^ 64 - 2 ^ (64 - i))) as ->.
  { unfold tr_mask. destruct (Z.eqb_spec i 0) as [->|Hi]; [done|].
    rewrite (proj2 (Z.leb_le 0 (64 - i))), (proj2 (Z.ltb_lt (64 - i) 64)) by lia. cbn [andb]. f_equal.
    rewrite Z.shiftl_mul_pow2 by lia. unfold unsigned_wrap.
    replace ((2 ^ 64 - 1) * 2 ^ (64 - i)) with (2 ^ 64 - 2 ^ (64 - i) + (2 ^ (64 - i) - 1) * 2 ^ 64) by lia.
    pose proof (pow_k_pos (64 - i) ltac:(lia)). pose proof (pow_k_le (64 - i) ltac:(lia)).
    rewrite Z.mod_add by lia. apply Z.mod_small. lia. }
  set (k := 64 - i). pose proof (pow_k_pos k ltac:(lia)) as Hpos. pose proof (pow_k_le k ltac:(lia)) as Hle.
  exists (2 ^ 64 - 2 ^ k). split; [done|]. split; [lia|]. split.
  - unfold prefix_maskb. rewrite u64_lnot by lia. replace (2 ^ 64 - 1 - (2 ^ 64 - 2 ^ k)) with (Z.ones k) by (rewrite Z.ones_equiv; lia).
    apply Z.eqb_eq. rewrite Z.land_comm, Z.land_ones by lia. rewrite Z.ones_equiv.
    replace (Z.pred (2 ^ k) + 1) with (2 ^ k) by lia. destruct (decide (k = 64)) as [->|Hk]; [done|].
    rewrite unsigned_wrap_small by (split; [lia|]; apply Z.pow_lt_mono_r; lia). apply Z.mod_same. lia.
  - intros e id He Hid. rewrite !(land_prefix k ltac:(lia)) by done.
    pose proof (Z.div_mod e (2 ^ k) ltac:(lia)). pose proof (Z.div_mod id (2 ^ k) ltac:(lia)).
    split; intros E; [|rewrite E in *; lia]. apply (Z.mul_reg_l _ _ (2 ^ k)); lia.
Qed.

Lemma event_text_injective_witness :
  tr_formatActionEvent 0x1234567890abcdef PMODE_VERBOSE true <> tr_formatActionEvent 0x1234567890abcdee PMODE_VERBOSE true.
Proof.
  apply (event_text_injective 0x1234567890abcdef 0x1234567890abcdee PMODE_VERBOSE true); lia.
Defined.
