(* ===== verification/EbForward.v ===== *)
(** * Forwarding of etherbone: src/eb-forward.cpp, and the event source of the
    etherbone socket: src/eb-source.cpp

    A pseudo-terminal stands for a serial etherbone device: the requests that a
    tool writes to it are passed on to the real device one by one, and so are the
    answers. *)
From S2P Require Import Prelude Bus.
Local Open Scope Z_scope.

(** The two descriptors; results and bytes of [read], results of [write]; closing
    and opening the terminal (which connects a new source); [poll] for the
    device. *)
Class Terminals (W : Type) := {
  pts_read : Z -> W -> Z * list Z * W;
  pts_write : list Z -> W -> Z * W;
  eb_read : Z -> W -> Z * list Z * W;
  eb_write : list Z -> W -> Z * W;
  eb_poll : W -> Z * W;
  reopen : W -> W
}.

Section Forward.
Context {W D : Type} `{Terminals W, Bus D}.
(** The address of the device that is read after each request. *)
Variable adr_first : Z.
Let WD := (W * D)%type.

Definition WR_PPS_GEN_ESCR : Z := 0x1c.

Definition on_w {A} (f : W -> A * W) : M WD A := fun s => let '(a, w) := f s.1 in (Ret a, (w, s.2)).
Definition on_d {A} (m : M D A) : M WD A := zoom snd (fun d s => (s.1, d)) m.

(** [write_all]: gives up silently when [write] fails; a round per byte is
    enough. *)
Fixpoint write_all_loop (fuel : nat) (write : list Z -> W -> Z * W) (buf : list Z) : M WD unit :=
  match fuel, buf with
  | S fuel', _ :: _ =>
      result ← on_w (write buf);
      if 0 <? result then write_all_loop fuel' write (drop (Z.to_nat result) buf) else mret tt
  | _, _ => mret tt
  end.
Definition write_all (write : list Z -> W -> Z * W) (buf : list Z) : M WD unit :=
  write_all_loop (length buf) write buf.

(** [read_all] into a buffer of zeros: what could not be read stays zero. *)
Fixpoint read_all_loop (fuel : nat) (size : Z) (got : list Z) : M WD (list Z) :=
  match fuel with
  | S fuel' =>
      if 0 <? size then
        '(result, bs) ← on_w (eb_read size);
        if 0 <? result then read_all_loop fuel' (size - result) (got ++ bs)
        else mret (got ++ replicate (Z.to_nat size) 0)
      else mret got
  | O => mret got
  end.
Definition read_all (size : nat) : M WD (list Z) := read_all_loop size (Z.of_nat size) [].

(** [close(_pts_fd); open_pts(); return false;] *)
Definition hang_up : M WD bool := on_w (fun w => (tt, reopen w));; mret false.

(** A hello: four more bytes are read and echoed after a fixed header. *)
Fixpoint read_hello (n : nat) (response : list Z) : M WD (option (list Z)) :=
  match n with
  | O => mret (Some response)
  | S n' =>
      '(result, bs) ← on_w (pts_read 1);
      if result <=? 0 then mret None else read_hello n' (response ++ bs)
  end.
Definition answer_hello : M WD bool :=
  o ← read_hello 4 [0x4e; 0x6f; 0x16; 0x44];
  match o with
  | None => hang_up
  | Some response =>
      result ← on_w (pts_write response);
      if result <=? 0 then hang_up else mret true
  end.

(** A complete request. *)
Definition forward (request : list Z) : M WD bool :=
  write_all eb_write request;;
  polled ← on_w eb_poll;
  if polled =? 0 then mret false
  else
    response ← read_all (length request);
    write_all pts_write response;;
    _ ← on_d (dev_read (adr_first + WR_PPS_GEN_ESCR));
    mret true.

(** The size of a request from its cycle header. *)
Definition added_size (request : list Z) : Z :=
  let wcount := default 0 (request !! 2%nat) in
  let rcount := default 0 (request !! 3%nat) in
  4 + (if wcount =? 0 then 0 else 4 + 4 * wcount) + (if rcount =? 0 then 0 else 4 + 4 * rcount).

Definition is_hello (request : list Z) : bool :=
  (default 0 (request !! 0%nat) =? 0x4e) && (default 0 (request !! 1%nat) =? 0x6f).

(** The loop of [accept_connection], a byte each round; [None]: still running
    after [fuel] rounds. *)
Fixpoint accept_loop (fuel : nat) (request : list Z) (request_size : Z) : M WD (option bool) :=
  match fuel with
  | O => mret None
  | S fuel' =>
      '(result, bs) ← on_w (pts_read 1);
      if result <=? 0 then b ← hang_up; mret (Some b)
      else
        let request' := request ++ bs in
        if (length request' =? 4)%nat && is_hello request' then b ← answer_hello; mret (Some b)
        else
          let size' := if (length request' =? 4)%nat then request_size + added_size request' else request_size in
          if negb (size' =? 0) && (size' =? Z.of_nat (length request')) then b ← forward request'; mret (Some b)
          else accept_loop fuel' request' size'
  end.

(** Rounds enough: the header and twice 256 words (the counts are bytes). *)
Definition max_request : nat := 4 + (4 + 4 * 255) + (4 + 4 * 255).
Definition accept_connection : M WD (option bool) := accept_loop max_request [] 0.
End Forward.

(** ** [EB_Source] *)
Definition POLLIN : Z := 1.
Definition POLLOUT : Z := 4.
Definition POLLERR : Z := 8.
Definition POLLHUP : Z := 16.
Definition EB_DESCRIPTOR_IN : Z := 1.
Definition EB_DESCRIPTOR_OUT : Z := 2.

Record pollfd := mkPollfd { fd : Z; events : Z; revents : Z }.

(** The vector with the buffer it is in (each allocation has a number) and its
    capacity; the pointers that the loop was given: buffer and index. *)
Record EB_Source := mkEbSource {
  fds : list pollfd; buffer : nat; capacity : nat;
  fds_it : nat; fds_it_valid : bool;
  polls : list (nat * nat)
}.

(** [fds.reserve(8); fds_it_valid = false;] *)
Definition EB_Source_new : EB_Source := mkEbSource [] 0 8 0 false [].

Definition bit_set (x flag : Z) : bool := negb (Z.land x flag =? 0).

(** [push_back] into a full vector moves it to a new buffer of twice the size. *)
Definition push_back (p : pollfd) (s : EB_Source) : EB_Source :=
  if (length (fds s) <? capacity s)%nat
  then mkEbSource (fds s ++ [p]) (buffer s) (capacity s) (fds_it s) (fds_it_valid s) (polls s)
  else mkEbSource (fds s ++ [p]) (S (buffer s)) (2 * capacity s) (fds_it s) (fds_it_valid s) (polls s).

Definition add_fd (d : Z * Z) (s : EB_Source) : EB_Source :=
  let '(fd_, mode) := d in
  let ev := Z.lor (Z.lor (Z.lor POLLERR POLLHUP) (if bit_set mode EB_DESCRIPTOR_IN then POLLIN else 0))
              (if bit_set mode EB_DESCRIPTOR_OUT then POLLOUT else 0) in
  let s' := push_back (mkPollfd fd_ ev 0) s in
  mkEbSource (fds s') (buffer s') (capacity s') (fds_it s') (fds_it_valid s')
    (polls s' ++ [(buffer s', length (fds s))]).

(** The linear search; the index behind the last element if there is none. *)
Fixpoint search (fd_ : Z) (l : list pollfd) : nat :=
  match l with
  | [] => 0%nat
  | p :: l' => if fd p =? fd_ then 0%nat else S (search fd_ l')
  end.

Definition ready_for (mode flags : Z) : bool :=
  bit_set mode EB_DESCRIPTOR_IN && bit_set flags (Z.lor POLLIN (Z.lor POLLERR POLLHUP)) ||
  bit_set mode EB_DESCRIPTOR_OUT && bit_set flags (Z.lor POLLOUT (Z.lor POLLERR POLLHUP)).

Definition set_it (i : nat) (s : EB_Source) : EB_Source :=
  mkEbSource (fds s) (buffer s) (capacity s) i true (polls s).

(** [get_fd]; a valid iterator is dereferenced, also at the end. *)
Definition get_fd (fd_ mode : Z) : M EB_Source bool :=
  s ← get;
  here ← (if fds_it_valid s then
            match fds s !! fds_it s with
            | Some p => mret (fd p =? fd_)
            | None => crash "fds_it->fd"
            end
          else mret false);
  (if (here : bool) then mret tt else modify (set_it (search fd_ (fds s))));;
  s ← get;
  match fds s !! fds_it s with
  | None => mret false
  | Some p => modify (set_it (S (fds_it s)));; mret (ready_for mode (revents p))
  end.

(** [prepare]: what the socket does with [check] and [timeout] is a parameter.
    [descriptors] are those of the socket; the result is the timeout, if there is
    one, and whether the source is ready. *)
Definition clear_fds (s : EB_Source) : EB_Source := mkEbSource [] (buffer s) (capacity s) (fds_it s) (fds_it_valid s) [].
Definition watch (descriptors : list (Z * Z)) (s : EB_Source) : EB_Source :=
  set_it 0 (foldl (fun s d => add_fd d s) (clear_fds s) descriptors).

Definition EB_Source_prepare {W} (socket_check : Z -> W -> W) (descriptors : W -> list (Z * Z)) (timeout : W -> Z)
    (now_ms : Z) : M (EB_Source * W) (option Z * bool) := fun sw =>
  let w := socket_check now_ms sw.2 in
  let s := watch (descriptors w) sw.1 in
  (Ret (if timeout w =? 0 then (None, false)
        else let ms := timeout w * 1000 - now_ms in
             if ms <=? 0 then (Some 0, true) else (Some ms, false)), (s, w)).

Definition EB_Source_check (timeout now_ms : Z) (s : EB_Source) : bool :=
  existsb (fun p => bit_set (revents p) (events p)) (fds s) || (timeout <=? Z.quot now_ms 1000).
