(* ===== verification/EbForwardCorrect.v ===== *)
(** * Forwarding of etherbone is transparent *)
From S2P Require Import Prelude Bus EbForward.
Local Open Scope Z_scope.

(** ** What the system calls do

    Four streams: what the tool wrote and is still to be read, what it was sent,
    what the device was sent, and how much of the device's answers was read.
    [replies] is what the device answers to all that it was sent. *)
Record Streams := mkStreams { s_in : list Z; s_out : list Z; s_sent : list Z; s_taken : nat }.

Class TerminalsOk (W : Type) `{Terminals W} := {
  streams : W -> Streams;
  replies : list Z -> list Z;
  pts_read_ok : forall n w r bs w', pts_read n w = (r, bs, w') ->
    if 0 <? r then
      r <= n /\ length bs = Z.to_nat r /\ Forall (fun b => 0 <= b < 256) bs /\
      s_in (streams w) = bs ++ s_in (streams w') /\
      streams w' = mkStreams (s_in (streams w')) (s_out (streams w)) (s_sent (streams w)) (s_taken (streams w))
    else streams w' = streams w;
  pts_write_ok : forall buf w r w', pts_write buf w = (r, w') ->
    if 0 <? r then
      r <= Z.of_nat (length buf) /\
      streams w' = mkStreams (s_in (streams w)) (s_out (streams w) ++ take (Z.to_nat r) buf) (s_sent (streams w)) (s_taken (streams w))
    else streams w' = streams w;
  eb_write_ok : forall buf w r w', eb_write buf w = (r, w') ->
    if 0 <? r then
      r <= Z.of_nat (length buf) /\
      streams w' = mkStreams (s_in (streams w)) (s_out (streams w)) (s_sent (streams w) ++ take (Z.to_nat r) buf) (s_taken (streams w))
    else streams w' = streams w;
  eb_read_ok : forall n w r bs w', eb_read n w = (r, bs, w') ->
    if 0 <? r then
      r <= n /\ length bs = Z.to_nat r /\
      bs = take (Z.to_nat r) (drop (s_taken (streams w)) (replies (s_sent (streams w)))) /\
      streams w' = mkStreams (s_in (streams w)) (s_out (streams w)) (s_sent (streams w)) (s_taken (streams w) + Z.to_nat r)
    else streams w' = streams w
}.

(** No call fails. *)
Class TerminalsLive (W : Type) `{TerminalsOk W} := {
  pts_read_live : forall n w, 0 < n -> s_in (streams w) <> [] -> 0 < (pts_read n w).1.1;
  pts_write_live : forall buf w, buf <> [] -> 0 < (pts_write buf w).1;
  eb_write_live : forall buf w, buf <> [] -> 0 < (eb_write buf w).1;
  eb_read_live : forall n w, 0 < n -> drop (s_taken (streams w)) (replies (s_sent (streams w))) <> [] -> 0 < (eb_read n w).1.1;
  eb_poll_live : forall w, (eb_poll w).1 <> 0 /\ streams (eb_poll w).2 = streams w
}.

(** ** Requests *)

(** A cycle of etherbone: write values behind their base address, read addresses
    behind their return address; at most 255 of each. *)
Record eb_request := mkRequest {
  rq_flags : Z; rq_enable : Z;
  rq_base : list Z; rq_writes : list (list Z); rq_return : list Z; rq_reads : list (list Z)
}.
Definition section_bytes (base : list Z) (words : list (list Z)) : list Z :=
  match words with [] => [] | _ => base ++ concat words end.
Definition encode (r : eb_request) : list Z :=
  [rq_flags r; rq_enable r; Z.of_nat (length (rq_writes r)); Z.of_nat (length (rq_reads r))] ++
  section_bytes (rq_base r) (rq_writes r) ++ section_bytes (rq_return r) (rq_reads r).

Definition section_wf (base : list Z) (words : list (list Z)) : Prop :=
  length base = 4%nat /\ Forall (fun w => length w = 4%nat) words /\ (length words <= 255)%nat.
Definition request_wf (r : eb_request) : Prop :=
  section_wf (rq_base r) (rq_writes r) /\ section_wf (rq_return r) (rq_reads r) /\
  (rq_flags r =? 0x4e) && (rq_enable r =? 0x6f) = false.

Lemma section_length base words : section_wf base words ->
  Z.of_nat (length (section_bytes base words)) =
    if Z.of_nat (length words) =? 0 then 0 else 4 + 4 * Z.of_nat (length words).
Proof.
  intros (Hb & Hw & _). unfold section_bytes. destruct words as [|w words]; [done|].
  rewrite (proj2 (Z.eqb_neq _ _)) by (cbn; lia). rewrite length_app, Hb.
  assert (length (concat (w :: words)) = 4 * length (w :: words))%nat as ->; [|lia].
  clear Hb. induction Hw as [|x l Hx _ IH]; [done|]. cbn [concat length]. rewrite length_app, Hx, IH. lia.
Qed.

(** The size that the code computes from the header is the size of the request. *)
Lemma encode_length r : request_wf r -> Z.of_nat (length (encode r)) = added_size (encode r).
Proof.
  intros (Hw & Hr & _). unfold encode, added_size. cbn [app length lookup list_lookup default].
  rewrite length_app, !Nat2Z.inj_succ, Nat2Z.inj_add, (section_length _ _ Hw), (section_length _ _ Hr).
  unfold id. lia.
Qed.

Lemma added_size_range req : Forall (fun b => 0 <= b < 256) req -> 4 <= added_size req <= Z.of_nat max_request.
Proof.
  intros Hb. assert (forall k, 0 <= default 0 (req !! k) < 256) as Hd.
  { intros k. destruct (req !! k) as [b|] eqn:E; [exact (Forall_lookup_1 _ _ _ _ Hb E)|cbn; lia]. }
  unfold added_size. pose proof (Hd 2%nat). pose proof (Hd 3%nat). change (Z.of_nat max_request) with 2052.
  repeat case_match; lia.
Qed.

(** The header alone decides. *)
Lemma header_only req req' : take 4 req = take 4 req' ->
  added_size req = added_size req' /\ is_hello req = is_hello req'.
Proof.
  intros E. assert (forall k, (k < 4)%nat -> req !! k = req' !! k) as Hk.
  { intros k Hlt. rewrite <- (lookup_take_lt req 4 k) by done. rewrite E. by apply lookup_take_lt. }
  unfold added_size, is_hello. by rewrite !Hk by lia.
Qed.

Section Transfers.
Context {W D : Type} `{HW : TerminalsLive W, HB : Bus D}.
Implicit Types (w : W) (d : D).

Lemma write_all_eb fuel buf w d : (length buf <= fuel)%nat ->
  exists w', write_all_loop fuel eb_write buf (w, d) = (Ret tt, (w', d)) /\
    streams w' = mkStreams (s_in (streams w)) (s_out (streams w)) (s_sent (streams w) ++ buf) (s_taken (streams w)).
Proof.
  revert buf w. induction fuel as [|fuel IH]; intros buf w Hf.
  - destruct buf; [|cbn in Hf; lia]. exists w. split; [done|]. rewrite app_nil_r. by destruct (streams w).
  - destruct buf as [|b buf]; [exists w; split; [done|]; rewrite app_nil_r; by destruct (streams w)|].
    cbn [write_all_loop]. unfold on_w. mrun. cbn [fst snd].
    pose proof (eb_write_live (b :: buf) w ltac:(done)) as Hl. destruct (eb_write (b :: buf) w) as [r w1] eqn:E.
    cbn in Hl. pose proof (eb_write_ok _ _ _ _ E) as Hok. rewrite (proj2 (Z.ltb_lt 0 r) Hl) in *.
    destruct Hok as [Hr Hs]. destruct (IH (drop (Z.to_nat r) (b :: buf)) w1) as (w' & -> & Hs').
    { rewrite length_drop. cbn [length] in *. lia. }
    exists w'. split; [done|]. rewrite Hs', Hs. cbn [s_in s_out s_sent s_taken]. by rewrite <- app_assoc, take_drop.
Qed.

Lemma write_all_pts fuel buf w d : (length buf <= fuel)%nat ->
  exists w', write_all_loop fuel pts_write buf (w, d) = (Ret tt, (w', d)) /\
    streams w' = mkStreams (s_in (streams w)) (s_out (streams w) ++ buf) (s_sent (streams w)) (s_taken (streams w)).
Proof.
  revert buf w. induction fuel as [|fuel IH]; intros buf w Hf.
  - destruct buf; [|cbn in Hf; lia]. exists w. split; [done|]. rewrite app_nil_r. by destruct (streams w).
  - destruct buf as [|b buf]; [exists w; split; [done|]; rewrite app_nil_r; by destruct (streams w)|].
    cbn [write_all_loop]. unfold on_w. mrun. cbn [fst snd].
    pose proof (pts_write_live (b :: buf) w ltac:(done)) as Hl. destruct (pts_write (b :: buf) w) as [r w1] eqn:E.
    cbn in Hl. pose proof (pts_write_ok _ _ _ _ E) as Hok. rewrite (proj2 (Z.ltb_lt 0 r) Hl) in *.
    destruct Hok as [Hr Hs]. destruct (IH (drop (Z.to_nat r) (b :: buf)) w1) as (w' & -> & Hs').
    { rewrite length_drop. cbn [length] in *. lia. }
    exists w'. split; [done|]. rewrite Hs', Hs. cbn [s_in s_out s_sent s_taken]. by rewrite <- app_assoc, take_drop.
Qed.

(** As much as the device has answered is read completely. *)
Lemma read_all_eb fuel size got w d : (size <= fuel)%nat ->
  (size <= length (drop (s_taken (streams w)) (replies (s_sent (streams w)))))%nat ->
  exists w', read_all_loop fuel (Z.of_nat size) got (w, d) =
    (Ret (got ++ take size (drop (s_taken (streams w)) (replies (s_sent (streams w))))), (w', d)) /\
    streams w' = mkStreams (s_in (streams w)) (s_out (streams w)) (s_sent (streams w)) (s_taken (streams w) + size).
Proof.
  revert size got w. induction fuel as [|fuel IH]; intros size got w Hf Hlen.
  - assert (size = 0)%nat as -> by lia. exists w. cbn. rewrite take_0, app_nil_r, Nat.add_0_r. by destruct (streams w).
  - cbn [read_all_loop]. destruct (Z.ltb_spec 0 (Z.of_nat size)) as [Hpos|Hz].
    2: { assert (size = 0)%nat as -> by lia. exists w. rewrite take_0, app_nil_r, Nat.add_0_r. by destruct (streams w). }
    unfold on_w. mrun. cbn [fst snd].
    assert (drop (s_taken (streams w)) (replies (s_sent (streams w))) <> []) as Hne.
    { intros En. rewrite En in Hlen. cbn in Hlen. lia. }
    pose proof (eb_read_live (Z.of_nat size) w Hpos Hne) as Hl.
    destruct (eb_read (Z.of_nat size) w) as [[r bs] w1] eqn:E. cbn in Hl.
    pose proof (eb_read_ok _ _ _ _ _ E) as Hok. rewrite (proj2 (Z.ltb_lt 0 r) Hl) in *.
    destruct Hok as (Hr & Hbs & Etake & Hs). set (k := Z.to_nat r) in *.
    replace (Z.of_nat size - r) with (Z.of_nat (size - k)) by lia.
    destruct (IH (size - k)%nat (got ++ bs) w1) as (w' & -> & Hs'); [lia| |].
    { rewrite Hs. cbn [s_sent s_taken]. rewrite length_drop in *. lia. }
    exists w'. rewrite Hs', Hs. cbn [s_in s_out s_sent s_taken]. split; [|f_equal; lia].
    rewrite Etake, <- app_assoc, <- drop_drop. do 3 f_equal. rewrite take_take_drop.
    f_equal. lia.
Qed.
End Transfers.

(** ** One request *)
Section OneRequest.
Context {W D : Type} `{HW : TerminalsLive W, HB : BusOk D} (adr_first : Z).
Implicit Types (w : W) (d : D).

(** What the device has to say about [sent], beyond what was read. *)
Definition answer w (request : list Z) : list Z :=
  take (length request) (drop (s_taken (streams w)) (replies (s_sent (streams w) ++ request))).

Definition forwarded w (request rest : list Z) w' : Prop :=
  streams w' = mkStreams rest (s_out (streams w) ++ answer w request) (s_sent (streams w) ++ request)
    (s_taken (streams w) + length request).

Lemma forward_ok request w d :
  (length request <= length (drop (s_taken (streams w)) (replies (s_sent (streams w) ++ request))))%nat ->
  match forward adr_first request (w, d) with
  | (Ret b, (w', _)) => b = true /\ forwarded w request (s_in (streams w)) w'
  | (Throw e, (w', _)) => e = EtherboneError /\ forwarded w request (s_in (streams w)) w'
  | (Crash _, _) => False
  end.
Proof.
  intros Hlen. unfold forward, write_all, read_all.
  destruct (write_all_eb (length request) request w d ltac:(lia)) as (w1 & E1 & S1).
  unfold mbind at 1, M_bind at 1. rewrite E1. unfold mbind at 1, M_bind at 1. unfold on_w at 1. cbn [fst snd].
  destruct (eb_poll_live w1) as [Hp Sp]. destruct (eb_poll w1) as [r w2]. cbn [fst snd] in *.
  rewrite (proj2 (Z.eqb_neq r 0)) by done.
  destruct (read_all_eb (length request) (length request) [] w2 d) as (w3 & E3 & S3); [lia| |].
  { by rewrite Sp, S1. }
  unfold mbind at 1, M_bind at 1. rewrite E3. cbn [app].
  set (resp := take _ _) in *.
  destruct (write_all_pts (length resp) resp w3 d ltac:(lia)) as (w4 & E4 & S4).
  unfold mbind at 1, M_bind at 1. rewrite E4.
  assert (forwarded w request (s_in (streams w)) w4) as Hf.
  { unfold forwarded, answer. rewrite S4, S3. cbn [s_in s_out s_sent s_taken].
    assert (resp = answer w request) as -> by (unfold resp, answer; by rewrite Sp, S1). by rewrite Sp, S1. }
  unfold on_d, zoom. mrun. cbn [fst snd].
  pose proof (dev_read_no_crash (adr_first + WR_PPS_GEN_ESCR) d) as Hcrash.
  assert (match dev_read (adr_first + WR_PPS_GEN_ESCR) d with (Throw e, _) => e = EtherboneError | _ => True end) as Hthrow.
  { unfold dev_read, cycle. mrun. destruct (bus_cycle _ _) as [[[|v [|v' vs]] d']|]; done. }
  destruct (dev_read _ d) as [[v|e|why] d1]; [done|done|by eapply Hcrash].
Qed.

(** Reading the rest of a request byte by byte. *)
Lemma accept_reads fuel req todo rest size w d :
  todo <> [] -> (length todo <= fuel)%nat -> s_in (streams w) = todo ++ rest ->
  (4 <= length (req ++ todo))%nat -> Z.of_nat (length (req ++ todo)) = added_size (req ++ todo) ->
  is_hello (req ++ todo) = false ->
  size = (if (length req <? 4)%nat then 0 else Z.of_nat (length (req ++ todo))) ->
  exists w1, accept_loop adr_first fuel req size (w, d) = (b ← forward adr_first (req ++ todo); mret (Some b)) (w1, d) /\
    streams w1 = mkStreams rest (s_out (streams w)) (s_sent (streams w)) (s_taken (streams w)).
Proof.
  revert req todo size w. induction fuel as [|fuel IH]; intros req todo size w Hne Hf Hin H4 Hsize Hhello Esize.
  { destruct todo; [done|cbn in Hf; lia]. }
  cbn [accept_loop]. unfold mbind at 1, M_bind at 1. unfold on_w at 1. cbn [fst snd].
  pose proof (pts_read_live 1 w ltac:(lia)) as Hl. destruct todo as [|b todo]; [done|].
  rewrite Hin in Hl. specialize (Hl ltac:(done)). destruct (pts_read 1 w) as [[r bs] w1] eqn:E. cbn in Hl.
  pose proof (pts_read_ok _ _ _ _ _ E) as Hok. rewrite (proj2 (Z.ltb_lt 0 r) Hl) in Hok.
  destruct Hok as (Hr & Hbs & _ & Hin' & Hs). assert (r = 1) as -> by lia. cbn [Z.leb Z.compare].
  destruct bs as [|b' [|]]; try (cbn in Hbs; discriminate). rewrite Hin in Hin'. cbn in Hin'. injection Hin' as <- Hin'.
  set (req' := req ++ [b]). assert (req ++ b :: todo = req' ++ todo) as Ereq by (unfold req'; by rewrite <- app_assoc).
  rewrite Ereq in *. assert (length req' = S (length req)) as Elen by (unfold req'; rewrite length_app; cbn; lia).
  assert (length req' = 4%nat -> added_size req' = Z.of_nat (length (req' ++ todo)) /\ is_hello req' = false) as Hhead.
  { intros E4. rewrite Hsize, <- Hhello. apply header_only. rewrite take_app_le by lia. done. }
  assert ((length req' =? 4)%nat && is_hello req' = false) as ->.
  { destruct (Nat.eqb_spec (length req') 4) as [E4|]; [|done]. by destruct (Hhead E4) as [_ ->]. }
  assert ((if (length req' =? 4)%nat then size + added_size req' else size) =
    (if (length req' <? 4)%nat then 0 else Z.of_nat (length (req' ++ todo)))) as ->.
  { rewrite Esize. destruct (Nat.eqb_spec (length req') 4) as [E4|Hn4].
    - destruct (Hhead E4) as [-> _]. rewrite (proj2 (Nat.ltb_lt (length req) 4)), (proj2 (Nat.ltb_ge (length req') 4)) by lia. lia.
    - destruct (Nat.ltb_spec (length req) 4), (Nat.ltb_spec (length req') 4); try done; lia. }
  destruct todo as [|b2 todo].
  - rewrite app_nil_r in *. rewrite (proj2 (Nat.ltb_ge (length req') 4)) by lia. rewrite Z.eqb_refl.
    rewrite (proj2 (Z.eqb_neq _ 0)) by lia. cbn [negb andb]. exists w1. split; [done|]. rewrite Hs, <- Hin'. done.
  - assert (negb ((if (length req' <? 4)%nat then 0 else Z.of_nat (length (req' ++ b2 :: todo))) =? 0) &&
      ((if (length req' <? 4)%nat then 0 else Z.of_nat (length (req' ++ b2 :: todo))) =? Z.of_nat (length req')) = false) as ->.
    { destruct (length req' <? 4)%nat; [done|]. apply andb_false_intro2, Z.eqb_neq. rewrite length_app. cbn. lia. }
    destruct (IH req' (b2 :: todo) _ w1 ltac:(done) ltac:(cbn in *; lia) (eq_sym Hin') H4 Hsize Hhello eq_refl) as (w2 & -> & S2).
    exists w2. split; [done|]. rewrite S2, Hs. done.
Qed.

(** C8: the terminal is transparent.  When a tool has written a complete request of
    etherbone (anything may follow it), accept_connection sends the device exactly
    this request and the tool exactly as many bytes of the device's answer, takes
    nothing else from either stream, and keeps the connection; it throws only
    after all that, if reading the clock's register fails. *)
Theorem request_forwarded (r : eb_request) (rest : list Z) (w : W) (d : D)
    (Hwf : request_wf r) (Hin : s_in (streams w) = encode r ++ rest)
    (Hanswer : (length (encode r) <= length (drop (s_taken (streams w)) (replies (s_sent (streams w) ++ encode r))))%nat) :
  match accept_connection adr_first (w, d) with
  | (Ret o, (w', _)) => o = Some true /\ forwarded w (encode r) rest w'
  | (Throw e, (w', _)) => e = EtherboneError /\ forwarded w (encode r) rest w'
  | (Crash _, _) => False
  end.
Proof.
  pose proof (encode_length r Hwf) as Hsize.
  assert (4 <= length (encode r) <= max_request)%nat as Hlen.
  { destruct Hwf as (Hw & Hr & _). unfold encode. cbn [app length]. rewrite length_app.
    pose proof (section_length _ _ Hw) as E1. pose proof (section_length _ _ Hr) as E2.
    destruct Hw as (_ & _ & Hw), Hr as (_ & _ & Hr). unfold max_request. repeat case_match; lia. }
  unfold accept_connection.
  destruct (accept_reads max_request [] (encode r) rest 0 w d) as (w1 & E & S1); try done; try (cbn [app]; lia).
  { cbn [app]. unfold is_hello, encode. cbn [app lookup list_lookup]. apply Hwf. }
  rewrite E. cbn [app]. pose proof (forward_ok (encode r) w1 d) as Hf. unfold answer, forwarded, answer in *. rewrite S1 in Hf. specialize (Hf Hanswer).
  mrun. destruct (forward adr_first (encode r) (w1, d)) as [[b|e|why] [w2 d2]]; [|done|done].
  destruct Hf as [-> Hf]. done.
Qed.
End OneRequest.

(** ** Any input

    Neither the tool's bytes nor failing calls can stop the daemon: a connection
    ends, or a request is served, after at most [max_request] bytes. *)
Section AnyInput.
Context {W D : Type} `{HW : TerminalsOk W, HB : BusOk D} (adr_first : Z).
Implicit Types (s : W * D).

Definition answered {A} (ok : A -> Prop) (res : outcome A * (W * D)) : Prop :=
  match res.1 with Ret a => ok a | Throw e => e = EtherboneError | Crash _ => False end.

Lemma answered_bind {A B} (ok : A -> Prop) (ok' : B -> Prop) (m : M (W * D) A) (f : A -> M (W * D) B) s :
  answered ok (m s) -> (forall a s', ok a -> answered ok' (f a s')) -> answered ok' (mbind f m s).
Proof.
  unfold answered, mbind, M_bind. destruct (m s) as [[a|e|why] s']; cbn; [|done|done].
  intros Ha Hf. exact (Hf a s' Ha).
Qed.

Lemma answered_ret {A} (ok : A -> Prop) (a : A) s : ok a -> answered ok ((mret a : M (W * D) A) s).
Proof. done. Qed.

Lemma on_w_answers {A} (f : W -> A * W) s : answered (fun _ => True) (on_w f s).
Proof. unfold on_w, answered. by destruct (f s.1). Qed.

Lemma write_all_answers fuel write buf s : answered (fun _ => True) (write_all_loop fuel write buf s).
Proof.
  revert buf s. induction fuel as [|fuel IH]; intros buf s; destruct buf as [|b buf]; try done.
  cbn [write_all_loop]. eapply answered_bind; [apply on_w_answers|]. intros r s1 _. by case_match.
Qed.

Lemma read_all_answers fuel size got s : answered (fun _ => True) (read_all_loop fuel size got s).
Proof.
  revert size got s. induction fuel as [|fuel IH]; intros size got s; [done|].
  cbn [read_all_loop]. case_match; [|done]. eapply answered_bind; [apply on_w_answers|].
  intros [r bs] s1 _. by case_match.
Qed.

Lemma hang_up_answers s : answered (fun _ => True) (hang_up s).
Proof. done. Qed.

Lemma dev_read_answers a s : answered (fun _ => True) (on_d (dev_read a) s).
Proof.
  unfold answered, on_d, zoom, dev_read, cycle. mrun. cbn [fst snd].
  destruct (bus_cycle [BusR a] s.2) as [[rs d']|] eqn:E; [|done].
  apply bus_cycle_length in E. by destruct rs as [|v [|]].
Qed.

Lemma forward_answers request s : answered (fun _ => True) (forward adr_first request s).
Proof.
  unfold forward. eapply answered_bind; [apply write_all_answers|]. intros _ s1 _.
  eapply answered_bind; [apply on_w_answers|]. intros r s2 _. case_match; [done|].
  eapply answered_bind; [apply read_all_answers|]. intros resp s3 _.
  eapply answered_bind; [apply write_all_answers|]. intros _ s4 _.
  eapply answered_bind; [apply dev_read_answers|]. by intros.
Qed.

Lemma answer_hello_answers s : answered (fun _ => True) (answer_hello s).
Proof.
  unfold answer_hello. eapply (answered_bind (fun _ => True)).
  - generalize 4%nat, [0x4e; 0x6f; 0x16; 0x44]. intros n. revert s. induction n as [|n IH]; intros s l; [done|].
    cbn [read_hello]. eapply answered_bind; [apply on_w_answers|]. intros [r bs] s1 _. by case_match.
  - intros [resp|] s1 _; [|apply hang_up_answers]. eapply answered_bind; [apply on_w_answers|].
    intros r s2 _. case_match; [apply hang_up_answers|done].
Qed.

Lemma accept_answers fuel req size s :
  (max_request <= length req + fuel)%nat -> Forall (fun b => 0 <= b < 256) req ->
  Z.of_nat (length req) < (if (length req <? 4)%nat then 4 else size) ->
  size = (if (length req <? 4)%nat then 0 else added_size req) ->
  answered (fun o => o <> None) (accept_loop adr_first fuel req size s).
Proof.
  revert req size s. induction fuel as [|fuel IH]; intros req size s Hf Hb Hlt Esize.
  { exfalso. pose proof (added_size_range req Hb) as Hmax. assert (4 <= max_request)%nat by (unfold max_request; lia).
    destruct (length req <? 4)%nat; lia. }
  cbn [accept_loop]. eapply (answered_bind (fun '(r, bs) => 0 < r -> exists b, bs = [b] /\ 0 <= b < 256)).
  { unfold on_w, answered. destruct (pts_read 1 s.1) as [[r bs] w1] eqn:E. cbn [fst]. intros Hr.
    pose proof (pts_read_ok _ _ _ _ _ E) as Hok. rewrite (proj2 (Z.ltb_lt 0 r) Hr) in Hok.
    destruct Hok as (Hle & Hlen & Hbs & _). assert (r = 1) as -> by lia.
    destruct bs as [|b [|]]; try (cbn in Hlen; discriminate). exists b. split; [done|]. by inversion Hbs. }
  assert (forall (m : M (W * D) bool) s1, answered (fun _ => True) (m s1) ->
    answered (fun o : option bool => o <> None) ((b ← m; mret (Some b)) s1)) as Hsome.
  { intros m s1 Hm. eapply answered_bind; [exact Hm|]. by intros. }
  intros [r bs] s1 Hbyte. destruct (Z.leb_spec r 0) as [Hr|Hr]; [apply Hsome, hang_up_answers|].
  destruct (Hbyte Hr) as (b & -> & Hb'). set (req' := req ++ [b]).
  assert (length req' = S (length req)) as Elen by (unfold req'; rewrite length_app; cbn; lia).
  assert (Forall (fun b => 0 <= b < 256) req') as Hreq' by (apply Forall_app; auto).
  destruct ((length req' =? 4)%nat && is_hello req'); [apply Hsome, answer_hello_answers|].
  set (size' := if (length req' =? 4)%nat then size + added_size req' else size).
  assert (size' = (if (length req' <? 4)%nat then 0 else added_size req')) as Esize'.
  { unfold size'. rewrite Esize. destruct (Nat.eqb_spec (length req') 4) as [E4|Hn].
    - rewrite (proj2 (Nat.ltb_lt (length req) 4)), (proj2 (Nat.ltb_ge (length req') 4)) by lia. lia.
    - destruct (Nat.ltb_spec (length req) 4), (Nat.ltb_spec (length req') 4); try done; try lia.
      apply header_only. unfold req'. by rewrite take_app_le by lia. }
  fold size'. destruct (negb (size' =? 0) && (size' =? Z.of_nat (length req'))) eqn:Edone; [apply Hsome, forward_answers|]. apply IH; [lia|done| |done].
  pose proof (added_size_range req' Hreq') as Hrange. apply andb_false_iff in Edone.
  destruct (Nat.ltb_spec (length req') 4) as [|H4]; [lia|].
  assert (size' <> Z.of_nat (length req')) as Hne.
  { destruct Edone as [Ez|Ez]; [|by apply Z.eqb_neq in Ez]. apply negb_false_iff, Z.eqb_eq in Ez. lia. }
  destruct (Nat.ltb_spec (length req) 4) as [|H4']; [|].
  - assert (length req' = 4%nat) by lia. lia.
  - unfold size' in *. rewrite (proj2 (Nat.eqb_neq (length req') 4)) in * by lia. lia.
Qed.

(** Whatever the tool writes and whichever call fails: [accept_connection] comes to
    an end within [max_request] bytes, leaves only by an exception of the bus, and
    does nothing undefined. *)
Theorem accept_connection_ends s : answered (fun o => o <> None) (accept_connection adr_first s).
Proof. apply accept_answers; try done; cbn; lia. Qed.
End AnyInput.

(** ** The event source of the socket *)
Definition pollfd_of (d : Z * Z) : pollfd :=
  mkPollfd d.1 (Z.lor (Z.lor (Z.lor POLLERR POLLHUP) (if bit_set d.2 EB_DESCRIPTOR_IN then POLLIN else 0))
    (if bit_set d.2 EB_DESCRIPTOR_OUT then POLLOUT else 0)) 0.

Definition add_fds (ds : list (Z * Z)) (s : EB_Source) : EB_Source := foldl (fun s d => add_fd d s) s ds.

Lemma add_fd_cases d s : exists b c,
  add_fd d s = mkEbSource (fds s ++ [pollfd_of d]) b c (fds_it s) (fds_it_valid s) (polls s ++ [(b, length (fds s))]) /\
  ((length (fds s) < capacity s)%nat /\ b = buffer s /\ c = capacity s \/
   (capacity s <= length (fds s))%nat /\ b = S (buffer s) /\ c = (2 * capacity s)%nat).
Proof.
  destruct d as [f m]. unfold add_fd, push_back.
  destruct (Nat.ltb_spec (length (fds s)) (capacity s)); do 2 eexists; (split; [reflexivity|]); auto.
Qed.

Lemma add_fds_cons d ds s : add_fds (d :: ds) s = add_fds ds (add_fd d s).
Proof. done. Qed.

Lemma add_fds_fit ds s : (length (fds s) + length ds <= capacity s)%nat ->
  add_fds ds s = mkEbSource (fds s ++ map pollfd_of ds) (buffer s) (capacity s) (fds_it s) (fds_it_valid s)
    (polls s ++ map (pair (buffer s)) (seq (length (fds s)) (length ds))).
Proof.
  revert s. induction ds as [|d ds IH]; intros s Hfit; cbn [length] in Hfit.
  - cbn. rewrite !app_nil_r. by destruct s.
  - rewrite add_fds_cons. destruct (add_fd_cases d s) as (b & c & -> & [(Hlt & -> & ->)|(Hge & _)]); [|lia].
    rewrite IH; cbn [fds buffer capacity fds_it fds_it_valid polls]; rewrite length_app; cbn [length]; [|lia].
    rewrite <- !app_assoc. cbn [app map seq length]. by rewrite Nat.add_1_r.
Qed.

Lemma add_fds_buffer ds s : (buffer s <= buffer (add_fds ds s))%nat /\ exists more, polls (add_fds ds s) = polls s ++ more.
Proof.
  revert s. induction ds as [|d ds IH]; intros s; [split; [done|]; exists []; by rewrite app_nil_r|].
  rewrite add_fds_cons. destruct (IH (add_fd d s)) as [Hb [more Hm]]. rewrite Hm.
  destruct (add_fd_cases d s) as (b & c & E & Hc). rewrite E in *. cbn [buffer polls] in *. split; [lia|].
  eexists. by rewrite <- app_assoc.
Qed.

Lemma add_fds_app l1 l2 s : add_fds (l1 ++ l2) s = add_fds l2 (add_fds l1 s).
Proof. apply foldl_app. Qed.

(** The pointers that the loop holds: into the present buffer, at an element. *)
Definition pointers_valid (s : EB_Source) : Prop :=
  Forall (fun '(b, i) => b = buffer s /\ (i < length (fds s))%nat) (polls s).

(** A vector that must grow leaves its first pointer in the old buffer. *)
Lemma add_fds_grow ds s : fds s = [] -> polls s = [] -> (0 < capacity s)%nat -> (capacity s < length ds)%nat ->
  exists more, polls (add_fds ds s) = (buffer s, 0%nat) :: more /\ (buffer s < buffer (add_fds ds s))%nat.
Proof.
  intros Hf Hp Hpos Hgt. rewrite <- (take_drop (capacity s) ds), add_fds_app.
  rewrite (add_fds_fit (take (capacity s) ds)) by (rewrite Hf, length_take; cbn [length]; lia).
  rewrite Hf, Hp. cbn [app length]. rewrite length_take_le by lia.
  destruct (drop (capacity s) ds) as [|d rest] eqn:Ed.
  { apply (f_equal length) in Ed. rewrite length_drop in Ed. cbn in Ed. lia. }
  rewrite add_fds_cons. match goal with |- context [add_fd d ?x] => destruct (add_fd_cases d x) as (b & c & -> & Hc) end.
  cbn [fds buffer capacity polls fds_it fds_it_valid] in *. rewrite length_map, length_take_le in Hc by lia.
  match goal with |- context [add_fds rest ?x] => destruct (add_fds_buffer rest x) as [Hb [more ->]] end.
  cbn [buffer polls] in *. destruct (capacity s) as [|n]; [lia|]. cbn [seq map app]. eexists. split; [done|]. eapply Nat.lt_le_trans; [|exact Hb]. lia.
Qed.

(** The pointers that [prepare] hands to the loop can be used exactly if the vector
    did not have to grow: at first, up to eight descriptors. *)
Theorem watch_pointers ds s : (0 < capacity s)%nat ->
  pointers_valid (watch ds s) <-> (length ds <= capacity s)%nat.
Proof.
  intros Hcap. unfold watch. fold (add_fds ds (clear_fds s)). unfold pointers_valid, set_it. cbn [fds buffer polls].
  split.
  - intros Hv. apply Nat.nlt_ge. intros Hgt.
    destruct (add_fds_grow ds (clear_fds s)) as (more & Hp & Hb); try done.
    rewrite Hp in Hv. apply Forall_cons in Hv as [[Hx _] _]. cbn in Hx. unfold clear_fds in *. cbn in *. lia.
  - intros Hfit. rewrite add_fds_fit by (cbn; lia). cbn [fds buffer polls clear_fds app].
    apply Forall_map, Forall_seq. intros i Hi. split; [done|]. rewrite length_map. cbn in Hi. lia.
Qed.

(** After one round with more descriptors the capacity is enough for as many. *)
Lemma add_fds_capacity ds s : (0 < capacity s)%nat -> (length (fds s) <= capacity s)%nat ->
  (0 < capacity (add_fds ds s) /\ length (fds s) + length ds <= capacity (add_fds ds s))%nat.
Proof.
  revert s. induction ds as [|d ds IH]; intros s Hpos Hle; [cbn; lia|].
  rewrite add_fds_cons. specialize (IH (add_fd d s)).
  destruct (add_fd_cases d s) as (b & c & E & Hc). rewrite E in *. cbn [fds capacity length] in *. rewrite length_app in IH. cbn [length] in IH. lia.
Qed.

Theorem watch_again_valid ds ds' s : (0 < capacity s)%nat -> (length ds' <= length ds)%nat ->
  pointers_valid (watch ds' (watch ds s)).
Proof.
  intros Hcap Hle. pose proof (add_fds_capacity ds (clear_fds s) Hcap (Nat.le_0_l _)) as Hc. cbn in Hc.
  apply watch_pointers; unfold watch, set_it; cbn [capacity]; fold (add_fds ds (clear_fds s)); lia.
Qed.

(** The answer of a plain search. *)
Definition plain_answer (fd_ mode : Z) (l : list pollfd) : bool :=
  match l !! search fd_ l with Some p => ready_for mode (revents p) | None => false end.

Lemma search_at l i p : NoDup (map fd l) -> l !! i = Some p -> search (fd p) l = i.
Proof.
  revert i. induction l as [|q l IH]; intros i Hn Hi; [done|]. cbn in *. apply NoDup_cons in Hn as [Hq Hn].
  destruct i as [|i]; cbn in Hi; [injection Hi as <-; by rewrite Z.eqb_refl|].
  rewrite (proj2 (Z.eqb_neq _ _)); [by rewrite (IH i)|]. intros E. apply Hq. rewrite E.
  apply list_elem_of_fmap. exists p. split; [done|]. by eapply list_elem_of_lookup_2.
Qed.

(** The shortcut by the iterator changes no answer while the iterator is not behind
    the last descriptor; there it is dereferenced. *)
Theorem get_fd_plain fd_ mode s : NoDup (map fd (fds s)) ->
  (get_fd fd_ mode s).1 =
    (if fds_it_valid s && (length (fds s) <=? fds_it s)%nat then Crash "fds_it->fd"
     else Ret (plain_answer fd_ mode (fds s))).
Proof.
  intros Hn. unfold get_fd, plain_answer. unfold mbind at 1, M_bind at 1. cbn [get].
  destruct (fds_it_valid s) eqn:Ev; cbn [andb].
  - destruct (fds s !! fds_it s) as [p|] eqn:Ep.
    + rewrite (proj2 (Nat.leb_gt (length (fds s)) (fds_it s))) by (by apply lookup_lt_Some in Ep). mrun.
      destruct (Z.eqb_spec (fd p) fd_) as [<-|Hne]; mrun.
      * rewrite Ep, (search_at _ _ _ Hn Ep), Ep. by mrun.
      * cbn [fds fds_it set_it]. case_match; by mrun.
    + rewrite (proj2 (Nat.leb_le (length (fds s)) (fds_it s))) by (by apply lookup_ge_None in Ep). by mrun.
  - mrun. cbn [fds fds_it set_it]. case_match; by mrun.
Qed.

(** ** Examples *)
Module EbDemo.

(** Terminals that pass on two bytes at most in one call; the device answers with
    the complement of what it is sent. *)
Definition terminals := Streams.
Definition answers (sent : list Z) : list Z := map (fun b => u8 (- b - 1)) sent.
Definition some_of (n : Z) : nat := Nat.min 2 (Z.to_nat n).

#[export] Instance demo_terminals : Terminals terminals := {
  pts_read n w := let bs := take (some_of n) (s_in w) in
    (Z.of_nat (length bs), map u8 bs, mkStreams (drop (some_of n) (s_in w)) (s_out w) (s_sent w) (s_taken w));
  pts_write buf w := let bs := take 2 buf in
    (Z.of_nat (length bs), mkStreams (s_in w) (s_out w ++ bs) (s_sent w) (s_taken w));
  eb_read n w := let bs := take (some_of n) (drop (s_taken w) (answers (s_sent w))) in
    (Z.of_nat (length bs), bs, mkStreams (s_in w) (s_out w) (s_sent w) (s_taken w + length bs));
  eb_write buf w := let bs := take 2 buf in
    (Z.of_nat (length bs), mkStreams (s_in w) (s_out w) (s_sent w ++ bs) (s_taken w));
  eb_poll w := (1, w);
  reopen w := w
}.

Definition bytes_of (w : terminals) : Streams := mkStreams (map u8 (s_in w)) (s_out w) (s_sent w) (s_taken w).

Lemma some_of_le n : Z.of_nat (some_of n) <= n \/ some_of n = 0%nat.
Proof. unfold some_of. lia. Qed.

Lemma take_as_taken {A} k (l : list A) : take (length (take k l)) l = take k l.
Proof.
  rewrite length_take. destruct (Nat.le_ge_cases k (length l)); [by rewrite Nat.min_l|].
  rewrite Nat.min_r by done. by rewrite !firstn_all2 by lia.
Qed.

#[export] Instance demo_terminals_ok : TerminalsOk terminals.
Proof.
  refine {| streams := bytes_of; replies := answers |}; unfold bytes_of, pts_read, pts_write, eb_read, eb_write, demo_terminals.
  - intros n w r bs w' E'. cbv zeta in E'. apply pair_equal_spec in E' as [E' <-]. apply pair_equal_spec in E' as [<- <-]. cbn [s_in s_out s_sent s_taken]. pose proof (some_of_le n) as Hk. set (k := some_of n) in *.
    destruct (Z.ltb_spec 0 (Z.of_nat (length (take k (s_in w))))) as [Hp|Hz].
    + rewrite length_map, Nat2Z.id. split; [rewrite length_take in *; lia|]. split; [done|].
      split; [apply Forall_map, Forall_true; intros; apply unsigned_wrap_range; lia|].
      by rewrite <- map_app, take_drop.
    + f_equal. f_equal. rewrite length_take in Hz. destruct k as [|k]; [done|]. by destruct (s_in w); [|cbn in Hz; lia].
  - intros buf w r w' E'. cbv zeta in E'. apply pair_equal_spec in E' as [<- <-]. cbn [s_in s_out s_sent s_taken]. case_match eqn:E.
    + split; [rewrite length_take; lia|]. by rewrite Nat2Z.id, take_as_taken.
    + apply Z.ltb_ge in E. destruct buf; [by rewrite app_nil_r|]. cbn in E. lia.
  - intros buf w r w' E'. cbv zeta in E'. apply pair_equal_spec in E' as [<- <-]. cbn [s_in s_out s_sent s_taken]. case_match eqn:E.
    + split; [rewrite length_take; lia|]. by rewrite Nat2Z.id, take_as_taken.
    + apply Z.ltb_ge in E. destruct buf; [by rewrite app_nil_r|]. cbn in E. lia.
  - intros n w r bs w' E'. cbv zeta in E'. apply pair_equal_spec in E' as [E' <-]. apply pair_equal_spec in E' as [<- <-]. cbn [s_in s_out s_sent s_taken]. set (l := drop _ _). pose proof (some_of_le n) as Hk. set (k := some_of n) in *.
    case_match eqn:E.
    + apply Z.ltb_lt in E. rewrite Nat2Z.id. split; [rewrite length_take in *; lia|]. split; [done|]. split; [|done].
      by rewrite take_as_taken.
    + apply Z.ltb_ge in E. f_equal. lia.
Defined.

#[export] Instance demo_terminals_live : TerminalsLive terminals.
Proof.
  split.
  - intros n w Hn Hin. change (0 < Z.of_nat (length (take (some_of n) (s_in w)))). rewrite length_take.
    change (map u8 (s_in w) <> []) in Hin. destruct (s_in w); [done|]. unfold some_of. cbn [length]. lia.
  - intros buf w Hb. destruct buf; [done|]. cbn. lia.
  - intros buf w Hb. destruct buf; [done|]. cbn. lia.
  - intros n w Hn Hne. change (0 < Z.of_nat (length (take (some_of n) (drop (s_taken w) (answers (s_sent w)))))).
    change (drop (s_taken w) (answers (s_sent w)) <> []) in Hne. rewrite length_take.
    destruct (drop _ _); [done|]. unfold some_of. cbn [length]. lia.
  - done.
Defined.

(** Two words are written, one is read; the first bytes of the next request follow. *)
Definition request1 : eb_request :=
  mkRequest 0x10 0x0f [0; 0; 1; 0] [[1; 2; 3; 4]; [5; 6; 7; 8]] [0; 0; 0; 0] [[0; 0; 2; 4]].
Definition w1 : terminals := mkStreams (encode request1 ++ [0x10; 0x0f]) [] [] 0.

Lemma request_forwarded_witness :
  match accept_connection 0x100 (w1, ram0) with
  | (Ret o, (w', _)) => o = Some true /\ forwarded w1 (encode request1) [0x10; 0x0f] w'
  | (Throw e, (w', _)) => e = EtherboneError /\ forwarded w1 (encode request1) [0x10; 0x0f] w'
  | (Crash _, _) => False
  end.
Proof.
  apply (request_forwarded 0x100 request1 [0x10; 0x0f] w1 ram0); [|reflexivity|vm_compute; lia].
  repeat split; try reflexivity; repeat constructor.
Defined.

(** The hello is answered by one [write] that is not repeated: of eight bytes the
    tool gets as many as the call takes. *)
Example hello_answered :
  (accept_connection 0x100 (mkStreams [0x4e; 0x6f; 0x11; 0x77; 1; 2; 3; 4] [] [] 0, ram0)).2.1 =
    mkStreams [] [0x4e; 0x6f] [] 0.
Proof. vm_compute. reflexivity. Qed.

Example nine_descriptors :
  pointers_valid (watch (replicate 8 (3, 1)) EB_Source_new) /\
  ~ pointers_valid (watch (replicate 9 (3, 1)) EB_Source_new) /\
  pointers_valid (watch (replicate 9 (3, 1)) (watch (replicate 9 (3, 1)) EB_Source_new)).
Proof.
  split; [apply watch_pointers; cbn; lia|]. split; [|apply watch_again_valid; cbn; lia].
  rewrite watch_pointers by (cbn; lia). cbn. lia.
Qed.

(** After the last descriptor no other may be asked for. *)
Example behind_the_last :
  (_ ← get_fd 4 1; get_fd 3 1) (watch [(3, 1); (4, 1)] EB_Source_new) =
    (Crash "fds_it->fd", set_it 2 (watch [(3, 1); (4, 1)] EB_Source_new)).
Proof. reflexivity. Qed.
End EbDemo.
