(* ===== verification/SoftEca.v ===== *)
(** * The ECA of the software timing receiver (src/saft-software-tr.cpp)

    A program that stands in for the hardware.  Its ECA does not follow the search
    table of the register map ([EcaHw]): it collects what the driver writes to the
    search registers, guesses conditions (identifier and mask) from the sequence,
    and compares every event with these. *)
From S2P Require Import Prelude EcaTables EcaHw EcaOps.
From stdpp Require Import gmap.
Local Open Scope Z_scope.

(** ** Data *)
Record SearchCandidate := mkCandidate { first_walker : Z; search_event : Z }.
Definition SearchCandidate_new (first search : Z) : SearchCandidate :=
  mkCandidate (if first =? 0xffff then -1 else first) search.

Record Search := mkSoftSearch { s_id : Z; s_mask : Z; s_first : Z }.

Record Walker := mkWalker {
  wk_offset : Z; wk_tag : Z; wk_next : Z; wk_flags : Z; wk_channel : Z; wk_num : Z; wk_fired : bool
}.
(** What [walker[i]] makes of an index that is not in the map. *)
Definition Walker_new : Walker := mkWalker 0 0 0 0 0 0 false.

Record Event := mkEvent {
  ev_id : Z; ev_param : Z; ev_deadline : Z; ev_num : Z; ev_tag : Z; ev_msi_adr : Z; ev_msi_dat : Z
}.

Record SoftwareECA := mkSoftEca {
  search_candidates : list SearchCandidate;
  searches : list Search;
  walker : gmap Z Walker;
  in_buffer : list Z;
  msi_target_adr : Z;
  events : list Event;
  actions : list Event
}.

Definition set_candidates l s : SoftwareECA := mkSoftEca l (searches s) (walker s) (in_buffer s) (msi_target_adr s) (events s) (actions s).
Definition set_searches l s : SoftwareECA := mkSoftEca (search_candidates s) l (walker s) (in_buffer s) (msi_target_adr s) (events s) (actions s).
Definition set_walker w s : SoftwareECA := mkSoftEca (search_candidates s) (searches s) w (in_buffer s) (msi_target_adr s) (events s) (actions s).
Definition set_in_buffer b s : SoftwareECA := mkSoftEca (search_candidates s) (searches s) (walker s) b (msi_target_adr s) (events s) (actions s).
Definition set_target t s : SoftwareECA := mkSoftEca (search_candidates s) (searches s) (walker s) (in_buffer s) t (events s) (actions s).
Definition set_events l s : SoftwareECA := mkSoftEca (search_candidates s) (searches s) (walker s) (in_buffer s) (msi_target_adr s) l (actions s).
Definition set_actions l s : SoftwareECA := mkSoftEca (search_candidates s) (searches s) (walker s) (in_buffer s) (msi_target_adr s) (events s) l.

Definition SoftwareECA_new : SoftwareECA := mkSoftEca [] [] ∅ (replicate 8 0) 0 [] [].

(** [walker[i].x = ...]: the entry is made if there is none. *)
Definition walker_at (i : Z) (w : gmap Z Walker) : Walker := default Walker_new (w !! i).
Definition on_walker (i : Z) (f : Walker -> Walker) (s : SoftwareECA) : SoftwareECA :=
  set_walker (<[i := f (walker_at i (walker s))]> (walker s)) s.
Definition set_fired (b : bool) (w : Walker) : Walker :=
  mkWalker (wk_offset w) (wk_tag w) (wk_next w) (wk_flags w) (wk_channel w) (wk_num w) b.

(** ** From the search registers to conditions *)
Definition not64 (x : Z) : Z := u64 (Z.lnot x).

Fixpoint shift_until (n : nat) (m mask : Z) : bool :=
  match n with
  | O => false
  | S n' => if m =? 0 then false else if mask =? m then true else shift_until n' (u64 (Z.shiftl m 1)) mask
  end.
Definition is_prefix_mask (mask : Z) : bool :=
  if mask =? 0 then true else shift_until 64 (2 ^ 64 - 1) mask.

Fixpoint first_zero (n : nat) (test mask : Z) : Z :=
  match n with
  | O => mask
  | S n' =>
      if test =? 0 then mask
      else if Z.land mask test =? 0 then not64 (u64 (u64 (Z.shiftl test 1) - 1))
      else first_zero n' (Z.shiftr test 1) mask
  end.
Definition fix_mask (mask : Z) : Z := first_zero 64 (2 ^ 63) mask.

(** [Search::operator==] compares the walkers only. *)
Definition push_search (s : Search) (l : list Search) : list Search :=
  if existsb (fun s' => s_first s' =? s_first s) l then l else l ++ [s].

(** The masks that a pair of events suggests. *)
Definition distance_mask (s0 s1 : Z) : Z := not64 (u64 (u64 (s1 - s0) - 1)).

Fixpoint analyse_normal (i : nat) (prev : SearchCandidate) (l : list SearchCandidate) (s_open : Z)
    (ss : list Search) : list Search :=
  match l with
  | [] => ss
  | c :: l' =>
      let w0 := first_walker prev in
      let w1 := first_walker c in
      let s0 := search_event prev in
      let s1 := search_event c in
      let s_open := if negb (w1 =? -1) && (w0 =? -1) then s1 else s_open in
      let mask1 := distance_mask s0 s1 in
      let id0 := Z.land s0 mask1 in
      let id1 := Z.land s1 mask1 in
      let mask2 := distance_mask s_open s1 in
      let id_open := Z.land s_open mask2 in
      let w0 := if w0 =? -1 then 0 else w0 in
      let ss :=
        if is_prefix_mask mask1 && (0 <? i)%nat then
          if negb (id0 =? 0) then push_search (mkSoftSearch id0 mask1 w0) ss
          else if negb (id1 =? 0) then push_search (mkSoftSearch id1 mask1 w0) ss
          else ss
        else if is_prefix_mask mask2 && (0 <? i)%nat then
          if negb (id_open =? 0) then push_search (mkSoftSearch id_open mask2 w0) ss else ss
        else ss in
      analyse_normal (S i) c l' s_open ss
  end.

Fixpoint analyse_zero (i : nat) (prev : SearchCandidate) (l : list SearchCandidate) (s_open : Z)
    (ss : list Search) : list Search :=
  match l with
  | [] => ss
  | c :: l' =>
      let w0 := first_walker prev in
      let w1 := first_walker c in
      let s0 := search_event prev in
      let s1 := search_event c in
      let s_open := if negb (w1 =? 0) && (w0 =? 0) then s1 else s_open in
      let mask1 := distance_mask s0 s1 in
      let id1 := Z.land s1 mask1 in
      let mask2 := distance_mask s_open s1 in
      let id_open := Z.land s_open mask2 in
      let ss :=
        if (i =? 0)%nat then push_search (mkSoftSearch 0 0 w1) ss
        else if negb (w0 =? 0) then
          if w0 <? w1 then
            if is_prefix_mask mask1 && negb (id1 =? 0) then push_search (mkSoftSearch id1 mask1 w1) ss else ss
          else
            if is_prefix_mask mask2 && negb (id_open =? 0) then push_search (mkSoftSearch id_open mask2 w0) ss else ss
        else ss in
      analyse_zero (S i) c l' s_open ss
  end.

Definition analyse_search_candidates_normal (s : SoftwareECA) : SoftwareECA :=
  match search_candidates s with
  | [] => s
  | c :: _ => set_searches (analyse_normal 0 c (search_candidates s) 0 (searches s)) s
  end.
Definition analyse_search_candidates_zero (s : SoftwareECA) : SoftwareECA :=
  match search_candidates s with
  | [] => s
  | c :: _ => set_searches (analyse_zero 0 c (search_candidates s) 0 (searches s)) s
  end.
Definition analyse_search_candidates (s : SoftwareECA) : SoftwareECA :=
  match search_candidates s with
  | c :: _ => if search_event c =? 0 then analyse_search_candidates_zero s else analyse_search_candidates_normal s
  | [] => analyse_search_candidates_normal s
  end.

(** ** Events *)
Section Events.
(** [std::sort] by deadline. *)
Variable sort_events : list Event -> list Event.

(** The four numbers in the input buffer. *)
Definition in_word (s : SoftwareECA) (k : nat) : Z := default 0 (in_buffer s !! k).
Definition in_pair (s : SoftwareECA) (k : nat) : Z := join64 (in_word s k) (in_word s (S k)).

Definition event_of (s : SoftwareECA) (w : Walker) : Event :=
  mkEvent (in_pair s 0) (in_pair s 2) (u64 (in_pair s 6 + wk_offset w)) (u32 (wk_num w)) (wk_tag w)
    (msi_target_adr s) (Z.lor (Z.shiftl ECA_VALID 16) (u32 (wk_num w))).

(** One round of the [do] loop: an event unless the walker has fired, then on to
    [next]. *)
Definition fire (idx : Z) (s : SoftwareECA) : SoftwareECA * Z :=
  let w := walker_at idx (walker s) in
  let s := if wk_fired w then s else set_events (sort_events (events s ++ [event_of s w])) s in
  (on_walker idx (set_fired true) s, wk_next w).

(** The loop; [None]: still running. *)
Fixpoint walk (fuel : nat) (idx : Z) (s : SoftwareECA) : option SoftwareECA :=
  match fuel with
  | O => None
  | S fuel' =>
      let '(s', idx') := fire idx s in
      if Z.land 0xffff idx' =? 0xffff then Some s' else walk fuel' idx' s'
  end.

Fixpoint inject_searches (fuel : nat) (event : Z) (l : list Search) (s : SoftwareECA) : option SoftwareECA :=
  match l with
  | [] => Some s
  | x :: l' =>
      if Z.land event (s_mask x) =? Z.land (s_id x) (s_mask x) then
        s' ← walk fuel (s_first x) s; inject_searches fuel event l' s'
      else inject_searches fuel event l' s
  end.

Definition inject (fuel : nat) (s : SoftwareECA) : option SoftwareECA :=
  let s := set_walker (set_fired false <$> walker s) s in
  inject_searches fuel (in_pair s 0) (searches s) s.

(** The thread [eca_events_to_actions]: one round of the inner loop at time [now];
    the interrupt that it sends. *)
Definition event_to_action (now : Z) (s : SoftwareECA) : option (SoftwareECA * (Z * Z)) :=
  match events s with
  | e :: es => if ev_deadline e <=? now then Some (set_events es (set_actions (actions s ++ [e]) s), (ev_msi_adr e, ev_msi_dat e)) else None
  | [] => None
  end.

(** The inner loop, each round at the next reading of the clock, until it breaks
    off. *)
Fixpoint eca_events_to_actions (clock : list Z) (s : SoftwareECA) (msis : list (Z * Z)) : SoftwareECA * list (Z * Z) :=
  match clock with
  | [] => (s, msis)
  | now :: clock' =>
      match event_to_action now s with
      | Some (s', msi) => eca_events_to_actions clock' s' (msis ++ [msi])
      | None => (s, msis)
      end
  end.
End Events.

(** ** The control registers: [EcaUnitControl] *)

(** The device, and the static variables of [write_access]. *)
Record EcaUnitControl := mkControl {
  ctl_adr_first : Z; selected_channel : Z;
  selected_walker : Z; prev_first_walker : Z; cur_first_walker : Z;
  prev_search_event : Z; cur_search_event : Z; end_of_search : bool; select_first : bool
}.
(** [_selected_channel] has no value at first. *)
Definition EcaUnitControl_new (adr garbage : Z) : EcaUnitControl := mkControl adr garbage 0 0 0 0 0 false false.

Definition CONTROL_SIZE : Z := 0x100.
Definition control_contains (c : EcaUnitControl) (adr : Z) : bool :=
  (ctl_adr_first c <=? adr) && (adr <? u32 (ctl_adr_first c + CONTROL_SIZE)).

Definition by_channel (c : EcaUnitControl) (values : list Z) : outcome (option Z) :=
  if selected_channel c <? 0 then Crash "channel_type[_selected_channel]"
  else match values !! Z.to_nat (selected_channel c) with
       | Some v => Ret (Some v)
       | None => Crash "channel_type[_selected_channel]"
       end.

(** [None]: the access is refused. *)
Definition control_read (now adr : Z) (c : EcaUnitControl) : outcome (option Z) :=
  let a := u32 (adr - ctl_adr_first c) in
  if a =? ECA_CHANNELS_GET then Ret (Some 2)
  else if a =? ECA_SEARCH_CAPACITY_GET then Ret (Some 0x200)
  else if a =? ECA_WALKER_CAPACITY_GET then Ret (Some 0x100)
  else if a =? ECA_LATENCY_GET then Ret (Some 12)
  else if a =? ECA_OFFSET_BITS_GET then Ret (Some 32)
  else if a =? ECA_CHANNEL_TYPE_GET then by_channel c [0; 0]
  else if a =? ECA_CHANNEL_MAX_NUM_GET then by_channel c [20; 20]
  else if a =? ECA_CHANNEL_CAPACITY_GET then by_channel c [100; 100]
  else if a =? ECA_TIME_HI_GET then Ret (Some (u32 (Z.shiftr now 32)))
  else if a =? ECA_TIME_LO_GET then Ret (Some (u32 now))
  else if a =? ECA_CHANNEL_MOSTFULL_ACK_GET then Ret (Some 0)
  else if a =? ECA_CHANNEL_MOSTFULL_CLEAR_GET then Ret (Some 0)
  else if a =? ECA_CHANNEL_VALID_COUNT_GET then Ret (Some 0)
  else if a =? ECA_CHANNEL_OVERFLOW_COUNT_GET then Ret (Some 0)
  else if a =? ECA_CHANNEL_FAILED_COUNT_GET then Ret (Some 0)
  else Ret None.

#[local] Abbreviation Ctl := (EcaUnitControl * SoftwareECA)%type.

Definition on_selected (f : Walker -> Walker) (s : Ctl) : Ctl := (s.1, on_walker (selected_walker s.1) f s.2).

(** [ECA_SEARCH_SELECT_RW] *)
Definition write_search_select (dat : Z) (s : Ctl) : Ctl :=
  let '(c, e) := s in
  if dat =? 0 then
    (mkControl (ctl_adr_first c) (selected_channel c) (selected_walker c) (-1) (cur_first_walker c) 0
       (cur_search_event c) false true,
     set_candidates [] (set_searches [] e))
  else
    (mkControl (ctl_adr_first c) (selected_channel c) (selected_walker c) (prev_first_walker c) (cur_first_walker c)
       (prev_search_event c) (cur_search_event c) (end_of_search c) false, e).

(** [ECA_SEARCH_RW_FIRST_RW] *)
Definition write_search_first (dat : Z) (s : Ctl) : Ctl :=
  let '(c, e) := s in
  let first := s32 dat in
  (mkControl (ctl_adr_first c) (selected_channel c) (selected_walker c) (prev_first_walker c)
     (if first =? 0xffff then -1 else first) (prev_search_event c) (cur_search_event c) (end_of_search c) (select_first c), e).

Definition set_cur_event (ev : Z) (c : EcaUnitControl) : EcaUnitControl :=
  mkControl (ctl_adr_first c) (selected_channel c) (selected_walker c) (prev_first_walker c) (cur_first_walker c)
    (prev_search_event c) ev (end_of_search c) (select_first c).

(** [ECA_SEARCH_RW_EVENT_LO_RW]: a repeated record ends the table. *)
Definition write_search_event_lo (dat : Z) (s : Ctl) : Ctl :=
  let '(c, e) := s in
  let ev := Z.lor (cur_search_event c) dat in
  let repeated := (prev_search_event c =? ev) && (prev_first_walker c =? cur_first_walker c) && negb (select_first c) in
  let e := if repeated && negb (end_of_search c) then analyse_search_candidates e else e in
  let ended := end_of_search c || repeated in
  let e := if ended then e else set_candidates (search_candidates e ++ [SearchCandidate_new (cur_first_walker c) ev]) e in
  (mkControl (ctl_adr_first c) (selected_channel c) (selected_walker c) (cur_first_walker c) (cur_first_walker c) ev ev ended
     (select_first c), e).

Definition write_walker_select (dat : Z) (s : Ctl) : Ctl :=
  let '(c, e) := s in
  (mkControl (ctl_adr_first c) (selected_channel c) (s32 dat) (prev_first_walker c) (cur_first_walker c)
     (prev_search_event c) (cur_search_event c) (end_of_search c) (select_first c),
   if s32 dat =? 0 then set_walker ∅ e else e).

(** [_selected_channel >= 0 || _selected_channel <= 1] holds of every number. *)
Definition write_channel_select (dat : Z) (s : Ctl) : Ctl :=
  let '(c, e) := s in
  (mkControl (ctl_adr_first c) (s32 dat) (selected_walker c) (prev_first_walker c) (cur_first_walker c)
     (prev_search_event c) (cur_search_event c) (end_of_search c) (select_first c), e).

Definition write_register (a dat : Z) (s : Ctl) : bool * Ctl :=
  if a =? ECA_SEARCH_SELECT_RW then (true, write_search_select dat s)
  else if a =? ECA_SEARCH_RW_FIRST_RW then (true, write_search_first dat s)
  else if a =? ECA_SEARCH_RW_EVENT_HI_RW then (true, (set_cur_event (u64 (Z.shiftl dat 32)) s.1, s.2))
  else if a =? ECA_SEARCH_RW_EVENT_LO_RW then (true, write_search_event_lo dat s)
  else if a =? ECA_CHANNEL_SELECT_RW then (true, write_channel_select dat s)
  else if a =? ECA_CHANNEL_MSI_SET_ENABLE_OWR then (true, s)
  else if a =? ECA_CHANNEL_MSI_SET_TARGET_OWR then (true, (s.1, set_target dat s.2))
  else if a =? ECA_WALKER_SELECT_RW then (true, write_walker_select dat s)
  else if a =? ECA_WALKER_RW_NEXT_RW then
    (true, on_selected (fun w => mkWalker (wk_offset w) (wk_tag w) (s32 dat) (wk_flags w) (wk_channel w) (wk_num w) (wk_fired w)) s)
  else if a =? ECA_WALKER_RW_OFFSET_HI_RW then
    (true, on_selected (fun w => mkWalker (s64 (Z.shiftl dat 32)) (wk_tag w) (wk_next w) (wk_flags w) (wk_channel w) (wk_num w) (wk_fired w)) s)
  else if a =? ECA_WALKER_RW_OFFSET_LO_RW then
    (true, on_selected (fun w => mkWalker (Z.lor (wk_offset w) dat) (wk_tag w) (wk_next w) (wk_flags w) (wk_channel w) (wk_num w) (wk_fired w)) s)
  else if a =? ECA_WALKER_RW_TAG_RW then
    (true, on_selected (fun w => mkWalker (wk_offset w) (s32 dat) (wk_next w) (wk_flags w) (wk_channel w) (wk_num w) (wk_fired w)) s)
  else if a =? ECA_WALKER_RW_FLAGS_RW then
    (true, on_selected (fun w => mkWalker (wk_offset w) (wk_tag w) (wk_next w) (s32 dat) (wk_channel w) (wk_num w) (wk_fired w)) s)
  else if a =? ECA_WALKER_RW_CHANNEL_RW then
    (true, on_selected (fun w => mkWalker (wk_offset w) (wk_tag w) (wk_next w) (wk_flags w) (s32 dat) (wk_num w) (wk_fired w)) s)
  else if a =? ECA_WALKER_RW_NUM_RW then
    (true, on_selected (fun w => mkWalker (wk_offset w) (wk_tag w) (wk_next w) (wk_flags w) (wk_channel w) (s32 dat) (wk_fired w)) s)
  else if a =? ECA_WALKER_WRITE_OWR then (true, s)
  else (false, s).
Definition control_write (adr dat : Z) (s : Ctl) : bool * Ctl :=
  write_register (u32 (adr - ctl_adr_first s.1)) dat s.

(** ** The action queue: [EcaQueue] *)
Definition queue_contains (adr_first adr : Z) : bool := (adr_first <=? adr) && (adr <? u32 (adr_first + 0x40)).

Definition hi32 (x : Z) : Z := u32 (Z.shiftr x 32).

Definition queue_read (adr_first now adr : Z) (s : SoftwareECA) : option Z :=
  match actions s with
  | [] => None
  | e :: _ =>
      let a := u32 (adr - adr_first) in
      if a =? ECA_QUEUE_QUEUE_ID_GET then Some 0
      else if a =? ECA_QUEUE_FLAGS_GET then Some (Z.shiftl 1 ECA_VALID)
      else if a =? ECA_QUEUE_NUM_GET then Some (ev_num e)
      else if a =? ECA_QUEUE_EVENT_ID_HI_GET then Some (hi32 (ev_id e))
      else if a =? ECA_QUEUE_EVENT_ID_LO_GET then Some (u32 (ev_id e))
      else if a =? ECA_QUEUE_PARAM_HI_GET then Some (hi32 (ev_param e))
      else if a =? ECA_QUEUE_PARAM_LO_GET then Some (u32 (ev_param e))
      else if a =? ECA_QUEUE_TAG_GET then Some (u32 (ev_tag e))
      else if a =? ECA_QUEUE_TEF_GET then Some 0
      else if a =? ECA_QUEUE_DEADLINE_HI_GET then Some (hi32 (ev_deadline e))
      else if a =? ECA_QUEUE_DEADLINE_LO_GET then Some (u32 (ev_deadline e))
      else if a =? ECA_QUEUE_EXECUTED_HI_GET then Some (hi32 now)
      else if a =? ECA_QUEUE_EXECUTED_LO_GET then Some (u32 now)
      else None
  end.

Definition queue_write (adr_first adr dat : Z) (s : SoftwareECA) : bool * SoftwareECA :=
  if u32 (adr - adr_first) =? ECA_QUEUE_POP_OWR then (true, set_actions (tail (actions s)) s) else (false, s).

(** ** The event input: [EcaEventsIn] *)
Record EcaEventsIn := mkEventsIn { in_adr_first : Z; write_count : Z }.

(** Eight words make an event; [None]: [inject] still runs. *)
Definition events_in_write (sort_events : list Event -> list Event) (fuel : nat) (dat : Z) (d : EcaEventsIn)
    (s : SoftwareECA) : option (EcaEventsIn * SoftwareECA) :=
  let s := set_in_buffer (<[Z.to_nat (write_count d) := dat]> (in_buffer s)) s in
  if write_count d + 1 =? 8 then s' ← inject sort_events fuel s; Some (mkEventsIn (in_adr_first d) 0, s')
  else Some (mkEventsIn (in_adr_first d) (write_count d + 1), s).
