(* ===== verification/SoftEcaCorrect.v ===== *)
(** * The software timing receiver's ECA against the hardware

    What the driver's [ECA::compile] writes ([EcaTables], [EcaHw]) is written to the
    simulator's registers ([SoftEca]), and both are given the same event. *)
From S2P Require Import Prelude Bus EcaTables EcaHw EcaIntervals EcaCorrect EcaOps SoftEca.
From stdpp Require Import gmap sorting.
Local Open Scope Z_scope.

#[local] Abbreviation Ctl := (EcaUnitControl * SoftwareECA)%type.

(** ** The writes of [ECA::compile] *)
Definition apply_op (s : Ctl) (op : bus_op) : Ctl :=
  match op with BusW a v => (control_write a v s).2 | BusR _ => s end.
Definition apply_ops (ops : list bus_op) (s : Ctl) : Ctl := foldl apply_op s ops.

Lemma apply_ops_app l1 l2 s : apply_ops (l1 ++ l2) s = apply_ops l2 (apply_ops l1 s).
Proof. apply foldl_app. Qed.

Section Writes.
Context (base : Z).

(** The record at index [i] of the search table, the last one behind its end. *)
Definition search_entry (search : list SearchEntry) (i : nat) : SearchEntry :=
  default (mkSearch 0 (-1)) (search !! Nat.min i (length search - 1)).
Definition search_writes (n : nat) (search : list SearchEntry) : list bus_op :=
  seq 0 n ≫= fun i => search_ops base (Z.of_nat i) (search_entry search i).
Fixpoint walker_writes (i : Z) (walk : list WalkEntry) : list bus_op :=
  match walk with
  | [] => []
  | we :: walk' => walker_ops base i we ++ walker_writes (i + 1) walk'
  end.
Definition table_writes (n : nat) (search : list SearchEntry) (walk : list WalkEntry) : list bus_op :=
  search_writes n search ++ walker_writes 0 walk ++ [BusW (base + ECA_FLIP_ACTIVE_OWR) 1].

Lemma write_register_adr a v s : ctl_adr_first (write_register a v s).2.1 = ctl_adr_first s.1.
Proof.
  destruct s as [c e]. unfold write_register, write_search_select, write_search_first, write_search_event_lo,
    write_channel_select, write_walker_select, on_selected, set_cur_event.
  repeat case_match; simplify_eq; done.
Qed.

(** A list of register writes, by offset. *)
Definition apply_registers (rs : list (Z * Z)) (s : Ctl) : Ctl :=
  foldl (fun s '(a, v) => (write_register a v s).2) s rs.
Definition to_ops (rs : list (Z * Z)) : list bus_op := map (fun '(a, v) => BusW (base + a) v) rs.

Lemma apply_to_ops rs s : ctl_adr_first s.1 = base -> Forall (fun r => 0 <= r.1 < 256) rs ->
  apply_ops (to_ops rs) s = apply_registers rs s.
Proof.
  intros Hb Hrs. revert s Hb. induction Hrs as [|[a v] rs Ha _ IH]; intros s Hb; [done|].
  unfold apply_ops, apply_registers in *. cbn [to_ops map foldl]. cbn [fst] in Ha.
  assert (apply_op s (BusW (base + a) v) = (write_register a v s).2) as ->.
  { unfold apply_op, control_write. rewrite Hb. replace (base + a - base) with a by lia.
    by rewrite unsigned_wrap_small by lia. }
  apply IH. by rewrite write_register_adr.
Qed.

(** *** Search records *)
Definition entry_wf (se : SearchEntry) : Prop := 0 <= se_event se < 2 ^ 64 /\ -1 <= se_index se < 2 ^ 15.
Definition candidate (se : SearchEntry) : SearchCandidate := mkCandidate (se_index se) (se_event se).

Lemma event_parts ev : 0 <= ev < 2 ^ 64 ->
  Z.lor (u64 (Z.shiftl (Z.shiftr ev 32) 32)) (u32 ev) = ev.
Proof.
  intros He. rewrite Z.shiftr_div_pow2, Z.shiftl_mul_pow2 by lia.
  rewrite unsigned_wrap_small by (pose proof (Z.div_mod ev (2 ^ 32)); pose proof (Z.mod_pos_bound ev (2 ^ 32)); lia).
  rewrite <- Z.shiftl_mul_pow2 by lia. rewrite lor_shiftl_low by (try lia; apply unsigned_wrap_range; lia).
  unfold unsigned_wrap. pose proof (Z.div_mod ev (2 ^ 32)). lia.
Qed.

Lemma index_parts i : -1 <= i < 2 ^ 15 -> (if s32 (u16 i) =? 0xffff then -1 else s32 (u16 i)) = i.
Proof.
  intros Hi. destruct (decide (i = -1)) as [->|]; [reflexivity|].
  rewrite (unsigned_wrap_small 16) by lia. rewrite signed_wrap_small by lia.
  by rewrite (proj2 (Z.eqb_neq _ _)) by lia.
Qed.

Definition ctl_after (c : EcaUnitControl) (se : SearchEntry) (ended selected : bool) : EcaUnitControl :=
  mkControl (ctl_adr_first c) (selected_channel c) (selected_walker c) (se_index se) (se_index se)
    (se_event se) (se_event se) ended selected.

Definition same_as_before (c : EcaUnitControl) (se : SearchEntry) : bool :=
  (prev_search_event c =? se_event se) && (prev_first_walker c =? se_index se).

Lemma search_ops_run i se c e : ctl_adr_first c = base -> entry_wf se ->
  apply_ops (search_ops base i se) (c, e) =
    (if i =? 0 then (ctl_after c se false true, set_candidates [candidate se] (set_searches [] e))
     else
       let ended := end_of_search c || same_as_before c se in
       let e' := if same_as_before c se && negb (end_of_search c) then analyse_search_candidates e else e in
       (ctl_after c se ended false,
        if ended then e' else set_candidates (search_candidates e' ++ [candidate se]) e')).
Proof.
  intros Hb [Hev Hidx].
  change (search_ops base i se) with (to_ops [(ECA_SEARCH_SELECT_RW, i); (ECA_SEARCH_RW_FIRST_RW, u16 (se_index se));
    (ECA_SEARCH_RW_EVENT_HI_RW, Z.shiftr (se_event se) 32); (ECA_SEARCH_RW_EVENT_LO_RW, u32 (se_event se)); (ECA_SEARCH_WRITE_OWR, 1)]).
  rewrite apply_to_ops by (try done; by apply (bool_decide_unpack _)).
  unfold apply_registers. cbn [foldl].
  assert (forall v s, (write_register ECA_SEARCH_SELECT_RW v s).2 = write_search_select v s) as -> by done.
  assert (forall v s, (write_register ECA_SEARCH_RW_FIRST_RW v s).2 = write_search_first v s) as -> by done.
  assert (forall v s, (write_register ECA_SEARCH_RW_EVENT_HI_RW v s).2 = (set_cur_event (u64 (Z.shiftl v 32)) s.1, s.2)) as -> by done.
  assert (forall v s, (write_register ECA_SEARCH_RW_EVENT_LO_RW v s).2 = write_search_event_lo v s) as -> by done.
  assert (forall v s, (write_register ECA_SEARCH_WRITE_OWR v s).2 = s) as -> by done.
  unfold write_search_select. destruct (i =? 0); unfold write_search_first, set_cur_event, write_search_event_lo;
    cbn -[unsigned_wrap signed_wrap Z.shiftl Z.shiftr Z.lor Z.eqb]; rewrite event_parts, index_parts by done.
  - rewrite !andb_false_r. cbn [orb andb negb]. unfold ctl_after, SearchCandidate_new, candidate.
    by rewrite (proj2 (Z.eqb_neq (se_index se) 0xffff)) by lia.
  - rewrite !andb_true_r. unfold ctl_after, same_as_before, SearchCandidate_new, candidate.
    by rewrite (proj2 (Z.eqb_neq (se_index se) 0xffff)) by lia.
Qed.

Lemma StronglySorted_lookup {A} (R : relation A) l i j a b :
  StronglySorted R l -> l !! i = Some a -> l !! j = Some b -> (i < j)%nat -> R a b.
Proof.
  intros Hs. revert i j. induction Hs as [|x l Hs IH Hall]; intros i j Ha Hb Hij; [done|].
  destruct j as [|j]; [lia|]. cbn in Hb. destruct i as [|i].
  - injection Ha as <-. rewrite Forall_forall in Hall. apply Hall. by eapply list_elem_of_lookup_2.
  - apply (IH i j); [done..|lia].
Qed.

(** The table is collected record by record; the first repetition has it analysed,
    all others are ignored. *)
Definition increasing (search : list SearchEntry) : Prop :=
  StronglySorted (fun a b => se_event a < se_event b) search.

Section Table.
Context (search : list SearchEntry).
Hypothesis Hwf : Forall entry_wf search.
Hypothesis Hinc : increasing search.
Hypothesis Hlen : Z.of_nat (length search) < 2 ^ 32.

Lemma search_entry_in i : search <> [] -> search_entry search i ∈ search.
Proof.
  intros Hne. unfold search_entry. destruct (search !! Nat.min i (length search - 1)) as [se|] eqn:E.
  - by eapply list_elem_of_lookup_2.
  - apply lookup_ge_None in E. destruct search; [done|]. cbn in E. lia.
Qed.

Lemma search_entry_wf i : search <> [] -> entry_wf (search_entry search i).
Proof. intros Hne. by apply (proj1 (Forall_forall _ _) Hwf), search_entry_in. Qed.

Lemma search_entry_lt i se : search !! i = Some se -> search_entry search i = se.
Proof.
  intros E. pose proof (lookup_lt_Some _ _ _ E). unfold search_entry. by rewrite Nat.min_l, E by lia.
Qed.

Lemma search_writes_S k s :
  apply_ops (search_writes (S k) search) s =
    apply_ops (search_ops base (Z.of_nat k) (search_entry search k)) (apply_ops (search_writes k search) s).
Proof.
  unfold search_writes. rewrite seq_S, bind_app, apply_ops_app. cbn [Nat.add mbind list_bind]. by rewrite app_nil_r.
Qed.

Lemma collect_prefix k c e : ctl_adr_first c = base -> (k < length search)%nat ->
  apply_ops (search_writes (S k) search) (c, e) =
    (ctl_after c (search_entry search k) false (k =? 0)%nat,
     set_candidates (map candidate (take (S k) search)) (set_searches [] e)).
Proof.
  intros Hb Hk. assert (search <> []) as Hne by (intros E; rewrite E in Hk; cbn in Hk; lia).
  revert Hk. induction k as [|k IH]; intros Hk.
  - rewrite search_writes_S. cbn [search_writes apply_ops foldl seq mbind list_bind].
    rewrite search_ops_run by (try done; by apply search_entry_wf). cbn [Z.eqb Z.of_nat].
    destruct search as [|se l] eqn:E; [done|]. done.
  - rewrite search_writes_S, IH by lia.
    rewrite search_ops_run by (try done; by apply search_entry_wf).
    rewrite (proj2 (Z.eqb_neq _ 0)) by lia.
    destruct (lookup_lt_is_Some_2 search (S k) Hk) as [b Hb'].
    destruct (lookup_lt_is_Some_2 search k ltac:(lia)) as [a Ha].
    assert (se_event a < se_event b) as Hlt by (apply (StronglySorted_lookup _ search k (S k) a b Hinc Ha Hb'); lia).
    rewrite (search_entry_lt k a), (search_entry_lt (S k) b) by done.
    unfold same_as_before, ctl_after. cbn [prev_search_event prev_first_walker end_of_search].
    rewrite (proj2 (Z.eqb_neq (se_event a) (se_event b))) by lia. cbn [andb orb negb].
    unfold set_candidates. cbn. f_equal. f_equal. by rewrite (take_S_r search (S k) b Hb'), map_app.
Qed.

Definition analysed (e : SoftwareECA) : SoftwareECA :=
  analyse_search_candidates (set_candidates (map candidate search) (set_searches [] e)).

Lemma search_table_written n c e : ctl_adr_first c = base -> search <> [] -> (length search < n)%nat ->
  apply_ops (search_writes n search) (c, e) =
    (ctl_after c (search_entry search (length search - 1)) true false, analysed e).
Proof.
  intros Hb Hne Hn. assert (0 < length search)%nat as Hpos by (destruct search; [done|cbn; lia]).
  assert (exists k, n = length search + S k)%nat as [k ->] by (exists (n - length search - 1)%nat; lia). clear Hn.
  assert (forall i, (length search <= i)%nat -> search_entry search i = search_entry search (length search - 1)) as Hlast.
  { intros i Hi. unfold search_entry. by rewrite Nat.min_r, Nat.min_id by lia. }
  induction k as [|k IH].
  - rewrite Nat.add_1_r, search_writes_S.
    pose proof (collect_prefix (length search - 1) c e Hb ltac:(lia)) as Hall.
    replace (S (length search - 1)) with (length search) in Hall by lia. rewrite Hall.
    rewrite search_ops_run by (try done; by apply search_entry_wf). rewrite (proj2 (Z.eqb_neq _ 0)) by lia.
    rewrite (Hlast (length search)) by lia. unfold same_as_before, ctl_after. cbn [prev_search_event prev_first_walker end_of_search].
    rewrite !Z.eqb_refl. cbn [andb orb negb]. unfold analysed. by rewrite firstn_all.
  - rewrite Nat.add_succ_r, search_writes_S, IH.
    rewrite search_ops_run by (try done; by apply search_entry_wf). rewrite (proj2 (Z.eqb_neq _ 0)) by lia.
    rewrite (Hlast (length search + S k)%nat) by lia. unfold same_as_before, ctl_after. cbn [prev_search_event prev_first_walker end_of_search].
    rewrite !Z.eqb_refl. done.
Qed.
End Table.

(** *** Walker records *)

(** What the simulator stores of a walker record. *)
Definition soft_walker (we : WalkEntry) : Walker :=
  mkWalker (Z.lor (s64 (Z.shiftl (Z.shiftr (u64 (we_offset we)) 32) 32)) (u32 (we_offset we)))
    (s32 (we_tag we)) (s32 (u16 (we_next we))) (s32 (we_flags we)) (s32 (we_channel we)) (s32 (we_num we)) false.

Definition on_map (f : gmap Z Walker -> gmap Z Walker) (e : SoftwareECA) : SoftwareECA := set_walker (f (walker e)) e.

Lemma on_walker_twice i f g e : on_walker i g (on_walker i f e) = on_walker i (fun w => g (f w)) e.
Proof.
  unfold on_walker, set_walker, walker_at. cbn. by rewrite lookup_insert_eq, insert_insert_eq.
Qed.

Lemma walker_ops_run i we c e : ctl_adr_first c = base -> 0 <= i < 2 ^ 31 ->
  exists c', ctl_adr_first c' = base /\
  apply_ops (walker_ops base i we) (c, e) =
    (c', on_walker i (fun w => set_fired (wk_fired w) (soft_walker we)) (if i =? 0 then set_walker ∅ e else e)).
Proof.
  intros Hb Hi.
  change (walker_ops base i we) with (to_ops [(ECA_WALKER_SELECT_RW, i); (ECA_WALKER_RW_NEXT_RW, u16 (we_next we));
    (ECA_WALKER_RW_OFFSET_HI_RW, Z.shiftr (u64 (we_offset we)) 32); (ECA_WALKER_RW_OFFSET_LO_RW, u32 (we_offset we));
    (ECA_WALKER_RW_TAG_RW, we_tag we); (ECA_WALKER_RW_FLAGS_RW, we_flags we); (ECA_WALKER_RW_CHANNEL_RW, we_channel we);
    (ECA_WALKER_RW_NUM_RW, we_num we); (ECA_WALKER_WRITE_OWR, 1)]).
  rewrite apply_to_ops by (try done; by apply (bool_decide_unpack _)).
  unfold apply_registers. cbn [foldl].
  assert (forall v s, (write_register ECA_WALKER_SELECT_RW v s).2 = write_walker_select v s) as -> by done.
  assert (forall v s, (write_register ECA_WALKER_RW_NEXT_RW v s).2 = on_selected (fun w => mkWalker (wk_offset w) (wk_tag w) (s32 v) (wk_flags w) (wk_channel w) (wk_num w) (wk_fired w)) s) as -> by done.
  assert (forall v s, (write_register ECA_WALKER_RW_OFFSET_HI_RW v s).2 = on_selected (fun w => mkWalker (s64 (Z.shiftl v 32)) (wk_tag w) (wk_next w) (wk_flags w) (wk_channel w) (wk_num w) (wk_fired w)) s) as -> by done.
  assert (forall v s, (write_register ECA_WALKER_RW_OFFSET_LO_RW v s).2 = on_selected (fun w => mkWalker (Z.lor (wk_offset w) v) (wk_tag w) (wk_next w) (wk_flags w) (wk_channel w) (wk_num w) (wk_fired w)) s) as -> by done.
  assert (forall v s, (write_register ECA_WALKER_RW_TAG_RW v s).2 = on_selected (fun w => mkWalker (wk_offset w) (s32 v) (wk_next w) (wk_flags w) (wk_channel w) (wk_num w) (wk_fired w)) s) as -> by done.
  assert (forall v s, (write_register ECA_WALKER_RW_FLAGS_RW v s).2 = on_selected (fun w => mkWalker (wk_offset w) (wk_tag w) (wk_next w) (s32 v) (wk_channel w) (wk_num w) (wk_fired w)) s) as -> by done.
  assert (forall v s, (write_register ECA_WALKER_RW_CHANNEL_RW v s).2 = on_selected (fun w => mkWalker (wk_offset w) (wk_tag w) (wk_next w) (wk_flags w) (s32 v) (wk_num w) (wk_fired w)) s) as -> by done.
  assert (forall v s, (write_register ECA_WALKER_RW_NUM_RW v s).2 = on_selected (fun w => mkWalker (wk_offset w) (wk_tag w) (wk_next w) (wk_flags w) (wk_channel w) (s32 v) (wk_fired w)) s) as -> by done.
  assert (forall v s, (write_register ECA_WALKER_WRITE_OWR v s).2 = s) as -> by done.
  unfold write_walker_select. rewrite (signed_wrap_small 32 i) by (change (32 - 1) with 31; lia).
  eexists. split; [|unfold on_selected; cbn [fst snd selected_walker]; rewrite !on_walker_twice; reflexivity]. done.
Qed.

(** The walkers of a table that is written to an empty map. *)
Fixpoint walkers_from (i : Z) (walk : list WalkEntry) (w : gmap Z Walker) : gmap Z Walker :=
  match walk with
  | [] => w
  | we :: walk' => walkers_from (i + 1) walk' (<[i := soft_walker we]> w)
  end.

Lemma walkers_from_lookup i walk w j :
  walkers_from i walk w !! j =
    match (if (i <=? j) then walk !! Z.to_nat (j - i) else None) with
    | Some we => Some (soft_walker we)
    | None => w !! j
    end.
Proof.
  revert i w. induction walk as [|we walk IH]; intros i w; cbn [walkers_from].
  - by destruct (i <=? j).
  - rewrite IH. destruct (Z.leb_spec i j) as [Hij|Hij].
    + destruct (decide (i = j)) as [<-|Hne].
      * rewrite (proj2 (Z.leb_gt (i + 1) i)), Z.sub_diag by lia. cbn. by rewrite lookup_insert_eq.
      * rewrite (proj2 (Z.leb_le (i + 1) j)) by lia. replace (Z.to_nat (j - i)) with (S (Z.to_nat (j - (i + 1)))) by lia.
        cbn. by rewrite lookup_insert_ne.
    + rewrite (proj2 (Z.leb_gt (i + 1) j)) by lia. by rewrite lookup_insert_ne by lia.
Qed.

Lemma walker_writes_run i walk c e : ctl_adr_first c = base -> 0 < i -> i + Z.of_nat (length walk) <= 2 ^ 31 ->
  (forall j, i <= j -> walker e !! j = None) ->
  exists c', ctl_adr_first c' = base /\
    apply_ops (walker_writes i walk) (c, e) = (c', set_walker (walkers_from i walk (walker e)) e).
Proof.
  revert i c e. induction walk as [|we walk IH]; intros i c e Hb Hi Hlen Hfresh.
  - exists c. split; [done|]. by destruct e.
  - cbn [walker_writes length] in *. rewrite apply_ops_app.
    destruct (walker_ops_run i we c e Hb ltac:(lia)) as (c1 & Hb1 & ->). rewrite (proj2 (Z.eqb_neq i 0)) by lia.
    assert (on_walker i (fun w => set_fired (wk_fired w) (soft_walker we)) e = set_walker (<[i := soft_walker we]> (walker e)) e) as ->.
    { unfold on_walker, walker_at. rewrite Hfresh by lia. done. }
    destruct (IH (i + 1) c1 (set_walker (<[i := soft_walker we]> (walker e)) e) Hb1 ltac:(lia) ltac:(lia)) as (c2 & Hb2 & E2).
    { intros j Hj. cbn. rewrite lookup_insert_ne by lia. apply Hfresh. lia. }
    exists c2. split; [done|]. rewrite E2. done.
Qed.

(** ** A table that is written whole *)
Lemma table_written n search walk c e : ctl_adr_first c = base ->
  Forall entry_wf search -> increasing search -> search <> [] -> (length search < n)%nat ->
  Z.of_nat (length search) < 2 ^ 32 -> walk <> [] -> Z.of_nat (length walk) <= 2 ^ 31 ->
  exists c', ctl_adr_first c' = base /\
    apply_ops (table_writes n search walk) (c, e) =
      (c', set_walker (walkers_from 0 walk ∅) (analysed search e)).
Proof.
  intros Hb Hwf Hinc Hne Hn Hlen Hw Hwl. unfold table_writes. rewrite !apply_ops_app.
  rewrite search_table_written by done. destruct walk as [|we walk]; [done|]. cbn [walker_writes length] in *.
  rewrite apply_ops_app. set (c1 := ctl_after _ _ _ _).
  destruct (walker_ops_run 0 we c1 (analysed search e) Hb ltac:(lia)) as (c2 & Hb2 & ->). cbn [Z.eqb].
  destruct (walker_writes_run 1 walk c2 (set_walker (<[0 := soft_walker we]> ∅) (analysed search e)) Hb2 ltac:(lia) ltac:(lia))
    as (c3 & Hb3 & E3).
  { intros j Hj. cbn. by rewrite lookup_insert_ne by lia. }
  exists c3. split; [done|]. cbn [Z.add].
  assert (on_walker 0 (fun w => set_fired (wk_fired w) (soft_walker we)) (set_walker ∅ (analysed search e)) =
    set_walker (<[0 := soft_walker we]> ∅) (analysed search e)) as -> by done.
  change (0 + 1) with 1. rewrite E3. cbn [apply_ops foldl apply_op]. unfold control_write. rewrite (Hb3 : ctl_adr_first (c3, _).1 = base).
  replace (base + ECA_FLIP_ACTIVE_OWR - base) with ECA_FLIP_ACTIVE_OWR by lia. done.
Qed.

Lemma empty_table_written n c e : ctl_adr_first c = base -> (1 < n)%nat ->
  exists c', ctl_adr_first c' = base /\
    apply_ops (table_writes n [mkSearch 0 (-1)] []) (c, e) = (c', analysed [mkSearch 0 (-1)] e).
Proof.
  intros Hb Hn. unfold table_writes. rewrite !apply_ops_app.
  rewrite search_table_written; try done.
  - eexists. split; [|cbn [walker_writes apply_ops foldl apply_op]; unfold control_write; cbn [fst ctl_after ctl_adr_first]; rewrite Hb;
      replace (base + ECA_FLIP_ACTIVE_OWR - base) with ECA_FLIP_ACTIVE_OWR by lia; reflexivity]. done.
  - repeat constructor; cbn; lia.
  - repeat constructor.
Qed.
End Writes.

(** ** Conditions that the simulator understands

    One condition for all events and, in it, conditions with a gap between any
    two. *)
Fixpoint separated (lo : Z) (ocs : list ECA_OpenClose) : Prop :=
  match ocs with
  | [] => True
  | oc :: ocs' =>
      lo < oc_key oc <= oc_subkey oc /\ oc_subkey oc < UINT64_MAX /\ oc_open oc = true /\ separated (oc_subkey oc + 1) ocs'
  end.

(** The block of identifiers of a prefix mask. *)
Definition block (oc : ECA_OpenClose) : Prop :=
  exists j, 0 <= j < 64 /\ oc_subkey oc = oc_key oc + 2 ^ j - 1 /\ oc_key oc mod 2 ^ j = 0.

Fixpoint alternating (k : Z) (ocs : list ECA_OpenClose) : list SearchEntry :=
  match ocs with
  | [] => []
  | oc :: ocs' => mkSearch (oc_key oc) k :: mkSearch (oc_subkey oc + 1) 0 :: alternating (k + 1) ocs'
  end.

Lemma separated_bound lo ocs oc : separated lo ocs -> oc ∈ ocs -> lo < oc_key oc.
Proof.
  revert lo. induction ocs as [|x ocs IH]; intros lo Hs; [by intros ?%not_elem_of_nil|].
  destruct Hs as (Hx & _ & _ & Hs). intros [->|Hin]%elem_of_cons; [lia|]. pose proof (IH _ Hs Hin). lia.
Qed.

Lemma close_of lo oc ocs : separated lo (oc :: ocs) -> 0 <= lo ->
  push_records oc = [oc; close_record oc] /\ oc_key (close_record oc) = oc_subkey oc + 1.
Proof.
  intros (Hx & Hm & _ & _) Hlo. unfold push_records, close_record. cbn [oc_key]. unfold UINT64_MAX in *.
  rewrite (proj2 (Z.eqb_neq _ _)) by lia. split; [done|]. apply unsigned_wrap_small. lia.
Qed.

(** The next record does not belong to the cursor. *)
Lemma head_id_space lo ocs oc rest : separated lo ocs -> id_space_of ocs = oc :: rest -> lo < oc_key oc.
Proof.
  destruct ocs as [|x ocs]; [done|]. intros (Hx & _ & _ & _) E. unfold id_space_of in E. cbn in E.
  unfold push_records in E. destruct (oc_subkey x =? UINT64_MAX); cbn in E; injection E as <- _; lia.
Qed.

Lemma pop_closes_stop cursor walk next l :
  (forall oc rest, l = oc :: rest -> oc_key oc <> cursor \/ oc_open oc = true) -> pop_closes cursor walk next l = Ret (next, l).
Proof.
  intros Hl. destruct l as [|oc rest]; [done|]. cbn. destruct (Hl oc rest eq_refl) as [Hne|Ho].
  - by rewrite (proj2 (Z.eqb_neq cursor (oc_key oc))) by congruence.
  - by rewrite Ho, andb_false_r.
Qed.

Lemma push_opens_stop cursor walk next l :
  (forall oc rest, l = oc :: rest -> oc_key oc <> cursor) -> push_opens cursor walk next l = (walk, next, l).
Proof.
  intros Hl. destruct l as [|oc rest]; [done|]. cbn.
  by rewrite (proj2 (Z.eqb_neq cursor (oc_key oc))) by (pose proof (Hl oc rest eq_refl); congruence).
Qed.

Lemma walk_alternating ocs fuel lo search walk : separated lo ocs -> 0 <= lo ->
  (length (id_space_of ocs) <= fuel)%nat -> (0 < length walk)%nat -> Z.of_nat (length walk + length ocs) <= 2 ^ 15 ->
  walk_records fuel search walk 0 (id_space_of ocs) =
    Ret (search ++ alternating (Z.of_nat (length walk)) ocs, walk ++ map (WalkEntry_of 0) ocs).
Proof.
  revert fuel lo search walk. induction ocs as [|oc ocs IH]; intros fuel lo search walk Hsep Hlo Hf Hw Hlen.
  - destruct fuel; cbn; by rewrite !app_nil_r.
  - pose proof Hsep as (Hx & Hm & Ho & Hsep'). destruct (close_of _ _ _ Hsep Hlo) as [Ep Ec].
    rewrite id_space_cons, Ep in *. cbn [app length] in *.
    destruct fuel as [|[|fuel]]; [lia|lia|].
    cbn [walk_records]. rewrite pop_closes_stop by (intros ? ? E; injection E as <-; by right).
    cbn [push_opens]. rewrite Z.eqb_refl, Ho. cbn [andb].
    rewrite (proj2 (Z.eqb_neq (oc_key oc) (oc_key (close_record oc)))) by lia. cbn [andb].
    rewrite signed_wrap_small by (change (2 ^ (16 - 1)) with (2 ^ 15); lia).
    cbn [pop_closes]. rewrite Z.eqb_refl. cbn [oc_open close_record negb andb].
    rewrite (proj2 (Z.eqb_neq _ (-1))) by lia. rewrite (proj2 (Z.ltb_ge _ 0)) by lia.
    rewrite Nat2Z.id, list_lookup_middle by done. cbn [we_next WalkEntry_of].
    assert (forall r rest, id_space_of ocs = r :: rest -> oc_key r <> oc_key (close_record oc)) as Hnext.
    { intros r rest E. pose proof (head_id_space _ _ _ _ Hsep' E). lia. }
    rewrite pop_closes_stop by (intros r rest E; left; by eapply Hnext).
    rewrite push_opens_stop by done. rewrite Ec.
    rewrite (IH fuel (oc_subkey oc + 1)); [|done|lia|lia|rewrite length_app; cbn; lia|rewrite length_app; cbn; lia].
    cbn [alternating map]. rewrite length_app, <- !app_assoc. cbn [app length].
    do 3 f_equal. by rewrite Nat2Z.inj_add.
Qed.

Lemma build_alternating z ocs : separated 0 ocs -> oc_key z = 0 -> oc_open z = true -> oc_subkey z = UINT64_MAX ->
  Z.of_nat (S (length ocs)) <= 2 ^ 15 ->
  build_tables (id_space_of (z :: ocs)) = Ret (mkSearch 0 0 :: alternating 1 ocs, WalkEntry_of (-1) z :: map (WalkEntry_of 0) ocs).
Proof.
  intros Hsep Hk Ho Hs Hlen. unfold build_tables. rewrite id_space_cons. unfold push_records. rewrite Hs, Z.eqb_refl.
  cbn [app length leading_record walk_records]. rewrite Hk. cbn [Z.eqb].
  rewrite pop_closes_stop by (intros ? ? E; injection E as <-; by right).
  cbn [push_opens]. rewrite Hk, Ho. cbn [Z.eqb andb].
  rewrite push_opens_stop by (intros r rest E; pose proof (head_id_space _ _ _ _ Hsep E); lia).
  cbn [app length]. change (s16 (Z.of_nat 0)) with 0.
  rewrite (walk_alternating ocs _ 0); [done|done|lia|lia|cbn; lia|cbn [length]; lia].
Qed.

Lemma separated_sorted z ocs : separated 0 ocs -> oc_key z = 0 -> oc_open z = true -> oc_subkey z = UINT64_MAX ->
  StronglySorted (fun a b => oc_key a < oc_key b) (id_space_of (z :: ocs)).
Proof.
  intros Hsep Hk Ho Hs.
  assert (forall lo ocs, separated lo ocs -> 0 <= lo ->
    StronglySorted (fun a b => oc_key a < oc_key b) (id_space_of ocs) /\ Forall (fun r => lo < oc_key r) (id_space_of ocs)) as Hgen.
  { clear. intros lo ocs. revert lo. induction ocs as [|oc ocs IH]; intros lo Hsep Hlo; [split; constructor|].
    pose proof Hsep as (Hx & Hm & _ & Hsep'). destruct (close_of _ _ _ Hsep Hlo) as [Ep Ec].
    destruct (IH _ Hsep' ltac:(lia)) as [IHs IHb]. rewrite id_space_cons, Ep. cbn [app].
    assert (Forall (fun r => oc_key (close_record oc) < oc_key r) (id_space_of ocs)) as Hb1
      by (eapply Forall_impl; [exact IHb|cbv beta; intros; lia]).
    split.
    - constructor; [by constructor|]. constructor; [cbv beta; lia|]. eapply Forall_impl; [exact Hb1|cbv beta; intros; lia].
    - constructor; [cbv beta; lia|]. constructor; [cbv beta; lia|]. eapply Forall_impl; [exact IHb|cbv beta; intros; lia]. }
  rewrite id_space_cons. unfold push_records. rewrite Hs, Z.eqb_refl. cbn [app].
  destruct (Hgen 0 ocs Hsep ltac:(lia)) as [H1 H2]. constructor; [done|]. rewrite Hk. exact H2.
Qed.

(** [std::sort] has only one result for them. *)
Lemma sorted_unique xs l : StronglySorted (fun a b => oc_key a < oc_key b) xs -> std_sorted xs l -> l = xs.
Proof.
  intros Hlt [Hp Hs]. apply (StronglySorted_unique_strong oc_le); [|done| |by symmetry].
  - intros a b Ha Hb Hab Hba. rewrite <- Hp in Ha. apply oc_le_spec in Hab, Hba.
    assert (oc_key a = oc_key b) as E by lia. clear -Hlt E Ha Hb.
    induction Hlt as [|x xs Hs IH Hall]; [by apply not_elem_of_nil in Ha|]. rewrite Forall_forall in Hall.
    apply elem_of_cons in Ha as [->|Ha], Hb as [->|Hb]; auto.
    + pose proof (Hall b Hb). lia.
    + pose proof (Hall a Ha). lia.
  - eapply StronglySorted_impl_in; [|exact Hlt]. cbn. intros a b _ _ Hab. apply oc_le_spec. lia.
Qed.

(** ** What the analysis makes of such a table *)
Definition soft_search (k : Z) (oc : ECA_OpenClose) : Search :=
  mkSoftSearch (oc_key oc) (not64 (oc_subkey oc - oc_key oc)) k.
Fixpoint soft_searches (k : Z) (ocs : list ECA_OpenClose) : list Search :=
  match ocs with
  | [] => []
  | oc :: ocs' => soft_search k oc :: soft_searches (k + 1) ocs'
  end.

Lemma block_mask oc : block oc -> 0 <= oc_key oc ->
  let m := distance_mask (oc_key oc) (oc_subkey oc + 1) in
  m = not64 (oc_subkey oc - oc_key oc) /\ is_prefix_mask m = true /\
  exists j, 0 <= j < 64 /\ m = 2 ^ 64 - 2 ^ j /\ oc_subkey oc = oc_key oc + 2 ^ j - 1 /\ oc_key oc mod 2 ^ j = 0.
Proof.
  intros (j & Hj & Es & Em) Hk m. pose proof (Z.pow_lt_mono_r 2 j 64 ltac:(lia) ltac:(lia) ltac:(lia)) as Hp.
  pose proof (Z.pow_pos_nonneg 2 j ltac:(lia) ltac:(lia)) as Hp0.
  assert (m = not64 (oc_subkey oc - oc_key oc)) as E1.
  { unfold m, distance_mask. do 2 f_equal. rewrite Es.
    rewrite (unsigned_wrap_small 64 (oc_key oc + 2 ^ j - 1 + 1 - oc_key oc)) by lia. rewrite unsigned_wrap_small by lia. lia. }
  assert (m = 2 ^ 64 - 2 ^ j) as E2.
  { rewrite E1. unfold not64. rewrite Es. rewrite u64_lnot by lia. lia. }
  split; [done|]. split; [|eauto].
  rewrite E2. assert (forallb (fun i => is_prefix_mask (2 ^ 64 - 2 ^ Z.of_nat i)) (seq 0 64) = true) as Hall by (vm_compute; reflexivity).
  rewrite forallb_forall in Hall. specialize (Hall (Z.to_nat j)). rewrite Z2Nat.id in Hall by lia.
  apply Hall, in_seq. lia.
Qed.

Lemma land_block oc : block oc -> 0 <= oc_key oc < 2 ^ 64 ->
  Z.land (oc_key oc) (not64 (oc_subkey oc - oc_key oc)) = oc_key oc.
Proof.
  intros Hb Hk. destruct (block_mask oc Hb ltac:(lia)) as (E1 & _ & j & Hj & E2 & _ & Em).
  rewrite <- E1, E2, land_prefix by lia. lia.
Qed.

Lemma push_search_new s l : Forall (fun s' => s_first s' < s_first s) l -> push_search s l = l ++ [s].
Proof.
  intros Hl. unfold push_search. assert (existsb (fun s' => s_first s' =? s_first s) l = false) as ->; [|done].
  apply not_true_is_false. intros (x & Hx & E)%existsb_exists. rewrite Forall_forall in Hl.
  apply list_elem_of_In in Hx. pose proof (Hl x Hx). lia.
Qed.

Lemma analyse_alternating ocs k i prev s_open lo ss : separated lo ocs -> 0 <= lo -> Forall block ocs -> 0 < k -> (0 < i)%nat ->
  first_walker prev = 0 -> Forall (fun s => s_first s < k) ss ->
  analyse_zero i prev (map candidate (alternating k ocs)) s_open ss = ss ++ soft_searches k ocs.
Proof.
  revert k i prev s_open lo ss. induction ocs as [|oc ocs IH]; intros k i prev s_open lo ss Hsep Hlo Hb Hk Hi Hprev Hss.
  - cbn. by rewrite app_nil_r.
  - destruct Hsep as (Hx & Hm & _ & Hsep). apply Forall_cons in Hb as [Hb Hbs]. unfold UINT64_MAX in Hm.
    destruct (block_mask oc Hb ltac:(lia)) as (E1 & Hpre & _). pose proof (land_block oc Hb ltac:(lia)) as Hland.
    destruct i as [|i]; [lia|]. cbn [alternating map analyse_zero Nat.eqb candidate first_walker search_event se_index se_event].
    rewrite Hprev. cbn [Z.eqb negb andb]. rewrite (proj2 (Z.eqb_neq k 0)) by lia. cbn [negb andb].
    rewrite (proj2 (Z.ltb_ge k 0)) by lia. rewrite Hpre. rewrite E1, Hland, (proj2 (Z.eqb_neq (oc_key oc) 0)) by lia.
    cbn [negb andb]. rewrite push_search_new by done.
    rewrite (IH (k + 1) _ _ _ (oc_subkey oc + 1)); try done; try lia.
    + by rewrite <- app_assoc.
    + apply Forall_app. split; [eapply Forall_impl; [exact Hss|cbn; intros; lia]|]. repeat constructor. cbn. lia.
Qed.

(** ** The shape of every table

    Walkers point to earlier walkers, the search records ascend. *)
Definition walk_ok (walk : list WalkEntry) : Prop :=
  forall i we, walk !! i = Some we -> -1 <= we_next we < Z.of_nat i.
Definition index_ok (walk : list WalkEntry) (i : Z) : Prop := -1 <= i < Z.of_nat (length walk).
Definition opens (l : list ECA_OpenClose) : nat := length (filter (fun r => oc_open r = true) l).

Lemma pop_closes_shape c walk next l next' l' : pop_closes c walk next l = Ret (next', l') ->
  walk_ok walk -> index_ok walk next ->
  index_ok walk next' /\ opens l' = opens l /\ (exists pre, l = pre ++ l') /\
  (forall r rest, l' = r :: rest -> oc_key r <> c \/ oc_open r = true).
Proof.
  revert next. induction l as [|r l IH]; intros next E Hok Hn; cbn in E.
  - injection E as <- <-. split; [done|]. split; [done|]. split; [by exists []|done].
  - destruct ((c =? oc_key r) && negb (oc_open r)) eqn:Eb.
    + destruct (next =? -1); [done|]. destruct (next <? 0); [done|].
      destruct (walk !! Z.to_nat next) as [we|] eqn:Ew; [|done].
      pose proof (Hok _ _ Ew) as Hnext. pose proof (lookup_lt_Some _ _ _ Ew) as Hlt.
      destruct (IH (we_next we) E Hok) as (H1 & H2 & [pre ->] & H4); [unfold index_ok in *; lia|].
      apply andb_prop in Eb as [_ Eo]. apply negb_true_iff in Eo.
      split; [done|]. split; [|split; [by exists (r :: pre)|done]].
      unfold opens in *. rewrite filter_cons_False by congruence. done.
    + injection E as <- <-. split; [done|]. split; [done|]. split; [by exists []|].
      intros r' rest [= <- <-]. apply andb_false_iff in Eb as [Eb|Eb].
      * left. apply Z.eqb_neq in Eb. congruence.
      * right. by apply negb_false_iff in Eb.
Qed.

Lemma push_opens_shape c walk next l walk' next' l' : push_opens c walk next l = (walk', next', l') ->
  walk_ok walk -> index_ok walk next -> Z.of_nat (length walk + opens l) <= 2 ^ 15 ->
  index_ok walk' next' /\ walk_ok walk' /\ (length walk' + opens l' = length walk + opens l)%nat /\
  (exists ws, walk' = walk ++ ws) /\
  (exists pre, l = pre ++ l' /\ Forall (fun r => oc_key r = c /\ oc_open r = true) pre) /\
  (forall r rest, l' = r :: rest -> oc_key r <> c \/ oc_open r = false).
Proof.
  revert walk next. induction l as [|r l IH]; intros walk next E Hok Hn Hlen; cbn in E.
  - injection E as <- <- <-. repeat (split; [done|]). split; [exists []; by rewrite app_nil_r|]. split; [by exists []|done].
  - destruct ((c =? oc_key r) && oc_open r) eqn:Eb.
    + apply andb_prop in Eb as [Ek Eo]. apply Z.eqb_eq in Ek.
      assert (opens (r :: l) = S (opens l)) as Eop by (unfold opens; by rewrite filter_cons_True).
      rewrite Eop in *. rewrite signed_wrap_small in E by (change (2 ^ (16 - 1)) with (2 ^ 15); lia).
      destruct (IH _ _ E) as (H1 & H2 & H3 & [ws ->] & (pre & -> & Hpre) & H6).
      * intros i we Hi. apply lookup_app_Some in Hi as [Hi|[Hge Hi]]; [by apply Hok|].
        destruct (i - length walk)%nat eqn:Ei; [|done]. injection Hi as <-. cbn. unfold index_ok in Hn. lia.
      * unfold index_ok. rewrite length_app. cbn. lia.
      * rewrite length_app. cbn [length]. lia.
      * split; [done|]. split; [done|]. split; [rewrite !length_app in *; cbn [length] in *; lia|].
        split; [eexists; by rewrite <- app_assoc|]. split; [|done]. exists (r :: pre). split; [done|]. by constructor.
    + injection E as <- <- <-. repeat (split; [done|]). split; [exists []; by rewrite app_nil_r|]. split; [by exists []|].
      intros r' rest [= <- <-]. apply andb_false_iff in Eb as [Eb|Eb]; [left; apply Z.eqb_neq in Eb; congruence|by right].
Qed.

Definition above (c : Z) (l : list ECA_OpenClose) : Prop := Forall (fun r => c < oc_key r) l.

Lemma round_above c l l1 l2 pre1 pre2 : StronglySorted oc_le l -> l = pre1 ++ l1 -> l1 = pre2 ++ l2 ->
  Forall (fun r => c <= oc_key r) l -> Forall (fun r => oc_key r = c /\ oc_open r = true) pre2 ->
  (forall r rest, l1 = r :: rest -> oc_key r <> c \/ oc_open r = true) ->
  (forall r rest, l2 = r :: rest -> oc_key r <> c \/ oc_open r = false) -> above c l2.
Proof.
  intros Hs -> -> Hge Hpre2 H1 H2. apply StronglySorted_app_1_r in Hs. apply Forall_app in Hge as [_ Hge].
  apply Forall_app in Hge as [_ Hge]. destruct l2 as [|r l2]; [constructor|].
  assert (c < oc_key r) as Hr.
  { apply Forall_cons in Hge as [Hc _]. destruct (decide (oc_key r = c)) as [Ek|]; [|lia]. exfalso.
    destruct (H2 r l2 eq_refl) as [|Ho]; [done|]. destruct pre2 as [|o pre2].
    - destruct (H1 r l2 eq_refl); congruence.
    - apply Forall_cons in Hpre2 as [[Eo1 Eo2] _].
      assert (oc_le o r) as Hle by (eapply (StronglySorted_app_1_elem_of oc_le (o :: pre2) (r :: l2)); [done|by left|by left]).
      apply oc_le_spec in Hle. rewrite Eo2, Ho in Hle. naive_solver lia. }
  apply StronglySorted_app_1_r in Hs. inversion Hs as [|? ? _ Hall]; subst. constructor; [done|].
  eapply Forall_impl; [exact Hall|]. intros x Hx. apply oc_le_spec in Hx. lia.
Qed.

Lemma walk_records_shape fuel search walk next l search' walk' : walk_records fuel search walk next l = Ret (search', walk') ->
  StronglySorted oc_le l -> Forall (fun r => 0 <= oc_key r < 2 ^ 64) l ->
  walk_ok walk -> index_ok walk next -> Z.of_nat (length walk + opens l) <= 2 ^ 15 ->
  Forall (fun se => 0 <= se_event se < 2 ^ 64 /\ index_ok walk (se_index se)) search -> increasing search ->
  Forall (fun se => above (se_event se) l) search ->
  walk_ok walk' /\ (exists ws, walk' = walk ++ ws) /\ (exists ss, search' = search ++ ss) /\
  Z.of_nat (length walk') <= 2 ^ 15 /\ increasing search' /\
  Forall (fun se => 0 <= se_event se < 2 ^ 64 /\ index_ok walk' (se_index se)) search'.
Proof.
  revert search walk next l. induction fuel as [|fuel IH]; intros search walk next l E Hs Hk Hok Hn Hlen Hwf Hinc Hab;
    (destruct l as [|oc l]; [cbn in E; injection E as <- <-;
      split; [done|]; split; [exists []; by rewrite app_nil_r|]; split; [exists []; by rewrite app_nil_r|]; split; [lia|done]|]); [done|].
  cbn [walk_records] in E. set (c := oc_key oc) in *.
  destruct (pop_closes c walk next (oc :: l)) as [[next1 l1]|e|why] eqn:E1; [|done|done].
  destruct (pop_closes_shape _ _ _ _ _ _ E1 Hok Hn) as (Hn1 & Ho1 & [pre1 Ep1] & Hh1).
  destruct (push_opens c walk next1 l1) as [[walk2 next2] l2] eqn:E2.
  destruct (push_opens_shape _ _ _ _ _ _ _ E2 Hok Hn1 ltac:(lia)) as (Hn2 & Hok2 & Hlen2 & [ws ->] & (pre2 & Ep2 & Hpre2) & Hh2).
  assert (Forall (fun r => c <= oc_key r) (oc :: l)) as Hge.
  { constructor; [done|]. inversion Hs as [|? ? _ Hall]; subst. eapply Forall_impl; [exact Hall|].
    intros x Hx. apply oc_le_spec in Hx. unfold c. lia. }
  pose proof (round_above c _ l1 l2 pre1 pre2 Hs Ep1 Ep2 Hge Hpre2 Hh1 Hh2) as Habove.
  assert (0 <= c < 2 ^ 64) as Hc by (apply Forall_cons in Hk; apply Hk).
  rewrite Ep1, Ep2 in Hs, Hk. apply StronglySorted_app_1_r, StronglySorted_app_1_r in Hs.
  apply Forall_app in Hk as [_ Hk]. apply Forall_app in Hk as [_ Hk].
  destruct (IH _ _ _ _ E) as (R1 & [ws' ->] & [ss' ->] & R4 & R5 & R6); try done; try lia.
  - apply Forall_app. split; [|constructor; [done|constructor]].
    eapply Forall_impl; [exact Hwf|]. intros se [H1 H2]. split; [done|]. unfold index_ok in *. rewrite length_app. lia.
  - unfold increasing. apply StronglySorted_app_2; [|done|by repeat constructor].
    intros a b Ha ->%list_elem_of_singleton. rewrite Forall_forall in Hab. specialize (Hab a Ha).
    apply Forall_cons in Hab as [Hab _]. exact Hab.
  - apply Forall_app. split; [|by repeat constructor]. eapply Forall_impl; [exact Hab|]. intros se Hse.
    unfold above in *. rewrite Ep1, Ep2 in Hse. apply Forall_app in Hse as [_ Hse]. by apply Forall_app in Hse as [_ Hse].
  - split; [done|]. split; [exists (ws ++ ws'); by rewrite <- app_assoc|].
    split; [eexists; by rewrite <- app_assoc|]. done.
Qed.

(** Every walker is made of an open record. *)
Lemma walk_records_entries (P : WalkEntry -> Prop) (L l : list ECA_OpenClose) fuel search walk next search' walk' :
  (forall k r, r ∈ L -> oc_open r = true -> P (WalkEntry_of k r)) -> l ⊆ L ->
  walk_records fuel search walk next l = Ret (search', walk') -> Forall P walk -> Forall P walk'.
Proof.
  intros HP. revert l search walk next. induction fuel as [|fuel IH]; intros l search walk next Hsub E Hw;
    (destruct l as [|oc l]; [by injection E as <- <-|]); [done|].
  cbn [walk_records] in E. set (c := oc_key oc) in *.
  assert (forall l next n1 l1, pop_closes c walk next l = Ret (n1, l1) -> l1 ⊆ l) as Hpop.
  { clear. intros l. induction l as [|r l IHl]; intros next n1 l1 E; cbn in E; [by injection E as <- <-|].
    destruct ((c =? oc_key r) && negb (oc_open r)); [|by injection E as <- <-].
    destruct (next =? -1); [done|]. destruct (next <? 0); [done|]. destruct (walk !! Z.to_nat next); [|done].
    apply IHl in E. set_solver. }
  assert (forall l w n w' n' l', l ⊆ L -> Forall P w -> push_opens c w n l = (w', n', l') -> l' ⊆ l /\ Forall P w') as Hpush.
  { clear -HP. intros l. induction l as [|r l IHl]; intros w n w' n' l' Hsub Hw E; cbn in E; [by injection E as <- <- <-|].
    destruct ((c =? oc_key r) && oc_open r) eqn:Eb; [|by injection E as <- <- <-]. apply andb_prop in Eb as [_ Eo].
    apply IHl in E as [H1 H2]; [|set_solver|].
    - split; [set_solver|done].
    - apply Forall_app. split; [done|]. repeat constructor. apply HP; [set_solver|done]. }
  destruct (pop_closes c walk next (oc :: l)) as [[next1 l1]|e|why] eqn:E1; [|done|done].
  destruct (push_opens c walk next1 l1) as [[walk2 next2] l2] eqn:E2. pose proof (Hpop _ _ _ _ E1) as H1.
  destruct (Hpush l1 _ _ _ _ _ ltac:(set_solver) Hw E2) as [H2 H3]. eapply IH; [|exact E|done]. set_solver.
Qed.

(** ** Injection *)
Section Injection.
Context (sort_events : list Event -> list Event).
Hypothesis Hsort : forall l, sort_events l ≡ₚ l.

(** The event that an action makes of what is in the input buffer. *)
Definition soft_event (s : SoftwareECA) (a : Action) : Event :=
  mkEvent (in_pair s 0) (in_pair s 2) (u64 (in_pair s 6 + act_offset a)) (u32 (act_num a)) (s32 (act_tag a))
    (msi_target_adr s) (Z.lor (Z.shiftl ECA_VALID 16) (u32 (act_num a))).

Definition same_inputs (s s' : SoftwareECA) : Prop :=
  in_buffer s' = in_buffer s /\ msi_target_adr s' = msi_target_adr s /\ searches s' = searches s.

Lemma same_inputs_event s s' a : same_inputs s s' -> soft_event s' a = soft_event s a.
Proof. intros (E1 & E2 & _). unfold soft_event, in_pair, in_word. by rewrite E1, E2. Qed.

Lemma same_inputs_trans s1 s2 s3 : same_inputs s1 s2 -> same_inputs s2 s3 -> same_inputs s1 s3.
Proof. unfold same_inputs. intros (-> & -> & ->) (-> & -> & ->). done. Qed.

Lemma u32_s32 x : u32 (s32 x) = u32 x.
Proof.
  unfold unsigned_wrap, signed_wrap. rewrite Zminus_mod, Zmod_mod, <- Zminus_mod. f_equal. lia.
Qed.

Lemma offset_parts off : - 2 ^ 63 <= off < 2 ^ 63 ->
  Z.lor (s64 (Z.shiftl (Z.shiftr (u64 off) 32) 32)) (u32 off) = off.
Proof.
  intros Ho. assert (s64 (Z.shiftl (Z.shiftr (u64 off) 32) 32) = Z.shiftl (off / 2 ^ 32) 32) as ->.
  { rewrite Z.shiftr_div_pow2, !Z.shiftl_mul_pow2 by lia. wrap_lia. }
  rewrite lor_shiftl_low by (try lia; apply unsigned_wrap_range; lia). unfold unsigned_wrap.
  pose proof (Z.div_mod off (2 ^ 32)). lia.
Qed.

Definition offset_ok (we : WalkEntry) : Prop := - 2 ^ 63 <= we_offset we < 2 ^ 63.

Lemma event_of_walker s we b : offset_ok we -> event_of s (set_fired b (soft_walker we)) = soft_event s (we_action we).
Proof.
  intros Ho. unfold event_of, soft_event, soft_walker, set_fired, we_action. cbn [wk_offset wk_num wk_tag act_offset act_num act_tag].
  by rewrite offset_parts, !u32_s32 by done.
Qed.

Lemma event_of_soft s we : offset_ok we -> event_of s (soft_walker we) = soft_event s (we_action we).
Proof. apply (event_of_walker s we false). Qed.

(** One round, at a walker that has fired and at one that has not. *)
Lemma fire_fired i s w : walker s !! i = Some w -> wk_fired w = true -> fire sort_events i s = (s, wk_next w).
Proof.
  intros E Hf. unfold fire, walker_at. rewrite E. cbn. rewrite Hf. unfold on_walker, walker_at. rewrite E.
  cbn. assert (set_fired true w = w) as -> by (destruct w; cbn in *; by subst). rewrite insert_id by done.
  by destruct s.
Qed.

Lemma fire_fresh i s w : walker s !! i = Some w -> wk_fired w = false ->
  fire sort_events i s = (set_walker (<[i := set_fired true w]> (walker s)) (set_events (sort_events (events s ++ [event_of s w])) s), wk_next w).
Proof.
  intros E Hf. unfold fire, walker_at. rewrite E. cbn. rewrite Hf. unfold on_walker, walker_at. cbn. by rewrite E.
Qed.

Definition last_walker (w : Walker) : Prop := Z.land 0xffff (wk_next w) = 0xffff.

Definition oc_matches (e : Z) (oc : ECA_OpenClose) : Prop :=
  let m := not64 (oc_subkey oc - oc_key oc) in Z.land e m = Z.land (oc_key oc) m.
#[local] Instance oc_matches_dec e oc : Decision (oc_matches e oc).
Proof. unfold oc_matches. apply _. Defined.

Lemma inject_alternating ocs k e s f wz : 0 < k ->
  walker s !! 0 = Some wz -> wk_fired wz = true -> last_walker wz ->
  Forall (fun oc => offset_ok (WalkEntry_of 0 oc)) ocs ->
  (forall j oc, ocs !! j = Some oc -> walker s !! (k + Z.of_nat j) = Some (soft_walker (WalkEntry_of 0 oc))) ->
  exists s', inject_searches sort_events (S (S f)) e (soft_searches k ocs) s = Some s' /\ same_inputs s s' /\
    events s' ≡ₚ events s ++ (soft_event s ∘ oc_action <$> filter (oc_matches e) ocs).
Proof.
  revert k s. induction ocs as [|oc ocs IH]; intros k s Hk Hz Hzf Hzl Ho Hw.
  - exists s. split; [done|]. split; [done|]. cbn. by rewrite app_nil_r.
  - apply Forall_cons in Ho as [Ho Hos]. cbn [soft_searches inject_searches soft_search s_mask s_id s_first].
    assert (forall j oc', ocs !! j = Some oc' -> walker s !! (k + 1 + Z.of_nat j) = Some (soft_walker (WalkEntry_of 0 oc'))) as Hw'.
    { intros j oc' E. replace (k + 1 + Z.of_nat j) with (k + Z.of_nat (S j)) by lia. by apply Hw. }
    rewrite filter_cons. destruct (Z.eqb_spec (Z.land e (not64 (oc_subkey oc - oc_key oc)))
      (Z.land (oc_key oc) (not64 (oc_subkey oc - oc_key oc)))) as [Em|Em].
    + rewrite decide_True by done.
      assert (walker s !! k = Some (soft_walker (WalkEntry_of 0 oc))) as Hwk by (rewrite <- (Hw 0%nat oc eq_refl); f_equal; lia).
      cbn [walk]. rewrite (fire_fresh k s _ Hwk) by done. set (s1 := set_walker _ _).
      change (wk_next (soft_walker (WalkEntry_of 0 oc))) with 0. change (Z.land 0xffff 0 =? 0xffff) with false. cbn [walk].
      assert (walker s1 !! 0 = Some wz) as Hz1 by (unfold s1; cbn; by rewrite lookup_insert_ne by lia).
      rewrite (fire_fired 0 s1 wz Hz1 Hzf). unfold last_walker in Hzl. rewrite Hzl. cbn [Z.eqb Pos.eqb mbind option_bind].
      destruct (IH (k + 1) s1) as (s' & E' & Hi & Hev); try done; [lia| |].
      { intros j oc' E. unfold s1. cbn. rewrite lookup_insert_ne by lia. by apply Hw'. }
      exists s'. split; [done|]. split; [by eapply same_inputs_trans|]. rewrite Hev.
      assert (events s1 ≡ₚ events s ++ [soft_event s (oc_action oc)]) as ->.
      { unfold s1. cbn [events set_walker set_events]. rewrite Hsort, event_of_soft by done. done. }
      rewrite <- app_assoc. done.
    + rewrite decide_False by done.
      apply (IH (k + 1) s); try done. lia.
Qed.

Lemma alternating_wf ocs k lo : separated lo ocs -> 0 <= lo -> 0 <= k -> k + Z.of_nat (length ocs) <= 2 ^ 15 ->
  Forall entry_wf (alternating k ocs) /\ increasing (alternating k ocs) /\
  Forall (fun se => lo < se_event se) (alternating k ocs) /\ length (alternating k ocs) = (2 * length ocs)%nat.
Proof.
  revert k lo. induction ocs as [|oc ocs IH]; intros k lo Hsep Hlo Hk Hlen; [repeat constructor|].
  destruct Hsep as (Hx & Hm & _ & Hsep). unfold UINT64_MAX in Hm. cbn [length] in Hlen.
  destruct (IH (k + 1) _ Hsep ltac:(lia) ltac:(lia) ltac:(lia)) as (H1 & H2 & H3 & H4). cbn [alternating].
  split; [|split; [|split]].
  - constructor; [split; cbn; lia|]. constructor; [split; cbn; lia|done].
  - constructor; [constructor; [done|done]|]. constructor; [cbn; lia|]. eapply Forall_impl; [exact H3|cbn; intros; lia].
  - constructor; [cbn; lia|]. constructor; [cbn; lia|]. eapply Forall_impl; [exact H3|cbn; intros; lia].
  - cbn [length]. lia.
Qed.

Lemma placed_block pc : condition_wf (pl_cond pc) -> oc_subkey (placed_open pc) < UINT64_MAX ->
  block (placed_open pc) /\ not64 (oc_subkey (placed_open pc) - oc_key (placed_open pc)) = EcaTables.mask (pl_cond pc) /\
  0 <= oc_key (placed_open pc) < 2 ^ 64.
Proof.
  intros Hwf Hlt. destruct (open_record_block (pl_channel pc) (pl_num pc) _ Hwf) as (j & Hj & Em & Ek & Es).
  pose proof (open_record_wf (pl_channel pc) (pl_num pc) _ Hwf) as (_ & Hr & _). unfold placed_open in *.
  rewrite Es in *. rewrite Ek in *. unfold UINT64_MAX in Hlt.
  pose proof (Z.pow_pos_nonneg 2 j ltac:(lia) ltac:(lia)) as Hp0.
  assert (j <> 64) as Hj64.
  { intros ->. destruct Hwf as (Hid & _). pose proof (Z.mod_small (EcaTables.id (pl_cond pc)) (2 ^ 64) Hid). lia. }
  pose proof (Z.pow_lt_mono_r 2 j 64 ltac:(lia) ltac:(lia) ltac:(lia)) as Hp. split; [|split; [|lia]].
  - exists j. split; [lia|]. rewrite Es, Ek. split; [lia|].
    rewrite Zminus_mod, Zmod_mod, Z.sub_diag. by apply Z.mod_0_l; lia.
  - rewrite Em. unfold not64. rewrite u64_lnot by lia. lia.
Qed.

Lemma placed_matches e pc : condition_wf (pl_cond pc) -> oc_subkey (placed_open pc) < UINT64_MAX ->
  oc_matches e (placed_open pc) <-> event_matches e (pl_cond pc) = true.
Proof.
  intros Hwf Hlt. destruct (placed_block pc Hwf Hlt) as (_ & Em & _). unfold oc_matches, event_matches. rewrite Em, Z.eqb_eq.
  unfold placed_open, open_record. cbn [oc_key]. by rewrite <- Z.land_assoc, Z.land_diag.
Qed.

Lemma filter_placed e cs : Forall (fun pc => condition_wf (pl_cond pc)) cs ->
  Forall (fun pc => oc_subkey (placed_open pc) < UINT64_MAX) cs ->
  oc_action <$> filter (oc_matches e) (placed_open <$> cs) =
    placed_action <$> filter (fun pc => event_matches e (pl_cond pc) = true) cs.
Proof.
  intros Hwf Hu. induction cs as [|pc cs IH]; [done|]. apply Forall_cons in Hwf as [Hw Hwf], Hu as [Hpc Hu].
  rewrite fmap_cons, !filter_cons. pose proof (placed_matches e pc Hw Hpc) as Hm.
  destruct (decide (oc_matches e (placed_open pc))), (decide (event_matches e (pl_cond pc) = true)); try tauto;
    rewrite ?fmap_cons, IH by done; done.
Qed.

Lemma separated_upper lo ocs oc : separated lo ocs -> oc ∈ ocs -> oc_subkey oc < UINT64_MAX.
Proof.
  revert lo. induction ocs as [|x ocs IH]; intros lo Hs; [by intros ?%not_elem_of_nil|].
  destruct Hs as (_ & Hm & _ & Hs). intros [->|Hin]%elem_of_cons; [done|]. eauto.
Qed.

Definition offset_in_range (pc : Placed) : Prop := - 2 ^ 63 <= offset (pl_cond pc) < 2 ^ 63.

(** The whole way of a table of this shape, from the registers to the events. *)
Lemma alternating_delivers oz ocs base n c s b fuel :
  separated 0 ocs -> Forall block ocs -> oc_key oz = 0 -> ctl_adr_first c = base -> Z.of_nat (S (length ocs)) <= 2 ^ 15 ->
  (2 * S (length ocs) <= n)%nat ->
  Forall (fun oc => offset_ok (WalkEntry_of 0 oc)) (oz :: ocs) ->
  let search := mkSearch 0 0 :: alternating 1 ocs in
  let walk := WalkEntry_of (-1) oz :: map (WalkEntry_of 0) ocs in
  let s1 := set_in_buffer b (apply_ops (table_writes base n search walk) (c, s)).2 in
  exists s2, inject sort_events (2 + fuel) s1 = Some s2 /\
    events s2 ≡ₚ events s ++ (soft_event s1 ∘ oc_action <$> oz :: filter (oc_matches (in_pair s1 0)) ocs).
Proof.
  intros Hsep Hb Hkz Hbase Hlen Hn Ho search walk s1. apply Forall_cons in Ho as [Hoz Hos].
  destruct (alternating_wf ocs 1 0 Hsep ltac:(lia) ltac:(lia) ltac:(lia)) as (W1 & W2 & W3 & W4).
  destruct (table_written base n search walk c s Hbase) as (c' & _ & E); try done.
  { constructor; [split; cbn; lia|done]. }
  { constructor; [done|]. eapply Forall_impl; [exact W3|cbn; intros; lia]. }
  { unfold search. cbn [length]. lia. }
  { unfold search. cbn [length]. lia. }
  { unfold walk. cbn [length]. rewrite length_map. lia. }
  unfold s1. rewrite E. clear s1 E. cbn [snd]. set (ea := analysed search s).
  assert (searches ea = mkSoftSearch 0 0 0 :: soft_searches 1 ocs) as Es.
  { unfold ea, analysed, search. cbn [map candidate se_event se_index analyse_search_candidates search_candidates set_candidates search_event].
    cbn [Z.eqb]. unfold analyse_search_candidates_zero. cbn [search_candidates set_candidates set_searches searches].
    cbn [analyse_zero first_walker search_event Z.eqb negb andb Nat.eqb]. cbn [push_search existsb app].
    by rewrite (analyse_alternating ocs 1 1 _ _ 0) by (try done; try lia; repeat constructor; done). }
  assert (events ea = events s) as Ee.
  { unfold ea, analysed, analyse_search_candidates, analyse_search_candidates_zero, analyse_search_candidates_normal.
    cbn [map search]. by repeat case_match. }
  set (s1 := set_in_buffer b _). set (w := walkers_from 0 walk ∅).
  assert (forall j we, walk !! j = Some we -> (set_fired false <$> w) !! Z.of_nat j = Some (soft_walker we)) as Hw.
  { intros j we Hj. rewrite lookup_fmap. unfold w. rewrite walkers_from_lookup.
    rewrite (proj2 (Z.leb_le 0 _)) by lia. rewrite Z.sub_0_r, Nat2Z.id, Hj. done. }
  unfold inject. cbn [searches set_walker s1 set_in_buffer]. rewrite Es.
  change (in_pair (set_walker (set_fired false <$> walker s1) s1) 0) with (in_pair s1 0).
  cbn [inject_searches s_mask s_id s_first]. rewrite Z.land_0_r, Z.eqb_refl. cbn [SoftEca.walk Nat.add].
  set (s1' := set_walker (set_fired false <$> walker s1) s1).
  assert (walker s1' !! 0 = Some (soft_walker (WalkEntry_of (-1) oz))) as Hz0 by exact (Hw 0%nat _ eq_refl).
  rewrite (fire_fresh 0 s1' _ Hz0) by done. change (wk_next (soft_walker (WalkEntry_of (-1) oz))) with 65535.
  change (Z.land 0xffff 65535 =? 0xffff) with true. cbn [mbind option_bind]. set (s2 := set_walker _ _).
  destruct (inject_alternating ocs 1 (in_pair s1 0) s2 fuel (set_fired true (soft_walker (WalkEntry_of (-1) oz))))
    as (s3 & E3 & Hi & Hev); try done.
  { cbn [s2 walker set_walker set_events]. by rewrite lookup_insert_eq. }
  { intros j oc Hj. cbn [s2 walker set_walker set_events]. rewrite lookup_insert_ne by lia.
    replace (1 + Z.of_nat j) with (Z.of_nat (S j)) by lia. apply Hw.
    change (walk !! S j) with ((WalkEntry_of 0 <$> ocs) !! j). by rewrite list_lookup_fmap, Hj. }
  exists s3. split; [exact E3|]. rewrite Hev. cbn [s2 events set_walker set_events]. rewrite Hsort, event_of_soft by done.
  change (events s1') with (events ea). rewrite Ee, <- app_assoc. done.
Qed.

(** C11: the simulator acts as the hardware would.  When one active condition takes
    all events and every other one, in whatever order they were made, has an
    interval of identifiers with a gap before the next, then the tables that
    ECA::compile builds and writes make the simulated ECA answer each event with
    the actions, each one once, that the documented search and walk of the hardware
    tables gives; injecting always ends. *)
Theorem simulated_eca_agrees (pcs : list Placed) (z : Placed) (cs : list Placed) (l : list ECA_OpenClose)
    (base : Z) (n : nat) (c : EcaUnitControl) (s : SoftwareECA) (b : list Z) (fuel : nat)
    (Hp : pcs ≡ₚ z :: cs) (Hwf : Forall (fun pc => condition_wf (pl_cond pc)) pcs)
    (Hz : EcaTables.mask (pl_cond z) = 0) (Hsep : separated 0 (placed_open <$> cs)) (Hoff : Forall offset_in_range pcs)
    (Hsize : Z.of_nat (length pcs) <= 2 ^ 15) (Hl : std_sorted (id_space_of (placed_open <$> pcs)) l)
    (Hbase : ctl_adr_first c = base) (Hn : (2 * length pcs <= n)%nat)
    (He : 0 <= in_pair (set_in_buffer b s) 0 < 2 ^ 64) :
  exists search walk s2,
    build_tables l = Ret (search, walk) /\
    let s1 := set_in_buffer b (apply_ops (table_writes base n search walk) (c, s)).2 in
    inject sort_events (2 + fuel) s1 = Some s2 /\
    events s2 ≡ₚ events s ++ (soft_event s1 <$> table_actions search walk (in_pair s1 0)).
Proof.
  assert (condition_wf (pl_cond z) /\ Forall (fun pc => condition_wf (pl_cond pc)) cs) as [Hwz Hwcs].
  { rewrite Hp in Hwf. by apply Forall_cons in Hwf. }
  assert (offset_in_range z /\ Forall offset_in_range cs) as [Hoz Hocs].
  { rewrite Hp in Hoff. by apply Forall_cons in Hoff. }
  assert (length pcs = S (length cs)) as Elen by (by rewrite Hp).
  set (oz := placed_open z). set (ocs := placed_open <$> cs) in *.
  assert (oc_key oz = 0 /\ oc_subkey oz = UINT64_MAX) as [Ekz Esz].
  { unfold oz, placed_open, open_record. cbn [oc_key oc_subkey]. rewrite Hz, Z.land_0_r. split; [done|].
    change (u64 (Z.lnot 0)) with UINT64_MAX. destruct Hwz as (Hid & _). unfold UINT64_MAX.
    change (2 ^ 64 - 1) with (Z.ones 64). rewrite Z.lor_ones_low; [done|lia|]. destruct (decide (EcaTables.id (pl_cond z) = 0)) as [->|]; [done|].
    apply Z.log2_lt_pow2; lia. }
  assert (l = id_space_of (oz :: ocs)) as ->.
  { apply sorted_unique; [by apply separated_sorted|]. destruct Hl as [Hl1 Hl2]. split; [|done].
    rewrite <- Hl1. unfold id_space_of. change (oz :: ocs) with (placed_open <$> (z :: cs)). by rewrite Hp. }
  assert (length ocs = length cs) as Eocs by apply length_fmap.
  assert (forall oc, oc ∈ ocs -> exists pc, pc ∈ cs /\ oc = placed_open pc /\ condition_wf (pl_cond pc) /\
    offset_in_range pc /\ oc_subkey oc < UINT64_MAX) as Hin.
  { intros oc Hoc. pose proof (separated_upper _ _ _ Hsep Hoc) as Hu. apply list_elem_of_fmap in Hoc as (pc & -> & Hpc).
    exists pc. split; [done|]. split; [done|]. split; [by apply (proj1 (Forall_forall _ _) Hwcs)|].
    split; [by apply (proj1 (Forall_forall _ _) Hocs)|done]. }
  rewrite (build_alternating oz ocs Hsep Ekz eq_refl Esz) by (rewrite Eocs, <- Elen; done).
  destruct (alternating_delivers oz ocs base n c s b fuel Hsep) as (s2 & Einj & Hev); [|done|done|rewrite Eocs, <- Elen; done|lia| |].
  { apply Forall_forall. intros oc Hoc. destruct (Hin oc Hoc) as (pc & _ & -> & Hw & _ & Hu). by apply placed_block. }
  { apply Forall_cons. split; [done|]. apply Forall_forall. intros oc Hoc.
    destruct (Hin oc Hoc) as (pc & _ & -> & _ & Hr & _). exact Hr. }
  eexists _, _, s2. split; [reflexivity|]. split; [exact Einj|]. rewrite Hev. apply Permutation_app_head.
  destruct (compile_tables_correct pcs _ Hwf Hsize Hl) as (search & walk & Eb & _ & _ & Hact).
  rewrite (build_alternating oz ocs Hsep Ekz eq_refl Esz) in Eb by (rewrite Eocs, <- Elen; done). injection Eb as <- <-.
  set (s1 := set_in_buffer b _). assert (in_pair s1 0 = in_pair (set_in_buffer b s) 0) as Ein by done.
  rewrite (Hact (in_pair s1 0)) by (by rewrite Ein). rewrite Hp, filter_cons.
  rewrite decide_True by (unfold event_matches; by rewrite Hz, !Z.land_0_r). rewrite fmap_cons, list_fmap_compose, fmap_cons.
  change (oc_action oz) with (placed_action z). apply Permutation_skip.
  assert (oc_action <$> filter (oc_matches (in_pair s1 0)) ocs =
    placed_action <$> filter (fun pc => event_matches (in_pair s1 0) (pl_cond pc) = true) cs) as ->; [|done].
  apply filter_placed; [done|]. apply Forall_forall. intros pc Hpc. apply (separated_upper _ _ _ Hsep).
  by apply list_elem_of_fmap_2.
Qed.

(** ** Without a condition for all events *)

(** The chains of a written walker table end, whatever was inserted at -1. *)
Definition chains_end (N : Z) (w : gmap Z Walker) : Prop :=
  wk_next (walker_at (-1) w) = 0 /\
  forall i, 0 <= i < N -> wk_next (walker_at i w) = 65535 \/ 0 <= wk_next (walker_at i w) < i.

Lemma fire_next i s j :
  wk_next (walker_at j (walker (fire sort_events i s).1)) = wk_next (walker_at j (walker s)) /\
  (fire sort_events i s).2 = wk_next (walker_at i (walker s)).
Proof.
  unfold fire. cbn zeta. split; [|done]. unfold on_walker. cbn [fst walker set_walker].
  assert (walker (if wk_fired (walker_at i (walker s)) then s
    else set_events (sort_events (events s ++ [event_of s (walker_at i (walker s))])) s) = walker s) as -> by (by case_match).
  unfold walker_at. destruct (decide (i = j)) as [->|Hne]; [by rewrite lookup_insert_eq|by rewrite lookup_insert_ne].
Qed.

Lemma fire_events i s e : e ∈ events s -> e ∈ events (fire sort_events i s).1.
Proof.
  intros He. unfold fire. cbn [fst on_walker events set_walker]. case_match; [done|].
  cbn [events set_events]. rewrite Hsort. apply elem_of_app. by left.
Qed.

Lemma fire_inputs i s : same_inputs s (fire sort_events i s).1.
Proof. unfold fire, same_inputs. cbn [fst on_walker]. by case_match. Qed.

Lemma chains_end_fire N i s : chains_end N (walker s) -> chains_end N (walker (fire sort_events i s).1).
Proof.
  intros [H1 H2]. split; [by rewrite (proj1 (fire_next i s (-1)))|]. intros j Hj. rewrite (proj1 (fire_next i s j)). by apply H2.
Qed.

Lemma walk_ends N fuel i s : chains_end N (walker s) -> N <= 2 ^ 15 -> 0 <= i < N -> i < Z.of_nat fuel ->
  exists s', walk sort_events fuel i s = Some s' /\ chains_end N (walker s') /\ same_inputs s s' /\
    (forall e, e ∈ events s -> e ∈ events s').
Proof.
  intros Hc HN. revert i s Hc. induction fuel as [|fuel IH]; intros i s Hc Hi Hf; [lia|].
  cbn [walk]. pose proof (fire_next i s i) as [_ En]. pose proof (chains_end_fire N i s Hc) as Hc'.
  pose proof (fire_inputs i s) as Hin. pose proof (fire_events i s) as Hev.
  destruct (fire sort_events i s) as [s' idx]. cbn [fst snd] in *.
  destruct Hc as [_ Hc]. destruct (Hc i Hi) as [E|E]; rewrite <- En in E.
  - rewrite E. change (Z.land 0xffff 65535 =? 0xffff) with true. by exists s'.
  - assert ((Z.land 0xffff idx =? 0xffff) = false) as ->.
    { rewrite Z.land_comm. change 0xffff with (Z.ones 16). rewrite Z.land_ones, Z.mod_small by lia. apply Z.eqb_neq.
      change (Z.ones 16) with 65535. lia. }
    destruct (IH idx s' Hc' ltac:(lia) ltac:(lia)) as (s2 & E2 & C2 & I2 & V2).
    exists s2. split; [done|]. split; [done|]. split; [by eapply same_inputs_trans|auto].
Qed.

Lemma walk_ends_all N fuel i s : chains_end N (walker s) -> N <= 2 ^ 15 -> 0 < N -> -1 <= i < N -> N < Z.of_nat fuel ->
  exists s', walk sort_events fuel i s = Some s' /\ chains_end N (walker s') /\ same_inputs s s' /\
    (forall e, e ∈ events s -> e ∈ events s').
Proof.
  intros Hc HN HN0 Hi Hf. destruct (decide (i = -1)) as [->|]; [|apply (walk_ends N); try done; lia].
  destruct fuel as [|fuel]; [lia|]. cbn [walk]. pose proof (fire_next (-1) s (-1)) as [_ En].
  pose proof (chains_end_fire N (-1) s Hc) as Hc'. pose proof (fire_inputs (-1) s) as Hin. pose proof (fire_events (-1) s) as Hev.
  destruct (fire sort_events (-1) s) as [s' idx]. cbn [fst snd] in *. rewrite (proj1 Hc) in En. subst idx.
  change (Z.land 0xffff 0 =? 0xffff) with false. cbn iota.
  destruct (walk_ends N fuel 0 s' Hc' HN ltac:(lia) ltac:(lia)) as (s2 & E2 & C2 & I2 & V2).
  exists s2. split; [done|]. split; [done|]. split; [by eapply same_inputs_trans|auto].
Qed.

Lemma inject_ends N fuel e l s : chains_end N (walker s) -> N <= 2 ^ 15 -> 0 < N -> N < Z.of_nat fuel ->
  Forall (fun x => -1 <= s_first x < N) l ->
  exists s', inject_searches sort_events fuel e l s = Some s' /\ same_inputs s s' /\ (forall x, x ∈ events s -> x ∈ events s').
Proof.
  intros Hc HN HN0 Hf Hl. revert s Hc. induction Hl as [|x l Hx Hl IH]; intros s Hc; [by exists s|].
  cbn [inject_searches]. case_match; [|by apply IH].
  destruct (walk_ends_all N fuel (s_first x) s Hc HN HN0 Hx Hf) as (s1 & -> & C1 & I1 & V1). cbn [mbind option_bind].
  destruct (IH s1 C1) as (s2 & E2 & I2 & V2). exists s2. split; [done|]. split; [by eapply same_inputs_trans|auto].
Qed.

(** The analysis only adds searches, for walkers that it found. *)
Lemma analyse_zero_appends (P : Z -> Prop) i prev l s_open ss : P (first_walker prev) ->
  Forall (fun c => P (first_walker c)) l ->
  exists more, analyse_zero i prev l s_open ss = ss ++ more /\ Forall (fun x => P (s_first x)) more.
Proof.
  revert i prev s_open ss. induction l as [|c l IH]; intros i prev s_open ss Hp Hl; [exists []; by rewrite app_nil_r|].
  apply Forall_cons in Hl as [Hc Hl]. cbn [analyse_zero].
  match goal with |- context [analyse_zero (S i) c l ?o ?x] => set (ss' := x); destruct (IH (S i) c o ss' Hc Hl) as (more & -> & Hm) end.
  assert (exists add, ss' = ss ++ add /\ Forall (fun x => P (s_first x)) add) as (add & -> & Ha).
  { assert (forall x, P (s_first x) -> exists add, push_search x ss = ss ++ add /\ Forall (fun x => P (s_first x)) add) as Hpush.
    { intros x Hx. unfold push_search. case_match; [exists []; by rewrite app_nil_r|]. exists [x]. split; [done|]. by repeat constructor. }
    unfold ss'. repeat case_match; try (by apply Hpush); exists []; by rewrite app_nil_r. }
  exists (add ++ more). split; [by rewrite app_assoc|]. by apply Forall_app.
Qed.

Lemma next_stored n : -1 <= n < 2 ^ 15 -> s32 (u16 n) = if n =? -1 then 65535 else n.
Proof.
  intros Hn. destruct (Z.eqb_spec n (-1)) as [->|]; [done|].
  rewrite (unsigned_wrap_small 16) by lia. apply signed_wrap_small; lia.
Qed.

Lemma written_chains walk : walk_ok walk -> Z.of_nat (length walk) <= 2 ^ 15 ->
  chains_end (Z.of_nat (length walk)) (set_fired false <$> walkers_from 0 walk ∅).
Proof.
  intros Hok Hlen. unfold chains_end, walker_at. split.
  - rewrite lookup_fmap, walkers_from_lookup. done.
  - intros i Hi. rewrite lookup_fmap, walkers_from_lookup. rewrite (proj2 (Z.leb_le 0 i)) by lia. rewrite Z.sub_0_r.
    destruct (lookup_lt_is_Some_2 walk (Z.to_nat i) ltac:(lia)) as [we Hwe]. rewrite Hwe.
    pose proof (Hok _ _ Hwe) as Hn. rewrite Z2Nat.id in Hn by lia. cbn. rewrite next_stored by lia.
    destruct (Z.eqb_spec (we_next we) (-1)); lia.
Qed.

Lemma open_of_condition pcs l : Forall offset_in_range pcs -> std_sorted (id_space_of (placed_open <$> pcs)) l ->
  forall k r, r ∈ l -> oc_open r = true ->
  exists pc, pc ∈ pcs /\ we_action (WalkEntry_of k r) = placed_action pc /\ offset_ok (WalkEntry_of k r).
Proof.
  intros Hoff Hl k r Hr Ho. apply (elem_open _ l Hl r Hr) in Ho. apply list_elem_of_fmap in Ho as (pc & -> & Hpc).
  exists pc. split; [done|]. split; [done|]. by apply (proj1 (Forall_forall _ _) Hoff).
Qed.

Lemma records_count pcs l : std_sorted (id_space_of (placed_open <$> pcs)) l -> (length l <= 2 * length pcs)%nat.
Proof.
  intros [Hp _]. rewrite <- Hp. clear. unfold id_space_of. induction pcs as [|pc pcs IH]; [done|].
  rewrite fmap_cons, bind_cons, length_app. cbn [length]. unfold push_records at 1. case_match; cbn [length]; lia.
Qed.

Lemma first_walker_delivers search walk first ss s b fuel :
  search = mkSearch 0 (-1) :: ss -> walk_ok walk -> Z.of_nat (length walk) <= 2 ^ 15 ->
  Forall (fun se => 0 <= se_event se < 2 ^ 64 /\ index_ok walk (se_index se)) search ->
  walk !! 0%nat = Some first -> offset_ok first -> (length walk < fuel)%nat ->
  let s1 := set_in_buffer b (set_walker (walkers_from 0 walk ∅) (analysed search s)) in
  exists s2, inject sort_events fuel s1 = Some s2 /\ soft_event s1 (we_action first) ∈ events s2.
Proof.
  intros -> Hok Hlen Hwf Hfirst Hoff Hf s1. pose proof (lookup_lt_Some _ _ _ Hfirst) as Hpos.
  set (N := Z.of_nat (length walk)). pose proof (written_chains walk Hok Hlen) as Hc.
  assert (exists more, searches s1 = mkSoftSearch 0 0 (-1) :: more /\ Forall (fun x => -1 <= s_first x < N) more) as (more & Es & Hmore).
  { destruct (analyse_zero_appends (fun i => -1 <= i < N) 1 (mkCandidate (-1) 0) (map candidate ss) 0 [mkSoftSearch 0 0 (-1)])
      as (more & Em & Hm).
    - cbn. lia.
    - apply Forall_map. apply Forall_cons in Hwf as [_ Hwf]. eapply Forall_impl; [exact Hwf|].
      intros se [_ Hi]. unfold index_ok in Hi. cbn. lia.
    - exists more. split; [|done]. change (mkSoftSearch 0 0 (-1) :: more) with ([mkSoftSearch 0 0 (-1)] ++ more).
      rewrite <- Em. reflexivity. }
  unfold inject. set (s1' := set_walker (set_fired false <$> walker s1) s1).
  change (searches s1') with (searches s1). rewrite Es. cbn [inject_searches s_mask s_id s_first]. rewrite Z.land_0_r, Z.eqb_refl.
  (* the walker at -1, then the first one of the table *)
  destruct fuel as [|[|fuel]]; [lia|lia|]. cbn [SoftEca.walk].
  pose proof (fire_next (-1) s1' (-1)) as [_ En]. pose proof (chains_end_fire N (-1) s1' Hc) as Hc2.
  pose proof (fire_inputs (-1) s1') as Hi2. pose proof (fire_next (-1) s1' 0) as [_ _].
  assert (walker (fire sort_events (-1) s1').1 !! 0 = Some (soft_walker first)) as Hw0.
  { unfold fire. cbn [fst on_walker walker set_walker]. rewrite lookup_insert_ne by lia.
    transitivity (walker s1' !! 0); [by case_match|]. unfold s1'. cbn [walker set_walker]. rewrite lookup_fmap.
    change (walker s1) with (walkers_from 0 walk ∅). rewrite walkers_from_lookup.
    change (Z.to_nat (0 - 0)) with 0%nat. change (0 <=? 0) with true. by rewrite Hfirst. }
  change (wk_next (walker_at (-1) (walker s1'))) with (wk_next (walker_at (-1) (set_fired false <$> walkers_from 0 walk ∅))) in En.
  rewrite (proj1 Hc) in En. destruct (fire sort_events (-1) s1') as [s2 idx]. cbn [fst snd] in *. subst idx.
  change (Z.land 0xffff 0 =? 0xffff) with false. cbn iota.
  pose proof (fire_fresh 0 s2 _ Hw0 eq_refl) as Efire. pose proof (chains_end_fire N 0 s2 Hc2) as Hc3.
  assert (wk_next (soft_walker first) = 65535) as Enext.
  { cbn. pose proof (Hok _ _ Hfirst). assert (we_next first = -1) as -> by lia. done. }
  rewrite Enext in Efire. rewrite Efire in Hc3 |- *. cbn [fst] in Hc3. change (Z.land 0xffff 65535 =? 0xffff) with true. cbn iota.
  cbn [mbind option_bind]. set (s3 := set_walker (<[0 := set_fired true _]> _) _) in *.
  destruct (inject_ends N (S (S fuel)) (in_pair s1' 0) more s3 Hc3 Hlen ltac:(lia) ltac:(lia) Hmore) as (s4 & E4 & _ & V4).
  exists s4. split; [done|]. apply V4. unfold s3. cbn [events set_walker set_events]. rewrite Hsort, event_of_soft by done.
  apply elem_of_app. right. apply list_elem_of_singleton. by rewrite (same_inputs_event s1 s2).
Qed.

(** Without a condition that takes all events the simulator answers every event,
    whatever its identifier, with the action of the first walker record, i.e. of an
    active condition that need not match it (and with one for number 0 and tag 0),
    for all conditions and their order; injecting ends. *)
Theorem first_condition_gets_all (pcs : list Placed) (l : list ECA_OpenClose) (base : Z) (n : nat)
    (c : EcaUnitControl) (s : SoftwareECA) (b : list Z) (fuel : nat)
    (Hwf : Forall (fun pc => condition_wf (pl_cond pc)) pcs) (Hoff : Forall offset_in_range pcs)
    (Hsize : Z.of_nat (length pcs) <= 2 ^ 15) (Hl : std_sorted (id_space_of (placed_open <$> pcs)) l)
    (Hne : pcs <> []) (Hpos : Forall (fun pc => 0 < oc_key (placed_open pc)) pcs)
    (Hbase : ctl_adr_first c = base) (Hn : (2 * length pcs + 1 < n)%nat) (Hf : (length pcs < fuel)%nat) :
  exists search walk first s2,
    build_tables l = Ret (search, walk) /\ walk !! 0%nat = Some first /\
    (exists pc, pc ∈ pcs /\ we_action first = placed_action pc) /\
    let s1 := set_in_buffer b (apply_ops (table_writes base n search walk) (c, s)).2 in
    inject sort_events fuel s1 = Some s2 /\ soft_event s1 (we_action first) ∈ events s2.
Proof.
  pose proof (placed_wf pcs Hwf) as HA. pose proof (placed_laminar pcs Hwf) as Hlam.
  destruct (compile_tables_correct pcs l Hwf Hsize Hl) as (search & walk & Eb & Ew & Elen & _).
  assert (forall r, r ∈ l -> 0 < oc_key r < 2 ^ 64) as Hkeys.
  { intros r Hr. pose proof (key_range _ l HA Hl r Hr) as Hr'. destruct (decide (oc_key r = 0)) as [E0|]; [|lia]. exfalso.
    apply (elem_id_space _ l Hl) in Hr as [Hr|(o & Ho & Hmax & ->)].
    - apply list_elem_of_fmap in Hr as (pc & -> & Hpc). rewrite Forall_forall in Hpos. pose proof (Hpos pc Hpc). lia.
    - rewrite (close_key _ HA o Ho Hmax) in E0. rewrite Forall_forall in HA. destruct (HA o Ho) as (_ & ? & _). lia. }
  assert (leading_record l = [mkSearch 0 (-1)]) as Elead.
  { unfold leading_record. destruct l as [|r l']; [done|]. by rewrite (proj2 (Z.eqb_neq _ 0)) by (pose proof (Hkeys r ltac:(by left)); lia). }
  assert (opens l = length pcs) as Eo.
  { unfold opens. by rewrite (Permutation_length (O_perm _ l HA Hl)), length_fmap. }
  pose proof Eb as Eb'. unfold build_tables in Eb'. rewrite Elead in Eb'.
  destruct (walk_records_shape _ _ _ _ _ _ _ Eb') as (R1 & _ & [ss Ess] & R4 & R5 & R6).
  { apply Hl. } { apply Forall_forall. intros r Hr. pose proof (Hkeys r Hr). lia. }
  { by intros i we Hi. } { unfold index_ok. cbn. lia. } { rewrite Eo. cbn [length]. lia. }
  { constructor; [|constructor]. unfold index_ok. cbn. lia. } { repeat constructor. }
  { constructor; [|constructor]. apply Forall_forall. intros r Hr. apply (Hkeys r Hr). }
  pose proof (walk_records_entries (fun we => exists pc, pc ∈ pcs /\ we_action we = placed_action pc /\ offset_ok we) l l
    _ _ _ _ _ _ ltac:(intros k r Hr Ho; exact (open_of_condition pcs l Hoff Hl k r Hr Ho)) ltac:(done) Eb' ltac:(constructor)) as Hents.
  assert (0 < length walk)%nat as Hwpos by (rewrite Ew; destruct pcs; [done|cbn; lia]).
  destruct (lookup_lt_is_Some_2 walk 0 Hwpos) as [first Hfirst].
  destruct (proj1 (Forall_lookup _ _) Hents _ _ Hfirst) as (pc & Hpc & Eact & Hofs).
  exists search, walk, first.
  destruct (table_written base n search walk c s Hbase) as (c' & _ & E); try done.
  { eapply Forall_impl; [exact R6|]. intros se [H1 H2]. split; [done|]. unfold index_ok in H2. lia. }
  { rewrite Ess. by destruct ss. }
  { pose proof (records_count pcs l Hl). lia. } { pose proof (records_count pcs l Hl). lia. }
  { by destruct walk. } { lia. }
  destruct (first_walker_delivers search walk first ss s b fuel) as (s2 & Einj & Hin); try done; [lia|].
  exists s2. split; [done|]. split; [done|]. split; [by exists pc|]. rewrite E. done.
Qed.

(** And without any active condition, on a simulator that has had none, injecting
    an event never ends. *)
Theorem inject_without_conditions_diverges (base : Z) (n : nat) (c : EcaUnitControl) (s : SoftwareECA) (b : list Z) (fuel : nat)
    (Hbase : ctl_adr_first c = base) (Hn : (1 < n)%nat) (Hw : walker s = ∅) :
  exists search walk, build_tables [] = Ret (search, walk) /\
    inject sort_events fuel (set_in_buffer b (apply_ops (table_writes base n search walk) (c, s)).2) = None.
Proof.
  exists [mkSearch 0 (-1)], []. split; [done|].
  destruct (empty_table_written base n c s Hbase Hn) as (c' & _ & ->). cbn [snd].
  set (s1 := set_in_buffer b _). unfold inject. change (searches (set_walker (set_fired false <$> walker s1) s1)) with [mkSoftSearch 0 0 (-1)].
  cbn [inject_searches s_mask s_first s_id]. rewrite Z.land_0_r. cbn [Z.land Z.eqb].
  assert (forall fuel i s, (i = 0 \/ wk_next (walker_at i (walker s)) = 0) -> wk_next (walker_at 0 (walker s)) = 0 ->
    walk sort_events fuel i s = None) as Hloop.
  { clear. induction fuel as [|fuel IH]; intros i s Hi H0; [done|]. cbn [walk].
    pose proof (fire_next i s i) as [_ En]. pose proof (fire_next i s 0) as [E0 _].
    destruct (fire sort_events i s) as [s' idx]. cbn [fst snd] in *.
    assert (idx = 0) as -> by (rewrite En; by destruct Hi as [->|]). change (Z.land 0xffff 0 =? 0xffff) with false.
    apply IH; [by left|congruence]. }
  assert (walker (set_walker (set_fired false <$> walker s1) s1) = ∅) as E1.
  { change (set_fired false <$> walker s = ∅). by rewrite Hw. }
  rewrite Hloop; [done|right|]; rewrite E1; done.
Qed.
End Injection.

(** ** Examples *)
Module SoftDemo.

Definition by_deadline (a b : Event) : Prop := ev_deadline a <= ev_deadline b.
#[local] Instance by_deadline_dec a b : Decision (by_deadline a b).
Proof. unfold by_deadline. apply _. Defined.
Definition sort_events (l : list Event) : list Event := merge_sort by_deadline l.
Lemma sort_events_perm l : sort_events l ≡ₚ l.
Proof. apply merge_sort_Permutation. Qed.

Definition condition_of (id_ mask_ offset_ tag_ : Z) : Condition := mkCondition 0 id_ mask_ offset_ tag_ true true true true true.
Definition anything : Placed := mkPlaced 0 1 (condition_of 0 0 0 1).
Definition near : Placed := mkPlaced 0 2 (condition_of 0x1000 0xffffffffffffff00 (-20) 7).
Definition far : Placed := mkPlaced 0 3 (condition_of 0x300000000 0xffffffff00000000 1000 8).
Definition fresh : EcaUnitControl := EcaUnitControl_new 0x400 0.

(** An event [0x1023] at time 5000. *)
Definition event_words : list Z := [0; 0x1023; 0; 42; 0; 0; 0; 5000].

Lemma placed_demo_wf : Forall (fun pc => condition_wf (pl_cond pc)) [far; anything; near].
Proof. repeat constructor; cbn; lia. Defined.

Lemma simulated_eca_agrees_witness :
  exists search walk s2,
    build_tables (oc_sort (id_space_of (placed_open <$> [far; anything; near]))) = Ret (search, walk) /\
    let s1 := set_in_buffer event_words (apply_ops (table_writes 0x400 512 search walk) (fresh, SoftwareECA_new)).2 in
    inject sort_events 2 s1 = Some s2 /\
    events s2 ≡ₚ [] ++ (soft_event s1 <$> table_actions search walk (in_pair s1 0)).
Proof.
  apply (simulated_eca_agrees sort_events sort_events_perm [far; anything; near] anything [near; far]
    (oc_sort (id_space_of (placed_open <$> [far; anything; near]))) 0x400 512 fresh SoftwareECA_new event_words 0).
  - etransitivity; [apply perm_swap|]. apply perm_skip, perm_swap.
  - exact placed_demo_wf.
  - reflexivity.
  - cbn. unfold UINT64_MAX. repeat split; vm_compute; congruence.
  - repeat constructor; cbn; lia.
  - cbn. lia.
  - apply oc_sort_sorted.
  - reflexivity.
  - cbn. lia.
  - vm_compute. split; congruence.
Defined.

(** The tags that are delivered. *)
Definition delivered (pcs : list Placed) (fuel : nat) (words : list Z) : option (list Z) :=
  match build_tables (oc_sort (id_space_of (placed_open <$> pcs))) with
  | Ret (search, walk) =>
      s ← inject sort_events fuel (set_in_buffer words (apply_ops (table_writes 0x400 512 search walk) (fresh, SoftwareECA_new)).2);
      Some (ev_tag <$> events s)
  | _ => None
  end.

Example near_delivered : delivered [far; anything; near] 2 event_words = Some [7; 1].
Proof. vm_compute. reflexivity. Qed.

(** [far] is active alone: it gets the event for [near]. *)
Example far_delivered : delivered [far] 4 event_words = Some [0; 8].
Proof. vm_compute. reflexivity. Qed.

(** Next to each other and of different sizes: one of the conditions gets
    nothing. *)
Example adjacent_lost :
  delivered [anything; mkPlaced 0 2 (condition_of 0x1000 0xffffffffffffff00 0 7);
             mkPlaced 0 3 (condition_of 0x1100 0xffffffffffffff00 0 8)] 4 event_words = Some [1].
Proof. vm_compute. reflexivity. Qed.

Lemma first_condition_gets_all_witness :
  exists search walk first s2,
    build_tables (oc_sort (id_space_of (placed_open <$> [far]))) = Ret (search, walk) /\ walk !! 0%nat = Some first /\
    (exists pc, pc ∈ [far] /\ we_action first = placed_action pc) /\
    let s1 := set_in_buffer event_words (apply_ops (table_writes 0x400 512 search walk) (fresh, SoftwareECA_new)).2 in
    inject sort_events 2 s1 = Some s2 /\ soft_event s1 (we_action first) ∈ events s2.
Proof.
  apply (first_condition_gets_all sort_events sort_events_perm [far] (oc_sort (id_space_of (placed_open <$> [far])))
    0x400 512 fresh SoftwareECA_new event_words 2).
  - repeat constructor; cbn; lia.
  - repeat constructor; cbn; lia.
  - cbn. lia.
  - apply oc_sort_sorted.
  - discriminate.
  - repeat constructor; vm_compute; reflexivity.
  - reflexivity.
  - cbn. lia.
  - cbn. lia.
Defined.

Lemma inject_without_conditions_diverges_witness :
  exists search walk, build_tables [] = Ret (search, walk) /\
    inject sort_events 1000 (set_in_buffer event_words (apply_ops (table_writes 0x400 512 search walk) (fresh, SoftwareECA_new)).2) = None.
Proof. apply (inject_without_conditions_diverges sort_events 0x400 512 fresh SoftwareECA_new event_words 1000); [reflexivity|lia|reflexivity]. Defined.
End SoftDemo.
