(* ===== verification/SoftDevices.v ===== *)
(** * The devices of the software timing receiver (src/saft-software-tr.cpp)

    The file of SDB records, the devices that are placed by it, the dispatch of one
    wishbone access, and the extraction of the records from real hardware.  What is
    printed is left out. *)
From S2P Require Import Prelude Bus EcaHw EcaOps SoftEca.
From stdpp Require Import gmap strings.
From Stdlib Require Import Strings.Ascii.
Local Open Scope Z_scope.

(** ** [SDBrecords] *)
Record SDBrecords := mkSdb {
  sdb_start : Z; sdb_memory : gmap Z Z; sdb_absolute : gmap Z Z; sdb_blocks : list (Z * Z)
}.

(** One line of the file: address, content, content with the base added. *)
Definition sdb_line (line : Z * Z * Z) (s : SDBrecords) : SDBrecords :=
  let '(adr, dat, abs_dat) := line in
  let blocks :=
    match last (sdb_blocks s) with
    | Some (first, last_) =>
        if u32 (last_ + 4) =? adr then take (length (sdb_blocks s) - 1) (sdb_blocks s) ++ [(first, adr)]
        else sdb_blocks s ++ [(adr, adr)]
    | None => [(adr, adr)]
    end in
  mkSdb (sdb_start s) (<[adr := dat]> (sdb_memory s)) (<[adr := abs_dat]> (sdb_absolute s)) blocks.

(** The lines up to the first that cannot be read; the first address is the start,
    which has no value without one. *)
Definition SDBrecords_new (garbage : Z) (lines : list (Z * Z * Z)) : SDBrecords :=
  foldl (fun s l => sdb_line l s) (mkSdb (match lines with (adr, _, _) :: _ => adr | [] => garbage end) ∅ ∅ []) lines.

Definition sdb_contains (adr : Z) (s : SDBrecords) : bool :=
  existsb (fun '(first, last_) => (first <=? adr) && (adr <=? last_)) (sdb_blocks s).
Definition sdb_read (adr : Z) (s : SDBrecords) : option Z := sdb_memory s !! adr.

(** [memory[adr]] makes an entry if there is none. *)
Definition sdb_at (adr : Z) (m : gmap Z Z) : Z * gmap Z Z :=
  match m !! adr with Some v => (v, m) | None => (0, <[adr := 0]> m) end.

Definition block_matches_ids (block_adr vendor_id device_id : Z) (m : gmap Z Z) : bool * gmap Z Z :=
  let '(kind, m) := sdb_at (u32 (block_adr + 4 * 15)) m in
  if Z.land kind 0xff =? 1 then
    let '(v, m) := sdb_at (u32 (block_adr + 4 * 7)) m in
    if v =? vendor_id then
      let '(d, m) := sdb_at (u32 (block_adr + 4 * 8)) m in (d =? device_id, m)
    else (false, m)
  else (false, m).

Definition set_memory m s : SDBrecords := mkSdb (sdb_start s) m (sdb_absolute s) (sdb_blocks s).
Definition set_absolute m s : SDBrecords := mkSdb (sdb_start s) (sdb_memory s) m (sdb_blocks s).

(** The loop over one block, 64 bytes a step; one round per step is enough. *)
Fixpoint scan_block (fuel : nat) (block_adr last_ vendor_id device_id : Z) (s : SDBrecords) : list Z * SDBrecords :=
  match fuel with
  | O => ([], s)
  | S fuel' =>
      if block_adr <? last_ then
        let '(found, m) := block_matches_ids block_adr vendor_id device_id (sdb_memory s) in
        let s := set_memory m s in
        let '(here, s) :=
          (if found then let '(first, a) := sdb_at (u32 (block_adr + 4 * 3)) (sdb_absolute s) in ([first], set_absolute a s)
           else ([], s)) in
        let '(rest, s) := scan_block fuel' (u32 (block_adr + 64)) last_ vendor_id device_id s in
        (here ++ rest, s)
      else ([], s)
  end.

Fixpoint scan_blocks (blocks : list (Z * Z)) (vendor_id device_id : Z) (s : SDBrecords) : list Z * SDBrecords :=
  match blocks with
  | [] => ([], s)
  | (first, last_) :: blocks' =>
      let '(here, s) := scan_block (S (Z.to_nat ((last_ - first) / 64))) first last_ vendor_id device_id s in
      let '(rest, s) := scan_blocks blocks' vendor_id device_id s in
      (here ++ rest, s)
  end.

(** The addresses of the devices that [create_devices] makes. *)
Definition create_devices (vendor_id device_id : Z) (s : SDBrecords) : list Z * SDBrecords :=
  scan_blocks (sdb_blocks s) vendor_id device_id s.

(** ** The other devices *)
Definition newline : string := String (ascii_of_nat 10) EmptyString.
Definition build_id_lines : list string :=
  ["Project     : software timing receiver"; "Platform    : emulator on host system"; "FPGA model  : -";
   "Source info : -"; "Build type  : -"; "Build date  : -"; "Prepared by : -"; "Prepared on : -"; "OS version  : -";
   "Quartus     : -"; "";
   "  The software timing receiver provides some basic ECA functionality";
   "  without the need for real timing hardware.";
   "  Events can be injected, SoftwareActionSinks and SoftwareConditoins ";
   "  can be created using saftlib just as if a hardware timing receiver ";
   "  was conneced. Don't expect high precision or WR-synchronization";
   "  Not all saflib drivers will work."]%string.
Definition build_id_text : list Z :=
  map (fun c => Z.of_nat (nat_of_ascii c)) (String.list_ascii_of_string (foldr (fun l t => l +:+ newline +:+ t) EmptyString build_id_lines)%string).

(** Four characters a word, the first one on top. *)
Fixpoint words_of (bytes : list Z) : list Z :=
  match bytes with
  | a :: b :: c :: d :: rest => Z.lor (Z.lor (Z.lor (Z.shiftl a 24) (Z.shiftl b 16)) (Z.shiftl c 8)) d :: words_of rest
  | [a; b; c] => [Z.lor (Z.lor (Z.shiftl a 24) (Z.shiftl b 16)) (Z.shiftl c 8)]
  | [a; b] => [Z.lor (Z.shiftl a 24) (Z.shiftl b 16)]
  | [a] => [Z.shiftl a 24]
  | [] => []
  end.
Definition ROM_WORDS : nat := 0x400.
Definition BuildIdRom_new : list Z :=
  let rom := words_of build_id_text in rom ++ replicate (ROM_WORDS - length rom) 0.

Inductive Device :=
  | Sdb (s : SDBrecords)
  | WatchdogMutex (adr_first : Z)
  | BuildIdRom (adr_first : Z) (rom : list Z)
  | WrPpsGenerator (adr_first : Z)
  | EcaControl (c : EcaUnitControl)
  | IoControl (adr_first : Z)
  | EcaQueue (adr_first : Z)
  | FpgaReset (adr_first : Z)
  | EventsIn (d : EcaEventsIn)
  | MsiMailbox (adr_first : Z) (slots : list Z)
  | LM32ClusterInfoRom (adr_first : Z).

Definition in_range (first size adr : Z) : bool := (first <=? adr) && (adr <? u32 (first + size)).
Definition in_closed_range (first size adr : Z) : bool := (first <=? adr) && (adr <=? u32 (first + size)).

Definition contains (adr : Z) (d : Device) : bool :=
  match d with
  | Sdb s => sdb_contains adr s
  | WatchdogMutex first => adr =? first
  | BuildIdRom first _ => in_range first 0x400 adr
  | WrPpsGenerator first => in_range first 0x100 adr
  | EcaControl c => control_contains c adr
  | IoControl first => in_range first 0x10000 adr
  | EcaQueue first => queue_contains first adr
  | FpgaReset first => in_range first 0x100 adr
  | EventsIn d => adr =? in_adr_first d
  | MsiMailbox first _ => in_closed_range first (2 * 128 * 4) adr
  | LM32ClusterInfoRom first => in_closed_range first 4 adr
  end.

(** What the devices share: the simulated ECA and the static flag of the reset. *)
Record Sim := mkSim { sim_eca : SoftwareECA; sim_reset : bool }.

(** [Some v]: acknowledged with [*dat_out = v]; [dat_out] is its value before. *)
Definition read_access (now adr dat_out : Z) (d : Device) (s : Sim) : outcome (option Z) :=
  match d with
  | Sdb sdb => Ret (sdb_read adr sdb)
  | WatchdogMutex _ => Ret (Some 0)
  | BuildIdRom first rom => Ret (rom !! Z.to_nat (u32 (adr - first) / 4))
  | WrPpsGenerator first => Ret (if u32 (adr - first) =? 0x1c then Some 0xc else None)
  | EcaControl c => control_read now adr c
  | IoControl first =>
      let a := u32 (adr - first) in
      Ret (if (a =? 0x104) || (a =? 0x108) || (a =? 0x10c) then Some 0 else None)
  | EcaQueue first => Ret (queue_read first now adr (sim_eca s))
  | FpgaReset _ => Ret (Some dat_out)
  | EventsIn _ => Ret None
  | MsiMailbox first slots =>
      let idx := u32 (adr - first) / 4 in
      if Z.odd idx then
        match slots !! Z.to_nat (idx / 2) with Some v => Ret (Some v) | None => Crash "_slots[idx/2]" end
      else Ret (Some 0xffffffff)
  | LM32ClusterInfoRom _ => Ret (Some 1)
  end.

(** What a write does: the acknowledgement, the device, what is shared, and
    interrupts for the slave. *)
Definition Written : Type := bool * Device * Sim * list (Z * Z).

Section Access.
Variable sort_events : list Event -> list Event.
(** Rounds of one chain of walkers; an injection that needs more does not come
    back. *)
Variable fuel : nat.

Definition write_access (adr dat : Z) (d : Device) (s : Sim) : outcome Written :=
  let unchanged (ack : bool) : outcome Written := Ret (ack, d, s, []) in
  match d with
  | Sdb _ | WrPpsGenerator _ | IoControl _ | LM32ClusterInfoRom _ => unchanged false
  | WatchdogMutex _ => unchanged true
  | BuildIdRom first rom =>
      let i := Z.to_nat (u32 (adr - first) / 4) in
      if (i <? length rom)%nat then Ret (true, BuildIdRom first (<[i := dat]> rom), s, []) else unchanged false
  | EcaControl c =>
      let '(ack, (c', e')) := control_write adr dat (c, sim_eca s) in
      Ret (ack, EcaControl c', mkSim e' (sim_reset s), [])
  | EcaQueue first =>
      let '(ack, e') := queue_write first adr dat (sim_eca s) in Ret (ack, d, mkSim e' (sim_reset s), [])
  | FpgaReset _ => Ret (true, d, mkSim (sim_eca s) (sim_reset s || (dat =? 0xdeadbeef)), [])
  | EventsIn i =>
      match events_in_write sort_events fuel dat i (sim_eca s) with
      | Some (i', e') => Ret (true, EventsIn i', mkSim e' (sim_reset s), [])
      | None => Crash "inject does not end"
      end
  | MsiMailbox first slots =>
      let idx := u32 (adr - first) / 4 in
      match slots !! Z.to_nat (idx / 2) with
      | None => Crash "_slots[idx/2]"
      | Some slot =>
          if Z.odd idx then Ret (true, MsiMailbox first (<[Z.to_nat (idx / 2) := dat]> slots), s, [])
          else Ret (true, d, s, [(slot, dat)])
      end
  end.

(** ** One access of the main loop: the first device that has the address *)
Record Response := mkResponse { rs_ack : bool; rs_err : bool; rs_dat : Z; rs_msis : list (Z * Z) }.

Fixpoint device_access (now adr : Z) (we : bool) (dat dat_out : Z) (before devices : list Device) (s : Sim)
    : outcome (Response * list Device * Sim) :=
  match devices with
  | [] => Ret (mkResponse false true dat_out [], before, s)
  | d :: devices' =>
      if contains adr d then
        if we then
          match write_access adr dat d s with
          | Ret (ack, d', s', msis) => Ret (mkResponse ack (negb ack) dat_out msis, before ++ d' :: devices', s')
          | Throw e => Throw e
          | Crash why => Crash why
          end
        else
          match read_access now adr dat_out d s with
          | Ret (Some v) => Ret (mkResponse true false v [], before ++ d :: devices', s)
          | Ret None => Ret (mkResponse false true dat_out [], before ++ d :: devices', s)
          | Throw e => Throw e
          | Crash why => Crash why
          end
      else device_access now adr we dat dat_out (before ++ [d]) devices' s
  end.
End Access.

(** The devices of [main], in the order in which they are looked through. *)
Definition make_devices (garbage : Z) (s : SDBrecords) : list Device :=
  let find v p s := create_devices v p s in
  let '(l1, s) := find 0x651 0xb6232cd3 s in
  let '(l2, s) := find 0x651 0x2d39fa8b s in
  let '(l3, s) := find 0xce42 0xde0d8ced s in
  let '(l4, s) := find 0x651 0xb2afc251 s in
  let '(l5, s) := find 0x651 0x10c05791 s in
  let '(l6, s) := find 0x651 0xd5a3faea s in
  let '(l7, s) := find 0x651 0x3a362063 s in
  let '(l8, s) := find 0x651 0x8752bf45 s in
  let '(l9, s) := find 0x651 0xfab0bdd8 s in
  let '(l10, s) := find 0x651 0x10040086 s in
  Sdb s :: map WatchdogMutex l1 ++ map (fun a => BuildIdRom a BuildIdRom_new) l2 ++ map WrPpsGenerator l3 ++
  map (fun a => EcaControl (EcaUnitControl_new a garbage)) l4 ++ map IoControl l5 ++ map EcaQueue l6 ++ map FpgaReset l7 ++
  map (fun a => EventsIn (mkEventsIn a 0)) l8 ++ map (fun a => MsiMailbox a (replicate 128 0xffffffff)) l9 ++
  map LM32ClusterInfoRom l10.

(** ** Reading the records from hardware *)
Section Extract.
Context {D : Type} `{Bus D}.

Definition sdb_magic_error : exn := RuntimeError "sdb magic number doesn't match".

Definition get_sdb_size (start : Z) : M D Z :=
  rs ← cycle [BusR (start + 0); BusR (start + 4)];
  match rs with
  | [magic; records_version_bustype] =>
      throw_if (negb (magic =? 0x5344422d)) sdb_magic_error;;
      mret (u32 (Z.shiftr records_version_bustype 16))
  | _ => crash "cycle.read"
  end.

Definition sdb_record_adr (start index : Z) : Z := start + 16 * index * 4.

Definition read_sdb_record (start index : Z) : M D (list Z) :=
  rs ← cycle (map (fun i => BusR (sdb_record_adr start index + Z.of_nat i * 4)) (seq 0 16));
  mret (map (fun v => u32 v) rs).

(** Field [i] with the base added where it is an address. *)
Definition modified (base : Z) (i : nat) (v : Z) : Z := if (i =? 3)%nat || (i =? 5)%nat then u32 (v + base) else v.

(** [read_sdb]; a bridge is followed when its last field has been stored.
    [None]: the bridges are nested deeper than [fuel]. *)
Fixpoint read_sdb (fuel : nat) (result : gmap Z (Z * Z)) (start base : Z) : M D (option (gmap Z (Z * Z))) :=
  match fuel with
  | O => mret None
  | S fuel' =>
      records ← get_sdb_size start;
      (fix each (n : nat) (index : Z) (result : gmap Z (Z * Z)) : M D (option (gmap Z (Z * Z))) :=
         match n with
         | O => mret (Some result)
         | S n' =>
             sdb ← read_sdb_record start index;
             let result := foldl (fun r iv => <[u32 (sdb_record_adr start index + Z.of_nat iv.1 * 4) := (iv.2, modified base iv.1 iv.2)]> r)
                             result (zip (seq 0 16) sdb) in
             let field k := default 0 (sdb !! k) in
             if Z.land (field 15%nat) 0xff =? 2 then
               o ← read_sdb fuel' result (base + field 1%nat) (base + field 3%nat);
               match o with Some result => each n' (index + 1) result | None => mret None end
             else each n' (index + 1) result
         end) (Z.to_nat records) 0 result
  end.

Definition by_address (x y : Z * (Z * Z)) : Prop := x.1 <= y.1.
#[local] Instance by_address_decision x y : Decision (by_address x y).
Proof. unfold by_address. apply _. Defined.

(** What [extract_sdb] prints: a line per entry of the map, in its order. *)
Definition extract_sdb (fuel : nat) (start : Z) : M D (option (list (Z * Z * Z))) :=
  o ← read_sdb fuel ∅ start 0;
  mret (option_map (fun m : gmap Z (Z * Z) =>
    map (fun '(a, (v, v')) => (a, v, v')) (merge_sort by_address (map_to_list m))) o).
End Extract.
