(* ===== verification/EbSlave.v ===== *)
(** * The etherbone slave of the software timing receiver (src/saft-software-tr.cpp)

    The pseudo-terminal side: words of etherbone are read, executed one per round of
    the main loop, and answered when all that was read has been answered.  What is
    printed is left out; [std_logic_t] is only used with the values 0 and 1. *)
From S2P Require Import Prelude Bus EcaHw EcaOps SoftEca SoftDevices.
Local Open Scope Z_scope.

(** The result of [poll], the result and the bytes of [read] (with what the array
    held behind them), [write], and closing and opening of the terminal, which may
    fail to be put into raw mode. *)
Inductive Poll := Nothing | HangUp | Readable.
Inductive ReadResult := Again | Failed | Got (bytes behind : list Z).
Class Pty (P : Type) := {
  pty_poll : P -> Poll * P;
  pty_read : P -> ReadResult * P;
  pty_write : list Z -> P -> P;
  pty_close : P -> P;
  pty_open : P -> bool * P
}.

(** What is behind the bridge: one access (address, write, data, the value of
    [dat_out] before), and the flag that ends the program. *)
Class Wishbone (W : Type) := {
  wb_access : Z -> bool -> Z -> Z -> W -> outcome (Response * W);
  wb_reset : W -> bool
}.

Record Config := mkConfig { eb_sdb_adr : Z; eb_msi_adr_first : Z; eb_msi_adr_last : Z; poll_msis : bool }.

(** ** State *)
Record Buffers := mkBuffers {
  input_word_buffer : list Z; input_word_buffer2 : list Z; output_word_buffer : list Z; word_count : Z
}.
Record Header := mkHeader {
  eb_flag_bca : bool; eb_flag_rca : bool; eb_flag_rff : bool; eb_flag_cyc : bool; eb_flag_wca : bool; eb_flag_wff : bool;
  eb_byte_en : Z; eb_wcount : Z; eb_rcount : Z; new_header : Z
}.
Record Registers := mkRegisters {
  error_shift_reg : Z; msi_queue : list (Z * Z); msi_adr : Z; msi_dat : Z; msi_cnt : Z;
  msi_slave_out_ack : bool; msi_slave_out_err : bool
}.
Inductive state_t :=
  EB_SLAVE_STATE_IDLE | EB_SLAVE_STATE_EB_HEADER | EB_SLAVE_STATE_EB_CONFIG_FIRST | EB_SLAVE_STATE_EB_CONFIG_REST |
  EB_SLAVE_STATE_EB_WISHBONE_FIRST | EB_SLAVE_STATE_EB_WISHBONE_REST.

(** [ack] and [comment] are never looked at. *)
Record wb_stb := mkStb {
  stb_adr : Z; stb_dat : Z; stb_we : bool; stb_err : bool; passthrough : bool; stb_zero : bool; stb_end_cyc : bool;
  stb_new_header : option Z
}.

Record EBslave := mkSlave {
  bufs : Buffers; hdr : Header; base_write_adr : Z; base_ret_adr : Z; regs : Registers; state : state_t; strobe : bool;
  wb_stbs : list wb_stb; wb_wait_for_acks : list wb_stb; shut_down : bool
}.

Definition set_bufs b s := mkSlave b (hdr s) (base_write_adr s) (base_ret_adr s) (regs s) (state s) (strobe s) (wb_stbs s) (wb_wait_for_acks s) (shut_down s).
Definition set_hdr h s := mkSlave (bufs s) h (base_write_adr s) (base_ret_adr s) (regs s) (state s) (strobe s) (wb_stbs s) (wb_wait_for_acks s) (shut_down s).
Definition set_base_write a s := mkSlave (bufs s) (hdr s) a (base_ret_adr s) (regs s) (state s) (strobe s) (wb_stbs s) (wb_wait_for_acks s) (shut_down s).
Definition set_base_ret a s := mkSlave (bufs s) (hdr s) (base_write_adr s) a (regs s) (state s) (strobe s) (wb_stbs s) (wb_wait_for_acks s) (shut_down s).
Definition set_regs r s := mkSlave (bufs s) (hdr s) (base_write_adr s) (base_ret_adr s) r (state s) (strobe s) (wb_stbs s) (wb_wait_for_acks s) (shut_down s).
Definition set_state t s := mkSlave (bufs s) (hdr s) (base_write_adr s) (base_ret_adr s) (regs s) t (strobe s) (wb_stbs s) (wb_wait_for_acks s) (shut_down s).
Definition set_strobe t s := mkSlave (bufs s) (hdr s) (base_write_adr s) (base_ret_adr s) (regs s) (state s) t (wb_stbs s) (wb_wait_for_acks s) (shut_down s).
Definition set_queues q w s := mkSlave (bufs s) (hdr s) (base_write_adr s) (base_ret_adr s) (regs s) (state s) (strobe s) q w (shut_down s).
Definition shutdown s := mkSlave (bufs s) (hdr s) (base_write_adr s) (base_ret_adr s) (regs s) (state s) (strobe s) (wb_stbs s) (wb_wait_for_acks s) true.

Definition set_error_shift e r := mkRegisters e (msi_queue r) (msi_adr r) (msi_dat r) (msi_cnt r) (msi_slave_out_ack r) (msi_slave_out_err r).
Definition set_msi_queue q r := mkRegisters (error_shift_reg r) q (msi_adr r) (msi_dat r) (msi_cnt r) (msi_slave_out_ack r) (msi_slave_out_err r).
Definition set_counts w r h := mkHeader (eb_flag_bca h) (eb_flag_rca h) (eb_flag_rff h) (eb_flag_cyc h) (eb_flag_wca h) (eb_flag_wff h) (eb_byte_en h) w r (new_header h).
Definition dec_wcount h := set_counts (unsigned_wrap 8 (eb_wcount h - 1)) (eb_rcount h) h.
Definition dec_rcount h := set_counts (eb_wcount h) (unsigned_wrap 8 (eb_rcount h - 1)) h.

(** [error_shift_reg = (error_shift_reg << 1) | err] *)
Definition shift_error (err : Z) (r : Registers) : Registers :=
  set_error_shift (Z.lor (u32 (Z.shiftl (error_shift_reg r) 1)) err) r.

Definition push_msi (adr dat : Z) (r : Registers) : Registers := set_msi_queue (msi_queue r ++ [(adr, dat)]) r.

(** The slave for the interrupts: its answer of a clock cycle is there in the
    next. *)
Definition msi_slave_in (cyc stb we : bool) (adr dat : Z) (r : Registers) : Registers :=
  let answer ack err r := mkRegisters (error_shift_reg r) (msi_queue r) (msi_adr r) (msi_dat r) (msi_cnt r) ack err in
  if cyc && stb then
    if we then push_msi adr dat (answer true false r) else answer false true r
  else answer false false r.
(** [ack], [err], [rty], [stall], [dat] *)
Definition msi_slave_out (r : Registers) : bool * bool * bool * bool * Z :=
  (msi_slave_out_ack r, msi_slave_out_err r, false, false, 0).

(** A word of a buffer of bytes, and back. *)
Definition word_be (a b c d : Z) : Z := Z.lor (Z.shiftl (Z.lor (Z.shiftl (Z.lor (Z.shiftl a 8) b) 8) c) 8) d.
Definition bytes_be (w : Z) : list Z := map (fun i => unsigned_wrap 8 (Z.shiftr w (8 * (3 - i)))) [0; 1; 2; 3].

(** One word per four bytes; the last one may reach behind what was read. *)
Fixpoint words_be (bytes behind : list Z) : list Z :=
  match bytes with
  | a :: b :: c :: d :: bytes' => word_be a b c d :: words_be bytes' behind
  | [a; b; c] => [word_be a b c (nth 0 behind 0)]
  | [a; b] => [word_be a b (nth 0 behind 0) (nth 1 behind 0)]
  | [a] => [word_be a (nth 0 behind 0) (nth 1 behind 0) (nth 2 behind 0)]
  | [] => []
  end.

Section Slave.
Context {P : Type} `{Pty P}.
Variable cfg : Config.

Definition init (s : EBslave) (p : P) : EBslave * P :=
  let s := set_bufs (mkBuffers [] [] [] (word_count (bufs s))) (set_queues [] [] s) in
  if shut_down s then (s, p) else
  let '(raw, p) := pty_open p in
  if negb raw then (s, p) else
  (set_regs (set_error_shift 0 (regs s)) (set_state EB_SLAVE_STATE_IDLE (set_bufs (mkBuffers [] [] [] 0) s)), p).

(** The object before the constructor ran has any values. *)
Definition EBslave_new (raw : EBslave) (p : P) : EBslave * P :=
  let h := hdr raw in
  init (mkSlave (mkBuffers [] [] [] (word_count (bufs raw)))
          (mkHeader false false false false false false (eb_byte_en h) (eb_wcount h) (eb_rcount h) (new_header h))
          (base_write_adr raw) (base_ret_adr raw) (set_msi_queue [] (regs raw)) (state raw) (strobe raw) [] [] false) p.

Definition fill_input_buffer (s : EBslave) (p : P) : EBslave * P :=
  match pty_poll p with
  | (Nothing, p) => (s, p)
  | (HangUp, p) => init s (pty_close p)
  | (Readable, p) =>
      match pty_read p with
      | (Again, p) => (s, p)
      | (Failed, p) => init s (pty_close p)
      | (Got bytes behind, p) =>
          if (4 <=? length bytes)%nat then
            let ws := words_be bytes behind in
            let b := bufs s in
            (set_bufs (mkBuffers (input_word_buffer b ++ ws) (input_word_buffer2 b ++ ws) (output_word_buffer b)
                         (u32 (word_count b + Z.of_nat (length ws)))) s, p)
          else (s, p)
      end
  end.

(** The loop of [next_word] comes back to its top at most once. *)
Definition pop_word (s : EBslave) : option (Z * EBslave) :=
  let b := bufs s in
  match input_word_buffer b with
  | w :: ws => Some (w, set_bufs (mkBuffers ws (input_word_buffer2 b) (output_word_buffer b) (word_count b)) s)
  | [] => None
  end.
Definition next_word (s : EBslave) (p : P) : option Z * EBslave * P :=
  match pop_word s with
  | Some (w, s) => (Some w, s, p)
  | None =>
      let '(s, p) := fill_input_buffer s p in
      match pop_word s with Some (w, s) => (Some w, s, p) | None => (None, s, p) end
  end.

Definition push_stb (b : wb_stb) (s : EBslave) : EBslave := set_queues (wb_stbs s ++ [b]) (wb_wait_for_acks s) s.
(** Not a real strobe, just a pass-through. *)
Definition pass (dat : Z) (err end_cyc : bool) : wb_stb := mkStb dat dat false err true false end_cyc None.
Definition push_pass (dat : Z) (err : bool) (s : EBslave) : EBslave := push_stb (pass dat err (eb_flag_cyc (hdr s))) s.

(** [EB_SLAVE_STATE_EB_HEADER]: the fields of the header and its answer. *)
Definition parse_header (word : Z) (h : Header) : Header :=
  mkHeader (Z.testbit word 31) (Z.testbit word 30) (Z.testbit word 29) (Z.testbit word 27) (Z.testbit word 26) (Z.testbit word 25)
    (Z.shiftr (Z.land word 0x00ff0000) 16) (Z.shiftr (Z.land word 0x0000ff00) 8) (Z.land word 0x000000ff) (new_header h).
Definition response_of (word : Z) (h : Header) : Z :=
  Z.lor (Z.lor (Z.lor (Z.lor (Z.land word 0x00ff0000) (Z.shiftl (Z.land word 0x000000ff) 8))
    (Z.shiftl (Z.b2z (eb_flag_cyc h)) 27)) (Z.shiftl (Z.b2z (eb_flag_bca h)) 26)) (Z.shiftl (Z.b2z (eb_flag_rff h)) 25).
Definition set_new_header n h := mkHeader (eb_flag_bca h) (eb_flag_rca h) (eb_flag_rff h) (eb_flag_cyc h) (eb_flag_wca h) (eb_flag_wff h) (eb_byte_en h) (eb_wcount h) (eb_rcount h) n.

Definition on_header (word : Z) (s : EBslave) : EBslave :=
  let h := parse_header word (hdr s) in
  let response := response_of word h in
  let writes := 0 <? eb_wcount h in
  let h := if writes then set_new_header (Z.land response 0xffffff00) h else h in
  let s := push_pass (if writes then 0 else response) false (set_hdr h s) in
  set_state (if (if writes then eb_flag_wca h else eb_flag_rca h) then EB_SLAVE_STATE_EB_CONFIG_FIRST
             else EB_SLAVE_STATE_EB_WISHBONE_FIRST) s.

(** A register of the configuration space: the word, the error, the registers. *)
Definition config_read (read_adr : Z) (r : Registers) : Z * bool * Registers :=
  if read_adr =? 0x0 then (error_shift_reg r, false, set_error_shift 0 r)
  else if read_adr =? 0xc then (eb_sdb_adr cfg, false, r)
  else if read_adr =? 0x2c then (1, false, r)
  else if read_adr =? 0x34 then (eb_msi_adr_first cfg, false, r)
  else if read_adr =? 0x3c then (eb_msi_adr_last cfg, false, r)
  else if read_adr =? 0x40 then
    match msi_queue r with
    | (a, d) :: q =>
        if poll_msis cfg then
          (a, false, mkRegisters (error_shift_reg r) q a d (if (0 <? length q)%nat then 3 else 1) (msi_slave_out_ack r) (msi_slave_out_err r))
        else (msi_adr r, false, mkRegisters (error_shift_reg r) (msi_queue r) (msi_adr r) (msi_dat r) 0 (msi_slave_out_ack r) (msi_slave_out_err r))
    | [] => (msi_adr r, false, mkRegisters (error_shift_reg r) [] (msi_adr r) (msi_dat r) 0 (msi_slave_out_ack r) (msi_slave_out_err r))
    end
  else if read_adr =? 0x44 then (msi_dat r, false, r)
  else if read_adr =? 0x48 then (msi_cnt r, false, r)
  else (0, true, r).

(** [EB_SLAVE_STATE_EB_CONFIG_REST] and [EB_SLAVE_STATE_EB_WISHBONE_REST] with a
    word. *)
Definition on_config_write (s : EBslave) : EBslave :=
  let h := dec_wcount (hdr s) in
  let s := push_pass (if eb_wcount h =? 0 then new_header h else 0) false (set_hdr h s) in
  if eb_wcount h =? 0 then
    set_state (if eb_rcount h =? 0 then EB_SLAVE_STATE_EB_HEADER else EB_SLAVE_STATE_EB_CONFIG_FIRST) s
  else s.
Definition on_config_read (read_adr : Z) (s : EBslave) : EBslave :=
  let h := dec_rcount (hdr s) in
  let '(v, err, r) := config_read read_adr (regs s) in
  let s := push_pass v err (set_regs r (set_hdr h s)) in
  if eb_rcount h =? 0 then set_state EB_SLAVE_STATE_EB_HEADER s else s.
Definition on_write (write_val : Z) (s : EBslave) : EBslave :=
  let h := dec_wcount (hdr s) in
  let last := eb_wcount h =? 0 in
  let s := push_stb (mkStb (base_write_adr s) write_val true false false (negb last) (eb_flag_cyc h)
                       (if last then Some (new_header h) else None)) (set_hdr h s) in
  let s := if eb_flag_wff h then s else set_base_write (u32 (base_write_adr s + 4)) s in
  if last then
    set_state (if eb_rcount h =? 0 then EB_SLAVE_STATE_EB_HEADER
               else if eb_flag_rca h then EB_SLAVE_STATE_EB_CONFIG_FIRST else EB_SLAVE_STATE_EB_WISHBONE_FIRST) s
  else s.
Definition on_read (read_adr : Z) (s : EBslave) : EBslave :=
  let h := dec_rcount (hdr s) in
  let s := push_stb (mkStb read_adr 0 false false false false (eb_flag_cyc h) None) (set_hdr h s) in
  if eb_rcount h =? 0 then set_state EB_SLAVE_STATE_EB_HEADER s else s.

(** What a word does in a state other than idle; [None]: the state goes to the
    next header, or stays, without one. *)
Definition on_word (s : EBslave) : option (Z -> EBslave -> EBslave) :=
  let writes := 0 <? eb_wcount (hdr s) in
  let reads := 0 <? eb_rcount (hdr s) in
  match state s with
  | EB_SLAVE_STATE_IDLE => None
  | EB_SLAVE_STATE_EB_HEADER => Some on_header
  | EB_SLAVE_STATE_EB_CONFIG_FIRST =>
      if writes then Some (fun _ s => set_state EB_SLAVE_STATE_EB_CONFIG_REST (push_pass 0 false s))
      else if reads then Some (fun w s => set_state EB_SLAVE_STATE_EB_CONFIG_REST (push_pass w false s))
      else None
  | EB_SLAVE_STATE_EB_CONFIG_REST =>
      if writes then Some (fun _ => on_config_write) else if reads then Some on_config_read else None
  | EB_SLAVE_STATE_EB_WISHBONE_FIRST =>
      if writes then Some (fun w s => set_state EB_SLAVE_STATE_EB_WISHBONE_REST (push_pass 0 false (set_base_write w s)))
      else if reads then Some (fun w s => set_state EB_SLAVE_STATE_EB_WISHBONE_REST (push_pass w false (set_base_ret w s)))
      else None
  | EB_SLAVE_STATE_EB_WISHBONE_REST =>
      if writes then Some on_write else if reads then Some on_read else None
  end.

(** The hello must be in one piece: the second word is not waited for. *)
Definition on_idle (s : EBslave) (p : P) : EBslave * P :=
  match next_word s p with
  | (Some word, s, p) =>
      if word =? 0x4e6f11ff then
        let s := push_stb (pass 0x4e6f1644 false false) s in
        match next_word s p with
        | (Some word, s, p) => (set_state EB_SLAVE_STATE_EB_HEADER (push_stb (pass word false false) s), p)
        | (None, s, p) => (s, p)
        end
      else (s, p)
  | (None, s, p) => (s, p)
  end.

Definition step_state (s : EBslave) (p : P) : EBslave * P :=
  match state s with
  | EB_SLAVE_STATE_IDLE => on_idle s p
  | _ =>
      match on_word s with
      | Some f =>
          match next_word s p with
          | (Some word, s, p) => (f word s, p)
          | (None, s, p) => (s, p)
          end
      | None =>
          match state s with
          | EB_SLAVE_STATE_EB_CONFIG_FIRST | EB_SLAVE_STATE_EB_WISHBONE_FIRST => (set_state EB_SLAVE_STATE_EB_HEADER s, p)
          | _ => (s, p)
          end
      end
  end.

Definition push_output (w : Z) (s : EBslave) : EBslave :=
  let b := bufs s in
  set_bufs (mkBuffers (input_word_buffer b) (input_word_buffer2 b) (output_word_buffer b ++ [w]) (word_count b)) s.

(** The pass-throughs at the front, and the rest. *)
Fixpoint span_pass (l : list wb_stb) : list wb_stb * list wb_stb :=
  match l with
  | b :: l' => if passthrough b then let '(ps, rest) := span_pass l' in (b :: ps, rest) else ([], l)
  | [] => ([], [])
  end.

(** With the flag that is returned: the end of a cycle was among them. *)
Definition handle_pass_through (s : EBslave) : bool * EBslave :=
  let '(ps, stbs) := span_pass (wb_stbs s) in
  let '(qs, waits) := span_pass (wb_wait_for_acks s ++ ps) in
  let answer s b := set_regs (shift_error (Z.b2z (stb_err b)) (regs s)) (push_output (stb_dat b) s) in
  (existsb stb_end_cyc ps, foldl answer (set_queues stbs waits s) qs).

(** The loop over the answers; every one takes a word off the copy of the input. *)
Fixpoint drain (out in2 : list Z) (wc : Z) : outcome (list Z * list Z * Z) :=
  match out with
  | [] => Ret ([], in2, wc)
  | w :: out' =>
      match in2 with
      | [] => Crash "input_word_buffer2.pop_front"
      | _ :: in2' =>
          '(bs, in2, wc) ← drain out' in2' (u32 (wc - 1));
          mret (bytes_be w ++ bs, in2, wc)
      end
  end.

Definition msi_bytes (m : Z * Z) : list Z :=
  [0xa8; 0x0f; 0x01; 0x00] ++ bytes_be (u32 (m.1 - eb_msi_adr_first cfg)) ++ bytes_be m.2.

(** Nothing is written when there is nothing to write. *)
Definition write_bytes (bs : list Z) (p : P) : P := match bs with [] => p | _ => pty_write bs p end.

Definition send_output_buffer (s : EBslave) (p : P) : outcome (EBslave * P) :=
  let b := bufs s in
  '(s, p) ←
    (if (length (wb_wait_for_acks s) =? 0)%nat && (word_count b <=? Z.of_nat (length (output_word_buffer b))) then
       '(bs, in2, wc) ← drain (output_word_buffer b) (input_word_buffer2 b) (word_count b);
       mret (set_bufs (mkBuffers (input_word_buffer b) in2 [] wc) s, write_bytes bs p)
     else mret (s, p));
  if (word_count (bufs s) =? 0) && negb (poll_msis cfg) then
    mret (set_regs (set_msi_queue [] (regs s)) s, foldl (fun p m => pty_write (msi_bytes m) p) p (msi_queue (regs s)))
  else mret (s, p).

(** The wires of the bridge *)
Record Wires := mkWires { o_cyc : bool; o_stb : bool; o_we : bool; o_adr : Z; o_dat : Z; o_sel : Z; o_end_cyc : bool }.

Definition master_out (s : EBslave) (p : P) : outcome (Wires * EBslave * P) :=
  let '(s, p) := step_state s p in
  let '(end_cyc, s) := handle_pass_through s in
  '(s, p) ← send_output_buffer s p;
  let cyc := (0 <? length (wb_stbs s))%nat || (0 <? length (wb_wait_for_acks s))%nat in
  match wb_stbs s with
  | b :: _ => mret (mkWires cyc true (stb_we b) (stb_adr b) (stb_dat b) 0xf (end_cyc || stb_end_cyc b), set_strobe true s, p)
  | [] => mret (mkWires cyc false false 0xaffe1234 0xbabe1234 0xf end_cyc, set_strobe false s, p)
  end.

Definition STD_LOGIC_1 : Z := 3.

(** Called with [stb], [ack], [err], '0' for [ack], [err], [rty], [stall]. *)
Definition master_in (ack err rty stall : bool) (dat : Z) (s : EBslave) (p : P) : outcome (bool * EBslave * P) :=
  let '(end_cyc, s) := handle_pass_through s in
  let '(end_cyc, s) :=
    match wb_stbs s with
    | b :: stbs =>
        if strobe s && negb stall then (end_cyc || stb_end_cyc b, set_queues stbs (wb_wait_for_acks s ++ [b]) s)
        else (end_cyc, s)
    | [] => (end_cyc, s)
    end in
  let s :=
    match wb_wait_for_acks s with
    | b :: waits =>
        if ack || err then
          let out :=
            if stb_we b then
              if stb_zero b then 0 else match stb_new_header b with Some h => h | None => stb_dat b end
            else dat in
          let s := set_queues (wb_stbs s) waits (push_output out s) in
          (* the inner variable hides the argument *)
          let err := 0 in
          let err := if err =? STD_LOGIC_1 then 1 else err in
          set_regs (shift_error err (regs s)) s
        else s
    | [] => s
    end in
  '(s, p) ← send_output_buffer s p;
  mret (end_cyc, s, p).

(** ** The main loop *)
Context {W : Type} `{Wishbone W}.

Record Loop := mkLoop {
  lp_slave : EBslave; lp_pty : P; lp_board : W; lp_ack : bool; lp_err : bool; lp_dat_out : Z; lp_countdown : Z
}.

Definition running (l : Loop) : bool := negb (wb_reset (lp_board l)) || (0 <? lp_countdown l).

Definition iteration (l : Loop) : outcome Loop :=
  let reset := wb_reset (lp_board l) in
  let s := if reset then shutdown (lp_slave l) else lp_slave l in
  let countdown := if reset then lp_countdown l - 1 else lp_countdown l in
  '(o, s, p) ← master_out s (lp_pty l);
  '(ack, err, dat_out, s, w) ←
    (if o_cyc o && o_stb o then
       '(r, w) ← wb_access (o_adr o) (o_we o) (o_dat o) (lp_dat_out l) (lp_board l);
       mret (rs_ack r, rs_err r, rs_dat r, set_regs (foldl (fun r m => push_msi m.1 m.2 r) (regs s) (rs_msis r)) s, w)
     else mret (lp_ack l, lp_err l, lp_dat_out l, s, lp_board l));
  '(_, s, p) ← master_in (o_stb o) ack err false dat_out s p;
  mret (mkLoop s p w ack err dat_out countdown).

Fixpoint iterate (n : nat) (l : Loop) : outcome Loop :=
  match n with O => mret l | S n' => l ← iteration l; iterate n' l end.

(** The loop of [main]; [None]: not over after [fuel] rounds. *)
Fixpoint main_loop (fuel : nat) (l : Loop) : outcome (option Loop) :=
  if running l then
    match fuel with O => mret None | S fuel' => l ← iteration l; main_loop fuel' l end
  else mret (Some l).
End Slave.

(** ** The board of the simulator: its devices, what they share, and the clock (a
    reading per access) *)
Record Board := mkBoard { bd_devices : list Device; bd_sim : Sim; bd_times : list Z }.

Section TheBoard.
Variable sort_events : list Event -> list Event.
Variable fuel : nat.

Definition board_access (adr : Z) (we : bool) (dat dat_out : Z) (b : Board) : outcome (Response * Board) :=
  '(r, ds, sim) ← device_access sort_events fuel (hd 0 (bd_times b)) adr we dat dat_out [] (bd_devices b) (bd_sim b);
  mret (r, mkBoard ds sim (tl (bd_times b))).

Definition board_wishbone : Wishbone Board := {|
  wb_access := board_access; wb_reset := fun b => sim_reset (bd_sim b)
|}.
End TheBoard.
