(* ===== verification/EbSlaveCorrect.v ===== *)
(** * What the etherbone slave of the simulator does with a packet

    Requests that are in the buffer are executed one word per round of the main
    loop, in order, each word giving one word of the answer; the answer goes out in
    one piece after the last word. *)
From S2P Require Import Prelude Bus EcaHw EcaOps SoftEca SoftDevices EbSlave.
Local Open Scope Z_scope.

Section Rounds.
Context {P W : Type} `{Pty P, Wishbone W}.
Variable cfg : Config.

(** ** The abstract state between two rounds: words to come, words of the answer,
    what is behind the bridge, the registers of the slave, the terminal *)
Record Exec := mkExec { x_board : W; x_dat : Z; x_regs : Registers }.
Record View := mkView { v_in : list Z; v_out : list Z; v_exec : Exec; v_pty : P }.

Definition set_x_regs r x := mkExec (x_board x) (x_dat x) r.

Definition counted (b : Buffers) (pending : nat) : Prop :=
  word_count b = Z.of_nat (length (input_word_buffer b) + length (output_word_buffer b) + pending) /\
  length (input_word_buffer2 b) = (length (input_word_buffer b) + length (output_word_buffer b) + pending)%nat /\
  word_count b < 2 ^ 32.

Record slave_view (s : EBslave) (ins outs : list Z) (r : Registers) : Prop := {
  sv_in : input_word_buffer (bufs s) = ins;
  sv_out : output_word_buffer (bufs s) = outs;
  sv_counted : counted (bufs s) 0;
  sv_stbs : wb_stbs s = [];
  sv_waits : wb_wait_for_acks s = [];
  sv_regs : regs s = r
}.

Record holds (l : Loop (P := P) (W := W)) (v : View) : Prop := {
  h_slave : slave_view (lp_slave l) (v_in v) (v_out v) (x_regs (v_exec v));
  h_pty : lp_pty l = v_pty v;
  h_board : lp_board l = x_board (v_exec v);
  h_dat : lp_dat_out l = x_dat (v_exec v)
}.

(** What steers the next words: state, header, address of the next write. *)
Definition ctl (s : EBslave) : state_t * Header * Z := (state s, hdr s, base_write_adr s).

(** When all words are answered, the answer goes out, and then the interrupts
    unless they are polled. *)
Definition settle (v : View) : View :=
  match v_in v with
  | [] =>
      let x := v_exec v in
      let p := write_bytes (concat (map bytes_be (v_out v))) (v_pty v) in
      if poll_msis cfg then mkView [] [] x p
      else mkView [] [] (set_x_regs (set_msi_queue [] (x_regs x)) x)
             (foldl (fun p m => pty_write (msi_bytes cfg m) p) p (msi_queue (x_regs x)))
  | _ => v
  end.

(** ** Sending *)
Lemma drain_counted out : forall in2 k, length in2 = (length out + k)%nat -> Z.of_nat (length out + k) < 2 ^ 32 ->
  drain out in2 (Z.of_nat (length out + k)) = Ret (concat (map bytes_be out), drop (length out) in2, Z.of_nat k).
Proof.
  induction out as [|w out IH]; intros in2 k Hl Hb; cbn [drain length]; [done|].
  destruct in2 as [|w2 in2]; cbn in Hl; [lia|].
  change (length (w :: out)) with (S (length out)) in Hb.
  replace (u32 (Z.of_nat (S (length out) + k) - 1)) with (Z.of_nat (length out + k))
    by (rewrite unsigned_wrap_small; lia).
  rewrite IH; [done|lia..].
Qed.

Lemma set_bufs_self s : set_bufs (bufs s) s = s.
Proof. by destruct s. Qed.
Lemma set_regs_self s : set_regs (regs s) s = s.
Proof. by destruct s. Qed.

Lemma send_waits s p k : counted (bufs s) (S k) -> send_output_buffer cfg s p = Ret (s, p).
Proof.
  intros (Hc & _ & _). unfold send_output_buffer.
  assert ((word_count (bufs s) <=? Z.of_nat (length (output_word_buffer (bufs s)))) = false) as -> by lia.
  assert ((word_count (bufs s) =? 0) = false) as E by lia.
  rewrite andb_false_r. cbn. by rewrite E.
Qed.

(** The state of the slave and the terminal behind [settle]. *)
Lemma send_settles s p ins outs r x : slave_view s ins outs r -> x_regs x = r ->
  let v := settle (mkView ins outs x p) in
  exists s', send_output_buffer cfg s p = Ret (s', v_pty v) /\
  slave_view s' (v_in v) (v_out v) (x_regs (v_exec v)) /\ ctl s' = ctl s /\
  x_board (v_exec v) = x_board x /\ x_dat (v_exec v) = x_dat x.
Proof.
  intros [Hi Ho Hc Hs Hw Hr] <-. unfold send_output_buffer, settle. cbn.
  destruct Hc as (Hwc & Hin2 & Hb). rewrite Hi, Ho, Nat.add_0_r in *. rewrite Hw. cbn.
  destruct ins as [|w ins].
  - rewrite Hwc. cbn. replace (_ <=? _) with true by lia.
    pose proof (drain_counted outs (input_word_buffer2 (bufs s)) 0) as Hd.
    rewrite !Nat.add_0_r in Hd. change (Z.of_nat 0) with 0 in Hd. rewrite Hd by (cbn in *; lia). cbn.
    assert (counted (mkBuffers [] (drop (length outs) (input_word_buffer2 (bufs s))) [] 0) 0) as Hd'
      by (unfold counted; cbn; rewrite length_drop; cbn in Hin2; lia).
    rewrite <- Hr. destruct (poll_msis cfg); cbn; eexists; (split; [done|]); (split; [|done]); by split.
  - change (length (w :: ins)) with (S (length ins)) in *.
    assert ((word_count (bufs s) <=? Z.of_nat (length outs)) = false) as -> by lia.
    assert ((word_count (bufs s) =? 0) = false) as E by lia. cbn. rewrite E. cbn.
    exists s. split; [done|]. split; [|done]. split; auto.
    unfold counted. rewrite Hi, Ho. cbn [length]. lia.
Qed.

Lemma settle_idemp v : settle (settle v) = settle v.
Proof.
  unfold settle. destruct v as [[|w ins] outs x p]; cbn; [|done].
  destruct (poll_msis cfg) eqn:E; cbn; [done|]. by destruct x as [w d []].
Qed.
Lemma settle_more w ins outs x p : settle (mkView (w :: ins) outs x p) = mkView (w :: ins) outs x p.
Proof. done. Qed.

(** ** Rounds of the main loop *)
Definition awake (l : Loop (P := P) (W := W)) : EBslave := if wb_reset (lp_board l) then shutdown (lp_slave l) else lp_slave l.
Definition pass_error (r : Registers) (b : wb_stb) : Registers := shift_error (Z.b2z (stb_err b)) r.
Definition add_output (ws : list Z) (b : Buffers) : Buffers :=
  mkBuffers (input_word_buffer b) (input_word_buffer2 b) (output_word_buffer b ++ ws) (word_count b).

Lemma awake_view l ins outs r : slave_view (lp_slave l) ins outs r -> slave_view (awake l) ins outs r.
Proof. unfold awake. intros []. destruct (wb_reset (lp_board l)); by split. Qed.
Lemma awake_ctl l : ctl (awake l) = ctl (lp_slave l).
Proof. unfold awake. by destruct (wb_reset (lp_board l)). Qed.

Lemma span_pass_all ps rest : Forall (fun b => passthrough b = true) ps ->
  match rest with b :: _ => passthrough b = false | [] => True end ->
  span_pass (ps ++ rest) = (ps, rest).
Proof.
  intros Hps Hr. induction Hps as [|b ps Hb _ IH]; cbn.
  - destruct rest as [|b rest]; cbn; [done|by rewrite Hr].
  - by rewrite Hb, IH.
Qed.

Lemma answers_passed ps : forall s,
  foldl (fun s b => set_regs (shift_error (Z.b2z (stb_err b)) (regs s)) (push_output (stb_dat b) s)) s ps =
  set_regs (foldl pass_error (regs s) ps) (set_bufs (add_output (map stb_dat ps) (bufs s)) s).
Proof.
  induction ps as [|b ps IH]; intros s; cbn.
  - destruct s as [[] ? ? ? ? ? ? ? ? ?]. cbn. unfold add_output. cbn. by rewrite app_nil_r.
  - rewrite IH. unfold add_output. cbn. by rewrite <- (assoc_L (++)).
Qed.

Lemma handle_passes s ps rest : wb_stbs s = ps ++ rest -> wb_wait_for_acks s = [] ->
  Forall (fun b => passthrough b = true) ps ->
  match rest with b :: _ => passthrough b = false | [] => True end ->
  handle_pass_through s =
  (existsb stb_end_cyc ps,
   set_queues rest [] (set_regs (foldl pass_error (regs s) ps) (set_bufs (add_output (map stb_dat ps) (bufs s)) s))).
Proof.
  intros Hs Hw Hps Hr. unfold handle_pass_through. rewrite Hs, span_pass_all by done.
  rewrite Hw. cbn. rewrite <- (app_nil_r ps), span_pass_all, !app_nil_r by done.
  by rewrite answers_passed.
Qed.

Lemma handle_nothing s : wb_stbs s = [] -> wb_wait_for_acks s = [] -> handle_pass_through s = (false, s).
Proof. intros Hs Hw. destruct s as [[] ? ? ? [] ? ? ? ? ?]. cbn in *. by subst. Qed.

Lemma round_passes l s p ps ins outs x :
  step_state cfg (awake l) (lp_pty l) = (s, p) ->
  wb_stbs s = ps -> wb_wait_for_acks s = [] -> Forall (fun b => passthrough b = true) ps ->
  input_word_buffer (bufs s) = ins -> output_word_buffer (bufs s) = outs -> counted (bufs s) (length ps) ->
  regs s = x_regs x -> lp_board l = x_board x -> lp_dat_out l = x_dat x ->
  exists l', iteration cfg l = Ret l' /\
  holds l' (settle (mkView ins (outs ++ map stb_dat ps) (set_x_regs (foldl pass_error (x_regs x) ps) x) p)) /\
  ctl (lp_slave l') = ctl s.
Proof.
  intros Hst Hs Hw Hps Hi Ho Hc Hr Hb Hd. set (r' := foldl pass_error (x_regs x) ps). set (x' := set_x_regs r' x).
  unfold iteration, master_out. change (if wb_reset (lp_board l) then shutdown (lp_slave l) else lp_slave l) with (awake l). rewrite Hst.
  rewrite (handle_passes s ps []) by (by rewrite ?app_nil_r). rewrite Hr.
  set (s1 := set_queues [] [] _).
  assert (slave_view s1 ins (outs ++ map stb_dat ps) r') as Hv1.
  { subst s1 ins outs. destruct Hc as (? & ? & ?).
    split; try done. unfold counted. cbn. rewrite length_app, length_map. lia. }
  destruct (send_settles s1 p _ _ _ x' Hv1 eq_refl) as (s2 & E2 & Hv2 & Hctl2 & Hb2 & Hd2).
  set (v := settle _) in *. cbv beta iota. rewrite E2. cbn. destruct Hv2 as [Hi2 Ho2 Hc2 Hs2 Hw2 Hr2].
  rewrite Hs2. cbn. rewrite andb_false_r. cbn. unfold master_in.
  rewrite (handle_nothing (set_strobe false s2)) by done. cbn. rewrite Hs2. cbn. rewrite Hw2.
  assert (slave_view (set_strobe false s2) (v_in v) (v_out v) (x_regs (v_exec v))) as Hv3 by (by split).
  destruct (send_settles (set_strobe false s2) (v_pty v) _ _ _ (v_exec v) Hv3 eq_refl) as (s4 & E4 & Hv4 & Hctl4 & Hb4 & Hd4).
  replace (mkView (v_in v) (v_out v) (v_exec v) (v_pty v)) with v in * by (by destruct v).
  replace (settle v) with v in * by (symmetry; apply settle_idemp).
  rewrite E4. cbn. eexists. split; [done|]. split; [|].
  - split; cbn; [done|done|by rewrite Hb2|by rewrite Hd2].
  - cbn. rewrite Hctl4. change (ctl (set_strobe false s2)) with (ctl s2). by rewrite Hctl2.
Qed.

Definition answer_of (b : wb_stb) (dat : Z) : Z :=
  if stb_we b then if stb_zero b then 0 else match stb_new_header b with Some h => h | None => stb_dat b end else dat.
Definition take_msis (msis : list (Z * Z)) (r : Registers) : Registers := foldl (fun r m => push_msi m.1 m.2 r) r msis.

Lemma round_access l s p b ins outs x rsp w :
  step_state cfg (awake l) (lp_pty l) = (s, p) ->
  wb_stbs s = [b] -> wb_wait_for_acks s = [] -> passthrough b = false ->
  input_word_buffer (bufs s) = ins -> output_word_buffer (bufs s) = outs -> counted (bufs s) 1 ->
  regs s = x_regs x -> lp_board l = x_board x -> lp_dat_out l = x_dat x ->
  wb_access (stb_adr b) (stb_we b) (stb_dat b) (x_dat x) (x_board x) = Ret (rsp, w) ->
  exists l', iteration cfg l = Ret l' /\
  holds l' (settle (mkView ins (outs ++ [answer_of b (rs_dat rsp)])
    (mkExec w (rs_dat rsp) (shift_error 0 (take_msis (rs_msis rsp) (x_regs x)))) p)) /\
  ctl (lp_slave l') = ctl s.
Proof.
  intros Hst Hs Hw Hp Hi Ho Hc Hr Hb Hd Ha. set (r' := shift_error 0 _).
  unfold iteration, master_out.
  change (if wb_reset (lp_board l) then shutdown (lp_slave l) else lp_slave l) with (awake l). rewrite Hst.
  rewrite (handle_passes s [] [b]) by done. cbv beta iota.
  assert (set_queues [b] [] (set_regs (foldl pass_error (regs s) []) (set_bufs (add_output (map stb_dat []) (bufs s)) s)) = s) as ->.
  { destruct s as [[] ? ? ? ? ? ? ? ? ?]. unfold add_output. cbn in *. subst. by rewrite app_nil_r. }
  rewrite (send_waits s p 0 Hc). cbn. rewrite Hs. cbn. rewrite Hb, Hd, Ha, Hr. cbn.
  unfold master_in. rewrite (handle_passes _ [] [b]) by done. cbn -[send_output_buffer].
  set (s1 := set_regs (shift_error 0 _) _).
  assert (slave_view s1 ins (outs ++ [answer_of b (rs_dat rsp)]) r') as Hv1.
  { destruct Hc as (? & ? & ?). rewrite Hi, Ho in *.
    split; try done; [by subst s1 outs; cbn; rewrite app_nil_r|].
    unfold counted. subst s1. cbn. rewrite app_nil_r, !length_app, Hi, Ho. cbn [length]. lia. }
  destruct (send_settles s1 p _ _ _ (mkExec w (rs_dat rsp) r') Hv1 eq_refl) as (s2 & E2 & Hv2 & Hctl2 & Hb2 & Hd2).
  rewrite E2. cbn. eexists. split; [done|]. split; [split; done|]. cbn. by rewrite Hctl2.
Qed.

(** ** A number of rounds *)
Definition runs (n : nat) (l : Loop (P := P) (W := W)) (v : View) (c : state_t * Header * Z) : Prop :=
  exists l', iterate cfg n l = Ret l' /\ holds l' v /\ ctl (lp_slave l') = c.

Lemma iterate_add n : forall m l, iterate cfg (n + m) l = iterate cfg n l ≫= iterate cfg m.
Proof.
  induction n as [|n IH]; intros m l; cbn; [done|].
  destruct (iteration cfg l) as [l1|e|why]; cbn; [apply IH|done|done].
Qed.

Lemma runs_trans n m l v c v' c' : runs n l v c ->
  (forall l1, holds l1 v -> ctl (lp_slave l1) = c -> runs m l1 v' c') -> runs (n + m) l v' c'.
Proof.
  intros (l1 & E & Hv & Hc) Hk. destruct (Hk l1 Hv Hc) as (l' & E' & Hv' & Hc').
  exists l'. split; [|done]. by rewrite iterate_add, E.
Qed.

Lemma runs_from n m l l1 v c : iterate cfg n l = Ret l1 -> runs m l1 v c -> runs (n + m) l v c.
Proof. intros E (l' & E' & ?). exists l'. split; [|done]. by rewrite iterate_add, E. Qed.

Lemma runs_one l l' v c : iteration cfg l = Ret l' -> holds l' v -> ctl (lp_slave l') = c -> runs 1 l v c.
Proof. intros E ??. exists l'. cbn. by rewrite E. Qed.

(** ** One word *)
Definition popped (s : EBslave) : EBslave :=
  let b := bufs s in set_bufs (mkBuffers (tl (input_word_buffer b)) (input_word_buffer2 b) (output_word_buffer b) (word_count b)) s.

Lemma step_word s p f word ins outs r : slave_view s (word :: ins) outs r ->
  state s <> EB_SLAVE_STATE_IDLE -> on_word cfg s = Some f ->
  step_state cfg s p = (f word (popped s), p).
Proof.
  intros [Hi Ho Hc Hs Hw Hr] Hst Hf. unfold step_state, next_word, pop_word. rewrite Hf, Hi. unfold popped. rewrite Hi.
  by destruct (state s).
Qed.

Lemma popped_counted s word ins outs r : slave_view s (word :: ins) outs r -> counted (bufs (popped s)) 1.
Proof.
  intros [Hi Ho (H1 & H2 & H3) Hs Hw Hr]. unfold popped, counted. cbn. rewrite Hi in *. cbn in *. lia.
Qed.

Definition passed (err : bool) (x : Exec) : Exec := set_x_regs (shift_error (Z.b2z err) (x_regs x)) x.

(** A word that is answered by itself. *)
Lemma word_passes l word ins outs x p f d e r :
  holds l (mkView (word :: ins) outs x p) ->
  state (lp_slave l) <> EB_SLAVE_STATE_IDLE -> on_word cfg (lp_slave l) = Some f ->
  (forall s, ctl s = ctl (lp_slave l) -> regs s = x_regs x -> wb_stbs s = [] -> wb_wait_for_acks s = [] ->
   let s' := f word s in
   bufs s' = bufs s /\ wb_stbs s' = [pass d e (eb_flag_cyc (hdr s'))] /\ wb_wait_for_acks s' = [] /\ regs s' = r /\
   ctl s' = ctl (f word (lp_slave l))) ->
  runs 1 l (settle (mkView ins (outs ++ [d]) (passed e (set_x_regs r x)) p)) (ctl (f word (lp_slave l))).
Proof.
  intros [Hv Hp Hb Hd] Hst Hf Hs. pose proof (awake_view _ _ _ _ Hv) as Hav. cbn in Hp, Hb, Hd, Hav.
  assert (on_word cfg (awake l) = Some f) as Hf' by (unfold awake; by destruct (wb_reset (lp_board l))).
  assert (state (awake l) <> EB_SLAVE_STATE_IDLE) as Hst' by (unfold awake; by destruct (wb_reset (lp_board l))).
  pose proof (step_word _ (lp_pty l) f _ _ _ _ Hav Hst' Hf') as E.
  destruct (Hs (popped (awake l))) as (Eb & Es & Ew & Er & Ec); [apply awake_ctl|apply Hav..|].
  destruct (round_passes l (f word (popped (awake l))) (lp_pty l) [pass d e (eb_flag_cyc (hdr (f word (popped (awake l)))))]
              ins outs (set_x_regs r x)) as (l' & El & Hl & Hcl); try done.
  - by constructor.
  - rewrite Eb. cbn. by rewrite (sv_in _ _ _ _ Hav).
  - rewrite Eb. cbn. by rewrite (sv_out _ _ _ _ Hav).
  - rewrite Eb. by eapply popped_counted.
  - eapply runs_one; [done| |by rewrite Hcl, Ec]. by rewrite <- Hp.
Qed.

(** A word that is an access of the bus. *)
Lemma word_accesses l word ins outs x p f b rsp w :
  holds l (mkView (word :: ins) outs x p) ->
  state (lp_slave l) <> EB_SLAVE_STATE_IDLE -> on_word cfg (lp_slave l) = Some f ->
  (forall s, ctl s = ctl (lp_slave l) -> regs s = x_regs x -> wb_stbs s = [] -> wb_wait_for_acks s = [] ->
   let s' := f word s in
   bufs s' = bufs s /\ wb_stbs s' = [b] /\ wb_wait_for_acks s' = [] /\ regs s' = x_regs x /\
   ctl s' = ctl (f word (lp_slave l))) ->
  passthrough b = false ->
  wb_access (stb_adr b) (stb_we b) (stb_dat b) (x_dat x) (x_board x) = Ret (rsp, w) ->
  runs 1 l (settle (mkView ins (outs ++ [answer_of b (rs_dat rsp)])
              (mkExec w (rs_dat rsp) (shift_error 0 (take_msis (rs_msis rsp) (x_regs x)))) p)) (ctl (f word (lp_slave l))).
Proof.
  intros [Hv Hp Hb Hd] Hst Hf Hs Hpb Ha. pose proof (awake_view _ _ _ _ Hv) as Hav. cbn in Hp, Hb, Hd, Hav.
  assert (on_word cfg (awake l) = Some f) as Hf' by (unfold awake; by destruct (wb_reset (lp_board l))).
  assert (state (awake l) <> EB_SLAVE_STATE_IDLE) as Hst' by (unfold awake; by destruct (wb_reset (lp_board l))).
  pose proof (step_word _ (lp_pty l) f _ _ _ _ Hav Hst' Hf') as E.
  destruct (Hs (popped (awake l))) as (Eb & Es & Ew & Er & Ec); [apply awake_ctl|apply Hav..|].
  destruct (round_access l (f word (popped (awake l))) (lp_pty l) b ins outs x rsp w) as (l' & El & Hl & Hcl); try done.
  - rewrite Eb. cbn. by rewrite (sv_in _ _ _ _ Hav).
  - rewrite Eb. cbn. by rewrite (sv_out _ _ _ _ Hav).
  - rewrite Eb. by eapply popped_counted.
  - eapply runs_one; [done| |by rewrite Hcl, Ec]. by rewrite <- Hp.
Qed.

(** ** What a request asks for

    Writes behind their base address, read addresses behind their return address;
    either of them in the configuration space. *)
Record Request := mkRequest {
  rq_header : Z; rq_base : Z; rq_writes : list Z; rq_return : Z; rq_reads : list Z
}.
Definition part (first : Z) (ws : list Z) : list Z := match ws with [] => [] | _ => first :: ws end.
Definition words_of (q : Request) : list Z :=
  rq_header q :: part (rq_base q) (rq_writes q) ++ part (rq_return q) (rq_reads q).
Definition fits (q : Request) : Prop :=
  Z.of_nat (length (rq_writes q)) = Z.shiftr (Z.land (rq_header q) 0xff00) 8 /\
  Z.of_nat (length (rq_reads q)) = Z.land (rq_header q) 0xff.

(** The writes, and the reads with what they deliver. *)
Fixpoint exec_writes (fifo : bool) (adr : Z) (vals : list Z) (x : Exec) : outcome Exec :=
  match vals with
  | [] => mret x
  | v :: vals' =>
      '(rsp, w) ← wb_access adr true v (x_dat x) (x_board x);
      exec_writes fifo (if fifo then adr else u32 (adr + 4)) vals'
        (mkExec w (rs_dat rsp) (shift_error 0 (take_msis (rs_msis rsp) (x_regs x))))
  end.
Definition exec_read (config : bool) (adr : Z) (x : Exec) : outcome (Z * Exec) :=
  if config then
    let '(v, err, r) := config_read cfg adr (x_regs x) in mret (v, passed err (set_x_regs r x))
  else
    '(rsp, w) ← wb_access adr false 0 (x_dat x) (x_board x);
    mret (rs_dat rsp, mkExec w (rs_dat rsp) (shift_error 0 (take_msis (rs_msis rsp) (x_regs x)))).
Fixpoint exec_reads (config : bool) (adrs : list Z) (x : Exec) : outcome (list Z * Exec) :=
  match adrs with
  | [] => mret ([], x)
  | a :: adrs' =>
      '(v, x) ← exec_read config a x;
      '(vs, x) ← exec_reads config adrs' x;
      mret (v :: vs, x)
  end.

Fixpoint passes (n : nat) (x : Exec) : Exec := match n with O => x | S n' => passes n' (passed false x) end.

Definition wca (q : Request) : bool := Z.testbit (rq_header q) 26.
Definition wff (q : Request) : bool := Z.testbit (rq_header q) 25.
Definition rca (q : Request) : bool := Z.testbit (rq_header q) 30.
Definition has_writes (q : Request) : bool := negb (length (rq_writes q) =? 0)%nat.
(** Reads behind writes to the configuration space go there as well. *)
Definition reads_config (q : Request) : bool := has_writes q && wca q || rca q.

(** The header of the answer: as many values written as were read. *)
Definition answer_header (q : Request) : Z :=
  let w := rq_header q in
  Z.lor (Z.lor (Z.lor (Z.lor (Z.land w 0x00ff0000) (Z.shiftl (Z.land w 0x000000ff) 8))
    (Z.shiftl (Z.b2z (Z.testbit w 27)) 27)) (Z.shiftl (Z.b2z (Z.testbit w 31)) 26)) (Z.shiftl (Z.b2z (Z.testbit w 29)) 25).

(** One word of the answer per word of the request: zeros for writes, with the
    header in place of the last. *)
Definition exec_request (q : Request) (x : Exec) : outcome (list Z * Exec) :=
  let x := passed false x in
  '(a1, x) ←
    (if has_writes q then
       let x := passed false x in
       x ← (if wca q then mret (passes (length (rq_writes q)) x)
            else exec_writes (wff q) (rq_base q) (rq_writes q) x);
       mret (0 :: 0 :: replicate (length (rq_writes q) - 1) 0 ++ [Z.land (answer_header q) 0xffffff00], x)
     else mret ([answer_header q], x));
  '(a2, x) ←
    (match rq_reads q with
     | [] => mret ([], x)
     | adrs => '(vs, x) ← exec_reads (reads_config q) adrs (passed false x); mret (rq_return q :: vs, x)
     end);
  mret (a1 ++ a2, x).

Fixpoint exec_requests (qs : list Request) (x : Exec) : outcome (list Z * Exec) :=
  match qs with
  | [] => mret ([], x)
  | q :: qs' =>
      '(a, x) ← exec_request q x;
      '(as_, x) ← exec_requests qs' x;
      mret (a ++ as_, x)
  end.

(** ** Sections of a request *)
Lemma counts_below_256 q : fits q -> Z.of_nat (length (rq_writes q)) < 256 /\ Z.of_nat (length (rq_reads q)) < 256.
Proof.
  intros [-> ->]. rewrite Z.shiftr_land. change (Z.shiftr 0xff00 8) with (Z.ones 8). change 0xff with (Z.ones 8).
  rewrite !Z.land_ones by lia. change (2 ^ 8) with 256. split; apply Z.mod_pos_bound; lia.
Qed.

Lemma dec_count (n : nat) : Z.of_nat (S n) < 256 -> unsigned_wrap 8 (Z.of_nat (S n) - 1) = Z.of_nat n.
Proof. intros. rewrite unsigned_wrap_small; lia. Qed.

(** The state behind the writes, and behind the reads. *)
Definition after_writes (config : bool) (h : Header) : state_t :=
  if eb_rcount h =? 0 then EB_SLAVE_STATE_EB_HEADER
  else if config || eb_flag_rca h then EB_SLAVE_STATE_EB_CONFIG_FIRST else EB_SLAVE_STATE_EB_WISHBONE_FIRST.

(** The last write, and one that is not. *)
Lemma dec_last h : eb_wcount h = Z.of_nat 1 -> dec_wcount h = set_counts 0 (eb_rcount h) h.
Proof. intros E. unfold dec_wcount. by rewrite E. Qed.
Lemma dec_more h n : eb_wcount h = Z.of_nat (S (S n)) -> Z.of_nat (S (S n)) < 256 ->
  dec_wcount h = set_counts (Z.of_nat (S n)) (eb_rcount h) h.
Proof. intros E Hb. unfold dec_wcount. by rewrite E, dec_count. Qed.

Lemma config_write_word l v ins outs x p h a : holds l (mkView (v :: ins) outs x p) ->
  ctl (lp_slave l) = (EB_SLAVE_STATE_EB_CONFIG_REST, h, a) -> 0 < eb_wcount h ->
  let h' := dec_wcount h in
  runs 1 l (settle (mkView ins (outs ++ [if eb_wcount h' =? 0 then new_header h else 0]) (passed false x) p))
    (if eb_wcount h' =? 0 then after_writes true h else EB_SLAVE_STATE_EB_CONFIG_REST, h', a).
Proof.
  intros Hl Hc Hn. injection Hc as E1 E2 E3.
  pose proof (word_passes l v ins outs x p (fun _ => on_config_write) (if eb_wcount (dec_wcount h) =? 0 then new_header h else 0)
    false (x_regs x) Hl) as H1. cbv beta zeta in H1 |- *.
  replace (ctl (on_config_write (lp_slave l))) with
    (if eb_wcount (dec_wcount h) =? 0 then after_writes true h else EB_SLAVE_STATE_EB_CONFIG_REST, dec_wcount h, a) in H1
    by (unfold on_config_write, ctl, after_writes; rewrite E2; destruct (_ =? 0); cbn; congruence).
  replace (set_x_regs (x_regs x) x) with x in H1 by (by destruct x). apply H1.
  - by rewrite E1.
  - unfold on_word. rewrite E1, E2. by replace (0 <? eb_wcount h) with true by lia.
  - unfold ctl. rewrite E1, E2, E3. intros s Hs Hr Hq Hw. injection Hs as F1 F2 F3.
    unfold on_config_write. rewrite F2. destruct (eb_wcount (dec_wcount h) =? 0); cbn; rewrite Hq, ?F1, ?F3, ?Hr; split_and!; done.
Qed.

Lemma config_writes_run vals : forall l rest outs x p h a, vals <> [] -> Z.of_nat (length vals) < 256 ->
  holds l (mkView (vals ++ rest) outs x p) -> ctl (lp_slave l) = (EB_SLAVE_STATE_EB_CONFIG_REST, h, a) ->
  eb_wcount h = Z.of_nat (length vals) ->
  runs (length vals) l
    (settle (mkView rest (outs ++ replicate (length vals - 1) 0 ++ [new_header h]) (passes (length vals) x) p))
    (after_writes true h, set_counts 0 (eb_rcount h) h, a).
Proof.
  induction vals as [|v [|v' vals] IH]; intros l rest outs x p h a Hne Hlt Hl Hc Hn; [done|..].
  - pose proof (config_write_word l v rest outs x p h a Hl Hc ltac:(by rewrite Hn)) as H1. cbn zeta in H1.
    by rewrite dec_last in H1.
  - pose proof (config_write_word l v _ outs x p h a Hl Hc ltac:(by rewrite Hn)) as H1. cbn zeta in H1.
    rewrite (dec_more h (length vals)) in H1 by done. cbn -[runs Z.of_nat settle] in H1.
    change (length (v :: v' :: vals)) with (1 + length (v' :: vals))%nat.
    eapply runs_trans; [done|]. intros l1 Hl1 Hc1.
    change (set_counts 0 (eb_rcount h) h) with (set_counts 0 (eb_rcount h) (set_counts (Z.of_nat (S (length vals))) (eb_rcount h) h)).
    specialize (IH l1 rest (outs ++ [0]) (passed false x) p _ a ltac:(done) ltac:(cbn in *; lia) Hl1 Hc1 eq_refl).
    rewrite <- (assoc_L (++)) in IH. cbn [length] in IH |- *. rewrite !Nat.sub_succ, Nat.sub_0_r in *. exact IH.
Qed.

Lemma write_word l v ins outs x p h a rsp w : holds l (mkView (v :: ins) outs x p) ->
  ctl (lp_slave l) = (EB_SLAVE_STATE_EB_WISHBONE_REST, h, a) -> 0 < eb_wcount h ->
  wb_access a true v (x_dat x) (x_board x) = Ret (rsp, w) ->
  let h' := dec_wcount h in
  runs 1 l (settle (mkView ins (outs ++ [if eb_wcount h' =? 0 then new_header h else 0])
              (mkExec w (rs_dat rsp) (shift_error 0 (take_msis (rs_msis rsp) (x_regs x)))) p))
    (if eb_wcount h' =? 0 then after_writes false h else EB_SLAVE_STATE_EB_WISHBONE_REST, h',
     if eb_flag_wff h then a else u32 (a + 4)).
Proof.
  intros Hl Hc Hn Ha. injection Hc as E1 E2 E3. set (last := eb_wcount (dec_wcount h) =? 0).
  set (b := mkStb a v true false false (negb last) (eb_flag_cyc h) (if last then Some (new_header h) else None)).
  pose proof (word_accesses l v ins outs x p on_write b rsp w Hl) as H1. cbv beta zeta in H1 |- *.
  replace (ctl (on_write v (lp_slave l))) with
    (if last then after_writes false h else EB_SLAVE_STATE_EB_WISHBONE_REST, dec_wcount h,
     if eb_flag_wff h then a else u32 (a + 4)) in H1
    by (unfold on_write, ctl, after_writes; rewrite E2; fold last; cbn; rewrite E3;
        destruct (eb_flag_wff h), last; cbn; congruence).
  replace (answer_of b (rs_dat rsp)) with (if last then new_header h else 0) in H1 by (subst b; by destruct last).
  apply H1; try done.
  - by rewrite E1.
  - unfold on_word. rewrite E1, E2. by replace (0 <? eb_wcount h) with true by lia.
  - unfold ctl. rewrite E1, E2, E3. intros s Hs Hr Hq Hw. injection Hs as F1 F2 F3.
    unfold on_write. rewrite F2. fold last. cbn.
    destruct (eb_flag_wff h), last eqn:El; cbn; rewrite Hq, ?F1, ?F3, ?Hr; split_and!; try done; subst b; by rewrite El.
Qed.

Fixpoint end_adr (fifo : bool) (adr : Z) (n : nat) : Z :=
  match n with O => adr | S n' => end_adr fifo (if fifo then adr else u32 (adr + 4)) n' end.

Lemma writes_run vals : forall l rest outs x p h a x', vals <> [] -> Z.of_nat (length vals) < 256 ->
  holds l (mkView (vals ++ rest) outs x p) -> ctl (lp_slave l) = (EB_SLAVE_STATE_EB_WISHBONE_REST, h, a) ->
  eb_wcount h = Z.of_nat (length vals) -> exec_writes (eb_flag_wff h) a vals x = Ret x' ->
  runs (length vals) l
    (settle (mkView rest (outs ++ replicate (length vals - 1) 0 ++ [new_header h]) x' p))
    (after_writes false h, set_counts 0 (eb_rcount h) h, end_adr (eb_flag_wff h) a (length vals)).
Proof.
  induction vals as [|v [|v' vals] IH]; intros l rest outs x p h a x' Hne Hlt Hl Hc Hn Hx; [done|..];
    cbn [exec_writes] in Hx; destruct (wb_access a true v _ _) as [[rsp w]|e|why] eqn:Ha; try done.
  - pose proof (write_word l v rest outs x p h a rsp w Hl Hc ltac:(by rewrite Hn) Ha) as H1. cbn zeta in H1.
    rewrite dec_last in H1 by done. injection Hx as <-. exact H1.
  - pose proof (write_word l v _ outs x p h a rsp w Hl Hc ltac:(by rewrite Hn) Ha) as H1. cbn zeta in H1.
    rewrite (dec_more h (length vals)) in H1 by done. cbn -[runs Z.of_nat settle] in H1.
    change (length (v :: v' :: vals)) with (1 + length (v' :: vals))%nat.
    eapply runs_trans; [done|]. intros l1 Hl1 Hc1.
    change (set_counts 0 (eb_rcount h) h) with (set_counts 0 (eb_rcount h) (set_counts (Z.of_nat (S (length vals))) (eb_rcount h) h)).
    specialize (IH l1 rest (outs ++ [0]) _ p _ _ x' ltac:(done) ltac:(cbn in *; lia) Hl1 Hc1 eq_refl Hx).
    rewrite <- (assoc_L (++)) in IH. cbn [length end_adr] in IH |- *. rewrite !Nat.sub_succ, Nat.sub_0_r in *. exact IH.
Qed.

(** Reads *)
Definition first_state (config : bool) : state_t := if config then EB_SLAVE_STATE_EB_CONFIG_FIRST else EB_SLAVE_STATE_EB_WISHBONE_FIRST.
Definition rest_state (config : bool) : state_t := if config then EB_SLAVE_STATE_EB_CONFIG_REST else EB_SLAVE_STATE_EB_WISHBONE_REST.
Definition after_read (config : bool) (h : Header) : state_t := if eb_rcount h =? 0 then EB_SLAVE_STATE_EB_HEADER else rest_state config.

Lemma config_read_word l adr ins outs x p h a v err r : holds l (mkView (adr :: ins) outs x p) ->
  ctl (lp_slave l) = (EB_SLAVE_STATE_EB_CONFIG_REST, h, a) -> eb_wcount h = 0 -> 0 < eb_rcount h ->
  config_read cfg adr (x_regs x) = (v, err, r) ->
  runs 1 l (settle (mkView ins (outs ++ [v]) (passed err (set_x_regs r x)) p)) (after_read true (dec_rcount h), dec_rcount h, a).
Proof.
  intros Hl Hc Hw0 Hn Hx. injection Hc as E1 E2 E3.
  pose proof (word_passes l adr ins outs x p (on_config_read cfg) v err r Hl) as H1. cbv beta zeta in H1.
  replace (ctl (on_config_read cfg adr (lp_slave l))) with (after_read true (dec_rcount h), dec_rcount h, a) in H1.
  - apply H1.
    + by rewrite E1.
    + unfold on_word. by rewrite E1, E2, Hw0, (proj2 (Z.ltb_lt _ _) Hn).
    + unfold ctl. rewrite E1, E2, E3. intros s Hs Hr Hq Hw. injection Hs as F1 F2 F3. unfold after_read.
      unfold on_config_read. rewrite F2, Hr, Hx. destruct (eb_rcount (dec_rcount h) =? 0); cbn; rewrite Hq, ?F1, ?F3; split_and!; done.
  - unfold on_config_read, ctl, after_read. rewrite E2. destruct Hl as [[_ _ _ _ _ ->] _ _ _]. cbn [v_exec]. rewrite Hx.
    destruct (_ =? 0); cbn; congruence.
Qed.

Lemma bus_read_word l adr ins outs x p h a rsp w : holds l (mkView (adr :: ins) outs x p) ->
  ctl (lp_slave l) = (EB_SLAVE_STATE_EB_WISHBONE_REST, h, a) -> eb_wcount h = 0 -> 0 < eb_rcount h ->
  wb_access adr false 0 (x_dat x) (x_board x) = Ret (rsp, w) ->
  runs 1 l (settle (mkView ins (outs ++ [rs_dat rsp])
              (mkExec w (rs_dat rsp) (shift_error 0 (take_msis (rs_msis rsp) (x_regs x)))) p))
    (after_read false (dec_rcount h), dec_rcount h, a).
Proof.
  intros Hl Hc Hw0 Hn Ha. injection Hc as E1 E2 E3.
  pose proof (word_accesses l adr ins outs x p on_read (mkStb adr 0 false false false false (eb_flag_cyc h) None) rsp w Hl) as H1.
  cbv beta zeta in H1.
  replace (ctl (on_read adr (lp_slave l))) with (after_read false (dec_rcount h), dec_rcount h, a) in H1
    by (unfold on_read, ctl, after_read; rewrite E2; destruct (_ =? 0); cbn; congruence).
  apply H1; try done.
  - by rewrite E1.
  - unfold on_word. by rewrite E1, E2, Hw0, (proj2 (Z.ltb_lt _ _) Hn).
  - unfold ctl. rewrite E1, E2, E3. intros s Hs Hr Hq Hw. injection Hs as F1 F2 F3. unfold after_read.
    unfold on_read. rewrite F2. destruct (eb_rcount (dec_rcount h) =? 0); cbn; rewrite Hq, ?F1, ?F3, ?Hr; split_and!; done.
Qed.

Lemma read_word config l adr ins outs x p h a v x' : holds l (mkView (adr :: ins) outs x p) ->
  ctl (lp_slave l) = (rest_state config, h, a) -> eb_wcount h = 0 -> 0 < eb_rcount h ->
  exec_read config adr x = Ret (v, x') ->
  runs 1 l (settle (mkView ins (outs ++ [v]) x' p)) (after_read config (dec_rcount h), dec_rcount h, a).
Proof.
  intros Hl Hc Hw Hn Hx. destruct config; cbn in Hx.
  - destruct (config_read cfg adr (x_regs x)) as [[v0 err] r] eqn:E. injection Hx as <- <-. by eapply config_read_word.
  - destruct (wb_access adr false 0 _ _) as [[rsp w]|e|why] eqn:E; try done. injection Hx as <- <-. by eapply bus_read_word.
Qed.

Lemma exec_reads_cons config a adrs x : exec_reads config (a :: adrs) x =
  '(v, x) ← exec_read config a x; '(vs, x) ← exec_reads config adrs x; mret (v :: vs, x).
Proof. done. Qed.

Lemma reads_run config adrs : forall l rest outs x p h a vs x', adrs <> [] -> Z.of_nat (length adrs) < 256 ->
  holds l (mkView (adrs ++ rest) outs x p) -> ctl (lp_slave l) = (rest_state config, h, a) ->
  eb_wcount h = 0 -> eb_rcount h = Z.of_nat (length adrs) -> exec_reads config adrs x = Ret (vs, x') ->
  runs (length adrs) l (settle (mkView rest (outs ++ vs) x' p)) (EB_SLAVE_STATE_EB_HEADER, set_counts 0 0 h, a).
Proof.
  induction adrs as [|r [|r' adrs] IH]; intros l rest outs x p h a vs x' Hne Hlt Hl Hc Hw Hn Hx; [done|..];
    rewrite exec_reads_cons in Hx; destruct (exec_read config r x) as [[v x1]|e|why] eqn:Hr; try done.
  - pose proof (read_word config l r rest outs x p h a v x1 Hl Hc Hw ltac:(by rewrite Hn) Hr) as H1.
    injection Hx as <- <-. unfold after_read, dec_rcount in H1. rewrite Hn, Hw in H1. exact H1.
  - pose proof (read_word config l r _ outs x p h a v x1 Hl Hc Hw ltac:(by rewrite Hn) Hr) as H1.
    unfold after_read, dec_rcount in H1. cbn [length] in Hn. rewrite Hn, Hw, (dec_count (S (length adrs))) in H1 by done.
    change (length (r :: r' :: adrs)) with (1 + length (r' :: adrs))%nat.
    eapply runs_trans; [exact H1|]. intros l1 Hl1 Hc1. cbn [mbind outcome_bind] in Hx.
    destruct (exec_reads config (r' :: adrs) x1) as [[vs1 x2]|e|why] eqn:Hr2; try done. injection Hx as <- <-.
    specialize (IH l1 rest (outs ++ [v]) x1 p _ a vs1 x2 ltac:(done) ltac:(cbn in *; lia) Hl1 Hc1 eq_refl eq_refl Hr2).
    by rewrite <- (assoc_L (++)) in IH.
Qed.

(** The words in front of a section. *)
Lemma first_write_word config l word ins outs x p h a : holds l (mkView (word :: ins) outs x p) ->
  ctl (lp_slave l) = (first_state config, h, a) -> 0 < eb_wcount h ->
  runs 1 l (settle (mkView ins (outs ++ [0]) (passed false x) p)) (rest_state config, h, if config then a else word).
Proof.
  intros Hl Hc Hn. injection Hc as E1 E2 E3.
  set (f := fun w s => if config then set_state EB_SLAVE_STATE_EB_CONFIG_REST (push_pass 0 false s)
                       else set_state EB_SLAVE_STATE_EB_WISHBONE_REST (push_pass 0 false (set_base_write w s))).
  pose proof (word_passes l word ins outs x p f 0 false (x_regs x) Hl) as H1. cbv beta zeta in H1.
  replace (ctl (f word (lp_slave l))) with (rest_state config, h, if config then a else word) in H1
    by (unfold f, ctl; destruct config; cbn; congruence).
  replace (set_x_regs (x_regs x) x) with x in H1 by (by destruct x). apply H1.
  - rewrite E1. by destruct config.
  - unfold on_word. rewrite E1, E2, (proj2 (Z.ltb_lt _ _) Hn). unfold f. by destruct config.
  - unfold ctl. rewrite E1, E2, E3. intros s Hs Hr Hq Hw. injection Hs as F1 F2 F3.
    unfold f. destruct config; cbn; rewrite Hq, ?F1, ?F2, ?F3, ?Hr; split_and!; done.
Qed.

Lemma first_read_word config l word ins outs x p h a : holds l (mkView (word :: ins) outs x p) ->
  ctl (lp_slave l) = (first_state config, h, a) -> eb_wcount h = 0 -> 0 < eb_rcount h ->
  runs 1 l (settle (mkView ins (outs ++ [word]) (passed false x) p)) (rest_state config, h, a).
Proof.
  intros Hl Hc Hw0 Hn. injection Hc as E1 E2 E3.
  set (f := fun w s => if config then set_state EB_SLAVE_STATE_EB_CONFIG_REST (push_pass w false s)
                       else set_state EB_SLAVE_STATE_EB_WISHBONE_REST (push_pass w false (set_base_ret w s))).
  pose proof (word_passes l word ins outs x p f word false (x_regs x) Hl) as H1. cbv beta zeta in H1.
  replace (ctl (f word (lp_slave l))) with (rest_state config, h, a) in H1
    by (unfold f, ctl; destruct config; cbn; congruence).
  replace (set_x_regs (x_regs x) x) with x in H1 by (by destruct x). apply H1.
  - rewrite E1. by destruct config.
  - unfold on_word. rewrite E1, E2, Hw0, (proj2 (Z.ltb_lt _ _) Hn). unfold f. by destruct config.
  - unfold ctl. rewrite E1, E2, E3. intros s Hs Hr Hq Hw. injection Hs as F1 F2 F3.
    unfold f. destruct config; cbn; rewrite Hq, ?F1, ?F2, ?F3, ?Hr; split_and!; done.
Qed.

Definition header_after (word : Z) (h : Header) : Header :=
  let h := parse_header word h in
  if 0 <? eb_wcount h then set_new_header (Z.land (response_of word h) 0xffffff00) h else h.

Lemma header_word l word ins outs x p h a : holds l (mkView (word :: ins) outs x p) ->
  ctl (lp_slave l) = (EB_SLAVE_STATE_EB_HEADER, h, a) ->
  let h' := parse_header word h in
  runs 1 l (settle (mkView ins (outs ++ [if 0 <? eb_wcount h' then 0 else response_of word h']) (passed false x) p))
    (first_state (if 0 <? eb_wcount h' then eb_flag_wca h' else eb_flag_rca h'), header_after word h, a).
Proof.
  intros Hl Hc h'. injection Hc as E1 E2 E3.
  pose proof (word_passes l word ins outs x p on_header (if 0 <? eb_wcount h' then 0 else response_of word h') false (x_regs x) Hl) as H1.
  cbv beta zeta in H1.
  replace (ctl (on_header word (lp_slave l))) with
    (first_state (if 0 <? eb_wcount h' then eb_flag_wca h' else eb_flag_rca h'), header_after word h, a) in H1.
  - replace (set_x_regs (x_regs x) x) with x in H1 by (by destruct x). apply H1.
    + by rewrite E1.
    + unfold on_word. by rewrite E1.
    + unfold ctl. rewrite E1, E2, E3. intros s Hs Hr Hq Hw. injection Hs as F1 F2 F3. unfold header_after.
      unfold on_header. rewrite F2. fold h'. destruct (0 <? eb_wcount h') eqn:E;
        cbn -[parse_header response_of]; rewrite Hq, ?F1, ?F3, ?Hr; split_and!; try done;
        cbn -[response_of]; by destruct (Z.testbit word 26), (Z.testbit word 30).
  - unfold on_header, ctl, header_after. rewrite E2. fold h'. destruct (0 <? eb_wcount h');
      cbn -[response_of]; rewrite E3; cbn; by destruct (Z.testbit word 26), (Z.testbit word 30).
Qed.

(** A header that announces nothing takes a round of its own. *)
Lemma nothing_round config l v h a : holds l (settle v) -> ctl (lp_slave l) = (first_state config, h, a) ->
  eb_wcount h = 0 -> eb_rcount h = 0 -> runs 1 l (settle v) (EB_SLAVE_STATE_EB_HEADER, h, a).
Proof.
  intros [Hv Hp Hb Hd] Hc Hw0 Hr0. injection Hc as E1 E2 E3. pose proof (awake_view _ _ _ _ Hv) as [Hi Ho Hcn Hs Hw Hr].
  destruct (round_passes l (set_state EB_SLAVE_STATE_EB_HEADER (awake l)) (lp_pty l) [] (v_in (settle v)) (v_out (settle v)) (v_exec (settle v))) as (l' & El & Hl & Hcl).
  - assert (ctl (awake l) = (first_state config, h, a)) as Ha by (rewrite awake_ctl; unfold ctl; congruence).
    injection Ha as F1 F2 F3. unfold step_state, on_word. rewrite F1, F2, Hw0, Hr0. by destruct config.
  - exact Hs.
  - exact Hw.
  - constructor.
  - exact Hi.
  - exact Ho.
  - exact Hcn.
  - exact Hr.
  - exact Hb.
  - exact Hd.
  - eapply runs_one; [done| |].
    + cbn [map foldl] in Hl. rewrite app_nil_r, Hp in Hl.
      replace (mkView _ _ _ _) with (settle v) in Hl; [by rewrite settle_idemp in Hl|].
      by destruct (settle v) as [? ? [] ?].
    + rewrite Hcl. unfold ctl. cbn. pose proof (awake_ctl l) as Ha. unfold ctl in Ha. congruence.
Qed.

(** ** A request, and a packet of them *)
Lemma writes_part config l first vals rest outs x p h a x' : vals <> [] -> Z.of_nat (length vals) < 256 ->
  holds l (mkView (part first vals ++ rest) outs x p) -> ctl (lp_slave l) = (first_state config, h, a) ->
  eb_wcount h = Z.of_nat (length vals) ->
  (if config then mret (passes (length vals) (passed false x)) else exec_writes (eb_flag_wff h) first vals (passed false x)) = Ret x' ->
  exists a', runs (1 + length vals) l
    (settle (mkView rest (outs ++ 0 :: replicate (length vals - 1) 0 ++ [new_header h]) x' p))
    (after_writes config h, set_counts 0 (eb_rcount h) h, a').
Proof.
  intros Hne Hlt Hl Hc Hn Hx. destruct vals as [|v vals]; [done|].
  assert (0 < eb_wcount h) as Hpos by (rewrite Hn; cbn; lia).
  pose proof (first_write_word config l first ((v :: vals) ++ rest) outs x p h a Hl Hc Hpos) as H1.
  cbn [app] in H1. rewrite settle_more in H1. destruct config; eexists; (eapply runs_trans; [exact H1|]); intros l1 Hl1 Hc1.
  - injection Hx as <-.
    pose proof (config_writes_run (v :: vals) l1 rest _ _ p h a Hne Hlt Hl1 Hc1 Hn) as H2.
    by rewrite <- (assoc_L (++)) in H2.
  - pose proof (writes_run (v :: vals) l1 rest _ _ p h first x' Hne Hlt Hl1 Hc1 Hn Hx) as H2.
    by rewrite <- (assoc_L (++)) in H2.
Qed.

Lemma reads_part config l first adrs rest outs x p h a vs x' : adrs <> [] -> Z.of_nat (length adrs) < 256 ->
  holds l (mkView (part first adrs ++ rest) outs x p) -> ctl (lp_slave l) = (first_state config, h, a) ->
  eb_wcount h = 0 -> eb_rcount h = Z.of_nat (length adrs) -> exec_reads config adrs (passed false x) = Ret (vs, x') ->
  runs (1 + length adrs) l (settle (mkView rest (outs ++ first :: vs) x' p)) (EB_SLAVE_STATE_EB_HEADER, set_counts 0 0 h, a).
Proof.
  intros Hne Hlt Hl Hc Hw Hn Hx. destruct adrs as [|r adrs]; [done|].
  assert (0 < eb_rcount h) as Hpos by (rewrite Hn; cbn; lia).
  pose proof (first_read_word config l first ((r :: adrs) ++ rest) outs x p h a Hl Hc Hw Hpos) as H1.
  cbn [app] in H1. rewrite settle_more in H1. eapply runs_trans; [exact H1|]. intros l1 Hl1 Hc1.
  pose proof (reads_run config (r :: adrs) l1 rest _ _ p h a vs x' Hne Hlt Hl1 Hc1 Hw Hn Hx) as H2.
  by rewrite <- (assoc_L (++)) in H2.
Qed.

(** The rounds of the main loop for a request: one per word, and one more for a
    header that announces nothing. *)
Definition rounds (q : Request) : nat :=
  length (words_of q) + match rq_writes q, rq_reads q with [], [] => 1 | _, _ => 0 end.

Lemma after_writes_reads q h : fits q -> has_writes q = true ->
  after_writes (wca q) (header_after (rq_header q) h) =
  match rq_reads q with [] => EB_SLAVE_STATE_EB_HEADER | _ => first_state (reads_config q) end.
Proof.
  intros [Hfw Hfr] Hw. unfold after_writes, header_after, reads_config. rewrite Hw.
  assert (eb_rcount (parse_header (rq_header q) h) = Z.of_nat (length (rq_reads q))) as Er by (by rewrite Hfr).
  destruct (0 <? _); cbn -[parse_header response_of]; rewrite Er; destruct (rq_reads q); try done;
    cbn -[Z.testbit]; fold (rca q); by destruct (wca q), (rca q).
Qed.

Lemma request_run q l rest outs x p h a ans x' : fits q ->
  holds l (mkView (words_of q ++ rest) outs x p) -> ctl (lp_slave l) = (EB_SLAVE_STATE_EB_HEADER, h, a) ->
  exec_request q x = Ret (ans, x') ->
  exists h' a', runs (rounds q) l (settle (mkView rest (outs ++ ans) x' p)) (EB_SLAVE_STATE_EB_HEADER, h', a').
Proof.
  intros Hf Hl Hc Hx. pose proof (counts_below_256 q Hf) as [Hbw Hbr].
  pose proof (header_word l (rq_header q) ((part (rq_base q) (rq_writes q) ++ part (rq_return q) (rq_reads q)) ++ rest)
    outs x p h a Hl Hc) as H1. cbv zeta in H1.
  pose proof (after_writes_reads q h Hf) as Haw. destruct Hf as [Hfw Hfr].
  assert (eb_wcount (parse_header (rq_header q) h) = Z.of_nat (length (rq_writes q))) as Ew by (by rewrite Hfw).
  rewrite Ew in H1. unfold exec_request in Hx. unfold reads_config, has_writes in *. set (x0 := passed false x) in *.
  set (h1 := header_after (rq_header q) h) in *.
  assert (eb_rcount h1 = Z.of_nat (length (rq_reads q))) as Er1 by (unfold h1, header_after; rewrite Ew, Hfr; by destruct (0 <? _)).
  assert (eb_wcount h1 = Z.of_nat (length (rq_writes q))) as Ew1 by (unfold h1, header_after; rewrite Ew; by destruct (0 <? _)).
  unfold rounds, words_of. rewrite <- (assoc_L (++)) in H1.
  destruct (rq_writes q) as [|v vals] eqn:Evs.
  - cbn [length Nat.eqb negb andb orb part app Z.of_nat Z.ltb Z.compare] in *. destruct (rq_reads q) as [|r adrs] eqn:Ers.
    + injection Hx as <- <-. eexists _, _. apply (runs_trans 1 1 _ _ _ _ _ H1). intros l1 Hl1 Hc1.
      eapply nothing_round; [exact Hl1|exact Hc1|done|done].
    + cbn [mret mbind outcome_ret outcome_bind] in Hx. destruct (exec_reads (rca q) (r :: adrs) (passed false x0)) as [[vs x2]|e|why] eqn:Hr; try done. injection Hx as <- <-.
      cbn [part app] in H1. rewrite settle_more in H1. rewrite Nat.add_0_r. eexists _, _.
      apply (runs_trans 1 _ _ _ _ _ _ H1). intros l1 Hl1 Hc1.
      pose proof (reads_part (rca q) l1 (rq_return q) (r :: adrs) rest _ x0 p h1 a vs x2 ltac:(done) Hbr Hl1 Hc1 Ew1 Er1 Hr) as H2.
      by rewrite <- (assoc_L (++)) in H2.
  - specialize (Haw eq_refl). fold (wca q) in H1. cbn [part app] in H1.
    replace (0 <? Z.of_nat (length (v :: vals))) with true in H1 by done. rewrite settle_more in H1.
    change (negb (length (v :: vals) =? 0)%nat) with true in *. cbn [andb] in *.
    set (part1 := if wca q then _ else _) in Hx.
    destruct part1 as [x1|e|why] eqn:Hw; try done. cbn [mret mbind outcome_ret outcome_bind] in Hx. subst part1.
    assert (eb_flag_wff h1 = wff q) as Hff by (unfold h1, header_after; by destruct (0 <? _)).
    assert (new_header h1 = Z.land (answer_header q) 0xffffff00) as Hnh by (unfold h1, header_after; by rewrite Ew).
    rewrite <- Hff in Hw. destruct H1 as (l1 & E1 & Hl1 & Hc1).
    change (eb_flag_wca (parse_header (rq_header q) h)) with (wca q) in Hc1.
    destruct (writes_part (wca q) l1 (rq_base q) (v :: vals) (part (rq_return q) (rq_reads q) ++ rest) _ x0 p h1 a x1
      ltac:(done) Hbw Hl1 Hc1 Ew1 Hw) as (a' & l2 & E2 & Hl2 & Hc2).
    rewrite Haw, Hnh, <- (assoc_L (++)) in *. cbn [app] in Hl2.
    assert (length (rq_header q :: part (rq_base q) (v :: vals) ++ part (rq_return q) (rq_reads q)) =
            1 + (1 + length (v :: vals) + length (part (rq_return q) (rq_reads q))))%nat as -> by (cbn; by rewrite length_app).
    destruct (rq_reads q) as [|r adrs] eqn:Ers.
    + injection Hx as <- <-. eexists _, a'. rewrite !Nat.add_0_r, app_nil_r. apply (runs_from 1 _ _ l1 _ _ E1). by exists l2.
    + destruct (exec_reads (wca q || rca q) (r :: adrs) (passed false x1)) as [[vs x2]|e|why] eqn:Hr; try done.
      injection Hx as <- <-. eexists _, a'. rewrite Nat.add_0_r. apply (runs_from 1 _ _ l1 _ _ E1), (runs_from _ _ _ l2 _ _ E2).
      cbn [part app] in Hl2. rewrite settle_more in Hl2.
      pose proof (reads_part (wca q || rca q) l2 (rq_return q) (r :: adrs) rest _ x1 p _ a' vs x2 ltac:(done) Hbr Hl2 Hc2 eq_refl Er1 Hr) as H2.
      rewrite <- (assoc_L (++)) in H2. exact H2.
Qed.

Lemma requests_run qs : forall l rest outs x p h a ans x', Forall fits qs -> qs <> [] ->
  holds l (mkView (concat (map words_of qs) ++ rest) outs x p) -> ctl (lp_slave l) = (EB_SLAVE_STATE_EB_HEADER, h, a) ->
  exec_requests qs x = Ret (ans, x') ->
  exists h' a', runs (list_sum (map rounds qs)) l (settle (mkView rest (outs ++ ans) x' p)) (EB_SLAVE_STATE_EB_HEADER, h', a').
Proof.
  induction qs as [|q qs IH]; intros l rest outs x p h a ans x' Hf Hne Hl Hc Hx; [done|].
  apply Forall_cons in Hf as [Hq Hqs]. cbn [map concat list_sum foldr exec_requests] in *. rewrite <- (assoc_L (++)) in Hl.
  destruct (exec_request q x) as [[a1 x1]|e|why] eqn:E1; try done. cbn [mbind outcome_bind] in Hx.
  destruct (exec_requests qs x1) as [[a2 x2]|e|why] eqn:E2; try done. injection Hx as <- <-.
  destruct (request_run q l _ outs x p h a a1 x1 Hq Hl Hc E1) as (h1 & a1' & l1 & El & Hl1 & Hc1).
  destruct qs as [|q2 qs].
  - injection E2 as <- <-. exists h1, a1'. rewrite app_nil_r. cbn. rewrite Nat.add_0_r. by exists l1.
  - change (concat (map words_of (q2 :: qs)) ++ rest) with (rq_header q2 :: ((part (rq_base q2) (rq_writes q2) ++ part (rq_return q2) (rq_reads q2)) ++ concat (map words_of qs)) ++ rest) in Hl1.
    rewrite settle_more in Hl1.
    destruct (IH l1 rest (outs ++ a1) x1 p h1 a1' a2 x2 Hqs ltac:(done) Hl1 Hc1 E2) as (h2 & a2' & Hr).
    exists h2, a2'. rewrite (assoc_L (++)). by apply (runs_from _ _ _ l1).
Qed.

(** ** From the terminal and back *)
Lemma word_bytes w : 0 <= w < 2 ^ 32 ->
  word_be (u8 (Z.shiftr w 24)) (u8 (Z.shiftr w 16)) (u8 (Z.shiftr w 8)) (u8 w) = w.
Proof.
  intros Hw. unfold word_be. rewrite !lor_shiftl_low by (try apply unsigned_wrap_range; lia).
  rewrite !Z.shiftr_div_pow2 by lia. unfold unsigned_wrap.
  change (2 ^ 8) with 256 in *. change (2 ^ 16) with 65536. change (2 ^ 24) with 16777216. change (2 ^ 32) with 4294967296 in *.
  Z.to_euclidean_division_equations. lia.
Qed.

Lemma words_of_bytes ws behind : Forall (fun w => 0 <= w < 2 ^ 32) ws -> words_be (concat (map bytes_be ws)) behind = ws.
Proof.
  intros Hws. induction Hws as [|w ws Hw _ IH]; [done|]. cbn -[Z.shiftr word_be]. rewrite Z.shiftr_0_r, word_bytes by done. by rewrite IH.
Qed.

Lemma bytes_length ws : length (concat (map bytes_be ws)) = (4 * length ws)%nat.
Proof. induction ws as [|w ws IH]; cbn in *; lia. Qed.

Definition received (ws : list Z) (p : P) (l : Loop (P := P) (W := W)) : Loop :=
  let s := lp_slave l in
  let b := bufs s in
  mkLoop (set_bufs (mkBuffers (input_word_buffer b ++ ws) (input_word_buffer2 b ++ ws) (output_word_buffer b)
                      (u32 (word_count b + Z.of_nat (length ws)))) s)
    p (lp_board l) (lp_ack l) (lp_err l) (lp_dat_out l) (lp_countdown l).

(** With an empty buffer, a slave that wants a word reads what is there. *)
Lemma receive l ws x p p1 p2 behind : holds l (mkView [] [] x p) ->
  state (lp_slave l) = EB_SLAVE_STATE_IDLE \/ is_Some (on_word cfg (lp_slave l)) ->
  pty_poll p = (Readable, p1) -> pty_read p1 = (Got (concat (map bytes_be ws)) behind, p2) ->
  ws <> [] -> Forall (fun w => 0 <= w < 2 ^ 32) ws -> Z.of_nat (length ws) < 2 ^ 32 ->
  holds (received ws p2 l) (mkView ws [] x p2) /\ iteration cfg l = iteration cfg (received ws p2 l) /\
  ctl (lp_slave (received ws p2 l)) = ctl (lp_slave l).
Proof.
  intros [Hv Hp Hb Hd] Hst Hpoll Hread Hne Hws Hlen. cbn in Hv, Hp, Hb, Hd.
  assert (holds (received ws p2 l) (mkView ws [] x p2)) as Hl'.
  { destruct Hv as [Hi Ho (Hc1 & Hc2 & Hc3) Hs Hw Hr]. rewrite Hi, Ho in *. cbn [length Nat.add] in Hc1, Hc2.
    split; try done. split; try done; cbn; rewrite Hi; try done. unfold counted. cbn. rewrite Ho, Hc1. cbn.
    rewrite unsigned_wrap_small by lia. rewrite length_app, Hc2. lia. }
  split; [done|split; [|done]].
  set (l' := received ws p2 l) in *. pose proof (awake_view _ _ _ _ Hv) as Ha. pose proof (awake_view _ _ _ _ (h_slave _ _ Hl')) as Ha'.
  assert (awake l' = set_bufs (bufs (lp_slave l')) (awake l)) as Eaw by (unfold awake, l'; cbn; by destruct (wb_reset (lp_board l))).
  assert (fill_input_buffer (awake l) p = (awake l', p2)) as Hfill.
  { unfold fill_input_buffer. rewrite Hpoll, Hread, bytes_length, words_of_bytes by done.
    destruct ws as [|w ws]; [done|]. replace (4 <=? _)%nat with true by (symmetry; apply Nat.leb_le; cbn; lia).
    rewrite Eaw. unfold l', awake. cbn. by destruct (wb_reset (lp_board l)). }
  assert (next_word (awake l) p = next_word (awake l') p2) as Hnext.
  { unfold next_word at 1. unfold pop_word at 1. rewrite (sv_in _ _ _ _ Ha), Hfill.
    unfold next_word, pop_word. rewrite (sv_in _ _ _ _ Ha'). by destruct ws. }
  assert (step_state cfg (awake l) p = step_state cfg (awake l') p2) as Estep.
  { unfold step_state, on_idle. rewrite Hnext.
    assert (state (awake l') = state (lp_slave l)) as E1' by (rewrite Eaw; unfold awake; by destruct (wb_reset (lp_board l))).
    assert (state (awake l) = state (lp_slave l)) as E1 by (unfold awake; by destruct (wb_reset (lp_board l))).
    assert (on_word cfg (awake l') = on_word cfg (lp_slave l)) as E2' by (rewrite Eaw; unfold awake; by destruct (wb_reset (lp_board l))).
    assert (on_word cfg (awake l) = on_word cfg (lp_slave l)) as E2 by (unfold awake; by destruct (wb_reset (lp_board l))).
    rewrite E1, E1', E2, E2'. destruct Hst as [->|[f ->]]; [done|by destruct (state (lp_slave l))]. }
  unfold iteration, master_out. cbn [lp_board lp_pty lp_slave lp_dat_out lp_ack lp_err lp_countdown received l'].
  change (if wb_reset (lp_board l) then shutdown (lp_slave l) else lp_slave l) with (awake l).
  change (if wb_reset (lp_board l) then shutdown _ else _) with (awake l'). by rewrite Hp, Estep.
Qed.

(** The hello: two words in one round. *)
Lemma hello_round l w ws outs x p h a : holds l (mkView (0x4e6f11ff :: w :: ws) outs x p) ->
  ctl (lp_slave l) = (EB_SLAVE_STATE_IDLE, h, a) ->
  runs 1 l (settle (mkView ws (outs ++ [0x4e6f1644; w]) (passed false (passed false x)) p)) (EB_SLAVE_STATE_EB_HEADER, h, a).
Proof.
  intros [Hv Hp Hb Hd] Hc. cbn in Hp, Hb, Hd. pose proof (awake_view _ _ _ _ Hv) as [Hi Ho (Hc1 & Hc2 & Hc3) Hs Hw Hr].
  rewrite <- awake_ctl in Hc. injection Hc as E1 E2 E3. cbn in Hi, Ho, Hr.
  set (b := bufs (awake l)).
  set (s := set_state EB_SLAVE_STATE_EB_HEADER (set_queues [pass 0x4e6f1644 false false; pass w false false] []
              (set_bufs (mkBuffers ws (input_word_buffer2 b) (output_word_buffer b) (word_count b)) (awake l)))).
  destruct (round_passes l s p [pass 0x4e6f1644 false false; pass w false false] ws outs x) as (l' & El & Hl & Hcl); try done.
  - unfold step_state, on_idle, next_word, pop_word. rewrite E1, Hi, Hp. cbn -[awake]. unfold s, b, push_stb. cbn -[awake].
    by rewrite Hs, Hw.
  - by repeat constructor.
  - unfold counted, s. cbn. subst b. rewrite Ho, Hi in *. cbn in *. lia.
  - eapply runs_one; [done|exact Hl|]. rewrite Hcl. unfold ctl, s. cbn. by rewrite E2, E3.
Qed.

(** One word of the answer per word of the requests. *)
Lemma exec_reads_length config adrs : forall x vs x', exec_reads config adrs x = Ret (vs, x') -> length vs = length adrs.
Proof.
  induction adrs as [|a adrs IH]; intros x vs x' E; [by injection E as <- <-|]. rewrite exec_reads_cons in E.
  destruct (exec_read config a x) as [[v x1]|e|why]; try done. cbn [mbind outcome_bind] in E.
  destruct (exec_reads config adrs x1) as [[vs1 x2]|e|why] eqn:E1; try done. injection E as <- <-. cbn. by rewrite (IH _ _ _ E1).
Qed.

Lemma exec_request_length q x ans x' : exec_request q x = Ret (ans, x') -> length ans = length (words_of q).
Proof.
  unfold exec_request, words_of, has_writes. intros E.
  destruct (if negb _ then _ else _) as [[a1 x1]|e|why] eqn:E1 in E; try done. cbn [mbind outcome_bind] in E.
  assert (length a1 = S (length (part (rq_base q) (rq_writes q)))) as Ha1.
  { destruct (rq_writes q) as [|v vals]; cbn -[exec_writes] in E1; [by injection E1 as <- _|].
    destruct (if wca q then _ else _) as [x2|e|why]; try done. injection E1 as <- _.
    cbn. rewrite length_app, length_replicate. cbn. lia. }
  destruct (rq_reads q) as [|r adrs].
  - injection E as <- _. rewrite app_nil_r. cbn. by rewrite length_app, Nat.add_0_r.
  - destruct (exec_reads (reads_config q) (r :: adrs) (passed false x1)) as [[vs x2]|e|why] eqn:Er; try done. injection E as <- _.
    apply exec_reads_length in Er. cbn in *. rewrite !length_app, Ha1. cbn. lia.
Qed.

Lemma exec_requests_length qs : forall x ans x', exec_requests qs x = Ret (ans, x') ->
  length ans = length (concat (map words_of qs)).
Proof.
  induction qs as [|q qs IH]; intros x ans x' E; cbn [exec_requests map concat] in *; [by injection E as <- <-|].
  destruct (exec_request q x) as [[a1 x1]|e|why] eqn:E1; try done. cbn [mbind outcome_bind] in E.
  destruct (exec_requests qs x1) as [[a2 x2]|e|why] eqn:E2; try done. injection E as <- <-.
  by rewrite !length_app, (exec_request_length _ _ _ _ E1), (IH _ _ _ E2).
Qed.

Definition sent_msis (msis : list (Z * Z)) (p : P) : P := foldl (fun p m => pty_write (msi_bytes cfg m) p) p msis.

Lemma settle_answer ans x p : ans <> [] ->
  settle (mkView [] ans x p) =
  let p := pty_write (concat (map bytes_be ans)) p in
  if poll_msis cfg then mkView [] [] x p
  else mkView [] [] (set_x_regs (set_msi_queue [] (x_regs x)) x) (sent_msis (msi_queue (x_regs x)) p).
Proof. intros Hne. unfold settle. by destruct ans. Qed.

(** A packet that is executed. *)
Lemma packet_run qs l p p1 p2 behind x h a ans x' :
  holds l (mkView [] [] x p) -> ctl (lp_slave l) = (EB_SLAVE_STATE_EB_HEADER, h, a) ->
  pty_poll p = (Readable, p1) -> pty_read p1 = (Got (concat (map bytes_be (concat (map words_of qs)))) behind, p2) ->
  qs <> [] -> Forall fits qs -> Forall (fun w => 0 <= w < 2 ^ 32) (concat (map words_of qs)) ->
  Z.of_nat (length (concat (map words_of qs))) < 2 ^ 32 ->
  exec_requests qs x = Ret (ans, x') ->
  exists h' a', runs (list_sum (map rounds qs)) l (settle (mkView [] ans x' p2)) (EB_SLAVE_STATE_EB_HEADER, h', a').
Proof.
  intros Hl Hc Hpoll Hread Hne Hf Hws Hlen Hx.
  assert (concat (map words_of qs) <> []) as Hne' by (by destruct qs).
  destruct (receive l (concat (map words_of qs)) x p p1 p2 behind Hl) as (Hl' & Eit & Hctl'); try done.
  { right. injection Hc as E1 E2 E3. unfold on_word. by rewrite E1. }
  rewrite Hc in Hctl'.
  assert (holds (received (concat (map words_of qs)) p2 l) (mkView (concat (map words_of qs) ++ []) [] x p2)) as Hl0
    by (by rewrite app_nil_r).
  destruct (requests_run qs _ [] [] x p2 h a ans x' Hf Hne Hl0 Hctl' Hx) as (h' & a' & l' & El & Hl'' & Hc'').
  exists h', a', l'. split; [|done]. destruct (list_sum (map rounds qs)) as [|n] eqn:En; [|cbn [iterate] in El |- *; rewrite Eit; exact El].
  exfalso. destruct qs as [|q qs]; [done|]. cbn in En. lia.
Qed.

(** C6: the slave executes what the client asks for.  A packet that is read from the
    terminal in one piece while the slave waits for a header is executed word by
    word in the rounds of the main loop: every request's writes in order at
    ascending addresses (or into a fifo), then its reads, on the bus or in the
    configuration space; then exactly one answer is written, a word per word of
    the packet (zeros for the writes, the header in front of the values read), and
    behind it the interrupts that arose, unless they are polled; the slave is ready
    for the next packet. *)
Theorem packet_answered qs l p p1 p2 behind x h a ans x' :
  holds l (mkView [] [] x p) -> ctl (lp_slave l) = (EB_SLAVE_STATE_EB_HEADER, h, a) ->
  pty_poll p = (Readable, p1) -> pty_read p1 = (Got (concat (map bytes_be (concat (map words_of qs)))) behind, p2) ->
  qs <> [] -> Forall fits qs -> Forall (fun w => 0 <= w < 2 ^ 32) (concat (map words_of qs)) ->
  Z.of_nat (length (concat (map words_of qs))) <= 1024 / 4 ->
  exec_requests qs x = Ret (ans, x') ->
  length ans = length (concat (map words_of qs)) /\
  exists l', iterate cfg (list_sum (map rounds qs)) l = Ret l' /\
    lp_board l' = x_board x' /\ state (lp_slave l') = EB_SLAVE_STATE_EB_HEADER /\
    let answered := pty_write (concat (map bytes_be ans)) p2 in
    if poll_msis cfg then holds l' (mkView [] [] x' answered)
    else holds l' (mkView [] [] (set_x_regs (set_msi_queue [] (x_regs x')) x') (sent_msis (msi_queue (x_regs x')) answered)).
Proof.
  intros Hl Hc Hpoll Hread Hne Hf Hws Hlen Hx. pose proof (exec_requests_length _ _ _ _ Hx) as Ha. split; [done|].
  assert (Z.of_nat (length (concat (map words_of qs))) < 2 ^ 32) by (change (1024 / 4) with 256 in Hlen; lia).
  destruct (packet_run qs l p p1 p2 behind x h a ans x') as (h' & a' & l' & El & Hl' & Hc'); try done.
  assert (ans <> []) as Hans by (destruct qs; [done|]; by destruct ans).
  rewrite settle_answer in Hl' by done. cbn zeta in Hl'. exists l'. split; [done|].
  injection Hc' as Es _ _. destruct (poll_msis cfg); (split; [apply (h_board _ _ Hl')|split; [done|exact Hl']]).
Qed.
End Rounds.

(** ** An example: the devices of the simulator behind the bridge *)
Module SlaveDemo.
(** What arrives, with an empty piece where a poll comes too early. *)
Record Tty := mkTty { t_in : list (list Z); t_out : list (list Z) }.
#[local] Instance tty_pty : Pty Tty := {|
  pty_poll := fun t => match t_in t with [] => (Nothing, t) | [] :: bs => (Nothing, mkTty bs (t_out t)) | _ => (Readable, t) end;
  pty_read := fun t => match t_in t with [] => (Again, t) | b :: bs => (Got b [], mkTty bs (t_out t)) end;
  pty_write := fun b t => mkTty (t_in t) (t_out t ++ [b]);
  pty_close := fun t => t;
  pty_open := fun t => (true, t)
|}.
#[local] Instance board : Wishbone Board := board_wishbone (fun l => l) 0.

Definition config (polled : bool) : Config := mkConfig 0x300 0x20000 0x2ffff polled.
Definition eca0 : SoftwareECA := SoftwareECA_new.
Definition board0 : Board := mkBoard [WatchdogMutex 0x40; MsiMailbox 0x1000 (replicate 128 0xffffffff)] (mkSim eca0 false) [].
Definition raw : EBslave :=
  mkSlave (mkBuffers [] [] [] 7) (mkHeader true true true true true true 1 2 3 4) 5 6 (mkRegisters 7 [] 8 9 10 true true)
    EB_SLAVE_STATE_IDLE false [] [] true.

(** Slot 0 of the mailbox is set and read back, then an interrupt is asked for. *)
Definition request1 : Request := mkRequest 0x080f0101 0x1004 [0x20010] 0x8000 [0x1004].
Definition request2 : Request := mkRequest 0x080f0100 0x1000 [0xcafe] 0 [].
Definition packet : list Z := concat (map words_of [request1; request2]).
Definition hello : list Z := [0x4e6f11ff; 0x0000000f].

Definition start (polled : bool) (input : list (list Z)) : Loop (P := Tty) (W := Board) :=
  let '(s, t) := EBslave_new raw (mkTty (map (fun ws => concat (map bytes_be ws)) input) []) in
  mkLoop s t board0 false false 0 3.
Definition after (polled : bool) (n : nat) (input : list (list Z)) : outcome (Loop (P := Tty) (W := Board)) :=
  iterate (config polled) n (start polled input).
Definition written (o : outcome (Loop (P := Tty) (W := Board))) : list (list Z) :=
  match o with Ret l => map (fun b => words_be b []) (t_out (lp_pty l)) | _ => [] end.

(** The hello, the answer to the packet, the interrupt. *)
Example session : written (after false 9 [hello; packet]) =
  [[0x4e6f1644; 0xf]; [0; 0; 0x080f0100; 0x8000; 0x20010; 0; 0; 0x080f0000]; [0xa80f0100; 0x10; 0xcafe]].
Proof. vm_compute. reflexivity. Qed.
(** In one piece there is one answer. *)
Example session_at_once : written (after false 9 [hello ++ packet]) =
  [[0x4e6f1644; 0xf; 0; 0; 0x080f0100; 0x8000; 0x20010; 0; 0; 0x080f0000]; [0xa80f0100; 0x10; 0xcafe]].
Proof. vm_compute. reflexivity. Qed.
(** A hello that arrives in two pieces is lost, and nothing that follows is answered. *)
Example hello_in_pieces : written (after false 20 [[0x4e6f11ff]; []; [0xf]; packet]) = [[0x4e6f1644]].
Proof. vm_compute. reflexivity. Qed.

(** The slave after the hello, with the packet on its way. *)
Definition ready : Loop (P := Tty) (W := Board) := match after false 1 [hello; packet] with Ret l => l | _ => start false [] end.
Definition exec0 : Exec (W := Board) := mkExec (lp_board ready) (lp_dat_out ready) (regs (lp_slave ready)).
Definition executed : list Z * Exec (W := Board) :=
  match exec_requests (config false) [request1; request2] exec0 with Ret r => r | _ => ([], exec0) end.

Lemma packet_answered_witness :
  exec_requests (config false) [request1; request2] exec0 = Ret executed /\
  length executed.1 = length packet /\
  exists l', iterate (config false) 8 ready = Ret l' /\ lp_board l' = x_board executed.2 /\
    state (lp_slave l') = EB_SLAVE_STATE_EB_HEADER /\
    holds l' (mkView [] [] (set_x_regs (set_msi_queue [] (x_regs executed.2)) executed.2)
      (sent_msis (config false) (msi_queue (x_regs executed.2))
        (pty_write (concat (map bytes_be executed.1)) (mkTty [] (t_out (lp_pty ready)))))).
Proof.
  split; [vm_compute; reflexivity|].
  apply (packet_answered (config false) [request1; request2] ready (lp_pty ready) (lp_pty ready)
    (mkTty [] (t_out (lp_pty ready))) [] exec0 (hdr (lp_slave ready)) (base_write_adr (lp_slave ready)) executed.1 executed.2).
  - split; [|vm_compute; reflexivity..]. split; [vm_compute; reflexivity..| | | |]; vm_compute; repeat split; reflexivity.
  - vm_compute. reflexivity.
  - vm_compute. reflexivity.
  - vm_compute. reflexivity.
  - discriminate.
  - repeat constructor.
  - repeat constructor; vm_compute; congruence.
  - vm_compute. discriminate.
  - vm_compute. reflexivity.
Defined.
End SlaveDemo.
