(* ===== verification/EbSlaveTyped.v ===== *)
(** * Whatever is read: the state of the etherbone slave stays well formed

    Words of 32 and counts of 8 bits, empty queues between the rounds, and never
    more words to come and to answer than the copy of the input has, so that
    nothing is ever taken from an empty queue. *)
From S2P Require Import Prelude Bus EcaHw EcaOps SoftEca SoftDevices EbSlave EbSlaveCorrect.
Local Open Scope Z_scope.

Definition u32_ok (z : Z) : Prop := 0 <= z < 2 ^ 32.
Definition u8_ok (z : Z) : Prop := 0 <= z < 2 ^ 8.
Definition msi_ok (m : Z * Z) : Prop := u32_ok m.1 /\ u32_ok m.2.

(** ** Bits *)
Lemma lor_ok n a b : 0 <= n -> 0 <= a < 2 ^ n -> 0 <= b < 2 ^ n -> 0 <= Z.lor a b < 2 ^ n.
Proof.
  intros Hn Ha Hb. rewrite <- (Z.mod_small a (2 ^ n)), <- (Z.mod_small b (2 ^ n)) by done.
  rewrite <- !Z.land_ones, <- Z.land_lor_distr_l, Z.land_ones by done. apply Z.mod_pos_bound. lia.
Qed.
Lemma land_ok n a b : 0 <= n -> 0 <= b < 2 ^ n -> 0 <= Z.land a b < 2 ^ n.
Proof.
  intros Hn Hb. rewrite <- (Z.mod_small b (2 ^ n)) by done.
  rewrite <- Z.land_ones, Z.land_assoc, Z.land_ones by done. apply Z.mod_pos_bound. lia.
Qed.
Lemma u32_is_ok z : u32_ok (u32 z).
Proof. apply unsigned_wrap_range. lia. Qed.
#[local] Hint Resolve u32_is_ok : core.

Lemma lor_u32 a b : u32_ok a -> u32_ok b -> u32_ok (Z.lor a b).
Proof. by apply lor_ok. Qed.
Lemma word_be_ok a b c d : u8_ok a -> u8_ok b -> u8_ok c -> u8_ok d -> u32_ok (word_be a b c d).
Proof.
  unfold u8_ok, u32_ok, word_be. intros. rewrite !lor_shiftl_low by lia. lia.
Qed.
Lemma nth_ok i l : Forall u8_ok l -> u8_ok (nth i l 0).
Proof.
  intros Hl. revert i. induction Hl as [|z l Hz _ IH]; intros [|i]; cbn; unfold u8_ok; try lia; [exact Hz|apply IH].
Qed.
Lemma words_be_ok : forall bytes behind, Forall u8_ok bytes -> Forall u8_ok behind -> Forall u32_ok (words_be bytes behind).
Proof.
  fix IH 1. intros bytes behind Hb Hbe.
  destruct bytes as [|a [|b [|c [|d bytes]]]]; cbn [words_be]; repeat (apply Forall_cons in Hb as [? Hb]);
    first [apply Forall_cons; split; [by apply word_be_ok; auto using nth_ok|first [by apply Forall_nil_2|by apply IH]]|by apply Forall_nil_2].
Qed.

Lemma response_ok w h : u32_ok (response_of w h).
Proof.
  unfold response_of. repeat apply lor_u32.
  - apply land_ok; lia.
  - rewrite Z.shiftl_mul_pow2 by lia. pose proof (land_ok 8 w 0xff ltac:(lia) ltac:(lia)) as Hl.
    change (2 ^ 8) with 256 in *. unfold u32_ok. change (2 ^ 32) with 4294967296. lia.
  - destruct (eb_flag_cyc h); split; vm_compute; congruence.
  - destruct (eb_flag_bca h); split; vm_compute; congruence.
  - destruct (eb_flag_rff h); split; vm_compute; congruence.
Qed.

(** ** Well-formed states *)
Record hdr_ok (h : Header) : Prop := {
  ho_byte_en : u8_ok (eb_byte_en h); ho_wcount : u8_ok (eb_wcount h); ho_rcount : u8_ok (eb_rcount h);
  ho_new : u32_ok (new_header h)
}.
Record regs_ok (r : Registers) : Prop := {
  ro_err : u32_ok (error_shift_reg r); ro_queue : Forall msi_ok (msi_queue r);
  ro_adr : u32_ok (msi_adr r); ro_dat : u32_ok (msi_dat r); ro_cnt : u32_ok (msi_cnt r)
}.
Record bufs_ok (b : Buffers) (pending : nat) : Prop := {
  bo_in : Forall u32_ok (input_word_buffer b); bo_out : Forall u32_ok (output_word_buffer b);
  bo_count : u32_ok (word_count b);
  bo_copy : (length (input_word_buffer b) + length (output_word_buffer b) + pending <= length (input_word_buffer2 b))%nat
}.
Record stb_ok (b : wb_stb) : Prop := {
  so_adr : u32_ok (stb_adr b); so_dat : u32_ok (stb_dat b);
  so_new : match stb_new_header b with Some n => u32_ok n | None => True end
}.
(** In a round: pass-throughs and at most one access behind them, and [k] words
    that were taken and have no entry yet. *)
Record slave_ok (s : EBslave) (k : nat) (ps rest : list wb_stb) : Prop := {
  ok_bufs : bufs_ok (bufs s) (length ps + length rest + k);
  ok_hdr : hdr_ok (hdr s); ok_write : u32_ok (base_write_adr s); ok_regs : regs_ok (regs s);
  ok_stbs : wb_stbs s = ps ++ rest; ok_waits : wb_wait_for_acks s = [];
  ok_pass : Forall (fun b => passthrough b = true) ps; ok_passed : Forall stb_ok ps;
  ok_rest : match rest with [] => True | [b] => passthrough b = false /\ stb_ok b | _ => False end
}.

Record config_ok (c : Config) : Prop := {
  co_sdb : u32_ok (eb_sdb_adr c); co_first : u32_ok (eb_msi_adr_first c); co_last : u32_ok (eb_msi_adr_last c)
}.

Lemma shift_error_ok e r : 0 <= e <= 1 -> regs_ok r -> regs_ok (shift_error e r).
Proof. intros He []. split; cbn; try done. apply lor_u32; [done|]. unfold u32_ok. lia. Qed.
Lemma pass_errors_ok ps r : regs_ok r -> regs_ok (foldl pass_error r ps).
Proof. revert r. induction ps as [|b ps IH]; intros r Hr; cbn; [done|]. apply IH, shift_error_ok; [by destruct (stb_err b)|done]. Qed.
Lemma take_msis_ok ms r : Forall msi_ok ms -> regs_ok r -> regs_ok (take_msis ms r).
Proof.
  intros Hm. revert r. induction Hm as [|m ms Hm _ IH]; intros r Hr; cbn; [done|]. apply IH.
  destruct Hr. split; cbn; try done. apply Forall_app. by repeat constructor; try apply Hm.
Qed.

(** ** Parts of a round *)
Lemma set_hdr_ok s k ps rest h : slave_ok s k ps rest -> hdr_ok h -> slave_ok (set_hdr h s) k ps rest.
Proof. intros [] ?. by split. Qed.
Lemma set_state_ok s k ps rest t : slave_ok s k ps rest -> slave_ok (set_state t s) k ps rest.
Proof. intros []. by split. Qed.
Lemma set_regs_ok s k ps rest r : slave_ok s k ps rest -> regs_ok r -> slave_ok (set_regs r s) k ps rest.
Proof. intros [] ?. by split. Qed.
Lemma set_base_write_ok s k ps rest a : slave_ok s k ps rest -> u32_ok a -> slave_ok (set_base_write a s) k ps rest.
Proof. intros [] ?. by split. Qed.
Lemma set_base_ret_ok s k ps rest a : slave_ok s k ps rest -> slave_ok (set_base_ret a s) k ps rest.
Proof. intros []. by split. Qed.
Lemma slack_ok s k k' ps rest : (k' <= k)%nat -> slave_ok s k ps rest -> slave_ok s k' ps rest.
Proof. intros Hk [[] ? ? ? ? ? ? ? ?]. split; try done. split; try done. lia. Qed.
Lemma dec_wcount_ok h : hdr_ok h -> hdr_ok (dec_wcount h).
Proof. intros []. split; cbn; try done. apply unsigned_wrap_range. lia. Qed.
Lemma dec_rcount_ok h : hdr_ok h -> hdr_ok (dec_rcount h).
Proof. intros []. split; cbn; try done. apply unsigned_wrap_range. lia. Qed.
#[local] Hint Resolve set_hdr_ok set_state_ok set_regs_ok set_base_write_ok set_base_ret_ok dec_wcount_ok dec_rcount_ok : core.

Lemma push_stb_pass_ok s k ps d e c : slave_ok s (S k) ps [] -> u32_ok d ->
  slave_ok (push_stb (pass d e c) s) k (ps ++ [pass d e c]) [].
Proof.
  intros [[] ? ? ? Hs ? ? ? ?] Hd. split; cbn; try done.
  - split; try done. rewrite length_app. cbn in *. lia.
  - by rewrite Hs, !app_nil_r.
  - apply Forall_app. split; [done|by apply Forall_singleton].
  - apply Forall_app. split; [done|]. by apply Forall_singleton.
Qed.
Lemma push_pass_ok s k ps d e : slave_ok s (S k) ps [] -> u32_ok d ->
  slave_ok (push_pass d e s) k (ps ++ [pass d e (eb_flag_cyc (hdr s))]) [].
Proof. apply push_stb_pass_ok. Qed.
Lemma push_access_ok s k ps b : slave_ok s (S k) ps [] -> passthrough b = false -> stb_ok b -> slave_ok (push_stb b s) k ps [b].
Proof.
  intros [[] ? ? ? Hs ? ? ? ?] Hb Hd. split; cbn; try done.
  - split; try done. cbn in *. lia.
  - by rewrite Hs, app_nil_r.
Qed.

Section Typed.
Context {P W : Type} `{Pty P, Wishbone W}.
Variable cfg : Config.
Hypothesis Hcfg : config_ok cfg.

(** What is relied on: bytes are bytes; the bus delivers words, given words, while
    what is behind it is in order. *)
Variable board_ok : W -> Prop.
Hypothesis pty_read_bytes : forall p bytes behind p', pty_read p = (Got bytes behind, p') -> Forall u8_ok bytes /\ Forall u8_ok behind.
Hypothesis bus_words : forall adr we dat dat_out w r w', u32_ok adr -> u32_ok dat -> u32_ok dat_out -> board_ok w ->
  wb_access adr we dat dat_out w = Ret (r, w') -> u32_ok (rs_dat r) /\ Forall msi_ok (rs_msis r) /\ board_ok w'.

Definition fine (s : EBslave) (k : nat) : Prop := exists ps rest, slave_ok s k ps rest.

Lemma init_ok s p k ps rest : slave_ok s k ps rest -> slave_ok (init s p).1 0 [] [].
Proof.
  intros [[] ? ? ? ? ? ? ? ?]. unfold init. cbn.
  assert (forall wc, u32_ok wc -> bufs_ok (mkBuffers [] [] [] wc) 0) as Hempty by (intros; split; cbn; [done..|lia]).
  assert (regs_ok (set_error_shift 0 (regs s))) by (destruct ok_regs0; by split).
  destruct (shut_down s); [|destruct (pty_open p) as [[] p']]; cbn; split; try done; by apply Hempty.
Qed.

Lemma fill_ok s p ps : slave_ok s 0 ps [] ->
  slave_ok (fill_input_buffer s p).1 0 ps [] \/
  slave_ok (fill_input_buffer s p).1 0 [] [] /\ input_word_buffer (bufs (fill_input_buffer s p).1) = [].
Proof.
  intros Hs. unfold fill_input_buffer. destruct (pty_poll p) as [[] p1]; [by left| |].
  - right. split; [by eapply init_ok|]. unfold init. cbn. by destruct (shut_down s); [|destruct (pty_open _) as [[] ?]].
  - destruct (pty_read p1) as [[| |bytes behind] p2] eqn:Hr; [by left| |].
    + right. split; [by eapply init_ok|]. unfold init. cbn. by destruct (shut_down s); [|destruct (pty_open _) as [[] ?]].
    + left. destruct (4 <=? length bytes)%nat; [|exact Hs]. cbn. apply pty_read_bytes in Hr as [Hb Hbe].
      destruct Hs as [[] ? ? ? ? ? ? ? ?]. split; try done. split; cbn; try done.
      * apply Forall_app. split; [done|]. by apply words_be_ok.
      * rewrite !length_app. lia.
Qed.

Lemma pop_ok s ps w s' : slave_ok s 0 ps [] -> pop_word s = Some (w, s') -> u32_ok w /\ slave_ok s' 1 ps [].
Proof.
  unfold pop_word. intros [[Hi] ? ? ? ? ? ? ? ?] E. destruct (input_word_buffer (bufs s)) as [|w0 ws] eqn:Ei; [done|].
  injection E as <- <-. apply Forall_cons in Hi as [? ?]. split; [done|]. split; try done. split; cbn in *; try done. lia.
Qed.

Lemma next_word_ok s p ps : slave_ok s 0 ps [] ->
  match next_word s p with
  | (Some w, s', _) => u32_ok w /\ slave_ok s' 1 ps []
  | (None, s', _) => fine s' 0
  end.
Proof.
  intros Hs. unfold next_word. destruct (pop_word s) as [[w s']|] eqn:E; [by eapply pop_ok|].
  pose proof (fill_ok s p ps Hs) as Hf. destruct (fill_input_buffer s p) as [s1 p1]. cbn in Hf.
  destruct (pop_word s1) as [[w s2]|] eqn:E2.
  - destruct Hf as [Hf|[Hf Hn]]; [by eapply pop_ok|]. unfold pop_word in E2. by rewrite Hn in E2.
  - destruct Hf as [Hf|[Hf _]]; by eexists _, _.
Qed.
Lemma config_read_ok a r v e r' : regs_ok r -> config_read cfg a r = (v, e, r') -> u32_ok v /\ regs_ok r'.
Proof.
  assert (u32_ok 0 /\ u32_ok 1 /\ u32_ok 3) as (Z0 & Z1 & Z3) by (unfold u32_ok; lia).
  destruct Hcfg as [? ? ?]. intros Hr. pose proof Hr as [He Hq Ha Hd Hc]. unfold config_read.
  destruct (a =? 0x40) eqn:E40.
  - apply Z.eqb_eq in E40 as ->. cbn -[u32_ok]. destruct (msi_queue r) as [|[x y] q]; [intros [= <- <- <-]; split; [done|by split]|].
    apply Forall_cons in Hq as [[Hx Hy] Hq]. destruct (poll_msis cfg); intros [= <- <- <-]; (split; [done|]); split; try done.
    + cbn. by destruct (length q).
    + by constructor.
  - assert (regs_ok (set_error_shift 0 r)) by (by split).
    repeat match goal with |- (if ?b then _ else _) = _ -> _ => destruct b; [intros E; injection E as <- <- <-; done|] end. by intros [= <- <- <-].
Qed.

Lemma parse_header_ok w h : hdr_ok h -> hdr_ok (parse_header w h).
Proof.
  intros [_ _ _ Hn]. split; cbn; [| | |done].
  - rewrite Z.shiftr_land. apply land_ok; [lia|vm_compute; split; congruence].
  - rewrite Z.shiftr_land. apply land_ok; [lia|vm_compute; split; congruence].
  - apply land_ok; [lia|vm_compute; split; congruence].
Qed.

Lemma on_header_ok s ps w : slave_ok s 1 ps [] -> fine (on_header w s) 0.
Proof.
  intros Hs. pose proof (parse_header_ok w _ (ok_hdr _ _ _ _ Hs)) as Hh. unfold on_header.
  set (h := parse_header w (hdr s)) in *.
  set (h' := if 0 <? eb_wcount h then _ else h).
  assert (hdr_ok h') as Hh'.
  { unfold h'. destruct (0 <? eb_wcount h); [|done]. destruct Hh. split; try done.
    cbn. apply land_ok; [lia|]. split; vm_compute; congruence. }
  eexists _, _. apply set_state_ok, push_pass_ok; [by apply set_hdr_ok|].
  destruct (0 <? eb_wcount h); [unfold u32_ok; lia|apply response_ok].
Qed.

Lemma on_config_write_ok s ps : slave_ok s 1 ps [] -> fine (on_config_write s) 0.
Proof.
  intros Hs. pose proof (ok_hdr _ _ _ _ Hs) as Hh. unfold on_config_write.
  assert (u32_ok (if eb_wcount (dec_wcount (hdr s)) =? 0 then new_header (dec_wcount (hdr s)) else 0)) as Hd
    by (destruct (_ =? 0); [apply Hh|unfold u32_ok; lia]).
  pose proof (push_pass_ok _ 0 ps _ false (set_hdr_ok _ _ _ _ _ Hs (dec_wcount_ok _ Hh)) Hd) as H1.
  destruct (_ =? 0); eexists _, _; [apply set_state_ok|]; exact H1.
Qed.

Lemma on_config_read_ok s ps a : slave_ok s 1 ps [] -> fine (on_config_read cfg a s) 0.
Proof.
  intros Hs. pose proof (ok_hdr _ _ _ _ Hs) as Hh. unfold on_config_read.
  destruct (config_read cfg a (regs s)) as [[v e] r] eqn:E. apply config_read_ok in E as [Hv Hr]; [|apply Hs].
  pose proof (push_pass_ok _ 0 ps v e (set_regs_ok _ _ _ _ _ (set_hdr_ok _ _ _ _ _ Hs (dec_rcount_ok _ Hh)) Hr) Hv) as H1.
  destruct (_ =? 0); eexists _, _; [apply set_state_ok|]; exact H1.
Qed.

Lemma on_write_ok s ps v : slave_ok s 1 ps [] -> u32_ok v -> fine (on_write v s) 0.
Proof.
  intros Hs Hv. pose proof (ok_hdr _ _ _ _ Hs) as Hh. unfold on_write. set (last := _ =? 0).
  set (b := mkStb _ _ _ _ _ _ _ _).
  assert (stb_ok b) as Hb by (split; cbn; [apply Hs|done|destruct last; [apply Hh|done]]).
  pose proof (push_access_ok _ 0 ps b (set_hdr_ok _ _ _ _ _ Hs (dec_wcount_ok _ Hh)) eq_refl Hb) as H1.
  destruct (eb_flag_wff _), last; eexists _, _; eauto using set_state_ok, set_base_write_ok.
Qed.

Lemma on_read_ok s ps a : slave_ok s 1 ps [] -> u32_ok a -> fine (on_read a s) 0.
Proof.
  intros Hs Ha. pose proof (ok_hdr _ _ _ _ Hs) as Hh. unfold on_read.
  pose proof (push_access_ok _ 0 ps (mkStb a 0 false false false false (eb_flag_cyc (dec_rcount (hdr s))) None)
    (set_hdr_ok _ _ _ _ _ Hs (dec_rcount_ok _ Hh)) eq_refl) as H1.
  assert (stb_ok (mkStb a 0 false false false false (eb_flag_cyc (dec_rcount (hdr s))) None)) as Hb
    by (split; cbn; [done|unfold u32_ok; lia|done]).
  destruct (_ =? 0); eexists _, _; eauto using set_state_ok.
Qed.

Lemma on_word_ok s0 s ps f w : slave_ok s 1 ps [] -> u32_ok w -> on_word cfg s0 = Some f -> fine (f w s) 0.
Proof.
  intros Hs Hw. assert (u32_ok 0) as Z0 by (unfold u32_ok; lia). unfold on_word.
  destruct (state s0); [done|..]; repeat case_match; try done; intros [= <-];
    eauto using on_header_ok, on_config_write_ok, on_config_read_ok, on_write_ok, on_read_ok;
    eexists _, _; apply set_state_ok, push_pass_ok; eauto.
Qed.

Lemma on_idle_ok s p : slave_ok s 0 [] [] -> fine (on_idle s p).1 0.
Proof.
  intros Hs. unfold on_idle. pose proof (next_word_ok s p [] Hs) as H1.
  destruct (next_word s p) as [[[w|] s1] p1]; [|done]. destruct H1 as [Hw H1].
  destruct (w =? _); cbn; [|eexists _, _; by eapply (slack_ok _ 1); [lia|]].
  assert (u32_ok 0x4e6f1644) as Hh by (unfold u32_ok; lia).
  pose proof (push_stb_pass_ok _ 0 _ _ false false H1 Hh) as H2.
  pose proof (next_word_ok _ p1 _ H2) as H3. destruct (next_word _ p1) as [[[w2|] s3] p3]; [|done].
  destruct H3 as [Hw2 H3]. eexists _, _. apply set_state_ok. by apply push_stb_pass_ok.
Qed.

Lemma step_state_ok s p : slave_ok s 0 [] [] -> fine (step_state cfg s p).1 0.
Proof.
  intros Hs. unfold step_state. pose proof (on_idle_ok s p Hs) as Hi.
  assert (forall t, fine (set_state t s) 0) as Ht by (intros; eexists _, _; by apply set_state_ok).
  destruct (on_word cfg s) as [f|] eqn:Ef.
  - pose proof (next_word_ok s p [] Hs) as H1. destruct (next_word s p) as [[[w|] s1] p1].
    + destruct H1 as [Hw H1]. pose proof (on_word_ok s s1 [] f w H1 Hw Ef). by destruct (state s).
    + by destruct (state s).
  - assert (fine s 0) by (by eexists _, _). destruct (state s); first [done|apply Ht].
Qed.

Lemma handle_passes_ok s ps rest : slave_ok s 0 ps rest -> slave_ok (handle_pass_through s).2 0 [] rest.
Proof.
  intros [[Hi Ho Hc Hl] Hh Hw Hr Hs Hq Hp Hpd Hrest].
  rewrite (handle_passes s ps rest) by (first [done|destruct rest as [|b [|]]; [done|apply Hrest|done]]). cbn.
  split; cbn; try done; [|by apply pass_errors_ok]. split; cbn; try done.
  - apply Forall_app. split; [done|]. apply Forall_map. eapply Forall_impl; [exact Hpd|]. by intros ? [].
  - rewrite length_app, length_map. lia.
Qed.

Lemma drain_ok out : forall in2 wc, (length out <= length in2)%nat -> u32_ok wc ->
  exists bs wc', drain out in2 wc = Ret (bs, drop (length out) in2, wc') /\ u32_ok wc'.
Proof.
  induction out as [|w out IH]; intros in2 wc Hl Hw; cbn [drain length] in *; [by exists [], wc|].
  destruct in2 as [|w2 in2]; cbn in Hl; [lia|]. destruct (IH in2 (u32 (wc - 1)) ltac:(lia) (u32_is_ok _)) as (bs & wc' & -> & Hwc').
  by exists (bytes_be w ++ bs), wc'.
Qed.

Lemma send_ok s p rest : slave_ok s 0 [] rest ->
  exists s' p', send_output_buffer cfg s p = Ret (s', p') /\ slave_ok s' 0 [] rest.
Proof.
  intros Hs. pose proof Hs as [[Hi Ho Hc Hl] Hh Hw Hr Hq Hwt Hp Hpd Hrest]. unfold send_output_buffer. cbn in Hl.
  assert (forall s1 p1, slave_ok s1 0 [] rest ->
    exists s' p', (if (word_count (bufs s1) =? 0) && negb (poll_msis cfg)
                   then mret (set_regs (set_msi_queue [] (regs s1)) s1, sent_msis cfg (msi_queue (regs s1)) p1)
                   else mret (s1, p1)) = Ret (s', p') /\ slave_ok s' 0 [] rest) as Hend.
  { intros s1 p1 H1. destruct (_ && _); eexists _, _; (split; [done|]); [|done].
    apply set_regs_ok; [done|]. destruct (ok_regs _ _ _ _ H1). by split. }
  destruct (_ && _); [|by apply (Hend s p)].
  destruct (drain_ok (output_word_buffer (bufs s)) (input_word_buffer2 (bufs s)) (word_count (bufs s)) ltac:(lia) Hc)
    as (bs & wc' & -> & Hwc'). 
    apply (Hend (set_bufs (mkBuffers (input_word_buffer (bufs s)) (drop (length (output_word_buffer (bufs s))) (input_word_buffer2 (bufs s)))
             [] wc') s) (write_bytes bs p)).
    split; try done. split; try done. cbn. rewrite length_drop. lia.
Qed.

(** The loop between two rounds *)
Record loop_ok (l : Loop (P := P) (W := W)) : Prop := {
  lo_slave : slave_ok (lp_slave l) 0 [] []; lo_dat : u32_ok (lp_dat_out l); lo_board : board_ok (lp_board l)
}.

Lemma handle_none s rest : slave_ok s 0 [] rest -> handle_pass_through s = (false, s).
Proof.
  intros [? ? ? ? Hs Hw ? ? Hrest]. rewrite (handle_passes s [] rest) by (first [done|destruct rest as [|b [|]]; [done|apply Hrest|done]]).
  destruct s as [[] ? ? ? ? ? ? ? ? ?]. unfold add_output. cbn in *. subst. by rewrite app_nil_r.
Qed.

Lemma master_in_none err rty stall dat s p : slave_ok s 0 [] [] ->
  exists b s' p', master_in cfg false err rty stall dat s p = Ret (b, s', p') /\ slave_ok s' 0 [] [].
Proof.
  intros Hs. unfold master_in. rewrite (handle_none s [] Hs). rewrite (ok_stbs _ _ _ _ Hs). cbn [app].
  rewrite (ok_waits _ _ _ _ Hs). destruct (send_ok s p [] Hs) as (s' & p' & -> & Hs'). by exists false, s', p'.
Qed.

Lemma master_in_access err rty dat b s p : slave_ok s 0 [] [b] -> u32_ok dat -> strobe s = true ->
  exists c s' p', master_in cfg true err rty false dat s p = Ret (c, s', p') /\ slave_ok s' 0 [] [].
Proof.
  intros Hs Hd Hst. unfold master_in. rewrite (handle_none s [b] Hs), (ok_stbs _ _ _ _ Hs). cbn [app]. rewrite Hst. cbn [andb negb].
  rewrite (ok_waits _ _ _ _ Hs). cbn -[send_output_buffer].
  set (s1 := set_regs _ _).
  assert (slave_ok s1 0 [] []) as H1.
  { destruct Hs as [[Hi Ho Hc Hl] Hh Hw Hr Hq Hwt Hp Hpd [Hb [Ha Hbd Hn]]]. split; try done.
    - split; try done; cbn; [|rewrite length_app; cbn in *; lia]. apply Forall_app. split; [done|]. apply Forall_singleton.
      destruct (stb_we b), (stb_zero b), (stb_new_header b); try done; unfold u32_ok; lia.
    - by apply (shift_error_ok 0). }
  destruct (send_ok s1 p [] H1) as (s' & p' & -> & Hs'). by eexists _, s', p'.
Qed.

Lemma round_well_typed l : loop_ok l ->
  match iteration cfg l with
  | Ret l' => loop_ok l'
  | Throw e => exists adr we dat, wb_access adr we dat (lp_dat_out l) (lp_board l) = Throw e
  | Crash why => exists adr we dat, wb_access adr we dat (lp_dat_out l) (lp_board l) = Crash why
  end.
Proof.
  intros [Hs Hd Hb]. assert (slave_ok (awake l) 0 [] []) as Ha by (unfold awake; destruct (wb_reset _); [by destruct Hs|done]).
  destruct (step_state_ok (awake l) (lp_pty l) Ha) as (ps & rest & H1). unfold iteration, master_out.
  change (if wb_reset (lp_board l) then shutdown (lp_slave l) else lp_slave l) with (awake l).
  destruct (step_state cfg (awake l) (lp_pty l)) as [s1 p1]. cbn [fst] in H1. apply handle_passes_ok in H1.
  destruct (handle_pass_through s1) as [ec s2]. cbn [snd] in H1.
  destruct (send_ok s2 p1 rest H1) as (s3 & p3 & E3 & H3). cbv beta iota. rewrite E3. cbn [mbind outcome_bind].
  rewrite (ok_stbs _ _ _ _ H3). cbn [app]. pose proof (ok_rest _ _ _ _ H3) as Hr.
  destruct rest as [|b [|]]; [| |done].
  - cbn [mret outcome_ret mbind outcome_bind o_stb o_cyc]. rewrite andb_false_r.
    assert (slave_ok (set_strobe false s3) 0 [] []) as H4 by (by destruct H3).
    cbn [mbind outcome_bind mret outcome_ret].
    destruct (master_in_none (lp_ack l) (lp_err l) false (lp_dat_out l) (set_strobe false s3) p3 H4) as (c & s5 & p5 & -> & H5).
    by split.
  - cbn [mret outcome_ret mbind outcome_bind o_stb o_cyc o_adr o_we o_dat andb orb length Nat.ltb Nat.leb]. destruct Hr as [Hpb [Hba Hbd Hbn]].
    destruct (wb_access (stb_adr b) (stb_we b) (stb_dat b) (lp_dat_out l) (lp_board l)) as [[r w]|e|why] eqn:Ew; [|by eexists _, _, _..].
    apply bus_words in Ew as (Hrd & Hrm & Hw); try done.
    assert (slave_ok (set_regs (foldl (fun r m => push_msi m.1 m.2 r) (regs (set_strobe true s3)) (rs_msis r)) (set_strobe true s3)) 0 [] [b]) as H4
      by (apply set_regs_ok; [by destruct H3|by apply (take_msis_ok (rs_msis r) (regs s3)); [|apply H3]]).
    cbn [mret outcome_ret mbind outcome_bind]. destruct (master_in_access (rs_ack r) (rs_err r) (rs_dat r) b _ p3 H4 Hrd eq_refl) as (c & s5 & p5 & -> & H5).
    by split.
Qed.

(** What the memory of the object may hold before the constructor runs: values of
    the types. *)
Record raw_ok (s : EBslave) : Prop := {
  rw_count : u32_ok (word_count (bufs s)); rw_byte_en : u8_ok (eb_byte_en (hdr s)); rw_wcount : u8_ok (eb_wcount (hdr s));
  rw_rcount : u8_ok (eb_rcount (hdr s)); rw_new : u32_ok (new_header (hdr s)); rw_write : u32_ok (base_write_adr s);
  rw_err : u32_ok (error_shift_reg (regs s)); rw_adr : u32_ok (msi_adr (regs s)); rw_dat : u32_ok (msi_dat (regs s));
  rw_cnt : u32_ok (msi_cnt (regs s))
}.

Lemma new_ok raw p : raw_ok raw -> slave_ok (EBslave_new raw p).1 0 [] [].
Proof. intros []. eapply (init_ok _ _ 0 [] []). split; cbn; try done; split; cbn; (done || lia). Qed.

(** C13: the state of the simulator's etherbone slave is well typed in every round.
    Whatever bytes are read and whatever the clients ask for, words are of 32 and
    counts of 8 bits, no strobe is pending between the rounds, and there are never
    more words to come and to answer than the copy of the input holds; so a round
    ends, no queue is read when it is empty, and the only way not to end is an
    access that the device does not survive. *)
Theorem slave_well_typed raw p w dat countdown n : raw_ok raw -> u32_ok dat -> board_ok w ->
  let '(s, p) := EBslave_new raw p in
  match iterate cfg n (mkLoop s p w false false dat countdown) with
  | Ret l => loop_ok l
  | Throw e => exists adr we d dat_out w, wb_access adr we d dat_out w = Throw e
  | Crash why => exists adr we d dat_out w, wb_access adr we d dat_out w = Crash why
  end.
Proof.
  intros Hraw Hd Hw. pose proof (new_ok raw p Hraw) as Hs. destruct (EBslave_new raw p) as [s p']. cbn [fst] in Hs.
  assert (loop_ok (mkLoop s p' w false false dat countdown)) as Hl by (by split).
  revert Hl. generalize (mkLoop s p' w false false dat countdown). clear Hraw Hd Hw Hs.
  induction n as [|n IH]; intros l Hl; cbn [iterate]; [done|]. pose proof (round_well_typed l Hl) as H1.
  destruct (iteration cfg l) as [l1|e|why]; [by apply IH| |]; destruct H1 as (adr & we & d & E); by exists adr, we, d, (lp_dat_out l), (lp_board l).
Qed.
End Typed.

(** ** A bus with one register behind it, and a terminal that delivers anything *)
Module TypedDemo.
#[local] Instance noise : Pty (list (list Z)) := {|
  pty_poll := fun t => (match t with [] => HangUp | _ => Readable end, t);
  pty_read := fun t => match t with [] => (Failed, t) | b :: bs => (Got (map u8 b) [], bs) end;
  pty_write := fun _ t => t;
  pty_close := fun t => t;
  pty_open := fun t => (true, t)
|}.
#[local] Instance register : Wishbone Z := {|
  wb_access := fun adr we dat dat_out w =>
    if we then Ret (mkResponse true false dat_out [], dat) else Ret (mkResponse true false w [], w);
  wb_reset := fun _ => false
|}.
Definition cfg0 : Config := mkConfig 0x300 0x20000 0x2ffff true.
Definition raw0 : EBslave :=
  mkSlave (mkBuffers [] [] [] 7) (mkHeader true true true true true true 1 2 3 4) 5 6 (mkRegisters 7 [] 8 9 10 true true)
    EB_SLAVE_STATE_IDLE false [] [] true.
Definition input : list (list Z) := [[0x4e; 0x6f; 0x11; 0xff; 0; 0; 0; 1; 8; 15; 0; 1; 9]; [1; 2; 3]; [0; 0; 0; 0; 1]].

Lemma slave_well_typed_witness :
  match iterate cfg0 12 (mkLoop (EBslave_new raw0 input).1 (EBslave_new raw0 input).2 5 false false 0 3) with
  | Ret l => loop_ok u32_ok l
  | _ => False
  end.
Proof.
  pose proof (fun H1 H2 H3 => slave_well_typed cfg0 H1 u32_ok H2 H3 raw0 input 5 0 3 12) as H.
  assert (match iterate cfg0 12 (mkLoop (EBslave_new raw0 input).1 (EBslave_new raw0 input).2 5 false false 0 3) with Ret _ => True | _ => False end)
    as Hret by (vm_compute; exact I).
  cbn [EBslave_new] in H. destruct (EBslave_new raw0 input) as [s p]. cbn [fst snd] in *.
  destruct (iterate cfg0 12 _) as [l|e|why]; [|done..]. apply H.
  - split; split; vm_compute; congruence.
  - intros t bytes behind t' E. destruct t as [|b t]; [done|]. injection E as <- <- <-. split; [|constructor].
    apply Forall_map, Forall_true. intros z. apply unsigned_wrap_range. lia.
  - intros adr we dat dat_out w r w' ? ? ? ? E. destruct we; injection E as <- <-; (split; [assumption|split; [constructor|assumption]]).
  - split; vm_compute; split; congruence.
  - split; vm_compute; congruence.
  - split; vm_compute; congruence.
Defined.
End TypedDemo.
