(* ===== verification/BurstControl.v ===== *)
(** * The burst control tool: saft-burst-ctl.cpp of [src/src/]

    A client of the daemon: it creates conditions at outputs and for the embedded
    processor through proxies, and sends instructions to the firmware of the burst
    generator ([BurstGen] is the driver at the other end).  The reading of
    options is in [BurstTool]; printing is not modelled. *)
From S2P Require Import Prelude Helpers.
Local Open Scope Z_scope.

(** ** Constants (bg_regs.h, io_control_regs.h, eca_flags.h and the tool's own) *)
Definition ECA_EVENT_ID_LATCH : Z := 0xfffe000000000000.
Definition IO_CONDITION_OFFSET : Z := 5000.
Definition BG_BURST_PERIOD : Z := 200000.
Definition EVT_ID_IO_H32 : Z := 0x0000fca0.
Definition EVT_MASK_IO : Z := 2 ^ 64 - 1.
Definition CMD_GET_PARAM : Z := 0x22.
Definition CMD_GET_CYCLE : Z := 0x23.
Definition CMD_LS_BURST : Z := 0x24.
Definition CMD_MK_BURST : Z := 0x25.
Definition CMD_RM_BURST : Z := 0x26.
Definition CMD_DE_BURST : Z := 0x27.
Definition CMD_LS_FW_ID : Z := 0x33.
Definition N_BURST_INFO : nat := 12.
Definition IO_RETURN_FAILURE : Z := 1.
Definition IO_RETURN_SUCCESS : Z := 0.

Inductive Direction := DIR_OUTPUT | DIR_INPUT | DIR_INOUT.
Definition direction_eqb (a b : Direction) : bool :=
  match a, b with DIR_OUTPUT, DIR_OUTPUT | DIR_INPUT, DIR_INPUT | DIR_INOUT, DIR_INOUT => true | _, _ => false end.

(** ** Calls of the proxies *)
Inductive AcceptFlag := Conflict | Delayed | Early | Late.
Inductive OutputCall :=
  | setOutputEnable (v : Z) | setSpecialPurposeOut (v : Z) | setGateOut (v : Z)
  | setBuTiSMultiplexer (v : Z) | setPPSMultiplexer (v : Z) | WriteOutput (v : Z).
Inductive InputCall :=
  | setInputTermination (v : Z) | setSpecialPurposeIn (v : Z) | setGateIn (v : Z) | setStableTime (v : Z)
  | setEventEnable (v : bool) | setEventPrefix (v : Z).

(** [W] is what is outside of the tool; a proxy is the path of its object, and
    [create] its constructor.  All of them may throw. *)
Class Proxies (W : Type) := {
  create : string -> M W unit;
  getFree : M W Z;
  getInputs : M W (list (string * string));
  NewSoftwareActionSink : M W string;
  getAllConditions : string -> M W (list string);
  out_NewCondition : string -> bool -> Z -> Z -> Z -> bool -> M W string;
  sw_NewCondition : string -> bool -> Z -> Z -> Z -> M W string;
  ecpu_NewCondition : string -> bool -> Z -> Z -> Z -> Z -> M W string;
  setAccept : string -> AcceptFlag -> bool -> M W unit;
  Disown : string -> M W unit;
  connect_action : string -> M W unit;
  getID : string -> M W Z; getMask : string -> M W Z; getTag : string -> M W Z; getOffset : string -> M W Z;
  getDestructible : string -> M W bool; getOwner : string -> M W string; Destroy : string -> M W unit;
  getActive : string -> M W bool; setActive : string -> bool -> M W unit;
  getTypeOut : string -> M W string; getIndexOut : string -> M W Z;
  getOutputEnableAvailable : string -> M W bool; getSpecialPurposeOutAvailable : string -> M W bool;
  getInputTerminationAvailable : string -> M W bool; getSpecialPurposeInAvailable : string -> M W bool;
  getOutput : string -> M W string; getInput : string -> M W string;
  output_call : string -> OutputCall -> M W unit;
  input_call : string -> InputCall -> M W unit;
  instruct : Z -> list Z -> M W Z;
  getResponse : M W Z;
  readBurstInfo : Z -> M W (list Z);
  readSharedBuffer : Z -> M W (list Z);
  wait_for_signal : Z -> M W Z;
  (** the loop that waits for signals until the process is ended *)
  wait_for_ever : M W Z
}.

(** ** The tool's global variables that change in an operation *)
Record Tool (W : Type) := mkTool { ioName : option string; ioNameGiven : bool; map_PrefixName : list (string * Z); outside : W }.
Arguments mkTool {_} _ _ _ _.
Arguments ioName {_} _.
Arguments ioNameGiven {_} _.
Arguments map_PrefixName {_} _.
Arguments outside {_} _.

Section BurstControl.
Context {W : Type} `{!Proxies W}.
Abbreviation T := (Tool W).

Definition call {A} (m : M W A) : M T A :=
  zoom outside (fun w t => mkTool (ioName t) (ioNameGiven t) (map_PrefixName t) w) m.
Definition set_name (name : option string) (given : bool) : M T unit :=
  modify (fun t => mkTool name given (map_PrefixName t) (outside t)).

(** [catch (const saftbus::Error&) { ...; return code; }] *)
Definition or_return (code : Z) (m : M T Z) : M T Z :=
  try_catch m (fun e => match e with Error _ _ => mret code | e => throw e end).

(** The maps of the timing receiver, and whether it has an embedded processor. *)
Variable outs ins : list (string * string).
Variable ecpu : option string.

Definition is_name (name : string) (t : T) : bool := bool_decide (ioName t = Some name).
(** [(ioNameGiven && name == ioName) || !ioNameGiven] *)
Definition selected (name : string) (t : T) : bool := ioNameGiven t && is_name name t || negb (ioNameGiven t).

(** ** Instructions for the firmware *)
Fixpoint await_response (fuel : nat) (response n_timeout : Z) : M T Z :=
  match fuel with
  | O => crash "bg_invoke_async: waits for ever"
  | S fuel' =>
      if (response =? 0) && negb (n_timeout =? 0) then
        r ← call (wait_for_signal 1000);
        let n_timeout := if r =? 0 then n_timeout - 1 else n_timeout in
        response ← call getResponse;
        await_response fuel' response n_timeout
      else mret response
  end.

(** Signals for somebody else do not count as a time-out; [fuel] is how many are
    followed. *)
Definition bg_invoke_async (fuel : nat) (inst_code : Z) (inst_args : list Z) : M T Z :=
  r ← call (instruct inst_code inst_args);
  if negb (r =? 0) then mret (-1)
  else
    response ← await_response fuel 0 3;
    if negb (Z.land response 0xffff =? inst_code) then mret (-1)
    else mret (Z.land (Z.shiftr response 16) 0xffff).

Variable fuel : nat.
Abbreviation invoke := (bg_invoke_async fuel).

(** [vector::at] throws when there is no such element. *)
Definition at_ (i : nat) (l : list Z) : M T Z := match l !! i with Some x => mret x | None => throw OtherException end.

Definition type_name (io_type : Z) : string :=
  if io_type =? 0 then "8ns" else if io_type =? 1 then "1ns" else "undefined".

Fixpoint find_output (type : string) (info : list Z) (l : list (string * string)) : M T string :=
  match l with
  | [] => mret ""%string
  | (name, path) :: l' =>
      call (create path);;
      t ← call (getTypeOut path);
      if String.index 0 type t is Some _ then
        i ← call (getIndexOut path);
        index ← at_ 2 info;
        if i =? index then mret name else find_output type info l'
      else find_output type info l'
  end.
Definition find_io_name (info : list Z) : M T string :=
  io_type ← at_ 1 info;
  find_output (type_name io_type) info outs.

Definition bg_get_io_name (burst_id : Z) : M T (Z + string) :=
  if burst_id =? 0 then mret (inl (-1))
  else
    try_catch
      (r ← invoke CMD_LS_BURST [u32 burst_id];
       if negb (r =? 0) then mret (inl (-1))
       else
         info ← call (readBurstInfo burst_id);
         if (length info =? 0)%nat then mret (inl (-1))
         else name ← find_io_name info; mret (inr name))
      (fun e => match e with Error _ _ => mret (inl (-1)) | e => throw e end).

(** ** Conditions of outputs *)
Fixpoint find_path (l : list (string * string)) (found : option string) : M T (option string) :=
  match l with
  | [] => mret found
  | (name, path) :: l' =>
      t ← get;
      if is_name name t then call (create path);; find_path l' (Some path) else find_path l' found
  end.

Definition io_create (disown : bool) (eventID eventMask offset flags level : Z) (offset_negative translate_mask : bool) : M T Z :=
  or_return IO_RETURN_FAILURE
    (let io_offset := if offset_negative then s64 (offset * -1) else offset in
     t ← get;
     found ← (if ioNameGiven t then find_path outs None else mret None);
     match found with
     | None => mret IO_RETURN_FAILURE
     | Some path =>
         mask ← (if translate_mask then of_outcome (tr_mask eventMask) else mret eventMask);
         c ← call (out_NewCondition path true eventID mask io_offset (0 <? level));
         call (create c);;
         call (setAccept c Conflict (Z.testbit flags 2));;
         call (setAccept c Delayed (Z.testbit flags 3));;
         call (setAccept c Early (Z.testbit flags 1));;
         call (setAccept c Late (Z.testbit flags 0));;
         if disown then call (Disown c);; mret IO_RETURN_SUCCESS else call wait_for_ever
     end).

(** Every condition of every output; [selected] is asked for each of them. *)
Definition for_conditions (f : string -> M T unit) : M T unit :=
  for_each (fun '(name, path) =>
    call (create path);;
    all_conditions ← call (getAllConditions path);
    for_each (fun c => t ← get; if selected name t then f c else mret tt) all_conditions) outs.

Definition io_destroy : M T Z :=
  or_return IO_RETURN_FAILURE
    (for_conditions (fun c =>
       call (create c);;
       destructible ← call (getDestructible c);
       if destructible : bool then
         owner ← call (getOwner c);
         if bool_decide (owner = ""%string) then call (create c);; call (Destroy c) else mret tt
       else mret tt);;
     mret IO_RETURN_SUCCESS).

Definition io_flip : M T Z :=
  or_return IO_RETURN_FAILURE
    (for_conditions (fun c =>
       call (create c);;
       owner ← call (getOwner c);
       if bool_decide (owner = ""%string) then active ← call (getActive c); call (setActive c (negb active)) else mret tt);;
     mret IO_RETURN_SUCCESS).

Fixpoint any_with_id (e_id : Z) (l : list string) : M T bool :=
  match l with
  | [] => mret false
  | c :: l' => call (create c);; i ← call (getID c); if i =? e_id then mret true else any_with_id e_id l'
  end.
(** What was found stays found when a later call throws. *)
Fixpoint io_check_loop (e_id : Z) (l : list (string * string)) (found : bool) : M T (Z * bool) :=
  match l with
  | [] => mret (IO_RETURN_SUCCESS, found)
  | (_, path) :: l' =>
      b ← try_catch
        (call (create path);; all ← call (getAllConditions path); f ← any_with_id e_id all; mret (Some f))
        (fun e => match e with Error _ _ => mret None | e => throw e end);
      match b with
      | None => mret (IO_RETURN_FAILURE, found)
      | Some f => io_check_loop e_id l' (found || f)
      end
  end.
Definition io_check (e_id : Z) : M T (Z * bool) := io_check_loop e_id outs false.

(** ** Conditions of the embedded processor *)
Definition ecpu_destroy : M T Z :=
  or_return (-1)
    (match ecpu with
     | None => mret (-1)
     | Some sink =>
         all ← call (getAllConditions sink);
         for_each (fun c =>
           call (create c);;
           destructible ← call (getDestructible c);
           if destructible : bool then
             owner ← call (getOwner c);
             if bool_decide (owner = ""%string) then call (Destroy c) else mret tt
           else mret tt) all;;
         mret 0
     end).

Definition ecpu_update (e_id e_mask offset tag : Z) : M T Z :=
  if e_id =? 0 then ecpu_destroy
  else if tag =? 0 then mret (-1)
  else
    or_return (-1)
      (free ← call getFree;
       if free =? 0 then mret (-1)
       else
         match ecpu with
         | None => mret (-1)
         | Some sink =>
             c ← call (ecpu_NewCondition sink true e_id e_mask offset tag);
             call (create c);;
             call (setAccept c Conflict true);; call (setAccept c Delayed true);;
             call (setAccept c Early true);; call (setAccept c Late true);;
             call (Disown c);;
             mret 0
         end).

(** [getID() == e_id && getMask() == e_mask && getTag() == tag && getOffset() == offset] *)
Definition same_condition (e_id e_mask offset tag : Z) (c : string) : M T bool :=
  call (create c);;
  i ← call (getID c);
  if negb (i =? e_id) then mret false
  else
    m ← call (getMask c);
    if negb (m =? e_mask) then mret false
    else
      g ← call (getTag c);
      if negb (g =? tag) then mret false else o ← call (getOffset c); mret (o =? offset).
Fixpoint any_same (e_id e_mask offset tag : Z) (l : list string) : M T Z :=
  match l with
  | [] => mret 0
  | c :: l' => b ← same_condition e_id e_mask offset tag c; if b : bool then mret 1 else any_same e_id e_mask offset tag l'
  end.

Definition no_name (t : T) : bool := negb (ioNameGiven t) || (if ioName t is None then true else false).

Definition ecpu_check (e_id e_mask offset tag : Z) : M T Z :=
  t ← get;
  if no_name t then mret (-1)
  else if e_id =? 0 then ecpu_destroy
  else if tag =? 0 then mret (-1)
  else
    or_return (-1)
      (match ecpu with
       | None => mret (-1)
       | Some sink => all ← call (getAllConditions sink); any_same e_id e_mask offset tag all
       end).

(** The result of two failures is their bitwise or. *)
Definition bg_clear_all : M T Z :=
  r ← ecpu_update 0 0 0 0;
  r' ← io_destroy;
  mret (Z.lor r r').

(** ** Setting up a line *)

(** Which settings were given, with their values. *)
Record Settings := mkSettings {
  set_oe : option Z; set_term : option Z; set_spec_out : option Z; set_spec_in : option Z; set_gate_out : option Z;
  set_gate_in : option Z; set_mux : option Z; set_pps : option Z; set_drive : option Z; set_stime : option Z
}.
Definition given (o : option Z) : bool := if o is Some _ then true else false.
Definition io_set (c : Settings) : bool :=
  existsb given [set_oe c; set_term c; set_spec_out c; set_spec_in c; set_mux c; set_pps c; set_drive c; set_stime c;
                 set_gate_out c; set_gate_in c].

(** A check of the settings: [true] is that one is not possible. *)
Fixpoint first_refused (l : list (M T bool)) : M T bool :=
  match l with [] => mret false | m :: l' => b ← m; if b : bool then mret true else first_refused l' end.
Definition need (o : option Z) (wrong : Direction) (dir : Direction) (available : M T bool) : M T bool :=
  if negb (given o) then mret false
  else if direction_eqb dir wrong then mret true
  else a ← available; mret (negb a).

(** A proxy that was not made is a null pointer. *)
Definition deref {A} (p : option string) (f : string -> M W A) : M T A :=
  match p with Some p => call (f p) | None => crash "null proxy" end.

Definition refused (c : Settings) (dir : Direction) (out in_ : option string) : M T bool :=
  first_refused
    [need (set_oe c) DIR_INPUT dir (deref out getOutputEnableAvailable);
     need (set_term c) DIR_OUTPUT dir (deref in_ getInputTerminationAvailable);
     need (set_spec_out c) DIR_INPUT dir (deref out getSpecialPurposeOutAvailable);
     need (set_spec_in c) DIR_OUTPUT dir (deref in_ getSpecialPurposeInAvailable);
     need (set_gate_out c) DIR_INPUT dir (mret true);
     need (set_gate_in c) DIR_OUTPUT dir (mret true);
     need (set_mux c) DIR_INPUT dir (mret true);
     need (set_pps c) DIR_INPUT dir (mret true);
     need (set_drive c) DIR_INPUT dir (mret true);
     need (set_stime c) DIR_OUTPUT dir (mret true)].

Definition on_given (o : option Z) (f : Z -> M T unit) : M T unit := match o with Some v => f v | None => mret tt end.
Definition apply_settings (c : Settings) (out in_ : option string) : M T unit :=
  on_given (set_oe c) (fun v => deref out (fun p => output_call p (setOutputEnable v)));;
  on_given (set_term c) (fun v => deref in_ (fun p => input_call p (setInputTermination v)));;
  on_given (set_spec_out c) (fun v => deref out (fun p => output_call p (setSpecialPurposeOut v)));;
  on_given (set_spec_in c) (fun v => deref in_ (fun p => input_call p (setSpecialPurposeIn v)));;
  on_given (set_gate_out c) (fun v => deref out (fun p => output_call p (setGateOut v)));;
  on_given (set_gate_in c) (fun v => deref in_ (fun p => input_call p (setGateIn v)));;
  on_given (set_mux c) (fun v => deref out (fun p => output_call p (setBuTiSMultiplexer v)));;
  on_given (set_pps c) (fun v => deref out (fun p => output_call p (setPPSMultiplexer v)));;
  on_given (set_drive c) (fun v => deref out (fun p => output_call p (WriteOutput v)));;
  on_given (set_stime c) (fun v => deref in_ (fun p => input_call p (setStableTime v))).

(** With no settings the current state is printed, which reads the proxies. *)
Variable print_state : string -> Direction -> option string -> option string -> M T unit.

Definition io_setup (c : Settings) : M T Z :=
  t ← get;
  match ioName t with
  | None => mret IO_RETURN_FAILURE
  | Some _ =>
      or_return IO_RETURN_FAILURE
        (in_ ← find_path ins None;
         out ← find_path outs None;
         match in_, out with
         | None, None => mret IO_RETURN_FAILURE
         | _, _ =>
             partner ← (match out with Some p => call (getInput p) | None => deref in_ getOutput end);
             let dir := if negb (bool_decide (partner = ""%string)) then DIR_INOUT
                        else if out is Some _ then DIR_OUTPUT else DIR_INPUT in
             if io_set c then
               b ← refused c dir out in_;
               if b : bool then mret IO_RETURN_FAILURE
               else apply_settings c out in_;; mret IO_RETURN_SUCCESS
             else print_state partner dir out in_;; mret IO_RETURN_SUCCESS
         end)
  end.

(** ** Events of inputs *)
Definition set_prefix (name : string) (prefix : Z) (t : T) : T :=
  mkTool (ioName t) (ioNameGiven t)
    ((name, prefix) :: List.filter (fun e => negb (bool_decide (fst e = name))) (map_PrefixName t)) (outside t).

(** [mode]: disable the events.  The condition is made for the prefix that the tool
    chose, the input gets the one that was asked for. *)
Definition snoop_input (mode setup_only disable_source : bool) (prefix_custom : Z) (name path : string) : M T unit :=
  t ← get;
  if selected name t then
    set_name (Some name) (ioNameGiven t);;
    let prefix := u64 (ECA_EVENT_ID_LATCH + Z.of_nat (length (map_PrefixName t)) * 2) in
    modify (set_prefix name prefix);;
    if negb mode then
      (if negb setup_only then
         sink ← call NewSoftwareActionSink;
         call (create sink);;
         c ← call (sw_NewCondition sink true prefix (u64 (-2)) IO_CONDITION_OFFSET);
         call (create c);;
         call (connect_action c);;
         call (setAccept c Conflict true);; call (setAccept c Delayed true);;
         call (setAccept c Early true);; call (setAccept c Late true)
       else mret tt);;
      call (create path);;
      call (input_call path (setEventEnable false));;
      if disable_source then mret tt
      else
        call (input_call path (setEventPrefix (if prefix_custom =? 0 then prefix else prefix_custom)));;
        call (input_call path (setEventEnable true))
    else call (create path);; call (input_call path (setEventEnable false))
  else mret tt.

Definition io_snoop (mode setup_only disable_source : bool) (prefix_custom : Z) : M T Z :=
  or_return IO_RETURN_FAILURE
    (for_each (fun '(name, path) => snoop_input mode setup_only disable_source prefix_custom name path) ins;;
     if mode then mret IO_RETURN_SUCCESS
     else
       t ← get;
       match map_PrefixName t with
       | [] => mret IO_RETURN_SUCCESS
       | _ => if negb setup_only then call wait_for_ever else mret IO_RETURN_SUCCESS
       end).

(** [io_catch_input]: the name of the input whose event came, from the map in the
    order of its keys; the last match counts, falling edges ([event - 1]) first. *)
Definition catched_io (event : Z) (m : list (string * Z)) : string :=
  let last_match e := foldl (fun r '(name, prefix) => if e =? prefix then Some name else r) None m in
  match last_match (u64 (event - 1)) with
  | Some name => name
  | None => match last_match event with Some name => name | None => "Unknown"%string end
  end.

(** ** Bursts *)

(** [strtoul] with base 0. *)
Variable strtoul : string -> Z.
Definition bg_instruct (instr : list string) : M T Z :=
  match instr with
  | [] => mret (-1)
  | code :: args =>
      or_return (-1) (invoke (u32 (strtoul code)) (map (fun a => u32 (strtoul a)) args);; mret 0)
  end.

Definition bg_list_bursts (burst_id : Z) (verbose_mode : bool) : M T Z :=
  or_return (-1)
    (r ← invoke CMD_LS_BURST [u32 burst_id; Z.b2z verbose_mode];
     if negb (r =? 0) then mret (-1)
     else
       args ← call (readBurstInfo burst_id);
       match args with
       | [] => mret (-1)
       | _ => if burst_id =? 0 then at_ 0 args;; at_ 1 args;; mret 0 else mret 0
       end).

Definition bg_remove_burst (burst_id : Z) (verbose : bool) : M T Z :=
  r ← bg_get_io_name burst_id;
  match r with
  | inl _ => mret (-1)
  | inr name =>
      if bool_decide (name = ""%string) then mret (-1)
      else
        set_name (Some name) true;;
        result ← io_destroy;
        or_return (-1)
          (r ← invoke CMD_RM_BURST [u32 burst_id; Z.b2z verbose];
           if negb (r =? 0) then mret (-1) else mret result)
  end.

(** [0x1 << (burst_id - 1)]: undefined for 0 and below. *)
Definition bg_disenable_burst (burst_id disen : Z) (verbose : bool) : M T Z :=
  or_return (-1)
    (r ← invoke CMD_LS_BURST [0];
     if negb (r =? 0) then mret (-1)
     else
       args ← call (readBurstInfo 0);
       match args with
       | [] => mret (-1)
       | created :: _ =>
           if (burst_id <? 1) || (32 <? burst_id) then crash "0x1 << (burst_id - 1)"
           else if negb (Z.testbit created (burst_id - 1)) then mret (-1)
           else
             r ← invoke CMD_DE_BURST [u32 burst_id; u32 disen; Z.b2z verbose];
             if negb (r =? 0) then mret (-1) else mret 0
       end).

Variable burstIdGiven : bool.

(** The condition that lets the embedded processor see an event. *)
Definition ecpu_ensure (e_id e_mask tag : Z) : M T bool :=
  check ← ecpu_check e_id e_mask 0 tag;
  if check <? 0 then mret false
  else if check =? 0 then r ← ecpu_update e_id e_mask 0 tag; mret (r =? 0)
  else mret true.

Fixpoint first_proxy (name : string) (l : list (string * string)) : M T (option string) :=
  match l with
  | [] => mret None
  | (n, path) :: l' => if bool_decide (n = name) then call (create path);; mret (Some path) else first_proxy name l'
  end.

Definition channel_of (type : string) : Z :=
  if String.index 0 "8ns" type is Some _ then 0 else if String.index 0 "1ns" type is Some _ then 1 else 2.

Definition drive_low : Settings := mkSettings (Some 1) None None None None None None None (Some 0) None.

Definition mk_burst_args (burst_id out_type index e_id stop_e_id : Z) : list Z :=
  [u32 burst_id; Z.lor (u32 (Z.shiftl out_type 16)) (Z.land index 0xffff);
   u32 (Z.shiftr e_id 32); u32 e_id; u32 (Z.shiftr stop_e_id 32); u32 stop_e_id; 1].

(** The input of the same name, if there is one (an empty path otherwise). *)
Definition disable_input (name : string) : M T unit :=
  inputs ← call getInputs;
  let path := default ""%string (snd <$> List.find (fun e => bool_decide (fst e = name)) inputs) in
  call (create path);; call (input_call path (setEventEnable false)).

Definition bg_create_burst (burst_id e_id e_mask stop_e_id stop_e_mask : Z) : M T Z :=
  t ← get;
  match ioNameGiven t, ioName t with
  | true, Some name =>
      if negb burstIdGiven then mret (-1)
      else
        or_return (-1)
          (out ← first_proxy name outs;
           match out with
           | None => mret (-1)
           | Some path =>
               r ← invoke CMD_LS_FW_ID [0];
               if negb (r =? 0) then mret (-1)
               else
                 args ← call (readSharedBuffer 1);
                 let tag := default 0 (head args) in
                 started ← ecpu_ensure e_id e_mask tag;
                 if negb started then mret (-1)
                 else
                   stopped ← (if stop_e_id =? 0 then mret true else ecpu_ensure stop_e_id stop_e_mask tag);
                   if negb stopped then mret (-1)
                   else
                     result ← io_setup drive_low;
                     if negb (result =? 0) then mret result
                     else
                       disable_input name;;
                       type ← call (getTypeOut path);
                       index ← call (getIndexOut path);
                       r ← invoke CMD_MK_BURST (mk_burst_args burst_id (channel_of type) index e_id stop_e_id);
                       if negb (r =? 0) then mret (-1) else mret result
           end)
  | _, _ => mret (-1)
  end.

(** ** The pulses of a burst *)

(** How the pulses are divided in conditions and blocks. *)
Record Plan := mkPlan { n_main_conditions : Z; n_rem_conditions : Z; n_conditions : Z; t_block : Z; t_rem : Z; n_block : Z }.

(** [while (t_block < BG_BURST_PERIOD)]; a period has a nanosecond at least. *)
Fixpoint block_loop (fuel : nat) (t_period t_block n_main : Z) : Z * Z :=
  match fuel with
  | O => (t_block, n_main)
  | S fuel' =>
      if t_block <? BG_BURST_PERIOD then block_loop fuel' t_period (u32 (t_block + t_period)) (u32 (n_main + 2))
      else (t_block, n_main)
  end.
Definition blocks (t_period : Z) : Z * Z := block_loop (Z.to_nat BG_BURST_PERIOD) t_period t_period 2.

Definition n_blocks (t_burst t_block : Z) : Z := if 0 <? t_burst then Z.quot t_burst t_block - 1 else -1.

Definition plan (t_high t_period t_burst : Z) : Plan :=
  if (t_high =? 0) || (t_high =? t_period) then mkPlan 2 0 1 t_period 0 (n_blocks t_burst t_period)
  else if t_period <? BG_BURST_PERIOD then
    let '(block, n_main) := blocks t_period in
    let rem := u32 (Z.rem t_burst block) in
    let n_pulses := rem / t_period in
    let n_rest := u32 (rem - u32 (n_pulses * t_period)) / t_high in
    let n_rem := u32 (2 * n_pulses + n_rest) in
    mkPlan n_main n_rem (u32 (n_main + n_rem)) block rem (n_blocks t_burst block)
  else mkPlan 2 0 2 t_period 0 (n_blocks t_burst t_period).

(** The conditions [i], [i + 1], ... of [n]; the result is that of the first that
    failed, and the level at the end. *)
Fixpoint create_conditions (n i : nat) (e_id offset level t_high t_low : Z) : M T (Z * Z) :=
  match n with
  | O => mret (0, level)
  | S n' =>
      result ← io_create true e_id EVT_MASK_IO (s64 offset) 0xf level false false;
      if negb (result =? 0) then io_destroy;; mret (result, level)
      else
        create_conditions n' (S i) e_id (u64 (offset + if Nat.even i then t_high else t_low)) (Z.lxor level 1) t_high t_low
  end.

Definition start_event (info : list Z) : M T Z :=
  h ← at_ 3 info; l ← at_ 4 info; mret (Z.lor (u64 (Z.shiftl h 32)) l).
Definition body_event (burstId : Z) : Z := u64 (Z.shiftl (u64 (EVT_ID_IO_H32 + burstId * 16)) 32).

(** Existing conditions are removed, unless they are to be added to. *)
Definition make_room (b_flag e_id : Z) : M T unit :=
  '(_, conditions_exist) ← io_check e_id;
  if (b_flag =? 0) && conditions_exist then io_destroy;; mret tt else mret tt.

Definition set_conditions (burstId t_high t_period b_delay b_flag e_id : Z) (p : Plan) : M T Z :=
  let t_low := u32 (t_period - t_high) in
  make_room b_flag e_id;;
  if n_conditions p =? 1 then
    result ← io_create true e_id EVT_MASK_IO (s64 b_delay) 0xf (if t_high =? t_period then 1 else 0) false false;
    if negb (result =? 0) then io_destroy;; mret result else mret 0
  else
    '(result, level) ← create_conditions (Z.to_nat (n_conditions p)) 0 e_id b_delay 1 t_high t_low;
    if negb (result =? 0) then mret result
    else if n_block p =? 0 then mret 0
    else
      make_room b_flag (body_event burstId);;
      '(result, _) ← create_conditions (Z.to_nat (n_main_conditions p)) 0 (body_event burstId) 0 level t_high t_low;
      mret result.

Definition param_args (burstId b_flag : Z) (p : Plan) : list Z :=
  [u32 burstId; u32 (t_block p + t_rem p); n_main_conditions p; t_block p; b_flag; 1].
Definition cycle_args (burstId : Z) (p : Plan) : list Z :=
  [u32 burstId; u32 (Z.shiftr (n_block p) 32); u32 (n_block p); 1].

Definition send_plan (burstId b_flag : Z) (p : Plan) : M T Z :=
  or_return (-1)
    (result ← invoke CMD_GET_PARAM (param_args burstId b_flag p);
     if negb (result =? 0) then mret (-1)
     else
       r ← invoke CMD_GET_CYCLE (cycle_args burstId p);
       if negb (r =? 0) then mret (-1) else mret result).

(** The burst's description, when there is room for the conditions. *)
Definition burst_info (burstId : Z) (p : Plan) : M T (option (list Z)) :=
  try_catch
    (eca_entries ← call getFree;
     if eca_entries <? n_conditions p then mret None
     else
       r ← invoke CMD_LS_BURST [u32 burstId];
       if negb (r =? 0) then mret None
       else
         info ← call (readBurstInfo burstId);
         mret (if (length info =? N_BURST_INFO)%nat then Some info else None))
    (fun e => match e with Error _ _ => mret None | e => throw e end).

Definition bg_config_io (burstId t_high t_period t_burst b_delay b_flag : Z) : M T Z :=
  t ← get;
  if no_name t && (burstId =? 0) then mret (-1)
  else if negb burstIdGiven then mret (-1)
  else if t_period =? 0 then mret (-1)
  else
    let p := plan t_high t_period t_burst in
    info ← burst_info burstId p;
    match info with
    | None => mret (-1)
    | Some info =>
        name ← find_io_name info;
        if bool_decide (name = ""%string) then mret (-1)
        else
          set_name (Some name) true;;
          e_id ← start_event info;
          result ← set_conditions burstId t_high t_period b_delay b_flag e_id p;
          if negb (result =? 0) then mret result else send_plan burstId b_flag p
    end.
End BurstControl.
