(* ===== verification/BurstControlCorrect.v ===== *)
(** * The burst control tool: the pulses that [bg_config_io] asks for *)
From S2P Require Import Prelude Helpers BurstControl.
Local Open Scope Z_scope.

(** ** Blocks *)
Lemma block_loop_spec fuel t_period k : 0 < t_period < BG_BURST_PERIOD -> 0 < k ->
  (k - 1) * t_period < BG_BURST_PERIOD -> BG_BURST_PERIOD < k * t_period + Z.of_nat fuel ->
  exists K, block_loop fuel t_period (k * t_period) (2 * k) = (K * t_period, 2 * K) /\
    k <= K /\ BG_BURST_PERIOD <= K * t_period < BG_BURST_PERIOD + t_period.
Proof.
  unfold BG_BURST_PERIOD. intros Hp. revert k. induction fuel as [|fuel IH]; intros k Hk Hlow Hfuel; cbn [block_loop].
  - exists k. split; [done|]. lia.
  - unfold BG_BURST_PERIOD. destruct (Z.ltb_spec (k * t_period) 200000) as [Hlt|Hge]; [|exists k; split; [done|lia]].
    rewrite !unsigned_wrap_small by nia.
    replace (k * t_period + t_period) with ((k + 1) * t_period) by lia. replace (2 * k + 2) with (2 * (k + 1)) by lia.
    destruct (IH (k + 1)) as (K & E & HK & Hr); [lia|nia|nia|]. exists K. split; [exact E|]. lia.
Qed.

(** The pulses of a block: as many as are needed for the shortest block. *)
Lemma blocks_spec t_period : 0 < t_period < BG_BURST_PERIOD ->
  exists K, blocks t_period = (K * t_period, 2 * K) /\ 1 <= K /\ BG_BURST_PERIOD <= K * t_period < BG_BURST_PERIOD + t_period.
Proof.
  intros Hp. destruct (block_loop_spec (Z.to_nat BG_BURST_PERIOD) t_period 1) as (K & E & HK);
    [done|lia|unfold BG_BURST_PERIOD in *; lia..|].
  exists K. split; [|exact HK]. rewrite <- E. unfold blocks. by rewrite Z.mul_1_l.
Qed.

(** A burst of whole pulses: the plan, when there is a block at least. *)
Lemma plan_whole t_high t_period K q m :
  0 < t_high < t_period -> t_period < BG_BURST_PERIOD -> blocks t_period = (K * t_period, 2 * K) ->
  1 <= K -> K * t_period < 2 * BG_BURST_PERIOD -> 0 <= m < K -> 1 <= q ->
  plan t_high t_period ((q * K + m) * t_period) = mkPlan (2 * K) (2 * m) (2 * (K + m)) (K * t_period) (m * t_period) (q - 1).
Proof.
  unfold BG_BURST_PERIOD. intros Hh Hp HB HK Hblock Hm Hq. unfold plan, BG_BURST_PERIOD, n_blocks. rewrite HB.
  rewrite !(proj2 (Z.eqb_neq _ _)) by lia. rewrite (proj2 (Z.ltb_lt t_period _)) by lia. cbn [orb].
  assert (0 < (q * K + m) * t_period) as Hpos by (apply Z.mul_pos_pos; nia).
  rewrite (proj2 (Z.ltb_lt 0 _)) by exact Hpos.
  assert ((q * K + m) * t_period = q * (K * t_period) + m * t_period) as E by lia.
  assert (0 <= m * t_period < K * t_period) as Hr by nia.
  assert (Z.rem ((q * K + m) * t_period) (K * t_period) = m * t_period) as ->.
  { rewrite E, Z.rem_mod_nonneg, Z.add_comm, Z.mod_add, Z.mod_small by nia. done. }
  assert (Z.quot ((q * K + m) * t_period) (K * t_period) = q) as ->.
  { rewrite E, Z.quot_div_nonneg, Z.add_comm, Z.div_add, Z.div_small by nia. lia. }
  rewrite (unsigned_wrap_small 32 (m * t_period)) by lia. rewrite Z.div_mul by lia.
  rewrite (unsigned_wrap_small 32 (m * t_period)) by lia. rewrite Z.sub_diag.
  replace (u32 0 / t_high) with 0 by (symmetry; apply Z.div_0_l; lia).
  rewrite !unsigned_wrap_small by nia. f_equal; lia.
Qed.

Lemma plan_endless t_high t_period K : 0 < t_high < t_period -> t_period < BG_BURST_PERIOD ->
  blocks t_period = (K * t_period, 2 * K) -> 1 <= K -> K * t_period < 2 * BG_BURST_PERIOD ->
  plan t_high t_period 0 = mkPlan (2 * K) 0 (2 * K) (K * t_period) 0 (-1).
Proof.
  unfold BG_BURST_PERIOD. intros Hh Hp HB HK Hblock. unfold plan, BG_BURST_PERIOD, n_blocks. rewrite HB.
  rewrite !(proj2 (Z.eqb_neq _ _)) by lia. rewrite (proj2 (Z.ltb_lt t_period _)) by lia. cbn [orb Z.ltb Z.compare].
  rewrite Z.rem_0_l by nia. change (u32 0) with 0. assert (0 / t_period = 0) as -> by (apply Z.div_0_l; lia).
  change (u32 (0 - u32 (0 * t_period))) with 0. assert (0 / t_high = 0) as -> by (apply Z.div_0_l; lia).
  rewrite !unsigned_wrap_small by nia. f_equal; lia.
Qed.

(** ** Pulses *)

(** [n] pulses: the times and levels of their edges. *)
Fixpoint train (n : nat) (start t_period t_high : Z) : list (Z * bool) :=
  match n with
  | O => []
  | S n' => (start, true) :: (start + t_high, false) :: train n' (start + t_period) t_period t_high
  end.

(** ** A daemon that does what it is asked for

    [conds]: the conditions of the output, [sent]: the instructions. *)
Record Cond := mkCond { c_id : Z; c_mask : Z; c_offset : Z; c_on : bool }.
Definition edges (e_id : Z) (l : list (Z * bool)) : list Cond := map (fun '(offset, on) => mkCond e_id EVT_MASK_IO offset on) l.

Section Daemon.
Context {W : Type} `{!Proxies W}.
Context (conds : W -> list Cond) (sent : W -> list (Z * list Z)).

(** The call returns, and adds to both. *)
Definition adds {A} (m : M W A) (P : W -> A -> Prop) (cs : list Cond) (ss : list (Z * list Z)) : Prop :=
  forall w, exists a w', m w = (Ret a, w') /\ P w' a /\ conds w' = conds w ++ cs /\ sent w' = sent w ++ ss.
Definition quiet {A} (m : M W A) (P : A -> Prop) : Prop := adds m (fun _ => P) [] [].

Class Accepting (path type : string) (index free : Z) (info : list Z) : Prop := {
  q_create p : quiet (create p) (fun _ => True);
  q_getFree : quiet getFree (eq free);
  q_all p : quiet (getAllConditions p) (fun _ => True);
  q_getID p : quiet (getID p) (fun _ => True);
  q_accept p f b : quiet (setAccept p f b) (fun _ => True);
  q_disown p : quiet (Disown p) (fun _ => True);
  q_type : quiet (getTypeOut path) (eq type);
  q_index : quiet (getIndexOut path) (eq index);
  q_wait t : quiet (wait_for_signal t) (fun _ => True);
  q_info i : quiet (readBurstInfo i) (eq info);
  q_new id mask offset on : adds (out_NewCondition path true id mask offset on) (fun _ _ => True) [mkCond id mask offset on] [];
  q_instruct code args : adds (instruct code args) (fun _ r => r = 0) [] [(code, args)];
  (** the answer is the code of the last instruction, with no error *)
  q_response w : exists r w', getResponse w = (Ret r, w') /\ conds w' = conds w /\ sent w' = sent w /\
    (forall l code args, sent w = l ++ [(code, args)] -> 0 <= code < 2 ^ 16 -> r = code)
}.

Context {path type : string} {index free : Z} {info : list Z} `{!Accepting path type index free info}.
Variables (name : string) (ins : list (string * string)) (fuel : nat).
Hypothesis Hfuel : (2 <= fuel)%nat.
Abbreviation outs := [(name, path)].

(** The same for the operations of the tool, while the name of the output is [nm]. *)
Definition does (nm : option string * bool) {A} (m : M (Tool W) A) (P : A -> Prop) (cs : list Cond) (ss : list (Z * list Z)) : Prop :=
  forall t, (ioName t, ioNameGiven t) = nm -> exists a t', m t = (Ret a, t') /\ P a /\ (ioName t', ioNameGiven t') = nm /\
    conds (outside t') = conds (outside t) ++ cs /\ sent (outside t') = sent (outside t) ++ ss.

Lemma does_bind nm {A B} (m : M (Tool W) A) (k : A -> M (Tool W) B) P Q cs1 cs2 ss1 ss2 :
  does nm m P cs1 ss1 -> (forall a, P a -> does nm (k a) Q cs2 ss2) -> does nm (m ≫= k) Q (cs1 ++ cs2) (ss1 ++ ss2).
Proof.
  intros Hm Hk t Ht. destruct (Hm t Ht) as (a & t1 & E1 & Ha & Ht1 & Hc1 & Hs1).
  destruct (Hk a Ha t1 Ht1) as (b & t2 & E2 & Hb & Ht2 & Hc2 & Hs2).
  exists b, t2. unfold mbind, M_bind. rewrite E1, E2. split_and!; [done..| |]; by rewrite ?Hc2, ?Hc1, ?Hs2, ?Hs1, app_assoc.
Qed.
Lemma does_ret nm {A} (a : A) (P : A -> Prop) : P a -> does nm (mret a) P [] [].
Proof. intros Ha t Ht. exists a, t. by rewrite !app_nil_r. Qed.
Lemma does_call nm {A} (m : M W A) P cs ss : adds m (fun _ => P) cs ss -> does nm (call m) P cs ss.
Proof.
  intros Hm t Ht. destruct (Hm (outside t)) as (a & w' & E & Ha & Hc & Hs). unfold call, zoom. rewrite E. by eexists _, _.
Qed.
Lemma does_quiet nm {A B} (m : M W A) (k : A -> M (Tool W) B) P Q cs ss :
  quiet m P -> (forall a, P a -> does nm (k a) Q cs ss) -> does nm (call m ≫= k) Q cs ss.
Proof. intros Hm Hk. exact (does_bind _ _ _ P Q [] cs [] ss (does_call nm m P [] [] Hm) Hk). Qed.
Lemma does_weaken nm {A} (m : M (Tool W) A) (P Q : A -> Prop) cs ss : does nm m P cs ss -> (forall a, P a -> Q a) -> does nm m Q cs ss.
Proof. intros Hm HPQ t Ht. destruct (Hm t Ht) as (a & t' & E & Ha & H). exists a, t'. auto. Qed.
Lemma does_try nm {A} (m : M (Tool W) A) h P cs ss : does nm m P cs ss -> does nm (try_catch m h) P cs ss.
Proof. intros Hm t Ht. destruct (Hm t Ht) as (a & t' & E & H). exists a, t'. unfold try_catch. by rewrite E. Qed.
Lemma does_get nm {A} (k : Tool W -> M (Tool W) A) P cs ss :
  (forall t, (ioName t, ioNameGiven t) = nm -> does nm (k t) P cs ss) -> does nm (get ≫= k) P cs ss.
Proof. intros Hk t Ht. exact (Hk t Ht t Ht). Qed.

(** ** The operations on this daemon *)
Abbreviation here := (Some name, true).

Lemma find_path_here : does here (find_path outs None) (eq (Some path)) [] [].
Proof.
  cbn [find_path]. apply does_get. intros t [= Hn _]. unfold is_name. rewrite Hn, bool_decide_true by done.
  eapply does_quiet; [apply q_create|]. intros _ _. by apply does_ret.
Qed.

Lemma io_create_here e_id offset level : -2 ^ 63 <= offset < 2 ^ 63 ->
  does here (io_create outs true e_id EVT_MASK_IO (s64 offset) 0xf level false false) (eq 0) [mkCond e_id EVT_MASK_IO offset (0 <? level)] [].
Proof.
  intros Ho. rewrite signed_wrap_small by (done || lia). unfold io_create, or_return. apply does_try. cbn zeta iota.
  apply does_get. intros t [= _ Hg]. rewrite Hg.
  refine (does_bind _ _ _ _ _ [] _ [] _ find_path_here _). intros ? <-. cbn beta iota.
  refine (does_bind _ _ _ (eq EVT_MASK_IO) _ [] _ [] _ _ _); [by apply does_ret|]. intros ? <-.
  refine (does_bind _ _ _ _ _ [_] [] [] [] (does_call _ _ _ _ _ (q_new _ _ _ _)) _). intros c _.
  eapply does_quiet; [apply q_create|]. intros _ _. do 4 (eapply does_quiet; [apply q_accept|]; intros _ _).
  eapply does_quiet; [apply q_disown|]. intros _ _. by apply does_ret.
Qed.

Lemma any_with_id_here nm e_id l : does nm (any_with_id e_id l) (fun _ => True) [] [].
Proof.
  induction l as [|c l IH]; cbn [any_with_id]; [by apply does_ret|].
  eapply does_quiet; [apply q_create|]. intros _ _. eapply does_quiet; [apply q_getID|]. intros i _.
  destruct (i =? e_id); [by apply does_ret|exact IH].
Qed.
Lemma io_check_here nm e_id : does nm (io_check outs e_id) (fun _ => True) [] [].
Proof.
  unfold io_check. cbn [io_check_loop].
  refine (does_bind _ _ _ (fun b => exists f, b = Some f) _ [] [] [] [] _ _).
  - apply does_try. eapply does_quiet; [apply q_create|]. intros _ _. eapply does_quiet; [apply q_all|]. intros all _.
    refine (does_bind _ _ _ _ _ [] [] [] [] (any_with_id_here _ _ _) _). intros f _. apply does_ret. by eexists.
  - intros b [f ->]. by apply does_ret.
Qed.

(** Conditions are added to those that are there. *)
Lemma make_room_here b_flag e_id : b_flag <> 0 -> does here (make_room outs b_flag e_id) (fun _ => True) [] [].
Proof.
  intros Hb. unfold make_room. refine (does_bind _ _ _ _ _ [] [] [] [] (io_check_here _ _) _). intros [r f] _.
  rewrite (proj2 (Z.eqb_neq b_flag 0)) by done. by apply does_ret.
Qed.

Lemma create_train n i e_id start t_high t_period :
  Nat.even i = true -> 0 < t_high < t_period -> t_period < 2 ^ 32 -> 0 <= start -> start + (Z.of_nat n + 1) * t_period < 2 ^ 63 ->
  does here (create_conditions outs (2 * n) i e_id start 1 t_high (t_period - t_high)) (eq (0, 1))
    (edges e_id (train n start t_period t_high)) [].
Proof.
  revert i start. induction n as [|n IH]; intros i start Hi Hh Hp Hs Hend; [by apply does_ret|].
  replace (2 * S n)%nat with (S (S (2 * n))) by lia. cbn [create_conditions train edges map].
  refine (does_bind _ _ _ _ _ [_] _ [] _ (io_create_here _ _ _ _) _); [nia|]. intros ? <-. cbn [Z.eqb negb].
  rewrite Hi, (unsigned_wrap_small 64 (start + t_high)) by nia.
  refine (does_bind _ _ _ _ _ [_] _ [] _ (io_create_here _ _ _ _) _); [nia|]. intros ? <-. cbn [Z.eqb negb].
  replace (Nat.even (S i)) with false by (by rewrite Nat.even_succ, <- Nat.negb_even, Hi).
  replace (start + t_high + (t_period - t_high)) with (start + t_period) by lia.
  rewrite (unsigned_wrap_small 64 (start + t_period)) by nia. change (Z.lxor (Z.lxor 1 1) 1) with 1.
  apply IH; [done|done|done|lia|nia].
Qed.

Lemma invoke_here nm code args : 0 < code < 2 ^ 16 -> does nm (bg_invoke_async fuel code args) (eq 0) [] [(code, args)].
Proof.
  intros Hcode t Ht. unfold bg_invoke_async. destruct fuel as [|[|fuel']]; [lia..|].
  destruct (q_instruct code args (outside t)) as (r & w1 & E1 & -> & Hc1 & Hs1).
  destruct (q_wait 1000 w1) as (x & w2 & E2 & _ & Hc2 & Hs2). rewrite app_nil_r in Hc2, Hs2.
  destruct (q_response w2) as (v & w3 & E3 & Hc3 & Hs3 & Hv).
  rewrite (Hv (sent (outside t)) code args) in E3 by (congruence || lia).
  exists 0, (mkTool (ioName t) (ioNameGiven t) (map_PrefixName t) w3). split.
  - unfold call, zoom, mbind, M_bind. rewrite E1. cbn [outside ioName ioNameGiven map_PrefixName negb Z.eqb].
    cbn [await_response]. unfold call, zoom, mbind, M_bind. cbn [Z.eqb andb negb outside]. rewrite E2. cbn [outside ioName ioNameGiven map_PrefixName].
    rewrite E3. rewrite (proj2 (Z.eqb_neq code 0)) by lia. cbn [andb]. unfold mret, M_ret.
    assert (Z.land code 0xffff = code) as Hland.
    { change 0xffff with (Z.ones 16). rewrite Z.land_ones by lia. apply Z.mod_small. lia. }
    rewrite Hland, Z.eqb_refl. cbn [negb]. unfold mret, M_ret. repeat f_equal.
    rewrite Z.shiftr_div_pow2, Z.div_small by lia. done.
  - split_and!; [done|done| |]; cbn [outside]; congruence.
Qed.

(** The description of the burst, and the output it names. *)
Record describes (info : list Z) (e_id : Z) : Prop := {
  d_length : length info = N_BURST_INFO;
  d_type : exists io_type i, info !! 1%nat = Some io_type /\ String.index 0 (type_name io_type) type = Some i;
  d_index : info !! 2%nat = Some index;
  d_event : exists h l, info !! 3%nat = Some h /\ info !! 4%nat = Some l /\ e_id = Z.lor (u64 (Z.shiftl h 32)) l
}.

Lemma find_io_name_here nm e_id : describes info e_id -> does nm (find_io_name outs info) (eq name) [] [].
Proof.
  intros Hd. destruct (d_type _ _ Hd) as (io_type & i & Htype & Hi). unfold find_io_name, at_. rewrite Htype.
  refine (does_bind _ _ _ (eq io_type) _ [] [] [] [] _ _); [by apply does_ret|]. intros ? <-. cbn [find_output].
  eapply does_quiet; [apply q_create|]. intros _ _. eapply does_quiet; [apply q_type|]. intros ? <-. rewrite Hi.
  eapply does_quiet; [apply q_index|]. intros ? <-. unfold at_. rewrite (d_index _ _ Hd).
  refine (does_bind _ _ _ (eq index) _ [] [] [] [] _ _); [by apply does_ret|]. intros ? <-.
  rewrite Z.eqb_refl. by apply does_ret.
Qed.

Lemma start_event_here nm e_id : describes info e_id -> does nm (@start_event W info) (eq e_id) [] [].
Proof.
  intros Hd. destruct (d_event _ _ Hd) as (h & l & Hh & Hl & ->). unfold start_event, at_. rewrite Hh, Hl.
  refine (does_bind _ _ _ (eq h) _ [] [] [] [] _ _); [by apply does_ret|]. intros ? <-.
  refine (does_bind _ _ _ (eq l) _ [] [] [] [] _ _); [by apply does_ret|]. intros ? <-. by apply does_ret.
Qed.

Lemma burst_info_here nm e_id burstId p : describes info e_id -> n_conditions p <= free ->
  does nm (burst_info fuel burstId p) (eq (Some info)) [] [(CMD_LS_BURST, [u32 burstId])].
Proof.
  intros Hd Hfree. unfold burst_info. apply does_try. eapply does_quiet; [apply q_getFree|]. intros ? <-.
  rewrite (proj2 (Z.ltb_ge _ _)) by done.
  refine (does_bind _ _ _ _ _ [] [] [_] [] (invoke_here _ _ _ _) _); [by unfold CMD_LS_BURST|]. intros ? <-. cbn [Z.eqb negb].
  eapply does_quiet; [apply q_info|]. intros ? <-. rewrite (d_length _ _ Hd). by apply does_ret.
Qed.

Lemma send_plan_here nm burstId b_flag p : does nm (send_plan fuel burstId b_flag p) (eq 0) []
  [(CMD_GET_PARAM, param_args burstId b_flag p); (CMD_GET_CYCLE, cycle_args burstId p)].
Proof.
  unfold send_plan, or_return. apply does_try.
  refine (does_bind _ _ _ _ _ [] [] [_] [_] (invoke_here _ _ _ _) _); [by unfold CMD_GET_PARAM|]. intros ? <-. cbn [Z.eqb negb].
  refine (does_bind _ _ _ _ _ [] [] [_] [] (invoke_here _ _ _ _) _); [by unfold CMD_GET_CYCLE|]. intros ? <-. by apply does_ret.
Qed.

(** The conditions of a burst of [q] blocks of [K] pulses and [m] more pulses; [q] is
    0 when there is no end. *)
Definition burst_plan (K m q t_period : Z) : Plan := mkPlan (2 * K) (2 * m) (2 * (K + m)) (K * t_period) (m * t_period) (q - 1).
Definition burst_conditions burstId e_id (K m q t_period t_high b_delay : Z) : list Cond :=
  edges e_id (train (Z.to_nat (K + m)) b_delay t_period t_high)
  ++ if q =? 1 then [] else edges (body_event burstId) (train (Z.to_nat K) 0 t_period t_high).

Lemma set_conditions_here burstId e_id t_high t_period b_delay b_flag K m q :
  0 < t_high < t_period -> 1 <= K -> K * t_period < 2 * BG_BURST_PERIOD -> 0 <= m < K ->
  0 <= b_delay -> b_delay + 2 ^ 20 < 2 ^ 63 -> b_flag <> 0 ->
  does here (set_conditions outs burstId t_high t_period b_delay b_flag e_id (burst_plan K m q t_period)) (eq 0)
    (burst_conditions burstId e_id K m q t_period t_high b_delay) [].
Proof.
  unfold BG_BURST_PERIOD. intros Hh HK Hblock Hm Hd1 Hd2 Hf.
  assert (t_period < 400000) as Hp by nia. assert ((K + m + 1) * t_period <= 800000) as Hend by nia.
  assert (forall n, 0 <= n -> Z.to_nat (2 * n) = (2 * Z.to_nat n)%nat) as Htwice by lia.
  unfold set_conditions, burst_plan, burst_conditions. cbn [n_conditions n_main_conditions n_block].
  rewrite (unsigned_wrap_small 32 (t_period - t_high)), (proj2 (Z.eqb_neq (2 * (K + m)) 1)), !Htwice by lia.
  refine (does_bind _ _ _ _ _ [] _ [] [] (make_room_here _ _ Hf) _). intros _ _.
  refine (does_bind _ _ _ _ _ _ _ [] [] (create_train _ _ _ _ _ _ _ _ _ _ _) _); [done|lia|lia|lia|rewrite Z2Nat.id by lia; lia|].
  intros ? <-. cbn [Z.eqb negb]. destruct (Z.eqb_spec q 1) as [->|Hq]; [by apply does_ret|].
  rewrite (proj2 (Z.eqb_neq (q - 1) 0)) by lia. cbn beta iota.
  refine (does_bind _ _ _ _ _ [] _ [] [] (make_room_here _ _ Hf) _). intros _ _.
  rewrite <- (app_nil_r (map _ _)).
  refine (does_bind _ _ _ _ _ _ [] [] [] (create_train _ _ _ _ _ _ _ _ _ _ _) _); [done|lia|lia|lia|rewrite Z2Nat.id by lia; nia|].
  intros ? <-. by apply does_ret.
Qed.

(** C28: On a daemon that accepts what it is asked for, the configuration of a burst of whole pulses, with a period
    below 200 us and a delay below 2^63 - 2^20 ns, of at least one block or without end (t_burst = 0), and with a flag
    for new or appended conditions, returns success and makes exactly the conditions of its pulses: for the start event those of a block
    and of the pulses that do not fill a block, for the event of the block loop those of a block, if there is more than
    one; and it tells the firmware the period and length of the block and how often the loop runs.  The blocks and the
    rest together have the pulses of the burst.  (A burst shorter than a block becomes endless:
    [BurstDemo.short_burst_endless].) *)
Theorem burst_configured burstId e_id t_high t_period t_burst b_delay b_flag K m q t :
  describes info e_id -> name <> ""%string -> 0 < burstId ->
  0 < t_high < t_period -> t_period < BG_BURST_PERIOD -> blocks t_period = (K * t_period, 2 * K) -> 0 <= m < K ->
  (1 <= q /\ t_burst = (q * K + m) * t_period \/ q = 0 /\ m = 0 /\ t_burst = 0) ->
  0 <= b_delay -> b_delay + 2 ^ 20 < 2 ^ 63 -> b_flag <> 0 -> 2 * (K + m) <= free ->
  exists t', bg_config_io outs fuel true burstId t_high t_period t_burst b_delay b_flag t = (Ret 0, t') /\
    conds (outside t') = conds (outside t) ++ burst_conditions burstId e_id K m q t_period t_high b_delay /\
    sent (outside t') = sent (outside t) ++
      [(CMD_LS_BURST, [u32 burstId]);
       (CMD_GET_PARAM, [u32 burstId; u32 (K * t_period + m * t_period); 2 * K; K * t_period; b_flag; 1]);
       (CMD_GET_CYCLE, [u32 burstId; u32 (Z.shiftr (q - 1) 32); u32 (q - 1); 1])] /\
    (1 <= q -> (K + m) + (q - 1) * K = t_burst / t_period).
Proof.
  intros Hd Hname Hid Hh Hp HB Hm Ht Hd1 Hd2 Hf Hfree.
  destruct (blocks_spec t_period) as (K' & HB' & HK & Hblock); [lia|].
  assert (K' = K) as -> by (rewrite HB in HB'; injection HB'; lia).
  assert (plan t_high t_period t_burst = burst_plan K m q t_period) as Hplan.
  { destruct Ht as [[Hq ->]|(-> & -> & ->)]; [by apply plan_whole; first [done|lia]|].
    rewrite (plan_endless _ _ K) by (done || lia). unfold burst_plan. f_equal; lia. }
  destruct (burst_info_here (ioName t, ioNameGiven t) e_id burstId (burst_plan K m q t_period) Hd Hfree t eq_refl)
    as (? & t1 & E1 & <- & N1 & C1 & S1).
  destruct (find_io_name_here _ e_id Hd t1 N1) as (? & t2 & E2 & <- & N2 & C2 & S2).
  set (t3 := mkTool (Some name) true (map_PrefixName t2) (outside t2)).
  destruct (start_event_here here e_id Hd t3 eq_refl) as (? & t4 & E4 & <- & N4 & C4 & S4).
  destruct (set_conditions_here burstId e_id t_high t_period b_delay b_flag K m q) with (t := t4) as (? & t5 & E5 & <- & N5 & C5 & S5);
    [lia..|done|done|].
  destruct (send_plan_here here burstId b_flag (burst_plan K m q t_period) t5 N5) as (? & t6 & E6 & <- & _ & C6 & S6).
  exists t6. split_and!.
  - unfold bg_config_io. cbv [mbind M_bind get set_name modify]. cbv zeta. rewrite (proj2 (Z.eqb_neq burstId 0)), andb_false_r by lia.
    rewrite (proj2 (Z.eqb_neq t_period 0)), Hplan by lia. cbn [negb]. cbv beta iota.
    rewrite E1. cbv beta iota. rewrite E2. cbv beta iota. rewrite bool_decide_false by done. cbv beta iota. fold t3.
    rewrite E4. cbv beta iota. rewrite E5. cbv beta iota. cbn [negb Z.eqb]. exact E6.
  - cbn [outside t3] in *. by rewrite C6, C5, C4, C2, C1, !app_nil_r.
  - cbn [outside t3] in *. by rewrite S6, S5, S4, S2, S1, !app_nil_r, <- app_assoc.
  - intros Hq. destruct Ht as [[_ ->]|[? _]]; [|lia]. rewrite Z.div_mul by lia. lia.
Qed.
End Daemon.

Module BurstDemo.
(** A daemon with one output that keeps conditions and instructions. *)
Definition World : Type := list Cond * list (Z * list Z).
Definition say {A} (a : A) : M World A := mret a.
#[export] Instance world_proxies : Proxies World := {|
  create _ := say tt; getFree := say 1000; getInputs := say []; NewSoftwareActionSink := say ""%string;
  getAllConditions _ := gets (fun w => map (fun _ => "/c"%string) w.1);
  out_NewCondition _ _ id mask offset on := modify (fun w => (w.1 ++ [mkCond id mask offset on], w.2));; say "/c"%string;
  sw_NewCondition _ _ _ _ _ := say ""%string; ecpu_NewCondition _ _ _ _ _ _ := say ""%string;
  setAccept _ _ _ := say tt; Disown _ := say tt; connect_action _ := say tt;
  getID _ := say 0; getMask _ := say 0; getTag _ := say 0; getOffset _ := say 0;
  getDestructible _ := say true; getOwner _ := say ""%string; Destroy _ := say tt;
  getActive _ := say true; setActive _ _ := say tt;
  getTypeOut _ := say "8ns (200 MHz)"%string; getIndexOut _ := say 3;
  getOutputEnableAvailable _ := say true; getSpecialPurposeOutAvailable _ := say true;
  getInputTerminationAvailable _ := say true; getSpecialPurposeInAvailable _ := say true;
  getOutput _ := say ""%string; getInput _ := say ""%string; output_call _ _ := say tt; input_call _ _ := say tt;
  instruct code args := modify (fun w => (w.1, w.2 ++ [(code, args)]));; say 0;
  getResponse := gets (fun w => match last w.2 with Some (code, _) => code | None => 0 end);
  readBurstInfo _ := say [1; 0; 3; 0xfca00000; 0; 0; 0; 0; 0; 0; 0; 0]; readSharedBuffer _ := say [7];
  wait_for_signal _ := say 1; wait_for_ever := say 0
|}.
Definition info : list Z := [1; 0; 3; 0xfca00000; 0; 0; 0; 0; 0; 0; 0; 0].

Lemma say_quiet {A} (a : A) (P : A -> Prop) : P a -> quiet fst snd (say a) P.
Proof. intros Ha w. exists a, w. by rewrite !app_nil_r. Qed.

#[export] Instance world_accepting : Accepting fst snd "/B1" "8ns (200 MHz)" 3 1000 info.
Proof.
  split; intros; try by apply say_quiet.
  - intros w. eexists _, w. by rewrite !app_nil_r.
  - intros w. eexists _, _. split; [reflexivity|]. cbn. by rewrite app_nil_r.
  - intros w. eexists _, _. split; [reflexivity|]. cbn. by rewrite app_nil_r.
  - eexists _, w. split_and!; [done..|]. intros l code args -> _. by rewrite last_snoc.
Qed.

Definition start : Tool World := mkTool None false [] ([], []).
Definition e_id : Z := Z.shiftl 0xfca00000 32.

Lemma info_describes : describes (type := "8ns (200 MHz)") (index := 3) info e_id.
Proof. split; [done|by exists 0, 0%nat|done|by exists 0xfca00000, 0]. Qed.

(** Pulses of 40 us in a period of 100 us, five of them: a block of two, run twice,
    and one more. *)
Lemma burst_configured_witness :
  exists t', bg_config_io [("B1", "/B1")]%string 2 true 1 40000 100000 500000 500 1 start = (Ret 0, t') /\
    (outside t').1 = edges e_id [(500, true); (40500, false); (100500, true); (140500, false); (200500, true); (240500, false)]
                     ++ edges (body_event 1) [(0, true); (40000, false); (100000, true); (140000, false)] /\
    (outside t').2 = [(CMD_LS_BURST, [1]); (CMD_GET_PARAM, [1; 300000; 4; 200000; 1; 1]); (CMD_GET_CYCLE, [1; 0; 1; 1])].
Proof.
  destruct (burst_configured fst snd "B1" 2 ltac:(lia) 1 e_id 40000 100000 500000 500 1 2 1 2 start)
    as (t' & E & Hc & Hs & _);
    [exact info_describes|done|lia|lia|by unfold BG_BURST_PERIOD|by vm_compute|lia|left; lia|lia|lia|lia|lia|].
  exists t'. split; [exact E|]. split; [etrans; [exact Hc|]|etrans; [exact Hs|]]; by vm_compute.
Defined.

(** What the arithmetic does with other parameters that are accepted: a burst that is
    shorter than a block has no end, *)
Example short_burst_endless : n_block (plan 50000 150000 200000) = -1.
Proof. by vm_compute. Qed.
(** the rest of a burst that is not a whole pulse is filled with edges at the wrong times
    (nine for one pulse), *)
Example rest_has_too_many : n_rem_conditions (plan 100 1000 200900) = 9.
Proof. by vm_compute. Qed.
(** and when their number is odd the pulses of the block loop are inverted. *)
Example inverted_loop :
  (fun t => filter (fun c => c_id c = body_event 1) (take 405 (outside t).1) !! 0%nat)
    (bg_config_io [("B1", "/B1")]%string 2 true 1 600 1000 400700 0 1 start).2
  = Some (mkCond (body_event 1) EVT_MASK_IO 0 false).
Proof. by vm_compute. Qed.
End BurstDemo.
