(* ===== verification/Texts.v ===== *)
(** * Texts: what the sources use of [std::string] and of input streams

    A text is a list of characters.  Positions behind the end, and [npos], are
    [None]. *)
From S2P Require Import Prelude.
From Stdlib Require Import Strings.Ascii.

Abbreviation text := (list ascii).
Definition str : string -> text := String.list_ascii_of_string.
Definition to_string : text -> string := String.string_of_list_ascii.

Implicit Types (l p : text) (c : ascii).

Definition is_space c : bool := let n := nat_of_ascii c in ((9 <=? n) && (n <=? 13) || (n =? 32))%nat.
Definition is_digit c : bool := let n := nat_of_ascii c in ((48 <=? n) && (n <=? 57))%nat.
Definition char_eqb (c d : ascii) : bool := bool_decide (c = d).
Definition text_eqb (l k : text) : bool := bool_decide (l = k).

(** [l.find(c)], [l.find_last_of(set)], [l.find(p)] *)
Fixpoint find_first (f : ascii -> bool) l : option nat :=
  match l with [] => None | c :: l' => if f c then Some 0 else S <$> find_first f l' end.
Definition find_char (c : ascii) l : option nat := find_first (char_eqb c) l.
Fixpoint find_last (f : ascii -> bool) l : option nat :=
  match l with
  | [] => None
  | c :: l' => match find_last f l' with Some i => Some (S i) | None => if f c then Some 0 else None end
  end.
Definition find_last_of (set : text) l : option nat := find_last (fun c => existsb (char_eqb c) set) l.
Fixpoint starts_with (p l : text) : bool :=
  match p, l with
  | [], _ => true
  | c :: p', d :: l' => char_eqb c d && starts_with p' l'
  | _ :: _, [] => false
  end.
Fixpoint find_text (p l : text) : option nat :=
  if starts_with p l then Some 0 else match l with [] => None | _ :: l' => S <$> find_text p l' end.
Definition has_text (p l : text) : bool := if find_text p l is Some _ then true else false.
Definition has_char (c : ascii) l : bool := if find_char c l is Some _ then true else false.

(** [l.substr(pos, n)] *)
Definition substr (pos n : nat) l : text := take n (drop pos l).

(** ** [istringstream] *)
Fixpoint skip_spaces l : text := match l with c :: l' => if is_space c then skip_spaces l' else l | [] => [] end.
Fixpoint span (f : ascii -> bool) l : text * text :=
  match l with
  | c :: l' => if f c then let '(a, b) := span f l' in (c :: a, b) else ([], l)
  | [] => ([], [])
  end.
(** [in >> word]: [None] when there is none. *)
Definition read_word l : option (text * text) :=
  match span (fun c => negb (is_space c)) (skip_spaces l) with
  | ([], _) => None
  | r => Some r
  end.
(** [in >> ch] *)
Definition read_char l : option (ascii * text) := match skip_spaces l with c :: l' => Some (c, l') | [] => None end.

Local Open Scope Z_scope.

Definition digit_value c : Z := Z.of_nat (nat_of_ascii c) - 48.
Definition decimal (ds : text) : Z := foldl (fun n c => 10 * n + digit_value c) 0 ds.

(** [in >> i]: a sign, digits; out of range and no digits are failures.  A sign is
    accepted for unsigned numbers, too, and negates modulo [2 ^ 32]. *)
Definition read_number (low high : Z) (wrap : Z -> Z) l : option (Z * text) :=
  let '(negative, l) :=
    match skip_spaces l with
    | c :: l' => if char_eqb c "-" then (true, l') else if char_eqb c "+" then (false, l') else (false, c :: l')
    | [] => (false, [])
    end in
  match span is_digit l with
  | ([], _) => None
  | (ds, rest) =>
      let n := if negative then - decimal ds else decimal ds in
      if (low <=? n) && (n <=? high) then Some (wrap n, rest) else None
  end.
Definition read_int : text -> option (Z * text) := read_number (- 2 ^ 31) (2 ^ 31 - 1) (fun n => n).
Definition read_unsigned : text -> option (Z * text) := read_number (- (2 ^ 32 - 1)) (2 ^ 32 - 1) (fun n => u32 n).

(** ** Lemmas *)
Lemma char_eqb_eq (c d : ascii) : char_eqb c d = true <-> c = d.
Proof. apply bool_decide_eq_true. Qed.
Lemma char_eqb_neq (c d : ascii) : char_eqb c d = false <-> c <> d.
Proof. apply bool_decide_eq_false. Qed.

Lemma find_first_app f l k : forallb (fun c => negb (f c)) l = true ->
  find_first f (l ++ k) = (fun i => length l + i)%nat <$> find_first f k.
Proof.
  induction l as [|c l IH]; cbn; [by destruct (find_first f k)|].
  intros [Hc Hl]%andb_prop. apply negb_true_iff in Hc. rewrite Hc, IH by done. by destruct (find_first f k).
Qed.
Lemma find_first_none f l : forallb (fun c => negb (f c)) l = true -> find_first f l = None.
Proof. intros Hl. rewrite <- (app_nil_r l), find_first_app by done. done. Qed.
Lemma find_last_app f l k : find_last f (l ++ k) =
  match find_last f k with Some i => Some (length l + i)%nat | None => find_last f l end.
Proof.
  induction l as [|c l IH]; cbn; [by destruct (find_last f k)|]. rewrite IH. by destruct (find_last f k).
Qed.
Lemma find_last_none f l : forallb (fun c => negb (f c)) l = true -> find_last f l = None.
Proof. induction l as [|c l IH]; cbn; [done|]. intros [Hc Hl]%andb_prop. rewrite IH by done. by destruct (f c). Qed.

Lemma starts_with_prefix p l : starts_with p l = true <-> exists k, l = p ++ k.
Proof.
  revert l. induction p as [|c p IH]; intros l; cbn; [split; [by exists l|done]|].
  destruct l as [|d l]; [split; [done|by intros [k ?]]|].
  rewrite andb_true_iff, char_eqb_eq, IH. split.
  - intros [-> [k ->]]. by exists k.
  - intros [k [= -> ->]]. eauto.
Qed.
Lemma starts_with_app p l : starts_with p (p ++ l) = true.
Proof. apply starts_with_prefix. by exists l. Qed.

Lemma span_app f l k : forallb f l = true -> match k with c :: _ => f c = false | [] => True end ->
  span f (l ++ k) = (l, k).
Proof.
  intros Hl Hk. induction l as [|c l IH]; cbn in *.
  - destruct k as [|c k]; cbn; [done|by rewrite Hk].
  - apply andb_prop in Hl as [-> Hl]. by rewrite IH.
Qed.
