(* ===== verification/Attach.v ===== *)
(** * From the daemon's arguments to attached devices: src/saftbusd-noda.cpp of
    [src/saftbus/], and src/create_service.cpp of [src/src/] *)
From S2P Require Import Prelude StdMap Loop Container Saftd Texts.
From Stdlib Require Import Strings.Ascii.

(** ** [main] of the daemon: which arguments are plugins *)
Definition is_int (name : text) : bool :=
  match read_unsigned name with
  | None => false
  | Some (_, rest) => if read_char rest is Some _ then false else true
  end.

(** The text gets shorter in each call; its length is enough fuel. *)
Fixpoint detect_version_loop (fuel : nat) (name : text) : bool :=
  match fuel with
  | O => false
  | S fuel' =>
      if (length name <? 2)%nat then false
      else match name with
           | c :: rest =>
               if negb (char_eqb c ".") then false
               else match find_char "." rest with
                    | None => is_int rest
                    | Some pos => if negb (is_int (take pos rest)) then false else detect_version_loop fuel' (drop (pos + 1) name)
                    end
           | [] => false
           end
  end.
Definition detect_version (name : text) : bool := detect_version_loop (length name) name.

Definition so_ending : text := str ".so".
Definition detect_so_file (name : text) : bool :=
  if (length name <? length so_ending)%nat then false
  else match find_text so_ending name with
       | Some pos =>
           if (pos =? length name - length so_ending)%nat then true
           else match drop (pos + length so_ending) name with
                | c :: _ => if negb (char_eqb c ".") then false else detect_version (drop (pos + length so_ending) name)
                | [] => false
                end
       | None => false
       end.

Inductive Arguments := Help | NoPlugin (argument : text) | Plugins (l : list (text * list text)).

(** The loop over the arguments. *)
Fixpoint group_arguments (args : list text) (plugins_and_args : list (text * list text)) : Arguments :=
  match args with
  | [] => Plugins plugins_and_args
  | argvi :: args' =>
      if text_eqb argvi (str "-h") || text_eqb argvi (str "--help") then Help
      else if detect_so_file argvi then group_arguments args' (plugins_and_args ++ [(argvi, [])])
      else match last plugins_and_args with
           | None => NoPlugin argvi
           | Some (so, l) =>
               group_arguments args' (take (length plugins_and_args - 1) plugins_and_args ++ [(so, l ++ [argvi])])
           end
  end.

(** ** [create_services]: [<name>:<eb-path>[:<poll-interval>]] *)
Definition usage_error : exn := RuntimeError "expect <name>:<eb-path>[:<poll-interval>] as argument".
(** The text of this error goes on with the argument. *)
Definition interval_error : exn := RuntimeError "cannot read poll interval from".

Definition parse_argument (arg : text) : outcome (text * text * Z) :=
  match find_char ":" arg with
  | None => Throw usage_error
  | Some pos =>
      if (pos + 1 =? length arg)%nat then Throw usage_error
      else
        let name := take pos arg in
        let path := drop (pos + 1) arg in
        match find_char ":" path with
        | None => Ret (name, path, 1%Z)
        | Some pos2 =>
            if (pos2 + 1 =? length path)%nat then Throw usage_error
            else match read_int (drop (pos2 + 1) path) with
                 | Some (n, _) => if (n <=? 0)%Z then Throw interval_error else Ret (name, take pos2 path, n)
                 | None => Throw interval_error
                 end
        end
  end.

Definition wildcard_error : exn :=
  Error INVALID_ARGS "if name has * wildcard as last char, etherbone_path also needs wildcard as last char".
Definition directory_error : exn := Error INVALID_ARGS "cannot open dirctory ".

Definition ends_with (c : ascii) (l : text) : bool := match last l with Some d => char_eqb c d | None => false end.
Definition but_last (l : text) : text := take (length l - 1) l.

(** The directory of the pattern, and what an entry of it stands for: the name and
    the path of the device.  With an empty pattern [size()-1] is [npos]. *)
Definition directory_of (etherbone_path : text) : text :=
  str "/" ++ match find_last_of (str "/") etherbone_path with Some i => take i etherbone_path | None => etherbone_path end.
Definition matching_device (name etherbone_path d_name : text) : option (text * text) :=
  let entry := directory_of etherbone_path ++ str "/" ++ d_name in
  let n := length etherbone_path in
  let head := match etherbone_path with [] => drop 1 entry | _ => substr 1 (n - 1) entry end in
  if text_eqb head (but_last etherbone_path) then
    let number := drop n entry in Some (but_last name ++ number, but_last etherbone_path ++ number)
  else None.

Section Create.
Context {S : Type}.
(** [opendir] and [readdir]; [AttachDevice]. *)
Context (read_directory : text -> option (list text)).
Context (attach : text -> text -> Z -> M S unit).

Definition handle_wildcards_and_attach_device (name etherbone_path : text) (poll_interval_ms : Z) : M S unit :=
  if ends_with "*" name then
    throw_if (negb (length etherbone_path =? 0)%nat && negb (ends_with "*" etherbone_path)) wildcard_error;;
    match read_directory (directory_of etherbone_path) with
    | None => throw directory_error
    | Some entries =>
        for_each (fun d_name =>
          match matching_device name etherbone_path d_name with
          | Some (new_name, new_path) => attach new_name new_path poll_interval_ms
          | None => mret tt
          end) entries
    end
  else attach name etherbone_path poll_interval_ms.

Definition attach_argument (arg : text) : M S unit :=
  '(name, path, n) ← of_outcome (parse_argument arg); handle_wildcards_and_attach_device name path n.

(** [exists_]: there is a SAFTd already; [start]: a new one, and its service in the
    container. *)
Definition create_services (exists_ : bool) (start : M S unit) (args : list text) : M S unit :=
  throw_if exists_ (RuntimeError "service alreayd exists");;
  start;;
  for_each attach_argument args.
End Create.

(** The two of them on the daemon: [SAFTd::AttachDevice], and the service of the
    SAFTd in the container. *)
Section OnDaemon.
Context {CB Y : Type}.
Context (get_devices : Y -> Devices) (put_devices : Devices -> Y -> Y) (has_container : bool).
Context (new_TimingReceiver : string -> string -> Z -> M (Daemon CB Y) TimingReceiver).
Context (new_service : string -> Service CB).

Definition attach_on_daemon (name path : text) (poll_interval_ms : Z) : M (Daemon CB Y) unit :=
  _ ← AttachDevice get_devices put_devices has_container new_TimingReceiver new_service
        (String.string_of_list_ascii name) (String.string_of_list_ascii path) poll_interval_ms;
  mret tt.
Definition create_saftd (new_SAFTd : M (Daemon CB Y) unit) (service : Service CB) : M (Daemon CB Y) unit :=
  new_SAFTd;; publish saftd_path service.
End OnDaemon.

(** ** The daemon's connection, and [main] *)

(** What the system does for the socket: [None] or [false] is an error. *)
Class StartSys (S : Type) := {
  getenv : text -> M S (option text);
  new_socket : M S Z;
  (** with [EEXIST] it is there already *)
  mkdir : text -> M S bool;
  unlink : text -> M S bool;
  bind : Z -> text -> M S bool;
  chmod : text -> Z -> M S unit;
  (** [accept_client] becomes a source of the loop *)
  listen_to : Z -> M S unit;
  (** a [ClientConnection] can be made *)
  saftd_already_running : M S bool;
  run_loop : M S unit;
  clear_loop : M S unit
}.
(** Plugins are shared objects: [dlopen], [dlsym] and [dlclose]. *)
Class Dl (S Handle Function : Type) := {
  dlopen : text -> M S (option Handle);
  dlsym : Handle -> text -> M S (option Function);
  dlclose : Handle -> M S unit
}.
Definition LibraryLoader_new {S H F} `{Dl S H F} (so_filename : text) : M S (H * F) :=
  handle ← dlopen so_filename;
  match handle with
  | None => throw (RuntimeError "cannot load plugin: fail to open file ")
  | Some h =>
      f ← dlsym h (str "create_services");
      match f with
      | None => dlclose h;; throw (RuntimeError "cannot load plugin because symbol create_services cannot be loaded")
      | Some f => mret (h, f)
      end
  end.

Section Start.
Context {S : Type} `{!StartSys S}.
(** [Container::load_plugin] *)
Context (load_plugin : text -> list text -> M S bool).
Definition start_failed (what : string) : exn := RuntimeError ("ServerConnection constructor : " +:+ what).

Definition ServerConnection_new (plugins_and_args : list (text * list text)) (socket_name : text) : M S unit :=
  env ← getenv (str "SAFTBUS_SOCKET_PATH");
  let socketname := default socket_name env in
  match socketname with
  | [] => throw (start_failed "invalid socket name (name is empty)")
  | c :: _ =>
      if negb (char_eqb c "/") then throw (start_failed "is not an absolute pathname")
      else
        base_socket_fd ← new_socket;
        throw_if (base_socket_fd <=? 0)%Z (start_failed "cannot create socket");;
        let dirname := match find_last_of (str "/") socketname with Some i => take i socketname | None => socketname end in
        made ← mkdir dirname;
        throw_if (negb made) (start_failed "cannot create socket directory");;
        unlink socketname;;
        bound ← bind base_socket_fd socketname;
        throw_if (negb bound) (start_failed "could not bind to socket");;
        chmod socketname 0x1b6;;
        chmod dirname 0x1ed;;
        listen_to base_socket_fd;;
        for_each (fun p => loaded ← load_plugin p.1 p.2; throw_if (negb loaded) (RuntimeError "cannot load plugin ")) plugins_and_args
  end.

Definition socket_path : text := str "/var/run/saftbus/saftbus".
(** What follows the arguments. *)
Definition run_daemon (plugins_and_args : list (text * list text)) : M S Z :=
  running ← saftd_already_running;
  if running : bool then mret 1%Z
  else ServerConnection_new plugins_and_args socket_path;; run_loop;; clear_loop;; mret 0%Z.
(** [saftbus::Error] is a [std::runtime_error]. *)
Definition daemon_main (args : list text) : M S Z :=
  try_catch
    (match group_arguments args [] with
     | Help => mret 0%Z
     | NoPlugin _ => mret 1%Z
     | Plugins l => run_daemon l
     end)
    (fun e => match e with Error _ _ | RuntimeError _ => clear_loop;; mret 1%Z | _ => throw e end).
End Start.

(** ** The daemon's arguments are understood as they are meant *)

Definition free_of (c : ascii) (l : text) : Prop := forallb (fun d => negb (char_eqb c d)) l = true.

Lemma text_find_app c l k : free_of c l -> find_char c (l ++ c :: k) = Some (length l).
Proof.
  intros Hl. unfold find_char. rewrite find_first_app by done. cbn.
  replace (char_eqb c c) with true by (symmetry; by apply char_eqb_eq). cbn. by rewrite Nat.add_0_r.
Qed.
Lemma text_find_none c l : free_of c l -> find_char c l = None.
Proof. apply find_first_none. Qed.

(** ** Arguments of plugins *)
Definition no_help (l : text) : Prop := l <> str "-h" /\ l <> str "--help".
Definition group_ok (g : text * list text) : Prop :=
  detect_so_file g.1 = true /\ no_help g.1 /\ Forall (fun a => detect_so_file a = false /\ no_help a) g.2.
Definition flatten (groups : list (text * list text)) : list text := concat (map (fun g => g.1 :: g.2) groups).

Lemma help_no l : no_help l -> text_eqb l (str "-h") || text_eqb l (str "--help") = false.
Proof. intros [H1 H2]. unfold text_eqb. by rewrite !bool_decide_eq_false_2. Qed.

Lemma group_more args : forall rest groups so l, Forall (fun a => detect_so_file a = false /\ no_help a) args ->
  group_arguments (args ++ rest) (groups ++ [(so, l)]) = group_arguments rest (groups ++ [(so, l ++ args)]).
Proof.
  induction args as [|a args IH]; intros rest groups so l Hargs; cbn [app]; [by rewrite app_nil_r|].
  apply Forall_cons in Hargs as [[Ha Hh] Hargs]. cbn [group_arguments]. rewrite help_no, Ha, last_snoc by done.
  rewrite length_app. cbn [length]. replace (length groups + 1 - 1) with (length groups) by lia.
  rewrite take_app_length, IH by done. by rewrite <- (assoc_L (++)).
Qed.

Lemma group_all groups : forall before, Forall group_ok groups -> group_arguments (flatten groups) before = Plugins (before ++ groups).
Proof.
  induction groups as [|[so l] groups IH]; intros before Hg; cbn; [by rewrite app_nil_r|].
  apply Forall_cons in Hg as [(Hso & Hh & Hl) Hg]. cbn in Hso, Hh, Hl. rewrite help_no, Hso by done.
  change (concat _) with (flatten groups). rewrite group_more by done. rewrite IH by done. by rewrite <- (assoc_L (++)).
Qed.

(** Every plugin gets the arguments behind it, and the other way round. *)
Lemma plugins_grouped groups : Forall group_ok groups -> group_arguments (flatten groups) [] = Plugins groups.
Proof. intros Hg. by rewrite group_all. Qed.

(** The daemon loads the plugins of its arguments, each with its own, and before that
    nothing has happened but the test for another daemon. *)
Lemma daemon_main_plugins {S} `{!StartSys S} (load_plugin : text -> list text -> M S bool) groups s : Forall group_ok groups ->
  daemon_main load_plugin (flatten groups) s =
  try_catch (run_daemon load_plugin groups) (fun e => match e with Error _ _ | RuntimeError _ => clear_loop;; mret 1%Z | _ => throw e end) s.
Proof. intros Hg. unfold daemon_main. by rewrite plugins_grouped. Qed.

Lemma grouped_flatten args : forall before groups, group_arguments args before = Plugins groups -> flatten groups = flatten before ++ args.
Proof.
  unfold flatten. induction args as [|a args IH]; intros before groups; cbn; [intros [= <-]; by rewrite app_nil_r|].
  destruct (_ || _); [done|]. destruct (detect_so_file a).
  - intros ->%IH. by rewrite map_app, concat_app, <- (assoc_L (++)).
  - destruct (last before) as [[so l]|] eqn:El; [|done]. apply last_Some in El as [pre ->].
    rewrite length_app. cbn [length]. replace (length pre + 1 - 1) with (length pre) by lia. rewrite take_app_length.
    intros ->%IH. rewrite !map_app, !concat_app. cbn. by rewrite !app_nil_r, <- !(assoc_L (++)), <- app_comm_cons, <- (assoc_L (++)).
Qed.

(** A plugin in a directory whose name has [.so] in it is taken for an argument. *)
Example so_in_directory : detect_so_file (str "/opt/my.software/plugin.so") = false.
Proof. reflexivity. Qed.
Example versions : map detect_so_file [str "libsaft.so"; str "libsaft.so.10"; str "libsaft.so.10.0.0"; str "tr0:dev/wbm0"; str "lib.so.x"] =
  [true; true; true; false; false].
Proof. vm_compute. reflexivity. Qed.

(** ** Devices *)
Inductive DeviceArg :=
  | Plain (name path : text) (interval : option text)
  | Pattern (base dir stem : text) (interval : option text).

Definition arg_name (a : DeviceArg) : text := match a with Plain name _ _ => name | Pattern base _ _ _ => base ++ str "*" end.
Definition arg_path (a : DeviceArg) : text :=
  match a with Plain _ path _ => path | Pattern _ dir stem _ => dir ++ str "/" ++ stem ++ str "*" end.
Definition arg_interval (a : DeviceArg) : option text := match a with Plain _ _ i | Pattern _ _ _ i => i end.
Definition interval_of (a : DeviceArg) : Z := match arg_interval a with Some ds => decimal ds | None => 1%Z end.
Definition print (a : DeviceArg) : text :=
  arg_name a ++ str ":" ++ arg_path a ++ match arg_interval a with Some ds => str ":" ++ ds | None => [] end.

Definition digits_ok (ds : text) : Prop := ds <> [] /\ forallb is_digit ds = true /\ (0 < decimal ds < 2 ^ 31)%Z.
Definition arg_ok (a : DeviceArg) : Prop :=
  free_of ":" (arg_name a) /\ free_of ":" (arg_path a) /\ match arg_interval a with Some ds => digits_ok ds | None => True end /\
  match a with
  | Plain name path _ => path <> [] /\ ends_with "*" name = false
  | Pattern _ _ stem _ => free_of "/" stem
  end.

Lemma digit_first d : is_digit d = true -> is_space d = false /\ char_eqb d "-" = false /\ char_eqb d "+" = false.
Proof.
  intros Hd. split; [|split; apply char_eqb_neq; intros ->; vm_compute in Hd; done].
  unfold is_digit, is_space in *. apply andb_true_iff in Hd as [H1%Nat.leb_le H2%Nat.leb_le].
  apply orb_false_iff. split; [apply andb_false_iff; right; apply Nat.leb_gt; lia|apply Nat.eqb_neq; lia].
Qed.

Lemma read_digits ds : digits_ok ds -> read_int ds = Some (decimal ds, []).
Proof.
  intros (Hne & Hd & Hr). destruct ds as [|d ds]; [done|]. unfold read_int, read_number.
  assert (is_digit d = true) as Hd1 by (by apply andb_prop in Hd as [? _]).
  destruct (digit_first d Hd1) as (Hs & Hm & Hp). cbn [skip_spaces]. rewrite Hs, Hm, Hp.
  rewrite <- (app_nil_r (d :: ds)) at 1. rewrite span_app by done.
  replace (_ && _)%Z with true; [done|]. symmetry. apply andb_true_iff. lia.
Qed.

Lemma parse_print a : arg_ok a -> parse_argument (print a) = Ret (arg_name a, arg_path a, interval_of a).
Proof.
  intros (Hn & Hp & Hi & Ha). unfold parse_argument, print, interval_of.
  assert (arg_path a <> []) as Hne by (destruct a; [apply Ha|by destruct dir]).
  cbn [app str String.list_ascii_of_string]. rewrite text_find_app by done.
  set (rest := arg_path a ++ _). assert (length rest <> 0) as Hl.
  { subst rest. rewrite length_app. destruct (arg_path a); [done|cbn; lia]. }
  rewrite length_app. cbn [length]. replace (_ =? _) with false by (symmetry; apply Nat.eqb_neq; lia).
  rewrite take_app_length. rewrite Nat.add_1_r, (drop_app_ge (arg_name a)) by lia.
  replace (S (length (arg_name a)) - length (arg_name a)) with 1 by lia. rewrite ?drop_0; cbn [drop]; rewrite ?drop_0.
  subst rest. destruct (arg_interval a) as [ds|].
  - cbn [app str String.list_ascii_of_string]. rewrite text_find_app by done. pose proof (proj1 Hi) as Hdne.
    rewrite length_app. cbn [length]. replace (_ =? _) with false by (symmetry; apply Nat.eqb_neq; destruct ds; [done|cbn; lia]).
    rewrite Nat.add_1_r, (drop_app_ge (arg_path a)) by lia.
    replace (S (length (arg_path a)) - length (arg_path a)) with 1 by lia. rewrite ?drop_0; cbn [drop]; rewrite ?drop_0.
    rewrite read_digits by done. rewrite take_app_length. destruct Hi as (_ & _ & Hr). by replace (decimal ds <=? 0)%Z with false by lia.
  - rewrite app_nil_r, text_find_none by done. done.
Qed.

(** ** Patterns *)
Lemma text_eqb_eq (l k : text) : text_eqb l k = true <-> l = k.
Proof. apply bool_decide_eq_true. Qed.
Lemma but_last_snoc (l : text) c : but_last (l ++ [c]) = l.
Proof. unfold but_last. rewrite length_app. cbn. replace (length l + 1 - 1) with (length l) by lia. apply take_app_length. Qed.

Lemma last_slash (dir stem : text) : free_of "/" stem -> find_last_of (str "/") (dir ++ str "/" ++ stem ++ str "*") = Some (length dir).
Proof.
  intros Hs. unfold find_last_of. cbn [str String.list_ascii_of_string app]. rewrite find_last_app.
  cbn [find_last existsb]. rewrite find_last_app. cbn. rewrite find_last_none; [cbn; f_equal; lia|].
  unfold free_of in Hs. rewrite forallb_forall in Hs |- *. intros x Hx. apply Hs in Hx. rewrite orb_false_r.
  unfold char_eqb in *. by rewrite (bool_decide_ext (x = "/"%char) ("/"%char = x)) by done.
Qed.

(** What an entry of the directory stands for. *)
Lemma matching_device_spec base dir stem d : free_of "/" stem ->
  matching_device (base ++ str "*") (dir ++ str "/" ++ stem ++ str "*") d =
  if starts_with stem d then Some (base ++ drop (length stem) d, dir ++ str "/" ++ d) else None.
Proof.
  intros Hs. unfold matching_device, directory_of. rewrite last_slash by done. rewrite take_app_length.
  change (str "*") with ["*"%char]. change (str "/") with ["/"%char].
  set (q := dir ++ ["/"%char]).
  assert (dir ++ ["/"%char] ++ stem ++ ["*"%char] = (q ++ stem) ++ ["*"%char]) as -> by (unfold q; by rewrite <- !(assoc_L (++))).
  assert ((["/"%char] ++ dir) ++ ["/"%char] ++ d = "/"%char :: (q ++ d)) as -> by (unfold q; cbn; by rewrite <- !(assoc_L (++))).
  assert (dir ++ ["/"%char] ++ d = q ++ d) as -> by (unfold q; by rewrite <- (assoc_L (++))).
  rewrite !but_last_snoc.
  assert (length ((q ++ stem) ++ ["*"%char]) = S (length q + length stem)) as Hlen by (rewrite !length_app; cbn; lia).
  destruct ((q ++ stem) ++ ["*"%char]) as [|x y] eqn:E; [by destruct q, stem|]. rewrite Hlen.
  unfold substr. cbn [drop Nat.sub]. rewrite drop_0, Nat.sub_0_r, take_app_add, drop_app_add.
  assert (text_eqb (q ++ take (length stem) d) (q ++ stem) = starts_with stem d) as ->.
  { apply eq_true_iff_eq. rewrite text_eqb_eq, starts_with_prefix. split.
    - intros Heq%(inj (app q)). exists (drop (length stem) d). by rewrite <- Heq at 1; rewrite take_drop.
    - intros [k ->]. by rewrite take_app_length. }
  destruct (starts_with stem d) eqn:Est; [|done]. apply starts_with_prefix in Est as [k ->].
  by rewrite drop_app_length, <- (assoc_L (++)).
Qed.

(** The devices that an argument stands for; [None]: no such directory. *)
Definition devices_meant (read_directory : text -> option (list text)) (a : DeviceArg) : option (list (text * text)) :=
  match a with
  | Plain name path _ => Some [(name, path)]
  | Pattern base dir stem _ =>
      option_map (fun entries => map (fun d => (base ++ drop (length stem) d, dir ++ str "/" ++ d)) (List.filter (starts_with stem) entries))
        (read_directory (str "/" ++ dir))
  end.

Section Create.
Context {S : Type}.
Context (read_directory : text -> option (list text)).
Context (attach : text -> text -> Z -> M S unit).

Lemma for_each_filter {A B} (f : A -> option B) (g : B -> M S unit) l : forall s,
  for_each (fun x => match f x with Some y => g y | None => mret tt end) l s = for_each g (omap f l) s.
Proof.
  induction l as [|x l IH]; intros s; cbn; [done|]. destruct (f x) as [y|]; cbn [for_each].
  - unfold mbind, M_bind. destruct (g y s) as [[u|e|why] s']; [apply IH|done|done].
  - apply IH.
Qed.

Lemma handle_meant a s : arg_ok a ->
  handle_wildcards_and_attach_device read_directory attach (arg_name a) (arg_path a) (interval_of a) s =
  match devices_meant read_directory a with
  | Some l => for_each (fun '(name, path) => attach name path (interval_of a)) l s
  | None => (Throw directory_error, s)
  end.
Proof.
  intros (Hn & Hp & Hi & Ha). unfold handle_wildcards_and_attach_device.
  destruct a as [name path i|base dir stem i]; cbn [arg_name arg_path devices_meant interval_of arg_interval] in *.
  - destruct Ha as [_ ->]. cbn. unfold mbind, M_bind. by destruct (attach name path _ s) as [[[]|e|why] s'].
  - assert (ends_with "*" (base ++ str "*") = true) as -> by (unfold ends_with; change (str "*") with ["*"%char]; by rewrite last_snoc).
    assert (ends_with "*" (dir ++ str "/" ++ stem ++ str "*") = true) as ->.
    { unfold ends_with. rewrite !(assoc_L (++)). change (str "*") with ["*"%char]. by rewrite last_snoc. }
    rewrite andb_false_r. mrun. unfold directory_of at 1. rewrite last_slash, take_app_length by done.
    destruct (read_directory _) as [entries|]; cbn [option_map]; [|done].
    etrans; [apply (for_each_filter (matching_device (base ++ str "*") (dir ++ str "/" ++ stem ++ str "*"))
      (fun '(name, path) => attach name path (match i with Some ds => decimal ds | None => 1%Z end)))|].
    assert (omap (matching_device (base ++ str "*") (dir ++ str "/" ++ stem ++ str "*")) entries =
      map (fun d => (base ++ drop (length stem) d, dir ++ str "/" ++ d)) (List.filter (starts_with stem) entries)) as ->; [|done].
    clear s. induction entries as [|d entries IH]; [done|]. cbn [omap list_omap List.filter].
    rewrite matching_device_spec by done. destruct (starts_with stem d); cbn [map]; by rewrite IH.
Qed.

Definition attach_meant (a : DeviceArg) : M S unit :=
  match devices_meant read_directory a with
  | Some l => for_each (fun '(name, path) => attach name path (interval_of a)) l
  | None => throw directory_error
  end.

Lemma attach_argument_meant a s : arg_ok a -> attach_argument read_directory attach (print a) s = attach_meant a s.
Proof.
  intros Ha. unfold attach_argument. rewrite parse_print by done. unfold attach_meant.
  etrans; [apply (handle_meant a s Ha)|].
  by destruct (devices_meant read_directory a).
Qed.

(** C19: the arguments of the daemon's plugin name the devices that are attached.  For
    any list of arguments of the documented form, with or without a polling
    interval, create_services makes the SAFTd and then attaches, in order and with
    the interval (1 ms if there is none), the device that is named, or, for a
    pattern, every entry of the directory that begins as the pattern does, under the
    name that ends as the entry does; a directory that cannot be read is an error. *)
Theorem arguments_attached (start : M S unit) (args : list DeviceArg) s : Forall arg_ok args ->
  create_services read_directory attach false start (map print args) s =
  (start;; for_each attach_meant args) s.
Proof.
  intros Hargs. unfold create_services. mrun. destruct (start s) as [[[]|e|why] s1]; try done. revert s1.
  induction Hargs as [|a args Ha _ IH]; intros s1; [done|]. cbn [map for_each]. unfold mbind, M_bind.
  rewrite attach_argument_meant by done. destruct (attach_meant a s1) as [[[]|e|why] s2]; [apply IH|done|done].
Qed.
End Create.

Module AttachDemo.
Definition attach (name path : text) (n : Z) : M (list (text * text * Z)) unit := modify (fun l => l ++ [(name, path, n)]).
Definition directory (path : text) : option (list text) :=
  if text_eqb path (str "/dev") then Some [str "."; str "ttyUSB0"; str "null"; str "ttyUSB1"] else None.
Definition args : list DeviceArg :=
  [Plain (str "tr0") (str "dev/wbm0") None; Pattern (str "usb") (str "dev") (str "ttyUSB") (Some (str "20"))].

Example printed : map print args = [str "tr0:dev/wbm0"; str "usb*:dev/ttyUSB*:20"].
Proof. reflexivity. Qed.

Lemma arguments_attached_witness :
  (create_services directory attach false (mret tt) (map print args) []).2 =
  [(str "tr0", str "dev/wbm0", 1%Z); (str "usb0", str "dev/ttyUSB0", 20%Z); (str "usb1", str "dev/ttyUSB1", 20%Z)].
Proof.
  rewrite (arguments_attached directory attach (mret tt) args []); [vm_compute; reflexivity|].
  repeat constructor; vm_compute; congruence.
Defined.

(** What follows the number of the interval is not looked at. *)
Example interval_suffix : parse_argument (str "tr0:dev/wbm0:10x") = Ret (str "tr0", str "dev/wbm0", 10%Z).
Proof. reflexivity. Qed.
End AttachDemo.
