(* ===== verification/Generator.v ===== *)
(** * The code generator: saftbus-gen.cpp of [src/saftbus-gen/], from headers to classes

    It reads C++ headers line by line, finds the functions and signals that are
    marked for export, and writes for each class a proxy and a service.  This file
    holds the pieces of the reading, [GeneratorParser] the loop over the lines, and
    [GeneratorOutput] the writing. *)
From S2P Require Import Prelude StdMap Texts.
From stdpp Require Import pretty.
From Stdlib Require Import Strings.Ascii.

(** ** Positions as the code has them: [size_t], with [npos] behind all of them *)
Definition npos : Z := 2 ^ 64 - 1.
Definition pos_of (o : option nat) : Z := match o with Some i => Z.of_nat i | None => npos end.
Definition substr64 (pos n : Z) (l : text) : outcome text :=
  if (Z.of_nat (length l) <? pos)%Z then Throw OtherException
  else Ret (take (Z.to_nat (Z.min n (Z.of_nat (length l)))) (drop (Z.to_nat pos) l)).

Definition quote : ascii := "034".
Definition tab : ascii := "009".

(** [strip]: a line of white space is searched for its last character beyond its
    beginning. *)
Definition strip (line : text) : outcome text :=
  match line with
  | [] => Ret []
  | _ =>
      match find_last (fun c => negb (is_space c)) line with
      | None => Crash "strip: line[stop]"
      | Some stop =>
          let start := default 0 (find_first (fun c => negb (is_space c)) line) in
          Ret (substr start (stop - start + 1) line)
      end
  end.

(** ** Comments *)
Inductive ExportTag := NO_EXPORT | SIGNAL_EXPORT | FUNCTION_EXPORT | INCLUDE_EXPORT.
Definition tag_eqb (a b : ExportTag) : bool :=
  match a, b with
  | NO_EXPORT, NO_EXPORT | SIGNAL_EXPORT, SIGNAL_EXPORT | FUNCTION_EXPORT, FUNCTION_EXPORT | INCLUDE_EXPORT, INCLUDE_EXPORT => true
  | _, _ => false
  end.

(** The global buffers of comments. *)
Record Comments := mkComments { last_comments : list text; comment_buffer : list text; safe_buffer : bool }.
Definition Comments0 : Comments := mkComments [] [] true.

(** The position of the second slash of a line comment. *)
Fixpoint find_line_comment (i : nat) (previous_ch : ascii) (in_string : bool) (l : text) : option nat :=
  match l with
  | [] => None
  | c :: l' =>
      let in_string := if char_eqb c quote then negb in_string else in_string in
      if char_eqb c "/" && char_eqb previous_ch "/" && negb in_string then Some i
      else find_line_comment (S i) c in_string l'
  end.

Definition saftbus_export_tag : text := str " @saftbus-export".
Definition saftbus_signal_tag : text := str " @saftbus-signal".
Definition saftbus_include_tag : text := str " @saftbus-include".

(** The comments that were seen become those of the next declaration. *)
Fixpoint line_comments (l : list text) : outcome (list text) :=
  match l with
  | [] => Ret []
  | line :: l' =>
      comment ← strip line;
      rest ← line_comments l';
      mret (if starts_with (str "//") comment then line :: rest else rest)
  end.

(** The tag, the line without the comment, and the buffers.  A comment without a tag
    leaves the first character of the line only. *)
Definition remove_line_comments (line : text) (cs : Comments) : outcome (ExportTag * text * Comments) :=
  match find_line_comment 0 " " false line with
  | Some i =>
      let cs := mkComments (last_comments cs) (comment_buffer cs ++ [line]) true in
      let comment := drop (i + 1) line in
      let code := take (i - 1) line in
      Ret (if starts_with saftbus_export_tag comment then (FUNCTION_EXPORT, code, cs)
           else if starts_with saftbus_signal_tag comment then (SIGNAL_EXPORT, code, cs)
           else if starts_with saftbus_include_tag comment then (INCLUDE_EXPORT, code, cs)
           else (NO_EXPORT, take 1 line, cs))
  | None =>
      if safe_buffer cs then
        last ← line_comments (comment_buffer cs);
        mret (NO_EXPORT, line, mkComments last [] false)
      else mret (NO_EXPORT, line, mkComments (last_comments cs) [] false)
  end.

(** The result is built from its end: [result] is reversed. *)
Fixpoint block_comments (l : text) (block_comment in_string : bool) (previous_ch : ascii) (result : text) : outcome (text * bool) :=
  match l with
  | [] => Ret (reverse result, block_comment)
  | c :: l' =>
      let in_string := if char_eqb c quote then negb in_string else in_string in
      if block_comment then
        block_comments l' (negb (char_eqb c "/" && char_eqb previous_ch "*" && negb in_string)) in_string c result
      else if char_eqb c "*" && char_eqb previous_ch "/" && negb in_string then
        match result with
        | [] => Crash "result.size() > 0"
        | _ :: result' => block_comments l' true in_string c result'
        end
      else block_comments l' false in_string c (c :: result)
  end.
Definition remove_block_comments (line : text) (block_comment : bool) : outcome (text * bool) :=
  block_comments line block_comment false " " [].

(** ** Scopes *)
Fixpoint join (sep : text) (ls : list text) : text :=
  match ls with [] => [] | [l] => l | l :: ls' => l ++ sep ++ join sep ls' end.
Definition build_namespace (names : list text) : text := join (str "::") (List.filter (fun n => negb (length n =? 0)) names).

(** Where [manage_scopes] is: the position, the open scopes, the name for the next
    one, and the buffers. *)
Record Scopes := mkScopes { scope : list text; latest_name : text; sc_comments : Comments }.

Definition quoted (l : text) : text := quote :: l ++ [quote].
Definition missing_space (name : text) : exn :=
  RuntimeError (to_string (str "please insert whitespace before " ++ quoted (str "{") ++ str " in " ++ quoted name)).

(** A keyword at position [i]; reading a character beyond the end of the line has
    no meaning (its end reads as 0). *)
Definition scope_keyword (keyword anonymous : text) (line : text) (i : nat) (latest : text) : outcome (nat * text) :=
  if (length line <? i) then Crash "line[i]"
  else if starts_with keyword (drop i line) then
    let name := match read_word (drop (i + length keyword) line) with Some (w, _) => w | None => anonymous end in
    if has_char "{" name then Throw (missing_space name)
    else Ret (i + length keyword + length name,
              if negb (has_char ";" line) && negb (has_text (str "friend") line) then name else latest)
  else Ret (i, latest).

Definition scope_char (line : text) (i : nat) (s : Scopes) : outcome (nat * Scopes) :=
  let c := default zero (line !! i) in
  let s := if char_eqb c "{" then mkScopes (scope s ++ [latest_name s]) [] (sc_comments s) else s in
  s ← (if char_eqb c "}" then
         match last (scope s) with
         | None => Crash "scope.size() > 0"
         | Some _ => Ret (mkScopes (take (length (scope s) - 1) (scope s)) (latest_name s)
                            (mkComments [] [] (safe_buffer (sc_comments s))))
         end
       else Ret s);
  '(i, latest) ← scope_keyword (str "namespace") (str "anonymous_namespace") line i (latest_name s);
  '(i, latest) ← scope_keyword (str "class") (str "anonymous_class") line i latest;
  '(i, latest) ← scope_keyword (str "struct") (str "anonymous_struct") line i latest;
  mret (i + 1, mkScopes (scope s) latest (sc_comments s)).

(** A round per character is enough. *)
Fixpoint scope_chars (fuel : nat) (line : text) (i : nat) (s : Scopes) : outcome Scopes :=
  match fuel with
  | O => Ret s
  | S fuel' =>
      if i <? length line then '(i, s) ← scope_char line i s; scope_chars fuel' line i s
      else Ret s
  end.
Definition manage_scopes (line : text) (s : Scopes) : outcome Scopes := scope_chars (length line) line 0 s.

(** ** Arguments *)
Record FunctionArgument := mkArgument { fa_type : text; fa_name : text; fa_init : text; is_output : bool }.

(** [find_last_of(" &") + 1] *)
Definition after_last (l : text) : nat := match find_last_of (str " &") l with Some i => i + 1 | None => 0 end.

Definition FunctionArgument_new (argument_string : text) : outcome FunctionArgument :=
  '(init, type_and_name) ←
    (match find_char "=" argument_string with
     | Some equals_pos =>
         init ← strip (drop (equals_pos + 1) argument_string);
         type_and_name ← strip (take equals_pos argument_string);
         mret (init, type_and_name)
     | None => type_and_name ← strip argument_string; mret ([], type_and_name)
     end);
  let name_start := after_last type_and_name in
  type ← strip (take name_start type_and_name);
  name ← strip (drop name_start type_and_name);
  mret (mkArgument type name init (has_char "&" type && negb (has_text (str "const") type))).

Definition definition (a : FunctionArgument) : text := fa_type a ++ str " " ++ fa_name a.
Definition declaration (a : FunctionArgument) : text :=
  if 0 <? length (fa_init a) then definition a ++ str " = " ++ fa_init a else definition a.

(** The pieces between the commas that are in no brackets. *)
Fixpoint split_commas (l buffer : text) (angle paren : Z) : list text :=
  match l with
  | [] => match buffer with [] => [] | _ => [reverse buffer] end
  | c :: l' =>
      let angle := if char_eqb c "<" then (angle + 1)%Z else if char_eqb c ">" then (angle - 1)%Z else angle in
      let paren := if char_eqb c "(" then (paren + 1)%Z else if char_eqb c ")" then (paren - 1)%Z else paren in
      if char_eqb c "," && (angle =? 0)%Z && (paren =? 0)%Z then reverse buffer :: split_commas l' [] angle paren
      else split_commas l' (c :: buffer) angle paren
  end.

Fixpoint make_arguments (pieces : list text) : outcome (list FunctionArgument) :=
  match pieces with
  | [] => Ret []
  | p :: pieces' =>
      p ← strip p; a ← FunctionArgument_new p; rest ← make_arguments pieces'; mret (a :: rest)
  end.
Definition split_arguments (argument_list : text) : outcome (list FunctionArgument) :=
  make_arguments (split_commas argument_list [] 0 0).

Definition show (n : nat) : text := str (pretty (N.of_nat n)).

(** Arguments of a template have no names: they are numbered.  (The last one is
    stripped once more, which changes nothing.) *)
Fixpoint make_template_arguments (counter : nat) (pieces : list text) : outcome (list FunctionArgument) :=
  match pieces with
  | [] => Ret []
  | p :: pieces' =>
      p ← strip p;
      a ← FunctionArgument_new (p ++ str " arg_" ++ show counter);
      rest ← make_template_arguments (S counter) pieces';
      mret (a :: rest)
  end.
Definition split_template_arguments (template_argument_list : text) : outcome (list FunctionArgument) :=
  make_template_arguments 0 (split_commas template_argument_list [] 0 0).

(** ** Signatures *)
Record FunctionSignature := mkFunction {
  fs_scope : text; fs_name : text; is_virtual : bool; return_type : text; fs_arguments : list FunctionArgument; fs_comments : list text
}.

(** The outermost parentheses: the last ones that are opened and closed at level 0
    and 1. *)
Fixpoint scan_parentheses (l : text) (pos : nat) (level : Z) (open close : nat) : nat * nat :=
  match l with
  | [] => (open, close)
  | c :: l' =>
      let '(level, open) :=
        if char_eqb c "(" then ((level + 1)%Z, if (level =? 0)%Z then pos else open) else (level, open) in
      let '(level, close) :=
        if char_eqb c ")" then ((level - 1)%Z, if (level =? 1)%Z then pos else close) else (level, close) in
      scan_parentheses l' (S pos) level open close
  end.

Definition FunctionSignature_new (s line : text) (comment : list text) : outcome FunctionSignature :=
  let '(open, close) := scan_parentheses line 0 0 0 0 in
  if open =? close then Crash "paranthesis_open != paranthesis_close"
  else
    list ← substr64 (Z.of_nat open + 1) (u64 (Z.of_nat close - Z.of_nat open - 1)) line;
    argument_list ← split_arguments list;
    let name_start := after_last (take open line) in
    name ← strip (substr name_start (open - name_start) line);
    type ← strip (take name_start line);
    if has_text (str "virtual") type then
      type ← strip (drop 7 type); mret (mkFunction s name true type argument_list comment)
    else mret (mkFunction s name false type argument_list comment).

Record SignalSignature := mkSignal {
  ss_scope : text; ss_name : text; ss_arguments : list FunctionArgument; ss_comments : list text; sigc_signal : bool
}.

Definition is_sigc (line : text) : bool := starts_with (str "signal<") line || starts_with (str "sigc::signal<") line.

(** [substr(from + 1, to - from - 1)] *)
Definition between (from to : Z) (line : text) : outcome text := substr64 (u64 (from + 1)) (u64 (to - from - 1)) line.

Definition SignalSignature_new (s line : text) (comment : list text) : outcome SignalSignature :=
  stripped ← strip line;
  let template_close := pos_of (find_last_of (str ">") line) in
  let semicolon := pos_of (find_char ";" line) in
  if is_sigc stripped then
    list ← between (pos_of (find_char "<" line)) template_close line;
    return_value_and_arguments ← split_template_arguments list;
    name ← between template_close semicolon line;
    name ← strip name;
    mret (mkSignal s name (drop 1 return_value_and_arguments) comment true)
  else
    list ← between (pos_of (find_char "(" line)) (pos_of (find_last_of (str ")") line)) line;
    argument_list ← split_arguments list;
    name ← between template_close semicolon line;
    name ← strip name;
    mret (mkSignal s name argument_list comment false).

(** ** Classes *)

(** Pointers to other definitions are their places in the vector. *)
Record ClassDefinition := mkClass {
  cd_scope : text; cd_name : text; default_object_path : text; bases : list text;
  direct_bases : list nat; all_bases : list nat;
  exportedfunctions : list FunctionSignature; exportedsignals : list SignalSignature;
  cd_comments : list text; includes : list text
}.

Fixpoint split_bases_loop (l buffer : text) (result : list text) : outcome (list text) :=
  match l with
  | [] => Ret result
  | c :: l' =>
      if char_eqb c "," || char_eqb c "{" || char_eqb c " " then
        base ← strip (reverse buffer);
        let result := if text_eqb base (str "public") || text_eqb base [] then result else result ++ [base] in
        if char_eqb c "{" then mret result else split_bases_loop l' [] result
      else split_bases_loop l' (c :: buffer) result
  end.
Definition split_bases (argument_list : text) : outcome (list text) := split_bases_loop argument_list [] [].

(** The order of [std::string]: by bytes. *)
Fixpoint text_le (l k : text) : bool :=
  match l, k with
  | [], _ => true
  | _ :: _, [] => false
  | c :: l', d :: k' => (nat_of_ascii c <? nat_of_ascii d) || (nat_of_ascii c =? nat_of_ascii d) && text_le l' k'
  end.
#[local] Instance text_le_decision l k : Decision (text_le l k = true).
Proof. apply _. Defined.

Definition ClassDefinition_new (scope_ line : text) (comment includes_ : list text) : outcome ClassDefinition :=
  let new name bases := mkClass scope_ name [] bases [] [] [] [] comment includes_ in
  match find_char ":" line with
  | None =>
      match read_word line with
      | None => Crash "name.size() > 0"
      | Some (name, _) => Ret (new (if default zero (last name) =? "{" then take (length name - 1) name else name)%char [])
      end
  | Some colon_pos =>
      let name := match read_word (take colon_pos line) with Some (w, _) => w | None => [] end in
      bases ← split_bases (drop (colon_pos + 1) line);
      mret (new name (merge_sort (fun l k => text_le l k = true) bases))
  end.
