(* ===== verification/GeneratorParser.v ===== *)
(** * The code generator: [cpp_parser] of saftbus-gen.cpp, and the classes it finds *)
From S2P Require Import Prelude StdMap Texts Generator.
From Stdlib Require Import Strings.Ascii.

(** ** Base classes *)
Section Bases.
Variable classes : list ClassDefinition.

(** The first class of that name. *)
Fixpoint lookup_class (base : text) (l : list ClassDefinition) : option nat :=
  match l with
  | [] => None
  | c :: l' => if text_eqb (cd_name c) base then Some 0 else S <$> lookup_class base l'
  end.
Definition base_class (base : text) : option nat := lookup_class base classes.

(** A base class that is its own base has no end of recursion; otherwise the number
    of classes is enough. *)
Fixpoint has_exports (fuel : nat) (k : nat) : outcome bool :=
  match fuel, classes !! k with
  | O, _ => Crash "has_exports: recursion"
  | _, None => Crash "has_exports: class"
  | S fuel', Some c =>
      result ← (fix or (bs : list nat) : outcome bool :=
        match bs with
        | [] => Ret false
        | b :: bs' => e ← has_exports fuel' b; rest ← or bs'; mret (e || rest)
        end) (all_bases c);
      mret (result || ((0 <? length (exportedfunctions c)) || (0 <? length (exportedsignals c))))
  end.

(** [exported] is [has_exports], for the classes as they are. *)
Fixpoint filter_exports (exported : nat -> outcome bool) (ks : list nat) : outcome (list nat) :=
  match ks with
  | [] => Ret []
  | k :: ks' => e ← exported k; rest ← filter_exports exported ks'; mret (if e : bool then k :: rest else rest)
  end.

Fixpoint generate_all_bases (fuel : nat) (names : list text) : outcome (list nat) :=
  match fuel with
  | O => Crash "generate_all_bases: recursion"
  | S fuel' =>
      (fix loop (bs : list text) : outcome (list nat) :=
        match bs with
        | [] => Ret []
        | base :: bs' =>
            match base_class base with
            | None => loop bs'
            | Some k =>
                bbases ← generate_all_bases fuel' (from_option bases [] (classes !! k));
                exported ← filter_exports (has_exports (S (length classes))) bbases;
                rest ← loop bs';
                mret (k :: exported ++ rest)
            end
        end) names
  end.

Definition generate_direct_bases (names : list text) : list nat := omap base_class names.
End Bases.

Definition set_bases (all direct : list nat) (c : ClassDefinition) : ClassDefinition :=
  mkClass (cd_scope c) (cd_name c) (default_object_path c) (bases c) direct all
    (exportedfunctions c) (exportedsignals c) (cd_comments c) (includes c).

(** Class [k] gets its bases; those before it have theirs. *)
Definition finalize (classes : list ClassDefinition) (k : nat) : outcome (list ClassDefinition) :=
  match classes !! k with
  | None => Crash "finalize: class"
  | Some c =>
      all ← generate_all_bases classes (S (length classes)) (bases c);
      mret (<[k := set_bases all (generate_direct_bases classes (bases c)) c]> classes)
  end.

Fixpoint finalize_from (n k : nat) (classes : list ClassDefinition) : outcome (list ClassDefinition) :=
  match n with
  | O => Ret classes
  | S n' => classes ← finalize classes k; finalize_from n' (S k) classes
  end.
Definition finalize_all (classes : list ClassDefinition) : outcome (list ClassDefinition) :=
  finalize_from (length classes) 0 classes.

(** ** What the parser keeps *)

(** Over all files: the buffers of comments, and the arguments [defines] and
    [classes], which are references. *)
Record Shared := mkShared { s_comments : Comments; defines : list (text * text); classes : list ClassDefinition }.
Definition Shared0 : Shared := mkShared Comments0 [] [].
Definition with_comments (cs : Comments) (s : Shared) : Shared := mkShared cs (defines s) (classes s).
Definition add_class (c : ClassDefinition) (s : Shared) : Shared := mkShared (s_comments s) (defines s) (classes s ++ [c]).
Definition is_defined (name : text) (s : Shared) : bool := existsb (fun d => text_eqb (fst d) name) (defines s).

(** Per file. *)
Record Parser := mkParser {
  block_comment : bool;
  p_scope : list text; latest_scope_name : text;
  include_exports : list text; include_export : bool;
  signature : text; tag_in_previous_line : ExportTag;
  class_definition : text; in_class_definition : bool
}.
Definition Parser0 : Parser := mkParser false [] [] [] false [] NO_EXPORT [] false.

Definition set_scopes (block : bool) (s : Scopes) (p : Parser) : Parser :=
  mkParser block (scope s) (latest_name s) (include_exports p) (include_export p) (signature p)
    (tag_in_previous_line p) (class_definition p) (in_class_definition p).
Definition set_signature (sig : text) (tag : ExportTag) (p : Parser) : Parser :=
  mkParser (block_comment p) (p_scope p) (latest_scope_name p) (include_exports p) (include_export p) sig
    tag (class_definition p) (in_class_definition p).
Definition set_include (export : bool) (exports : list text) (p : Parser) : Parser :=
  mkParser (block_comment p) (p_scope p) (latest_scope_name p) exports export (signature p)
    (tag_in_previous_line p) (class_definition p) (in_class_definition p).
Definition set_class (def : text) (within : bool) (p : Parser) : Parser :=
  mkParser (block_comment p) (p_scope p) (latest_scope_name p) (include_exports p) (include_export p) (signature p)
    (tag_in_previous_line p) def within.

(** [classes.back()], if there is one, is changed. *)
Definition on_back (f : ClassDefinition -> outcome ClassDefinition) (s : Shared) : outcome Shared :=
  match last (classes s) with
  | None => Ret s
  | Some c =>
      c ← f c;
      mret (mkShared (s_comments s) (defines s) (<[length (classes s) - 1 := c]> (classes s)))
  end.
Definition set_path (path : text) (c : ClassDefinition) : ClassDefinition :=
  mkClass (cd_scope c) (cd_name c) path (bases c) (direct_bases c) (all_bases c)
    (exportedfunctions c) (exportedsignals c) (cd_comments c) (includes c).
Definition add_function (f : FunctionSignature) (c : ClassDefinition) : ClassDefinition :=
  mkClass (cd_scope c) (cd_name c) (default_object_path c) (bases c) (direct_bases c) (all_bases c)
    (exportedfunctions c ++ [f]) (exportedsignals c) (cd_comments c) (includes c).
Definition add_signal (g : SignalSignature) (c : ClassDefinition) : ClassDefinition :=
  mkClass (cd_scope c) (cd_name c) (default_object_path c) (bases c) (direct_bases c) (all_bases c)
    (exportedfunctions c) (exportedsignals c ++ [g]) (cd_comments c) (includes c).

Definition parse_error (source_name : text) (line_no : nat) (what : text) : exn :=
  RuntimeError (to_string (str "parsing error in " ++ source_name ++ str ":" ++ show line_no ++ str ": " ++ what)).

(** ** A line *)
Section Line.
Variable source_name : text.

Definition default_object_path_tag : text := str "// @saftbus-default-object-path ".
Definition look_for_path (line : text) (p : Parser) (s : Shared) : outcome Shared :=
  on_back (fun c =>
    if text_eqb (cd_scope c) (build_namespace (p_scope p)) then
      match find_text default_object_path_tag line with
      | Some pos => path ← strip (drop (pos + length default_object_path_tag) line); mret (set_path path c)
      | None => Ret c
      end
    else Ret c) s.

(** Comments are removed and scopes followed; the tag and the line. *)
Definition clean_line (line_no : nat) (line : text) (p : Parser) (s : Shared) : outcome (ExportTag * text * Parser * Shared) :=
  '(tag, line, cs) ← remove_line_comments line (s_comments s);
  '(line, block) ← remove_block_comments line (block_comment p);
  match manage_scopes line (mkScopes (p_scope p) (latest_scope_name p) cs) with
  | Ret sc => Ret (tag, line, set_scopes block sc p, with_comments (sc_comments sc) s)
  | Throw (RuntimeError what) => Throw (parse_error source_name line_no (str what))
  | Throw e => Throw e
  | Crash w => Crash w
  end.

(** [@saftbus-export] finds out what it marks. *)
Definition detect_export (line : text) (tag : ExportTag) : outcome ExportTag :=
  if tag_eqb tag FUNCTION_EXPORT then
    stripped ← strip line;
    mret (if starts_with (str "function<") stripped || starts_with (str "std::function<") stripped || is_sigc stripped
          then SIGNAL_EXPORT
          else if starts_with (str "#include") stripped then INCLUDE_EXPORT else FUNCTION_EXPORT)
  else Ret tag.

(** [None]: the signature goes on in the next line ([continue]). *)
Definition extract_signature (line : text) (p : Parser) (s : Shared) : outcome (Parser * option Shared) :=
  tag ← detect_export line (tag_in_previous_line p);
  let sig := signature p ++ line in
  match tag with
  | SIGNAL_EXPORT =>
      if negb (has_char ";" line) then Ret (set_signature sig tag p, None)
      else
        s ← on_back (fun c =>
          g ← SignalSignature_new (build_namespace (p_scope p)) sig (last_comments (s_comments s)); mret (add_signal g c)) s;
        mret (set_signature [] tag p, Some s)
  | FUNCTION_EXPORT =>
      if negb (has_char ";" line) && negb (has_char "{" line) then Ret (set_signature sig tag p, None)
      else
        s ← on_back (fun c =>
          f ← FunctionSignature_new (build_namespace (p_scope p)) sig (last_comments (s_comments s)); mret (add_function f c)) s;
        mret (set_signature [] tag p, Some s)
  | _ => Ret (set_signature (signature p) tag p, Some s)
  end.

Definition new_class (def : text) (p : Parser) (s : Shared) : outcome Shared :=
  c ← ClassDefinition_new (build_namespace (p_scope p)) def (last_comments (s_comments s)) (include_exports p);
  mret (add_class c s).

(** [class] at the end of a line: [getline] fails and leaves the text of the
    previous class. *)
Definition class_line (rest : text) (p : Parser) (s : Shared) : outcome (Parser * Shared) :=
  let def := match rest with [] => class_definition p | _ => rest end in
  if has_char "{" def then s ← new_class def p s; mret (set_class def (in_class_definition p) p, s)
  else if negb (has_char ";" def) then Ret (set_class def true p, s)
  else Ret (set_class def (in_class_definition p) p, s).

Definition define_line (line_no : nat) (rest : text) (s : Shared) : outcome Shared :=
  match read_word rest with
  | None => Throw (parse_error source_name line_no (str "<name> expected after keyword " ++ quoted (str "#define")))
  | Some (define_name, rest) =>
      replacement ← strip rest;
      if is_defined define_name s then
        Throw (parse_error source_name line_no (str "#define " ++ quoted define_name ++ str " was already defined"))
      else Ret (mkShared (s_comments s) (defines s ++ [(define_name, replacement)]) (classes s))
  end.

(** Whether the lines up to [#endif] are skipped. *)
Definition ifndef_line (line_no : nat) (rest : text) (s : Shared) : outcome bool :=
  match read_word rest with
  | None => Throw (parse_error source_name line_no (str "<name> expected after keyword " ++ quoted (str "#ifndef")))
  | Some (define_name, _) => Ret (is_defined define_name s)
  end.

(** The file name of [#include]; [None] for system headers. *)
Definition include_name (line_no : nat) (rest : text) : outcome (option text) :=
  match read_char rest with
  | None => Throw (parse_error source_name line_no (str "expect " ++ quoted (str "filename") ++ str " after " ++ quoted (str "#include")))
  | Some (include_open, rest) =>
      if negb (char_eqb include_open quote) && negb (char_eqb include_open "<") then
        Throw (parse_error source_name line_no (str "filename has to be included in doulbe quotes"))
      else
        match find_char (if char_eqb include_open quote then quote else ">"%char) rest with
        | None => Throw (parse_error source_name line_no
                           (str "expecting " ++ [quote] ++ str " after #include " ++ [quote] ++ rest))
        | Some 0 => Throw (parse_error source_name line_no (str "empty include filname"))
        | Some n => Ret (if char_eqb include_open "<" then None else Some (take n rest))
        end
  end.

Variable open_file : text -> option (list text).
Variable include_paths : list text.
(** The parser, for an included file. *)
Variable parse_included : text -> Shared -> outcome Shared.

Definition relative_to_source (include_filename : text) : text :=
  match find_last_of (str "/") source_name with
  | Some last_slash_pos =>
      if starts_with (str "/") include_filename then include_filename
      else take (last_slash_pos + 1) source_name ++ include_filename
  | None => include_filename
  end.

Definition can_open (name : text) : bool := if open_file name is Some _ then true else false.

Definition include_file (line_no : nat) (name : text) (s : Shared) : outcome Shared :=
  let include_filename := relative_to_source name in
  if can_open include_filename then parse_included include_filename s
  else
    match List.find (fun path => can_open (path ++ str "/" ++ name)) include_paths with
    | Some path => parse_included (path ++ str "/" ++ name) s
    | None => Throw (parse_error source_name line_no (str "cannot open file " ++ quoted include_filename))
    end.

Definition include_line (line_no : nat) (line rest : text) (p : Parser) (s : Shared) : outcome (Parser * Shared) :=
  let p := if include_export p then set_include true (include_exports p ++ [line]) p else p in
  name ← include_name line_no rest;
  match name with
  | None => Ret (p, s)
  | Some name => s ← include_file line_no name s; mret (p, s)
  end.

(** What the first word of a line asks for; the flag is whether lines are skipped
    from here. *)
Definition keyword_line (line_no : nat) (tag : ExportTag) (line : text) (p : Parser) (s : Shared)
    : outcome (Parser * Shared * bool) :=
  match read_word line with
  | None => Ret (p, s, false)
  | Some (keyword, rest) =>
      if text_eqb keyword (str "class") then '(p, s) ← class_line rest p s; mret (p, s, false)
      else if text_eqb keyword (str "#define") then s ← define_line line_no rest s; mret (p, s, false)
      else if text_eqb keyword (str "#ifndef") then skip ← ifndef_line line_no rest s; mret (p, s, skip)
      else if text_eqb keyword (str "#endif") then Ret (p, s, false)
      else if text_eqb keyword (str "#include") then '(p, s) ← include_line line_no line rest p s; mret (p, s, false)
      else if tag_eqb tag NO_EXPORT then Ret (p, s, false)
      else Throw (parse_error source_name line_no (str "unexpected keyword " ++ quoted keyword))
  end.

Definition parse_line (line_no : nat) (line : text) (p : Parser) (s : Shared) : outcome (Parser * Shared * bool) :=
  s ← look_for_path line p s;
  '(tag, line, p, s) ← clean_line line_no line p s;
  '(p, r) ← extract_signature line p s;
  match r with
  | None => Ret (p, s, false)
  | Some s =>
      let p := set_include (tag_eqb (tag_in_previous_line p) INCLUDE_EXPORT) (include_exports p) p in
      let p := set_signature (signature p) tag p in
      if in_class_definition p then
        let def := class_definition p ++ line in
        if has_char "{" def then s ← new_class def p s; mret (set_class def false p, s, false)
        else Ret (set_class def true p, s, false)
      else keyword_line line_no tag line p s
  end.

(** The loop over the lines; [skipping] is the inner loop of [#ifndef]. *)
Fixpoint parse_lines (lines : list text) (line_no : nat) (skipping : bool) (p : Parser) (s : Shared) : outcome Shared :=
  match lines with
  | [] =>
      if skipping then Throw (parse_error source_name line_no (str "unexpected end of input"))
      else if block_comment p then
        Throw (parse_error source_name line_no (str "block comment not closed at end of input"))
      else Ret s
  | line :: lines' =>
      if skipping then
        '(_, line, cs) ← remove_line_comments line (s_comments s);
        let endif := match read_word line with Some (w, _) => text_eqb w (str "#endif") | None => false end in
        parse_lines lines' (S line_no) (negb endif) p (with_comments cs s)
      else
        '(p, s, skip) ← parse_line line_no line p s;
        parse_lines lines' (S line_no) skip p s
  end.
End Line.

(** A file that includes itself without a guard has no end of recursion; [depth] is
    the depth of the inclusions that the model follows. *)
Fixpoint cpp_parser (open_file : text -> option (list text)) (include_paths : list text)
    (depth : nat) (source_name : text) (s : Shared) : outcome Shared :=
  match depth with
  | O => Crash "cpp_parser: recursion"
  | S depth' =>
      match open_file source_name with
      | None => Throw (RuntimeError (to_string (str "cannot open file " ++ source_name)))
      | Some lines =>
          parse_lines source_name open_file include_paths (cpp_parser open_file include_paths depth')
            lines 1 false Parser0 s
      end
  end.
