(* ===== verification/GeneratorOutput.v ===== *)
(** * The code generator: proxies and services, and [main], of saftbus-gen.cpp

    A file is the list of its lines. *)
From S2P Require Import Prelude StdMap Texts Generator GeneratorParser.
From Stdlib Require Import Strings.Ascii.

(** ** Files: the directory, and which files are wanted *)
Abbreviation files := (list (text * list text)).
Fixpoint read_file (name : text) (fs : files) : option (list text) :=
  match fs with [] => None | (n, c) :: fs' => if text_eqb n name then Some c else read_file name fs' end.
Fixpoint write_file (name : text) (content : list text) (fs : files) : files :=
  match fs with
  | [] => [(name, content)]
  | (n, c) :: fs' => if text_eqb n name then (n, content) :: fs' else (n, c) :: write_file name content fs'
  end.

(** The file is written beside [dest_file] and takes its place when it is wanted
    and differs. *)
Definition move_file_if_not_identical (output_only_these_files : list text) (content : list text) (dest_file : text) (fs : files) : files :=
  if (0 <? length output_only_these_files) && negb (existsb (text_eqb dest_file) output_only_these_files) then fs
  else match read_file dest_file fs with
       | Some old => if bool_decide (old = content) then fs else write_file dest_file content fs
       | None => write_file dest_file content fs
       end.

Definition output_filename (outputdirectory name ending : text) : text :=
  (match outputdirectory with [] => [] | _ => outputdirectory ++ str "/" end) ++ name ++ ending.

Definition t (n : nat) : text := replicate n tab.

(** [class_definition.scope.substr(0, scope.size() - name.size() - 2)] in [size_t] *)
Definition namespace_of (c : ClassDefinition) : text :=
  let n := u64 (Z.of_nat (length (cd_scope c)) - Z.of_nat (length (cd_name c)) - 2) in
  take (Z.to_nat (Z.min n (Z.of_nat (length (cd_scope c))))) (cd_scope c).
Definition open_namespace (c : ClassDefinition) : list text := [str "namespace " ++ namespace_of c ++ str " {"; []].
Definition close_namespace : list text := [[]; str "}"; []].

Section Output.
Variable classes : list ClassDefinition.

Definition class_at (k : nat) : ClassDefinition := default (mkClass [] [] [] [] [] [] [] [] [] []) (classes !! k).
Definition exported (k : nat) : outcome bool := has_exports classes (S (length classes)) k.
Definition class_and_all_base_classes (c : ClassDefinition) : list ClassDefinition := c :: (class_at <$> all_bases c).

(** [definition()]s, and names, between commas *)
Definition definitions (sep : text) (l : list FunctionArgument) : text := join sep (definition <$> l).
Definition names (l : list FunctionArgument) : text := join (str ", ") (fa_name <$> l).

(** ** generate_service_header *)
Definition service_header_signal (g : SignalSignature) : list text :=
  [t 2 ++ str "void " ++ ss_name g ++ str "_dispatch_function(" ++ definitions (str ",") (ss_arguments g) ++ str ");"]
  ++ if sigc_signal g then [t 2 ++ str "sigc::connection " ++ ss_name g ++ str "_connection;"] else [].

Definition service_header (c : ClassDefinition) : list text :=
  let name := cd_name c in
  [str "#ifndef " ++ name ++ str "_SERVICE_HPP_"; str "#define " ++ name ++ str "_SERVICE_HPP_"; [];
   str "#include <saftbus/service.hpp>"; str "#include <saftbus/saftbus.hpp>"; [];
   str "#include <functional>"; []]
  ++ open_namespace c ++
  [t 1 ++ str "class " ++ name ++ str ";";
   t 1 ++ str "class " ++ name ++ str "_Service : public saftbus::Service {";
   t 1 ++ str "public:";
   t 2 ++ name ++ str "* d;";
   t 2 ++ str "static std::vector<std::string> gen_interface_names();";
   t 2 ++ str "typedef " ++ name ++ str " DriverType;";
   t 2 ++ name ++ str "_Service(" ++ name ++
     str "* instance, std::function<void()> destruction_callback = std::function<void()>(), bool destoy_if_owner_quits = true );";
   t 2 ++ name ++ str "_Service();";
   t 2 ++ str "~" ++ name ++ str "_Service();";
   t 2 ++ str "void call(unsigned interface_no, unsigned function_no, int client_fd, saftbus::Deserializer &received, saftbus::Serializer &send);";
   []]
  ++ (b ← class_and_all_base_classes c; g ← exportedsignals b; service_header_signal g)
  ++ [t 1 ++ str "};"] ++ close_namespace ++ [str "#endif"].

(** ** generate_service_implementation *)
Definition push_name (name : text) : text := t 2 ++ str "result.push_back(" ++ quoted name ++ str ");".
Definition interface_names (own : text) (bs : list text) : list text :=
  [t 2 ++ str "std::vector<std::string> result; "; push_name own]
  ++ (push_name <$> bs)
  ++ [t 2 ++ str "return result;"; t 1 ++ str "}"].

Definition connect_signal (name : text) (g : SignalSignature) : text :=
  if sigc_signal g then
    t 2 ++ ss_name g ++ str "_connection = d->" ++ ss_name g ++ str ".connect(sigc::mem_fun(this, &" ++ name
      ++ str "_Service::" ++ ss_name g ++ str "_dispatch_function));"
  else
    t 2 ++ str "d->" ++ ss_name g ++ str " = std::bind(&" ++ name ++ str "_Service::" ++ ss_name g ++ str "_dispatch_function, this"
      ++ concat ((fun i => str ", std::placeholders::_" ++ show (i + 1)) <$> seq 0 (length (ss_arguments g))) ++ str ");".

Definition disconnect_signal (g : SignalSignature) : list text :=
  if sigc_signal g then [t 2 ++ ss_name g ++ str "_connection.disconnect();"] else [].

(** The type of a variable: without reference and without [const]. *)
Definition plain_type (type : text) : outcome text :=
  let type := match find_char "&" type with Some i => take i type | None => type end in
  match find_text (str "const") type with
  | Some i => if length type <? i + 6 then Throw OtherException else Ret (drop (i + 6) type)
  | None => Ret type
  end.

Fixpoint declare_arguments (l : list FunctionArgument) : outcome (list text) :=
  match l with
  | [] => Ret []
  | a :: l' =>
      type ← plain_type (fa_type a); rest ← declare_arguments l';
      mret ((t 5 ++ type ++ str " " ++ fa_name a ++ str ";") :: rest)
  end.

Definition inputs (f : FunctionSignature) : list text := fa_name <$> List.filter (fun a => negb (is_output a)) (fs_arguments f).
Definition outputs (f : FunctionSignature) : list text := fa_name <$> List.filter is_output (fs_arguments f).
Definition is_void (f : FunctionSignature) : bool := text_eqb (return_type f) (str "void").

Definition received_get (name : text) : text := t 5 ++ str "received.get(" ++ name ++ str ");".
Definition send_put (name : text) : text := t 5 ++ str "send.put(" ++ name ++ str ");".

Definition service_function (class_name : text) (function_no : nat) (f : FunctionSignature) : outcome (list text) :=
  declarations ← declare_arguments (fs_arguments f);
  let function_name := if is_virtual f then fs_name f else class_name ++ str "::" ++ fs_name f in
  mret (
    [t 4 ++ str "case " ++ show function_no ++ str ": { // " ++ class_name ++ str "::" ++ fs_name f]
    ++ declarations
    ++ (received_get <$> inputs f)
    ++ [t 5 ++ (if is_void f then [] else return_type f ++ str " function_call_result = ")
        ++ str "d->" ++ function_name ++ str "(" ++ names (fs_arguments f) ++ str ");"]
    ++ [send_put (str "saftbus::FunctionResult::RETURN")]
    ++ (send_put <$> outputs f)
    ++ (if is_void f then [] else [send_put (str "function_call_result")])
    ++ [t 4 ++ str "} return;"]).

Fixpoint service_functions (class_name : text) (function_no : nat) (fs : list FunctionSignature) : outcome (list text) :=
  match fs with
  | [] => Ret []
  | f :: fs' =>
      block ← service_function class_name function_no f;
      rest ← service_functions class_name (S function_no) fs';
      mret (block ++ rest)
  end.

Fixpoint service_interfaces (interface_no : nat) (cs : list ClassDefinition) : outcome (list text) :=
  match cs with
  | [] => Ret []
  | c :: cs' =>
      functions ← service_functions (cd_name c) 0 (exportedfunctions c);
      rest ← service_interfaces (S interface_no) cs';
      mret ([t 3 ++ str "case " ++ show interface_no ++ str ": // " ++ cd_name c; t 3 ++ str "switch(function_no) {"]
            ++ functions ++ [t 3 ++ str "};"] ++ rest)
  end.

Definition serialized_put (name : text) : text := t 2 ++ str "serialized_signal.put(" ++ name ++ str ");".
Definition dispatch_function (name : text) (interface_no signal_no : nat) (g : SignalSignature) : list text :=
  [t 1 ++ str "void " ++ name ++ str "_Service::" ++ ss_name g ++ str "_dispatch_function("
     ++ definitions (str ", ") (ss_arguments g) ++ str ") {";
   t 2 ++ str "saftbus::Serializer serialized_signal;";
   serialized_put (str "get_object_id()");
   serialized_put (show interface_no);
   serialized_put (show signal_no)]
  ++ (serialized_put <$> (fa_name <$> ss_arguments g))
  ++ [t 2 ++ str "emit(serialized_signal);"; t 1 ++ str "}"].
Definition dispatch_functions (name : text) (interface_no : nat) (c : ClassDefinition) : list text :=
  concat (imap (fun signal_no => dispatch_function name interface_no signal_no) (exportedsignals c)).

Definition service_catch : list text :=
  [t 2 ++ str "} catch (std::runtime_error &e) {";
   t 3 ++ str "send.put(saftbus::FunctionResult::EXCEPTION);";
   t 3 ++ str "std::string what(e.what());";
   t 3 ++ str "send.put(what);";
   t 2 ++ str "} catch (...) {";
   t 3 ++ str "send.put(saftbus::FunctionResult::EXCEPTION);";
   t 3 ++ str "std::string what(" ++ quoted (str "unknown exception") ++ str ");";
   t 3 ++ str "send.put(what);";
   t 2 ++ str "} "].

Definition service_constructors (c : ClassDefinition) : list text :=
  let name := cd_name c in
  let signals := b ← class_and_all_base_classes c; exportedsignals b in
  [t 1 ++ name ++ str "_Service::" ++ name ++ str "_Service(" ++ name
     ++ str "* instance, std::function<void()> destruction_callback, bool destoy_if_owner_quits) ";
   t 1 ++ str ": saftbus::Service(gen_interface_names(), destruction_callback, destoy_if_owner_quits), d(instance)";
   t 1 ++ str "{"]
  ++ (connect_signal name <$> signals)
  ++ [t 1 ++ str "}";
      t 1 ++ name ++ str "_Service::~" ++ name ++ str "_Service() ";
      t 1 ++ str "{"]
  ++ (g ← signals; disconnect_signal g)
  ++ [t 1 ++ str "}"].

Definition service_implementation (c : ClassDefinition) : outcome (list text) :=
  let name := cd_name c in
  interfaces ← service_interfaces 0 (class_and_all_base_classes c);
  mret (
    [str "#include " ++ quoted (name ++ str ".hpp"); str "#include " ++ quoted (name ++ str "_Service.hpp"); []]
    ++ open_namespace c
    ++ [t 1 ++ str "std::vector<std::string> " ++ name ++ str "_Service::gen_interface_names() {"]
    ++ interface_names name (cd_name <$> (class_at <$> all_bases c))
    ++ service_constructors c
    ++ [t 1 ++ str "void " ++ name
          ++ str "_Service::call(unsigned interface_no, unsigned function_no, int client_fd, saftbus::Deserializer &received, saftbus::Serializer &send) {";
        t 2 ++ str "try {"; t 2 ++ str "switch(interface_no) {"]
    ++ interfaces
    ++ [[]; t 2 ++ str "};"]
    ++ service_catch
    ++ [t 1 ++ str "}"; []]
    ++ concat (imap (dispatch_functions name) (class_and_all_base_classes c))
    ++ close_namespace).

(** ** generate_proxy_header *)

(** The separator depends on the index among all direct bases. *)
Fixpoint proxy_bases (i : nat) (ks : list nat) : outcome (nat * text) :=
  match ks with
  | [] => Ret (0, [])
  | k :: ks' =>
      e ← exported k;
      '(base_count, line) ← proxy_bases (S i) ks';
      mret (if e : bool then
              (S base_count, (if i =? 0 then str ":" else str ",") ++ str " public  " ++ cd_name (class_at k) ++ str "_Proxy " ++ line)
            else (base_count, line))
  end.

Definition proxy_header_function (f : FunctionSignature) : list text :=
  fs_comments f
  ++ [t 2 ++ (if is_virtual f then str "virtual " else []) ++ return_type f ++ str " " ++ fs_name f ++ str "("
        ++ join (str ", ") (declaration <$> fs_arguments f) ++ str ");"].

Definition proxy_header_signal (g : SignalSignature) : list text :=
  ss_comments g
  ++ [if sigc_signal g then
        t 2 ++ str "sigc::signal<void" ++ concat ((fun a => str ", " ++ fa_type a) <$> ss_arguments g) ++ str "> " ++ ss_name g ++ str ";"
      else
        t 2 ++ str "std::function<void(" ++ definitions (str ", ") (ss_arguments g) ++ str ")> " ++ ss_name g ++ str ";"].

Definition proxy_header (c : ClassDefinition) : outcome (list text) :=
  let name := cd_name c in
  with_exports ← filter_exports exported (direct_bases c);
  '(base_count, line) ← (match bases c with [] => Ret (0, []) | _ => proxy_bases 0 (direct_bases c) end);
  mret (
    [str "#ifndef " ++ name ++ str "_PROXY_HPP_"; str "#define " ++ name ++ str "_PROXY_HPP_"; [];
     str "#include <saftbus/client.hpp>"; []]
    ++ (if existsb sigc_signal (exportedsignals c) then [str "#include <sigc++/sigc++.h>"] else [])
    ++ (if existsb (fun g => negb (sigc_signal g)) (exportedsignals c) then [str "#include <functional>"] else [])
    ++ [[]] ++ includes c ++ [[]]
    ++ ((fun k => str "#include " ++ quoted (cd_name (class_at k) ++ str "_Proxy.hpp")) <$> with_exports)
    ++ [[]]
    ++ open_namespace c
    ++ cd_comments c
    ++ (let class_line := t 1 ++ str "class " ++ name ++ str "_Proxy " ++ line in
        if base_count =? 0 then [class_line ++ str ": public virtual saftbus::Proxy"; t 1 ++ str "{"]
        else [class_line ++ t 1 ++ str "{"])
    ++ [t 2 ++ str "static std::vector<std::string> gen_interface_names();";
        t 1 ++ str "public:";
        t 2 ++ name ++ str "_Proxy(const std::string &object_path, saftbus::SignalGroup &signal_group = saftbus::SignalGroup::get_global(), const std::vector<std::string> &interface_names = gen_interface_names());";
        t 2 ++ str "static std::shared_ptr<" ++ name ++ str "_Proxy> create(const std::string &object_path"
          ++ (match default_object_path c with [] => [] | path => str " = " ++ quoted path end)
          ++ str ", saftbus::SignalGroup &signal_group = saftbus::SignalGroup::get_global());";
        t 2 ++ str "bool signal_dispatch(int interface_no, int signal_no, saftbus::Deserializer &signal_content);"]
    ++ (f ← exportedfunctions c; proxy_header_function f)
    ++ (g ← exportedsignals c; proxy_header_signal g)
    ++ [t 1 ++ str "private:"; t 2 ++ str "int interface_no;"; []; t 1 ++ str "};"]
    ++ close_namespace ++ [str "#endif"]).

(** ** generate_proxy_implementation *)
Definition signal_case (signal_no : nat) (g : SignalSignature) : list text :=
  [t 3 ++ str "case " ++ show signal_no ++ str ": {"]
  ++ (a ← ss_arguments g; [t 4 ++ definition a ++ str ";"; t 4 ++ str "signal_content.get(" ++ fa_name a ++ str ");"])
  ++ [t 4 ++ (if sigc_signal g then [] else str "if (" ++ ss_name g ++ str ") ") ++ ss_name g ++ str "(" ++ names (ss_arguments g) ++ str ");";
      t 4 ++ str "// execute signal e.g. std::function";
      t 3 ++ str "} return true;"].

Definition signal_dispatch (c : ClassDefinition) (bases_with_exports : list nat) : list text :=
  [t 1 ++ str "bool " ++ cd_name c ++ str "_Proxy::signal_dispatch(int interface_no, int signal_no, saftbus::Deserializer &signal_content) {";
   t 2 ++ str "if (interface_no == this->interface_no) {"]
  ++ (match exportedsignals c with
      | [] => []
      | l => [t 3 ++ str "switch(signal_no) {"] ++ concat (imap signal_case l) ++ [t 3 ++ str "}"]
      end)
  ++ [t 2 ++ str "}"]
  ++ ((fun k => t 2 ++ str "if (" ++ cd_name (class_at k)
         ++ str "_Proxy::signal_dispatch(interface_no, signal_no, signal_content)) return true;") <$> bases_with_exports)
  ++ [t 2 ++ str "return false;"; t 1 ++ str "}"].

Definition get_send_put (name : text) : text := t 2 ++ str "get_send().put(" ++ name ++ str ");".
Definition get_received_get (name : text) : text := t 2 ++ str "get_received().get(" ++ name ++ str ");".

Definition proxy_function (name : text) (function_no : nat) (f : FunctionSignature) : list text :=
  [t 1 ++ return_type f ++ str " " ++ name ++ str "_Proxy::" ++ fs_name f ++ str "("
     ++ definitions (str ", ") (fs_arguments f) ++ t 1 ++ str ") {";
   t 2 ++ str "std::lock_guard<rtpi::mutex> lock(get_proxy_mutex());";
   get_send_put (str "get_saftbus_object_id()");
   get_send_put (str "interface_no");
   get_send_put (show function_no) ++ str " // function_no"]
  ++ (get_send_put <$> inputs f)
  ++ [t 2 ++ str "get_connection().atomic_send_and_receive(get_send(), get_received());";
      t 2 ++ str "saftbus::FunctionResult function_result_;";
      get_received_get (str "function_result_");
      t 2 ++ str "if (function_result_ == saftbus::FunctionResult::EXCEPTION) {";
      t 3 ++ str "std::string what;";
      t 3 ++ str "get_received().get(what);";
      t 3 ++ str "throw saftbus::Error(what);";
      t 2 ++ str "}";
      t 2 ++ str "assert(function_result_ == saftbus::FunctionResult::RETURN);"]
  ++ (get_received_get <$> outputs f)
  ++ (if is_void f then []
      else [t 2 ++ return_type f ++ str " return_value_result_;"; get_received_get (str "return_value_result_");
            t 2 ++ str "return return_value_result_;"])
  ++ [t 1 ++ str "}"].

Definition proxy_implementation (c : ClassDefinition) : outcome (list text) :=
  let name := cd_name c in
  all ← filter_exports exported (all_bases c);
  direct ← filter_exports exported (direct_bases c);
  mret (
    [str "#include " ++ quoted (name ++ str "_Proxy.hpp"); str "#include <saftbus/saftbus.hpp>";
     str "#include <saftbus/error.hpp>"; str "#include <cassert>"; []]
    ++ open_namespace c
    ++ [t 1 ++ str "std::vector<std::string> " ++ name ++ str "_Proxy::gen_interface_names() {"]
    ++ interface_names name ((fun k => cd_name (class_at k)) <$> all)
    ++ [t 1 ++ name ++ str "_Proxy::" ++ name
          ++ str "_Proxy(const std::string &object_path, saftbus::SignalGroup &signal_group, const std::vector<std::string> &interface_names)";
        t 2 ++ str ": saftbus::Proxy(object_path, signal_group, interface_names)"]
    ++ (match bases c with
        | [] => []
        | _ => (fun k => t 2 ++ str ", " ++ cd_name (class_at k) ++ str "_Proxy(object_path, signal_group, interface_names) ") <$> direct
        end)
    ++ [t 1 ++ str "{";
        t 2 ++ str "interface_no = saftbus::Proxy::interface_no_from_name(" ++ quoted name ++ str ");";
        t 1 ++ str "}";
        t 1 ++ str "std::shared_ptr<" ++ name ++ str "_Proxy> " ++ name
          ++ str "_Proxy::create(const std::string &object_path, saftbus::SignalGroup &signal_group) {";
        t 2 ++ str "return std::make_shared<" ++ name ++ str "_Proxy>(object_path, signal_group, gen_interface_names()); ";
        t 1 ++ str "}"]
    ++ signal_dispatch c direct
    ++ concat (imap (proxy_function name) (exportedfunctions c))
    ++ close_namespace).

(** ** The files of a class, of a source file *)
Variable output_only_these_files : list text.
Variable outputdirectory : text.

Definition move (c : ClassDefinition) (ending : text) (content : outcome (list text)) : M files unit :=
  content ← of_outcome content;
  modify (move_file_if_not_identical output_only_these_files content (output_filename outputdirectory (cd_name c) ending)).

Definition generate_service_header (c : ClassDefinition) : M files unit := move c (str "_Service.hpp") (Ret (service_header c)).
Definition generate_service_implementation (c : ClassDefinition) : M files unit := move c (str "_Service.cpp") (service_implementation c).
Definition generate_proxy_header (c : ClassDefinition) : M files unit := move c (str "_Proxy.hpp") (proxy_header c).
Definition generate_proxy_implementation (c : ClassDefinition) : M files unit := move c (str "_Proxy.cpp") (proxy_implementation c).

Definition generate_class (k : nat) : M files unit :=
  e ← of_outcome (exported k);
  if e : bool then
    let c := class_at k in
    generate_service_header c ;; generate_service_implementation c ;;
    generate_proxy_header c ;; generate_proxy_implementation c
  else mret tt.
Definition generate_classes : M files unit := for_each generate_class (seq 0 (length classes)).
End Output.

(** ** main *)
Record Options := mkOptions { include_paths : list text; source_files : list text; output_directory : text; only : list text }.
Definition Options0 : Options := mkOptions [] [] [] [].

(** What the arguments lead to: a program that ends with this status, or work. *)
Inductive Command := Exit (status : Z) | Generate (o : Options).

(** The words of a text, for [--only]; each has a character. *)
Fixpoint words (fuel : nat) (l : text) : list text :=
  match fuel with
  | O => []
  | S fuel' => match read_word l with None => [] | Some (w, rest) => w :: words fuel' rest end
  end.

Definition no_path : exn := RuntimeError "expecting pathname after '-I'".

Fixpoint read_options (args : list text) (o : Options) {struct args} : outcome Command :=
  match args with
  | [] => Ret (Generate o)
  | argvi :: args' =>
      let path p := mkOptions (include_paths o ++ [p]) (source_files o) (output_directory o) (only o) in
      if text_eqb (take 2 argvi) (str "-I") then
        if 2 <? length argvi then read_options args' (path (drop 2 argvi))
        else match args' with
             | [] => Throw no_path
             | argvipp :: args' =>
                 read_options args' (path (if text_eqb (take 2 argvipp) (str "-I") then drop 2 argvipp else argvipp))
             end
      else if text_eqb argvi (str "-o") then
        match args' with
        | [] => Ret (Exit 1)
        | dir :: args' => read_options args' (mkOptions (include_paths o) (source_files o) dir (only o))
        end
      else if text_eqb argvi (str "--only") then
        match args' with
        | [] => Ret (Exit 1)
        | l :: args' =>
            read_options args' (mkOptions (include_paths o) (source_files o) (output_directory o) (only o ++ words (length l) l))
        end
      else if text_eqb argvi (str "-v") then read_options args' o
      else if text_eqb argvi (str "-q") then read_options args' o
      else if text_eqb argvi (str "-h") || text_eqb argvi (str "--help") then Ret (Exit 0)
      else if starts_with (str "-") argvi then Ret (Exit 1)
      else read_options args' (mkOptions (include_paths o) (source_files o ++ [argvi]) (output_directory o) (only o))
  end.

(** The sources are read from the directory that the output goes to.  The buffers of
    comments go on from source to source. *)
Fixpoint generate_sources (depth : nat) (o : Options) (sources : list text) (cs : Comments) : M files unit :=
  match sources with
  | [] => mret tt
  | source_file :: sources' =>
      fs ← get;
      s ← of_outcome (cpp_parser (fun name => read_file name fs) (include_paths o) depth source_file (mkShared cs [] []));
      classes ← of_outcome (finalize_all (classes s));
      generate_classes classes (only o) (output_directory o) ;;
      generate_sources depth o sources' (s_comments s)
  end.

(** The status.  Only [std::runtime_error] is caught. *)
Definition run (depth : nat) (args : list text) : M files Z :=
  match args with
  | [] => mret 0%Z
  | _ =>
      try_catch
        (c ← of_outcome (read_options args Options0);
         match c with
         | Exit status => mret status
         | Generate o => generate_sources depth o (source_files o) Comments0 ;; mret 0%Z
         end)
        (fun e => match e with RuntimeError _ => mret 1%Z | e => throw e end)
  end.
