(* ===== verification/GeneratorBases.v ===== *)
(** * The code generator: the recursion over base classes ends *)
From S2P Require Import Prelude StdMap Texts Generator GeneratorParser GeneratorOutput.
From Stdlib Require Import Strings.Ascii.

(** Bases are declared before the classes that have them. *)
Definition ordered (classes : list ClassDefinition) : Prop :=
  forall k c base b, classes !! k = Some c -> base ∈ bases c -> base_class classes base = Some b -> b < k.
(** So are the bases that were found. *)
Definition bounded (classes : list ClassDefinition) : Prop :=
  forall k c b, classes !! k = Some c -> b ∈ all_bases c -> b < k.

Section Ends.
Variable classes : list ClassDefinition.

Lemma lookup_class_lt base l b : lookup_class base l = Some b -> b < length l.
Proof.
  revert b. induction l as [|c l IH]; intros b; cbn; [done|]. destruct (text_eqb _ _); [intros [= <-]; lia|].
  destruct (lookup_class base l) as [b'|]; [|done]. intros [= <-]. specialize (IH b' eq_refl). lia.
Qed.

Lemma has_exports_ends fuel k : bounded classes -> k < fuel -> k < length classes ->
  exists e, has_exports classes fuel k = Ret e.
Proof.
  intros Hb. revert k. induction fuel as [|fuel IH]; intros k Hk Hlen; [lia|].
  destruct (lookup_lt_is_Some_2 classes k Hlen) as [c Hc]. cbn [has_exports]. rewrite Hc.
  assert (forall bs, (forall b, b ∈ bs -> b < k) -> exists e,
    (fix or (bs : list nat) : outcome bool :=
       match bs with [] => Ret false | b :: bs' => e ← has_exports classes fuel b; rest ← or bs'; mret (e || rest) end) bs = Ret e) as Hor.
  { induction bs as [|b bs IHbs]; intros Hbs; [by eexists|].
    pose proof (Hbs b ltac:(by left)). destruct (IH b) as [e ->]; [lia..|].
    destruct IHbs as [e' E]; [by intros b' ?; apply Hbs; right|]. cbv [mbind outcome_bind] in *. rewrite E. by eexists. }
  destruct (Hor (all_bases c)) as [e E]; [by intros b; apply Hb|]. cbv [mbind outcome_bind] in *. rewrite E. by eexists.
Qed.

Lemma filter_exports_ends ks : bounded classes -> (forall k, k ∈ ks -> k < length classes) ->
  exists l, filter_exports (has_exports classes (S (length classes))) ks = Ret l /\ forall k, k ∈ l -> k ∈ ks.
Proof.
  intros Hb. induction ks as [|k ks IH]; intros Hks; [by exists []|].
  destruct IH as (l & E & Hl); [by intros k' ?; apply Hks; right|].
  pose proof (Hks k ltac:(by left)). destruct (has_exports_ends (S (length classes)) k) as [e He]; [done|lia..|].
  cbn [filter_exports]. cbv [mbind outcome_bind]. rewrite He, E. eexists. split; [done|].
  intros k'. destruct e; rewrite ?elem_of_cons; naive_solver.
Qed.

Lemma generate_all_bases_ends fuel n names : ordered classes -> bounded classes -> n < fuel -> n <= length classes ->
  (forall base b, base ∈ names -> base_class classes base = Some b -> b < n) ->
  exists l, generate_all_bases classes fuel names = Ret l /\ forall b, b ∈ l -> b < n.
Proof.
  intros Ho Hb. revert n names. induction fuel as [|fuel IH]; intros n names Hn Hlen; [lia|].
  cbn [generate_all_bases]. induction names as [|base names IHnames]; intros Hnames.
  - exists []. split; [done|]. by intros b ?%not_elem_of_nil.
  - destruct IHnames as (rest & Erest & Hrest); [by intros base' b ?; apply Hnames; right|].
    destruct (base_class classes base) as [k|] eqn:Ek; [|by exists rest].
    pose proof (Hnames base k ltac:(by left) Ek) as Hk.
    destruct (lookup_lt_is_Some_2 classes k) as [c Hc]; [lia|].
    destruct (IH k (bases c)) as (bbases & Eb & Hbb); [lia|lia|by intros; eapply Ho|].
    destruct (filter_exports_ends bbases) as (ex & Eex & Hex); [done|by intros k' ?%Hbb; lia|].
    rewrite Hc. cbn [from_option]. cbv [mbind outcome_bind] in *. rewrite Eb, Eex, Erest.
    eexists. split; [done|]. intros b [->|[Hin|Hin]%elem_of_app]%elem_of_cons; [done| |by apply Hrest].
    apply Hex, Hbb in Hin. lia.
Qed.
End Ends.

Lemma lookup_class_names base l l' : (cd_name <$> l) = (cd_name <$> l') -> lookup_class base l = lookup_class base l'.
Proof.
  revert l'. induction l as [|c l IH]; intros [|c' l']; try done. cbn. intros [= Hc Hl]. by rewrite Hc, (IH l').
Qed.

(** What finding the bases leaves alone. *)
Definition same_classes (l l' : list ClassDefinition) : Prop := (cd_name <$> l) = (cd_name <$> l') /\ (bases <$> l) = (bases <$> l').

Lemma ordered_same l l' : same_classes l l' -> ordered l -> ordered l'.
Proof.
  intros [Hn Hbs] Ho k c base b Hc Hbase Hb. unfold base_class in Hb. rewrite <- (lookup_class_names _ _ _ Hn) in Hb.
  assert (bases <$> (l !! k) = Some (bases c)) as Hl by (by rewrite <- list_lookup_fmap, Hbs, list_lookup_fmap, Hc).
  destruct (l !! k) as [d|] eqn:E; [|done]. cbn in Hl. injection Hl as Hl. rewrite <- Hl in Hbase. by eapply Ho.
Qed.

Lemma finalize_ends l k : ordered l -> bounded l -> k < length l ->
  exists l', finalize l k = Ret l' /\ same_classes l l' /\ bounded l'.
Proof.
  intros Ho Hb Hk. destruct (lookup_lt_is_Some_2 l k Hk) as [c Hc]. unfold finalize. rewrite Hc.
  destruct (generate_all_bases_ends l (S (length l)) k (bases c)) as (all & Eall & Hall); [done|done|lia|lia|by intros; eapply Ho|].
  cbv [mbind outcome_bind]. rewrite Eall. eexists. split; [done|]. split.
  - split; rewrite list_fmap_insert; cbn [set_bases cd_name bases]; symmetry; apply list_insert_id; by rewrite list_lookup_fmap, Hc.
  - intros j d b [[<- [<- _]]|[_ Hd]]%list_lookup_insert_Some; [by apply Hall|by eapply Hb].
Qed.

Lemma finalize_from_ends n k l : ordered l -> bounded l -> k + n <= length l ->
  exists l', finalize_from n k l = Ret l' /\ same_classes l l' /\ bounded l'.
Proof.
  revert k l. induction n as [|n IH]; intros k l Ho Hb Hn; [by exists l|].
  destruct (finalize_ends l k) as (l1 & E1 & Hs & Hb1); [done|done|lia|].
  assert (length l1 = length l) as Hlen by (destruct Hs as [Hs _]; by rewrite <- (length_fmap cd_name l1), <- Hs, length_fmap).
  destruct (IH (S k) l1) as (l' & E & Hs' & Hb'); [by eapply ordered_same|done|lia|].
  exists l'. cbn [finalize_from]. cbv [mbind outcome_bind]. rewrite E1. split; [done|]. split; [|done].
  unfold same_classes in *. split; etrans; [apply Hs|apply Hs'|apply Hs|apply Hs'].
Qed.

(** When base classes are declared before the classes that have them, the recursions over the bases of all classes
    end, and so does the question whether a class has exports, for every class; a class comes after all the bases that
    were found for it. *)
Theorem bases_end classes : ordered classes -> (forall k c, classes !! k = Some c -> all_bases c = []) ->
  exists classes', finalize_all classes = Ret classes' /\ same_classes classes classes' /\ bounded classes' /\
    forall k, k < length classes' -> exists e, exported classes' k = Ret e.
Proof.
  intros Ho Hnone. destruct (finalize_from_ends (length classes) 0 classes) as (l' & E & Hs & Hb); [done| |lia|].
  - intros k c b Hc Hb. rewrite (Hnone k c Hc) in Hb. by apply not_elem_of_nil in Hb.
  - exists l'. split_and!; [done..|]. intros k Hk. apply has_exports_ends; [done|lia|done].
Qed.

Module BasesDemo.
Definition class name bs : ClassDefinition := mkClass (str "ns::" ++ name) name [] bs [] [] [] [] [] [].
Definition diamond : list ClassDefinition :=
  [class (str "Owned") []; class (str "Sink") [str "Owned"]; class (str "Device") [str "Owned"; str "sigc::trackable"];
   class (str "Receiver") [str "Device"; str "Sink"]].

Lemma bases_end_witness :
  (exists classes', finalize_all diamond = Ret classes' /\ bounded classes') /\
  match finalize_all diamond with Ret l => all_bases <$> l | _ => [] end = [[]; [0]; [0]; [2; 1]].
Proof.
  split; [|by vm_compute].
  destruct (bases_end diamond) as (classes' & E & _ & Hb & _).
  - intros k c base b Hc Hbase Hb.
    assert (k < 4) as Hk by (by apply lookup_lt_Some in Hc).
    destruct k as [|[|[|[|k]]]]; [..|lia]; injection Hc as <-; cbn [class bases] in Hbase;
      repeat (apply elem_of_cons in Hbase as [->|Hbase]; [vm_compute in Hb; simplify_eq; lia|]);
      by apply not_elem_of_nil in Hbase.
  - intros k c Hc. destruct k as [|[|[|[|k]]]]; [injection Hc as <-; done..|done].
  - by exists classes'.
Defined.

(** A class whose base has its name, in another namespace: the first class of that
    name is found, itself, and there is no end. *)
Example base_of_the_same_name : forall fuel, generate_all_bases [class (str "A") [str "A"]] fuel [str "A"] = Crash "generate_all_bases: recursion".
Proof.
  induction fuel as [|fuel IH]; [done|]. cbn [generate_all_bases].
  change (base_class [class (str "A") [str "A"]] (str "A")) with (Some 0). cbn iota.
  change (from_option bases [] ([class (str "A") [str "A"]] !! 0)) with [str "A"]. by rewrite IH.
Qed.
End BasesDemo.
