(* ===== verification/GeneratorRoundtrip.v ===== *)
(** * The code generator: what it writes into the header of a proxy, it reads back *)
From S2P Require Import Prelude StdMap Texts Generator GeneratorParser GeneratorOutput.
From Stdlib Require Import Strings.Ascii.

(** ** Spaces *)
Definition trimmed (l : text) : bool :=
  match l with c :: _ => negb (is_space c) | [] => false end
  && match last l with Some c => negb (is_space c) | None => false end.

Lemma find_last_last f l c : last l = Some c -> f c = true -> find_last f l = Some (length l - 1).
Proof.
  intros Hl Hc. apply last_Some in Hl as [l' ->]. rewrite find_last_app. cbn. rewrite Hc, length_app. cbn. f_equal. lia.
Qed.

Lemma not_not_space a : forallb is_space a = true -> forallb (fun c => negb (negb (is_space c))) a = true.
Proof. rewrite !forallb_forall. intros H x Hx. by rewrite negb_involutive, H. Qed.

Lemma strip_spaces a l b : forallb is_space a = true -> trimmed l = true -> forallb is_space b = true ->
  strip (a ++ l ++ b) = Ret l.
Proof.
  intros Ha%not_not_space [Hfirst Hlast]%andb_prop Hb%not_not_space.
  destruct l as [|c l]; [done|]. destruct (last (c :: l)) as [d|] eqn:Hd; [|done].
  unfold strip. destruct (a ++ (c :: l) ++ b) as [|x xs] eqn:E; [by destruct a|].
  rewrite <- E. clear x xs E.
  rewrite find_last_app, find_last_app, find_last_none, (find_last_last _ _ d), find_first_app by done.
  cbn [find_first app]. rewrite Hfirst. cbn [fmap option_fmap option_map default from_option].
  unfold substr, id. rewrite Nat.add_0_r, drop_app_length.
  replace (length a + (length (c :: l) - 1) - length a + 1) with (length (c :: l)) by (cbn; lia).
  change (c :: l ++ b) with ((c :: l) ++ b). by rewrite take_app_length.
Qed.

Lemma strip_id l : trimmed l = true -> strip l = Ret l.
Proof. intros H. pose proof (strip_spaces [] l [] eq_refl H eq_refl) as E. cbn in E. by rewrite app_nil_r in E. Qed.
Lemma strip_before l : trimmed l = true -> strip (str " " ++ l) = Ret l.
Proof. intros H. pose proof (strip_spaces (str " ") l [] eq_refl H eq_refl) as E. by rewrite app_nil_r in E. Qed.
Lemma strip_behind l : trimmed l = true -> strip (l ++ str " ") = Ret l.
Proof. intros H. exact (strip_spaces [] l (str " ") eq_refl H eq_refl). Qed.

Lemma trimmed_app a m b : trimmed a = true -> trimmed b = true -> trimmed (a ++ m ++ b) = true.
Proof.
  unfold trimmed. intros [Ha _]%andb_prop [_ Hb]%andb_prop. destruct a as [|c a]; [done|]. cbn [app]. rewrite Ha. cbn [andb].
  destruct (last b) as [d|] eqn:E; [|done]. apply last_Some in E as [b' ->].
  replace (c :: a ++ m ++ b' ++ [d]) with ((c :: a ++ m ++ b') ++ [d]) by (cbn; by rewrite <- !app_assoc).
  by rewrite last_snoc.
Qed.

(** ** Identifiers *)
Definition is_word (c : ascii) : bool :=
  let n := nat_of_ascii c in
  ((48 <=? n) && (n <=? 57)) || ((65 <=? n) && (n <=? 90)) || ((97 <=? n) && (n <=? 122)) || (n =? 95).
Definition identifier (l : text) : bool := (0 <? length l) && forallb is_word l.

Lemma is_word_not_space c : is_word c = true -> is_space c = false.
Proof.
  unfold is_word, is_space. rewrite !orb_true_iff, !andb_true_iff, !Nat.leb_le, Nat.eqb_eq. intros H.
  rewrite orb_false_iff, andb_false_iff, !Nat.leb_gt, Nat.eqb_neq. lia.
Qed.
Lemma word_not l d : forallb is_word l = true -> is_word d = false -> forallb (fun c => negb (char_eqb d c)) l = true.
Proof.
  rewrite !forallb_forall. intros H Hd c Hc. apply H in Hc. apply negb_true_iff, char_eqb_neq. intros ->. congruence.
Qed.
Lemma identifier_trimmed l : identifier l = true -> trimmed l = true.
Proof.
  unfold identifier, trimmed. intros [Hl Hw]%andb_prop. destruct l as [|c l]; [done|]. clear Hl.
  rewrite forallb_forall in Hw. rewrite is_word_not_space by (apply Hw; by left).
  destruct (last (c :: l)) as [d|] eqn:E; [|by apply last_None in E].
  cbn. rewrite is_word_not_space; [done|]. apply Hw, list_elem_of_In. apply last_Some_elem_of in E. done.
Qed.

(** ** Brackets: where [split_commas] is, if it meets no comma that separates and no
    parenthesis that was not opened *)
Fixpoint scan (l : text) (angle paren : Z) : option (Z * Z) :=
  match l with
  | [] => Some (angle, paren)
  | c :: l' =>
      let angle := if char_eqb c "<" then (angle + 1)%Z else if char_eqb c ">" then (angle - 1)%Z else angle in
      let paren := if char_eqb c "(" then (paren + 1)%Z else if char_eqb c ")" then (paren - 1)%Z else paren in
      if (paren <? 0)%Z || char_eqb c "," && (angle =? 0)%Z && (paren =? 0)%Z then None else scan l' angle paren
  end.
Definition closed (l : text) : Prop := scan l 0 0 = Some (0, 0)%Z.

Lemma scan_app l k a p : scan (l ++ k) a p = '(a', p') ← scan l a p; scan k a' p'.
Proof. revert a p. induction l as [|c l IH]; intros a p; cbn; [done|]. case_match; [done|]. apply IH. Qed.
Lemma closed_app l k : closed l -> closed k -> closed (l ++ k).
Proof. unfold closed. intros Hl Hk. by rewrite scan_app, Hl. Qed.

Lemma closed_words l : forallb is_word l = true -> closed l.
Proof.
  unfold closed. induction l as [|c l IH]; cbn [scan forallb]; [done|]. intros [Hc Hl]%andb_prop.
  assert (forall d, is_word d = false -> char_eqb c d = false) as Hd.
  { intros d Hd. apply char_eqb_neq. congruence. }
  rewrite !Hd by done. cbn. by apply IH.
Qed.

Lemma split_commas_scan l k buffer a p a' p' : scan l a p = Some (a', p') ->
  split_commas (l ++ k) buffer a p = split_commas k (reverse l ++ buffer) a' p'.
Proof.
  revert buffer a p. induction l as [|c l IH]; intros buffer a p; cbn [scan app]; [by intros [= <- <-]|].
  cbn zeta. destruct (_ <? 0)%Z; [done|]. cbn [orb]. intros H. cbn [split_commas].
  destruct (char_eqb c "," && _ && _) eqn:E; [done|]. rewrite (IH (c :: buffer) _ _ H).
  by rewrite reverse_cons, <- app_assoc.
Qed.

(** Parentheses that are opened within [l] are not those of the whole line. *)
Lemma scan_parentheses_inner l k pos a p a' p' open close : scan l a p = Some (a', p') -> (0 <= p)%Z ->
  scan_parentheses (l ++ k) pos (1 + p) open close = scan_parentheses k (pos + length l) (1 + p') open close /\ (0 <= p')%Z.
Proof.
  revert pos a p. induction l as [|c l IH]; intros pos a p; cbn [scan app].
  - intros [= <- <-] Hp. by rewrite Nat.add_0_r.
  - cbn zeta. destruct (_ <? 0)%Z eqn:Hneg; [done|]. cbn [orb]. destruct (char_eqb c "," && _ && _); [done|].
    intros H Hp. apply Z.ltb_ge in Hneg. specialize (IH (S pos) _ _ H Hneg) as [IH Hp'].
    split; [|done]. change (length (c :: l)) with (S (length l)). rewrite Nat.add_succ_r, <- Nat.add_succ_l, <- IH.
    cbn [scan_parentheses]. destruct (char_eqb c "(") eqn:Ho.
    + replace (char_eqb c ")") with false by (symmetry; apply char_eqb_neq; apply char_eqb_eq in Ho as ->; done).
      replace (1 + p =? 0)%Z with false by (symmetry; apply Z.eqb_neq; lia).
      by replace (1 + p + 1)%Z with (1 + (p + 1))%Z by lia.
    + destruct (char_eqb c ")"); [|done].
      replace (1 + p =? 1)%Z with false by (symmetry; apply Z.eqb_neq; lia).
      by replace (1 + p - 1)%Z with (1 + (p - 1))%Z by lia.
Qed.

(** ** Arguments *)
Definition balanced (l : text) : bool := bool_decide (closed l).
Definition well_formed (a : FunctionArgument) : bool :=
  trimmed (fa_type a) && negb (has_char "=" (fa_type a)) && balanced (fa_type a)
  && identifier (fa_name a)
  && (text_eqb (fa_init a) [] || trimmed (fa_init a) && balanced (fa_init a))
  && Bool.eqb (is_output a) (has_char "&" (fa_type a) && negb (has_text (str "const") (fa_type a))).

Lemma has_char_none c l : has_char c l = false -> find_char c l = None.
Proof. unfold has_char. by destruct (find_char c l). Qed.
Lemma find_first_none_inv f l : find_first f l = None -> forallb (fun c => negb (f c)) l = true.
Proof.
  induction l as [|c l IH]; cbn; [done|]. destruct (f c); [done|]. destruct (find_first f l); [done|]. intros _. by apply IH.
Qed.

(** What [well_formed] says, in the form the proofs use. *)
Record argument_ok (a : FunctionArgument) : Prop := {
  ok_type : trimmed (fa_type a) = true;
  ok_equals : forallb (fun c => negb (char_eqb "=" c)) (fa_type a ++ str " " ++ fa_name a) = true;
  ok_word : forallb is_word (fa_name a) = true;
  ok_name : trimmed (fa_name a) = true;
  ok_init : fa_init a = [] \/ trimmed (fa_init a) = true;
  ok_output : is_output a = has_char "&" (fa_type a) && negb (has_text (str "const") (fa_type a));
  ok_closed : closed (declaration a)
}.

Lemma well_formed_ok a : well_formed a = true -> argument_ok a.
Proof.
  unfold well_formed, balanced. rewrite !andb_true_iff, negb_true_iff, orb_true_iff, andb_true_iff, !bool_decide_eq_true.
  unfold text_eqb. rewrite bool_decide_eq_true.
  intros [[[[[Htype Heq] Hclosed] Hid] Hinit] Hout]. apply Bool.eqb_prop in Hout.
  assert (forallb is_word (fa_name a) = true) as Hw by (by unfold identifier in Hid; apply andb_prop in Hid as [_ ?]).
  assert (closed (definition a)) as Hdef.
  { unfold definition. repeat apply closed_app; [done|done|]. by apply closed_words. }
  split; try done.
  - apply has_char_none, find_first_none_inv in Heq. rewrite !forallb_app, Heq. cbn. by apply word_not.
  - by apply identifier_trimmed.
  - naive_solver.
  - unfold declaration. destruct Hinit as [->|[_ Hinit]]; [done|]. case_match; [|done]. apply closed_app; [done|by apply closed_app].
Qed.

Lemma definition_trimmed a : argument_ok a -> trimmed (definition a) = true.
Proof. intros H. apply trimmed_app; apply H. Qed.
Lemma declaration_trimmed a : argument_ok a -> trimmed (declaration a) = true.
Proof.
  intros H. unfold declaration. destruct (ok_init a H) as [->|Hi]; [by apply definition_trimmed|].
  case_match; [|by apply definition_trimmed]. apply trimmed_app; [by apply definition_trimmed|done].
Qed.

(** The space before a name is the last one. *)
Lemma after_last_word l w : forallb is_word w = true -> after_last (l ++ str " " ++ w) = length l + 1.
Proof.
  intros Hw. unfold after_last, find_last_of. rewrite !find_last_app, (find_last_none _ w).
  - cbn. change (char_eqb " " " ") with true. cbn. by rewrite Nat.add_0_r.
  - revert Hw. rewrite !forallb_forall. intros H c Hc. apply H in Hc. apply negb_true_iff. cbn.
    by rewrite !orb_false_iff, !char_eqb_neq; repeat split; intros ->.
Qed.

Lemma FunctionArgument_declaration a : argument_ok a -> FunctionArgument_new (declaration a) = Ret a.
Proof.
  intros H. assert (forallb (fun c => negb (char_eqb "=" c)) (definition a) = true) as Heq by apply H.
  unfold FunctionArgument_new.
  assert ((match find_char "=" (declaration a) with
           | Some equals_pos =>
               init ← strip (drop (equals_pos + 1) (declaration a));
               type_and_name ← strip (take equals_pos (declaration a)); mret (init, type_and_name)
           | None => type_and_name ← strip (declaration a); mret ([], type_and_name)
           end) = Ret (fa_init a, definition a)) as ->.
  { unfold declaration, find_char. destruct (ok_init a H) as [Hi|Hi].
    - rewrite Hi. cbn [length Nat.ltb Nat.leb]. rewrite find_first_none, strip_id by (done || by apply definition_trimmed). done.
    - destruct (fa_init a) as [|c init] eqn:E; [done|]. rewrite <- E in *. replace (0 <? length (fa_init a)) with true by (by rewrite E).
      rewrite find_first_app by done. cbn [str String.list_ascii_of_string app find_first fmap option_fmap option_map].
      change (char_eqb "=" " ") with false. change (char_eqb "=" "=") with true. cbn iota. cbn [fmap option_fmap option_map].
      replace (length (definition a) + 1 + 1) with (length (definition a ++ str " =")) by (rewrite length_app; cbn; lia).
      change (definition a ++ " "%char :: "="%char :: " "%char :: fa_init a) with (definition a ++ str " =" ++ str " " ++ fa_init a).
      rewrite app_assoc, drop_app_length, strip_before by done.
      change (str " =") with (str " " ++ str "="). rewrite <- !app_assoc, (app_assoc (definition a)).
      replace (length (definition a) + 1) with (length (definition a ++ str " ")) by (rewrite length_app; cbn; lia).
      by rewrite take_app_length, strip_behind by (by apply definition_trimmed). }
  cbn beta iota. cbv [mbind outcome_bind]. unfold definition. rewrite after_last_word by apply H.
  replace (length (fa_type a) + 1) with (length (fa_type a ++ str " ")) by (rewrite length_app; cbn; lia).
  rewrite app_assoc, take_app_length, drop_app_length, strip_behind, strip_id by apply H.
  cbv [mret outcome_ret]. rewrite <- (ok_output a H). by destruct a.
Qed.

Lemma make_argument sp a pieces args : forallb is_space sp = true -> argument_ok a ->
  make_arguments pieces = Ret args -> make_arguments ((sp ++ declaration a) :: pieces) = Ret (a :: args).
Proof.
  intros Hsp Ha Hpieces. cbn [make_arguments]. pose proof (declaration_trimmed a Ha) as Ht.
  pose proof (strip_spaces sp _ [] Hsp Ht eq_refl) as Hs. rewrite app_nil_r in Hs.
  cbv [mbind outcome_bind]. by rewrite Hs, FunctionArgument_declaration, Hpieces.
Qed.

Lemma split_commas_closed l : closed l -> l <> [] -> split_commas l [] 0 0 = [l].
Proof.
  intros Hl Hne. rewrite <- (app_nil_r l) at 1. rewrite (split_commas_scan _ _ _ _ _ _ _ Hl), app_nil_r. cbn.
  rewrite reverse_involutive. destruct (reverse l) eqn:E; [|done]. apply (f_equal reverse) in E. by rewrite reverse_involutive in E.
Qed.
Lemma split_commas_comma l k : closed l -> split_commas (l ++ str "," ++ k) [] 0 0 = l :: split_commas k [] 0 0.
Proof. intros Hl. rewrite (split_commas_scan _ _ _ _ _ _ _ Hl), app_nil_r. cbn. by rewrite reverse_involutive. Qed.

Lemma split_declarations_behind a args sp : argument_ok a -> Forall argument_ok args ->
  closed sp -> forallb is_space sp = true ->
  make_arguments (split_commas (sp ++ join (str ", ") (declaration <$> (a :: args))) [] 0 0) = Ret (a :: args).
Proof.
  intros Ha Hargs. revert a Ha sp. induction Hargs as [|b args Hb _ IH]; intros a Ha sp Hsp Hspace;
    assert (closed (sp ++ declaration a)) as Hc by (apply closed_app; [done|apply Ha]).
  - cbn [fmap list_fmap join]. rewrite split_commas_closed; [by apply make_argument|done|].
    pose proof (declaration_trimmed a Ha) as Ht. intros [_ E]%app_nil. by rewrite E in Ht.
  - specialize (IH b Hb (str " ") eq_refl eq_refl).
    change (join (str ", ") (declaration <$> (a :: b :: args)))
      with (declaration a ++ str "," ++ str " " ++ join (str ", ") (declaration <$> (b :: args))).
    rewrite (app_assoc sp), split_commas_comma by done. by apply make_argument.
Qed.

Lemma split_declarations args : Forall argument_ok args -> split_arguments (join (str ", ") (declaration <$> args)) = Ret args.
Proof.
  intros Hargs. unfold split_arguments. destruct args as [|a args]; [done|]. apply Forall_cons in Hargs as [Ha Hargs].
  by apply (split_declarations_behind a args []).
Qed.

(** ** Functions *)
Definition no_parentheses (l : text) : bool := forallb (fun c => negb (char_eqb c "(") && negb (char_eqb c ")")) l.
Definition function_ok (f : FunctionSignature) : bool :=
  forallb well_formed (fs_arguments f) && identifier (fs_name f) && trimmed (return_type f)
  && no_parentheses (return_type f) && (is_virtual f || negb (has_text (str "virtual") (return_type f))).

Lemma scan_parentheses_plain l k pos level open close : no_parentheses l = true ->
  scan_parentheses (l ++ k) pos level open close = scan_parentheses k (pos + length l) level open close.
Proof.
  revert pos. induction l as [|c l IH]; intros pos; cbn [no_parentheses forallb app]; [by rewrite Nat.add_0_r|].
  intros [[Ho%negb_true_iff Hc%negb_true_iff]%andb_prop Hl]%andb_prop. cbn [scan_parentheses]. rewrite Ho, Hc, IH by done.
  f_equal. cbn. lia.
Qed.

Lemma scan_parentheses_closed l k pos open close : closed l ->
  scan_parentheses (l ++ k) pos 1 open close = scan_parentheses k (pos + length l) 1 open close.
Proof. intros Hl. exact (proj1 (scan_parentheses_inner l k pos 0 0 0 0 open close Hl ltac:(lia))). Qed.

Lemma scan_parentheses_args args k pos open close : Forall argument_ok args ->
  scan_parentheses (join (str ", ") (declaration <$> args) ++ k) pos 1 open close
  = scan_parentheses k (pos + length (join (str ", ") (declaration <$> args))) 1 open close.
Proof.
  intros Hargs. destruct args as [|a args]; [by rewrite Nat.add_0_r|]. apply Forall_cons in Hargs as [Ha Hargs].
  revert a Ha pos. induction Hargs as [|b args Hb _ IH]; intros a Ha pos; [by apply scan_parentheses_closed, Ha|].
  change (join (str ", ") (declaration <$> (a :: b :: args)))
    with (declaration a ++ str ", " ++ join (str ", ") (declaration <$> (b :: args))).
  rewrite <- !app_assoc, scan_parentheses_closed by apply Ha. rewrite scan_parentheses_plain, IH by done.
  rewrite !length_app. f_equal. lia.
Qed.

Definition function_start (f : FunctionSignature) : text :=
  t 2 ++ ((if is_virtual f then str "virtual " else []) ++ return_type f) ++ str " ".
Definition function_line (f : FunctionSignature) : text :=
  (function_start f ++ fs_name f) ++ str "(" ++ join (str ", ") (declaration <$> fs_arguments f) ++ str ");".

Lemma no_parentheses_word l : forallb is_word l = true -> no_parentheses l = true.
Proof.
  unfold no_parentheses. rewrite !forallb_forall. intros H c Hc. apply H in Hc.
  apply andb_true_iff. rewrite !negb_true_iff, !char_eqb_neq. by split; intros ->.
Qed.

Lemma scan_function_line f : function_ok f = true ->
  scan_parentheses (function_line f) 0 0 0 0 =
    (length (function_start f ++ fs_name f),
     length (function_start f ++ fs_name f) + 1 + length (join (str ", ") (declaration <$> fs_arguments f))).
Proof.
  unfold function_ok, identifier. rewrite !andb_true_iff. intros [[[[Hargs [_ Hname]] _] Hret] _].
  unfold function_line. rewrite scan_parentheses_plain.
  - cbn [app str String.list_ascii_of_string scan_parentheses Nat.add].
    change (char_eqb "(" "(") with true. change (char_eqb "(" ")") with false. cbn iota zeta.
    change (0 + 1)%Z with 1%Z. cbn [Z.eqb]. rewrite scan_parentheses_args.
    + cbn [scan_parentheses]. change (char_eqb ")" "(") with false. change (char_eqb ")" ")") with true.
      change (char_eqb ";" "(") with false. change (char_eqb ";" ")") with false. cbn. f_equal. lia.
    + apply Forall_forall. intros a Ha%list_elem_of_In. rewrite forallb_forall in Hargs. by apply well_formed_ok, Hargs.
  - unfold no_parentheses, function_start. rewrite !forallb_app.
    change (forallb _ (t 2)) with true. change (forallb _ (str " ")) with true.
    fold (no_parentheses (return_type f)) (no_parentheses (fs_name f)). rewrite Hret, (no_parentheses_word _ Hname).
    by destruct (is_virtual f).
Qed.

Lemma substr64_middle pos z a b c : (z = Z.of_nat (length b)) -> (Z.of_nat (length (a ++ b ++ c)) < 2 ^ 64)%Z ->
  pos = Z.of_nat (length a) -> substr64 pos (u64 z) (a ++ b ++ c) = Ret b.
Proof.
  intros -> Hlen ->. rewrite !length_app in Hlen. unfold substr64. rewrite unsigned_wrap_small by lia.
  rewrite (proj2 (Z.ltb_ge _ _)) by (rewrite !length_app; lia).
  rewrite Z.min_l by (rewrite !length_app; lia). by rewrite !Nat2Z.id, drop_app_length, take_app_length.
Qed.

Lemma function_type_trimmed f : trimmed (return_type f) = true ->
  trimmed ((if is_virtual f then str "virtual " else []) ++ return_type f) = true.
Proof. intros H. destruct (is_virtual f); [|done]. exact (trimmed_app (str "virtual") (str " ") _ eq_refl H). Qed.

(** C18: The declaration of a function in the header of a proxy is read back by the generator as the same function: its
    name, whether it is virtual, its return type, and its arguments with types, names, initial values and directions. *)
Theorem function_roundtrip f :
  function_ok f = true -> (Z.of_nat (length (function_line f)) < 2 ^ 64)%Z ->
  proxy_header_function f = fs_comments f ++ [function_line f] /\
  FunctionSignature_new (fs_scope f) (function_line f) (fs_comments f) = Ret f.
Proof.
  intros Hf Hlen. split.
  { unfold proxy_header_function, function_line, function_start. by rewrite <- !app_assoc. }
  unfold FunctionSignature_new. rewrite scan_function_line by done.
  pose proof Hf as Hf'. unfold function_ok in Hf. rewrite !andb_true_iff in Hf. destruct Hf as [[[[Hargs Hid] Htype] Hret] Hvirtual].
  assert (forallb is_word (fs_name f) = true) as Hword by (by unfold identifier in Hid; apply andb_prop in Hid as [_ ?]).
  set (args := join (str ", ") (declaration <$> fs_arguments f)) in *.
  set (start := function_start f) in *.
  assert (Forall argument_ok (fs_arguments f)) as Hok.
  { apply Forall_forall. intros a Ha%list_elem_of_In. rewrite forallb_forall in Hargs. by apply well_formed_ok, Hargs. }
  assert (length (function_line f) = length (start ++ fs_name f) + 1 + length args + 2) as Hline.
  { unfold function_line. fold args start. rewrite !length_app. change (length (str "(")) with 1. change (length (str ");")) with 2. lia. }
  rewrite (proj2 (Nat.eqb_neq _ _)) by lia.
  assert (substr64 (Z.of_nat (length (start ++ fs_name f)) + 1)
            (u64 (Z.of_nat (length (start ++ fs_name f) + 1 + length args) - Z.of_nat (length (start ++ fs_name f)) - 1))
            (function_line f) = Ret args) as ->.
  { unfold function_line. rewrite (app_assoc (function_start f ++ _)). apply substr64_middle; [lia| |].
    - by rewrite <- app_assoc.
    - rewrite (length_app _ (str "(")). cbn. fold start. lia. }
  cbv [mbind outcome_bind mret outcome_ret]. unfold args. rewrite split_declarations by done.
  assert (take (length (start ++ fs_name f)) (function_line f) = start ++ fs_name f) as -> by (unfold function_line; apply take_app_length).
  assert (after_last (start ++ fs_name f) = length start) as ->.
  { unfold start, function_start. rewrite (app_assoc (t 2)), <- (app_assoc _ (str " ")), after_last_word by done.
    rewrite (length_app _ (str " ")). done. }
  assert (substr (length start) (length (start ++ fs_name f) - length start) (function_line f) = fs_name f) as ->.
  { unfold substr, function_line. fold start. rewrite <- !app_assoc, drop_app_length, length_app.
    replace (length start + length (fs_name f) - length start) with (length (fs_name f)) by lia. apply take_app_length. }
  assert (take (length start) (function_line f) = start) as ->
    by (unfold function_line; fold start; rewrite <- !app_assoc; apply take_app_length).
  rewrite strip_id by (by apply identifier_trimmed). unfold start, function_start.
  rewrite (strip_spaces (t 2) _ (str " ") eq_refl) by first [done|by apply function_type_trimmed].
  destruct (is_virtual f) eqn:Hv; cbn [app].
  - change (has_text (str "virtual") (str "virtual " ++ return_type f)) with true. cbn iota.
    change (drop 7 (str "virtual " ++ return_type f)) with (str " " ++ return_type f).
    rewrite strip_before by done. rewrite <- Hv. by destruct f.
  - cbn [orb] in Hvirtual. apply negb_true_iff in Hvirtual. rewrite Hvirtual, <- Hv. by destruct f.
Qed.

Module RoundtripDemo.
Definition f : FunctionSignature := mkFunction (str "ns::Foo") (str "AppendParameterSet") true (str "std::vector<int>")
  [mkArgument (str "const std::map<int, std::string> &") (str "coeff") (str "std::map<int, std::string>()") false;
   mkArgument (str "uint64_t &") (str "start_tag") [] true]
  [str "  // @saftbus-export"].

Lemma function_roundtrip_witness :
  function_ok f = true /\
  function_line f = t 2 ++ str "virtual std::vector<int> AppendParameterSet(const std::map<int, std::string> & coeff = std::map<int, std::string>(), uint64_t & start_tag);" /\
  FunctionSignature_new (str "ns::Foo") (function_line f) [str "  // @saftbus-export"] = Ret f.
Proof.
  split; [by vm_compute|]. split; [by vm_compute|].
  exact (proj2 (function_roundtrip f eq_refl ltac:(vm_compute; reflexivity))).
Defined.

(** A comma outside of brackets: the text of an initial value is split as well. *)
Example braces_split :
  split_arguments (str "P p = P{1, 2}") = Ret [mkArgument (str "P") (str "p") (str "P{1") false; mkArgument [] (str "2}") [] false].
Proof. by vm_compute. Qed.

(** A function that returns by an output argument whose type holds the word. *)
Example const_in_the_name :
  FunctionArgument_new (str "reconstruct_t &r") = Ret (mkArgument (str "reconstruct_t &") (str "r") [] false).
Proof. by vm_compute. Qed.
End RoundtripDemo.
