(* ===== verification/GeneratorCorrect.v ===== *)
(** * The code generator: what the generated proxies and services agree on *)
From S2P Require Import Prelude StdMap Texts Generator GeneratorParser GeneratorOutput.
From stdpp Require Import pretty.
From Stdlib Require Import Strings.Ascii.

(** ** Texts of numbers *)
Lemma pretty_char_digit (x : N) : is_digit (pretty_N_char x) = true.
Proof. unfold pretty_N_char. by repeat case_match. Qed.

Lemma pretty_go_digits (x : N) s : forallb is_digit (str s) = true -> forallb is_digit (str (pretty_N_go x s)) = true.
Proof.
  revert s. induction (N.lt_wf_0 x) as [x _ IH]; intros s Hs.
  destruct (decide (x = 0%N)) as [->|Hx]; [by rewrite pretty_N_go_0|].
  rewrite pretty_N_go_step by lia. apply IH; [apply N.div_lt; lia|].
  change (is_digit (pretty_N_char (x `mod` 10)) && forallb is_digit (str s) = true).
  by rewrite pretty_char_digit.
Qed.

Lemma show_digits n : forallb is_digit (show n) = true.
Proof. unfold show, pretty, pretty_N. case_decide; [done|]. by apply pretty_go_digits. Qed.

Lemma show_without c n : is_digit c = false -> c ∉ show n.
Proof.
  intros Hc Hin. pose proof (show_digits n) as H. rewrite forallb_forall in H.
  apply list_elem_of_In in Hin. apply H in Hin. congruence.
Qed.

Lemma show_inj n m : show n = show m -> n = m.
Proof.
  unfold show, str. intros H.
  apply (f_equal String.string_of_list_ascii) in H. rewrite !String.string_of_list_ascii_of_string in H.
  apply pretty_N_inj in H. lia.
Qed.

(** ** Reading the generated text

    [switch] as the language has it, on lines: the block of [case i] and [case j]. *)
Definition case_of (p line : text) : option text :=
  if starts_with p line then Some (fst (span (fun c => negb (char_eqb c ":")) (drop (length p) line))) else None.
Fixpoint after_case (p n : text) (lines : list text) : option (list text) :=
  match lines with
  | [] => None
  | l :: lines' => if bool_decide (case_of p l = Some n) then Some lines' else after_case p n lines'
  end.
Fixpoint up_to (e : text) (lines : list text) : list text :=
  match lines with [] => [] | l :: lines' => if text_eqb l e then [] else l :: up_to e lines' end.
Definition service_case (i j : nat) (lines : list text) : option (list text) :=
  functions ← after_case (t 3 ++ str "case ") (show i) lines;
  block ← after_case (t 4 ++ str "case ") (show j) (up_to (t 3 ++ str "};") functions);
  Some (up_to (t 4 ++ str "} return;") block).

(** Calls of [put] and [get], and what they do: [p] is the text before the argument. *)
Inductive stmt := Put (x : text) | Get (x : text).
Definition call_of (p line : text) : option text :=
  if starts_with p line then (fun n => take n (drop (length p) line)) <$> find_text (str ");") (drop (length p) line) else None.
Definition read_stmt (puts gets line : text) : option stmt :=
  match call_of puts line with Some x => Some (Put x) | None => Get <$> call_of gets line end.
Definition proxy_stmts : list text -> list stmt := omap (read_stmt (t 2 ++ str "get_send().put(") (t 2 ++ str "get_received().get(")).
Definition service_stmts : list text -> list stmt := omap (read_stmt (t 5 ++ str "send.put(") (t 5 ++ str "received.get(")).

Section Run.
Context {V : Type}.
Implicit Types (e g : text -> V) (xs : list text).

Definition assign e x (v : V) : text -> V := fun y => if text_eqb y x then v else e y.
(** Variables, what is still to be received, what was sent. *)
Fixpoint run_stmts (l : list stmt) e (received sent : list V) : option ((text -> V) * list V * list V) :=
  match l with
  | [] => Some (e, received, sent)
  | Put x :: l' => run_stmts l' e received (sent ++ [e x])
  | Get x :: l' => match received with v :: received' => run_stmts l' (assign e x v) received' sent | [] => None end
  end.

Lemma run_puts xs e received sent : run_stmts (Put <$> xs) e received sent = Some (e, received, sent ++ (e <$> xs)).
Proof.
  revert sent. induction xs as [|x xs IH]; intros sent; cbn; [by rewrite app_nil_r|].
  rewrite IH. by rewrite <- app_assoc.
Qed.

Lemma run_gets xs e g sent : exists e',
  run_stmts (Get <$> xs) e (g <$> xs) sent = Some (e', [], sent) /\
  (forall x, x ∈ xs -> e' x = g x) /\ (forall x, x ∉ xs -> e' x = e x).
Proof.
  revert e. induction xs as [|x xs IH]; intros e; cbn.
  - exists e. split; [done|]. split; [by intros x ?%not_elem_of_nil|done].
  - destruct (IH (assign e x (g x))) as (e' & -> & Hin & Hout). exists e'. split; [done|]. split.
    + intros y [->|Hy]%elem_of_cons; [|by apply Hin].
      destruct (decide (x ∈ xs)) as [Hx|Hx]; [by apply Hin|]. rewrite Hout by done.
      unfold assign, text_eqb. by rewrite bool_decide_true.
    + intros y [Hyx Hy]%not_elem_of_cons. rewrite Hout by done. unfold assign, text_eqb. by rewrite bool_decide_false.
Qed.
End Run.

(** ** Lines *)
Lemma starts_with_elem p l c : starts_with p l = true -> c ∈ p -> c ∈ l.
Proof. intros [k ->]%starts_with_prefix ?. apply elem_of_app. by left. Qed.

Lemma call_of_without p l c : c ∈ p -> c ∉ l -> call_of p l = None.
Proof.
  intros Hp Hl. unfold call_of. destruct (starts_with p l) eqn:E; [|done].
  exfalso. apply Hl. by eapply starts_with_elem.
Qed.

Lemma find_close x r : ")"%char ∉ x -> find_text (str ");") (x ++ str ");" ++ r) = Some (length x).
Proof.
  induction x as [|c x IH]; intros Hx; [done|].
  apply not_elem_of_cons in Hx as [Hc Hx].
  change (find_text (str ");") (c :: (x ++ str ");" ++ r)) = Some (S (length x))).
  cbn [find_text]. rewrite IH by done.
  change (starts_with (str ");") (c :: (x ++ str ");" ++ r))) with (char_eqb ")" c && starts_with (str ";") (x ++ str ");" ++ r)).
  unfold char_eqb. by rewrite bool_decide_false.
Qed.

Lemma call_of_line p x r : ")"%char ∉ x -> call_of p (p ++ x ++ str ");" ++ r) = Some x.
Proof.
  intros Hx. unfold call_of. rewrite starts_with_app, drop_app_length, find_close by done.
  cbn. by rewrite take_app_length.
Qed.

(** ** The switch *)
Lemma case_of_line p n r : ":"%char ∉ n -> case_of p (p ++ n ++ ":"%char :: r) = Some n.
Proof.
  intros Hn. unfold case_of. rewrite starts_with_app, drop_app_length, span_app; [done| |done].
  apply forallb_forall. intros c Hc%list_elem_of_In. apply negb_true_iff, char_eqb_neq. by intros ->.
Qed.

Lemma after_case_skip p n ls rest :
  Forall (fun l => case_of p l <> Some n) ls -> after_case p n (ls ++ rest) = after_case p n rest.
Proof. induction 1 as [|l ls Hl _ IH]; [done|]. change (after_case p n (l :: (ls ++ rest)) = after_case p n rest). cbn. by rewrite bool_decide_false. Qed.

Lemma up_to_app e ls rest : Forall (fun l => l <> e) ls -> up_to e (ls ++ e :: rest) = ls.
Proof.
  induction 1 as [|l ls Hl _ IH].
  - cbn. unfold text_eqb. by rewrite bool_decide_true.
  - change (up_to e (l :: (ls ++ e :: rest)) = l :: ls). cbn. unfold text_eqb at 1. by rewrite bool_decide_false, IH.
Qed.

(** Lines that are indented by [n] tabs. *)
Definition indented (n : nat) (l : text) : Prop := exists r, l = t n ++ r.
Lemma indented_case n m k l : indented (S (n + m)) l -> case_of (t n ++ str "case ") l <> Some k.
Proof.
  intros [r ->]. unfold case_of. destruct (starts_with _ _) eqn:E; [|done]. exfalso.
  apply starts_with_prefix in E as [r' E]. unfold t in E. rewrite <- app_assoc in E.
  change (S (n + m)) with (1 + n + m) in E. replace (1 + n + m) with (n + (1 + m)) in E by lia.
  rewrite replicate_add, <- app_assoc in E. by apply app_inv_head in E.
Qed.
Lemma indented_close n m c s l : indented (S (n + m)) l -> c <> tab -> l <> t n ++ (c :: s).
Proof.
  intros [r ->] Hc E. unfold t in E. replace (S (n + m)) with (n + (1 + m)) in E by lia.
  rewrite replicate_add, <- app_assoc in E. apply app_inv_head in E. injection E. congruence.
Qed.

Definition function_head class_name function_no (f : FunctionSignature) : text :=
  t 4 ++ str "case " ++ show function_no ++ str ": { // " ++ class_name ++ str "::" ++ fs_name f.
Definition function_call class_name (f : FunctionSignature) : text :=
  t 5 ++ (if is_void f then [] else return_type f ++ str " function_call_result = ")
    ++ str "d->" ++ (if is_virtual f then fs_name f else class_name ++ str "::" ++ fs_name f)
    ++ str "(" ++ names (fs_arguments f) ++ str ");".
Definition function_puts (f : FunctionSignature) : list text :=
  [send_put (str "saftbus::FunctionResult::RETURN")] ++ (send_put <$> outputs f)
  ++ (if is_void f then [] else [send_put (str "function_call_result")]).
Definition function_body class_name (f : FunctionSignature) (declarations : list text) : list text :=
  (declarations ++ (received_get <$> inputs f)) ++ function_call class_name f :: function_puts f.

Lemma service_function_shape class_name function_no f lines : service_function class_name function_no f = Ret lines ->
  exists declarations, declare_arguments (fs_arguments f) = Ret declarations /\
    lines = function_head class_name function_no f :: function_body class_name f declarations ++ [t 4 ++ str "} return;"].
Proof.
  unfold service_function. destruct (declare_arguments _) as [ds| |] eqn:E; [|done..].
  intros [= <-]. exists ds. split; [done|]. unfold function_body, function_puts.
  by rewrite <- !app_assoc; cbn [app]; rewrite <- !app_assoc.
Qed.

Lemma declarations_shape args ds : declare_arguments args = Ret ds ->
  Forall2 (fun a d => exists type, plain_type (fa_type a) = Ret type /\ d = t 5 ++ type ++ str " " ++ fa_name a ++ str ";") args ds.
Proof.
  revert ds. induction args as [|a args IH]; intros ds; cbn; [intros [= <-]; constructor|].
  destruct (plain_type (fa_type a)) as [ty| |] eqn:E; [|done..]. cbn.
  destruct (declare_arguments args) as [rest| |]; [|done..]. cbn. intros [= <-]. constructor; eauto.
Qed.

Lemma function_body_indented class_name f ds : declare_arguments (fs_arguments f) = Ret ds ->
  Forall (indented 5) (function_body class_name f ds).
Proof.
  intros Hds%declarations_shape. unfold function_body, function_puts. repeat (apply Forall_app_2 || apply Forall_cons_2).
  - induction Hds as [|a d args ds (ty & _ & ->)]; constructor; [by eexists|done].
  - apply Forall_fmap, Forall_true. intros x. by eexists.
  - by eexists.
  - by eexists.
  - constructor.
  - apply Forall_fmap, Forall_true. intros x. by eexists.
  - case_match; [constructor|]. apply Forall_singleton. by eexists.
Qed.

Lemma indented_less n m l : indented (n + m) l -> indented n l.
Proof. intros [r ->]. exists (t m ++ r). unfold t. by rewrite replicate_add, app_assoc. Qed.

Lemma service_function_indented class_name function_no f lines : service_function class_name function_no f = Ret lines ->
  Forall (indented 4) lines.
Proof.
  intros (ds & Hds & ->)%service_function_shape. constructor; [by eexists|]. apply Forall_app_2.
  - eapply Forall_impl; [by apply function_body_indented|]. intros l. by apply (indented_less 4 1).
  - apply Forall_singleton. by eexists.
Qed.

Lemma service_functions_indented class_name n fs lines : service_functions class_name n fs = Ret lines ->
  Forall (indented 4) lines.
Proof.
  revert n lines. induction fs as [|f fs IH]; intros n lines; cbn; [intros [= <-]; constructor|].
  destruct (service_function class_name n f) as [block| |] eqn:E; [|done..]. cbn.
  destruct (service_functions class_name (S n) fs) as [rest| |] eqn:E'; [|done..]. intros [= <-].
  apply Forall_app_2; [by eapply service_function_indented|by eapply IH].
Qed.

Lemma head_case class_name n f k : case_of (t 4 ++ str "case ") (function_head class_name n f) = Some k -> k = show n.
Proof.
  unfold function_head. rewrite app_assoc.
  change (str ": { // ") with (":"%char :: str " { // "). rewrite <- !app_comm_cons, case_of_line; [congruence|].
  by apply show_without.
Qed.

Lemma function_case class_name n fs lines j f : service_functions class_name n fs = Ret lines -> fs !! j = Some f ->
  exists ds rest, declare_arguments (fs_arguments f) = Ret ds /\
    after_case (t 4 ++ str "case ") (show (n + j)) lines = Some (function_body class_name f ds ++ (t 4 ++ str "} return;") :: rest).
Proof.
  revert n lines j. induction fs as [|f' fs IH]; intros n lines j; cbn; [done|].
  destruct (service_function class_name n f') as [block| |] eqn:E; [|done..]. cbn.
  destruct (service_functions class_name (S n) fs) as [rest| |] eqn:E'; [|done..]. intros [= <-].
  apply service_function_shape in E as (ds & Hds & ->).
  destruct j as [|j]; cbn [lookup list_lookup].
  - intros [= <-]. exists ds, rest. split; [done|]. rewrite Nat.add_0_r. cbn [app after_case].
    rewrite bool_decide_true.
    + by rewrite <- app_assoc.
    + unfold function_head. rewrite (app_assoc (t 4)).
      change (str ": { // ") with (":"%char :: str " { // "). rewrite <- app_comm_cons. apply case_of_line. by apply show_without.
  - intros Hj. destruct (IH (S n) rest j E' Hj) as (ds' & rest' & Hds' & Hcase). exists ds', rest'. split; [done|].
    rewrite Nat.add_succ_r. rewrite after_case_skip; [done|].
    constructor; [intros Hk%head_case; apply show_inj in Hk; lia|]. apply Forall_app_2.
    + eapply Forall_impl; [by apply function_body_indented|]. intros l. by apply (indented_case 4 0).
    + by apply Forall_singleton.
Qed.

Lemma interface_case cs n lines i c : service_interfaces n cs = Ret lines -> cs !! i = Some c ->
  exists functions rest, service_functions (cd_name c) 0 (exportedfunctions c) = Ret functions /\
    after_case (t 3 ++ str "case ") (show (n + i)) lines = Some ((t 3 ++ str "switch(function_no) {") :: functions ++ (t 3 ++ str "};") :: rest).
Proof.
  revert n lines i. induction cs as [|c' cs IH]; intros n lines i; cbn; [done|].
  destruct (service_functions (cd_name c') 0 _) as [functions| |] eqn:E; [|done..]. cbn.
  destruct (service_interfaces (S n) cs) as [rest| |] eqn:E'; [|done..]. intros [= <-].
  assert (forall k, case_of (t 3 ++ str "case ") (t 3 ++ str "case " ++ show n ++ str ": // " ++ cd_name c') = Some k <-> k = show n) as Hhead.
  { intros k. rewrite (app_assoc (t 3)). change (str ": // ") with (":"%char :: str " // ").
    rewrite <- app_comm_cons, case_of_line by (by apply show_without). naive_solver. }
  destruct i as [|i]; cbn [lookup list_lookup].
  - intros [= <-]. exists functions, rest. split; [done|]. rewrite Nat.add_0_r. cbn [after_case].
    rewrite bool_decide_true by (by apply Hhead). done.
  - intros Hi. destruct (IH (S n) rest i E' Hi) as (fs' & rest' & Hfs' & Hcase). exists fs', rest'. split; [done|].
    rewrite Nat.add_succ_r. etrans; [|exact Hcase].
    change (after_case ?p ?k ((?a :: ?b :: functions ++ ?d :: rest))) with (after_case p k (([a; b] ++ functions ++ [d] ++ rest))).
    rewrite !app_assoc, after_case_skip; [done|]. rewrite <- !app_assoc. repeat apply Forall_cons_2.
    + intros Hk%Hhead. apply show_inj in Hk. lia.
    + done.
    + apply Forall_app_2; [|by apply Forall_singleton].
      eapply Forall_impl; [by eapply service_functions_indented|]. intros l. by apply (indented_case 3 0).
Qed.

Lemma service_case_body cs lines i j c f :
  service_interfaces 0 cs = Ret lines -> cs !! i = Some c -> exportedfunctions c !! j = Some f ->
  exists ds, declare_arguments (fs_arguments f) = Ret ds /\ service_case i j lines = Some (function_body (cd_name c) f ds).
Proof.
  intros Hlines Hi Hj. destruct (interface_case cs 0 lines i c Hlines Hi) as (fs & rest & Hfs & Hcase).
  destruct (function_case (cd_name c) 0 _ fs j f Hfs Hj) as (ds & rest' & Hds & Hcase'). exists ds. split; [done|].
  unfold service_case. cbn [Nat.add] in Hcase. rewrite Hcase. cbn [mbind option_bind].
  rewrite app_comm_cons, up_to_app.
  - change (?l :: fs) with ([l] ++ fs). rewrite after_case_skip by (by apply Forall_singleton). cbn [Nat.add] in Hcase'. rewrite Hcase'. cbn [mbind option_bind].
    f_equal. apply up_to_app. eapply Forall_impl; [by apply function_body_indented|]. intros l Hl. by apply (indented_close 4 0).
  - constructor; [done|]. eapply Forall_impl; [by eapply service_functions_indented|]. intros l Hl. by apply (indented_close 3 0).
Qed.

(** ** The statements of a function's two halves *)
Definition lacks (c : ascii) (l : text) : bool := forallb (fun d => negb (char_eqb c d)) l.
Lemma lacks_elem c l : lacks c l = true -> c ∉ l.
Proof.
  intros H Hc%list_elem_of_In. unfold lacks in H. rewrite forallb_forall in H. apply H in Hc.
  by apply negb_true_iff, char_eqb_neq in Hc.
Qed.

Definition function_result_ : text := str "function_result_".
Definition return_value_result_ : text := str "return_value_result_".
Definition wf_argument (a : FunctionArgument) : bool :=
  lacks ")" (fa_name a) && lacks "." (fa_name a) && lacks "." (fa_type a)
  && negb (text_eqb (fa_name a) function_result_) && negb (text_eqb (fa_name a) return_value_result_).
Definition wf_function (f : FunctionSignature) : bool :=
  forallb wf_argument (fs_arguments f) && lacks "." (return_type f)
  && match return_type f with c :: _ => negb (char_eqb c tab) | [] => true end.

Definition good_name (x : text) : Prop := (")"%char ∉ x) /\ x <> function_result_ /\ x <> return_value_result_.
Lemma wf_argument_spec a : wf_argument a = true -> good_name (fa_name a) /\ ("."%char ∉ fa_name a) /\ ("."%char ∉ fa_type a).
Proof.
  unfold wf_argument, good_name, text_eqb. rewrite !andb_true_iff, !negb_true_iff, !bool_decide_eq_false.
  intros [[[[?%lacks_elem ?%lacks_elem] ?%lacks_elem] ?] ?]. done.
Qed.
Lemma wf_names f (b : FunctionArgument -> bool) : wf_function f = true ->
  Forall good_name (fa_name <$> List.filter b (fs_arguments f)).
Proof.
  unfold wf_function. rewrite !andb_true_iff, forallb_forall. intros [[H _] _].
  apply Forall_fmap, Forall_forall. intros a [Ha _]%list_elem_of_In%filter_In. by apply wf_argument_spec, H.
Qed.

Lemma omap_lines {A B C} (r : B -> option C) (g : A -> B) (h : A -> C) (xs : list A) :
  Forall (fun x => r (g x) = Some (h x)) xs -> omap r (g <$> xs) = h <$> xs.
Proof. induction 1 as [|x xs Hx _ IH]; cbn; [done|]. rewrite Hx. by f_equal. Qed.
Lemma omap_nothing {B C} (r : B -> option C) (ls : list B) : Forall (fun l => r l = None) ls -> omap r ls = [].
Proof. induction 1 as [|l ls Hl _ IH]; cbn; [done|]. by rewrite Hl. Qed.

Lemma read_put puts gets x : ")"%char ∉ x -> read_stmt puts gets (puts ++ x ++ str ");") = Some (Put x).
Proof. intros Hx. unfold read_stmt. by rewrite <- (app_nil_r (str ");")), call_of_line. Qed.
Lemma read_get puts gets x : ")"%char ∉ x -> call_of puts (gets ++ x ++ str ");") = None ->
  read_stmt puts gets (gets ++ x ++ str ");") = Some (Get x).
Proof. intros Hx Hp. unfold read_stmt. by rewrite Hp, <- (app_nil_r (str ");")), call_of_line. Qed.

Lemma plain_type_elem ty ty' c : plain_type ty = Ret ty' -> c ∉ ty -> c ∉ ty'.
Proof.
  unfold plain_type. intros H Hc.
  assert (forall u, (forall d, d ∈ u -> d ∈ ty) ->
    (match find_text (str "const") u with
     | Some i => if length u <? i + 6 then Throw OtherException else Ret (drop (i + 6) u)
     | None => Ret u
     end) = Ret ty' -> c ∉ ty') as Hu.
  { intros u Hu. destruct (find_text _ u) as [n|]; [destruct (_ <? _); [done|]|]; intros [= <-] Hin; apply Hc, Hu; [|done].
    by eapply subseteq_drop. }
  apply (Hu (match find_char "&" ty with Some i => take i ty | None => ty end)); [|exact H].
  intros d. destruct (find_char "&" ty); [apply subseteq_take|done].
Qed.

Lemma dot_elem (p : text) : bool_decide (("."%char : ascii) ∈ p) = true -> ("."%char : ascii) ∈ p.
Proof. apply bool_decide_eq_true. Qed.

Lemma service_gets f ds : wf_function f = true -> declare_arguments (fs_arguments f) = Ret ds ->
  service_stmts (ds ++ (received_get <$> inputs f)) = Get <$> inputs f.
Proof.
  intros Hf Hds%declarations_shape. unfold service_stmts. rewrite omap_app, omap_nothing, omap_lines with (h := Get); [done| |].
  - eapply Forall_impl; [by apply wf_names|]. intros x [Hx _]. unfold received_get.
    rewrite (app_assoc (t 5)). by apply read_get.
  - unfold wf_function in Hf. rewrite !andb_true_iff, forallb_forall in Hf. destruct Hf as [[Hf _] _].
    induction Hds as [|a d args ds (ty & Hty & ->) _ IH]; constructor; [|apply IH; intros a' Ha'; apply Hf; by right].
    destruct (wf_argument_spec a (Hf a ltac:(by left))) as (_ & Hname & Htype).
    assert ("."%char ∉ t 5 ++ ty ++ str " " ++ fa_name a ++ str ";") as Hl.
    { pose proof (plain_type_elem _ _ _ Hty Htype). rewrite !not_elem_of_app. repeat split; try done; by apply lacks_elem. }
    unfold read_stmt. by rewrite !(call_of_without _ _ "."%char) by first [exact Hl|by apply dot_elem].
Qed.

Definition reply_names (f : FunctionSignature) (head value : text) : list text :=
  head :: outputs f ++ (if is_void f then [] else [value]).
Definition call_result : text := str "function_call_result".
Definition RETURN : text := str "saftbus::FunctionResult::RETURN".

Lemma service_puts f : wf_function f = true ->
  service_stmts (function_puts f) = Put <$> reply_names f RETURN call_result.
Proof.
  intros Hf. unfold function_puts, reply_names, service_stmts. rewrite !omap_app, omap_lines with (h := Put).
  - cbn [fmap list_fmap]. rewrite fmap_app. by destruct (is_void f).
  - eapply Forall_impl; [by apply wf_names|]. intros x [Hx _]. unfold send_put. rewrite (app_assoc (t 5)). by apply read_put.
Qed.

(** The two halves of a proxy's function. *)
Definition proxy_head name (f : FunctionSignature) : list text :=
  [t 1 ++ return_type f ++ str " " ++ name ++ str "_Proxy::" ++ fs_name f ++ str "("
     ++ definitions (str ", ") (fs_arguments f) ++ t 1 ++ str ") {";
   t 2 ++ str "std::lock_guard<rtpi::mutex> lock(get_proxy_mutex());"].
Definition proxy_marshal name function_no (f : FunctionSignature) : list text :=
  proxy_head name f
  ++ [get_send_put (str "get_saftbus_object_id()"); get_send_put (str "interface_no");
      get_send_put (show function_no) ++ str " // function_no"]
  ++ (get_send_put <$> inputs f).
Definition proxy_exchange : text := t 2 ++ str "get_connection().atomic_send_and_receive(get_send(), get_received());".
Definition proxy_unmarshal (f : FunctionSignature) : list text :=
  [t 2 ++ str "saftbus::FunctionResult function_result_;";
   get_received_get function_result_;
   t 2 ++ str "if (function_result_ == saftbus::FunctionResult::EXCEPTION) {";
   t 3 ++ str "std::string what;";
   t 3 ++ str "get_received().get(what);";
   t 3 ++ str "throw saftbus::Error(what);";
   t 2 ++ str "}";
   t 2 ++ str "assert(function_result_ == saftbus::FunctionResult::RETURN);"]
  ++ (get_received_get <$> outputs f)
  ++ (if is_void f then []
      else [t 2 ++ return_type f ++ str " return_value_result_;"; get_received_get return_value_result_;
            t 2 ++ str "return return_value_result_;"])
  ++ [t 1 ++ str "}"].

Lemma proxy_function_halves name function_no f :
  proxy_function name function_no f = proxy_marshal name function_no f ++ proxy_exchange :: proxy_unmarshal f.
Proof. unfold proxy_function, proxy_marshal, proxy_unmarshal, proxy_head. by rewrite <- !app_assoc. Qed.

Lemma proxy_puts name function_no f : wf_function f = true ->
  proxy_stmts (proxy_marshal name function_no f)
  = Put <$> (str "get_saftbus_object_id()" :: str "interface_no" :: show function_no :: inputs f).
Proof.
  intros Hf. unfold proxy_marshal, proxy_stmts. rewrite !omap_app, omap_nothing; cbn [app].
  - rewrite (omap_lines _ _ Put (inputs f)).
    + assert (get_send_put (show function_no) ++ str " // function_no"
              = (t 2 ++ str "get_send().put(") ++ show function_no ++ str ");" ++ str " // function_no") as ->
        by (unfold get_send_put; by rewrite <- !app_assoc).
      cbn [omap list_omap]. unfold read_stmt at 3. by rewrite call_of_line by (by apply show_without).
    + eapply Forall_impl; [by apply wf_names|]. intros x [Hx _]. unfold get_send_put. rewrite (app_assoc (t 2)). by apply read_put.
  - constructor; [|by apply Forall_singleton].
    unfold wf_function in Hf. rewrite !andb_true_iff in Hf. destruct Hf as [_ Hf].
    destruct (return_type f) as [|c r]; [done|]. apply negb_true_iff, char_eqb_neq in Hf.
    unfold read_stmt, call_of. cbn [app t replicate starts_with str String.list_ascii_of_string].
    unfold char_eqb. rewrite !(bool_decide_false (tab = c)) by congruence. by rewrite andb_false_r.
Qed.

Lemma proxy_gets f : wf_function f = true ->
  proxy_stmts (proxy_unmarshal f) = Get <$> reply_names f function_result_ return_value_result_.
Proof.
  intros Hf. unfold proxy_unmarshal, reply_names, proxy_stmts. rewrite !omap_app, (omap_lines _ _ Get (outputs f)).
  - cbn [fmap list_fmap]. rewrite fmap_app. change (omap ?r [t 1 ++ str "}"]) with (@nil stmt). rewrite app_nil_r.
    change (omap ?r ?l) with [Get function_result_] at 1. cbn [app]. do 2 f_equal.
    destruct (is_void f); [done|]. cbn [omap list_omap].
    unfold wf_function in Hf. rewrite !andb_true_iff in Hf. destruct Hf as [[_ Hf%lacks_elem] _].
    assert (("."%char : ascii) ∉ t 2 ++ return_type f ++ str " return_value_result_;") as Hl.
    { rewrite !not_elem_of_app. repeat split; try done; by apply lacks_elem. }
    unfold read_stmt at 1. by rewrite !(call_of_without _ _ "."%char) by first [exact Hl|by apply dot_elem].
  - eapply Forall_impl; [by apply wf_names|]. intros x [Hx _]. unfold get_received_get. rewrite (app_assoc (t 2)). by apply read_get.
Qed.

(** C9: A function of an exported class called through the generated proxy: the proxy's text sends object, interface
    and function number and then its input arguments; the service's [switch] leads for these numbers to a block that
    receives exactly these arguments, calls the function with all of them, and sends the output arguments and the
    result, which are what the proxy receives; nothing is left over in either message.  So after the call the proxy's
    output arguments and result have the values that the call gave them in the service. *)
Theorem stubs_agree (cs : list ClassDefinition) lines i j c f {V} (proxy_values service_values : text -> V)
    (called : (text -> V) -> text -> V) :
  service_interfaces 0 cs = Ret lines -> cs !! i = Some c -> exportedfunctions c !! j = Some f -> wf_function f = true ->
  exists marshal unmarshal gets puts request values reply results,
    proxy_function (cd_name c) j f = marshal ++ proxy_exchange :: unmarshal /\
    service_case i j lines = Some (gets ++ function_call (cd_name c) f :: puts) /\
    run_stmts (proxy_stmts marshal) proxy_values [] [] =
      Some (proxy_values, [], proxy_values (str "get_saftbus_object_id()") :: proxy_values (str "interface_no")
                              :: proxy_values (show j) :: request) /\
    run_stmts (service_stmts gets) service_values request [] = Some (values, [], []) /\
    (forall x, x ∈ inputs f -> values x = proxy_values x) /\
    run_stmts (service_stmts puts) (called values) [] [] = Some (called values, [], reply) /\
    run_stmts (proxy_stmts unmarshal) proxy_values reply [] = Some (results, [], []) /\
    results function_result_ = called values RETURN /\
    (forall x, x ∈ outputs f -> results x = called values x) /\
    (is_void f = false -> results return_value_result_ = called values call_result).
Proof.
  intros Hlines Hi Hj Hf. destruct (service_case_body _ _ _ _ _ _ Hlines Hi Hj) as (ds & Hds & Hcase).
  destruct (run_gets (inputs f) service_values proxy_values []) as (values & Hgets & Hvalues & _).
  set (g := fun x => if text_eqb x function_result_ then called values RETURN
                     else if text_eqb x return_value_result_ then called values call_result else called values x).
  assert (forall x, x ∈ outputs f -> g x = called values x) as Hg.
  { intros x Hx. pose proof (wf_names f is_output Hf) as Hnames. rewrite Forall_forall in Hnames.
    destruct (Hnames x Hx) as (_ & ? & ?). unfold g, text_eqb. by rewrite !bool_decide_false. }
  assert (called values <$> reply_names f RETURN call_result = g <$> reply_names f function_result_ return_value_result_) as Hreply.
  { unfold reply_names. cbn [fmap list_fmap]. f_equal. rewrite !fmap_app. f_equal; [|by destruct (is_void f)].
    apply list_fmap_ext. intros k x Hx. symmetry. apply Hg. by eapply list_elem_of_lookup_2. }
  destruct (run_gets (reply_names f function_result_ return_value_result_) proxy_values g []) as (results & Hresults & Hin & _).
  exists (proxy_marshal (cd_name c) j f), (proxy_unmarshal f), (ds ++ (received_get <$> inputs f)), (function_puts f),
    (proxy_values <$> inputs f), values, (g <$> reply_names f function_result_ return_value_result_), results.
  rewrite proxy_puts, service_gets, service_puts, proxy_gets, !run_puts by done.
  split_and!; [apply proxy_function_halves|done|done|done|done|by rewrite Hreply|done| | |].
  - rewrite Hin by (by left). done.
  - intros x Hx. rewrite Hin; [by apply Hg|]. apply list_elem_of_further, elem_of_app. by left.
  - intros Hv. rewrite Hin; [done|]. unfold reply_names. rewrite Hv. apply list_elem_of_further, elem_of_app. right. by left.
Qed.

Module GeneratorDemo.
Definition header : list text := str <$>
  ["#ifndef FOO_HPP"; "#define FOO_HPP"; "namespace ns {"; "/// a base class"; "class Base {"; "public:";
   "  // @saftbus-export"; "  void f(int a, std::string &b);"; "};"; "class Foo : public Base"; "{";
   "  // @saftbus-export"; "  virtual int g(const std::string &x = 5, int &y"; "  );"; "  // @saftbus-export";
   "  sigc::signal<void, int, std::vector<int>> sig;"; "}; "; "}"; "#endif"]%string.
Definition parsed : outcome (list ClassDefinition) :=
  s ← cpp_parser (fun _ => Some header) [] 3 (str "Foo.hpp") Shared0; finalize_all (classes s).
Definition classes_ : list ClassDefinition := Eval vm_compute in match parsed with Ret l => l | _ => [] end.
Definition text_of (l : outcome (list text)) : list text := match l with Ret l => l | _ => [] end.
Definition service_text : list text := Eval vm_compute in text_of (service_interfaces 0 (reverse classes_)).

(** Class [Foo] and its base, as the parser finds them. *)
Example parsed_classes :
  parsed = Ret classes_ /\ (cd_name <$> classes_) = [str "Base"; str "Foo"] /\ (all_bases <$> classes_) = [[]; [0]] /\
  (fs_name <$> (classes_ ≫= exportedfunctions)) = [str "f"; str "g"] /\
  (cd_scope <$> classes_) = [str "ns::Base"; str "ns::Foo"].
Proof. by vm_compute. Qed.

Definition g_function : FunctionSignature := default (mkFunction [] [] false [] [] []) ((classes_ ≫= exportedfunctions) !! 1).
(** Values are texts; the function is called. *)
Definition call_g (e : text -> text) : text -> text := fun x =>
  if text_eqb x call_result then e (str "x") ++ str "!" else if text_eqb x (str "y") then str "out" else e x.

Lemma stubs_agree_witness :
  wf_function g_function = true /\ inputs g_function = [str "x"] /\ outputs g_function = [str "y"] /\
  exists marshal unmarshal gets puts request values reply results,
    proxy_function (str "Foo") 0 g_function = marshal ++ proxy_exchange :: unmarshal /\
    service_case 0 0 service_text = Some (gets ++ function_call (str "Foo") g_function :: puts) /\
    run_stmts (service_stmts gets) (fun x => x) request [] = Some (values, [], []) /\
    run_stmts (service_stmts puts) (call_g values) [] [] = Some (call_g values, [], reply) /\
    run_stmts (proxy_stmts unmarshal) (fun x => x) reply [] = Some (results, [], []) /\
    results (str "y") = str "out" /\ results return_value_result_ = str "x!".
Proof.
  split; [by vm_compute|]. split; [by vm_compute|]. split; [by vm_compute|].
  destruct (stubs_agree (reverse classes_) service_text 0 0 (default (class_at [] 0) (classes_ !! 1)) g_function
    (fun x => x) (fun x => x) call_g)
    as (marshal & unmarshal & gets & puts & request & values & reply & results & Hp & Hcase & _ & Hgets & Hin & Hreply & Hres & _ & Hout & Hret);
    [by vm_compute..|].
  exists marshal, unmarshal, gets, puts, request, values, reply, results. split_and!; try done.
  - rewrite (Hout (str "y")) by (by left). by vm_compute.
  - rewrite Hret by (by vm_compute). unfold call_g, text_eqb. rewrite bool_decide_true by done.
    by rewrite (Hin (str "x")) by (by left).
Defined.

(** What follows from the comments and line ends that the parser does not expect: the
    code before a comment is lost, *)
Example comment_truncates : remove_line_comments (str "class A { // a class") Comments0
  = Ret (NO_EXPORT, str "c", mkComments [] [str "class A { // a class"] true).
Proof. by vm_compute. Qed.
(** a line that ends behind the word class is read beyond its end, and would be the
    previous class once more, *)
Example class_at_the_end : manage_scopes (str "class") (mkScopes [] [] Comments0) = Crash "line[i]".
Proof. by vm_compute. Qed.
Example class_added_twice :
  match class_line [] (set_class (str " A {") false Parser0) Shared0 with Ret (_, s) => cd_name <$> classes s | _ => [] end = [str "A"].
Proof. by vm_compute. Qed.
(** and an indented empty line behind a tag is not handled. *)
Example blank_behind_tag :
  (s ← cpp_parser (fun _ => Some (str <$> ["class A {"; " // @saftbus-export"; " "; " void f();"; "};"]%string)) [] 1 (str "a.hpp") Shared0;
   mret (cd_name <$> classes s)) = Crash "strip: line[stop]".
Proof. by vm_compute. Qed.
(** A class in the global namespace. *)
Example global_namespace : namespace_of (mkClass (str "A") (str "A") [] [] [] [] [] [] [] []) = str "A".
Proof. by vm_compute. Qed.
(** The bases of a proxy when the first base has no exports. *)
Example comma_before_bases :
  let base name fs := mkClass (str "ns::" ++ name) name [] [] [] [] fs [] [] [] in
  proxy_bases [base (str "Plain") []; base (str "Base") [mkFunction [] (str "f") false (str "void") [] []]] 0 [0; 1]
  = Ret (1, str ", public  Base_Proxy ").
Proof. by vm_compute. Qed.
End GeneratorDemo.
