(* ===== verification/Streams.v ===== *)
(** * Streams of numbers: what the tools use of [std::istream] and of [strtoull]

    [in >> n] for unsigned numbers in base 10 and 16 with the state of the stream:
    once an extraction has failed the following ones leave their variables as they
    are.  Lines as [std::getline] makes them. *)
From S2P Require Import Prelude Helpers Texts.
From Stdlib Require Import Strings.Ascii.
Local Open Scope Z_scope.

(** ** Digits *)

(** Letters of both cases. *)
Definition digit_of (c : ascii) : Z :=
  let n := Z.of_nat (nat_of_ascii c) in
  if (48 <=? n) && (n <=? 57) then n - 48
  else if (97 <=? n) && (n <=? 102) then n - 87
  else if (65 <=? n) && (n <=? 70) then n - 55 else 99.
Definition radix_value (base : Z) (c : ascii) : option Z :=
  if digit_of c <? base then Some (digit_of c) else None.
Definition is_radix (base : Z) (c : ascii) : bool := if radix_value base c is Some _ then true else false.
Definition radix_number (base : Z) (ds : text) : Z :=
  foldl (fun n c => n * base + default 0 (radix_value base c)) 0 ds.

Definition is_x (c : ascii) : bool := char_eqb c "x" || char_eqb c "X".
(** [0x] in front of hexadecimal digits *)
Definition drop_0x (l : text) : text :=
  match l with
  | z :: x :: l' => if char_eqb z "0" && is_x x then l' else l
  | _ => l
  end.
(** A sign: is the number negated? *)
Definition read_sign (l : text) : bool * text :=
  match l with
  | c :: l' => if char_eqb c "-" then (true, l') else if char_eqb c "+" then (false, l') else (false, l)
  | [] => (false, [])
  end.

(** ** Extraction

    [failbit], and what has not been read.  The end of the text needs no flag of its
    own: the next extraction finds nothing and fails. *)
Record istream := mkStream { failbit : bool; unread : text }.

(** [in >> n] where [n] has [w] bits: without digits it becomes 0, out of range the
    largest number; both set [failbit].  A stream that has failed, or that is at its
    end, leaves [n] as it is. *)
Definition extract (base w old : Z) (s : istream) : Z * istream :=
  if failbit s then (old, s)
  else
    match skip_spaces (unread s) with
    | [] => (old, mkStream true [])
    | l =>
        let '(negative, l) := read_sign l in
        match span (is_radix base) (if base =? 16 then drop_0x l else l) with
        | ([], rest) => (0, mkStream true rest)
        | (ds, rest) =>
            let n := radix_number base ds in
            if 2 ^ w <=? n then (2 ^ w - 1, mkStream true rest)
            else (if negative then unsigned_wrap w (- n) else n, mkStream false rest)
        end
    end.

(** ** [strtoull(s, &end, 0)], of 64 bits: number and what follows it.  Without digits
    [end] is [s]. *)
Definition scan_number (s : text) : option (bool * Z * text) :=
  let '(negative, l) := read_sign (skip_spaces s) in
  let '(base, l') :=
    match l with
    | z :: l1 =>
        if negb (char_eqb z "0") then (10, l)
        else match l1 with
             | x :: d :: _ => if is_x x && is_radix 16 d then (16, tail l1) else (8, l)
             | _ => (8, l)
             end
    | [] => (10, l)
    end in
  match span (is_radix base) l' with
  | ([], _) => None
  | (ds, rest) => Some (negative, radix_number base ds, rest)
  end.
Definition strtoull (s : text) : Z * text :=
  match scan_number s with
  | None => (0, s)
  | Some (negative, n, rest) => (if 2 ^ 64 <=? n then 2 ^ 64 - 1 else if negative then u64 (- n) else n, rest)
  end.
(** [strtoll]: out of range the nearest number. *)
Definition strtoll (s : text) : Z :=
  match scan_number s with
  | None => 0
  | Some (negative, n, _) => Z.max (- 2 ^ 63) (Z.min (2 ^ 63 - 1) (if negative then - n else n))
  end.

(** [atoi]: 0 without digits; out of range is undefined. *)
Definition atoi (l : text) : outcome Z :=
  let '(negative, l) := read_sign (skip_spaces l) in
  let n := radix_number 10 (fst (span (is_radix 10) l)) in
  let n := if negative then - n else n in
  if (- 2 ^ 31 <=? n) && (n <? 2 ^ 31) then Ret n else Crash "atoi".

(** ** Lines

    What [getline] gives one after the other: a last line without its newline counts
    unless it is empty. *)
Definition newline : ascii := ascii_of_nat 10.
Fixpoint lines_acc (line l : text) : list text :=
  match l with
  | [] => match line with [] => [] | _ => [reverse line] end
  | c :: l' => if char_eqb c newline then reverse line :: lines_acc [] l' else lines_acc (c :: line) l'
  end.
Definition lines (l : text) : list text := lines_acc [] l.

(** ** Lemmas *)
Lemma digit_of_digit n : 0 <= n < 16 -> digit_of (digit n) = n /\ is_space (digit n) = false /\ is_x (digit n) = false /\
  char_eqb (digit n) "-" = false /\ char_eqb (digit n) "+" = false.
Proof.
  intros Hn. rewrite <- (Z2Nat.id n) by lia. assert (Z.to_nat n < 16)%nat as Hk by lia.
  revert Hk. generalize (Z.to_nat n) as k. intros k Hk.
  do 16 (destruct k as [|k]; [split_and!; reflexivity|]). lia.
Qed.
Lemma radix_value_digit base n : 0 <= n < base -> base <= 16 -> radix_value base (digit n) = Some n.
Proof.
  intros Hn Hb. unfold radix_value. destruct (digit_of_digit n) as (-> & _); [lia|].
  by replace (n <? base) with true by (symmetry; apply Z.ltb_lt; lia).
Qed.

(** Everything that is printed in a base is read as digits, and has one at least. *)
Section Printed.
Context (base : Z) (Hbase : 2 <= base <= 16).
Abbreviation value := (foldl (fun n c => n * base + default 0 (radix_value base c))).

Lemma digits_acc_read fuel n acc a : 0 <= n < 2 ^ Z.of_nat fuel -> (0 < fuel)%nat ->
  exists k ds, 0 <= k /\ digits_acc fuel base n acc = ds ++ acc /\ Forall (fun c => exists d, c = digit d /\ 0 <= d < base) ds /\
    ds <> [] /\ value a ds = a * base ^ k + n.
Proof.
  revert n acc. induction fuel as [|fuel IH]; intros n acc Hn Hf; [lia|]. cbn [digits_acc].
  assert (0 <= n `mod` base < base) as Hm by (apply Z.mod_pos_bound; lia).
  destruct (Z.ltb_spec n base) as [Hlt|Hge].
  - exists 1, [digit (n mod base)]. split_and!; [lia|done|repeat constructor; eauto|done|]. cbn [foldl].
    rewrite radix_value_digit by lia. cbn. rewrite Z.mod_small, Z.pow_1_r by lia. done.
  - destruct fuel as [|fuel]; [change (2 ^ Z.of_nat 1) with 2 in Hn; lia|].
    destruct (IH (n / base) (digit (n `mod` base) :: acc)) as (k & ds & Hk & -> & Hds & Hne & E); [|lia|].
    { split; [apply Z.div_pos; lia|]. apply Z.div_lt_upper_bound; [lia|].
      rewrite (Nat2Z.inj_succ (S fuel)), Z.pow_succ_r in Hn by lia.
      assert (0 < 2 ^ Z.of_nat (S fuel)) by (apply Z.pow_pos_nonneg; lia). nia. }
    exists (k + 1), (ds ++ [digit (n mod base)]). split_and!; [lia|by rewrite <- app_assoc| |by destruct ds|].
    + apply Forall_app. split; [done|]. repeat constructor; eauto.
    + rewrite foldl_app, E. cbn [foldl]. rewrite radix_value_digit by lia. cbn [default].
      unfold id. rewrite Z.pow_add_r, Z.pow_1_r by lia. pose proof (Z.div_mod n base ltac:(lia)). nia.
Qed.

Lemma digits_read n : 0 <= n < 2 ^ 64 ->
  radix_number base (digits base n) = n /\ Forall (fun c => exists d, c = digit d /\ 0 <= d < base) (digits base n) /\ digits base n <> [].
Proof.
  intros Hn. destruct (digits_acc_read 64 n [] 0 Hn ltac:(lia)) as (k & ds & _ & E & Hds & Hne & Ev).
  unfold digits, radix_number. rewrite E, app_nil_r. split_and!; [|done|done]. by rewrite Ev.
Qed.
End Printed.

(** What may follow a word. *)
Definition ends_word (l : text) : Prop := match l with [] => True | c :: _ => is_space c = true end.

Lemma space_no_radix base c : base <= 16 -> is_space c = true -> is_radix base c = false /\ is_x c = false.
Proof.
  intros Hb Hc. assert (digit_of c = 99 /\ is_x c = false) as [E Ex].
  { destruct c as [[] [] [] [] [] [] [] []]; first [discriminate Hc | split; reflexivity]. }
  split; [|done]. unfold is_radix, radix_value. rewrite E. by replace (99 <? base) with false by (symmetry; apply Z.ltb_ge; lia).
Qed.
Lemma skip_spaces_replicate k l : skip_spaces (replicate k " "%char ++ l) = skip_spaces l.
Proof. induction k as [|k IH]; [done|exact IH]. Qed.
Lemma skip_spaces_word c l : is_space c = false -> skip_spaces (c :: l) = c :: l.
Proof. cbn. by intros ->. Qed.

(** What is printed begins with a digit and ends where the word ends. *)
Section PrintedWord.
Context (base n : Z) (rest : text) (Hbase : 2 <= base <= 16) (Hn : 0 <= n < 2 ^ 64) (Hrest : ends_word rest).

Lemma span_digits : span (is_radix base) (digits base n ++ rest) = (digits base n, rest).
Proof.
  destruct (digits_read base Hbase n Hn) as (_ & Hds & _). apply span_app.
  - apply forallb_forall. intros x Hx. apply list_elem_of_In in Hx. rewrite Forall_forall in Hds.
    destruct (Hds _ Hx) as (dx & -> & Hdx). unfold is_radix. by rewrite radix_value_digit by lia.
  - destruct rest as [|c1 l]; [done|]. by apply (space_no_radix base c1 ltac:(lia)).
Qed.
Lemma skip_spaces_digits : skip_spaces (digits base n ++ rest) = digits base n ++ rest.
Proof.
  destruct (digits_read base Hbase n Hn) as (_ & Hds & Hne). destruct (digits base n) as [|c ds]; [done|].
  apply Forall_cons in Hds as [(d & -> & Hd) _]. apply skip_spaces_word. apply digit_of_digit. lia.
Qed.
Lemma read_sign_digits : read_sign (digits base n ++ rest) = (false, digits base n ++ rest).
Proof.
  destruct (digits_read base Hbase n Hn) as (_ & Hds & Hne). destruct (digits base n) as [|c ds]; [done|].
  apply Forall_cons in Hds as [(d & -> & Hd) _]. destruct (digit_of_digit d) as (_ & _ & _ & Hm & Hp); [lia|].
  cbn [app read_sign]. by rewrite Hm, Hp.
Qed.
Lemma drop_0x_digits : drop_0x (digits base n ++ rest) = digits base n ++ rest.
Proof.
  destruct (digits_read base Hbase n Hn) as (_ & Hds & Hne). destruct (digits base n) as [|c ds]; [done|].
  assert (Forall (fun c => is_x c = false) ds) as Hx.
  { apply Forall_cons in Hds as [_ Hds]. eapply Forall_impl; [exact Hds|]. intros x (d & -> & Hd). apply digit_of_digit. lia. }
  cbn [app drop_0x]. destruct Hx as [|x ds Hx _]; cbn [app]; [|by rewrite Hx, andb_false_r].
  destruct rest as [|x l]; [done|]. destruct (space_no_radix base x ltac:(lia) Hrest) as [_ ->]. by rewrite andb_false_r.
Qed.
Lemma digits_not_empty : digits base n ++ rest <> [] /\ digits base n <> [].
Proof. destruct (digits_read base Hbase n Hn) as (_ & _ & Hne). by destruct (digits base n). Qed.
End PrintedWord.

(** The prefix that is allowed in front of a number. *)
Definition number_prefix (base : Z) (pre : text) : Prop := pre = [] \/ base = 16 /\ pre = str "0x".

Lemma extract_printed base w old n k pre rest : base = 10 \/ base = 16 -> w <= 64 -> number_prefix base pre ->
  0 <= n < 2 ^ w -> ends_word rest ->
  extract base w old (mkStream false (replicate k " "%char ++ pre ++ digits base n ++ rest)) = (n, mkStream false rest).
Proof.
  intros Hb Hw Hpre Hn Hrest. unfold extract. cbn [failbit unread]. rewrite skip_spaces_replicate.
  assert (0 <= n < 2 ^ 64) as Hn64.
  { split; [lia|]. apply Z.lt_le_trans with (2 ^ w); [lia|]. apply Z.pow_le_mono_r; lia. }
  assert (2 <= base <= 16) as Hbase by lia.
  assert (skip_spaces (pre ++ digits base n ++ rest) = pre ++ digits base n ++ rest) as ->.
  { destruct Hpre as [->|[_ ->]]; cbn [app]; [by apply skip_spaces_digits|reflexivity]. }
  assert (read_sign (pre ++ digits base n ++ rest) = (false, pre ++ digits base n ++ rest)) as Es.
  { destruct Hpre as [->|[_ ->]]; cbn [app]; [by apply read_sign_digits|reflexivity]. }
  assert ((if base =? 16 then drop_0x (pre ++ digits base n ++ rest) else pre ++ digits base n ++ rest) = digits base n ++ rest) as E.
  { destruct Hpre as [->|[-> ->]]; [|reflexivity]. cbn [app]. destruct (base =? 16); [by apply drop_0x_digits|done]. }
  destruct (digits_not_empty base n rest Hbase Hn64) as [Hne Hne'].
  destruct (pre ++ digits base n ++ rest) as [|c0 l0] eqn:E0.
  { by apply app_nil in E0 as [_ E0]. }
  rewrite Es, E, span_digits by done. destruct (digits_read base Hbase n Hn64) as (Ev & _).
  destruct (digits base n) as [|c ds] eqn:Ed; [done|]. rewrite Ev.
  by replace (2 ^ w <=? n) with false by (symmetry; apply Z.leb_gt; lia).
Qed.

(** The forms that files have: hexadecimal with [0x], decimal, one space in between. *)
Lemma extract_hex w old n rest : w <= 64 -> 0 <= n < 2 ^ w -> ends_word rest ->
  extract 16 w old (mkStream false (str "0x" ++ digits 16 n ++ rest)) = (n, mkStream false rest).
Proof. intros. apply (extract_printed 16 w old n 0 (str "0x")); [by right|done|by right|done|done]. Qed.
Lemma extract_next_hex w old n rest : w <= 64 -> 0 <= n < 2 ^ w -> ends_word rest ->
  extract 16 w old (mkStream false (str " 0x" ++ digits 16 n ++ rest)) = (n, mkStream false rest).
Proof. intros. apply (extract_printed 16 w old n 1 (str "0x")); [by right|done|by right|done|done]. Qed.
Lemma extract_next_dec w old n rest : w <= 64 -> 0 <= n < 2 ^ w -> ends_word rest ->
  extract 10 w old (mkStream false (str " " ++ digits 10 n ++ rest)) = (n, mkStream false rest).
Proof. intros. apply (extract_printed 10 w old n 1 []); [by left|done|by left|done|done]. Qed.

(** Lines that end with a newline each. *)
Definition no_newline (l : text) : Prop := forallb (fun c => negb (char_eqb c newline)) l = true.
Lemma lines_acc_line line l rest : no_newline l ->
  lines_acc line (l ++ newline :: rest) = (reverse line ++ l) :: lines_acc [] rest.
Proof.
  unfold no_newline. revert line. induction l as [|c l IH]; intros line Hl; cbn [app lines_acc].
  - replace (char_eqb newline newline) with true by reflexivity. by rewrite app_nil_r.
  - cbn in Hl. apply andb_prop in Hl as [Hc Hl]. apply negb_true_iff in Hc. rewrite Hc, IH by done.
    by rewrite reverse_cons, <- app_assoc.
Qed.
Lemma lines_unlines ls : Forall no_newline ls -> lines (ls ≫= (fun l => l ++ [newline])) = ls.
Proof.
  unfold lines. induction 1 as [|l ls Hl _ IH]; [done|]. cbn. rewrite <- app_assoc. cbn [app].
  rewrite lines_acc_line by done. by rewrite IH.
Qed.
Lemma digits_no_newline base n : 2 <= base <= 16 -> 0 <= n < 2 ^ 64 -> no_newline (digits base n).
Proof.
  intros Hb Hn. destruct (digits_read base Hb n Hn) as (_ & Hds & _). apply forallb_forall. intros c Hc.
  apply list_elem_of_In in Hc. rewrite Forall_forall in Hds. destruct (Hds c Hc) as (d & -> & Hd).
  apply negb_true_iff, char_eqb_neq. intros E. destruct (digit_of_digit d) as (_ & Hsp & _); [lia|]. by rewrite E in Hsp.
Qed.

Example extract_demo :
  extract 16 64 7 (mkStream false (str " 0x1F2 z")) = (0x1F2, mkStream false (str " z")) /\
  extract 16 32 7 (mkStream false (str "zz 1")) = (0, mkStream true (str "zz 1")) /\
  extract 10 32 7 (mkStream false (str "-1")) = (2 ^ 32 - 1, mkStream false []) /\
  extract 10 32 7 (mkStream false (str " 99999999999 1")) = (2 ^ 32 - 1, mkStream true (str " 1")) /\
  extract 10 32 7 (mkStream false (str "  ")) = (7, mkStream true []) /\
  strtoull (str " 0x10z") = (16, str "z") /\ strtoull (str "017") = (15, []) /\ strtoull (str "x") = (0, str "x") /\
  strtoull (str "0x") = (0, str "x") /\
  lines (str "a" ++ [newline; newline] ++ str "b") = [str "a"; []; str "b"].
Proof. vm_compute. done. Qed.
