(* ===== verification/Tools.v ===== *)
(** * What the command line tools share: saft-*.cpp of [src/src/]

    A tool asks the daemon for its devices, takes one of them, and works with its
    proxy.  Here: the search for the device, and the interface of the proxies that
    tools with a clock use; what is printed is not modelled. *)
From S2P Require Import Prelude Time.
Local Open Scope Z_scope.

(** [W] is what is outside of the tool; a proxy is the path of its object.  All
    operations may throw.  [usleep] takes microseconds in 32 bits. *)
Class Device (W : Type) := {
  getDevices : M W (list (string * string));
  create_receiver : string -> M W unit;
  (** without the argument it throws while the receiver is not locked *)
  CurrentTime : string -> bool -> M W Time;
  InjectEvent : string -> Z -> Z -> Time -> M W unit;
  usleep : Z -> M W unit
}.

(** [catch (const saftbus::Error&) { ... }], then the end of [main] with [code]. *)
Definition catch_error {W} (code : Z) (m : M W Z) : M W Z :=
  try_catch m (fun e => match e with Error _ _ => mret code | e => throw e end).

(** A method of an object, called through its proxy: service and proxy turn every
    exception into a [saftbus::Error] with its text. *)
Definition remote {W A} (m : M W A) : M W A :=
  try_catch m (fun e =>
    throw (Error INVALID_ARGS match e with Error _ what | RuntimeError what => what | _ => "unknown exception" end)).

Definition lookup_name (name : string) (l : list (string * string)) : option string :=
  snd <$> find (fun p => bool_decide (p.1 = name)) l.

Section Tools.
Context {W : Type} `{!Device W}.

(** The map of the devices in the order of their names; [None]: a message, and the
    tool ends. *)
Definition find_device (useFirstDev : bool) (deviceName : string) : M W (option string) :=
  devices ← getDevices;
  match (if useFirstDev then snd <$> head devices else lookup_name deviceName devices) with
  | None => mret None
  | Some path => create_receiver path;; mret (Some path)
  end.
End Tools.

(** ** A device that works

    Clocks do not go back, a process sleeps as long as it asked for at least (and
    everything takes any time); every injected event is in the log, with the time at
    which it was injected. *)
Record Injected := mkInjected { at_time : Z; in_event : Z; in_param : Z; in_deadline : Z }.

Class DeviceOk (W : Type) `{!Device W} (receiver : string) := {
  now : W -> Z;
  log : W -> list Injected;
  (** what other interfaces of the same outside say, and these calls do not change *)
  Rest : Type;
  other : W -> Rest;
  CurrentTime_ok dev w : exists t w', CurrentTime receiver dev w = (Ret (mkTime t), w') /\
    now w <= t <= now w' /\ log w' = log w /\ other w' = other w;
  InjectEvent_ok id param time w : exists w', InjectEvent receiver id param time w = (Ret tt, w') /\
    now w <= now w' /\ log w' = log w ++ [mkInjected (now w) id param (TAI time)] /\ other w' = other w;
  usleep_ok d w : exists w', usleep d w = (Ret tt, w') /\ now w + 1000 * d <= now w' /\ log w' = log w /\ other w' = other w
}.
