(* ===== verification/DataMaster.v ===== *)
(** * A local data master: saft-dm.cpp of [src/src/]

    The tool reads a schedule of timing messages from a file and injects them into the
    timing receiver, each at most 100 ms before it is due. *)
From S2P Require Import Prelude Time Helpers Texts Streams Tools.
From Stdlib Require Import Strings.Ascii.
Local Open Scope Z_scope.

Record Options := mkOptions { nIter : Z; ppsAlign : bool; useFirstDev : bool; devInject : bool; verboseMode : bool }.
Definition no_options : Options := mkOptions 1 false false false false.

(** What [getopt] finds, one option after the other: [inr] ends [main]. *)
Definition parse_option (o : Options) (opt : ascii) (optarg : text) : outcome (Options + Z) :=
  if char_eqb opt "n" then n ← atoi optarg; Ret (inl (mkOptions (u32 n) (ppsAlign o) (useFirstDev o) (devInject o) (verboseMode o)))
  else if char_eqb opt "f" then Ret (inl (mkOptions (nIter o) (ppsAlign o) true (devInject o) (verboseMode o)))
  else if char_eqb opt "p" then Ret (inl (mkOptions (nIter o) true (useFirstDev o) (devInject o) (verboseMode o)))
  else if char_eqb opt "X" then Ret (inl (mkOptions (nIter o) (ppsAlign o) (useFirstDev o) true (verboseMode o)))
  else if char_eqb opt "v" then Ret (inl (mkOptions (nIter o) (ppsAlign o) (useFirstDev o) (devInject o) true))
  else if char_eqb opt "h" then Ret (inr 0)
  else Ret (inr 1).
Fixpoint parse_options (o : Options) (opts : list (ascii * text)) : outcome (Options + Z) :=
  match opts with
  | [] => Ret (inl o)
  | (opt, optarg) :: opts' =>
      r ← parse_option o opt optarg;
      match r with inl o' => parse_options o' opts' | inr code => Ret (inr code) end
  end.

(** ** A line of the file

    The variables are those of [main]: they hold what the line before left. *)
Record Message := mkMessage { eventID : Z; eventParam : Z; eventTime : Z }.

Definition parse_line (m : Message) (line : text) : Message :=
  let '(id, s) := extract 16 64 (eventID m) (mkStream false line) in
  let '(param, s) := extract 16 64 (eventParam m) s in
  let '(time, s) := extract 10 64 (eventTime m) s in
  mkMessage id param time.

Section DataMaster.
Context {W : Type} `{!Device W}.
(** The file as the stream reads it, or that it cannot be opened. *)
Variable open_file : string -> M W (option text).
Variable receiver : string.
Variable o : Options.

(** The time that [usleep] is given; the conversion to its 32 bits is implicit. *)
Definition sleepTime (nextTimeWR wrTime : Time) : Z := s64 (Z.quot (time_diff nextTimeWR wrTime) 1000 - 100000).

Definition send (startTime : Time) (m : Message) : M W unit :=
  let nextTimeWR := time_plus startTime (s64 (eventTime m)) in
  wrTime ← CurrentTime receiver (devInject o);
  (if time_lt (time_plus wrTime 100000000) nextTimeWR then usleep (u32 (sleepTime nextTimeWR wrTime)) else mret tt);;
  _ ← CurrentTime receiver (devInject o);
  InjectEvent receiver (eventID m) (eventParam m) nextTimeWR.

Fixpoint send_lines (startTime : Time) (m : Message) (ls : list text) : M W Message :=
  match ls with
  | [] => mret m
  | line :: ls' => let m' := parse_line m line in send startTime m';; send_lines startTime m' ls'
  end.

Definition start_time (wrTime : Time) : Time :=
  if ppsAlign o then time_plus (time_minus wrTime (getTAI wrTime mod NS)) NS else wrTime.

(** One iteration of the schedule. *)
Definition iteration (filename : string) (m : Message) : M W Message :=
  wrTime ← CurrentTime receiver (devInject o);
  file ← open_file filename;
  match file with
  | None => mret m
  | Some content => send_lines (start_time wrTime) m (lines content)
  end.
Fixpoint iterations (filename : string) (n : nat) (m : Message) : M W unit :=
  match n with O => mret tt | S n' => m' ← iteration filename m; iterations filename n' m' end.
End DataMaster.

(** [main] behind the options.  A missing file name is reported, and then not found as
    a file. *)
Definition main {W} `{!Device W} (open_file : string -> M W (option text)) (opts : list (ascii * text)) (args : list string) : M W Z :=
  r ← of_outcome (parse_options no_options opts);
  match r with
  | inr code => mret code
  | inl o =>
      match args with
      | [] => mret 1
      | deviceName :: args' =>
          catch_error 0
            (receiver ← find_device (useFirstDev o) deviceName;
             match receiver with
             | None => mret (-1)
             | Some receiver =>
                 iterations open_file receiver o (default EmptyString (head args')) (Z.to_nat (nIter o)) (mkMessage 0 0 0);;
                 mret 0
             end)
      end
  end.

(** ** The text of a schedule *)
Definition message_line (m : Message) : text :=
  str "0x" ++ digits 16 (eventID m) ++ str " 0x" ++ digits 16 (eventParam m) ++ str " " ++ digits 10 (eventTime m).
Definition schedule_text (ms : list Message) : text := (message_line <$> ms) ≫= (fun l => l ++ [newline]).
Definition message_ok (m : Message) : Prop := 0 <= eventID m < 2 ^ 64 /\ 0 <= eventParam m < 2 ^ 64 /\ 0 <= eventTime m < 2 ^ 64.

Lemma parse_message_line m old : message_ok m -> parse_line old (message_line m) = m.
Proof.
  intros (Hid & Hparam & Htime). unfold parse_line, message_line. rewrite <- (app_nil_r (digits 10 (eventTime m))).
  rewrite extract_hex, extract_next_hex, extract_next_dec by done. by destruct m.
Qed.

Lemma message_line_no_newline m : message_ok m -> no_newline (message_line m).
Proof.
  intros (Hid & Hparam & Htime). unfold no_newline, message_line. rewrite !forallb_app.
  by rewrite (digits_no_newline 16 (eventID m)), (digits_no_newline 16 (eventParam m)), (digits_no_newline 10 (eventTime m)) by lia.
Qed.
Lemma schedule_lines ms : Forall message_ok ms -> lines (schedule_text ms) = message_line <$> ms.
Proof.
  intros H. apply lines_unlines. apply Forall_fmap. by eapply Forall_impl; [exact H|]; intros m; apply message_line_no_newline.
Qed.

(** A line of white space, or an empty one, repeats the message before it. *)
Lemma blank_line_repeats m line : skip_spaces line = [] -> parse_line m line = m.
Proof. intros H. unfold parse_line, extract. cbn [failbit unread]. rewrite H. cbn. by destruct m. Qed.

(** ** What is injected *)
Section Correct.
Context {W : Type} `{!Device W} (receiver : string) `{!DeviceOk W receiver}.
Variable open_file : string -> M W (option text).
Variable o : Options.

(** The message of a schedule that begins at [start]. *)
Definition due (start : Z) (m : Message) : Z * Z * Z := (eventID m, eventParam m, start + eventTime m).
Definition event_of (i : Injected) : Z * Z * Z := (in_event i, in_param i, in_deadline i).
(** Not more than 100 ms (and a microsecond, which the division drops) early. *)
Definition short_queue (i : Injected) : Prop := in_deadline i < at_time i + 100000000 + 1000.

(** An event at most 71 minutes behind the start: [usleep] takes 32 bits. *)
Definition event_bound : Z := 71 * 60 * NS.

Lemma next_time start e : 0 <= start < 2 ^ 62 + NS -> 0 <= e < event_bound ->
  time_plus (mkTime start) (s64 e) = mkTime (start + e).
Proof.
  unfold event_bound, NS. change (2 ^ 62) with 4611686018427387904.
  intros Hs He. unfold time_plus, add_assign. cbn [TAI]. f_equal. wrap_lia.
Qed.

Lemma sleep_enough start e t : 0 <= start <= t + NS -> 0 <= t < 2 ^ 62 -> 0 <= e < event_bound -> t + 100000000 < start + e ->
  start + e < t + 1000 * u32 (sleepTime (mkTime (start + e)) (mkTime t)) + 100000000 + 1000.
Proof.
  unfold event_bound, NS. change (2 ^ 62) with 4611686018427387904.
  intros Hs Ht He Hlong. unfold sleepTime, time_diff. cbn [TAI].
  assert (s64 (u64 (start + e - t)) = start + e - t) as -> by wrap_lia.
  rewrite Z.quot_div_nonneg by lia.
  rewrite signed_wrap_small, unsigned_wrap_small by (change (2 ^ (64 - 1)) with 9223372036854775808 || change (2 ^ 32) with 4294967296; Z.div_mod_to_equations; lia).
  Z.div_mod_to_equations; lia.
Qed.

(** The pause in front of an event, after which the event is near. *)
Lemma pause_spec start e t w : t <= now w ->
  let next := time_plus (mkTime start) (s64 e) in
  exists w', (if time_lt (time_plus (mkTime t) 100000000) next then usleep (u32 (sleepTime next (mkTime t))) else mret tt) w = (Ret tt, w') /\
    now w <= now w' /\ log w' = log w /\ other w' = other w /\
    (0 <= t -> 0 <= start <= t + NS -> 0 <= e < event_bound -> now w' < 2 ^ 62 -> start + e < now w' + 100000000 + 1000).
Proof.
  intros Hw next. assert (0 <= t < 2 ^ 62 -> 0 <= start <= t + NS -> 0 <= e < event_bound -> next = mkTime (start + e)) as En.
  { intros. apply next_time; [lia|done]. }
  assert (0 <= t < 2 ^ 62 -> time_plus (mkTime t) 100000000 = mkTime (t + 100000000)) as Et.
  { change (2 ^ 62) with 4611686018427387904. intros. unfold time_plus, add_assign. cbn [TAI]. f_equal. wrap_lia. }
  pose proof (unsigned_wrap_range 32 (sleepTime next (mkTime t)) ltac:(lia)) as Hu.
  destruct (time_lt _ next) eqn:El.
  - destruct (usleep_ok (u32 (sleepTime next (mkTime t))) w) as (w' & E & N & L & O). exists w'.
    split_and!; [exact E|lia|done|done|]. intros Ht0 Hs He Hlt. assert (0 <= t < 2 ^ 62) as Ht by lia. rewrite En in * by done.
    rewrite Et in El by done. unfold time_lt in El. apply Z.ltb_lt in El. cbn [TAI] in El.
    pose proof (sleep_enough start e t Hs Ht He El). lia.
  - exists w. split_and!; [done|lia|done|done|]. intros Ht0 Hs He Hlt. rewrite En, Et in El by (done || lia).
    unfold time_lt in El. apply Z.ltb_ge in El. cbn [TAI] in El. lia.
Qed.

Lemma send_spec start m w :
  exists w' t, send receiver o (mkTime start) m w = (Ret tt, w') /\ now w <= now w' /\ other w' = other w /\
    log w' = log w ++ [t] /\
    (0 <= now w -> 0 <= start <= now w + NS -> 0 <= eventTime m < event_bound -> now w' < 2 ^ 62 -> event_of t = due start m /\ short_queue t).
Proof.
  unfold send.
  destruct (CurrentTime_ok (devInject o) w) as (t & w1 & E1 & Ht1 & L1 & O1). rewrite (run_bind_ret _ _ _ _ _ E1).
  destruct (pause_spec start (eventTime m) t w1) as (w2 & E2 & N2 & L2 & O2 & Q2); [lia|]. cbv zeta in E2.
  rewrite (run_bind_ret _ _ _ _ _ E2).
  destruct (CurrentTime_ok (devInject o) w2) as (t3 & w3 & E3 & Ht3 & L3 & O3). rewrite (run_bind_ret _ _ _ _ _ E3).
  destruct (InjectEvent_ok (eventID m) (eventParam m) (time_plus (mkTime start) (s64 (eventTime m))) w3) as (w4 & E4 & N4 & L4 & O4).
  eexists w4, _. split_and!; [exact E4|lia|congruence|by rewrite L4, L3, L2, L1|].
  intros Hw Hs He Hlt. unfold event_of, due, short_queue. cbn [in_event in_param in_deadline at_time].
  rewrite next_time by (done || lia). split; [done|]. cbn [TAI]. pose proof (Q2 ltac:(lia) ltac:(lia) He ltac:(lia)). lia.
Qed.

Definition schedule_ok (ms : list Message) : Prop := Forall (fun m => message_ok m /\ eventTime m < event_bound) ms.

Lemma send_lines_spec start ms old w : schedule_ok ms ->
  exists w' l, send_lines receiver o (mkTime start) old (message_line <$> ms) w = (Ret (default old (last ms)), w') /\
    now w <= now w' /\ other w' = other w /\ log w' = log w ++ l /\
    (0 <= now w -> 0 <= start <= now w + NS -> now w' < 2 ^ 62 -> event_of <$> l = due start <$> ms /\ Forall short_queue l).
Proof.
  intros Hms. revert old w. induction Hms as [|m ms [Hm Hb] _ IH]; intros old w; cbn [fmap list_fmap send_lines].
  - exists w, []. split_and!; [done|lia|done|by rewrite app_nil_r|done].
  - rewrite parse_message_line by done. cbv zeta.
    destruct (send_spec start m w) as (w1 & t & E1 & N1 & O1 & L1 & Q1). rewrite (run_bind_ret _ _ _ _ _ E1).
    destruct (IH m w1) as (w2 & l & E2 & N2 & O2 & L2 & Q2). exists w2, (t :: l). rewrite E2.
    split_and!; [rewrite last_cons; by destruct (last ms)|lia|congruence|by rewrite L2, L1, <- app_assoc|].
    intros Hw Hs Hlt. destruct Hm as (_ & _ & Ht). destruct (Q1 Hw Hs ltac:(lia) ltac:(lia)) as [Qt Qs].
    destruct (Q2 ltac:(lia) ltac:(lia) Hlt) as [Ql Qls]. split; [cbn; by f_equal|by constructor].
Qed.

(** The next full second, or now. *)
Lemma start_time_spec t : 0 <= t < 2 ^ 62 ->
  exists start, start_time o (mkTime t) = mkTime start /\ t <= start <= t + NS /\ (ppsAlign o = true -> start mod NS = 0).
Proof.
  intros Ht. unfold start_time, getTAI, time_minus, sub_assign, time_plus, add_assign. cbn [TAI].
  destruct (ppsAlign o); [|exists t; split_and!; [done|lia|unfold NS; lia|done]].
  exists (t - t mod NS + NS). unfold NS. pose proof (Z.mod_pos_bound t 1000000000 ltac:(lia)). pose proof (Z.div_mod t 1000000000 ltac:(lia)).
  change (2 ^ 62) with 4611686018427387904 in Ht. split_and!; [|lia|lia|].
  - f_equal. rewrite (unsigned_wrap_small 64 (t - _)) by (change (2 ^ 64) with 18446744073709551616; lia).
    apply unsigned_wrap_small. change (2 ^ 64) with 18446744073709551616. lia.
  - intros _. replace (t - t mod 1000000000 + 1000000000) with ((t / 1000000000 + 1) * 1000000000) by lia. apply Z.mod_mul. lia.
Qed.

(** The file is of the schedule, and stays so. *)
Definition holds (filename : string) (ms : list Message) (r : Rest) : Prop :=
  forall w, other w = r -> open_file filename w = (Ret (Some (schedule_text ms)), w).

Lemma iteration_spec filename ms old w : holds filename ms (other w) -> schedule_ok ms ->
  exists w' l, iteration open_file receiver o filename old w = (Ret (default old (last ms)), w') /\
    now w <= now w' /\ other w' = other w /\ log w' = log w ++ l /\
    (0 <= now w -> now w' < 2 ^ 62 -> exists start, event_of <$> l = due start <$> ms /\ Forall short_queue l /\
       now w <= start /\ (ppsAlign o = true -> start mod NS = 0)).
Proof.
  intros Hf Hms. unfold iteration.
  destruct (CurrentTime_ok (devInject o) w) as (t & w1 & E1 & Ht1 & L1 & O1). rewrite (run_bind_ret _ _ _ _ _ E1).
  rewrite (run_bind_ret _ _ w1 _ _ (Hf w1 O1)). cbv iota beta.
  rewrite schedule_lines by (eapply Forall_impl; [exact Hms|by intros m []]).
  destruct (start_time o (mkTime t)) as [start] eqn:Est.
  destruct (send_lines_spec start ms old w1 Hms) as (w2 & l & E2 & N2 & O2 & L2 & Q2).
  exists w2, l. split_and!; [exact E2|lia|congruence|congruence|]. intros Hw Hlt.
  destruct (start_time_spec t) as (start' & E & Hs & Ha); [lia|]. rewrite Est in E. injection E as <-.
  destruct (Q2 ltac:(lia) ltac:(lia) Hlt) as [Ql Qs]. exists start. split_and!; [done..|lia|done].
Qed.

(** C20: a schedule that is written to a file, a message per line, is injected as it is:
    every iteration of the tool injects all messages in their order, at their times
    relative to a start that is not before the tool's, and with the option -p a full second; no message is
    injected more than 100 ms and a microsecond before it is due, so that the queue of the
    receiver stays short.  The messages are less than 71 minutes behind the start (later ones come too early,
    [DmDemo.long_schedule_early]), and the clock is below 2^62. *)
Theorem schedule_injected filename (ms : list Message) (n : nat) old w
    (Hfile : holds filename ms (other w)) (Hms : schedule_ok ms) (Hnow : 0 <= now w) :
  exists w' l, iterations open_file receiver o filename n old w = (Ret tt, w') /\ log w' = log w ++ l /\
    (now w' < 2 ^ 62 -> Forall short_queue l /\
     exists starts, length starts = n /\ event_of <$> l = starts ≫= (fun start => due start <$> ms) /\
       Forall (fun start => now w <= start /\ (ppsAlign o = true -> start mod NS = 0)) starts).
Proof.
  assert (exists w' l, iterations open_file receiver o filename n old w = (Ret tt, w') /\ now w <= now w' /\ log w' = log w ++ l /\
    (now w' < 2 ^ 62 -> Forall short_queue l /\
     exists starts, length starts = n /\ event_of <$> l = starts ≫= (fun start => due start <$> ms) /\
       Forall (fun start => now w <= start /\ (ppsAlign o = true -> start mod NS = 0)) starts))
    as (w' & l & E & _ & L & Q); [|eauto].
  revert old w Hfile Hnow. induction n as [|n IH]; intros old w Hfile Hnow; cbn [iterations].
  - exists w, []. split_and!; [done|lia|by rewrite app_nil_r|]. intros _. split; [done|]. by exists [].
  - destruct (iteration_spec filename ms old w Hfile Hms) as (w1 & l1 & E1 & N1 & O1 & L1 & Q1). rewrite (run_bind_ret _ _ _ _ _ E1).
    rewrite <- O1 in Hfile. destruct (IH (default old (last ms)) w1 Hfile ltac:(lia)) as (w2 & l2 & E2 & N2 & L2 & Q2).
    exists w2, (l1 ++ l2). split_and!; [exact E2|lia|by rewrite L2, L1, app_assoc|]. intros Hlt.
    destruct (Q1 Hnow ltac:(lia)) as (start & Ql & Qs & Hst). destruct (Q2 Hlt) as (Qs2 & starts & Hlen & Ql2 & Hsts).
    split; [by apply Forall_app|]. exists (start :: starts). split_and!; [cbn; lia|by rewrite fmap_app, Ql, Ql2|].
    constructor; [done|]. eapply Forall_impl; [exact Hsts|]. intros x []. split; [lia|done].
Qed.
End Correct.

(** ** A receiver with a clock *)
Module DmDemo.
Record outside := mkOutside { clock : Z; injected : list Injected; files : string -> option text }.

(** Every call takes 10 us, a sleep as long as asked for. *)
#[export] Instance demo_device : Device outside := {|
  getDevices := fun w => (Ret [("tr0", "/tr0")]%string, w);
  create_receiver := fun _ w => (Ret tt, w);
  CurrentTime := fun _ _ w => (Ret (mkTime (clock w)), mkOutside (clock w + 10000) (injected w) (files w));
  InjectEvent := fun _ id param time w =>
    (Ret tt, mkOutside (clock w + 10000) (injected w ++ [mkInjected (clock w) id param (TAI time)]) (files w));
  usleep := fun d w => (Ret tt, mkOutside (clock w + 1000 * d) (injected w) (files w)) |}.
#[export, refine] Instance demo_device_ok : DeviceOk outside "/tr0" := {| now := clock; log := injected; Rest := string -> option text; other := files |}.
Proof.
  - intros dev w. eexists _, _. split; [reflexivity|]. cbn. split_and!; [lia|lia|done|done].
  - intros id param time w. eexists. split; [reflexivity|]. cbn. split_and!; [lia|done|done].
  - intros d w. eexists. split; [reflexivity|]. cbn. split_and!; [lia|done|done].
Defined.
Definition open (filename : string) : M outside (option text) := fun w => (Ret (files w filename), w).

Definition three : list Message := [mkMessage 0x1111000000000000 0x1 0; mkMessage 0x2222000000000000 0xabc 500000; mkMessage 0x3 0 300000000].
Definition day : Z := 1700000000123456789.
Definition start_with (content : text) : outside := mkOutside day [] (fun _ => Some content).

Lemma schedule_injected_witness :
  exists w' l, iterations open "/tr0" (mkOptions 2 true false true false) "f" 2 (mkMessage 0 0 0) (start_with (schedule_text three)) = (Ret tt, w') /\
    clock w' < 2 ^ 62 /\ Forall short_queue l /\ length (injected w') = 6%nat.
Proof.
  destruct (schedule_injected "/tr0" open (mkOptions 2 true false true false) "f" three 2 (mkMessage 0 0 0) (start_with (schedule_text three)))
    as (w' & l & E & L & Q).
  - intros [c i f] H. cbn in H. subst f. reflexivity.
  - repeat constructor; vm_compute; done.
  - vm_compute. discriminate.
  - assert (clock w' < 2 ^ 62) as Hc.
    { apply (f_equal snd) in E. cbn [snd] in E. rewrite <- E. vm_compute. reflexivity. }
    destruct (Q Hc) as (Qs & _). exists w', l. split_and!; [exact E|exact Hc|exact Qs|].
    apply (f_equal snd) in E. cbn [snd] in E. rewrite <- E. vm_compute. reflexivity.
Defined.

Definition run (opts : list (ascii * text)) (content : text) : list (Z * Z * Z) :=
  event_of <$> injected (snd (main open opts ["tr0"; "f"]%string (start_with content))).

(** An empty line injects the message before it again; a line that is no message
    injects what is left of the numbers before. *)
Example blank_line_injects :
  run [] (schedule_text [mkMessage 0x11 5 7] ++ [newline] ++ str "# end" ++ [newline]) =
  [(0x11, 5, day + 7); (0x11, 5, day + 7); (0, 5, day + 7)].
Proof. vm_compute. reflexivity. Qed.

(** With -p the second iteration begins in the same second as the first one when the last
    message is due within 100 ms of the second: everything is injected twice for the
    same times. *)
Example same_second_twice :
  run [("p", []); ("n", str "2")]%char (schedule_text [mkMessage 0x11 5 7; mkMessage 0x12 5 50000000]) =
  let s := (day / NS + 1) * NS in [(0x11, 5, s + 7); (0x12, 5, s + 50000000); (0x11, 5, s + 7); (0x12, 5, s + 50000000)].
Proof. vm_compute. reflexivity. Qed.

(** A message two hours ahead: [usleep] sleeps for the rest modulo 2^32 microseconds, and
    the message is injected much too early. *)
Example long_schedule_early :
  match injected (snd (main open [] ["tr0"; "f"]%string (start_with (schedule_text [mkMessage 0x11 5 (7200 * NS)])))) with
  | [i] => in_deadline i = day + 7200 * NS /\ at_time i + 4000 * NS < in_deadline i
  | _ => False
  end.
Proof. vm_compute. done. Qed.

End DmDemo.
