(* ===== verification/WbmTool.v ===== *)
(** * The tool for wishbone macros: saft-wbm-ctl.cpp of [src/src/]

    It creates conditions for macros, records macros from the command line or from a
    file, and destroys both. *)
From S2P Require Import Prelude Bus Wbm Helpers BurstControl Texts Streams Tools.
From Stdlib Require Import Strings.Ascii.
Local Open Scope Z_scope.

(** The sink's proxy; the operations on its conditions are those of [Proxies]
    ([ecpu_NewCondition] for its [NewCondition], of the same type). *)
Class WbmSink (W : Type) := {
  sink_setEnable : bool -> M W unit;
  sink_RecordMacro : Z -> list WbmActionCmd -> M W unit;
  sink_ClearAllMacros : M W unit
}.

(** ** Options *)
Record WbmArgs := mkArgs {
  create_sink : bool; eventID : Z; eventMask : Z; offset : Z; tag : Z;
  record_macro : bool; macro_file : bool; macroIdx : Z; macroCmd : WbmActionCmd; filename : text;
  disown_sink : bool; destroy_sink : bool; translate_mask : bool; list_conditions : bool; negative_offset : bool
}.
Definition no_args : WbmArgs := mkArgs false 0 0 0 0 false false 0 (mkCmd 0 0 0) [] false false false false false.

Definition set_condition (id mask off tg : Z) (a : WbmArgs) : WbmArgs :=
  mkArgs true id mask off tg (record_macro a) (macro_file a) (macroIdx a) (macroCmd a) (filename a)
    (disown_sink a) (destroy_sink a) (translate_mask a) (list_conditions a) (negative_offset a).
Definition set_macro (file : bool) (idx : Z) (cmd : WbmActionCmd) (name : text) (a : WbmArgs) : WbmArgs :=
  mkArgs (create_sink a) (eventID a) (eventMask a) (offset a) (tag a) true (macro_file a || file) idx cmd name
    (disown_sink a) (destroy_sink a) (translate_mask a) (list_conditions a) (negative_offset a).
Definition set_flags (disown destroy translate ls negative : bool) (a : WbmArgs) : WbmArgs :=
  mkArgs (create_sink a) (eventID a) (eventMask a) (offset a) (tag a) (record_macro a) (macro_file a) (macroIdx a) (macroCmd a) (filename a)
    (disown_sink a || disown) (destroy_sink a || destroy) (translate_mask a || translate) (list_conditions a || ls) (negative_offset a || negative).

Definition number (l : text) : Z := fst (strtoull l).

(** An option that [getopt] has found, and the words from [argv\[optind-1\]] on.  [inr]: the
    loop ends, with the help or with a missing word (which return the same). *)
Definition parse_option (a : WbmArgs) (opt : ascii) (words : list text) : WbmArgs + unit :=
  if char_eqb opt "c" then
    match words with
    | id :: mask :: off :: tg :: _ => inl (set_condition (number id) (number mask) (s64 (number off)) (s32 (number tg)) a)
    | _ => inr tt
    end
  else if char_eqb opt "r" then
    match words with
    | idx :: adr :: dat :: flags :: _ =>
        inl (set_macro false (u32 (number idx)) (mkCmd (u32 (number adr)) (u32 (number dat)) (u32 (number flags))) (filename a) a)
    | _ => inr tt
    end
  else if char_eqb opt "f" then
    match words with
    | idx :: file :: _ => inl (set_macro true (u32 (number idx)) (macroCmd a) file a)
    | _ => inr tt
    end
  else if char_eqb opt "d" then inl (set_flags true false false false false a)
  else if char_eqb opt "g" then inl (set_flags false false false false true a)
  else if char_eqb opt "x" then inl (set_flags false true false false false a)
  else if char_eqb opt "z" then inl (set_flags false false true false false a)
  else if char_eqb opt "l" then inl (set_flags false false false true false a)
  else if char_eqb opt "v" then inl a
  else inr tt.
Fixpoint parse_options (a : WbmArgs) (opts : list (ascii * list text)) : WbmArgs + unit :=
  match opts with
  | [] => inl a
  | (opt, words) :: opts' => match parse_option a opt words with inl a' => parse_options a' opts' | inr u => inr u end
  end.
(** With -g the offset changes its sign behind the loop; creating and destroying exclude
    each other. *)
Definition arguments (opts : list (ascii * list text)) : WbmArgs + unit :=
  match parse_options no_args opts with
  | inr u => inr u
  | inl a =>
      if (create_sink a || disown_sink a) && destroy_sink a then inr tt
      else inl (if negative_offset a
                then mkArgs (create_sink a) (eventID a) (eventMask a) (s64 (- offset a)) (tag a) (record_macro a) (macro_file a) (macroIdx a) (macroCmd a)
                       (filename a) (disown_sink a) (destroy_sink a) (translate_mask a) (list_conditions a) (negative_offset a)
                else a)
  end.

(** ** A file of commands *)

(** [None]: the line is skipped. *)
Definition parse_command (line : text) : option WbmActionCmd :=
  let '(adr, s) := extract 16 32 0 (mkStream false line) in
  let '(data, s) := extract 16 32 0 s in
  let '(flags, s) := extract 16 32 0 s in
  if failbit s then None else Some (mkCmd adr data flags).
Definition parse_commands (content : text) : list WbmActionCmd := omap parse_command (lines content).

Section WbmTool.
Context {W : Type} `{!WbmSink W}.
Variable open_file : text -> M W (option text).

(** [None]: the file cannot be opened. *)
Definition macro_commands (a : WbmArgs) : M W (option (list WbmActionCmd)) :=
  if macro_file a then content ← open_file (filename a); mret (parse_commands <$> content)
  else mret (Some [macroCmd a]).

Definition record (a : WbmArgs) : M W Z :=
  commands ← macro_commands a;
  match commands with
  | None | Some [] => mret (-1)
  | Some commands =>
      sink_setEnable false;;
      sink_RecordMacro (macroIdx a) commands;;
      sink_setEnable true;;
      mret 0
  end.

Context `{!Proxies W}.

Definition create_condition (sink : string) (a : WbmArgs) : M W Z :=
  mask ← (if translate_mask a then of_outcome (tr_mask (eventMask a)) else mret (eventMask a));
  c ← ecpu_NewCondition sink true (eventID a) mask (offset a) (u32 (tag a));
  create c;;
  setAccept c Conflict true;; setAccept c Delayed true;; setAccept c Early true;; setAccept c Late true;;
  if disown_sink a then Disown c;; mret 0 else wait_for_ever.

Definition destroy_condition (c : string) : M W unit :=
  create c;;
  destructible ← getDestructible c;
  if destructible : bool then
    owner ← getOwner c;
    if bool_decide (owner = ""%string) then Destroy c else mret tt
  else mret tt.
Definition destroy_all (sink : string) : M W Z :=
  sink_ClearAllMacros;;
  all_conditions ← getAllConditions sink;
  for_each destroy_condition all_conditions;;
  mret 0.

(** Of the listing the calls. *)
Definition list_all (sink : string) : M W Z :=
  all_conditions ← getAllConditions sink;
  for_each (fun c => create c;; _ ← getID c; _ ← getMask c; _ ← getOffset c; _ ← getOwner c; mret tt) all_conditions;;
  mret 0.

Context `{!Device W}.
(** [receiver->getInterfaces()\["WbmActionSink"\]] *)
Variable sinks : string -> M W (list (string * string)).

Definition main (opts : list (ascii * list text)) (deviceName : option string) : M W Z :=
  match arguments opts, deviceName with
  | inr _, _ | _, None => mret (-1)
  | inl a, Some deviceName =>
      catch_error 0
        (receiver ← find_device false deviceName;
         match receiver with
         | None => mret (-1)
         | Some receiver =>
             acwbms ← sinks receiver;
             match acwbms with
             | [(_, sink)] =>
                 create sink;;
                 if create_sink a then create_condition sink a
                 else if record_macro a then record a
                 else if destroy_sink a then destroy_all sink
                 else if list_conditions a then list_all sink
                 else mret (-1)
             | _ => mret (-1)
             end
         end)
  end.
End WbmTool.

(** ** The tool for wishbone macros: from the lines of a file to the unit *)

(** ** Lines *)
Definition command_ok (c : WbmActionCmd) : Prop := 0 <= cmd_adr c < 2 ^ 32 /\ 0 <= cmd_data c < 2 ^ 32 /\ 0 <= cmd_flags c < 2 ^ 32.
Definition command_line (c : WbmActionCmd) : text :=
  str "0x" ++ digits 16 (cmd_adr c) ++ str " 0x" ++ digits 16 (cmd_data c) ++ str " 0x" ++ digits 16 (cmd_flags c).

(** A line of the file: a command, or one that is skipped. *)
Inductive Line := Command (c : WbmActionCmd) | Other (l : text).
Definition line_text (l : Line) : text := match l with Command c => command_line c | Other t => t end.
Definition line_ok (l : Line) : Prop :=
  match l with Command c => command_ok c | Other t => no_newline t /\ parse_command t = None end.
Definition line_command (l : Line) : option WbmActionCmd := match l with Command c => Some c | Other _ => None end.
Definition file_text (ls : list Line) : text := (line_text <$> ls) ≫= (fun l => l ++ [newline]).

Lemma parse_command_line c : command_ok c -> parse_command (command_line c) = Some c.
Proof.
  intros (Ha & Hd & Hf). unfold parse_command, command_line. rewrite <- (app_nil_r (digits 16 (cmd_flags c))).
  rewrite extract_hex, !extract_next_hex by done. by destruct c.
Qed.
Lemma command_line_no_newline c : command_ok c -> no_newline (command_line c).
Proof.
  intros (Ha & Hd & Hf). change (2 ^ 32) with 4294967296 in *. unfold no_newline, command_line. rewrite !forallb_app.
  by rewrite !digits_no_newline by (change (2 ^ 64) with 18446744073709551616; lia).
Qed.
Lemma parse_file ls : Forall line_ok ls -> parse_commands (file_text ls) = omap line_command ls.
Proof.
  intros H. unfold parse_commands, file_text. rewrite lines_unlines.
  - induction H as [|l ls Hl _ IH]; [done|]. destruct l as [c|t]; cbn [fmap list_fmap omap list_omap line_text line_command].
    + by rewrite parse_command_line, <- IH.
    + by rewrite (proj2 Hl), <- IH.
  - apply Forall_fmap. eapply Forall_impl; [exact H|]. intros [c|t]; cbn; [apply command_line_no_newline|by intros []].
Qed.

(** ** The unit behind the driver *)

(** [eca_ac_wbm_regs.h]: one register enables the channel, another one disables it. *)
Class WbmEnable (D : Type) `{Bus D} (acwbm : Z) := {
  enabled : D -> bool;
  enable_step (b : bool) (op : bus_op) : bool :=
    match op with
    | BusW a _ => if a =? acwbm + SLAVE_ENABLE_SET then true else if a =? acwbm + SLAVE_ENABLE_CLR then false else b
    | BusR _ => b
    end;
  enable_cycle : forall ops d rs d', bus_cycle ops d = Some (rs, d') -> enabled d' = foldl enable_step (enabled d) ops
}.

Section Driver.
Context {D : Type} `{HB : Bus D} (acwbm : Z).

(** The driver, called through the proxy. *)
#[export] Instance driver_sink : WbmSink D := {|
  sink_setEnable b := remote (Wbm_setEnable acwbm b);
  sink_RecordMacro idx commands := remote (RecordMacro acwbm idx commands);
  sink_ClearAllMacros := remote (ClearAllMacros acwbm) |}.

Context `{!WbmUnit D acwbm, !WbmEnable D acwbm}.

(** What [setEnable] leaves alone. *)
Lemma setEnable_spec b d :
  match sink_setEnable b d with
  | (Ret _, d') => enabled d' = b /\ (forall k, macros d' k = macros d k) /\ recording d' = recording d
  | (Throw e, d') => (exists what, e = Error INVALID_ARGS what) /\ d' = d
  | (Crash _, _) => False
  end.
Proof.
  cbn [sink_setEnable driver_sink]. unfold remote, try_catch, Wbm_setEnable, dev_write, cycle.
  destruct b; mrun; (destruct (bus_cycle [_] d) as [[rs d1]|] eqn:E; [|by eauto]);
    pose proof (enable_cycle _ _ _ _ E) as He; pose proof (wbm_cycle _ _ _ _ E) as [Hm Hr];
    cbn [foldl] in He, Hm, Hr; unfold wbm_step in Hm, Hr; unfold enable_step in He;
    unfold SLAVE_ENABLE_SET, SLAVE_ENABLE_CLR, SLAVE_REC_OWR, SLAVE_REC_FIFO_OWR in *;
    repeat match type of He with context [?a =? ?b] => destruct (Z.eqb_spec a b); try lia end;
    repeat match type of Hr with context [?a =? ?b] => destruct (Z.eqb_spec a b); try lia end; done.
Qed.
Lemma enable_words b words : foldl (enable_step (acwbm := acwbm)) b (BusW (acwbm + SLAVE_REC_FIFO_OWR) <$> words) = b.
Proof.
  induction words as [|x words IH]; [done|]. cbn [fmap list_fmap foldl]. unfold enable_step at 2.
  by rewrite !(proj2 (Z.eqb_neq _ _)) by (unfold SLAVE_REC_FIFO_OWR, SLAVE_ENABLE_SET, SLAVE_ENABLE_CLR; lia).
Qed.
(** Recording does not touch the enable register. *)
Lemma RecordMacro_enabled idx commands d : enabled (RecordMacro acwbm idx commands d).2 = enabled d.
Proof.
  unfold RecordMacro, try_catch, dev_write, cycle. mrun.
  assert (forall v, enable_step (acwbm := acwbm) (enabled d) (BusW (acwbm + SLAVE_REC_OWR) v) = enabled d) as Hs.
  { intros v. unfold enable_step. by rewrite !(proj2 (Z.eqb_neq _ _)) by (unfold SLAVE_REC_OWR, SLAVE_ENABLE_SET, SLAVE_ENABLE_CLR; lia). }
  destruct (bus_cycle [_] d) as [[rs d1]|] eqn:E1; [|done]. pose proof (enable_cycle _ _ _ _ E1) as He1. cbn [foldl] in He1. rewrite Hs in He1.
  destruct (bus_cycle (_ ++ _) d1) as [[rs2 d2]|] eqn:E2; [|done]. pose proof (enable_cycle _ _ _ _ E2) as He2.
  unfold fifo_ops in He2. rewrite foldl_app, enable_words in He2. cbn [foldl] in He2. by rewrite He1, Hs in He2.
Qed.
End Driver.

Section Recorded.
Context {D : Type} `{HB : Bus D} (acwbm : Z) `{!WbmUnit D acwbm, !WbmEnable D acwbm}.
Variable open_file : text -> M D (option text).
Variable a : WbmArgs.

Abbreviation tool := (record (WbmSink0 := driver_sink acwbm) open_file a).

(** Recording through the proxy. *)
Lemma sink_RecordMacro_spec idx commands d : recording d = None ->
  match sink_RecordMacro (WbmSink := driver_sink acwbm) idx commands d with
  | (Ret _, d') => macros d' idx = Some (commands ≫= cmd_words) /\ (forall k, k <> idx -> macros d' k = macros d k) /\
      recording d' = None /\ enabled d' = enabled d
  | (Throw e, d') => (exists what, e = Error INVALID_ARGS what) /\ (forall k, macros d' k = macros d k) /\ enabled d' = enabled d
  | (Crash _, _) => False
  end.
Proof.
  intros Hr. pose proof (RecordMacro_records acwbm idx commands d Hr) as H. pose proof (RecordMacro_enabled acwbm idx commands d) as He.
  cbn [sink_RecordMacro driver_sink]. unfold remote, try_catch. destruct (RecordMacro acwbm idx commands d) as [[[]|e|w] d']; [| |done]; cbn [snd] in He.
  - destruct H as (_ & Hm & Ho & Hn). done.
  - unfold throw. split; [eauto|]. split; [|done]. destruct H as [[_ ->]|(_ & Hm & _)]; done.
Qed.

(** C32: when no recording is open, a file with at least one command is recorded as a macro: either the tool returns 0,
    the unit is enabled and holds, under the index of the option, the words of the
    commands of the file in their order, without the lines that are no commands, and other
    macros are untouched; or the user sees a saftbus error, no other macro has changed, and
    the unit is left disabled, or the first step, disabling it, has failed and nothing has
    changed at all. *)
Theorem macro_file_recorded (ls : list Line) (d : D) (Hlines : Forall line_ok ls) (Hsome : omap line_command ls <> [])
    (Hfile : macro_file a = true) (Hopen : open_file (filename a) d = (Ret (Some (file_text ls)), d)) (Hidle : recording d = None) :
  match tool d with
  | (Ret code, d') => code = 0 /\ enabled d' = true /\ recording d' = None /\
      macros d' (macroIdx a) = Some (omap line_command ls ≫= cmd_words) /\
      (forall k, k <> macroIdx a -> macros d' k = macros d k)
  | (Throw e, d') => (exists what, e = Error INVALID_ARGS what) /\ (d' = d \/ enabled d' = false) /\
      (forall k, k <> macroIdx a -> macros d' k = macros d k)
  | (Crash _, _) => False
  end.
Proof.
  unfold record, macro_commands. rewrite Hfile. rewrite (run_bind_ret _ _ d (Some (omap line_command ls)) d);
    [|rewrite (run_bind_ret _ _ _ _ _ Hopen); cbn; by rewrite parse_file].
  destruct (omap line_command ls) as [|c cs] eqn:El; [done|]. cbv iota beta.
  pose proof (setEnable_spec acwbm false d) as H1. unfold mbind at 1, M_bind at 1.
  destruct (sink_setEnable false d) as [[[]|e|w] d1]; [|destruct H1 as [He ->]; eauto|done]. destruct H1 as (He1 & Hm1 & Hr1).
  pose proof (sink_RecordMacro_spec (macroIdx a) (c :: cs) d1 ltac:(congruence)) as H2. unfold mbind at 1, M_bind at 1.
  destruct (sink_RecordMacro _ _ d1) as [[[]|e|w] d2]; [| |done].
  2:{ destruct H2 as (He & Hm & En). split; [done|]. split; [right; congruence|]. intros k _. by rewrite Hm. }
  destruct H2 as (Hmac & Hoth & Hrec & En). pose proof (setEnable_spec acwbm true d2) as H3. unfold mbind, M_bind.
  destruct (sink_setEnable true d2) as [[[]|e|w] d3]; [| |done].
  - destruct H3 as (He3 & Hm3 & Hr3). split_and!; [done|done|congruence|by rewrite Hm3|]. intros k Hk. by rewrite Hm3, Hoth.
  - destruct H3 as [He ->]. split; [done|]. split; [right; congruence|]. intros k Hk. by rewrite Hoth.
Qed.
End Recorded.

(** ** A unit that can be disabled *)
Module WbmToolDemo.
Import WbmDemo.
Record board := mkBoard { the_unit : unit_state; on : bool; proxies_log : list string }.
Definition board_on (b : bool) (op : bus_op) : bool :=
  match op with
  | BusW a _ => if a =? 0x100 + SLAVE_ENABLE_SET then true else if a =? 0x100 + SLAVE_ENABLE_CLR then false else b
  | BusR _ => b
  end.
#[export] Instance board_bus : Bus board := fun ops d =>
  u ← unit_ops ops (the_unit d); Some ([], mkBoard u (foldl board_on (on d) ops) (proxies_log d)).
#[export, refine] Instance board_wbm : WbmUnit board 0x100 := {| macros d := u_macros (the_unit d); recording d := u_rec (the_unit d) |}.
Proof.
  - intros ops d rs d' E. unfold bus_cycle, board_bus in E. apply bind_Some in E as (u & E & [= _ <-]). cbn [the_unit].
    pose proof (wbm_cycle (D := unit_state) (acwbm := 0x100) ops (the_unit d) [] u) as H. unfold bus_cycle, unit_bus in H.
    rewrite E in H. exact (H eq_refl).
  - intros d idx rs d' Hr E. unfold bus_cycle, board_bus in E. apply bind_Some in E as (u & E & _).
    pose proof (wbm_refuses (D := unit_state) (acwbm := 0x100) (the_unit d) idx [] u Hr) as H. unfold bus_cycle, unit_bus in H.
    rewrite E in H. exact (H eq_refl).
Defined.
#[export, refine] Instance board_enable : WbmEnable board 0x100 := {| enabled := on |}.
Proof. intros ops d rs d' E. unfold bus_cycle, board_bus in E. apply bind_Some in E as (u & _ & [= _ <-]). reflexivity. Defined.

Definition board0 : board := mkBoard unit0 true [].
Definition file : list Line :=
  [Other (str "# two writes"); Command (mkCmd 0x4060500 0 0x4f); Other []; Command (mkCmd 0x4060504 0xffffffff 0x15f); Other (str "0x1 0x2")].
Definition reader (t : text) : text -> M board (option text) := fun _ d => (Ret (Some t), d).
Definition args (idx : Z) : WbmArgs := set_macro true idx (mkCmd 0 0 0) (str "f") no_args.

Lemma macro_file_recorded_witness :
  let '(r, d) := record (WbmSink0 := driver_sink 0x100) (reader (file_text file)) (args 5) board0 in
  r = Ret 0 /\ enabled d = true /\ macros d 5 = Some [0x4060500; 0; 0x4f; 0x4060504; 0xffffffff; 0x15f] /\ macros d 3 = Some [1; 2; 3].
Proof.
  pose proof (macro_file_recorded 0x100 (reader (file_text file)) (args 5) file board0) as H.
  destruct (record _ _ board0) as [[code|e|w] d] eqn:E; [|vm_compute in E; discriminate E..].
  destruct H as (-> & He & _ & Hm & Ho).
  - repeat constructor; vm_compute; done.
  - discriminate.
  - reflexivity.
  - reflexivity.
  - reflexivity.
  - split_and!; [reflexivity|exact He|exact Hm|]. rewrite (Ho 3); [reflexivity|discriminate].
Defined.

(** ** The whole tool *)
#[export] Instance board_device : Device board := {|
  getDevices := fun w => (Ret [("tr0", "/tr0")]%string, w); create_receiver := fun _ w => (Ret tt, w);
  CurrentTime := fun _ _ w => (Ret (Time.mkTime 0), w); InjectEvent := fun _ _ _ _ w => (Ret tt, w); usleep := fun _ w => (Ret tt, w) |}.
Definition say (s : string) : M board unit := fun d => (Ret tt, mkBoard (the_unit d) (on d) (proxies_log d ++ [s])).
Definition answer {A} (a : A) : M board A := fun d => (Ret a, d).
#[export] Instance board_proxies : BurstControl.Proxies board := {|
  BurstControl.create := fun _ => mret tt; BurstControl.getFree := answer 1; BurstControl.getInputs := answer []; BurstControl.NewSoftwareActionSink := answer ""%string;
  BurstControl.getAllConditions := fun _ => answer ["/c1"; "/c2"; "/c3"]%string;
  BurstControl.out_NewCondition := fun _ _ _ _ _ _ => answer ""%string; BurstControl.sw_NewCondition := fun _ _ _ _ _ => answer ""%string;
  BurstControl.ecpu_NewCondition := fun _ _ _ _ _ _ => answer "/c4"%string; BurstControl.setAccept := fun _ _ _ => mret tt;
  BurstControl.Disown := fun c => say ("disown " ++ c)%string; BurstControl.connect_action := fun _ => mret tt;
  BurstControl.getID := fun _ => answer 0; BurstControl.getMask := fun _ => answer 0; BurstControl.getTag := fun _ => answer 0; BurstControl.getOffset := fun _ => answer 0;
  BurstControl.getDestructible := fun c => answer (negb (bool_decide (c = "/c2"%string)));
  BurstControl.getOwner := fun c => answer (if bool_decide (c = "/c3"%string) then ":1" else "")%string;
  BurstControl.Destroy := fun c => say ("destroy " ++ c)%string; BurstControl.getActive := fun _ => answer true; BurstControl.setActive := fun _ _ => mret tt;
  BurstControl.getTypeOut := fun _ => answer ""%string; BurstControl.getIndexOut := fun _ => answer 0;
  BurstControl.getOutputEnableAvailable := fun _ => answer false; BurstControl.getSpecialPurposeOutAvailable := fun _ => answer false;
  BurstControl.getInputTerminationAvailable := fun _ => answer false; BurstControl.getSpecialPurposeInAvailable := fun _ => answer false;
  BurstControl.getOutput := fun _ => answer ""%string; BurstControl.getInput := fun _ => answer ""%string;
  BurstControl.output_call := fun _ _ => mret tt; BurstControl.input_call := fun _ _ => mret tt; BurstControl.instruct := fun _ _ => answer 0;
  BurstControl.getResponse := answer 0; BurstControl.readBurstInfo := fun _ => answer []; BurstControl.readSharedBuffer := fun _ => answer [];
  BurstControl.wait_for_signal := fun _ => answer 0; BurstControl.wait_for_ever := answer 0 |}.
Definition run (opts : list (ascii * list text)) : outcome Z * board :=
  main (WbmSink0 := driver_sink 0x100) (reader (file_text file)) (fun _ => answer [("wbm", "/tr0/wbm")]%string) opts (Some "tr0"%string) board0.

(** An occupied index: the tool reports the error and returns 0, and the channel, which
    was enabled before, is disabled: all macros are dead. *)
Example refused_leaves_disabled :
  let '(r, d) := run [("r"%char, [str "3"; str "0x4060500"; str "0"; str "0x2f"])] in r = Ret 0 /\ enabled d = false /\ macros d 3 = Some [1; 2; 3].
Proof. vm_compute. done. Qed.

(** -x spares the conditions that are owned or not destructible. *)
Example destroy_spares_owned : let '(r, d) := run [("x"%char, [])] in r = Ret 0 /\ proxies_log d = ["destroy /c1"]%string.
Proof. vm_compute. done. Qed.

(** -g changes the sign wherever it stands. *)
Example negative_anywhere :
  (offset <$> match arguments [("g"%char, []); ("c"%char, [str "1"; str "2"; str "100"; str "3"])] with inl a => Some a | inr _ => None end) = Some (-100).
Proof. vm_compute. done. Qed.
End WbmToolDemo.
