(* ===== verification/FgTool.v ===== *)
(** * The tool for function generators: saft-fg-ctl.cpp of [src/src/]

    It reads a waveform, one polynomial per line, loads it into a function generator,
    arms the generator and, if asked to, appends the waveform again whenever the
    queue gets short. *)
From S2P Require Import Prelude Helpers Texts Streams Tools.
From Stdlib Require Import Strings.Ascii.
Local Open Scope Z_scope.

(** ** The data file *)
Record ParamSet := mkParams {
  coeff_a : list Z; coeff_b : list Z; coeff_c : list Z;
  step : list Z; freq : list Z; shift_a : list Z; shift_b : list Z
}.
Definition no_params : ParamSet := mkParams [] [] [] [] [] [] [].

(** [%d] of [scanf]: blanks, a sign, digits; [None] is a matching failure or the end of
    the input.  A number that is no [int] has no defined result. *)
Definition scan_int (l : text) : outcome (option (Z * text)) :=
  let '(negative, l) := read_sign (skip_spaces l) in
  match span (is_radix 10) l with
  | ([], _) => Ret None
  | (ds, rest) =>
      let n := if negative then - radix_number 10 ds else radix_number 10 ds in
      if (- 2 ^ 31 <=? n) && (n <? 2 ^ 31) then Ret (Some (n, rest)) else Crash "fscanf: %d"
  end.
Fixpoint scan_ints (n : nat) (l : text) : outcome (option (list Z * text)) :=
  match n with
  | O => Ret (Some ([], l))
  | S n' =>
      r ← scan_int l;
      match r with
      | None => Ret None
      | Some (x, l') =>
          r' ← scan_ints n' l';
          Ret (match r' with Some (xs, l'') => Some (x :: xs, l'') | None => None end)
      end
  end.

(** The conversions of [push_back]. *)
Definition push_row (row : list Z) (p : ParamSet) : ParamSet :=
  match row with
  | [a; la; b; lb; c; n; s] =>
      mkParams (coeff_a p ++ [s16 a]) (coeff_b p ++ [s16 b]) (coeff_c p ++ [s32 c])
        (step p ++ [u8 n]) (freq p ++ [u8 s]) (shift_a p ++ [u8 la]) (shift_b p ++ [u8 lb])
  | _ => p
  end.

(** A row has seven numbers; [fuel]: the characters of the file are enough.  What
    follows the last row is ignored with a warning. *)
Fixpoint read_rows (fuel : nat) (l : text) (p : ParamSet) : outcome ParamSet :=
  match fuel with
  | O => Ret p
  | S fuel' =>
      r ← scan_ints 7 l;
      match r with
      | Some (row, l') => read_rows fuel' (skip_spaces l') (push_row row p)
      | None => Ret p
      end
  end.
Definition read_params (l : text) : outcome ParamSet := read_rows (length l) l no_params.

(** ** The proxies that the tool uses *)
Inductive Signal :=
  | SigStarted (time : Z)
  | SigStopped (time : Z) (abort hardwareMacroUnderflow microControllerUnderflow : bool)
  | Refill
  | SigArmed (armed : bool).

(** [wait_for_signal] gives the signals of the generator that it dispatched. *)
Class FgProxies (W : Type) := {
  interfaces : string -> string -> M W (list (string * string));
  fg_create : string -> M W unit;
  fg_Own : string -> M W unit;
  fg_Disown : string -> M W unit;
  fg_Abort : string -> M W unit;
  fg_getEnabled : string -> M W bool;
  fg_Flush : string -> M W unit;
  fg_AppendParameterSet : string -> ParamSet -> M W bool;
  fg_ReadFillLevel : string -> M W Z;
  fg_setStartTag : string -> Z -> M W unit;
  fg_Arm : string -> M W unit;
  fg_ReadExecutedParameterCount : string -> M W Z;
  scu_NewCondition : string -> bool -> Z -> Z -> Z -> Z -> M W unit;
  scu_InjectTag : string -> Z -> M W unit;
  ScanFgChannels : string -> M W unit;
  ScanMasterFg : string -> M W unit;
  wait_signals : M W (list Signal)
}.

(** ** Options *)
Record FgOptions := mkFgOptions {
  device : string; fg : string; tag : Z; event : option Z; repeat : bool; generate : bool;
  scan : option ascii; error : bool
}.
Definition no_fg_options : FgOptions := mkFgOptions "" "" 0xdeadbeef None false false None false.

(** [inr]: the help was asked for. *)
Definition parse_option (o : FgOptions) (opt : ascii) (optarg : text) : FgOptions + Z :=
  let number := fst (strtoull optarg) in
  if char_eqb opt "d" then inl (mkFgOptions (to_string optarg) (fg o) (tag o) (event o) (repeat o) (generate o) (scan o) (error o))
  else if char_eqb opt "f" then inl (mkFgOptions (device o) (to_string optarg) (tag o) (event o) (repeat o) (generate o) (scan o) (error o))
  else if char_eqb opt "r" then inl (mkFgOptions (device o) (fg o) (tag o) (event o) true (generate o) (scan o) (error o))
  else if char_eqb opt "g" then inl (mkFgOptions (device o) (fg o) (tag o) (event o) (repeat o) true (scan o) (error o))
  else if char_eqb opt "t" then inl (mkFgOptions (device o) (fg o) (u32 number) (event o) (repeat o) (generate o) (scan o) (error o))
  else if char_eqb opt "e" then inl (mkFgOptions (device o) (fg o) (tag o) (Some number) (repeat o) (generate o) (scan o) (error o))
  else if char_eqb opt "s" then
    let mode := default zero (head optarg) in
    inl (mkFgOptions (device o) (fg o) (tag o) (event o) (repeat o) (generate o) (Some mode)
           (error o || negb (char_eqb mode "i" || char_eqb mode "m")))
  else if char_eqb opt "U" then inl o
  else if char_eqb opt "h" then inr 0
  else inl (mkFgOptions (device o) (fg o) (tag o) (event o) (repeat o) (generate o) (scan o) true).
Fixpoint parse_options (o : FgOptions) (opts : list (ascii * text)) : FgOptions + Z :=
  match opts with
  | [] => inl o
  | (opt, optarg) :: opts' => match parse_option o opt optarg with inl o' => parse_options o' opts' | inr code => inr code end
  end.

(** A device, or a generator: the one that was named, or the only one. *)
Definition choose (name : string) (l : list (string * string)) : option string :=
  if bool_decide (name = ""%string) then match l with [(_, path)] => Some path | _ => None end
  else lookup_name name l.

Section FgTool.
Context {W : Type} `{!Device W, !FgProxies W}.
Variable o : FgOptions.

(** [while (fill(gen, params) && again) { }]; [fuel] is how many rounds are followed. *)
Fixpoint fill_loop (fuel : nat) (gen : string) (params : ParamSet) (again : bool) : M W unit :=
  match fuel with
  | O => crash "while (fill(gen, params))"
  | S fuel' =>
      low ← fg_AppendParameterSet gen params;
      if low && again then fill_loop fuel' gen params again else mret tt
  end.
Variable fuel : nat.
Definition on_refill (gen : string) (params : ParamSet) : M W unit := fill_loop fuel gen params true.

(** The slots that are connected; the result is [continue_main_loop]. *)
Definition handle (gen scu : string) (params : ParamSet) (s : Signal) : M W bool :=
  match s with
  | SigStarted _ => mret true
  | SigStopped _ _ _ _ => mret false
  | Refill => (if repeat o then on_refill gen params else mret tt);; mret true
  | SigArmed armed => (if generate o && armed then scu_InjectTag scu (tag o) else mret tt);; mret true
  end.
Fixpoint handle_all (gen scu : string) (params : ParamSet) (l : list Signal) (continue_main_loop : bool) : M W bool :=
  match l with
  | [] => mret continue_main_loop
  | s :: l' => b ← handle gen scu params s; handle_all gen scu params l' (continue_main_loop && b)
  end.
Fixpoint main_loop (rounds : nat) (gen scu : string) (params : ParamSet) : M W unit :=
  match rounds with
  | O => crash "wait_for_signal"
  | S rounds' =>
      l ← wait_signals;
      continue_main_loop ← handle_all gen scu params l true;
      if continue_main_loop : bool then main_loop rounds' gen scu params else mret tt
  end.
(** Nothing is connected yet. *)
Fixpoint wait_disabled (rounds : nat) (gen : string) : M W unit :=
  match rounds with
  | O => crash "wait_for_signal"
  | S rounds' => b ← fg_getEnabled gen; if b : bool then _ ← wait_signals; wait_disabled rounds' gen else mret tt
  end.

Definition play (gen scu : string) (params : ParamSet) : M W Z :=
  fg_Own gen;;
  fg_Abort gen;;
  wait_disabled fuel gen;;
  fg_Flush gen;;
  fill_loop fuel gen params (repeat o);;
  _ ← fg_ReadFillLevel gen;
  (if event o is Some e then scu_NewCondition scu true e (2 ^ 64 - 1) 0 (tag o) else mret tt);;
  fg_setStartTag gen (tag o);;
  fg_Arm gen;;
  main_loop fuel gen scu params;;
  _ ← fg_ReadExecutedParameterCount gen;
  mret 0.

(** ** The scan for generators *)
Definition nothing_owned (receiver : string) : M W bool :=
  try_catch
    (fgs ← interfaces receiver "FunctionGenerator";
     for_each (fun '(_, path) => fg_create path;; fg_Own path;; fg_Disown path) fgs;;
     mret true)
    (fun e => match e with Error _ _ => mret false | e => throw e end).
Definition scan_channels (receiver : string) (mode : ascii) : M W Z :=
  fw ← interfaces receiver "FunctionGeneratorFirmware";
  match fw with
  | [] => mret 1
  | (_, path) :: _ =>
      fg_create path;;
      free ← nothing_owned receiver;
      (if free : bool then
         try_catch (if char_eqb mode "i" then ScanFgChannels path else if char_eqb mode "m" then ScanMasterFg path else mret tt)
           (fun e => match e with Error _ _ => mret tt | e => throw e end)
       else mret tt);;
      mret 0
  end.

(** [main] behind the options; [input]: standard input. *)
Definition run (input : text) : M W Z :=
  devices ← getDevices;
  match choose (device o) devices with
  | None => mret 1
  | Some receiver =>
      create_receiver receiver;;
      scus ← interfaces receiver "SCUbusActionSink";
      match scus with
      | [(_, scu)] =>
          fg_create scu;;
          match scan o with
          | Some mode => scan_channels receiver mode
          | None =>
              fgs ← interfaces receiver "FunctionGenerator";
              match choose (fg o) fgs with
              | None => mret 1
              | Some gen =>
                  fg_create gen;;
                  params ← of_outcome (read_params input);
                  if (length (shift_b params) =? 0)%nat then mret 1 else play gen scu params
              end
          end
      | _ => mret 1
      end
  end.
End FgTool.

Definition main {W} `{!Device W, !FgProxies W} (fuel : nat) (opts : list (ascii * text)) (words : nat) (input : text) : M W Z :=
  match parse_options no_fg_options opts with
  | inr code => mret code
  | inl o => if error o || negb (words =? 0)%nat then mret 1 else catch_error 0 (run o fuel input)
  end.
