(* ===== verification/FgToolCorrect.v ===== *)
(** * The tool for function generators: from the lines of a file to the generator's queue *)
From S2P Require Import Prelude Bus Loop Owned EcaOps FunctionGen FunctionGenCorrect FunctionGenRuns FunctionGenSystem.
From S2P Require Import Helpers Texts Streams Tools FgTool.
From Stdlib Require Import Strings.Ascii.
Local Open Scope Z_scope.

(** ** The text of a waveform *)
Definition int_text (n : Z) : text := if n <? 0 then str "-" ++ digits 10 (- n) else digits 10 n.
Definition row_of (t : ParameterTuple) : list Z :=
  [FunctionGen.coeff_a t; FunctionGen.shift_a t; FunctionGen.coeff_b t; FunctionGen.shift_b t; FunctionGen.coeff_c t;
   FunctionGen.step t; FunctionGen.freq t].
Definition row_text (row : list Z) : text := row ≫= (fun n => str " " ++ int_text n).
Definition wave_text (ts : list ParameterTuple) : text := ts ≫= (fun t => row_text (row_of t) ++ [newline]).

Definition is_int (n : Z) : Prop := - 2 ^ 31 <= n < 2 ^ 31.
Lemma scan_int_printed n rest : is_int n -> ends_word rest -> scan_int (str " " ++ int_text n ++ rest) = Ret (Some (n, rest)).
Proof.
  unfold is_int. change (2 ^ 31) with 2147483648. intros Hn Hrest.
  unfold scan_int. change (skip_spaces (str " " ++ int_text n ++ rest)) with (skip_spaces (int_text n ++ rest)).
  assert (forall m, 0 <= m <= 2147483648 -> 0 <= m < 2 ^ 64) as Hm by (change (2 ^ 64) with 18446744073709551616; lia).
  unfold int_text. destruct (Z.ltb_spec n 0) as [Hneg|Hpos].
  - rewrite <- app_assoc. change (skip_spaces (str "-" ++ digits 10 (- n) ++ rest)) with ("-"%char :: digits 10 (- n) ++ rest).
    cbn [read_sign]. change (char_eqb "-" "-") with true. cbv iota beta.
    rewrite span_digits by (done || lia || (apply Hm; lia)). destruct (digits_read 10 ltac:(lia) (- n) ltac:(apply Hm; lia)) as (Ev & _ & Hne).
    destruct (digits 10 (- n)) as [|c ds]; [done|]. rewrite Ev, Z.opp_involutive.
    by rewrite (proj2 (Z.leb_le _ _)), (proj2 (Z.ltb_lt _ _)) by (change (2 ^ 31) with 2147483648; lia).
  - rewrite skip_spaces_digits, read_sign_digits by (done || lia || (apply Hm; lia)). cbv iota beta.
    rewrite span_digits by (done || lia || (apply Hm; lia)). destruct (digits_read 10 ltac:(lia) n ltac:(apply Hm; lia)) as (Ev & _ & Hne).
    destruct (digits 10 n) as [|c ds]; [done|]. rewrite Ev.
    by rewrite (proj2 (Z.leb_le _ _)), (proj2 (Z.ltb_lt _ _)) by (change (2 ^ 31) with 2147483648; lia).
Qed.

Lemma row_text_word row rest : ends_word rest -> ends_word (row_text row ++ rest).
Proof. by destruct row. Qed.
Lemma scan_ints_printed row rest : Forall is_int row -> ends_word rest ->
  scan_ints (length row) (row_text row ++ rest) = Ret (Some (row, rest)).
Proof.
  intros Hrow Hrest. induction Hrow as [|n row Hn _ IH]; [done|]. cbn [length scan_ints].
  change (row_text (n :: row) ++ rest) with (((str " " ++ int_text n) ++ row_text row) ++ rest). rewrite <- !app_assoc.
  rewrite scan_int_printed by (done || by apply row_text_word). unfold mbind at 1, outcome_bind at 1. by rewrite IH.
Qed.

(** The columns that the tuples have. *)
Definition append_tuples (p : ParamSet) (ts : list ParameterTuple) : ParamSet :=
  mkParams (coeff_a p ++ (FunctionGen.coeff_a <$> ts)) (coeff_b p ++ (FunctionGen.coeff_b <$> ts)) (coeff_c p ++ (FunctionGen.coeff_c <$> ts))
    (step p ++ (FunctionGen.step <$> ts)) (freq p ++ (FunctionGen.freq <$> ts))
    (shift_a p ++ (FunctionGen.shift_a <$> ts)) (shift_b p ++ (FunctionGen.shift_b <$> ts)).

Lemma push_row_tuple t p : tuple_ok t -> push_row (row_of t) p = append_tuples p [t] /\ Forall is_int (row_of t).
Proof.
  intros [Ha Hb Hc Hs Hf Hsa Hsb]. split.
  - unfold push_row, row_of, append_tuples. cbn [fmap list_fmap].
    rewrite !unsigned_wrap_small by (change (2 ^ 8) with 256; lia). by rewrite !signed_wrap_small by lia.
  - unfold is_int, row_of. repeat constructor; change (2 ^ 31) with 2147483648; change (2 ^ 15) with 32768 in *; lia.
Qed.
(** A space in front of a row does not matter: [scan_int] skips it, as the newline in
    the format does before. *)
Lemma skip_spaces_idemp l : skip_spaces (skip_spaces l) = skip_spaces l.
Proof. induction l as [|c l IH]; [done|]. cbn. destruct (is_space c) eqn:E; [done|]. cbn. by rewrite E. Qed.
Lemma scan_ints_skip n l : scan_ints (S n) (skip_spaces l) = scan_ints (S n) l.
Proof.
  assert (scan_int (skip_spaces l) = scan_int l) as E by (unfold scan_int; by rewrite skip_spaces_idemp).
  cbn [scan_ints]. by rewrite E.
Qed.

Lemma read_rows_printed ts : forall fuel l p, Forall tuple_ok ts -> (length ts < fuel)%nat ->
  skip_spaces l = skip_spaces (wave_text ts) -> read_rows fuel l p = Ret (append_tuples p ts).
Proof.
  induction ts as [|t ts IH]; intros fuel l p Hts Hf Hl; (destruct fuel as [|fuel]; [cbn in Hf; lia|]); cbn [read_rows];
    rewrite <- scan_ints_skip, Hl.
  - change (skip_spaces (wave_text [])) with (@nil ascii). change (scan_ints 7 []) with (Ret (A := option (list Z * text)) None).
    unfold mbind, outcome_bind. f_equal. unfold append_tuples. destruct p. cbn. by rewrite !app_nil_r.
  - apply Forall_cons in Hts as [Ht Hts]. destruct (push_row_tuple t p Ht) as [Ep Hi].
    change (wave_text (t :: ts)) with ((row_text (row_of t) ++ [newline]) ++ wave_text ts). rewrite <- app_assoc, scan_ints_skip.
    pose proof (scan_ints_printed (row_of t) ([newline] ++ wave_text ts) Hi eq_refl) as E. change (length (row_of t)) with 7%nat in E. rewrite E. unfold mbind, outcome_bind. cbv iota beta.
    rewrite (IH fuel _ _ Hts); [|cbn in Hf; lia|change (skip_spaces ([newline] ++ wave_text ts)) with (skip_spaces (wave_text ts)); apply skip_spaces_idemp].
    rewrite Ep. unfold append_tuples. cbn [coeff_a coeff_b coeff_c step freq shift_a shift_b fmap list_fmap]. by rewrite <- !app_assoc.
Qed.

Lemma wave_text_length ts : (length ts <= length (wave_text ts))%nat /\ (ts <> [] -> length ts < length (wave_text ts))%nat.
Proof.
  induction ts as [|t ts [IH _]]; [done|]. change (wave_text (t :: ts)) with ((row_text (row_of t) ++ [newline]) ++ wave_text ts).
  rewrite !length_app. cbn. lia.
Qed.
(** A waveform that was written to a file is read as it was. *)
Lemma read_params_printed ts : Forall tuple_ok ts -> ts <> [] -> read_params (wave_text ts) = Ret (append_tuples no_params ts).
Proof. intros Hts Hne. apply read_rows_printed; [done| |done]. by apply wave_text_length. Qed.

(** ** Loading the waveform into an idle generator *)
Section Load.
Context {D : Type} `{!Bus D} `{!FgMemory D}.
Context (eca mailbox fgb num_channels buffer_size : Z) (time_fuel : nat).
Context `{!FgDevice D eca mailbox fgb num_channels buffer_size time_fuel}.
Context (Hlay : layout_ok num_channels buffer_size).
Local Abbreviation at_ := (at_any fgb num_channels buffer_size).
Local Abbreviation W := (FgWorld D).

Definition waveform (ts : list ParameterTuple) : ParamSet := append_tuples no_params ts.

Lemma waveform_tuples ts :
  tuples (coeff_a (waveform ts)) (coeff_b (waveform ts)) (coeff_c (waveform ts)) (step (waveform ts)) (freq (waveform ts))
    (shift_a (waveform ts)) (shift_b (waveform ts)) = ts.
Proof.
  unfold waveform, append_tuples, no_params. cbn [coeff_a coeff_b coeff_c step freq shift_a shift_b app].
  induction ts as [|t ts IH]; [done|]. cbn [fmap list_fmap tuples]. f_equal; [by destruct t|exact IH].
Qed.
(** What the generator accepts. *)
Definition row_ok (t : ParameterTuple) : Prop := tuple_ok t /\ FunctionGen.shift_a t <= 48 /\ FunctionGen.shift_b t <= 48.
Lemma rows_tuples ts : Forall row_ok ts -> Forall tuple_ok ts.
Proof. intros H. eapply Forall_impl; [exact H|]. by intros t []. Qed.
Lemma waveform_valid ts : Forall row_ok ts ->
  validate (zip (zip (zip (step (waveform ts)) (freq (waveform ts))) (shift_a (waveform ts))) (shift_b (waveform ts))) = Ret tt.
Proof.
  unfold waveform, append_tuples, no_params. cbn [step freq shift_a shift_b app].
  induction 1 as [|t ts ([Ha Hb Hc Hs Hf Hsa Hsb] & Ka & Kb) _ IH]; [done|]. cbn [fmap list_fmap zip_with validate].
  rewrite !(proj2 (Z.leb_gt 8 _)), !(proj2 (Z.ltb_ge 48 _)) by lia. exact IH.
Qed.
Lemma waveform_lengths ts l : let p := waveform ts in
  l = coeff_b p \/ l = coeff_c p \/ l = step p \/ l = freq p \/ l = shift_a p \/ l = shift_b p ->
  bool_decide (length l = length (coeff_a p)) = true.
Proof.
  intros p Hl. apply bool_decide_eq_true. destruct Hl as [->|[->|[->|[->|[->| ->]]]]]; unfold p, waveform, append_tuples;
    cbn [coeff_a coeff_b coeff_c step freq shift_a shift_b no_params app]; by rewrite !length_fmap.
Qed.

(** Tuples for an idle generator: no access to the hardware. *)
Lemma append_tuples_idle i fg ts w : at_ i fg w -> channel fg = -1 -> Forall tuple_ok ts ->
  Z.of_nat (length (fifo fg) + length ts) < 2 ^ 32 ->
  exists fg' w', appendParameterTuples fgb num_channels buffer_size i ts w = (Ret (lowFill buffer_size fg'), w') /\
    at_ i fg' w' /\ fifo fg' = fifo fg ++ ts /\ channel fg' = -1 /\ front w' = front w /\ fw_caller w' = fw_caller w.
Proof.
  intros Hw Hc Hts Hlen.
  pose proof (triple_append_tuples eca mailbox fgb num_channels buffer_size time_fuel Hlay i fg ts Hts Hlen w Hw) as H.
  destruct (push_tuples_spec ts fg Hts (good_core _ _ _ _ _ _ (inv_fgs _ _ _ _ (proj1 Hw) i fg (proj2 Hw))) Hlen) as (fg' & Ep & cap & mx & _ & _ & Efg').
  set (w' := mkFgWorld (fw_dev w) (alter (fun _ => fg') i (fgs w)) (allocation w) (fw_loop w) (fw_now w) (fw_caller w) (front w) (fw_out w)).
  assert (fgs w' !! i = Some fg') as Hi by (unfold w'; cbn [fgs]; by rewrite list_lookup_alter_eq, (proj2 Hw)).
  assert (channel fg' = -1) as Hc' by (by rewrite Efg').
  assert (appendParameterTuples fgb num_channels buffer_size i ts w = (Ret (lowFill buffer_size fg'), w')) as E.
  { unfold appendParameterTuples. rewrite (run_bind_ret _ _ w fg w) by (unfold get_fg; by rewrite (proj2 Hw)).
    rewrite (run_bind_ret _ _ w fg' w) by (by rewrite Ep). rewrite (run_bind_ret _ _ w tt w') by reflexivity.
    rewrite Hc'. rewrite (run_bind_ret _ _ w' tt w') by reflexivity.
    rewrite (run_bind_ret _ _ w' fg' w') by (unfold get_fg; by rewrite Hi). reflexivity. }
  exists fg', w'. split; [exact E|]. rewrite E in H. destruct H as (fg2 & Hw2 & _ & _).
  assert (fg2 = fg') as -> by (destruct Hw2 as [_ Hi2]; congruence). split_and!; [exact Hw2|by rewrite Efg'|done..].
Qed.

Lemma append_idle i fg ts w : at_ i fg w -> channel fg = -1 -> Forall row_ok ts ->
  Z.of_nat (length (fifo fg) + length ts) < 2 ^ 32 ->
  let p := waveform ts in
  exists fg' w',
    appendParameterSet fgb num_channels buffer_size i (coeff_a p) (coeff_b p) (coeff_c p) (step p) (freq p) (shift_a p) (shift_b p) w =
      (Ret (lowFill buffer_size fg'), w') /\
    at_ i fg' w' /\ fifo fg' = fifo fg ++ ts /\ channel fg' = -1 /\ front w' = front w /\ fw_caller w' = fw_caller w.
Proof.
  intros Hw Hc Hts Hlen p. destruct (append_tuples_idle i fg ts w Hw Hc (rows_tuples ts Hts) Hlen) as (fg' & w' & E & H).
  exists fg', w'. split; [|exact H]. rewrite <- E. pose proof (waveform_lengths ts) as Hl. cbv zeta in Hl. fold p in Hl.
  unfold appendParameterSet. cbv zeta. rewrite !Hl by tauto. cbn [negb throw_if].
  do 6 (rewrite (run_bind_ret _ _ w tt w) by reflexivity).
  unfold p. rewrite waveform_valid, waveform_tuples by done. by rewrite (run_bind_ret _ _ w tt w) by reflexivity.
Qed.

(** The caller owns the generator. *)
Definition owned i (w : W) : Prop := owner_only i w = (Ret tt, w).
Lemma owned_same i (w w' : W) : front w' = front w -> fw_caller w' = fw_caller w -> owned i w -> owned i w'.
Proof.
  unfold owned, owner_only. intros Ef Ec. rewrite (run_bind_ret _ _ w w w) by reflexivity. rewrite (run_bind_ret _ _ w' w' w') by reflexivity.
  rewrite Ef, Ec. unfold of_outcome. destruct (front w) as [services|m]; intros [= ->]; done.
Qed.

Context `{!FgProxies W}.
(** The proxy of generator [i] calls the driver. *)
Variable gen : string.
Definition calls_driver (i : nat) : Prop := forall p w,
  fg_AppendParameterSet gen p w =
    remote (FunctionGenerator_AppendParameterSet fgb num_channels buffer_size i (coeff_a p) (coeff_b p) (coeff_c p) (step p) (freq p) (shift_a p) (shift_b p)) w.

Lemma proxy_append i fg ts w : calls_driver i -> at_ i fg w -> channel fg = -1 -> Forall row_ok ts -> owned i w ->
  Z.of_nat (length (fifo fg) + length ts) < 2 ^ 32 ->
  exists fg' w', fg_AppendParameterSet gen (waveform ts) w = (Ret (lowFill buffer_size fg'), w') /\
    at_ i fg' w' /\ fifo fg' = fifo fg ++ ts /\ channel fg' = -1 /\ owned i w'.
Proof.
  intros Hg Hw Hc Hts Ho Hlen. destruct (append_idle i fg ts w Hw Hc Hts Hlen) as (fg' & w' & E & Hw' & Hq & Hc' & Ef & Ec).
  exists fg', w'. split; [|by eauto using owned_same]. rewrite Hg. unfold remote, try_catch, FunctionGenerator_AppendParameterSet.
  by rewrite (run_bind_ret _ _ _ _ _ Ho), E.
Qed.

(** Below it the generator asks for more. *)
Definition threshold : Z := u32 (buffer_size * 2).

Lemma fill_loop_spec i ts again : calls_driver i -> Forall row_ok ts -> ts <> [] -> forall fuel fg w,
  at_ i fg w -> channel fg = -1 -> owned i w ->
  Z.max (Z.of_nat (length (fifo fg))) threshold + Z.of_nat (length ts) < 2 ^ 32 ->
  threshold <= Z.of_nat (length (fifo fg)) + Z.of_nat fuel -> (0 < fuel)%nat ->
  exists fg' w' k, fill_loop fuel gen (waveform ts) again w = (Ret tt, w') /\ at_ i fg' w' /\ channel fg' = -1 /\
    fifo fg' = fifo fg ++ concat (replicate (S k) ts) /\
    (again = false -> k = 0%nat) /\
    (again = true -> threshold <= Z.of_nat (length (fifo fg')) /\
       (k = 0%nat \/ Z.of_nat (length (fifo fg')) < threshold + Z.of_nat (length ts))).
Proof.
  intros Hg Hts Hne. assert (0 < length ts)%nat as Hpos by (destruct ts; [done|cbn; lia]).
  induction fuel as [|fuel IH]; intros fg w Hw Hc Ho Hlen Hf Hf0; [lia|].
  assert (0 <= threshold) as Ht0 by (unfold threshold; apply unsigned_wrap_range; lia).
  destruct (proxy_append i fg ts w Hg Hw Hc Hts Ho ltac:(lia)) as (fg1 & w1 & E1 & Hw1 & Hq1 & Hc1 & Ho1).
  cbn [fill_loop]. rewrite (run_bind_ret _ _ _ _ _ E1). unfold lowFill at 1. fold threshold.
  assert (length (fifo fg1) = length (fifo fg) + length ts)%nat as Hl1 by (by rewrite Hq1, length_app).
  destruct (Z.ltb_spec (Z.of_nat (length (fifo fg1))) threshold) as [Hlow|Hhigh]; cbn [andb].
  - destruct again.
    + destruct (IH fg1 w1 Hw1 Hc1 Ho1) as (fg2 & w2 & k & E2 & Hw2 & Hc2 & Hq2 & _ & Hk); [lia..|].
      exists fg2, w2, (S k). split_and!; [exact E2|done|done|by rewrite Hq2, Hq1, <- app_assoc|done|].
      intros _. destruct (Hk eq_refl) as [Hth Hmin]. split; [done|]. right. destruct Hmin as [->|?]; [|done].
      rewrite Hq2. cbn [replicate concat]. rewrite length_app, app_nil_r. lia.
    + exists fg1, w1, 0%nat. split_and!; [done..| |done|done]. by rewrite Hq1; cbn; rewrite app_nil_r.
  - exists fg1, w1, 0%nat. split_and!; [done..| |done|]; [by rewrite Hq1; cbn; rewrite app_nil_r|]. intros _. split; [lia|by left].
Qed.

End Load.

(** ** The generators of [FgDemo] behind proxies *)
Module FgToolDemo.
Import FgDemo.
Definition quiet_call {A} (a : A) : M (FgWorld ram) A := fun w => (Ret a, w).
#[export] Instance demo_proxies : FgProxies (FgWorld ram) := {|
  interfaces := fun _ _ => quiet_call []; fg_create := fun _ => quiet_call tt; fg_Own := fun _ => quiet_call tt; fg_Disown := fun _ => quiet_call tt;
  fg_Abort := fun _ => remote (FunctionGenerator_Abort mbx 0 5); fg_getEnabled := fun _ => fg ← get_fg 0; mret (enabled fg);
  fg_Flush := fun _ => remote (FunctionGenerator_Flush 0);
  fg_AppendParameterSet := fun _ p => remote (FunctionGenerator_AppendParameterSet 0 2 slots 0 (coeff_a p) (coeff_b p) (coeff_c p) (step p) (freq p) (shift_a p) (shift_b p));
  fg_ReadFillLevel := fun _ => fg ← get_fg 0; mret (fillLevel fg); fg_setStartTag := fun _ v => remote (FunctionGenerator_setStartTag 0 v);
  fg_Arm := fun _ => remote (FunctionGenerator_Arm mbx 0 2 slots 0); fg_ReadExecutedParameterCount := fun _ => ReadExecutedParameterCount 0 0;
  scu_NewCondition := fun _ _ _ _ _ _ => quiet_call tt; scu_InjectTag := fun _ _ => quiet_call tt; ScanFgChannels := fun _ => quiet_call tt;
  ScanMasterFg := fun _ => quiet_call tt; wait_signals := quiet_call [SigArmed true; SigStarted 0; SigStopped 5 false false false] |}.

Definition ramp : list ParameterTuple :=
  [mkTuple 1 (-2) 300 2 3 4 5; mkTuple (-32768) 32767 (-2147483648) 7 0 48 48; mkTuple 0 0 0 0 0 0 0].


(** The whole sequence: loaded, armed, and it ends when the generator stops. *)
Example play_demo :
  let '(r, w) := play (mkFgOptions "" "" 0xdeadbeef None false true None false) 10 "fg" "scu" (waveform ramp) w0 in
  r = Ret 0 /\ fifo (gen_at 0 w) = ramp /\ enabled (gen_at 0 w) = true.
Proof. vm_compute. done. Qed.

(** Numbers that do not fit are cut without a word: step 258 becomes 2, and the generator's
    check does not see it. *)
Example step_wraps : step <$> match read_params (str "1 0 1 0 1 258 0") with Ret p => Some p | _ => None end = Some [2].
Proof. vm_compute. done. Qed.
(** A line with a word in it ends the waveform: what follows is not played. *)
Example rest_ignored :
  coeff_a <$> match read_params (str "1 0 1 0 1 2 0 # start" ++ [newline] ++ str "2 0 1 0 1 2 0") with Ret p => Some p | _ => None end = Some [1].
Proof. vm_compute. done. Qed.

(** A generator whose queue was configured with capacity 0 takes nothing and always asks
    for more: with -r the loop does not end. *)
Definition w_0 : FgWorld ram :=
  mkFgWorld ram0 [mkFG 0 0 0x01020300 (Some 0) (-1) false false false false null_handle 0 0 0 0 [] 0 0] [-1; -1] (mkLoop [] [] false 0 1 0) 0
    (mkCaller true 7) (Singles [Some (-1)]) [].
Example capacity_0_goes_on : (fill_loop 1000 "fg" (waveform ramp) true w_0).1 = Crash "while (fill(gen, params))" /\
  fifo (gen_at 0 (fill_loop 1000 "fg" (waveform ramp) true w_0).2) = [].
Proof. vm_compute. done. Qed.
End FgToolDemo.
