(* ===== verification/PpsGen.v ===== *)
(** * A pulse per second: saft-pps-gen.cpp of [src/src/]

    The tool makes conditions for the edges of a pulse at every output, and injects the
    event of the pulse for every full second. *)
From S2P Require Import Prelude Time BurstControl Texts Streams Tools.
From Stdlib Require Import Strings.Ascii.
Local Open Scope Z_scope.

Definition ECA_EVENT_ID : Z := 0x1fff000000000000.
Definition ECA_EVENT_MASK : Z := 0xffff000000000000.

(** What the tool calls besides the clock ([Device]) and the operations on lines and
    conditions ([Proxies]). *)
Class PpsProxies (W : Type) := {
  getLocked : string -> M W bool;
  receiver_outputs : string -> M W (list (string * string));
  receiver_inputs : string -> M W (list (string * string));
  scu_sinks : string -> M W (list (string * string));
  scu_condition : string -> bool -> Z -> Z -> Z -> Z -> M W string;
  ToggleActive : string -> M W unit;
  InactivateAll : string -> M W unit;
  (** [poll] and [read]: is standard input at its end? *)
  stdin_closed : M W bool
}.

Record PpsOptions := mkPps { setup_io : bool; external_trigger : bool; just_inject : bool; scu_bus_tag : option Z }.
Definition parse_option (o : PpsOptions) (opt : ascii) (optarg : text) : option PpsOptions :=
  if char_eqb opt "s" then Some (mkPps true (external_trigger o) (just_inject o) (scu_bus_tag o))
  else if char_eqb opt "e" then Some (mkPps (setup_io o) true (just_inject o) (scu_bus_tag o))
  else if char_eqb opt "i" then Some (mkPps (setup_io o) (external_trigger o) true (scu_bus_tag o))
  else if char_eqb opt "U" || char_eqb opt "v" then Some o
  else if char_eqb opt "t" then Some (mkPps (setup_io o) (external_trigger o) (just_inject o) (Some (u32 (fst (strtoull optarg)))))
  else None.
(** [None]: the help is shown, also for a number of arguments other than one. *)
Fixpoint parse_options (o : PpsOptions) (opts : list (ascii * text)) : option PpsOptions :=
  match opts with [] => Some o | (opt, optarg) :: opts' => o' ← parse_option o opt optarg; parse_options o' opts' end.

Section PpsGen.
Context {W : Type} `{!Device W, !Proxies W, !PpsProxies W}.
Variable o : PpsOptions.
Variable receiver : string.

Definition accept_all (c : string) : M W unit :=
  setAccept c Conflict true;; setAccept c Delayed true;; setAccept c Early true;; setAccept c Late true.

(** An output: enabled, its input without termination if asked for, and the conditions
    of the two edges, inactive. *)
Definition setup_output (path : string) : M W unit :=
  create path;;
  (if setup_io o then
     available ← getOutputEnableAvailable path;
     if available : bool then output_call path (setOutputEnable 1) else mret tt
   else mret tt);;
  io_partner ← getInput path;
  (if negb (bool_decide (io_partner = ""%string)) && setup_io o then
     create io_partner;;
     available ← getInputTerminationAvailable io_partner;
     if available : bool then input_call io_partner (setInputTermination 0) else mret tt
   else mret tt);;
  condition_high ← out_NewCondition path false ECA_EVENT_ID ECA_EVENT_MASK 0 true;
  create condition_high;;
  condition_low ← out_NewCondition path false ECA_EVENT_ID ECA_EVENT_MASK 100000000 false;
  create condition_low;;
  accept_all condition_high;;
  accept_all condition_low.

(** [false]: there is no SCU bus. *)
Definition setup_scu_bus : M W bool :=
  match scu_bus_tag o with
  | None => mret true
  | Some tag =>
      sinks ← scu_sinks receiver;
      match sinks with
      | [(_, sink)] =>
          create sink;;
          c ← scu_condition sink false ECA_EVENT_ID ECA_EVENT_MASK 0 tag;
          create c;;
          accept_all c;;
          mret true
      | _ => mret false
      end
  end.

(** The time of the next pulse: two seconds on for the first one. *)
Definition next_pulse (first_pps : bool) (wrTime : Time) : Time :=
  time_plus (time_minus wrTime (getTAI wrTime mod NS)) (if first_pps then 2 * NS else NS).

(** [while(wrNext>receiver->CurrentTime())]: [true] when standard input was closed. *)
Fixpoint wait_pulse (fuel : nat) (wrNext : Time) : M W bool :=
  match fuel with
  | O => crash "waits for the pulse"
  | S fuel' =>
      t ← CurrentTime receiver false;
      if time_lt t wrNext then
        closed ← stdin_closed;
        if closed : bool then InactivateAll receiver;; mret true
        else usleep 100000;; wait_pulse fuel' wrNext
      else mret false
  end.
(** [fuel]: the rounds of waiting, and the pulses that are followed. *)
Fixpoint pulses (fuel : nat) (first_pps : bool) (n : nat) : M W Z :=
  match n with
  | O => crash "runs for ever"
  | S n' =>
      wrTime ← CurrentTime receiver false;
      let wrNext := next_pulse first_pps wrTime in
      InjectEvent receiver ECA_EVENT_ID 0 wrNext;;
      closed ← wait_pulse fuel wrNext;
      if closed : bool then mret 0 else pulses fuel false n'
  end.

(** Events of somebody else are shown; the slots only print. *)
Definition snoop_pulses : M W Z :=
  sink ← NewSoftwareActionSink;
  create sink;;
  c ← sw_NewCondition sink false ECA_EVENT_ID ECA_EVENT_MASK 0;
  create c;;
  connect_action c;;
  accept_all c;;
  ToggleActive receiver;;
  wait_for_ever.

Definition run (fuel n : nat) : M W Z :=
  locked ← getLocked receiver;
  if negb locked then mret (-1)
  else
    _ ← CurrentTime receiver false;
    outs ← receiver_outputs receiver;
    _ ← receiver_inputs receiver;
    (if just_inject o then mret tt else for_each (fun '(_, path) => setup_output path) outs);;
    scu ← setup_scu_bus;
    if negb scu then mret (-1)
    else if external_trigger o then snoop_pulses
    else ToggleActive receiver;; pulses fuel true n.
End PpsGen.

Definition main {W} `{!Device W, !Proxies W, !PpsProxies W} (opts : list (ascii * text)) (args : list string) (fuel n : nat) : M W Z :=
  match parse_options (mkPps false false false None) opts, args with
  | Some o, [deviceName] =>
      catch_error (-1)
        (receiver ← find_device false deviceName;
         match receiver with None => mret (-1) | Some receiver => run o receiver fuel n end)
  | _, _ => mret 0
  end.

(** ** A pulse per second: every second, once *)

(** What standard input and the receiver's conditions do takes time, nothing else. *)
Class PpsOk (W : Type) `{!Device W, !PpsProxies W} (receiver : string) `{!DeviceOk W receiver} := {
  stdin_ok w : exists b w', stdin_closed w = (Ret b, w') /\ now w <= now w' /\ log w' = log w;
  InactivateAll_ok w : exists w', InactivateAll receiver w = (Ret tt, w') /\ now w <= now w' /\ log w' = log w
}.

(** The pulses after a pulse at [prev]: each one a full second, injected when the one
    before is over, a second after it at least, and exactly a second after it unless the
    tool was delayed until the next second. *)
Fixpoint every_second (prev : Z) (l : list Injected) : Prop :=
  match l with
  | [] => True
  | i :: l' =>
      in_event i = ECA_EVENT_ID /\ in_deadline i mod NS = 0 /\ prev <= at_time i /\ prev + NS <= in_deadline i /\
      (at_time i < prev + NS -> in_deadline i = prev + NS) /\ every_second (in_deadline i) l'
  end.

Section Correct.
Context {W : Type} `{!Device W, !Proxies W, !PpsProxies W} (receiver : string) `{!DeviceOk W receiver, !PpsOk W receiver}.
Implicit Types w : W.

(** A full second behind [t]. *)
Lemma next_pulse_spec first t : 0 <= t < 2 ^ 62 ->
  exists k, next_pulse first (mkTime t) = mkTime (k * NS) /\ k * NS = t - t mod NS + (if first then 2 * NS else NS).
Proof.
  change (2 ^ 62) with 4611686018427387904. intros Ht. exists (t / NS + if first then 2 else 1).
  unfold next_pulse, time_plus, time_minus, add_assign, sub_assign, getTAI. cbn [TAI].
  unfold NS. pose proof (Z.div_mod t 1000000000 ltac:(lia)). pose proof (Z.mod_pos_bound t 1000000000 ltac:(lia)).
  split; [|destruct first; lia]. f_equal. rewrite (unsigned_wrap_small 64 (t - _)) by (change (2 ^ 64) with 18446744073709551616; lia).
  destruct first; rewrite unsigned_wrap_small by (change (2 ^ 64) with 18446744073709551616; lia); lia.
Qed.

(** Waiting: no pulses, and if it returns without the end of standard input the pulse is over. *)
Lemma wait_pulse_spec fuel next w :
  match wait_pulse receiver fuel (mkTime next) w with
  | (Ret closed, w') => log w' = log w /\ now w <= now w' /\ (closed = false -> next <= now w')
  | (Throw _, _) => False
  | (Crash _, w') => log w' = log w /\ now w <= now w'
  end.
Proof.
  revert w. induction fuel as [|fuel IH]; intros w; cbn [wait_pulse]; [split; [done|lia]|].
  destruct (CurrentTime_ok false w) as (t & w1 & E1 & Ht & L1 & _). rewrite (run_bind_ret _ _ _ _ _ E1).
  unfold time_lt. cbn [TAI]. destruct (Z.ltb_spec t next) as [Hlt|Hge]; [|cbn; split_and!; [done|lia|lia]].
  destruct (stdin_ok w1) as (b & w2 & E2 & N2 & L2). rewrite (run_bind_ret _ _ _ _ _ E2). destruct b.
  - destruct (InactivateAll_ok w2) as (w3 & E3 & N3 & L3). rewrite (run_bind_ret _ _ _ _ _ E3). cbn. split_and!; [congruence|lia|done].
  - destruct (usleep_ok (receiver := receiver) 100000 w2) as (w3 & E3 & N3 & L3 & _). rewrite (run_bind_ret _ _ _ _ _ E3).
    specialize (IH w3). destruct (wait_pulse _ _ _ w3) as [[closed|e|why] w4]; [|done|].
    + destruct IH as (L & N & Hc). split_and!; [congruence|lia|done].
    + destruct IH as (L & N). split; [congruence|lia].
Qed.

Lemma pulses_spec fuel n prev w : 0 <= now w ->
  match pulses receiver fuel false n w with
  | (Throw _, _) => False
  | (_, w') => now w <= now w' /\ exists l, log w' = log w ++ l /\
      (prev <= now w -> now w' < 2 ^ 62 -> prev mod NS = 0 -> every_second prev l)
  end.
Proof.
  revert prev w. induction n as [|n IH]; intros prev w Hw; cbn [pulses].
  { split; [lia|]. exists []. by rewrite app_nil_r. }
  destruct (CurrentTime_ok false w) as (t & w1 & E1 & Ht & L1 & _). rewrite (run_bind_ret _ _ _ _ _ E1). cbv zeta.
  destruct (InjectEvent_ok ECA_EVENT_ID 0 (next_pulse false (mkTime t)) w1) as (w2 & E2 & N2 & L2 & _). rewrite (run_bind_ret _ _ _ _ _ E2).
  destruct (next_pulse false (mkTime t)) as [next] eqn:En. cbn [TAI] in L2.
  set (i := mkInjected (now w1) ECA_EVENT_ID 0 next) in *.
  assert (prev <= now w -> now w2 < 2 ^ 62 -> prev mod NS = 0 ->
    next mod NS = 0 /\ prev + NS <= next /\ (now w1 < prev + NS -> next = prev + NS)) as Hi.
  { intros Hp Hlt Ha. destruct (next_pulse_spec false t ltac:(lia)) as (k & Ek & Hk). rewrite En in Ek. injection Ek as ->.
    cbv iota in Hk. unfold NS in *. split; [apply Z.mod_mul; lia|].
    apply Z.mod_divide in Ha as [q ->]; [|lia]. Z.div_mod_to_equations. lia. }
  pose proof (wait_pulse_spec fuel next w2) as Hwait. unfold mbind at 1, M_bind at 1.
  destruct (wait_pulse receiver fuel (mkTime next) w2) as [[closed|e|why] w3]; [|done|].
  2:{ destruct Hwait as [L3 N3]. split; [lia|]. exists [i]. split; [congruence|]. intros Hp Hlt Ha.
      destruct (Hi Hp ltac:(lia) Ha) as (Q1 & Q2 & Q3). cbn. split_and!; [done|done|lia|done|done|done]. }
  destruct Hwait as (L3 & N3 & Hc). destruct closed.
  { split; [lia|]. exists [i]. split; [congruence|]. intros Hp Hlt Ha.
    destruct (Hi Hp ltac:(lia) Ha) as (Q1 & Q2 & Q3). cbn. split_and!; [done|done|lia|done|done|done]. }
  specialize (IH next w3 ltac:(lia)). destruct (pulses receiver fuel false n w3) as [[code|e|why] w4]; [|done|];
    destruct IH as (N4 & l & L4 & Hl); (split; [lia|]); exists (i :: l); (split; [by rewrite L4, L3, L2, L1, <- app_assoc|]);
    intros Hp Hlt Ha; destruct (Hi Hp ltac:(lia) Ha) as (Q1 & Q2 & Q3); cbn; split_and!; try done; try lia; apply Hl; (done || lia || exact (Hc eq_refl)).
Qed.

(** C37: the pulses are at full seconds, one for every second: the first one more than a
    second ahead, every other one exactly a second behind the one before, unless the
    tool did not run for that whole second, and never two for the same second, however
    long the calls take and whenever standard input is closed. *)
Theorem one_pulse_per_second fuel n w (Hnow : 0 <= now w) :
  match pulses receiver fuel true n w with
  | (Throw _, _) => False
  | (_, w') => exists l, log w' = log w ++ l /\
      (now w' < 2 ^ 62 ->
       match l with
       | [] => True
       | i :: l' => in_event i = ECA_EVENT_ID /\ in_deadline i mod NS = 0 /\ now w + NS < in_deadline i /\ every_second (in_deadline i) l'
       end)
  end.
Proof.
  destruct n as [|n]; cbn [pulses]; [exists []; by rewrite app_nil_r|].
  destruct (CurrentTime_ok false w) as (t & w1 & E1 & Ht & L1 & _). rewrite (run_bind_ret _ _ _ _ _ E1). cbv zeta.
  destruct (InjectEvent_ok ECA_EVENT_ID 0 (next_pulse true (mkTime t)) w1) as (w2 & E2 & N2 & L2 & _). rewrite (run_bind_ret _ _ _ _ _ E2).
  destruct (next_pulse true (mkTime t)) as [next] eqn:En. cbn [TAI] in L2.
  assert (now w2 < 2 ^ 62 -> next mod NS = 0 /\ now w + NS < next) as Hi.
  { intros Hlt. destruct (next_pulse_spec true t ltac:(lia)) as (k & Ek & Hk). rewrite En in Ek. injection Ek as ->.
    cbv iota in Hk. unfold NS in *. split; [apply Z.mod_mul; lia|]. Z.div_mod_to_equations. lia. }
  pose proof (wait_pulse_spec fuel next w2) as Hwait. unfold mbind at 1, M_bind at 1.
  destruct (wait_pulse receiver fuel (mkTime next) w2) as [[closed|e|why] w3]; [|done|].
  2:{ destruct Hwait as [L3 N3]. exists [mkInjected (now w1) ECA_EVENT_ID 0 next]. split; [congruence|]. intros Hlt. destruct (Hi ltac:(lia)). done. }
  destruct Hwait as (L3 & N3 & Hc). destruct closed.
  { exists [mkInjected (now w1) ECA_EVENT_ID 0 next]. split; [congruence|]. intros Hlt. destruct (Hi ltac:(lia)). done. }
  pose proof (pulses_spec fuel n next w3 ltac:(lia)) as H. destruct (pulses receiver fuel false n w3) as [[code|e|why] w4]; [|done|];
    destruct H as (N4 & l & L4 & Hl); exists (mkInjected (now w1) ECA_EVENT_ID 0 next :: l);
    (split; [by rewrite L4, L3, L2, L1, <- app_assoc|]); intros Hlt; destruct (Hi ltac:(lia)); split_and!; try done; apply Hl; (done || lia || exact (Hc eq_refl)).
Qed.
End Correct.

(** ** A receiver with a clock, and a process that may be delayed *)
Module PpsDemo.
Record outside := mkOutside { clock : Z; injected : list Injected; delays : list Z; open_rounds : nat; active : bool; made : list string }.
Definition at_clock (t : Z) (w : outside) : outside := mkOutside t (injected w) (delays w) (open_rounds w) (active w) (made w).

(** Every sleep is prolonged by the next delay. *)
#[export] Instance pps_device : Device outside := {|
  getDevices := fun w => (Ret [("tr0", "/tr0")]%string, w);
  create_receiver := fun _ w => (Ret tt, w);
  CurrentTime := fun _ _ w => (Ret (mkTime (clock w)), at_clock (clock w + 1000) w);
  InjectEvent := fun _ id param time w =>
    (Ret tt, mkOutside (clock w + 1000) (injected w ++ [mkInjected (clock w) id param (TAI time)]) (delays w) (open_rounds w) (active w) (made w));
  usleep := fun d w =>
    (Ret tt, mkOutside (clock w + 1000 * d + Z.abs (default 0 (head (delays w)))) (injected w) (tail (delays w)) (open_rounds w) (active w) (made w)) |}.
#[export, refine] Instance pps_device_ok : DeviceOk outside "/tr0" := {| now := clock; log := injected; Rest := unit; other := fun _ => tt |}.
Proof.
  - intros dev w. eexists _, _. split; [reflexivity|]. cbn. split_and!; [lia|lia|done|done].
  - intros id param time w. eexists. split; [reflexivity|]. cbn. split_and!; [lia|done|done].
  - intros d w. eexists. split; [reflexivity|]. cbn. split_and!; [lia|done|done].
Defined.
Definition answer {A} (a : A) : M outside A := fun w => (Ret a, w).
Definition make (s : string) : M outside string := fun w =>
  (Ret s, mkOutside (clock w) (injected w) (delays w) (open_rounds w) (active w) (made w ++ [s])).
#[export] Instance pps_proxies : PpsProxies outside := {|
  getLocked := fun _ => answer true; receiver_outputs := fun _ => answer [("IO1", "/IO1"); ("IO2", "/IO2")]%string;
  receiver_inputs := fun _ => answer []; scu_sinks := fun _ => answer []; scu_condition := fun _ _ _ _ _ _ => answer ""%string;
  ToggleActive := fun _ w => (Ret tt, mkOutside (clock w) (injected w) (delays w) (open_rounds w) true (made w));
  InactivateAll := fun _ w => (Ret tt, mkOutside (clock w) (injected w) (delays w) (open_rounds w) false (made w));
  stdin_closed := fun w => (Ret (open_rounds w =? 0)%nat, mkOutside (clock w) (injected w) (delays w) (pred (open_rounds w)) (active w) (made w)) |}.
#[export] Instance pps_ok : PpsOk outside "/tr0".
Proof.
  split.
  - intros w. eexists _, _. split; [reflexivity|]. cbn. split; [lia|done].
  - intros w. eexists. split; [reflexivity|]. cbn. split; [lia|done].
Defined.
#[export] Instance pps_lines : Proxies outside := {|
  create := fun _ => mret tt; getFree := answer 1; getInputs := answer []; NewSoftwareActionSink := answer ""%string;
  getAllConditions := fun _ => answer [];
  out_NewCondition := fun path active id mask offset level => make (path ++ (if level : bool then " high" else " low"))%string;
  sw_NewCondition := fun _ _ _ _ _ => answer ""%string;
  ecpu_NewCondition := fun _ _ _ _ _ _ => answer ""%string; setAccept := fun _ _ _ => mret tt;
  Disown := fun c => mret tt; connect_action := fun _ => mret tt;
  getID := fun _ => answer 0; getMask := fun _ => answer 0; getTag := fun _ => answer 0; getOffset := fun _ => answer 0;
  getDestructible := fun c => answer true; getOwner := fun c => answer ""%string; Destroy := fun c => mret tt;
  getActive := fun _ => answer true; setActive := fun _ _ => mret tt;
  getTypeOut := fun _ => answer ""%string; getIndexOut := fun _ => answer 0;
  getOutputEnableAvailable := fun _ => answer true; getSpecialPurposeOutAvailable := fun _ => answer false;
  getInputTerminationAvailable := fun _ => answer false; getSpecialPurposeInAvailable := fun _ => answer false;
  getOutput := fun _ => answer ""%string; getInput := fun _ => answer ""%string;
  output_call := fun path _ => _ ← make (path ++ " enabled")%string; mret tt; input_call := fun _ _ => mret tt; instruct := fun _ _ => answer 0;
  getResponse := answer 0; readBurstInfo := fun _ => answer []; readSharedBuffer := fun _ => answer [];
  wait_for_signal := fun _ => answer 0; wait_for_ever := answer 0 |}.

(** A delay of 2.5 seconds in the 21st sleep; standard input is closed later. *)
Definition day : Z := 1700000000123456789.
Definition start : outside := mkOutside day [] (replicate 20 0 ++ [2500000000]) 45 false [].

Lemma one_pulse_per_second_witness :
  let '(r, w) := pulses "/tr0" 100 true 10 start in
  r = Ret 0 /\ active w = false /\ match injected w with i :: l => every_second (in_deadline i) l | [] => False end.
Proof.
  assert (0 <= clock start) as H0 by (vm_compute; discriminate).
  pose proof (one_pulse_per_second "/tr0" 100 10 start H0) as H.
  destruct (pulses "/tr0" 100 true 10 start) as [r w] eqn:E.
  assert (r = Ret 0 /\ active w = false /\ clock w < 2 ^ 62 /\ (0 < length (injected w))%nat) as (-> & Ha & Hc & Hn).
  { assert (r = (pulses "/tr0" 100 true 10 start).1 /\ w = (pulses "/tr0" 100 true 10 start).2) as [-> ->] by (rewrite E; split; reflexivity).
    vm_compute. repeat split; lia. }
  destruct H as (l & L & Hl). cbn [log pps_device_ok] in L. rewrite L in Hn |- *. split_and!; [done|done|].
  specialize (Hl Hc). destruct l as [|i l]; [cbn in Hn; lia|]. cbn [app]. apply Hl.
Defined.

(** The seconds of the pulses: one is missing, behind which the tool ran again only. *)
Example seconds :
  (fun i => in_deadline i / NS - day / NS) <$> injected (pulses "/tr0" 100 true 10 start).2 = [2; 3; 5; 6; 7; 8].
Proof. vm_compute. reflexivity. Qed.
Example whole_tool :
  let '(r, w) := main [("s"%char, [])] ["tr0"%string] 100 10 start in
  r = Ret 0 /\ made w = ["/IO1 enabled"; "/IO1 high"; "/IO1 low"; "/IO2 enabled"; "/IO2 high"; "/IO2 low"]%string.
Proof. vm_compute. done. Qed.
End PpsDemo.
