(* ===== verification/Unilac.v ===== *)
(** * The cycles of the UNILAC: saft-uni.cpp of [src/src/]

    The tool receives the events of the seven pulse centres and shows, per cycle of 20 ms
    or per 200 cycles, which virtual accelerators they run. *)
From stdpp Require Import pretty.
From S2P Require Import Prelude Time BurstControl Texts Streams Tools PpsGen.
From Stdlib Require Import Strings.Ascii.
Local Open Scope Z_scope.

Definition QR : Z := 0x250.
Definition QL : Z := 0x251.
Definition QN : Z := 0x253.
Definition HLI : Z := 0x270.
Definition HSI : Z := 0x261.
Definition AT : Z := 0x280.
Definition TK : Z := 0x290.
Definition NXTACC : Z := 0x10.
Definition NXTRF : Z := 0x12.
Definition FID : Z := 0x1.
Definition NPZ : nat := 7.
Definition NVACC : nat := 16.
Definition OBSCYCLES : Z := 200.

(** The pulse centres in the order of the columns. *)
Definition centres : list Z := [QR; QL; QN; HLI; HSI; AT; TK].

Definition gid_to_index (gid : Z) : nat :=
  if gid =? QR then 0 else if gid =? QL then 1 else if gid =? QN then 2 else if gid =? HLI then 3
  else if gid =? HSI then 4 else if gid =? AT then 5 else if gid =? TK then 6 else 0.

(** An event, and what the slots take from its identifier. *)
Record Action := mkAction { event_id : Z; deadline : Z }.
Definition gid (a : Action) : Z := Z.land (Z.shiftr (event_id a) 48) 0xfff.
Definition evtNo (a : Action) : Z := Z.land (Z.shiftr (event_id a) 36) 0xfff.
Definition vacc (a : Action) : Z := Z.land (Z.shiftr (event_id a) 20) 0xfff.
Definition flagsPZ (a : Action) : Z := Z.land (event_id a) 0xf.
Definition rigid (a : Action) : bool := Z.testbit (flagsPZ a) 1.
Definition nobeam (a : Action) : bool := Z.testbit (flagsPZ a) 2.
Definition highc (a : Action) : bool := Z.testbit (flagsPZ a) 3.

(** [(deadline - prevDeadline) > 10000000]: a new cycle *)
Definition new_cycle (prev : Z) (a : Action) : bool := 10000000 <? time_diff (mkTime (deadline a)) (mkTime prev).

(** ** [on_action_uni_cycle] *)

(** The static variables; [prevDeadline] gets its value from the first event. *)
Record CycleState := mkCycle { pz : list string; c_prev : option Z; c_n : Z }.
Definition cycle_init : CycleState := mkCycle (replicate NPZ ""%string) None 0.

Definition sVacc (a : Action) : string :=
  let g := gid a in
  let v := vacc a in
  let s :=
    if (g =? QR) || (g =? QL) || (g =? QN) then (if v =? 14 then "(IQ)" else "")
    else if evtNo a =? NXTRF then (if v =? 15 then "(HFW)" else if v =? 14 then "(HFC)" else "") else "" in
  if v <? 14 then
    ((if highc a then "H" else "") ++ (if rigid a then "R" else "") ++ (if nobeam a then "N" else "") ++ pretty v)%string
  else s.

(** What is printed. *)
Inductive Shown := Header | CycleLine (n : Z) (columns : list string).

Definition store (a : Action) (columns : list string) : list string :=
  if bool_decide (gid a ∈ centres) then <[gid_to_index (gid a) := sVacc a]> columns else columns.

Definition on_action_uni_cycle (a : Action) (s : CycleState) : list Shown * CycleState :=
  let prev := default (deadline a) (c_prev s) in
  let '(out, s) :=
    if new_cycle prev a then
      ((if c_n s =? 0 then [Header] else if c_n s <=? 20 then [] else [CycleLine (c_n s) (pz s)]),
       mkCycle (replicate NPZ ""%string) (Some (deadline a)) (u32 (c_n s + 1)))
    else ([], mkCycle (pz s) (Some prev) (c_n s)) in
  (out, mkCycle (store a (pz s)) (c_prev s) (c_n s)).

(** ** [on_action_uni_vacc] *)
Record VaccState := mkVacc {
  nExe : nat -> nat -> Z; flagHighC : nat -> bool; flagRigid : nat -> bool; flagNoBeam : nat -> bool;
  v_prev : option Z; v_n : Z
}.
Definition vacc_init : VaccState := mkVacc (fun _ _ => 0) (fun _ => false) (fun _ => false) (fun _ => false) None 0.

(** A row of the table: the marks of the pulse centres, the rate, the flags.  The rate,
    50.0 * n / 200.0 Hz, is a multiple of a quarter: here the number n. *)
Record Row := mkRow { marks : list bool; rate : Z; row_flags : string }.
Definition flag_text (high ri nb : bool) : string := ((if high then "H" else "") ++ (if ri then "R" else "") ++ (if nb then "N" else ""))%string.
Definition row (counts : list Z) (high ri nb : bool) : Row :=
  mkRow ((fun n => 0 <? n) <$> counts) (foldl (fun r n => if 0 <? n then n else r) 0 counts) (flag_text high ri nb).

Inductive VaccShown := Table (rows : list Row) | Dot.
Definition table (s : VaccState) : list Row :=
  (fun j => row ((fun i => nExe s i j) <$> seq 0 NPZ) (flagHighC s j) (flagRigid s j) (flagNoBeam s j)) <$> seq 0 NVACC.

Definition set2 (i j : nat) (v : Z) (f : nat -> nat -> Z) : nat -> nat -> Z :=
  fun x y => if (x =? i)%nat && (y =? j)%nat then v else f x y.
Definition set_if (b : bool) (j : nat) (f : nat -> bool) : nat -> bool := fun y => if b && (y =? j)%nat then true else f y.

Definition count (a : Action) (s : VaccState) : VaccState :=
  if Z.of_nat NVACC <=? vacc a then s
  else if (gid a <? QR) || (TK <? gid a) then s
  else
    let i := gid_to_index (gid a) in
    let j := Z.to_nat (vacc a) in
    mkVacc (set2 i j (u32 (nExe s i j + 1)) (nExe s)) (set_if (highc a) j (flagHighC s)) (set_if (rigid a) j (flagRigid s))
      (set_if (nobeam a) j (flagNoBeam s)) (v_prev s) (v_n s).

Definition on_action_uni_vacc (a : Action) (s : VaccState) : list VaccShown * VaccState :=
  let prev := default (deadline a) (v_prev s) in
  let '(out, s) :=
    if new_cycle prev a then
      if (v_n s mod OBSCYCLES =? 0) && (0 <? v_n s) then
        ([Table (table s)], mkVacc (fun _ _ => 0) (fun _ => false) (fun _ => false) (fun _ => false) (Some (deadline a)) (u32 (v_n s + 1)))
      else
        ((if v_n s mod 10 =? 0 then [Dot] else []),
         mkVacc (nExe s) (flagHighC s) (flagRigid s) (flagNoBeam s) (Some (deadline a)) (u32 (v_n s + 1)))
    else ([], mkVacc (nExe s) (flagHighC s) (flagRigid s) (flagNoBeam s) (Some prev) (v_n s)) in
  (out, count a s).

(** One event after the other. *)
Section Run.
Context {S O : Type} (slot : Action -> S -> list O * S).
Fixpoint run (evs : list Action) (s : S) : list O * S :=
  match evs with
  | [] => ([], s)
  | a :: evs' => let '(out, s') := slot a s in let '(out', s'') := run evs' s' in (out ++ out', s'')
  end.
End Run.

(** ** The tool *)

(** Two conditions for each pulse centre. *)
Definition snoop_ids : list Z :=
  centres ≫= (fun g => [Z.lor (Z.lor (Z.shiftl FID 60) (Z.shiftl g 48)) (Z.shiftl NXTACC 36);
                        Z.lor (Z.lor (Z.shiftl FID 60) (Z.shiftl g 48)) (Z.shiftl NXTRF 36)]).
Definition snoopMask : Z := 0xfffffff000000000.

(** [strcasecmp] *)
Definition lower (c : ascii) : ascii := let n := nat_of_ascii c in if ((65 <=? n) && (n <=? 90))%nat then ascii_of_nat (n + 32) else c.
Definition same_ignoring_case (a b : string) : bool := bool_decide (lower <$> str a = lower <$> str b).

(** The type of the command: [None] is an error. *)
Definition snoop_type (arg : text) : option Z :=
  let '(n, rest) := strtoull arg in
  let t := s32 n in
  match rest with [] => if (t <? 0) || (2 <? t) then None else Some t | _ => None end.

Section UniTool.
Context {W : Type} `{!Device W, !Proxies W}.
(** [NewSoftwareActionSink("")] of a receiver, [ToggleActive] of the sink; [connect] with
    the slot that the type of the command selects. *)
Variable new_sink : string -> M W string.
Variable sink_ToggleActive : string -> M W unit.
Variable connect : string -> Z -> M W unit.

Fixpoint make_conditions (sink : string) (ids : list Z) : M W (list string) :=
  match ids with
  | [] => mret []
  | i :: ids' =>
      c ← sw_NewCondition sink false i snoopMask 0;
      create c;;
      cs ← make_conditions sink ids';
      mret (c :: cs)
  end.

Definition snoop (sink : string) (uniSnoopType : Z) : M W Z :=
  conditions ← make_conditions sink snoop_ids;
  for_each (fun c =>
    setAccept c Late true;; setAccept c Early true;; setAccept c Conflict true;; setAccept c Delayed true;;
    connect c uniSnoopType) conditions;;
  sink_ToggleActive sink;;
  wait_for_ever.

(** [main] behind the options.  An unknown command is reported, and then does nothing. *)
Definition uni_main (useFirstDev : bool) (args : list string) : M W Z :=
  match args with
  | [] => mret 1
  | deviceName :: args' =>
      let go (type : option Z) : M W Z :=
        catch_error 0
          (receiver ← find_device useFirstDev deviceName;
           match receiver with
           | None => mret (-1)
           | Some receiver =>
               sink ← new_sink receiver;
               create sink;;
               match type with Some t => snoop sink t | None => mret 0 end
           end) in
      match args' with
      | [] => go None
      | command :: rest =>
          if same_ignoring_case command "snoop" then
            match rest with
            | [arg] => match snoop_type (str arg) with Some t => go (Some t) | None => mret 1 end
            | _ => mret 1
            end
          else go None
      end
  end.
End UniTool.

(** ** The cycles of the UNILAC: what is shown is what happened in the cycles *)

(** ** Cycles

    The events in cycles: a cycle begins with an event more than 10 ms behind the first
    event of the cycle before.  Only cycles that are over count. *)
Fixpoint cycles (first : Z) (cycle evs : list Action) : list (list Action) :=
  match evs with
  | [] => []
  | a :: evs' => if new_cycle first a then cycle :: cycles (deadline a) [a] evs' else cycles first (cycle ++ [a]) evs'
  end.
Definition cycles_of (evs : list Action) : list (list Action) :=
  match evs with [] => [] | a :: evs' => cycles (deadline a) [a] evs' end.

Lemma no_cycle_at_once a : new_cycle (deadline a) a = false.
Proof. unfold new_cycle, time_diff. cbn [TAI]. by rewrite Z.sub_diag. Qed.

(** ** A cycle per line *)

(** What a pulse centre did: its last event in the cycle. *)
Definition last_text (g : Z) (l : list Action) : string := foldl (fun t a => if gid a =? g then sVacc a else t) ""%string l.
Definition columns (l : list Action) : list string := (fun g => last_text g l) <$> centres.

Lemma columns_snoc l a : columns (l ++ [a]) = store a (columns l).
Proof.
  unfold columns, store. assert (forall g, last_text g (l ++ [a]) = if gid a =? g then sVacc a else last_text g l) as E
    by (intros g; unfold last_text; by rewrite foldl_app).
  destruct (bool_decide_reflect (gid a ∈ centres)) as [Hin|Hout].
  - unfold centres in *. cbn [fmap list_fmap]. rewrite !E. rewrite !elem_of_cons, elem_of_nil in Hin.
    destruct Hin as [Hg|[Hg|[Hg|[Hg|[Hg|[Hg|[Hg|[]]]]]]]]; rewrite Hg; reflexivity.
  - unfold centres in *. cbn [fmap list_fmap]. rewrite !E. rewrite !elem_of_cons, elem_of_nil in Hout.
    rewrite !(proj2 (Z.eqb_neq _ _)) by tauto. done.
Qed.

(** The lines, the first 21 cycles without one. *)
Fixpoint cycle_lines (n : Z) (gs : list (list Action)) : list Shown :=
  match gs with
  | [] => []
  | g :: gs' => (if n =? 0 then [Header] else if n <=? 20 then [] else [CycleLine n (columns g)]) ++ cycle_lines (n + 1) gs'
  end.

Lemma cycle_run evs : forall first cycle n, 0 <= n -> n + Z.of_nat (length evs) < 2 ^ 32 ->
  (run on_action_uni_cycle evs (mkCycle (columns cycle) (Some first) n)).1 = cycle_lines n (cycles first cycle evs).
Proof.
  induction evs as [|a evs IH]; intros first cycle n Hn Hlen; [done|]. cbn [length] in Hlen.
  cbn [run cycles]. unfold on_action_uni_cycle at 1. cbn [default c_prev pz c_n from_option]. unfold id. cbn [default].
  destruct (new_cycle first a).
  - cbv iota beta zeta. cbn [pz c_prev c_n]. rewrite unsigned_wrap_small by lia.
    change (replicate NPZ ""%string) with (columns []). rewrite <- columns_snoc. cbn [app].
    pose proof (IH (deadline a) [a] (n + 1) ltac:(lia) ltac:(lia)) as H.
    destruct (run on_action_uni_cycle evs _) as [out s']. cbn [fst] in *. cbn [cycle_lines]. by rewrite H.
  - cbv iota beta zeta. cbn [pz c_prev c_n]. rewrite <- columns_snoc.
    pose proof (IH first (cycle ++ [a]) n Hn ltac:(lia)) as H.
    destruct (run on_action_uni_cycle evs _) as [out s']. cbn [fst] in *. by rewrite H.
Qed.

(** The display of cycles shows, behind its header, a line for every cycle that is over,
    from the 21st on: for every pulse centre the text of its last event in that cycle,
    and nothing of other cycles. *)
Theorem cycles_shown (evs : list Action) (Hlen : Z.of_nat (length evs) < 2 ^ 32) :
  (run on_action_uni_cycle evs cycle_init).1 = cycle_lines 0 (cycles_of evs).
Proof.
  destruct evs as [|a evs]; [done|]. cbn [length] in Hlen. cbn [run cycles_of]. unfold on_action_uni_cycle at 1, cycle_init.
  cbn [c_prev pz c_n]. change (default (deadline a) None) with (deadline a). rewrite no_cycle_at_once. cbv iota beta zeta. cbn [pz c_prev c_n].
  change (replicate NPZ ""%string) with (columns []). rewrite <- columns_snoc. cbn [app].
  pose proof (cycle_run evs (deadline a) [a] 0 ltac:(lia) ltac:(lia)) as H.
  by destruct (run on_action_uni_cycle evs _).
Qed.

(** ** A table per 200 cycles *)

(** How often a pulse centre (by its column) ran an accelerator, and whether a flag was
    set for the accelerator. *)
Definition ran (i j : nat) (a : Action) : bool := bool_decide (centres !! i = Some (gid a)) && (vacc a =? Z.of_nat j).
Definition times (i j : nat) (l : list Action) : Z := Z.of_nat (length (List.filter (ran i j) l)).
Definition flagged (flag : Action -> bool) (j : nat) (l : list Action) : bool := existsb (fun a => flag a && (vacc a =? Z.of_nat j)) l.
Definition table_of (l : list Action) : list Row :=
  (fun j => row ((fun i => times i j l) <$> seq 0 NPZ) (flagged highc j l) (flagged rigid j l) (flagged nobeam j l)) <$> seq 0 NVACC.

(** The counters that belong to a list of events. *)
Record counts (l : list Action) (s : VaccState) : Prop := {
  counts_exe : forall i j, (j < NVACC)%nat -> (i < NPZ)%nat -> nExe s i j = times i j l;
  counts_high : forall j, (j < NVACC)%nat -> flagHighC s j = flagged highc j l;
  counts_rigid : forall j, (j < NVACC)%nat -> flagRigid s j = flagged rigid j l;
  counts_nobeam : forall j, (j < NVACC)%nat -> flagNoBeam s j = flagged nobeam j l
}.

Lemma table_counts l s : counts l s -> table s = table_of l.
Proof.
  intros [He Hh Hr Hn]. unfold table, table_of. apply list_fmap_ext. intros k j [-> Hj]%lookup_seq. cbn [Nat.add].
  rewrite Hh, Hr, Hn by done. f_equal. apply list_fmap_ext. intros k' i [-> Hi]%lookup_seq. by apply He.
Qed.

Lemma index_of_centre i a : gid a ∈ centres -> (i < NPZ)%nat ->
  bool_decide (centres !! i = Some (gid a)) = (i =? gid_to_index (gid a))%nat /\ (gid a <? QR) = false /\ (TK <? gid a) = false.
Proof.
  intros Hin Hi. unfold centres in Hin. rewrite !elem_of_cons, elem_of_nil in Hin. unfold NPZ in Hi.
  destruct Hin as [Hg|[Hg|[Hg|[Hg|[Hg|[Hg|[Hg|[]]]]]]]]; rewrite Hg; do 7 (destruct i as [|i]; [done|]); lia.
Qed.
Lemma vacc_range a : 0 <= vacc a < 2 ^ 12.
Proof.
  unfold vacc. change 0xfff with (Z.ones 12). rewrite Z.land_ones by lia. apply Z.mod_pos_bound. lia.
Qed.

Lemma times_snoc i j l a : times i j (l ++ [a]) = times i j l + if ran i j a then 1 else 0.
Proof. unfold times. rewrite List.filter_app, length_app. cbn. destruct (ran i j a); cbn; lia. Qed.
Lemma flagged_snoc f j l a : flagged f j (l ++ [a]) = flagged f j l || (f a && (vacc a =? Z.of_nat j)).
Proof. unfold flagged. rewrite existsb_app. cbn. by rewrite orb_false_r. Qed.
Lemma times_range i j l : 0 <= times i j l <= Z.of_nat (length l).
Proof.
  unfold times. split; [lia|]. induction l as [|a l IH]; [done|]. cbn [List.filter]. destruct (ran i j a); cbn [length]; lia.
Qed.

Lemma count_snoc l s a : gid a ∈ centres -> Z.of_nat (length l) + 1 < 2 ^ 32 -> counts l s -> counts (l ++ [a]) (count a s).
Proof.
  intros Hin Hlen [He Hh Hr Hn]. pose proof (vacc_range a) as Hv. unfold count. unfold NVACC in *.
  destruct (index_of_centre 0 a Hin ltac:(unfold NPZ; lia)) as (_ & -> & ->). cbn [orb].
  destruct (Z.leb_spec (Z.of_nat 16) (vacc a)) as [Hbig|Hsmall].
  - assert (forall j, (j < 16)%nat -> (vacc a =? Z.of_nat j) = false) as Hno by (intros j Hj; apply Z.eqb_neq; lia).
    split; intros; rewrite ?times_snoc, ?flagged_snoc; unfold ran; rewrite Hno, ?andb_false_r, ?orb_false_r, ?Z.add_0_r by done; auto.
  - assert (forall j, (j =? Z.to_nat (vacc a))%nat = (vacc a =? Z.of_nat j)) as Hj.
    { intros j. destruct (Nat.eqb_spec j (Z.to_nat (vacc a))), (Z.eqb_spec (vacc a) (Z.of_nat j)); lia. }
    split; cbn [nExe flagHighC flagRigid flagNoBeam].
    + intros i j Hlj Hli. destruct (index_of_centre i a Hin Hli) as (E & _). unfold set2. rewrite Hj, times_snoc. unfold ran. rewrite E.
      destruct (Nat.eqb_spec i (gid_to_index (gid a))) as [->|Hne]; cbn [andb]; [|by rewrite Z.add_0_r, He].
      destruct (Z.eqb_spec (vacc a) (Z.of_nat j)) as [Hvj|Hvj]; [|by rewrite Z.add_0_r, He].
      rewrite Hvj, Nat2Z.id, He by done. pose proof (times_range (gid_to_index (gid a)) j l). apply unsigned_wrap_small. lia.
    + intros j Hlj. unfold set_if. rewrite Hj, flagged_snoc, Hh by done. by destruct (highc a && _); rewrite ?orb_true_r, ?orb_false_r.
    + intros j Hlj. unfold set_if. rewrite Hj, flagged_snoc, Hr by done. by destruct (rigid a && _); rewrite ?orb_true_r, ?orb_false_r.
    + intros j Hlj. unfold set_if. rewrite Hj, flagged_snoc, Hn by done. by destruct (nobeam a && _); rewrite ?orb_true_r, ?orb_false_r.
Qed.

(** The tables: at the end of cycle 200, 400, ... (the first cycle is cycle 0) everything
    since the last table. *)
Fixpoint periods (c : Z) (period : list Action) (gs : list (list Action)) : list (list Action) :=
  match gs with
  | [] => []
  | g :: gs' =>
      if (c mod OBSCYCLES =? 0) && (0 <? c) then (period ++ g) :: periods (c + 1) [] gs' else periods (c + 1) (period ++ g) gs'
  end.
Definition tables (l : list VaccShown) : list (list Row) := omap (fun x => match x with Table t => Some t | Dot => None end) l.

Lemma count_prev a s : v_prev (count a s) = v_prev s /\ v_n (count a s) = v_n s.
Proof. unfold count. destruct (_ <=? vacc a); [done|]. by destruct (_ || _). Qed.
Lemma counts_nil first n : counts [] (mkVacc (fun _ _ => 0) (fun _ => false) (fun _ => false) (fun _ => false) first n).
Proof. by split. Qed.

Lemma vacc_run evs : forall first period cycle n s, 0 <= n ->
  n + Z.of_nat (length evs) < 2 ^ 32 -> Z.of_nat (length (period ++ cycle) + length evs) < 2 ^ 32 ->
  Forall (fun a => gid a ∈ centres) evs -> counts (period ++ cycle) s -> v_prev s = Some first -> v_n s = n ->
  tables (run on_action_uni_vacc evs s).1 = table_of <$> periods n period (cycles first cycle evs).
Proof.
  induction evs as [|a evs IH]; intros first period cycle n s Hn Hlen Hlen' Hin Hs Hp Hc; [done|]. cbn [length] in Hlen, Hlen'.
  apply Forall_cons in Hin as [Ha Hin]. cbn [run cycles]. unfold on_action_uni_vacc at 1. rewrite Hp, Hc.
  change (default (deadline a) (Some first)) with first.
  destruct (new_cycle first a).
  - cbn [periods]. rewrite unsigned_wrap_small by lia.
    destruct ((n mod OBSCYCLES =? 0) && (0 <? n)) eqn:Et; cbv iota beta zeta.
    + set (s0 := mkVacc _ _ _ _ _ _). pose proof (IH (deadline a) [] [a] (n + 1) (count a s0)) as H.
      destruct (count_prev a s0) as [Ep En]. rewrite length_app in Hlen'.
      assert (counts ([] ++ [a]) (count a s0)) as Hs0 by (apply count_snoc; [done|cbn; lia|apply counts_nil]).
      specialize (H ltac:(lia) ltac:(lia) ltac:(cbn; lia) Hin Hs0 Ep En).
      destruct (run on_action_uni_vacc evs _) as [out s']. cbn [fst] in *. cbn [app fmap list_fmap]. unfold tables in *. cbn [omap list_omap].
      rewrite (table_counts _ _ Hs). f_equal. exact H.
    + set (s0 := mkVacc _ _ _ _ _ _). pose proof (IH (deadline a) (period ++ cycle) [a] (n + 1) (count a s0)) as H.
      destruct (count_prev a s0) as [Ep En]. rewrite length_app in Hlen'.
      assert (counts ((period ++ cycle) ++ [a]) (count a s0)) as Hs0
        by (apply count_snoc; [done|rewrite length_app; lia|by destruct Hs; split]).
      specialize (H ltac:(lia) ltac:(lia) ltac:(rewrite !length_app; cbn; lia) Hin Hs0 Ep En).
      destruct (run on_action_uni_vacc evs _) as [out s']. cbn [fst] in *. unfold tables in *. rewrite omap_app, H. by destruct (n mod 10 =? 0).
  - cbv iota beta zeta. set (s0 := mkVacc _ _ _ _ _ _). pose proof (IH first period (cycle ++ [a]) n (count a s0)) as H.
    destruct (count_prev a s0) as [Ep En]. rewrite length_app in Hlen'.
    assert (counts (period ++ cycle ++ [a]) (count a s0)) as Hs0
      by (rewrite app_assoc; apply count_snoc; [done|rewrite length_app; lia|by destruct Hs; split]).
    specialize (H Hn ltac:(lia) ltac:(rewrite !length_app; cbn; lia) Hin Hs0 Ep En).
    by destruct (run on_action_uni_vacc evs _) as [out s'].
Qed.

(** C36: the tables of virtual accelerators: each one tells for every accelerator and pulse
    centre exactly whether, and for the last centre that did how often, it was run in the cycles since the table
    before, and which flags it had; they come at the end of the cycles 200, 400, and so
    on.  The events are those of the conditions that the tool makes. *)
Theorem tables_count (evs : list Action) (Hlen : Z.of_nat (length evs) < 2 ^ 32) (Hevents : Forall (fun a => gid a ∈ centres) evs) :
  tables (run on_action_uni_vacc evs vacc_init).1 = table_of <$> periods 0 [] (cycles_of evs).
Proof.
  destruct evs as [|a evs]; [done|]. apply Forall_cons in Hevents as [Ha Hin]. cbn [length] in Hlen.
  cbn [run cycles_of]. unfold on_action_uni_vacc at 1, vacc_init. cbn [v_prev v_n]. change (default (deadline a) None) with (deadline a).
  rewrite no_cycle_at_once. cbv iota beta zeta. cbn [nExe flagHighC flagRigid flagNoBeam v_prev v_n]. set (s0 := mkVacc _ _ _ _ _ _).
  destruct (count_prev a s0) as [Ep En].
  assert (counts ([] ++ [a]) (count a s0)) as Hs0 by (apply count_snoc; [done|cbn; lia|apply counts_nil]).
  pose proof (vacc_run evs (deadline a) [] [a] 0 (count a s0) ltac:(lia) ltac:(lia) ltac:(cbn; lia) Hin Hs0 Ep En) as H.
  by destruct (run on_action_uni_vacc evs _).
Qed.

(** The conditions of the tool match the events of the pulse centres, and no others:
    their intervals are those of the identifiers. *)
Lemma snoop_matches i a : i ∈ snoop_ids -> Z.land (event_id a) snoopMask = Z.land i snoopMask -> gid a ∈ centres.
Proof.
  intros Hi E. assert (gid a = Z.land (Z.shiftr i 48) 0xfff) as Hg.
  { unfold gid. apply Z.bits_inj'. intros n Hn. rewrite !Z.land_spec, !Z.shiftr_spec by lia.
    change 0xfff with (Z.ones 12). destruct (Z.lt_ge_cases n 12); [|by rewrite Z.ones_spec_high, !andb_false_r by lia].
    rewrite Z.ones_spec_low, !andb_true_r by lia. apply (f_equal (fun x => Z.testbit x (n + 48))) in E. rewrite !Z.land_spec in E.
    assert (Z.testbit snoopMask (n + 48) = true) as Hm.
    { change snoopMask with (Z.shiftl (Z.ones 28) 36). rewrite Z.shiftl_spec by lia. apply Z.ones_spec_low. lia. }
    by rewrite Hm, !andb_true_r in E. }
  rewrite Hg. clear -Hi. revert i Hi. apply Forall_forall. repeat constructor; vm_compute; tauto.
Qed.

Module UnilacDemo.
Definition event (g e v flags t : Z) : Action :=
  mkAction (Z.lor (Z.lor (Z.lor (Z.lor (Z.shiftl FID 60) (Z.shiftl g 48)) (Z.shiftl e 36)) (Z.shiftl v 20)) flags) t.
(** A cycle: the right source and the Alvarez run accelerator 3, every tenth time 9 with
    high current. *)
Definition cycle (c : nat) : list Action :=
  let t := 20000000 * Z.of_nat c in
  let v := if (c mod 10 =? 9)%nat then 9 else 3 in
  [event QR NXTACC v (if v =? 9 then 8 else 0) t; event AT NXTACC v 0 (t + 5000000); event HSI NXTRF 15 0 (t + 6000000)].
Definition some_cycles (n : nat) : list Action := seq 0 n ≫= cycle.

Lemma cycles_shown_witness :
  (run on_action_uni_cycle (some_cycles 24) cycle_init).1 =
  [Header; CycleLine 21 ["3"; ""; ""; ""; "(HFW)"; "3"; ""]; CycleLine 22 ["3"; ""; ""; ""; "(HFW)"; "3"; ""]]%string.
Proof. rewrite (cycles_shown (some_cycles 24)) by (vm_compute; reflexivity). vm_compute. reflexivity. Defined.

(** The first period has 201 cycles; the rate is computed with 200: 181 + 20 times 0.25 Hz
    are more than 50 Hz. *)
Lemma tables_count_witness :
  match tables (run on_action_uni_vacc (some_cycles 203) vacc_init).1 with
  | [t] => t !! 3%nat = Some (mkRow [true; false; false; false; false; true; false] 181 "") /\
           t !! 9%nat = Some (mkRow [true; false; false; false; false; true; false] 20 "H") /\
           t !! 15%nat = Some (mkRow [false; false; false; false; true; false; false] 201 "")
  | _ => False
  end.
Proof.
  rewrite (tables_count (some_cycles 203)).
  - vm_compute. done.
  - vm_compute. reflexivity.
  - apply (bool_decide_unpack _). vm_compute. exact I.
Defined.

(** An event of no pulse centre between the first and the last one would count for the right
    source. *)
Example unknown_centre_counts : nExe (count (event 0x260 NXTACC 3 0 0) vacc_init) 0%nat 3%nat = 1.
Proof. vm_compute. reflexivity. Qed.
Example types : (snoop_type (str "2"), snoop_type (str "0x1"), snoop_type (str "3"), snoop_type (str "1x")) = (Some 2, Some 1, None, None).
Proof. vm_compute. reflexivity. Qed.
End UnilacDemo.
