(* ===== verification/IoTool.v ===== *)
(** * The tool for inputs and outputs: saft-io-ctl.cpp of [src/src/]

    It configures one line, creates, destroys, flips and lists the conditions of
    outputs, lets inputs make events and shows these as they come.  Several operations
    are those of the burst control tool ([BurstControl]), behind a search for the
    receiver and its lines of their own. *)
From S2P Require Import Prelude StdMap Time Helpers BurstControl Texts Streams Tools PpsGen.
From Stdlib Require Import Strings.Ascii.
Local Open Scope Z_scope.

(** ** What is shown

    A line that an exception cuts off is not shown. *)
Inductive OutputState :=
  | ReadOutput | ReadCombinedOutput | getOutputEnable | getSpecialPurposeOut | getGateOut | getBuTiSMultiplexer | getPPSMultiplexer.
Inductive InputState := ReadInput | getInputTermination | getSpecialPurposeIn | getGateIn.

Inductive Shown :=
  | ConditionRow (io number : string) (id mask offset flags : Z) (rising active : bool) (owner : string)
  | EventRow (io : string) (prefix : Z) (enabled : bool) (bits : Z)
  | LineRow (io : string) (output first special : bool) (resolution level : string)
  | PathLine (path : string) | PartnerLine (path : string)
  | OutLine (what : OutputState) (on : bool) | InLine (what : InputState) (on : bool)
  | IndexOut (n : Z) | StableTime (n : Z) | IndexIn (n : Z)
  | NoInputs.

(** What the tool calls besides. *)
Class IoProxies (W : Type) := {
  getAccept : string -> AcceptFlag -> M W bool;
  getOn : string -> M W bool;
  getTypeIn : string -> M W string;
  getLogicLevelOut : string -> M W string;
  getLogicLevelIn : string -> M W string;
  output_state : string -> OutputState -> M W bool;
  input_state : string -> InputState -> M W bool;
  getStableTime : string -> M W Z;
  getIndexIn : string -> M W Z;
  getEventPrefix : string -> M W Z;
  getEventEnable : string -> M W bool;
  getEventBits : string -> M W Z;
  show : Shown -> M W unit
}.

Section IoTool.
Context {W : Type} `{!Device W, !Proxies W, !PpsProxies W, !IoProxies W}.
Abbreviation T := (Tool W).
Variable deviceName : string.

(** [TimingReceiver_Proxy::create(devices\[deviceName\])]: a device that is gone has an
    empty path. *)
Definition find_receiver : M T string :=
  devices ← call getDevices;
  let path := default ""%string (lookup_name deviceName devices) in
  call (create_receiver path);;
  mret path.
Definition on_outputs {A} (f : list (string * string) -> M T A) : M T A :=
  receiver ← find_receiver; outs ← call (receiver_outputs receiver); f outs.

(** ** Conditions *)
Definition io_create (disown : bool) (eventID eventMask offset flags level : Z) (offset_negative translate_mask : bool) : M T Z :=
  or_return IO_RETURN_FAILURE
    (on_outputs (fun outs => BurstControl.io_create outs disown eventID eventMask offset flags level offset_negative translate_mask)).
Definition io_destroy : M T Z := or_return IO_RETURN_FAILURE (on_outputs BurstControl.io_destroy).
Definition io_flip : M T Z := or_return IO_RETURN_FAILURE (on_outputs BurstControl.io_flip).

(** The name of a condition behind the path of its output and [/_]. *)
Definition condition_number (path c : string) : string := to_string (drop 2 (drop (String.length path) (str c))).
Definition flag_bits (delayed conflict early late : bool) : Z :=
  Z.lor (Z.lor (Z.lor (if delayed then 8 else 0) (if conflict then 4 else 0)) (if early then 2 else 0)) (if late then 1 else 0).

Definition show_condition (name path c : string) : M T unit :=
  call (create c);;
  id ← call (getID c);
  mask ← call (getMask c);
  offset ← call (getOffset c);
  delayed ← call (getAccept c Delayed);
  conflict ← call (getAccept c Conflict);
  early ← call (getAccept c Early);
  late ← call (getAccept c Late);
  on ← call (getOn c);
  active ← call (getActive c);
  owner ← call (getOwner c);
  call (show (ConditionRow name (condition_number path c) id mask offset (flag_bits delayed conflict early late) on active owner)).

Definition list_conditions (outs : list (string * string)) : M T Z :=
  for_each (fun '(name, path) =>
    call (create path);;
    all_conditions ← call (getAllConditions path);
    for_each (fun c => t ← get; if selected name t then show_condition name path c else mret tt) all_conditions) outs;;
  t ← get;
  let io_found := existsb (fun '(name, _) => is_name name t) outs in
  mret (if ioNameGiven t && negb io_found then IO_RETURN_FAILURE else IO_RETURN_SUCCESS).
Definition io_list : M T Z := or_return IO_RETURN_FAILURE (on_outputs list_conditions).

(** ** Events of inputs *)

(** [map_PrefixName\[ioName\] = prefix], a map in the order of its keys. *)
Definition next_prefix (t : T) : Z := u64 (ECA_EVENT_ID_LATCH + Z.of_nat (length (map_PrefixName t)) * 2).
Definition put_prefix (name : string) (prefix : Z) : M T unit :=
  modify (fun t => mkTool (Some name) (ioNameGiven t) (map_set name prefix (map_PrefixName t)) (outside t)).

Definition list_input (name path : string) : M T unit :=
  t ← get;
  if selected name t then
    put_prefix name (next_prefix t);;
    call (create path);;
    prefix ← call (getEventPrefix path);
    enabled ← call (getEventEnable path);
    bits ← call (getEventBits path);
    call (show (EventRow name prefix enabled bits))
  else mret tt.
Definition io_list_i_to_e : M T Z :=
  or_return IO_RETURN_FAILURE
    (receiver ← find_receiver;
     inputs ← call (receiver_inputs receiver);
     for_each (fun '(name, path) => list_input name path) inputs;;
     mret IO_RETURN_SUCCESS).

(** The condition for the events of an input, at the one sink that is made when it is
    needed. *)
Definition make_sink (receiver : string) (sink : option string) : M T string :=
  match sink with
  | Some sink => mret sink
  | None => sink ← call NewSoftwareActionSink; call (create sink);; mret sink
  end.
Definition watch_prefix (sink : string) (prefix : Z) : M T unit :=
  c ← call (sw_NewCondition sink false prefix (u64 (-2)) IO_CONDITION_OFFSET);
  call (create c);;
  call (connect_action c);;
  call (setAccept c Conflict true);; call (setAccept c Delayed true);; call (setAccept c Early true);; call (setAccept c Late true).

Definition setup_events (disable_source : bool) (prefix : Z) (path : string) : M T unit :=
  call (create path);;
  call (input_call path (setEventEnable false));;
  if disable_source then mret tt
  else call (input_call path (setEventPrefix prefix));; call (input_call path (setEventEnable true)).

(** [mode]: disable the events. *)
Definition snoop_input (receiver : string) (mode setup_only disable_source : bool) (prefix_custom : Z)
    (name path : string) (sink : option string) : M T (option string) :=
  t ← get;
  if selected name t then
    let prefix := next_prefix t in
    put_prefix name prefix;;
    if mode then call (create path);; call (input_call path (setEventEnable false));; mret sink
    else
      sink ← (if setup_only then mret sink else s ← make_sink receiver sink; watch_prefix s prefix;; mret (Some s));
      setup_events disable_source (if prefix_custom =? 0 then prefix else prefix_custom) path;;
      mret sink
  else mret sink.
Fixpoint snoop_inputs (receiver : string) (mode setup_only disable_source : bool) (prefix_custom : Z)
    (l : list (string * string)) (sink : option string) : M T (option string) :=
  match l with
  | [] => mret sink
  | (name, path) :: l' =>
      sink ← snoop_input receiver mode setup_only disable_source prefix_custom name path sink;
      snoop_inputs receiver mode setup_only disable_source prefix_custom l' sink
  end.

(** An edge as it is shown: the lowest bit of the event tells its direction. *)
Record Edge := mkEdge { edge_io : string; edge_rising : bool; edge_flags : Z; edge_event : Z; edge_time : Time }.
Definition io_catch_input (event : Z) (deadline : Time) (flags : Z) (m : list (string * Z)) : Edge :=
  mkEdge (catched_io event m) (Z.testbit event 0) (u16 flags) event (time_minus deadline IO_CONDITION_OFFSET).

(** Until standard input is closed; [fuel]: the rounds that are followed. *)
Fixpoint snoop_loop (fuel : nat) (receiver : string) : M T Z :=
  match fuel with
  | O => crash "runs for ever"
  | S fuel' =>
      closed ← call stdin_closed;
      if closed : bool then call (InactivateAll receiver);; mret 0
      else call (wait_for_signal 20);; snoop_loop fuel' receiver
  end.

Definition io_snoop (fuel : nat) (mode setup_only disable_source : bool) (prefix_custom : Z) : M T Z :=
  or_return IO_RETURN_FAILURE
    (receiver ← find_receiver;
     inputs ← call (receiver_inputs receiver);
     sink ← snoop_inputs receiver mode setup_only disable_source prefix_custom inputs None;
     match sink with Some sink => call (ToggleActive sink) | None => mret tt end;;
     if mode then mret IO_RETURN_SUCCESS
     else
       t ← get;
       match map_PrefixName t with
       | [] => call (show NoInputs);; mret IO_RETURN_SUCCESS
       | _ => if setup_only then mret IO_RETURN_SUCCESS else snoop_loop fuel receiver
       end).

(** ** A line's settings and its state *)
Definition show_output (p : string) (what : OutputState) : M T unit := v ← call (output_state p what); call (show (OutLine what v)).
Definition show_input (p : string) (what : InputState) : M T unit := v ← call (input_state p what); call (show (InLine what v)).
Definition if_available (m : M T bool) (k : M T unit) : M T unit := b ← m; if b : bool then k else mret tt.

Definition show_output_side (p : string) : M T unit :=
  show_output p ReadOutput;;
  show_output p ReadCombinedOutput;;
  if_available (call (getOutputEnableAvailable p)) (show_output p getOutputEnable);;
  if_available (call (getSpecialPurposeOutAvailable p)) (show_output p getSpecialPurposeOut);;
  show_output p getGateOut;;
  show_output p getBuTiSMultiplexer;;
  show_output p getPPSMultiplexer;;
  n ← call (getIndexOut p);
  call (show (IndexOut n)).
Definition show_input_side (p : string) : M T unit :=
  show_input p ReadInput;;
  if_available (call (getInputTerminationAvailable p)) (show_input p getInputTermination);;
  if_available (call (getSpecialPurposeInAvailable p)) (show_input p getSpecialPurposeIn);;
  show_input p getGateIn;;
  t ← call (getStableTime p);
  call (show (StableTime t));;
  n ← call (getIndexIn p);
  call (show (IndexIn n)).

(** A proxy that was not made is a null pointer. *)
Definition with_proxy (p : option string) (f : string -> M T unit) : M T unit :=
  match p with Some p => f p | None => crash "null proxy" end.
Definition show_state (io_partner : string) (dir : Direction) (out in_ : option string) : M T unit :=
  call (show (PathLine (default ""%string (from_option Some in_ out))));;
  (if bool_decide (io_partner = ""%string) then mret tt else call (show (PartnerLine io_partner)));;
  (if direction_eqb dir DIR_INPUT then mret tt else with_proxy out show_output_side);;
  (if direction_eqb dir DIR_OUTPUT then mret tt else with_proxy in_ show_input_side).

(** The checks and the calls are those of the burst tool. *)
Definition check_settings (c : Settings) (dir : Direction) (out in_ : option string) : M T bool := refused c dir out in_.
Definition set_configuration (c : Settings) (out in_ : option string) : M T unit := apply_settings c out in_.

(** What the settings and the state need: a line is known by its output, by its input or
    by both. *)
Definition setup_line (outs ins : list (string * string)) (c : Settings) : M T Z :=
  in_ ← find_path ins None;
  out ← find_path outs None;
  match in_, out with
  | None, None => mret IO_RETURN_FAILURE
  | _, _ =>
      io_partner ← (match out with Some p => call (getInput p) | None => deref in_ getOutput end);
      let dir := if negb (bool_decide (io_partner = ""%string)) then DIR_INOUT
                 else if out is Some _ then DIR_OUTPUT else DIR_INPUT in
      if io_set c then
        b ← check_settings c dir out in_;
        if b : bool then mret IO_RETURN_FAILURE
        else set_configuration c out in_;; mret IO_RETURN_SUCCESS
      else show_state io_partner dir out in_;; mret IO_RETURN_SUCCESS
  end.

Definition io_setup (c : Settings) : M T Z :=
  t ← get;
  match ioName t with
  | None => mret IO_RETURN_FAILURE
  | Some _ =>
      or_return IO_RETURN_FAILURE
        (receiver ← find_receiver;
         outs ← call (receiver_outputs receiver);
         ins ← call (receiver_inputs receiver);
         setup_line outs ins c)
  end.

(** ** The table of all lines *)
Definition show_line (output : bool) (name path : string) : M T unit :=
  t ← get;
  if selected name t then
    call (create path);;
    first ← call (if output then getOutputEnableAvailable path else getInputTerminationAvailable path);
    special ← call (if output then getSpecialPurposeOutAvailable path else getSpecialPurposeInAvailable path);
    resolution ← call (if output then getTypeOut path else getTypeIn path);
    level ← call (if output then getLogicLevelOut path else getLogicLevelIn path);
    call (show (LineRow name output first special resolution level))
  else mret tt.
Definition show_lines (outs ins : list (string * string)) : M T unit :=
  for_each (fun '(name, path) => show_line true name path) outs;;
  for_each (fun '(name, path) => show_line false name path) ins.
Definition io_print_table : M T Z :=
  or_return IO_RETURN_FAILURE
    (receiver ← find_receiver;
     outs ← call (receiver_outputs receiver);
     ins ← call (receiver_inputs receiver);
     show_lines outs ins;;
     mret IO_RETURN_SUCCESS).
End IoTool.

(** ** Options *)
Inductive Mode := Snoop | Wipe | ItoE | SetupOnly | Create | DestroyAll | Flip | ListAll | ShowTable.
#[export] Instance Mode_eq_dec : EqDecision Mode.
Proof. solve_decision. Defined.

Record IoOptions := mkIoOptions {
  name : option string; settings : Settings; modes : list Mode; prefix : Z; disable : bool;
  eventID : Z; eventMask : Z; offset : Z; flags : Z; level : Z; disown : bool; negative : bool; translate_mask : bool
}.
Definition no_settings : Settings := mkSettings None None None None None None None None None None.
Definition no_io_options : IoOptions := mkIoOptions None no_settings [] 0 false 0 0 0 0 0 false false false.

Definition with_settings (c : Settings) (o : IoOptions) : IoOptions :=
  mkIoOptions (name o) c (modes o) (prefix o) (disable o) (eventID o) (eventMask o) (offset o) (flags o) (level o) (disown o) (negative o) (translate_mask o).
Definition with_mode (m : Mode) (o : IoOptions) : IoOptions :=
  mkIoOptions (name o) (settings o) (m :: modes o) (prefix o) (disable o) (eventID o) (eventMask o) (offset o) (flags o) (level o) (disown o) (negative o) (translate_mask o).
Definition has (m : Mode) (o : IoOptions) : bool := bool_decide (m ∈ modes o).

Definition setting (opt : ascii) (v : Z) (c : Settings) : option Settings :=
  let '(mkSettings oe term spec_out spec_in gate_out gate_in mux pps drive stime) := c in
  if char_eqb opt "o" then Some (mkSettings (Some v) term spec_out spec_in gate_out gate_in mux pps drive stime)
  else if char_eqb opt "t" then Some (mkSettings oe (Some v) spec_out spec_in gate_out gate_in mux pps drive stime)
  else if char_eqb opt "q" then Some (mkSettings oe term (Some v) spec_in gate_out gate_in mux pps drive stime)
  else if char_eqb opt "e" then Some (mkSettings oe term spec_out (Some v) gate_out gate_in mux pps drive stime)
  else if char_eqb opt "a" then Some (mkSettings oe term spec_out spec_in (Some v) gate_in mux pps drive stime)
  else if char_eqb opt "j" then Some (mkSettings oe term spec_out spec_in gate_out (Some v) mux pps drive stime)
  else if char_eqb opt "m" then Some (mkSettings oe term spec_out spec_in gate_out gate_in (Some v) pps drive stime)
  else if char_eqb opt "p" then Some (mkSettings oe term spec_out spec_in gate_out gate_in mux (Some v) drive stime)
  else if char_eqb opt "d" then Some (mkSettings oe term spec_out spec_in gate_out gate_in mux pps (Some v) stime)
  else if char_eqb opt "k" then Some (mkSettings oe term spec_out spec_in gate_out gate_in mux pps drive (Some v))
  else None.

Definition number (l : text) : Z := fst (strtoull l).

(** An option with its argument, and the words of the command line from
    [argv\[optind-1\]] on.  [inr]: [main] returns. *)
Definition parse_option (o : IoOptions) (opt : ascii) (optarg : text) (words : list text) : outcome (IoOptions + Z) :=
  if match setting opt 0 no_settings with Some _ => true | None => false end then
    v ← atoi optarg; Ret (inl (with_settings (default (settings o) (setting opt v (settings o))) o))
  else if char_eqb opt "n" then
    Ret (inl (mkIoOptions (to_string <$> head words) (settings o) (modes o) (prefix o) (disable o) (eventID o) (eventMask o) (offset o)
                (flags o) (level o) (disown o) (negative o) (translate_mask o)))
  else if char_eqb opt "s" then Ret (inl (with_mode Snoop o))
  else if char_eqb opt "w" then Ret (inl (with_mode Wipe o))
  else if char_eqb opt "y" then Ret (inl (with_mode ItoE o))
  else if char_eqb opt "b" then
    match words with
    | w :: _ => Ret (inl (mkIoOptions (name o) (settings o) (SetupOnly :: modes o) (number w) (disable o) (eventID o) (eventMask o) (offset o)
                            (flags o) (level o) (disown o) (negative o) (translate_mask o)))
    | [] => Ret (inr IO_RETURN_FAILURE)
    end
  else if char_eqb opt "r" then
    Ret (inl (mkIoOptions (name o) (settings o) (SetupOnly :: modes o) (prefix o) true (eventID o) (eventMask o) (offset o)
                (flags o) (level o) (disown o) (negative o) (translate_mask o)))
  else if char_eqb opt "c" then
    match words with
    | id :: mask :: off :: fl :: lv :: _ =>
        Ret (inl (mkIoOptions (name o) (settings o) (Create :: modes o) (prefix o) (disable o) (number id) (number mask) (s64 (number off))
                    (number fl) (s64 (number lv)) (disown o) (negative o) (translate_mask o)))
    | _ => Ret (inr IO_RETURN_FAILURE)
    end
  else if char_eqb opt "g" || char_eqb opt "u" || char_eqb opt "z" then
    Ret (inl (mkIoOptions (name o) (settings o) (modes o) (prefix o) (disable o) (eventID o) (eventMask o) (offset o)
                (flags o) (level o) (disown o || char_eqb opt "u") (negative o || char_eqb opt "g") (translate_mask o || char_eqb opt "z")))
  else if char_eqb opt "x" then Ret (inl (with_mode DestroyAll o))
  else if char_eqb opt "f" then Ret (inl (with_mode Flip o))
  else if char_eqb opt "l" then Ret (inl (with_mode ListAll o))
  else if char_eqb opt "i" then Ret (inl (with_mode ShowTable o))
  else if char_eqb opt "U" || char_eqb opt "v" then Ret (inl o)
  else Ret (inr IO_RETURN_SUCCESS).
Fixpoint parse_options (o : IoOptions) (opts : list (ascii * text * list text)) : outcome (IoOptions + Z) :=
  match opts with
  | [] => Ret (inl o)
  | (opt, optarg, words) :: opts' =>
      r ← parse_option o opt optarg words;
      match r with inl o' => parse_options o' opts' | inr code => Ret (inr code) end
  end.

(** Options that exclude each other. *)
Definition excluded (o : IoOptions) : bool :=
  (has Create o || disown o) && has DestroyAll o || has Snoop o && has Wipe o || has Snoop o && has SetupOnly o || has Wipe o && has SetupOnly o.

(** Every value is 0 or 1; the stable time a multiple of 8 ns, 16 ns at least. *)
Definition valid_settings (c : Settings) : bool :=
  forallb (fun v => match v with Some v => (v =? 0) || (v =? 1) | None => true end)
    [set_oe c; set_term c; set_spec_out c; set_spec_in c; set_gate_out c; set_gate_in c; set_mux c; set_pps c; set_drive c] &&
  match set_stime c with Some v => (Z.rem v 8 =? 0) && (16 <=? v) | None => true end.

Section Main.
Context {W : Type} `{!Device W, !Proxies W, !PpsProxies W, !IoProxies W}.

(** The first that was asked for, in this order. *)
Definition operation (fuel : nat) (deviceName : string) (o : IoOptions) : M (Tool W) Z :=
  if has ShowTable o then io_print_table deviceName
  else if has Wipe o || has Snoop o || has SetupOnly o then
    io_snoop deviceName fuel (has Wipe o) (has SetupOnly o) (disable o) (prefix o)
  else if has ItoE o then io_list_i_to_e deviceName
  else if has Create o then io_create deviceName (disown o) (eventID o) (eventMask o) (offset o) (flags o) (level o) (negative o) (translate_mask o)
  else if has DestroyAll o then io_destroy deviceName
  else if has Flip o then io_flip deviceName
  else if has ListAll o then io_list deviceName
  else io_setup deviceName (settings o).

(** The global variables as the options leave them. *)
Definition with_tool {A} (n : option string) (m : M (Tool W) A) : M W A :=
  fun w => let '(r, t) := m (mkTool n (if n is Some _ then true else false) [] w) in (r, outside t).

(** Exceptions of these first calls end the process. *)
Definition known_line (path : string) (n : string) : M W bool :=
  create_receiver path;;
  outs ← receiver_outputs path;
  ins ← receiver_inputs path;
  mret (existsb (fun e => bool_decide (fst e = n)) (outs ++ ins)).

Definition main (fuel : nat) (opts : list (ascii * text * list text)) (args : list string) : M W Z :=
  r ← of_outcome (parse_options no_io_options opts);
  match r with
  | inr code => mret code
  | inl o =>
      if excluded o then mret IO_RETURN_FAILURE
      else
        match args with
        | [] => mret IO_RETURN_FAILURE
        | deviceName :: _ =>
            devices ← getDevices;
            match lookup_name deviceName devices with
            | None => mret IO_RETURN_FAILURE
            | Some path =>
                if negb (valid_settings (settings o)) then mret IO_RETURN_FAILURE
                else
                  known ← (match name o with Some n => known_line path n | None => mret true end);
                  if negb known then mret IO_RETURN_FAILURE
                  else
                    with_tool (name o) (operation fuel deviceName o)
            end
        end
  end.
End Main.
