(* ===== verification/IoToolCorrect.v ===== *)
(** * The tool for inputs and outputs: what its settings do to the registers of the line,
    and which name it shows for an edge *)
From S2P Require Import Prelude StdMap Bus Io IoCorrect Time BurstControl Texts Streams Tools PpsGen IoTool.
From stdpp Require Import gmap.
From Stdlib Require Import Strings.Ascii.
Local Open Scope Z_scope.

(** ** Lines by name *)
Section Names.
Context {W : Type} `{!Proxies W}.

(** The only entry of a map with this name. *)
Lemma lookup_name_cons name n path l : lookup_name name ((n, path) :: l) = if bool_decide (n = name) then Some path else lookup_name name l.
Proof. unfold lookup_name. cbn. by destruct (bool_decide (n = name)). Qed.
Lemma lookup_name_none name l : name ∉ l.*1 -> lookup_name name l = None.
Proof.
  induction l as [|[n p] l IH]; intros Hn; [done|]. rewrite fmap_cons in Hn. apply not_elem_of_cons in Hn as [Hne Hn].
  rewrite lookup_name_cons, bool_decide_eq_false_2 by (intros E; by apply Hne). by apply IH.
Qed.
End Names.

(** ** Settings *)

(** A setter fails when the bus does. *)
Lemma setter_fails {D} `{HB : Bus D} {ctl} p io c v d e d' :
  usable (ctl := ctl) io c -> setter p io v d = (Throw e, d') -> exists ops, bus_cycle ops d = None.
Proof.
  intros [Hc _ Hi]. assert (forall q n, set_property q n io v d = (Throw e, d') -> (forall b s, n b s = (Ret tt, s)) -> exists ops, bus_cycle ops d = None) as Hs.
  { intros q n. unfold set_property. rewrite Hc. destruct (word_and_bit io Hi) as (w & _ & _ & Hid & _).
    destruct (int_bit_low (internal_id io) d Hid) as (b & Hb & _). mrun. rewrite Hb. mrun. unfold cycle.
    destruct (bus_cycle _ d) as [[rs d1]|] eqn:E; [|eauto]. intros Hn Hq. by rewrite Hq in Hn. }
  destruct p; cbn [setter]; try (intros E; by eapply Hs). unfold Io.setOutputEnable. rewrite Hc. unfold dev_write, cycle. mrun.
  destruct (bus_cycle _ d) as [[rs d1]|] eqn:E; [done|eauto].
Qed.

Section Setup.
Context {D : Type} `{HB : Bus D, HI : IoHw D} {ctl : Z} `{!IoHwOk D ctl}.
Context {W : Type} `{!Device W, !Proxies W, !PpsProxies W, !IoProxies W}.
(** The device is somewhere in the outside. *)
Variables (dev : W -> D) (with_dev : D -> W -> W).
Hypothesis dev_with : forall d w, dev (with_dev d w) = d.
(** A line, the paths of its objects, and its name. *)
Variables (io : Io) (out in_ : option string) (name deviceName : string) (outs ins devices : list (string * string)).

(** What a call says, without an effect on the device. *)
Definition says {A} (m : M W A) (a : A) : Prop := forall w, exists w', m w = (Ret a, w') /\ dev w' = dev w.

Definition output_property (c : OutputCall) : option (io_property * Z) :=
  match c with
  | setOutputEnable v => Some (Oe, v) | setSpecialPurposeOut v => Some (Spec_Out, v) | setGateOut v => Some (Gate_Out, v)
  | setBuTiSMultiplexer v => Some (Mux, v) | setPPSMultiplexer v => Some (PPS_Mux, v) | WriteOutput _ => None
  end.
Definition input_property (c : InputCall) : option (io_property * Z) :=
  match c with
  | setInputTermination v => Some (Term, v) | setSpecialPurposeIn v => Some (Spec_In, v) | setGateIn v => Some (Gate_In, v)
  | setStableTime _ | setEventEnable _ | setEventPrefix _ => None
  end.

(** The driver's setter, called through a proxy by somebody who may. *)
Definition driver_set (p : io_property) (v : Z) : M W unit := remote (zoom dev with_dev (setter p io (negb (v =? 0)))).
(** Other registers: the level of an output and the trigger unit. *)
Definition elsewhere (m : M W unit) : Prop := forall w,
  match m w with (Ret _, w') | (Throw (Error _ _), w') => forall c p, io_reg (dev w') c p = io_reg (dev w) c p | _ => False end.

(** The objects of the line behind their proxies. *)
Record LineProxies : Prop := {
  lp_devices : says getDevices devices;
  lp_receiver path : says (create_receiver path) tt;
  lp_outputs path : says (receiver_outputs path) outs;
  lp_inputs path : says (receiver_inputs path) ins;
  lp_create path : says (create path) tt;
  lp_names : NoDup outs.*1 /\ NoDup ins.*1 /\ lookup_name name outs = out /\ lookup_name name ins = in_;
  lp_paths : out <> Some ""%string /\ in_ <> Some ""%string;
  lp_partner_out p : out = Some p -> says (getInput p) (default ""%string in_);
  lp_partner_in p : in_ = Some p -> says (getOutput p) (default ""%string out);
  lp_oe p : out = Some p -> says (getOutputEnableAvailable p) (io_oe_available io);
  lp_spec_out p : out = Some p -> says (getSpecialPurposeOutAvailable p) (io_spec_out_available io);
  lp_term p : in_ = Some p -> says (getInputTerminationAvailable p) (io_term_available io);
  lp_spec_in p : in_ = Some p -> says (getSpecialPurposeInAvailable p) (io_spec_in_available io);
  lp_out p c : out = Some p -> match output_property c with
    | Some (q, v) => forall w, output_call p c w = driver_set q v w | None => elsewhere (output_call p c) end;
  lp_in p c : in_ = Some p -> match input_property c with
    | Some (q, v) => forall w, input_call p c w = driver_set q v w | None => elsewhere (input_call p c) end
}.

(** Nothing fails. *)
Definition works : Prop := (forall ops d, bus_cycle ops d <> None) /\
  (forall p c w, out = Some p -> output_property c = None -> exists w', output_call p c w = (Ret tt, w')) /\
  (forall p c w, in_ = Some p -> input_property c = None -> exists w', input_call p c w = (Ret tt, w')).

(** The properties that settings ask for, in the order in which they are set, and whether
    the line has them. *)
Definition asked1 (p : io_property) (o : option Z) : list (io_property * bool) := match o with Some v => [(p, negb (v =? 0))] | None => [] end.
Definition asked (c : Settings) : list (io_property * bool) :=
  asked1 Oe (set_oe c) ++ asked1 Term (set_term c) ++ asked1 Spec_Out (set_spec_out c) ++ asked1 Spec_In (set_spec_in c) ++
  asked1 Gate_Out (set_gate_out c) ++ asked1 Gate_In (set_gate_in c) ++ asked1 Mux (set_mux c) ++ asked1 PPS_Mux (set_pps c).
Definition has_output : bool := if out is Some _ then true else false.
Definition has_input : bool := if in_ is Some _ then true else false.
Definition possible (c : Settings) : bool := forallb id
  [implb (given (set_oe c)) (has_output && io_oe_available io); implb (given (set_term c)) (has_input && io_term_available io);
   implb (given (set_spec_out c)) (has_output && io_spec_out_available io); implb (given (set_spec_in c)) (has_input && io_spec_in_available io);
   implb (given (set_gate_out c)) (has_output && true); implb (given (set_gate_in c)) (has_input && true); implb (given (set_mux c)) (has_output && true);
   implb (given (set_pps c)) (has_output && true); implb (given (set_drive c)) (has_output && true); implb (given (set_stime c)) (has_input && true)].

Context (ch : io_channels) (Husable : usable (ctl := ctl) io ch) (Hlow : io_index io <= 31) (HP : LineProxies).
Local Abbreviation T := (Tool W).
Definition hw (t : T) : D := dev (outside t).
Definition set_all (l : list (io_property * bool)) (tbl : table) : table := foldl (fun tbl '(p, v) => table_set tbl ch p (io_index io) v) tbl l.

(** [m] sets [l], or the first ones of it before an error. *)
Definition performs (l : list (io_property * bool)) (m : M T unit) : Prop := forall t tbl, shows (hw t) tbl ->
  match m t with
  | (Ret _, t') => shows (hw t') (set_all l tbl)
  | (Throw (Error _ _), t') => ~ works /\ exists l', l' `prefix_of` l /\ shows (hw t') (set_all l' tbl)
  | _ => False
  end.

Lemma performs_bind l1 l2 m1 m2 : performs l1 m1 -> performs l2 m2 -> performs (l1 ++ l2) (m1;; m2).
Proof.
  intros H1 H2 t tbl Ht. specialize (H1 t tbl Ht). unfold mbind, M_bind. destruct (m1 t) as [[[]|[]|] t1]; try done.
  - specialize (H2 t1 _ H1). destruct (m2 t1) as [[[]|[]|] t2]; try done; [unfold set_all; by rewrite foldl_app|].
    destruct H2 as (Hw & l' & Hl & Ht2). split; [done|]. exists (l1 ++ l'). split; [by apply prefix_app|]. unfold set_all. by rewrite foldl_app.
  - destruct H1 as (Hw & l' & Hl & Ht1). split; [done|]. exists l'. split; [by apply prefix_app_r|done].
Qed.
Lemma performs_nothing : performs [] (mret tt).
Proof. by intros t tbl Ht. Qed.

Lemma performs_driver p v (m : M W unit) : (forall w, m w = driver_set p v w) -> performs [(p, negb (v =? 0))] (call m).
Proof.
  intros Hm t tbl Ht. unfold call, zoom. rewrite Hm. unfold driver_set, remote, try_catch, zoom.
  pose proof (setter_line p io ch (negb (v =? 0)) (dev (outside t)) Husable Hlow) as Hs.
  destruct (setter p io (negb (v =? 0)) (dev (outside t))) as [[[]|e|why] d'] eqn:E; [| |done].
  - cbn. unfold hw. cbn. rewrite dev_with. intros c' p' i Hi. rewrite (Hs c' p' i Hi). unfold table_set. destruct (decide _); [done|by apply Ht].
  - destruct Hs as [-> ->]. cbn. split.
    + intros (Hb & _). by destruct (setter_fails p io ch _ _ _ _ Husable E) as (ops & ?%Hb).
    + exists []. split; [apply prefix_nil|]. intros c p' i Hi. unfold hw. cbn [outside]. rewrite dev_with. by apply Ht.
Qed.

Lemma performs_elsewhere (m : M W unit) : elsewhere m -> (works -> forall w, exists w', m w = (Ret tt, w')) -> performs [] (call m).
Proof.
  intros He Hw t tbl Ht. specialize (He (outside t)). unfold call, zoom.
  destruct (m (outside t)) as [[[]|[]|] w'] eqn:E; try done; cbn.
  - intros c p i Hi. unfold hw, line. cbn. rewrite He. by apply Ht.
  - split; [intros Hwork; destruct (Hw Hwork (outside t)) as [w2 E2]; congruence|].
    exists []. split; [done|]. intros c p i Hi. unfold hw, line. cbn. rewrite He. by apply Ht.
Qed.

(** [m] reads [a]. *)
Definition reads {A} (m : M T A) (a : A) : Prop := forall t, exists t', m t = (Ret a, t') /\ hw t' = hw t /\ ioName t' = ioName t.

Lemma reads_call {A} (m : M W A) a : says m a -> reads (call m) a.
Proof. intros Hm t. destruct (Hm (outside t)) as (w' & E & Hd). eexists. split; [unfold call, zoom; by rewrite E|done]. Qed.
Lemma reads_ret {A} (a : A) : reads (mret a) a.
Proof. intros t. by exists t. Qed.
Lemma reads_bind {A B} (m : M T A) (k : A -> M T B) a b : reads m a -> reads (k a) b -> reads (m ≫= k) b.
Proof.
  intros Hm Hk t. destruct (Hm t) as (t1 & E1 & H1 & N1). destruct (Hk t1) as (t2 & E2 & H2 & N2). exists t2.
  rewrite (run_bind_ret _ _ _ _ _ E1), E2. split; [done|]. by rewrite H2, N2.
Qed.
Lemma reads_deref {A} q p (f : string -> M W A) a : q = Some p -> says (f p) a -> reads (deref q f) a.
Proof. intros -> Hf. by apply reads_call. Qed.

Lemma reads_find_path l found : NoDup l.*1 -> forall t, ioName t = Some name ->
  exists t', find_path l found t = (Ret (match lookup_name name l with Some p => Some p | None => found end), t') /\ hw t' = hw t /\ ioName t' = ioName t.
Proof.
  revert found. induction l as [|[n p] l IH]; intros found Hl t Ht; [by exists t|]. cbn [find_path]. rewrite fmap_cons in Hl. apply NoDup_cons in Hl as [Hn Hl].
  rewrite (run_bind_ret _ _ t t t) by reflexivity. unfold is_name. rewrite Ht, lookup_name_cons.
  destruct (decide (n = name)) as [->|Hne].
  - rewrite (bool_decide_eq_true_2 (Some name = Some name)), (bool_decide_eq_true_2 (name = name)) by done. destruct (reads_call _ _ (lp_create HP p) t) as (t1 & E1 & H1 & N1).
    rewrite (run_bind_ret _ _ _ _ _ E1). assert (ioName t1 = Some name) as N1' by (by rewrite N1). destruct (IH (Some p) Hl t1 N1') as (t2 & E2 & H2 & N2).
    rewrite E2, lookup_name_none by done. exists t2. split; [done|]. by rewrite H2, N2, N1'.
  - rewrite (bool_decide_eq_false_2 (Some name = Some n)), (bool_decide_eq_false_2 (n = name)) by congruence.
    destruct (IH found Hl t Ht) as (t' & E & H & N). exists t'. split_and!; [exact E|exact H|by rewrite N].
Qed.

(** *** The checks *)
Definition direction : Direction := if has_output then if has_input then DIR_INOUT else DIR_OUTPUT else DIR_INPUT.

Lemma existsb_negb bs : existsb id (map negb bs) = negb (forallb id bs).
Proof. induction bs as [|b bs IH]; [done|]. cbn. by rewrite IH, negb_andb. Qed.
Lemma reads_first_refused l : forall bs, Forall2 reads l bs -> reads (first_refused l) (existsb id bs).
Proof.
  intros bs. induction 1 as [|m b l bs Hm Hl IH]; [apply reads_ret|]. cbn [first_refused].
  eapply reads_bind; [exact Hm|]. destruct b; [apply reads_ret|exact IH].
Qed.
Lemma reads_need o wrong m a : (direction <> wrong -> reads m a) ->
  reads (need o wrong direction m) (negb (implb (given o) (negb (direction_eqb direction wrong) && a))).
Proof.
  intros Hm. unfold need. destruct (given o); cbn; [|apply reads_ret].
  destruct (direction_eqb direction wrong) eqn:E; [apply reads_ret|]. eapply reads_bind; [|apply reads_ret].
  apply Hm. intros Ed. rewrite Ed in E. by destruct wrong.
Qed.
Lemma not_input : negb (direction_eqb direction DIR_INPUT) = has_output.
Proof. unfold direction. by destruct has_output, has_input. Qed.
Lemma not_output : has_output || has_input = true -> negb (direction_eqb direction DIR_OUTPUT) = has_input.
Proof. unfold direction. by destruct has_output, has_input. Qed.

Lemma reads_refused c : has_output || has_input = true -> reads (refused c direction out in_) (negb (possible c)).
Proof.
  intros Hline. assert (forall (f : string -> M W bool) a, (forall p, out = Some p -> says (f p) a) -> direction <> DIR_INPUT -> reads (deref out f) a) as Ho.
  { intros f a Hf Hd. unfold direction, has_output in Hd. destruct out as [p|] eqn:Eo; [|done]. by eapply reads_deref; [|apply Hf]. }
  assert (forall (f : string -> M W bool) a, (forall p, in_ = Some p -> says (f p) a) -> direction <> DIR_OUTPUT -> reads (deref in_ f) a) as Hi.
  { intros f a Hf Hd. unfold direction, has_input, has_output in *. destruct in_ as [p|] eqn:Ei; [by eapply reads_deref; [|apply Hf]|].
    by destruct out. }
  unfold refused, possible. rewrite <- existsb_negb.
  rewrite <- not_input, <- (not_output Hline). apply reads_first_refused. cbn [map].
  repeat (apply Forall2_cons; split);
    [apply reads_need, Ho, (lp_oe HP)|apply reads_need, Hi, (lp_term HP)|apply reads_need, Ho, (lp_spec_out HP)|apply reads_need, Hi, (lp_spec_in HP)|
     apply reads_need; intros _; apply reads_ret..|by apply Forall2_nil].
Qed.

(** *** The calls *)
Lemma performs_output o c p : (given o = true -> has_output = true) -> (forall v, output_property (c v) = Some (p, v)) ->
  performs (asked1 p o) (on_given o (fun v => deref out (fun q => output_call q (c v)))).
Proof.
  intros Hg Hc. destruct o as [v|]; [|apply performs_nothing]. cbn. unfold has_output in Hg. destruct out as [q|] eqn:Eo; [|by specialize (Hg eq_refl)].
  apply performs_driver. intros w. pose proof (lp_out HP q (c v) Eo) as H. rewrite Hc in H. apply H.
Qed.
Lemma performs_input o c p : (given o = true -> has_input = true) -> (forall v, input_property (c v) = Some (p, v)) ->
  performs (asked1 p o) (on_given o (fun v => deref in_ (fun q => input_call q (c v)))).
Proof.
  intros Hg Hc. destruct o as [v|]; [|apply performs_nothing]. cbn. unfold has_input in Hg. destruct in_ as [q|] eqn:Ei; [|by specialize (Hg eq_refl)].
  apply performs_driver. intros w. pose proof (lp_in HP q (c v) Ei) as H. rewrite Hc in H. apply H.
Qed.
Lemma performs_level o c : (given o = true -> has_output = true) -> (forall v, output_property (c v) = None) ->
  performs [] (on_given o (fun v => deref out (fun q => output_call q (c v)))).
Proof.
  intros Hg Hc. destruct o as [v|]; [|apply performs_nothing]. cbn. unfold has_output in Hg. destruct out as [q|] eqn:Eo; [|by specialize (Hg eq_refl)].
  apply performs_elsewhere; [pose proof (lp_out HP q (c v) Eo) as H; by rewrite Hc in H|]. intros (_ & Hw & _) w. by apply Hw.
Qed.
Lemma performs_stable o c : (given o = true -> has_input = true) -> (forall v, input_property (c v) = None) ->
  performs [] (on_given o (fun v => deref in_ (fun q => input_call q (c v)))).
Proof.
  intros Hg Hc. destruct o as [v|]; [|apply performs_nothing]. cbn. unfold has_input in Hg. destruct in_ as [q|] eqn:Ei; [|by specialize (Hg eq_refl)].
  apply performs_elsewhere; [pose proof (lp_in HP q (c v) Ei) as H; by rewrite Hc in H|]. intros (_ & _ & Hw) w. by apply Hw.
Qed.

Lemma performs_settings c : possible c = true -> performs (asked c) (apply_settings c out in_).
Proof.
  unfold possible. cbn [forallb id]. rewrite !andb_true_iff, !implb_true_iff, !andb_true_iff. intros (Ho & Ht & Hso & Hsi & Hgo & Hgi & Hm & Hp & Hd & Hs & _).
  unfold asked, apply_settings. rewrite <- (app_nil_r (asked1 PPS_Mux _)). change (@nil (io_property * bool)) with (@nil (io_property * bool) ++ []).
  repeat apply performs_bind.
  all: (apply performs_output || apply performs_input || apply performs_level || apply performs_stable); [|done]; intros G; tauto.
Qed.

Lemma reads_receiver : reads (find_receiver deviceName) (default ""%string (lookup_name deviceName devices)).
Proof.
  unfold find_receiver. eapply reads_bind; [apply reads_call, (lp_devices HP)|]. cbv zeta.
  eapply reads_bind; [apply reads_call, (lp_receiver HP)|apply reads_ret].
Qed.

(** The direction is what the objects of the line say. *)
Definition partner : string := match out with Some _ => default ""%string in_ | None => default ""%string out end.
Lemma reads_partner : has_output || has_input = true ->
  reads (match out with Some p => call (getInput p) | None => deref in_ getOutput end) partner.
Proof.
  unfold has_output, has_input, partner. intros Hline. destruct out as [p|] eqn:Eo.
  - apply reads_call, (lp_partner_out HP), Eo.
  - destruct in_ as [q|] eqn:Ei; [|done]. eapply reads_deref; [done|]. pose proof (lp_partner_in HP q Ei) as H. by rewrite Eo in H.
Qed.
Lemma partner_direction : has_output || has_input = true ->
  (if negb (bool_decide (partner = ""%string)) then DIR_INOUT else if out is Some _ then DIR_OUTPUT else DIR_INPUT) = direction.
Proof.
  unfold has_output, has_input, partner, direction. intros Hline. destruct (lp_paths HP) as [Hpo Hpi].
  unfold has_output, has_input. destruct out as [p|], in_ as [q|]; cbn; try done.
  rewrite bool_decide_eq_false_2; [done|]. congruence.
Qed.

Lemma some_object {A} (a b : A) : has_output || has_input = true -> match in_, out with None, None => a | _, _ => b end = b.
Proof. unfold has_output, has_input. intros H. destruct out, in_; done. Qed.

End Setup.

(** ** Edges of inputs *)

(** Which input a prefix belongs to. *)
Lemma last_match_name (m : list (string * Z)) e name r :
  (forall n p, (n, p) ∈ m -> p = e -> n = name) -> (name, e) ∈ m \/ r = Some name ->
  foldl (fun r '(n, p) => if e =? p then Some n else r) r m = Some name.
Proof.
  revert r. induction m as [|[n p] m IH]; intros r Hm Hr; [destruct Hr as [?%not_elem_of_nil|]; done|]. cbn [foldl].
  destruct (Z.eqb_spec e p) as [->|Hne].
  - rewrite (Hm n p) by (done || apply list_elem_of_here). apply IH; [|by right]. intros n' p' Hin. apply Hm. by apply list_elem_of_further.
  - apply IH; [intros n' p' Hin; apply Hm; by apply list_elem_of_further|]. destruct Hr as [[E|Hin]%elem_of_cons|]; [congruence|by left|by right].
Qed.
Lemma last_match_none (m : list (string * Z)) e r : (forall n p, (n, p) ∈ m -> p <> e) ->
  foldl (fun r '(n, p) => if e =? p then Some n else r) r m = r.
Proof.
  revert r. induction m as [|[n p] m IH]; intros r Hm; [done|]. cbn [foldl].
  rewrite (proj2 (Z.eqb_neq e p)) by (intros ->; by apply (Hm n p); [apply list_elem_of_here|]). apply IH.
  intros n' p' Hin. apply (Hm n'). by apply list_elem_of_further.
Qed.

Definition prefix_of_nth (k : nat) : Z := ECA_EVENT_ID_LATCH + Z.of_nat k * 2.
Lemma prefix_range k : Z.of_nat k < 2 ^ 48 -> 0 <= prefix_of_nth k < 2 ^ 64 - 1 /\ Z.even (prefix_of_nth k) = true.
Proof.
  unfold prefix_of_nth, ECA_EVENT_ID_LATCH. intros Hk. change (2 ^ 48) with 281474976710656 in Hk. change (2 ^ 64) with 18446744073709551616.
  split; [lia|]. rewrite Z.even_add, Z.even_mul. by rewrite orb_true_r.
Qed.

(** The mask -2 leaves the two edges together. *)
Lemma edge_mask e : 0 <= e < 2 ^ 64 -> Z.land e (u64 (-2)) = 2 * (e / 2).
Proof.
  intros He. change (u64 (-2)) with (Z.ldiff (Z.ones 64) 1). apply Z.bits_inj'. intros n Hn. rewrite Z.land_spec, Z.ldiff_spec.
  destruct (Z.eq_dec n 0) as [->|Hn0].
  - rewrite Z.testbit_even_0. cbn. by rewrite andb_false_r.
  - replace n with (Z.succ (n - 1)) at 4 by lia. rewrite Z.testbit_even_succ by lia. rewrite Z.div2_bits by lia.
    replace (Z.succ (n - 1)) with n by lia. replace (Z.testbit 1 n) with false by (symmetry; apply (Z.bits_above_log2 1); cbn; lia).
    destruct (Z.lt_ge_cases n 64); [by rewrite Z.ones_spec_low, andb_true_r by lia|].
    rewrite Z.ones_spec_high, andb_false_r by lia. symmetry. destruct (Z.eq_dec e 0) as [->|Hne]; [apply Z.bits_0|].
    apply Z.bits_above_log2; [lia|]. assert (Z.log2 e < 64) by (apply Z.log2_lt_pow2; lia). lia.
Qed.

Section Snoop.
Context {W : Type} `{!Device W, !Proxies W, !PpsProxies W, !IoProxies W}.
(** Identifiers and masks of the conditions that were made, and prefixes that were given
    to inputs. *)
Variables (watched : W -> list (Z * Z)) (prefixes : W -> list (string * Z)).

Definition logs {A} (m : M W A) (ws : list (Z * Z)) (ps : list (string * Z)) : Prop :=
  forall w, exists a w', m w = (Ret a, w') /\ watched w' = watched w ++ ws /\ prefixes w' = prefixes w ++ ps.
Record SnoopProxies : Prop := {
  sp_create p : logs (create p) [] [];
  sp_sink : logs NewSoftwareActionSink [] [];
  sp_connect c : logs (connect_action c) [] [];
  sp_accept c f b : logs (setAccept c f b) [] [];
  sp_condition s act id mask offset : logs (sw_NewCondition s act id mask offset) [(id, mask)] [];
  sp_prefix p v : logs (input_call p (setEventPrefix v)) [] [(p, v)];
  sp_enable p b : logs (input_call p (setEventEnable b)) [] []
}.
Context (HP : SnoopProxies).

(** The same for the tool, whose own variables stay. *)
Definition does {A} (m : M (Tool W) A) (ws : list (Z * Z)) (ps : list (string * Z)) : Prop := forall t, exists a w',
  m t = (Ret a, mkTool (ioName t) (ioNameGiven t) (map_PrefixName t) w') /\
  watched w' = watched (outside t) ++ ws /\ prefixes w' = prefixes (outside t) ++ ps.
Lemma logs_call {A} (m : M W A) ws ps : logs m ws ps -> does (call m) ws ps.
Proof. intros Hm t. destruct (Hm (outside t)) as (a & w' & E & H). exists a, w'. unfold call, zoom. by rewrite E. Qed.
Lemma logs_ret {A} (a : A) : does (mret a) [] [].
Proof. intros t. exists a, (outside t). rewrite !app_nil_r. by destruct t. Qed.
Lemma logs_bind {A B} (m : M (Tool W) A) (k : A -> M (Tool W) B) ws1 ws2 ps1 ps2 :
  does m ws1 ps1 -> (forall a, does (k a) ws2 ps2) -> does (m ≫= k) (ws1 ++ ws2) (ps1 ++ ps2).
Proof.
  intros Hm Hk t. destruct (Hm t) as (a & w1 & E1 & Hw1 & Hp1). rewrite (run_bind_ret _ _ _ _ _ E1).
  destruct (Hk a (mkTool (ioName t) (ioNameGiven t) (map_PrefixName t) w1)) as (b & w2 & E2 & Hw2 & Hp2). exists b, w2. split; [exact E2|].
  cbn in Hw2, Hp2. by rewrite Hw2, Hp2, Hw1, Hp1, <- !app_assoc.
Qed.
Lemma logs_quiet {A B} (m : M (Tool W) A) (k : A -> M (Tool W) B) ws ps : does m [] [] -> (forall a, does (k a) ws ps) -> does (m ≫= k) ws ps.
Proof. apply logs_bind. Qed.

Lemma logs_make_sink receiver sink : does (make_sink receiver sink) [] [].
Proof.
  unfold make_sink. destruct sink as [s|]; [apply logs_ret|]. apply logs_quiet; [apply logs_call, (sp_sink HP)|]. intros s.
  apply logs_quiet; [apply logs_call, (sp_create HP)|]. intros _. apply logs_ret.
Qed.
Lemma logs_watch sink prefix : does (watch_prefix sink prefix) [(prefix, u64 (-2))] [].
Proof.
  unfold watch_prefix. apply (logs_bind _ _ [_] [] [] []); [apply logs_call, (sp_condition HP)|]. intros c.
  apply logs_quiet; [apply logs_call, (sp_create HP)|]. intros _. apply logs_quiet; [apply logs_call, (sp_connect HP)|]. intros _.
  do 3 (apply logs_quiet; [apply logs_call, (sp_accept HP)|]; intros _). apply logs_call, (sp_accept HP).
Qed.
Lemma logs_setup prefix path : does (setup_events false prefix path) [] [(path, prefix)].
Proof.
  unfold setup_events. apply logs_quiet; [apply logs_call, (sp_create HP)|]. intros _. apply logs_quiet; [apply logs_call, (sp_enable HP)|]. intros _.
  apply (logs_bind _ _ [] [] [_] []); [apply logs_call, (sp_prefix HP)|]. intros _. apply logs_call, (sp_enable HP).
Qed.

(** The inputs that take part; the choice does not change on the way. *)
Definition chosen (t : Tool W) (l : list (string * string)) : list (string * string) := List.filter (fun e => selected (fst e) t) l.

Lemma snoop_input_spec receiver name path sink t : selected name t = true -> exists sink' t',
  snoop_input receiver false false false 0 name path sink t = (Ret sink', t') /\
  map_PrefixName t' = map_set name (next_prefix t) (map_PrefixName t) /\ (forall n, selected n t' = selected n t) /\
  watched (outside t') = watched (outside t) ++ [(next_prefix t, u64 (-2))] /\ prefixes (outside t') = prefixes (outside t) ++ [(path, next_prefix t)].
Proof.
  intros Hs. unfold snoop_input. rewrite (run_bind_ret _ _ t t t) by reflexivity. rewrite Hs. cbv zeta.
  set (t1 := mkTool (Some name) (ioNameGiven t) (map_set name (next_prefix t) (map_PrefixName t)) (outside t)).
  rewrite (run_bind_ret _ _ t tt t1) by reflexivity.
  assert (does (sink ← (s ← make_sink receiver sink; watch_prefix s (next_prefix t);; mret (Some s));
      setup_events false (next_prefix t) path;; mret sink) ([(next_prefix t, u64 (-2))] ++ []) ([] ++ [(path, next_prefix t)])) as Hd.
  { apply logs_bind.
    - apply logs_quiet; [apply logs_make_sink|]. intros s. apply (logs_bind _ _ [_] [] [] []); [apply logs_watch|]. intros _. apply logs_ret.
    - intros s. apply (logs_bind _ _ [] [] [_] []); [apply logs_setup|]. intros _. apply logs_ret. }
  destruct (Hd t1) as (sink' & w' & E & Hw & Hp). exists sink'. eexists. split; [exact E|]. cbn [map_PrefixName outside t1]. split_and!; [done| |exact Hw|exact Hp].
  intros n. unfold selected, is_name in *. cbn. destruct (ioNameGiven t); [|by rewrite !orb_true_r]. cbn in *.
  rewrite orb_false_r in Hs. apply bool_decide_eq_true in Hs. by rewrite Hs.
Qed.

(** The map after the inputs [done]. *)
Definition numbered (m : list (string * Z)) (done : list string) : Prop :=
  length m = length done /\ forall n p, (n, p) ∈ m <-> exists k, done !! k = Some n /\ p = prefix_of_nth k.

Lemma numbered_snoc m done name : numbered m done -> name ∉ done -> numbered (map_set name (prefix_of_nth (length done)) m) (done ++ [name]).
Proof.
  intros [Hl Hm] Hn. assert (map_set name (prefix_of_nth (length done)) m ≡ₚ (name, prefix_of_nth (length done)) :: m) as E.
  { apply map_set_fresh. intros ([n p] & E & Hin)%list_elem_of_fmap. cbn in E. subst n. apply Hm in Hin as (k & Hk & _). apply Hn. by eapply list_elem_of_lookup_2. }
  split; [rewrite E, length_app; cbn; lia|]. intros n p. rewrite E, elem_of_cons, Hm. split.
  - intros [[= -> ->]|(k & Hk & ->)]; [exists (length done); by rewrite lookup_app_r, Nat.sub_diag by lia|].
    exists k. split; [by apply lookup_app_l_Some|done].
  - intros (k & Hk & ->). apply lookup_app_Some in Hk as [Hk|[Hge Hk]]; [right; by exists k|]. left.
    apply list_lookup_singleton_Some in Hk as [Hk <-]. by replace k with (length done) by lia.
Qed.

Lemma snoop_inputs_spec receiver l : forall sink t done, numbered (map_PrefixName t) done -> NoDup (done ++ l.*1) ->
  Z.of_nat (length done + length l) < 2 ^ 48 ->
  exists sink' t', snoop_inputs receiver false false false 0 l sink t = (Ret sink', t') /\
    numbered (map_PrefixName t') (done ++ (chosen t l).*1) /\
    watched (outside t') = watched (outside t) ++ imap (fun k _ => (prefix_of_nth (length done + k), u64 (-2))) (chosen t l) /\
    prefixes (outside t') = prefixes (outside t) ++ imap (fun k e => (snd e, prefix_of_nth (length done + k))) (chosen t l).
Proof.
  induction l as [|[name path] l IH]; intros sink t done Hm Hnd Hlen; cbn [snoop_inputs].
  { exists sink, t. cbn. by rewrite !app_nil_r. }
  cbn [chosen List.filter fst]. fold (chosen t l). destruct (selected name t) eqn:Es.
  - destruct (snoop_input_spec receiver name path sink t Es) as (s1 & t1 & E1 & M1 & S1 & W1 & P1). rewrite (run_bind_ret _ _ _ _ _ E1).
    assert (next_prefix t = prefix_of_nth (length done)) as Ep.
    { unfold next_prefix. rewrite (proj1 Hm). apply unsigned_wrap_small. pose proof (prefix_range (length done) ltac:(lia)). unfold prefix_of_nth in *. lia. }
    rewrite Ep in *. rewrite fmap_cons in Hnd. cbn [fst] in Hnd. rewrite cons_middle, app_assoc in Hnd.
    destruct (IH s1 t1 (done ++ [name])) as (s2 & t2 & E2 & M2 & W2 & P2); [|done|rewrite length_app; cbn in *; lia|].
    { rewrite M1. apply numbered_snoc; [done|]. apply NoDup_app in Hnd as [Hnd _]. apply NoDup_app in Hnd as (_ & Hd & _). intros Hin. by apply (Hd _ Hin), list_elem_of_singleton. }
    assert (chosen t1 l = chosen t l) as Ec by (unfold chosen; apply filter_ext; intros e; apply S1). rewrite Ec in *.
    exists s2, t2. split; [exact E2|]. rewrite fmap_cons. cbn [fst]. rewrite <- app_assoc in M2. split; [exact M2|].
    rewrite !imap_cons, Nat.add_0_r, W2, W1, P2, P1, <- !app_assoc. cbn [app]. split; do 2 f_equal; apply imap_ext; intros k e _; cbn; rewrite length_app; cbn; do 2 f_equal; lia.
  - assert (snoop_input receiver false false false 0 name path sink t = (Ret sink, t)) as E1
      by (unfold snoop_input; rewrite (run_bind_ret _ _ t t t) by reflexivity; by rewrite Es).
    rewrite (run_bind_ret _ _ _ _ _ E1). apply IH; [done| |cbn in *; lia].
    rewrite fmap_cons in Hnd. apply NoDup_app in Hnd as (Hd & Hc & Hl). apply NoDup_cons in Hl as [_ Hl]. apply NoDup_app.
    split_and!; [done| |done]. intros x Hx Hin. apply (Hc x Hx). by apply list_elem_of_further.
Qed.

(** Both edges of a prefix. *)
Lemma edge_half k e : Z.of_nat k < 2 ^ 48 -> e = prefix_of_nth k \/ e = prefix_of_nth k + 1 ->
  0 <= e < 2 ^ 64 /\ 2 * (e / 2) = prefix_of_nth k /\ Z.testbit e 0 = (e =? prefix_of_nth k + 1).
Proof.
  intros Hk He. destruct (prefix_range k Hk) as [Hr Hev]. apply Z.even_spec in Hev as [q Hq]. rewrite Hq in *.
  split; [lia|]. rewrite Z.bit0_odd. destruct He as [->| ->].
  - rewrite (proj2 (Z.eqb_neq _ _)) by lia. split; [Z.div_mod_to_equations; lia|]. by rewrite Z.odd_mul.
  - rewrite Z.eqb_refl. split; [Z.div_mod_to_equations; lia|]. by rewrite Z.odd_add, Z.odd_mul.
Qed.

Lemma catched_io_numbered m done k name e : numbered m done -> Z.of_nat (length done) < 2 ^ 48 -> NoDup done -> done !! k = Some name ->
  e = prefix_of_nth k \/ e = prefix_of_nth k + 1 -> catched_io e m = name.
Proof.
  intros [_ Hm] Hlen Hnd Hk He. assert (k < length done)%nat as Hkl by (by eapply lookup_lt_Some).
  assert (forall n p, (n, p) ∈ m -> p = prefix_of_nth k -> n = name) as Hu.
  { intros n p (j & Hj & ->)%Hm E. assert (j = k) as -> by (unfold prefix_of_nth in E; lia). congruence. }
  assert ((name, prefix_of_nth k) ∈ m) as Hin by (apply Hm; by exists k).
  destruct (prefix_range k ltac:(lia)) as [Hr Hev]. unfold catched_io. destruct He as [->| ->].
  - rewrite last_match_none; [by rewrite (last_match_name m _ name None Hu (or_introl Hin))|]. intros n p (j & Hj & ->)%Hm.
    assert (j < length done)%nat as Hjl by (by eapply lookup_lt_Some). unfold prefix_of_nth, ECA_EVENT_ID_LATCH in *.
    rewrite unsigned_wrap_small by lia. lia.
  - replace (prefix_of_nth k + 1 - 1) with (prefix_of_nth k) by lia. rewrite unsigned_wrap_small by lia.
    by rewrite (last_match_name m _ name None Hu (or_introl Hin)).
Qed.

(** C35: what -s makes of the inputs: each one gets a prefix of its own, and a condition is
    made for it; the events of its two edges match this condition and none of the
    others, and are shown with the name of the input and the direction of the edge. *)
Theorem edges_named receiver inputs t deadline flags (Hnew : map_PrefixName t = []) (Hnames : NoDup inputs.*1)
    (Hlen : Z.of_nat (length inputs) < 2 ^ 48) :
  let l := chosen t inputs in
  exists sink t', snoop_inputs receiver false false false 0 inputs None t = (Ret sink, t') /\
    watched (outside t') = watched (outside t) ++ imap (fun k _ => (prefix_of_nth k, u64 (-2))) l /\
    prefixes (outside t') = prefixes (outside t) ++ imap (fun k e => (snd e, prefix_of_nth k)) l /\
    forall k name path e, l !! k = Some (name, path) -> e = prefix_of_nth k \/ e = prefix_of_nth k + 1 ->
      (forall j, (j < length l)%nat -> Z.land e (u64 (-2)) = Z.land (prefix_of_nth j) (u64 (-2)) <-> j = k) /\
      let shown := io_catch_input e deadline flags (map_PrefixName t') in
      edge_io shown = name /\ edge_rising shown = (e =? prefix_of_nth k + 1).
Proof.
  intros l. destruct (snoop_inputs_spec receiver inputs None t []) as (sink & t' & E & Hm & Hw & Hp); [|done..|].
  { rewrite Hnew. split; [done|]. intros n p. split; [by intros ?%not_elem_of_nil|by intros (k & ? & _)]. }
  exists sink, t'. split_and!; [exact E|exact Hw|exact Hp|]. cbn [app] in Hm. fold l in Hm.
  assert (length l <= length inputs)%nat as Hl by (unfold l, chosen; clear; induction inputs as [|x q IH]; cbn; [done|destruct (selected _ _); cbn; lia]).
  assert (NoDup l.*1) as Hnd.
  { unfold l, chosen. clear -Hnames. induction inputs as [|x q IH]; [done|]. rewrite fmap_cons in Hnames. apply NoDup_cons in Hnames as [Hx Hq]. cbn.
    destruct (selected x.1 t); [|by apply IH]. rewrite fmap_cons. apply NoDup_cons. split; [|by apply IH].
    intros (y & Ey & Hy)%list_elem_of_fmap. apply Hx, list_elem_of_fmap. exists y. split; [done|].
    apply list_elem_of_In, filter_In in Hy as [Hy _]. by apply list_elem_of_In. }
  intros k name path e Hk He. assert (k < length l)%nat as Hkl by (by eapply lookup_lt_Some).
  destruct (edge_half k e ltac:(lia) He) as (Hr & Hh & Hb). split.
  - intros j Hj. destruct (edge_half j (prefix_of_nth j) ltac:(lia) (or_introl eq_refl)) as (Hrj & Hhj & _).
    rewrite !edge_mask, Hh, Hhj by done. unfold prefix_of_nth. lia.
  - cbn [edge_io edge_rising io_catch_input]. split; [|exact Hb].
    eapply catched_io_numbered; [exact Hm|rewrite length_fmap; lia|done| |exact He]. by rewrite list_lookup_fmap, Hk.
Qed.
End Snoop.

(** ** A receiver with two lines *)
Module IoToolDemo.
Import IoDemo.
Record world := mkWorld { chip : ioc; watched : list (Z * Z); prefixes : list (string * Z); shown : list Shown; rounds : nat }.
Definition with_chip (d : ioc) (w : world) : world := mkWorld d (watched w) (prefixes w) (shown w) (rounds w).
Definition answer {A} (a : A) : M world A := fun w => (Ret a, w).
Definition io1 : Io := an_io 0 3.
Definition lines_out : list (string * string) := [("IO1", "/out1"); ("OUT7", "/out7")]%string.
Definition lines_in : list (string * string) := [("IN2", "/in2"); ("IO1", "/in1")]%string.

#[export] Instance demo_device : Device world := {|
  getDevices := answer [("tr0", "/tr0")]%string; create_receiver := fun _ => answer tt; CurrentTime := fun _ _ => answer (mkTime 0);
  InjectEvent := fun _ _ _ _ => answer tt; usleep := fun _ => answer tt |}.
#[export] Instance demo_pps : PpsProxies world := {|
  getLocked := fun _ => answer true; receiver_outputs := fun _ => answer lines_out; receiver_inputs := fun _ => answer lines_in;
  scu_sinks := fun _ => answer []; scu_condition := fun _ _ _ _ _ _ => answer ""%string; ToggleActive := fun _ => answer tt; InactivateAll := fun _ => answer tt;
  stdin_closed := fun w => (Ret (rounds w =? 0)%nat, mkWorld (chip w) (watched w) (prefixes w) (shown w) (pred (rounds w))) |}.
#[export] Instance demo_lines : Proxies world := {|
  create := fun _ => answer tt; getFree := answer 1; getInputs := answer []; NewSoftwareActionSink := answer "/sink"%string;
  getAllConditions := fun p => answer (if bool_decide (p = "/out1"%string) then ["/out1/_17"] else [])%string;
  out_NewCondition := fun _ _ _ _ _ _ => answer ""%string;
  sw_NewCondition := fun _ _ id mask _ w => (Ret "/sink/c"%string, mkWorld (chip w) (watched w ++ [(id, mask)]) (prefixes w) (shown w) (rounds w));
  ecpu_NewCondition := fun _ _ _ _ _ _ => answer ""%string; setAccept := fun _ _ _ => answer tt;
  Disown := fun _ => answer tt; connect_action := fun _ => answer tt;
  getID := fun _ => answer 0x1111; getMask := fun _ => answer 0xffff; getTag := fun _ => answer 0; getOffset := fun _ => answer 5;
  getDestructible := fun _ => answer true; getOwner := fun _ => answer ""%string; Destroy := fun _ => answer tt;
  getActive := fun _ => answer true; setActive := fun _ _ => answer tt;
  getTypeOut := fun _ => answer "8ns (GPIO)"%string; getIndexOut := fun _ => answer 3;
  getOutputEnableAvailable := fun _ => answer true; getSpecialPurposeOutAvailable := fun _ => answer false;
  getInputTerminationAvailable := fun _ => answer true; getSpecialPurposeInAvailable := fun _ => answer false;
  getOutput := fun p => answer (if bool_decide (p = "/in1"%string) then "/out1" else "")%string; getInput := fun _ => answer "/in1"%string;
  output_call := fun _ c => match output_property c with Some (q, v) => driver_set chip with_chip io1 q v | None => answer tt end;
  input_call := fun p c => match c, input_property c with
    | _, Some (q, v) => driver_set chip with_chip io1 q v
    | setEventPrefix v, _ => fun w => (Ret tt, mkWorld (chip w) (watched w) (prefixes w ++ [(p, v)]) (shown w) (rounds w))
    | _, _ => answer tt end;
  instruct := fun _ _ => answer 0; getResponse := answer 0; readBurstInfo := fun _ => answer []; readSharedBuffer := fun _ => answer [];
  wait_for_signal := fun _ => answer 0; wait_for_ever := answer 0 |}.
#[export] Instance demo_io : IoProxies world := {|
  getAccept := fun _ f => answer (match f with Late => true | _ => false end); getOn := fun _ => answer true; getTypeIn := fun _ => answer "8ns"%string;
  getLogicLevelOut := fun _ => answer "TTL"%string; getLogicLevelIn := fun _ => answer "TTL"%string;
  output_state := fun _ _ => answer true; input_state := fun _ _ => answer false; getStableTime := fun _ => answer 80; getIndexIn := fun _ => answer 3;
  getEventPrefix := fun _ => answer 0; getEventEnable := fun _ => answer false; getEventBits := fun _ => answer 1;
  show := fun s w => (Ret tt, mkWorld (chip w) (watched w) (prefixes w) (shown w ++ [s]) (rounds w)) |}.
Definition start (n : nat) : world := mkWorld dark [] [] [] n.

Lemma demo_proxies : LineProxies chip with_chip io1 (Some "/out1"%string) (Some "/in1"%string) "IO1" lines_out lines_in [("tr0", "/tr0")]%string.
Proof.
  assert (forall A (a : A), says chip (answer a) a) as Ha by (intros A a w; by exists w).
  split; try (intros; apply Ha); try (intros p [= <-]; apply Ha).
  - split_and!; [apply (bool_decide_unpack _); vm_compute; exact I..|reflexivity|reflexivity].
  - done.
  - intros p c [= <-]. destruct c; intros w; first [reflexivity|intros ? ?; reflexivity].
  - intros p c [= <-]. destruct c; intros w; first [reflexivity|intros ? ?; reflexivity].
Qed.

(** -n IO1 -o 1 -t 0 -a 1 *)
Definition asked_for : Settings := mkSettings (Some 1) (Some 0) None None (Some 1) None None None None None.

(** The line has no special purpose. *)
Example refused : let '(r, w) := main 0 [("n"%char, [], [str "IO1"]); ("o"%char, str "1", []); ("q"%char, str "1", [])] ["tr0"%string] (start 0) in
  r = Ret 1 /\ ioc_reg (chip w) GPIO Oe = 0.
Proof. vm_compute. done. Qed.

Lemma demo_snoop : SnoopProxies watched prefixes.
Proof.
  assert (forall A (a : A), logs watched prefixes (answer a) [] []) as Ha by (intros A a w; exists a, w; by rewrite !app_nil_r).
  split; try (intros; apply Ha).
  - intros s act id mask offset w. eexists _, _. split; [reflexivity|]. cbn. by rewrite app_nil_r.
  - intros p v w. eexists _, _. split; [reflexivity|]. cbn. by rewrite app_nil_r.
Qed.
Lemma edges_named_witness : let t := mkTool None false [] (start 0) in
  exists sink t', snoop_inputs "/tr0" false false false 0 lines_in None t = (Ret sink, t') /\
    watched (outside t') = [(0xfffe000000000000, u64 (-2)); (0xfffe000000000002, u64 (-2))] /\
    prefixes (outside t') = [("/in2", 0xfffe000000000000); ("/in1", 0xfffe000000000002)]%string /\
    edge_io (io_catch_input 0xfffe000000000003 (mkTime 0) 0 (map_PrefixName t')) = "IO1"%string.
Proof.
  intros t. assert (NoDup lines_in.*1) as Hn by (apply (bool_decide_unpack _); vm_compute; exact I).
  destruct (edges_named watched prefixes demo_snoop "/tr0" lines_in t (mkTime 0) 0 eq_refl Hn ltac:(cbn; lia)) as (sink & t' & E & Hw & Hp & Hl).
  exists sink, t'. split; [exact E|]. split; [exact Hw|]. split; [exact Hp|].
  by destruct (Hl 1%nat "IO1"%string "/in1"%string 0xfffe000000000003 eq_refl (or_intror eq_refl)) as (_ & H & _).
Defined.

(** A condition as -l shows it, and -s until standard input is closed. *)
Example listed : let '(r, w) := main 0 [("l"%char, [], [])] ["tr0"%string] (start 0) in
  r = Ret 0 /\ shown w = [ConditionRow "IO1" "17" 0x1111 0xffff 5 1 true true ""].
Proof. vm_compute. done. Qed.
Example snooped : (main 10 [("s"%char, [], [])] ["tr0"%string] (start 4)).1 = Ret 0.
Proof. vm_compute. reflexivity. Qed.
(** The name of a line that is no input: the receiver is said to have none. *)
Example output_only : let '(r, w) := main 10 [("n"%char, [], [str "OUT7"]); ("s"%char, [], [])] ["tr0"%string] (start 4) in
  r = Ret 0 /\ shown w = [NoInputs].
Proof. vm_compute. done. Qed.
End IoToolDemo.
