(* ===== verification/BurstTool.v ===== *)
(** * The burst control tool: its options, the option file, and the order of things

    [BurstControl] has the operations of saft-burst-ctl.cpp; here are the variables that
    the options set, the splitting of a line in words, the loop over the lines of an
    option file, and [main].  [getopt] of the C library is a parameter. *)
From S2P Require Import Prelude Time Helpers BurstControl BurstControlCorrect Texts Streams Tools PpsGen IoTool.
From Stdlib Require Import Strings.Ascii.
Local Open Scope Z_scope.

Definition ECA_EVENT_MASK : Z := 2 ^ 64 - 1.
Definition N_BURSTS : Z := 16.
Definition space : ascii := " "%char.

(** ** The variables *)
Inductive Var := BurstId | StartId | StopId | THigh | TPeriod | TBurst | Delay | BFlag | Disen | BgId.
Inductive Flag := FwId | State | Instr | CfgIo | ClrAll | LsBursts | RmBurst | DisenBurst | MkBurst | BurstIdGiven | Verbose | ShowHelp.
#[export] Instance Var_eq_dec : EqDecision Var.
Proof. solve_decision. Defined.
#[export] Instance Flag_eq_dec : EqDecision Flag.
Proof. solve_decision. Defined.

(** [ioName] is a pointer into the buffer of the line: here the position. *)
Record Vars := mkVars { nums : Var -> Z; flags : list Flag; instr_args : list text; name_at : option nat }.
(** [bg_reset_variables] *)
Definition reset : Vars := mkVars (fun _ => 0) [] [] None.
Definition set (x : Var) (n : Z) (v : Vars) : Vars :=
  mkVars (fun y => if decide (y = x) then n else nums v y) (flags v) (instr_args v) (name_at v).
Definition flag (f : Flag) (v : Vars) : Vars := mkVars (nums v) (f :: flags v) (instr_args v) (name_at v).
Definition has (f : Flag) (v : Vars) : bool := bool_decide (f ∈ flags v).

(** ** Words of a line

    [strtok(opt_buf, " ")] ends each word with a null character, in place of the space
    behind it; [w_at] is where the word begins. *)
Record word := mkWord { w_at : nat; w_text : text }.
Fixpoint words_from (pos : nat) (current : option (nat * text)) (l : text) : list word :=
  match l with
  | [] => match current with Some (p, w) => [mkWord p (reverse w)] | None => [] end
  | c :: l' =>
      if char_eqb c space then
        match current with
        | Some (p, w) => mkWord p (reverse w) :: words_from (S pos) None l'
        | None => words_from (S pos) None l'
        end
      else words_from (S pos) (Some match current with Some (p, w) => (p, c :: w) | None => (pos, [c]) end) l'
  end.
Definition words (line : text) : list word := words_from 0 None line.

(** What is in the buffer behind the splitting: the first space after a word is gone. *)
Fixpoint buffer (in_word : bool) (l : text) : list (option ascii) :=
  match l with
  | [] => []
  | c :: l' => if char_eqb c space then (if in_word then None else Some c) :: buffer false l' else Some c :: buffer true l'
  end.
Fixpoint c_string (l : list (option ascii)) : text :=
  match l with Some c :: l' => c :: c_string l' | _ => [] end.
Definition name_in (line : text) (pos : nat) : string := to_string (c_string (drop pos (buffer false line))).

(** ** [getopt]

    The state holds the words, as far as they are permuted, and [optind]; [arguments]
    are the words from [optv\[optind-1\]] on. *)
Class Getopt (G : Type) := {
  start_words : list word -> G;
  getopt : text -> G -> option ascii * G;
  arguments : G -> list word;
  optind : G -> Z;
  set_optind : Z -> G -> G
}.

Definition optstring : text := str ":fSp:e:i:l:b:r:s:t:xn:v".
Definition num (w : word) : Z := fst (strtoull (w_text w)).
Definition int (w : word) : Z := s32 (strtoll (w_text w)).

(** Words up to the next one that begins with a dash: are there more? *)
Fixpoint until_dash (l : list word) : list text * bool :=
  match l with
  | [] => ([], false)
  | w :: l' => if (match w_text w with c :: _ => char_eqb c "-" | [] => false end) then ([], true)
               else let '(a, b) := until_dash l' in (w_text w :: a, b)
  end.

(** An option with the words from its argument on; [false] is an error.  What was set
    before an error stays set. *)
Definition with_id (x : Var) (low : Z) (ws : list word) (v : Vars) (k : list word -> Vars -> Vars * bool) : Vars * bool :=
  match ws with
  | [] => (v, false)
  | w :: ws' => let v := set x (int w) v in if (int w <? low) || (N_BURSTS <? int w) then (v, false) else k ws' v
  end.
Definition parse_pulses (ws : list word) (v : Vars) : Vars * bool :=
  match ws with
  | [] => (v, false)
  | w0 :: ws =>
      let v := set THigh (u32 (num w0)) v in
      match ws with
      | [] => (v, false)
      | w1 :: ws =>
          let v := set TPeriod (u32 (num w1)) v in
          match ws with
          | [] => (v, false)
          | w2 :: ws =>
              let v := set TBurst (strtoll (w_text w2)) v in
              let burst := nums v TBurst in
              if (0 <? burst) && (burst <? BG_BURST_PERIOD) then (v, false)
              else if nums v TPeriod <? nums v THigh then (v, false)
              else if (0 <? burst) && (burst <? nums v TPeriod) then (v, false)
              else
                match ws with
                | [] => (v, false)
                | w3 :: ws =>
                    let v := set Delay (num w3) v in
                    match ws with
                    | [] => (v, false)
                    | w4 :: _ =>
                        let v := set BFlag (u32 (num w4)) v in
                        if 1 <? nums v BFlag then (v, false) else (flag CfgIo v, true)
                    end
                end
          end
      end
  end.
Definition parse_option (opt : ascii) (ws : list word) (v : Vars) : Vars * bool :=
  if char_eqb opt "f" then (flag FwId v, true)
  else if char_eqb opt "S" then (flag State v, true)
  else if char_eqb opt "p" then parse_pulses ws v
  else if char_eqb opt "e" then
    with_id BgId 0 ws v (fun ws v =>
      match ws with [] => (v, false) | w :: _ => (flag DisenBurst (set Disen (int w) v), true) end)
  else if char_eqb opt "i" then
    (let v := flag Instr v in mkVars (nums v) (flags v) (instr_args v ++ fst (until_dash ws)) (name_at v), true)
  else if char_eqb opt "l" then with_id BgId 0 ws v (fun _ v => (flag LsBursts v, true))
  else if char_eqb opt "b" then with_id BurstId 1 ws v (fun _ v => (flag BurstIdGiven v, true))
  else if char_eqb opt "r" then with_id BgId 1 ws v (fun _ v => (flag RmBurst v, true))
  else if char_eqb opt "s" then match ws with [] => (v, false) | w :: _ => (flag MkBurst (set StartId (num w) v), true) end
  else if char_eqb opt "t" then match ws with [] => (v, false) | w :: _ => (set StopId (num w) v, true) end
  else if char_eqb opt "x" then (flag ClrAll v, true)
  else if char_eqb opt "n" then (mkVars (nums v) (flags v) (instr_args v) (w_at <$> head ws), true)
  else if char_eqb opt "v" then (flag Verbose v, true)
  else (flag ShowHelp v, true).

Section Parse.
Context {G : Type} `{!Getopt G}.

(** -i sets [optind] to the word before the one with the dash. *)
Definition resume (opt : ascii) (g : G) : G :=
  if char_eqb opt "i" then
    let '(args, more) := until_dash (arguments g) in
    if more then set_optind (optind g - 1 + Z.of_nat (length args) - 1) g else g
  else g.

(** [false]: [parse_options] returns -1.  The help that was asked for once ends it, too. *)
Fixpoint parse_options (fuel : nat) (g : G) (v : Vars) : outcome (Vars * bool) :=
  match fuel with
  | O => Crash "parse_options: runs for ever"
  | S fuel' =>
      match getopt optstring g with
      | (None, _) => Ret (v, true)
      | (Some opt, g) =>
          let '(v, ok) := parse_option opt (arguments g) v in
          if negb ok || has ShowHelp v then Ret (v, false) else parse_options fuel' (resume opt g) v
      end
  end.

(** A line is copied into a buffer of 4096 characters.  The null pointer behind the words
    is written one place behind the end of their array, which is taken to exist. *)
Definition bg_parse_options (fuel : nat) (line : text) (v : Vars) : outcome (Vars * bool) :=
  if (4096 <=? length line)%nat then Crash "strcpy(opt_buf, ...)" else parse_options fuel (start_words (words line)) v.
End Parse.

Definition bg_is_comment (line : text) : bool := match line with c :: _ => char_eqb c "#" | [] => false end.

(** ** The receiver *)
Class BurstSetup (W : Type) := {
  getInterface : string -> string -> M W (list (string * string));
  readState : M W Z
}.

Record Target := mkTarget { outs : list (string * string); ins : list (string * string); ecpu : string }.

Section Setup.
Context {W : Type} `{!Device W, !Proxies W, !PpsProxies W, !BurstSetup W}.
(** [None]: -1 *)
Definition bg_setup_device (deviceName : string) : M W (option Target) :=
  devices ← getDevices;
  match lookup_name deviceName devices with
  | None => mret None
  | Some path =>
      create_receiver path;;
      outs ← receiver_outputs path;
      ins ← receiver_inputs path;
      bg_iface ← getInterface path "BurstGenerator";
      match bg_iface with
      | [] => mret None
      | (_, bg) :: _ =>
          create bg;;
          ecpus ← getInterface path "EmbeddedCPUActionSink";
          match ecpus with
          | [] => mret None
          | (_, ecpu) :: _ => create ecpu;; mret (Some (mkTarget outs ins ecpu))
          end
      end
  end.
End Setup.

Section Lines.
Context {W : Type} `{!Device W, !Proxies W, !PpsProxies W, !IoProxies W, !BurstSetup W}.
Context {G : Type} `{!Getopt G}.
Variable tr : Target.
(** How many signals and options are followed. *)
Variable fuel : nat.
Abbreviation T := (Tool W).

Definition bg_get_fw_id : M T Z :=
  or_return (-1)
    (r ← bg_invoke_async fuel CMD_LS_FW_ID [0];
     if negb (r =? 0) then mret (-1)
     else args ← call (readSharedBuffer 1); mret (match args with [] => -1 | _ => 0 end)).
Definition bg_print_state : M T Z := or_return (-1) (_ ← call readState; mret 0).

(** The values that no option sets: -1 is a bad argument. *)
Definition bg_check_arguments (line : text) (v : Vars) : bool :=
  match name_at v with
  | Some pos => existsb (fun e => bool_decide (fst e = name_in line pos)) (outs tr ++ ins tr)
  | None => true
  end &&
  negb (has MkBurst v && ((nums v StartId =? 0) || (nums v StartId =? nums v StopId))).

Definition bg_do_configuration (v : Vars) : M T Z :=
  let verbose := has Verbose v in
  let n := nums v in
  if has FwId v then bg_get_fw_id
  else if has State v then bg_print_state
  else if has Instr v then bg_instruct fuel (fun s => fst (strtoull (str s))) (to_string <$> instr_args v)
  else if has CfgIo v then
    bg_config_io (outs tr) fuel (has BurstIdGiven v) (n BurstId) (n THigh) (n TPeriod) (n TBurst) (n Delay) (n BFlag)
  else if has ClrAll v then bg_clear_all (outs tr) (Some (ecpu tr))
  else if has LsBursts v then bg_list_bursts fuel (n BgId) verbose
  else if has RmBurst v then bg_remove_burst (outs tr) fuel (n BgId) verbose
  else if has DisenBurst v then bg_disenable_burst fuel (n BgId) (n Disen) verbose
  else if has MkBurst v then
    bg_create_burst (outs tr) (ins tr) (Some (ecpu tr)) fuel show_state (has BurstIdGiven v) (n BurstId) (n StartId) ECA_EVENT_MASK (n StopId) ECA_EVENT_MASK
  else BurstControl.io_setup (outs tr) (ins tr) show_state no_settings.

(** The name is empty when it is not given. *)
Definition with_name {A} (name : option string) (m : M T A) : M W A := fun w =>
  let '(r, t) := m (mkTool (Some (default ""%string name)) (if name is Some _ then true else false) [] w) in (r, outside t).
Definition with_vars {A} (line : text) (v : Vars) (m : M T A) : M W A := with_name (name_in line <$> name_at v) m.

(** One line behind the other, until an operation fails.  The variables are reset behind
    a line that was parsed. *)
Fixpoint run_lines (lines : list text) (v : Vars) : M W Z :=
  match lines with
  | [] => mret 0
  | line :: lines' =>
      r ← of_outcome (bg_parse_options fuel line v);
      let '(v, parsed) := (r : Vars * bool) in
      if negb parsed then run_lines lines' v
      else if bg_check_arguments line v then
        status ← with_vars line v (bg_do_configuration v);
        if status =? 0 then run_lines lines' reset else mret status
      else run_lines lines' reset
  end.
End Lines.

(** ** [main] *)
Fixpoint rfind_text (p l : text) : option nat :=
  match l with
  | [] => match p with [] => Some O | _ => None end
  | _ :: l' => match rfind_text p l' with Some i => Some (S i) | None => if starts_with p l then Some O else None end
  end.
Definition erase_last (p l : text) : text :=
  match rfind_text p l with Some n => take n l ++ drop (n + length p) l | None => l end.
Definition is_alpha (c : ascii) : bool :=
  let n := nat_of_ascii c in ((65 <=? n) && (n <=? 90) || (97 <=? n) && (n <=? 122))%nat.

(** [cmd_args] after the option -o with a file name: without another option it is
    cleared. *)
Definition without_file (file cmd_args : text) : text :=
  let cmd_args := erase_last file (erase_last (str "-o") cmd_args) in
  match find_char "-" cmd_args with
  | None => []
  | Some n =>
      if (0 <? n)%nat && (n + 1 <? length cmd_args)%nat && negb (is_space (default space (cmd_args !! (n - 1)%nat)))
         && negb (is_alpha (default space (cmd_args !! (n + 1)%nat)))
      then [] else cmd_args
  end.
(** What [getopt] finds among "ho:", with the argument of -o: the file, what is left of
    the arguments, and whether the help is shown. *)
Fixpoint command_options (opts : list (ascii * text)) (cmd_args : text) (file : text) (help : bool) : text * text * bool :=
  match opts with
  | [] => (cmd_args, file, help)
  | (opt, arg) :: opts' =>
      if char_eqb opt "h" || char_eqb opt ":" then command_options opts' cmd_args file true
      else if char_eqb opt "o" then command_options opts' (without_file arg cmd_args) arg help
      else command_options opts' cmd_args file help
  end.

(** The lines to run, empty ones left out; [None]: the file cannot be read. *)
Definition option_lines {W} (open_file : text -> M W (option text)) (cmd_args file : text) : M W (option (list text)) :=
  let first := match cmd_args with [] => [] | _ => [cmd_args] end in
  match file with
  | [] => mret (Some first)
  | _ =>
      content ← open_file file;
      mret ((fun c => first ++ List.filter (fun l => negb (text_eqb l [])) (lines c)) <$> content)
  end.

Definition main {W} `{!Device W, !Proxies W, !PpsProxies W, !IoProxies W, !BurstSetup W} {G} `{!Getopt G}
    (open_file : text -> M W (option text)) (fuel : nat) (args : list text) (opts : list (ascii * text)) : M W Z :=
  match args with
  | deviceName :: _ :: _ =>
      let '(cmd_args, file, help) := command_options opts (args ≫= (fun a => a ++ [space])) [] false in
      if help : bool then mret 0
      else
        lines ← option_lines open_file cmd_args file;
        match lines with
        | None => mret (-1)
        | Some [] => mret 0
        | Some lines =>
            target ← bg_setup_device (to_string deviceName);
            match target with
            | None => mret (-1)
            | Some tr => run_lines (G := G) tr fuel (List.filter (fun l => negb (bg_is_comment l)) lines) reset
            end
        end
  | _ => mret (-1)
  end.

(** ** Lines of options *)
Definition no_space (w : text) : Prop := forallb (fun c => negb (char_eqb c space)) w = true /\ w <> [].
Fixpoint join (ws : list text) : text := match ws with [] => [] | [w] => w | w :: ws' => w ++ space :: join ws' end.
Fixpoint placed (pos : nat) (ws : list text) : list word :=
  match ws with [] => [] | w :: ws' => mkWord pos w :: placed (pos + length w + 1) ws' end.

Lemma words_from_word pos p w acc l : forallb (fun c => negb (char_eqb c space)) w = true ->
  words_from pos (Some (p, acc)) (w ++ l) = words_from (pos + length w) (Some (p, reverse w ++ acc)) l.
Proof.
  revert pos acc. induction w as [|c w IH]; intros pos acc Hw; [by rewrite Nat.add_0_r|]. cbn in Hw. apply andb_prop in Hw as [Hc%negb_true_iff Hw].
  cbn [app words_from]. rewrite Hc, IH by done. rewrite reverse_cons, <- app_assoc. cbn. f_equal. lia.
Qed.
Lemma words_from_join pos ws : Forall no_space ws -> words_from pos None (join ws) = placed pos ws.
Proof.
  revert pos. induction ws as [|w ws IH]; intros pos Hws; [done|]. apply Forall_cons in Hws as [[Hw Hne] Hws].
  destruct w as [|c w]; [done|]. pose proof Hw as Hw'. cbn in Hw'. apply andb_prop in Hw' as [Hc%negb_true_iff Hw'].
  assert (forall l, words_from pos None ((c :: w) ++ l) = words_from (pos + length (c :: w)) (Some (pos, reverse (c :: w))) l) as E.
  { intros l. cbn [app words_from]. rewrite Hc, words_from_word by done. rewrite reverse_cons. f_equal. cbn. lia. }
  destruct ws as [|w2 ws].
  - cbn [join placed]. rewrite <- (app_nil_r (c :: w)) at 1. rewrite E. cbn [words_from]. by rewrite reverse_involutive.
  - change (join ((c :: w) :: w2 :: ws)) with ((c :: w) ++ space :: join (w2 :: ws)). rewrite E.
    cbn [words_from]. change (char_eqb space space) with true. cbv iota. rewrite reverse_involutive, IH by done.
    by replace (S (pos + length (c :: w))) with (pos + length (c :: w) + 1)%nat by lia.
Qed.

Lemma buffer_word b w l : forallb (fun c => negb (char_eqb c space)) w = true -> w <> [] -> buffer b (w ++ l) = (Some <$> w) ++ buffer true l.
Proof.
  revert b. induction w as [|c w IH]; intros b Hw Hne; [done|]. cbn in Hw. apply andb_prop in Hw as [Hc%negb_true_iff Hw]. cbn [app buffer]. rewrite Hc. cbn. f_equal.
  destruct w as [|d w]; [done|]. by apply IH.
Qed.
Lemma c_string_word w l : c_string ((Some <$> w) ++ None :: l) = w /\ c_string (Some <$> w) = w.
Proof. induction w as [|c w [IH1 IH2]]; [done|]. cbn. by rewrite IH1, IH2. Qed.
Lemma buffer_join ws : Forall no_space ws -> forall k w, ws !! k = Some w ->
  exists pos, placed 0 ws !! k = Some (mkWord pos w) /\ c_string (drop pos (buffer false (join ws))) = w.
Proof.
  intros Hws. assert (forall off k w, ws !! k = Some w -> exists pos, placed off ws !! k = Some (mkWord (off + pos) w) /\ c_string (drop pos (buffer false (join ws))) = w) as H.
  { induction Hws as [|x ws [Hx Hne] Hws IH]; intros off k w Hk; [done|]. destruct k as [|k].
    - injection Hk as ->. exists 0%nat. cbn [placed lookup list_lookup]. rewrite Nat.add_0_r. split; [done|]. rewrite drop_0. destruct ws as [|y ws].
      + cbn [join]. rewrite <- (app_nil_r w) at 1. rewrite buffer_word by done. cbn [buffer]. rewrite app_nil_r. apply (c_string_word w []).
      + change (join (w :: y :: ws)) with (w ++ space :: join (y :: ws)). rewrite buffer_word by done. cbn [buffer]. change (char_eqb space space) with true. apply c_string_word.
    - cbn in Hk. destruct ws as [|y ws]; [done|]. destruct (IH (off + length x + 1)%nat k w Hk) as (pos & Ep & Es). exists (length x + 1 + pos)%nat. split.
      + change (placed off (x :: y :: ws) !! S k) with (placed (off + length x + 1) (y :: ws) !! k). rewrite Ep. do 2 f_equal. lia.
      + change (join (x :: y :: ws)) with (x ++ space :: join (y :: ws)). rewrite buffer_word by done. cbn [buffer]. change (char_eqb space space) with true. cbv iota.
        rewrite drop_app_ge by (rewrite length_fmap; lia). rewrite length_fmap. replace (length x + 1 + pos - length x)%nat with (S pos) by lia. exact Es. }
  intros k w Hk. destruct (H 0%nat k w Hk) as (pos & Ep & Es). by exists pos.
Qed.

(** Numbers in hexadecimal. *)
Definition hex (n : Z) : text := str "0x" ++ digits 16 n.
Lemma scan_hex n : 0 <= n < 2 ^ 64 -> scan_number (hex n) = Some (false, n, []).
Proof.
  intros Hn. destruct (digits_read 16 ltac:(lia) n Hn) as (Ev & Hds & Hne). pose proof (span_digits 16 n [] ltac:(lia) Hn I) as Es. rewrite app_nil_r in Es.
  unfold hex, scan_number. destruct (digits 16 n) as [|c ds] eqn:E; [done|].
  assert (is_radix 16 c = true) as Hc by (apply Forall_cons in Hds as [(d & -> & Hd) _]; unfold is_radix; by rewrite radix_value_digit by lia).
  change (read_sign (skip_spaces (str "0x" ++ c :: ds))) with (false, "0"%char :: "x"%char :: c :: ds). cbn beta iota.
  change (negb (char_eqb "0" "0")) with false. cbv iota. rewrite Hc. change (is_x "x" && true) with true. cbv iota. cbn [tail]. by rewrite Es, Ev.
Qed.
Lemma hex_no_space n : 0 <= n < 2 ^ 64 -> no_space (hex n).
Proof.
  intros Hn. split; [|done]. unfold hex. apply forallb_forall. intros c Hc. apply in_app_or in Hc as [Hc|Hc].
  - by destruct Hc as [<-|[<-|[]]].
  - destruct (digits_read 16 ltac:(lia) n Hn) as (_ & Hds & _). apply list_elem_of_In in Hc. rewrite Forall_forall in Hds. destruct (Hds _ Hc) as (d & -> & Hd).
    destruct (digit_of_digit d Hd) as (_ & Hs & _). apply negb_true_iff, char_eqb_neq. intros E. by rewrite E in Hs.
Qed.
Lemma num_hex p n : 0 <= n < 2 ^ 64 -> num (mkWord p (hex n)) = n.
Proof. intros Hn. unfold num, strtoull. cbn [w_text]. rewrite scan_hex by done. cbn. by rewrite (proj2 (Z.leb_gt _ _)) by lia. Qed.
Lemma strtoll_hex n : 0 <= n < 2 ^ 63 -> strtoll (hex n) = n.
Proof. intros Hn. unfold strtoll. rewrite scan_hex by lia. lia. Qed.

(** What [getopt] does with words that are options with a letter each, their arguments,
    and words that are no options; [position] is what it has not looked at. *)
Class GetoptOk (G : Type) `{!Getopt G} := {
  position : G -> list word;
  start_ok ws : position (start_words ws) = tail ws;
  end_ok g : position g = [] -> (getopt optstring g).1 = None;
  other_ok g w ws : position g = w :: ws -> head (w_text w) <> Some "-"%char ->
    exists g', position g' = ws /\ getopt optstring g = getopt optstring g';
  argument_ok g c p a ws : position g = mkWord p ["-"%char; c] :: a :: ws -> c ∈ str "peilbrstn" ->
    exists g', getopt optstring g = (Some c, g') /\ position g' = ws /\ arguments g' = a :: ws;
  letter_ok g c p ws : position g = mkWord p ["-"%char; c] :: ws -> c ∈ str "fSxv" ->
    exists g', getopt optstring g = (Some c, g') /\ position g' = ws
}.

Section RunLines.
Context {W : Type} `{!Device W, !Proxies W, !PpsProxies W, !IoProxies W, !BurstSetup W}.
Context {G : Type} `{!Getopt G, !GetoptOk G}.
Variable tr : Target.

Lemma parse_end fuel g v : position g = [] -> parse_options (S fuel) g v = Ret (v, true).
Proof. intros Hg. cbn [parse_options]. pose proof (end_ok g Hg) as E. destruct (getopt optstring g) as [o g']. cbn in E. by rewrite E. Qed.
Lemma parse_other fuel g v w ws : position g = w :: ws -> head (w_text w) <> Some "-"%char ->
  exists g', position g' = ws /\ parse_options fuel g v = parse_options fuel g' v.
Proof.
  intros Hg Hw. destruct (other_ok g w ws Hg Hw) as (g' & Hg' & E). exists g'. split; [done|].
  destruct fuel as [|fuel]; [done|]. cbn [parse_options]. by rewrite E.
Qed.
Lemma parse_others fuel v ws : Forall (fun w => head (w_text w) <> Some "-"%char) ws -> forall g, position g = ws ->
  exists g', position g' = [] /\ parse_options fuel g v = parse_options fuel g' v.
Proof.
  induction 1 as [|w ws Hw Hws IH]; intros g Hg; [by exists g|].
  destruct (parse_other fuel g v w ws Hg Hw) as (g1 & Hg1 & E1). destruct (IH g1 Hg1) as (g2 & Hg2 & E2). exists g2. by rewrite E1, E2.
Qed.
Lemma parse_argument fuel g v c p a ws v' : position g = mkWord p ["-"%char; c] :: a :: ws -> c ∈ str "pelbrstn" ->
  parse_option c (a :: ws) v = (v', true) -> has ShowHelp v' = false ->
  exists g', position g' = ws /\ parse_options (S fuel) g v = parse_options fuel g' v'.
Proof.
  intros Hg Hc Ho Hh. assert (c ∈ str "peilbrstn") as Hc' by (revert Hc; unfold str; cbn; rewrite !elem_of_cons; tauto).
  destruct (argument_ok g c p a ws Hg Hc') as (g' & E & Hg' & Ha). exists g'. split; [done|].
  cbn [parse_options]. rewrite E, Ha, Ho, Hh. cbn [negb orb]. unfold resume. replace (char_eqb c "i") with false; [done|].
  symmetry. apply char_eqb_neq. intros ->. revert Hc. unfold str. cbn. rewrite !elem_of_cons, elem_of_nil. intuition discriminate.
Qed.

(** A line that creates a burst. *)
Definition create_line (dev name : text) (id start stop : Z) : text :=
  join [dev; str "-n"; name; str "-b"; hex id; str "-s"; hex start; str "-t"; hex stop].

Lemma dash_no_space c : c <> space -> no_space ["-"%char; c].
Proof. intros Hc. split; [|done]. cbn. by rewrite (proj2 (char_eqb_neq c space) Hc). Qed.
Lemma id_arg p id : 1 <= id <= 16 -> int (mkWord p (hex id)) = id.
Proof. intros Hid. unfold int. cbn [w_text]. rewrite strtoll_hex by lia. apply signed_wrap_small; lia. Qed.
Lemma id_range id : 1 <= id <= 16 -> (id <? 1) || (N_BURSTS <? id) = false.
Proof. intros Hid. unfold N_BURSTS. by rewrite (proj2 (Z.ltb_ge _ _)), (proj2 (Z.ltb_ge _ _)) by lia. Qed.

Lemma parse_b p id ws v : 1 <= id <= 16 -> parse_option "b" (mkWord p (hex id) :: ws) v = (flag BurstIdGiven (set BurstId id v), true).
Proof.
  intros Hid. change (parse_option "b" ?ws v) with (with_id BurstId 1 ws v (fun _ v => (flag BurstIdGiven v, true))). unfold with_id.
  by rewrite id_arg, id_range.
Qed.
Lemma parse_s p n ws v : 0 <= n < 2 ^ 64 -> parse_option "s" (mkWord p (hex n) :: ws) v = (flag MkBurst (set StartId n v), true).
Proof. intros Hn. transitivity (flag MkBurst (set StartId (num (mkWord p (hex n))) v), true); [reflexivity|by rewrite num_hex]. Qed.
Lemma parse_t p n ws v : 0 <= n < 2 ^ 64 -> parse_option "t" (mkWord p (hex n) :: ws) v = (set StopId n v, true).
Proof. intros Hn. transitivity (set StopId (num (mkWord p (hex n))) v, true); [reflexivity|by rewrite num_hex]. Qed.

Definition created (id start stop : Z) (pos : nat) : Vars :=
  set StopId stop (flag MkBurst (set StartId start (flag BurstIdGiven (set BurstId id (mkVars (nums reset) [] [] (Some pos)))))).
Lemma parse_create dev name id start stop fuel : no_space dev -> no_space name -> 1 <= id <= 16 -> 0 <= start < 2 ^ 64 -> 0 <= stop < 2 ^ 64 ->
  (length (create_line dev name id start stop) < 4096)%nat -> (5 <= fuel)%nat ->
  exists pos, name_in (create_line dev name id start stop) pos = to_string name /\
    bg_parse_options fuel (create_line dev name id start stop) reset = Ret (created id start stop pos, true).
Proof.
  intros Hdev Hname Hid Hstart Hstop Hlen Hf. set (ws := [dev; str "-n"; name; str "-b"; hex id; str "-s"; hex start; str "-t"; hex stop]).
  assert (Forall no_space ws) as Hws.
  { unfold ws. repeat (apply Forall_cons; split); first [apply hex_no_space; lia|exact Hdev|exact Hname|by apply dash_no_space|apply Forall_nil; exact I]. }
  destruct (buffer_join ws Hws 2%nat name eq_refl) as (pos & Ep & Es). exists pos. split; [unfold name_in; unfold create_line; fold ws; by rewrite Es|].
  unfold bg_parse_options. rewrite (proj2 (Nat.leb_gt _ _)) by done. unfold words, create_line. fold ws. rewrite words_from_join by done.
  do 5 (destruct fuel as [|fuel]; [lia|]). cbn [ws placed lookup list_lookup] in Ep |- *. injection Ep as Ep.
  set (g0 := start_words _). pose proof (start_ok (G := G) _ : position g0 = _) as P0. cbn [tail] in P0.
  set (v1 := mkVars (nums reset) [] [] (Some pos)). set (v2 := flag BurstIdGiven (set BurstId id v1)). set (v3 := flag MkBurst (set StartId start v2)).
  destruct (parse_argument (S (S (S (S fuel)))) g0 reset "n" _ _ _ v1 P0) as (g1 & P1 & E1); [by apply (bool_decide_unpack _)|by unfold v1; rewrite <- Ep|reflexivity|].
  destruct (parse_argument (S (S (S fuel))) g1 v1 "b" _ _ _ v2 P1) as (g2 & P2 & E2);
    [by apply (bool_decide_unpack _)|by apply parse_b|reflexivity|].
  destruct (parse_argument (S (S fuel)) g2 v2 "s" _ _ _ v3 P2) as (g3 & P3 & E3); [by apply (bool_decide_unpack _)|by apply parse_s|reflexivity|].
  destruct (parse_argument (S fuel) g3 v3 "t" _ _ _ (created id start stop pos) P3) as (g4 & P4 & E4); [by apply (bool_decide_unpack _)|by apply parse_t|reflexivity|].
  rewrite E1, E2, E3, E4. by apply parse_end.
Qed.

Record Pulses := mkPulses { t_high : Z; t_period : Z; t_burst : Z; t_delay : Z; b_flag : Z }.
Definition pulses_ok (p : Pulses) : Prop :=
  0 <= t_high p <= t_period p /\ t_period p < 2 ^ 32 /\ (t_burst p = 0 \/ BG_BURST_PERIOD <= t_burst p < 2 ^ 63 /\ t_period p <= t_burst p) /\
  0 <= t_delay p < 2 ^ 64 /\ 0 <= b_flag p <= 1.
Definition pulse_words (p : Pulses) : list text := [hex (t_high p); hex (t_period p); hex (t_burst p); hex (t_delay p); hex (b_flag p)].
(** A line that gives the pulses of a burst. *)
Definition signal_line (dev : text) (id : Z) (p : Pulses) : text := join (dev :: str "-b" :: hex id :: str "-p" :: pulse_words p).
Definition pulsed (p : Pulses) (v : Vars) : Vars :=
  flag CfgIo (set BFlag (b_flag p) (set Delay (t_delay p) (set TBurst (t_burst p) (set TPeriod (t_period p) (set THigh (t_high p) v))))).

Lemma parse_p_words p0 p1 p2 p3 p4 p v : pulses_ok p ->
  parse_pulses [mkWord p0 (hex (t_high p)); mkWord p1 (hex (t_period p)); mkWord p2 (hex (t_burst p)); mkWord p3 (hex (t_delay p)); mkWord p4 (hex (b_flag p))] v
  = (pulsed p v, true).
Proof.
  intros (Hh & Hp & Hb & Hd & Hf). unfold BG_BURST_PERIOD in Hb. unfold parse_pulses. cbv zeta. rewrite !num_hex by lia. cbn [w_text]. rewrite strtoll_hex by lia.
  assert (forall x, 0 <= x < 2 ^ 32 -> u32 x = x) as Hu by (intros; unfold u32; apply Z.mod_small; lia). rewrite !Hu by lia.
  assert (forall x n v, nums (set x n v) x = n) as Hs by (intros; cbn; by rewrite decide_True). rewrite !Hs.
  assert (forall y n w, nums (set TBurst n (set TPeriod y w)) TPeriod = y /\ nums (set TBurst n (set TPeriod y w)) THigh = nums w THigh) as Hs2.
  { intros. cbn. by rewrite decide_False, decide_True. }
  rewrite !(proj1 (Hs2 _ _ _)), !(proj2 (Hs2 _ _ _)), Hs. unfold BG_BURST_PERIOD.
  replace ((0 <? t_burst p) && (t_burst p <? 200000)) with false by (symmetry; apply andb_false_iff; rewrite !Z.ltb_ge; lia).
  replace (t_period p <? t_high p) with false by (symmetry; apply Z.ltb_ge; lia).
  replace ((0 <? t_burst p) && (t_burst p <? t_period p)) with false by (symmetry; apply andb_false_iff; rewrite !Z.ltb_ge; lia).
  by replace (1 <? b_flag p) with false by (symmetry; apply Z.ltb_ge; lia).
Qed.

Lemma hex_not_dash l : Forall (fun w => head (w_text w) <> Some "-"%char) ((fun '(p, n) => mkWord p (hex n)) <$> l).
Proof. apply Forall_fmap, Forall_forall. by intros [p n] _. Qed.
Definition signalled (id : Z) (p : Pulses) : Vars := pulsed p (flag BurstIdGiven (set BurstId id reset)).
Lemma parse_signal dev id p fuel : no_space dev -> 1 <= id <= 16 -> pulses_ok p -> (length (signal_line dev id p) < 4096)%nat -> (3 <= fuel)%nat ->
  bg_parse_options fuel (signal_line dev id p) reset = Ret (signalled id p, true).
Proof.
  intros Hdev Hid Hp Hlen Hf. set (ws := dev :: str "-b" :: hex id :: str "-p" :: pulse_words p).
  assert (Forall no_space ws) as Hws.
  { pose proof Hp as (? & ? & ? & ? & ?). unfold BG_BURST_PERIOD in *. unfold ws, pulse_words. repeat (apply Forall_cons; split); first [apply hex_no_space; lia|exact Hdev|by apply dash_no_space|apply Forall_nil; exact I]. }
  unfold bg_parse_options. rewrite (proj2 (Nat.leb_gt _ _)) by done. unfold words, signal_line. fold ws. rewrite words_from_join by done.
  do 3 (destruct fuel as [|fuel]; [lia|]). unfold ws, pulse_words. cbn [placed].
  set (g0 := start_words _). pose proof (start_ok (G := G) _ : position g0 = _) as P0. cbn [tail] in P0.
  set (v1 := flag BurstIdGiven (set BurstId id reset)).
  destruct (parse_argument (S (S fuel)) g0 reset "b" _ _ _ v1 P0) as (g1 & P1 & E1); [by apply (bool_decide_unpack _)|by apply parse_b|reflexivity|].
  destruct (parse_argument (S fuel) g1 v1 "p" _ _ _ (pulsed p v1) P1) as (g2 & P2 & E2);
    [by apply (bool_decide_unpack _)|by apply parse_p_words|reflexivity|].
  destruct (parse_others (S fuel) (pulsed p v1) _ (hex_not_dash [(_, t_period p); (_, t_burst p); (_, t_delay p); (_, b_flag p)]) g2 P2) as (g3 & P3 & E3).
  rewrite E1, E2, E3. by apply parse_end.
Qed.

Lemma run_line line lines v v' fuel w : bg_parse_options (G := G) fuel line v = Ret (v', true) -> bg_check_arguments tr line v' = true ->
  run_lines (G := G) tr fuel (line :: lines) v w =
  (status ← with_vars line v' (bg_do_configuration tr fuel v'); if status =? 0 then run_lines (G := G) tr fuel lines reset else mret status) w.
Proof. intros E C. cbn [run_lines]. rewrite E. unfold mbind at 1, M_bind at 1, of_outcome. cbv beta iota zeta. cbn [negb]. by rewrite C. Qed.

(** C33: A file with a line that makes a burst and one that gives its pulses, numbers in
    hexadecimal: the tool makes the burst on the named line between its two events, then,
    when that succeeds, configures its pulses, with the numbers of the file; the status
    is that of the first call that fails.  So the options that [main] splits in words,
    permutes and reads back through the C library are exactly the arguments of the two
    operations, and nothing of one line is left over in the next. *)
Theorem burst_file_runs dev name id start stop p fuel w :
  no_space dev -> no_space name -> to_string name ∈ (outs tr ++ ins tr).*1 ->
  1 <= id <= 16 -> 0 < start < 2 ^ 64 -> 0 <= stop < 2 ^ 64 -> start <> stop -> pulses_ok p ->
  (length (create_line dev name id start stop) < 4096)%nat -> (length (signal_line dev id p) < 4096)%nat -> (5 <= fuel)%nat ->
  run_lines (G := G) tr fuel [create_line dev name id start stop; signal_line dev id p] reset w =
  (status ← with_name (Some (to_string name))
     (bg_create_burst (outs tr) (ins tr) (Some (ecpu tr)) fuel show_state true id start ECA_EVENT_MASK stop ECA_EVENT_MASK);
   if status =? 0 then
     status ← with_name None (bg_config_io (outs tr) fuel true id (t_high p) (t_period p) (t_burst p) (t_delay p) (b_flag p));
     if status =? 0 then mret 0 else mret status
   else mret status) w.
Proof.
  intros Hdev Hname Hin Hid Hstart Hstop Hne Hp Hl1 Hl2 Hf.
  destruct (parse_create dev name id start stop fuel) as (pos & En & E1); try done; [lia|]. pose proof (parse_signal dev id p fuel Hdev Hid Hp Hl2 ltac:(lia)) as E2.
  set (l1 := create_line dev name id start stop) in *. set (l2 := signal_line dev id p) in *.
  assert (bg_check_arguments tr l1 (created id start stop pos) = true) as C1.
  { unfold bg_check_arguments. change (name_at (created id start stop pos)) with (Some pos). cbv beta iota. rewrite En.
    change (has MkBurst (created id start stop pos)) with true. change (nums (created id start stop pos) StartId) with start. change (nums (created id start stop pos) StopId) with stop.
    rewrite (proj2 (Z.eqb_neq start 0)), (proj2 (Z.eqb_neq start stop)) by lia. rewrite andb_true_r. apply existsb_exists.
    apply list_elem_of_fmap in Hin as (e & -> & He). exists e. rewrite bool_decide_true by done. split; [by apply list_elem_of_In|done]. }
  assert (bg_check_arguments tr l2 (signalled id p) = true) as C2 by reflexivity.
  rewrite (run_line l1 _ _ _ _ _ E1 C1). unfold with_vars at 1.
  change (name_in l1 <$> name_at (created id start stop pos)) with (Some (name_in l1 pos)). rewrite En. unfold mbind, M_bind.
  destruct (with_name _ _ w) as [[status|e|e] w1]; [|done..]. destruct (status =? 0); [|done].
  rewrite (run_line l2 _ _ _ _ _ E2 C2). done.
Qed.
End RunLines.

Module BurstToolDemo.
Import BurstDemo.
(** A simple [getopt]: options are words of a dash and a letter. *)
Record scanner := mkScanner { all : list word; next : nat }.
Fixpoint scan (k : nat) (l : list word) : option ascii * nat :=
  match l with
  | [] => (None, k)
  | w :: l' =>
      match w_text w with
      | ["-"%char; c] =>
          if bool_decide (c ∈ str "fSxv") then (Some c, S k)
          else if bool_decide (c ∈ str "peilbrstn") then match l' with [] => (Some ":"%char, S k) | _ => (Some c, S (S k)) end
          else (Some "?"%char, S k)
      | "-"%char :: _ => (Some "?"%char, S k)
      | _ => scan (S k) l'
      end
  end.
#[export] Instance scanner_getopt : Getopt scanner := {|
  start_words ws := mkScanner ws 1;
  getopt _ g := let '(o, k) := scan (next g) (drop (next g) (all g)) in (o, mkScanner (all g) k);
  arguments g := drop (next g - 1) (all g);
  optind g := Z.of_nat (next g);
  set_optind n g := mkScanner (all g) (Z.to_nat n) |}.

Lemma drop_next {A} k (l : list A) x l' : drop k l = x :: l' -> drop (S k) l = l'.
Proof. intros E. replace (S k) with (k + 1)%nat by lia. by rewrite <- drop_drop, E. Qed.
#[export] Instance scanner_ok : GetoptOk scanner.
Proof.
  refine {| position g := drop (next g) (all g) |}.
  - intros ws. by destruct ws.
  - intros g Hg. cbn. by rewrite Hg.
  - intros g w ws Hg Hw. exists (mkScanner (all g) (S (next g))). split; [by apply drop_next in Hg|]. cbn [getopt scanner_getopt next all].
    rewrite Hg, (drop_next _ _ _ _ Hg). cbn [scan]. destruct (w_text w) as [|[[] [] [] [] [] [] [] []] l]; first [reflexivity|exfalso; by apply Hw].
  - intros g c p a ws Hg Hc. pose proof (drop_next _ _ _ _ Hg) as Hg'. exists (mkScanner (all g) (S (S (next g)))). split; [|split].
    + cbn [getopt scanner_getopt]. rewrite Hg. cbn [scan w_text]. rewrite (bool_decide_false (c ∈ str "fSxv")), (bool_decide_true (c ∈ str "peilbrstn")); [done|done|].
      revert Hc. unfold str. cbn. rewrite !elem_of_cons, elem_of_nil. intros Hc Hn. intuition congruence.
    + by apply drop_next in Hg'.
    + cbn [arguments scanner_getopt next all]. by replace (S (S (next g)) - 1)%nat with (S (next g)) by lia.
  - intros g c p ws Hg Hc. exists (mkScanner (all g) (S (next g))). split; [|by apply drop_next in Hg].
    cbn [getopt scanner_getopt]. rewrite Hg. cbn [scan w_text]. by rewrite bool_decide_true.
Defined.

#[export] Instance demo_device : Device World := {|
  getDevices := say [("tr0", "/tr0")]%string; create_receiver _ := say tt; CurrentTime _ _ := say (mkTime 0); InjectEvent _ _ _ _ := say tt; usleep _ := say tt |}.
#[export] Instance demo_pps : PpsProxies World := {|
  getLocked _ := say true; receiver_outputs _ := say [("B1", "/B1")]%string; receiver_inputs _ := say [];
  scu_sinks _ := say []; scu_condition _ _ _ _ _ _ := say ""%string; ToggleActive _ := say tt; InactivateAll _ := say tt; stdin_closed := say true |}.
#[export] Instance demo_io : IoProxies World := {|
  getAccept _ _ := say true; getOn _ := say true; getTypeIn _ := say ""%string; getLogicLevelOut _ := say ""%string; getLogicLevelIn _ := say ""%string;
  output_state _ _ := say true; input_state _ _ := say true; getStableTime _ := say 0; getIndexIn _ := say 0; getEventPrefix _ := say 0;
  getEventEnable _ := say true; getEventBits _ := say 1; show _ := say tt |}.
#[export] Instance demo_setup : BurstSetup World := {|
  getInterface _ i := say [(i, "/" +:+ i)]%string; readState := say 0 |}.
Definition demo_target : Target := mkTarget [("B1", "/B1")]%string [] "/ecpu".
Definition five : Pulses := mkPulses 40000 100000 500000 500 1.

(** The two lines make the burst and its six conditions with four of the block loop. *)
Lemma burst_file_runs_witness : exists w1 w2,
  with_name (Some "B1"%string) (bg_create_burst (outs demo_target) (ins demo_target) (Some (ecpu demo_target)) 5 show_state true 1 e_id ECA_EVENT_MASK 0 ECA_EVENT_MASK) ([], []) = (Ret 0, w1) /\
  with_name None (bg_config_io (outs demo_target) 5 true 1 40000 100000 500000 500 1) w1 = (Ret 0, w2) /\
  run_lines (G := scanner) demo_target 5 [create_line (str "tr0") (str "B1") 1 e_id 0; signal_line (str "tr0") 1 five] reset ([], []) = (Ret 0, w2) /\
  length w2.1 = 10%nat.
Proof.
  assert (no_space (str "tr0")) as H1 by done. assert (no_space (str "B1")) as H2 by done.
  assert (to_string (str "B1") ∈ (outs demo_target ++ ins demo_target).*1) as H3 by (apply elem_of_cons; by left).
  assert (0 < e_id < 2 ^ 64) as H4 by (vm_compute; by split).
  assert (pulses_ok five) as H5 by (unfold pulses_ok, BG_BURST_PERIOD; cbn; lia).
  assert (length (create_line (str "tr0") (str "B1") 1 e_id 0) < 4096)%nat as H6 by (apply Nat.ltb_lt; vm_compute; reflexivity).
  assert (length (signal_line (str "tr0") 1 five) < 4096)%nat as H7 by (apply Nat.ltb_lt; vm_compute; reflexivity).
  pose proof (burst_file_runs (G := scanner) demo_target (str "tr0") (str "B1") 1 e_id 0 five 5 ([], []) H1 H2 H3 ltac:(lia) H4 ltac:(lia) ltac:(lia) H5 H6 H7 ltac:(lia)) as E.
  eexists _, _. split; [vm_compute; reflexivity|]. split; [vm_compute; reflexivity|]. split; [|reflexivity].
  etransitivity; [exact E|]. vm_compute. reflexivity.
Defined.

Definition from_file (content : list text) : text -> M World (option text) := fun _ => say (Some (content ≫= (fun l => l ++ ["010"%char]))).
(** [main] with an option file; the options that [getopt] finds on its command line. *)
Definition run (file : text) (content : list text) : outcome Z * World :=
  main (G := scanner) (from_file content) 5 [str "tr0"; str "-o"; file] [("o"%char, file)] ([], []).
Example file_run : (fun r => (r.1, r.2.2)) (run (str "bursts.txt") [str "# a comment"; str "tr0 -i 5 1 0x10"]) = (Ret 0, [(5, [1; 16])]).
Proof. vm_compute. reflexivity. Qed.
(** The help that an unknown option asks for is never taken back: no later line runs. *)
Example unknown_option_sticks : run (str "bursts.txt") [str "tr0 -z"; str "tr0 -i 5 1"] = (Ret 0, ([], [])).
Proof. vm_compute. reflexivity. Qed.
(** [-o] is cut out of the name of the file, and the rest of the command line is run as a
    line, with an unknown option: no line of the file runs. *)
Example name_with_o : run (str "my-options") [str "tr0 -i 5 1"] = (Ret 0, ([], [])).
Proof. vm_compute. reflexivity. Qed.
(** The first word of a line is the name of the program for [getopt]. *)
Example first_word_skipped : (run (str "bursts.txt") [str "-x"]).1 = Ret 1.
Proof. vm_compute. reflexivity. Qed.
(** -i with an option behind it is read again for ever. *)
Definition instr_line : list word := words (str "tr0 -i -v").
Lemma instruct_loops fuel : exists e, parse_options (G := scanner) fuel (start_words instr_line) reset = Crash e.
Proof.
  enough (forall v, has ShowHelp v = false -> exists e, parse_options (G := scanner) fuel (start_words instr_line) v = Crash e) as H by by apply H.
  induction fuel as [|fuel IH]; intros v Hv; [by exists "parse_options: runs for ever"%string|].
  set (v' := mkVars (nums v) (Instr :: flags v) (instr_args v ++ []) (name_at v)).
  assert (has ShowHelp v' = false) as Hv'.
  { revert Hv. unfold has, v'. cbn. rewrite !bool_decide_eq_false, elem_of_cons. intuition discriminate. }
  destruct (IH v' Hv') as [e He]. exists e. rewrite <- He. cbn [parse_options]. change (getopt optstring (start_words instr_line)) with (Some "i"%char, mkScanner instr_line 3).
  cbv iota beta. change (parse_option "i" (arguments (mkScanner instr_line 3)) v) with (v', true). cbv iota beta. by rewrite Hv'.
Qed.
End BurstToolDemo.
