(* ===== verification/Firmware.v ===== *)
(** * The objects of the function generator firmware, and the plugins that install firmware

    [MasterFg] has the scan of FunctionGeneratorFirmware.cpp and the generators that it
    makes; here are the objects that represent them in the container, with their owners,
    [clear], which is the destruction callback of the master at the same time, and the
    entry functions of the two plugins, fg_firmware_create_service.cpp and
    bg_firmware_create_service.cpp. *)
From S2P Require Import Prelude StdMap Bus Loop Owned FunctionGen FunctionGenSystem MasterFg MasterCorrect Texts Container ContainerCorrect.
From stdpp Require Import pretty.
Local Open Scope Z_scope.

(** ** [FunctionGeneratorFirmware] in the container *)

(** The maps [fgs] (names and object paths) and [addon_objects], and the path of [mfg];
    the generators themselves are in the world of the driver. *)
Record Firmware (D : Type) := mkFirmware {
  fw_world : FgWorld D;
  objectPath : string;
  fg_objects : list (string * string);
  mfg_object : option string;
  addon_objects : list (string * list (string * string))
}.
Arguments mkFirmware {_} _ _ _ _ _.
Arguments fw_world {_} _.
Arguments objectPath {_} _.
Arguments fg_objects {_} _.
Arguments mfg_object {_} _.
Arguments addon_objects {_} _.

Section Firmware.
Context {D CB : Type} `{Bus D}.
Context (mailbox : Z) (usleep : Z -> D -> D) (fgb fw_version : Z).
Context (irq_address : nat -> Z) (capacity : option Z).
(** Is there a container?  What calls [clear], and the interfaces of the services. *)
Context (has_cont : bool) (clear_callback : CB) (fg_interfaces mfg_interfaces : list string).
Abbreviation S := (Daemon CB (Firmware D)).

Definition on_firmware (f : Firmware D -> Firmware D) : M S unit :=
  modify (fun st => mkDaemon (container st) (clients st) (calling_client_id st) (f (others st))).
Definition set_world (w : FgWorld D) (f : Firmware D) : Firmware D :=
  mkFirmware w (objectPath f) (fg_objects f) (mfg_object f) (addon_objects f).
Definition set_fg_objects (l : list (string * string)) (f : Firmware D) : Firmware D :=
  mkFirmware (fw_world f) (objectPath f) l (mfg_object f) (addon_objects f).
Definition set_mfg (p : option string) (f : Firmware D) : Firmware D :=
  mkFirmware (fw_world f) (objectPath f) (fg_objects f) p (addon_objects f).
Definition set_addon_objects (l : list (string * list (string * string))) (f : Firmware D) : Firmware D :=
  mkFirmware (fw_world f) (objectPath f) (fg_objects f) (mfg_object f) l.
(** A part that only concerns the driver. *)
Definition driver {A} (m : M (FgWorld D) A) : M S A :=
  zoom (fun st => fw_world (others st))
    (fun w st => mkDaemon (container st) (clients st) (calling_client_id st) (set_world w (others st))) m.

(** The objects that stand for generators and master. *)
Definition own_paths (f : Firmware D) : list string :=
  (fg_objects f).*2 ++ match mfg_object f with Some path => [path] | None => [] end.
(** The owner of the service at a path. *)
Definition owner_at (path : string) (c : Container CB) : option Z :=
  id ← map_find path (object_path_lookup_table c); owner <$> find_service id c.

Definition getObjects (f : Firmware D) : list (string * list (string * string)) :=
  let own := map_set "FunctionGeneratorFirmware"%string [("fg_firmware"%string, objectPath f)] [] in
  let fgs := default [] (map_find "FunctionGenerator"%string (addon_objects f)) in
  let own := match fgs with [] => own | _ => map_set "FunctionGenerator"%string fgs own end in
  map_set "MasterFunctionGenerator"%string (default [] (map_find "MasterFunctionGenerator"%string (addon_objects f))) own.

(** The first object that cannot be removed ends it; what was made of the objects so far
    stays. *)
Definition clear : M S unit :=
  try_catch
    (f ← gets others;
     driver (clear_fgs mailbox);;
     on_firmware (fun f => set_addon_objects [] (set_mfg None (set_fg_objects [] f)));;
     if has_cont then
       for_each (fun path => _ ← remove_object path; mret tt) ((fg_objects f).*2);;
       match mfg_object f with Some path => _ ← remove_object path; mret tt | None => mret tt end
     else mret tt)
    (fun _ => mret tt).

Definition publish (path : string) (s : Service CB) : M S unit :=
  if has_cont then on_container (fun c => (create_object path s c).2) else mret tt.

(** [ownerOnly()] of the firmware, and the start of both scans. *)
Definition start_scan : M S (Z * Z * Z * list Z) :=
  st ← get;
  of_outcome (ownerOnly (mkCaller has_cont (calling_client_id st))
    (owner_at (objectPath (others st)) (container st)));;
  driver not_running;;
  clear;;
  driver (scan_channels mailbox usleep fgb fw_version).

Definition ScanMasterFg (tag : Z) : M S (list (string * string)) :=
  '(slot, _, _, macros) ← start_scan;
  driver (make_generators mailbox slot irq_address capacity 0 macros);;
  path ← gets (fun st => objectPath (others st) +:+ "/masterfg");
  driver (fs ← gets fgs; set_front (Master (new_master (seq 0 (length fs)) tag (Some (-1)))));;
  on_firmware (set_mfg (Some path));;
  publish path (Service_new mfg_interfaces (Some clear_callback) true);;
  let result := [("masterfg"%string, path)] in
  on_firmware (fun f => set_addon_objects (map_set "MasterFunctionGenerator"%string result (addon_objects f)) f);;
  mret result.

Definition Scan := ScanMasterFg.

(** One more generator of the client. *)
Definition add_owner (client : Z) : M (FgWorld D) unit :=
  w ← get;
  set_front (Singles (match front w with Singles l => l | Master _ => [] end ++ [Some client])).
Definition fg_path (f : Firmware D) (index : Z) : string := objectPath f +:+ "/fg_" +:+ pretty index.
(** A generator with its object: the caller owns it ([fg->Own()]). *)
Definition make_channel (slot : Z) (j : nat) (mac : Z) : M S (string * string) :=
  st ← get;
  fg ← driver (new_fg mailbox slot (Z.of_nat j) mac (irq_address j) capacity);
  driver (on_fgs (fun fs => fs ++ [fg]);;
    add_owner (calling_client_id st));;
  let path := fg_path (others st) (Z.of_nat j) in
  publish path (set_owner (calling_client_id st) (Service_new fg_interfaces None true));;
  on_firmware (fun f => set_fg_objects (map_set (GetName fg) path (fg_objects f)) f);;
  mret (GetName fg, path).
(** [result.insert] leaves an entry of the same name as it is. *)
Definition insert_new (e : string * string) (m : list (string * string)) : list (string * string) :=
  if map_mem e.1 m then m else map_set e.1 e.2 m.
Fixpoint make_channels (slot : Z) (j : nat) (macros : list Z) (result : list (string * string)) : M S (list (string * string)) :=
  match macros with
  | [] => mret result
  | mac :: macros' =>
      if mac =? 0 then make_channels slot (1 + j)%nat macros' result
      else
        e ← make_channel slot j mac;
        make_channels slot (1 + j)%nat macros' (insert_new e result)
  end.
Definition ScanFgChannels : M S (list (string * string)) :=
  '(slot, _, _, macros) ← start_scan;
  result ← make_channels slot 0 macros [];
  on_firmware (fun f => set_addon_objects (map_set "FunctionGenerator"%string result (addon_objects f)) f);;
  mret result.
End Firmware.

(** ** The scan, with its objects *)
Section ScanObjects.
Context {D CB : Type} `{Bus D}.
Context (mailbox : Z) (usleep : Z -> D -> D) (fgb fw_version : Z) (irq_address : nat -> Z) (capacity : option Z).
Context (clear_callback : CB) (fg_interfaces : list string).
Abbreviation S := (Daemon CB (Firmware D)).
Implicit Types (st : S) (w : FgWorld D).

Lemma clear_objects st w' : cont_wf (container st) -> clear_fgs mailbox (fw_world (others st)) = (Ret tt, w') ->
  removables (calling_client_id st) (own_paths (others st)) (container st) ->
  exists c', clear mailbox true st = (Ret tt, mkDaemon c' (clients st) (calling_client_id st) (mkFirmware w' (objectPath (others st)) [] None [])) /\
    cont_wf c' /\ (forall n, room n (container st) -> room n c') /\
    forall q, at_path c' q = if decide (q ∈ own_paths (others st)) then None else at_path (container st) q.
Proof.
  intros Hwf Hclear Hrm. set (f := others st) in *.
  set (st1 := mkDaemon (container st) (clients st) (calling_client_id st) (mkFirmware w' (objectPath f) [] None [])).
  destruct (remove_all (own_paths f) st1 Hwf Hrm) as (c' & E & Hwf' & Hroom & Hq). exists c'. split; [|done].
  unfold clear, try_catch. rewrite (run_bind_ret (gets others) _ st f st) by done.
  assert (driver (clear_fgs mailbox) st = (Ret tt, mkDaemon (container st) (clients st) (calling_client_id st) (set_world w' f))) as Ed.
  { unfold driver, zoom. fold f. by rewrite Hclear. }
  rewrite (run_bind_ret _ _ _ _ _ Ed).
  unfold on_firmware. rewrite (run_bind_ret (modify _) _ _ tt st1) by done.
  unfold own_paths in E. rewrite for_each_app in E. apply run_bind_inv in E as ([] & s1 & E1 & E2). rewrite (run_bind_ret _ _ _ _ _ E1).
  destruct (mfg_object f) as [path|]; [|by injection E2 as ->]. cbn [for_each] in E2. apply run_bind_inv in E2 as ([] & s2 & E2 & E3).
  injection E3 as ->. by rewrite E2.
Qed.

(** *** The loop *)
Definition with_front (fr : Front) w : FgWorld D :=
  mkFgWorld (fw_dev w) (fgs w) (allocation w) (fw_loop w) (fw_now w) (fw_caller w) fr (fw_out w).
Lemma new_fg_front slot idx mac irq fr w fg w' : new_fg mailbox slot idx mac irq capacity w = (Ret fg, w') ->
  new_fg mailbox slot idx mac irq capacity (with_front fr w) = (Ret fg, with_front fr w') /\ index fg = idx /\ fgs w' = fgs w /\ front w' = front w.
Proof.
  unfold new_fg. destruct (default 16384 capacity <? 0); [done|]. unfold throw_if, on_dev, zoom, mbind, M_bind, mret, M_ret.
  change (fw_dev (with_front fr w)) with (fw_dev w). destruct (ConfigureSlot mailbox irq (fw_dev w)) as [[host|e|y] d]; [|done..]. by intros [= <- <-].
Qed.

Definition entry (f : Firmware D) (fg : FunctionGeneratorImpl) : string * string := (GetName fg, fg_path f (index fg)).
Lemma fg_path_inj (f : Firmware D) i k : fg_path f i = fg_path f k -> i = k.
Proof. unfold fg_path. intros E%(inj (String.append _))%(inj (String.append _)). by apply (inj pretty). Qed.

(** Objects of a client at the paths of new generators, all others as they were. *)
Definition published (f : Firmware D) (client : Z) (new : list FunctionGeneratorImpl) (c c' : Container CB) : Prop :=
  (forall q, (forall fg, fg ∈ new -> q <> fg_path f (index fg)) -> at_path c' q = at_path c q) /\
  forall fg, fg ∈ new -> exists s, at_path c' (fg_path f (index fg)) = Some s /\ owner s = client /\ interface_names s = fg_interfaces.

Lemma make_spec_app slot macros : forall j w w',
  make_generators mailbox slot irq_address capacity j macros w = (Ret tt, w') -> exists new, fgs w' = fgs w ++ new.
Proof.
  induction macros as [|mac macros IH]; intros j w w' Hrun; cbn [make_generators] in Hrun.
  - injection Hrun as <-. exists []. by rewrite app_nil_r.
  - apply run_bind_inv in Hrun as ([] & w1 & H1 & H2). destruct (IH _ _ _ H2) as [new E]. destruct (mac =? 0); [injection H1 as <-; by exists new|].
    apply run_bind_inv in H1 as (fg & w2 & Hfg & Hadd). injection Hadd as <-. destruct (new_fg_front _ _ _ _ (front w) _ _ _ Hfg) as (_ & _ & Ef & _).
    exists (fg :: new). cbn in E. by rewrite E, Ef, <- app_assoc.
Qed.
Lemma make_channels_spec slot macros : forall j w w' new st l result,
  make_generators mailbox slot irq_address capacity j macros w = (Ret tt, w') -> fgs w' = fgs w ++ new ->
  fw_world (others st) = with_front (Singles l) w -> cont_wf (container st) -> room (length new) (container st) ->
  (forall i, Z.of_nat j <= i -> map_find (fg_path (others st) i) (object_path_lookup_table (container st)) = None) ->
  exists c', make_channels mailbox irq_address capacity true fg_interfaces slot j macros result st =
      (Ret (foldl (fun m e => insert_new e m) result (entry (others st) <$> new)),
       mkDaemon c' (clients st) (calling_client_id st)
         (mkFirmware (with_front (Singles (l ++ ((fun _ => Some (calling_client_id st)) <$> new))) w') (objectPath (others st))
            (foldl (fun m e => map_set e.1 e.2 m) (fg_objects (others st)) (entry (others st) <$> new)) (mfg_object (others st)) (addon_objects (others st)))) /\
    cont_wf c' /\ published (others st) (calling_client_id st) new (container st) c' /\ Forall (fun fg => Z.of_nat j <= index fg) new.
Proof.
  induction macros as [|mac macros IH]; intros j w w' new st l result Hrun Hnew Hw Hwf Hroom Hfree; cbn [make_generators] in Hrun.
  - injection Hrun as <-. assert (new = []) as -> by (destruct new; [done|]; apply (f_equal length) in Hnew; rewrite length_app in Hnew; cbn in Hnew; lia).
    exists (container st). split; [|split; [done|split; [|done]]].
    + cbn. rewrite app_nil_r, <- Hw. by destruct st as [c cl id []].
    + split; [done|]. by intros fg ?%not_elem_of_nil.
  - apply run_bind_inv in Hrun as ([] & w1 & H1 & H2). cbn [make_channels]. destruct (mac =? 0).
    + injection H1 as <-. destruct (IH (1 + j)%nat w w' new st l result H2 Hnew Hw Hwf Hroom) as (c' & E & Hwf' & Hp & Hj); [intros; apply Hfree; lia|].
      exists c'. split; [done|]. split; [done|]. split; [done|]. eapply Forall_impl; [exact Hj|]. cbn. lia.
    + apply run_bind_inv in H1 as (fg & w2 & Hfg & Hadd). injection Hadd as <-.
      destruct (new_fg_front _ _ _ _ (Singles l) _ _ _ Hfg) as (Hfg' & Hidx & Hfgs & _).
      set (w3 := mkFgWorld (fw_dev w2) (fgs w2 ++ [fg]) (allocation w2) (fw_loop w2) (fw_now w2) (fw_caller w2) (front w2) (fw_out w2)) in *.
      destruct (make_spec_app _ _ _ _ _ H2) as [new' Hnew']. 
      assert (new = fg :: new') as ->.
      { apply (app_inv_head (fgs w)). rewrite <- Hnew, Hnew'. unfold w3. cbn. by rewrite Hfgs, <- app_assoc. }
      set (f := others st) in *. set (path := fg_path f (index fg)).
      set (s := set_owner (calling_client_id st) (Service_new (CB := CB) fg_interfaces None true)).
      destruct (create_object_at (container st) (length new') path s Hwf Hroom) as (Hwf1 & Hroom1 & Hnone1 & id & Hat1); [apply Hfree; lia|].
      set (c1 := (create_object path s (container st)).2) in *.
      set (w4 := with_front (Singles (l ++ [Some (calling_client_id st)])) w3).
      set (st1 := mkDaemon c1 (clients st) (calling_client_id st) (mkFirmware w4 (objectPath f) (map_set (GetName fg) path (fg_objects f)) (mfg_object f) (addon_objects f))).
      assert (make_channel mailbox irq_address capacity true fg_interfaces slot j mac st = (Ret (entry f fg), st1)) as Emake.
      { unfold make_channel. rewrite (run_bind_ret get _ st st st) by done. fold f.
        assert (driver (new_fg mailbox slot (Z.of_nat j) mac (irq_address j) capacity) st
          = (Ret fg, mkDaemon (container st) (clients st) (calling_client_id st) (set_world (with_front (Singles l) w2) f))) as Ed
          by (unfold driver, zoom; fold f; by rewrite Hw, Hfg').
        rewrite (run_bind_ret _ _ _ _ _ Ed). unfold entry, driver, zoom, add_owner, publish, on_container, on_firmware, on_fgs, set_front.
        unfold mbind, M_bind, modify, mret, M_ret, get. cbn. rewrite <- Hidx. reflexivity. }
      rewrite (run_bind_ret _ _ _ _ _ Emake).
      destruct (IH (1 + j)%nat w3 w' new' st1 (l ++ [Some (calling_client_id st)]) (insert_new (entry f fg) result) H2 Hnew' eq_refl Hwf1 Hroom1) as (c' & E & Hwf' & [Hp1 Hp2] & Hj).
      { intros i Hi. apply Hnone1. split; [|apply Hfree; lia]. unfold path. intros Ep. apply (fg_path_inj f i (index fg)) in Ep. lia. }
      exists c'. split; [|split; [done|split; [split|]]].
      * rewrite E. cbn. by rewrite <- app_assoc.
      * intros q Hq. rewrite Hp1 by (intros fg' Hfg''; apply Hq; by right). cbn. rewrite Hat1, decide_False; [done|]. apply Hq. by left.
      * intros fg' [->|Hin]%elem_of_cons; [|by apply Hp2].
        exists (set_place id path s). split; [|done]. rewrite Hp1.
        -- cbn. by rewrite Hat1, decide_True.
        -- intros fg'' Hin Ep. apply (fg_path_inj f (index fg) (index fg'')) in Ep. rewrite Forall_forall in Hj. specialize (Hj _ Hin). lia.
      * constructor; [lia|]. eapply Forall_impl; [exact Hj|]. cbn. lia.
Qed.

Lemma scan_channels_front fr : keeps (fun w => front w = fr) (scan_channels mailbox usleep fgb fw_version).
Proof.
  assert (forall A (p : M D A), keeps (fun w => front w = fr) (on_dev p)) as Hd.
  { intros A p w Hw. unfold on_dev, zoom. destruct (p (fw_dev w)) as [r d]. exact Hw. }
  unfold scan_channels. apply keeps_bind; [apply Hd|]. intros rs. apply keeps_bind; [unfold throw_if; destruct (_ && _); eauto with keeps|]. intros _.
  apply keeps_bind; [apply Hd|]. intros _. apply keeps_bind; [apply Hd|]. intros [[nc bs] macros].
  apply keeps_bind; [by apply keeps_modify|]. intros _. apply keeps_bind; [|intros; apply keeps_ret]. apply keeps_for_each. intros j. apply Hd.
Qed.

(** Entries with names of their own. *)
Lemma foldl_set_entries {V} (l : list (string * V)) : forall m, NoDup l.*1 -> (forall n, n ∈ l.*1 -> n ∉ m.*1) ->
  foldl (fun m e => map_set e.1 e.2 m) m l ≡ₚ l ++ m.
Proof.
  induction l as [|[n v] l IH]; intros m Hnd Hfresh; [done|]. apply NoDup_cons in Hnd as [Hni Hnd]. cbn [foldl fst snd].
  assert (map_set n v m ≡ₚ (n, v) :: m) as Hm by (apply map_set_fresh, Hfresh; by left).
  rewrite IH; [by rewrite Hm, <- Permutation_middle|done|]. intros n' Hn'. rewrite Hm. cbn. apply not_elem_of_cons. split; [by intros ->|]. apply Hfresh. by right.
Qed.
Lemma foldl_insert_entries (l : list (string * string)) : forall m, NoDup l.*1 -> (forall n, n ∈ l.*1 -> n ∉ m.*1) ->
  foldl (fun m e => insert_new e m) m l = foldl (fun m e => map_set e.1 e.2 m) m l.
Proof.
  induction l as [|[n v] l IH]; intros m Hnd Hfresh; [done|]. apply NoDup_cons in Hnd as [Hni Hnd]. cbn [foldl fst snd].
  assert (n ∉ m.*1) as Hn by (apply Hfresh; by left). unfold insert_new at 2. cbn [fst snd]. unfold map_mem.
  destruct (map_find n m) as [v'|] eqn:E.
  { exfalso. apply Hn. apply map_find_In in E. apply list_elem_of_fmap. by exists (n, v'). }
  apply IH; [done|]. intros n' Hn'. rewrite (map_set_fresh n v m Hn). cbn. apply not_elem_of_cons. split; [by intros ->|]. apply Hfresh. by right.
Qed.

End ScanObjects.

(** ** The plugins *)
Section Plugins.
(** [R] is a timing receiver, [A] an addon for it. *)
Context {S R A : Type}.
(** [get_object] of the SAFTd, and of a receiver with [dynamic_cast]; [installAddon];
    the service of the addon in the container. *)
Context (get_saftd : M S unit) (receiver_at : string -> M S (option R)).
Context (installAddon : R -> string -> A -> M S unit) (publish_addon : A -> M S unit).
Definition saftd_path : string := "/de/gsi/saftlib".
Definition receiver_of (device : string) : M S R :=
  r ← receiver_at (saftd_path +:+ "/" +:+ device);
  match r with Some r => mret r | None => crash "null service" end.

(** [create_services] of fg_firmware_create_service.cpp: the driver stays loaded when the
    scan fails with a [saftbus::Error]. *)
Context (new_firmware : R -> M S A) (scan_firmware : A -> M S unit).
Definition install_firmware (device : string) : M S unit :=
  r ← receiver_of device;
  fw ← new_firmware r;
  installAddon r "FunctionGeneratorFirmware" fw;;
  publish_addon fw;;
  try_catch (scan_firmware fw)
    (fun e => match e with
              | Error _ _ => mret tt
              | EtherboneError => throw (Error FAILED "etherbone exception")
              | _ => throw (Error FAILED "unknown exception")
              end).
Definition create_fg_services (args : list string) : M S unit := get_saftd;; for_each install_firmware args.

(** [create_services] of bg_firmware_create_service.cpp: the arguments are devices, each
    with the number of the processor that gets the firmware or without.  An argument
    that cannot be used ends it without an error. *)
Context (getDevices : M S (list (string * string))) (getCpuCount : R -> M S Z).
Context (SafeHaltCpu WriteFirmware CpuReset : R -> Z -> M S unit) (new_burst_generator : R -> M S A).
Definition load_burst_firmware (r : R) (cpu_idx : Z) : M S unit :=
  if 0 <=? cpu_idx then SafeHaltCpu r cpu_idx;; WriteFirmware r cpu_idx;; CpuReset r cpu_idx else mret tt.
Definition install_burst_generator (r : R) : M S unit :=
  bg ← new_burst_generator r; installAddon r "BurstGenerator" bg;; publish_addon bg.
Fixpoint burst_arguments (all_devices : list (string * string)) (args : list string) : M S unit :=
  match args with
  | [] => mret tt
  | device :: args =>
      if negb (map_mem device all_devices) then mret tt
      else
        r ← receiver_of device;
        match args with
        | next :: args' =>
            if map_mem next all_devices then install_burst_generator r;; burst_arguments all_devices args
            else
              match read_int (str next) with
              | None => mret tt
              | Some (cpu_idx, _) =>
                  count ← (if 0 <=? cpu_idx then getCpuCount r else mret 0);
                  if (0 <=? cpu_idx) && (count <=? cpu_idx) then mret tt
                  else load_burst_firmware r cpu_idx;; install_burst_generator r;; burst_arguments all_devices args'
              end
        | [] => install_burst_generator r
        end
  end.
Definition create_bg_services (args : list string) : M S unit :=
  get_saftd;;
  all_devices ← getDevices;
  burst_arguments all_devices args.
End Plugins.

(** What the arguments mean: a device, and the processor to load. *)
Section BurstArguments.
Context {S R A : Type} (receiver_at : string -> M S (option R)) (installAddon : R -> string -> A -> M S unit) (publish_addon : A -> M S unit).
Context (getCpuCount : R -> M S Z) (SafeHaltCpu WriteFirmware CpuReset : R -> Z -> M S unit) (new_burst_generator : R -> M S A).
Context (all_devices : list (string * string)) (n_cpus : Z).
Hypothesis count_ok : forall r s, getCpuCount r s = (Ret n_cpus, s).

Definition request : Type := string * option (string * Z).
Definition request_ok (q : request) : Prop :=
  map_mem q.1 all_devices = true /\
  match q.2 with
  | Some (number, cpu) => map_mem number all_devices = false /\ (exists rest, read_int (str number) = Some (cpu, rest)) /\ cpu < n_cpus
  | None => True
  end.
Definition arguments_of (l : list request) : list string := l ≫= fun q => q.1 :: match q.2 with Some (number, _) => [number] | None => [] end.
Definition install_request (q : request) : M S unit :=
  r ← receiver_of receiver_at q.1;
  match q.2 with Some (_, cpu) => load_burst_firmware SafeHaltCpu WriteFirmware CpuReset r cpu | None => mret tt end;;
  install_burst_generator installAddon publish_addon new_burst_generator r.

Lemma next_is_device l a args : Forall request_ok l -> arguments_of l = a :: args -> map_mem a all_devices = true.
Proof. destruct l as [|[d cpu] l]; [done|]. intros [[Hd _] _]%Forall_cons E. cbn in E. by injection E as <- <-. Qed.
Theorem burst_arguments_installed l s : Forall request_ok l ->
  burst_arguments receiver_at installAddon publish_addon getCpuCount SafeHaltCpu WriteFirmware CpuReset new_burst_generator all_devices (arguments_of l) s
  = for_each install_request l s.
Proof.
  intros Hl. revert s. induction Hl as [|[d cpu] l [Hd Hcpu] Hl IH]; intros s; [done|]. cbn [fst snd] in *.
  set (install := install_burst_generator installAddon publish_addon new_burst_generator) in *.
  change (arguments_of ((d, cpu) :: l)) with (d :: match cpu with Some (number, _) => [number] | None => [] end ++ arguments_of l).
  cbn [burst_arguments for_each]. set (later := for_each install_request l) in *. rewrite Hd. cbn [negb]. unfold install_request. cbn [fst snd]. fold install.
  unfold mbind, M_bind. destruct (receiver_of receiver_at d s) as [[r|e|y] s1]; [|done..].
  destruct cpu as [[number cpu]|]; cbn [app].
  - destruct Hcpu as (Hn & [rest Hr] & Hc). rewrite Hn, Hr. destruct (Z.leb_spec 0 cpu) as [H0|H0]; cbn [andb].
    + rewrite count_ok. rewrite (proj2 (Z.leb_gt n_cpus cpu)) by done.
      destruct (load_burst_firmware _ _ _ r cpu s1) as [[[]|e|y] s2]; [|done..]. destruct (install r s2) as [[[]|e|y] s3]; [|done..]. apply IH.
    + unfold mret, M_ret. destruct (load_burst_firmware _ _ _ r cpu s1) as [[[]|e|y] s2]; [|done..].
      destruct (install r s2) as [[[]|e|y] s3]; [|done..]. apply IH.
  - unfold mret, M_ret. destruct (arguments_of l) as [|a args] eqn:El.
    + specialize (IH (install r s1).2). change (install_burst_generator installAddon publish_addon new_burst_generator r s1) with (install r s1).
      destruct (install r s1) as [[[]|e|y] s2]; [|done..]. exact IH.
    + rewrite (next_is_device l a args Hl El). change (install_burst_generator installAddon publish_addon new_burst_generator) with install.
      destruct (install r s1) as [[[]|e|y] s2]; [|done..]. apply IH.
Qed.
End BurstArguments.

(** ** A receiver with the firmware *)
Module FirmwareDemo.
Import FunctionGenSystem.FgDemo MasterDemo.
(** The callback of the master; the one of the firmware's service removes the addon. *)
Inductive Callback := ClearObjects | RemoveAddon.
Definition fw_path : string := "/tr0/fg_firmware".
Definition D0 := Daemon Callback (Firmware ram).
Definition clear0 : M D0 unit := clear mbx true.
Definition run_cb (cb : Callback) : M D0 unit := clear0.
Definition scan_fgs : M D0 (list (string * string)) :=
  ScanFgChannels mbx clear_flag 0 4 (fun _ => 0x1000) None true ["FunctionGenerator"].
Definition scan_master : M D0 (list (string * string)) :=
  ScanMasterFg mbx clear_flag 0 4 (fun _ => 0x1000) None true ClearObjects ["MasterFunctionGenerator"] 0.
Definition put (path : string) (s : Service Callback) (c : Container Callback) : Container Callback := (create_object path s c).2.
(** With the firmware an input that client 8 owns. *)
Definition container0 : Container Callback :=
  put "/tr0/inputs/IO1" (set_owner 8 (Service_new ["Input"] None true))
    (put fw_path (Service_new ["FunctionGeneratorFirmware"] (Some RemoveAddon) false)
      (put "/saftbus" (Service_new ["Container"] None true) (mkContainer [] [] [] [] 1))).
Definition start : D0 := mkDaemon container0 [] 7 (mkFirmware scan_world fw_path [] None []).
Definition as_client (client : Z) (st : D0) : D0 :=
  mkDaemon (container st) (clients st) client
    (set_world (let w := fw_world (others st) in mkFgWorld (fw_dev w) (fgs w) (allocation w) (fw_loop w) (fw_now w) (mkCaller true client) (front w) (fw_out w)) (others st)).
Definition owner_of (path : string) (st : D0) : option Z := owner <$> at_path (container st) path.

Lemma container0_wf : cont_wf container0.
Proof.
  apply cont_okb_wf; [apply (bool_decide_unpack _)|apply (bool_decide_unpack _)|]; vm_compute; try exact I; reflexivity.
Qed.

Example scanned : let '(r, st) := scan_fgs start in
  r = Ret [("fg-1-2", "/tr0/fg_firmware/fg_0"); ("fg-1-3", "/tr0/fg_firmware/fg_2")]%string /\
  owner_of "/tr0/fg_firmware/fg_0" st = Some 7 /\ map_find "FunctionGenerator"%string (getObjects (others st)) = Some [("fg-1-2", "/tr0/fg_firmware/fg_0"); ("fg-1-3", "/tr0/fg_firmware/fg_2")]%string.
Proof. vm_compute. done. Qed.
(** Another client may scan as well: the generators are destroyed, but their objects,
    which it may not remove, stay; a call reaches a driver that is gone. *)
Definition after_two : D0 := (scan_master (as_client 9 (scan_fgs start).2)).2.
Example objects_left :
  (scan_master (as_client 9 (scan_fgs start).2)).1 = Ret [("masterfg", "/tr0/fg_firmware/masterfg")]%string /\
  fg_objects (others after_two) = [] /\ owner_of "/tr0/fg_firmware/fg_0" after_two = Some 7.
Proof. vm_compute. done. Qed.
(** The owner of the master quits: its callback removes it, and what is released then is
    the object before it, which belongs to somebody else. *)
Definition with_master : D0 :=
  let st := (scan_master start).2 in
  let id := default 0 (map_find "/tr0/fg_firmware/masterfg"%string (object_path_lookup_table (container st))) in
  (on_container (update_service id (set_owner 7)) st).2.
Example hang_up_releases_other :
  owner_of "/tr0/inputs/IO1" with_master = Some 8 /\
  let '(r, st) := client_hung_up run_cb 5 7 with_master in
  r = Ret (Some tt) /\ owner_of "/tr0/fg_firmware/masterfg" st = None /\ owner_of "/tr0/inputs/IO1" st = Some (-1).
Proof. vm_compute. done. Qed.
(** [Destroy] of the master: its service is used after the callback removed it. *)
Example destroy_uses_freed_service :
  let destroy : Z -> Z -> M D0 unit := fun id _ => on_container (set_removed (fun l => l ++ [id])) in
  exists why, (call_service run_cb destroy 4 7 with_master).1 = Crash why.
Proof. eexists. vm_compute. reflexivity. Qed.
(** When the owner of the firmware itself quits its callback destroys it, and its object
    stays, since it is not to be destroyed with its owner. *)
Example firmware_destroyed_object_left :
  let st := (on_container (update_service 2 (set_owner 7)) start).2 in
  let '(r, st') := client_hung_up (fun cb => match cb with RemoveAddon => on_firmware (fun f => set_addon_objects [("destroyed"%string, [])] f) | _ => mret tt end) 5 7 st in
  r = Ret (Some tt) /\ map_find "destroyed"%string (addon_objects (others st')) = Some [] /\ owner_of fw_path st' = Some (-1).
Proof. vm_compute. done. Qed.
End FirmwareDemo.
